(* ===== verification/_CoqProject ===== *)
-Q . S2P
Prelude.v
Config.v
ErrState.v
RunState.v
PagePool.v
PagePoolFacts.v
Page.v
Region.v
PageFacts.v
Kmem.v
ProcState.v
Sched.v
SchedFacts.v
Kmutex.v
KmutexFacts.v
Proc.v
UserCopy.v
Signal.v
SignalFacts.v
Life.v
LifeFacts.v
LifeRun.v
Pipe.v
Path.v
PathFacts.v
Vfs.v
VfsFacts.v
Driver.v
Namei.v
NameiFacts.v
Bits.v
Z80.v
Z80Alu.v
Z80AluFacts.v
Z80Run.v
Z80Facts.v
Fd.v
FdFacts.v
ModCore.v
Mem.v
MemFacts.v
MemDemo.v
MemSeg.v
Tty.v
TtyFacts.v
BlkDev.v
BlkDevFacts.v
RamBlk.v
SectorDev.v
Time.v
TimeFacts.v
Poll.v
SysIo.v
SysIoFacts.v
Tmpfs.v
TmpfsFacts.v
TmpfsRun.v
Ufs.v
UfsOps.v
UfsBlocks.v
UfsInode.v
UfsTree.v
UfsFiles.v
UfsRun.v
UfsSafe.v
UfsDemo.v
Vfat.v
VfatOps.v
VfatFat.v
VfatFiles.v
VfatRun.v
VfatDir.v
VfatDemo.v
M68k.v
M68kAlu.v
M68kRun.v
M68kFacts.v
M68kAluFacts.v
M68kShiftFacts.v
M68kMovem.v
