(* ===== verification/Prelude.v ===== *)
(** * PiPAPo kernel verification: overview and prelude

    PiPAPo is a small multi-architecture Unix-like kernel in C (src/kernel,
    src/arch, src/target) with interpreters for Z80 and M68K programs.  This
    library models the core of the kernel and of the interpreters and proves the
    properties below.  The model is a shallow embedding: a C function becomes a
    function on an explicit state, with its guards in the order of the code; code
    between the two ends of a spinlock is one transition, and interleavings of
    processes and cores are sequences of transitions.

    ** Conventions

    An integer of [w] bits is a [Z] in its range; conversions and wrap-around are
    written [uN w] and [sN w] where the code can leave the range.  [.&], [.|] and
    [.^] are the C operators.  A pointer is an address with 0 for NULL, or a
    table index in an [option] where the code never does arithmetic on it.
    [None] as the result of an operation means behaviour that C leaves undefined
    (a NULL dereference, an index out of bounds), or, where there is a fuel
    argument, that the fuel is used up; each file says which.  Names of functions, fields
    and constants are those of the code.

    ** Parts of the program and the files that model them

    Memory.  PagePool is core/mm/page_pool.c, the array of free runs; Page is
    core/mm/page.c, which wraps it with the out-of-memory counter and the guard
    against double frees, and calls the hooks of mem_helper.h (a class, with the
    weak definitions of mem_helper.c as instance); Region is core/mm/region.c,
    which dispatches typed requests to the hooks or to the pages; Kmem is
    core/mm/kmem.c, the object pools whose free list runs through the objects.
    Mem is core/syscall/sys_mem.c over Page on the flat targets, the break and the
    anonymous mappings of a process in its slots for user pages; MemSeg is the same
    file as built for a target where a process is one segment; MemDemo runs both.

    Processes.  ProcState is the process table of common/core/proc_info.h with
    the globals of the scheduler and the mutexes, the state [kernel_t] shared by
    Sched (core/proc/sched.c), Kmutex (core/sync/kmutex.c), Proc
    (core/proc/proc.c and kstack.c) and Signal (core/signal/signal.c).  Sched
    chooses the next process for a core; Kmutex blocks and wakes processes
    through it; Proc gives out slots and returns user pages to Page; Signal
    posts, pops and dispatches signals and reads handlers from user memory
    through UserCopy (core/syscall/sys_io.c, core/mm/page_io.c).  Life is the part
    of core/syscall/sys_proc.c on the life of processes: the sections under
    [SPIN_PROC] of [sys_exit], [sys_vfork], [sys_waitpid], [sys_execve]'s end and
    [sys_ptrace], as the steps of a system whose calls in progress are part of the
    state.

    Time.  Time is core/syscall/sys_time.c, the wall clock over the tick counter of
    Sched and the calls that sleep; Poll is core/syscall/sys_poll.c on the same
    state.  Interrupts and the other core act between the steps of these calls, by
    a parameter; what the rest of the machine promises is a class.

    Terminals.  Tty is vfs/tty.c with its devices as backends; a program in it
    (RunState) gives up the processor by a step of [others], the rest of the
    machine, which is a parameter.

    Files.  Pipe is vfs/pipe.c; its data goes through UserCopy.  Fd is the pool
    of open files of vfs/fd.c with the calls of core/syscall/sys_fs.c and
    sys_proc.c that change descriptor tables.  SysIo is the rest of
    core/syscall/sys_io.c, reading and writing by pieces within a page over a class
    that stands for the file layer, and [sys_ioctl].  Path is [path_normalize] of
    vfs/namei.c on memory; Vfs is the vnodes and the mount table of vfs/vfs.c;
    Namei is the walk of vfs/namei.c over Vfs.  The walk uses [normalize], the
    specification that PathFacts shows [path_normalize] to compute, and the
    vnode and scratch pools of Vfs are the stacks that Kmem refines.  ModCore is
    the part of the table mod_core (common/mod) a file system gets its pages
    from, a class that Region implements; Tmpfs is vfs/tmpfs.c over it, and
    TmpfsRun makes tmpfs an instance of the driver contract of Namei.

    Disks.  BlkDev is vfs/driver/blkdev.c, the registry of block devices with the
    write-through cache of sectors, over raw drivers that are a class; RamBlk is
    two of them, ramblk.c and flatblk.c beside it.  SectorDev is what a file system
    uses of a device: BlkDev over any raw driver is an instance.  Ufs is the lower
    half of vfs/ufs.c, from sectors to the block map and the freeing of trees, and
    UfsOps its operations on vnodes, in the error monad of ErrState over the state
    of Vfs.  UfsBlocks, UfsInode, UfsTree and UfsFiles relate them, from below, to
    bitmaps, inodes, block maps and contents of files, for every device that keeps
    the contract; UfsRun has what [ufs_read] and [ufs_write] promise, UfsSafe the
    driver contract of Namei, UfsDemo an image on which all of it is run.
    Driver has what the operations of a disk file system share.  Vfat is the lower
    half of vfs/vfat.c with vfat_format.h: the FAT and its cache, entries and
    names; VfatOps its operations on vnodes, where the loops of the code over a
    directory are one [walk].  VfatFat, VfatFiles and VfatDir relate them, from
    below, to a volume (a function from sectors to contents with the cache laid
    over it), to chains of clusters and the bytes of files, and to the entries of
    a directory; VfatRun has the theorems on files and on the FAT, VfatDemo an
    image.

    Interpreters.  Z80 is the state and the accessors of core/cpu/ecpu_z80.c,
    Z80Alu is core/cpu/ecpu_z80_alu.c, Z80Run the decoders and the main loop.
    M68k, M68kAlu and M68kRun are core/cpu/ecpu_m68k.c and ecpu_m68k_alu.c in the
    same way, as programs in a state monad.  Bits holds the arithmetic they
    share.  The trap handlers are parameters.

    Config has the constants of config.h and errno.h.  For a file X, XFacts has
    the proofs where they are long.

    ** What is shown

    - Allocation (PagePoolFacts, PageFacts, Kmem): every operation of the page
      pool is related to the set of free pages, on its success and its failure
      branches, and keeps the run list sorted and merged; allocation followed by
      release restores the pool; no page and no object is ever lost or handed
      out twice; a multi-page request at a fixed place is atomic.
    - Breaks and mappings (MemFacts, MemSeg): a process that moves its break only
      over slots that hold no mapping, unmaps only what it mapped, and exits leaves
      the free pages it found; the break moves exactly when the pages for it are
      free, and otherwise nothing changes.  MemDemo shows pages lost or freed twice
      without the two conditions.  In a segment the heap, the mappings and the
      stack never overlap.
    - Scheduling (SchedFacts): the round-robin policy, its bound on waiting, the
      exclusive ownership of a process by a core, exact time slices, deadlines
      across the wrap of the tick counter, exact wake-ups.
    - Mutexes (KmutexFacts): no wake-up is lost under any interleaving; a dying
      process gives up everything it holds.
    - Processes (Proc): slot allocation; release of the pages that a process
      sharing memory with its parent does not share.
    - Exits and waiting (LifeRun): under any interleaving of the sections in which
      no two [sys_vfork] overlap and init does not end, every process has a living
      parent, an exit is reported once and to the parent, and no process sleeps in
      [sys_waitpid] while there is something to report to it.  The code does not
      keep two [sys_vfork] apart on two cores, and [vfork_overlap] is a run in
      which an exit is lost.
    - Time (TimeFacts, Poll): a sleep ends, after its whole length or with a signal
      and the rest of the time; the wall clock goes on from what was set; a poll
      ends, with what the files said or when its time is over.
    - Reading and writing (SysIoFacts): vectored calls move a part of the bytes of
      the buffers, from the start and in order, and say how much; they stop before
      the end only at a request of theirs that is answered with less than it asks.
    - Terminals (TtyFacts): what a reader gets is what a line editor makes of the
      characters typed, in whatever portions they come, as long as no signal
      arrives; a writer's characters reach the line in order, all of them unless
      it may not sleep or a signal arrives while it sleeps.  A process that sleeps
      is assumed to be resumed, though the code can lose the wake-up.
    - User memory (UserCopy): the page-wise copies are flat copies.
    - Signals (SignalFacts): order of delivery, the branches of [sys_kill], the
      default handlers of SIGKILL and SIGSTOP.
    - Pipes (Pipe): the ring is a bounded queue, and a pipe a reliable stream.
    - Paths and lookups (PathFacts, VfsFacts, NameiFacts): normalization in place
      or to another buffer computes a canonical form; the longest mount is
      chosen; unmounting never leaves a vnode behind; lookups end and leak
      neither a vnode nor a buffer, for any driver that keeps its contract.
    - Open files (FdFacts): the reference counts of the pool are exact under any
      interleaving of the calls that open, share and close files.
    - Z80 (Z80AluFacts, Z80Facts): the arithmetic and its flags, decimal
      adjustment, return of budgeted runs, the index prefixes, block copies.
    - tmpfs (TmpfsFacts, TmpfsRun): sequences of calls keep the inode table
      consistent and account for every page, if no call is on a file that was
      unlinked, no name is longer than an entry holds, no buffer lies in the pages
      of tmpfs, and nothing is renamed onto or into itself (the examples show what
      happens otherwise); a file is the string its writes and truncations
      describe; under the same conditions the names are a finite map that create,
      unlink and rename update; lookups keep the driver contract.
    - Block devices (BlkDevFacts): cached requests, in whatever mixture with
      uncached ones, transfer what the raw driver alone would.
    - UFS (UfsRun, UfsSafe): on any device that may fail at any time, no call
      leaks a vnode or a scratch buffer.  Ghost counters of the contract of a
      device (SectorDevOk) count the requests it refuses, and the cases of an
      error are those in which the call's own requests were refused.  On a
      consistent disk, where no block is in two places and all that are in use are
      marked, the block map is an array, inodes are stored independently, a read
      returns the file's bytes, and a complete write changes the bytes it covers,
      no other byte of any file, and leaves the disk consistent.
    - VFAT (VfatRun, VfatDir): the FAT behind its cache is a map, written back in
      full; freeing a chain ends even where the chain is cyclic; a read returns the
      bytes of the file's chain; a write to a file with a cluster, whose entry lies
      in the first 32 MB, changes the bytes it covers and no other chain, extends
      the file by clusters that were free, puts the new size in the entry, and
      fails only when none is left; short names are encoded one to one up to case;
      a created file is found, unless an unfinished long name stands before its
      slot.  VfatDemo runs the cases in which long names and large volumes go
      wrong.
    - M68K (M68kFacts, M68kAluFacts, M68kShiftFacts, M68kMovem): a program stays
      within its memory up to the overrun of three bytes that the code has;
      budgeted runs return; sums, differences, products, quotients and decimal
      digits with all flags (the quotient of -2^31 by -1, which C leaves
      undefined, is [None]); the branch conditions as comparisons; shifts and
      rotates of any count; MOVEM restores what it saved.

    ** Fuel and bounds

    Recursion over a C array is structural with the array's size.  The walks of
    Kmutex along the list of held mutexes have fuel for all mutexes of the kernel
    and one more, and the invariant bounds the list by that; [path_normalize]
    is given its fuel, and two more than the length of the string is shown to be
    enough; [walk] has fuel for the length of the path, and the restarts of a
    lookup are counted from the limit on links; a budget of [n] instructions is
    shown to end within [2 * n] passes of the Z80 loop and [n] of the M68K loop;
    the copy loops of Tmpfs have fuel for the bytes to copy, and so have those of
    UfsOps, whose every pass moves a byte; the scan of a directory sector has the
    sector's length, since an entry has at least a byte.  In VfatOps the loops
    along a chain of clusters have as fuel the number [links], and where it is
    used up the result is [HANGS]: more links than the volume has clusters are
    enough for a chain, and the theorems say so; a store outside a local array is
    the result [STRAYS].  A loop of Tty that reads a character per pass is shown to
    end for the characters that come.  Table sizes are those of
    config.h, and parameters of the target are records or classes.

    ** What is not modelled

    Context switches, traps and the frames on user stacks (assembly, one for each
    architecture), the drivers of hardware and boot code.  Of [pcb_t], the saved
    registers and the exec, trace and subsystem payloads.  In Life the idle task of
    a second core does not appear, and the copy to user memory after a section is
    part of it.  [sys_vfork] is three steps, the choice of a slot, the setup and the
    publication, and LifeRun is about runs in which these steps of two calls do not
    interleave.
    In Tty an interrupt handler runs between the steps of a call, and TtyFacts assumes that no other
    process uses the terminal meanwhile and that a sleeping process is resumed.
    The mutex of a [struct file] does not appear in Fd: an operation there holds
    only its reference.  Spinlocks do not appear, as their sections are atomic;
    that the code takes them in a consistent order is not checked.
    In UFS the boot-time self-test of the allocator and the mutex around each
    operation; there a device has no memory in common with the file system but
    the sector buffer.  Names in directories and the freeing of blocks are
    executed by the examples of UfsDemo but proved only not to leak references.
    In VFAT the theorems on writing are for a device that serves every sector of
    the volume; reading allows for errors.

    In Time and Poll user memory is flat, and the signal mask of [sys_ppoll] is
    ignored as it is in the code.

    Not reached: the path calls of vfs.c with [vfs_fd_open]; klog.c, fstab.c,
    romfs.c, the device and process file systems; the loaders; the guest
    personalities (CP/M, Human68k, MS-DOS, S-OS), which need those calls first.

    This file has the notation, the integer conversions and the lemmas on them
    that all others share. *)

From stdpp Require Export base tactics numbers list gmap.
From Stdlib Require Export ZArith Lia.

#[global] Open Scope Z_scope.

(** ** Fixed-width integers of C *)

(** [uN w z] is the value of [z] converted to an unsigned [w]-bit type. *)
Definition uN (w z : Z) : Z := z mod 2 ^ w.

(** [sN w z] is the two's complement reading of the low [w] bits of [z]. *)
Definition sN (w z : Z) : Z :=
  let u := uN w z in if u <? 2 ^ (w - 1) then u else u - 2 ^ w.

Abbreviation u8 := (uN 8).
Abbreviation u16 := (uN 16).
Abbreviation u32 := (uN 32).
Abbreviation s8 := (sN 8).
Abbreviation s16 := (sN 16).
Abbreviation s32 := (sN 32).

Lemma uN_range w z : 0 <= w → 0 <= uN w z < 2 ^ w.
Proof. intros. apply Z.mod_pos_bound. lia. Qed.

Lemma uN_small w z : 0 <= z < 2 ^ w → uN w z = z.
Proof. intros. by apply Z.mod_small. Qed.

Lemma s32_small z : - 2 ^ 31 <= z < 2 ^ 31 → s32 z = z.
Proof.
  intros Hz. unfold sN, uN. change (2 ^ (32 - 1)) with 2147483648. change (2 ^ 32) with 4294967296.
  destruct (decide (0 <= z)).
  - rewrite Z.mod_small by lia. by destruct (Z.ltb_spec z 2147483648); [|lia].
  - rewrite <- (Z_mod_plus_full z 1), Z.mod_small by lia.
    destruct (Z.ltb_spec (z + 1 * 4294967296) 2147483648); lia.
Qed.

Lemma uN_idem w z : 0 <= w → uN w (uN w z) = uN w z.
Proof. intros. apply uN_small, uN_range. lia. Qed.

Lemma u8_range z : 0 <= u8 z < 256.
Proof. apply (uN_range 8). lia. Qed.
Lemma u16_range z : 0 <= u16 z < 65536.
Proof. apply (uN_range 16). lia. Qed.
Lemma u32_range z : 0 <= u32 z < 4294967296.
Proof. apply (uN_range 32). lia. Qed.

(** The bitwise operators of C, with shifts [≪] and [≫] from stdpp. *)
Declare Scope c_scope.
Delimit Scope c_scope with C.
Infix ".&" := Z.land (at level 53, left associativity) : c_scope.
Infix ".^" := Z.lxor (at level 56, left associativity) : c_scope.
Infix ".|" := Z.lor (at level 57, left associativity) : c_scope.

(** [x & m] as a condition. *)
Definition bset (x m : Z) : bool := negb (Z.land x m =? 0).

(** [b ? m : 0] *)
Definition flag (b : bool) (m : Z) : Z := if b then m else 0.

(** ** Hints shared by the components *)

(** ** Sums over lists *)

Definition ind (b : bool) : Z := if b then 1 else 0.

Lemma ind_range b : 0 <= ind b <= 1.
Proof. destruct b; cbn; lia. Qed.

Fixpoint zsum {A} (f : A → Z) (l : list A) : Z :=
  match l with
  | [] => 0
  | x :: l => f x + zsum f l
  end.

Lemma zsum_alter {A} (f : A → Z) g l i x : l !! i = Some x → zsum f (alter g i l) = zsum f l - f x + f (g x).
Proof.
  revert i. induction l as [|y l IH]; intros [|i]; cbn [lookup list_lookup zsum alter list_alter]; intros Hi; simplify_eq; [lia|].
  rewrite (IH i) by done. lia.
Qed.

Lemma zsum_insert {A} (f : A → Z) l i v x : l !! i = Some x → zsum f (<[i := v]> l) = zsum f l - f x + f v.
Proof.
  revert i. induction l as [|y l IH]; intros [|i]; cbn [lookup list_lookup zsum]; intros Hi; simplify_eq/=; [lia|]. rewrite IH by done. lia.
Qed.

Lemma zsum_bound {A} (f : A → Z) l b : Forall (λ x, 0 <= f x <= b) l → 0 <= zsum f l <= Z.of_nat (length l) * b.
Proof. induction 1; cbn [zsum length]; lia. Qed.

Lemma zsum_elem {A} (f : A → Z) l x : x ∈ l → Forall (λ y, 0 <= f y) l → f x <= zsum f l.
Proof.
  intros Hx Hl. induction Hl as [|y l Hy Hl IH]; [by apply not_elem_of_nil in Hx|]. cbn [zsum].
  assert (0 <= zsum f l) by (clear -Hl; induction Hl; cbn [zsum]; lia).
  apply elem_of_cons in Hx as [->|Hx]; [lia|]. specialize (IH Hx). lia.
Qed.

Lemma zsum_zero {A} (f : A → Z) l : Forall (λ x, f x = 0) l → zsum f l = 0.
Proof. induction 1; cbn [zsum]; lia. Qed.

(** ** A list given by its elements *)

Lemma seq_fmap_lookup (g : nat → Z) n k : (g <$> seq 0 n) !! k = if decide (k < n)%nat then Some (g k) else None.
Proof.
  rewrite list_lookup_fmap. case_decide.
  - by rewrite lookup_seq_lt.
  - by rewrite lookup_seq_ge by lia.
Qed.

(** ** Byte strings read and written at an offset *)

Definition pread (f : list Z) (off n : nat) : list Z := take n (drop off f).
Definition pwrite (f data : list Z) (off : nat) : list Z :=
  take off (f ++ replicate (off - length f) 0) ++ data ++ drop (off + length data) f.

Lemma pwrite_lookup f data off k : pwrite f data off !! k =
  if decide (k < off)%nat then (if decide (k < length f)%nat then f !! k else Some 0)
  else if decide (k < off + length data)%nat then data !! (k - off)%nat else f !! k.
Proof.
  unfold pwrite. assert (length (take off (f ++ replicate (off - length f) 0)) = off) as Hl
    by (rewrite length_take, length_app, length_replicate; lia).
  case_decide; [|case_decide].
  - rewrite lookup_app_l by lia. rewrite lookup_take_lt by lia. case_decide; [by rewrite lookup_app_l by lia|].
    rewrite lookup_app_r by lia. apply lookup_replicate_2. lia.
  - rewrite lookup_app_r, Hl, lookup_app_l by lia. done.
  - rewrite lookup_app_r, Hl, lookup_app_r, lookup_drop by lia. f_equal. lia.
Qed.

Create HintDb ppap.
#[export] Hint Resolve u8_range u16_range u32_range : ppap.
#[export] Hint Rewrite @length_insert @length_app @length_take @length_drop
  @length_replicate : ppap_len.

(** ** Tactics *)

(** Split the goal's [match]/[if] discriminees and keep their equations. *)
Ltac cases := repeat (case_match; simplify_eq/=).

(** Turn boolean comparisons of the context into propositions. *)
Ltac zb :=
  repeat match goal with
  | H : (_ <? _) = true |- _ => apply Z.ltb_lt in H
  | H : (_ <? _) = false |- _ => apply Z.ltb_ge in H
  | H : (_ <=? _) = true |- _ => apply Z.leb_le in H
  | H : (_ <=? _) = false |- _ => apply Z.leb_gt in H
  | H : (_ =? _) = true |- _ => apply Z.eqb_eq in H
  | H : (_ =? _) = false |- _ => apply Z.eqb_neq in H
  | H : (_ && _) = true |- _ => apply andb_true_iff in H as [? ?]
  | H : (_ && _) = false |- _ => apply andb_false_iff in H
  | H : (_ || _) = true |- _ => apply orb_true_iff in H
  | H : (_ || _) = false |- _ => apply orb_false_iff in H as [? ?]
  | H : negb _ = true |- _ => apply negb_true_iff in H
  | H : negb _ = false |- _ => apply negb_false_iff in H
  end.
