(* ===== verification/Config.v ===== *)
(** * Config: compile-time constants and error numbers

    The constants of src/kernel/common/config.h and src/common/errno.h the
    modelled components use, with the target-dependent ones in [PageConfig]
    (PagePool) and [PageTarget] (Page). *)

From S2P Require Import Prelude.

(** ** config.h *)
Definition PROC_MAX : nat := 8.
Definition FD_MAX : nat := 16.
Definition PROC_DEFAULT_TICKS : Z := 10.
Definition FILE_MAX : nat := 32.
Definition FD_DESC_NONE : Z := -1.
Definition PAGE_SIZE : Z := 4096.
Definition VFS_MOUNT_MAX : nat := 8.
Definition VFS_VNODE_MAX : nat := 64.
Definition VFS_NAME_MAX : nat := 63.
Definition VFS_PATH_MAX : nat := 128.
Definition VFS_SYMLOOP_MAX : Z := 4.
Definition USER_PAGES_MAX : nat := 64.
Definition BLKDEV_MAX : nat := 4.
Definition BLKDEV_CACHE_SLOTS : nat := 4.
Definition BLKDEV_SECTOR_SIZE : Z := 512.
Definition TMPFS_INODE_MAX : nat := 16.
Definition TMPFS_NAME_MAX : nat := 31.
Definition TMPFS_DATA_MAX : Z := 8192.

(** ** errno.h *)
Definition EPERM : Z := 1.
Definition ECHILD : Z := 10.
Definition ENOENT : Z := 2.
Definition ESRCH : Z := 3.
Definition EINTR : Z := 4.
Definition EIO : Z := 5.
Definition EBADF : Z := 9.
Definition EAGAIN : Z := 11.
Definition ENOMEM : Z := 12.
Definition EFAULT : Z := 14.
Definition EBUSY : Z := 16.
Definition EEXIST : Z := 17.
Definition EXDEV : Z := 18.
Definition ENODEV : Z := 19.
Definition ENOTDIR : Z := 20.
Definition EISDIR : Z := 21.
Definition EINVAL : Z := 22.
Definition EMFILE : Z := 24.
Definition ENOTTY : Z := 25.
Definition ENOSPC : Z := 28.
Definition ESPIPE : Z := 29.
Definition EROFS : Z := 30.
Definition EPIPE : Z := 32.
Definition ERANGE : Z := 34.
Definition ENAMETOOLONG : Z := 36.
Definition ENOSYS : Z := 38.
Definition ENOTEMPTY : Z := 39.
Definition ELOOP : Z := 40.
