(* ===== verification/ErrState.v ===== *)
(** * ErrState: programs that change a state and may stop with an error number

    The monad of the file system models: [if (rc < 0) return rc;] is its bind.
    Its logic is a weakest precondition with one condition for the result and one
    for the error; a loop that stops at its first error is [for_each]. *)

From S2P Require Import Prelude.

Definition prog (S A : Type) : Type := S → (Z + A) * S.

#[export] Instance prog_ret {S} : MRet (prog S) := λ A x s, (inr x, s).
#[export] Instance prog_bind {S} : MBind (prog S) := λ A B f m s,
  match m s with
  | (inl e, s) => (inl e, s)
  | (inr x, s) => f x s
  end.

Section Programs.
Context {S : Type}.

Definition throw {A} (e : Z) : prog S A := λ s, (inl e, s).
Definition gets {A} (f : S → A) : prog S A := λ s, (inr (f s), s).
Definition modify (f : S → S) : prog S unit := λ s, (inr (), f s).
(** A C function that returns a status and leaves its result in the state. *)
Definition status {A} (f : S → Z * A * S) : prog S A := λ s,
  let '(rc, x, s) := f s in if rc <? 0 then (inl rc, s) else (inr x, s).
(** The result with its error, for a caller that goes on either way. *)
Definition attempt {A} (m : prog S A) : prog S (Z + A) := λ s, let '(r, s) := m s in (inr r, s).
Definition ignore {A} (m : prog S A) : prog S unit := λ s, (inr (), (m s).2).
(** [m] under the larger state [T]. *)
Definition zoom {T A} (get : T → S) (set : S → T → T) (m : prog S A) : prog T A := λ t,
  let '(r, s) := m (get t) in (r, set s t).

(** [for (i = a; n passes; i++) f(i);] *)
Fixpoint for_each (n : nat) (i : Z) (f : Z → prog S unit) : prog S unit :=
  match n with
  | O => mret ()
  | Datatypes.S n => f i;; for_each n (i + 1) f
  end.
(** The same with a [return] from within: the first result ends the loop. *)
Fixpoint find_each {A} (n : nat) (i : Z) (f : Z → prog S (option A)) : prog S (option A) :=
  match n with
  | O => mret None
  | Datatypes.S n => r ← f i; match r with Some x => mret (Some x) | None => find_each n (i + 1) f end
  end.

(** ** Weakest preconditions *)

Definition wp {A} (m : prog S A) (Q : A → S → Prop) (E : Z → S → Prop) (s : S) : Prop :=
  match m s with
  | (inr x, s') => Q x s'
  | (inl e, s') => E e s'
  end.

Lemma wp_ret {A} (x : A) Q E s : Q x s → wp (mret x) Q E s.
Proof. done. Qed.

Lemma wp_bind {A B} (m : prog S A) (f : A → prog S B) Q E s : wp m (λ x, wp (f x) Q E) E s → wp (m ≫= f) Q E s.
Proof. unfold wp, mbind, prog_bind. by destruct (m s) as [[e|x] s']. Qed.

Lemma wp_mono {A} (m : prog S A) Q Q' (E E' : Z → S → Prop) s :
  wp m Q E s → (∀ x s', Q x s' → Q' x s') → (∀ e s', E e s' → E' e s') → wp m Q' E' s.
Proof. unfold wp. destruct (m s) as [[e|x] s']; auto. Qed.

Lemma wp_throw {A} e Q E s : E e s → wp (throw e : prog S A) Q E s.
Proof. done. Qed.
Lemma wp_gets {A} (f : S → A) Q E s : Q (f s) s → wp (gets f) Q E s.
Proof. done. Qed.
Lemma wp_modify f Q E s : Q () (f s) → wp (modify f) Q E s.
Proof. done. Qed.
Lemma wp_attempt {A} (m : prog S A) (Q : Z + A → S → Prop) E s : wp m (λ x, Q (inr x)) (λ e, Q (inl e)) s → wp (attempt m) Q E s.
Proof. unfold wp, attempt. by destruct (m s) as [[e|x] s']. Qed.
Lemma wp_ignore {A} (m : prog S A) (Q : unit → S → Prop) E s : wp m (λ _, Q ()) (λ _, Q ()) s → wp (ignore m) Q E s.
Proof. unfold wp, ignore. by destruct (m s) as [[e|x] s']. Qed.

Lemma wp_run {A} (m : prog S A) Q E s r s' : wp m Q E s → m s = (r, s') → match r with inr x => Q x s' | inl e => E e s' end.
Proof. unfold wp. intros H Em. rewrite Em in H. by destruct r. Qed.

(** The invariant of a loop is indexed by the passes that are left. *)
Lemma wp_for (I : nat → S → Prop) E n i f s : I n s →
  (∀ k s, (k < n)%nat → I (Datatypes.S k) s → wp (f (i + Z.of_nat (n - Datatypes.S k))) (λ _, I k) E s) →
  wp (for_each n i f) (λ _, I O) E s.
Proof.
  revert i s. induction n as [|n IH]; intros i s Hi Hstep; [done|]. apply wp_bind. eapply wp_mono; [|intros [] s1 H1|by intros].
  - specialize (Hstep n s ltac:(lia) Hi). replace (Datatypes.S n - Datatypes.S n)%nat with 0%nat in Hstep by lia. by rewrite Z.add_0_r in Hstep.
  - apply IH; [done|]. intros k s2 Hk H2. specialize (Hstep k s2 ltac:(lia) H2).
    replace (i + Z.of_nat (Datatypes.S n - Datatypes.S k)) with (i + 1 + Z.of_nat (n - Datatypes.S k)) in Hstep by lia. done.
Qed.

(** [I j] holds before pass [j]. *)
Lemma wp_find {A} (I : Z → S → Prop) (Q : option A → S → Prop) E n i f s : I i s →
  (∀ j s, i <= j < i + Z.of_nat n → I j s → wp (f j) (λ r s', match r with Some x => Q (Some x) s' | None => I (j + 1) s' end) E s) →
  (∀ s, I (i + Z.of_nat n) s → Q None s) → wp (find_each n i f) Q E s.
Proof.
  revert i s. induction n as [|n IH]; intros i s Hi Hstep Hend; cbn [find_each]; [apply Hend; by rewrite Z.add_0_r|].
  apply wp_bind. eapply wp_mono; [apply (Hstep i s); [lia|done]|intros [x|] s1 H1; [done|]|by intros]. apply IH; [done|..].
  - intros j s2 Hj H2. apply Hstep; [lia|done].
  - intros s2 H2. apply Hend. by replace (i + Z.of_nat (Datatypes.S n)) with (i + 1 + Z.of_nat n) by lia.
Qed.

(** The same for a loop that runs through. *)
Lemma wp_each (I : Z → S → Prop) E n i f s : I i s →
  (∀ j s, i <= j < i + Z.of_nat n → I j s → wp (f j) (λ _, I (j + 1)) E s) → wp (for_each n i f) (λ _, I (i + Z.of_nat n)) E s.
Proof.
  revert i s. induction n as [|n IH]; intros i s Hi Hstep; cbn [for_each]; [by apply wp_ret; rewrite Z.add_0_r|].
  apply wp_bind. eapply wp_mono; [apply (Hstep i s); [lia|done]|intros [] s1 H1|by intros].
  replace (i + Z.of_nat (Datatypes.S n)) with (i + 1 + Z.of_nat n) by lia. apply IH; [done|]. intros j s2 Hj H2. apply Hstep; [lia|done].
Qed.
End Programs.
