(* ===== verification/RunState.v ===== *)
(** * RunState: programs that wait for others and may not end

    A state monad without a result where a loop has run out of fuel, a pointer is
    NULL or a process is never resumed.  Its logic is of total correctness: [ends]
    says that there is a result. *)

From S2P Require Import Prelude.

Definition run (S A : Type) : Type := S → option (A * S).

#[export] Instance run_ret {S} : MRet (run S) := λ A x s, Some (x, s).
#[export] Instance run_bind {S} : MBind (run S) := λ A B f m s,
  match m s with
  | Some (x, s) => f x s
  | None => None
  end.

Section Runs.
Context {S : Type}.

Definition stuck {A} : run S A := λ _, None.
Definition look {A} (f : S → A) : run S A := λ s, Some (f s, s).
Definition change (f : S → S) : run S unit := λ s, Some ((), f s).

(** [for (;;) body], left by a result of the body. *)
Fixpoint loop {A} (fuel : nat) (body : run S (option A)) : run S A :=
  match fuel with
  | O => stuck
  | Datatypes.S fuel => r ← body; match r with Some x => mret x | None => loop fuel body end
  end.

(** The first result of a list of attempts, [None] when all have passed. *)
Fixpoint each {A B} (f : A → run S (option B)) (l : list A) : run S (option B) :=
  match l with
  | [] => mret None
  | x :: l => r ← f x; match r with Some y => mret (Some y) | None => each f l end
  end.

(** ** Total correctness *)

Definition ends {A} (m : run S A) (Q : A → S → Prop) (s : S) : Prop :=
  match m s with
  | Some (x, s') => Q x s'
  | None => False
  end.

Lemma ends_ret {A} (x : A) (Q : A → S → Prop) s : Q x s → ends (mret x) Q s.
Proof. done. Qed.

Lemma ends_bind {A B} (m : run S A) (f : A → run S B) Q s : ends m (λ x, ends (f x) Q) s → ends (m ≫= f) Q s.
Proof. unfold ends, mbind, run_bind. by destruct (m s) as [[x s']|]. Qed.

Lemma ends_mono {A} (m : run S A) (Q Q' : A → S → Prop) s : ends m Q s → (∀ x s', Q x s' → Q' x s') → ends m Q' s.
Proof. unfold ends. destruct (m s) as [[x s']|]; auto. Qed.

(** The rule of sequencing, with the intermediate condition. *)
Lemma ends_seq {A B} (m : run S A) (f : A → run S B) P Q s : ends m P s → (∀ x s', P x s' → ends (f x) Q s') → ends (m ≫= f) Q s.
Proof. intros Hm Hf. apply ends_bind. by eapply ends_mono. Qed.

Lemma ends_look {A} (f : S → A) (Q : A → S → Prop) s : Q (f s) s → ends (look f) Q s.
Proof. done. Qed.
Lemma ends_change f (Q : unit → S → Prop) s : Q () (f s) → ends (change f) Q s.
Proof. done. Qed.

Lemma ends_run {A} (m : run S A) (Q : A → S → Prop) s : ends m Q s → ∃ x s', m s = Some (x, s') ∧ Q x s'.
Proof. unfold ends. destruct (m s) as [[x s']|]; [|done]. eauto. Qed.

(** A loop ends when each pass that goes on makes [size] smaller. *)
Lemma ends_loop {A} (I : S → Prop) (size : S → nat) (Q : A → S → Prop) fuel body s : I s → (size s < fuel)%nat →
  (∀ s, I s → ends body (λ r s', match r with Some x => Q x s' | None => I s' ∧ (size s' < size s)%nat end) s) →
  ends (loop fuel body) Q s.
Proof.
  revert s. induction fuel as [|fuel IH]; intros s Hi Hf Hb; [lia|]. cbn [loop]. eapply ends_seq; [by apply Hb|].
  intros [x|] s'; [by intros ?; apply ends_ret|]. intros [Hi' Hs]. apply IH; [done|lia|done].
Qed.
End Runs.
