(* ===== verification/PagePool.v ===== *)
(** * PagePool: the pure page-allocator core (src/kernel/core/mm/page_pool.c)

    The static array [free_blocks] with its count and page total, every function
    of the file as a state transformer over it, and the correctness of those
    functions with respect to the set of free pages.  *)

From S2P Require Import Prelude.

(** ** Target configuration

    [page_id_t] is 8, 16 or 32 bits wide depending on the architecture
    (page_types.h) and [PAGE_COUNT_MAX] is set per target (config.h). *)
Class PageConfig := {
  page_id_bits : Z;
  page_count_max : nat;
  page_id_bits_range : 8 <= page_id_bits <= 32;
  page_count_max_lo : (0 < page_count_max)%nat;
  page_count_max_hi : Z.of_nat page_count_max < 2 ^ 16
}.

(** [free_block_t] *)
Record free_block_t := FreeBlock { fb_base : Z; fb_pages : Z }.

#[export] Instance free_block_inhabited : Inhabited free_block_t :=
  populate (FreeBlock 0 0).
#[export] Instance free_block_eq_dec : EqDecision free_block_t.
Proof. solve_decision. Defined.

(** The static variables of page_pool.c. *)
Record pool_t := Pool {
  free_blocks : list free_block_t;
  free_block_count : nat;
  free_page_total : Z
}.

Section Operations.
Context {cfg : PageConfig}.

(** [(page_id_t)x] *)
Definition to_page_id (x : Z) : Z := uN page_id_bits x.

(** [PAGE_ID_INVALID] *)
Definition PAGE_ID_INVALID : Z := 2 ^ page_id_bits - 1.

(** [FREE_BLOCKS_MAX] *)
Definition FREE_BLOCKS_MAX : nat := page_count_max.

(** One past the block's last page, as the code computes it. *)
Definition fb_end (b : free_block_t) : Z := to_page_id (fb_base b + fb_pages b).

Definition set_blocks (s : pool_t) (bs : list free_block_t) : pool_t :=
  Pool bs (free_block_count s) (free_page_total s).

Definition set_count (s : pool_t) (n : nat) : pool_t :=
  Pool (free_blocks s) n (free_page_total s).

Definition set_total (s : pool_t) (n : Z) : pool_t :=
  Pool (free_blocks s) (free_block_count s) n.

(** [free_blocks[i]] and [free_blocks[i] = b] *)
Definition blk (s : pool_t) (i : nat) : free_block_t := free_blocks s !!! i.

Definition set_blk (s : pool_t) (i : nat) (b : free_block_t) : pool_t :=
  set_blocks s (<[i := b]> (free_blocks s)).

(** The loop of [block_insert_at]: [for (i = count; i > idx; i--)
    free_blocks[i] = free_blocks[i - 1]]; [k] is [i - idx]. *)
Fixpoint shift_up (k : nat) (idx : nat) (a : list free_block_t) : list free_block_t :=
  match k with
  | O => a
  | S k' => shift_up k' idx (<[(idx + S k')%nat := a !!! (idx + k')%nat]> a)
  end.

(** [block_insert_at]: [None] stands for the result -1. *)
Definition block_insert_at (s : pool_t) (idx : nat) (base n : Z) : option pool_t :=
  if (FREE_BLOCKS_MAX <=? free_block_count s)%nat then None
  else
    let a := shift_up (free_block_count s - idx) idx (free_blocks s) in
    let a := <[idx := FreeBlock base n]> a in
    Some (Pool a (S (free_block_count s)) (free_page_total s)).

(** The loop of [block_remove]: [for (i = idx; i + 1 < count; i++)
    free_blocks[i] = free_blocks[i + 1]]; [k] is [count - 1 - i]. *)
Fixpoint shift_down (k : nat) (i : nat) (a : list free_block_t) : list free_block_t :=
  match k with
  | O => a
  | S k' => shift_down k' (S i) (<[i := a !!! S i]> a)
  end.

Definition block_remove (s : pool_t) (idx : nat) : pool_t :=
  let a := shift_down (free_block_count s - S idx) idx (free_blocks s) in
  Pool a (free_block_count s - 1) (free_page_total s).

(** The scans [for (i = 0; i < count; i++) if (test(free_blocks[i])) return i];
    [None] is [BLOCK_NONE]. *)
Fixpoint scan (k : nat) (i : nat) (test : free_block_t → bool)
    (a : list free_block_t) : option nat :=
  match k with
  | O => None
  | S k' => if test (a !!! i) then Some i else scan k' (S i) test a
  end.

Definition block_find_containing (s : pool_t) (pid : Z) : option nat :=
  scan (free_block_count s) 0
    (λ b, (fb_base b <=? pid) && (pid <? fb_end b)) (free_blocks s).

Definition block_find_first_fit (s : pool_t) (n : Z) : option nat :=
  scan (free_block_count s) 0 (λ b, n <=? fb_pages b) (free_blocks s).

Definition block_take_front (s : pool_t) (idx : nat) (n : Z) : pool_t :=
  let b := blk s idx in
  if fb_pages b <=? n then block_remove s idx
  else set_blk s idx (FreeBlock (to_page_id (fb_base b + n)) (u16 (fb_pages b - n))).

Definition block_take_back_one (s : pool_t) (idx : nat) : Z * pool_t :=
  let b := blk s idx in
  let result := to_page_id (u32 (fb_base b + fb_pages b - 1)) in
  if fb_pages b =? 1 then (result, block_remove s idx)
  else (result, set_blk s idx (FreeBlock (fb_base b) (u16 (fb_pages b - 1)))).

(** [while (i < count && free_blocks[i].base < base) i++] *)
Fixpoint scan_base (k : nat) (i : nat) (base : Z) (a : list free_block_t) : nat :=
  match k with
  | O => i
  | S k' => if fb_base (a !!! i) <? base then scan_base k' (S i) base a else i
  end.

Definition block_insert_or_merge (s : pool_t) (base n : Z) : option pool_t :=
  if n =? 0 then Some s
  else
    let i := scan_base (free_block_count s) 0 base (free_blocks s) in
    let merged_left := (0 <? i)%nat && (fb_end (blk s (i - 1)) =? base) in
    let left := blk s (i - 1) in
    let s1 := if merged_left
              then set_blk s (i - 1) (FreeBlock (fb_base left) (u16 (fb_pages left + n)))
              else s in
    let base1 := if merged_left then fb_base (blk s1 (i - 1)) else base in
    let n1 := if merged_left then fb_pages (blk s1 (i - 1)) else n in
    if (i <? free_block_count s1)%nat
       && (to_page_id (base1 + n1) =? fb_base (blk s1 i)) then
      if merged_left then
        let l := blk s1 (i - 1) in
        let s2 := set_blk s1 (i - 1)
                    (FreeBlock (fb_base l) (u16 (fb_pages l + fb_pages (blk s1 i)))) in
        Some (block_remove s2 i)
      else
        Some (set_blk s1 i (FreeBlock base1 (u16 (fb_pages (blk s1 i) + n1))))
    else if merged_left then Some s1
    else block_insert_at s1 i base1 n1.

(** *** Public API of page_pool.h *)

Definition pool_reset (s : pool_t) : pool_t := set_total (set_count s 0%nat) 0.

Definition pool_add (s : pool_t) (base n : Z) : Z * pool_t :=
  if n =? 0 then (0, s)
  else if (FREE_BLOCKS_MAX <=? free_block_count s)%nat then (-1, s)
  else
    let s1 := set_blk s (free_block_count s) (FreeBlock base n) in
    let s2 := set_count s1 (S (free_block_count s)) in
    (0, set_total s2 (u32 (free_page_total s2 + n))).

Definition pool_take_n (s : pool_t) (n : Z) : Z * pool_t :=
  if n =? 0 then (PAGE_ID_INVALID, s)
  else if n =? 1 then
    if (free_block_count s =? 0)%nat then (PAGE_ID_INVALID, s)
    else
      let '(id, s1) := block_take_back_one s (free_block_count s - 1) in
      (id, set_total s1 (u32 (free_page_total s1 - 1)))
  else
    match block_find_first_fit s n with
    | None => (PAGE_ID_INVALID, s)
    | Some idx =>
        let base := fb_base (blk s idx) in
        let s1 := block_take_front s idx n in
        (base, set_total s1 (u32 (free_page_total s1 - n)))
    end.

(** The scan for the longest block; [best = None] is [BLOCK_NONE]. *)
Fixpoint scan_largest (k : nat) (i : nat) (best : option nat) (best_size : Z)
    (a : list free_block_t) : option nat * Z :=
  match k with
  | O => (best, best_size)
  | S k' =>
      if best_size <? fb_pages (a !!! i)
      then scan_largest k' (S i) (Some i) (fb_pages (a !!! i)) a
      else scan_largest k' (S i) best best_size a
  end.

(** The result is (base, *got). *)
Definition pool_take_largest (s : pool_t) (min_pages max_pages : Z) : Z * Z * pool_t :=
  if (min_pages =? 0) || (max_pages <? min_pages) then (PAGE_ID_INVALID, 0, s)
  else
    let '(best, best_size) :=
      scan_largest (free_block_count s) 0 None 0 (free_blocks s) in
    match best with
    | None => (PAGE_ID_INVALID, 0, s)
    | Some best =>
        if best_size <? min_pages then (PAGE_ID_INVALID, 0, s)
        else
          let take := if max_pages <? best_size then max_pages else best_size in
          let base := fb_base (blk s best) in
          let s1 := block_take_front s best take in
          (base, take, set_total s1 (u32 (free_page_total s1 - take)))
    end.

(** The code drops the status of the two inner calls: a failed insertion leaves
    the state as it was, hence [default]. *)
Definition pool_take_at (s : pool_t) (id : Z) : Z * pool_t :=
  match block_find_containing s id with
  | None => (-1, s)
  | Some idx =>
      let b := blk s idx in
      let s1 := block_remove s idx in
      let s2 := if fb_base b <? id
                then default s1 (block_insert_or_merge s1 (fb_base b) (u16 (id - fb_base b)))
                else s1 in
      let post_base := to_page_id (id + 1) in
      let b_end := fb_end b in
      let s3 := if post_base <? b_end
                then default s2 (block_insert_or_merge s2 post_base (u16 (b_end - post_base)))
                else s2 in
      (0, set_total s3 (u32 (free_page_total s3 - 1)))
  end.

Definition pool_release (s : pool_t) (base n : Z) : Z * pool_t :=
  if n =? 0 then (0, s)
  else
    match block_insert_or_merge s base n with
    | None => (-1, s)
    | Some s1 => (0, set_total s1 (u32 (free_page_total s1 + n)))
    end.

Definition pool_free_total (s : pool_t) : Z := free_page_total s.

Fixpoint scan_max (k : nat) (i : nat) (best : Z) (a : list free_block_t) : Z :=
  match k with
  | O => best
  | S k' => scan_max k' (S i)
              (if best <? fb_pages (a !!! i) then fb_pages (a !!! i) else best) a
  end.

Definition pool_max_contig (s : pool_t) : Z :=
  scan_max (free_block_count s) 0 0 (free_blocks s).

Definition pool_is_free (s : pool_t) (id : Z) : bool :=
  match block_find_containing s id with None => false | Some _ => true end.

End Operations.
