(* ===== verification/PagePoolFacts.v ===== *)
(** * PagePoolFacts: correctness of the page-allocator core

    The array-level operations of [PagePool] are first related to list
    operations on the live prefix ([view]), then to the set of free page
    identifiers ([page_is_free]). *)

From stdpp Require Import sorting.
From S2P Require Import Prelude PagePool.

(** ** The live prefix of the block array *)

(** The blocks the code considers: entries [0 .. free_block_count - 1]. *)
Definition view (s : pool_t) : list free_block_t :=
  take (free_block_count s) (free_blocks s).

(** A page identifier lies in a block. *)
Definition in_block (p : Z) (b : free_block_t) : Prop :=
  fb_base b <= p < fb_base b + fb_pages b.

(** [covers bs p]: some run of [bs] holds the page [p]. *)
Definition covers (bs : list free_block_t) (p : Z) : Prop := ∃ b, b ∈ bs ∧ in_block p b.

(** The abstract state: the set of free page identifiers. *)
Definition page_is_free (s : pool_t) (p : Z) : Prop := covers (view s) p.

(** Two blocks in address order with at least one page between them. *)
Definition sep (b c : free_block_t) : Prop :=
  fb_base b + fb_pages b < fb_base c.

Definition sum_pages (bs : list free_block_t) : Z :=
  foldr (λ b acc, fb_pages b + acc) 0 bs.

Section Facts.
Context {cfg : PageConfig}.
(** The pool occupies the page identifiers [lo .. hi - 1]. *)
Context (lo hi : Z).

Record geometry : Prop := {
  geo_lo : 0 <= lo;
  geo_order : lo <= hi;
  geo_count : hi - lo <= Z.of_nat page_count_max;
  geo_hi : hi <= PAGE_ID_INVALID
}.

Definition run_ok (b : free_block_t) : Prop :=
  lo <= fb_base b ∧ 0 < fb_pages b ∧ fb_base b + fb_pages b <= hi.

(** The array itself: its size is fixed and the count stays within it. *)
Definition array_ok (s : pool_t) : Prop :=
  length (free_blocks s) = FREE_BLOCKS_MAX ∧
  (free_block_count s <= FREE_BLOCKS_MAX)%nat.

(** The representation invariant documented in page_pool.h. *)
Record pool_inv (s : pool_t) : Prop := {
  inv_array : array_ok s;
  inv_sorted : StronglySorted sep (view s);
  inv_runs : Forall run_ok (view s);
  inv_total : free_page_total s = sum_pages (view s)
}.

(** ** Array operations as list operations *)

Lemma length_view s : array_ok s → length (view s) = free_block_count s.
Proof. intros [? ?]. unfold view. rewrite length_take. lia. Qed.

Lemma view_lookup s i : array_ok s → (i < free_block_count s)%nat →
  view s !! i = Some (blk s i).
Proof.
  intros [? ?] ?. unfold view, blk. rewrite lookup_take_lt by lia.
  apply list_lookup_lookup_total_lt. lia.
Qed.

Lemma length_shift_up k idx a : length (shift_up k idx a) = length a.
Proof. revert a. induction k; intros; simpl; [done|]. rewrite IHk. apply length_insert. Qed.

Lemma length_shift_down k i a : length (shift_down k i a) = length a.
Proof. revert i a. induction k; intros; simpl; [done|]. rewrite IHk. apply length_insert. Qed.

Lemma shift_up_lookup k idx a j : (idx + k < length a)%nat →
  shift_up k idx a !!! j =
    if decide (idx < j <= idx + k)%nat then a !!! (j - 1)%nat else a !!! j.
Proof.
  revert a. induction k as [|k IH]; intros a Hlen; simpl.
  - case_decide; [lia|done].
  - rewrite IH by (rewrite length_insert; lia).
    destruct (decide (j = idx + S k)%nat) as [->|Hne].
    + rewrite !decide_False, decide_True by lia.
      rewrite list_lookup_total_insert_eq by lia. f_equal. lia.
    + repeat case_decide; try lia; rewrite list_lookup_total_insert_ne by lia; done.
Qed.

Lemma shift_down_lookup k i a j : (i + k < length a)%nat →
  shift_down k i a !!! j =
    if decide (i <= j < i + k)%nat then a !!! S j else a !!! j.
Proof.
  revert i a. induction k as [|k IH]; intros i a Hlen; simpl.
  - case_decide; [lia|done].
  - rewrite IH by (rewrite length_insert; lia).
    destruct (decide (j = i)) as [->|Hne].
    + rewrite decide_False, decide_True by lia.
      rewrite list_lookup_total_insert_eq by lia. done.
    + repeat case_decide; try lia; rewrite list_lookup_total_insert_ne by lia; done.
Qed.

(** Two lists of the same length that agree at every valid index are equal. *)
Lemma list_eq_total (l k : list free_block_t) :
  length l = length k → (∀ i, (i < length l)%nat → l !!! i = k !!! i) → l = k.
Proof.
  intros Hl Hi. apply (list_eq_same_length l k (length l)); [done|lia|].
  intros i x y ? Hx Hy.
  apply list_lookup_total_correct in Hx as <-, Hy as <-. apply Hi. lia.
Qed.

Lemma view_set_blk s i b : array_ok s → (i < free_block_count s)%nat →
  view (set_blk s i b) = <[i := b]> (view s).
Proof. intros ??. unfold view. simpl. apply take_insert_lt. lia. Qed.

Lemma array_ok_set_blk s i b : array_ok s → array_ok (set_blk s i b).
Proof. intros [? ?]. split; simpl; [by rewrite length_insert|done]. Qed.

Lemma array_ok_remove s i : array_ok s → array_ok (block_remove s i).
Proof. intros [? ?]. split; simpl; [by rewrite length_shift_down|lia]. Qed.

Lemma blk_middle s l b r : array_ok s → view s = l ++ b :: r →
  (length l < free_block_count s)%nat ∧ blk s (length l) = b.
Proof.
  intros Hok Hv. assert (length l < free_block_count s)%nat as Hl.
  { rewrite <- (length_view s Hok), Hv, length_app. simpl. lia. }
  split; [done|]. pose proof (view_lookup s _ Hok Hl) as Hlk.
  rewrite Hv, list_lookup_middle in Hlk by done. congruence.
Qed.

Lemma view_set_blk_middle s l b r b' : array_ok s → view s = l ++ b :: r →
  view (set_blk s (length l) b') = l ++ b' :: r.
Proof.
  intros Hok Hv. destruct (blk_middle s l b r Hok Hv) as [? _].
  rewrite view_set_blk by done. rewrite Hv.
  rewrite <- (Nat.add_0_r (length l)), insert_app_r. done.
Qed.

Lemma view_remove s l b r : array_ok s → view s = l ++ b :: r →
  view (block_remove s (length l)) = l ++ r.
Proof.
  intros Hok Hv. destruct (blk_middle s l b r Hok Hv) as [Hlt _].
  pose proof (length_view s Hok) as Hlen. destruct Hok as [Ha Hc].
  rewrite Hv, length_app in Hlen. simpl in Hlen.
  apply list_eq_total.
  { unfold view; simpl. rewrite length_take, length_shift_down, length_app. lia. }
  intros i Hi. unfold view in *; simpl in *.
  rewrite length_take, length_shift_down in Hi.
  rewrite lookup_total_take_lt by lia. rewrite shift_down_lookup by lia.
  assert (∀ j, (j < free_block_count s)%nat →
            free_blocks s !!! j = (l ++ b :: r) !!! j) as Hj.
  { intros j ?. rewrite <- Hv, lookup_total_take_lt by lia. done. }
  case_decide.
  - rewrite Hj by lia. rewrite !lookup_total_app_r by lia.
    replace (S i - length l)%nat with (S (i - length l)) by lia. done.
  - rewrite Hj by lia. rewrite !lookup_total_app_l by lia. done.
Qed.

Lemma view_insert_at s l r base n : array_ok s → view s = l ++ r →
  (free_block_count s < FREE_BLOCKS_MAX)%nat →
  ∃ s', block_insert_at s (length l) base n = Some s' ∧ array_ok s' ∧
    view s' = l ++ FreeBlock base n :: r ∧ free_page_total s' = free_page_total s.
Proof.
  intros Hok Hv Hlt. pose proof (length_view s Hok) as Hlen.
  destruct Hok as [Ha Hc]. rewrite Hv, length_app in Hlen.
  unfold block_insert_at. destruct (Nat.leb_spec FREE_BLOCKS_MAX (free_block_count s)); [lia|].
  eexists; split; [done|]. split; [|split; [|done]].
  { split; simpl; [rewrite length_insert, length_shift_up; done|lia]. }
  apply list_eq_total.
  { unfold view; cbn [free_blocks free_block_count].
    rewrite length_take, length_insert, length_shift_up, length_app.
    cbn [length]. lia. }
  intros i Hi. unfold view in *; cbn [free_blocks free_block_count] in *.
  rewrite length_take, length_insert, length_shift_up in Hi.
  rewrite lookup_total_take_lt by lia.
  assert (∀ j, (j < free_block_count s)%nat →
            free_blocks s !!! j = (l ++ r) !!! j) as Hj.
  { intros j ?. rewrite <- Hv, lookup_total_take_lt by lia. done. }
  destruct (decide (i = length l)) as [->|].
  - rewrite list_lookup_total_insert_eq by (rewrite length_shift_up; lia).
    symmetry. apply list_lookup_total_middle. done.
  - rewrite list_lookup_total_insert_ne, shift_up_lookup by lia.
    case_decide; rewrite Hj by lia.
    + rewrite !lookup_total_app_r by lia.
      replace (i - length l)%nat with (S (i - 1 - length l)) by lia. done.
    + rewrite !lookup_total_app_l by lia. done.
Qed.

(** ** The scans *)

Lemma take_drop_S (k i : nat) (a : list free_block_t) : (i + S k <= length a)%nat →
  take (S k) (drop i a) = a !!! i :: take k (drop (S i) a).
Proof.
  intros. rewrite (drop_S a (a !!! i) i); [done|].
  apply list_lookup_lookup_total_lt. lia.
Qed.

Lemma scan_spec test k i a : (i + k <= length a)%nat →
  match scan k i test a with
  | Some j => ∃ l b r, take k (drop i a) = l ++ b :: r ∧ j = (i + length l)%nat ∧
                test b = true ∧ Forall (λ c, test c = false) l
  | None => Forall (λ c, test c = false) (take k (drop i a))
  end.
Proof.
  revert i. induction k as [|k IH]; intros i Hlen; cbn [scan].
  - rewrite take_0. constructor.
  - rewrite take_drop_S by lia. destruct (test (a !!! i)) eqn:Ht.
    + exists [], (a !!! i), (take k (drop (S i) a)). split_and!; [done|simpl; lia|done|constructor].
    + specialize (IH (S i) ltac:(lia)). destruct (scan k (S i) test a).
      * destruct IH as (l & b & r & -> & -> & Hb & Hl).
        exists (a !!! i :: l), b, r. split_and!; [done|simpl; lia|done|by constructor].
      * by constructor.
Qed.

Lemma scan_base_spec base k i a : (i + k <= length a)%nat →
  ∃ l r, take k (drop i a) = l ++ r ∧ scan_base k i base a = (i + length l)%nat ∧
    Forall (λ c, fb_base c < base) l ∧ (∀ c, head r = Some c → base <= fb_base c).
Proof.
  revert i. induction k as [|k IH]; intros i Hlen; cbn [scan_base].
  - rewrite take_0. exists [], []. split_and!; [done|simpl; lia|constructor|done].
  - rewrite take_drop_S by lia. destruct (fb_base (a !!! i) <? base) eqn:Ht; zb.
    + destruct (IH (S i) ltac:(lia)) as (l & r & -> & -> & Hl & Hr).
      exists (a !!! i :: l), r. split_and!; [done|simpl; lia|by constructor|done].
    + eexists [], _. split_and!; [done|simpl; lia|constructor|].
      simpl. intros c [= <-]. done.
Qed.

(** The result of the longest-block scan over the blocks [bs]. *)
Definition largest_in (bs : list free_block_t) (i : nat) (b : free_block_t) : Prop :=
  bs !! i = Some b ∧ Forall (λ c, fb_pages c <= fb_pages b) bs.

Lemma scan_largest_spec k i best best_size a bs :
  (i + k <= length a)%nat → bs = take i a →
  match best with
  | None => best_size = 0 ∧ Forall (λ c, fb_pages c <= 0) bs
  | Some j => ∃ b, largest_in bs j b ∧ best_size = fb_pages b
  end →
  match scan_largest k i best best_size a with
  | (None, z) => z = 0 ∧ Forall (λ c, fb_pages c <= 0) (take (i + k) a)
  | (Some j, z) => ∃ b, largest_in (take (i + k) a) j b ∧ z = fb_pages b
  end.
Proof.
  revert i best best_size bs. induction k as [|k IH]; intros i best z bs Hlen -> Hinv.
  { cbn [scan_largest]. rewrite Nat.add_0_r. done. }
  cbn [scan_largest].
  assert (a !! i = Some (a !!! i)) as Hi by (apply list_lookup_lookup_total_lt; lia).
  assert (take (S i) a = take i a ++ [a !!! i]) as HS by (by apply take_S_r).
  replace (i + S k)%nat with (S i + k)%nat by lia.
  destruct (z <? fb_pages (a !!! i)) eqn:Hz; zb.
  - apply (IH (S i) _ _ _ ltac:(lia) eq_refl).
    exists (a !!! i). split; [|done]. rewrite HS. split.
    { rewrite lookup_app_r by (rewrite length_take; lia).
      rewrite length_take. replace (i - _)%nat with 0%nat by lia. done. }
    apply Forall_app; split; [|by repeat constructor].
    destruct best; [destruct Hinv as (b & [_ Hf] & ->)|destruct Hinv as [-> Hf]];
      (eapply Forall_impl; [exact Hf|]; simpl; intros; lia).
  - apply (IH (S i) _ _ _ ltac:(lia) eq_refl). rewrite HS. destruct best as [j|].
    + destruct Hinv as (b & [Hj Hf] & ->). exists b. split; [|done]. split.
      * by apply lookup_app_l_Some.
      * apply Forall_app; split; [done|]. by repeat constructor.
    + destruct Hinv as [-> Hf]. split; [done|]. apply Forall_app; split; [done|].
      by repeat constructor.
Qed.

Lemma scan_max_spec k i best a : (i + k <= length a)%nat → best <= scan_max k i best a ∧
  Forall (λ c, fb_pages c <= scan_max k i best a) (take k (drop i a)) ∧
  (scan_max k i best a = best ∨
   ∃ c, c ∈ take k (drop i a) ∧ scan_max k i best a = fb_pages c).
Proof.
  revert i best. induction k as [|k IH]; intros i best Hlen; cbn [scan_max].
  { rewrite take_0. split_and!; [lia|constructor|by left]. }
  rewrite take_drop_S by lia.
  destruct (IH (S i) (if best <? fb_pages (a !!! i) then fb_pages (a !!! i) else best)
              ltac:(lia)) as (H1 & H2 & H3).
  destruct (best <? fb_pages (a !!! i)) eqn:Hb; zb.
  - split_and!; [lia|by constructor|]. right. destruct H3 as [->|(c & Hc & ->)].
    + exists (a !!! i). split; [by left|done].
    + exists c. split; [by right|done].
  - split_and!; [lia|constructor; [lia|done]|]. destruct H3 as [->|(c & Hc & ->)]; [by left|].
    right. exists c. split; [by right|done].
Qed.

Lemma view_drop_0 s : take (free_block_count s) (drop 0 (free_blocks s)) = view s.
Proof. done. Qed.

(** ** Sorted runs *)

Lemma sum_pages_app l r : sum_pages (l ++ r) = sum_pages l + sum_pages r.
Proof. induction l as [|b l IH]; simpl; [lia|]. unfold sum_pages in *. simpl. lia. Qed.

Lemma sum_pages_bound bs x : StronglySorted sep bs → Forall run_ok bs →
  Forall (λ b, x <= fb_base b) bs → x <= hi → 0 <= sum_pages bs <= hi - x.
Proof.
  intros HS Hok. revert x. induction HS as [|b bs HS IH Hsep]; intros x Hx Hhi.
  { simpl. lia. }
  apply Forall_cons in Hok as [Hb Hok], Hx as [Hxb _]. destruct Hb as (? & ? & ?).
  assert (0 <= sum_pages bs <= hi - (fb_base b + fb_pages b)).
  { apply IH; [done| |lia]. eapply Forall_impl; [exact Hsep|]. unfold sep. simpl. intros; lia. }
  simpl. lia.
Qed.

(** A sorted list of separated runs is no longer than half its span. *)
Lemma runs_length bs x : StronglySorted sep bs → Forall run_ok bs →
  Forall (λ b, x <= fb_base b) bs → x <= hi + 1 → 2 * Z.of_nat (length bs) <= hi + 1 - x.
Proof.
  intros HS Hok. revert x. induction HS as [|b bs HS IH Hsep]; intros x Hx Hhi.
  { simpl. lia. }
  apply Forall_cons in Hok as [Hb Hok], Hx as [Hxb _]. destruct Hb as (? & ? & ?).
  assert (2 * Z.of_nat (length bs) <= hi + 1 - (fb_base b + fb_pages b + 1)).
  { apply IH; [done| |lia]. eapply Forall_impl; [exact Hsep|]. unfold sep. simpl. intros; lia. }
  simpl length. lia.
Qed.

Lemma sorted_middle l b r : StronglySorted sep (l ++ b :: r) →
  Forall (λ c, sep c b) l ∧ Forall (λ c, sep b c) r ∧
  StronglySorted sep l ∧ StronglySorted sep r ∧ (∀ c d, c ∈ l → d ∈ r → sep c d).
Proof.
  rewrite StronglySorted_app, StronglySorted_cons. intros (H1 & H2 & H3 & H4).
  split_and!; try done.
  - apply Forall_forall. intros c Hc. apply H1; [done|by left].
  - intros c d Hc Hd. apply H1; [done|by right].
Qed.

(** A free page of a sorted list is in its first run or in the tail. *)
Lemma head_or_tail x xs p y : run_ok x → Forall run_ok xs → Forall (sep x) xs →
  y ∈ x :: xs → in_block p y →
  fb_base x <= p ∧ (p < fb_base x + fb_pages x ∨ (fb_base x + fb_pages x < p ∧ y ∈ xs)).
Proof.
  intros (? & ? & ?) Hxs Hsx [->|Hy]%elem_of_cons [? ?]; [lia|].
  rewrite Forall_forall in Hsx. pose proof (Hsx _ Hy). unfold sep in *.
  split; [lia|]. right. split; [lia|done].
Qed.

Lemma covers_head b bs : run_ok b → covers (b :: bs) (fb_base b).
Proof. intros (? & ? & ?). exists b. split; [by left|]. split; lia. Qed.

Lemma head_pages_le x xs y ys : run_ok x → run_ok y → Forall run_ok ys →
  Forall (sep y) ys → fb_base x = fb_base y →
  (∀ p, covers (x :: xs) p → covers (y :: ys) p) → fb_pages x <= fb_pages y.
Proof.
  intros (? & ? & ?) Hy Hys Hsy Hxy Himp. pose proof Hy as (? & ? & ?).
  destruct (decide (fb_pages x <= fb_pages y)); [done|]. exfalso.
  destruct (Himp (fb_base y + fb_pages y)) as (z & Hz & Hpz).
  { exists x. split; [by left|]. split; lia. }
  destruct (head_or_tail _ _ _ _ Hy Hys Hsy Hz Hpz) as [_ [|[? _]]]; lia.
Qed.

Lemma tail_covers x y xs ys p : fb_base x = fb_base y → fb_pages x = fb_pages y →
  Forall (sep x) xs → run_ok y → Forall run_ok ys → Forall (sep y) ys →
  (covers (x :: xs) p → covers (y :: ys) p) → covers xs p → covers ys p.
Proof.
  intros Hb Hp Hsx Hy Hys Hsy Himp (z & Hz & Hpz).
  destruct Himp as (w & Hw & Hpw). { exists z. split; [by right|done]. }
  destruct (head_or_tail _ _ _ _ Hy Hys Hsy Hw Hpw) as [_ [Hlt|[_ Hin]]]; [|by exists w].
  exfalso. rewrite Forall_forall in Hsx. specialize (Hsx _ Hz). unfold sep in Hsx.
  destruct Hpz. lia.
Qed.

(** The runs determine the free set, and conversely: the representation is
    canonical. *)
Lemma runs_canonical bs cs : StronglySorted sep bs → Forall run_ok bs →
  StronglySorted sep cs → Forall run_ok cs → (∀ p, covers bs p ↔ covers cs p) → bs = cs.
Proof.
  intros HS Hb. revert cs. induction HS as [|b bs HS IH Hsep]; intros cs HSc Hc Heq.
  { destruct cs as [|c cs]; [done|]. apply Forall_cons in Hc as [Hc _].
    destruct (proj2 (Heq _) (covers_head c cs Hc)) as (x & Hx & _).
    by apply not_elem_of_nil in Hx. }
  apply Forall_cons in Hb as [Hb Hbs]. destruct cs as [|c cs].
  { destruct (proj1 (Heq _) (covers_head b bs Hb)) as (x & Hx & _).
    by apply not_elem_of_nil in Hx. }
  apply Forall_cons in Hc as [Hc Hcs]. apply StronglySorted_cons in HSc as [Hsepc HSc].
  assert (fb_base b = fb_base c) as Hbase.
  { destruct (proj1 (Heq _) (covers_head b bs Hb)) as (x & Hx & Hpx).
    destruct (proj2 (Heq _) (covers_head c cs Hc)) as (y & Hy & Hpy).
    destruct (head_or_tail _ _ _ _ Hc Hcs Hsepc Hx Hpx),
      (head_or_tail _ _ _ _ Hb Hbs Hsep Hy Hpy). lia. }
  assert (fb_pages b = fb_pages c) as Hpages.
  { apply Z.le_antisymm.
    - exact (head_pages_le b bs c cs Hb Hc Hcs Hsepc Hbase (λ p, proj1 (Heq p))).
    - exact (head_pages_le c cs b bs Hc Hb Hbs Hsep (eq_sym Hbase) (λ p, proj2 (Heq p))). }
  assert (bs = cs) as ->.
  { apply (IH Hbs cs HSc Hcs). intros p. split.
    - apply (tail_covers b c); try done. apply Heq.
    - apply (tail_covers c b); try done. apply Heq. }
  destruct b, c. simpl in *. congruence.
Qed.

(** ** Merging a range into the runs *)

Lemma covers_nil p : covers [] p ↔ False.
Proof. split; [intros (b & Hb & _); by apply not_elem_of_nil in Hb|done]. Qed.

Lemma covers_cons b bs p : covers (b :: bs) p ↔ in_block p b ∨ covers bs p.
Proof.
  unfold covers. setoid_rewrite elem_of_cons. split.
  - intros (x & [->|Hx] & Hp); [by left|right; by exists x].
  - intros [Hp|(x & Hx & Hp)]; [by exists b; auto|exists x; auto].
Qed.

Lemma covers_app l r p : covers (l ++ r) p ↔ covers l p ∨ covers r p.
Proof.
  induction l as [|b l IH]; simpl; [rewrite covers_nil; tauto|].
  rewrite !covers_cons, IH. tauto.
Qed.

(** [lx] is what is merged on the left of [base, base + n), with [B] the base
    of the merged run. *)
Definition left_merge (L lx : list free_block_t) (base B : Z) : Prop :=
  (lx = [] ∧ B = base ∧ Forall (λ c, fb_base c + fb_pages c < base) L) ∨
  ∃ bl, lx = [bl] ∧ B = fb_base bl ∧ fb_base bl + fb_pages bl = base.

(** [rx] is what is merged on the right, with [E] the end of the merged run. *)
Definition right_merge (rx R : list free_block_t) (en E : Z) : Prop :=
  (rx = [] ∧ E = en ∧ Forall (λ c, en < fb_base c) R) ∨
  ∃ br, rx = [br] ∧ fb_base br = en ∧ E = fb_base br + fb_pages br.

Lemma merged_ok L lx rx R base n B E :
  StronglySorted sep (L ++ lx ++ rx ++ R) → Forall run_ok (L ++ lx ++ rx ++ R) →
  left_merge L lx base B → right_merge rx R (base + n) E →
  lo <= base → 0 < n → base + n <= hi →
  let bs' := L ++ FreeBlock B (E - B) :: R in
  StronglySorted sep bs' ∧ Forall run_ok bs' ∧
  (∀ p, covers bs' p ↔ covers (L ++ lx ++ rx ++ R) p ∨ base <= p < base + n) ∧
  sum_pages bs' = sum_pages (L ++ lx ++ rx ++ R) + n.
Proof.
  intros HS Hok Hl Hr Hlo Hn Hhi bs'.
  rewrite !StronglySorted_app in HS. destruct HS as (HLx & HSL & Hlx & HSlx & Hrx & HSrx & HSR).
  rewrite !Forall_app in Hok. destruct Hok as (HokL & Hoklx & Hokrx & HokR).
  assert (∀ c d, c ∈ L → d ∈ R → sep c d) as HLR.
  { intros c d Hc Hd. apply HLx; [done|]. rewrite !elem_of_app. auto. }
  assert (Forall (λ c, fb_base c + fb_pages c < B) L ∧ lo <= B <= base ∧
          sum_pages lx = base - B ∧ (∀ p, covers lx p ↔ B <= p < base)) as (HB & HBb & HsB & HcB).
  { destruct Hl as [(-> & -> & HL)|(bl & -> & -> & Hend)].
    - split_and!; [done|lia|lia|simpl; lia|]. intros p. rewrite covers_nil. lia.
    - apply Forall_cons in Hoklx as [(? & ? & ?) _].
      split_and!; [|lia|lia|simpl; lia|].
      + apply Forall_forall. intros c Hc. apply (HLx c bl Hc). rewrite !elem_of_app. left. by left.
      + intros p. rewrite covers_cons, covers_nil. unfold in_block. lia. }
  assert (Forall (λ c, E < fb_base c) R ∧ base + n <= E <= hi ∧
          sum_pages rx = E - (base + n) ∧ (∀ p, covers rx p ↔ base + n <= p < E))
    as (HE & HEb & HsE & HcE).
  { destruct Hr as [(-> & -> & HR)|(br & -> & Hbr & ->)].
    - split_and!; [done|lia|lia|simpl; lia|]. intros p. rewrite covers_nil. lia.
    - apply Forall_cons in Hokrx as [(? & ? & ?) _].
      split_and!; [|lia|lia|simpl; lia|].
      + apply Forall_forall. intros c Hc. apply Hrx; [by left|done].
      + intros p. rewrite covers_cons, covers_nil. unfold in_block. lia. }
  subst bs'. split_and!.
  - rewrite StronglySorted_app, StronglySorted_cons. rewrite Forall_forall in HB, HE.
    split_and!; try done.
    + intros c d Hc [->|Hd]%elem_of_cons; [apply HB; done|by apply HLR].
    + apply Forall_forall. intros d Hd. unfold sep. simpl. specialize (HE d Hd). simpl in HE. lia.
  - rewrite Forall_app, Forall_cons. split_and!; try done; unfold run_ok; simpl; lia.
  - intros p. rewrite !covers_app, covers_cons, HcB, HcE. unfold in_block. simpl.
    generalize (covers L p) (covers R p). intros P Q.
    destruct (decide (p < B)), (decide (p < base)), (decide (p < base + n)), (decide (p < E));
      intuition lia.
  - rewrite !sum_pages_app. simpl. fold (sum_pages R). lia.
Qed.

(** ** block_insert_or_merge *)

Section WithGeometry.
Context (geo : geometry).

Lemma run_fb_end b : run_ok b → fb_end b = fb_base b + fb_pages b.
Proof.
  intros (? & ? & ?). destruct geo as [? ? ? Hhi]. unfold PAGE_ID_INVALID in Hhi.
  apply uN_small. lia.
Qed.

Lemma page_id_small x : 0 <= x <= hi → to_page_id x = x.
Proof. intros. destruct geo as [? ? ? Hhi]. unfold PAGE_ID_INVALID in Hhi. apply uN_small. lia. Qed.

Lemma pages_small x : 0 <= x <= hi - lo → u16 x = x.
Proof. intros. destruct geo. pose proof page_count_max_hi. apply uN_small. lia. Qed.

Lemma total_small x : 0 <= x <= hi - lo → u32 x = x.
Proof. intros. destruct geo. pose proof page_count_max_hi. apply uN_small. lia. Qed.

(** What merging [base, base + n) into the runs of [s] yields. *)
Definition merges_to (s s' : pool_t) (base n : Z) : Prop :=
  array_ok s' ∧ StronglySorted sep (view s') ∧ Forall run_ok (view s') ∧
  (∀ p, page_is_free s' p ↔ page_is_free s p ∨ base <= p < base + n) ∧
  sum_pages (view s') = sum_pages (view s) + n ∧
  free_page_total s' = free_page_total s.

Lemma merges_to_intro s s' L lx rx R base n B E :
  view s = L ++ lx ++ rx ++ R → view s' = L ++ FreeBlock B (E - B) :: R →
  array_ok s' → free_page_total s' = free_page_total s →
  StronglySorted sep (view s) → Forall run_ok (view s) →
  left_merge L lx base B → right_merge rx R (base + n) E →
  lo <= base → 0 < n → base + n <= hi → merges_to s s' base n.
Proof.
  intros Hv Hv' Hok Ht HS Hr Hl Hrm Hlo Hn Hhi. rewrite Hv in HS, Hr.
  destruct (merged_ok L lx rx R base n B E HS Hr Hl Hrm Hlo Hn Hhi) as (H1 & H2 & H3 & H4).
  unfold merges_to, page_is_free. rewrite Hv', Hv. done.
Qed.

(** Room for one more block, from the span of the pool. *)
Lemma room_for_one s base n L R :
  array_ok s → view s = L ++ R → StronglySorted sep (L ++ FreeBlock base n :: R) →
  Forall run_ok (L ++ FreeBlock base n :: R) → (free_block_count s < FREE_BLOCKS_MAX)%nat.
Proof.
  intros Hok Hv HS Hr. pose proof (length_view s Hok) as Hlen. rewrite Hv, length_app in Hlen.
  destruct geo. unfold FREE_BLOCKS_MAX. pose proof page_count_max_lo.
  assert (2 * Z.of_nat (length (L ++ FreeBlock base n :: R)) <= hi + 1 - lo) as Hb.
  { apply runs_length; try done; [|lia].
    eapply Forall_impl; [exact Hr|]. unfold run_ok. simpl. intros; lia. }
  rewrite length_app in Hb. simpl in Hb. lia.
Qed.

Definition scan_index (s : pool_t) (base : Z) : nat :=
  scan_base (free_block_count s) 0 base (free_blocks s).

Lemma run_ok_elem s l b r : Forall run_ok (view s) → view s = l ++ b :: r → run_ok b.
Proof. intros Hr Hv. rewrite Hv, Forall_app, Forall_cons in Hr. tauto. Qed.

Lemma blk_set_ne s i j b : i ≠ j → blk (set_blk s i b) j = blk s j.
Proof. intros. unfold blk, set_blk. simpl. by apply list_lookup_total_insert_ne. Qed.

Lemma blk_set_eq s l b r b' : array_ok s → view s = l ++ b :: r →
  blk (set_blk s (length l) b') (length l) = b'.
Proof.
  intros Hok Hv. apply (blk_middle _ l b' r).
  - by apply array_ok_set_blk.
  - by apply (view_set_blk_middle s l b r).
Qed.

(** What the code computes when the block [bl] below [base] ends at [base]. *)
Lemma insert_merge_left_eq s base n L bl r :
  array_ok s → Forall run_ok (view s) → view s = L ++ bl :: r →
  scan_index s base = S (length L) → fb_base bl + fb_pages bl = base →
  0 < n → base + n <= hi →
  let s1 := set_blk s (length L) (FreeBlock (fb_base bl) (fb_pages bl + n)) in
  let br := blk s (S (length L)) in
  block_insert_or_merge s base n =
    if (S (length L) <? free_block_count s)%nat && (base + n =? fb_base br)
    then Some (block_remove (set_blk s1 (length L)
                 (FreeBlock (fb_base bl) (u16 (fb_pages bl + n + fb_pages br)))) (S (length L)))
    else Some s1.
Proof.
  intros Hok Hr Hv Hi Hend Hn Hhi s1 br. pose proof (geo_lo geo).
  pose proof (run_ok_elem s L bl r Hr Hv) as Hbl. pose proof Hbl as (? & ? & ?).
  destruct (blk_middle s L bl r Hok Hv) as [Hlt Hblk].
  unfold block_insert_or_merge. fold (scan_index s base). rewrite Hi.
  destruct (n =? 0) eqn:Hn0; [zb; lia|]. cbn [Nat.ltb Nat.leb Nat.sub].
  rewrite Nat.sub_0_r, Hblk, (run_fb_end bl Hbl), Hend, Z.eqb_refl. cbn [andb].
  rewrite (pages_small (fb_pages bl + n)) by lia. fold s1.
  assert (blk s1 (length L) = FreeBlock (fb_base bl) (fb_pages bl + n)) as Hs1
    by (by apply (blk_set_eq s L bl r)).
  assert (blk s1 (S (length L)) = br) as -> by (apply blk_set_ne; lia).
  rewrite Hs1. cbn [fb_base fb_pages]. rewrite page_id_small by lia.
  replace (fb_base bl + (fb_pages bl + n)) with (base + n) by lia. done.
Qed.

Lemma sorted_gap L b br R en : StronglySorted sep (L ++ b :: br :: R) → en < fb_base br →
  run_ok br → Forall (λ c, en < fb_base c) (br :: R).
Proof.
  intros HS Hlt (? & ? & ?). apply sorted_middle in HS as (_ & _ & _ & HSr & _).
  apply StronglySorted_cons in HSr as [Hsb _]. constructor; [done|].
  eapply Forall_impl; [exact Hsb|]. unfold sep. simpl. intros; lia.
Qed.

(** The case in which the block below [base] ends at [base]. *)
Lemma insert_merge_left s base n L bl r :
  array_ok s → StronglySorted sep (view s) → Forall run_ok (view s) →
  view s = L ++ bl :: r → scan_index s base = S (length L) →
  fb_base bl + fb_pages bl = base → Forall (λ c, base + n <= fb_base c) r →
  lo <= base → 0 < n → base + n <= hi →
  ∃ s', block_insert_or_merge s base n = Some s' ∧ merges_to s s' base n.
Proof.
  intros Hok HS Hr Hv Hi Hend HR Hlo Hn Hhi.
  rewrite (insert_merge_left_eq s base n L bl r) by done. cbv zeta.
  set (m := FreeBlock (fb_base bl) (fb_pages bl + n)).
  pose proof (view_set_blk_middle s L bl r m Hok Hv) as Hv1.
  pose proof (array_ok_set_blk s (length L) m Hok) as Hok1.
  set (s1 := set_blk s (length L) m) in *.
  pose proof (length_view s Hok) as Hlen. rewrite Hv, length_app in Hlen. cbn [length] in Hlen.
  assert (∀ E, right_merge [] r (base + n) E → merges_to s s1 base n) as Hnone.
  { intros E HE. apply (merges_to_intro s s1 L [bl] [] r base n (fb_base bl) E); try done.
    - rewrite Hv1. subst m. destruct HE as [(_ & -> & _)|(? & [=] & _)].
      do 3 f_equal. lia.
    - right. by exists bl. }
  destruct r as [|br R].
  - destruct (Nat.ltb_spec (S (length L)) (free_block_count s)); [cbn [length] in *; lia|].
    exists s1. split; [done|]. apply (Hnone (base + n)). left. split_and!; [done|lia|constructor].
  - cbn [length] in Hlen. apply Forall_cons in HR as [HRb HR].
    assert (view s = (L ++ [bl]) ++ br :: R) as Hvr by (rewrite Hv, <- app_assoc; done).
    pose proof (run_ok_elem s _ _ _ Hr Hvr) as Hbr. pose proof Hbr as (? & ? & ?).
    destruct (blk_middle s (L ++ [bl]) br R Hok Hvr) as [_ Hblk].
    rewrite length_app in Hblk. cbn [length] in Hblk. rewrite Nat.add_1_r in Hblk. rewrite Hblk.
    destruct (Nat.ltb_spec (S (length L)) (free_block_count s)); [|lia]. cbn [andb].
    destruct (base + n =? fb_base br) eqn:Hjoin; zb.
    2:{ exists s1. split; [done|]. apply (Hnone (base + n)). left. split_and!; [done|lia|].
        rewrite Hv in HS. apply (sorted_gap L bl); [done|lia|done]. }
    pose proof (run_ok_elem s L bl _ Hr Hv) as (? & ? & ?).
    rewrite pages_small by lia.
    set (m' := FreeBlock (fb_base bl) (fb_pages bl + n + fb_pages br)).
    pose proof (view_set_blk_middle s1 L m (br :: R) m' Hok1 Hv1) as Hv2.
    change (m' :: br :: R) with ([m'] ++ br :: R) in Hv2. rewrite app_assoc in Hv2.
    pose proof (view_remove _ (L ++ [m']) br R (array_ok_set_blk s1 _ _ Hok1) Hv2) as Hv3.
    rewrite length_app in Hv3. cbn [length] in Hv3. rewrite Nat.add_1_r in Hv3.
    eexists. split; [done|].
    apply (merges_to_intro s _ L [bl] [br] R base n (fb_base bl) (fb_base br + fb_pages br));
      try done.
    + rewrite Hv3, <- app_assoc. subst m'. simpl. do 2 f_equal. f_equal. lia.
    + by apply array_ok_remove, array_ok_set_blk.
    + right. by exists bl.
    + right. by exists br.
Qed.

(** The case in which nothing ends at [base]. *)
Lemma insert_merge_noleft s base n L r :
  array_ok s → StronglySorted sep (view s) → Forall run_ok (view s) →
  view s = L ++ r → scan_index s base = length L →
  Forall (λ c, fb_base c + fb_pages c < base) L → Forall (λ c, base + n <= fb_base c) r →
  lo <= base → 0 < n → base + n <= hi →
  ∃ s', block_insert_or_merge s base n = Some s' ∧ merges_to s s' base n.
Proof.
  intros Hok HS Hr Hv Hi HL HR Hlo Hn Hhi. pose proof (geo_lo geo).
  unfold block_insert_or_merge. fold (scan_index s base). rewrite Hi.
  destruct (n =? 0) eqn:Hn0; [zb; lia|].
  assert ((0 <? length L)%nat && (fb_end (blk s (length L - 1)) =? base) = false) as ->.
  { destruct L as [|bl L _] using rev_ind; [done|]. rewrite length_app. cbn [length].
    replace (length L + 1 - 1)%nat with (length L) by lia.
    rewrite <- app_assoc in Hv. destruct (blk_middle s L bl r Hok Hv) as [_ ->].
    rewrite run_fb_end by (by apply (run_ok_elem s L bl r)).
    apply Forall_app in HL as [_ HL]. apply Forall_cons in HL as [HL _].
    apply andb_false_iff. right. apply Z.eqb_neq. lia. }
  rewrite page_id_small by lia.
  pose proof (length_view s Hok) as Hlen. rewrite Hv, length_app in Hlen.
  assert (right_merge [] r (base + n) (base + n) →
    ∃ s', block_insert_at s (length L) base n = Some s' ∧ merges_to s s' base n) as Hins.
  { intros Hrm.
    assert (left_merge L [] base base) as Hlm by (by left).
    pose proof HS as HS'. pose proof Hr as Hr'. rewrite Hv in HS', Hr'.
    destruct (merged_ok L [] [] r base n base (base + n)) as (H1 & H2 & _); try done.
    replace (base + n - base) with n in H1, H2 by lia.
    pose proof (room_for_one s base n L r Hok Hv H1 H2) as Hroom.
    destruct (view_insert_at s L r base n Hok Hv Hroom) as (s' & -> & Hok' & Hv' & Ht').
    exists s'. split; [done|].
    apply (merges_to_intro s s' L [] [] r base n base (base + n)); try done.
    rewrite Hv'. do 3 f_equal. lia. }
  destruct r as [|br R].
  { cbn [length] in Hlen. destruct (Nat.ltb_spec (length L) (free_block_count s)); [lia|].
    apply Hins. left. split_and!; [done|done|constructor]. }
  apply Forall_cons in HR as [HRb HR]. destruct (blk_middle s L br R Hok Hv) as [Hlt ->].
  pose proof (run_ok_elem s L br R Hr Hv) as Hbr. pose proof Hbr as (? & ? & ?).
  destruct (Nat.ltb_spec (length L) (free_block_count s)); [|lia]. cbn [andb].
  destruct (base + n =? fb_base br) eqn:Hjoin; zb.
  2:{ apply Hins. left. split_and!; [done|done|]. rewrite Hv in HS.
      apply sorted_middle in HS as (_ & Hsb & _). constructor; [lia|].
      eapply Forall_impl; [exact Hsb|]. unfold sep. simpl. intros; lia. }
  eexists. split; [done|]. rewrite pages_small by lia.
  apply (merges_to_intro s _ L [] [br] R base n base (fb_base br + fb_pages br)); try done.
  - rewrite (view_set_blk_middle s L br R) by done. do 3 f_equal. lia.
  - by apply array_ok_set_blk.
  - by left.
  - right. by exists br.
Qed.

Lemma insert_or_merge_spec s base n :
  array_ok s → StronglySorted sep (view s) → Forall run_ok (view s) →
  lo <= base → 0 < n → base + n <= hi →
  (∀ p, base <= p < base + n → ¬ page_is_free s p) →
  ∃ s', block_insert_or_merge s base n = Some s' ∧ merges_to s s' base n.
Proof.
  intros Hok HS Hr Hlo Hn Hhi Hdisj.
  destruct (scan_base_spec base (free_block_count s) 0 (free_blocks s)) as (l & r & Hv & Hi & Hl & Hh).
  { destruct Hok. lia. }
  rewrite view_drop_0 in Hv. fold (scan_index s base) in Hi. cbn [Nat.add] in Hi.
  assert (Forall (λ c, fb_base c + fb_pages c <= base) l) as HL.
  { rewrite Forall_forall in *. intros c Hc. specialize (Hl c Hc). simpl in Hl.
    destruct (decide (fb_base c + fb_pages c <= base)); [done|]. exfalso.
    apply (Hdisj base); [lia|]. exists c. split; [rewrite Hv; apply elem_of_app; by left|].
    split; lia. }
  assert (Forall (λ c, base + n <= fb_base c) r) as HR.
  { destruct r as [|br R]; [constructor|]. pose proof (run_ok_elem s l br R Hr Hv) as (? & ? & ?).
    specialize (Hh br eq_refl).
    assert (base + n <= fb_base br).
    { destruct (decide (base + n <= fb_base br)); [done|]. exfalso.
      apply (Hdisj (fb_base br)); [lia|]. exists br.
      split; [rewrite Hv; apply elem_of_app; right; by left|]. split; lia. }
    constructor; [done|]. rewrite Hv in HS. apply sorted_middle in HS as (_ & Hsb & _).
    eapply Forall_impl; [exact Hsb|]. unfold sep. simpl. intros; lia. }
  destruct l as [|bl L _] using rev_ind.
  { by apply (insert_merge_noleft s base n [] r). }
  rewrite length_app in Hi. cbn [length] in Hi. rewrite Nat.add_1_r in Hi.
  pose proof HL as HL'. apply Forall_app in HL as [_ HLb]. apply Forall_cons in HLb as [HLb _].
  destruct (decide (fb_base bl + fb_pages bl = base)) as [Hend|Hend].
  - rewrite <- app_assoc in Hv. by apply (insert_merge_left s base n L bl r).
  - apply (insert_merge_noleft s base n (L ++ [bl]) r); try done.
    { rewrite length_app. cbn [length]. lia. }
    rewrite Hv in HS, Hr. rewrite <- app_assoc in HS. apply sorted_middle in HS as (Hsb & _).
    rewrite !Forall_app in Hr. destruct Hr as [[_ Hbl] _]. apply Forall_cons in Hbl as [(? & ? & ?) _].
    apply Forall_app. split; [|constructor; [lia|constructor]].
    eapply Forall_impl; [exact Hsb|]. unfold sep. simpl. intros; lia.
Qed.

(** ** Removing pages from a run *)

Lemma sorted_trichotomy bs b c : StronglySorted sep bs → b ∈ bs → c ∈ bs →
  b = c ∨ sep b c ∨ sep c b.
Proof.
  induction 1 as [|x bs HS IH Hx]; intros Hb Hc; [by apply not_elem_of_nil in Hb|].
  rewrite Forall_forall in Hx. apply elem_of_cons in Hb as [->|Hb], Hc as [->|Hc]; auto.
Qed.

(** [n] consecutive free pages from [q] on. *)
Definition free_run (s : pool_t) (q n : Z) : Prop :=
  ∀ p, q <= p < q + n → page_is_free s p.

(** A run of free pages lies inside one block: blocks are maximal. *)
Lemma free_run_block s q n : StronglySorted sep (view s) → 0 < n → free_run s q n →
  ∃ b, b ∈ view s ∧ fb_base b <= q ∧ q + n <= fb_base b + fb_pages b.
Proof.
  intros HS Hn Hrun. destruct (Hrun q ltac:(lia)) as (b & Hb & Hq1 & Hq2).
  exists b. split_and!; [done|done|].
  destruct (decide (q + n <= fb_base b + fb_pages b)); [done|]. exfalso.
  destruct (Hrun (fb_base b + fb_pages b) ltac:(lia)) as (c & Hc & ? & ?).
  destruct (sorted_trichotomy _ b c HS Hb Hc) as [->|[Hs|Hs]]; unfold sep in *; lia.
Qed.

Lemma block_free_run s b : b ∈ view s → free_run s (fb_base b) (fb_pages b).
Proof. intros Hb p Hp. by exists b. Qed.

Lemma free_run_sub s q n q' n' : free_run s q n → q <= q' → q' + n' <= q + n → free_run s q' n'.
Proof. intros H ?? p Hp. apply H. lia. Qed.

(** [s'] is [s] without the pages [base, base + n). *)
Definition cuts (s s' : pool_t) (base n : Z) : Prop :=
  array_ok s' ∧ StronglySorted sep (view s') ∧ Forall run_ok (view s') ∧
  (∀ p, page_is_free s' p ↔ page_is_free s p ∧ ¬ (base <= p < base + n)) ∧
  sum_pages (view s') = sum_pages (view s) - n ∧
  free_page_total s' = free_page_total s.

(** Replacing the block [b] by the part [rest] of it. *)
Lemma shrink_ok s s' l b r rest base n :
  StronglySorted sep (view s) → Forall run_ok (view s) → view s = l ++ b :: r →
  view s' = l ++ rest ++ r → array_ok s' → free_page_total s' = free_page_total s →
  (rest = [] ∧ base = fb_base b ∧ n = fb_pages b ∨
   ∃ c, rest = [c] ∧ 0 < fb_pages c ∧ 0 <= n ∧ n = fb_pages b - fb_pages c ∧
     (fb_base c = fb_base b ∧ base = fb_base b + fb_pages c ∨
      fb_base c = fb_base b + n ∧ base = fb_base b)) →
  cuts s s' base n.
Proof.
  intros HS Hr Hv Hv' Hok Ht Hrest. unfold cuts, page_is_free. rewrite Hv, Hv' in *.
  pose proof HS as HS'. apply sorted_middle in HS' as (Hlb & Hbr & Hl & Hrr & Hlr).
  rewrite Forall_app, Forall_cons in Hr. destruct Hr as (Hrl & (? & ? & ?) & Hrr').
  rewrite Forall_forall in Hlb, Hbr.
  assert (∀ p, covers l p ∨ covers r p → ¬ in_block p b) as Hdisj.
  { intros p [(c & Hc & ? & ?)|(c & Hc & ? & ?)] [? ?].
    - specialize (Hlb c Hc). unfold sep in Hlb. lia.
    - specialize (Hbr c Hc). unfold sep in Hbr. lia. }
  assert (StronglySorted sep (l ++ rest ++ r) ∧ Forall run_ok (l ++ rest ++ r)) as [? ?].
  { destruct Hrest as [(-> & _)|(c & -> & ? & ? & ? & Hc)].
    - simpl. rewrite StronglySorted_app, Forall_app. done.
    - simpl. rewrite StronglySorted_app, StronglySorted_cons, Forall_app, Forall_cons.
      assert (fb_base b <= fb_base c ∧ fb_base c + fb_pages c <= fb_base b + fb_pages b) by lia.
      split_and!; try done; [|apply Forall_forall|unfold run_ok; lia].
      + intros x y Hx [->|Hy]%elem_of_cons; [|by apply Hlr].
        specialize (Hlb x Hx). unfold sep in *. lia.
      + intros x Hx. specialize (Hbr x Hx). unfold sep in *. lia. }
  split_and!; try done.
  - intros p. specialize (Hdisj p). rewrite !covers_app, covers_cons. unfold in_block in *.
    destruct Hrest as [(-> & -> & ->)|(c & -> & ? & ? & ? & Hc)];
      rewrite ?covers_cons, covers_nil; unfold in_block; revert Hdisj;
      generalize (covers l p) (covers r p); intros P Q Hdisj; [intuition lia|].
    destruct Hc as [(? & ->)|(? & ->)];
      destruct (decide (p < fb_base b)), (decide (p < fb_base c)),
        (decide (p < fb_base c + fb_pages c)), (decide (p < fb_base b + fb_pages b));
      intuition lia.
  - rewrite !sum_pages_app. simpl. fold (sum_pages r).
    destruct Hrest as [(-> & -> & ->)|(c & -> & ? & ? & ? & Hc)]; simpl; lia.
Qed.

Lemma take_front_cuts s l b r n : array_ok s → StronglySorted sep (view s) →
  Forall run_ok (view s) → view s = l ++ b :: r → 0 < n <= fb_pages b →
  cuts s (block_take_front s (length l) n) (fb_base b) n.
Proof.
  intros Hok HS Hr Hv Hn. pose proof (geo_lo geo).
  destruct (run_ok_elem s l b r Hr Hv) as (? & ? & ?).
  destruct (blk_middle s l b r Hok Hv) as [_ Hb].
  unfold block_take_front. rewrite Hb. destruct (fb_pages b <=? n) eqn:Hle; zb.
  - apply (shrink_ok s _ l b r []); try done.
    + by apply (view_remove s l b r).
    + by apply array_ok_remove.
    + left. split_and!; [done|done|lia].
  - rewrite page_id_small, pages_small by lia.
    apply (shrink_ok s _ l b r [FreeBlock (fb_base b + n) (fb_pages b - n)]); try done.
    + by apply (view_set_blk_middle s l b r).
    + by apply array_ok_set_blk.
    + right. eexists. split_and!; [done|simpl; lia|lia|simpl; lia|right; simpl; lia].
Qed.

Lemma u32_page x : 0 <= x <= hi → u32 x = x.
Proof.
  intros. destruct geo as [? ? ? Hhi]. unfold PAGE_ID_INVALID in Hhi.
  assert (2 ^ page_id_bits <= 2 ^ 32).
  { apply Z.pow_le_mono_r; [lia|]. apply page_id_bits_range. }
  apply uN_small. lia.
Qed.

Lemma take_back_cuts s l b r : array_ok s → StronglySorted sep (view s) →
  Forall run_ok (view s) → view s = l ++ b :: r →
  (block_take_back_one s (length l)).1 = fb_base b + fb_pages b - 1 ∧
  cuts s (block_take_back_one s (length l)).2 (fb_base b + fb_pages b - 1) 1.
Proof.
  intros Hok HS Hr Hv. pose proof (geo_lo geo) as Hlo.
  destruct (run_ok_elem s l b r Hr Hv) as (? & ? & ?).
  destruct (blk_middle s l b r Hok Hv) as [_ Hb].
  unfold block_take_back_one. rewrite Hb, u32_page, page_id_small by lia.
  destruct (fb_pages b =? 1) eqn:Hone; zb; cbn [fst snd]; (split; [done|]).
  - apply (shrink_ok s _ l b r []); try done.
    + by apply (view_remove s l b r).
    + by apply array_ok_remove.
    + left. split_and!; [done|lia|lia].
  - rewrite pages_small by lia.
    apply (shrink_ok s _ l b r [FreeBlock (fb_base b) (fb_pages b - 1)]); try done.
    + by apply (view_set_blk_middle s l b r).
    + by apply array_ok_set_blk.
    + right. eexists. split_and!; [done|simpl; lia|lia|simpl; lia|left; simpl; lia].
Qed.

(** From the effect on the runs to the invariant and the page total. *)
Lemma cuts_inv s s' base n : pool_inv s → cuts s s' base n →
  pool_inv (set_total s' (u32 (free_page_total s' - n))) ∧
  u32 (free_page_total s' - n) = free_page_total s - n.
Proof.
  intros [Hok HS Hr Ht] (Hok' & HS' & Hr' & _ & Hsum & Htot).
  assert (0 <= sum_pages (view s') <= hi - lo).
  { apply sum_pages_bound; try done; [|apply geo].
    eapply Forall_impl; [exact Hr'|]. unfold run_ok. intros; lia. }
  rewrite Htot, Ht, total_small by lia. split; [|done].
  constructor; try done; simpl; lia.
Qed.

Lemma merges_inv s s' base n : pool_inv s → merges_to s s' base n →
  pool_inv (set_total s' (u32 (free_page_total s' + n))) ∧
  u32 (free_page_total s' + n) = free_page_total s + n.
Proof.
  intros [Hok HS Hr Ht] (Hok' & HS' & Hr' & _ & Hsum & Htot).
  assert (0 <= sum_pages (view s') <= hi - lo).
  { apply sum_pages_bound; try done; [|apply geo].
    eapply Forall_impl; [exact Hr'|]. unfold run_ok. intros; lia. }
  rewrite Htot, Ht, total_small by lia. split; [|done].
  constructor; try done; simpl; lia.
Qed.

(** ** The public API against the set of free pages *)

(** Outcome of a successful request for [n] pages answered with [id]. *)
Definition took (s s' : pool_t) (id n : Z) : Prop :=
  lo <= id ∧ id + n <= hi ∧ free_run s id n ∧ pool_inv s' ∧
  (∀ p, page_is_free s' p ↔ page_is_free s p ∧ ¬ (id <= p < id + n)) ∧
  pool_free_total s' = pool_free_total s - n.

Lemma cuts_took s s' id n : pool_inv s → cuts s s' id n → free_run s id n →
  lo <= id → id + n <= hi → took s (set_total s' (u32 (free_page_total s' - n))) id n.
Proof.
  intros Hinv Hc Hrun ??. destruct (cuts_inv s s' id n Hinv Hc) as [Hi Ht].
  destruct Hc as (_ & _ & _ & Hf & _). by unfold took.
Qed.

Lemma free_page_bounds s p : pool_inv s → page_is_free s p → lo <= p < hi.
Proof.
  intros [_ _ Hr _] (b & Hb & Hp). rewrite Forall_forall in Hr.
  destruct (Hr b Hb) as (? & ? & ?). destruct Hp. lia.
Qed.

(** How a request for [n] pages may end, [best] being the placement policy. *)
Definition take_outcome (s : pool_t) (n : Z) (r : Z * pool_t) (best : Z → Prop) : Prop :=
  (r.1 = PAGE_ID_INVALID ∧ r.2 = s ∧ ∀ q, ¬ free_run s q n) ∨
  (took s r.2 r.1 n ∧ best r.1).

Lemma take_one_correct s : pool_inv s →
  take_outcome s 1 (pool_take_n s 1) (λ id, ∀ q, page_is_free s q → q <= id).
Proof.
  intros Hinv. pose proof Hinv as [Hok HS Hr Ht]. unfold pool_take_n, take_outcome.
  cbn [Z.eqb Pos.eqb]. destruct (free_block_count s =? 0)%nat eqn:Hc.
  { left. split_and!; [done|done|]. intros q Hq. apply Nat.eqb_eq in Hc.
    destruct (Hq q ltac:(lia)) as (b & Hb & _). unfold view in Hb. rewrite Hc, take_0 in Hb.
    by apply not_elem_of_nil in Hb. }
  apply Nat.eqb_neq in Hc. pose proof (length_view s Hok) as Hlen.
  destruct (view s) as [|b l _] eqn:Hv using rev_ind; [simpl in *; lia|]. clear Hlen.
  pose proof (length_view s Hok) as Hlen. rewrite Hv, length_app in Hlen. simpl in Hlen.
  replace (free_block_count s - 1)%nat with (length l) by lia.
  destruct (take_back_cuts s l b [] Hok) as [Hid Hcut]; [by rewrite Hv|by rewrite Hv|done|].
  destruct (block_take_back_one s (length l)) as [id s1]. cbn [fst snd] in *. subst id.
  destruct (run_ok_elem s l b []) as (? & ? & ?); [by rewrite Hv|done|].
  right. split.
  - apply cuts_took; try done; try lia. intros p Hp. exists b.
    split; [rewrite Hv; apply elem_of_app; right; by left|]. split; lia.
  - intros q (c & Hcv & Hq1 & Hq2). rewrite Hv in Hcv. apply elem_of_app in Hcv as [Hcl|Hcb].
    + apply sorted_middle in HS as (Hsb & _). rewrite Forall_forall in Hsb.
      specialize (Hsb c Hcl). unfold sep in Hsb. lia.
    + apply list_elem_of_singleton in Hcb as ->. lia.
Qed.

Lemma take_many_correct s n : pool_inv s → 1 < n →
  take_outcome s n (pool_take_n s n) (λ id, ∀ q, free_run s q n → id <= q).
Proof.
  intros Hinv Hn. pose proof Hinv as [Hok HS Hr Ht]. unfold pool_take_n, take_outcome.
  destruct (n =? 0) eqn:Hn0; [zb; lia|]. destruct (n =? 1) eqn:Hn1; [zb; lia|].
  unfold block_find_first_fit.
  pose proof (scan_spec (λ b, n <=? fb_pages b) (free_block_count s) 0 (free_blocks s)) as Hscan.
  rewrite view_drop_0 in Hscan. specialize (Hscan ltac:(destruct Hok; lia)).
  destruct (scan _ _ _ _) as [idx|].
  - destruct Hscan as (l & b & r & Hv & -> & Hb & Hl). cbn [Nat.add fst snd]. zb.
    destruct (blk_middle s l b r Hok Hv) as [_ Hblk]. rewrite Hblk.
    assert (b ∈ view s) as Hbv by (rewrite Hv; apply elem_of_app; right; by left).
    destruct (run_ok_elem s l b r Hr Hv) as (? & ? & ?). right. split.
    + apply cuts_took; try lia; [done| |].
      { apply take_front_cuts with (r := r); try done; lia. }
      apply (free_run_sub s (fb_base b) (fb_pages b)); [by apply block_free_run|lia|lia].
    + intros q Hq. destruct (free_run_block s q n HS ltac:(lia) Hq) as (c & Hcv & Hc1 & Hc2).
      rewrite Hv in Hcv. rewrite Forall_forall in Hl. apply elem_of_app in Hcv as [Hcl|Hcr].
      { specialize (Hl c Hcl). zb. lia. }
      apply elem_of_cons in Hcr as [->|Hcr]; [lia|]. rewrite Hv in HS.
      apply sorted_middle in HS as (_ & Hsb & _). rewrite Forall_forall in Hsb.
      specialize (Hsb c Hcr). unfold sep in Hsb. lia.
  - left. split_and!; [done|done|]. intros q Hq.
    destruct (free_run_block s q n HS ltac:(lia) Hq) as (c & Hcv & Hc1 & Hc2).
    rewrite Forall_forall in Hscan. specialize (Hscan c Hcv). zb. lia.
Qed.

Lemma take_any s n : pool_inv s → 0 < n → take_outcome s n (pool_take_n s n) (λ _, True).
Proof.
  intros Hinv Hn. destruct (decide (n = 1)) as [->|].
  - destruct (take_one_correct s Hinv) as [?|[? _]]; [by left|by right].
  - destruct (take_many_correct s n Hinv) as [?|[? _]]; [lia|by left|by right].
Qed.

Lemma page_is_free_dec_spec s id : pool_inv s →
  match block_find_containing s id with
  | Some i => ∃ l b r, view s = l ++ b :: r ∧ i = length l ∧ in_block id b
  | None => ¬ page_is_free s id
  end.
Proof.
  intros [Hok HS Hr _]. unfold block_find_containing.
  pose proof (scan_spec (λ b, (fb_base b <=? id) && (id <? fb_end b))
    (free_block_count s) 0 (free_blocks s)) as Hscan.
  rewrite view_drop_0 in Hscan. specialize (Hscan ltac:(destruct Hok; lia)).
  destruct (scan _ _ _ _) as [i|].
  - destruct Hscan as (l & b & r & Hv & -> & Hb & _). exists l, b, r. split_and!; [done|done|].
    rewrite run_fb_end in Hb by (by apply (run_ok_elem s l b r)). zb. split; lia.
  - intros (b & Hb & ? & ?). rewrite Forall_forall in Hscan, Hr. specialize (Hscan b Hb).
    rewrite run_fb_end in Hscan by (by apply Hr). apply andb_false_iff in Hscan. zb.
    destruct Hscan; zb; lia.
Qed.

Lemma pool_is_free_spec s id : pool_inv s → pool_is_free s id = true ↔ page_is_free s id.
Proof.
  intros Hinv. pose proof (page_is_free_dec_spec s id Hinv) as H. unfold pool_is_free.
  destruct (block_find_containing s id).
  - destruct H as (l & b & r & Hv & _ & Hb). split; [|done]. intros _.
    exists b. split; [rewrite Hv; apply elem_of_app; right; by left|done].
  - split; [done|]. intros Hf. by destruct H.
Qed.

(** One of the two re-insertions of [pool_take_at]. *)
Lemma reinsert_spec s base en n :
  array_ok s → StronglySorted sep (view s) → Forall run_ok (view s) →
  lo <= base <= en → en <= hi → n = en - base →
  (∀ p, base <= p < en → ¬ page_is_free s p) →
  merges_to s (if base <? en then default s (block_insert_or_merge s base n) else s) base n.
Proof.
  intros Hok HS Hr Hb He -> Hd. destruct (base <? en) eqn:Hlt; zb.
  - destruct (insert_or_merge_spec s base (en - base)) as (s' & -> & Hm); try done; [lia|lia|lia|].
    intros p Hp. apply Hd. lia.
  - unfold merges_to. split_and!; try done; [|lia]. intros p. split; [auto|].
    intros [?|?]; [done|lia].
Qed.

Lemma pool_take_at_spec s id : pool_inv s →
  let '(rc, s') := pool_take_at s id in
  (rc = 0 ∧ page_is_free s id ∧ took s s' id 1) ∨ (rc = -1 ∧ ¬ page_is_free s id ∧ s' = s).
Proof.
  intros Hinv. pose proof (page_is_free_dec_spec s id Hinv) as Hfind.
  unfold pool_take_at. destruct (block_find_containing s id) as [i|]; [|by right].
  destruct Hfind as (l & b & r & Hv & -> & Hin1 & Hin2). left.
  pose proof Hinv as [Hok HS Hr Ht]. pose proof (geo_lo geo) as Hlo.
  pose proof (run_ok_elem s l b r Hr Hv) as Hb. pose proof Hb as (? & ? & ?).
  destruct (blk_middle s l b r Hok Hv) as [_ ->].
  assert (page_is_free s id) as Hfree.
  { exists b. split; [rewrite Hv; apply elem_of_app; right; by left|done]. }
  rewrite run_fb_end, page_id_small by (done || lia). rewrite !pages_small by lia.
  set (s1 := block_remove s (length l)).
  destruct (shrink_ok s s1 l b r [] (fb_base b) (fb_pages b)) as (A1 & A2 & A3 & A4 & A5 & A6);
    try done; [by apply (view_remove s l b r)|by apply array_ok_remove|by left|].
  destruct (reinsert_spec s1 (fb_base b) id (id - fb_base b)) as (B1 & B2 & B3 & B4 & B5 & B6);
    try done; try lia.
  { intros p Hp. rewrite A4. intuition lia. }
  set (s2 := if fb_base b <? id then _ else _) in *.
  destruct (reinsert_spec s2 (id + 1) (fb_base b + fb_pages b) (fb_base b + fb_pages b - (id + 1)))
    as (C1 & C2 & C3 & C4 & C5 & C6); try done; try lia.
  { intros p Hp. rewrite B4, A4. intuition lia. }
  set (s3 := if id + 1 <? _ then _ else _) in *.
  split_and!; [done|done|]. apply cuts_took; try done; try lia.
  - unfold cuts. split_and!; try done; [|lia|congruence].
    intros p. rewrite C4, B4, A4. destruct (decide (fb_base b <= p < fb_base b + fb_pages b)).
    + assert (page_is_free s p) by (exists b; split;
        [rewrite Hv; apply elem_of_app; right; by left|done]). intuition lia.
    + intuition lia.
  - intros p Hp. by replace p with id by lia.
Qed.

Lemma pool_release_spec s base n : pool_inv s → lo <= base → 0 < n → base + n <= hi →
  (∀ p, base <= p < base + n → ¬ page_is_free s p) →
  ∃ s', pool_release s base n = (0, s') ∧ pool_inv s' ∧
    (∀ p, page_is_free s' p ↔ page_is_free s p ∨ base <= p < base + n) ∧
    pool_free_total s' = pool_free_total s + n.
Proof.
  intros Hinv Hlo Hn Hhi Hd. pose proof Hinv as [Hok HS Hr Ht].
  unfold pool_release. destruct (n =? 0) eqn:Hn0; [zb; lia|].
  destruct (insert_or_merge_spec s base n) as (s1 & -> & Hm); try done.
  destruct (merges_inv s s1 base n Hinv Hm) as [Hinv' Htot].
  eexists. split_and!; [done|done| |done]. apply Hm.
Qed.

(** [m] is the length of the longest run of free pages. *)
Definition longest_run (s : pool_t) (m : Z) : Prop :=
  0 <= m ∧ (∀ q n, 0 < n → free_run s q n → n <= m) ∧ ∃ q, free_run s q m.

Lemma longest_run_blocks s m : pool_inv s → 0 <= m →
  Forall (λ c, fb_pages c <= m) (view s) → (m = 0 ∨ ∃ c, c ∈ view s ∧ m = fb_pages c) →
  longest_run s m.
Proof.
  intros [_ HS _ _] Hm Hall Hex. split_and!; [done| |].
  - intros q n Hn Hq. destruct (free_run_block s q n HS Hn Hq) as (c & Hc & ? & ?).
    rewrite Forall_forall in Hall. specialize (Hall c Hc). simpl in Hall. lia.
  - destruct Hex as [->|(c & Hc & ->)]; [exists 0; intros p; lia|].
    exists (fb_base c). by apply block_free_run.
Qed.

Lemma pool_max_contig_spec s : pool_inv s → longest_run s (pool_max_contig s).
Proof.
  intros Hinv. pose proof Hinv as [Hok _ _ _].
  destruct (scan_max_spec (free_block_count s) 0 0 (free_blocks s)) as (H1 & H2 & H3).
  { destruct Hok. lia. }
  rewrite view_drop_0 in H2, H3. by apply longest_run_blocks.
Qed.

Lemma pool_take_largest_spec s mn mx m : pool_inv s → 0 < mn → longest_run s m →
  let '(id, got, s') := pool_take_largest s mn mx in
  if (mn <=? mx) && (mn <=? m)
  then got = Z.min mx m ∧ took s s' id got
  else id = PAGE_ID_INVALID ∧ got = 0 ∧ s' = s.
Proof.
  intros Hinv Hmn (Hm0 & Hmax & q & Hq). pose proof Hinv as [Hok HS Hr _].
  unfold pool_take_largest. destruct (mn =? 0) eqn:H0; [zb; lia|]. cbn [orb].
  rewrite Z.ltb_antisym. destruct (mn <=? mx) eqn:Hmx; [|done]. cbn [negb andb]. zb.
  pose proof (scan_largest_spec (free_block_count s) 0 None 0 (free_blocks s) []) as Hs.
  cbn [Nat.add] in Hs. change (take (free_block_count s) (free_blocks s)) with (view s) in Hs.
  specialize (Hs ltac:(destruct Hok; lia) eq_refl (conj eq_refl (Forall_nil_2 _))).
  destruct (scan_largest _ _ _ _ _) as [[j|] z].
  2:{ destruct Hs as [-> Hall]. destruct (mn <=? m) eqn:Hmm; [|done]. zb.
      destruct (free_run_block s q m HS ltac:(lia) Hq) as (c & Hc & ? & ?).
      rewrite Forall_forall in Hall. specialize (Hall c Hc). simpl in Hall. lia. }
  destruct Hs as (b & [Hj Hall] & ->).
  assert (m = fb_pages b) as ->.
  { assert (b ∈ view s) as Hb by (by apply list_elem_of_lookup_2 in Hj).
    assert (run_ok b) as (? & ? & ?) by (rewrite Forall_forall in Hr; by apply Hr).
    apply Z.le_antisymm; [|apply (Hmax (fb_base b)); [done|by apply block_free_run]].
    destruct (decide (m = 0)); [lia|].
    destruct (free_run_block s q m HS ltac:(lia) Hq) as (c & Hc & ? & ?).
    rewrite Forall_forall in Hall. specialize (Hall c Hc). simpl in Hall. lia. }
  rewrite Z.ltb_antisym. destruct (mn <=? fb_pages b) eqn:Hmm; [|done]. cbn [negb]. zb.
  pose proof (take_drop_middle _ _ _ Hj) as Hv. symmetry in Hv.
  assert (j = length (take j (view s))) as Hjl.
  { rewrite length_take. apply lookup_lt_Some in Hj. lia. }
  destruct (blk_middle s _ b _ Hok Hv) as [_ Hblk]. rewrite <- Hjl in Hblk. rewrite Hblk.
  destruct (run_ok_elem s _ b _ Hr Hv) as (? & ? & ?).
  rewrite Z.ltb_antisym. set (t := if negb (fb_pages b <=? mx) then mx else fb_pages b).
  assert (t = Z.min mx (fb_pages b)) as Ht.
  { subst t. destruct (fb_pages b <=? mx) eqn:?; cbn [negb]; zb; lia. }
  split; [done|]. apply cuts_took; try lia; [done| |].
  - rewrite Hjl at 1. apply take_front_cuts with (r := drop (S j) (view s)); try done; lia.
  - apply (free_run_sub s (fb_base b) (fb_pages b)); [|lia|lia].
    apply block_free_run. by apply list_elem_of_lookup_2 in Hj.
Qed.

(** Seeding the empty pool with its only range, as [mm_init] does. *)
Lemma pool_boot_inv s : length (free_blocks s) = FREE_BLOCKS_MAX → lo < hi →
  let s' := (pool_add (pool_reset s) lo (hi - lo)).2 in
  pool_inv s' ∧ ∀ p, page_is_free s' p ↔ lo <= p < hi.
Proof.
  intros Hlen Hlt. unfold pool_add. destruct (hi - lo =? 0) eqn:H0; [zb; lia|].
  pose proof page_count_max_lo. cbn [free_block_count pool_reset set_total set_count].
  destruct (Nat.leb_spec FREE_BLOCKS_MAX 0); [unfold FREE_BLOCKS_MAX in *; lia|].
  set (s' := set_total _ _).
  assert (view s' = [FreeBlock lo (hi - lo)]) as Hv.
  { unfold view. subst s'. cbn. destruct (free_blocks s); [simpl in *; unfold FREE_BLOCKS_MAX in *; lia|].
    cbn. by rewrite take_0. }
  assert (array_ok s') as Hok.
  { split; subst s'; simpl; [by rewrite length_insert|unfold FREE_BLOCKS_MAX; lia]. }
  assert (free_page_total s' = hi - lo) as Ht by (by apply total_small; lia).
  clearbody s'. cbn [snd]. split.
  - constructor; [done| | |]; rewrite Hv.
    + repeat constructor.
    + repeat constructor; simpl; lia.
    + simpl. lia.
  - intros p. unfold page_is_free. rewrite Hv, covers_cons, covers_nil. unfold in_block. simpl. lia.
Qed.
End WithGeometry.
End Facts.

(** ** Clients of the pool: a transition system with ownership *)

Section Clients.
Context {cfg : PageConfig}.
Context (lo hi : Z).

Definition page_range (base n : Z) : gset Z := list_to_set (seqZ base n).

Lemma elem_of_page_range p base n : p ∈ page_range base n ↔ base <= p < base + n.
Proof. unfold page_range. rewrite elem_of_list_to_set, elem_of_seqZ. lia. Qed.

(** A state: the pool and the pages its clients hold.  Clients release only
    ranges they hold. *)
Inductive pool_step : pool_t * gset Z → pool_t * gset Z → Prop :=
| step_take_n s o n s' id : 0 < n → pool_take_n s n = (id, s') →
    pool_step (s, o) (s', if id =? PAGE_ID_INVALID then o else o ∪ page_range id n)
| step_take_largest s o mn mx id got s' : 0 < mn → pool_take_largest s mn mx = (id, got, s') →
    pool_step (s, o) (s', o ∪ page_range id got)
| step_take_at s o id rc s' : pool_take_at s id = (rc, s') →
    pool_step (s, o) (s', if rc =? 0 then o ∪ page_range id 1 else o)
| step_release s o base n rc s' : 0 < n → page_range base n ⊆ o →
    pool_release s base n = (rc, s') →
    pool_step (s, o) (s', if rc =? 0 then o ∖ page_range base n else o).

(** The free pages and the held pages partition the pool. *)
Definition conserved (st : pool_t * gset Z) : Prop :=
  pool_inv lo hi st.1 ∧
  ∀ p, (lo <= p < hi ↔ page_is_free st.1 p ∨ p ∈ st.2) ∧ ¬ (page_is_free st.1 p ∧ p ∈ st.2).

Lemma conserved_took s o s' id n : geometry lo hi → conserved (s, o) →
  took lo hi s s' id n → conserved (s', o ∪ page_range id n).
Proof.
  intros Hg [Hinv Hc] (Hl & Hh & Hrun & Hinv' & Hf & _). split; [done|]. intros p.
  specialize (Hc p). simpl in *. rewrite elem_of_union, elem_of_page_range, Hf.
  specialize (Hrun p). destruct (decide (id <= p < id + n)); intuition lia.
Qed.

Lemma conserved_took_none st id : conserved st → conserved (st.1, st.2 ∪ page_range id 0).
Proof.
  intros [Hinv Hc]. split; [done|]. intros p. specialize (Hc p). simpl.
  rewrite elem_of_union, elem_of_page_range. intuition lia.
Qed.

Lemma conserved_released s o base n : geometry lo hi → conserved (s, o) → 0 < n →
  page_range base n ⊆ o →
  ∃ s', pool_release s base n = (0, s') ∧ conserved (s', o ∖ page_range base n).
Proof.
  intros Hg [Hinv Hc] Hn Hsub. simpl in *.
  assert (∀ p, base <= p < base + n → p ∈ o) as Ho.
  { intros p Hp. apply Hsub. by apply elem_of_page_range. }
  assert (∀ p, base <= p < base + n → lo <= p < hi ∧ ¬ page_is_free s p) as Hin.
  { intros p Hp. pose proof (Ho p Hp). specialize (Hc p). tauto. }
  destruct (Hin base ltac:(lia)) as [? _]. destruct (Hin (base + n - 1) ltac:(lia)) as [? _].
  destruct (pool_release_spec lo hi Hg s base n) as (s' & Hr & Hinv' & Hf & _); try done; try lia.
  { intros p Hp. by apply Hin. }
  exists s'. split; [done|]. split; [done|]. intros p. simpl.
  rewrite elem_of_difference, elem_of_page_range, Hf. specialize (Hc p).
  specialize (Hin p). specialize (Ho p). destruct (decide (base <= p < base + n)); intuition lia.
Qed.

Lemma conserved_step st st' : geometry lo hi → conserved st → pool_step st st' → conserved st'.
Proof.
  intros Hg Hc Hstep. destruct Hstep as [s o n s' id Hn Heq|s o mn mx id got s' Hmn Heq|
    s o id rc s' Heq|s o base n rc s' Hn Hsub Heq].
  - pose proof (take_any lo hi Hg s n (proj1 Hc) Hn) as Hout.
    rewrite Heq in Hout. unfold take_outcome in Hout. cbn [fst snd] in Hout.
    destruct Hout as [(-> & -> & _)|[Ht _]].
    + by rewrite Z.eqb_refl.
    + destruct (id =? PAGE_ID_INVALID) eqn:Hid; [|by eapply conserved_took].
      zb. destruct Ht as (? & ? & _). destruct Hg. lia.
  - pose proof (pool_max_contig_spec lo hi s (proj1 Hc)) as Hm.
    pose proof (pool_take_largest_spec lo hi Hg s mn mx _ (proj1 Hc) Hmn Hm) as Hout.
    rewrite Heq in Hout. destruct ((mn <=? mx) && _).
    + destruct Hout as [_ Ht]. by eapply conserved_took.
    + destruct Hout as (-> & -> & ->). by apply (conserved_took_none (s, o)).
  - pose proof (pool_take_at_spec lo hi Hg s id (proj1 Hc)) as Hout. rewrite Heq in Hout.
    destruct Hout as [(-> & _ & Ht)|(-> & _ & ->)]; [by eapply conserved_took|done].
  - destruct (conserved_released s o base n Hg Hc Hn Hsub) as (s1 & Hr & Hc1).
    rewrite Heq in Hr. by simplify_eq/=.
Qed.

(** The pool as [mm_init] leaves it. *)
Definition pool_boot : pool_t :=
  (pool_add (pool_reset (Pool (replicate FREE_BLOCKS_MAX (FreeBlock 0 0)) 0 0)) lo (hi - lo)).2.

Lemma pool_boot_ok : geometry lo hi → lo < hi →
  pool_inv lo hi pool_boot ∧ ∀ p, page_is_free pool_boot p ↔ lo <= p < hi.
Proof. intros. apply pool_boot_inv; [done|apply length_replicate|done]. Qed.

Lemma conserved_reachable st : geometry lo hi → lo < hi →
  rtc pool_step (pool_boot, ∅) st → conserved st.
Proof.
  intros Hg Hlt Hrtc. assert (conserved (pool_boot, ∅)) as H0.
  { destruct (pool_boot_ok Hg Hlt) as [Hinv Hf]. split; [done|]. intros p. simpl.
    rewrite Hf. pose proof (not_elem_of_empty (C:=gset Z) p). tauto. }
  revert H0. induction Hrtc as [|x y z Hxy _ IH]; [done|]. intros Hc.
  by apply IH, (conserved_step x).
Qed.
End Clients.


(** ** Properties *)

(** The default target: 32-bit page identifiers, fifty pages, the pool at
    [PAGE_POOL_BASE] 0x20006000. *)
#[export] Instance rp2040 : PageConfig.
Proof. refine {| page_id_bits := 32; page_count_max := 50 |}; abstract lia. Defined.

Lemma rp2040_geometry : geometry 131078 131122.
Proof. by constructor. Qed.

Lemma rp2040_boot : pool_inv 131078 131122 (pool_boot 131078 131122) ∧
  ∀ p, page_is_free (pool_boot 131078 131122) p ↔ 131078 <= p < 131122.
Proof. apply pool_boot_ok; [apply rp2040_geometry|lia]. Qed.

(** C1. [pool_take_n] either hands out [n] consecutive free pages, which leave
    the free set while every other page stays as it was, the invariant of the
    run list holds again and the total drops by [n]; or it reports
    [PAGE_ID_INVALID], changes nothing, and no run of [n] free pages exists.
    A single page is the highest free page; a longer run is the lowest one. *)
Theorem pool_take_n_correct `{PageConfig} lo hi s n :
  geometry lo hi → pool_inv lo hi s → 0 < n →
  take_outcome lo hi s n (pool_take_n s n)
    (λ id, if n =? 1 then ∀ q, page_is_free s q → q <= id
           else ∀ q, free_run s q n → id <= q).
Proof.
  intros Hg Hinv Hn. destruct (Z.eqb_spec n 1) as [->|].
  - by apply take_one_correct.
  - apply take_many_correct; [done|done|lia].
Qed.

Lemma pool_take_n_correct_witness :
  take_outcome 131078 131122 (pool_boot 131078 131122) 3
    (pool_take_n (pool_boot 131078 131122) 3)
    (λ id, if 3 =? 1 then ∀ q, page_is_free (pool_boot 131078 131122) q → q <= id
           else ∀ q, free_run (pool_boot 131078 131122) q 3 → id <= q).
Proof.
  apply pool_take_n_correct; [apply rp2040_geometry|apply rp2040_boot|lia].
Defined.

(** C2. Releasing a range of pages none of which is free always succeeds (the
    array never overflows), adds exactly that range to the free set, merges it
    with its neighbours (the invariant) and raises the total by [n]. *)
Theorem pool_release_correct `{PageConfig} lo hi s base n :
  geometry lo hi → pool_inv lo hi s → lo <= base → 0 < n → base + n <= hi →
  (∀ p, base <= p < base + n → ¬ page_is_free s p) →
  ∃ s', pool_release s base n = (0, s') ∧ pool_inv lo hi s' ∧
    (∀ p, page_is_free s' p ↔ page_is_free s p ∨ base <= p < base + n) ∧
    pool_free_total s' = pool_free_total s + n.
Proof. intros Hg. by apply pool_release_spec. Qed.

Lemma pool_release_correct_witness :
  let s := pool_reset (pool_boot 131078 131122) in
  ∃ s', pool_release s 131080 4 = (0, s') ∧ pool_inv 131078 131122 s' ∧
    (∀ p, page_is_free s' p ↔ page_is_free s p ∨ 131080 <= p < 131080 + 4) ∧
    pool_free_total s' = pool_free_total s + 4.
Proof.
  apply pool_release_correct; [apply rp2040_geometry| |lia|lia|lia|].
  - constructor; [split; [reflexivity|simpl; lia]|constructor|constructor|reflexivity].
  - intros p _ (b & Hb & _). by apply not_elem_of_nil in Hb.
Defined.

(** [pool_take_at] succeeds exactly when the page is free, and then removes
    that page alone, splitting its run; otherwise the pool is unchanged. *)
Theorem pool_take_at_correct `{PageConfig} lo hi s id :
  geometry lo hi → pool_inv lo hi s →
  let '(rc, s') := pool_take_at s id in
  (rc = 0 ∧ page_is_free s id ∧ took lo hi s s' id 1) ∨
  (rc = -1 ∧ ¬ page_is_free s id ∧ s' = s).
Proof. intros Hg. by apply pool_take_at_spec. Qed.

Lemma pool_take_at_correct_witness :
  let s := pool_boot 131078 131122 in
  let '(rc, s') := pool_take_at s 131090 in
  (rc = 0 ∧ page_is_free s 131090 ∧ took 131078 131122 s s' 131090 1) ∨
  (rc = -1 ∧ ¬ page_is_free s 131090 ∧ s' = s).
Proof.
  apply (pool_take_at_correct 131078 131122); [apply rp2040_geometry|apply rp2040_boot].
Defined.

(** [pool_take_largest] takes the longest free run, whose length is what
    [pool_max_contig] reports, cut to [max_pages]; it fails, changing nothing,
    exactly when that run is shorter than [min_pages] or the bounds are empty. *)
Theorem pool_take_largest_correct `{PageConfig} lo hi s mn mx :
  geometry lo hi → pool_inv lo hi s → 0 < mn →
  longest_run s (pool_max_contig s) ∧
  let '(id, got, s') := pool_take_largest s mn mx in
  if (mn <=? mx) && (mn <=? pool_max_contig s)
  then got = Z.min mx (pool_max_contig s) ∧ took lo hi s s' id got
  else id = PAGE_ID_INVALID ∧ got = 0 ∧ s' = s.
Proof.
  intros Hg Hinv Hmn. pose proof (pool_max_contig_spec lo hi s Hinv). split; [done|].
  by apply pool_take_largest_spec.
Qed.

Lemma pool_take_largest_correct_witness :
  let s := pool_boot 131078 131122 in
  longest_run s (pool_max_contig s) ∧
  let '(id, got, s') := pool_take_largest s 2 100 in
  if (2 <=? 100) && (2 <=? pool_max_contig s)
  then got = Z.min 100 (pool_max_contig s) ∧ took 131078 131122 s s' id got
  else id = PAGE_ID_INVALID ∧ got = 0 ∧ s' = s.
Proof.
  apply (pool_take_largest_correct 131078 131122 (pool_boot 131078 131122) 2 100);
    [apply rp2040_geometry|apply rp2040_boot|lia].
Defined.

(** Allocating [n] pages and releasing them again restores the run list
    itself, not only the set of free pages, and the total. *)
Theorem pool_take_release_roundtrip `{PageConfig} lo hi s n id s' :
  geometry lo hi → pool_inv lo hi s → 0 < n →
  pool_take_n s n = (id, s') → id ≠ PAGE_ID_INVALID →
  ∃ s'', pool_release s' id n = (0, s'') ∧ view s'' = view s ∧
    pool_free_total s'' = pool_free_total s.
Proof.
  intros Hg Hinv Hn Heq Hid.
  pose proof (take_any lo hi Hg s n Hinv Hn) as Hout. rewrite Heq in Hout.
  unfold take_outcome in Hout. cbn [fst snd] in Hout.
  destruct Hout as [(Hbad & _)|[(Hl & Hh & Hrun & Hinv' & Hf & Ht) _]]; [done|].
  destruct (pool_release_spec lo hi Hg s' id n) as (s2 & Hr & Hinv2 & Hf2 & Ht2); try done.
  { intros p Hp. rewrite Hf. tauto. }
  exists s2. split_and!; [done| |lia].
  apply runs_canonical with (lo := lo) (hi := hi); try apply Hinv; try apply Hinv2.
  intros p. fold (page_is_free s2 p) (page_is_free s p). rewrite Hf2, Hf.
  specialize (Hrun p). destruct (decide (id <= p < id + n)); tauto.
Qed.

Lemma pool_take_release_roundtrip_witness :
  let s := pool_boot 131078 131122 in
  ∃ s'', pool_release (pool_take_n s 3).2 (pool_take_n s 3).1 3 = (0, s'') ∧
    view s'' = view s ∧ pool_free_total s'' = pool_free_total s.
Proof.
  apply (pool_take_release_roundtrip 131078 131122); [apply rp2040_geometry|
    apply rp2040_boot|lia|reflexivity|discriminate].
Defined.

(** Along every sequence of allocations and releases from boot, where a
    client releases only pages it holds, the free pages and the held pages
    partition the pool, and any release of held pages succeeds. *)
Theorem pool_conservation `{PageConfig} lo hi st :
  geometry lo hi → lo < hi → rtc (pool_step) (pool_boot lo hi, ∅) st →
  pool_inv lo hi st.1 ∧
  (∀ p, (lo <= p < hi ↔ page_is_free st.1 p ∨ p ∈ st.2) ∧
        ¬ (page_is_free st.1 p ∧ p ∈ st.2)) ∧
  (∀ base n, 0 < n → page_range base n ⊆ st.2 → (pool_release st.1 base n).1 = 0).
Proof.
  intros Hg Hlt Hr. pose proof (conserved_reachable lo hi st Hg Hlt Hr) as Hc.
  split_and!; [apply Hc|apply Hc|]. intros base n Hn Hsub. destruct st as [s o].
  cbn [fst snd] in *.
  by destruct (conserved_released lo hi s o base n Hg Hc Hn Hsub) as (s' & -> & _).
Qed.

Lemma pool_conservation_witness :
  let st := ((pool_take_n (pool_boot 131078 131122) 3).2, ∅ ∪ page_range 131078 3) in
  pool_inv 131078 131122 st.1 ∧
  (∀ p, (131078 <= p < 131122 ↔ page_is_free st.1 p ∨ p ∈ st.2) ∧
        ¬ (page_is_free st.1 p ∧ p ∈ st.2)) ∧
  (∀ base n, 0 < n → page_range base n ⊆ st.2 → (pool_release st.1 base n).1 = 0).
Proof.
  apply (pool_conservation 131078 131122); [apply rp2040_geometry|lia|].
  apply rtc_once.
  change (∅ ∪ page_range 131078 3) with
    (if 131078 =? PAGE_ID_INVALID then ∅ else ∅ ∪ page_range 131078 3).
  by apply step_take_n with (n := 3).
Defined.
