(* ===== verification/Page.v ===== *)
(** * Page: the page layer over the pool (src/kernel/core/mm/page.c)

    [mm_init] seeds the pool; the allocation calls wrap the pool with the
    out-of-memory counter, the range check and the double-free guard.  The
    hooks of mem_helper.h are a class, [mem_helper_default] being the weak
    definitions of mem_helper.c.  Kernel log lines are recorded as events. *)

From S2P Require Import Prelude Config PagePool PagePoolFacts.

(** [region_t]; the null pointer is 0. *)
Record region_t := Region { r_base : Z; r_base_page : Z }.

(** What the linker script and the architecture fix. *)
Class PageTarget := {
  PAGE_POOL_BASE : Z;
  stack_top : Z;
  uintptr_bits : Z;
  uintptr_bits_range : 16 <= uintptr_bits <= 32
}.

(** The hooks of mem_helper.h, over the state of the architecture's arenas.
    [mem_helper_init_pool] returns its status and the new [page_count] and
    [*base_out]. *)
Class MemHelper := {
  arch_state : Type;
  mem_helper_init_pool : arch_state → Z → Z → Z * arch_state * Z * Z;
  mem_helper_alloc : arch_state → Z → Z → Z → region_t → Z * arch_state * region_t;
  mem_helper_free : arch_state → Z → Z → region_t → Z * arch_state;
  mem_helper_total_bytes : arch_state → Z → Z;
  mem_helper_free_bytes : arch_state → Z → Z;
  mem_helper_largest_free : arch_state → Z → Z
}.

Definition mem_helper_default : MemHelper := {|
  arch_state := unit;
  mem_helper_init_pool a count base := (0, a, count, base);
  mem_helper_alloc a _ _ _ out := (- ENOSYS, a, out);
  mem_helper_free a _ _ _ := (- ENOSYS, a);
  mem_helper_total_bytes _ _ := -1;
  mem_helper_free_bytes _ _ := -1;
  mem_helper_largest_free _ _ := -1
|}.

(** The messages of page.c. *)
Inductive mm_event :=
| OOM
| DOUBLE_FREE (id : Z)
| LEAKED (id : Z).

Section Operations.
Context {cfg : PageConfig} {tgt : PageTarget} {mh : MemHelper}.

(** The statics of page.c with the pool and the arenas below them. *)
Record mm_t := Mm {
  mm_pool : pool_t;
  page_count : Z;
  oom_count : Z;
  s_pool_base : Z;
  mm_arch : arch_state;
  mm_log : list mm_event
}.

Definition set_pool (m : mm_t) (p : pool_t) : mm_t :=
  Mm p (page_count m) (oom_count m) (s_pool_base m) (mm_arch m) (mm_log m).
Definition set_arch (m : mm_t) (a : arch_state) : mm_t :=
  Mm (mm_pool m) (page_count m) (oom_count m) (s_pool_base m) a (mm_log m).
Definition klogf (m : mm_t) (e : mm_event) : mm_t :=
  Mm (mm_pool m) (page_count m) (oom_count m) (s_pool_base m) (mm_arch m) (mm_log m ++ [e]).
Definition count_oom (m : mm_t) : mm_t :=
  Mm (mm_pool m) (page_count m) (u32 (oom_count m + 1)) (s_pool_base m) (mm_arch m) (mm_log m).

Definition page_id_linear (id : Z) : Z := u32 (id * PAGE_SIZE).
Definition linear_page_id (addr : Z) : Z := to_page_id (addr / PAGE_SIZE).
Definition page_pool_base (m : mm_t) : Z := s_pool_base m.
Definition pool_base_page_id (m : mm_t) : Z := linear_page_id (page_pool_base m).

Definition pool_page_id_to_index (m : mm_t) (id : Z) : option Z :=
  let base := pool_base_page_id m in
  if id <? base then None
  else
    let rel := u32 (id - base) in
    if page_count m <=? rel then None else Some rel.

(** The seeding loop of [mm_init]; [k] pages are left, [i] is the next one. *)
Fixpoint mm_seed (stack_page_top pool_base : Z) (k : nat) (i run_base run_len : Z)
    (s : pool_t) : pool_t :=
  match k with
  | O => if 0 <? run_len then (pool_add s run_base run_len).2 else s
  | S k' =>
      let paddr := u32 (pool_base + i * PAGE_SIZE) in
      let skipped := paddr <? u32 stack_page_top in
      if negb skipped then
        let run_base := if run_len =? 0 then linear_page_id paddr else run_base in
        mm_seed stack_page_top pool_base k' (i + 1) run_base (u16 (run_len + 1)) s
      else if 0 <? run_len then
        mm_seed stack_page_top pool_base k' (i + 1) run_base 0 (pool_add s run_base run_len).2
      else mm_seed stack_page_top pool_base k' (i + 1) run_base run_len s
  end.

(** [None] is the panic. *)
Definition mm_init (m : mm_t) : option mm_t :=
  let '(rc, a, count, base) :=
    mem_helper_init_pool (mm_arch m) (Z.of_nat page_count_max) PAGE_POOL_BASE in
  if rc <? 0 then None
  else
    let stack_page_top := Z.land (uN uintptr_bits (stack_top + PAGE_SIZE - 1))
                                 (uN uintptr_bits (Z.lnot (PAGE_SIZE - 1))) in
    let s := mm_seed stack_page_top base (Z.to_nat count) 0 0 0 (pool_reset (mm_pool m)) in
    Some (Mm s count (oom_count m) base a (mm_log m)).

Definition page_alloc (m : mm_t) : Z * mm_t :=
  let '(id, p) := pool_take_n (mm_pool m) 1 in
  let m := set_pool m p in
  if id =? PAGE_ID_INVALID then (id, klogf (count_oom m) OOM) else (id, m).

Definition page_alloc_n (m : mm_t) (n_pages : Z) : Z * mm_t :=
  if (n_pages =? 0) || (0xFFFF <? n_pages) then (PAGE_ID_INVALID, m)
  else
    let '(id, p) := pool_take_n (mm_pool m) (u16 n_pages) in
    (id, set_pool m p).

Definition page_alloc_largest (m : mm_t) (min_pages max_pages : Z) : Z * Z * mm_t :=
  if (min_pages =? 0) || (max_pages <? min_pages) || (0xFFFF <? min_pages)
  then (PAGE_ID_INVALID, 0, m)
  else
    let max_pages := if 0xFFFF <? max_pages then 0xFFFF else max_pages in
    let '(base, got, p) := pool_take_largest (mm_pool m) (u16 min_pages) (u16 max_pages) in
    (base, got, set_pool m p).

Definition page_alloc_at (m : mm_t) (id : Z) : Z * mm_t :=
  if id =? PAGE_ID_INVALID then (-1, m)
  else let '(rc, p) := pool_take_at (mm_pool m) id in (rc, set_pool m p).

Definition page_free (m : mm_t) (id : Z) : mm_t :=
  if (id =? PAGE_ID_INVALID) || negb (bool_decide (is_Some (pool_page_id_to_index m id))) then m
  else if pool_is_free (mm_pool m) id then klogf m (DOUBLE_FREE id)
  else
    let '(rc, p) := pool_release (mm_pool m) id 1 in
    let m := set_pool m p in
    if rc <? 0 then klogf m (LEAKED id) else m.

Definition page_free_count (m : mm_t) : Z := pool_free_total (mm_pool m).
Definition page_max_contiguous (m : mm_t) : Z := pool_max_contig (mm_pool m).

Definition page_linear (id : Z) : Z :=
  if id =? PAGE_ID_INVALID then 0 else page_id_linear id.

Definition page_from_ptr (addr : Z) : Z :=
  if addr =? 0 then PAGE_ID_INVALID else linear_page_id addr.
End Operations.
