(* ===== verification/Region.v ===== *)
(** * Region: typed allocation over the page layer (src/kernel/core/mm/region.c)

    Memory classes are dispatched to the architecture's hooks first and to the
    page pool otherwise.  A region argument that may be NULL is an [option]. *)

From S2P Require Import Prelude Config PagePool PagePoolFacts Page.

(** [ppap_mem_class_t] *)
Definition PPAP_MEM_NONE : Z := 0.
Definition PPAP_MEM_RAM_TEXT : Z := 1.
Definition PPAP_MEM_RAM_RODATA : Z := 2.
Definition PPAP_MEM_RAM_DATA : Z := 3.
Definition PPAP_MEM_EXT_TEXT : Z := 4.
Definition PPAP_MEM_EXT_RODATA : Z := 5.
Definition PPAP_MEM_ROM_TEXT : Z := 6.
Definition PPAP_MEM_ROM_RODATA : Z := 7.
Definition PPAP_MEM_RAM_STACK : Z := 8.
Definition PPAP_MEM_DEVICE_DMA : Z := 9.

Section Operations.
Context {cfg : PageConfig} {tgt : PageTarget} {mh : MemHelper}.

(** [size + PAGE_SIZE - 1u] is 32-bit unsigned arithmetic. *)
Definition region_page_count (size : Z) : Z := u32 (size + PAGE_SIZE - 1) / PAGE_SIZE.

Definition region_page_pool_total_bytes (m : mm_t) : Z := u32 (page_count m * PAGE_SIZE).
Definition region_page_pool_free_bytes (m : mm_t) : Z := u32 (page_free_count m * PAGE_SIZE).
Definition region_page_pool_largest_free_bytes (m : mm_t) : Z :=
  u32 (page_max_contiguous m * PAGE_SIZE).

(** The region is returned with the status; it is the argument [out] where the
    code leaves [*out] alone.  [(void * )(uintptr_t)] truncates the address. *)
Definition region_alloc_page_backed (m : mm_t) (size : Z) (out : region_t)
    : Z * region_t * mm_t :=
  if size =? 0 then (0, Region 0 PAGE_ID_INVALID, m)
  else
    let n_pages := region_page_count size in
    let '(pid, m) := if n_pages =? 1 then page_alloc m else page_alloc_n m n_pages in
    if pid =? PAGE_ID_INVALID then (- ENOMEM, out, m)
    else (0, Region (uN uintptr_bits (page_linear pid)) pid, m).

Definition region_alloc (m : mm_t) (mem_class size flags : Z) (out : option region_t)
    : Z * option region_t * mm_t :=
  match out with
  | None => (- EINVAL, None, m)
  | Some out =>
      let '(rc, a, out) := mem_helper_alloc (mm_arch m) mem_class size flags out in
      let m := set_arch m a in
      if negb (rc =? - ENOSYS) then (rc, Some out, m)
      else let '(rc, out, m) := region_alloc_page_backed m size out in (rc, Some out, m)
  end.

(** The roll-back loop [for (j = 0; j < i; j++) page_free(base_id + j)];
    [k] is [i - j]. *)
Fixpoint free_pages (m : mm_t) (base_id : Z) (k : nat) (j : Z) : mm_t :=
  match k with
  | O => m
  | S k' => free_pages (page_free m (to_page_id (base_id + to_page_id j))) base_id k' (j + 1)
  end.

(** The loop of [region_alloc_at]: the result is the page that could not be
    taken, if any. *)
Fixpoint alloc_pages_at (m : mm_t) (base_id : Z) (k : nat) (i : Z) : option Z * mm_t :=
  match k with
  | O => (None, m)
  | S k' =>
      let '(rc, m) := page_alloc_at m (to_page_id (base_id + to_page_id i)) in
      if rc <? 0 then (Some i, m) else alloc_pages_at m base_id k' (i + 1)
  end.

Definition region_alloc_at (m : mm_t) (mem_class base size flags : Z) (out : option region_t)
    : Z * option region_t * mm_t :=
  match out with
  | None => (- EINVAL, None, m)
  | Some r =>
      if (base =? 0) || (size =? 0) then (- EINVAL, Some r, m)
      else if (mem_class =? PPAP_MEM_RAM_DATA) || (mem_class =? PPAP_MEM_RAM_STACK)
           || (mem_class =? PPAP_MEM_RAM_RODATA) || (mem_class =? PPAP_MEM_DEVICE_DMA) then
        let n_pages := region_page_count size in
        let base_id := page_from_ptr base in
        match alloc_pages_at m base_id (Z.to_nat n_pages) 0 with
        | (Some i, m) => (- ENOMEM, Some r, free_pages m base_id (Z.to_nat i) 0)
        | (None, m) => (0, Some (Region base base_id), m)
        end
      else (- EINVAL, Some r, m)
  end.

Definition region_free_page_backed (m : mm_t) (size : Z) (r : region_t) : mm_t :=
  let n_pages := region_page_count size in
  let base_id := if r_base_page r =? PAGE_ID_INVALID then page_from_ptr (r_base r)
                 else r_base_page r in
  free_pages m base_id (Z.to_nat n_pages) 0.

Definition region_free (m : mm_t) (mem_class size : Z) (r : option region_t) : mm_t :=
  match r with
  | None => m
  | Some r =>
      if size =? 0 then m
      else if (r_base r =? 0) && (r_base_page r =? PAGE_ID_INVALID) then m
      else
        let '(rc, a) := mem_helper_free (mm_arch m) mem_class size r in
        let m := set_arch m a in
        if rc =? 0 then m else region_free_page_backed m size r
  end.

Definition region_total_bytes (m : mm_t) (mem_class : Z) : Z :=
  let v := mem_helper_total_bytes (mm_arch m) mem_class in
  if 0 <=? v then u32 v else region_page_pool_total_bytes m.

Definition region_free_bytes (m : mm_t) (mem_class : Z) : Z :=
  let v := mem_helper_free_bytes (mm_arch m) mem_class in
  if 0 <=? v then u32 v else region_page_pool_free_bytes m.

Definition region_largest_free_bytes (m : mm_t) (mem_class : Z) : Z :=
  let v := mem_helper_largest_free (mm_arch m) mem_class in
  if 0 <=? v then u32 v else region_page_pool_largest_free_bytes m.
End Operations.
