(* ===== verification/PageFacts.v ===== *)
(** * PageFacts: correctness of the page layer and of region allocation

    The invariant [mm_inv] of the page layer, boot, the double-free guard, and
    the typed allocator built on them. *)

From S2P Require Import Prelude Config PagePool PagePoolFacts Page Region.

(** ** Pools that differ only in dead array slots *)

Definition pool_equiv (s s' : pool_t) : Prop :=
  view s = view s' ∧ free_page_total s = free_page_total s'.

#[export] Instance pool_equiv_equivalence : Equivalence pool_equiv.
Proof.
  split; [done| |].
  - intros s s' [? ?]. by split.
  - intros s s' s'' [? ?] [? ?]. split; congruence.
Qed.

#[export] Instance page_is_free_proper : Proper (pool_equiv ==> eq ==> iff) page_is_free.
Proof. intros s s' [Hv _] p ? <-. unfold page_is_free. by rewrite Hv. Qed.

#[export] Instance pool_free_total_proper : Proper (pool_equiv ==> eq) pool_free_total.
Proof. intros s s' [_ Ht]. done. Qed.

Section Facts.
Context {cfg : PageConfig} {tgt : PageTarget} {mh : MemHelper}.

(** The free set determines the pool up to [pool_equiv]. *)
Lemma pool_equiv_intro lo hi s s' : pool_inv lo hi s → pool_inv lo hi s' →
  (∀ p, page_is_free s p ↔ page_is_free s' p) → pool_equiv s s'.
Proof.
  intros Hi Hi' Hf. assert (view s = view s') as Hv.
  { apply (runs_canonical lo hi); try apply Hi; try apply Hi'. exact Hf. }
  split; [done|]. by rewrite (inv_total _ _ _ Hi), (inv_total _ _ _ Hi'), Hv.
Qed.

Lemma pool_inv_weaken lo lo' hi s : lo <= lo' → pool_inv lo' hi s → pool_inv lo hi s.
Proof.
  intros Hlo [Ha Hs Hr Ht]. constructor; try done.
  eapply Forall_impl; [exact Hr|]. intros b (? & ? & ?). split_and!; lia.
Qed.

Record mm_inv (m : mm_t) (lo hi : Z) : Prop := {
  mm_geo : geometry lo hi;
  mm_lo : pool_base_page_id m = lo;
  mm_hi : page_count m = hi - lo;
  mm_pool_inv : pool_inv lo hi (mm_pool m)
}.

(** The part of the state no allocation touches. *)
Definition same_frame (m m' : mm_t) : Prop :=
  page_count m' = page_count m ∧ s_pool_base m' = s_pool_base m ∧ mm_arch m' = mm_arch m.

#[export] Instance same_frame_preorder : PreOrder same_frame.
Proof. split; [done|]. intros ??? (?&?&?) (?&?&?). repeat split; congruence. Qed.

Lemma mm_inv_frame m m' lo hi : mm_inv m lo hi → same_frame m m' →
  pool_inv lo hi (mm_pool m') → mm_inv m' lo hi.
Proof.
  intros [Hg Hlo Hhi _] (Hc & Hb & _) Hi. constructor; try done.
  - rewrite <- Hlo. unfold pool_base_page_id, page_pool_base. by rewrite Hb.
  - by rewrite Hc.
Qed.

Lemma page_count_u16 lo hi : geometry lo hi → hi - lo < 65536.
Proof. intros [_ _ Hc _]. pose proof page_count_max_hi. lia. Qed.

(** ** [page_free] *)

Definition valid_id (id : Z) : Prop := 0 <= id < 2 ^ page_id_bits.

Lemma index_spec m lo hi id : mm_inv m lo hi → valid_id id →
  is_Some (pool_page_id_to_index m id) ↔ lo <= id < hi.
Proof.
  intros [Hg Hlo Hhi _] [Hid0 Hid]. pose proof (geo_lo _ _ Hg). pose proof (geo_order _ _ Hg).
  assert (2 ^ page_id_bits <= 2 ^ 32) by (apply Z.pow_le_mono_r; pose proof page_id_bits_range; lia).
  unfold pool_page_id_to_index. rewrite Hlo, Hhi.
  destruct (Z.ltb_spec id lo); [split; [intros [? ?]; done|lia]|].
  rewrite (uN_small 32) by lia.
  destruct (Z.leb_spec (hi - lo) (id - lo)); split; try lia; [intros [? ?]; done|by eexists].
Qed.

Lemma page_free_spec m lo hi id : mm_inv m lo hi → valid_id id →
  mm_inv (page_free m id) lo hi ∧ same_frame m (page_free m id) ∧
  ∀ p, page_is_free (mm_pool (page_free m id)) p ↔
       page_is_free (mm_pool m) p ∨ (p = id ∧ lo <= id < hi).
Proof.
  intros Hm Hid. pose proof (index_spec m lo hi id Hm Hid) as Hx.
  pose proof (mm_geo _ _ _ Hm) as Hg. pose proof (mm_pool_inv _ _ _ Hm) as Hi.
  pose proof (geo_hi _ _ Hg). unfold page_free. destruct (Z.eqb_spec id PAGE_ID_INVALID).
  { cbn [orb]. split_and!; [done|done|]. intros p. intuition lia. }
  destruct (bool_decide_reflect (is_Some (pool_page_id_to_index m id))) as [Hin|Hout]; cbn [orb negb].
  2:{ split_and!; [done|done|]. intros p. tauto. }
  apply Hx in Hin. destruct (pool_is_free (mm_pool m) id) eqn:Hfree.
  { apply (pool_is_free_spec lo hi Hg) in Hfree; [|done].
    split_and!; [by apply (mm_inv_frame m)|done|]. intros p. cbn. intuition congruence. }
  destruct (pool_release_spec lo hi Hg (mm_pool m) id 1) as (p' & -> & Hi' & Hf' & _);
    [done|lia|lia|lia| |].
  { intros p Hp. replace p with id by lia. rewrite <- (pool_is_free_spec lo hi Hg) by done. congruence. }
  cbn [Z.ltb Z.compare]. split_and!; [by apply (mm_inv_frame m)|done|].
  intros p. cbn [mm_pool set_pool]. rewrite Hf'. intuition lia.
Qed.

Lemma page_alloc_at_spec m lo hi id : mm_inv m lo hi →
  let '(rc, m') := page_alloc_at m id in
  mm_inv m' lo hi ∧ same_frame m m' ∧
  ((rc = 0 ∧ page_is_free (mm_pool m) id ∧
    ∀ p, page_is_free (mm_pool m') p ↔ page_is_free (mm_pool m) p ∧ p ≠ id) ∨
   (rc = -1 ∧ ¬ page_is_free (mm_pool m) id ∧ m' = m)).
Proof.
  intros Hm. pose proof (mm_geo _ _ _ Hm) as Hg. pose proof (mm_pool_inv _ _ _ Hm) as Hi.
  unfold page_alloc_at. destruct (Z.eqb_spec id PAGE_ID_INVALID) as [->|].
  { split_and!; [done|done|]. right. split_and!; [done| |done]. intros Hf.
    apply (free_page_bounds lo hi) in Hf; [|done]. pose proof (geo_hi _ _ Hg). lia. }
  pose proof (pool_take_at_spec lo hi Hg (mm_pool m) id Hi) as Hs.
  destruct (pool_take_at (mm_pool m) id) as [rc p'].
  destruct Hs as [(-> & Hf & Ht)|(-> & Hf & ->)].
  - destruct Ht as (_ & _ & _ & Hi' & Hf' & _). split_and!; [by apply (mm_inv_frame m)|done|].
    left. split_and!; [done|done|]. intros p. cbn [mm_pool set_pool]. rewrite Hf'. intuition lia.
  - split_and!; [by apply (mm_inv_frame m)|done|]. right. split_and!; [done|done|].
    by destruct m.
Qed.

(** ** Loops over page identifiers *)

(** The [j]th page of a loop from [base_id], as the code computes it. *)
Definition nth_page (base_id j : Z) : Z := to_page_id (base_id + to_page_id j).

Lemma nth_page_valid base_id j : valid_id (nth_page base_id j).
Proof. apply uN_range. pose proof page_id_bits_range. lia. Qed.

Lemma free_pages_spec m lo hi base_id k j : mm_inv m lo hi →
  mm_inv (free_pages m base_id k j) lo hi ∧ same_frame m (free_pages m base_id k j) ∧
  ∀ p, page_is_free (mm_pool (free_pages m base_id k j)) p ↔
    page_is_free (mm_pool m) p ∨
    (lo <= p < hi ∧ ∃ i, j <= i < j + Z.of_nat k ∧ p = nth_page base_id i).
Proof.
  revert m j. induction k as [|k IH]; intros m j Hm; cbn [free_pages].
  { split_and!; [done|done|]. intros p. split; [tauto|]. intros [?|(_ & i & ? & _)]; [done|lia]. }
  destruct (page_free_spec m lo hi (nth_page base_id j) Hm (nth_page_valid _ _)) as (A1 & A2 & A3).
  fold (nth_page base_id j). set (m1 := page_free m (nth_page base_id j)) in *.
  destruct (IH m1 (j + 1) A1) as (B1 & B2 & B3). split_and!; [done|by etrans|].
  intros p. rewrite B3, A3. split.
  - intros [[?|[-> ?]]|(? & i & ? & ?)]; [by left|right; split; [done|exists j; split; [lia|done]]|].
    right. split; [done|]. exists i. split; [lia|done].
  - intros [?|(? & i & ? & ->)]; [tauto|]. destruct (decide (i = j)) as [->|]; [tauto|].
    right. split; [done|]. exists i. split; [lia|done].
Qed.

Lemma alloc_pages_at_spec m lo hi base_id k i : mm_inv m lo hi →
  let '(r, m') := alloc_pages_at m base_id k i in
  mm_inv m' lo hi ∧ same_frame m m' ∧
  let e := default (i + Z.of_nat k) r in
  i <= e <= i + Z.of_nat k ∧ (is_Some r → e < i + Z.of_nat k ∧
    ¬ page_is_free (mm_pool m') (nth_page base_id e)) ∧
  (∀ j, i <= j < e → page_is_free (mm_pool m) (nth_page base_id j)) ∧
  ∀ p, page_is_free (mm_pool m') p ↔
    page_is_free (mm_pool m) p ∧ ¬ ∃ j, i <= j < e ∧ p = nth_page base_id j.
Proof.
  revert m i. induction k as [|k IH]; intros m i Hm; cbn [alloc_pages_at].
  { cbn. split_and!; try done; try lia.
    intros p. split; [|tauto]. intros ?. split; [done|]. intros (j & ? & _). lia. }
  pose proof (page_alloc_at_spec m lo hi (nth_page base_id i) Hm) as Ha.
  fold (nth_page base_id i). destruct (page_alloc_at m (nth_page base_id i)) as [rc m1].
  destruct Ha as (A1 & A2 & [(-> & A3 & A4)|(-> & A3 & ->)]); cbn [Z.ltb Z.compare].
  - specialize (IH m1 (i + 1) A1). destruct (alloc_pages_at m1 base_id k (i + 1)) as [r m2].
    destruct IH as (B1 & B2 & B3 & B4 & B5 & B6).
    replace (i + 1 + Z.of_nat k) with (i + Z.of_nat (S k)) in * by lia.
    split_and!; try done; try lia; [by etrans| |].
    + intros j Hj. destruct (decide (j = i)) as [->|]; [done|]. apply A4, B5. lia.
    + intros p. rewrite B6, A4. split.
      * intros [[? ?] Hn]. split; [done|]. intros (j & ? & ->).
        destruct (decide (j = i)) as [->|]; [done|]. apply Hn. exists j. split; [lia|done].
      * intros [? Hn]. split_and!; [done| |].
        -- intros ->. apply Hn. exists i. split; [lia|done].
        -- intros (j & ? & ->). apply Hn. exists j. split; [lia|done].
  - cbn. split_and!; try done; try lia; [intros _; split; [lia|done]|].
    intros p. split; [|tauto]. intros ?. split; [done|]. intros (j & ? & _). lia.
Qed.

(** A roll-back after a partial loop restores the pool. *)
Lemma rollback_equiv m m1 lo hi base_id k i : mm_inv m lo hi →
  alloc_pages_at m base_id k 0 = (Some i, m1) →
  mm_inv (free_pages m1 base_id (Z.to_nat i) 0) lo hi ∧
  same_frame m (free_pages m1 base_id (Z.to_nat i) 0) ∧
  pool_equiv (mm_pool (free_pages m1 base_id (Z.to_nat i) 0)) (mm_pool m).
Proof.
  intros Hm Heq. pose proof (alloc_pages_at_spec m lo hi base_id k 0 Hm) as Ha.
  rewrite Heq in Ha. destruct Ha as (A1 & A2 & A3 & _ & A5 & A6). cbn in A3, A5, A6.
  destruct (free_pages_spec m1 lo hi base_id (Z.to_nat i) 0 A1) as (B1 & B2 & B3).
  split_and!; [done|by etrans|]. apply (pool_equiv_intro lo hi); [apply B1|apply Hm|].
  intros p. rewrite B3, A6. split.
  - intros [[? _]|(_ & j & ? & ->)]; [done|]. apply A5. lia.
  - intros Hp. destruct (decide (Exists (λ j, p = nth_page base_id j) (seqZ 0 i))) as [He|Hn].
    + apply Exists_exists in He as (j & Hj & ->). apply elem_of_seqZ in Hj. right.
      split; [by apply (free_page_bounds lo hi _ _ (mm_pool_inv _ _ _ Hm))|].
      exists j. split; [lia|done].
    + left. split; [done|]. intros (j & ? & ->). apply Hn, Exists_exists.
      exists j. split; [apply elem_of_seqZ; lia|done].
Qed.

(** ** Allocation *)

(** What [page_alloc] and [page_alloc_n] do with [n] pages. *)
Definition alloc_outcome (m : mm_t) (lo hi n : Z) (r : Z * mm_t) : Prop :=
  mm_inv r.2 lo hi ∧ same_frame m r.2 ∧
  ((r.1 = PAGE_ID_INVALID ∧ mm_pool r.2 = mm_pool m ∧ ∀ q, ¬ free_run (mm_pool m) q n) ∨
   took lo hi (mm_pool m) (mm_pool r.2) r.1 n).

Lemma took_id lo hi s s' id n : geometry lo hi → 0 < n → took lo hi s s' id n →
  id ≠ PAGE_ID_INVALID.
Proof. intros Hg Hn (_ & ? & _). pose proof (geo_hi _ _ Hg). lia. Qed.

Lemma page_alloc_spec m lo hi : mm_inv m lo hi → alloc_outcome m lo hi 1 (page_alloc m).
Proof.
  intros Hm. pose proof (mm_geo _ _ _ Hm) as Hg. pose proof (mm_pool_inv _ _ _ Hm) as Hi.
  pose proof (take_any lo hi Hg (mm_pool m) 1 Hi ltac:(lia)) as Ht.
  unfold page_alloc, alloc_outcome. destruct (pool_take_n (mm_pool m) 1) as [id p].
  destruct Ht as [(Hid & Hp & Hno)|[Ht _]]; cbn [fst snd] in *.
  - subst. rewrite Z.eqb_refl. cbn [fst snd].
    split_and!; [by apply (mm_inv_frame m)|done|]. left. by destruct m.
  - destruct (Z.eqb_spec id PAGE_ID_INVALID) as [He|He].
    { by destruct (took_id lo hi _ _ _ 1 Hg ltac:(lia) Ht). }
    cbn [fst snd]. split_and!; [|done|by right]. apply (mm_inv_frame m); try done. apply Ht.
Qed.

Lemma page_alloc_n_spec m lo hi n : mm_inv m lo hi → 0 < n →
  alloc_outcome m lo hi n (page_alloc_n m n).
Proof.
  intros Hm Hn. pose proof (mm_geo _ _ _ Hm) as Hg. pose proof (mm_pool_inv _ _ _ Hm) as Hi.
  unfold page_alloc_n, alloc_outcome. destruct (Z.eqb_spec n 0); [lia|]. cbn [orb].
  destruct (Z.ltb_spec 0xFFFF n) as [Hbig|Hsmall]; cbn [fst snd].
  { split_and!; [done|done|]. left. split_and!; [done|done|]. intros q Hq.
    pose proof (page_count_u16 _ _ Hg).
    destruct (free_page_bounds lo hi (mm_pool m) q Hi); [apply Hq; lia|].
    destruct (free_page_bounds lo hi (mm_pool m) (q + n - 1) Hi); [apply Hq; lia|]. lia. }
  rewrite (uN_small 16) by lia.
  pose proof (take_any lo hi Hg (mm_pool m) n Hi Hn) as Ht.
  destruct (pool_take_n (mm_pool m) n) as [id p].
  destruct Ht as [(Hid & Hp & Hno)|[Ht _]]; cbn [fst snd] in *.
  - subst. split_and!; [by apply (mm_inv_frame m)|done|]. by left.
  - split_and!; [|done|by right]. apply (mm_inv_frame m); try done. apply Ht.
Qed.

(** Releasing exactly the pages taken restores the pool. *)
Lemma release_took m m1 lo hi id n : mm_inv m lo hi → mm_inv m1 lo hi → 0 <= n →
  took lo hi (mm_pool m) (mm_pool m1) id n →
  mm_inv (free_pages m1 id (Z.to_nat n) 0) lo hi ∧
  pool_equiv (mm_pool (free_pages m1 id (Z.to_nat n) 0)) (mm_pool m).
Proof.
  intros Hm Hm1 Hn (Hl & Hh & Hrun & _ & Hf & _).
  destruct (free_pages_spec m1 lo hi id (Z.to_nat n) 0 Hm1) as (B1 & _ & B3).
  pose proof (mm_geo _ _ _ Hm) as [? ? _ Hinv]. unfold PAGE_ID_INVALID in Hinv.
  assert (∀ j, 0 <= j < n → nth_page id j = id + j) as Hnth.
  { intros j Hj. unfold nth_page, to_page_id. rewrite (uN_small _ j) by lia.
    apply uN_small. lia. }
  split; [done|]. apply (pool_equiv_intro lo hi); [apply B1|apply Hm|].
  intros p. rewrite B3, Hf. split.
  - intros [[? _]|(_ & j & ? & ->)]; [done|]. rewrite Hnth by lia. apply Hrun. lia.
  - intros Hp. pose proof (free_page_bounds lo hi _ _ (mm_pool_inv _ _ _ Hm) Hp).
    destruct (decide (id <= p < id + n)); [right|left; tauto].
    split; [lia|]. exists (p - id). rewrite Hnth by lia. lia.
Qed.

(** ** Boot *)

(** The pages that lie wholly below [stack_page_top] are left out. *)
Lemma mm_seed_run top base k i rb rl s : 0 < rl → 0 <= i → rl + Z.of_nat k < 65536 →
  0 <= base + i * PAGE_SIZE → base + (i + Z.of_nat k) * PAGE_SIZE <= 2 ^ 32 →
  top <= base + i * PAGE_SIZE → 0 <= top →
  mm_seed top base k i rb rl s = (pool_add s rb (rl + Z.of_nat k)).2.
Proof.
  unfold PAGE_SIZE. revert i rl. induction k as [|k IH]; intros i rl Hrl Hi Hk H0 Hend Htop Ht.
  { cbn [mm_seed]. destruct (Z.ltb_spec 0 rl); [|lia]. by replace (rl + Z.of_nat 0) with rl by lia. }
  cbn [mm_seed]. unfold PAGE_SIZE. rewrite !(uN_small 32) by lia.
  destruct (Z.ltb_spec (base + i * 4096) top); [lia|]. cbn [negb].
  destruct (Z.eqb_spec rl 0); [lia|]. rewrite (uN_small 16) by lia.
  rewrite IH by lia. do 2 f_equal. lia.
Qed.

Lemma mm_seed_skip top base k i s : 0 <= i → Z.of_nat k < 65536 →
  0 <= base + i * PAGE_SIZE → base + (i + Z.of_nat k) * PAGE_SIZE <= 2 ^ 32 →
  0 <= top < 2 ^ 32 →
  (mm_seed top base k i 0 0 s = s ∧ (k = O ∨ base + (i + Z.of_nat k - 1) * PAGE_SIZE < top)) ∨
  ∃ j, i <= j < i + Z.of_nat k ∧ top <= base + j * PAGE_SIZE ∧
    (i < j → base + (j - 1) * PAGE_SIZE < top) ∧
    mm_seed top base k i 0 0 s =
      (pool_add s (linear_page_id (base + j * PAGE_SIZE)) (i + Z.of_nat k - j)).2.
Proof.
  unfold PAGE_SIZE. revert i. induction k as [|k IH]; intros i Hi Hk H0 Hend Htop; [by left; split; [|left]|].
  cbn [mm_seed Z.ltb Z.compare Z.eqb]. unfold PAGE_SIZE. rewrite !(uN_small 32) by lia.
  destruct (Z.ltb_spec (base + i * 4096) top) as [Hskip|Hin]; cbn [negb].
  - destruct (IH (i + 1)) as [[-> Hl]|(j & Hj & Hjt & Hjp & ->)]; try lia.
    + left. split; [done|]. right. destruct Hl as [->|]; lia.
    + right. exists j. split_and!; try lia. do 2 f_equal. lia.
  - right. exists i. split_and!; try lia. change (u16 (0 + 1)) with 1.
    rewrite mm_seed_run by (unfold PAGE_SIZE; lia). do 2 f_equal. lia.
Qed.

(** Rounding up to a page, as [mm_init] computes it. *)
Lemma round_down b x : 12 <= b → 0 <= x < 2 ^ b →
  Z.land x (uN b (Z.lnot (PAGE_SIZE - 1))) = PAGE_SIZE * (x / PAGE_SIZE).
Proof.
  intros Hb Hx. unfold PAGE_SIZE. change (Z.lnot (4096 - 1)) with (- 2 ^ 12).
  replace (uN b (- 2 ^ 12)) with (Z.shiftl (Z.ones (b - 12)) 12).
  2:{ unfold uN. rewrite Z.shiftl_mul_pow2, Z.ones_equiv by lia.
      apply (Z.mod_unique_pos _ _ (-1)); replace (2 ^ b) with (2 ^ (b - 12) * 2 ^ 12)
        by (rewrite <- Z.pow_add_r by lia; f_equal; lia);
      pose proof (Z.pow_pos_nonneg 2 (b - 12)); lia. }
  change 4096 with (2 ^ 12). rewrite <- Z.shiftr_div_pow2, Z.mul_comm, <- Z.shiftl_mul_pow2 by lia.
  apply Z.bits_inj'. intros n Hn. rewrite Z.land_spec.
  destruct (Z.ltb_spec n 12).
  { rewrite !Z.shiftl_spec_low by lia. by rewrite andb_false_r. }
  rewrite !Z.shiftl_spec, Z.shiftr_spec by lia. replace (n - 12 + 12) with n by lia.
  destruct (Z.ltb_spec n b).
  - rewrite Z.ones_spec_low by lia. by rewrite andb_true_r.
  - rewrite (Z.bits_above_log2 x n); [done|lia|].
    destruct (decide (x = 0)) as [->|]; [simpl; lia|]. apply Z.log2_lt_pow2; [lia|].
    apply Z.lt_le_trans with (2 ^ b); [lia|]. apply Z.pow_le_mono_r; lia.
Qed.

Lemma round_up_le b x p : 12 <= b → 0 <= x → x + PAGE_SIZE - 1 < 2 ^ b →
  Z.land (uN b (x + PAGE_SIZE - 1)) (uN b (Z.lnot (PAGE_SIZE - 1))) <= p * PAGE_SIZE ↔
  x <= p * PAGE_SIZE.
Proof.
  intros Hb Hx Hw. unfold PAGE_SIZE in *. rewrite (uN_small b (x + 4096 - 1)) by lia.
  rewrite round_down by lia. unfold PAGE_SIZE.
  pose proof (Z.div_mod (x + 4096 - 1) 4096). pose proof (Z.mod_pos_bound (x + 4096 - 1) 4096). lia.
Qed.

Lemma linear_page_id_spec lo hi base j : geometry lo hi → base = lo * PAGE_SIZE →
  0 <= j → lo + j <= hi → linear_page_id (base + j * PAGE_SIZE) = lo + j.
Proof.
  intros [? ? _ Hinv] -> ??. unfold PAGE_ID_INVALID in Hinv. unfold linear_page_id, PAGE_SIZE.
  rewrite <- Z.mul_add_distr_r, Z.div_mul by lia. apply uN_small. lia.
Qed.

Lemma pool_reset_length s : length (free_blocks (pool_reset s)) = length (free_blocks s).
Proof. done. Qed.

Lemma pool_reset_inv lo hi s : length (free_blocks s) = FREE_BLOCKS_MAX →
  pool_inv lo hi (pool_reset s) ∧ ∀ p, ¬ page_is_free (pool_reset s) p.
Proof.
  intros Hlen. split.
  - constructor; [split; [done|cbn; lia]|constructor|constructor|done].
  - intros p (b & Hb & _). by apply not_elem_of_nil in Hb.
Qed.

Lemma mm_seed_boot lo hi s top : geometry lo hi → lo < hi → hi * PAGE_SIZE <= 2 ^ 32 →
  0 <= top < 2 ^ 32 → length (free_blocks s) = FREE_BLOCKS_MAX →
  let s' := mm_seed top (lo * PAGE_SIZE) (Z.to_nat (hi - lo)) 0 0 0 (pool_reset s) in
  pool_inv lo hi s' ∧ ∀ p, page_is_free s' p ↔ lo <= p < hi ∧ top <= p * PAGE_SIZE.
Proof.
  intros Hg Hlt Hend Htop Hlen s'. pose proof (geo_lo _ _ Hg). pose proof (page_count_u16 _ _ Hg).
  pose proof Hend as Hend'. unfold PAGE_SIZE in Hend'.
  destruct (mm_seed_skip top (lo * PAGE_SIZE) (Z.to_nat (hi - lo)) 0 (pool_reset s))
    as [[Heq Hl]|(j & Hj & Hjt & Hjp & Heq)]; try (unfold PAGE_SIZE; lia); subst s'; rewrite Heq.
  - destruct (pool_reset_inv lo hi s Hlen) as [Hi Hf]. split; [done|]. intros p. unfold PAGE_SIZE in *.
    split; [intros Hp; by apply Hf in Hp|]. destruct Hl; lia.
  - replace (0 + Z.of_nat (Z.to_nat (hi - lo)) - j) with (hi - (lo + j)) by lia.
    rewrite (linear_page_id_spec lo hi) by (done || lia).
    destruct (pool_boot_inv (lo + j) hi) with (s := s) as [Hi Hf]; [|done|lia|].
    { destruct Hg. constructor; lia. }
    split; [by apply (pool_inv_weaken lo (lo + j)); [lia|]|].
    intros p. rewrite Hf. unfold PAGE_SIZE in *. destruct (decide (j = 0)); lia.
Qed.

(** ** Regions on targets whose arenas are all page-backed *)

(** What the weak hooks of mem_helper.c promise. *)
Class PageBacked := {
  page_backed_init a c b : mem_helper_init_pool a c b = (0, a, c, b);
  page_backed_alloc a cls size flags r : mem_helper_alloc a cls size flags r = (- ENOSYS, a, r);
  page_backed_free a cls size r : mem_helper_free a cls size r = (- ENOSYS, a)
}.

Lemma set_arch_id m : set_arch m (mm_arch m) = m.
Proof. by destruct m. Qed.

Lemma region_page_count_spec size : 0 < size → size <= 2 ^ 32 - PAGE_SIZE →
  let n := region_page_count size in
  0 < n ∧ size <= n * PAGE_SIZE < size + PAGE_SIZE.
Proof.
  intros H0 Hs. unfold region_page_count, PAGE_SIZE in *. rewrite (uN_small 32) by lia.
  pose proof (Z.div_mod (size + 4096 - 1) 4096). pose proof (Z.mod_pos_bound (size + 4096 - 1) 4096).
  cbn zeta. lia.
Qed.

Lemma region_backed_spec m lo hi size out : mm_inv m lo hi → 0 < size →
  size <= 2 ^ 32 - PAGE_SIZE →
  let '(rc, r, m') := region_alloc_page_backed m size out in
  mm_inv m' lo hi ∧
  ((rc = - ENOMEM ∧ r = out ∧ mm_pool m' = mm_pool m ∧
      ∀ q, ¬ free_run (mm_pool m) q (region_page_count size)) ∨
   (rc = 0 ∧ r_base_page r ≠ PAGE_ID_INVALID ∧
      took lo hi (mm_pool m) (mm_pool m') (r_base_page r) (region_page_count size))).
Proof.
  intros Hm H0 Hs. pose proof (region_page_count_spec size H0 Hs) as [Hn _].
  unfold region_alloc_page_backed. destruct (Z.eqb_spec size 0) as [|_]; [lia|].
  set (n := region_page_count size) in *. set (r := if n =? 1 then _ else _).
  assert (alloc_outcome m lo hi n r) as Hr.
  { subst r. destruct (Z.eqb_spec n 1) as [->|]; [by apply page_alloc_spec|by apply page_alloc_n_spec]. }
  destruct r as [pid m']. destruct Hr as (A1 & _ & [(Hid & Hp & Hno)|Ht]); cbn [fst snd] in *.
  - subst pid. rewrite Z.eqb_refl. split; [done|]. by left.
  - pose proof (took_id lo hi _ _ _ n (mm_geo _ _ _ Hm) Hn Ht) as Hid.
    destruct (Z.eqb_spec pid PAGE_ID_INVALID); [done|]. split; [done|]. by right.
Qed.
End Facts.

(** ** Properties *)

Lemma mm_init_backed `{PageConfig, PageTarget, MemHelper, !PageBacked} lo hi m :
  geometry lo hi → lo < hi → hi - lo = Z.of_nat page_count_max →
  PAGE_POOL_BASE = lo * PAGE_SIZE → hi * PAGE_SIZE <= 2 ^ 32 →
  0 <= stack_top → stack_top + PAGE_SIZE - 1 < 2 ^ uintptr_bits →
  length (free_blocks (mm_pool m)) = FREE_BLOCKS_MAX →
  ∃ m', mm_init m = Some m' ∧ mm_inv m' lo hi ∧
    ∀ p, page_is_free (mm_pool m') p ↔ lo <= p < hi ∧ stack_top <= p * PAGE_SIZE.
Proof.
  intros Hg Hlt Hcount Hbase Hend Hs0 Hs1 Hlen. pose proof uintptr_bits_range.
  assert (2 ^ uintptr_bits <= 2 ^ 32) by (apply Z.pow_le_mono_r; lia).
  unfold mm_init. rewrite page_backed_init. cbn [Z.ltb Z.compare]. eexists. split; [done|].
  set (top := Z.land _ _).
  assert (0 <= top < 2 ^ 32) as Htop.
  { subst top. unfold PAGE_SIZE in *. rewrite (uN_small _ (stack_top + 4096 - 1)) by lia.
    rewrite round_down by lia. unfold PAGE_SIZE.
    pose proof (Z.div_mod (stack_top + 4096 - 1) 4096).
    pose proof (Z.mod_pos_bound (stack_top + 4096 - 1) 4096). lia. }
  rewrite <- Hcount, Hbase.
  destruct (mm_seed_boot lo hi (mm_pool m) top Hg Hlt Hend Htop Hlen) as [Hi Hf].
  split; [|intros p; cbn [mm_pool]; rewrite Hf; subst top; rewrite round_up_le by lia; done].
  constructor; try done. unfold pool_base_page_id, page_pool_base. cbn [s_pool_base].
  pose proof (linear_page_id_spec lo hi _ 0 Hg eq_refl) as Hl.
  rewrite !Z.add_0_r in Hl. apply Hl; lia.
Qed.

(** The flat 32-bit default target (RP2040). *)
#[export] Instance rp2040_target : PageTarget.
Proof.
  refine {| PAGE_POOL_BASE := 0x20006000; stack_top := 0x20006000; uintptr_bits := 32 |}.
  abstract lia.
Defined.
#[export] Existing Instance mem_helper_default.
#[export] Instance default_page_backed : PageBacked.
Proof. constructor; reflexivity. Qed.

Definition rp2040_cold : mm_t :=
  Mm (Pool (replicate FREE_BLOCKS_MAX (FreeBlock 0 0)) 0 0) 0 0 0 tt [].

Definition rp2040_mm : mm_t := default rp2040_cold (mm_init rp2040_cold).

Lemma rp2040_geo50 : geometry 131078 131128.
Proof. by constructor. Qed.

Lemma rp2040_mm_inv : mm_inv rp2040_mm 131078 131128.
Proof.
  destruct (mm_init_backed 131078 131128 rp2040_cold rp2040_geo50) as (m' & Heq & Hi & _);
    try done. unfold rp2040_mm. by rewrite Heq.
Qed.

(** [mm_init] never panics on a target whose pool is static; it leaves the
    allocator with a valid run list whose free pages are exactly the pages of the
    pool that hold no part of the initial stack. *)
Theorem mm_init_correct `{PageConfig, PageTarget, MemHelper, !PageBacked} lo hi m :
  geometry lo hi → lo < hi → hi - lo = Z.of_nat page_count_max →
  PAGE_POOL_BASE = lo * PAGE_SIZE → hi * PAGE_SIZE <= 2 ^ 32 →
  0 <= stack_top → stack_top + PAGE_SIZE - 1 < 2 ^ uintptr_bits →
  length (free_blocks (mm_pool m)) = FREE_BLOCKS_MAX →
  ∃ m', mm_init m = Some m' ∧ mm_inv m' lo hi ∧
    ∀ p, page_is_free (mm_pool m') p ↔ lo <= p < hi ∧ stack_top <= p * PAGE_SIZE.
Proof. apply mm_init_backed. Qed.

Lemma mm_init_correct_witness :
  ∃ m', mm_init rp2040_cold = Some m' ∧ mm_inv m' 131078 131128 ∧
    ∀ p, page_is_free (mm_pool m') p ↔ 131078 <= p < 131128 ∧ stack_top <= p * PAGE_SIZE.
Proof.
  apply (mm_init_correct 131078 131128 rp2040_cold rp2040_geo50); done.
Defined.

(** [page_free] is safe for every page identifier a caller can pass: it
    frees the page when the page belongs to the pool and is in use, and leaves
    the set of free pages alone for a page that is already free, a page outside
    the pool and the invalid identifier. *)
Theorem page_free_safe `{PageConfig, PageTarget, MemHelper} m lo hi id :
  mm_inv m lo hi → valid_id id →
  mm_inv (page_free m id) lo hi ∧
  ∀ p, page_is_free (mm_pool (page_free m id)) p ↔
       page_is_free (mm_pool m) p ∨ (p = id ∧ lo <= id < hi).
Proof. intros Hm Hid. by destruct (page_free_spec m lo hi id Hm Hid) as (? & _ & ?). Qed.

Lemma page_free_safe_witness :
  mm_inv (page_free rp2040_mm 131080) 131078 131128 ∧
  ∀ p, page_is_free (mm_pool (page_free rp2040_mm 131080)) p ↔
       page_is_free (mm_pool rp2040_mm) p ∨ (p = 131080 ∧ 131078 <= 131080 < 131128).
Proof. apply page_free_safe; [apply rp2040_mm_inv|by split]. Defined.

(** C3. [region_alloc_at] is atomic.  It succeeds exactly with every page of
    the range taken, all of which were free; on failure the pages taken so far
    are released and the pool is what it was, run for run.  This holds for every
    base and size, including ranges that leave the pool or wrap around. *)
Theorem region_alloc_at_atomic `{PageConfig, PageTarget, MemHelper} m lo hi cls base size flags r :
  mm_inv m lo hi →
  let '(rc, r', m') := region_alloc_at m cls base size flags (Some r) in
  mm_inv m' lo hi ∧ page_count m' = page_count m ∧
  if rc =? 0 then
    r' = Some (Region base (page_from_ptr base)) ∧
    (∀ j, 0 <= j < region_page_count size →
       page_is_free (mm_pool m) (nth_page (page_from_ptr base) j)) ∧
    ∀ p, page_is_free (mm_pool m') p ↔ page_is_free (mm_pool m) p ∧
       ¬ ∃ j, 0 <= j < region_page_count size ∧ p = nth_page (page_from_ptr base) j
  else r' = Some r ∧ pool_equiv (mm_pool m') (mm_pool m).
Proof.
  intros Hm. unfold region_alloc_at.
  destruct ((base =? 0) || (size =? 0)); [by cbn|].
  destruct (_ || _); [|by cbn].
  set (n := region_page_count size). set (b := page_from_ptr base).
  assert (0 <= n) as Hn.
  { subst n. apply Z.div_pos; [apply u32_range|unfold PAGE_SIZE; lia]. }
  pose proof (alloc_pages_at_spec m lo hi b (Z.to_nat n) 0 Hm) as Ha.
  destruct (alloc_pages_at m b (Z.to_nat n) 0) as [[i|] m1] eqn:Heq.
  - destruct (rollback_equiv m m1 lo hi b (Z.to_nat n) i Hm Heq) as (? & (Hc & _) & ?). by cbn.
  - destruct Ha as (A1 & (Hc & _) & _ & _ & A5 & A6). cbn in A5, A6.
    replace (0 + Z.of_nat (Z.to_nat n)) with n in * by lia. by cbn.
Qed.

Lemma region_alloc_at_atomic_witness :
  let '(rc, r', m') :=
    region_alloc_at rp2040_mm PPAP_MEM_RAM_DATA 0x20034000 20000 0 (Some (Region 0 0)) in
  mm_inv m' 131078 131128 ∧ page_count m' = page_count rp2040_mm ∧
  if rc =? 0 then
    r' = Some (Region 0x20034000 (page_from_ptr 0x20034000)) ∧
    (∀ j, 0 <= j < region_page_count 20000 →
       page_is_free (mm_pool rp2040_mm) (nth_page (page_from_ptr 0x20034000) j)) ∧
    ∀ p, page_is_free (mm_pool m') p ↔ page_is_free (mm_pool rp2040_mm) p ∧
       ¬ ∃ j, 0 <= j < region_page_count 20000 ∧ p = nth_page (page_from_ptr 0x20034000) j
  else r' = Some (Region 0 0) ∧ pool_equiv (mm_pool m') (mm_pool rp2040_mm).
Proof.
  apply (region_alloc_at_atomic rp2040_mm 131078 131128), rp2040_mm_inv.
Defined.

(** On page-backed targets [region_alloc] followed by [region_free] of the
    same size restores the pool run for run; the region covers the size asked
    for; and a failure means that no run of free pages is long enough. *)
Theorem region_alloc_free_roundtrip `{PageConfig, PageTarget, MemHelper, !PageBacked}
    m lo hi cls size flags out :
  mm_inv m lo hi → 0 < size → size <= 2 ^ 32 - PAGE_SIZE →
  let '(rc, r, m') := region_alloc m cls size flags (Some out) in
  let n := region_page_count size in
  size <= n * PAGE_SIZE < size + PAGE_SIZE ∧
  ((rc = - ENOMEM ∧ r = Some out ∧ mm_pool m' = mm_pool m ∧ ∀ q, ¬ free_run (mm_pool m) q n) ∨
   (rc = 0 ∧ ∃ base id, r = Some (Region base id) ∧ free_run (mm_pool m) id n ∧
      (∀ p, page_is_free (mm_pool m') p ↔ page_is_free (mm_pool m) p ∧ ¬ id <= p < id + n) ∧
      pool_equiv (mm_pool (region_free m' cls size r)) (mm_pool m))).
Proof.
  intros Hm Hpos Hs. pose proof (region_page_count_spec size Hpos Hs) as [Hn Hsz].
  unfold region_alloc. rewrite page_backed_alloc, set_arch_id, Z.eqb_refl. cbn [negb].
  pose proof (region_backed_spec m lo hi size out Hm Hpos Hs) as Hr.
  destruct (region_alloc_page_backed m size out) as [[rc r] m'].
  destruct Hr as (Hm' & [(-> & -> & Hp & Hno)|(-> & Hid & Ht)]); (split; [done|]); [by left|right].
  split; [done|]. destruct r as [base id]. exists base, id. cbn [r_base_page] in *.
  split_and!; [done|apply Ht|apply Ht|].
  cbn [region_free]. destruct (Z.eqb_spec size 0); [lia|].
  cbn [r_base r_base_page]. destruct (Z.eqb_spec id PAGE_ID_INVALID) as [|_]; [done|].
  rewrite andb_false_r, page_backed_free, set_arch_id. cbn [Z.eqb ENOSYS Z.opp].
  unfold region_free_page_backed. cbn [r_base_page].
  destruct (Z.eqb_spec id PAGE_ID_INVALID) as [|_]; [done|].
  apply (release_took m m' lo hi); try done; lia.
Qed.

Lemma region_alloc_free_roundtrip_witness :
  let '(rc, r, m') := region_alloc rp2040_mm PPAP_MEM_RAM_DATA 9000 0 (Some (Region 0 0)) in
  let n := region_page_count 9000 in
  9000 <= n * PAGE_SIZE < 9000 + PAGE_SIZE ∧
  ((rc = - ENOMEM ∧ r = Some (Region 0 0) ∧ mm_pool m' = mm_pool rp2040_mm ∧
      ∀ q, ¬ free_run (mm_pool rp2040_mm) q n) ∨
   (rc = 0 ∧ ∃ base id, r = Some (Region base id) ∧ free_run (mm_pool rp2040_mm) id n ∧
      (∀ p, page_is_free (mm_pool m') p ↔
            page_is_free (mm_pool rp2040_mm) p ∧ ¬ id <= p < id + n) ∧
      pool_equiv (mm_pool (region_free m' PPAP_MEM_RAM_DATA 9000 r)) (mm_pool rp2040_mm))).
Proof.
  apply (region_alloc_free_roundtrip rp2040_mm 131078 131128); [apply rp2040_mm_inv|lia|].
  unfold PAGE_SIZE. lia.
Defined.
