(* ===== verification/Kmem.v ===== *)
(** * Kmem: the intrusive object pool (src/kernel/core/mm/kmem.c)

    The free list runs through the objects: the first word of a free object holds
    the address of the next one.  Memory is a finite map from addresses to the
    pointer-sized words the code reads and writes with [memcpy]; clients may
    write into any object they hold.  The pool is shown to implement a stack of
    free slot numbers. *)

From S2P Require Import Prelude.

Abbreviation memory := (gmap Z Z).

(** [kmem_pool_t]; the null pointer is 0. *)
Record kmem_pool_t := KmemPool {
  free_list : Z;
  obj_size : Z;
  total : Z;
  free_count : Z
}.

Definition load (mem : memory) (a : Z) : Z := default 0 (mem !! a).

(** The threading loop of [kmem_pool_init]; [k] slots are left, [i] is next. *)
Fixpoint kmem_thread (p osz count : Z) (k : nat) (i : Z) (mem : memory) : memory :=
  match k with
  | O => mem
  | S k' =>
      let next := if i + 1 <? count then p + (i + 1) * osz else 0 in
      kmem_thread p osz count k' (i + 1) (<[p + i * osz := next]> mem)
  end.

Definition kmem_pool_init (mem : memory) (p osz count : Z) : kmem_pool_t * memory :=
  (KmemPool (if 0 <? count then p else 0) osz count count,
   kmem_thread p osz count (Z.to_nat count) 0 mem).

Definition kmem_alloc (pool : kmem_pool_t) (mem : memory) : Z * kmem_pool_t :=
  if free_list pool =? 0 then (0, pool)
  else
    let obj := free_list pool in
    (obj, KmemPool (load mem obj) (obj_size pool) (total pool) (u32 (free_count pool - 1))).

Definition kmem_free (pool : kmem_pool_t) (mem : memory) (obj : Z) : kmem_pool_t * memory :=
  if obj =? 0 then (pool, mem)
  else
    (KmemPool obj (obj_size pool) (total pool) (u32 (free_count pool + 1)),
     <[obj := free_list pool]> mem).

Definition kmem_free_count (pool : kmem_pool_t) : Z := free_count pool.

(** ** The pool as a stack of slot numbers *)

Section Facts.
(** The backing storage: [count] objects of [osz] bytes from [base]. *)
Context (base osz count : Z) (base_pos : 0 < base) (osz_pos : 0 < osz).

Definition slot (i : Z) : Z := base + i * osz.

(** [chain mem a l]: from address [a] the links visit the slots [l] and end. *)
Fixpoint chain (mem : memory) (a : Z) (l : list Z) : Prop :=
  match l with
  | [] => a = 0
  | i :: l' => a = slot i ∧ ∃ next, mem !! slot i = Some next ∧ chain mem next l'
  end.

(** The representation: [l] is the stack of free slots, top first. *)
Record kmem_rep (pool : kmem_pool_t) (mem : memory) (l : list Z) : Prop := {
  rep_chain : chain mem (free_list pool) l;
  rep_nodup : NoDup l;
  rep_slots : Forall (λ i, 0 <= i < count) l;
  rep_total : total pool = count;
  rep_size : obj_size pool = osz;
  rep_count : free_count pool = Z.of_nat (length l);
  rep_bound : count < 2 ^ 32
}.

Lemma slot_inj i j : slot i = slot j → i = j.
Proof. unfold slot. nia. Qed.

Lemma slot_nonnull i : 0 <= i → slot i ≠ 0.
Proof. unfold slot. nia. Qed.

Lemma chain_insert mem a l i v : i ∉ l → chain mem a l → chain (<[slot i := v]> mem) a l.
Proof.
  revert a. induction l as [|j l IH]; intros a Hi; cbn [chain]; [done|].
  apply not_elem_of_cons in Hi as [Hij Hil]. intros (-> & next & Hn & Hc). split; [done|].
  exists next. rewrite lookup_insert_ne by (intros He; by apply slot_inj in He). auto.
Qed.

(** Memory that agrees on the free slots carries the same list. *)
Lemma chain_agree mem mem' a l : (∀ i, i ∈ l → mem' !! slot i = mem !! slot i) →
  chain mem a l → chain mem' a l.
Proof.
  revert a. induction l as [|j l IH]; intros a Hag; cbn [chain]; [done|].
  intros (-> & next & Hn & Hc). split; [done|]. exists next.
  rewrite Hag by (by left). split; [done|]. apply IH; [|done]. intros i Hi. apply Hag. by right.
Qed.

Lemma length_slots l : NoDup l → Forall (λ i, 0 <= i < count) l → Z.of_nat (length l) <= Z.max 0 count.
Proof.
  intros Hnd Hl. assert (l ⊆+ seqZ 0 count) as Hs.
  { apply NoDup_submseteq; [done|]. intros i Hi. rewrite Forall_forall in Hl.
    apply elem_of_seqZ. specialize (Hl i Hi). simpl in Hl. lia. }
  apply submseteq_length in Hs. rewrite length_seqZ in Hs. lia.
Qed.

Lemma kmem_thread_lookup k i mem j : (count = i + Z.of_nat k) →
  kmem_thread base osz count k i mem !! slot j =
  if decide (i <= j < count) then Some (if j + 1 <? count then slot (j + 1) else 0)
  else mem !! slot j.
Proof.
  revert i mem. induction k as [|k IH]; intros i mem Hc; cbn [kmem_thread].
  { destruct (decide _); [lia|done]. }
  rewrite IH by lia. destruct (decide (i + 1 <= j < count)).
  { destruct (decide (i <= j < count)); [done|lia]. }
  destruct (decide (i <= j < count)).
  - assert (j = i) as -> by lia. unfold slot. by rewrite lookup_insert_eq.
  - apply lookup_insert_ne. intros He. apply slot_inj in He. lia.
Qed.

Lemma chain_seqZ mem i : (∀ j, i <= j < count → mem !! slot j =
    Some (if j + 1 <? count then slot (j + 1) else 0)) → 0 <= i <= count →
  chain mem (if i <? count then slot i else 0) (seqZ i (count - i)).
Proof.
  remember (Z.to_nat (count - i)) as n eqn:Hn. revert i Hn.
  induction n as [|n IH]; intros i Hn Hm Hi.
  - rewrite seqZ_nil by lia. by destruct (Z.ltb_spec i count); [lia|].
  - destruct (Z.ltb_spec i count); [|lia]. rewrite seqZ_cons by lia. cbn [chain].
    split; [done|]. eexists. split; [apply Hm; lia|].
    replace (Z.pred (count - i)) with (count - (i + 1)) by lia. apply IH; [lia| |lia].
    intros j Hj. apply Hm. lia.
Qed.

Lemma kmem_init_rep mem : 0 <= count < 2 ^ 32 →
  let '(pool, mem') := kmem_pool_init mem base osz count in
  kmem_rep pool mem' (seqZ 0 count).
Proof.
  intros Hc. unfold kmem_pool_init. constructor; cbn; try done; try lia.
  - replace (if 0 <? count then base else 0) with (if 0 <? count then slot 0 else 0)
      by (unfold slot; destruct (0 <? count); lia).
    pose proof (chain_seqZ (kmem_thread base osz count (Z.to_nat count) 0 mem) 0) as Hch.
    rewrite Z.sub_0_r in Hch. apply Hch; [|lia]. intros j Hj. rewrite kmem_thread_lookup by lia.
    by destruct (decide _).
  - apply NoDup_seqZ.
  - apply Forall_forall. intros i Hi. apply elem_of_seqZ in Hi. lia.
  - rewrite length_seqZ. lia.
Qed.

Lemma kmem_alloc_rep pool mem l : kmem_rep pool mem l →
  let '(obj, pool') := kmem_alloc pool mem in
  match l with
  | [] => obj = 0 ∧ pool' = pool
  | i :: l' => obj = slot i ∧ kmem_rep pool' mem l'
  end.
Proof.
  intros [Hch Hnd Hsl Ht Hs Hn Hb]. unfold kmem_alloc. destruct l as [|i l]; cbn [chain] in Hch.
  { by rewrite Hch, Z.eqb_refl. }
  destruct Hch as (Hf & next & Hnext & Hch). apply Forall_cons in Hsl as [Hi Hsl].
  apply NoDup_cons in Hnd as [Hni Hnd]. pose proof (length_slots l Hnd Hsl).
  destruct (Z.eqb_spec (free_list pool) 0); [by destruct (slot_nonnull i); [lia|congruence]|].
  split; [done|]. constructor; cbn; try done.
  - unfold load. by rewrite Hf, Hnext.
  - rewrite Hn. cbn. rewrite (uN_small 32) by lia. lia.
Qed.

Lemma kmem_free_rep pool mem l i : kmem_rep pool mem l → 0 <= i < count → i ∉ l →
  let '(pool', mem') := kmem_free pool mem (slot i) in
  kmem_rep pool' mem' (i :: l).
Proof.
  intros [Hch Hnd Hsl Ht Hs Hn Hb] Hi Hl. unfold kmem_free.
  destruct (Z.eqb_spec (slot i) 0) as [He|_]; [by apply slot_nonnull in He; [|lia]|].
  assert (NoDup (i :: l)) as Hnd' by (by apply NoDup_cons).
  assert (Forall (λ j, 0 <= j < count) (i :: l)) as Hsl' by (by apply Forall_cons).
  pose proof (length_slots _ Hnd' Hsl') as Hlen. cbn [length] in Hlen.
  constructor; try done.
  - cbn. split; [done|]. eexists. rewrite lookup_insert_eq. split; [done|].
    by apply chain_insert.
  - cbn. rewrite Hn, (uN_small 32) by lia. lia.
Qed.

(** ** Clients *)

(** A state: the pool, the memory and the set of slots held by clients. *)
Inductive kmem_step : kmem_pool_t * memory * gset Z → kmem_pool_t * memory * gset Z → Prop :=
| kmem_step_alloc pool mem held obj pool' i :
    kmem_alloc pool mem = (obj, pool') → obj = slot i → obj ≠ 0 →
    kmem_step (pool, mem, held) (pool', mem, held ∪ {[ i ]})
| kmem_step_free pool mem held i pool' mem' : i ∈ held →
    kmem_free pool mem (slot i) = (pool', mem') →
    kmem_step (pool, mem, held) (pool', mem', held ∖ {[ i ]})
| kmem_step_write pool mem held mem' :
    (∀ i, 0 <= i < count → i ∉ held → mem' !! slot i = mem !! slot i) →
    kmem_step (pool, mem, held) (pool, mem', held).

Definition kmem_inv (st : kmem_pool_t * memory * gset Z) : Prop :=
  let '(pool, mem, held) := st in
  ∃ l, kmem_rep pool mem l ∧ ∀ i, 0 <= i < count ↔ (i ∈ l ∧ i ∉ held) ∨ (i ∈ held ∧ i ∉ l).

Lemma kmem_inv_step st st' : kmem_inv st → kmem_step st st' → kmem_inv st'.
Proof.
  intros Hi Hs. destruct Hs as [pool mem held obj pool' i Ha Ho Hn|pool mem held i pool' mem' Hh Hf|
    pool mem held mem' Hag]; destruct Hi as (l & Hr & Hp).
  - pose proof (kmem_alloc_rep pool mem l Hr) as Hx. rewrite Ha in Hx.
    destruct l as [|j l]; [by destruct Hx|]. destruct Hx as [Hj Hr'].
    assert (i = j) as -> by (apply slot_inj; congruence). exists l. split; [done|]. intros k.
    pose proof (rep_nodup _ _ _ Hr) as Hnd. apply NoDup_cons in Hnd as [Hjl _].
    rewrite Hp, elem_of_cons, elem_of_union, elem_of_singleton.
    destruct (decide (k = j)) as [->|]; [|tauto]. specialize (Hp j).
    rewrite elem_of_cons in Hp. pose proof (rep_slots _ _ _ Hr) as Hsl.
    apply Forall_cons in Hsl as [? _]. tauto.
  - assert (0 <= i < count ∧ i ∉ l) as [Hb Hl].
    { assert (i ∉ l) by (intros Hl; pose proof (proj2 (Hp i)); pose proof (rep_slots _ _ _ Hr) as Hsl;
        rewrite Forall_forall in Hsl; specialize (Hsl i Hl); simpl in Hsl; apply Hp in Hsl; tauto).
      split; [apply Hp; tauto|done]. }
    pose proof (kmem_free_rep pool mem l i Hr Hb Hl) as Hx. rewrite Hf in Hx.
    exists (i :: l). split; [done|]. intros k.
    rewrite Hp, elem_of_cons, elem_of_difference, elem_of_singleton.
    destruct (decide (k = i)) as [->|]; tauto.
  - exists l. split; [|done]. destruct Hr as [Hch ????? ?]. constructor; try done.
    apply (chain_agree mem); [|done]. intros k Hk. rewrite Forall_forall in rep_slots0.
    pose proof (rep_slots0 k Hk) as Hb. apply Hag; [done|]. apply Hp in Hb. tauto.
Qed.

Lemma kmem_inv_reachable mem st : 0 <= count < 2 ^ 32 →
  rtc kmem_step (kmem_pool_init mem base osz count, ∅) st → kmem_inv st.
Proof.
  intros Hc Hr. assert (kmem_inv (kmem_pool_init mem base osz count, ∅)) as H0.
  { pose proof (kmem_init_rep mem Hc) as Hi.
    destruct (kmem_pool_init mem base osz count) as [pool mem']. exists (seqZ 0 count).
    split; [done|]. intros i. rewrite elem_of_seqZ.
    pose proof (not_elem_of_empty (C:=gset Z) i). intuition lia. }
  revert H0. induction Hr as [|x y z Hxy _ IH]; [done|]. intros Hx. by apply IH, (kmem_inv_step x).
Qed.
End Facts.

(** ** Properties *)

(** The pool is a stack of free slots: [kmem_pool_init] yields all of them,
    [kmem_alloc] pops the top slot and fails exactly on the empty stack,
    [kmem_free] of a slot that is not on the stack pushes it; the count is the
    stack's length throughout. *)
Theorem kmem_refines_stack base osz count mem0 pool mem l i :
  0 < base → 0 < osz → 0 <= count < 2 ^ 32 →
  kmem_rep base osz count pool mem l → 0 <= i < count → i ∉ l →
  (let '(pool0, mem1) := kmem_pool_init mem0 base osz count in
   kmem_rep base osz count pool0 mem1 (seqZ 0 count)) ∧
  (let '(obj, pool') := kmem_alloc pool mem in
   match l with
   | [] => obj = 0 ∧ pool' = pool
   | j :: l' => obj = slot base osz j ∧ kmem_rep base osz count pool' mem l'
   end) ∧
  (let '(pool', mem') := kmem_free pool mem (slot base osz i) in
   kmem_rep base osz count pool' mem' (i :: l)) ∧
  kmem_free_count pool = Z.of_nat (length l).
Proof.
  intros Hb Ho Hc Hr Hi Hl. split_and!.
  - by apply kmem_init_rep.
  - by apply kmem_alloc_rep.
  - by apply kmem_free_rep.
  - apply Hr.
Qed.

Definition kmem_example := kmem_pool_init ∅ 4096 16 3.
Definition kmem_example_taken := kmem_alloc kmem_example.1 kmem_example.2.

Lemma kmem_refines_stack_witness :
  let mem := kmem_example.2 in
  let pool := kmem_example_taken.2 in
  (let '(pool0, mem1) := kmem_pool_init ∅ 4096 16 3 in
   kmem_rep 4096 16 3 pool0 mem1 (seqZ 0 3)) ∧
  (let '(obj, pool') := kmem_alloc pool mem in
   obj = slot 4096 16 1 ∧ kmem_rep 4096 16 3 pool' mem [2]) ∧
  (let '(pool', mem') := kmem_free pool mem (slot 4096 16 0) in
   kmem_rep 4096 16 3 pool' mem' [0; 1; 2]) ∧
  kmem_free_count pool = 2.
Proof.
  apply (kmem_refines_stack 4096 16 3 ∅ kmem_example_taken.2 kmem_example.2 [1; 2] 0);
    [lia|lia|lia| |lia|].
  - pose proof (kmem_init_rep 4096 16 3 ltac:(lia) ∅ ltac:(lia)) as Hi.
    exact (proj2 (kmem_alloc_rep 4096 16 3 ltac:(lia) ltac:(lia) _ _ _ Hi)).
  - intros Hin. apply list_elem_of_In in Hin. simpl in Hin. lia.
Defined.

(** Whatever clients do -- allocate, free slots they hold, overwrite the
    objects they hold -- the free list keeps exactly the slots nobody holds:
    no object is handed out twice, none is lost, and an allocation fails only
    when every object is held. *)
Theorem kmem_no_double_allocation base osz count mem0 pool mem held :
  0 < base → 0 < osz → 0 <= count < 2 ^ 32 →
  rtc (kmem_step base osz count) (kmem_pool_init mem0 base osz count, ∅) (pool, mem, held) →
  let '(obj, pool') := kmem_alloc pool mem in
  if obj =? 0 then ∀ i, 0 <= i < count → i ∈ held
  else ∃ i, 0 <= i < count ∧ obj = slot base osz i ∧ i ∉ held.
Proof.
  intros Hb Ho Hc Hr. apply kmem_inv_reachable in Hr as (l & Hrep & Hp); try done.
  pose proof (kmem_alloc_rep base osz count Hb Ho pool mem l Hrep) as Hx.
  destruct (kmem_alloc pool mem) as [obj pool']. destruct l as [|i l].
  - destruct Hx as [-> _]. cbn. intros i Hi. apply Hp in Hi as [[Hn _]|[? _]]; [|done].
    by apply not_elem_of_nil in Hn.
  - destruct Hx as [-> _]. pose proof (rep_slots _ _ _ _ _ _ Hrep) as Hs.
    apply Forall_cons in Hs as [Hi _].
    destruct (Z.eqb_spec (slot base osz i) 0) as [He|_].
    { by apply slot_nonnull in He; [|done..|lia]. }
    exists i. split_and!; [lia|lia|done|]. apply Hp in Hi as [[_ ?]|[_ Hn]]; [done|].
    destruct Hn. by left.
Qed.

Lemma kmem_no_double_allocation_witness :
  let '(obj, pool') := kmem_alloc kmem_example.1 kmem_example.2 in
  if obj =? 0 then ∀ i, 0 <= i < 3 → i ∈ (∅ : gset Z)
  else ∃ i, 0 <= i < 3 ∧ obj = slot 4096 16 i ∧ i ∉ (∅ : gset Z).
Proof.
  apply (kmem_no_double_allocation 4096 16 3 ∅ kmem_example.1 kmem_example.2 ∅); try lia.
  apply rtc_refl.
Defined.
