(* ===== verification/ProcState.v ===== *)
(** * ProcState: the process table and the scheduler's globals

    [pcb_t] of src/kernel/common/core/proc_info.h without its saved registers, its
    image and the trace and subsystem payloads; the globals of proc.c, sched.c
    and the mutexes of kmutex.c form one [kernel_t].  Pointers to PCBs are table
    indices, other pointers are addresses with 0 for NULL. *)

From S2P Require Import Prelude Config.

(** [proc_state_t] *)
Inductive proc_state_t :=
| PROC_FREE
| PROC_RUNNABLE
| PROC_SLEEPING
| PROC_BLOCKED
| PROC_ZOMBIE
| PROC_TRACED_STOP
| PROC_REAPING.

#[export] Instance proc_state_eq_dec : EqDecision proc_state_t.
Proof. solve_decision. Defined.

Definition proc_state_is_live (s : proc_state_t) : bool :=
  bool_decide (s ≠ PROC_FREE) && bool_decide (s ≠ PROC_REAPING).

Definition NSIG : nat := 32.

Record pcb_t := Pcb {
  p_pid : Z;
  p_ppid : Z;
  p_state : proc_state_t;
  p_stack_page_id : Z;
  p_user_pages : list Z;
  p_user_stack_page : Z;
  p_fd_map : list Z;
  p_ticks_remaining : Z;
  p_sleep_until : Z;
  p_running_on_core : Z;
  p_is_idle : bool;
  p_wait_channel : Z;
  p_kmutex_held : Z;
  p_kernel_sp : Z;
  p_sig_handlers : list Z;
  p_sig_restorers : list Z;
  p_sig_pending : Z;
  p_sig_blocked : Z;
  p_utime : Z;
  p_stime : Z;
  p_start_time : Z;
  p_umask_val : Z;
  p_clear_child_tid : Z * Z;
  p_vfork_parent : option nat;
  p_exit_status : Z;
  p_brk_base : Z;
  p_brk_current : Z;
  p_cwd : list Z;
  p_pgid : Z;
  p_sid : Z;
  p_tracer_pid : Z;
  p_trace_requested : bool;
  p_trace_wait_pending : bool;
  p_subsys : Z
}.

Definition set_p_pid (v : Z) (r : pcb_t) : pcb_t :=
  Pcb v (p_ppid r) (p_state r) (p_stack_page_id r) (p_user_pages r) (p_user_stack_page r)
    (p_fd_map r) (p_ticks_remaining r) (p_sleep_until r) (p_running_on_core r) (p_is_idle r)
    (p_wait_channel r) (p_kmutex_held r) (p_kernel_sp r) (p_sig_handlers r) (p_sig_restorers r)
    (p_sig_pending r) (p_sig_blocked r) (p_utime r) (p_stime r) (p_start_time r) (p_umask_val r)
    (p_clear_child_tid r) (p_vfork_parent r) (p_exit_status r) (p_brk_base r) (p_brk_current r)
    (p_cwd r) (p_pgid r) (p_sid r) (p_tracer_pid r) (p_trace_requested r) (p_trace_wait_pending r)
    (p_subsys r).
Definition set_p_ppid (v : Z) (r : pcb_t) : pcb_t :=
  Pcb (p_pid r) v (p_state r) (p_stack_page_id r) (p_user_pages r) (p_user_stack_page r)
    (p_fd_map r) (p_ticks_remaining r) (p_sleep_until r) (p_running_on_core r) (p_is_idle r)
    (p_wait_channel r) (p_kmutex_held r) (p_kernel_sp r) (p_sig_handlers r) (p_sig_restorers r)
    (p_sig_pending r) (p_sig_blocked r) (p_utime r) (p_stime r) (p_start_time r) (p_umask_val r)
    (p_clear_child_tid r) (p_vfork_parent r) (p_exit_status r) (p_brk_base r) (p_brk_current r)
    (p_cwd r) (p_pgid r) (p_sid r) (p_tracer_pid r) (p_trace_requested r) (p_trace_wait_pending r)
    (p_subsys r).
Definition set_p_state (v : proc_state_t) (r : pcb_t) : pcb_t :=
  Pcb (p_pid r) (p_ppid r) v (p_stack_page_id r) (p_user_pages r) (p_user_stack_page r)
    (p_fd_map r) (p_ticks_remaining r) (p_sleep_until r) (p_running_on_core r) (p_is_idle r)
    (p_wait_channel r) (p_kmutex_held r) (p_kernel_sp r) (p_sig_handlers r) (p_sig_restorers r)
    (p_sig_pending r) (p_sig_blocked r) (p_utime r) (p_stime r) (p_start_time r) (p_umask_val r)
    (p_clear_child_tid r) (p_vfork_parent r) (p_exit_status r) (p_brk_base r) (p_brk_current r)
    (p_cwd r) (p_pgid r) (p_sid r) (p_tracer_pid r) (p_trace_requested r) (p_trace_wait_pending r)
    (p_subsys r).
Definition set_p_stack_page_id (v : Z) (r : pcb_t) : pcb_t :=
  Pcb (p_pid r) (p_ppid r) (p_state r) v (p_user_pages r) (p_user_stack_page r) (p_fd_map r)
    (p_ticks_remaining r) (p_sleep_until r) (p_running_on_core r) (p_is_idle r) (p_wait_channel r)
    (p_kmutex_held r) (p_kernel_sp r) (p_sig_handlers r) (p_sig_restorers r) (p_sig_pending r)
    (p_sig_blocked r) (p_utime r) (p_stime r) (p_start_time r) (p_umask_val r) (p_clear_child_tid
    r) (p_vfork_parent r) (p_exit_status r) (p_brk_base r) (p_brk_current r) (p_cwd r) (p_pgid r)
    (p_sid r) (p_tracer_pid r) (p_trace_requested r) (p_trace_wait_pending r) (p_subsys r).
Definition set_p_user_pages (v : list Z) (r : pcb_t) : pcb_t :=
  Pcb (p_pid r) (p_ppid r) (p_state r) (p_stack_page_id r) v (p_user_stack_page r) (p_fd_map r)
    (p_ticks_remaining r) (p_sleep_until r) (p_running_on_core r) (p_is_idle r) (p_wait_channel r)
    (p_kmutex_held r) (p_kernel_sp r) (p_sig_handlers r) (p_sig_restorers r) (p_sig_pending r)
    (p_sig_blocked r) (p_utime r) (p_stime r) (p_start_time r) (p_umask_val r) (p_clear_child_tid
    r) (p_vfork_parent r) (p_exit_status r) (p_brk_base r) (p_brk_current r) (p_cwd r) (p_pgid r)
    (p_sid r) (p_tracer_pid r) (p_trace_requested r) (p_trace_wait_pending r) (p_subsys r).
Definition set_p_user_stack_page (v : Z) (r : pcb_t) : pcb_t :=
  Pcb (p_pid r) (p_ppid r) (p_state r) (p_stack_page_id r) (p_user_pages r) v (p_fd_map r)
    (p_ticks_remaining r) (p_sleep_until r) (p_running_on_core r) (p_is_idle r) (p_wait_channel r)
    (p_kmutex_held r) (p_kernel_sp r) (p_sig_handlers r) (p_sig_restorers r) (p_sig_pending r)
    (p_sig_blocked r) (p_utime r) (p_stime r) (p_start_time r) (p_umask_val r) (p_clear_child_tid
    r) (p_vfork_parent r) (p_exit_status r) (p_brk_base r) (p_brk_current r) (p_cwd r) (p_pgid r)
    (p_sid r) (p_tracer_pid r) (p_trace_requested r) (p_trace_wait_pending r) (p_subsys r).
Definition set_p_fd_map (v : list Z) (r : pcb_t) : pcb_t :=
  Pcb (p_pid r) (p_ppid r) (p_state r) (p_stack_page_id r) (p_user_pages r) (p_user_stack_page
    r) v (p_ticks_remaining r) (p_sleep_until r) (p_running_on_core r) (p_is_idle r)
    (p_wait_channel r) (p_kmutex_held r) (p_kernel_sp r) (p_sig_handlers r) (p_sig_restorers r)
    (p_sig_pending r) (p_sig_blocked r) (p_utime r) (p_stime r) (p_start_time r) (p_umask_val r)
    (p_clear_child_tid r) (p_vfork_parent r) (p_exit_status r) (p_brk_base r) (p_brk_current r)
    (p_cwd r) (p_pgid r) (p_sid r) (p_tracer_pid r) (p_trace_requested r) (p_trace_wait_pending r)
    (p_subsys r).
Definition set_p_ticks_remaining (v : Z) (r : pcb_t) : pcb_t :=
  Pcb (p_pid r) (p_ppid r) (p_state r) (p_stack_page_id r) (p_user_pages r) (p_user_stack_page
    r) (p_fd_map r) v (p_sleep_until r) (p_running_on_core r) (p_is_idle r) (p_wait_channel r)
    (p_kmutex_held r) (p_kernel_sp r) (p_sig_handlers r) (p_sig_restorers r) (p_sig_pending r)
    (p_sig_blocked r) (p_utime r) (p_stime r) (p_start_time r) (p_umask_val r) (p_clear_child_tid
    r) (p_vfork_parent r) (p_exit_status r) (p_brk_base r) (p_brk_current r) (p_cwd r) (p_pgid r)
    (p_sid r) (p_tracer_pid r) (p_trace_requested r) (p_trace_wait_pending r) (p_subsys r).
Definition set_p_sleep_until (v : Z) (r : pcb_t) : pcb_t :=
  Pcb (p_pid r) (p_ppid r) (p_state r) (p_stack_page_id r) (p_user_pages r) (p_user_stack_page
    r) (p_fd_map r) (p_ticks_remaining r) v (p_running_on_core r) (p_is_idle r) (p_wait_channel r)
    (p_kmutex_held r) (p_kernel_sp r) (p_sig_handlers r) (p_sig_restorers r) (p_sig_pending r)
    (p_sig_blocked r) (p_utime r) (p_stime r) (p_start_time r) (p_umask_val r) (p_clear_child_tid
    r) (p_vfork_parent r) (p_exit_status r) (p_brk_base r) (p_brk_current r) (p_cwd r) (p_pgid r)
    (p_sid r) (p_tracer_pid r) (p_trace_requested r) (p_trace_wait_pending r) (p_subsys r).
Definition set_p_running_on_core (v : Z) (r : pcb_t) : pcb_t :=
  Pcb (p_pid r) (p_ppid r) (p_state r) (p_stack_page_id r) (p_user_pages r) (p_user_stack_page
    r) (p_fd_map r) (p_ticks_remaining r) (p_sleep_until r) v (p_is_idle r) (p_wait_channel r)
    (p_kmutex_held r) (p_kernel_sp r) (p_sig_handlers r) (p_sig_restorers r) (p_sig_pending r)
    (p_sig_blocked r) (p_utime r) (p_stime r) (p_start_time r) (p_umask_val r) (p_clear_child_tid
    r) (p_vfork_parent r) (p_exit_status r) (p_brk_base r) (p_brk_current r) (p_cwd r) (p_pgid r)
    (p_sid r) (p_tracer_pid r) (p_trace_requested r) (p_trace_wait_pending r) (p_subsys r).
Definition set_p_is_idle (v : bool) (r : pcb_t) : pcb_t :=
  Pcb (p_pid r) (p_ppid r) (p_state r) (p_stack_page_id r) (p_user_pages r) (p_user_stack_page
    r) (p_fd_map r) (p_ticks_remaining r) (p_sleep_until r) (p_running_on_core r) v
    (p_wait_channel r) (p_kmutex_held r) (p_kernel_sp r) (p_sig_handlers r) (p_sig_restorers r)
    (p_sig_pending r) (p_sig_blocked r) (p_utime r) (p_stime r) (p_start_time r) (p_umask_val r)
    (p_clear_child_tid r) (p_vfork_parent r) (p_exit_status r) (p_brk_base r) (p_brk_current r)
    (p_cwd r) (p_pgid r) (p_sid r) (p_tracer_pid r) (p_trace_requested r) (p_trace_wait_pending r)
    (p_subsys r).
Definition set_p_wait_channel (v : Z) (r : pcb_t) : pcb_t :=
  Pcb (p_pid r) (p_ppid r) (p_state r) (p_stack_page_id r) (p_user_pages r) (p_user_stack_page
    r) (p_fd_map r) (p_ticks_remaining r) (p_sleep_until r) (p_running_on_core r) (p_is_idle r) v
    (p_kmutex_held r) (p_kernel_sp r) (p_sig_handlers r) (p_sig_restorers r) (p_sig_pending r)
    (p_sig_blocked r) (p_utime r) (p_stime r) (p_start_time r) (p_umask_val r) (p_clear_child_tid
    r) (p_vfork_parent r) (p_exit_status r) (p_brk_base r) (p_brk_current r) (p_cwd r) (p_pgid r)
    (p_sid r) (p_tracer_pid r) (p_trace_requested r) (p_trace_wait_pending r) (p_subsys r).
Definition set_p_kmutex_held (v : Z) (r : pcb_t) : pcb_t :=
  Pcb (p_pid r) (p_ppid r) (p_state r) (p_stack_page_id r) (p_user_pages r) (p_user_stack_page
    r) (p_fd_map r) (p_ticks_remaining r) (p_sleep_until r) (p_running_on_core r) (p_is_idle r)
    (p_wait_channel r) v (p_kernel_sp r) (p_sig_handlers r) (p_sig_restorers r) (p_sig_pending r)
    (p_sig_blocked r) (p_utime r) (p_stime r) (p_start_time r) (p_umask_val r) (p_clear_child_tid
    r) (p_vfork_parent r) (p_exit_status r) (p_brk_base r) (p_brk_current r) (p_cwd r) (p_pgid r)
    (p_sid r) (p_tracer_pid r) (p_trace_requested r) (p_trace_wait_pending r) (p_subsys r).
Definition set_p_kernel_sp (v : Z) (r : pcb_t) : pcb_t :=
  Pcb (p_pid r) (p_ppid r) (p_state r) (p_stack_page_id r) (p_user_pages r) (p_user_stack_page
    r) (p_fd_map r) (p_ticks_remaining r) (p_sleep_until r) (p_running_on_core r) (p_is_idle r)
    (p_wait_channel r) (p_kmutex_held r) v (p_sig_handlers r) (p_sig_restorers r) (p_sig_pending
    r) (p_sig_blocked r) (p_utime r) (p_stime r) (p_start_time r) (p_umask_val r)
    (p_clear_child_tid r) (p_vfork_parent r) (p_exit_status r) (p_brk_base r) (p_brk_current r)
    (p_cwd r) (p_pgid r) (p_sid r) (p_tracer_pid r) (p_trace_requested r) (p_trace_wait_pending r)
    (p_subsys r).
Definition set_p_sig_handlers (v : list Z) (r : pcb_t) : pcb_t :=
  Pcb (p_pid r) (p_ppid r) (p_state r) (p_stack_page_id r) (p_user_pages r) (p_user_stack_page
    r) (p_fd_map r) (p_ticks_remaining r) (p_sleep_until r) (p_running_on_core r) (p_is_idle r)
    (p_wait_channel r) (p_kmutex_held r) (p_kernel_sp r) v (p_sig_restorers r) (p_sig_pending r)
    (p_sig_blocked r) (p_utime r) (p_stime r) (p_start_time r) (p_umask_val r) (p_clear_child_tid
    r) (p_vfork_parent r) (p_exit_status r) (p_brk_base r) (p_brk_current r) (p_cwd r) (p_pgid r)
    (p_sid r) (p_tracer_pid r) (p_trace_requested r) (p_trace_wait_pending r) (p_subsys r).
Definition set_p_sig_restorers (v : list Z) (r : pcb_t) : pcb_t :=
  Pcb (p_pid r) (p_ppid r) (p_state r) (p_stack_page_id r) (p_user_pages r) (p_user_stack_page
    r) (p_fd_map r) (p_ticks_remaining r) (p_sleep_until r) (p_running_on_core r) (p_is_idle r)
    (p_wait_channel r) (p_kmutex_held r) (p_kernel_sp r) (p_sig_handlers r) v (p_sig_pending r)
    (p_sig_blocked r) (p_utime r) (p_stime r) (p_start_time r) (p_umask_val r) (p_clear_child_tid
    r) (p_vfork_parent r) (p_exit_status r) (p_brk_base r) (p_brk_current r) (p_cwd r) (p_pgid r)
    (p_sid r) (p_tracer_pid r) (p_trace_requested r) (p_trace_wait_pending r) (p_subsys r).
Definition set_p_sig_pending (v : Z) (r : pcb_t) : pcb_t :=
  Pcb (p_pid r) (p_ppid r) (p_state r) (p_stack_page_id r) (p_user_pages r) (p_user_stack_page
    r) (p_fd_map r) (p_ticks_remaining r) (p_sleep_until r) (p_running_on_core r) (p_is_idle r)
    (p_wait_channel r) (p_kmutex_held r) (p_kernel_sp r) (p_sig_handlers r) (p_sig_restorers r) v
    (p_sig_blocked r) (p_utime r) (p_stime r) (p_start_time r) (p_umask_val r) (p_clear_child_tid
    r) (p_vfork_parent r) (p_exit_status r) (p_brk_base r) (p_brk_current r) (p_cwd r) (p_pgid r)
    (p_sid r) (p_tracer_pid r) (p_trace_requested r) (p_trace_wait_pending r) (p_subsys r).
Definition set_p_sig_blocked (v : Z) (r : pcb_t) : pcb_t :=
  Pcb (p_pid r) (p_ppid r) (p_state r) (p_stack_page_id r) (p_user_pages r) (p_user_stack_page
    r) (p_fd_map r) (p_ticks_remaining r) (p_sleep_until r) (p_running_on_core r) (p_is_idle r)
    (p_wait_channel r) (p_kmutex_held r) (p_kernel_sp r) (p_sig_handlers r) (p_sig_restorers r)
    (p_sig_pending r) v (p_utime r) (p_stime r) (p_start_time r) (p_umask_val r)
    (p_clear_child_tid r) (p_vfork_parent r) (p_exit_status r) (p_brk_base r) (p_brk_current r)
    (p_cwd r) (p_pgid r) (p_sid r) (p_tracer_pid r) (p_trace_requested r) (p_trace_wait_pending r)
    (p_subsys r).
Definition set_p_utime (v : Z) (r : pcb_t) : pcb_t :=
  Pcb (p_pid r) (p_ppid r) (p_state r) (p_stack_page_id r) (p_user_pages r) (p_user_stack_page
    r) (p_fd_map r) (p_ticks_remaining r) (p_sleep_until r) (p_running_on_core r) (p_is_idle r)
    (p_wait_channel r) (p_kmutex_held r) (p_kernel_sp r) (p_sig_handlers r) (p_sig_restorers r)
    (p_sig_pending r) (p_sig_blocked r) v (p_stime r) (p_start_time r) (p_umask_val r)
    (p_clear_child_tid r) (p_vfork_parent r) (p_exit_status r) (p_brk_base r) (p_brk_current r)
    (p_cwd r) (p_pgid r) (p_sid r) (p_tracer_pid r) (p_trace_requested r) (p_trace_wait_pending r)
    (p_subsys r).
Definition set_p_stime (v : Z) (r : pcb_t) : pcb_t :=
  Pcb (p_pid r) (p_ppid r) (p_state r) (p_stack_page_id r) (p_user_pages r) (p_user_stack_page
    r) (p_fd_map r) (p_ticks_remaining r) (p_sleep_until r) (p_running_on_core r) (p_is_idle r)
    (p_wait_channel r) (p_kmutex_held r) (p_kernel_sp r) (p_sig_handlers r) (p_sig_restorers r)
    (p_sig_pending r) (p_sig_blocked r) (p_utime r) v (p_start_time r) (p_umask_val r)
    (p_clear_child_tid r) (p_vfork_parent r) (p_exit_status r) (p_brk_base r) (p_brk_current r)
    (p_cwd r) (p_pgid r) (p_sid r) (p_tracer_pid r) (p_trace_requested r) (p_trace_wait_pending r)
    (p_subsys r).
Definition set_p_start_time (v : Z) (r : pcb_t) : pcb_t :=
  Pcb (p_pid r) (p_ppid r) (p_state r) (p_stack_page_id r) (p_user_pages r) (p_user_stack_page
    r) (p_fd_map r) (p_ticks_remaining r) (p_sleep_until r) (p_running_on_core r) (p_is_idle r)
    (p_wait_channel r) (p_kmutex_held r) (p_kernel_sp r) (p_sig_handlers r) (p_sig_restorers r)
    (p_sig_pending r) (p_sig_blocked r) (p_utime r) (p_stime r) v (p_umask_val r)
    (p_clear_child_tid r) (p_vfork_parent r) (p_exit_status r) (p_brk_base r) (p_brk_current r)
    (p_cwd r) (p_pgid r) (p_sid r) (p_tracer_pid r) (p_trace_requested r) (p_trace_wait_pending r)
    (p_subsys r).
Definition set_p_umask_val (v : Z) (r : pcb_t) : pcb_t :=
  Pcb (p_pid r) (p_ppid r) (p_state r) (p_stack_page_id r) (p_user_pages r) (p_user_stack_page
    r) (p_fd_map r) (p_ticks_remaining r) (p_sleep_until r) (p_running_on_core r) (p_is_idle r)
    (p_wait_channel r) (p_kmutex_held r) (p_kernel_sp r) (p_sig_handlers r) (p_sig_restorers r)
    (p_sig_pending r) (p_sig_blocked r) (p_utime r) (p_stime r) (p_start_time r) v
    (p_clear_child_tid r) (p_vfork_parent r) (p_exit_status r) (p_brk_base r) (p_brk_current r)
    (p_cwd r) (p_pgid r) (p_sid r) (p_tracer_pid r) (p_trace_requested r) (p_trace_wait_pending r)
    (p_subsys r).
Definition set_p_clear_child_tid (v : Z * Z) (r : pcb_t) : pcb_t :=
  Pcb (p_pid r) (p_ppid r) (p_state r) (p_stack_page_id r) (p_user_pages r) (p_user_stack_page
    r) (p_fd_map r) (p_ticks_remaining r) (p_sleep_until r) (p_running_on_core r) (p_is_idle r)
    (p_wait_channel r) (p_kmutex_held r) (p_kernel_sp r) (p_sig_handlers r) (p_sig_restorers r)
    (p_sig_pending r) (p_sig_blocked r) (p_utime r) (p_stime r) (p_start_time r) (p_umask_val r) v
    (p_vfork_parent r) (p_exit_status r) (p_brk_base r) (p_brk_current r) (p_cwd r) (p_pgid r)
    (p_sid r) (p_tracer_pid r) (p_trace_requested r) (p_trace_wait_pending r) (p_subsys r).
Definition set_p_vfork_parent (v : option nat) (r : pcb_t) : pcb_t :=
  Pcb (p_pid r) (p_ppid r) (p_state r) (p_stack_page_id r) (p_user_pages r) (p_user_stack_page
    r) (p_fd_map r) (p_ticks_remaining r) (p_sleep_until r) (p_running_on_core r) (p_is_idle r)
    (p_wait_channel r) (p_kmutex_held r) (p_kernel_sp r) (p_sig_handlers r) (p_sig_restorers r)
    (p_sig_pending r) (p_sig_blocked r) (p_utime r) (p_stime r) (p_start_time r) (p_umask_val r)
    (p_clear_child_tid r) v (p_exit_status r) (p_brk_base r) (p_brk_current r) (p_cwd r) (p_pgid
    r) (p_sid r) (p_tracer_pid r) (p_trace_requested r) (p_trace_wait_pending r) (p_subsys r).
Definition set_p_exit_status (v : Z) (r : pcb_t) : pcb_t :=
  Pcb (p_pid r) (p_ppid r) (p_state r) (p_stack_page_id r) (p_user_pages r) (p_user_stack_page
    r) (p_fd_map r) (p_ticks_remaining r) (p_sleep_until r) (p_running_on_core r) (p_is_idle r)
    (p_wait_channel r) (p_kmutex_held r) (p_kernel_sp r) (p_sig_handlers r) (p_sig_restorers r)
    (p_sig_pending r) (p_sig_blocked r) (p_utime r) (p_stime r) (p_start_time r) (p_umask_val r)
    (p_clear_child_tid r) (p_vfork_parent r) v (p_brk_base r) (p_brk_current r) (p_cwd r) (p_pgid
    r) (p_sid r) (p_tracer_pid r) (p_trace_requested r) (p_trace_wait_pending r) (p_subsys r).
Definition set_p_brk_base (v : Z) (r : pcb_t) : pcb_t :=
  Pcb (p_pid r) (p_ppid r) (p_state r) (p_stack_page_id r) (p_user_pages r) (p_user_stack_page
    r) (p_fd_map r) (p_ticks_remaining r) (p_sleep_until r) (p_running_on_core r) (p_is_idle r)
    (p_wait_channel r) (p_kmutex_held r) (p_kernel_sp r) (p_sig_handlers r) (p_sig_restorers r)
    (p_sig_pending r) (p_sig_blocked r) (p_utime r) (p_stime r) (p_start_time r) (p_umask_val r)
    (p_clear_child_tid r) (p_vfork_parent r) (p_exit_status r) v (p_brk_current r) (p_cwd r)
    (p_pgid r) (p_sid r) (p_tracer_pid r) (p_trace_requested r) (p_trace_wait_pending r) (p_subsys
    r).
Definition set_p_brk_current (v : Z) (r : pcb_t) : pcb_t :=
  Pcb (p_pid r) (p_ppid r) (p_state r) (p_stack_page_id r) (p_user_pages r) (p_user_stack_page
    r) (p_fd_map r) (p_ticks_remaining r) (p_sleep_until r) (p_running_on_core r) (p_is_idle r)
    (p_wait_channel r) (p_kmutex_held r) (p_kernel_sp r) (p_sig_handlers r) (p_sig_restorers r)
    (p_sig_pending r) (p_sig_blocked r) (p_utime r) (p_stime r) (p_start_time r) (p_umask_val r)
    (p_clear_child_tid r) (p_vfork_parent r) (p_exit_status r) (p_brk_base r) v (p_cwd r) (p_pgid
    r) (p_sid r) (p_tracer_pid r) (p_trace_requested r) (p_trace_wait_pending r) (p_subsys r).
Definition set_p_cwd (v : list Z) (r : pcb_t) : pcb_t :=
  Pcb (p_pid r) (p_ppid r) (p_state r) (p_stack_page_id r) (p_user_pages r) (p_user_stack_page
    r) (p_fd_map r) (p_ticks_remaining r) (p_sleep_until r) (p_running_on_core r) (p_is_idle r)
    (p_wait_channel r) (p_kmutex_held r) (p_kernel_sp r) (p_sig_handlers r) (p_sig_restorers r)
    (p_sig_pending r) (p_sig_blocked r) (p_utime r) (p_stime r) (p_start_time r) (p_umask_val r)
    (p_clear_child_tid r) (p_vfork_parent r) (p_exit_status r) (p_brk_base r) (p_brk_current r) v
    (p_pgid r) (p_sid r) (p_tracer_pid r) (p_trace_requested r) (p_trace_wait_pending r) (p_subsys
    r).
Definition set_p_pgid (v : Z) (r : pcb_t) : pcb_t :=
  Pcb (p_pid r) (p_ppid r) (p_state r) (p_stack_page_id r) (p_user_pages r) (p_user_stack_page
    r) (p_fd_map r) (p_ticks_remaining r) (p_sleep_until r) (p_running_on_core r) (p_is_idle r)
    (p_wait_channel r) (p_kmutex_held r) (p_kernel_sp r) (p_sig_handlers r) (p_sig_restorers r)
    (p_sig_pending r) (p_sig_blocked r) (p_utime r) (p_stime r) (p_start_time r) (p_umask_val r)
    (p_clear_child_tid r) (p_vfork_parent r) (p_exit_status r) (p_brk_base r) (p_brk_current r)
    (p_cwd r) v (p_sid r) (p_tracer_pid r) (p_trace_requested r) (p_trace_wait_pending r)
    (p_subsys r).
Definition set_p_sid (v : Z) (r : pcb_t) : pcb_t :=
  Pcb (p_pid r) (p_ppid r) (p_state r) (p_stack_page_id r) (p_user_pages r) (p_user_stack_page
    r) (p_fd_map r) (p_ticks_remaining r) (p_sleep_until r) (p_running_on_core r) (p_is_idle r)
    (p_wait_channel r) (p_kmutex_held r) (p_kernel_sp r) (p_sig_handlers r) (p_sig_restorers r)
    (p_sig_pending r) (p_sig_blocked r) (p_utime r) (p_stime r) (p_start_time r) (p_umask_val r)
    (p_clear_child_tid r) (p_vfork_parent r) (p_exit_status r) (p_brk_base r) (p_brk_current r)
    (p_cwd r) (p_pgid r) v (p_tracer_pid r) (p_trace_requested r) (p_trace_wait_pending r)
    (p_subsys r).
Definition set_p_tracer_pid (v : Z) (r : pcb_t) : pcb_t :=
  Pcb (p_pid r) (p_ppid r) (p_state r) (p_stack_page_id r) (p_user_pages r) (p_user_stack_page
    r) (p_fd_map r) (p_ticks_remaining r) (p_sleep_until r) (p_running_on_core r) (p_is_idle r)
    (p_wait_channel r) (p_kmutex_held r) (p_kernel_sp r) (p_sig_handlers r) (p_sig_restorers r)
    (p_sig_pending r) (p_sig_blocked r) (p_utime r) (p_stime r) (p_start_time r) (p_umask_val r)
    (p_clear_child_tid r) (p_vfork_parent r) (p_exit_status r) (p_brk_base r) (p_brk_current r)
    (p_cwd r) (p_pgid r) (p_sid r) v (p_trace_requested r) (p_trace_wait_pending r) (p_subsys r).
Definition set_p_trace_requested (v : bool) (r : pcb_t) : pcb_t :=
  Pcb (p_pid r) (p_ppid r) (p_state r) (p_stack_page_id r) (p_user_pages r) (p_user_stack_page
    r) (p_fd_map r) (p_ticks_remaining r) (p_sleep_until r) (p_running_on_core r) (p_is_idle r)
    (p_wait_channel r) (p_kmutex_held r) (p_kernel_sp r) (p_sig_handlers r) (p_sig_restorers r)
    (p_sig_pending r) (p_sig_blocked r) (p_utime r) (p_stime r) (p_start_time r) (p_umask_val r)
    (p_clear_child_tid r) (p_vfork_parent r) (p_exit_status r) (p_brk_base r) (p_brk_current r)
    (p_cwd r) (p_pgid r) (p_sid r) (p_tracer_pid r) v (p_trace_wait_pending r) (p_subsys r).
Definition set_p_trace_wait_pending (v : bool) (r : pcb_t) : pcb_t :=
  Pcb (p_pid r) (p_ppid r) (p_state r) (p_stack_page_id r) (p_user_pages r) (p_user_stack_page
    r) (p_fd_map r) (p_ticks_remaining r) (p_sleep_until r) (p_running_on_core r) (p_is_idle r)
    (p_wait_channel r) (p_kmutex_held r) (p_kernel_sp r) (p_sig_handlers r) (p_sig_restorers r)
    (p_sig_pending r) (p_sig_blocked r) (p_utime r) (p_stime r) (p_start_time r) (p_umask_val r)
    (p_clear_child_tid r) (p_vfork_parent r) (p_exit_status r) (p_brk_base r) (p_brk_current r)
    (p_cwd r) (p_pgid r) (p_sid r) (p_tracer_pid r) (p_trace_requested r) v (p_subsys r).
Definition set_p_subsys (v : Z) (r : pcb_t) : pcb_t :=
  Pcb (p_pid r) (p_ppid r) (p_state r) (p_stack_page_id r) (p_user_pages r) (p_user_stack_page
    r) (p_fd_map r) (p_ticks_remaining r) (p_sleep_until r) (p_running_on_core r) (p_is_idle r)
    (p_wait_channel r) (p_kmutex_held r) (p_kernel_sp r) (p_sig_handlers r) (p_sig_restorers r)
    (p_sig_pending r) (p_sig_blocked r) (p_utime r) (p_stime r) (p_start_time r) (p_umask_val r)
    (p_clear_child_tid r) (p_vfork_parent r) (p_exit_status r) (p_brk_base r) (p_brk_current r)
    (p_cwd r) (p_pgid r) (p_sid r) (p_tracer_pid r) (p_trace_requested r) (p_trace_wait_pending r)
    v.

(** [memset(p, 0, sizeof(pcb_t))] *)
Definition pcb_zero : pcb_t :=
  Pcb 0 0 PROC_FREE 0 (replicate USER_PAGES_MAX 0) 0 (replicate FD_MAX 0) 0 0 0 false 0 0 0
    (replicate NSIG 0) (replicate NSIG 0) 0 0 0 0 0 0 (0, 0) None 0 0 0 (replicate 64 0) 0 0 0
    false false 0.

#[export] Instance pcb_inhabited : Inhabited pcb_t := populate pcb_zero.

(** [kmutex_t]: the owner is a table index, the link an address. *)
Record kmutex_t := Kmutex { m_owner : option nat; m_next_held : Z }.

#[export] Instance kmutex_inhabited : Inhabited kmutex_t := populate (Kmutex None 0).

Record kernel_t := Kernel {
  proc_table : list pcb_t;
  current_core : list (option nat);
  next_pid : Z;
  tick_count : Z;
  switch_pending : Z;
  cpu_user_ticks : list Z;
  cpu_system_ticks : list Z;
  cpu_idle_ticks : list Z;
  kmutexes : gmap Z kmutex_t
}.

Definition set_proc_table (v : list pcb_t) (r : kernel_t) : kernel_t :=
  Kernel v (current_core r) (next_pid r) (tick_count r) (switch_pending r) (cpu_user_ticks r)
    (cpu_system_ticks r) (cpu_idle_ticks r) (kmutexes r).
Definition set_current_core (v : list (option nat)) (r : kernel_t) : kernel_t :=
  Kernel (proc_table r) v (next_pid r) (tick_count r) (switch_pending r) (cpu_user_ticks r)
    (cpu_system_ticks r) (cpu_idle_ticks r) (kmutexes r).
Definition set_next_pid (v : Z) (r : kernel_t) : kernel_t :=
  Kernel (proc_table r) (current_core r) v (tick_count r) (switch_pending r) (cpu_user_ticks r)
    (cpu_system_ticks r) (cpu_idle_ticks r) (kmutexes r).
Definition set_tick_count (v : Z) (r : kernel_t) : kernel_t :=
  Kernel (proc_table r) (current_core r) (next_pid r) v (switch_pending r) (cpu_user_ticks r)
    (cpu_system_ticks r) (cpu_idle_ticks r) (kmutexes r).
Definition set_switch_pending (v : Z) (r : kernel_t) : kernel_t :=
  Kernel (proc_table r) (current_core r) (next_pid r) (tick_count r) v (cpu_user_ticks r)
    (cpu_system_ticks r) (cpu_idle_ticks r) (kmutexes r).
Definition set_cpu_user_ticks (v : list Z) (r : kernel_t) : kernel_t :=
  Kernel (proc_table r) (current_core r) (next_pid r) (tick_count r) (switch_pending r) v
    (cpu_system_ticks r) (cpu_idle_ticks r) (kmutexes r).
Definition set_cpu_system_ticks (v : list Z) (r : kernel_t) : kernel_t :=
  Kernel (proc_table r) (current_core r) (next_pid r) (tick_count r) (switch_pending r)
    (cpu_user_ticks r) v (cpu_idle_ticks r) (kmutexes r).
Definition set_cpu_idle_ticks (v : list Z) (r : kernel_t) : kernel_t :=
  Kernel (proc_table r) (current_core r) (next_pid r) (tick_count r) (switch_pending r)
    (cpu_user_ticks r) (cpu_system_ticks r) v (kmutexes r).
Definition set_kmutexes (v : gmap Z kmutex_t) (r : kernel_t) : kernel_t :=
  Kernel (proc_table r) (current_core r) (next_pid r) (tick_count r) (switch_pending r)
    (cpu_user_ticks r) (cpu_system_ticks r) (cpu_idle_ticks r) v.

(** [proc_table[i]] and updates of it. *)
Definition proc (k : kernel_t) (i : nat) : pcb_t := proc_table k !!! i.
Definition upd_proc (i : nat) (f : pcb_t → pcb_t) (k : kernel_t) : kernel_t :=
  set_proc_table (alter f i (proc_table k)) k.

(** [current] on core [cid]. *)
Definition current (k : kernel_t) (cid : nat) : option nat := mjoin (current_core k !! cid).

(** [arch_yield] of arch_yield_default.h *)
Definition arch_yield (k : kernel_t) : kernel_t := set_switch_pending 1 k.

Definition arch_yield_consume (k : kernel_t) : Z * kernel_t :=
  if switch_pending k =? 0 then (0, k) else (1, set_switch_pending 0 k).

(** The table never changes its length. *)
Definition table_ok (k : kernel_t) : Prop := length (proc_table k) = PROC_MAX.

Lemma proc_upd_eq k i f : table_ok k → (i < PROC_MAX)%nat → proc (upd_proc i f k) i = f (proc k i).
Proof.
  intros Hk Hi. unfold proc, upd_proc. cbn. apply list_lookup_total_correct.
  rewrite list_lookup_alter_eq, list_lookup_lookup_total_lt by (by rewrite Hk). done.
Qed.

Lemma proc_upd_ne k i j f : i ≠ j → proc (upd_proc i f k) j = proc k j.
Proof.
  intros Hij. unfold proc, upd_proc. cbn. rewrite !list_lookup_total_alt.
  by rewrite list_lookup_alter_ne.
Qed.

Lemma table_ok_upd k i f : table_ok k → table_ok (upd_proc i f k).
Proof. unfold table_ok. cbn. by rewrite length_alter. Qed.

Lemma proc_upd k i j f : table_ok k → (i < PROC_MAX)%nat →
  proc (upd_proc i f k) j = if decide (j = i) then f (proc k i) else proc k j.
Proof.
  intros. destruct (decide (j = i)) as [->|]; [by apply proc_upd_eq|by apply proc_upd_ne].
Qed.
