(* ===== verification/Sched.v ===== *)
(** * Sched: the round-robin scheduler (src/kernel/core/proc/sched.c)

    Selection of the next process, the timer tick, blocking and wake-up on
    channels.  [cid] is [core_id()].  Code under a spinlock is one transition;
    operations that dereference a NULL [current] have no result. *)

From S2P Require Import Prelude Config ProcState.

(** ** Selection *)

(** Both tests of [sched_next] for a process that can be given to a core. *)
Definition available (p : pcb_t) : bool :=
  bool_decide (p_state p = PROC_RUNNABLE) && (p_running_on_core p <? 0).

(** [for (i = 1; i < PROC_MAX; i++)] over [(idx + i) % PROC_MAX]; [n] slots are
    left. *)
Fixpoint scan_ready (k : kernel_t) (idx n i : nat) : option nat :=
  match n with
  | O => None
  | S n' =>
      let next := ((idx + i) mod PROC_MAX)%nat in
      if p_is_idle (proc k next) then scan_ready k idx n' (S i)
      else if available (proc k next) then Some next
      else scan_ready k idx n' (S i)
  end.

(** [for (i = 0; i < PROC_MAX; i++)] over the idle tasks. *)
Fixpoint scan_idle (k : kernel_t) (n i : nat) : option nat :=
  match n with
  | O => None
  | S n' =>
      if p_is_idle (proc k i) && available (proc k i) then Some i else scan_idle k n' (S i)
  end.

Definition sched_next (cid : nat) (k : kernel_t) : option (nat * kernel_t) :=
  idx ← current k cid;
  let result := default idx (scan_ready k idx (PROC_MAX - 1) 1) in
  let result :=
    if bool_decide (result = idx) && negb (bool_decide (p_state (proc k idx) = PROC_RUNNABLE))
    then default idx (scan_idle k PROC_MAX 0) else result in
  if bool_decide (result = idx) then Some (result, k)
  else
    let k := upd_proc idx (set_p_running_on_core (-1)) k in
    let k := upd_proc result (set_p_running_on_core (s8 (Z.of_nat cid))) k in
    Some (result, k).

(** The context switch of the architectures: [next = sched_next();
    current_core[core_id()] = next]. *)
Definition sched_switch_core (cid : nat) (k : kernel_t) : option kernel_t :=
  '(next, k) ← sched_next cid k;
  Some (set_current_core (<[cid := Some next]> (current_core k)) k).

(** ** The timer *)

Definition sched_get_ticks (k : kernel_t) : Z := tick_count k.

(** The deadline test [(int32_t)(ticks - sleep_until) >= 0]. *)
Definition deadline_passed (ticks sleep_until : Z) : bool := 0 <=? s32 (ticks - sleep_until).

(** The body of the wake-up loop for one process: the second [if] sees the state
    the first one left. *)
Definition tick_proc (ticks : Z) (p : pcb_t) : pcb_t :=
  let p := if bool_decide (p_state p = PROC_SLEEPING) && deadline_passed ticks (p_sleep_until p)
           then set_p_state PROC_RUNNABLE p else p in
  if bool_decide (p_state p = PROC_BLOCKED) && negb (p_sleep_until p =? 0)
     && deadline_passed ticks (p_sleep_until p)
  then set_p_wait_channel 0 (set_p_state PROC_RUNNABLE p) else p.

Definition sched_tick (cid : nat) (ticks : Z) (k : kernel_t) : kernel_t :=
  let k := if (cid =? 0)%nat
           then set_proc_table (map (tick_proc ticks) (proc_table k)) k else k in
  match current k cid with
  | None => k
  | Some cur =>
      let left := u32 (p_ticks_remaining (proc k cur) - 1) in
      let k := upd_proc cur (set_p_ticks_remaining left) k in
      if left =? 0 then
        arch_yield (upd_proc cur (set_p_ticks_remaining PROC_DEFAULT_TICKS) k)
      else k
  end.

(** [a[i]++] for the per-core counters. *)
Definition bump (i : nat) (l : list Z) : list Z := alter (λ n, u32 (n + 1)) i l.

Definition sched_timer_tick (cid : nat) (from_user : bool) (k : kernel_t) : kernel_t :=
  let acct_proc :=
    match current k cid with
    | Some c => if bool_decide (p_state (proc k c) = PROC_RUNNABLE) && negb (p_is_idle (proc k c))
                then Some c else None
    | None => None
    end in
  let k1 := if (cid =? 0)%nat then set_tick_count (u32 (tick_count k + 1)) k else k in
  let ticks := if (cid =? 0)%nat then tick_count k1 else 0 in
  let k2 :=
    match acct_proc with
    | Some c =>
        if from_user then
          set_cpu_user_ticks (bump cid (cpu_user_ticks k1))
            (upd_proc c (λ p, set_p_utime (u32 (p_utime p + 1)) p) k1)
        else
          set_cpu_system_ticks (bump cid (cpu_system_ticks k1))
            (upd_proc c (λ p, set_p_stime (u32 (p_stime p + 1)) p) k1)
    | None => set_cpu_idle_ticks (bump cid (cpu_idle_ticks k1)) k1
    end in
  sched_tick cid ticks k2.

(** ** Blocking and wake-up *)

Definition sched_block_current (cid : nat) (channel : Z) (k : kernel_t) : option kernel_t :=
  cur ← current k cid;
  Some (upd_proc cur (λ p, set_p_state PROC_BLOCKED (set_p_wait_channel channel p)) k).

(** The test and the body of the loop of [sched_wakeup]. *)
Definition waits_on (channel : Z) (p : pcb_t) : bool :=
  bool_decide (p_state p = PROC_BLOCKED) && (p_wait_channel p =? channel).

Definition wake_proc (channel : Z) (p : pcb_t) : pcb_t :=
  if waits_on channel p then set_p_wait_channel 0 (set_p_state PROC_RUNNABLE p) else p.

Definition sched_wakeup (channel : Z) (k : kernel_t) : kernel_t :=
  let woke := existsb (waits_on channel) (proc_table k) in
  let k := set_proc_table (map (wake_proc channel) (proc_table k)) k in
  if woke then arch_yield k else k.
