(* ===== verification/SchedFacts.v ===== *)
(** * SchedFacts: correctness of the scheduler

    Round-robin choice and its fairness bound, exclusive ownership of processes
    by cores, time slices, deadlines across the wrap of the tick counter, and
    wake-up. *)

From S2P Require Import Prelude Config ProcState Sched.

(** A process [sched_next] may pick for a core. *)
Definition ready (k : kernel_t) (i : nat) : bool :=
  negb (p_is_idle (proc k i)) && available (proc k i).

(** How far slot [j] comes after slot [idx] in round-robin order. *)
Definition rr_dist (idx j : nat) : nat := ((j + PROC_MAX - idx) mod PROC_MAX)%nat.

Lemma scan_ready_spec k idx n i :
  match scan_ready k idx n i with
  | Some q => ∃ d, (i <= d < i + n)%nat ∧ q = ((idx + d) mod PROC_MAX)%nat ∧ ready k q = true ∧
      ∀ d', (i <= d' < d)%nat → ready k ((idx + d') mod PROC_MAX)%nat = false
  | None => ∀ d', (i <= d' < i + n)%nat → ready k ((idx + d') mod PROC_MAX)%nat = false
  end.
Proof.
  revert i. induction n as [|n IH]; intros i; cbn [scan_ready]; [lia|].
  specialize (IH (S i)). set (q := ((idx + i) mod PROC_MAX)%nat) in *.
  assert (ready k q = false → 
    match scan_ready k idx n (S i) with
    | Some q => ∃ d, (i <= d < i + S n)%nat ∧ q = ((idx + d) mod PROC_MAX)%nat ∧ ready k q = true ∧
        ∀ d', (i <= d' < d)%nat → ready k ((idx + d') mod PROC_MAX)%nat = false
    | None => ∀ d', (i <= d' < i + S n)%nat → ready k ((idx + d') mod PROC_MAX)%nat = false
    end) as Hrec.
  { intros Hq. destruct (scan_ready k idx n (S i)) as [q'|].
    - destruct IH as (d & Hd & Hq' & Hr & Hno). exists d. split_and!; [lia|lia|done|done|].
      intros d' Hd'. destruct (decide (d' = i)) as [->|]; [done|apply Hno; lia].
    - intros d' Hd'. destruct (decide (d' = i)) as [->|]; [done|apply IH; lia]. }
  unfold ready in Hrec at 1. destruct (p_is_idle (proc k q)) eqn:Hidle; [by apply Hrec|].
  destruct (available (proc k q)) eqn:Ha; [|by apply Hrec].
  exists i. split_and!; [lia|lia|done| |lia]. unfold ready. by rewrite Hidle, Ha.
Qed.

Lemma rr_dist_range idx j : (rr_dist idx j < PROC_MAX)%nat.
Proof. apply Nat.mod_upper_bound. unfold PROC_MAX. lia. Qed.

Lemma rr_dist_slot idx j : (idx < PROC_MAX)%nat → (j < PROC_MAX)%nat →
  ((idx + rr_dist idx j) mod PROC_MAX)%nat = j.
Proof.
  intros Hi Hj. unfold rr_dist. rewrite Nat.Div0.add_mod_idemp_r.
  replace (idx + (j + PROC_MAX - idx))%nat with (j + 1 * PROC_MAX)%nat by lia.
  rewrite Nat.Div0.mod_add. by apply Nat.mod_small.
Qed.

Lemma rr_dist_of_slot idx d : (idx < PROC_MAX)%nat → (d < PROC_MAX)%nat →
  rr_dist idx ((idx + d) mod PROC_MAX)%nat = d.
Proof.
  unfold rr_dist, PROC_MAX. intros Hi Hd.
  destruct (decide (idx + d < 8)%nat).
  - rewrite (Nat.mod_small (idx + d)) by lia. replace (idx + d + 8 - idx)%nat with (d + 1 * 8)%nat by lia.
    rewrite Nat.Div0.mod_add. by apply Nat.mod_small.
  - replace ((idx + d) mod 8)%nat with (idx + d - 8)%nat.
    + replace (idx + d - 8 + 8 - idx)%nat with d by lia. by apply Nat.mod_small.
    + rewrite <- (Nat.mod_small (idx + d - 8) 8) at 1 by lia.
      replace (idx + d)%nat with (idx + d - 8 + 1 * 8)%nat at 2 by lia.
      by rewrite Nat.Div0.mod_add.
Qed.

Lemma rr_dist_pos idx j : (idx < PROC_MAX)%nat → (j < PROC_MAX)%nat → idx ≠ j →
  (0 < rr_dist idx j)%nat.
Proof.
  intros Hi Hj Hne. pose proof (rr_dist_slot idx j Hi Hj) as Hs.
  destruct (rr_dist idx j); [|lia]. rewrite Nat.add_0_r, Nat.mod_small in Hs by done. congruence.
Qed.

(** Passing over slot [q] on the way to [j] brings [j] closer. *)
Lemma rr_dist_progress idx q j : (idx < PROC_MAX)%nat → (q < PROC_MAX)%nat → (j < PROC_MAX)%nat →
  (rr_dist idx q < rr_dist idx j)%nat → idx ≠ q →
  (rr_dist q j < rr_dist idx j)%nat.
Proof.
  intros Hi Hq Hj Hlt Hne. pose proof (rr_dist_pos idx q Hi Hq Hne) as Hpos.
  pose proof (rr_dist_slot idx q Hi Hq) as Eq. pose proof (rr_dist_slot idx j Hi Hj) as Ej.
  pose proof (rr_dist_range idx j).
  assert (rr_dist q j = rr_dist idx j - rr_dist idx q)%nat as ->; [|lia].
  rewrite <- Ej at 1. replace (idx + rr_dist idx j)%nat with
    ((idx + rr_dist idx q) + (rr_dist idx j - rr_dist idx q))%nat by lia.
  rewrite <- Nat.Div0.add_mod_idemp_l, Eq. apply rr_dist_of_slot; lia.
Qed.

(** What [sched_next] may answer on the core whose current slot is [idx]. *)
Definition next_choice (k : kernel_t) (idx q : nat) : Prop :=
  (q ≠ idx ∧ (q < PROC_MAX)%nat ∧ ready k q = true ∧
     ∀ j, (j < PROC_MAX)%nat → j ≠ idx → ready k j = true → (rr_dist idx q <= rr_dist idx j)%nat) ∨
  ((∀ j, (j < PROC_MAX)%nat → j ≠ idx → ready k j = false) ∧
   ((p_state (proc k idx) = PROC_RUNNABLE ∧ q = idx) ∨
    (p_state (proc k idx) ≠ PROC_RUNNABLE ∧ (q < PROC_MAX)%nat ∧
       p_is_idle (proc k q) = true ∧ available (proc k q) = true) ∨
    (p_state (proc k idx) ≠ PROC_RUNNABLE ∧ q = idx ∧
       ∀ j, (j < PROC_MAX)%nat → p_is_idle (proc k j) && available (proc k j) = false))).

Lemma scan_idle_spec k n i :
  match scan_idle k n i with
  | Some q => (i <= q < i + n)%nat ∧ p_is_idle (proc k q) && available (proc k q) = true
  | None => ∀ j, (i <= j < i + n)%nat → p_is_idle (proc k j) && available (proc k j) = false
  end.
Proof.
  revert i. induction n as [|n IH]; intros i; cbn [scan_idle]; [lia|].
  destruct (p_is_idle (proc k i) && available (proc k i)) eqn:Hi; [split; [lia|done]|].
  specialize (IH (S i)). destruct (scan_idle k n (S i)) as [q|].
  - destruct IH. split; [lia|done].
  - intros j Hj. destruct (decide (j = i)) as [->|]; [done|apply IH; lia].
Qed.

(** The slot [sched_next] picks, before it moves the core marks. *)
Definition pick (k : kernel_t) (idx : nat) : nat :=
  let result := default idx (scan_ready k idx (PROC_MAX - 1) 1) in
  if bool_decide (result = idx) && negb (bool_decide (p_state (proc k idx) = PROC_RUNNABLE))
  then default idx (scan_idle k PROC_MAX 0) else result.

Lemma pick_spec k idx : (idx < PROC_MAX)%nat → next_choice k idx (pick k idx).
Proof.
  intros Hi. unfold pick, next_choice. pose proof (scan_ready_spec k idx (PROC_MAX - 1) 1) as Hs.
  destruct (scan_ready k idx (PROC_MAX - 1) 1) as [q|]; cbn [default].
  - destruct Hs as (d & Hd & Hq & Hr & Hno). unfold id.
    assert (q < PROC_MAX)%nat by (subst q; apply Nat.mod_upper_bound; unfold PROC_MAX; lia).
    assert (rr_dist idx q = d) as Hdq by (subst q; apply rr_dist_of_slot; lia).
    assert (q ≠ idx).
    { intros ->. unfold rr_dist in Hdq. rewrite Nat.add_sub_swap, Nat.sub_diag in Hdq by lia.
      change ((0 + PROC_MAX) mod PROC_MAX)%nat with 0%nat in Hdq. lia. }
    rewrite bool_decide_eq_false_2 by done. cbn [andb]. left. split_and!; try done.
    intros j Hj Hne Hrj. rewrite Hdq. destruct (decide (d <= rr_dist idx j)%nat); [done|].
    pose proof (rr_dist_pos idx j Hi Hj (not_eq_sym Hne)).
    specialize (Hno (rr_dist idx j) ltac:(lia)). rewrite rr_dist_slot in Hno by done. congruence.
  - rewrite bool_decide_eq_true_2 by done. cbn [andb]. right. split.
    + intros j Hj Hne. pose proof (rr_dist_pos idx j Hi Hj (not_eq_sym Hne)).
      pose proof (rr_dist_range idx j). specialize (Hs (rr_dist idx j) ltac:(lia)).
      by rewrite rr_dist_slot in Hs.
    + case_bool_decide; cbn [negb]; [by left|right].
      pose proof (scan_idle_spec k PROC_MAX 0) as Hid.
      destruct (scan_idle k PROC_MAX 0) as [q|]; cbn [default]; unfold id.
      * destruct Hid as [? Hq]. apply andb_true_iff in Hq as [? ?]. left. split_and!; [done|lia|done..].
      * right. split_and!; [done|done|]. intros j Hj. apply Hid. lia.
Qed.

Lemma sched_next_pick cid k idx : current k cid = Some idx →
  sched_next cid k = Some (pick k idx,
    if bool_decide (pick k idx = idx) then k
    else upd_proc (pick k idx) (set_p_running_on_core (s8 (Z.of_nat cid)))
           (upd_proc idx (set_p_running_on_core (-1)) k)).
Proof.
  intros Hc. unfold sched_next. rewrite Hc. cbn [mbind option_bind]. fold (pick k idx).
  by case_bool_decide.
Qed.

(** ** Cores *)

Definition NCORES : nat := 2.

(** Each core's current process is marked as running on it. *)
Record cores_ok (k : kernel_t) : Prop := {
  cores_table : table_ok k;
  cores_len : length (current_core k) = NCORES;
  cores_mark : ∀ c i, current k c = Some i →
    (i < PROC_MAX)%nat ∧ p_running_on_core (proc k i) = Z.of_nat c
}.

Lemma current_core_lt k c i : length (current_core k) = NCORES → current k c = Some i → (c < NCORES)%nat.
Proof.
  unfold current. intros Hl. destruct (current_core k !! c) eqn:He; [|done].
  intros _. rewrite <- Hl. by eapply lookup_lt_Some.
Qed.

Lemma cores_distinct k c c' i : cores_ok k → current k c = Some i → current k c' = Some i → c = c'.
Proof.
  intros [_ _ Hm] H1 H2. destruct (Hm c i H1) as [_ E1]. destruct (Hm c' i H2) as [_ E2]. lia.
Qed.

Lemma pick_available k idx : (idx < PROC_MAX)%nat → pick k idx ≠ idx →
  (pick k idx < PROC_MAX)%nat ∧ p_state (proc k (pick k idx)) = PROC_RUNNABLE ∧
  p_running_on_core (proc k (pick k idx)) < 0.
Proof.
  intros Hi Hne. destruct (pick_spec k idx Hi) as [(_ & Hlt & Hr & _)|(_ & [[_ ?]|[(_ & Hlt & _ & Ha)|(_ & ? & _)]])];
    try done; (split; [done|]).
  - unfold ready, available in Hr. apply andb_true_iff in Hr as [_ Hr].
    apply andb_true_iff in Hr as [Hs Hrun]. apply bool_decide_eq_true in Hs. zb. done.
  - unfold available in Ha. apply andb_true_iff in Ha as [Hs Hrun].
    apply bool_decide_eq_true in Hs. zb. done.
Qed.

Lemma s8_core c : (c < NCORES)%nat → s8 (Z.of_nat c) = Z.of_nat c.
Proof. unfold NCORES. intros. by do 2 (destruct c as [|c]; [done|]); lia. Qed.

Lemma current_set_core k cid c q : (cid < length (current_core k))%nat →
  current (set_current_core (<[cid:=Some q]> (current_core k)) k) c =
  if decide (c = cid) then Some q else current k c.
Proof.
  intros Hl. unfold current. cbn. destruct (decide (c = cid)) as [->|].
  - by rewrite list_lookup_insert_eq.
  - by rewrite list_lookup_insert_ne.
Qed.

Lemma sched_switch_cores cid k k' : cores_ok k → sched_switch_core cid k = Some k' → cores_ok k'.
Proof.
  intros Hk. unfold sched_switch_core. destruct (current k cid) as [idx|] eqn:Hc.
  2:{ unfold sched_next. by rewrite Hc. }
  rewrite (sched_next_pick cid k idx Hc). cbn. intros [= <-].
  destruct (cores_mark _ Hk _ _ Hc) as [Hi _]. pose proof (current_core_lt _ _ _ (cores_len _ Hk) Hc) as Hcl.
  set (q := pick k idx) in *. case_bool_decide as Hq.
  - rewrite Hq. constructor; [apply Hk|cbn; rewrite length_insert; apply Hk|].
    intros c i. rewrite current_set_core by (rewrite (cores_len _ Hk); lia).
    destruct (decide (c = cid)) as [->|]; [intros [= <-]|]; by apply Hk.
  - destruct (pick_available k idx Hi Hq) as (Hql & _ & Hqr). fold q in Hql, Hqr.
    pose proof (cores_table _ Hk) as Ht.
    constructor; [by do 2 apply table_ok_upd|cbn; rewrite length_insert; apply Hk|].
    intros c i. set (k1 := upd_proc q _ _).
    change (current (set_current_core (<[cid:=Some q]> (current_core k1)) k1) c = Some i → 
      (i < PROC_MAX)%nat ∧ p_running_on_core (proc k1 i) = Z.of_nat c).
    rewrite current_set_core by (cbn; rewrite (cores_len _ Hk); lia).
    destruct (decide (c = cid)) as [->|Hne].
    + intros [= <-]. split; [done|]. subst k1. rewrite proc_upd_eq by (done || by apply table_ok_upd).
      cbn. by apply s8_core.
    + change (current k1 c) with (current k c). intros Hci. destruct (cores_mark _ Hk _ _ Hci) as [Hil Hir].
      split; [done|]. subst k1.
      assert (i ≠ idx) by (intros ->; by destruct Hne; apply (cores_distinct k c cid idx)).
      assert (i ≠ q) by (intros ->; lia).
      by rewrite !proc_upd_ne by done.
Qed.

(** Operations that leave the marks of the cores alone. *)
Definition same_marks (k k' : kernel_t) : Prop :=
  length (proc_table k') = length (proc_table k) ∧ current_core k' = current_core k ∧
  ∀ i, p_running_on_core (proc k' i) = p_running_on_core (proc k i).

#[export] Instance same_marks_preorder : PreOrder same_marks.
Proof.
  split; [done|]. intros a b c (L1 & C1 & M1) (L2 & C2 & M2).
  split_and!; [congruence|congruence|]. intros i. by rewrite M2.
Qed.

Lemma same_marks_cores k k' : same_marks k k' → cores_ok k → cores_ok k'.
Proof.
  intros (Hl & Hc & Hm) [Ht Hn Hr]. constructor.
  - unfold table_ok in *. congruence.
  - congruence.
  - intros c i Hi. unfold current in Hi. rewrite Hc in Hi. rewrite Hm. by apply Hr.
Qed.

Lemma same_marks_upd k i f : (∀ p, p_running_on_core (f p) = p_running_on_core p) →
  same_marks k (upd_proc i f k).
Proof.
  intros Hf. split_and!; [cbn; by rewrite length_alter|done|]. intros j.
  destruct (decide (i = j)) as [->|]; [|by rewrite proc_upd_ne].
  unfold proc, upd_proc. cbn. rewrite !list_lookup_total_alt, list_lookup_alter_eq.
  destruct (proc_table k !! j); [apply Hf|done].
Qed.

Lemma proc_map k f j : table_ok k → (j < PROC_MAX)%nat →
  proc (set_proc_table (map f (proc_table k)) k) j = f (proc k j).
Proof.
  intros Ht Hj. unfold proc. cbn. apply list_lookup_total_correct.
  rewrite list_lookup_fmap, list_lookup_lookup_total_lt by (by rewrite Ht). done.
Qed.

Lemma same_marks_map k f : (∀ p, p_running_on_core (f p) = p_running_on_core p) →
  same_marks k (set_proc_table (map f (proc_table k)) k).
Proof.
  intros Hf. split_and!; [cbn; by rewrite length_map|done|]. intros j.
  unfold proc. cbn. rewrite !list_lookup_total_alt, list_lookup_fmap.
  destruct (proc_table k !! j); [apply Hf|done].
Qed.

Lemma same_marks_yield k k' : same_marks k k' → same_marks k (arch_yield k').
Proof. done. Qed.

Lemma same_marks_tick cid ticks k : same_marks k (sched_tick cid ticks k).
Proof.
  unfold sched_tick. set (k1 := if (cid =? 0)%nat then _ else k).
  assert (same_marks k k1) as H1.
  { subst k1. destruct (cid =? 0)%nat; [|done]. apply same_marks_map.
    intros p. unfold tick_proc. by repeat case_match; simpl. }
  destruct (current k1 cid) as [c|]; [|done]. etrans; [exact H1|].
  destruct (_ =? 0).
  - apply same_marks_yield. etrans; [|by apply same_marks_upd]. by apply same_marks_upd.
  - by apply same_marks_upd.
Qed.

Lemma same_marks_timer cid b k : same_marks k (sched_timer_tick cid b k).
Proof.
  unfold sched_timer_tick. set (k1 := if (cid =? 0)%nat then _ else k).
  assert (same_marks k k1) as H1 by (subst k1; by destruct (cid =? 0)%nat).
  etrans; [exact H1|]. etrans; [|apply same_marks_tick].
  destruct (match current k cid with Some _ => _ | None => _ end) as [c|]; [|done].
  destruct b.
  - exact (same_marks_upd k1 c (λ p, set_p_utime (u32 (p_utime p + 1)) p) (λ _, eq_refl)).
  - exact (same_marks_upd k1 c (λ p, set_p_stime (u32 (p_stime p + 1)) p) (λ _, eq_refl)).
Qed.

Lemma same_marks_wakeup ch k : same_marks k (sched_wakeup ch k).
Proof.
  unfold sched_wakeup. etrans; [apply (same_marks_map k (wake_proc ch))|].
  - intros p. unfold wake_proc. by case_match.
  - by destruct (existsb _ _).
Qed.

(** The scheduler's transitions, on any core in any order. *)
Inductive sched_step : kernel_t → kernel_t → Prop :=
| step_switch cid k k' : sched_switch_core cid k = Some k' → sched_step k k'
| step_tick cid from_user k : sched_step k (sched_timer_tick cid from_user k)
| step_block cid channel k k' : sched_block_current cid channel k = Some k' → sched_step k k'
| step_wakeup channel k : sched_step k (sched_wakeup channel k).

Lemma sched_step_cores k k' : cores_ok k → sched_step k k' → cores_ok k'.
Proof.
  intros Hk Hs. destruct Hs as [cid k k' H|cid b k|cid ch k k' H|ch k].
  - by eapply sched_switch_cores.
  - eapply same_marks_cores; [apply same_marks_timer|done].
  - unfold sched_block_current in H. destruct (current k cid) as [c|]; [|done].
    cbn in H. simplify_eq. eapply same_marks_cores; [by apply same_marks_upd|done].
  - eapply same_marks_cores; [apply same_marks_wakeup|done].
Qed.

(** ** Waiting for the processor *)

Lemma sched_switch_current cid k k' idx : current k cid = Some idx → (cid < length (current_core k))%nat →
  sched_switch_core cid k = Some k' → current k' cid = Some (pick k idx).
Proof.
  intros Hc Hl. unfold sched_switch_core. rewrite (sched_next_pick cid k idx Hc). cbn.
  intros [= <-]. case_bool_decide; rewrite current_set_core by done; by destruct (decide _).
Qed.

(** Each switch that does not pick a ready [j] brings the core closer to it. *)
Lemma pick_progress k idx j : (idx < PROC_MAX)%nat → (j < PROC_MAX)%nat → idx ≠ j →
  ready k j = true → pick k idx = j ∨
  ((rr_dist (pick k idx) j < rr_dist idx j)%nat ∧ (pick k idx < PROC_MAX)%nat ∧ pick k idx ≠ j).
Proof.
  intros Hi Hj Hne Hr. destruct (pick_spec k idx Hi) as [(Hq & Hql & _ & Hmin)|(Hno & _)].
  - destruct (decide (pick k idx = j)) as [|Hqj]; [by left|right].
    specialize (Hmin j Hj (not_eq_sym Hne) Hr). split_and!; [|done|done].
    apply rr_dist_progress; try done.
    destruct (decide (rr_dist idx (pick k idx) = rr_dist idx j)%nat) as [He|]; [|lia].
    rewrite <- (rr_dist_slot idx (pick k idx)), He, rr_dist_slot in Hqj by done. done.
  - rewrite Hno in Hr by done. done.
Qed.

(** A run of the machine in which core [cid] switches at every step and anything
    else may happen in between, as long as the core keeps its current process. *)
Definition switch_run (cid : nat) (f : nat → kernel_t) (n : nat) : Prop :=
  ∀ m, (m < n)%nat → ∃ k', sched_switch_core cid (f m) = Some k' ∧
    current (f (S m)) cid = current k' cid ∧ length (current_core (f m)) = NCORES.

Lemma round_robin cid f idx j n : (cid < NCORES)%nat → (idx < PROC_MAX)%nat → (j < PROC_MAX)%nat →
  idx ≠ j → current (f 0%nat) cid = Some idx → (rr_dist idx j <= n)%nat → switch_run cid f n →
  (∀ m, (m < n)%nat → (∀ l, (l <= m)%nat → current (f l) cid ≠ Some j) → ready (f m) j = true) →
  ∃ m, (0 < m <= rr_dist idx j)%nat ∧ current (f m) cid = Some j.
Proof.
  intros Hcid. remember (rr_dist idx j) as d eqn:Hd. revert f idx n Hd.
  induction d as [d IH] using lt_wf_ind. intros f idx n Hd Hi Hj Hne Hc Hn Hrun Hready.
  pose proof (rr_dist_pos idx j Hi Hj Hne) as Hpos.
  destruct (Hrun 0%nat ltac:(lia)) as (k' & Hsw & Hcur & Hlen).
  rewrite (sched_switch_current cid (f 0%nat) k' idx Hc ltac:(rewrite Hlen; lia) Hsw) in Hcur.
  assert (ready (f 0%nat) j = true) as Hr0.
  { apply Hready; [lia|]. intros l Hl. replace l with 0%nat by lia. congruence. }
  destruct (pick_progress (f 0%nat) idx j Hi Hj Hne Hr0) as [Hq|(Hlt & Hql & Hqj)].
  { exists 1%nat. split; [lia|congruence]. }
  destruct (IH _ ltac:(rewrite Hd; exact Hlt) (λ m, f (S m)) (pick (f 0%nat) idx) (n - 1)%nat eq_refl)
    as (m & Hm & Hcm); try done; [lia| | |].
  - intros m Hm. apply Hrun. lia.
  - intros m Hm Hno. apply Hready; [lia|]. intros [|l] Hl; [congruence|]. apply Hno. lia.
  - exists (S m). split; [lia|done].
Qed.

(** ** Ticks *)

Lemma s32_cong a b : u32 a = u32 b → s32 a = s32 b.
Proof. unfold sN. by intros ->. Qed.

(** The wrapped comparison is the comparison of the elapsed times. *)
Lemma deadline_spec t0 n e : 0 <= n < 2 ^ 31 → 0 <= e < 2 ^ 31 →
  deadline_passed (u32 (t0 + e)) (u32 (t0 + n)) = (n <=? e).
Proof.
  intros Hn He. unfold deadline_passed.
  rewrite (s32_cong _ (e - n)), s32_small by
    (lia || (unfold uN; rewrite <- Zminus_mod; f_equal; lia)).
  destruct (Z.leb_spec n e), (Z.leb_spec 0 (e - n)); done || lia.
Qed.

Lemma tick_proc_remaining ticks p : p_ticks_remaining (tick_proc ticks p) = p_ticks_remaining p.
Proof. unfold tick_proc. by repeat case_match; simpl. Qed.

Lemma sched_tick_current cid ticks k c : cores_ok k → current k cid = Some c →
  let left := u32 (p_ticks_remaining (proc k c) - 1) in
  let k' := sched_tick cid ticks k in
  current k' cid = Some c ∧ cores_ok k' ∧
  p_ticks_remaining (proc k' c) = (if left =? 0 then PROC_DEFAULT_TICKS else left) ∧
  switch_pending k' = (if left =? 0 then 1 else switch_pending k).
Proof.
  intros Hk Hc left k'. pose proof (same_marks_tick cid ticks k) as Hm.
  split_and!; [|by eapply same_marks_cores| |].
  { subst k'. unfold current. destruct Hm as (_ & -> & _). exact Hc. }
  all: destruct (cores_mark _ Hk _ _ Hc) as [Hcl _]; pose proof (cores_table _ Hk) as Ht;
    subst k'; unfold sched_tick; set (k1 := if (cid =? 0)%nat then _ else k);
    assert (current k1 cid = Some c) as -> by (subst k1; by destruct (cid =? 0)%nat);
    assert (p_ticks_remaining (proc k1 c) = p_ticks_remaining (proc k c)) as ->
      by (subst k1; destruct (cid =? 0)%nat; [rewrite proc_map by done; apply tick_proc_remaining|done]);
    assert (table_ok k1) as Ht1 by (subst k1; destruct (cid =? 0)%nat; [|done];
      unfold table_ok in *; cbn; by rewrite length_map);
    fold left; assert (switch_pending k1 = switch_pending k) as Hp
      by (subst k1; by destruct (cid =? 0)%nat); clearbody k1.
  - destruct (left =? 0).
    + change (proc (arch_yield ?k) c) with (proc k c).
      by rewrite proc_upd_eq by (done || by apply table_ok_upd).
    + by rewrite proc_upd_eq by done.
  - by destruct (left =? 0).
Qed.

(** Timer ticks with the values [ts] of the tick counter. *)
Definition run_ticks (cid : nat) (ts : list Z) (k : kernel_t) : kernel_t :=
  fold_left (λ k t, sched_tick cid t k) ts k.

Lemma run_ticks_slice cid ts k c n : cores_ok k → current k cid = Some c →
  p_ticks_remaining (proc k c) = n → 0 < n < 2 ^ 32 → Z.of_nat (length ts) < n →
  let k' := run_ticks cid ts k in
  cores_ok k' ∧ current k' cid = Some c ∧
  p_ticks_remaining (proc k' c) = n - Z.of_nat (length ts) ∧ switch_pending k' = switch_pending k.
Proof.
  revert k n. induction ts as [|t ts IH]; intros k n Hk Hc Hr Hn Hlen; cbn [length] in Hlen.
  { cbn. split_and!; [done|done|lia|done]. }
  destruct (sched_tick_current cid t k c Hk Hc) as (Hc' & Hk' & Hr' & Hp').
  rewrite Hr, (uN_small 32) in Hr', Hp' by lia. destruct (Z.eqb_spec (n - 1) 0); [lia|].
  destruct (IH (sched_tick cid t k) (n - 1)) as (A & B & C & D); try done; try lia.
  unfold run_ticks in *. cbn [fold_left length]. split_and!; [done|done|lia|congruence].
Qed.

Lemma tick_proc_sleep ticks p : p_state p = PROC_SLEEPING →
  tick_proc ticks p = if deadline_passed ticks (p_sleep_until p) then set_p_state PROC_RUNNABLE p else p.
Proof.
  intros Hs. unfold tick_proc. rewrite (bool_decide_eq_true_2 _ Hs). cbn [andb].
  destruct (deadline_passed ticks (p_sleep_until p)); [done|].
  rewrite bool_decide_eq_false_2; [done|congruence].
Qed.

Lemma tick_proc_blocked ticks p : p_state p = PROC_BLOCKED →
  tick_proc ticks p = if negb (p_sleep_until p =? 0) && deadline_passed ticks (p_sleep_until p)
                      then set_p_wait_channel 0 (set_p_state PROC_RUNNABLE p) else p.
Proof.
  intros Hs. unfold tick_proc. rewrite (bool_decide_eq_false_2 (p_state p = _)) by congruence.
  cbn [andb]. by rewrite (bool_decide_eq_true_2 _ Hs).
Qed.

Lemma sched_tick_other ticks k j : cores_ok k → (j < PROC_MAX)%nat → current k 0 ≠ Some j →
  proc (sched_tick 0 ticks k) j = tick_proc ticks (proc k j).
Proof.
  intros Hk Hj Hne. pose proof (cores_table _ Hk) as Ht. unfold sched_tick. cbn [Nat.eqb].
  set (k1 := set_proc_table _ k). assert (proc k1 j = tick_proc ticks (proc k j)) as <- by (by apply proc_map).
  change (current k1 0) with (current k 0). destruct (current k 0) as [c|]; [|done].
  assert (c ≠ j) by congruence. destruct (_ =? 0).
  - change (proc (arch_yield ?k) j) with (proc k j). by rewrite !proc_upd_ne.
  - by rewrite proc_upd_ne.
Qed.

(** ** Properties *)

(** A two-core machine: the idle task of core 0 runs, slots 3 and 5 are ready,
    slot 4 is blocked on the channel 4096 and slot 6 sleeps until tick 100. *)
Definition demo_idle : pcb_t :=
  set_p_is_idle true (set_p_ticks_remaining 3 (set_p_state PROC_RUNNABLE pcb_zero)).
Definition demo_ready : pcb_t :=
  set_p_running_on_core (-1) (set_p_ticks_remaining 10 (set_p_state PROC_RUNNABLE pcb_zero)).
Definition demo_blocked : pcb_t :=
  set_p_running_on_core (-1) (set_p_wait_channel 4096 (set_p_state PROC_BLOCKED pcb_zero)).
Definition demo_sleeping : pcb_t :=
  set_p_running_on_core (-1) (set_p_sleep_until 100 (set_p_state PROC_SLEEPING pcb_zero)).
Definition demo_kernel : kernel_t :=
  Kernel [demo_idle; pcb_zero; pcb_zero; demo_ready; demo_blocked; demo_ready; demo_sleeping; pcb_zero]
    [Some 0%nat; None] 8 90 0 [0; 0] [0; 0] [0; 0] ∅.

Lemma demo_cores : cores_ok demo_kernel.
Proof.
  constructor; [done|done|]. intros [|[|c]] i; cbn; try done.
  intros [= <-]. split; [unfold PROC_MAX; lia|done].
Qed.

(** [sched_next] keeps the round-robin contract: it picks the first ready
    process after the current one that no core is running, falls back to the
    current process while that is runnable, and to an idle task otherwise; the
    core mark moves from the old process to the new one and nothing else
    changes its mark. *)
Theorem sched_next_policy cid k idx : cores_ok k → current k cid = Some idx →
  ∃ q k', sched_next cid k = Some (q, k') ∧ next_choice k idx q ∧
    ∀ i, p_running_on_core (proc k' i) =
      if decide (q = idx) then p_running_on_core (proc k i)
      else if decide (i = q) then Z.of_nat cid
      else if decide (i = idx) then -1 else p_running_on_core (proc k i).
Proof.
  intros Hk Hc. destruct (cores_mark _ Hk _ _ Hc) as [Hi _].
  pose proof (current_core_lt _ _ _ (cores_len _ Hk) Hc) as Hcl. pose proof (cores_table _ Hk) as Ht.
  rewrite (sched_next_pick cid k idx Hc). eexists _, _. split; [done|].
  split; [by apply pick_spec|]. intros i. case_bool_decide as Hq; destruct (decide _); try done.
  destruct (pick_available k idx Hi Hq) as (Hql & _).
  rewrite proc_upd by (done || by apply table_ok_upd).
  destruct (decide (i = pick k idx)); [cbn; by apply s8_core|].
  rewrite proc_upd by done. by destruct (decide (i = idx)).
Qed.

Lemma sched_next_policy_witness :
  ∃ q k', sched_next 0 demo_kernel = Some (q, k') ∧ next_choice demo_kernel 0 q ∧
    ∀ i, p_running_on_core (proc k' i) =
      if decide (q = 0%nat) then p_running_on_core (proc demo_kernel i)
      else if decide (i = q) then Z.of_nat 0
      else if decide (i = 0%nat) then -1 else p_running_on_core (proc demo_kernel i).
Proof. apply (sched_next_policy 0 demo_kernel 0); [apply demo_cores|reflexivity]. Defined.

(** C4. No process ever runs on two cores: from a state in which each core's
    process carries its mark, switches, ticks, blocking and wake-ups on any core
    in any order keep the cores' processes distinct, and a core that has a
    process can always switch. *)
Theorem no_process_on_two_cores k k' : cores_ok k → rtc sched_step k k' →
  (∀ c c' i, current k' c = Some i → current k' c' = Some i → c = c') ∧
  (∀ c i, current k' c = Some i → is_Some (sched_switch_core c k')).
Proof.
  intros Hk Hr. assert (cores_ok k') as Hk'.
  { induction Hr as [|x y z Hxy _ IH]; [done|]. apply IH. by eapply sched_step_cores. }
  split; [intros c c' i; by apply cores_distinct|]. intros c i Hc.
  unfold sched_switch_core. rewrite (sched_next_pick c k' i Hc). by eexists.
Qed.

Lemma no_process_on_two_cores_witness :
  let k' := sched_timer_tick 0 true demo_kernel in
  (∀ c c' i, current k' c = Some i → current k' c' = Some i → c = c') ∧
  (∀ c i, current k' c = Some i → is_Some (sched_switch_core c k')).
Proof.
  apply (no_process_on_two_cores demo_kernel); [apply demo_cores|]. apply rtc_once, step_tick.
Defined.

(** C5. Bounded waiting: if core [cid] keeps switching, a process that stays
    ready is picked after at most its round-robin distance, so within
    [PROC_MAX - 1] switches, whatever the other processes do in between. *)
Theorem round_robin_bound cid f idx j : (cid < NCORES)%nat → (idx < PROC_MAX)%nat →
  (j < PROC_MAX)%nat → idx ≠ j → current (f 0%nat) cid = Some idx →
  switch_run cid f (rr_dist idx j) →
  (∀ m, (m < rr_dist idx j)%nat → (∀ l, (l <= m)%nat → current (f l) cid ≠ Some j) →
     ready (f m) j = true) →
  ∃ m, (0 < m <= PROC_MAX - 1)%nat ∧ current (f m) cid = Some j.
Proof.
  intros Hcid Hi Hj Hne Hc Hrun Hready. pose proof (rr_dist_range idx j).
  destruct (round_robin cid f idx j (rr_dist idx j)) as (m & Hm & Hcm); try done.
  exists m. split; [lia|done].
Qed.

Definition demo_run (n : nat) : kernel_t :=
  Nat.iter n (λ k, default k (sched_switch_core 0 k)) demo_kernel.

Lemma round_robin_bound_witness :
  ∃ m, (0 < m <= PROC_MAX - 1)%nat ∧ current (demo_run m) 0 = Some 5%nat.
Proof.
  apply (round_robin_bound 0 demo_run 0 5); try (unfold NCORES, PROC_MAX; lia); [reflexivity| |].
  - intros m Hm. change (rr_dist 0 5) with 5%nat in Hm.
    do 5 (destruct m as [|m]; [eexists; split; [vm_compute; reflexivity|split; vm_compute; reflexivity]|]). lia.
  - intros m Hm Hno. destruct m as [|[|m]]; [vm_compute; reflexivity|vm_compute; reflexivity|].
    destruct (Hno 2%nat); [lia|vm_compute; reflexivity].
Defined.

(** A time slice of [n] ticks is honoured exactly: no yield is requested
    during the first [n - 1] ticks of the core, the [n]th tick requests it and
    reloads the slice with [PROC_DEFAULT_TICKS]. *)
Theorem time_slice_exact cid ts t k c n : cores_ok k → current k cid = Some c →
  p_ticks_remaining (proc k c) = n → 0 < n < 2 ^ 32 → Z.of_nat (length ts) = n - 1 →
  switch_pending k = 0 →
  switch_pending (run_ticks cid ts k) = 0 ∧
  switch_pending (sched_tick cid t (run_ticks cid ts k)) = 1 ∧
  p_ticks_remaining (proc (sched_tick cid t (run_ticks cid ts k)) c) = PROC_DEFAULT_TICKS.
Proof.
  intros Hk Hc Hr Hn Hlen Hp.
  destruct (run_ticks_slice cid ts k c n) as (Hk' & Hc' & Hr' & Hp'); try done; [lia|].
  destruct (sched_tick_current cid t _ c Hk' Hc') as (_ & _ & Hr2 & Hp2).
  rewrite Hr' in Hr2, Hp2. replace (n - _ - 1) with 0 in Hr2, Hp2 by lia.
  change (u32 0 =? 0) with true in *. split_and!; congruence.
Qed.

Lemma time_slice_exact_witness :
  let k := run_ticks 0 [91; 92] demo_kernel in
  switch_pending k = 0 ∧ switch_pending (sched_tick 0 93 k) = 1 ∧
  p_ticks_remaining (proc (sched_tick 0 93 k) 0) = PROC_DEFAULT_TICKS.
Proof.
  apply (time_slice_exact 0 [91; 92] 93 demo_kernel 0 3); try done; apply demo_cores.
Defined.

(** Deadlines survive the wrap of the 32-bit tick counter: for delays and
    elapsed times below 2^31 ticks, a process sleeping since [t0] for [n] ticks
    stays asleep while fewer than [n] ticks have passed and is runnable from
    then on. *)
Theorem sleep_wakes_on_time k j t0 n e : cores_ok k → (j < PROC_MAX)%nat →
  current k 0 ≠ Some j → p_state (proc k j) = PROC_SLEEPING →
  p_sleep_until (proc k j) = u32 (t0 + n) → 0 <= n < 2 ^ 31 → 0 <= e < 2 ^ 31 →
  p_state (proc (sched_tick 0 (u32 (t0 + e)) k) j) = if n <=? e then PROC_RUNNABLE else PROC_SLEEPING.
Proof.
  intros Hk Hj Hne Hs Hu Hn He. rewrite sched_tick_other, tick_proc_sleep by done.
  rewrite Hu, deadline_spec by done. by destruct (n <=? e).
Qed.

Lemma sleep_wakes_on_time_witness :
  p_state (proc (sched_tick 0 (u32 (-50 + 149)) demo_kernel) 6) =
  if 150 <=? 149 then PROC_RUNNABLE else PROC_SLEEPING.
Proof.
  apply (sleep_wakes_on_time demo_kernel 6 (-50) 150 149); try done; try lia; [apply demo_cores|].
  unfold PROC_MAX; lia.
Defined.

(** [sched_wakeup] wakes exactly the processes blocked on the channel: they
    become runnable and forget the channel, every other process is untouched,
    and a switch is requested exactly when somebody was woken. *)
Theorem sched_wakeup_exact ch k : table_ok k →
  (∀ j, (j < PROC_MAX)%nat →
     proc (sched_wakeup ch k) j =
     if decide (p_state (proc k j) = PROC_BLOCKED ∧ p_wait_channel (proc k j) = ch)
     then set_p_wait_channel 0 (set_p_state PROC_RUNNABLE (proc k j)) else proc k j) ∧
  switch_pending (sched_wakeup ch k) =
    (if existsb (waits_on ch) (proc_table k) then 1 else switch_pending k).
Proof.
  intros Ht. split.
  - intros j Hj. unfold sched_wakeup.
    set (k1 := set_proc_table _ k). assert (proc k1 j = wake_proc ch (proc k j)) as Hw by (by apply proc_map).
    transitivity (proc k1 j); [by destruct (existsb _ _)|]. rewrite Hw. unfold wake_proc, waits_on.
    destruct (decide _) as [[Hs Hch]|Hn].
    + by rewrite (bool_decide_eq_true_2 _ Hs), Hch, Z.eqb_refl.
    + case_bool_decide as Hs; [|done]. cbn [andb].
      destruct (Z.eqb_spec (p_wait_channel (proc k j)) ch); [by destruct Hn|done].
  - unfold sched_wakeup. by destruct (existsb _ _).
Qed.

Lemma sched_wakeup_exact_witness :
  (∀ j, (j < PROC_MAX)%nat →
     proc (sched_wakeup 4096 demo_kernel) j =
     if decide (p_state (proc demo_kernel j) = PROC_BLOCKED ∧ p_wait_channel (proc demo_kernel j) = 4096)
     then set_p_wait_channel 0 (set_p_state PROC_RUNNABLE (proc demo_kernel j)) else proc demo_kernel j) ∧
  switch_pending (sched_wakeup 4096 demo_kernel) =
    (if existsb (waits_on 4096) (proc_table demo_kernel) then 1 else switch_pending demo_kernel).
Proof. apply sched_wakeup_exact. reflexivity. Defined.
