(* ===== verification/Kmutex.v ===== *)
(** * Kmutex: sleepable process-owned mutexes (src/kernel/core/sync/kmutex.c)

    Each [SPIN_PROC] critical section is one transition.  A process records the
    mutexes it holds in a list threaded through them.  A panic is a result. *)

From S2P Require Import Prelude Config ProcState Sched SchedFacts.

(** [Again]: the process has blocked and will run the section once more. *)
Inductive kres A :=
| Ok (a : A)
| Again (k : kernel_t)
| Panic.
Arguments Ok {A}. Arguments Again {A}. Arguments Panic {A}.

Definition mutex (k : kernel_t) (m : Z) : kmutex_t := kmutexes k !!! m.
Definition upd_mutex (m : Z) (f : kmutex_t → kmutex_t) (k : kernel_t) : kernel_t :=
  set_kmutexes (<[m := f (mutex k m)]> (kmutexes k)) k.

Definition set_owner (o : option nat) (m : kmutex_t) : kmutex_t := Kmutex o (m_next_held m).
Definition set_next_held (a : Z) (m : kmutex_t) : kmutex_t := Kmutex (m_owner m) a.

Section Operations.
(** [core_id()] and [arch_in_irq_context()] *)
Context (cid : nat) (in_irq : bool).

Definition kmutex_init (m : Z) (k : kernel_t) : kernel_t :=
  if m =? 0 then k else upd_mutex m (λ _, Kmutex None 0) k.

Definition kmutex_link_held (cur : nat) (m : Z) (k : kernel_t) : kernel_t :=
  let k := upd_mutex m (set_next_held (p_kmutex_held (proc k cur))) k in
  upd_proc cur (set_p_kmutex_held m) k.

(** [*pp = a], where [pp] is the owner's head or the link of the mutex [prev]. *)
Definition set_link (owner : nat) (prev : option Z) (a : Z) (k : kernel_t) : kernel_t :=
  match prev with
  | None => upd_proc owner (set_p_kmutex_held a) k
  | Some b => upd_mutex b (set_next_held a) k
  end.

(** The walk of [kmutex_unlink_held]; [cur] is [*pp]. *)
Fixpoint unlink_walk (fuel : nat) (owner : nat) (m : Z) (prev : option Z) (cur : Z)
    (k : kernel_t) : kernel_t :=
  match fuel with
  | O => k
  | S fuel =>
      if cur =? 0 then k
      else if cur =? m then
        upd_mutex m (set_next_held 0) (set_link owner prev (m_next_held (mutex k m)) k)
      else unlink_walk fuel owner m (Some cur) (m_next_held (mutex k cur)) k
  end.

(** The list has at most one cell per mutex. *)
Definition kmutex_unlink_held (owner : nat) (m : Z) (k : kernel_t) : kernel_t :=
  unlink_walk (S (size (kmutexes k))) owner m None (p_kmutex_held (proc k owner)) k.

(** [kmutex_require_process_context]: the current process, or the panic. *)
Definition kmutex_require_process_context (k : kernel_t) : option nat :=
  if in_irq then None else current k cid.

(** One iteration of the loop of [kmutex_lock]. *)
Definition kmutex_lock (m : Z) (k : kernel_t) : kres kernel_t :=
  if m =? 0 then Panic
  else
    match kmutex_require_process_context k with
    | None => Panic
    | Some cur =>
        match m_owner (mutex k m) with
        | None => Ok (kmutex_link_held cur m (upd_mutex m (set_owner (Some cur)) k))
        | Some o =>
            if bool_decide (o = cur) then Panic
            else Again (upd_proc cur (λ p, set_p_state PROC_BLOCKED (set_p_wait_channel m p)) k)
        end
    end.

Definition kmutex_try_lock (m : Z) (k : kernel_t) : kres (Z * kernel_t) :=
  if m =? 0 then Panic
  else
    match kmutex_require_process_context k with
    | None => Panic
    | Some cur =>
        match m_owner (mutex k m) with
        | None => Ok (1, kmutex_link_held cur m (upd_mutex m (set_owner (Some cur)) k))
        | Some o => if bool_decide (o = cur) then Panic else Ok (0, k)
        end
    end.

(** The critical section of [kmutex_unlock], before the wake-up. *)
Definition kmutex_unlock_section (m : Z) (k : kernel_t) : kres kernel_t :=
  if m =? 0 then Panic
  else
    match kmutex_require_process_context k with
    | None => Panic
    | Some cur =>
        if negb (bool_decide (m_owner (mutex k m) = Some cur)) then Panic
        else Ok (upd_mutex m (set_owner None) (kmutex_unlink_held cur m k))
    end.

Definition kmutex_unlock (m : Z) (k : kernel_t) : kres kernel_t :=
  match kmutex_unlock_section m k with
  | Ok k => Ok (sched_wakeup m k)
  | r => r
  end.

(** One iteration of [kmutex_release_owned], before the wake-up: the mutex taken
    off the list of [p], if there is one. *)
Definition release_section (p : nat) (k : kernel_t) : option (Z * kernel_t) :=
  let m := p_kmutex_held (proc k p) in
  if m =? 0 then None
  else
    let k := upd_proc p (set_p_kmutex_held (m_next_held (mutex k m))) k in
    let k := upd_mutex m (set_next_held 0) k in
    let k := if bool_decide (m_owner (mutex k m) = Some p) then upd_mutex m (set_owner None) k else k in
    Some (m, k).

Fixpoint release_loop (fuel : nat) (p : nat) (k : kernel_t) : kernel_t :=
  match fuel with
  | O => k
  | S fuel =>
      match release_section p k with
      | None => k
      | Some (m, k) => release_loop fuel p (sched_wakeup m k)
      end
  end.

Definition kmutex_release_owned (p : nat) (k : kernel_t) : kernel_t :=
  release_loop (S (size (kmutexes k))) p k.
End Operations.
