(* ===== verification/KmutexFacts.v ===== *)
(** * KmutexFacts: correctness of the sleepable mutexes

    The ownership lists, mutual exclusion, release on process exit, and the
    absence of lost wake-ups under interleaved critical sections. *)

From S2P Require Import Prelude Config ProcState Sched SchedFacts Kmutex.

(** ** Projections of updates *)

Lemma mutex_upd k m f m' : mutex (upd_mutex m f k) m' = if decide (m' = m) then f (mutex k m) else mutex k m'.
Proof.
  unfold mutex, upd_mutex. cbn. destruct (decide (m' = m)) as [->|].
  - by rewrite lookup_total_insert_eq.
  - by rewrite lookup_total_insert_ne.
Qed.

Lemma proc_upd_mutex k m f i : proc (upd_mutex m f k) i = proc k i.
Proof. done. Qed.

Lemma mutex_upd_proc k i f m : mutex (upd_proc i f k) m = mutex k m.
Proof. done. Qed.

Lemma table_ok_upd_mutex k m f : table_ok k → table_ok (upd_mutex m f k).
Proof. done. Qed.

(** ** Ownership lists *)

(** From address [a] the links visit exactly the mutexes [l]. *)
Fixpoint held (k : kernel_t) (a : Z) (l : list Z) : Prop :=
  match l with
  | [] => a = 0
  | m :: l' => a = m ∧ m ≠ 0 ∧ held k (m_next_held (mutex k m)) l'
  end.

Lemma held_ext k k' a l : (∀ m, m ∈ l → m_next_held (mutex k' m) = m_next_held (mutex k m)) →
  held k a l → held k' a l.
Proof.
  revert a. induction l as [|m l IH]; intros a Hext; cbn [held]; [done|].
  intros (-> & Hm & Hl). split_and!; [done|done|]. rewrite Hext by (by left).
  apply IH; [|done]. intros m' Hm'. apply Hext. by right.
Qed.

Lemma held_app k a l m r : held k a (l ++ m :: r) → held k (m_next_held (mutex k m)) r ∧ m ≠ 0.
Proof.
  revert a. induction l as [|x l IH]; intros a; cbn [app held]; [by intros (_ & ? & ?)|].
  intros (_ & _ & Hl). by apply (IH _ Hl).
Qed.

(** Taking [m], the successor of [b], out of the list. *)
Lemma held_relink k a l b m r : NoDup (l ++ b :: m :: r) → held k a (l ++ b :: m :: r) →
  held (upd_mutex b (set_next_held (m_next_held (mutex k m))) k) a (l ++ b :: r).
Proof.
  revert a. induction l as [|x l IH]; intros a; cbn [app held].
  - rewrite !NoDup_cons, not_elem_of_cons. intros ((Hbm & Hbr) & Hmr & _) (-> & Hb & Hm & _ & Hr).
    split_and!; [done|done|]. rewrite mutex_upd. destruct (decide _); [cbn|done].
    apply (held_ext k); [|done]. intros y Hy. rewrite mutex_upd. destruct (decide _); [by subst|done].
  - rewrite NoDup_cons. intros (Hx & Hnd) (-> & Hx0 & Hl). split_and!; [done|done|].
    rewrite mutex_upd. destruct (decide (x = b)) as [->|]; [|by apply IH].
    destruct Hx. apply elem_of_app. right. by left.
Qed.

Lemma unlink_walk_eq fuel owner m prev cur k l r : held k cur (l ++ m :: r) → m ∉ l →
  (length l < fuel)%nat →
  unlink_walk fuel owner m prev cur k =
  upd_mutex m (set_next_held 0)
    (set_link owner (match last l with Some b => Some b | None => prev end) (m_next_held (mutex k m)) k).
Proof.
  revert fuel prev cur. induction l as [|x l IH]; intros [|fuel] prev cur Hh Hm Hf; cbn in Hf; try lia;
    cbn [app held] in Hh; destruct Hh as (-> & H0 & Hh); cbn [unlink_walk].
  - destruct (Z.eqb_spec m 0); [done|]. by rewrite Z.eqb_refl.
  - apply not_elem_of_cons in Hm as [Hmx Hm].
    destruct (Z.eqb_spec x 0); [done|]. destruct (Z.eqb_spec x m); [by subst|].
    rewrite (IH fuel (Some x) _ Hh Hm) by lia. rewrite last_cons. by destruct (last l).
Qed.

(** The bookkeeping invariant: each process lists the mutexes it owns. *)
Definition held_by (k : kernel_t) (i : nat) (l : list Z) : Prop :=
  held k (p_kmutex_held (proc k i)) l ∧ NoDup l ∧ ∀ m, m ∈ l ↔ m_owner (mutex k m) = Some i.

Record locks_ok (k : kernel_t) : Prop := {
  locks_table : table_ok k;
  locks_owner : ∀ m i, m_owner (mutex k m) = Some i → (i < PROC_MAX)%nat;
  locks_held : ∀ i, (i < PROC_MAX)%nat → ∃ l, held_by k i l
}.

Lemma held_by_length k i l : held_by k i l → (length l <= size (kmutexes k))%nat.
Proof.
  intros (_ & Hnd & Hl). assert (l ⊆+ elements (dom (kmutexes k))) as Hs.
  { apply NoDup_submseteq; [done|]. intros m Hm. apply Hl in Hm.
    apply elem_of_elements, elem_of_dom. unfold mutex in Hm. rewrite lookup_total_alt in Hm.
    by destruct (kmutexes k !! m). }
  apply submseteq_length in Hs. unfold size, set_size in Hs. cbn in Hs.
  by rewrite <- (size_dom (D:=gset Z)).
Qed.

(** Processes whose wait state is the same before and after. *)
Definition same_waits (k k' : kernel_t) : Prop :=
  ∀ j, p_state (proc k' j) = p_state (proc k j) ∧ p_wait_channel (proc k' j) = p_wait_channel (proc k j).

#[export] Instance same_waits_preorder : PreOrder same_waits.
Proof. split; [done|]. intros a b c H1 H2 j. destruct (H1 j), (H2 j). split; congruence. Qed.

Lemma same_waits_upd k i f : table_ok k → (i < PROC_MAX)%nat →
  (∀ p, p_state (f p) = p_state p ∧ p_wait_channel (f p) = p_wait_channel p) →
  same_waits k (upd_proc i f k).
Proof. intros Ht Hi Hf j. rewrite proc_upd by done. destruct (decide _); [subst; apply Hf|done]. Qed.

(** *** Acquiring *)

Lemma link_held_spec k cur m : locks_ok k → (cur < PROC_MAX)%nat → m ≠ 0 →
  m_owner (mutex k m) = None →
  let k' := kmutex_link_held cur m (upd_mutex m (set_owner (Some cur)) k) in
  locks_ok k' ∧ same_waits k k' ∧
  ∀ m', m_owner (mutex k' m') = if decide (m' = m) then Some cur else m_owner (mutex k m').
Proof.
  intros [Ht Ho Hh] Hc Hm Hfree k'.
  assert (∀ m', mutex k' m' =
    if decide (m' = m) then Kmutex (Some cur) (p_kmutex_held (proc k cur)) else mutex k m') as Hmx.
  { intros m'. subst k'. unfold kmutex_link_held. rewrite mutex_upd_proc, !mutex_upd.
    by destruct (decide (m' = m)), (decide (m = m)). }
  assert (∀ i, proc k' i = if decide (i = cur) then set_p_kmutex_held m (proc k i) else proc k i) as Hp.
  { intros i. subst k'. unfold kmutex_link_held. rewrite proc_upd by done.
    destruct (decide (i = cur)) as [->|]; done. }
  assert (∀ m', m_owner (mutex k' m') = if decide (m' = m) then Some cur else m_owner (mutex k m')) as Hown.
  { intros m'. rewrite Hmx. by destruct (decide (m' = m)). }
  split_and!; [|intros j; rewrite Hp; by destruct (decide (j = cur))|done].
  constructor.
  - by apply table_ok_upd.
  - intros m' i. rewrite Hown. destruct (decide (m' = m)); [by intros [= <-]|apply Ho].
  - intros i Hi. destruct (Hh i Hi) as (l & Hl & Hnd & Hml).
    assert (m ∉ l) as Hnot by (rewrite Hml; congruence).
    assert (held k' (p_kmutex_held (proc k i)) l) as Hl'.
    { apply (held_ext k); [|done]. intros y Hy. rewrite Hmx. by destruct (decide (y = m)) as [->|]. }
    destruct (decide (i = cur)) as [->|Hne].
    + exists (m :: l). split_and!.
      * rewrite Hp. destruct (decide _); [|done]. cbn [held p_kmutex_held set_p_kmutex_held].
        split_and!; [done|done|]. rewrite Hmx. by destruct (decide (m = m)).
      * by apply NoDup_cons.
      * intros y. rewrite elem_of_cons, Hown, Hml. destruct (decide (y = m)); naive_solver.
    + exists l. split_and!; [rewrite Hp; by destruct (decide (i = cur))|done|].
      intros y. rewrite Hown, Hml. destruct (decide (y = m)) as [->|]; [|done]. rewrite Hfree. naive_solver.
Qed.

(** *** Giving up *)

(** [k'] is [k] with [m], owned by [i], off its owner's list and free. *)
Definition dropped (k k' : kernel_t) (i : nat) (m : Z) : Prop :=
  locks_ok k' ∧ same_waits k k' ∧
  ∀ m', m_owner (mutex k' m') = if decide (m' = m) then None else m_owner (mutex k m').

Lemma dropped_intro k k' i m l r : locks_ok k → held_by k i (l ++ m :: r) → (i < PROC_MAX)%nat →
  table_ok k' → same_waits k k' →
  (∀ m', m_owner (mutex k' m') = if decide (m' = m) then None else m_owner (mutex k m')) →
  held k' (p_kmutex_held (proc k' i)) (l ++ r) →
  (∀ j, j ≠ i → p_kmutex_held (proc k' j) = p_kmutex_held (proc k j)) →
  (∀ m', m' ∉ l ++ m :: r → m_next_held (mutex k' m') = m_next_held (mutex k m')) →
  dropped k k' i m.
Proof.
  intros [Ht Ho Hh] (Hl & Hnd & Hml) Hi Ht' Hw Hown Hl' Hheads Hnext.
  assert (NoDup (l ++ r) ∧ m ∉ l ++ r) as [Hnd' Hmn].
  { apply NoDup_app in Hnd as (Hndl & Hdis & Hndr). apply NoDup_cons in Hndr as [Hmr Hndr].
    split.
    - apply NoDup_app. split_and!; [done| |done]. intros x Hx Hr. apply (Hdis x Hx). by right.
    - rewrite elem_of_app. intros [Hx|?]; [|done]. apply (Hdis m Hx). by left. }
  split_and!; [|done|done]. constructor; [done| |].
  - intros m' j. rewrite Hown. destruct (decide (m' = m)); [done|apply Ho].
  - intros j Hj. destruct (decide (j = i)) as [->|Hne].
    + exists (l ++ r). split_and!; [done|done|]. intros y. rewrite Hown.
      destruct (decide (y = m)) as [->|Hym]; [naive_solver|]. rewrite <- Hml, !elem_of_app, elem_of_cons.
      naive_solver.
    + destruct (Hh j Hj) as (lj & Hlj & Hndj & Hmlj). exists lj.
      assert (∀ y, y ∈ lj → y ∉ l ++ m :: r) as Hdis.
      { intros y Hy Hy'. apply Hml in Hy'. apply Hmlj in Hy. congruence. }
      split_and!; [|done|].
      * rewrite Hheads by done. apply (held_ext k); [|done]. intros y Hy. by apply Hnext, Hdis.
      * intros y. rewrite Hown. destruct (decide (y = m)) as [->|]; [|done].
        split; [|done]. intros Hy. destruct (Hdis m Hy). apply elem_of_app. right. by left.
Qed.

Lemma set_link_owner k i prev a m : m_owner (mutex (set_link i prev a k) m) = m_owner (mutex k m).
Proof.
  destruct prev as [b|]; [|done]. cbn. rewrite mutex_upd. destruct (decide _) as [->|]; [done|done].
Qed.

Lemma unlink_dropped k i m l r : locks_ok k → (i < PROC_MAX)%nat → held_by k i (l ++ m :: r) →
  dropped k (upd_mutex m (set_owner None) (kmutex_unlink_held i m k)) i m.
Proof.
  intros Hk Hi Hby. pose proof Hby as (Hl & Hnd & Hml). pose proof (held_by_length _ _ _ Hby) as Hlen.
  rewrite length_app in Hlen. cbn [length] in Hlen.
  pose proof (locks_table _ Hk) as Ht.
  assert (m ∉ l ∧ m ∉ r) as [Hml' Hmr'].
  { apply NoDup_app in Hnd as (_ & Hdis & Hndr). apply NoDup_cons in Hndr as [? _].
    split; [|done]. intros Hx. apply (Hdis m Hx). by left. }
  unfold kmutex_unlink_held. rewrite (unlink_walk_eq _ i m None _ k l r Hl Hml') by lia.
  assert (match last l with Some b => Some b | None => None end = last l) as -> by (by destruct (last l)).
  set (k1 := set_link i (last l) (m_next_held (mutex k m)) k).
  assert (table_ok k1 ∧ same_waits k k1) as [Ht1 Hw1].
  { subst k1. destruct (last l); [done|]. split; [by apply table_ok_upd|by apply same_waits_upd]. }
  apply (dropped_intro k _ i m l r); try done.
  - intros m'. rewrite !mutex_upd. destruct (decide (m' = m)) as [->|]; [done|]. apply set_link_owner.
  - destruct l as [|b l' _] using rev_ind.
    + cbn [app] in *. subst k1. cbn [last set_link]. rewrite !proc_upd_mutex, proc_upd_eq by done.
      cbn [p_kmutex_held set_p_kmutex_held]. apply (held_ext k); [|apply (held_app k _ [] m r Hl)].
      intros y Hy. rewrite !mutex_upd. by destruct (decide (y = m)) as [->|].
    + subst k1. rewrite last_snoc. cbn [set_link]. rewrite <- !app_assoc in *. cbn [app] in *.
      apply (held_ext (upd_mutex b (set_next_held (m_next_held (mutex k m))) k)).
      * intros y Hy. rewrite !(mutex_upd _ m). destruct (decide (y = m)) as [->|]; [|done].
        apply elem_of_app in Hy. rewrite elem_of_app in Hml'. destruct Hy as [?|Hy]; [tauto|].
        apply elem_of_cons in Hy as [->|?]; [|done]. destruct Hml'. right. by left.
      * by apply held_relink.
  - intros j Hj. subst k1. destruct (last l); [done|]. cbn [set_link].
    by rewrite !proc_upd_mutex, proc_upd_ne.
  - intros m' Hm'. rewrite !mutex_upd. destruct (decide (m' = m)) as [->|].
    { destruct Hm'. apply elem_of_app. right. by left. }
    subst k1. destruct (last l) as [b|] eqn:Hb; [|done]. cbn [set_link]. rewrite mutex_upd.
    destruct (decide (m' = b)) as [->|]; [|done]. apply last_Some in Hb as [l' ->].
    destruct Hm'. apply elem_of_app. left. apply elem_of_app. right. by left.
Qed.

Lemma owner_split k i m : locks_ok k → m_owner (mutex k m) = Some i →
  (i < PROC_MAX)%nat ∧ ∃ l r, held_by k i (l ++ m :: r).
Proof.
  intros Hk Ho. pose proof (locks_owner _ Hk _ _ Ho) as Hi. split; [done|].
  destruct (locks_held _ Hk i Hi) as (lm & Hby). pose proof Hby as (_ & _ & Hml).
  apply Hml in Ho. apply list_elem_of_split in Ho as (l & r & ->). by exists l, r.
Qed.

Lemma release_dropped k i m r : locks_ok k → (i < PROC_MAX)%nat → held_by k i (m :: r) →
  ∃ k', release_section i k = Some (m, k') ∧ dropped k k' i m ∧ held_by k' i r.
Proof.
  intros Hk Hi Hby. pose proof Hby as (Hl & Hnd & Hml). cbn [held] in Hl. destruct Hl as (Hhead & H0 & Hr).
  unfold release_section. rewrite Hhead. destruct (Z.eqb_spec m 0); [done|].
  assert (m_owner (mutex k m) = Some i) as Hown by (apply Hml; by left).
  pose proof (locks_table _ Hk) as Ht. apply NoDup_cons in Hnd as [Hmr Hndr].
  set (k1 := upd_proc i _ k).
  rewrite mutex_upd. destruct (decide (m = m)); [|done]. cbn [m_owner set_next_held].
  change (mutex k1 m) with (mutex k m). rewrite bool_decide_eq_true_2 by done.
  eexists. split; [done|]. set (k' := upd_mutex m _ _).
  assert (dropped k k' i m) as Hd.
  { apply (dropped_intro k k' i m [] r); try done.
    - by apply table_ok_upd.
    - by apply same_waits_upd.
    - intros m'. subst k'. rewrite !mutex_upd. by destruct (decide (m' = m)).
    - subst k' k1. rewrite !proc_upd_mutex, proc_upd_eq by done. apply (held_ext k); [|done].
      intros y Hy. cbn [app] in Hy. rewrite !mutex_upd. by destruct (decide (y = m)) as [->|].
    - intros j Hj. subst k' k1. by rewrite !proc_upd_mutex, proc_upd_ne.
    - intros m' Hm'. cbn [app] in Hm'. apply not_elem_of_cons in Hm' as [? _].
      subst k'. rewrite !mutex_upd. by destruct (decide (m' = m)). }
  split; [done|]. split_and!; [|done|].
  - subst k' k1. rewrite !proc_upd_mutex, proc_upd_eq by done. apply (held_ext k); [|done].
    intros y Hy. rewrite !mutex_upd. by destruct (decide (y = m)) as [->|].
  - destruct Hd as (_ & _ & Ho'). intros y. rewrite Ho'. destruct (decide (y = m)) as [->|Hne]; [done|].
    rewrite <- Hml, elem_of_cons. tauto.
Qed.

(** ** Wake-up and the locks *)

Lemma proc_wakeup ch k j : table_ok k → (j < PROC_MAX)%nat →
  proc (sched_wakeup ch k) j = wake_proc ch (proc k j).
Proof.
  intros Ht Hj. unfold sched_wakeup. set (k1 := set_proc_table _ k).
  transitivity (proc k1 j); [by destruct (existsb _ _)|by apply proc_map].
Qed.

Lemma mutex_wakeup ch k m : mutex (sched_wakeup ch k) m = mutex k m.
Proof. unfold sched_wakeup. by destruct (existsb _ _). Qed.

Lemma kmutexes_wakeup ch k : kmutexes (sched_wakeup ch k) = kmutexes k.
Proof. unfold sched_wakeup. by destruct (existsb _ _). Qed.

Lemma wake_proc_held ch p : p_kmutex_held (wake_proc ch p) = p_kmutex_held p.
Proof. unfold wake_proc. by destruct (waits_on ch p). Qed.

(** A process blocked on [ch]. *)
Definition blocked_on (k : kernel_t) (j : nat) (ch : Z) : Prop :=
  (j < PROC_MAX)%nat ∧ p_state (proc k j) = PROC_BLOCKED ∧ p_wait_channel (proc k j) = ch.

Lemma blocked_on_wakeup k j ch ch' : table_ok k →
  blocked_on (sched_wakeup ch k) j ch' ↔ blocked_on k j ch' ∧ ch' ≠ ch.
Proof.
  intros Ht. unfold blocked_on. destruct (decide (j < PROC_MAX)%nat); [|tauto].
  rewrite proc_wakeup by done. unfold wake_proc, waits_on.
  case_bool_decide as Hs; [|cbn [andb]; naive_solver]. cbn [andb].
  destruct (Z.eqb_spec (p_wait_channel (proc k j)) ch) as [He|Hne].
  - split; [by intros (_ & ? & _)|]. intros ((_ & _ & Hc) & Hne). congruence.
  - split; [|tauto]. intros (? & ? & Hc). split; [done|congruence].
Qed.

Lemma locks_ok_wakeup ch k : locks_ok k → locks_ok (sched_wakeup ch k).
Proof.
  intros [Ht Ho Hh].
  assert (∀ i, p_kmutex_held (proc (sched_wakeup ch k) i) = p_kmutex_held (proc k i)) as Hheads.
  { intros i. unfold sched_wakeup, proc. destruct (existsb _ _); cbn;
      rewrite !list_lookup_total_alt, list_lookup_fmap; destruct (proc_table k !! i); try done;
      apply wake_proc_held. }
  constructor.
  - unfold sched_wakeup, table_ok in *. destruct (existsb _ _); cbn; by rewrite length_map.
  - intros m i. rewrite mutex_wakeup. apply Ho.
  - intros i Hi. destruct (Hh i Hi) as (l & Hl & Hnd & Hml). exists l. split_and!; [|done|].
    + rewrite Hheads. apply (held_ext k); [|done]. intros y _. by rewrite mutex_wakeup.
    + intros y. by rewrite mutex_wakeup.
Qed.

Lemma same_waits_blocked k k' j ch : same_waits k k' → blocked_on k' j ch ↔ blocked_on k j ch.
Proof. intros Hw. unfold blocked_on. destruct (Hw j) as [-> ->]. done. Qed.

Lemma dropped_owner k k' i m : dropped k k' i m →
  ∀ m', m_owner (mutex k' m') = if decide (m' = m) then None else m_owner (mutex k m').
Proof. intros (_ & _ & ?). done. Qed.

(** Running the release loop over the whole list. *)
Lemma release_loop_spec k i l fuel : locks_ok k → (i < PROC_MAX)%nat → held_by k i l →
  (length l < fuel)%nat →
  let k' := release_loop fuel i k in
  locks_ok k' ∧
  (∀ m, m_owner (mutex k' m) = if decide (m ∈ l) then None else m_owner (mutex k m)) ∧
  (∀ j ch, blocked_on k' j ch ↔ blocked_on k j ch ∧ ch ∉ l).
Proof.
  revert k l. induction fuel as [|fuel IH]; intros k l Hk Hi Hby Hlen; [lia|].
  destruct l as [|m l]; cbn [release_loop].
  - destruct Hby as (Hh & _ & _). cbn in Hh. unfold release_section. rewrite Hh. cbn.
    pose proof (λ x, not_elem_of_nil (A:=Z) x) as Hn.
    split_and!; [done| |intros j ch; specialize (Hn ch); tauto].
    intros m. destruct (decide (m ∈ [])) as [Hin|]; [by destruct (Hn m)|done].
  - destruct (release_dropped k i m l Hk Hi Hby) as (k1 & -> & (Hk1 & Hw & Ho1) & (Hh1 & Hnd1 & Hml1)).
    cbn [length] in Hlen.
    assert (held_by (sched_wakeup m k1) i l) as Hby2.
    { split_and!; [|done|intros y; by rewrite mutex_wakeup].
      rewrite proc_wakeup, wake_proc_held by (done || apply Hk1).
      apply (held_ext k1); [|done]. intros y _. by rewrite mutex_wakeup. }
    destruct (IH (sched_wakeup m k1) l (locks_ok_wakeup m k1 Hk1) Hi Hby2 ltac:(lia)) as (A & B & C).
    split_and!; [done| |].
    + intros y. rewrite B, mutex_wakeup, Ho1.
      destruct (decide (y ∈ l)), (decide (y ∈ m :: l)) as [Hin|Hin], (decide (y = m)); try done;
        rewrite elem_of_cons in Hin; tauto.
    + intros j ch. rewrite C, blocked_on_wakeup, (same_waits_blocked k k1) by (done || apply Hk1).
      rewrite not_elem_of_cons. tauto.
Qed.

(** ** Interleaved critical sections *)

(** A state: the kernel and the mutexes whose unlock has left its critical
    section but has not yet called [sched_wakeup].  [L] is the set of mutex
    addresses: nothing else in the kernel blocks on them. *)
Inductive lock_step (L : gset Z) : kernel_t * gset Z → kernel_t * gset Z → Prop :=
| ls_lock cid irq m k k' P : m ∈ L → kmutex_lock cid irq m k = Ok k' →
    lock_step L (k, P) (k', P)
| ls_lock_blocks cid irq m k k' P : m ∈ L → kmutex_lock cid irq m k = Again k' →
    lock_step L (k, P) (k', P)
| ls_try_lock cid irq m k k' r P : m ∈ L → kmutex_try_lock cid irq m k = Ok (r, k') →
    lock_step L (k, P) (k', P)
| ls_unlock cid irq m k k' P : m ∈ L → kmutex_unlock_section cid irq m k = Ok k' →
    lock_step L (k, P) (k', P ∪ {[ m ]})
| ls_release p m k k' P : (p < PROC_MAX)%nat → release_section p k = Some (m, k') →
    lock_step L (k, P) (k', P ∪ {[ m ]})
| ls_wakeup m k P : m ∈ P → lock_step L (k, P) (sched_wakeup m k, P ∖ {[ m ]})
| ls_other ch k P : ch ∉ L → lock_step L (k, P) (sched_wakeup ch k, P)
| ls_block cid ch k k' P : ch ∉ L → sched_block_current cid ch k = Some k' →
    lock_step L (k, P) (k', P)
| ls_switch cid k k' P : sched_switch_core cid k = Some k' → lock_step L (k, P) (k', P).

(** Everyone asleep on a mutex will be woken: somebody owns it and will unlock
    it, or its wake-up is on the way. *)
Definition wakeup_due (L : gset Z) (st : kernel_t * gset Z) : Prop :=
  ∀ j m, m ∈ L → blocked_on st.1 j m → is_Some (m_owner (mutex st.1 m)) ∨ m ∈ st.2.

Record lock_inv (L : gset Z) (st : kernel_t * gset Z) : Prop := {
  li_locks : locks_ok st.1;
  li_cores : cores_ok st.1;
  li_wakeup : wakeup_due L st
}.

Lemma current_in_table k cid irq cur : cores_ok k →
  kmutex_require_process_context cid irq k = Some cur → current k cid = Some cur ∧ (cur < PROC_MAX)%nat.
Proof.
  intros Hk. unfold kmutex_require_process_context. destruct irq; [done|]. intros Hc.
  split; [done|]. by apply (cores_mark _ Hk _ _ Hc).
Qed.

Lemma same_marks_cores_eq k k' : current_core k' = current_core k → length (proc_table k') = length (proc_table k) →
  (∀ i, p_running_on_core (proc k' i) = p_running_on_core (proc k i)) → cores_ok k → cores_ok k'.
Proof. intros Hc Hl Hm. apply same_marks_cores. by split_and!. Qed.

Lemma cores_ok_upd_mutex m f k : cores_ok k → cores_ok (upd_mutex m f k).
Proof. apply same_marks_cores. done. Qed.

Lemma cores_ok_held i a k : cores_ok k → cores_ok (upd_proc i (set_p_kmutex_held a) k).
Proof. apply same_marks_cores. by apply same_marks_upd. Qed.

Lemma cores_ok_unlink fuel owner m prev cur k : cores_ok k → cores_ok (unlink_walk fuel owner m prev cur k).
Proof.
  revert prev cur. induction fuel as [|fuel IH]; intros prev cur Hk; cbn [unlink_walk]; [done|].
  destruct (cur =? 0); [done|]. destruct (cur =? m); [|by apply IH].
  apply cores_ok_upd_mutex. destruct prev; [by apply cores_ok_upd_mutex|by apply cores_ok_held].
Qed.

(** A transition that frees at most [freed] mutexes and blocks nobody new. *)
Lemma wakeup_due_mono L k k' P P' : wakeup_due L (k, P) → P ⊆ P' →
  (∀ j m, m ∈ L → blocked_on k' j m → blocked_on k j m) →
  (∀ m, is_Some (m_owner (mutex k m)) → is_Some (m_owner (mutex k' m)) ∨ m ∈ P') →
  wakeup_due L (k', P').
Proof.
  intros Hd HP Hb Ho j m Hm Hj. destruct (Hd j m Hm (Hb j m Hm Hj)) as [H|H]; cbn in *.
  - by apply Ho.
  - right. by apply HP.
Qed.

Lemma acquire_inv L k P cur m : lock_inv L (k, P) → (cur < PROC_MAX)%nat → m ≠ 0 →
  m_owner (mutex k m) = None →
  lock_inv L (kmutex_link_held cur m (upd_mutex m (set_owner (Some cur)) k), P).
Proof.
  intros [Hl Hc Hd] Hcur H0 Hf. destruct (link_held_spec k cur m Hl Hcur H0 Hf) as (Hl' & Hw & Ho).
  constructor; [done| |].
  - cbn in *. unfold kmutex_link_held. by apply cores_ok_held, cores_ok_upd_mutex, cores_ok_upd_mutex.
  - eapply wakeup_due_mono; [exact Hd|done| |].
    + intros j m' _. by rewrite (same_waits_blocked k).
    + intros m' Hm'. left. rewrite Ho. by destruct (decide (m' = m)).
Qed.

Lemma dropped_inv L k k' P i m : lock_inv L (k, P) → dropped k k' i m → cores_ok k' →
  lock_inv L (k', P ∪ {[ m ]}).
Proof.
  intros [_ _ Hd] (Hl' & Hw & Ho) Hc'. constructor; [done|done|].
  eapply wakeup_due_mono; [exact Hd|set_solver| |].
  - intros j m' _. by rewrite (same_waits_blocked k).
  - intros m' Hm'. rewrite Ho. destruct (decide (m' = m)) as [->|]; [right; set_solver|by left].
Qed.

Lemma lock_body_inv L k P cid irq m : lock_inv L (k, P) → m ∈ L →
  match kmutex_lock cid irq m k with
  | Ok k' | Again k' => lock_inv L (k', P)
  | Panic => True
  end.
Proof.
  intros Hi HmL. pose proof Hi as [Hl Hc Hd]. unfold kmutex_lock.
  destruct (Z.eqb_spec m 0); [done|].
  destruct (kmutex_require_process_context cid irq k) as [cur|] eqn:Hcur; [|done].
  apply (current_in_table k _ _ _ Hc) in Hcur as [Hcur Hlt].
  destruct (m_owner (mutex k m)) as [o|] eqn:Hown; [|by apply acquire_inv].
  case_bool_decide; [done|]. set (k' := upd_proc cur _ k).
  assert (same_marks k k') as Hmk by (by apply same_marks_upd).
  constructor; cbn [fst] in *.
  - destruct Hl as [Ht Ho Hh]. constructor; [by apply table_ok_upd|done|].
    intros i Hi'. destruct (Hh i Hi') as (l & Hll & Hnd & Hml). exists l. split_and!; [|done|done].
    apply (held_ext k); [done|]. subst k'. rewrite proc_upd by done.
    by destruct (decide (i = cur)) as [->|].
  - by apply (same_marks_cores k).
  - intros j m' Hm' (Hj & Hs & Hch). cbn [fst snd] in *. subst k'.
    rewrite proc_upd in Hs, Hch by (done || apply Hl). destruct (decide (j = cur)) as [->|].
    + cbn in Hch. subst m'. left. by rewrite mutex_upd_proc, Hown.
    + apply (Hd j m' Hm'). by split.
Qed.

Lemma kernel_same_inv L k k' P : lock_inv L (k, P) → cores_ok k' → same_waits k k' →
  kmutexes k' = kmutexes k → (∀ i, p_kmutex_held (proc k' i) = p_kmutex_held (proc k i)) →
  lock_inv L (k', P).
Proof.
  intros [[Ht Ho Hh] Hc Hd] Hc' Hw Hmx Hheads. cbn [fst] in *.
  assert (∀ m, mutex k' m = mutex k m) as Hm by (intros m; unfold mutex; by rewrite Hmx).
  constructor; [|done|].
  - constructor; [apply Hc'|intros m i; rewrite Hm; apply Ho|].
    intros i Hi. destruct (Hh i Hi) as (l & Hl & Hnd & Hml). exists l. split_and!; [|done|].
    + cbn. rewrite Hheads. apply (held_ext k); [|done]. intros y _. by rewrite Hm.
    + intros y. cbn. rewrite Hm. apply Hml.
  - eapply wakeup_due_mono; [exact Hd|done| |].
    + intros j m _. by rewrite (same_waits_blocked k).
    + intros m. rewrite Hm. by left.
Qed.

Lemma wakeup_inv L k P m : lock_inv L (k, P) → lock_inv L (sched_wakeup m k, P ∖ {[ m ]}).
Proof.
  intros [Hl Hc Hd]. cbn [fst snd] in *. constructor; cbn [fst snd].
  - by apply locks_ok_wakeup.
  - eapply same_marks_cores; [apply same_marks_wakeup|done].
  - intros j m' Hm' Hb. cbn [fst snd] in *. rewrite mutex_wakeup.
    apply blocked_on_wakeup in Hb as [Hb Hne]; [|apply Hl].
    destruct (Hd j m' Hm' Hb) as [?|?]; [by left|right; cbn in *; set_solver].
Qed.

Lemma try_lock_inv L k P cid irq m r k' : lock_inv L (k, P) →
  kmutex_try_lock cid irq m k = Ok (r, k') → lock_inv L (k', P).
Proof.
  intros Hi He. unfold kmutex_try_lock in He. destruct (Z.eqb_spec m 0); [done|].
  destruct (kmutex_require_process_context cid irq k) as [cur|] eqn:Hcur; [|done].
  apply (current_in_table k _ _ _ (li_cores _ _ Hi)) in Hcur as [_ Hlt].
  destruct (m_owner (mutex k m)) eqn:Hown; [case_bool_decide; by simplify_eq|].
  simplify_eq. by apply acquire_inv.
Qed.

Lemma unlock_inv L k P cid irq m k' : lock_inv L (k, P) →
  kmutex_unlock_section cid irq m k = Ok k' → lock_inv L (k', P ∪ {[ m ]}).
Proof.
  intros Hi He. unfold kmutex_unlock_section in He. destruct (m =? 0); [done|].
  destruct (kmutex_require_process_context cid irq k) as [cur|]; [|done].
  case_bool_decide as Hown; [|done]. cbn [negb] in He. injection He as <-.
  destruct (owner_split k cur m (li_locks _ _ Hi) Hown) as (Hlt & l & r & Hby).
  eapply dropped_inv; [done|by eapply unlink_dropped; [apply Hi|..]|].
  apply cores_ok_upd_mutex, cores_ok_unlink, Hi.
Qed.

Lemma release_inv L k P p m k' : lock_inv L (k, P) → (p < PROC_MAX)%nat →
  release_section p k = Some (m, k') → lock_inv L (k', P ∪ {[ m ]}).
Proof.
  intros Hi Hp He. destruct (locks_held _ (li_locks _ _ Hi) p Hp) as (l & Hby). destruct l as [|x l].
  { destruct Hby as (Hh & _). cbn in Hh. unfold release_section in He. by rewrite Hh in He. }
  destruct (release_dropped k p x l (li_locks _ _ Hi) Hp Hby) as (k1 & He' & Hd & _).
  rewrite He in He'. injection He' as -> ->. eapply dropped_inv; [done|done|].
  unfold release_section in He. destruct (_ =? 0); [done|]. injection He as <- <-.
  case_bool_decide; repeat apply cores_ok_upd_mutex; apply cores_ok_held, Hi.
Qed.

Lemma block_inv L k P cid ch k' : lock_inv L (k, P) → ch ∉ L →
  sched_block_current cid ch k = Some k' → lock_inv L (k', P).
Proof.
  intros Hi Hch He. unfold sched_block_current in He.
  destruct (current k cid) as [cur|] eqn:Hcur; [|done].
  cbn in He. injection He as <-. destruct Hi as [[Ht Ho Hh] Hc Hd]. cbn [fst] in *.
  destruct (cores_mark _ Hc _ _ Hcur) as [Hlt _]. constructor; cbn [fst].
  - constructor; [by apply table_ok_upd|done|]. intros i Hi'.
    destruct (Hh i Hi') as (l & Hll & Hnd & Hml). exists l. split_and!; [|done|done].
    apply (held_ext k); [done|]. rewrite proc_upd by done. by destruct (decide (i = cur)) as [->|].
  - eapply same_marks_cores; [by apply same_marks_upd|done].
  - intros j m Hm (Hj & Hs & Hw). cbn [fst snd] in *. rewrite proc_upd in Hs, Hw by done.
    destruct (decide (j = cur)) as [->|]; [cbn in Hw; by subst|]. apply (Hd j m Hm). by split.
Qed.

Lemma switch_inv L k P cid k' : lock_inv L (k, P) → sched_switch_core cid k = Some k' →
  lock_inv L (k', P).
Proof.
  intros Hi He. pose proof (li_cores _ _ Hi) as Hc. cbn [fst] in Hc.
  pose proof (sched_switch_cores cid k k' Hc He) as Hc'.
  unfold sched_switch_core in He. destruct (current k cid) as [idx|] eqn:Hcur;
    [|unfold sched_next in He; by rewrite Hcur in He].
  rewrite (sched_next_pick cid k idx Hcur) in He. cbn in He. injection He as <-.
  destruct (cores_mark _ Hc _ _ Hcur) as [Hidx _].
  case_bool_decide as Hq; [by apply (kernel_same_inv L k)|].
  destruct (pick_available k idx Hidx Hq) as (Hql & _). pose proof (cores_table _ Hc) as Ht.
  set (k1 := upd_proc (pick k idx) _ _).
  assert (∀ j, p_state (proc k1 j) = p_state (proc k j) ∧
    p_wait_channel (proc k1 j) = p_wait_channel (proc k j) ∧
    p_kmutex_held (proc k1 j) = p_kmutex_held (proc k j)) as Hf.
  { intros j. subst k1. rewrite !proc_upd by (done || by apply table_ok_upd).
    destruct (decide (j = pick k idx)) as [->|].
    - by destruct (decide (pick k idx = idx)).
    - by destruct (decide (j = idx)) as [->|]. }
  apply (kernel_same_inv L k); [done|done| |done|]; intros j; destruct (Hf j) as (? & ? & ?); done.
Qed.

Lemma lock_step_inv L st st' : lock_inv L st → lock_step L st st' → lock_inv L st'.
Proof.
  intros Hi Hs. destruct Hs as [cid irq m k k' P Hm He|cid irq m k k' P Hm He|cid irq m k k' r P Hm He|
    cid irq m k k' P Hm He|p m k k' P Hp He|m k P Hm|ch k P Hch|cid ch k k' P Hch He|cid k k' P He].
  - pose proof (lock_body_inv L k P cid irq m Hi Hm) as H. by rewrite He in H.
  - pose proof (lock_body_inv L k P cid irq m Hi Hm) as H. by rewrite He in H.
  - by eapply try_lock_inv.
  - by eapply unlock_inv.
  - by eapply release_inv.
  - by apply wakeup_inv.
  - pose proof (wakeup_inv L k P ch Hi) as [Hl Hc Hd]. constructor; [done|done|].
    intros j m Hm Hb. destruct (Hd j m Hm Hb) as [?|Hx]; [by left|right]. cbn in *. set_solver.
  - by eapply block_inv.
  - by eapply switch_inv.
Qed.

(** ** Properties *)

(** C6. No wake-up is lost: start from any consistent state and let the cores
    interleave the critical sections of lock, try-lock, unlock and exit with
    switches, other blocking and other wake-ups in any order.  Whenever no
    unlock is half-way, a process asleep on a mutex sleeps on one that some
    process owns and records in its list; and when the owner unlocks it, the
    mutex becomes free, nobody is left asleep on it, and everything stays
    consistent. *)
Theorem kmutex_no_lost_wakeup L k k' : lock_inv L (k, ∅) → rtc (lock_step L) (k, ∅) (k', ∅) →
  (∀ j m, m ∈ L → blocked_on k' j m →
     ∃ i l, (i < PROC_MAX)%nat ∧ m_owner (mutex k' m) = Some i ∧ held_by k' i l ∧ m ∈ l) ∧
  (∀ cid m i, m ≠ 0 → current k' cid = Some i → m_owner (mutex k' m) = Some i →
     ∃ k2, kmutex_unlock cid false m k' = Ok k2 ∧ lock_inv L (k2, ∅) ∧
       m_owner (mutex k2 m) = None ∧ (∀ j, ¬ blocked_on k2 j m) ∧
       ∀ m', m' ≠ m → m_owner (mutex k2 m') = m_owner (mutex k' m')).
Proof.
  intros Hi Hr. assert (lock_inv L (k', ∅)) as Hi'.
  { revert Hi. induction Hr as [|x y z Hxy _ IH]; [done|]. intros. by apply IH, (lock_step_inv L x). }
  clear Hi Hr. split.
  - intros j m Hm Hb. destruct (li_wakeup _ _ Hi' j m Hm Hb) as [[i Ho]|Hx]; cbn [fst snd] in *;
      [|by apply not_elem_of_empty in Hx].
    destruct (owner_split k' i m (li_locks _ _ Hi') Ho) as (Hlt & l & r & Hby).
    exists i, (l ++ m :: r). split_and!; [done..|]. apply elem_of_app. right. by left.
  - intros cid m i H0 Hc Ho. unfold kmutex_unlock.
    destruct (kmutex_unlock_section cid false m k') as [k1| |] eqn:He;
      pose proof He as He'; unfold kmutex_unlock_section in He';
      (destruct (Z.eqb_spec m 0); [done|]); cbn [kmutex_require_process_context] in He';
      unfold kmutex_require_process_context in He'; rewrite Hc, Ho in He';
      rewrite bool_decide_eq_true_2 in He' by done; cbn [negb] in He'; try done.
    eexists. split; [done|]. pose proof (unlock_inv L k' ∅ cid false m k1 Hi' He) as Hi1.
    pose proof (wakeup_inv L k1 _ m Hi1) as Hi2. injection He' as <-.
    destruct (owner_split k' i m (li_locks _ _ Hi') Ho) as (Hlt & l & r & Hby).
    destruct (unlink_dropped k' i m l r (li_locks _ _ Hi') Hlt Hby) as (_ & _ & Ho1).
    split_and!.
    + by replace ((∅ ∪ {[m]}) ∖ {[m]}) with (∅ : gset Z) in Hi2 by set_solver.
    + rewrite mutex_wakeup, Ho1. by destruct (decide (m = m)).
    + intros j Hb. apply blocked_on_wakeup in Hb as [_ ?]; [done|apply (li_locks _ _ Hi1)].
    + intros m' Hne. rewrite mutex_wakeup, Ho1. by destruct (decide (m' = m)).
Qed.

Lemma demo_lock_inv : lock_inv {[ 8192 ]} (demo_kernel, ∅).
Proof.
  constructor; [|apply demo_cores|].
  - constructor; [done|done|]. intros i Hi. exists []. split_and!; [|constructor|].
    + unfold PROC_MAX in Hi. by do 8 (destruct i as [|i]; [reflexivity|]); lia.
    + intros m. split; [intros Hm; by apply not_elem_of_nil in Hm|done].
  - intros j m Hm (Hj & Hs & Hw). apply elem_of_singleton in Hm as ->. cbn [fst] in *.
    unfold PROC_MAX in Hj. by do 8 (destruct j as [|j]; [done|]); lia.
Qed.

Definition demo_locked : kernel_t :=
  match kmutex_lock 0 false 8192 demo_kernel with Ok k => k | _ => demo_kernel end.

Lemma kmutex_no_lost_wakeup_witness :
  (∀ j m, m ∈ ({[ 8192 ]} : gset Z) → blocked_on demo_locked j m →
     ∃ i l, (i < PROC_MAX)%nat ∧ m_owner (mutex demo_locked m) = Some i ∧
       held_by demo_locked i l ∧ m ∈ l) ∧
  (∀ cid m i, m ≠ 0 → current demo_locked cid = Some i → m_owner (mutex demo_locked m) = Some i →
     ∃ k2, kmutex_unlock cid false m demo_locked = Ok k2 ∧ lock_inv {[ 8192 ]} (k2, ∅) ∧
       m_owner (mutex k2 m) = None ∧ (∀ j, ¬ blocked_on k2 j m) ∧
       ∀ m', m' ≠ m → m_owner (mutex k2 m') = m_owner (mutex demo_locked m')).
Proof.
  apply (kmutex_no_lost_wakeup {[ 8192 ]} demo_kernel demo_locked); [apply demo_lock_inv|].
  apply rtc_once. apply (ls_lock _ 0 false 8192); [by apply elem_of_singleton|reflexivity].
Defined.

(** A process that dies while holding mutexes gives every one of them up:
    [kmutex_release_owned] terminates with no mutex owned by the process, no
    other mutex touched, nobody asleep on the released ones and every other
    sleeper left asleep. *)
Theorem kmutex_release_owned_correct k p : locks_ok k → (p < PROC_MAX)%nat →
  let k' := kmutex_release_owned p k in
  locks_ok k' ∧
  (∀ m, m_owner (mutex k' m) =
     if decide (m_owner (mutex k m) = Some p) then None else m_owner (mutex k m)) ∧
  (∀ j ch, blocked_on k' j ch ↔ blocked_on k j ch ∧ m_owner (mutex k ch) ≠ Some p).
Proof.
  intros Hk Hp. destruct (locks_held _ Hk p Hp) as (l & Hby). pose proof Hby as (_ & _ & Hml).
  pose proof (held_by_length _ _ _ Hby).
  destruct (release_loop_spec k p l (S (size (kmutexes k))) Hk Hp Hby ltac:(lia)) as (A & B & C).
  split_and!; [done| |].
  - intros m. fold (kmutex_release_owned p k) in B. rewrite B.
    destruct (decide (m ∈ l)) as [Hm|Hm]; rewrite Hml in Hm; by destruct (decide _).
  - intros j ch. fold (kmutex_release_owned p k) in C. by rewrite C, Hml.
Qed.

Lemma kmutex_release_owned_correct_witness :
  let k' := kmutex_release_owned 0 demo_locked in
  locks_ok k' ∧
  (∀ m, m_owner (mutex k' m) =
     if decide (m_owner (mutex demo_locked m) = Some 0%nat) then None
     else m_owner (mutex demo_locked m)) ∧
  (∀ j ch, blocked_on k' j ch ↔
     blocked_on demo_locked j ch ∧ m_owner (mutex demo_locked ch) ≠ Some 0%nat).
Proof.
  apply kmutex_release_owned_correct; [|unfold PROC_MAX; lia].
  exact (li_locks _ _ (lock_body_inv _ _ _ 0 false 8192 demo_lock_inv ltac:(set_solver))).
Defined.
