(* ===== verification/Proc.v ===== *)
(** * Proc: PCB lifecycle and user-page tracking (src/kernel/core/proc/proc.c, kstack.c)

    Slot allocation and release, the table of user pages of a process, and the
    carving of the kernel-stack region.  A PCB pointer that may be NULL is an
    [option]; [ia16] is the architecture switch of the page-release loops. *)

From S2P Require Import Prelude Config PagePool PagePoolFacts Page Region PageFacts.
From S2P Require Import ProcState Sched SchedFacts Kmutex KmutexFacts.

(** ** Kernel stacks: kstack.c *)

Section Kstack.
Context (kstack_region_base PROC_KSTACK_SIZE PROC_KSTACK_IDLE_SIZE PROC_KSTACK_GUARD_BYTES : Z).
Context (sizeof_uintptr : Z).

Definition kstack_slot_true_top (slot_idx : Z) : Z :=
  kstack_region_base + PROC_KSTACK_IDLE_SIZE + slot_idx * PROC_KSTACK_SIZE.

Definition kstack_slot_true_base (slot_idx : Z) : Z :=
  if slot_idx =? 0 then kstack_region_base
  else kstack_region_base + PROC_KSTACK_IDLE_SIZE + (slot_idx - 1) * PROC_KSTACK_SIZE.

Definition kstack_slot_payload_base (slot_idx : Z) : Z :=
  kstack_slot_true_base slot_idx + sizeof_uintptr.

Definition kstack_slot_payload_top (slot_idx : Z) : Z :=
  kstack_slot_true_top slot_idx - PROC_KSTACK_GUARD_BYTES.
End Kstack.

Section Operations.
Context {cfg : PageConfig} {tgt : PageTarget} {mh : MemHelper}.
(** [proc_kstack_init_slot]: the initial [kernel_sp] of a slot. *)
Context (kernel_sp_of : Z → Z) (ia16 : bool).

Definition DEFAULT_UMASK : Z := 18.

(** ** Slots *)

(** The fields [proc_init] and [proc_alloc] set in common after [memset]. *)
Definition proc_blank (i : nat) : pcb_t :=
  let p := set_p_stack_page_id PAGE_ID_INVALID pcb_zero in
  let p := set_p_kernel_sp (kernel_sp_of (Z.of_nat i)) p in
  let p := set_p_clear_child_tid (PAGE_ID_INVALID, 0) p in
  set_p_user_pages (replicate USER_PAGES_MAX PAGE_ID_INVALID) p.

Definition proc_init (k : kernel_t) : kernel_t :=
  let k := set_proc_table (map proc_blank (seq 0 PROC_MAX)) k in
  let k := upd_proc 0 (λ p, set_p_is_idle true (set_p_ticks_remaining PROC_DEFAULT_TICKS
             (set_p_state PROC_RUNNABLE (set_p_ppid 0 (set_p_pid 0 p))))) k in
  set_current_core (<[0%nat := Some 0%nat]> (current_core k)) k.

(** The PCB [proc_alloc] hands out: its state is still [PROC_FREE]. *)
Definition proc_fresh (k : kernel_t) (i : nat) : pcb_t :=
  let p := set_p_umask_val DEFAULT_UMASK (set_p_pid (next_pid k) (proc_blank i)) in
  let p := set_p_start_time (sched_get_ticks k) (set_p_running_on_core (-1) p) in
  set_p_fd_map (replicate FD_MAX FD_DESC_NONE) p.

Fixpoint scan_free (k : kernel_t) (n i : nat) : option nat :=
  match n with
  | O => None
  | S n' => if bool_decide (p_state (proc k i) = PROC_FREE) then Some i else scan_free k n' (S i)
  end.

Definition proc_alloc (k : kernel_t) : option nat * kernel_t :=
  match scan_free k (PROC_MAX - 1) 1 with
  | None => (None, k)
  | Some i =>
      let p := proc_fresh k i in
      (Some i, set_next_pid (next_pid k + 1) (upd_proc i (λ _, p) k))
  end.

Definition proc_free (p : option nat) (k : kernel_t) : kernel_t :=
  match p with
  | None => k
  | Some i => upd_proc i (set_p_state PROC_FREE) (kmutex_release_owned i k)
  end.

(** ** Tracking of user pages *)

(** [for (i = 0; i < n; i++) user_pages[start + i] = base + (page_id_t)i] *)
Fixpoint track_loop (n : nat) (i start : nat) (base : Z) (pages : list Z) : list Z :=
  match n with
  | O => pages
  | S n' =>
      track_loop n' (S i) start base
        (<[(start + i)%nat := to_page_id (base + to_page_id (Z.of_nat i))]> pages)
  end.

Definition proc_track_page_range (p : option pcb_t) (start_slot base_page_id n_pages : Z)
    : Z * option pcb_t :=
  match p with
  | None => (0, None)
  | Some q =>
      if (base_page_id =? PAGE_ID_INVALID) || (n_pages =? 0) then (0, p)
      else if (Z.of_nat USER_PAGES_MAX <? start_slot)
              || (Z.of_nat USER_PAGES_MAX - start_slot <? n_pages) then (- ENOMEM, p)
      else (n_pages, Some (set_p_user_pages
             (track_loop (Z.to_nat n_pages) 0 (Z.to_nat start_slot) base_page_id (p_user_pages q)) q))
  end.

Definition proc_track_page (p : option pcb_t) (slot page_id : Z) : Z * option pcb_t :=
  match p with
  | None => (0, None)
  | Some q =>
      if page_id =? PAGE_ID_INVALID then (0, p)
      else if Z.of_nat USER_PAGES_MAX <=? slot then (- ENOMEM, p)
      else (0, Some (set_p_user_pages (<[Z.to_nat slot := page_id]> (p_user_pages q)) q))
  end.

Fixpoint first_backed (pages : list Z) (n i : nat) : nat :=
  match n with
  | O => USER_PAGES_MAX
  | S n' => if pages !!! i =? PAGE_ID_INVALID then first_backed pages n' (S i) else i
  end.

Definition proc_first_page_backed_slot (p : option pcb_t) : nat :=
  match p with
  | None => USER_PAGES_MAX
  | Some q => first_backed (p_user_pages q) USER_PAGES_MAX 0
  end.

(** [for (i = USER_PAGES_MAX; i > 0; i--)] over [user_pages[i - 1]] *)
Fixpoint last_backed (pages : list Z) (i : nat) : nat :=
  match i with
  | O => USER_PAGES_MAX
  | S i' => if pages !!! i' =? PAGE_ID_INVALID then last_backed pages i' else i'
  end.

Definition proc_last_page_backed_slot (p : option pcb_t) : nat :=
  match p with
  | None => USER_PAGES_MAX
  | Some q => last_backed (p_user_pages q) USER_PAGES_MAX
  end.

Definition page_at_slot (p : option pcb_t) (slot : nat) : Z :=
  match p with
  | Some q => if (USER_PAGES_MAX <=? slot)%nat then PAGE_ID_INVALID else p_user_pages q !!! slot
  | None => PAGE_ID_INVALID
  end.

Definition proc_page_backed_base (p : option pcb_t) : Z :=
  page_at_slot p (proc_first_page_backed_slot p).

Definition proc_last_page_backed_base (p : option pcb_t) : Z :=
  page_at_slot p (proc_last_page_backed_slot p).

Fixpoint count_backed (pages : list Z) (n slot : nat) : Z :=
  match n with
  | O => 0
  | S n' => if pages !!! slot =? PAGE_ID_INVALID then 0 else 1 + count_backed pages n' (S slot)
  end.

Definition proc_page_backed_count (p : option pcb_t) : Z :=
  match p with
  | None => 0
  | Some q =>
      let slot := proc_first_page_backed_slot p in
      count_backed (p_user_pages q) (USER_PAGES_MAX - slot) slot
  end.

Definition proc_tracked_page_count (p : option pcb_t) : Z :=
  match p with
  | None => 0
  | Some q => Z.of_nat (length (filter (λ id, id ≠ PAGE_ID_INVALID) (p_user_pages q)))
  end.

Definition proc_page_backed_contains (p : option pcb_t) (addr : Z) : bool :=
  match p with
  | None => false
  | Some q =>
      existsb (λ id, negb (id =? PAGE_ID_INVALID) && (page_linear id <=? addr)
                     && (addr <? u32 (page_linear id + PAGE_SIZE))) (p_user_pages q)
  end.

Definition proc_user_stack_page_id (p : option pcb_t) : Z :=
  match p with
  | None => PAGE_ID_INVALID
  | Some q => if p_user_stack_page q =? 0 then p_stack_page_id q else page_from_ptr (p_user_stack_page q)
  end.

Definition proc_clear_page_tracking (p : pcb_t) : pcb_t :=
  set_p_user_pages (replicate USER_PAGES_MAX PAGE_ID_INVALID) p.

Definition proc_copy_page_tracking (dst src : pcb_t) : pcb_t :=
  set_p_user_pages (p_user_pages src) dst.

(** The body of the release loops for one slot: the page that stays in it. *)
Definition release_slot (keep : bool) (id : Z) (m : mm_t) : Z * mm_t :=
  if (id =? PAGE_ID_INVALID) || keep then (id, m)
  else (PAGE_ID_INVALID, if ia16 then m else page_free m id).

(** The loops over [user_pages] from slot [i] on; [keep i id] says which slots
    are passed over. *)
Fixpoint release_pages (keep : nat → Z → bool) (i : nat) (pages : list Z) (m : mm_t) : list Z * mm_t :=
  match pages with
  | [] => ([], m)
  | id :: pages =>
      let '(id', m) := release_slot (keep i id) id m in
      let '(pages', m) := release_pages keep (S i) pages m in
      (id' :: pages', m)
  end.

Definition proc_release_tracked_pages (p : option pcb_t) (start_slot end_slot : nat) (m : mm_t)
    : option pcb_t * mm_t :=
  match p with
  | None => (None, m)
  | Some q =>
      if (USER_PAGES_MAX <=? start_slot)%nat then (p, m)
      else
        let end_slot := if (USER_PAGES_MAX <? end_slot)%nat then USER_PAGES_MAX else end_slot in
        let '(pages, m) := release_pages (λ i _, negb ((start_slot <=? i) && (i <? end_slot))%nat)
                             0 (p_user_pages q) m in
        (Some (set_p_user_pages pages q), m)
  end.

Definition proc_release_private_tracked_pages (p shared_owner : option pcb_t) (m : mm_t)
    : option pcb_t * mm_t :=
  match p, shared_owner with
  | Some q, Some o =>
      let '(pages, m) := release_pages (λ i id, id =? p_user_pages o !!! i) 0 (p_user_pages q) m in
      (Some (set_p_user_pages pages q), m)
  | _, _ => (p, m)
  end.

Definition proc_release_tracked_pages_from_array (pages : list Z) (m : mm_t) : mm_t :=
  (release_pages (λ _ _, false) 0 pages m).2.

Definition proc_release_private_tracked_pages_from_array (pages shared : list Z) (m : mm_t) : mm_t :=
  (release_pages (λ i id, id =? shared !!! i) 0 pages m).2.
End Operations.

(** ** Release of tracked pages *)

Section Facts.
Context {cfg : PageConfig} {tgt : PageTarget} {mh : MemHelper}.

(** Slot [i] of [pages] is one the loop releases. *)
Definition released (keep : nat → Z → bool) (i : nat) (id : Z) : Prop :=
  id ≠ PAGE_ID_INVALID ∧ keep i id = false.

#[export] Instance released_dec keep i id : Decision (released keep i id).
Proof. unfold released. apply _. Defined.

Lemma release_pages_spec keep i pages m lo hi : mm_inv m lo hi → Forall valid_id pages →
  let '(pages', m') := release_pages false keep i pages m in
  mm_inv m' lo hi ∧
  (∀ j, pages' !! j = (λ id, if decide (released keep (i + j) id) then PAGE_ID_INVALID else id)
                        <$> pages !! j) ∧
  (∀ p, page_is_free (mm_pool m') p ↔ page_is_free (mm_pool m) p ∨
     (lo <= p < hi ∧ ∃ j, pages !! j = Some p ∧ released keep (i + j) p)).
Proof.
  revert i m. induction pages as [|id pages IH]; intros i m Hm Hv; cbn [release_pages].
  { split_and!; [done|done|]. intros p. split; [tauto|]. intros [?|(_ & j & ? & _)]; done. }
  apply Forall_cons in Hv as [Hid Hv]. unfold release_slot.
  assert (∀ j, (i + S j = S i + j)%nat) as Hij by lia.
  destruct ((id =? PAGE_ID_INVALID) || keep i id) eqn:Hk.
  - assert (¬ released keep i id) as Hnr.
    { intros [? ?]. apply orb_true_iff in Hk as [?|?]; zb; congruence. }
    specialize (IH (S i) m Hm Hv). destruct (release_pages false keep (S i) pages m) as [pages' m'].
    destruct IH as (A & B & C). split_and!; [done| |].
    + intros [|j]; cbn [lookup list_lookup]; [|by rewrite Hij].
      rewrite Nat.add_0_r. cbn. by destruct (decide _).
    + intros p. rewrite C. split; (intros [?|(? & j & Hj & Hr)]; [by left|right; split; [done|]]).
      * exists (S j). by rewrite Hij.
      * destruct j as [|j]; cbn in Hj.
        { injection Hj as ->. rewrite Nat.add_0_r in Hr. done. }
        exists j. by rewrite <- Hij.
  - assert (released keep i id) as Hr0.
    { apply orb_false_iff in Hk as [? ?]. zb. by split. }
    destruct (page_free_spec m lo hi id Hm Hid) as (F1 & _ & F2).
    specialize (IH (S i) (page_free m id) F1 Hv).
    destruct (release_pages false keep (S i) pages (page_free m id)) as [pages' m'].
    destruct IH as (A & B & C). split_and!; [done| |].
    + intros [|j]; cbn [lookup list_lookup]; [|by rewrite Hij].
      rewrite Nat.add_0_r. cbn. by destruct (decide _).
    + intros p. rewrite C, F2. split.
      * intros [[?|[-> ?]]|(? & j & Hj & Hr)]; [by left| |]; right; (split; [done|]).
        -- exists 0%nat. by rewrite Nat.add_0_r.
        -- exists (S j). by rewrite Hij.
      * intros [?|(? & j & Hj & Hr)]; [by left; left|]. destruct j as [|j]; cbn in Hj.
        -- injection Hj as ->. by left; right.
        -- right. split; [done|]. exists j. by rewrite <- Hij.
Qed.
End Facts.

(** ** Slots and process identifiers *)

Lemma scan_free_spec k n i :
  match scan_free k n i with
  | Some q => (i <= q < i + n)%nat ∧ p_state (proc k q) = PROC_FREE ∧
      ∀ j, (i <= j < q)%nat → p_state (proc k j) ≠ PROC_FREE
  | None => ∀ j, (i <= j < i + n)%nat → p_state (proc k j) ≠ PROC_FREE
  end.
Proof.
  revert i. induction n as [|n IH]; intros i; cbn [scan_free]; [lia|].
  case_bool_decide as Hs; [split_and!; [lia|lia|done|lia]|].
  specialize (IH (S i)). destruct (scan_free k n (S i)) as [q|].
  - destruct IH as (? & ? & Hno). split_and!; [lia|lia|done|]. intros j Hj.
    destruct (decide (j = i)) as [->|]; [done|apply Hno; lia].
  - intros j Hj. destruct (decide (j = i)) as [->|]; [done|apply IH; lia].
Qed.

Lemma tracked_count_blank `{PageConfig} kernel_sp_of k i :
  proc_tracked_page_count (Some (proc_fresh kernel_sp_of k i)) = 0.
Proof.
  unfold proc_tracked_page_count. change (p_user_pages _) with (replicate USER_PAGES_MAX PAGE_ID_INVALID).
  induction USER_PAGES_MAX as [|n IH]; [done|]. cbn [replicate].
  rewrite filter_cons_False; [done|]. by intros ?.
Qed.

(** Process identifiers come from a counter no process has reached. *)
Record pids_ok (k : kernel_t) : Prop := {
  pids_table : table_ok k;
  pids_below : ∀ i, (i < PROC_MAX)%nat → p_pid (proc k i) < next_pid k;
  pids_distinct : ∀ i j, (i < PROC_MAX)%nat → (j < PROC_MAX)%nat → i ≠ j →
    p_state (proc k i) ≠ PROC_FREE → p_state (proc k j) ≠ PROC_FREE →
    p_pid (proc k i) ≠ p_pid (proc k j)
}.

(** ** Properties *)

(** [proc_alloc] takes the lowest free slot above slot 0 and fails exactly
    when there is none.  The new PCB has a process identifier no other process
    has, is marked as running nowhere, tracks no page and has no open
    descriptor, so it can be made runnable without breaking the invariant of
    identifiers; every other slot is untouched.  The slot itself stays
    [PROC_FREE] until the caller sets its state. *)
Theorem proc_alloc_correct `{PageConfig} kernel_sp_of k : pids_ok k →
  let '(r, k') := proc_alloc kernel_sp_of k in
  match r with
  | None => k' = k ∧ ∀ j, (1 <= j < PROC_MAX)%nat → p_state (proc k j) ≠ PROC_FREE
  | Some i =>
      (1 <= i < PROC_MAX)%nat ∧ p_state (proc k i) = PROC_FREE ∧
      (∀ j, (1 <= j < i)%nat → p_state (proc k j) ≠ PROC_FREE) ∧
      (∀ j, j ≠ i → proc k' j = proc k j) ∧ pids_ok k' ∧
      (∀ j, (j < PROC_MAX)%nat → j ≠ i → p_pid (proc k' j) ≠ p_pid (proc k' i)) ∧
      p_state (proc k' i) = PROC_FREE ∧ p_running_on_core (proc k' i) = -1 ∧
      Forall (λ d, d = FD_DESC_NONE) (p_fd_map (proc k' i)) ∧
      proc_tracked_page_count (Some (proc k' i)) = 0 ∧
      pids_ok (upd_proc i (set_p_state PROC_RUNNABLE) k')
  end.
Proof.
  intros [Ht Hb Hd]. unfold proc_alloc. pose proof (scan_free_spec k (PROC_MAX - 1) 1) as Hs.
  destruct (scan_free k (PROC_MAX - 1) 1) as [i|]; [|split; [done|intros j Hj; apply Hs; lia]].
  destruct Hs as (Hi & Hfree & Hno). assert (i < PROC_MAX)%nat as Hlt by lia.
  set (k' := set_next_pid _ _).
  assert (∀ j, proc k' j = if decide (j = i) then proc_fresh kernel_sp_of k i else proc k j) as Hp.
  { intros j. subst k'. change (proc (set_next_pid ?n ?kk) j) with (proc kk j). by rewrite proc_upd. }
  assert (proc k' i = proc_fresh kernel_sp_of k i) as Hpi by (rewrite Hp; by destruct (decide _)).
  assert (∀ f, (∀ p, p_pid (f p) = p_pid p) → pids_ok (upd_proc i f k')) as Hpids.
  { intros f Hf. assert (table_ok k') as Ht' by (by apply table_ok_upd).
    assert (∀ j, (j < PROC_MAX)%nat → p_pid (proc (upd_proc i f k') j) =
      if decide (j = i) then next_pid k else p_pid (proc k j)) as Hpid.
    { intros j Hj. rewrite proc_upd by done. destruct (decide (j = i)) as [->|].
      - by rewrite Hf, Hpi.
      - rewrite Hp. by destruct (decide (j = i)). }
    constructor; [by apply table_ok_upd| |].
    - intros j Hj. rewrite Hpid by done. cbn. specialize (Hb j Hj). destruct (decide (j = i)); lia.
    - intros a b Ha Hb' Hab Hsa Hsb. rewrite !Hpid by done.
      rewrite proc_upd, !Hp in Hsa by done. rewrite proc_upd, !Hp in Hsb by done.
      pose proof (Hb a Ha). pose proof (Hb b Hb').
      revert Hsa Hsb. destruct (decide (a = i)), (decide (b = i)); intros; subst; try lia; by apply Hd. }
  split_and!; try lia; try done.
  - intros j Hj. rewrite Hp. by destruct (decide (j = i)).
  - pose proof (Hpids id (λ _, eq_refl)) as Hok. replace (upd_proc i id k') with k' in Hok; [done|].
    destruct k'. unfold upd_proc, set_proc_table. cbn. f_equal. symmetry. by apply list_alter_id.
  - intros j Hj Hne. rewrite !Hp. destruct (decide (j = i)); [done|]. destruct (decide (i = i)); [|done].
    cbn. specialize (Hb j Hj). lia.
  - by rewrite Hpi.
  - by rewrite Hpi.
  - rewrite Hpi. cbn. by repeat constructor.
  - rewrite Hpi. apply tracked_count_blank.
  - by apply Hpids.
Qed.

Definition demo_booted : kernel_t :=
  proc_init (λ i, 4096 + i * 1024) (Kernel (replicate PROC_MAX pcb_zero) [None; None] 1 0 0
    [0; 0] [0; 0] [0; 0] ∅).

Lemma demo_booted_pids : pids_ok demo_booted.
Proof.
  constructor; [done| |]; unfold PROC_MAX.
  - intros i Hi. by do 8 (destruct i as [|i]; [done|]); lia.
  - intros i j Hi Hj Hij Hsi Hsj.
    assert (∀ n, (n < 8)%nat → p_state (proc demo_booted n) ≠ PROC_FREE → n = 0%nat) as H0.
    { intros n Hn Hs. by do 8 (destruct n as [|n]; [done|]); lia. }
    rewrite (H0 i Hi Hsi), (H0 j Hj Hsj) in Hij. done.
Qed.

Lemma proc_alloc_correct_witness :
  let '(r, k') := proc_alloc (λ i, 4096 + i * 1024) demo_booted in
  match r with
  | None => k' = demo_booted ∧ ∀ j, (1 <= j < PROC_MAX)%nat → p_state (proc demo_booted j) ≠ PROC_FREE
  | Some i =>
      (1 <= i < PROC_MAX)%nat ∧ p_state (proc demo_booted i) = PROC_FREE ∧
      (∀ j, (1 <= j < i)%nat → p_state (proc demo_booted j) ≠ PROC_FREE) ∧
      (∀ j, j ≠ i → proc k' j = proc demo_booted j) ∧ pids_ok k' ∧
      (∀ j, (j < PROC_MAX)%nat → j ≠ i → p_pid (proc k' j) ≠ p_pid (proc k' i)) ∧
      p_state (proc k' i) = PROC_FREE ∧ p_running_on_core (proc k' i) = -1 ∧
      Forall (λ d, d = FD_DESC_NONE) (p_fd_map (proc k' i)) ∧
      proc_tracked_page_count (Some (proc k' i)) = 0 ∧
      pids_ok (upd_proc i (set_p_state PROC_RUNNABLE) k')
  end.
Proof. exact (proc_alloc_correct (λ i, 4096 + i * 1024) demo_booted demo_booted_pids). Defined.

(** Releasing the private pages of a process that shares its memory frees
    exactly the tracked pool pages that differ, slot by slot, from the owner's:
    the slots of shared pages are kept, the others are cleared, a page tracked
    twice is freed once, and no other page of the pool changes hands. *)
Theorem release_private_pages_correct `{PageConfig, PageTarget, MemHelper} q o m lo hi :
  mm_inv m lo hi → Forall valid_id (p_user_pages q) →
  let '(r, m') := proc_release_private_tracked_pages false (Some q) (Some o) m in
  ∃ q', r = Some q' ∧ mm_inv m' lo hi ∧
    (∀ i id, p_user_pages q !! i = Some id →
       p_user_pages q' !! i = Some (if id =? p_user_pages o !!! i then id else PAGE_ID_INVALID)) ∧
    (∀ p, page_is_free (mm_pool m') p ↔ page_is_free (mm_pool m) p ∨
       (lo <= p < hi ∧ ∃ i, p_user_pages q !! i = Some p ∧ p ≠ p_user_pages o !!! i)).
Proof.
  intros Hm Hv. unfold proc_release_private_tracked_pages.
  set (keep := λ (i : nat) id, id =? p_user_pages o !!! i).
  pose proof (release_pages_spec keep 0 (p_user_pages q) m lo hi Hm Hv) as Hs.
  destruct (release_pages false keep 0 (p_user_pages q) m) as [pages' m'].
  destruct Hs as (A & B & C). eexists. split_and!; [done|done| |].
  - intros i id Hi. cbn [p_user_pages set_p_user_pages]. rewrite B, Hi. cbn.
    destruct (decide (released keep i id)) as [[Hn Hk]|Hn]; subst keep; cbn in *.
    + by rewrite Hk.
    + destruct (Z.eqb_spec id (p_user_pages o !!! i)) as [|Hne]; [done|]. f_equal.
      destruct (decide (id = PAGE_ID_INVALID)); [done|]. destruct Hn. split; [done|]. by apply Z.eqb_neq.
  - intros p. rewrite C. split; (intros [?|(Hb & j & Hj & Hr)]; [by left|right; split; [done|exists j]]).
    + split; [done|]. destruct Hr as [_ Hk]. subst keep. cbn in Hk. by apply Z.eqb_neq.
    + split; [done|]. split; [pose proof (geo_hi _ _ (mm_geo _ _ _ Hm)); lia|].
      subst keep. cbn. by apply Z.eqb_neq.
Qed.

Definition demo_child : pcb_t :=
  set_p_user_pages (131080 :: 131085 :: replicate 62 PAGE_ID_INVALID) pcb_zero.
Definition demo_parent : pcb_t :=
  set_p_user_pages (131080 :: replicate 63 PAGE_ID_INVALID) pcb_zero.

Lemma release_private_pages_correct_witness :
  let '(r, m') := proc_release_private_tracked_pages false (Some demo_child) (Some demo_parent) rp2040_mm in
  ∃ q', r = Some q' ∧ mm_inv m' 131078 131128 ∧
    (∀ i id, p_user_pages demo_child !! i = Some id →
       p_user_pages q' !! i =
       Some (if id =? p_user_pages demo_parent !!! i then id else PAGE_ID_INVALID)) ∧
    (∀ p, page_is_free (mm_pool m') p ↔ page_is_free (mm_pool rp2040_mm) p ∨
       (131078 <= p < 131128 ∧
        ∃ i, p_user_pages demo_child !! i = Some p ∧ p ≠ p_user_pages demo_parent !!! i)).
Proof.
  apply release_private_pages_correct; [apply rp2040_mm_inv|].
  cbn. repeat constructor; unfold PAGE_ID_INVALID; cbn; lia.
Defined.
