(* ===== verification/UserCopy.v ===== *)
(** * UserCopy: copying between kernel and user memory
    (src/kernel/core/syscall/sys_io.c, src/kernel/core/mm/page_io.c)

    The flat-address architectures: a user pointer is split into a page
    identifier and an offset, and the copy loops walk page by page.  Memory is a
    total map from linear addresses to bytes. *)

From S2P Require Import Prelude Config PagePool PagePoolFacts Page Region PageFacts.
From S2P Require Import ProcState Sched SchedFacts Kmutex KmutexFacts Proc.

(** [user_page_ref_t] *)
Record user_page_ref_t := UserRef { ref_page : Z; ref_off : Z }.

Abbreviation bytes := (list Z).
Abbreviation umem := (Z → Z).

Definition mem_read (mem : umem) (a : Z) (len : nat) : bytes :=
  (λ i, mem (a + Z.of_nat i)) <$> seq 0 len.

Definition mem_write (mem : umem) (a : Z) (bs : bytes) : umem :=
  λ x, if (a <=? x) && (x <? a + Z.of_nat (length bs)) then bs !!! Z.to_nat (x - a) else mem x.

Section Operations.
Context {cfg : PageConfig}.

Definition user_page_ref_invalid : user_page_ref_t := UserRef PAGE_ID_INVALID 0.

Definition page_read (mem : umem) (id off : Z) (len : nat) : option bytes :=
  if (id =? PAGE_ID_INVALID) || (len =? 0)%nat then None
  else Some (mem_read mem (page_linear id + off) len).

Definition page_write (mem : umem) (id off : Z) (buf : bytes) : umem :=
  if (id =? PAGE_ID_INVALID) || (length buf =? 0)%nat then mem
  else mem_write mem (page_linear id + off) buf.

Definition arch_user_ptr_to_page (user_ptr : Z) : user_page_ref_t :=
  UserRef (page_from_ptr user_ptr) (u16 (Z.land user_ptr (PAGE_SIZE - 1))).

Definition proc_user_ptr_to_page_ref (p : option pcb_t) (user_ptr : Z) : Z * user_page_ref_t :=
  match p with
  | None => (-1, user_page_ref_invalid)
  | Some _ =>
      let ref := arch_user_ptr_to_page user_ptr in
      if ref_page ref =? PAGE_ID_INVALID then (-1, user_page_ref_invalid) else (0, ref)
  end.

Definition sys_io_advance_ref (ref : user_page_ref_t) (delta : Z) : user_page_ref_t :=
  let pos := ref_off ref + delta in
  UserRef (to_page_id (ref_page ref + to_page_id (pos / PAGE_SIZE))) (u16 (pos mod PAGE_SIZE)).

(** [chunk = PAGE_SIZE - ref.off; if (chunk > len) chunk = len] *)
Definition chunk_of (ref : user_page_ref_t) (len : nat) : nat :=
  let chunk := Z.to_nat (PAGE_SIZE - ref_off ref) in
  if (len <? chunk)%nat then len else chunk.

(** The loops run at most [len] times: a chunk is never empty.  A skipped read
    leaves zeros, the state of the kernel buffers in the callers. *)
Fixpoint copy_from_loop (fuel : nat) (mem : umem) (ref : user_page_ref_t) (len : nat) : bytes :=
  match fuel with
  | O => []
  | S fuel =>
      if (len =? 0)%nat then []
      else
        let chunk := chunk_of ref len in
        let bs := default (replicate chunk 0) (page_read mem (ref_page ref) (ref_off ref) chunk) in
        bs ++ copy_from_loop fuel mem (sys_io_advance_ref ref (Z.of_nat chunk)) (len - chunk)
  end.

Fixpoint copy_to_loop (fuel : nat) (mem : umem) (ref : user_page_ref_t) (src : bytes) : umem :=
  match fuel with
  | O => mem
  | S fuel =>
      if (length src =? 0)%nat then mem
      else
        let chunk := chunk_of ref (length src) in
        copy_to_loop fuel (page_write mem (ref_page ref) (ref_off ref) (take chunk src))
          (sys_io_advance_ref ref (Z.of_nat chunk)) (drop chunk src)
  end.

Definition sys_copy_from_user (cur : option pcb_t) (mem : umem) (user_ptr : Z) (len : nat) : Z * bytes :=
  let '(rc, ref) := proc_user_ptr_to_page_ref cur user_ptr in
  if rc <? 0 then (rc, replicate len 0) else (0, copy_from_loop len mem ref len).

Definition sys_copy_to_user (cur : option pcb_t) (mem : umem) (user_ptr : Z) (src : bytes) : Z * umem :=
  let '(rc, ref) := proc_user_ptr_to_page_ref cur user_ptr in
  if rc <? 0 then (rc, mem) else (0, copy_to_loop (length src) mem ref src).

(** The result is the status and the destination buffer, of [dst_size] bytes at
    most, up to its terminator. *)
Fixpoint copy_string_loop (n : nat) (mem : umem) (ref : user_page_ref_t) : option bytes :=
  match n with
  | O => None
  | S n =>
      match page_read mem (ref_page ref) (ref_off ref) 1 with
      | Some [c] => if c =? 0 then Some [0]
                    else cons c <$> copy_string_loop n mem (sys_io_advance_ref ref 1)
      | _ => None
      end
  end.

Definition sys_copy_user_string (cur : option pcb_t) (mem : umem) (dst_size : nat) (user_ptr : Z)
    : Z * option bytes :=
  if (dst_size =? 0)%nat then (- EINVAL, None)
  else
    let '(rc, ref) := proc_user_ptr_to_page_ref cur user_ptr in
    if rc <? 0 then (rc, None)
    else
      match copy_string_loop dst_size mem ref with
      | Some s => (0, Some s)
      | None => (- ENAMETOOLONG, None)
      end.
End Operations.

(** ** Page-wise copies are flat copies *)

Section Facts.
Context {cfg : PageConfig}.

(** [ref] stands for the linear address [a]. *)
Definition ref_at (ref : user_page_ref_t) (a : Z) : Prop :=
  ref_page ref = a / PAGE_SIZE ∧ ref_off ref = a mod PAGE_SIZE.

(** Addresses whose page identifier is representable and valid. *)
Definition addressable (a : Z) : Prop := 0 < a ∧ a / PAGE_SIZE < PAGE_ID_INVALID ∧ a < 2 ^ 32.

Lemma length_mem_read mem a n : length (mem_read mem a n) = n.
Proof. unfold mem_read. by rewrite length_fmap, length_seq. Qed.

Lemma mem_read_app mem a n m : mem_read mem a (n + m) = mem_read mem a n ++ mem_read mem (a + Z.of_nat n) m.
Proof.
  unfold mem_read. rewrite seq_app, fmap_app. f_equal.
  pose proof (fmap_add_seq n 0 m) as E. rewrite Nat.add_0_r in E.
  cbn [Nat.add]. rewrite <- E, <- list_fmap_compose.
  apply list_fmap_ext. intros i x _. cbn. f_equal. lia.
Qed.

Lemma mem_read_ext mem mem' a n : (∀ i, (i < n)%nat → mem (a + Z.of_nat i) = mem' (a + Z.of_nat i)) →
  mem_read mem a n = mem_read mem' a n.
Proof. intros He. apply list_fmap_ext. intros i x Hx. apply lookup_seq in Hx as [-> Hi]. by apply He. Qed.

Lemma mem_write_other mem a bs p : ¬ (a <= p < a + Z.of_nat (length bs)) → mem_write mem a bs p = mem p.
Proof. intros Hn. unfold mem_write. destruct (Z.leb_spec a p), (Z.ltb_spec p (a + Z.of_nat (length bs))); cbn [andb]; done || lia. Qed.

Lemma mem_write_nil mem a x : mem_write mem a [] x = mem x.
Proof. apply mem_write_other. cbn. lia. Qed.

Lemma mem_write_ext m m' a bs : (∀ x, m x = m' x) → ∀ x, mem_write m a bs x = mem_write m' a bs x.
Proof. intros H x. unfold mem_write. by destruct (_ && _). Qed.

Lemma mem_write_app mem a xs ys x :
  mem_write (mem_write mem a xs) (a + Z.of_nat (length xs)) ys x = mem_write mem a (xs ++ ys) x.
Proof.
  unfold mem_write. rewrite length_app.
  destruct (Z.leb_spec (a + Z.of_nat (length xs)) x), (Z.ltb_spec x (a + Z.of_nat (length xs) + Z.of_nat (length ys))),
    (Z.leb_spec a x), (Z.ltb_spec x (a + Z.of_nat (length xs))),
    (Z.ltb_spec x (a + Z.of_nat (length xs + length ys))); cbn [andb]; try lia; try done.
  - rewrite lookup_total_app_r by lia. f_equal. lia.
  - by rewrite lookup_total_app_l by lia.
Qed.

Lemma ref_at_linear ref a : ref_at ref a → addressable a → page_linear (ref_page ref) + ref_off ref = a ∧
  ref_page ref ≠ PAGE_ID_INVALID.
Proof.
  intros [Hp Ho] (H0 & Hv & Hw). unfold page_linear. rewrite Hp, Ho.
  destruct (Z.eqb_spec (a / PAGE_SIZE) PAGE_ID_INVALID); [lia|]. split; [|done].
  unfold page_id_linear, PAGE_SIZE in *. pose proof (Z.div_mod a 4096). pose proof (Z.mod_pos_bound a 4096).
  rewrite (uN_small 32); lia.
Qed.

Lemma ref_at_advance ref a d : ref_at ref a → 0 <= d → addressable (a + d) → 0 <= a →
  ref_at (sys_io_advance_ref ref d) (a + d).
Proof.
  intros [Hp Ho] Hd (H0 & Hv & Hw) Ha. unfold sys_io_advance_ref, ref_at. cbn [ref_page ref_off].
  rewrite Hp, Ho. unfold PAGE_ID_INVALID, PAGE_SIZE, to_page_id in *.
  pose proof (Z.div_mod a 4096). pose proof (Z.mod_pos_bound a 4096).
  pose proof (Z.div_mod (a + d) 4096). pose proof (Z.mod_pos_bound (a + d) 4096).
  assert ((a mod 4096 + d) / 4096 = (a + d) / 4096 - a / 4096 ∧
          (a mod 4096 + d) mod 4096 = (a + d) mod 4096) as [-> ->].
  { split.
    - symmetry. apply (Z.div_unique_pos _ _ _ ((a + d) mod 4096)); lia.
    - symmetry. apply (Z.mod_unique_pos _ _ ((a + d) / 4096 - a / 4096)); lia. }
  assert (0 <= a / 4096 <= (a + d) / 4096) as Hq by (split; [apply Z.div_pos; lia|apply Z.div_le_mono; lia]).
  split; [|apply (uN_small 16); lia].
  rewrite (uN_small _ ((a + d) / 4096 - a / 4096)) by lia.
  replace (a / 4096 + _) with ((a + d) / 4096) by lia. apply uN_small. lia.
Qed.

Lemma ref_at_start cur ptr : addressable ptr →
  ∃ ref, proc_user_ptr_to_page_ref (Some cur) ptr = (0, ref) ∧ ref_at ref ptr.
Proof.
  intros (H0 & Hv & Hw). unfold proc_user_ptr_to_page_ref, arch_user_ptr_to_page, page_from_ptr.
  destruct (Z.eqb_spec ptr 0); [lia|].
  assert (linear_page_id ptr = ptr / PAGE_SIZE) as Hl.
  { unfold linear_page_id, to_page_id. unfold PAGE_ID_INVALID in Hv. apply uN_small.
    split; [apply Z.div_pos; [lia|unfold PAGE_SIZE; lia]|lia]. }
  cbn [ref_page]. rewrite Hl. destruct (Z.eqb_spec (ptr / PAGE_SIZE) PAGE_ID_INVALID); [lia|].
  eexists. split; [done|]. split; cbn; [done|]. unfold PAGE_SIZE. change (4096 - 1) with (Z.ones 12).
  rewrite Z.land_ones by lia. apply (uN_small 16). pose proof (Z.mod_pos_bound ptr 4096). lia.
Qed.

Lemma chunk_of_bounds ref a len : ref_at ref a → (0 < len)%nat →
  (0 < chunk_of ref len <= len)%nat ∧ (Z.of_nat (chunk_of ref len) <= PAGE_SIZE - a mod PAGE_SIZE) ∧
  ((chunk_of ref len < len)%nat → Z.of_nat (chunk_of ref len) = PAGE_SIZE - a mod PAGE_SIZE).
Proof.
  intros [_ Ho] Hlen. unfold chunk_of. rewrite Ho.
  pose proof (Z.mod_pos_bound a PAGE_SIZE ltac:(unfold PAGE_SIZE; lia)).
  destruct (Nat.ltb_spec len (Z.to_nat (PAGE_SIZE - a mod PAGE_SIZE))); lia.
Qed.

Lemma copy_from_loop_flat fuel mem ref a len : ref_at ref a → (len <= fuel)%nat →
  0 < a → (∀ x, a <= x < a + Z.of_nat len → addressable x) →
  copy_from_loop fuel mem ref len = mem_read mem a len.
Proof.
  revert ref a len. induction fuel as [|fuel IH]; intros ref a len Hr Hf H0 Hadd; cbn [copy_from_loop].
  { by replace len with 0%nat by lia. }
  destruct (Nat.eqb_spec len 0) as [->|Hl]; [done|].
  destruct (chunk_of_bounds ref a len Hr ltac:(lia)) as (Hc & _ & _). set (c := chunk_of ref len) in *.
  destruct (ref_at_linear ref a Hr (Hadd a ltac:(lia))) as [Hlin Hv].
  unfold page_read. destruct (Z.eqb_spec (ref_page ref) PAGE_ID_INVALID); [done|].
  destruct (Nat.eqb_spec c 0); [lia|]. cbn [orb default]. rewrite Hlin.
  replace len with (c + (len - c))%nat at 2 by lia. rewrite mem_read_app. unfold id. f_equal.
  destruct (decide (len = c)) as [He|].
  { replace (len - c)%nat with 0%nat by lia. by destruct fuel. }
  apply IH; [|lia|lia|intros; apply Hadd; lia]. apply ref_at_advance; [done|lia|apply Hadd; lia|lia].
Qed.

Lemma copy_to_loop_flat fuel mem ref a src : ref_at ref a → (length src <= fuel)%nat →
  0 < a → (∀ x, a <= x < a + Z.of_nat (length src) → addressable x) →
  ∀ x, copy_to_loop fuel mem ref src x = mem_write mem a src x.
Proof.
  assert (∀ m b y, mem_write m b [] y = m y) as Hnil.
  { intros m b y. unfold mem_write. cbn [length].
    destruct ((b <=? y) && (y <? b + Z.of_nat 0)) eqn:E; [zb; lia|done]. }
  revert mem ref a src. induction fuel as [|fuel IH]; intros mem ref a src Hr Hf H0 Hadd x; cbn [copy_to_loop].
  { destruct src; [by rewrite Hnil|cbn in Hf; lia]. }
  destruct (Nat.eqb_spec (length src) 0) as [Hl|Hl]; [destruct src; [by rewrite Hnil|done]|].
  destruct (chunk_of_bounds ref a (length src) Hr ltac:(lia)) as (Hc & _ & _).
  set (c := chunk_of ref (length src)) in *.
  destruct (ref_at_linear ref a Hr (Hadd a ltac:(lia))) as [Hlin Hv].
  assert (page_write mem (ref_page ref) (ref_off ref) (take c src) = mem_write mem a (take c src)) as ->.
  { unfold page_write. destruct (Z.eqb_spec (ref_page ref) PAGE_ID_INVALID); [done|].
    rewrite length_take_le by lia. destruct (Nat.eqb_spec c 0); [lia|]. cbn [orb]. by rewrite Hlin. }
  rewrite <- (take_drop c src) at 3. rewrite <- mem_write_app, length_take_le by lia.
  destruct (decide (length src = c)) as [He|].
  { rewrite drop_ge by lia. rewrite Hnil. by destruct fuel. }
  apply IH; rewrite ?length_drop; [|lia|lia|intros; apply Hadd; lia].
  apply ref_at_advance; [done|lia|apply Hadd; lia|lia].
Qed.
End Facts.

(** ** Properties *)

(** The page-wise copies are exactly flat copies: for a range of valid user
    addresses, whatever pages it straddles, [sys_copy_to_user] stores the bytes
    at the addresses of the range and changes no other byte,
    [sys_copy_from_user] returns the bytes of the range, and copying out what
    was copied in gives it back.  Both fail, without touching memory, for the
    null pointer. *)
Theorem user_copy_flat `{PageConfig} cur mem ptr src :
  0 < ptr → (∀ x, ptr <= x < ptr + Z.of_nat (length src) → addressable x) → src ≠ [] →
  let '(rc, mem') := sys_copy_to_user (Some cur) mem ptr src in
  rc = 0 ∧ (∀ x, mem' x = mem_write mem ptr src x) ∧
  sys_copy_from_user (Some cur) mem' ptr (length src) = (0, src) ∧
  sys_copy_from_user (Some cur) mem ptr (length src) = (0, mem_read mem ptr (length src)) ∧
  sys_copy_to_user (Some cur) mem 0 src = (-1, mem).
Proof.
  intros H0 Hadd Hne. assert (0 < length src)%nat as Hl by (destruct src; [done|cbn; lia]).
  destruct (ref_at_start cur ptr (Hadd ptr ltac:(lia))) as (ref & Href & Hat).
  unfold sys_copy_to_user, sys_copy_from_user. rewrite Href. cbn [Z.ltb Z.compare].
  pose proof (copy_to_loop_flat (length src) mem ref ptr src Hat ltac:(lia) H0 Hadd) as Hto.
  assert (∀ m, copy_from_loop (length src) m ref (length src) = mem_read m ptr (length src)) as Hfrom.
  { intros m. by apply copy_from_loop_flat. }
  split_and!; [done|done| |f_equal; apply Hfrom|].
  2:{ unfold proc_user_ptr_to_page_ref, arch_user_ptr_to_page, page_from_ptr. cbn. by rewrite Z.eqb_refl. }
  rewrite Hfrom. f_equal.
  apply list_eq_same_length with (length src);
    [done|apply length_mem_read|]. intros i x y Hi Hx Hy. unfold mem_read in Hx.
  apply list_lookup_fmap_Some in Hx as (j & -> & Hj). apply lookup_seq in Hj as [-> _].
  rewrite Hto. unfold mem_write.
  destruct (Z.leb_spec ptr (ptr + Z.of_nat (0 + i))); [|lia].
  destruct (Z.ltb_spec (ptr + Z.of_nat (0 + i)) (ptr + Z.of_nat (length src))); [|lia]. cbn [andb].
  replace (Z.to_nat (ptr + Z.of_nat (0 + i) - ptr)) with i by lia.
  by apply list_lookup_total_correct.
Qed.

Lemma user_copy_flat_witness :
  let '(rc, mem') := sys_copy_to_user (Some pcb_zero) (λ _, 0) 0x20006FFE [1; 2; 3; 4] in
  rc = 0 ∧ (∀ x, mem' x = mem_write (λ _, 0) 0x20006FFE [1; 2; 3; 4] x) ∧
  sys_copy_from_user (Some pcb_zero) mem' 0x20006FFE (length [1; 2; 3; 4]) = (0, [1; 2; 3; 4]) ∧
  sys_copy_from_user (Some pcb_zero) (λ _, 0) 0x20006FFE (length [1; 2; 3; 4]) =
    (0, mem_read (λ _, 0) 0x20006FFE (length [1; 2; 3; 4])) ∧
  sys_copy_to_user (Some pcb_zero) (λ _, 0) 0 [1; 2; 3; 4] = (-1, (λ _, 0)).
Proof.
  apply user_copy_flat; [lia| |done]. intros x Hx. cbn [length] in Hx.
  split_and!; [lia| |lia]. unfold PAGE_ID_INVALID. cbn [page_id_bits rp2040].
  apply Z.le_lt_trans with (0x20006FFE + 4); [|lia].
  transitivity x; [|lia]. apply Z.div_le_upper_bound; unfold PAGE_SIZE; lia.
Defined.
