(* ===== verification/Signal.v ===== *)
(** * Signal: the signal core (src/kernel/core/signal/signal.c, common/bitops.h)

    Posting, popping and dispatching of pending signals, and the handler and
    mask system calls, which reach user memory through UserCopy. *)

From S2P Require Import Prelude Config PagePool PagePoolFacts Page Region PageFacts.
From S2P Require Import ProcState Sched SchedFacts Kmutex KmutexFacts Proc UserCopy.

(** ** bitops.h *)

(** One halving step of [ctz32]: (count, x). *)
Definition ctz_step (w : Z) (s : Z * Z) : Z * Z :=
  if Z.land s.2 (Z.ones w) =? 0 then (s.1 + w, Z.shiftr s.2 w) else s.

Definition ctz32 (x : Z) : Z :=
  let '(n, x) := ctz_step 2 (ctz_step 4 (ctz_step 8 (ctz_step 16 (0, x)))) in
  if Z.land x 1 =? 0 then n + 1 else n.

(** ** Numbers *)
Definition SIGKILL : Z := 9.
Definition SIGCHLD : Z := 17.
Definition SIGSTOP : Z := 19.
Definition SIG_DFL : Z := 0.
Definition SIG_IGN : Z := 1.
Definition SIG_BLOCK : Z := 0.
Definition SIG_UNBLOCK : Z := 1.
Definition SIG_SETMASK : Z := 2.

Definition not32 (x : Z) : Z := Z.lxor x (Z.ones 32).

(** 32-bit words in user memory, in the byte order of the target. *)
Definition word_bytes (big : bool) (w : Z) : bytes :=
  let le := (λ i, u8 (Z.shiftr w (8 * i))) <$> [0; 1; 2; 3] in
  if big then reverse le else le.

Definition bytes_word (big : bool) (bs : bytes) : Z :=
  foldr (λ b acc, b + 256 * acc) 0 (if big then reverse bs else bs).

(** [struct kernel_sigaction] *)
Record kernel_sigaction := KSigaction {
  ks_handler : Z; ks_flags : Z; ks_restorer : Z; ks_mask0 : Z; ks_mask1 : Z
}.

Definition sigaction_bytes (big : bool) (a : kernel_sigaction) : bytes :=
  word_bytes big (ks_handler a) ++ word_bytes big (ks_flags a) ++ word_bytes big (ks_restorer a)
  ++ word_bytes big (ks_mask0 a) ++ word_bytes big (ks_mask1 a).

Definition bytes_sigaction (big : bool) (bs : bytes) : kernel_sigaction :=
  let w i := bytes_word big (take 4 (drop (4 * i) bs)) in
  KSigaction (w 0%nat) (w 1%nat) (w 2%nat) (w 3%nat) (w 4%nat).

Section Operations.
Context {cfg : PageConfig} (big : bool) (cid : nat).

(** What the default action of [sig] does: nothing, handled by the subsystem's
    hook [on_signal], or [sys_exit(128 + sig)]. *)
Inductive default_outcome := Ignored | Handled | Exits (status : Z).

Definition signal_default_action (on_signal : Z → bool) (sig : Z) : default_outcome :=
  if sig =? SIGCHLD then Ignored
  else if on_signal sig then Handled
  else Exits (128 + sig).

(** What [signal_pop_pending] tells its caller, with the default action run. *)
Inductive pop_outcome :=
| NothingDeliverable
| Discarded (sig : Z)
| Defaulted (sig : Z) (o : default_outcome)
| Deliver (sig handler : Z).

Definition deliverable (p : pcb_t) : Z := Z.land (p_sig_pending p) (not32 (p_sig_blocked p)).

Definition signal_pop_pending (on_signal : Z → bool) (k : kernel_t) : pop_outcome * kernel_t :=
  match current k cid with
  | None => (NothingDeliverable, k)
  | Some cur =>
      let p := proc k cur in
      if negb (bool_decide (p_state p = PROC_RUNNABLE)) then (NothingDeliverable, k)
      else if deliverable p =? 0 then (NothingDeliverable, k)
      else
        let sig := ctz32 (deliverable p) in
        let k := upd_proc cur (λ p, set_p_sig_pending
                   (Z.land (p_sig_pending p) (not32 (Z.shiftl 1 sig))) p) k in
        let handler := p_sig_handlers p !!! Z.to_nat sig in
        if handler =? SIG_IGN then (Discarded sig, k)
        else if handler =? SIG_DFL then (Defaulted sig (signal_default_action on_signal sig), k)
        else (Deliver sig handler, k)
  end.

(** [signal_check_kernel]; it dereferences [current] without a test. *)
Definition signal_check_kernel (on_signal : Z → bool) (k : kernel_t) : option (pop_outcome * kernel_t) :=
  cur ← current k cid;
  let p := proc k cur in
  if deliverable p =? 0 then Some (NothingDeliverable, k)
  else
    let sig := ctz32 (deliverable p) in
    let k := upd_proc cur (λ p, set_p_sig_pending
               (Z.land (p_sig_pending p) (not32 (Z.shiftl 1 sig))) p) k in
    if p_sig_handlers p !!! Z.to_nat sig =? SIG_IGN then Some (Discarded sig, k)
    else Some (Defaulted sig (signal_default_action on_signal sig), k).

Fixpoint find_live_pid (k : kernel_t) (pid : Z) (n i : nat) : option nat :=
  match n with
  | O => None
  | S n' =>
      if proc_state_is_live (p_state (proc k i)) && (p_pid (proc k i) =? s32 pid)
      then Some i else find_live_pid k pid n' (S i)
  end.

Definition post_signal (sig : Z) (p : pcb_t) : pcb_t :=
  let p := set_p_sig_pending (Z.lor (p_sig_pending p) (Z.shiftl 1 sig)) p in
  if bool_decide (p_state p = PROC_BLOCKED) then set_p_wait_channel 0 (set_p_state PROC_RUNNABLE p)
  else if bool_decide (p_state p = PROC_SLEEPING) then set_p_state PROC_RUNNABLE p
  else p.

Definition sys_kill (pid sig : Z) (k : kernel_t) : Z * kernel_t :=
  if (sig <? 0) || (Z.of_nat NSIG <=? sig) then (- EINVAL, k)
  else
    match find_live_pid k pid PROC_MAX 0 with
    | None => (- ESRCH, k)
    | Some i => (0, if sig =? 0 then k else upd_proc i (post_signal sig) k)
    end.

Definition set_handler (sig handler : Z) (p : pcb_t) : pcb_t :=
  set_p_sig_handlers (<[Z.to_nat sig := handler]> (p_sig_handlers p)) p.
Definition set_restorer (sig restorer : Z) (p : pcb_t) : pcb_t :=
  set_p_sig_restorers (<[Z.to_nat sig := restorer]> (p_sig_restorers p)) p.

Definition sys_rt_sigaction (cur : nat) (sig act_ptr oact_ptr : Z) (k : kernel_t) (mem : umem)
    : Z * kernel_t * umem :=
  if (sig <? 1) || (Z.of_nat NSIG <=? sig) then (- EINVAL, k, mem)
  else if (sig =? SIGKILL) || (sig =? SIGSTOP) then (- EINVAL, k, mem)
  else
    let p := proc k cur in
    let '(rc, mem) :=
      if oact_ptr =? 0 then (0, mem)
      else sys_copy_to_user (Some p) mem oact_ptr (sigaction_bytes big
             (KSigaction (p_sig_handlers p !!! Z.to_nat sig) 0
                         (p_sig_restorers p !!! Z.to_nat sig) 0 0)) in
    if rc <? 0 then (rc, k, mem)
    else if act_ptr =? 0 then (0, k, mem)
    else
      let '(rc, bs) := sys_copy_from_user (Some p) mem act_ptr 20 in
      if rc <? 0 then (rc, k, mem)
      else
        let a := bytes_sigaction big bs in
        (0, upd_proc cur (λ p, set_restorer sig (ks_restorer a) (set_handler sig (ks_handler a) p)) k, mem).

(** The kernel-internal variant; the old handler is returned when asked for. *)
Definition sys_sigaction (cur : nat) (sig handler : Z) (k : kernel_t) : Z * option Z * kernel_t :=
  if (sig <? 1) || (Z.of_nat NSIG <=? sig) then (- EINVAL, None, k)
  else if (sig =? SIGKILL) || (sig =? SIGSTOP) then (- EINVAL, None, k)
  else (0, Some (p_sig_handlers (proc k cur) !!! Z.to_nat sig),
        upd_proc cur (set_handler sig handler) k).

Definition sys_rt_sigprocmask (cur : nat) (how set_ptr oset_ptr sigsetsize : Z) (k : kernel_t)
    (mem : umem) : Z * kernel_t * umem :=
  let mask_size := if 8 <=? sigsetsize then 8%nat else 4%nat in
  let p := proc k cur in
  let '(rc, mem) :=
    if oset_ptr =? 0 then (0, mem)
    else sys_copy_to_user (Some p) mem oset_ptr
           (take mask_size (word_bytes big (p_sig_blocked p) ++ word_bytes big 0)) in
  if rc <? 0 then (rc, k, mem)
  else if set_ptr =? 0 then (0, k, mem)
  else
    let '(rc, bs) := sys_copy_from_user (Some p) mem set_ptr mask_size in
    if rc <? 0 then (rc, k, mem)
    else
      let set := bytes_word big (take 4 bs) in
      if how =? SIG_BLOCK then
        (0, upd_proc cur (λ p, set_p_sig_blocked (Z.lor (p_sig_blocked p) set) p) k, mem)
      else if how =? SIG_UNBLOCK then
        (0, upd_proc cur (λ p, set_p_sig_blocked (Z.land (p_sig_blocked p) (not32 set)) p) k, mem)
      else if how =? SIG_SETMASK then (0, upd_proc cur (set_p_sig_blocked set) k, mem)
      else (- EINVAL, k, mem).
End Operations.
