(* ===== verification/SignalFacts.v ===== *)
(** * SignalFacts: correctness of the signal core *)

From S2P Require Import Prelude Config PagePool PagePoolFacts Page Region PageFacts.
From S2P Require Import ProcState Sched SchedFacts Kmutex KmutexFacts Proc UserCopy Signal.

(** ** Bits *)

Lemma land_ones_zero y h : 0 <= h → Z.land y (Z.ones h) = 0 ↔ ∀ j, 0 <= j < h → Z.testbit y j = false.
Proof.
  intros Hh. split.
  - intros Hz j Hj. assert (Z.testbit (Z.land y (Z.ones h)) j = false) as Hb by (by rewrite Hz, Z.bits_0).
    rewrite Z.land_spec, Z.ones_spec_low in Hb by lia. by rewrite andb_true_r in Hb.
  - intros Hy. apply Z.bits_inj'. intros j Hj. rewrite Z.land_spec, Z.bits_0.
    destruct (decide (j < h)); [by rewrite Hy|]. rewrite Z.ones_spec_high by lia. by rewrite andb_false_r.
Qed.

(** [n] low bits of [X] are clear and one of the next [w] is set. *)
Definition lowest_in (X : Z) (w : Z) (s : Z * Z) : Prop :=
  s.2 = Z.shiftr X s.1 ∧ 0 <= s.1 ∧ (∀ j, 0 <= j < s.1 → Z.testbit X j = false) ∧
  ∃ j, s.1 <= j < s.1 + w ∧ Z.testbit X j = true.

Lemma ctz_step_spec X h s : 0 <= h → lowest_in X (2 * h) s → lowest_in X h (ctz_step h s).
Proof.
  intros Hh (Hx & Hn & Hlow & j & Hj & Hb). destruct s as [n x]. cbn [fst snd] in *.
  unfold ctz_step. cbn [fst snd]. destruct (Z.eqb_spec (Z.land x (Z.ones h)) 0) as [Hz|Hz].
  - rewrite land_ones_zero in Hz by done.
    assert (∀ i, n <= i < n + h → Z.testbit X i = false) as Hmid.
    { intros i Hi. specialize (Hz (i - n) ltac:(lia)). rewrite Hx, Z.shiftr_spec in Hz by lia.
      by replace (i - n + n) with i in Hz by lia. }
    split_and!; cbn [fst snd]; [by rewrite Hx, Z.shiftr_shiftr by lia|lia| |].
    + intros i Hi. destruct (decide (i < n)); [apply Hlow; lia|apply Hmid; lia].
    + exists j. split; [|done]. destruct (decide (j < n + h)) as [Hjh|]; [|lia].
      rewrite Hmid in Hb by lia. done.
  - split_and!; cbn [fst snd]; try done.
    destruct (decide (Exists (λ i, Z.testbit X i = true) (seqZ n h))) as [He|He].
    + apply Exists_exists in He as (i & Hi & Hib). apply elem_of_seqZ in Hi. by exists i.
    + destruct Hz. apply land_ones_zero; [done|]. intros i Hi. rewrite Hx, Z.shiftr_spec by lia.
      apply not_true_is_false. intros Ht. apply He, Exists_exists. exists (i + n).
      split; [apply elem_of_seqZ; lia|done].
Qed.

Lemma nonzero_bit X : 0 < X < 2 ^ 32 → ∃ j, 0 <= j < 0 + 32 ∧ Z.testbit X j = true.
Proof.
  intros HX. exists (Z.log2 X). split; [|apply Z.bit_log2; lia].
  split; [apply Z.log2_nonneg|]. apply Z.log2_lt_pow2; lia.
Qed.

Lemma ctz32_spec X : 0 < X < 2 ^ 32 →
  0 <= ctz32 X < 32 ∧ Z.testbit X (ctz32 X) = true ∧ ∀ j, 0 <= j < ctz32 X → Z.testbit X j = false.
Proof.
  intros HX. assert (lowest_in X (2 * 16) (0, X)) as H0.
  { split_and!; cbn [fst snd]; [by rewrite Z.shiftr_0_r|lia|lia|]. by apply nonzero_bit. }
  apply (ctz_step_spec X 16), (ctz_step_spec X 8), (ctz_step_spec X 4), (ctz_step_spec X 2) in H0; try lia.
  unfold ctz32. destruct (ctz_step 2 _) as [n x]. destruct H0 as (Hx & Hn & Hlow & j & Hj & Hb).
  cbn [fst snd] in *.
  assert (∀ i, Z.testbit X i = true → 0 <= i → i < 32) as Hsmall.
  { intros i Hi Hi0. destruct (decide (i < 32)); [done|].
    rewrite Z.bits_above_log2 in Hi; [done|lia|]. apply Z.log2_lt_pow2; [lia|].
    apply Z.lt_le_trans with (2 ^ 32); [lia|]. apply Z.pow_le_mono_r; lia. }
  assert ((Z.land x 1 =? 0) = negb (Z.testbit X n)) as Hbit.
  { change 1 with (Z.ones 1). rewrite Z.land_ones, Hx by lia. change (2 ^ 1) with 2.
    rewrite <- (Z.add_0_l n) at 2. rewrite <- Z.shiftr_spec, Z.bit0_odd by lia.
    rewrite Zmod_odd. by destruct (Z.odd _). }
  rewrite Hbit. destruct (Z.testbit X n) eqn:Hbn; cbn [negb].
  - split_and!; [lia|by apply Hsmall|done|done].
  - assert (j = n + 1) as -> by (destruct (decide (j = n)); [congruence|lia]).
    split_and!; [lia|by apply Hsmall; [|lia]|done|]. intros i Hi.
    destruct (decide (i = n)); [congruence|apply Hlow; lia].
Qed.

Lemma not32_bit x j : 0 <= j < 32 → Z.testbit (not32 x) j = negb (Z.testbit x j).
Proof. intros Hj. unfold not32. rewrite Z.lxor_spec, Z.ones_spec_low by lia. by destruct (Z.testbit x j). Qed.

Lemma land_range x y b : 0 <= x < 2 ^ b → 0 <= b → 0 <= Z.land x y < 2 ^ b.
Proof.
  intros Hx Hb. assert (0 <= Z.land x y) as H0 by (apply Z.land_nonneg; lia). split; [done|].
  destruct (decide (Z.land x y = 0)) as [->|Hne]; [lia|]. apply Z.log2_lt_pow2; [lia|].
  destruct (decide (x = 0)) as [->|]; [by rewrite Z.land_0_l in Hne|].
  assert (Z.testbit (Z.land x y) (Z.log2 (Z.land x y)) = true) as Hbit by (apply Z.bit_log2; lia).
  rewrite Z.land_spec in Hbit. apply andb_true_iff in Hbit as [Hbit _].
  destruct (decide (Z.log2 (Z.land x y) < b)); [done|].
  rewrite Z.bits_above_log2 in Hbit; [done|lia|]. apply Z.lt_le_trans with b; [|lia].
  apply Z.log2_lt_pow2; lia.
Qed.

Lemma shiftl1_bit s j : 0 <= s → 0 <= j → Z.testbit (Z.shiftl 1 s) j = bool_decide (j = s).
Proof.
  intros Hs Hj. rewrite Z.shiftl_spec by lia. case_bool_decide as He.
  - subst. by rewrite Z.sub_diag.
  - destruct (Z.ltb_spec (j - s) 0); [by apply Z.testbit_neg_r|].
    rewrite Z.bits_above_log2; [done|lia|]. cbn. lia.
Qed.

(** ** Popping *)

(** A pending word of 32 bits. *)
Definition sig_ok (p : pcb_t) : Prop := 0 <= p_sig_pending p < 2 ^ 32.

(** Signal [j] is pending and not blocked. *)
Definition can_deliver (p : pcb_t) (j : Z) : Prop :=
  Z.testbit (p_sig_pending p) j = true ∧ Z.testbit (p_sig_blocked p) j = false.

Lemma deliverable_bit p j : 0 <= j < 32 → Z.testbit (deliverable p) j = true ↔ can_deliver p j.
Proof.
  intros Hj. unfold deliverable, can_deliver. rewrite Z.land_spec, not32_bit by done.
  destruct (Z.testbit (p_sig_pending p) j), (Z.testbit (p_sig_blocked p) j); cbn; intuition done.
Qed.

Lemma deliverable_zero p : sig_ok p → deliverable p = 0 ↔ ∀ j, 0 <= j < 32 → ¬ can_deliver p j.
Proof.
  intros Hp. split.
  - intros Hz j Hj Hd. apply deliverable_bit in Hd; [|done]. by rewrite Hz, Z.bits_0 in Hd.
  - intros Hno. destruct (decide (deliverable p = 0)) as [|Hne]; [done|].
    pose proof (land_range _ (not32 (p_sig_blocked p)) 32 Hp ltac:(lia)) as Hr.
    destruct (nonzero_bit (deliverable p)) as (j & Hj & Hb); [unfold deliverable in *; lia|].
    destruct (Hno j Hj). by apply deliverable_bit.
Qed.

Lemma deliverable_lowest p : sig_ok p → deliverable p ≠ 0 →
  let s := ctz32 (deliverable p) in
  0 <= s < 32 ∧ can_deliver p s ∧ ∀ j, 0 <= j < s → ¬ can_deliver p j.
Proof.
  intros Hp Hne s. pose proof (land_range _ (not32 (p_sig_blocked p)) 32 Hp ltac:(lia)) as Hr.
  destruct (ctz32_spec (deliverable p)) as (H1 & H2 & H3); [unfold deliverable in *; lia|].
  fold s in H1, H2, H3. split_and!; [lia|lia|by apply deliverable_bit|].
  intros j Hj Hd. apply deliverable_bit in Hd; [|lia]. rewrite H3 in Hd by lia. done.
Qed.

(** [p'] is [p] with bit [s] of the pending word cleared and nothing else changed. *)
Definition popped (p p' : pcb_t) (s : Z) : Prop :=
  p' = set_p_sig_pending (p_sig_pending p') p ∧ sig_ok p' ∧
  ∀ j, 0 <= j → Z.testbit (p_sig_pending p') j = Z.testbit (p_sig_pending p) j && negb (bool_decide (j = s)).

Lemma popped_clear p s : sig_ok p → 0 <= s < 32 →
  popped p (set_p_sig_pending (Z.land (p_sig_pending p) (not32 (Z.shiftl 1 s))) p) s.
Proof.
  intros Hp Hs. split; [done|]. split; [by apply land_range; [|lia]|].
  intros j Hj. cbn. rewrite Z.land_spec. destruct (decide (j < 32)) as [|Hge].
  - by rewrite not32_bit, shiftl1_bit by lia.
  - rewrite (Z.bits_above_log2 (p_sig_pending p)); [done|apply Hp|].
    destruct (decide (p_sig_pending p = 0)) as [->|]; [cbn; lia|].
    apply Z.lt_le_trans with 32; [|lia]. apply Z.log2_lt_pow2; unfold sig_ok in Hp; lia.
Qed.

(** ** Handlers of the signals that cannot be caught *)

Definition uncaught (p : pcb_t) : Prop :=
  length (p_sig_handlers p) = NSIG ∧
  p_sig_handlers p !!! Z.to_nat SIGKILL = SIG_DFL ∧ p_sig_handlers p !!! Z.to_nat SIGSTOP = SIG_DFL.

Record handlers_ok (k : kernel_t) : Prop := {
  handlers_table : table_ok k;
  handlers_uncaught : ∀ i, (i < PROC_MAX)%nat → uncaught (proc k i)
}.

Lemma handlers_ok_upd k i f : handlers_ok k → (i < PROC_MAX)%nat →
  (uncaught (proc k i) → uncaught (f (proc k i))) → handlers_ok (upd_proc i f k).
Proof.
  intros [Ht Hu] Hi Hf. constructor; [by apply table_ok_upd|]. intros j Hj.
  rewrite proc_upd by done. destruct (decide (j = i)) as [->|]; [apply Hf|]; by apply Hu.
Qed.

Lemma set_handler_uncaught sig h p : 0 <= sig → sig ≠ SIGKILL → sig ≠ SIGSTOP →
  uncaught p → uncaught (set_handler sig h p).
Proof.
  intros Hs Hk Ht (Hl & H9 & H19). unfold uncaught, SIGKILL, SIGSTOP in *. split_and!; cbn in *.
  - by rewrite length_insert.
  - rewrite list_lookup_total_insert_ne by lia. done.
  - rewrite list_lookup_total_insert_ne by lia. done.
Qed.

(** The handler and mask calls, posting and popping, by any process. *)
Inductive signal_step `{PageConfig} (big : bool) : kernel_t * umem → kernel_t * umem → Prop :=
| sg_rt_sigaction cur sig act oact k mem rc k' mem' : (cur < PROC_MAX)%nat →
    sys_rt_sigaction big cur sig act oact k mem = (rc, k', mem') →
    signal_step big (k, mem) (k', mem')
| sg_sigaction cur sig handler k mem rc old k' : (cur < PROC_MAX)%nat →
    sys_sigaction cur sig handler k = (rc, old, k') → signal_step big (k, mem) (k', mem)
| sg_sigprocmask cur how set oset size k mem rc k' mem' : (cur < PROC_MAX)%nat →
    sys_rt_sigprocmask big cur how set oset size k mem = (rc, k', mem') →
    signal_step big (k, mem) (k', mem')
| sg_kill pid sig k mem : signal_step big (k, mem) ((sys_kill pid sig k).2, mem)
| sg_pop cid hook k mem cur : current k cid = Some cur → (cur < PROC_MAX)%nat →
    signal_step big (k, mem) ((signal_pop_pending cid hook k).2, mem)
| sg_user k mem mem' : signal_step big (k, mem) (k, mem').

Lemma find_live_pid_spec k pid n i :
  match find_live_pid k pid n i with
  | Some q => (i <= q < i + n)%nat ∧ proc_state_is_live (p_state (proc k q)) = true ∧
      p_pid (proc k q) = s32 pid ∧
      ∀ j, (i <= j < q)%nat → proc_state_is_live (p_state (proc k j)) = true → p_pid (proc k j) ≠ s32 pid
  | None => ∀ j, (i <= j < i + n)%nat → proc_state_is_live (p_state (proc k j)) = true →
      p_pid (proc k j) ≠ s32 pid
  end.
Proof.
  revert i. induction n as [|n IH]; intros i; cbn [find_live_pid]; [lia|].
  destruct (proc_state_is_live (p_state (proc k i))) eqn:Hl; cbn [andb].
  - destruct (Z.eqb_spec (p_pid (proc k i)) (s32 pid)).
    + split_and!; [lia|lia|done|done|lia].
    + specialize (IH (S i)). destruct (find_live_pid k pid n (S i)).
      * destruct IH as (? & ? & ? & Hno). split_and!; [lia|lia|done|done|]. intros j Hj.
        destruct (decide (j = i)) as [->|]; [done|apply Hno; lia].
      * intros j Hj. destruct (decide (j = i)) as [->|]; [done|apply IH; lia].
  - specialize (IH (S i)). destruct (find_live_pid k pid n (S i)).
    + destruct IH as (? & ? & ? & Hno). split_and!; [lia|lia|done|done|]. intros j Hj.
      destruct (decide (j = i)) as [->|]; [congruence|apply Hno; lia].
    + intros j Hj. destruct (decide (j = i)) as [->|]; [congruence|apply IH; lia].
Qed.

Lemma rt_sigaction_handlers `{PageConfig} big cur sig act oact k mem rc k' mem' :
  handlers_ok k → (cur < PROC_MAX)%nat →
  sys_rt_sigaction big cur sig act oact k mem = (rc, k', mem') → handlers_ok k'.
Proof.
  intros Hk Hc. unfold sys_rt_sigaction. destruct ((sig <? 1) || _) eqn:H1; [by intros; simplify_eq|].
  destruct ((sig =? SIGKILL) || (sig =? SIGSTOP)) eqn:H2; [by intros; simplify_eq|].
  apply orb_false_iff in H1 as [? _]. apply orb_false_iff in H2 as [? ?]. zb.
  destruct (if oact =? 0 then _ else _) as [rc1 mem1]. destruct (rc1 <? 0); [by intros; simplify_eq|].
  destruct (act =? 0); [by intros; simplify_eq|].
  destruct (sys_copy_from_user _ mem1 act 20) as [rc2 bs]. destruct (rc2 <? 0); [by intros; simplify_eq|].
  intros [= <- <- <-]. apply handlers_ok_upd; [done|done|]. intros Hu.
  apply (set_handler_uncaught sig (ks_handler (bytes_sigaction big bs))) in Hu; done || lia.
Qed.

Lemma sigprocmask_handlers `{PageConfig} big cur how set oset size k mem rc k' mem' :
  handlers_ok k → (cur < PROC_MAX)%nat →
  sys_rt_sigprocmask big cur how set oset size k mem = (rc, k', mem') → handlers_ok k'.
Proof.
  intros Hk Hc. unfold sys_rt_sigprocmask. destruct (if oset =? 0 then _ else _) as [rc1 mem1].
  destruct (rc1 <? 0); [by intros; simplify_eq|]. destruct (set =? 0); [by intros; simplify_eq|].
  destruct (sys_copy_from_user _ mem1 set _) as [rc2 bs]. destruct (rc2 <? 0); [by intros; simplify_eq|].
  destruct (how =? SIG_BLOCK); [intros [= <- <- <-]; by apply handlers_ok_upd|].
  destruct (how =? SIG_UNBLOCK); [intros [= <- <- <-]; by apply handlers_ok_upd|].
  destruct (how =? SIG_SETMASK); [intros [= <- <- <-]; by apply handlers_ok_upd|].
  by intros; simplify_eq.
Qed.

Lemma signal_step_handlers `{PageConfig} big st st' : handlers_ok st.1 → signal_step big st st' →
  handlers_ok st'.1.
Proof.
  intros Hk Hs. destruct Hs as [cur sig act oact k mem rc k' mem' Hc He|cur sig h k mem rc old k' Hc He|
    cur how set oset size k mem rc k' mem' Hc He|pid sig k mem|cid hook k mem cur Hcur Hc|k mem mem'];
    cbn [fst] in *; try done.
  - by eapply rt_sigaction_handlers.
  - unfold sys_sigaction in He. destruct ((sig <? 1) || _) eqn:H1; [by simplify_eq|].
    destruct ((sig =? SIGKILL) || (sig =? SIGSTOP)) eqn:H2; simplify_eq; [done|].
    apply orb_false_iff in H1 as [? _]. apply orb_false_iff in H2 as [? ?]. zb.
    apply handlers_ok_upd; [done|done|]. by apply set_handler_uncaught; [lia|..].
  - by eapply sigprocmask_handlers.
  - unfold sys_kill. destruct (_ || _); [done|]. pose proof (find_live_pid_spec k pid PROC_MAX 0) as Hf.
    destruct (find_live_pid k pid PROC_MAX 0) as [i|]; [|done]. cbn [snd].
    destruct (sig =? 0); [done|]. apply handlers_ok_upd; [done|lia|].
    unfold post_signal. by repeat case_bool_decide.
  - unfold signal_pop_pending. rewrite Hcur. destruct (negb _); [done|].
    destruct (deliverable _ =? 0); [done|].
    assert (∀ s, handlers_ok (upd_proc cur (λ p, set_p_sig_pending (Z.land (p_sig_pending p) s) p) k))
      as Hu by (intros s; by apply handlers_ok_upd).
    destruct (_ =? SIG_IGN); [apply Hu|]. destruct (_ =? SIG_DFL); apply Hu.
Qed.

(** ** Properties *)

(** Delivery order: [signal_pop_pending] takes the lowest-numbered signal
    that is pending and not blocked, clears that bit and nothing else, and
    follows the disposition of its handler; it reports nothing, and changes
    nothing, exactly when the process is not runnable or every pending signal is
    blocked. *)
Theorem signal_pop_correct cid on_signal k cur : table_ok k → (cur < PROC_MAX)%nat →
  current k cid = Some cur → sig_ok (proc k cur) →
  let '(o, k') := signal_pop_pending cid on_signal k in
  let p := proc k cur in
  let took s := p_state p = PROC_RUNNABLE ∧ 0 <= s < 32 ∧ can_deliver p s ∧
    (∀ j, 0 <= j < s → ¬ can_deliver p j) ∧ popped p (proc k' cur) s ∧
    (∀ i, i ≠ cur → proc k' i = proc k i) in
  match o with
  | NothingDeliverable => k' = k ∧
      (p_state p ≠ PROC_RUNNABLE ∨ ∀ j, 0 <= j < 32 → ¬ can_deliver p j)
  | Discarded s => took s ∧ p_sig_handlers p !!! Z.to_nat s = SIG_IGN
  | Defaulted s d => took s ∧ p_sig_handlers p !!! Z.to_nat s = SIG_DFL ∧
      d = signal_default_action on_signal s
  | Deliver s h => took s ∧ p_sig_handlers p !!! Z.to_nat s = h ∧ h ≠ SIG_IGN ∧ h ≠ SIG_DFL
  end.
Proof.
  intros Ht Hc Hcur Hok. unfold signal_pop_pending. rewrite Hcur.
  case_bool_decide as Hs; cbn [negb]; [|by split; [|left]].
  destruct (Z.eqb_spec (deliverable (proc k cur)) 0) as [Hz|Hnz].
  { split; [done|]. right. by apply deliverable_zero. }
  destruct (deliverable_lowest _ Hok Hnz) as (Hr & Hd & Hlow).
  set (s := ctz32 _) in *. pose proof (popped_clear _ s Hok Hr) as Hp.
  set (k' := upd_proc cur _ k).
  assert (proc k' cur = set_p_sig_pending (Z.land (p_sig_pending (proc k cur)) (not32 (Z.shiftl 1 s))) (proc k cur))
    as Hk' by (subst k'; by rewrite proc_upd_eq by done).
  assert (∀ i, i ≠ cur → proc k' i = proc k i) as Hoth by (intros; by apply proc_upd_ne).
  rewrite <- Hk' in Hp.
  destruct (Z.eqb_spec (p_sig_handlers (proc k cur) !!! Z.to_nat s) SIG_IGN); [by split_and!; try apply Hr|].
  destruct (Z.eqb_spec (p_sig_handlers (proc k cur) !!! Z.to_nat s) SIG_DFL); by split_and!; try apply Hr.
Qed.

Definition demo_signalled : kernel_t :=
  upd_proc 0 (set_p_sig_blocked 4) (upd_proc 0 (set_p_sig_pending 0x204) demo_kernel).

Lemma signal_pop_correct_witness :
  let '(o, k') := signal_pop_pending 0 (λ _, false) demo_signalled in
  let p := proc demo_signalled 0 in
  let took s := p_state p = PROC_RUNNABLE ∧ 0 <= s < 32 ∧ can_deliver p s ∧
    (∀ j, 0 <= j < s → ¬ can_deliver p j) ∧ popped p (proc k' 0) s ∧
    (∀ i, i ≠ 0%nat → proc k' i = proc demo_signalled i) in
  match o with
  | NothingDeliverable => k' = demo_signalled ∧
      (p_state p ≠ PROC_RUNNABLE ∨ ∀ j, 0 <= j < 32 → ¬ can_deliver p j)
  | Discarded s => took s ∧ p_sig_handlers p !!! Z.to_nat s = SIG_IGN
  | Defaulted s d => took s ∧ p_sig_handlers p !!! Z.to_nat s = SIG_DFL ∧
      d = signal_default_action (λ _, false) s
  | Deliver s h => took s ∧ p_sig_handlers p !!! Z.to_nat s = h ∧ h ≠ SIG_IGN ∧ h ≠ SIG_DFL
  end.
Proof.
  apply (signal_pop_correct 0 (λ _, false) demo_signalled 0); [done|unfold PROC_MAX; lia|done|by split].
Defined.

(** [sys_kill] rejects signal numbers out of range and unknown processes
    without changing anything; otherwise it posts exactly that bit to the
    process with that identifier, makes it runnable if it was blocked or asleep,
    and leaves every other process alone.  Signal 0 only probes. *)
Theorem sys_kill_correct pid sig k : table_ok k →
  let '(rc, k') := sys_kill pid sig k in
  (rc = - EINVAL ∧ k' = k ∧ ¬ 0 <= sig < 32) ∨
  (rc = - ESRCH ∧ k' = k ∧ 0 <= sig < 32 ∧
     ∀ i, (i < PROC_MAX)%nat → proc_state_is_live (p_state (proc k i)) = true → p_pid (proc k i) ≠ s32 pid) ∨
  (rc = 0 ∧ 0 <= sig < 32 ∧ ∃ i, (i < PROC_MAX)%nat ∧ p_pid (proc k i) = s32 pid ∧
     proc_state_is_live (p_state (proc k i)) = true ∧ (∀ j, j ≠ i → proc k' j = proc k j) ∧
     if sig =? 0 then k' = k
     else (∀ b, 0 <= b → Z.testbit (p_sig_pending (proc k' i)) b =
             Z.testbit (p_sig_pending (proc k i)) b || bool_decide (b = sig)) ∧
          (p_state (proc k i) = PROC_BLOCKED ∨ p_state (proc k i) = PROC_SLEEPING →
             p_state (proc k' i) = PROC_RUNNABLE) ∧
          (p_state (proc k i) ≠ PROC_BLOCKED → p_state (proc k i) ≠ PROC_SLEEPING →
             p_state (proc k' i) = p_state (proc k i))).
Proof.
  intros Ht. unfold sys_kill. destruct ((sig <? 0) || _) eqn:Hr.
  { left. split_and!; [done|done|]. apply orb_true_iff in Hr as [?|?]; zb; unfold NSIG in *; lia. }
  apply orb_false_iff in Hr as [? ?]. zb. unfold NSIG in *.
  pose proof (find_live_pid_spec k pid PROC_MAX 0) as Hf.
  destruct (find_live_pid k pid PROC_MAX 0) as [i|].
  - destruct Hf as (Hi & Hl & Hp & _). right; right. split_and!; [done|lia|lia|].
    exists i. destruct (Z.eqb_spec sig 0); [by split_and!; [lia|..]|].
    split_and!; [lia|done|done|intros; by apply proc_upd_ne|..]; rewrite proc_upd_eq by (done || lia);
      unfold post_signal; cbn [p_state set_p_sig_pending].
    + intros b Hb. rewrite <- shiftl1_bit, <- Z.lor_spec by lia. by repeat case_bool_decide.
    + intros [-> | ->]; [by rewrite bool_decide_eq_true_2|].
      rewrite bool_decide_eq_false_2 by done. by rewrite bool_decide_eq_true_2.
    + intros ??. rewrite !bool_decide_eq_false_2 by done. done.
  - right; left. split_and!; [done|done|lia|lia|]. intros j Hj. apply Hf. lia.
Qed.

Lemma sys_kill_correct_witness :
  let '(rc, k') := sys_kill 0 9 demo_kernel in
  (rc = - EINVAL ∧ k' = demo_kernel ∧ ¬ 0 <= 9 < 32) ∨
  (rc = - ESRCH ∧ k' = demo_kernel ∧ 0 <= 9 < 32 ∧
     ∀ i, (i < PROC_MAX)%nat → proc_state_is_live (p_state (proc demo_kernel i)) = true →
       p_pid (proc demo_kernel i) ≠ s32 0) ∨
  (rc = 0 ∧ 0 <= 9 < 32 ∧ ∃ i, (i < PROC_MAX)%nat ∧ p_pid (proc demo_kernel i) = s32 0 ∧
     proc_state_is_live (p_state (proc demo_kernel i)) = true ∧
     (∀ j, j ≠ i → proc k' j = proc demo_kernel j) ∧
     if 9 =? 0 then k' = demo_kernel
     else (∀ b, 0 <= b → Z.testbit (p_sig_pending (proc k' i)) b =
             Z.testbit (p_sig_pending (proc demo_kernel i)) b || bool_decide (b = 9)) ∧
          (p_state (proc demo_kernel i) = PROC_BLOCKED ∨ p_state (proc demo_kernel i) = PROC_SLEEPING →
             p_state (proc k' i) = PROC_RUNNABLE) ∧
          (p_state (proc demo_kernel i) ≠ PROC_BLOCKED → p_state (proc demo_kernel i) ≠ PROC_SLEEPING →
             p_state (proc k' i) = p_state (proc demo_kernel i))).
Proof. apply sys_kill_correct. reflexivity. Defined.

(** SIGKILL and SIGSTOP are never caught or ignored: along every sequence
    of handler, mask, kill and delivery operations by any processes their
    handlers stay at the default, so a SIGKILL that is popped ends the process
    with status 137 unless the subsystem's hook claims it. *)
Theorem sigkill_never_caught `{PageConfig} big k mem st : handlers_ok k →
  rtc (signal_step big) (k, mem) st →
  handlers_ok st.1 ∧
  ∀ cid on_signal cur o, current st.1 cid = Some cur → (cur < PROC_MAX)%nat →
    (signal_pop_pending cid on_signal st.1).1 = o →
    o ≠ Discarded SIGKILL ∧ (∀ h, o ≠ Deliver SIGKILL h) ∧
    (∀ d, o = Defaulted SIGKILL d → d = if on_signal SIGKILL then Handled else Exits 137).
Proof.
  intros Hk Hr. assert (handlers_ok st.1) as Hk'.
  { change k with (k, mem).1 in Hk. induction Hr as [|x y z Hxy _ IH]; [done|].
    by apply IH, (signal_step_handlers big x). }
  split; [done|]. intros cid on_signal cur o Hcur Hc Ho.
  destruct (handlers_uncaught _ Hk' cur Hc) as (_ & H9 & _). subst o.
  unfold signal_pop_pending. rewrite Hcur. destruct (negb _); [by split_and!|].
  destruct (_ =? 0); [by split_and!|]. set (s := ctz32 _).
  destruct (decide (s = SIGKILL)) as [->|Hne].
  - rewrite H9. cbn [fst SIG_DFL SIG_IGN Z.eqb]. split_and!; [done|done|]. intros d [= <-].
    unfold signal_default_action. cbn [Z.eqb SIGKILL SIGCHLD Pos.eqb]. done.
  - destruct (_ =? SIG_IGN); [|destruct (_ =? SIG_DFL)]; cbn [fst]; split_and!; congruence.
Qed.

Lemma sigkill_never_caught_witness :
  let k := (sys_kill 0 9 demo_kernel).2 in
  handlers_ok k ∧
  ∀ cid on_signal cur o, current k cid = Some cur → (cur < PROC_MAX)%nat →
    (signal_pop_pending cid on_signal k).1 = o →
    o ≠ Discarded SIGKILL ∧ (∀ h, o ≠ Deliver SIGKILL h) ∧
    (∀ d, o = Defaulted SIGKILL d → d = if on_signal SIGKILL then Handled else Exits 137).
Proof.
  apply (sigkill_never_caught false demo_kernel (λ _, 0) ((sys_kill 0 9 demo_kernel).2, λ _, 0)).
  - constructor; [done|]. intros i Hi. unfold PROC_MAX in Hi.
    by do 8 (destruct i as [|i]; [by split_and!|]); lia.
  - apply rtc_once, sg_kill.
Defined.
