(* ===== verification/Life.v ===== *)
(** * Life: exit, waiting and process groups (src/kernel/core/syscall/sys_proc.c)

    The critical sections under [SPIN_PROC] of [sys_exit], [sys_vfork],
    [sys_waitpid], the end of [sys_execve] and the requests of [sys_ptrace] that
    change a state; between them, what the calls do without the lock.  The result
    of a section says where its call goes on.  The image and the trace payload of
    [pcb_t] are left out; [sys_exit]'s release of files is Fd's [close_all] and its
    release of tracked pages Proc's. *)

From S2P Require Import Prelude Config PagePool PagePoolFacts Page Region PageFacts.
From S2P Require Import ProcState Sched SchedFacts Kmutex KmutexFacts Proc UserCopy Signal.

Definition WNOHANG : Z := 1.
Definition WSTOPPED : Z := 2.
Definition SIGTRAP : Z := 5.
Definition W_EXITCODE (ret : Z) : Z := Z.shiftl (Z.land ret 0xff) 8.
Definition W_STOPCODE (sig : Z) : Z := Z.lor (Z.shiftl (Z.land sig 0xff) 8) 0x7f.

(** ** Wake-ups by process *)

Definition proc_wake_blocked_locked (i : nat) (k : kernel_t) : kernel_t :=
  if bool_decide (p_state (proc k i) = PROC_BLOCKED)
  then upd_proc i (λ p, set_p_wait_channel 0 (set_p_state PROC_RUNNABLE p)) k else k.

(** The first slot of a loop over the table. *)
Fixpoint find_slot (f : pcb_t → bool) (k : kernel_t) (n i : nat) : option nat :=
  match n with
  | O => None
  | S n => if f (proc k i) then Some i else find_slot f k n (S i)
  end.

Definition live_pid (pid : Z) (p : pcb_t) : bool := proc_state_is_live (p_state p) && (p_pid p =? pid).

Definition proc_wake_blocked_pid_locked (pid : Z) (k : kernel_t) : kernel_t :=
  match find_slot (live_pid pid) k PROC_MAX 0 with
  | Some i => proc_wake_blocked_locked i k
  | None => k
  end.

(** ** Exit *)

(** The loop that gives the children of [pid] to init, and its body. *)
Definition reparent_slot (pid : Z) (i : nat) (k : kernel_t) : kernel_t :=
  if proc_state_is_live (p_state (proc k i)) && (p_ppid (proc k i) =? pid) then
    let k := upd_proc i (set_p_ppid 1) k in
    if bool_decide (p_state (proc k i) = PROC_ZOMBIE) then proc_wake_blocked_pid_locked 1 k else k
  else k.

Fixpoint reparent (pid : Z) (n i : nat) (k : kernel_t) : kernel_t :=
  match n with
  | O => k
  | S n => reparent pid n (S i) (reparent_slot pid i k)
  end.

(** Waking the parent that lent its memory. *)
Definition vfork_release (cur : nat) (k : kernel_t) : kernel_t :=
  match p_vfork_parent (proc k cur) with
  | Some vp => upd_proc cur (set_p_vfork_parent None) (proc_wake_blocked_locked vp k)
  | None => k
  end.

(** [sys_exit] from the lock on. *)
Definition exit_section (cur : nat) (status : Z) (k : kernel_t) : kernel_t :=
  let k := upd_proc cur (set_p_exit_status (s32 status)) k in
  let k := vfork_release cur k in
  let p := proc k cur in
  let k := proc_wake_blocked_pid_locked (p_ppid p) k in
  let k := if negb (p_tracer_pid p =? 0) && negb (p_tracer_pid p =? p_ppid p)
           then proc_wake_blocked_pid_locked (p_tracer_pid p) k else k in
  let k := reparent (p_pid p) (PROC_MAX - 1) 1 k in
  upd_proc cur (set_p_state PROC_ZOMBIE) k.

(** ** vfork *)

(** What the child inherits, and the state it waits to be scheduled in; its frame
    is built by the architecture. *)
Definition vfork_child (parent child : pcb_t) (slot : nat) : pcb_t :=
  let c := set_p_user_pages (p_user_pages parent) child in
  let c := set_p_user_stack_page (p_user_stack_page parent) c in
  let c := set_p_ticks_remaining PROC_DEFAULT_TICKS c in
  let c := set_p_ppid (p_pid parent) (set_p_pgid (p_pgid parent) (set_p_sid (p_sid parent) c)) in
  let c := set_p_vfork_parent (Some slot) c in
  set_p_cwd (p_cwd parent) (set_p_fd_map (p_fd_map parent) c).

(** [sys_vfork] after [proc_alloc], a section of its own, which leaves the slot
    [PROC_FREE]: the assignments to the child, without the lock; then the section
    that blocks the parent and makes the child runnable.  The open files the child
    gets a reference to are Fd's [inherit_fds]. *)
Definition vfork_setup (cur c : nat) (k : kernel_t) : kernel_t := upd_proc c (λ p, vfork_child (proc k cur) p cur) k.
Definition vfork_publish (cur c : nat) (k : kernel_t) : kernel_t :=
  let k := upd_proc cur (λ p, set_p_state PROC_BLOCKED (set_p_wait_channel 0 p)) k in
  upd_proc c (set_p_state PROC_RUNNABLE) k.

(** ** waitpid *)

Inductive wait_found :=
| FoundStopped (slot : nat) (pid : Z)
| FoundZombie (slot : nat) (pid status : Z) (is_child : bool)
| FoundLive
| FoundNone.

Fixpoint wait_scan (cur : nat) (pid options : Z) (k : kernel_t) (n i : nat) (has_match : bool) : wait_found :=
  match n with
  | O => if has_match then FoundLive else FoundNone
  | S n =>
      let p := proc k i in
      let me := p_pid (proc k cur) in
      let is_child := p_ppid p =? me in
      if negb (proc_state_is_live (p_state p)) then wait_scan cur pid options k n (S i) has_match
      else if negb is_child && negb (p_tracer_pid p =? me) then wait_scan cur pid options k n (S i) has_match
      else if (0 <? pid) && negb (p_pid p =? s32 pid) then wait_scan cur pid options k n (S i) has_match
      else if bset options WSTOPPED && bool_decide (p_state p = PROC_TRACED_STOP) && p_trace_wait_pending p
      then FoundStopped i (p_pid p)
      else if bool_decide (p_state p = PROC_ZOMBIE) then FoundZombie i (p_pid p) (p_exit_status p) is_child
      else wait_scan cur pid options k n (S i) true
  end.

(** Where a call of [sys_waitpid] is between its sections. *)
Inductive wait_at :=
| AtScan
| AtStopped (slot : nat) (spid : Z)
| AtZombie (slot : nat) (zpid status : Z) (is_child : bool)
| AtReap (slot : nat) (zpid stack_page : Z).

Inductive wait_next := Returns (rc : Z) | Goes (at_ : wait_at).

(** The scan; a call that is to go on scanning sleeps until it is woken. *)
Definition wait_pass (cur : nat) (pid options : Z) (k : kernel_t) : wait_next * kernel_t :=
  match wait_scan cur pid options k (PROC_MAX - 1) 1 false with
  | FoundStopped i spid => (Goes (AtStopped i spid), k)
  | FoundZombie i zpid status is_child => (Goes (AtZombie i zpid status is_child), k)
  | FoundNone => (Returns (- ECHILD), k)
  | FoundLive =>
      if bset options WNOHANG then (Returns 0, k)
      else if negb (deliverable (proc k cur) =? 0) then (Returns (- EINTR), k)
      else (Goes AtScan, upd_proc cur (λ p, set_p_state PROC_BLOCKED (set_p_wait_channel 0 p)) k)
  end.

(** The copy of the status, without the lock; [ok] says that it succeeded. *)
Definition wait_copy {cfg : PageConfig} (big : bool) (cur : option pcb_t) (mem : umem) (status_ptr status : Z) : bool * umem :=
  if status_ptr =? 0 then (true, mem)
  else let '(rc, mem) := sys_copy_to_user cur mem status_ptr (word_bytes big (u32 status)) in (negb (rc <? 0), mem).

Definition stopped_section (cur : nat) (i : nat) (spid : Z) (k : kernel_t) : wait_next * kernel_t :=
  let p := proc k i in
  if negb (p_pid p =? spid) || negb (bool_decide (p_state p = PROC_TRACED_STOP)) ||
     negb (p_tracer_pid p =? p_pid (proc k cur)) || negb (p_trace_wait_pending p)
  then (Goes AtScan, k)
  else (Returns spid, upd_proc i (set_p_trace_wait_pending false) k).

Definition zombie_section (cur : nat) (i : nat) (zpid : Z) (is_child : bool) (k : kernel_t) : wait_next * kernel_t :=
  let p := proc k i in
  let me := p_pid (proc k cur) in
  if negb (p_pid p =? zpid) || negb (bool_decide (p_state p = PROC_ZOMBIE)) then (Goes AtScan, k)
  else if negb is_child then
    if negb (p_tracer_pid p =? me) || (p_ppid p =? me) then (Goes AtScan, k)
    else (Returns zpid, upd_proc i (λ p, set_p_trace_wait_pending false (set_p_trace_requested false (set_p_tracer_pid 0 p))) k)
  else if negb (p_ppid p =? me) then (Goes AtScan, k)
  else (Goes (AtReap i zpid (p_stack_page_id p)), upd_proc i (λ p, set_p_stack_page_id PAGE_ID_INVALID (set_p_state PROC_REAPING p)) k).

Record wait_args := WaitArgs { wa_pid : Z; wa_ptr : Z; wa_options : Z }.

Section Call.
Context {cfg : PageConfig} {tgt : PageTarget} {mh : MemHelper} (big : bool).

(** [proc_release_stack_page] of the page's pointer. *)
Definition release_stack (page : Z) (m : mm_t) : mm_t :=
  if page_linear page =? 0 then m else region_free m PPAP_MEM_RAM_STACK PAGE_SIZE (Some (Region (page_linear page) page)).

Definition reap (i : nat) (stack_page : Z) (m : mm_t) (k : kernel_t) : mm_t * kernel_t :=
  (if stack_page =? PAGE_ID_INVALID then m else release_stack stack_page m, proc_free (Some i) k).

(** The next section of a call of [sys_waitpid], with the copy before it. *)
Definition wait_step (cur : nat) (a : wait_args) (at_ : wait_at) (m : mm_t) (mem : umem) (k : kernel_t)
    : wait_next * (mm_t * umem * kernel_t) :=
  match at_ with
  | AtScan => let '(next, k) := wait_pass cur (wa_pid a) (wa_options a) k in (next, (m, mem, k))
  | AtStopped i spid =>
      let '(ok, mem) := wait_copy big (Some (proc k cur)) mem (wa_ptr a) (W_STOPCODE SIGTRAP) in
      if ok then let '(next, k) := stopped_section cur i spid k in (next, (m, mem, k)) else (Returns (- EFAULT), (m, mem, k))
  | AtZombie i zpid status is_child =>
      let '(ok, mem) := wait_copy big (Some (proc k cur)) mem (wa_ptr a) (W_EXITCODE status) in
      if ok then let '(next, k) := zombie_section cur i zpid is_child k in (next, (m, mem, k)) else (Returns (- EFAULT), (m, mem, k))
  | AtReap i zpid stack_page => let '(m, k) := reap i stack_page m k in (Returns zpid, (m, mem, k))
  end.
End Call.

(** ** Process groups and sessions *)

Definition group_target (cur : nat) (pid : Z) (k : kernel_t) : option nat :=
  if pid =? 0 then Some cur else find_slot (live_pid (s32 pid)) k PROC_MAX 0.

Definition sys_getpid (cur : nat) (k : kernel_t) : Z := p_pid (proc k cur).
Definition sys_setpgid (cur : nat) (pid pgid : Z) (k : kernel_t) : Z * kernel_t :=
  match group_target cur pid k with
  | None => (- ESRCH, k)
  | Some t => (0, upd_proc t (λ p, set_p_pgid (if pgid =? 0 then p_pid p else s32 pgid) p) k)
  end.
Definition sys_getpgid (cur : nat) (pid : Z) (k : kernel_t) : Z :=
  match group_target cur pid k with
  | None => - ESRCH
  | Some t => p_pgid (proc k t)
  end.
Definition sys_setsid (cur : nat) (k : kernel_t) : Z * kernel_t :=
  (p_pid (proc k cur), upd_proc cur (λ p, set_p_pgid (p_pid p) (set_p_sid (p_pid p) p)) k).

(** ** Tracing *)

Definition trace_find_process_locked (pid : Z) (k : kernel_t) : option nat :=
  if pid <=? 0 then None else find_slot (live_pid (s32 pid)) k (PROC_MAX - 1) 1.
Definition trace_find_tracee_locked (tracer_pid pid : Z) (k : kernel_t) : option nat :=
  if pid <=? 0 then None else find_slot (λ p, live_pid (s32 pid) p && (p_tracer_pid p =? tracer_pid)) k (PROC_MAX - 1) 1.

(** The requests of [sys_ptrace] that change states. *)
Definition ptrace_traceme (cur : nat) (k : kernel_t) : Z * kernel_t :=
  if negb (p_tracer_pid (proc k cur) =? 0) || p_trace_requested (proc k cur) then (- EPERM, k)
  else (0, upd_proc cur (λ p, set_p_trace_wait_pending false (set_p_trace_requested true (set_p_tracer_pid (p_ppid p) p))) k).

Definition ptrace_attach (cur : nat) (pid : Z) (k : kernel_t) : Z * kernel_t :=
  match trace_find_process_locked pid k with
  | None => (- ESRCH, k)
  | Some t =>
      if bool_decide (p_state (proc k t) = PROC_ZOMBIE) then (- ESRCH, k)
      else if bool_decide (t = cur) then (- EPERM, k)
      else if negb (p_tracer_pid (proc k t) =? 0) || p_trace_requested (proc k t) then (- EPERM, k)
      else
        let k := upd_proc t (λ p, set_p_state PROC_TRACED_STOP (set_p_trace_wait_pending true (set_p_trace_requested false (set_p_tracer_pid (p_pid (proc k cur)) p)))) k in
        (0, proc_wake_blocked_pid_locked (p_tracer_pid (proc k t)) k)
  end.

Definition trace_stop_current (cur : nat) (k : kernel_t) : kernel_t :=
  let k := upd_proc cur (λ p, set_p_state PROC_TRACED_STOP (set_p_trace_wait_pending true p)) k in
  proc_wake_blocked_pid_locked (p_tracer_pid (proc k cur)) k.

Definition trace_resume_target (t : nat) (k : kernel_t) : kernel_t :=
  upd_proc t (λ p, let p := set_p_trace_wait_pending false p in
                   if bool_decide (p_state p = PROC_TRACED_STOP) then set_p_state PROC_RUNNABLE p else p) k.

(** PTRACE_CONT and PTRACE_DETACH: the section that finds the tracee; for the
    latter what is then written without the lock; the section that resumes it is
    [trace_resume_target]. *)
Definition ptrace_find (cur : nat) (pid : Z) (k : kernel_t) : Z + nat :=
  match trace_find_tracee_locked (p_pid (proc k cur)) pid k with
  | None => inl (- ESRCH)
  | Some t => if negb (bool_decide (p_state (proc k t) = PROC_TRACED_STOP)) then inl (- EBUSY) else inr t
  end.
Definition trace_detach (t : nat) (k : kernel_t) : kernel_t :=
  upd_proc t (λ p, set_p_trace_wait_pending false (set_p_tracer_pid 0 (set_p_trace_requested false p))) k.

(** Where a call of [sys_vfork] or [sys_ptrace] is between its sections, and what
    it does next. *)
Inductive call_at := AtSetup (c : nat) | AtPublish (c : nat) | AtDetach (t : nat) | AtResume (t : nat).

Definition call_step (cur : nat) (x : call_at) (k : kernel_t) : option call_at * kernel_t :=
  match x with
  | AtSetup c => (Some (AtPublish c), vfork_setup cur c k)
  | AtPublish c => (None, vfork_publish cur c k)
  | AtDetach t => (Some (AtResume t), trace_detach t k)
  | AtResume t => (None, trace_resume_target t k)
  end.
Definition resume_begin (cur : nat) (pid : Z) (detach : bool) (k : kernel_t) : option call_at :=
  match ptrace_find cur pid k with
  | inl _ => None
  | inr t => Some (if detach then AtDetach t else AtResume t)
  end.

(** ** The system *)

(** What an exit report went to: who called, whose child it was, and the report. *)
Record report_t := Report { r_caller : Z; r_parent : Z; r_pid : Z; r_status : Z }.

(** A process can be stopped by its tracer while it runs on the other core. *)
Definition may_run (k : kernel_t) (i : nat) : Prop :=
  (1 <= i < PROC_MAX)%nat ∧ (p_state (proc k i) = PROC_RUNNABLE ∨ p_state (proc k i) = PROC_TRACED_STOP).

(** The report a section makes: a child's slot was taken. *)
Definition reported (k : kernel_t) (cur : nat) (at_ : wait_at) (next : wait_next) : list report_t :=
  match at_, next with
  | AtZombie i _ status true, Goes (AtReap _ zpid _) => [Report (p_pid (proc k cur)) (p_ppid (proc k i)) zpid status]
  | _, _ => []
  end.

(** What the rest of the kernel may do to the processes: wake them, or put the
    one that runs to sleep. *)
Definition kin (p : pcb_t) : Z * Z * Z * bool * Z := (p_pid p, p_ppid p, p_tracer_pid p, p_trace_wait_pending p, p_exit_status p).
Definition roused (s s' : proc_state_t) : Prop := s' = s ∨ (s = PROC_BLOCKED ∨ s = PROC_SLEEPING) ∧ s' = PROC_RUNNABLE.
Record calm (k k' : kernel_t) : Prop := {
  cm_next : next_pid k' = next_pid k;
  cm_table : length (proc_table k') = length (proc_table k);
  cm_kin i : kin (proc k' i) = kin (proc k i);
  cm_state i : roused (p_state (proc k i)) (p_state (proc k' i))
}.

(** The start of init in [main]: process 1, runnable; the idle task of the second
    core, which makes no calls, is left out. *)
Definition launch_init {cfg : PageConfig} (kernel_sp_of : Z → Z) (k : kernel_t) : kernel_t :=
  match proc_alloc kernel_sp_of (proc_init kernel_sp_of k) with
  | (None, k) => k
  | (Some i, k) => upd_proc i (λ p, set_p_state PROC_RUNNABLE (set_p_sid (p_pid p) (set_p_pgid (p_pid p) p))) k
  end.

Section System.
Context {cfg : PageConfig} {tgt : PageTarget} {mh : MemHelper} (big : bool) (kernel_sp_of : Z → Z).

(** The calls under way by slot, of [sys_waitpid] and the others; with the history
    of exits (the identifier and the status given to [sys_exit]) and of reports. *)
Record life_t := LifeState {
  l_k : kernel_t;
  l_mm : mm_t;
  l_mem : umem;
  l_at : gmap nat (wait_args * wait_at);
  l_calls : gmap nat call_at;
  l_exits : list (Z * Z);
  l_reports : list report_t
}.

Definition with_k (s : life_t) (k : kernel_t) : life_t := LifeState k (l_mm s) (l_mem s) (l_at s) (l_calls s) (l_exits s) (l_reports s).
(** The call of [i] goes on at [x], or has returned. *)
Definition with_call (s : life_t) (i : nat) (x : option call_at) (k : kernel_t) : life_t :=
  LifeState k (l_mm s) (l_mem s) (l_at s) (partial_alter (λ _, x) i (l_calls s)) (l_exits s) (l_reports s).

Definition life_boot (k : kernel_t) (m : mm_t) (mem : umem) : life_t := LifeState (launch_init kernel_sp_of k) m mem ∅ ∅ [] [].

(** The process [i] is in no call. *)
Definition may_call (s : life_t) (i : nat) : Prop := may_run (l_k s) i ∧ l_at s !! i = None ∧ l_calls s !! i = None.

Inductive life_step (s : life_t) : life_t → Prop :=
| life_exit i status : may_call s i →
    life_step s (LifeState (exit_section i status (l_k s)) (l_mm s) (l_mem s) (l_at s) (l_calls s)
      (l_exits s ++ [(p_pid (proc (l_k s) i), s32 status)]) (l_reports s))
| life_vfork i c k : may_call s i → proc_alloc kernel_sp_of (l_k s) = (c, k) → life_step s (with_call s i (AtSetup <$> c) k)
| life_call i x next k : may_run (l_k s) i → l_calls s !! i = Some x → call_step i x (l_k s) = (next, k) → life_step s (with_call s i next k)
| life_execve i : may_call s i → life_step s (with_k s (vfork_release i (l_k s)))
| life_waitpid i a : may_call s i →
    life_step s (LifeState (l_k s) (l_mm s) (l_mem s) (<[i := (a, AtScan)]> (l_at s)) (l_calls s) (l_exits s) (l_reports s))
| life_wait i a at_ next m mem k : may_run (l_k s) i → l_at s !! i = Some (a, at_) →
    wait_step big i a at_ (l_mm s) (l_mem s) (l_k s) = (next, (m, mem, k)) →
    life_step s (LifeState k m mem
      match next with Returns _ => delete i (l_at s) | Goes at' => <[i := (a, at')]> (l_at s) end
      (l_calls s) (l_exits s) (l_reports s ++ reported (l_k s) i at_ next))
| life_traceme i : may_call s i → life_step s (with_k s (ptrace_traceme i (l_k s)).2)
| life_attach i pid : may_call s i → life_step s (with_k s (ptrace_attach i pid (l_k s)).2)
| life_stop i : may_call s i → life_step s (with_k s (trace_stop_current i (l_k s)))
| life_resume i pid detach : may_call s i → life_step s (with_call s i (resume_begin i pid detach (l_k s)) (l_k s))
| life_setpgid i pid pgid : may_call s i → life_step s (with_k s (sys_setpgid i pid pgid (l_k s)).2)
| life_setsid i : may_call s i → life_step s (with_k s (sys_setsid i (l_k s)).2)
| life_kill i pid sig : may_call s i → life_step s (with_k s (sys_kill pid sig (l_k s)).2)
| life_sleep i st ch until : may_call s i → st = PROC_BLOCKED ∨ st = PROC_SLEEPING →
    life_step s (with_k s (upd_proc i (λ p, set_p_sleep_until until (set_p_wait_channel ch (set_p_state st p))) (l_k s)))
| life_tick cid from_user : life_step s (with_k s (sched_timer_tick cid from_user (l_k s)))
| life_wakeup ch : life_step s (with_k s (sched_wakeup ch (l_k s)))
| life_calm k : calm (l_k s) k → life_step s (with_k s k).

(** The call of [i] is [sys_vfork], and its child's slot [c]. *)
Definition forking (calls : gmap nat call_at) (i c : nat) : Prop := calls !! i = Some (AtSetup c) ∨ calls !! i = Some (AtPublish c).
(** No two calls of [sys_vfork] overlap, and init has not ended. *)
Definition orderly (s : life_t) : Prop :=
  (∀ i j c d, forking (l_calls s) i c → forking (l_calls s) j d → i = j) ∧ ∀ st, (1, st) ∉ l_exits s.
Definition orderly_step (s s' : life_t) : Prop := life_step s s' ∧ orderly s'.
End System.
