(* ===== verification/LifeFacts.v ===== *)
(** * LifeFacts: the sections of Life (src/kernel/core/syscall/sys_proc.c)

    What a section does to the process table and whom it rouses: the scans of
    [sys_waitpid], exits, reparenting, stops.  LifeRun puts them together. *)

From S2P Require Import Prelude Config PagePool PagePoolFacts Page Region PageFacts.
From S2P Require Import ProcState Sched SchedFacts Kmutex KmutexFacts Proc UserCopy Signal Life.

Definition alive (s : proc_state_t) : bool := proc_state_is_live s && negb (bool_decide (s = PROC_ZOMBIE)).

Definition slot_ok (i : nat) : Prop := (1 <= i < PROC_MAX)%nat.

Lemma roused_trans s1 s2 s3 : roused s1 s2 → roused s2 s3 → roused s1 s3.
Proof. unfold roused. naive_solver. Qed.

Lemma calm_refl k : calm k k.
Proof. split; [done..|]. intros i. by left. Qed.
Lemma calm_trans k1 k2 k3 : calm k1 k2 → calm k2 k3 → calm k1 k3.
Proof.
  intros [A B C D] [A' B' C' D']. split; [by rewrite A'|by rewrite B'|intros i; by rewrite C'|intros i; by eapply roused_trans].
Qed.

Lemma proc_upd_any k i j f : proc (upd_proc i f k) j = f (proc k i) ∧ j = i ∨ proc (upd_proc i f k) j = proc k j.
Proof.
  destruct (decide (i = j)) as [<-|]; [|right; by apply proc_upd_ne]. unfold proc, upd_proc. cbn.
  rewrite !list_lookup_total_alt, list_lookup_alter_eq. destruct (proc_table k !! i); [by left|by right].
Qed.

Lemma calm_upd k i f : kin (f (proc k i)) = kin (proc k i) → roused (p_state (proc k i)) (p_state (f (proc k i))) → calm k (upd_proc i f k).
Proof.
  intros H1 H2. split; [done|by apply length_alter|..]; intros j; destruct (proc_upd_any k i j f) as [[-> ->]| ->]; try done. by left.
Qed.

Lemma calm_fields k i f : kin (f (proc k i)) = kin (proc k i) → p_state (f (proc k i)) = p_state (proc k i) → calm k (upd_proc i f k).
Proof. intros H1 H2. apply calm_upd; [done|by left]. Qed.

Lemma calm_wake i k : calm k (proc_wake_blocked_locked i k).
Proof.
  unfold proc_wake_blocked_locked. case_bool_decide as Hs; [|apply calm_refl]. apply calm_upd; [done|]. right. split; [by left|done].
Qed.

Lemma calm_wake_pid pid k : calm k (proc_wake_blocked_pid_locked pid k).
Proof. unfold proc_wake_blocked_pid_locked. destruct (find_slot _ _ _ _); [apply calm_wake|apply calm_refl]. Qed.

Lemma calm_post sig i k : calm k (upd_proc i (post_signal sig) k).
Proof.
  apply calm_upd; unfold post_signal; cbn; [by repeat case_bool_decide|].
  case_bool_decide as E; [right; split; [by left|done]|]. case_bool_decide; [right; split; [by right|done]|by left].
Qed.

Lemma calm_same k k' : next_pid k' = next_pid k → proc_table k' = proc_table k → calm k k'.
Proof. intros Hn Ht. split; [done|by rewrite Ht|..]; intros i; unfold proc; rewrite Ht; [done|by left]. Qed.

Lemma calm_map k f : (∀ p, kin (f p) = kin p ∧ roused (p_state p) (p_state (f p))) → calm k (set_proc_table (map f (proc_table k)) k).
Proof.
  intros Hf. assert (∀ j, proc (set_proc_table (map f (proc_table k)) k) j = f (proc k j) ∨ proc (set_proc_table (map f (proc_table k)) k) j = proc k j) as H.
  { intros j. unfold proc. cbn. rewrite !list_lookup_total_alt, list_lookup_fmap. destruct (proc_table k !! j); [by left|by right]. }
  split; [done|apply length_map|..]; intros j; destruct (H j) as [-> | ->]; try done; [apply Hf|apply Hf|by left].
Qed.

Lemma calm_wakeup ch k : calm k (sched_wakeup ch k).
Proof.
  unfold sched_wakeup. assert (calm k (set_proc_table (map (wake_proc ch) (proc_table k)) k)) as H.
  { apply calm_map. intros p. unfold wake_proc, waits_on. destruct (bool_decide _) eqn:E; [|split; [done|by left]]. apply bool_decide_eq_true in E.
    cbn. destruct (_ =? ch); (split; [done|]); [right; split; [by left|done]|by left]. }
  destruct (existsb _ _); [|done]. eapply calm_trans; [exact H|]. by apply calm_same.
Qed.

Lemma calm_tick_proc ticks p : kin (tick_proc ticks p) = kin p ∧ roused (p_state p) (p_state (tick_proc ticks p)).
Proof.
  unfold tick_proc. cbn. destruct (bool_decide (p_state p = PROC_SLEEPING)) eqn:E; [apply bool_decide_eq_true in E|]; cbn.
  - destruct (deadline_passed _ _); cbn; [split; [done|right; split; [by right|done]]|]. rewrite E, bool_decide_false by done. split; [done|by left].
  - destruct (bool_decide (p_state p = PROC_BLOCKED)) eqn:E'; [apply bool_decide_eq_true in E'|split; [done|by left]]. cbn.
    destruct (_ && _); (split; [done|]); [right; split; [by left|done]|by left].
Qed.

Lemma calm_tick cid ticks k : calm k (sched_tick cid ticks k).
Proof.
  unfold sched_tick. set (k1 := if (cid =? 0)%nat then _ else k). assert (calm k k1) as H1.
  { unfold k1. destruct (cid =? 0)%nat; [|apply calm_refl]. apply calm_map, calm_tick_proc. }
  clearbody k1. destruct (current k1 cid) as [c|]; [|done]. eapply calm_trans; [exact H1|].
  set (k2 := upd_proc c _ k1). assert (calm k1 k2) as H2 by (by apply calm_fields). clearbody k2.
  destruct (_ =? 0); [|done]. eapply calm_trans; [exact H2|].
  apply (calm_trans _ (upd_proc c (set_p_ticks_remaining PROC_DEFAULT_TICKS) k2)); [|by apply calm_same]. by apply calm_fields.
Qed.

Lemma calm_timer cid from_user k : calm k (sched_timer_tick cid from_user k).
Proof.
  unfold sched_timer_tick. eapply calm_trans; [|apply calm_tick]. set (k1 := if (cid =? 0)%nat then _ else k).
  assert (calm k k1) as H1 by (unfold k1; destruct (cid =? 0)%nat; by apply calm_same). eapply calm_trans; [exact H1|]. clearbody k1.
  destruct (match current k cid with Some _ => _ | None => _ end) as [c|]; [|by apply calm_same].
  destruct from_user.
  - apply (calm_trans _ (upd_proc c (λ p, set_p_utime (u32 (p_utime p + 1)) p) k1)); [by apply calm_fields|by apply calm_same].
  - apply (calm_trans _ (upd_proc c (λ p, set_p_stime (u32 (p_stime p + 1)) p) k1)); [by apply calm_fields|by apply calm_same].
Qed.

Lemma calm_kill pid sig k : calm k (sys_kill pid sig k).2.
Proof.
  unfold sys_kill. destruct (_ || _); [apply calm_refl|]. destruct (find_live_pid _ _ _ _) as [i|]; [|apply calm_refl]. cbn.
  destruct (sig =? 0); [apply calm_refl|apply calm_post].
Qed.

Lemma calm_mutexes k v : calm k (set_kmutexes v k).
Proof. by apply calm_same. Qed.

Lemma calm_release fuel p k : calm k (release_loop fuel p k).
Proof.
  revert k. induction fuel as [|fuel IH]; intros k; cbn; [apply calm_refl|]. unfold release_section. destruct (_ =? 0); [apply calm_refl|].
  eapply calm_trans; [|apply IH]. eapply calm_trans; [|apply calm_wakeup]. case_bool_decide.
  - eapply calm_trans; [|apply calm_mutexes]. eapply calm_trans; [|apply calm_mutexes]. by apply calm_fields.
  - eapply calm_trans; [|apply calm_mutexes]. by apply calm_fields.
Qed.

(** ** Wake-ups reach their process *)

Lemma find_slot_spec f k n i : match find_slot f k n i with
  | Some q => (i <= q < i + n)%nat ∧ f (proc k q) = true ∧ ∀ j, (i <= j < q)%nat → f (proc k j) = false
  | None => ∀ j, (i <= j < i + n)%nat → f (proc k j) = false
  end.
Proof.
  revert i. induction n as [|n IH]; intros i; cbn; [lia|]. destruct (f (proc k i)) eqn:E; [split_and!; [lia|lia|done|lia]|].
  specialize (IH (S i)). destruct (find_slot f k n (S i)) as [q|].
  - destruct IH as (A & B & C). split_and!; [lia|lia|done|]. intros j Hj. destruct (decide (j = i)) as [->|]; [done|apply C; lia].
  - intros j Hj. destruct (decide (j = i)) as [->|]; [done|apply IH; lia].
Qed.

Lemma live_not_free s : proc_state_is_live s = true → s ≠ PROC_FREE.
Proof. by destruct s. Qed.

Lemma roused_live s s' : roused s s' → proc_state_is_live s' = proc_state_is_live s ∧ (s' = PROC_FREE ↔ s = PROC_FREE) ∧ (s' = PROC_ZOMBIE ↔ s = PROC_ZOMBIE) ∧
  (s' = PROC_REAPING ↔ s = PROC_REAPING) ∧ (s' = PROC_BLOCKED → s = PROC_BLOCKED) ∧ (s' = PROC_TRACED_STOP ↔ s = PROC_TRACED_STOP) ∧ alive s' = alive s.
Proof. by intros [->|[[-> | ->] ->]]. Qed.

Lemma calm_pid k k' i : calm k k' → p_pid (proc k' i) = p_pid (proc k i) ∧ p_ppid (proc k' i) = p_ppid (proc k i) ∧
  p_tracer_pid (proc k' i) = p_tracer_pid (proc k i) ∧ p_trace_wait_pending (proc k' i) = p_trace_wait_pending (proc k i) ∧ p_exit_status (proc k' i) = p_exit_status (proc k i).
Proof. intros H. pose proof (cm_kin _ _ H i) as E. by injection E. Qed.

Lemma pids_calm k k' : pids_ok k → calm k k' → pids_ok k'.
Proof.
  intros [A B C] H. split.
  - unfold table_ok. by rewrite (cm_table _ _ H).
  - intros i Hi. rewrite (cm_next _ _ H), (proj1 (calm_pid _ _ i H)). by apply B.
  - intros i j Hi Hj Hij Fi Fj. rewrite (proj1 (calm_pid _ _ i H)), (proj1 (calm_pid _ _ j H)).
    pose proof (roused_live _ _ (cm_state _ _ H i)) as (_ & Ei & _). pose proof (roused_live _ _ (cm_state _ _ H j)) as (_ & Ej & _). apply C; naive_solver.
Qed.

Lemma wake_pid_wakes k i : pids_ok k → (i < PROC_MAX)%nat → proc_state_is_live (p_state (proc k i)) = true →
  p_state (proc (proc_wake_blocked_pid_locked (p_pid (proc k i)) k) i) ≠ PROC_BLOCKED.
Proof.
  intros Hp Hi Hl. unfold proc_wake_blocked_pid_locked. pose proof (find_slot_spec (live_pid (p_pid (proc k i))) k PROC_MAX 0) as Hf.
  destruct (find_slot _ k PROC_MAX 0) as [q|].
  - destruct Hf as (Hq & Hlq & _). unfold live_pid in Hlq. apply andb_true_iff in Hlq as [Hlq Eq]. apply Z.eqb_eq in Eq.
    destruct (decide (q = i)) as [->|Hne].
    + unfold proc_wake_blocked_locked. case_bool_decide as E; [|done]. rewrite proc_upd_eq by (apply Hp || done). done.
    + destruct (pids_distinct _ Hp q i); [lia|done|done|by apply live_not_free|by apply live_not_free|done].
  - specialize (Hf i ltac:(lia)). unfold live_pid in Hf. by rewrite Hl, Z.eqb_refl in Hf.
Qed.

Lemma not_blocked_calm k k' i : calm k k' → p_state (proc k i) ≠ PROC_BLOCKED → p_state (proc k' i) ≠ PROC_BLOCKED.
Proof. intros H Hn E. apply Hn. by apply (roused_live _ _ (cm_state _ _ H i)). Qed.

(** The children of [pid] among the slots [i .. i + n) are init's now, and init
    is awake when one of them has ended. *)
Record reparented (pid : Z) (n i : nat) (k k' : kernel_t) : Prop := {
  rp_next : next_pid k' = next_pid k;
  rp_table : length (proc_table k') = length (proc_table k);
  rp_kin j : p_pid (proc k' j) = p_pid (proc k j) ∧ p_tracer_pid (proc k' j) = p_tracer_pid (proc k j) ∧ p_trace_wait_pending (proc k' j) = p_trace_wait_pending (proc k j) ∧
    p_exit_status (proc k' j) = p_exit_status (proc k j);
  rp_state j : roused (p_state (proc k j)) (p_state (proc k' j));
  rp_ppid j : p_ppid (proc k' j) = if decide ((i <= j < i + n)%nat ∧ proc_state_is_live (p_state (proc k j)) = true ∧ p_ppid (proc k j) = pid) then 1 else p_ppid (proc k j);
  rp_init j q : (i <= j < i + n)%nat → p_state (proc k j) = PROC_ZOMBIE → p_ppid (proc k j) = pid →
    (q < PROC_MAX)%nat → proc_state_is_live (p_state (proc k q)) = true → p_pid (proc k q) = 1 → p_state (proc k' q) ≠ PROC_BLOCKED
}.

Lemma pids_reparented pid n i k k' : pids_ok k → reparented pid n i k k' → pids_ok k'.
Proof.
  intros [A B C] H. split.
  - unfold table_ok. by rewrite (rp_table _ _ _ _ _ H).
  - intros j Hj. rewrite (rp_next _ _ _ _ _ H), (proj1 (rp_kin _ _ _ _ _ H j)). by apply B.
  - intros j l Hj Hl Hjl Fj Fl. rewrite (proj1 (rp_kin _ _ _ _ _ H j)), (proj1 (rp_kin _ _ _ _ _ H l)).
    pose proof (roused_live _ _ (rp_state _ _ _ _ _ H j)) as (_ & Ej & _). pose proof (roused_live _ _ (rp_state _ _ _ _ _ H l)) as (_ & El & _). apply C; naive_solver.
Qed.

(** One pass of the loop. *)
Lemma reparent_one pid i k : pids_ok k → (i < PROC_MAX)%nat →
  reparented pid 1 i k (reparent_slot pid i k).
Proof.
  intros Hp Hi. unfold reparent_slot. destruct (proc_state_is_live (p_state (proc k i)) && (p_ppid (proc k i) =? pid)) eqn:E.
  2:{ split; [done|done|done|intros j; by left|..].
      - intros j. rewrite decide_False; [done|]. intros (Hj & Hl & Ep). assert (j = i) as -> by lia. by rewrite Hl, Ep, Z.eqb_refl in E.
      - intros j q Hj Hz Ep. assert (j = i) as -> by lia. by rewrite Hz, Ep, Z.eqb_refl in E. }
  apply andb_true_iff in E as [Hl Ep%Z.eqb_eq]. cbn zeta. set (k1 := upd_proc i (set_p_ppid 1) k).
  assert (∀ j, proc k1 j = if decide (j = i) then set_p_ppid 1 (proc k i) else proc k j) as H1.
  { intros j. unfold k1. apply proc_upd; [apply Hp|done]. }
  assert (pids_ok k1) as Hp1.
  { destruct Hp as [A B C]. split; [by apply table_ok_upd|intros j Hj; rewrite H1; case_decide; subst; cbn; by apply B|].
    intros j l Hj Hl' Hjl. rewrite !H1. repeat case_decide; subst; cbn; by apply C. }
  set (k2 := if bool_decide (p_state (proc k1 i) = PROC_ZOMBIE) then proc_wake_blocked_pid_locked 1 k1 else k1).
  assert (calm k1 k2) as Hc by (unfold k2; case_bool_decide; [apply calm_wake_pid|apply calm_refl]).
  split.
  - by rewrite (cm_next _ _ Hc).
  - rewrite (cm_table _ _ Hc). apply length_alter.
  - intros j. destruct (calm_pid _ _ j Hc) as (-> & _ & -> & -> & ->). rewrite H1. by case_decide; subst.
  - intros j. pose proof (cm_state _ _ Hc j) as Hr. rewrite H1 in Hr. by case_decide; subst.
  - intros j. destruct (calm_pid _ _ j Hc) as (_ & -> & _). rewrite H1. destruct (decide (j = i)) as [->|Hj]; [by rewrite decide_True by (split; [lia|done])|].
    rewrite decide_False; [done|]. intros (? & _). lia.
  - intros j q Hj Hz _ Hq Hlq E1. assert (j = i) as -> by lia. unfold k2. rewrite bool_decide_true by (by rewrite H1, decide_True).
    rewrite <-E1. assert (p_pid (proc k q) = p_pid (proc k1 q)) as -> by (rewrite H1; by case_decide; subst). apply wake_pid_wakes; [done..|].
    rewrite H1. by case_decide; subst.
Qed.

Lemma reparent_spec pid n i k : pids_ok k → (i + n <= PROC_MAX)%nat → pid ≠ 1 → reparented pid n i k (reparent pid n i k).
Proof.
  revert i k. induction n as [|n IH]; intros i k Hp Hi H1; cbn [reparent].
  { split; try done; [intros j; by left|intros j; by rewrite decide_False by lia|lia]. }
  pose proof (reparent_one pid i k Hp ltac:(lia)) as Hone. set (k1 := reparent_slot pid i k) in *.
  pose proof (IH (S i) k1 (pids_reparented _ _ _ _ _ Hp Hone) ltac:(lia) H1) as Hrest. set (k2 := reparent pid n (S i) k1) in *.
  assert (∀ j, proc_state_is_live (p_state (proc k1 j)) = proc_state_is_live (p_state (proc k j)) ∧ (p_state (proc k1 j) = PROC_ZOMBIE ↔ p_state (proc k j) = PROC_ZOMBIE)) as Hlive.
  { intros j. pose proof (roused_live _ _ (rp_state _ _ _ _ _ Hone j)). naive_solver. }
  destruct Hone as [A B C D E F], Hrest as [A' B' C' D' E' F']. split.
  - by rewrite A'.
  - by rewrite B'.
  - intros j. destruct (C j) as (? & ? & ? & ?), (C' j) as (-> & -> & -> & ->). done.
  - intros j. eapply roused_trans; [apply D|apply D'].
  - intros j. rewrite E', E, (proj1 (Hlive j)). destruct (decide (j = i)) as [->|Hne].
    + rewrite decide_False by lia. apply decide_ext. split; intros (? & ? & ?); (split; [lia|done]).
    + rewrite !(decide_False (P := (i <= j < i + 1)%nat ∧ _)) by lia. apply decide_ext. split; intros (? & ? & ?); (split; [lia|done]).
  - intros j q Hj Hz Ep Hq Hlq E1. destruct (decide (j = i)) as [->|Hne].
    + specialize (F i q ltac:(lia) Hz Ep Hq Hlq E1). intros Hb. apply F. by apply (roused_live _ _ (D' q)).
    + apply (F' j q); [lia|by apply Hlive| |done|by rewrite (proj1 (Hlive q))|by rewrite (proj1 (C q))].
      rewrite E, decide_False by lia. done.
Qed.

(** ** The end of a process *)

Lemma calm_vfork_release i k : calm k (vfork_release i k).
Proof.
  unfold vfork_release. destruct (p_vfork_parent (proc k i)) as [vp|]; [|apply calm_refl].
  eapply calm_trans; [apply (calm_wake vp)|]. by apply calm_fields.
Qed.

Lemma calm_setpgid i pid pgid k : calm k (sys_setpgid i pid pgid k).2.
Proof. unfold sys_setpgid. destruct (group_target _ _ _) as [t|]; [|apply calm_refl]. by apply calm_fields. Qed.
Lemma calm_setsid i k : calm k (sys_setsid i k).2.
Proof. by apply calm_fields. Qed.

Record exited (cur : nat) (status : Z) (k k' : kernel_t) : Prop := {
  ex_next : next_pid k' = next_pid k;
  ex_table : length (proc_table k') = length (proc_table k);
  ex_kin j : p_pid (proc k' j) = p_pid (proc k j) ∧ p_tracer_pid (proc k' j) = p_tracer_pid (proc k j) ∧ p_trace_wait_pending (proc k' j) = p_trace_wait_pending (proc k j) ∧
    p_exit_status (proc k' j) = if decide (j = cur) then s32 status else p_exit_status (proc k j);
  ex_state j : j ≠ cur → roused (p_state (proc k j)) (p_state (proc k' j));
  ex_zombie : p_state (proc k' cur) = PROC_ZOMBIE;
  ex_ppid j : p_ppid (proc k' j) = if decide (slot_ok j ∧ proc_state_is_live (p_state (proc k j)) = true ∧ p_ppid (proc k j) = p_pid (proc k cur)) then 1 else p_ppid (proc k j);
  ex_parent q : (q < PROC_MAX)%nat → q ≠ cur → proc_state_is_live (p_state (proc k q)) = true → p_pid (proc k q) = p_ppid (proc k cur) → p_state (proc k' q) ≠ PROC_BLOCKED;
  ex_tracer q : (q < PROC_MAX)%nat → q ≠ cur → proc_state_is_live (p_state (proc k q)) = true → p_pid (proc k q) = p_tracer_pid (proc k cur) →
    p_tracer_pid (proc k cur) ≠ 0 → p_state (proc k' q) ≠ PROC_BLOCKED;
  ex_init j q : slot_ok j → j ≠ cur → p_state (proc k j) = PROC_ZOMBIE → p_ppid (proc k j) = p_pid (proc k cur) →
    (q < PROC_MAX)%nat → q ≠ cur → proc_state_is_live (p_state (proc k q)) = true → p_pid (proc k q) = 1 → p_state (proc k' q) ≠ PROC_BLOCKED
}.

(** From the wake-ups to the mark. *)
Section Exit.
Context (cur : nat) (status : Z) (k k0 k3 k4 : kernel_t).
Context (Hp0 : pids_ok k0) (Hcur : (cur < PROC_MAX)%nat) (L0 : length (proc_table k0) = length (proc_table k)) (N0 : next_pid k0 = next_pid k).
Context (F0 : ∀ j, p_pid (proc k0 j) = p_pid (proc k j) ∧ p_ppid (proc k0 j) = p_ppid (proc k j) ∧ p_tracer_pid (proc k0 j) = p_tracer_pid (proc k j) ∧
  p_trace_wait_pending (proc k0 j) = p_trace_wait_pending (proc k j) ∧ p_state (proc k0 j) = p_state (proc k j)).
Context (S0 : ∀ j, p_exit_status (proc k0 j) = if decide (j = cur) then s32 status else p_exit_status (proc k j)).
Context (C03 : calm k0 k3) (R : reparented (p_pid (proc k cur)) (PROC_MAX - 1) 1 k3 k4).
Context (Hpar : ∀ q, (q < PROC_MAX)%nat → proc_state_is_live (p_state (proc k q)) = true → p_pid (proc k q) = p_ppid (proc k cur) → p_state (proc k3 q) ≠ PROC_BLOCKED).
Context (Htr : ∀ q, (q < PROC_MAX)%nat → proc_state_is_live (p_state (proc k q)) = true → p_pid (proc k q) = p_tracer_pid (proc k cur) → p_tracer_pid (proc k cur) ≠ 0 →
  p_state (proc k3 q) ≠ PROC_BLOCKED).

Lemma exit_mark j : proc (upd_proc cur (set_p_state PROC_ZOMBIE) k4) j = if decide (j = cur) then set_p_state PROC_ZOMBIE (proc k4 cur) else proc k4 j.
Proof. apply proc_upd; [|done]. unfold table_ok. rewrite (rp_table _ _ _ _ _ R), (cm_table _ _ C03). apply Hp0. Qed.

Lemma exit_mark_kin j : kin (proc (upd_proc cur (set_p_state PROC_ZOMBIE) k4) j) = kin (proc k4 j).
Proof. rewrite exit_mark. by destruct (decide (j = cur)) as [->|]. Qed.

Lemma exit_kin3 q : proc_state_is_live (p_state (proc k3 q)) = proc_state_is_live (p_state (proc k q)) ∧ p_pid (proc k3 q) = p_pid (proc k q) ∧
  p_ppid (proc k3 q) = p_ppid (proc k q) ∧ (p_state (proc k3 q) = PROC_ZOMBIE ↔ p_state (proc k q) = PROC_ZOMBIE).
Proof.
  destruct (F0 q) as (<- & <- & _ & _ & <-). pose proof (roused_live _ _ (cm_state _ _ C03 q)) as (A & _ & B & _). destruct (calm_pid _ _ q C03) as (-> & -> & _). done.
Qed.

Lemma exit_not_blocked q : p_state (proc k3 q) ≠ PROC_BLOCKED → p_state (proc k4 q) ≠ PROC_BLOCKED.
Proof. intros Hq Hb. apply Hq. by apply (roused_live _ _ (rp_state _ _ _ _ _ R q)). Qed.

Lemma exit_marked : exited cur status k (upd_proc cur (set_p_state PROC_ZOMBIE) k4).
Proof.
  split.
  - transitivity (next_pid k4); [done|]. by rewrite (rp_next _ _ _ _ _ R), (cm_next _ _ C03).
  - transitivity (length (proc_table k4)); [by apply length_alter|]. by rewrite (rp_table _ _ _ _ _ R), (cm_table _ _ C03).
  - intros j. pose proof (exit_mark_kin j) as Em. injection Em as -> _ -> -> ->. destruct (rp_kin _ _ _ _ _ R j) as (-> & -> & -> & ->).
    destruct (calm_pid _ _ j C03) as (-> & _ & -> & -> & ->). destruct (F0 j) as (-> & _ & -> & -> & _). by rewrite S0.
  - intros j Hj. rewrite exit_mark, decide_False by done. destruct (F0 j) as (_ & _ & _ & _ & <-).
    eapply roused_trans; [apply (cm_state _ _ C03)|apply (rp_state _ _ _ _ _ R)].
  - by rewrite exit_mark, decide_True.
  - intros j. pose proof (exit_mark_kin j) as Em. injection Em as _ -> _ _ _. destruct (exit_kin3 j) as (A & _ & B & _).
    rewrite (rp_ppid _ _ _ _ _ R), A, B. apply decide_ext. unfold slot_ok, PROC_MAX. split; intros (? & ? & ?); (split; [lia|done]).
  - intros q Hqm Hqc Hl Eq. rewrite exit_mark, decide_False by done. by apply exit_not_blocked, Hpar.
  - intros q Hqm Hqc Hl Eq H0. rewrite exit_mark, decide_False by done. by apply exit_not_blocked, Htr.
  - intros j q Hj Hjc Hz Ep Hqm Hqc Hl E1. rewrite exit_mark, decide_False by done. destruct (exit_kin3 j) as (_ & _ & B & C), (exit_kin3 q) as (A' & B' & _).
    apply (rp_init _ _ _ _ _ R j q); [|by apply C|by rewrite B|done|by rewrite A'|by rewrite B']. destruct Hj. unfold PROC_MAX in *. lia.
Qed.
End Exit.

Lemma pids_upd k i f : pids_ok k → (i < PROC_MAX)%nat → p_pid (f (proc k i)) = p_pid (proc k i) → (p_state (f (proc k i)) ≠ PROC_FREE → p_state (proc k i) ≠ PROC_FREE) →
  pids_ok (upd_proc i f k).
Proof.
  intros [A B C] Hi Hf Hs. split; [by apply table_ok_upd|intros j Hj; rewrite proc_upd by done; case_decide; subst; rewrite ?Hf; by apply B|].
  intros j l Hj Hl Hjl. rewrite !proc_upd by done. intros Fj Fl. repeat case_decide; subst; rewrite ?Hf; apply C; auto.
Qed.

Lemma exit_section_spec cur status k : pids_ok k → (cur < PROC_MAX)%nat → proc_state_is_live (p_state (proc k cur)) = true → p_pid (proc k cur) ≠ 1 →
  exited cur status k (exit_section cur status k).
Proof.
  intros Hp Hcur Hlive H1. unfold exit_section. set (k0 := upd_proc cur (set_p_exit_status (s32 status)) k).
  assert (∀ j, proc k0 j = if decide (j = cur) then set_p_exit_status (s32 status) (proc k cur) else proc k j) as E0 by (intros j; apply proc_upd; [apply Hp|done]).
  assert (pids_ok k0) as Hp0 by (by apply pids_upd).
  assert (∀ j, p_pid (proc k0 j) = p_pid (proc k j) ∧ p_ppid (proc k0 j) = p_ppid (proc k j) ∧ p_tracer_pid (proc k0 j) = p_tracer_pid (proc k j) ∧
    p_trace_wait_pending (proc k0 j) = p_trace_wait_pending (proc k j) ∧ p_state (proc k0 j) = p_state (proc k j)) as F0.
  { intros j. rewrite E0. by destruct (decide (j = cur)) as [->|]. }
  assert (∀ j, p_exit_status (proc k0 j) = if decide (j = cur) then s32 status else p_exit_status (proc k j)) as S0 by (intros j; rewrite E0; by case_decide).
  assert (length (proc_table k0) = length (proc_table k) ∧ next_pid k0 = next_pid k) as [L0 N0] by (split; [apply length_alter|done]). clearbody k0.
  pose proof (calm_vfork_release cur k0) as C1. set (k1 := vfork_release cur k0) in *. clearbody k1.
  destruct (calm_pid _ _ cur C1) as (-> & -> & -> & _). destruct (F0 cur) as (-> & -> & -> & _).
  pose proof (calm_wake_pid (p_ppid (proc k cur)) k1) as C2. pose proof (pids_calm _ _ Hp0 C1) as Hp1.
  assert (∀ q, proc_state_is_live (p_state (proc k1 q)) = proc_state_is_live (p_state (proc k q)) ∧ p_pid (proc k1 q) = p_pid (proc k q)) as Hq1.
  { intros q. destruct (F0 q) as (<- & _ & _ & _ & <-). split; [apply (roused_live _ _ (cm_state _ _ C1 q))|apply (calm_pid _ _ q C1)]. }
  assert (∀ q, (q < PROC_MAX)%nat → proc_state_is_live (p_state (proc k q)) = true → p_pid (proc k q) = p_ppid (proc k cur) →
    p_state (proc (proc_wake_blocked_pid_locked (p_ppid (proc k cur)) k1) q) ≠ PROC_BLOCKED) as Hpar2.
  { intros q Hqm Hl <-. destruct (Hq1 q) as [L <-]. apply wake_pid_wakes; [done..|by rewrite L]. }
  set (k2 := proc_wake_blocked_pid_locked (p_ppid (proc k cur)) k1) in *. clearbody k2. pose proof (pids_calm _ _ Hp1 C2) as Hp2.
  apply (exit_marked cur status k k0 (if negb (p_tracer_pid (proc k cur) =? 0) && negb (p_tracer_pid (proc k cur) =? p_ppid (proc k cur))
    then proc_wake_blocked_pid_locked (p_tracer_pid (proc k cur)) k2 else k2)); try done.
  - eapply calm_trans; [exact C1|]. eapply calm_trans; [exact C2|]. destruct (_ && _); [apply calm_wake_pid|apply calm_refl].
  - apply reparent_spec; [|unfold PROC_MAX; lia|done]. eapply pids_calm; [exact Hp2|]. destruct (_ && _); [apply calm_wake_pid|apply calm_refl].
  - intros q Hqm Hl Eq. eapply not_blocked_calm; [|by apply Hpar2]. destruct (_ && _); [apply calm_wake_pid|apply calm_refl].
  - intros q Hqm Hl Eq H0. destruct (Z.eqb_spec (p_tracer_pid (proc k cur)) (p_ppid (proc k cur))) as [Ep|Ep].
    + rewrite andb_false_r. apply Hpar2; [done..|by rewrite <-Ep].
    + apply Z.eqb_neq in H0. rewrite H0. cbn [negb andb]. rewrite <-Eq. destruct (Hq1 q) as [L1 P1]. destruct (calm_pid _ _ q C2) as (P2 & _).
      rewrite <-P1, <-P2. apply wake_pid_wakes; [done..|]. by rewrite (proj1 (roused_live _ _ (cm_state _ _ C2 q))), L1.
Qed.
