(* ===== verification/LifeRun.v ===== *)
(** * LifeRun: exits and reports over all runs (src/kernel/core/syscall/sys_proc.c)

    The invariants of [life_step].  The census: every process has a living parent,
    an exit is recorded once, and it is either a zombie's or was reported, once, to
    the parent.  The calls: what [sys_waitpid] remembers between its sections, and the slot a
    call of [sys_vfork] holds.  They hold of the runs in which no two calls of
    [sys_vfork] overlap and init does not end; [vfork_overlap] shows what happens
    in another one.
    Quiet: no sleeping call has something to report. *)

From S2P Require Import Prelude Config PagePool PagePoolFacts Page Region PageFacts.
From S2P Require Import ProcState Sched SchedFacts Kmutex KmutexFacts Proc UserCopy Signal Life LifeFacts.

Inductive stage_t := Unused | Living | Ended | Removed.
Definition stage (s : proc_state_t) : stage_t :=
  match s with
  | PROC_FREE => Unused
  | PROC_ZOMBIE => Ended
  | PROC_REAPING => Removed
  | _ => Living
  end.
#[global] Instance stage_eq_dec : EqDecision stage_t.
Proof. solve_decision. Defined.

Definition pid (k : kernel_t) (i : nat) : Z := p_pid (proc k i).
Definition par (k : kernel_t) (i : nat) : Z := p_ppid (proc k i).
Definition code (k : kernel_t) (i : nat) : Z := p_exit_status (proc k i).
Definition stg (k : kernel_t) (i : nat) : stage_t := stage (p_state (proc k i)).

Lemma live_stage s : proc_state_is_live s = true ↔ stage s = Living ∨ stage s = Ended.
Proof. destruct s; cbn; naive_solver. Qed.
Lemma roused_stage s s' : roused s s' → stage s' = stage s.
Proof. by intros [->|[[-> | ->] ->]]. Qed.
Lemma stage_free s : stage s ≠ Unused ↔ s ≠ PROC_FREE.
Proof. destruct s; cbn; naive_solver. Qed.
Lemma ended_zombie s : stage s = Ended ↔ s = PROC_ZOMBIE.
Proof. destruct s; cbn; naive_solver. Qed.
Lemma may_living k i : may_run k i → slot_ok i ∧ (i < PROC_MAX)%nat ∧ stg k i = Living ∧ proc_state_is_live (p_state (proc k i)) = true ∧ p_state (proc k i) ≠ PROC_BLOCKED.
Proof. intros [Hi [E|E]]; unfold stg; rewrite E; split_and!; try done; apply Hi. Qed.

(** ** The census *)

Record census (k : kernel_t) (E : list (Z * Z)) (R : list report_t) : Prop := {
  ce_pids : pids_ok k;
  ce_pos i : slot_ok i → stg k i ≠ Unused → 0 < pid k i;
  ce_init : ∃ q, slot_ok q ∧ stg k q = Living ∧ pid k q = 1 ∧ par k q = 0;
  ce_next : 1 < next_pid k;
  ce_root i : slot_ok i → stg k i ≠ Unused → par k i = 0 → pid k i = 1;
  ce_parent i : slot_ok i → stg k i = Living ∨ stg k i = Ended → par k i ≠ 0 →
    ∃ j, slot_ok j ∧ j ≠ i ∧ stg k j = Living ∧ pid k j = par k i;
  ce_exits : NoDup E.*1;
  ce_below z st : (z, st) ∈ E → 0 < z < next_pid k;
  ce_gone i z st : slot_ok i → (z, st) ∈ E → pid k i = z → stg k i ≠ Living;
  ce_once : NoDup (r_pid <$> R);
  ce_report r : r ∈ R → (r_pid r, r_status r) ∈ E ∧ r_caller r = r_parent r ∧ ∀ i, slot_ok i → pid k i = r_pid r → stg k i ≠ Ended;
  ce_ended i : slot_ok i → stg k i = Ended → (pid k i, code k i) ∈ E;
  ce_due z st : (z, st) ∈ E → (∃ r, r ∈ R ∧ r_pid r = z ∧ r_status r = st) ∨ ∃ i, slot_ok i ∧ stg k i = Ended ∧ pid k i = z ∧ code k i = st
}.

(** Nothing the census looks at has changed. *)
Record tame (k k' : kernel_t) : Prop := {
  ta_next : next_pid k' = next_pid k;
  ta_table : length (proc_table k') = length (proc_table k);
  ta_pid i : pid k' i = pid k i;
  ta_par i : par k' i = par k i;
  ta_code i : code k' i = code k i;
  ta_stg i : stg k' i = stg k i
}.

Lemma tame_refl k : tame k k.
Proof. done. Qed.
Lemma tame_trans k1 k2 k3 : tame k1 k2 → tame k2 k3 → tame k1 k3.
Proof. intros [? ? ? ? ? ?] [? ? ? ? ? ?]. split; intros; etrans; eauto. Qed.

Lemma calm_tame k k' : calm k k' → tame k k'.
Proof.
  intros H. split; [by apply H..| | | |]; intros i; unfold pid, par, code, stg; try by destruct (calm_pid _ _ i H) as (?&?&_&_&?).
  by apply roused_stage, (cm_state _ _ H).
Qed.

Lemma tame_upd k i f : (i < PROC_MAX)%nat → p_pid (f (proc k i)) = p_pid (proc k i) → p_ppid (f (proc k i)) = p_ppid (proc k i) →
  p_exit_status (f (proc k i)) = p_exit_status (proc k i) → stage (p_state (f (proc k i))) = stg k i → tame k (upd_proc i f k).
Proof.
  intros Hi H1 H2 H3 H4. split; [done|by apply length_alter|..]; intros j; unfold pid, par, code, stg in *;
    destruct (proc_upd_any k i j f) as [[-> ->]| ->]; done.
Qed.

(** Only the stage of one slot has changed. *)
Record restaged (c : nat) (st : stage_t) (k k' : kernel_t) : Prop := {
  re_next : next_pid k' = next_pid k;
  re_table : length (proc_table k') = length (proc_table k);
  re_pid i : pid k' i = pid k i;
  re_par i : par k' i = par k i;
  re_code i : code k' i = code k i;
  re_stg i : stg k' i = if decide (i = c) then st else stg k i
}.

Lemma tame_restaged k k' c : tame k k' → restaged c (stg k c) k k'.
Proof. intros [A B C D F G]. split; try done. intros i. by destruct (decide (i = c)) as [->|]. Qed.

Lemma restaged_pids k k' c st : pids_ok k → restaged c st k k' → (st ≠ Unused → stg k c ≠ Unused) → pids_ok k'.
Proof.
  intros [A B C] H Hst. split.
  - unfold table_ok. by rewrite (re_table _ _ _ _ H).
  - intros i Hi. rewrite (re_next _ _ _ _ H). change (pid k' i < next_pid k). rewrite (re_pid _ _ _ _ H). by apply B.
  - intros i j Hi Hj Hij Fi Fj. change (pid k' i ≠ pid k' j). rewrite !(re_pid _ _ _ _ H).
    assert (∀ l, p_state (proc k' l) ≠ PROC_FREE → p_state (proc k l) ≠ PROC_FREE) as Hf.
    { intros l Hl. apply stage_free in Hl. apply stage_free. fold (stg k' l) in Hl. fold (stg k l). rewrite (re_stg _ _ _ _ H) in Hl. case_decide; subst; auto. }
    apply C; auto.
Qed.

(** Two living or ended processes with one identifier are one. *)
Lemma pid_inj k i j : pids_ok k → slot_ok i → slot_ok j → stg k i ≠ Unused → stg k j ≠ Unused → pid k i = pid k j → i = j.
Proof.
  intros Hp Hi Hj Fi Fj E. destruct (decide (i = j)) as [|Hne]; [done|]. exfalso.
  apply (pids_distinct _ Hp i j); [apply Hi|apply Hj|done|by apply stage_free|by apply stage_free|done].
Qed.

Definition reports_ok (k : kernel_t) (E : list (Z * Z)) (R : list report_t) : Prop :=
  NoDup (r_pid <$> R) ∧
  ∀ r, r ∈ R → (r_pid r, r_status r) ∈ E ∧ r_caller r = r_parent r ∧ ∀ i, slot_ok i → pid k i = r_pid r → stg k i ≠ Ended.

Lemma restaged_census k k' c st E R R' : census k E R → restaged c st k k' → slot_ok c →
  (st = Living ↔ stg k c = Living) → (st ≠ Unused → stg k c ≠ Unused) → (st = Ended → stg k c = Ended) →
  R ⊆ R' → reports_ok k' E R' → (stg k c = Ended → st = Ended ∨ ∃ r, r ∈ R' ∧ r_pid r = pid k c ∧ r_status r = code k c) → census k' E R'.
Proof.
  intros [A B C D D0 F G H I J K L M] Hr Hc Hliv Hun Hend Hsub [Honce Hrep] Hdue.
  assert (∀ i, (stg k' i = Living ↔ stg k i = Living) ∧ (stg k' i ≠ Unused → stg k i ≠ Unused) ∧ (stg k' i = Ended → stg k i = Ended)) as Hs.
  { intros i. rewrite (re_stg _ _ _ _ Hr). case_decide; subst; done. }
  split.
  - by eapply restaged_pids.
  - intros i Hi Hu. rewrite (re_pid _ _ _ _ Hr). apply B, Hs; done.
  - destruct C as (q & ? & ? & ? & ?). exists q. rewrite (re_pid _ _ _ _ Hr), (re_par _ _ _ _ Hr), (proj1 (Hs q)). done.
  - by rewrite (re_next _ _ _ _ Hr).
  - intros i Hi Hiu. rewrite (re_par _ _ _ _ Hr), (re_pid _ _ _ _ Hr). apply D0, Hs; done.
  - intros i Hi Hl. rewrite (re_par _ _ _ _ Hr). intros H0. destruct (F i Hi) as (j & ? & ? & ? & ?); [pose proof (Hs i); tauto|done|].
    exists j. rewrite (re_pid _ _ _ _ Hr), (proj1 (Hs j)). done.
  - done.
  - intros z s. rewrite (re_next _ _ _ _ Hr). apply H.
  - intros i z s Hi Hin. rewrite (re_pid _ _ _ _ Hr), (proj1 (Hs i)). by apply (I i z s).
  - done.
  - done.
  - intros i Hi He. rewrite (re_pid _ _ _ _ Hr), (re_code _ _ _ _ Hr). apply L, Hs; done.
  - intros z s Hin. destruct (M z s Hin) as [(r & ? & ? & ?)|(i & Hi & He & <- & <-)]; [left; eexists; split_and!; [by apply Hsub|done..]|].
    destruct (decide (i = c)) as [->|Hne].
    + destruct (Hdue He) as [->|Hrr]; [|by left]. right. exists c. by rewrite (re_pid _ _ _ _ Hr), (re_code _ _ _ _ Hr), (re_stg _ _ _ _ Hr), decide_True.
    + right. exists i. by rewrite (re_pid _ _ _ _ Hr), (re_code _ _ _ _ Hr), (re_stg _ _ _ _ Hr), decide_False.
Qed.

Lemma tame_census k k' E R : census k E R → tame k k' → census k' E R.
Proof.
  intros Hc Ht. assert (slot_ok 1) as H1 by (unfold slot_ok, PROC_MAX; lia). eapply (restaged_census k k' 1 (stg k 1) E R); try done.
  - by apply tame_restaged.
  - split; [apply Hc|]. intros r Hr. destruct (ce_report _ _ _ Hc r Hr) as (? & ? & Hi). split_and!; [done..|]. intros i. rewrite (ta_pid _ _ Ht), (ta_stg _ _ Ht). apply Hi.
  - by left.
Qed.

(** A zombie is taken by its parent. *)
Lemma removed_census k k' c E R : census k E R → restaged c Removed k k' → slot_ok c → stg k c = Ended →
  census k' E (R ++ [Report (par k c) (par k c) (pid k c) (code k c)]).
Proof.
  intros Hc Hr Hi He. eapply restaged_census; try done; try (by rewrite He).
  - set_solver.
  - split.
    + rewrite fmap_app. apply NoDup_app. split_and!; [apply Hc| |apply NoDup_singleton]. intros z (r & -> & Hin)%list_elem_of_fmap Hz%list_elem_of_singleton.
      by destruct (ce_report _ _ _ Hc r Hin) as (_ & _ & []%(λ f, f c)).
    + intros r [Hin| ->%list_elem_of_singleton]%elem_of_app.
      * destruct (ce_report _ _ _ Hc r Hin) as (? & ? & Hj). split_and!; [done..|]. intros j Hjo. rewrite (re_pid _ _ _ _ Hr), (re_stg _ _ _ _ Hr). intros Ej. case_decide; [done|by apply Hj].
      * cbn. split_and!; [by apply (ce_ended _ _ _ Hc)|done|]. intros j Hj. rewrite (re_pid _ _ _ _ Hr), (re_stg _ _ _ _ Hr). intros Ej. case_decide as Hne; [done|]. intros Hs.
        apply Hne. eapply pid_inj; try done; [apply Hc|by rewrite Hs|by rewrite He].
  - intros _. right. eexists. split; [apply elem_of_app; right; by apply list_elem_of_singleton|done].
Qed.

Lemma freed_census k k' c E R : census k E R → restaged c Unused k k' → slot_ok c → stg k c = Removed → census k' E R.
Proof.
  intros Hc Hr Hi He. eapply restaged_census; try done; try (by rewrite He).
  split; [apply Hc|]. intros r Hin. destruct (ce_report _ _ _ Hc r Hin) as (? & ? & Hj). split_and!; [done..|]. intros j Hjo. rewrite (re_pid _ _ _ _ Hr), (re_stg _ _ _ _ Hr). intros Ej. case_decide; [done|by apply Hj].
Qed.

(** A process ends. *)
Lemma exited_census k k' cur status E R : census k E R → slot_ok cur → stg k cur = Living → pid k cur ≠ 1 → exited cur status k k' →
  census k' (E ++ [(pid k cur, s32 status)]) R.
Proof.
  intros Hc Hcur Hl H1 X. pose proof Hc as [A B C D D0 F G H I J K L M].
  assert (∀ j, pid k' j = pid k j) as Ep by (intros j; apply (ex_kin _ _ _ _ X j)).
  assert (∀ j, stg k' j = if decide (j = cur) then Ended else stg k j) as Es.
  { intros j. unfold stg. case_decide as Hj; [subst; by rewrite (ex_zombie _ _ _ _ X)|]. by apply roused_stage, (ex_state _ _ _ _ X). }
  assert (∀ j, code k' j = if decide (j = cur) then s32 status else code k j) as Ec by (intros j; apply (ex_kin _ _ _ _ X j)).
  assert (∀ j, slot_ok j → stg k j = Living ∨ stg k j = Ended → par k' j = if decide (par k j = pid k cur) then 1 else par k j) as Epar.
  { intros j Hj Hs. unfold par at 1. rewrite (ex_ppid _ _ _ _ X). apply live_stage in Hs. apply decide_ext. unfold par, pid. tauto. }
  assert (∀ z st, (z, st) ∈ E → z ≠ pid k cur) as Hnew by (intros z st Hin ->; by apply (I cur (pid k cur) st)).
  destruct C as (q & Hq & Hql & Hq1 & Hq0). assert (q ≠ cur) as Hqc by (intros ->; done).
  assert (∀ i, stg k' i ≠ Unused → stg k i ≠ Unused) as Hu by (intros i; rewrite Es; case_decide; subst; [by rewrite Hl|done]).
  split.
  - destruct A as [A1 A2 A3]. split.
    + unfold table_ok. by rewrite (ex_table _ _ _ _ X).
    + intros i Hi. rewrite (ex_next _ _ _ _ X), (proj1 (ex_kin _ _ _ _ X i)). by apply A2.
    + intros i j Hi Hj Hij Fi%stage_free Fj%stage_free. change (pid k' i ≠ pid k' j). rewrite !Ep. apply A3; [done..| |]; apply stage_free; by apply Hu.
  - intros i Hi Hiu. rewrite Ep. auto.
  - exists q. rewrite Ep, Es, decide_False, Epar by auto. rewrite decide_False; [done|]. rewrite Hq0. pose proof (B cur Hcur). rewrite Hl in *. naive_solver lia.
  - by rewrite (ex_next _ _ _ _ X).
  - intros i Hi Hiu. rewrite Ep. intros H0. apply D0; [done|auto|]. revert H0. unfold par. rewrite (ex_ppid _ _ _ _ X). by case_decide.
  - intros i Hi Hs. assert (stg k i = Living ∨ stg k i = Ended) as Hs' by (rewrite Es in Hs; case_decide; subst; [by left|done]).
    rewrite (Epar i Hi Hs'). case_decide as Hp.
    + intros _. exists q. rewrite Ep, Es, decide_False by done. split_and!; [done| |done..]. intros ->. rewrite Hq0 in Hp. pose proof (B cur Hcur). rewrite Hl in *. naive_solver lia.
    + intros H0. destruct (F i Hi Hs' H0) as (j & Hj & Hji & Hjl & Hjp). exists j. rewrite Ep, Es, decide_False by (intros ->; done). done.
  - rewrite fmap_app. apply NoDup_app. split_and!; [done| |apply NoDup_singleton]. intros z ([z' s] & -> & Hin)%list_elem_of_fmap Hz%list_elem_of_singleton. by eapply Hnew.
  - intros z st [Hin|[= -> ->]%list_elem_of_singleton]%elem_of_app; rewrite (ex_next _ _ _ _ X); [by eapply H|].
    split; [apply B; [done|by rewrite Hl]|apply A, Hcur].
  - intros i z st Hi. rewrite Es, Ep. intros [Hin|[= -> ->]%list_elem_of_singleton]%elem_of_app Hz; case_decide as Hne; try done; [by eapply I|].
    intros Hil. apply Hne. apply (pid_inj k); try done; [by rewrite Hil|by rewrite Hl].
  - done.
  - intros r Hr. destruct (K r Hr) as (? & ? & Hi). split_and!; [apply elem_of_app; by left|done|]. intros i Hio. rewrite Ep, Es. intros Er. case_decide; [|by apply Hi].
    subst. by edestruct Hnew.
  - intros i Hi. rewrite Es, Ep, Ec. case_decide; [subst|]; intros He; apply elem_of_app; [right; by apply list_elem_of_singleton|left; auto].
  - intros z st [Hin|[= -> ->]%list_elem_of_singleton]%elem_of_app.
    + destruct (M z st Hin) as [|(i & Hi & He & Hz & Hst)]; [by left|]. right. exists i. assert (i ≠ cur) by (intros ->; by rewrite Hl in He). by rewrite Ep, Es, Ec, !decide_False.
    + right. exists cur. by rewrite Ep, Es, Ec, !decide_True.
Qed.

Lemma exit_census k cur status E R : census k E R → slot_ok cur → stg k cur = Living → pid k cur ≠ 1 →
  census (exit_section cur status k) (E ++ [(pid k cur, s32 status)]) R.
Proof.
  intros Hc Hcur Hl H1. eapply exited_census; [done..|]. apply exit_section_spec; [apply Hc|apply Hcur|apply live_stage; by left|done].
Qed.

(** ** A process is born *)

(** Something happens to the slot [c], which stays unused. *)
Record hidden (c : nat) (k k' : kernel_t) : Prop := {
  hd_next : next_pid k <= next_pid k';
  hd_table : length (proc_table k') = length (proc_table k);
  hd_others j : j ≠ c → proc k' j = proc k j;
  hd_free : stg k c = Unused;
  hd_still : stg k' c = Unused;
  hd_pid : pid k' c < next_pid k'
}.

Lemma hidden_stg c k k' j : hidden c k k' → stg k' j = stg k j.
Proof. intros H. destruct (decide (j = c)) as [->|Hj]; [by rewrite (hd_free _ _ _ H), (hd_still _ _ _ H)|unfold stg; by rewrite (hd_others _ _ _ H)]. Qed.
Lemma hidden_used c k k' j : hidden c k k' → stg k j ≠ Unused → proc k' j = proc k j.
Proof. intros H Hj. apply (hd_others _ _ _ H). intros ->. by destruct Hj, H. Qed.

Lemma hidden_census k k' c E R : census k E R → hidden c k k' → census k' E R.
Proof.
  intros [A B C D D0 F G H I J K L M] X. pose proof (λ j, hidden_stg c k k' j X) as Es. pose proof (hd_next _ _ _ X) as Hn.
  assert (∀ j, stg k j ≠ Unused → pid k' j = pid k j ∧ par k' j = par k j ∧ code k' j = code k j) as Eu.
  { intros j Hj. unfold pid, par, code. by rewrite (hidden_used c k k' j X Hj). }
  split.
  - destruct A as [A1 A2 A3]. split.
    + unfold table_ok. by rewrite (hd_table _ _ _ X).
    + intros i Hi. destruct (decide (i = c)) as [->|Hne]; [by apply (hd_pid _ _ _ X)|]. rewrite (hd_others _ _ _ X) by done. specialize (A2 i Hi). lia.
    + intros i j Hi Hj Hij Fi%stage_free Fj%stage_free. fold (stg k' i) in Fi. fold (stg k' j) in Fj. rewrite Es in Fi, Fj.
      change (pid k' i ≠ pid k' j). rewrite (proj1 (Eu i Fi)), (proj1 (Eu j Fj)). apply A3; [done..| |]; by apply stage_free.
  - intros i Hi. rewrite Es. intros Hu. rewrite (proj1 (Eu i Hu)). auto.
  - destruct C as (q & Hq & Hql & ? & ?). exists q. rewrite Es. destruct (Eu q) as (-> & -> & _); [by rewrite Hql|done].
  - lia.
  - intros i Hi. rewrite Es. intros Hu. destruct (Eu i Hu) as (-> & -> & _). auto.
  - intros i Hi. rewrite Es. intros Hs. destruct (Eu i) as (_ & -> & _); [by destruct Hs as [-> | ->]|]. intros H0.
    destruct (F i Hi Hs H0) as (j & Hj & Hji & Hjl & Hjp). exists j. rewrite Es. by destruct (Eu j) as (-> & _); [rewrite Hjl|].
  - done.
  - intros z st Hin. specialize (H z st Hin). lia.
  - intros i z st Hi Hin. rewrite Es. destruct (decide (stg k i = Unused)) as [->|Hu]; [done|]. rewrite (proj1 (Eu i Hu)). by apply (I i z st).
  - done.
  - intros r Hr. destruct (K r Hr) as (Hin & ? & Hi). split_and!; [done..|]. intros i Hio. rewrite Es. destruct (decide (stg k i = Unused)) as [->|Hu]; [done|].
    rewrite (proj1 (Eu i Hu)). by apply Hi.
  - intros i Hi. rewrite Es. intros He. destruct (Eu i) as (-> & _ & ->); [by rewrite He|auto].
  - intros z st Hin. destruct (M z st Hin) as [|(i & Hi & He & Hz & Hst)]; [by left|]. right. exists i. rewrite Es. by destruct (Eu i) as (-> & _ & ->); [rewrite He|].
Qed.

Lemma proc_alloc_spec `{PageConfig} kernel_sp_of k c k' : pids_ok k → proc_alloc kernel_sp_of k = (Some c, k') →
  slot_ok c ∧ hidden c k k' ∧ pid k' c = next_pid k.
Proof.
  intros Hp. unfold proc_alloc. pose proof (scan_free_spec k (PROC_MAX - 1) 1) as Hs.
  destruct (scan_free k (PROC_MAX - 1) 1) as [c0|]; [|done]. destruct Hs as (Hc & Hf & _). intros [= -> <-].
  assert (c < PROC_MAX)%nat as Hcm by lia. set (k1 := upd_proc c (λ _, proc_fresh kernel_sp_of k c) k).
  assert (∀ j, proc (set_next_pid (next_pid k + 1) k1) j = if decide (j = c) then proc_fresh kernel_sp_of k c else proc k j) as E1 by (intros j; apply (proc_upd k); [apply Hp|done]).
  split; [unfold slot_ok; lia|]. split.
  - split; [cbn; lia|apply length_alter|intros j Hj; by rewrite E1, decide_False|unfold stg; by rewrite Hf|unfold stg; by rewrite E1, decide_True|].
    unfold pid. rewrite E1, decide_True by done. change (next_pid k < next_pid k + 1). lia.
  - unfold pid. by rewrite E1, decide_True.
Qed.

Lemma vfork_setup_spec cur c k : pids_ok k → slot_ok c → c ≠ cur → stg k c = Unused →
  hidden c k (vfork_setup cur c k) ∧ pid (vfork_setup cur c k) c = pid k c ∧ par (vfork_setup cur c k) c = pid k cur.
Proof.
  intros Hp [H1 H2] Hne Hf. assert (∀ j, proc (vfork_setup cur c k) j = if decide (j = c) then vfork_child (proc k cur) (proc k c) cur else proc k j) as E.
  { intros j. apply proc_upd; [apply Hp|done]. }
  split_and!.
  - split; [done|apply length_alter|intros j Hj; by rewrite E, decide_False|done|unfold stg; rewrite E, decide_True by done; exact Hf|].
    unfold pid. rewrite E, decide_True by done. apply (pids_below _ Hp c H2).
  - unfold pid. by rewrite E, decide_True.
  - unfold par. by rewrite E, decide_True.
Qed.

(** The child [c] of [cur] becomes a process. *)
Record born (cur c : nat) (k k' : kernel_t) : Prop := {
  bo_next : next_pid k' = next_pid k;
  bo_table : length (proc_table k') = length (proc_table k);
  bo_kin j : kin (proc k' j) = kin (proc k j);
  bo_others j : j ≠ c → j ≠ cur → proc k' j = proc k j;
  bo_parent : p_state (proc k' cur) = PROC_BLOCKED;
  bo_child : p_state (proc k' c) = PROC_RUNNABLE
}.

Lemma vfork_publish_spec cur c k : table_ok k → (cur < PROC_MAX)%nat → (c < PROC_MAX)%nat → c ≠ cur → born cur c k (vfork_publish cur c k).
Proof.
  intros Ht Hcur Hc Hne. unfold vfork_publish. set (k1 := upd_proc cur _ k).
  assert (∀ j, proc k1 j = if decide (j = cur) then set_p_state PROC_BLOCKED (set_p_wait_channel 0 (proc k cur)) else proc k j) as E1 by (intros j; apply proc_upd; done).
  assert (table_ok k1 ∧ next_pid k1 = next_pid k ∧ length (proc_table k1) = length (proc_table k)) as (T1 & N1 & L1).
  { split_and!; [by apply table_ok_upd|done|apply length_alter]. } clearbody k1.
  assert (∀ j, proc (upd_proc c (set_p_state PROC_RUNNABLE) k1) j = if decide (j = c) then set_p_state PROC_RUNNABLE (proc k1 c) else proc k1 j) as E2 by (intros j; apply proc_upd; done).
  split.
  - done.
  - transitivity (length (proc_table k1)); [apply length_alter|done].
  - intros j. rewrite E2. destruct (decide (j = c)) as [->|]; rewrite E1; [by rewrite decide_False|]. by case_decide; subst.
  - intros j J1 J2. by rewrite E2, decide_False, E1, decide_False.
  - by rewrite E2, decide_False, E1, decide_True.
  - by rewrite E2, decide_True.
Qed.

(** A call of [sys_vfork] by [i] whose child is to have the slot [c]. *)
Record fork_ok (k : kernel_t) (at_ : gmap nat (wait_args * wait_at)) (E : list (Z * Z)) (i c : nat) : Prop := {
  fk_parent : slot_ok i ∧ stg k i = Living ∧ at_ !! i = None;
  fk_child : slot_ok c ∧ stg k c = Unused ∧ 0 < pid k c;
  fk_fresh j : (j < PROC_MAX)%nat → j ≠ c → stg k j ≠ Unused → pid k j ≠ pid k c;
  fk_exits st : (pid k c, st) ∉ E
}.

Lemma fork_apart k at_ E i c : fork_ok k at_ E i c → c ≠ i.
Proof. intros [(_ & Hl & _) (_ & Hu & _) _ _] ->. congruence. Qed.

Lemma born_census k k' cur c at_ E R : census k E R → fork_ok k at_ E cur c → par k c = pid k cur → born cur c k k' → census k' E R.
Proof.
  intros [A B C D D0 F G H I J K L M] W Hpar X. pose proof (fork_apart _ _ _ _ _ W) as Hne. destruct W as [(Hcur & Hl & _) (Hc & Hf & Hpos) Hfresh Hexits].
  assert (∀ j, pid k' j = pid k j ∧ par k' j = par k j ∧ code k' j = code k j) as Ek by (intros j; pose proof (bo_kin _ _ _ _ X j) as Ej; unfold pid, par, code; injection Ej; auto).
  assert (∀ j, stg k' j = if decide (j = c) then Living else stg k j) as Es.
  { intros j. case_decide as Hj; [subst; unfold stg; by rewrite (bo_child _ _ _ _ X)|]. destruct (decide (j = cur)) as [->|Hn]; [|unfold stg; by rewrite (bo_others _ _ _ _ X)].
    rewrite Hl. unfold stg. by rewrite (bo_parent _ _ _ _ X). }
  split.
  - destruct A as [A1 A2 A3]. split.
    + unfold table_ok. by rewrite (bo_table _ _ _ _ X).
    + intros i Hi. rewrite (bo_next _ _ _ _ X). change (pid k' i < next_pid k). rewrite (proj1 (Ek i)). by apply A2.
    + intros i j Hi Hj Hij Fi%stage_free Fj%stage_free. fold (stg k' i) in Fi. fold (stg k' j) in Fj. change (pid k' i ≠ pid k' j).
      rewrite Es in Fi, Fj. rewrite (proj1 (Ek i)), (proj1 (Ek j)). repeat case_decide; subst; try solve [done|by apply Hfresh|by apply not_eq_sym, Hfresh].
      apply A3; [done..| |]; by apply stage_free.
  - intros i Hi. rewrite Es, (proj1 (Ek i)). case_decide; [by subst|auto].
  - destruct C as (q & Hq & Hql & Hq1 & Hq0). assert (q ≠ c) by (intros ->; by rewrite Hql in Hf). exists q. destruct (Ek q) as (-> & -> & _). by rewrite Es, decide_False.
  - by rewrite (bo_next _ _ _ _ X).
  - intros i Hi. rewrite Es. destruct (Ek i) as (-> & -> & _). case_decide; [|auto]. subst. rewrite Hpar. intros _ Hz0. pose proof (B cur Hcur). rewrite Hl in *. naive_solver lia.
  - intros i Hi. rewrite Es. destruct (Ek i) as (_ & -> & _). case_decide as Hic.
    + intros _ _. exists cur. subst. rewrite Es, (proj1 (Ek cur)), decide_False by done. done.
    + intros Hs H0. destruct (F i Hi Hs H0) as (j & Hj & Hji & Hjl & Hjp). assert (j ≠ c) by (intros ->; by rewrite Hjl in Hf). exists j. by rewrite Es, (proj1 (Ek j)), decide_False.
  - done.
  - intros z st. rewrite (bo_next _ _ _ _ X). apply H.
  - intros i z st Hi Hin. rewrite (proj1 (Ek i)), Es. case_decide; [|by apply (I i z st)]. subst. intros <-. by destruct (Hexits st).
  - done.
  - intros r Hr. destruct (K r Hr) as (Hin & ? & Hi). split_and!; [done..|]. intros i Hio. rewrite (proj1 (Ek i)), Es. case_decide; [done|by apply Hi].
  - intros i Hi. rewrite Es. destruct (Ek i) as (-> & _ & ->). case_decide; [done|auto].
  - intros z st Hin. destruct (M z st Hin) as [|(i & Hi & He & Hz & Hst)]; [by left|]. right. assert (i ≠ c) by (intros ->; by rewrite Hf in He).
    exists i. destruct (Ek i) as (-> & _ & ->). by rewrite Es, decide_False.
Qed.

(** ** The calls *)

Abbreviation calls_t := (gmap nat (wait_args * wait_at)).

Record calls (k : kernel_t) (at_ : calls_t) (E : list (Z * Z)) : Prop := {
  cl_slot i x : at_ !! i = Some x → slot_ok i ∧ stg k i = Living;
  cl_stopped i a j p : at_ !! i = Some (a, AtStopped j p) → slot_ok j;
  cl_zombie i a j z st c : at_ !! i = Some (a, AtZombie j z st c) → slot_ok j ∧ (z, st) ∈ E;
  cl_reap i a j z sp : at_ !! i = Some (a, AtReap j z sp) → slot_ok j ∧ stg k j = Removed;
  cl_reap_inj i i' a a' j z z' sp sp' : at_ !! i = Some (a, AtReap j z sp) → at_ !! i' = Some (a', AtReap j z' sp') → i = i'
}.

(** The stages the calls rely on are kept. *)
Lemma calls_mono k k' at_ E E' : calls k at_ E → (∀ z st, (z, st) ∈ E → (z, st) ∈ E') → (∀ i x, at_ !! i = Some x → stg k' i = Living) →
  (∀ i, stg k i = Removed → stg k' i = Removed) → calls k' at_ E'.
Proof.
  intros [A B C D F] HE Hl Hr. split.
  - intros i x Hi. split; [by eapply A|by eapply Hl].
  - done.
  - intros i a j z st c Hi. destruct (C i a j z st c Hi). auto.
  - intros i a j z sp Hi. destruct (D i a j z sp Hi). auto.
  - done.
Qed.

Lemma calls_tame k k' at_ E : calls k at_ E → tame k k' → calls k' at_ E.
Proof. intros Hc Ht. eapply calls_mono; [done|done|..]; intros i; rewrite (ta_stg _ _ Ht); [|done]. apply (cl_slot _ _ _ Hc). Qed.

Lemma calls_delete k at_ E i : calls k at_ E → calls k (delete i at_) E.
Proof.
  intros [A B C D F]. split; intros *; rewrite ?lookup_delete_Some; [intros [_ ?]; eauto..|]. intros [_ ?] [_ ?]. eauto.
Qed.

Lemma calls_insert k at_ E i a x : calls k at_ E → slot_ok i → stg k i = Living →
  match x with
  | AtScan => True
  | AtStopped j _ => slot_ok j
  | AtZombie j z st _ => slot_ok j ∧ (z, st) ∈ E
  | AtReap j _ _ => slot_ok j ∧ stg k j = Removed ∧ ∀ i' a' z sp, at_ !! i' ≠ Some (a', AtReap j z sp)
  end → calls k (<[i := (a, x)]> at_) E.
Proof.
  intros [A B C D F] Hi Hl Hx. split; intros *; rewrite ?lookup_insert_Some.
  - intros [[<- <-]|[_ ?]]; eauto.
  - intros [[<- [= _ ->]]|[_ ?]]; eauto.
  - intros [[<- [= _ ->]]|[_ ?]]; eauto.
  - intros [[<- [= _ ->]]|[_ ?]]; [tauto|eauto].
  - intros [[<- [= _ ->]]|[_ ?]] [[<- [= _ E2]]|[_ ?]]; [done|destruct Hx as (_ & _ & Hn); by edestruct Hn|..].
    + subst. destruct Hx as (_ & _ & Hn). by edestruct Hn.
    + eauto.
Qed.

(** ** Quiet *)

(** A call by the process [me] has to report slot [j]. *)
Definition wanted (k : kernel_t) (me : Z) (a : wait_args) (j : nat) : Prop :=
  slot_ok j ∧ (0 < wa_pid a → pid k j = s32 (wa_pid a)) ∧
  (p_state (proc k j) = PROC_ZOMBIE ∧ (par k j = me ∨ p_tracer_pid (proc k j) = me) ∨
   bset (wa_options a) WSTOPPED = true ∧ p_state (proc k j) = PROC_TRACED_STOP ∧ p_trace_wait_pending (proc k j) = true ∧ p_tracer_pid (proc k j) = me).

Definition asleep (k : kernel_t) (at_ : calls_t) (i : nat) (a : wait_args) : Prop := at_ !! i = Some (a, AtScan) ∧ p_state (proc k i) = PROC_BLOCKED.

Definition quiet (k : kernel_t) (at_ : calls_t) : Prop := ∀ i a j, asleep k at_ i a → ¬ wanted k (pid k i) a j.

Lemma quiet_mono k k' at_ at' : quiet k at_ → (∀ i a, asleep k' at' i a → asleep k at_ i a ∧ pid k' i = pid k i ∧
  ∀ j, slot_ok j → wanted k' (pid k i) a j → wanted k (pid k i) a j) → quiet k' at'.
Proof.
  intros Hq H i a j Ha Hw. destruct (H i a Ha) as (Ha' & Ep & Hw'). rewrite Ep in Hw. apply (Hq i a j Ha'), Hw'; [apply Hw|done].
Qed.

Lemma quiet_calm k k' at_ : quiet k at_ → calm k k' → quiet k' at_.
Proof.
  intros Hq Hc. eapply quiet_mono; [done|]. intros i a [Hi Hb]. pose proof (calm_tame _ _ Hc) as Ht. split_and!; [|by apply Ht|].
  - split; [done|]. by apply (roused_live _ _ (cm_state _ _ Hc i)).
  - intros j Hj. unfold wanted. rewrite (ta_pid _ _ Ht), (ta_par _ _ Ht). destruct (calm_pid _ _ j Hc) as (_ & _ & -> & -> & _).
    pose proof (roused_live _ _ (cm_state _ _ Hc j)). naive_solver.
Qed.

(** What happens to one process that is not in a call, or runs. *)
Lemma quiet_upd k at_ c f : quiet k at_ → (c < PROC_MAX)%nat → p_pid (f (proc k c)) = p_pid (proc k c) →
  (∀ a, at_ !! c = Some (a, AtScan) → p_state (f (proc k c)) = PROC_BLOCKED → p_state (proc k c) = PROC_BLOCKED) →
  (p_ppid (f (proc k c)) = p_ppid (proc k c)) →
  (p_state (f (proc k c)) = PROC_ZOMBIE → p_state (proc k c) = PROC_ZOMBIE ∧ (p_tracer_pid (f (proc k c)) = p_tracer_pid (proc k c) ∨ p_tracer_pid (f (proc k c)) = 0)) →
  (p_state (f (proc k c)) = PROC_TRACED_STOP → p_trace_wait_pending (f (proc k c)) = true → p_state (proc k c) = PROC_TRACED_STOP ∧ p_trace_wait_pending (proc k c) = true ∧
     p_tracer_pid (f (proc k c)) = p_tracer_pid (proc k c)) →
  (∀ i a, asleep k at_ i a → 0 < pid k i) → quiet (upd_proc c f k) at_.
Proof.
  intros Hq Hcm H1 H2 H3 H4 H5 Hpos. eapply quiet_mono; [done|]. intros i a [Hi Hb].
  assert (asleep k at_ i a) as Ha. { split; [done|]. destruct (proc_upd_any k c i f) as [[E ->]|E]; rewrite E in Hb; [by eapply H2|done]. }
  split_and!; [done| |].
  - unfold pid. by destruct (proc_upd_any k c i f) as [[-> ->]| ->].
  - intros j Hj. unfold wanted, pid, par. destruct (proc_upd_any k c j f) as [[-> ->]| ->]; [|done]. rewrite H1, H3.
    specialize (Hpos i a Ha). unfold pid in Hpos. intros (? & ? & [[Ez [?|?]]|(? & Et & ? & ?)]).
    + split_and!; [done..|]. left. naive_solver.
    + destruct (H4 Ez) as [? [?|?]]; [|lia]. split_and!; [done..|]. left. naive_solver congruence.
    + destruct H5 as (? & ? & ?); [done..|]. split_and!; [done..|]. right. naive_solver congruence.
Qed.

Lemma quiet_delete k at_ i : quiet k at_ → quiet k (delete i at_).
Proof. intros Hq i' a j [Hi Hb]. apply lookup_delete_Some in Hi as [_ Hi]. by apply Hq. Qed.

Lemma quiet_insert k at_ i x : quiet k at_ → p_state (proc k i) ≠ PROC_BLOCKED → quiet k (<[i := x]> at_).
Proof. intros Hq Hn i' a j [Hi Hb]. apply lookup_insert_Some in Hi as [[-> _]|[_ Hi]]; [done|by apply Hq]. Qed.

(** ** The scan *)

Lemma wait_scan_spec cur a k n i b : (1 <= i)%nat → (i + n <= PROC_MAX)%nat →
  match wait_scan cur (wa_pid a) (wa_options a) k n i b with
  | FoundStopped j z => slot_ok j
  | FoundZombie j z st c => slot_ok j ∧ p_state (proc k j) = PROC_ZOMBIE ∧ z = pid k j ∧ st = code k j
  | _ => ∀ j, (i <= j < i + n)%nat → ¬ wanted k (pid k cur) a j
  end.
Proof.
  revert i b. induction n as [|n IH]; intros i b Hi Hn; cbn [wait_scan]; [destruct b; intros; lia|].
  assert (∀ b', ¬ wanted k (pid k cur) a i →
    match wait_scan cur (wa_pid a) (wa_options a) k n (S i) b' with
    | FoundStopped j z => slot_ok j
    | FoundZombie j z st c => slot_ok j ∧ p_state (proc k j) = PROC_ZOMBIE ∧ z = pid k j ∧ st = code k j
    | _ => ∀ j, (i <= j < i + S n)%nat → ¬ wanted k (pid k cur) a j
    end) as Hgo.
  { intros b' Hw. specialize (IH (S i) b' ltac:(lia) ltac:(lia)). destruct (wait_scan _ _ _ _ n (S i) b'); try done;
      intros j Hj; (destruct (decide (j = i)) as [->|]; [done|apply IH; lia]). }
  fold (pid k cur) (pid k i) (par k i) (code k i).
  destruct (proc_state_is_live _) eqn:Hl; cbn [negb]; [|apply Hgo; intros (_ & _ & [[E _]|(_ & E & _)]); by rewrite E in Hl].
  destruct (_ && negb (p_tracer_pid (proc k i) =? _)) eqn:E1; [apply Hgo; intros (_ & _ & W); apply andb_true_iff in E1 as [A%negb_true_iff%Z.eqb_neq B%negb_true_iff%Z.eqb_neq]; tauto|].
  destruct ((0 <? wa_pid a) && _) eqn:E2; [apply Hgo; intros (_ & W & _); apply andb_true_iff in E2 as [A%Z.ltb_lt B%negb_true_iff%Z.eqb_neq]; auto|].
  destruct (bset _ WSTOPPED && _ && _) eqn:E3; [unfold slot_ok; lia|].
  destruct (decide (p_state (proc k i) = PROC_ZOMBIE)) as [Ez|Ez].
  { rewrite (bool_decide_true (_ = PROC_ZOMBIE)) by done. unfold slot_ok. split_and!; [lia|lia|done..]. }
  rewrite (bool_decide_false (_ = PROC_ZOMBIE)) by done. apply Hgo. intros (_ & _ & [[? _]|(W1 & W2 & W3 & _)]); [done|].
  by rewrite W1, (bool_decide_true _ W2), W3 in E3.
Qed.

(** ** What the sections do *)

(** A process stops for its tracer. *)
Lemma quiet_stop k at_ c f : quiet k at_ → pids_ok k → (c < PROC_MAX)%nat → p_pid (f (proc k c)) = p_pid (proc k c) → p_state (f (proc k c)) = PROC_TRACED_STOP →
  (∀ i x, at_ !! i = Some x → slot_ok i ∧ stg k i = Living) → stg k c = Living →
  quiet (proc_wake_blocked_pid_locked (p_tracer_pid (proc (upd_proc c f k) c)) (upd_proc c f k)) at_.
Proof.
  intros Hq Hp Hc Ef Hs Hat Hl. set (k1 := upd_proc c f k). set (k2 := proc_wake_blocked_pid_locked _ k1).
  assert (calm k1 k2) as Hc2 by apply calm_wake_pid. assert (∀ j, proc k1 j = if decide (j = c) then f (proc k c) else proc k j) as E1 by (intros j; apply proc_upd; [apply Hp|done]).
  assert (pids_ok k1) as Hp1. { apply pids_upd; try done. intros _. apply stage_free. fold (stg k c). by rewrite Hl. }
  assert (∀ i a, asleep k2 at_ i a → i ≠ c ∧ asleep k1 at_ i a ∧ pid k1 i ≠ p_tracer_pid (proc k1 c)) as Ha.
  { intros i a [Hi Hb]. assert (p_state (proc k1 i) = PROC_BLOCKED) as Hb1 by (by apply (roused_live _ _ (cm_state _ _ Hc2 i))).
    destruct (Hat i _ Hi) as [Hio Hil]. split_and!; [|done|].
    - intros ->. by rewrite E1, decide_True, Hs in Hb1.
    - intros Ep. eapply (wake_pid_wakes k1 i); [done|apply Hio|by rewrite Hb1|]. change (p_state (proc (proc_wake_blocked_pid_locked (pid k1 i) k1) i) = PROC_BLOCKED). by rewrite Ep. }
  eapply quiet_mono; [done|]. intros i a Hi. destruct (Ha i a Hi) as (Hne & [_ Hb] & Hpt). pose proof (calm_tame _ _ Hc2) as Ht.
  assert (pid k1 i = pid k i) as Epi by (unfold pid; by rewrite E1, decide_False). split_and!.
  - split; [apply Hi|]. by rewrite E1, decide_False in Hb.
  - by rewrite (ta_pid _ _ Ht).
  - intros j Hj. unfold wanted. rewrite (ta_pid _ _ Ht), (ta_par _ _ Ht). destruct (calm_pid _ _ j Hc2) as (_ & _ & -> & -> & _).
    pose proof (roused_live _ _ (cm_state _ _ Hc2 j)) as (_ & _ & -> & _ & _ & -> & _). unfold pid at 1. unfold par at 1.
    rewrite E1. case_decide as Hjc; [subst|done]. intros (_ & _ & [[E _]|(_ & _ & _ & E)]); [by rewrite Hs in E|]. exfalso. apply Hpt. by rewrite Epi, E1, decide_True.
Qed.

Lemma quiet_exit k at_ cur k' E R status : census k E R → calls k at_ E → quiet k at_ → slot_ok cur → stg k cur = Living → exited cur status k k' → quiet k' at_.
Proof.
  intros Hc Hcl Hq Hcur Hl X. eapply quiet_mono; [done|]. intros i a [Hi Hb]. destruct (cl_slot _ _ _ Hcl i _ Hi) as [Hio Hil].
  assert (i ≠ cur) as Hne by (intros ->; by rewrite (ex_zombie _ _ _ _ X) in Hb). assert (pid k i > 0) as Hpos by (apply Z.lt_gt, (ce_pos _ _ _ Hc); [done|by rewrite Hil]).
  pose proof (ex_state _ _ _ _ X i Hne) as Hr. assert (p_state (proc k i) = PROC_BLOCKED) as Hbk by (by apply (roused_live _ _ Hr)).
  assert (proc_state_is_live (p_state (proc k i)) = true) as Hli by (by rewrite Hbk). assert (i < PROC_MAX)%nat as Him by apply Hio.
  split_and!; [done|by apply (ex_kin _ _ _ _ X)|]. intros j Hj. unfold wanted, pid at 1, par at 1.
  destruct (ex_kin _ _ _ _ X j) as (-> & -> & -> & _). rewrite (ex_ppid _ _ _ _ X).
  destruct (decide (j = cur)) as [->|Hjc].
  - rewrite (ex_zombie _ _ _ _ X). intros (_ & _ & [[_ [E1|E1]]|(_ & E1 & _)]); [| |done].
    + exfalso. case_decide as Hd.
      * destruct Hd as (_ & _ & Hpp). destruct (ce_parent _ _ _ Hc cur Hcur (or_introl Hl)) as (q & Hq1 & Hq2 & Hq3 & Hq4).
        { unfold par. rewrite Hpp. pose proof (ce_pos _ _ _ Hc cur Hcur) as Hps. rewrite Hl in Hps. unfold pid in Hps. naive_solver lia. }
        apply Hq2. eapply pid_inj; [apply Hc|done|done|by rewrite Hq3|by rewrite Hl|]. by rewrite Hq4.
      * by apply (ex_parent _ _ _ _ X i).
    + exfalso. apply (ex_tracer _ _ _ _ X i); try done. rewrite E1. unfold pid in *. lia.
  - pose proof (ex_state _ _ _ _ X j Hjc) as Hrj. pose proof (roused_live _ _ Hrj) as (_ & _ & -> & _ & _ & -> & _).
    intros (_ & Hpid & [[Hz [E1|E1]]|Hw]); (split_and!; [done..|]); [|left; split; [done|by right]|by right]. left. split; [done|]. case_decide as Hd; [|by left].
    exfalso. apply (ex_init _ _ _ _ X j i); try done. apply Hd.
Qed.

Lemma quiet_born k at_ cur c k' : quiet k at_ → at_ !! cur = None → born cur c k k' → quiet k' at_.
Proof.
  intros Hq Hcur X. eapply quiet_mono; [done|]. intros i a [Hi Hb]. assert (i ≠ cur) as Hne by (intros ->; congruence).
  pose proof (bo_child _ _ _ _ X) as Es. pose proof (bo_parent _ _ _ _ X) as Es'.
  assert (i ≠ c) as Hic by (intros ->; congruence). unfold asleep, pid. rewrite (bo_others _ _ _ _ X i) in * by done. split_and!; [done..|].
  intros j Hj. unfold wanted, pid, par. destruct (decide (j = c)) as [->|Hjc]; [rewrite Es; naive_solver|]. destruct (decide (j = cur)) as [->|Hjr]; [rewrite Es'; naive_solver|].
  by rewrite (bo_others _ _ _ _ X j).
Qed.

Lemma quiet_hidden k at_ c k' : quiet k at_ → hidden c k k' → quiet k' at_.
Proof.
  intros Hq X. eapply quiet_mono; [done|]. intros i a [Hi Hb].
  assert (stg k i ≠ Unused) as Hu by (rewrite <- (hidden_stg _ _ _ i X); unfold stg; by rewrite Hb).
  unfold asleep, pid. rewrite (hidden_used _ _ _ i X Hu) in *. split_and!; [done..|]. intros j Hj. unfold wanted, pid, par.
  destruct (decide (stg k j = Unused)) as [Huj|Huj]; [|by rewrite (hidden_used _ _ _ j X Huj)].
  rewrite <- (hidden_stg _ _ _ j X) in Huj. intros (_ & _ & [[E _]|(_ & E & _)]); unfold stg in Huj; by rewrite E in Huj.
Qed.

(** The end of a zombie in the table. *)
Lemma freed_calls k k' at_ E i a j z sp : calls k at_ E → at_ !! i = Some (a, AtReap j z sp) → restaged j Unused k k' → calls k' (delete i at_) E.
Proof.
  intros [A B C D F] Hi Hr. assert (∀ l, stg k l ≠ Removed → stg k l = stg k' l ∨ l = j) as Hs by (intros l _; rewrite (re_stg _ _ _ _ Hr); case_decide; auto).
  destruct (D _ _ _ _ _ Hi) as [_ Hrem]. split; intros *; rewrite ?lookup_delete_Some.
  - intros [_ Hl]. destruct (A _ _ Hl) as [? El]. split; [done|]. rewrite (re_stg _ _ _ _ Hr), decide_False; [done|]. intros ->. by rewrite Hrem in El.
  - intros [_ ?]. eauto.
  - intros [_ ?]. eauto.
  - intros [Hne Hl]. destruct (D _ _ _ _ _ Hl) as [? El]. split; [done|]. rewrite (re_stg _ _ _ _ Hr), decide_False; [done|]. intros ->. by apply Hne; eapply F.
  - intros [_ ?] [_ ?]. eauto.
Qed.

Lemma nodup_fst (E : list (Z * Z)) z s s' : NoDup E.*1 → (z, s) ∈ E → (z, s') ∈ E → s = s'.
Proof.
  induction E as [|[z0 s0] E IH]; cbn; [by intros _ H%elem_of_nil|]. intros [Hn Hd]%NoDup_cons Hs Hs'. apply elem_of_cons in Hs, Hs'.
  assert (∀ t, (z0, t) ∉ E) as Hz by (intros t Hin; apply Hn, list_elem_of_fmap; by exists (z0, t)).
  destruct Hs as [Hs|Hs], Hs' as [Hs'|Hs']; simplify_eq; [done|by destruct (Hz s')|by destruct (Hz s)|by apply IH].
Qed.

(** ** Calls of [sys_vfork] and [sys_ptrace] *)

Record pending (k : kernel_t) (at_ : calls_t) (cs : gmap nat call_at) (E : list (Z * Z)) : Prop := {
  pe_lone i j c d : forking cs i c → forking cs j d → i = j;
  pe_fork i c : forking cs i c → fork_ok k at_ E i c;
  pe_par i c : cs !! i = Some (AtPublish c) → par k c = pid k i;
  pe_target i t : cs !! i = Some (AtDetach t) ∨ cs !! i = Some (AtResume t) → (t < PROC_MAX)%nat
}.

(** What the other steps leave of a slot that is not used yet, and of the caller. *)
Lemma pending_mono k k' at_ at' cs E E' : pending k at_ cs E →
  (∀ j, pid k' j = pid k j) → (∀ j, stg k j = Unused → par k' j = par k j ∧ stg k' j = Unused) →
  (∀ i c, forking cs i c → stg k i = Living → at_ !! i = None → stg k' i = Living ∧ at' !! i = None) →
  (∀ z st, (z, st) ∈ E' → (z, st) ∈ E ∨ ∃ j, (j < PROC_MAX)%nat ∧ stg k j ≠ Unused ∧ z = pid k j) → pending k' at' cs E'.
Proof.
  intros [A B C D] Hp Hu Hl He. split; [done| | |done].
  - intros i c Hi. destruct (B i c Hi) as [(Hio & Hil & Hia) (Hc & Hcu & Hcp) Hf Hx]. destruct (Hu c Hcu) as [_ Hcu']. destruct (Hl i c Hi Hil Hia). split.
    + done.
    + by rewrite Hp.
    + intros j Hj Hjc Hju. rewrite !Hp. apply Hf; [done..|]. intros E0. apply Hju. by apply Hu.
    + intros st Hin. rewrite Hp in Hin. destruct (He _ _ Hin) as [?|(j & Hj & Hju & Ej)]; [by eapply Hx|].
      apply (Hf j Hj); [intros ->; by destruct Hju|done|done].
  - intros i c Hi. destruct (B i c (or_intror Hi)) as [_ (_ & Hcu & _) _ _]. rewrite Hp, (proj1 (Hu c Hcu)). auto.
Qed.

Lemma pending_tame k k' at_ at' cs E : pending k at_ cs E → tame k k' → (∀ i c, forking cs i c → at_ !! i = None → at' !! i = None) → pending k' at' cs E.
Proof.
  intros H Ht Ha. eapply pending_mono; [done|..].
  - apply Ht.
  - intros j Hj. by rewrite (ta_par _ _ Ht), (ta_stg _ _ Ht).
  - intros i c Hi Hl. rewrite (ta_stg _ _ Ht). eauto.
  - intros z st Hin. by left.
Qed.

Lemma pending_restaged k k' at_ at' cs E c st : pending k at_ cs E → restaged c st k k' → stg k c ≠ Unused → stg k c ≠ Living →
  (∀ i c, forking cs i c → at_ !! i = None → at' !! i = None) → pending k' at' cs E.
Proof.
  intros H Hr Hc Hc' Ha. eapply pending_mono; [done|..].
  - apply Hr.
  - intros j Hj. rewrite (re_par _ _ _ _ Hr), (re_stg _ _ _ _ Hr), decide_False by congruence. done.
  - intros i d Hi Hl. rewrite (re_stg _ _ _ _ Hr), decide_False by congruence. eauto.
  - intros z s Hin. by left.
Qed.

(** A process that is not in [sys_vfork] begins, goes on with or ends a call of [sys_waitpid]. *)
Lemma goes_none k (at_ : calls_t) cs E i a x nx : pending k at_ cs E → at_ !! i = Some x →
  ∀ j c, forking cs j c → at_ !! j = None → match nx with Returns _ => delete i at_ | Goes y => <[i := (a, y)]> at_ end !! j = None.
Proof.
  intros H Hi j c Hj Hn. assert (j ≠ i) by congruence. destruct nx; [by apply lookup_delete_None; right|by rewrite lookup_insert_ne].
Qed.

(** A call other than [sys_vfork] begins, goes on or returns. *)
Lemma pending_trace k at_ cs E i x : pending k at_ cs E → (∀ c, ¬ forking cs i c) →
  match x with Some (AtSetup _ | AtPublish _) => False | Some (AtDetach t | AtResume t) => (t < PROC_MAX)%nat | None => True end →
  pending k at_ (partial_alter (λ _, x) i cs) E.
Proof.
  intros [A B C D] Hi Hx. assert (∀ j c, forking (partial_alter (λ _, x) i cs) j c → forking cs j c) as Hf.
  { intros j c. unfold forking. destruct (decide (j = i)) as [->|]; [|by rewrite lookup_partial_alter_ne]. rewrite lookup_partial_alter_eq. destruct x as [[]|]; naive_solver. }
  split.
  - eauto.
  - eauto.
  - intros j c Hj. apply C. destruct (decide (j = i)) as [->|]; [|by rewrite lookup_partial_alter_ne in Hj]. rewrite lookup_partial_alter_eq in Hj. by subst.
  - intros j t. destruct (decide (j = i)) as [->|]; [|rewrite lookup_partial_alter_ne by done; apply D]. rewrite lookup_partial_alter_eq. intros [->| ->]; done.
Qed.

(** ** The invariant *)

Record life_inv `{MemHelper} (s : life_t) : Prop := {
  li_census : census (l_k s) (l_exits s) (l_reports s);
  li_calls : calls (l_k s) (l_at s) (l_exits s);
  li_quiet : quiet (l_k s) (l_at s);
  li_pending : pending (l_k s) (l_at s) (l_calls s) (l_exits s)
}.

Section Steps.
Context {cfg : PageConfig} {tgt : PageTarget} {mh : MemHelper} (big : bool) (kernel_sp_of : Z → Z).
Context (s : life_t) (Hs : life_inv s).

Lemma inv_pids : pids_ok (l_k s).
Proof. apply (ce_pids _ _ _ (li_census _ Hs)). Qed.

Lemma inv_asleep i a : asleep (l_k s) (l_at s) i a → 0 < pid (l_k s) i.
Proof. intros [Hi _]. destruct (cl_slot _ _ _ (li_calls _ Hs) i _ Hi) as [Hio Hl]. apply (ce_pos _ _ _ (li_census _ Hs)); [done|by rewrite Hl]. Qed.

Lemma inv_tame k : tame (l_k s) k → quiet k (l_at s) → life_inv (with_k s k).
Proof.
  intros Ht Hq. destruct Hs as [A B C D]. split; [by eapply tame_census|by eapply calls_tame|done|by eapply pending_tame].
Qed.

Lemma inv_calm k : calm (l_k s) k → life_inv (with_k s k).
Proof. intros Hc. apply inv_tame; [by apply calm_tame|]. eapply quiet_calm; [apply Hs|done]. Qed.

(** A change of one process that makes it no more interesting. *)
Lemma inv_upd k c f : k = upd_proc c f (l_k s) → (c < PROC_MAX)%nat →
  p_pid (f (proc (l_k s) c)) = pid (l_k s) c → p_ppid (f (proc (l_k s) c)) = par (l_k s) c → p_exit_status (f (proc (l_k s) c)) = code (l_k s) c →
  stage (p_state (f (proc (l_k s) c))) = stg (l_k s) c →
  l_at s !! c = None ∨ p_state (f (proc (l_k s) c)) ≠ PROC_BLOCKED →
  (p_state (f (proc (l_k s) c)) = PROC_ZOMBIE → p_tracer_pid (f (proc (l_k s) c)) = 0) →
  (p_state (f (proc (l_k s) c)) = PROC_TRACED_STOP → p_trace_wait_pending (f (proc (l_k s) c)) = false) → life_inv (with_k s k).
Proof.
  intros -> Hc H1 H2 H3 H4 H5 H6 H7. apply inv_tame; [by apply tame_upd|]. apply quiet_upd; try done; [apply Hs|..].
  - intros a Ha Hb. destruct H5; congruence.
  - intros Hz. split; [|right; by apply H6]. apply ended_zombie. fold (stg (l_k s) c). by rewrite <-H4, Hz.
  - intros Ht Hp. by rewrite H7 in Hp.
  - apply inv_asleep.
Qed.

Lemma inv_exit i status : may_call s i → pid (l_k s) i ≠ 1 →
  life_inv (LifeState (exit_section i status (l_k s)) (l_mm s) (l_mem s) (l_at s) (l_calls s) (l_exits s ++ [(pid (l_k s) i, s32 status)]) (l_reports s)).
Proof.
  intros (Hm & Hat & Hca) H1. destruct (may_living _ _ Hm) as (Hi & _ & Hl & Hlv & _). destruct Hs as [A B C D].
  assert (exited i status (l_k s) (exit_section i status (l_k s))) as X by (by apply exit_section_spec; [apply A|apply Hi|..]).
  split; cbn.
  - by apply exit_census.
  - eapply calls_mono; [done|intros; apply elem_of_app; by left|..].
    + intros j x Hj. unfold stg. rewrite (roused_stage _ _ (ex_state _ _ _ _ X j ltac:(congruence))). by apply (cl_slot _ _ _ B j x).
    + intros j Hj. unfold stg. rewrite (roused_stage _ _ (ex_state _ _ _ _ X j ltac:(congruence))). done.
  - eapply quiet_exit; [exact A|done..].
  - eapply pending_mono; [exact D|..].
    + intros j. apply (ex_kin _ _ _ _ X j).
    + intros j Hj. assert (j ≠ i) by congruence. unfold par. rewrite (ex_ppid _ _ _ _ X), decide_False.
      * split; [done|]. unfold stg. by rewrite (roused_stage _ _ (ex_state _ _ _ _ X j ltac:(done))).
      * intros (_ & Hlj%live_stage & _). unfold stg in Hj. rewrite Hj in Hlj. by destruct Hlj.
    + intros j c Hj Hjl Hja. split; [|done]. unfold stg. rewrite (roused_stage _ _ (ex_state _ _ _ _ X j ltac:(destruct Hj; congruence))). done.
    + intros z st [Hin|[= -> ->]%list_elem_of_singleton]%elem_of_app; [by left|right]. exists i. split; [apply Hi|]. by rewrite Hl.
Qed.

(** No other call of [sys_vfork] is under way where the new one is the only one. *)
Lemma inv_vfork i c k : may_call s i → orderly (with_call s i (AtSetup <$> c) k) → proc_alloc kernel_sp_of (l_k s) = (c, k) →
  life_inv (with_call s i (AtSetup <$> c) k).
Proof.
  intros (Hm & Hat & Hca) [Ho _] Hk. destruct (may_living _ _ Hm) as (Hi & Him & Hl & _). pose proof inv_pids as Hp. destruct Hs as [A B C D]. destruct c as [c|].
  2:{ assert (k = l_k s) as -> by (unfold proc_alloc in Hk; destruct (scan_free _ _ _); congruence).
      split; cbn; [done..|]. apply pending_trace; [done| |done]. intros d [H|H]; congruence. }
  destruct (proc_alloc_spec kernel_sp_of _ _ _ Hp Hk) as (Hc & X & Ep). cbn [fmap option_fmap option_map] in *.
  assert (∀ j d, ¬ forking (l_calls s) j d) as Hno.
  { intros j d Hj. assert (j ≠ i) as Hne by (intros ->; destruct Hj; congruence).
    apply Hne, (Ho j i d c); [|left; apply lookup_partial_alter_eq]. unfold forking. cbn [with_call l_calls]. by rewrite lookup_partial_alter_ne. }
  assert (c ≠ i) as Hci by (intros ->; rewrite (hd_free _ _ _ X) in Hl; done).
  split; cbn.
  - by eapply hidden_census.
  - eapply calls_mono; [done|done|..]; intros j; rewrite (hidden_stg _ _ _ j X); [apply (cl_slot _ _ _ B)|done].
  - by eapply quiet_hidden.
  - assert (∀ j x, partial_alter (λ _, Some (AtSetup c)) i (l_calls s) !! j = Some x → j = i ∧ x = AtSetup c ∨ l_calls s !! j = Some x) as Hlk.
    { intros j x. destruct (decide (j = i)) as [->|]; [rewrite lookup_partial_alter_eq; intros [= <-]; by left|rewrite lookup_partial_alter_ne by done; by right]. }
    assert (∀ j d, forking (partial_alter (λ _, Some (AtSetup c)) i (l_calls s)) j d → j = i ∧ d = c) as Hf.
    { intros j d [[[-> [= ->]]|H]%Hlk|[[-> ?]|H]%Hlk]; [done|by destruct (Hno j d); left|done|by destruct (Hno j d); right]. }
    split.
    + by intros ? ? ? ? [-> _]%Hf [-> _]%Hf.
    + intros j d [-> ->]%Hf. split.
      * by rewrite (hidden_stg _ _ _ i X).
      * rewrite (hidden_stg _ _ _ c X), Ep. split; [done|]. split; [apply (hd_free _ _ _ X)|]. pose proof (ce_next _ _ _ A). lia.
      * intros j Hj Hjc. rewrite (hidden_stg _ _ _ j X). intros Hju. rewrite Ep. unfold pid. rewrite (hidden_used _ _ _ j X Hju). pose proof (pids_below _ Hp j Hj). lia.
      * intros st Hin. rewrite Ep in Hin. pose proof (ce_below _ _ _ A _ _ Hin). lia.
    + intros j d [[_ ?]|H]%Hlk; [done|]. by destruct (Hno j d); right.
    + intros j t [[[_ ?]|H]%Hlk|[[_ ?]|H]%Hlk]; [done|apply (pe_target _ _ _ _ D j); auto|done|apply (pe_target _ _ _ _ D j); auto].
Qed.

Lemma inv_setup i c : l_calls s !! i = Some (AtSetup c) → life_inv (with_call s i (Some (AtPublish c)) (vfork_setup i c (l_k s))).
Proof.
  intros Hca. pose proof inv_pids as Hp. destruct Hs as [A B C D]. assert (forking (l_calls s) i c) as Hfk by by left.
  pose proof (pe_fork _ _ _ _ D _ _ Hfk) as W. pose proof (fork_apart _ _ _ _ _ W) as Hci. destruct W as [(Hi & Hl & Hat) (Hc & Hu & Hpos) Hfresh Hx].
  destruct (vfork_setup_spec i c (l_k s) Hp Hc Hci Hu) as (X & Ep & Epar). set (k := vfork_setup i c (l_k s)) in *. clearbody k.
  assert (∀ j, pid k j = pid (l_k s) j) as Epid.
  { intros j. destruct (decide (j = c)) as [->|]; [done|]. unfold pid. by rewrite (hd_others _ _ _ X). }
  split; cbn.
  - by eapply hidden_census.
  - eapply calls_mono; [done|done|..]; intros j; rewrite (hidden_stg _ _ _ j X); [apply (cl_slot _ _ _ B)|done].
  - by eapply quiet_hidden.
  - assert (∀ j x, partial_alter (λ _, Some (AtPublish c)) i (l_calls s) !! j = Some x → j = i ∧ x = AtPublish c ∨ l_calls s !! j = Some x ∧ j ≠ i) as Hlk.
    { intros j x. destruct (decide (j = i)) as [->|]; [rewrite lookup_partial_alter_eq; intros [= <-]; by left|rewrite lookup_partial_alter_ne by done; by right]. }
    assert (∀ j d, forking (partial_alter (λ _, Some (AtPublish c)) i (l_calls s)) j d → j = i ∧ d = c) as Hf.
    { intros j d [[[-> ?]|[H Hne]]%Hlk|[[-> [= ->]]|[H Hne]]%Hlk]; [done| |done|]; exfalso; apply Hne; apply (pe_lone _ _ _ _ D j i d c); try done; [by left|by right]. }
    split.
    + by intros ? ? ? ? [-> _]%Hf [-> _]%Hf.
    + intros j d [-> ->]%Hf. split.
      * by rewrite (hidden_stg _ _ _ i X).
      * by rewrite (hidden_stg _ _ _ c X), Ep.
      * intros j Hj Hjc. rewrite (hidden_stg _ _ _ j X), !Epid. by apply Hfresh.
      * intros st. rewrite Ep. apply Hx.
    + intros j d [[-> [= ->]]|[H Hne]]%Hlk; [by rewrite Epid|]. exfalso. apply Hne, (pe_lone _ _ _ _ D j i d c); [by right|done].
    + intros j t [[[_ ?]|[H _]]%Hlk|[[_ ?]|[H _]]%Hlk]; [done|apply (pe_target _ _ _ _ D j); auto|done|apply (pe_target _ _ _ _ D j); auto].
Qed.

Lemma inv_publish i c : l_calls s !! i = Some (AtPublish c) → life_inv (with_call s i None (vfork_publish i c (l_k s))).
Proof.
  intros Hca. pose proof inv_pids as Hp. destruct Hs as [A B C D]. assert (forking (l_calls s) i c) as Hfk by by right.
  pose proof (pe_fork _ _ _ _ D _ _ Hfk) as W. pose proof (fork_apart _ _ _ _ _ W) as Hci. pose proof (pe_par _ _ _ _ D _ _ Hca) as Hpar.
  pose proof (fk_parent _ _ _ _ _ W) as (Hi & Hl & Hat). pose proof (fk_child _ _ _ _ _ W) as (Hc & Hu & Hpos).
  pose proof (vfork_publish_spec i c (l_k s) (pids_table _ Hp) (proj2 Hi) (proj2 Hc) Hci) as X. set (k := vfork_publish i c (l_k s)) in *. clearbody k.
  assert (∀ j, stg (l_k s) j ≠ Unused → stg k j = stg (l_k s) j) as Ho.
  { intros j Hj. assert (j ≠ c) by (intros ->; done). destruct (decide (j = i)) as [->|Hn]; [|unfold stg; by rewrite (bo_others _ _ _ _ X)].
    rewrite Hl. unfold stg. by rewrite (bo_parent _ _ _ _ X). }
  split; cbn.
  - by eapply born_census.
  - eapply calls_mono; [done|done|..].
    + intros j x Hj. destruct (cl_slot _ _ _ B j x Hj) as [_ Hj']. by rewrite Ho; rewrite Hj'.
    + intros j Hj. by rewrite Ho; rewrite Hj.
  - by eapply quiet_born.
  - assert (∀ j x, partial_alter (λ _, None) i (l_calls s) !! j = Some x → l_calls s !! j = Some x ∧ j ≠ i) as Hlk.
    { intros j x. destruct (decide (j = i)) as [->|]; [by rewrite lookup_partial_alter_eq|by rewrite lookup_partial_alter_ne]. }
    assert (∀ j d, ¬ forking (partial_alter (λ _, None) i (l_calls s)) j d) as Hf.
    { intros j d [[H Hne]%Hlk|[H Hne]%Hlk]; apply Hne; apply (pe_lone _ _ _ _ D j i d c); try done; [by left|by right]. }
    split.
    + by intros j ? d ? []%Hf.
    + by intros j d []%Hf.
    + intros j d Hj. by destruct (Hf j d); right.
    + intros j t [[H _]%Hlk|[H _]%Hlk]; apply (pe_target _ _ _ _ D j); auto.
Qed.

(** What a tracer does to the slot it found, whatever is there by now. *)
Lemma inv_trace t f : (t < PROC_MAX)%nat → p_pid (f (proc (l_k s) t)) = pid (l_k s) t → p_ppid (f (proc (l_k s) t)) = par (l_k s) t →
  p_exit_status (f (proc (l_k s) t)) = code (l_k s) t → stage (p_state (f (proc (l_k s) t))) = stg (l_k s) t →
  p_trace_wait_pending (f (proc (l_k s) t)) = false → (p_state (f (proc (l_k s) t)) = PROC_BLOCKED → p_state (proc (l_k s) t) = PROC_BLOCKED) →
  p_tracer_pid (f (proc (l_k s) t)) = p_tracer_pid (proc (l_k s) t) ∨ p_tracer_pid (f (proc (l_k s) t)) = 0 → life_inv (with_k s (upd_proc t f (l_k s))).
Proof.
  intros Ht H1 H2 H3 H4 H5 H6 H7. apply inv_tame; [by apply tame_upd|]. apply quiet_upd; try done; [apply Hs| |by rewrite H5|apply inv_asleep].
  intros Hz. split; [|done]. apply ended_zombie. fold (stg (l_k s) t). by rewrite <- H4, Hz.
Qed.

Lemma inv_call k i x : life_inv (with_k s k) → (∀ c, ¬ forking (l_calls s) i c) →
  match x with Some (AtSetup _ | AtPublish _) => False | Some (AtDetach t | AtResume t) => (t < PROC_MAX)%nat | None => True end →
  life_inv (with_call s i x k).
Proof. intros [A B C D] Hi Hx. split; [done..|]. by apply pending_trace. Qed.

Lemma inv_call_step i x next k : l_calls s !! i = Some x → call_step i x (l_k s) = (next, k) → life_inv (with_call s i next k).
Proof.
  intros Hca Hw. destruct x as [c|c|t|t]; cbn in Hw; injection Hw as <- <-.
  - by apply inv_setup.
  - by apply inv_publish.
  - assert (t < PROC_MAX)%nat as Ht by (apply (pe_target _ _ _ _ (li_pending _ Hs) i); auto). apply inv_call; [|intros c [H|H]; congruence|done].
    apply inv_trace; try done. by right.
  - assert (t < PROC_MAX)%nat as Ht by (apply (pe_target _ _ _ _ (li_pending _ Hs) i); auto). apply inv_call; [|intros c [H|H]; congruence|done].
    apply inv_trace; try done; unfold stg; cbn; case_bool_decide as E; try done; [by rewrite E|by left|by left].
Qed.

Lemma inv_traceme i : may_call s i → life_inv (with_k s (ptrace_traceme i (l_k s)).2).
Proof.
  intros (Hm & Hat & _). destruct (may_living _ _ Hm) as (Hi & Him & Hl & _). unfold ptrace_traceme. destruct (_ || _); [by destruct s, Hs|]. cbn.
  eapply (inv_upd _ i); [done|done|done|done|done|done|by left| |done]. intros Hz. cbn in Hz. unfold stg in Hl. by rewrite Hz in Hl.
Qed.

Lemma inv_stop i f : (i < PROC_MAX)%nat → stg (l_k s) i = Living → p_pid (f (proc (l_k s) i)) = pid (l_k s) i → p_ppid (f (proc (l_k s) i)) = par (l_k s) i →
  p_exit_status (f (proc (l_k s) i)) = code (l_k s) i → p_state (f (proc (l_k s) i)) = PROC_TRACED_STOP →
  life_inv (with_k s (proc_wake_blocked_pid_locked (p_tracer_pid (proc (upd_proc i f (l_k s)) i)) (upd_proc i f (l_k s)))).
Proof.
  intros Hi Hl H1 H2 H3 H4. apply inv_tame.
  - eapply tame_trans; [|apply calm_tame, calm_wake_pid]. apply tame_upd; try done. by rewrite H4, Hl.
  - apply quiet_stop; try done; [apply Hs|apply inv_pids|]. intros j x Hj. by apply (cl_slot _ _ _ (li_calls _ Hs) j x).
Qed.

Lemma inv_attach i p : may_call s i → life_inv (with_k s (ptrace_attach i p (l_k s)).2).
Proof.
  intros Hm. unfold ptrace_attach. assert (life_inv (with_k s (l_k s))) as Hsame by (by destruct s, Hs).
  unfold trace_find_process_locked. destruct (p <=? 0); [done|]. pose proof (find_slot_spec (live_pid (s32 p)) (l_k s) (PROC_MAX - 1) 1) as Hf.
  destruct (find_slot _ _ _ 1) as [t|]; [|done]. destruct Hf as (Ht & Hlp & _). unfold live_pid in Hlp. apply andb_true_iff in Hlp as [Hlv _].
  case_bool_decide as Hz; [done|]. case_bool_decide; [done|]. destruct (_ || _); [done|]. cbn zeta. apply inv_stop; try done; [unfold PROC_MAX in *; lia|].
  apply live_stage in Hlv as [|E%ended_zombie]; done.
Qed.

Lemma inv_trace_stop i : may_call s i → life_inv (with_k s (trace_stop_current i (l_k s))).
Proof. intros [Hm _]. destruct (may_living _ _ Hm) as (_ & Him & Hl & _). by apply inv_stop. Qed.
End Steps.

Section Run.
Context {cfg : PageConfig} {tgt : PageTarget} {mh : MemHelper} (big : bool) (kernel_sp_of : Z → Z).

Lemma inv_resume s i p detach : life_inv s → may_call s i → life_inv (with_call s i (resume_begin i p detach (l_k s)) (l_k s)).
Proof.
  intros Hs (_ & _ & Hca). apply inv_call; [by destruct s, Hs|intros c [H|H]; congruence|].
  unfold resume_begin, ptrace_find, trace_find_tracee_locked. destruct (p <=? 0); [done|].
  pose proof (find_slot_spec (λ q, live_pid (s32 p) q && (p_tracer_pid q =? p_pid (proc (l_k s) i))) (l_k s) (PROC_MAX - 1) 1) as Hf.
  destruct (find_slot _ _ _ 1) as [t|]; [|done]. destruct Hf as (Ht & _). destruct (negb _); [done|]. assert (t < PROC_MAX)%nat by (unfold PROC_MAX in *; lia). by destruct detach.
Qed.

Lemma inv_sleep s i st ch until : life_inv s → may_call s i → st = PROC_BLOCKED ∨ st = PROC_SLEEPING →
  life_inv (with_k s (upd_proc i (λ p, set_p_sleep_until until (set_p_wait_channel ch (set_p_state st p))) (l_k s))).
Proof.
  intros Hs (Hm & Hat & _) Hst. destruct (may_living _ _ Hm) as (_ & Him & Hl & _). eapply (inv_upd s Hs _ i); try done; cbn; rewrite ?Hl; try naive_solver.
Qed.

(** A call goes on without a change to the processes. *)
Lemma inv_goes s i a x m mem k nx : life_inv s → may_run (l_k s) i → l_at s !! i = Some (a, x) → k = l_k s →
  match nx with
  | Returns _ | Goes AtScan => True
  | Goes (AtStopped j _) => slot_ok j
  | Goes (AtZombie j z st _) => slot_ok j ∧ (z, st) ∈ l_exits s
  | Goes (AtReap j _ _) => False
  end → life_inv (LifeState k m mem match nx with Returns _ => delete i (l_at s) | Goes at' => <[i := (a, at')]> (l_at s) end (l_calls s) (l_exits s) (l_reports s)).
Proof.
  intros [A B C D] Hm Hat -> Hnx. destruct (may_living _ _ Hm) as (Hi & _ & Hl & _ & Hb). split; cbn; [done|..].
  - destruct nx as [|y]; [by apply calls_delete|]. apply calls_insert; [done..|]. by destruct y.
  - destruct nx; [by apply quiet_delete|by apply quiet_insert].
  - eapply pending_tame; [done|apply tame_refl|]. by eapply goes_none.
Qed.

Lemma inv_changed s i a x y m mem k : life_inv s → may_run (l_k s) i → l_at s !! i = Some (a, x) → life_inv (with_k s k) → p_state (proc k i) ≠ PROC_BLOCKED →
  y = delete i (l_at s) → life_inv (LifeState k m mem y (l_calls s) (l_exits s) (l_reports s)).
Proof.
  intros Hs Hm Hat [A B C D] Hb ->. split; cbn in *; [done|by apply calls_delete|by apply quiet_delete|].
  eapply pending_tame; [done|apply tame_refl|]. by eapply (goes_none _ _ _ _ _ a _ (Returns 0)).
Qed.

Lemma inv_scan s i a next k : life_inv s → may_run (l_k s) i → l_at s !! i = Some (a, AtScan) → wait_pass i (wa_pid a) (wa_options a) (l_k s) = (next, k) → ∀ m mem,
  life_inv (LifeState k m mem match next with Returns _ => delete i (l_at s) | Goes at' => <[i := (a, at')]> (l_at s) end (l_calls s) (l_exits s) (l_reports s)).
Proof.
  intros Hs Hm Hat Hw m mem. destruct (may_living _ _ Hm) as (Hi & Him & Hl & _ & Hb). unfold wait_pass in Hw.
  pose proof (wait_scan_spec i a (l_k s) (PROC_MAX - 1) 1 false ltac:(lia) ltac:(unfold PROC_MAX; lia)) as Hsc.
  destruct (wait_scan _ _ _ _ _ 1 false) as [j z|j z st c| |] eqn:Esc.
  - injection Hw as <- <-. by eapply (inv_goes s i a AtScan m mem _ (Goes _)).
  - injection Hw as <- <-. destruct Hsc as (Hj & Hz & -> & ->). eapply (inv_goes s i a AtScan m mem _ (Goes _)); try done. split; [done|].
    apply (ce_ended _ _ _ (li_census _ Hs)); [done|by apply ended_zombie].
  - destruct (bset _ WNOHANG); [injection Hw as <- <-; by eapply (inv_goes s i a AtScan m mem _ (Returns 0))|].
    destruct (negb _); [injection Hw as <- <-; by eapply (inv_goes s i a AtScan m mem _ (Returns 0))|]. injection Hw as <- <-.
    rewrite insert_id by done. set (f := λ p, set_p_state PROC_BLOCKED (set_p_wait_channel 0 p)).
    assert (tame (l_k s) (upd_proc i f (l_k s))) as Ht by (apply tame_upd; rewrite ?Hl; done). destruct Hs as [A B C D].
    split; cbn; [by eapply tame_census|by eapply calls_tame| |by eapply pending_tame]. intros i' a' j [Hi' Hb'] Hw'.
    assert (wanted (l_k s) (pid (l_k s) i') a' j) as Hw.
    { revert Hw'. rewrite (ta_pid _ _ Ht). unfold wanted, pid, par. destruct (proc_upd_any (l_k s) i j f) as [[-> ->]| ->]; [by intros (_ & _ & [[? _]|(_ & ? & _)])|done]. }
    destruct (decide (i' = i)) as [->|Hne].
    + rewrite Hat in Hi'. injection Hi' as <-. apply (Hsc j); [|done]. destruct Hw as ((? & ?) & _). unfold PROC_MAX in *. lia.
    + apply (C i' a' j); [|done]. split; [done|]. by rewrite proc_upd_ne in Hb' by done.
  - injection Hw as <- <-. by eapply (inv_goes s i a AtScan m mem _ (Returns 0)).
Qed.

Lemma inv_stopped s i a j p next k : life_inv s → may_run (l_k s) i → l_at s !! i = Some (a, AtStopped j p) → stopped_section i j p (l_k s) = (next, k) → ∀ m mem,
  life_inv (LifeState k m mem match next with Returns _ => delete i (l_at s) | Goes at' => <[i := (a, at')]> (l_at s) end (l_calls s) (l_exits s) (l_reports s)).
Proof.
  intros Hs Hm Hat Hw m mem. destruct (may_living _ _ Hm) as (Hi & Him & Hl & _ & Hb). pose proof (cl_stopped _ _ _ (li_calls _ Hs) _ _ _ _ Hat) as Hj.
  unfold stopped_section in Hw. destruct (negb _ || _ || _ || _) eqn:E1; injection Hw as <- <-; [by eapply (inv_goes s i a _ m mem _ (Goes AtScan))|].
  assert (p_state (proc (l_k s) j) = PROC_TRACED_STOP) as Est.
  { apply orb_false_iff in E1 as [E1 _]. apply orb_false_iff in E1 as [E1 _]. apply orb_false_iff in E1 as [_ E1]. by apply negb_false_iff, bool_decide_eq_true in E1. }
  eapply inv_changed; try done.
  - eapply (inv_upd s Hs _ j); try done; [apply Hj|right; by cbn; rewrite Est|by cbn; rewrite Est].
  - destruct (proc_upd_any (l_k s) j i (set_p_trace_wait_pending false)) as [[-> ->]| ->]; [by cbn; rewrite Est|done].
Qed.

Lemma inv_zombie s i a j z st c next k : life_inv s → may_run (l_k s) i → l_at s !! i = Some (a, AtZombie j z st c) → zombie_section i j z c (l_k s) = (next, k) → ∀ m mem,
  life_inv (LifeState k m mem match next with Returns _ => delete i (l_at s) | Goes at' => <[i := (a, at')]> (l_at s) end (l_calls s) (l_exits s)
    (l_reports s ++ reported (l_k s) i (AtZombie j z st c) next)).
Proof.
  intros Hs Hm Hat Hw m mem. destruct (may_living _ _ Hm) as (Hi & Him & Hl & _ & Hb). destruct (cl_zombie _ _ _ (li_calls _ Hs) _ _ _ _ _ _ Hat) as [Hj Hin].
  assert (∀ nx, nx = Goes AtScan → life_inv (LifeState (l_k s) m mem match nx with Returns _ => delete i (l_at s) | Goes at' => <[i := (a, at')]> (l_at s) end (l_calls s) (l_exits s)
    (l_reports s ++ reported (l_k s) i (AtZombie j z st c) nx))) as Hagain.
  { intros nx ->. unfold reported. assert (life_inv (LifeState (l_k s) m mem (<[i := (a, AtScan)]> (l_at s)) (l_calls s) (l_exits s) (l_reports s))) by (by eapply (inv_goes s i a _ m mem _ (Goes AtScan))).
    destruct c; by rewrite app_nil_r. }
  unfold zombie_section in Hw. destruct (negb (_ =? z) || _) eqn:E1; [injection Hw as <- <-; by apply (Hagain (Goes AtScan))|]. apply orb_false_iff in E1 as [E1 E2].
  apply negb_false_iff, Z.eqb_eq in E1. apply negb_false_iff, bool_decide_eq_true in E2.
  assert (stg (l_k s) j = Ended) as He by (by apply ended_zombie). assert (i ≠ j) as Hij by (intros ->; congruence).
  destruct c; cbn [negb] in Hw.
  - destruct (negb _) eqn:E3; [injection Hw as <- <-; by apply (Hagain (Goes AtScan))|]. apply negb_false_iff, Z.eqb_eq in E3. injection Hw as <- <-. cbn [reported].
    set (f := λ p, set_p_stack_page_id PAGE_ID_INVALID (set_p_state PROC_REAPING p)). destruct Hs as [A B C D].
    assert (restaged j Removed (l_k s) (upd_proc j f (l_k s))) as Hr.
    { split; [done|by apply length_alter|..]; intros l; unfold pid, par, code, stg; (case_decide as Hlj || idtac); rewrite (proc_upd (l_k s)) by (apply A || apply Hj); case_decide; by subst. }
    split; cbn.
    + pose proof (removed_census _ _ j _ _ A Hr Hj He) as R. assert (code (l_k s) j = st) as Ec. { eapply nodup_fst; [apply A|by apply (ce_ended _ _ _ A)|]. unfold pid. by rewrite E1. }
      rewrite Ec in R. unfold pid, par in R. rewrite E1, E3 in R. by rewrite E3.
    + apply calls_insert; [|done|by rewrite (re_stg _ _ _ _ Hr), decide_False|].
      * eapply calls_mono; [done|done|..]; intros l; rewrite (re_stg _ _ _ _ Hr); case_decide as Hlj; try done.
        -- intros x Hx. subst. destruct (cl_slot _ _ _ B _ _ Hx) as [_ Hx']. congruence.
        -- intros x Hx. by apply (cl_slot _ _ _ B l x).
      * split_and!; [done|by rewrite (re_stg _ _ _ _ Hr), decide_True|]. intros i' a' z' sp Hx. destruct (cl_reap _ _ _ B _ _ _ _ _ Hx). congruence.
    + apply quiet_insert; [|by rewrite proc_upd_ne]. eapply quiet_upd; try done; [apply Hj|]. apply inv_asleep. by split.
    + eapply pending_restaged; [done|done|congruence|congruence|]. by eapply (goes_none _ _ _ _ _ a _ (Goes _)).
  - destruct (_ || _); [injection Hw as <- <-; by apply (Hagain (Goes AtScan))|]. injection Hw as <- <-. cbn [reported]. rewrite app_nil_r.
    eapply inv_changed; try done; [|by rewrite proc_upd_ne]. eapply (inv_upd s Hs _ j); try done; [apply Hj|right; by cbn; rewrite E2].
Qed.

Lemma inv_reap s i a j z sp m mem m' k : life_inv s → may_run (l_k s) i → l_at s !! i = Some (a, AtReap j z sp) → reap j sp (l_mm s) (l_k s) = (m', k) →
  life_inv (LifeState k m mem (delete i (l_at s)) (l_calls s) (l_exits s) (l_reports s)).
Proof.
  intros Hs Hm Hat Hw. destruct (cl_reap _ _ _ (li_calls _ Hs) _ _ _ _ _ Hat) as [Hj Hrem]. unfold reap, proc_free in Hw. injection Hw as _ <-.
  set (k1 := kmutex_release_owned j (l_k s)). assert (calm (l_k s) k1) as Hc by apply calm_release. pose proof (inv_calm s Hs k1 Hc) as Hs1.
  assert (stg k1 j = Removed) as Hrem1 by (by rewrite (ta_stg _ _ (calm_tame _ _ Hc))). clearbody k1. pose proof Hs1 as [A B C D]. cbn [l_k l_exits l_reports l_at l_calls with_k] in *.
  assert (restaged j Unused k1 (upd_proc j (set_p_state PROC_FREE) k1)) as Hr.
  { split; [done|by apply length_alter|..]; intros l; unfold pid, par, code, stg; (case_decide as Hlj || idtac); rewrite (proc_upd k1) by (apply A || apply Hj); case_decide; by subst. }
  split; cbn.
  - by eapply freed_census.
  - by eapply freed_calls.
  - apply quiet_delete. eapply quiet_upd; try done; [apply Hj|]. apply (inv_asleep (with_k s k1) Hs1).
  - eapply pending_restaged; [done|done|congruence|congruence|]. by eapply (goes_none _ _ _ _ _ a _ (Returns 0)).
Qed.

Lemma life_step_inv s s' : life_inv s → orderly_step big kernel_sp_of s s' → life_inv s'.
Proof.
  intros Hs [Hstep Ho]. destruct Hstep as [i status Hm|i c k Hm Hk|i x next k Hm Hat Hw|i Hm|i a Hm|i a x next m mem k Hm Hat Hw|i Hm|i p Hm|i Hm|i p d Hm|i p g Hm|i Hm|i p g Hm|i st ch u Hm Hst|c b|ch|k Hc].
  - apply inv_exit; [done..|]. intros H1. apply (proj2 Ho (s32 status)). apply elem_of_app. right. apply list_elem_of_singleton. by unfold pid in H1; rewrite H1.
  - by eapply inv_vfork.
  - by eapply inv_call_step.
  - apply inv_calm; [done|apply calm_vfork_release].
  - destruct Hm as (Hm & Hat & Hca), Hs as [A B C D], (may_living _ _ Hm) as (Hi & _ & Hl & _ & Hb). split; cbn; [done|by apply calls_insert|by apply quiet_insert|].
    eapply pending_tame; [done|apply tame_refl|]. intros j c Hj Hn. rewrite lookup_insert_ne; [done|]. intros <-. destruct Hj; congruence.
  - destruct x as [|j p|j z st c|j z sp]; cbn [wait_step] in Hw.
    + destruct (wait_pass _ _ _ _) as [nx k1] eqn:E. simplify_eq. unfold reported. rewrite app_nil_r. by eapply inv_scan.
    + unfold reported. rewrite app_nil_r. destruct (wait_copy _ _ _ _ _) as [[] mem1]; [|simplify_eq; by eapply (inv_goes s i a _ _ _ _ (Returns 0))].
      destruct (stopped_section _ _ _ _) as [nx k1] eqn:E. simplify_eq. by eapply inv_stopped.
    + destruct (wait_copy _ _ _ _ _) as [[] mem1].
      * destruct (zombie_section _ _ _ _ _) as [nx k1] eqn:E. simplify_eq. by eapply inv_zombie.
      * simplify_eq. unfold reported. destruct c; rewrite app_nil_r; by eapply (inv_goes s i a _ _ _ _ (Returns 0)).
    + destruct (reap _ _ _ _) as [m1 k1] eqn:E. simplify_eq. unfold reported. rewrite app_nil_r. by eapply inv_reap.
  - by apply inv_traceme.
  - by apply inv_attach.
  - by apply inv_trace_stop.
  - by apply inv_resume.
  - apply inv_calm; [done|apply calm_setpgid].
  - apply inv_calm; [done|apply calm_setsid].
  - apply inv_calm; [done|apply calm_kill].
  - by apply inv_sleep.
  - apply inv_calm; [done|apply calm_timer].
  - apply inv_calm; [done|apply calm_wakeup].
  - by apply inv_calm.
Qed.
End Run.

(** ** The start *)

Lemma boot_slot `{PageConfig} kernel_sp_of k i : slot_ok i →
  pid (launch_init kernel_sp_of k) i = (if decide (i = 1)%nat then next_pid k else 0) ∧ par (launch_init kernel_sp_of k) i = 0 ∧
  stg (launch_init kernel_sp_of k) i = (if decide (i = 1)%nat then Living else Unused).
Proof. intros [H1 H2]. unfold PROC_MAX in H2. do 8 (destruct i as [|i]; [try lia; done|]). lia. Qed.

Lemma boot_census K : next_pid K = 2 → table_ok K → pid K 0 = 0 →
  (∀ i, slot_ok i → pid K i = (if decide (i = 1)%nat then 1 else 0) ∧ par K i = 0 ∧ stg K i = (if decide (i = 1)%nat then Living else Unused)) →
  census K [] [].
Proof.
  intros Hn' Ht H00 Hb. assert (slot_ok 1) as H1 by (unfold slot_ok, PROC_MAX; lia).
  assert (∀ i, slot_ok i → stg K i ≠ Unused → i = 1%nat) as Hone.
  { intros i Hi. destruct (Hb i Hi) as (_ & _ & ->). by case_decide. }
  split; try done.
  - split; [done|..].
    + intros [|i] Hi; rewrite Hn'; [unfold pid in H00; lia|]. destruct (Hb (Datatypes.S i)) as (Hp & _); [unfold slot_ok; lia|]. unfold pid in Hp. case_decide; lia.
    + intros i j Hi Hj Hij Fi%stage_free Fj%stage_free. fold (stg K i) in Fi. fold (stg K j) in Fj. change (pid K i ≠ pid K j).
      assert (∀ l, (l < PROC_MAX)%nat → stg K l ≠ Unused → l = 0%nat ∨ l = 1%nat) as Hl.
      { intros [|l] Hl Hu; [by left|right]. apply Hone; [unfold slot_ok; lia|done]. }
      destruct (Hb 1%nat H1) as (E1 & _). rewrite decide_True in E1 by done.
      destruct (Hl i Hi Fi) as [-> | ->], (Hl j Hj Fj) as [-> | ->]; try done; by rewrite E1, H00.
  - intros i Hi Hu. rewrite (Hone i Hi Hu). destruct (Hb 1%nat H1) as (E1 & _). rewrite E1. by case_decide.
  - exists 1%nat. destruct (Hb 1%nat H1) as (E1 & E2 & E3). by rewrite E1, E2, E3.
  - lia.
  - intros i Hi Hu _. rewrite (Hone i Hi Hu). by apply Hb.
  - intros i Hi _ Hz0. by destruct (Hb i Hi) as (_ & E2 & _).
  - apply NoDup_nil_2.
  - by intros z st ?%elem_of_nil.
  - by intros i z st _ ?%elem_of_nil.
  - apply NoDup_nil_2.
  - by intros r ?%elem_of_nil.
  - intros i Hi He. destruct (Hb i Hi) as (_ & _ & E3). rewrite E3 in He. by case_decide.
  - by intros z st ?%elem_of_nil.
Qed.

Lemma boot_facts `{PageConfig} kernel_sp_of k : next_pid (launch_init kernel_sp_of k) = next_pid k + 1 ∧ table_ok (launch_init kernel_sp_of k) ∧ pid (launch_init kernel_sp_of k) 0 = 0.
Proof. done. Qed.

Lemma life_boot_inv `{PageConfig, MemHelper} kernel_sp_of k m mem : next_pid k = 1 → life_inv (life_boot kernel_sp_of k m mem).
Proof.
  intros Hn. destruct (boot_facts kernel_sp_of k) as (A & B & C). rewrite Hn in A. pose proof (boot_slot kernel_sp_of k) as Hb. rewrite Hn in Hb.
  split; cbn [life_boot l_k l_at l_calls l_exits l_reports]; [by apply boot_census|split; intros *; by rewrite lookup_empty|intros i a j [Hi _]; by rewrite lookup_empty in Hi|].
  split; unfold forking; intros *; rewrite ?lookup_empty; naive_solver.
Qed.

Lemma reach_inv `{PageConfig, PageTarget, MemHelper} big kernel_sp_of k m mem s : next_pid k = 1 →
  rtc (orderly_step big kernel_sp_of) (life_boot kernel_sp_of k m mem) s → life_inv s.
Proof.
  intros Hn. pose proof (life_boot_inv kernel_sp_of k m mem Hn) as Hb. revert Hb. generalize (life_boot kernel_sp_of k m mem). intros s0 Hb Hr.
  induction Hr as [|s1 s2 s3 Hstep _ IH]; [done|]. by eapply IH, life_step_inv.
Qed.

(** ** Properties *)

(** C26. No wake-up is lost: in every state the kernel can reach from its start,
    with the sections of exits, vforks, waits, signals, timers and tracing
    interleaved in any order, provided that no two calls of [sys_vfork] overlap
    and that init does not end, a process that sleeps in [sys_waitpid] has nothing
    to report: no child and no tracee it asked for is a zombie, and with WSTOPPED
    no tracee of it waits to have its stop reported. *)
Theorem waitpid_no_lost_wakeup `{PageConfig, PageTarget, MemHelper} big kernel_sp_of k m mem s i a j : next_pid k = 1 →
  rtc (orderly_step big kernel_sp_of) (life_boot kernel_sp_of k m mem) s →
  asleep (l_k s) (l_at s) i a → ¬ wanted (l_k s) (pid (l_k s) i) a j.
Proof.
  intros Hn Hr. apply (li_quiet _ (reach_inv _ _ _ _ _ _ Hn Hr)).
Qed.

(** C27. While no two calls of [sys_vfork] overlap and init has not ended, an exit
    is reported exactly once.  In every state reached under these two conditions
    (which every step of the run keeps: [orderly_step]) a process is in the exit
    history at most once, every report gave the status its process exited with, to
    a caller that was its parent, no process was reported twice, and an exit not
    reported is held by a zombie whose parent is another process that has not
    ended: exits are neither lost nor orphaned.  The sections of one [sys_vfork]
    (the allocation of the slot, the setup of the child without the lock, its
    publication) do interleave with all other calls.  Where two overlap both get
    the same slot and an exit can be lost: [vfork_overlap]. *)
Theorem exit_reported_once `{PageConfig, PageTarget, MemHelper} big kernel_sp_of k m mem s : next_pid k = 1 →
  rtc (orderly_step big kernel_sp_of) (life_boot kernel_sp_of k m mem) s →
  NoDup (l_exits s).*1 ∧ NoDup (r_pid <$> l_reports s) ∧
  (∀ r, r ∈ l_reports s → (r_pid r, r_status r) ∈ l_exits s ∧ r_caller r = r_parent r) ∧
  ∀ z st, (z, st) ∈ l_exits s → (∃ r, r ∈ l_reports s ∧ r_pid r = z) ∨
    ∃ i j, slot_ok i ∧ p_state (proc (l_k s) i) = PROC_ZOMBIE ∧ pid (l_k s) i = z ∧ code (l_k s) i = st ∧
      slot_ok j ∧ j ≠ i ∧ alive (p_state (proc (l_k s) j)) = true ∧ pid (l_k s) j = par (l_k s) i.
Proof.
  intros Hn Hr. pose proof (reach_inv _ _ _ _ _ _ Hn Hr) as Hs.
  pose proof (li_census _ Hs) as Hc. split_and!; [apply Hc|apply Hc|intros r Hin; by destruct (ce_report _ _ _ Hc r Hin) as (? & ? & _)|].
  intros z st Hin. destruct (ce_due _ _ _ Hc z st Hin) as [(r & ? & ? & _)|(i & Hi & He & Hz & Hst)]; [left; by exists r|right].
  destruct (decide (par (l_k s) i = 0)) as [H0'|H0'].
  - destruct (ce_init _ _ _ Hc) as (q & Hq & Hql & Hq1 & _). pose proof (ce_root _ _ _ Hc i Hi ltac:(by rewrite He) H0') as Hi1.
    assert (i = q) as ->; [|congruence]. eapply pid_inj; [apply Hc|done|done|by rewrite He|by rewrite Hql|congruence].
  - destruct (ce_parent _ _ _ Hc i Hi (or_intror He) H0') as (j & Hj & Hji & Hjl & Hjp). exists i, j. split_and!; try done; [by apply ended_zombie|].
    unfold stg in Hjl. by destruct (p_state (proc (l_k s) j)).
Qed.

(** ** A run: init starts a process and waits for it. *)

Section Move.
Context {cfg : PageConfig} {tgt : PageTarget} {mh : MemHelper}.
Definition wait_move (big : bool) (i : nat) (a : wait_args) (x : wait_at) (s : life_t) : life_t :=
  let '(next, (m, mem, k)) := wait_step big i a x (l_mm s) (l_mem s) (l_k s) in
  LifeState k m mem match next with Returns _ => delete i (l_at s) | Goes at' => <[i := (a, at')]> (l_at s) end
    (l_calls s) (l_exits s) (l_reports s ++ reported (l_k s) i x next).
Definition alloc_move (sp : Z → Z) (i : nat) (s : life_t) : life_t :=
  with_call s i (AtSetup <$> (proc_alloc sp (l_k s)).1) (proc_alloc sp (l_k s)).2.
Definition call_move (i : nat) (x : call_at) (s : life_t) : life_t := with_call s i (call_step i x (l_k s)).1 (call_step i x (l_k s)).2.
Definition exit_move (i : nat) (status : Z) (s : life_t) : life_t :=
  LifeState (exit_section i status (l_k s)) (l_mm s) (l_mem s) (l_at s) (l_calls s) (l_exits s ++ [(p_pid (proc (l_k s) i), s32 status)]) (l_reports s).
Definition exec_move (i : nat) (s : life_t) : life_t := with_k s (vfork_release i (l_k s)).

Lemma life_wait_move big sp i a x s : may_run (l_k s) i → l_at s !! i = Some (a, x) → life_step big sp s (wait_move big i a x s).
Proof.
  intros Hm Ha. unfold wait_move. destruct (wait_step _ _ _ _ _ _ _) as [next [[m mem] k]] eqn:E. by eapply life_wait.
Qed.
Lemma life_alloc_move big sp i s : may_call s i → life_step big sp s (alloc_move sp i s).
Proof. intros Hm. eapply life_vfork; [done|apply surjective_pairing]. Qed.
Lemma life_call_move big sp i x s : may_run (l_k s) i → l_calls s !! i = Some x → life_step big sp s (call_move i x s).
Proof. intros Hm Hx. eapply life_call; [done|done|apply surjective_pairing]. Qed.

(** The conditions of an orderly run, computed. *)
Definition forks (s : life_t) : list nat :=
  omap (λ ix : nat * call_at, match ix.2 with AtSetup _ | AtPublish _ => Some ix.1 | _ => None end) (map_to_list (l_calls s)).
Lemma orderly_computed s : (length (forks s) <= 1)%nat → forallb (λ e, negb (e.1 =? 1)) (l_exits s) = true → orderly s.
Proof.
  intros Hl Hx. split.
  - assert (∀ i c, forking (l_calls s) i c → i ∈ forks s) as Hf.
    { intros i c [H|H]; apply list_elem_of_omap; eexists; (split; [by apply elem_of_map_to_list|done]). }
    intros i j c d Hi%Hf Hj%Hf. destruct (forks s) as [|x [|y l]]; [by apply elem_of_nil in Hi| |cbn in Hl; lia].
    apply list_elem_of_singleton in Hi, Hj. congruence.
  - intros st Hin. rewrite forallb_forall in Hx. apply list_elem_of_In, Hx in Hin. done.
Qed.
End Move.

Definition life_sp (_ : Z) : Z := 0.
Definition life_k0 : kernel_t := Kernel (replicate PROC_MAX pcb_zero) [None; None] 1 0 0 [0; 0] [0; 0] [0; 0] ∅.
Definition wait_any : wait_args := WaitArgs (-1) 0 0.
Definition life_s0 : life_t := life_boot life_sp life_k0 rp2040_mm (λ _, 0).
Definition life_a1 : life_t := alloc_move life_sp 1 life_s0.
Definition life_b1 : life_t := call_move 1 (AtSetup 2) life_a1.
Definition life_s1 : life_t := call_move 1 (AtPublish 2) life_b1.
Definition life_s2 : life_t := exec_move 2 life_s1.
Definition life_s3 : life_t := LifeState (l_k life_s2) (l_mm life_s2) (l_mem life_s2) (<[1%nat := (wait_any, AtScan)]> (l_at life_s2)) (l_calls life_s2) (l_exits life_s2) (l_reports life_s2).
Definition life_s4 : life_t := wait_move false 1 wait_any AtScan life_s3.
Definition life_s5 : life_t := exit_move 2 7 life_s4.
Definition life_s6 : life_t := wait_move false 1 wait_any AtScan life_s5.
Definition life_s7 : life_t := wait_move false 1 wait_any (AtZombie 2 2 7 true) life_s6.

Ltac life_may := split; [unfold PROC_MAX; lia|left; vm_compute; reflexivity].
Ltac life_runs := split; [life_may|split; vm_compute; reflexivity].
(** The steps of a run: each takes the move the next state is made with. *)
Ltac life_move :=
  match goal with
  | |- life_step _ _ _ (alloc_move _ _ _) => apply life_alloc_move; life_runs
  | |- life_step _ _ _ (call_move _ _ _) => apply life_call_move; [life_may|vm_compute; reflexivity]
  | |- life_step _ _ _ (wait_move _ _ _ _ _) => apply life_wait_move; [life_may|vm_compute; reflexivity]
  | |- life_step _ _ _ (exit_move ?i ?st _) => apply (life_exit _ _ _ i st); life_runs
  | |- life_step _ _ _ (exec_move ?i _) => apply (life_execve _ _ _ i); life_runs
  | |- life_step _ _ _ ?s => unfold s; life_move
  end.
Ltac life_orderly := apply orderly_computed; [apply Nat.leb_le|]; vm_compute; reflexivity.
Ltac life_orderly_move := split; [life_move|life_orderly].

Lemma life_run2 : rtc (orderly_step false life_sp) life_s0 life_s2.
Proof.
  apply (rtc_l _ _ life_a1); [life_orderly_move|]. apply (rtc_l _ _ life_b1); [life_orderly_move|].
  apply (rtc_l _ _ life_s1); [life_orderly_move|]. apply rtc_once. life_orderly_move.
Qed.

Lemma life_run4 : rtc (orderly_step false life_sp) life_s0 life_s4.
Proof.
  apply (transitivity (y := life_s2)); [exact life_run2|].
  apply (rtc_l _ _ life_s3); [split; [apply (life_waitpid _ _ _ 1 wait_any); life_runs|life_orderly]|].
  apply rtc_once. life_orderly_move.
Qed.

Lemma life_run7 : rtc (orderly_step false life_sp) life_s0 life_s7.
Proof.
  apply (transitivity (y := life_s4)); [exact life_run4|]. apply (rtc_l _ _ life_s5); [life_orderly_move|].
  apply (rtc_l _ _ life_s6); [life_orderly_move|]. apply rtc_once. life_orderly_move.
Qed.

Lemma waitpid_no_lost_wakeup_witness :
  asleep (l_k life_s4) (l_at life_s4) 1 wait_any ∧ ¬ wanted (l_k life_s4) (pid (l_k life_s4) 1) wait_any 2.
Proof.
  assert (asleep (l_k life_s4) (l_at life_s4) 1 wait_any) as Ha by (split; vm_compute; reflexivity). split; [exact Ha|].
  exact (waitpid_no_lost_wakeup false life_sp life_k0 rp2040_mm (λ _, 0) life_s4 1 wait_any 2 eq_refl life_run4 Ha).
Defined.

Lemma exit_reported_once_witness : l_reports life_s7 = [Report 1 1 2 7] ∧ (2, 7) ∈ l_exits life_s7.
Proof.
  assert (l_reports life_s7 = [Report 1 1 2 7]) as E by (vm_compute; reflexivity). split; [exact E|].
  destruct (exit_reported_once false life_sp life_k0 rp2040_mm (λ _, 0) life_s7 eq_refl life_run7) as (_ & _ & H & _).
  apply (H (Report 1 1 2 7)). rewrite E. by apply list_elem_of_singleton.
Defined.

(** ** Runs that show a fault *)

(** The wake-ups do not ask why a process is blocked: another child's exit wakes
    the parent of a vfork whose child still uses its memory. *)
Definition early_end : life_t := exit_move 2 7 (call_move 1 (AtPublish 3) (call_move 1 (AtSetup 3) (alloc_move life_sp 1 life_s2))).
Theorem vfork_parent_woken_early : rtc (orderly_step false life_sp) life_s0 early_end ∧
  p_state (proc (l_k early_end) 1) = PROC_RUNNABLE ∧ p_vfork_parent (proc (l_k early_end) 3) = Some 1%nat ∧ p_state (proc (l_k early_end) 3) = PROC_RUNNABLE.
Proof.
  split; [|vm_compute; done]. apply (transitivity (y := life_s2)); [exact life_run2|].
  unfold early_end. do 4 (eapply rtc_r; [|life_orderly_move]). apply rtc_refl.
Qed.

(** [proc_alloc] leaves the slot it returns free.  Where init and process 2 call
    [sys_vfork] at one time, both get slot 3; the child that init makes there ends,
    the setup and the publication of process 2 turn its zombie into a running
    process, and nobody is told of the exit. *)
Definition overlap_end : life_t :=
  call_move 2 (AtPublish 3) (call_move 2 (AtSetup 3) (exit_move 3 7 (exec_move 3
    (call_move 1 (AtPublish 3) (call_move 1 (AtSetup 3) (alloc_move life_sp 2 (alloc_move life_sp 1 life_s2))))))).
Theorem vfork_overlap : rtc (life_step false life_sp) life_s0 overlap_end ∧ (4, 7) ∈ l_exits overlap_end ∧ l_reports overlap_end = [] ∧
  ∀ i, (i < PROC_MAX)%nat → p_state (proc (l_k overlap_end) i) ≠ PROC_ZOMBIE.
Proof.
  split; [|split; [apply elem_of_cons; by left|split; [vm_compute; done|]]].
  - apply (transitivity (y := life_s2)); [apply (rtc_subrel (orderly_step false life_sp)); [by intros x y []|exact life_run2]|].
    unfold overlap_end. do 8 (eapply rtc_r; [|life_move]). apply rtc_refl.
  - unfold PROC_MAX. intros i Hi. do 8 (destruct i as [|i]; [vm_compute; done|]). lia.
Qed.
