(* ===== verification/Pipe.v ===== *)
(** * Pipe: kernel pipes (src/kernel/vfs/pipe.c)

    The ring buffer and its two file ends.  One pass of the loops of [pipe_read]
    and [pipe_write] is a transition; a pass that blocks says so, and the
    process runs it again when it is woken.  User memory is that of UserCopy.
    The ring is shown to implement a bounded queue of bytes. *)

From S2P Require Import Prelude Config PagePool PagePoolFacts Page Region PageFacts.
From S2P Require Import ProcState Sched SchedFacts Kmutex KmutexFacts Proc UserCopy.

Definition PIPE_BUF_SIZE : nat := 512.
Definition PIPE_MASK : Z := 511.
Definition PIPE_MAX : nat := 4.

(** fcntl.h *)
Definition O_RDONLY : Z := 0.
Definition O_WRONLY : Z := 1.
Definition O_NONBLOCK : Z := 0x800.

(** [pipe_t] *)
Record pipe_t := Pipe {
  pp_buf : list Z;
  pp_head : Z;
  pp_tail : Z;
  pp_readers : Z;
  pp_writers : Z;
  pp_in_use : bool
}.

Definition pipe_zero : pipe_t := Pipe (replicate PIPE_BUF_SIZE 0) 0 0 0 0 false.
#[export] Instance pipe_inhabited : Inhabited pipe_t := populate pipe_zero.

Abbreviation pipe_pool_t := (list pipe_t).

Fixpoint scan_unused (pool : pipe_pool_t) (n i : nat) : option nat :=
  match n with
  | O => None
  | S n' => if pp_in_use (pool !!! i) then scan_unused pool n' (S i) else Some i
  end.

Definition pipe_alloc (pool : pipe_pool_t) : option nat * pipe_pool_t :=
  match scan_unused pool PIPE_MAX 0 with
  | None => (None, pool)
  | Some i => (Some i, <[i := Pipe (replicate PIPE_BUF_SIZE 0) 0 0 1 1 true]> pool)
  end.

Definition pipe_free (i : nat) (pool : pipe_pool_t) : pipe_pool_t :=
  alter (λ p, Pipe (pp_buf p) (pp_head p) (pp_tail p) (pp_readers p) (pp_writers p) false) i pool.

Definition pipe_used (p : pipe_t) : Z := u16 (Z.land (pp_head p - pp_tail p) PIPE_MASK).
Definition pipe_space (p : pipe_t) : Z := u16 (Z.of_nat PIPE_BUF_SIZE - 1 - pipe_used p).

(** What one pass of a read or write does: [Return] the status, or block on the
    pipe's channel. *)
Inductive pass_result := Return (rc : Z) | Sleep.

#[export] Instance pass_result_eq_dec : EqDecision pass_result.
Proof. solve_decision. Defined.

Section Operations.
Context {cfg : PageConfig}.

Definition pipe_advance (ref : user_page_ref_t) : user_page_ref_t :=
  let off := u16 (ref_off ref + 1) in
  if off =? PAGE_SIZE then UserRef (to_page_id (ref_page ref + 1)) 0 else UserRef (ref_page ref) off.

(** The copy loops, [k] bytes left. *)
Fixpoint pipe_drain (k : nat) (p : pipe_t) (mem : umem) (ref : user_page_ref_t) : pipe_t * umem :=
  match k with
  | O => (p, mem)
  | S k =>
      let ch := pp_buf p !!! Z.to_nat (pp_tail p) in
      let mem := page_write mem (ref_page ref) (ref_off ref) [ch] in
      let p := Pipe (pp_buf p) (pp_head p) (u16 (Z.land (pp_tail p + 1) PIPE_MASK))
                 (pp_readers p) (pp_writers p) (pp_in_use p) in
      pipe_drain k p mem (pipe_advance ref)
  end.

Fixpoint pipe_fill (k : nat) (p : pipe_t) (mem : umem) (ref : user_page_ref_t) : pipe_t :=
  match k with
  | O => p
  | S k =>
      let ch := match page_read mem (ref_page ref) (ref_off ref) 1 with
                | Some [c] => c | _ => 0 end in
      let p := Pipe (<[Z.to_nat (pp_head p) := ch]> (pp_buf p)) (u16 (Z.land (pp_head p + 1) PIPE_MASK))
                 (pp_tail p) (pp_readers p) (pp_writers p) (pp_in_use p) in
      pipe_fill k p mem (pipe_advance ref)
  end.

(** [flags] are the file's, [sig] says that a signal is deliverable.  A returned
    positive count comes with a wake-up of the other end. *)
Definition pipe_read (flags : Z) (sig : bool) (p : pipe_t) (mem : umem) (ref : user_page_ref_t) (n : Z)
    : pass_result * pipe_t * umem :=
  let nonblock := negb (Z.land flags O_NONBLOCK =? 0) in
  let avail := pipe_used p in
  if 0 <? avail then
    let count := if n <? avail then n else avail in
    let '(p, mem) := pipe_drain (Z.to_nat count) p mem ref in
    (Return count, p, mem)
  else if pp_writers p =? 0 then (Return 0, p, mem)
  else if nonblock then (Return (- EAGAIN), p, mem)
  else if sig then (Return (- EINTR), p, mem)
  else (Sleep, p, mem).

Definition pipe_write (flags : Z) (sig : bool) (p : pipe_t) (mem : umem) (ref : user_page_ref_t) (n : Z)
    : pass_result * pipe_t :=
  let nonblock := negb (Z.land flags O_NONBLOCK =? 0) in
  if pp_readers p =? 0 then (Return (- EPIPE), p)
  else
    let space := pipe_space p in
    if 0 <? space then
      let count := if n <? space then n else space in
      (Return count, pipe_fill (Z.to_nat count) p mem ref)
    else if nonblock then (Return (- EAGAIN), p)
    else if sig then (Return (- EINTR), p)
    else (Sleep, p).
End Operations.

(** The counters are bytes; the flag says that the pipe is to be freed. *)
Definition pipe_close_ends (flags : Z) (p : pipe_t) : pipe_t * bool :=
  let p := if flags =? O_RDONLY
           then Pipe (pp_buf p) (pp_head p) (pp_tail p) (u8 (pp_readers p - 1)) (pp_writers p) (pp_in_use p)
           else Pipe (pp_buf p) (pp_head p) (pp_tail p) (pp_readers p) (u8 (pp_writers p - 1)) (pp_in_use p) in
  (p, (pp_readers p =? 0) && (pp_writers p =? 0)).

Definition pipe_close (flags : Z) (i : nat) (pool : pipe_pool_t) : pipe_pool_t :=
  let '(p, do_free) := pipe_close_ends flags (pool !!! i) in
  let pool := <[i := p]> pool in
  if do_free then pipe_free i pool else pool.

(** ** The ring as a queue *)

Definition ring_ok (p : pipe_t) : Prop :=
  length (pp_buf p) = PIPE_BUF_SIZE ∧ 0 <= pp_head p < 512 ∧ 0 <= pp_tail p < 512.

(** The queued bytes, oldest first. *)
Definition contents (p : pipe_t) : bytes :=
  (λ i, pp_buf p !!! Z.to_nat ((pp_tail p + Z.of_nat i) mod 512)) <$> seq 0 (Z.to_nat (pipe_used p)).

Lemma mask_mod z : Z.land z PIPE_MASK = z mod 512.
Proof. unfold PIPE_MASK. change 511 with (Z.ones 9). by rewrite Z.land_ones. Qed.

Lemma pipe_used_mod p : pipe_used p = (pp_head p - pp_tail p) mod 512.
Proof.
  unfold pipe_used. rewrite mask_mod. apply (uN_small 16).
  pose proof (Z.mod_pos_bound (pp_head p - pp_tail p) 512). lia.
Qed.

Lemma pipe_used_range p : 0 <= pipe_used p <= 511.
Proof. rewrite pipe_used_mod. pose proof (Z.mod_pos_bound (pp_head p - pp_tail p) 512). lia. Qed.

Lemma length_contents p : length (contents p) = Z.to_nat (pipe_used p).
Proof. unfold contents. by rewrite length_fmap, length_seq. Qed.

Lemma pipe_space_spec p : pipe_space p = 511 - Z.of_nat (length (contents p)).
Proof.
  rewrite length_contents. pose proof (pipe_used_range p). unfold pipe_space.
  rewrite (uN_small 16) by (unfold PIPE_BUF_SIZE; lia). unfold PIPE_BUF_SIZE. lia.
Qed.

Lemma u16_mask z : u16 (Z.land z PIPE_MASK) = z mod 512.
Proof. rewrite mask_mod. apply (uN_small 16). pose proof (Z.mod_pos_bound z 512). lia. Qed.

(** Taking one byte. *)
Definition pop1 (p : pipe_t) : pipe_t :=
  Pipe (pp_buf p) (pp_head p) (u16 (Z.land (pp_tail p + 1) PIPE_MASK)) (pp_readers p) (pp_writers p) (pp_in_use p).
Definition push1 (c : Z) (p : pipe_t) : pipe_t :=
  Pipe (<[Z.to_nat (pp_head p) := c]> (pp_buf p)) (u16 (Z.land (pp_head p + 1) PIPE_MASK))
    (pp_tail p) (pp_readers p) (pp_writers p) (pp_in_use p).

Lemma pop1_spec p : ring_ok p → 0 < pipe_used p →
  ring_ok (pop1 p) ∧ contents p = pp_buf p !!! Z.to_nat (pp_tail p) :: contents (pop1 p).
Proof.
  intros (Hl & Hh & Ht) Hu. unfold pop1. rewrite u16_mask.
  set (t := (pp_tail p + 1) mod 512). assert (0 <= t < 512) as Ht' by (by apply Z.mod_pos_bound).
  split; [split_and!; cbn; done || lia|]. set (p' := Pipe _ _ t _ _ _).
  assert (pipe_used p' = pipe_used p - 1) as Hu'.
  { rewrite !pipe_used_mod in *. subst p' t. cbn. rewrite Zminus_mod_idemp_r.
    replace (pp_head p - (pp_tail p + 1)) with (pp_head p - pp_tail p - 1) by lia.
    rewrite <- Zminus_mod_idemp_l. apply Z.mod_small. pose proof (Z.mod_pos_bound (pp_head p - pp_tail p) 512). lia. }
  unfold contents. rewrite Hu'. replace (Z.to_nat (pipe_used p)) with (S (Z.to_nat (pipe_used p - 1))) by lia.
  cbn [seq fmap list_fmap]. rewrite Z.add_0_r, (Z.mod_small (pp_tail p)) by lia. f_equal.
  rewrite <- fmap_S_seq, <- list_fmap_compose. apply list_fmap_ext. intros i x _. cbn. f_equal. f_equal.
  subst t. rewrite Zplus_mod_idemp_l. f_equal. lia.
Qed.

Lemma push1_spec c p : ring_ok p → pipe_used p < 511 →
  ring_ok (push1 c p) ∧ contents (push1 c p) = contents p ++ [c].
Proof.
  intros (Hl & Hh & Ht) Hu. unfold push1. rewrite u16_mask.
  set (h := (pp_head p + 1) mod 512). assert (0 <= h < 512) as Hh' by (by apply Z.mod_pos_bound).
  split; [split_and!; cbn; try lia; by rewrite length_insert|]. set (p' := Pipe _ h _ _ _ _).
  pose proof (pipe_used_range p) as Hr.
  assert (pipe_used p' = pipe_used p + 1) as Hu'.
  { rewrite !pipe_used_mod in *. subst p' h. cbn. rewrite Zminus_mod_idemp_l.
    replace (pp_head p + 1 - pp_tail p) with (pp_head p - pp_tail p + 1) by lia.
    rewrite <- Zplus_mod_idemp_l. apply Z.mod_small. lia. }
  unfold contents. rewrite Hu'. replace (Z.to_nat (pipe_used p + 1)) with (Z.to_nat (pipe_used p) + 1)%nat by lia.
  rewrite seq_app, fmap_app. cbn [seq fmap list_fmap]. rewrite Nat.add_0_l.
  assert (∀ i, (pp_tail p + i) mod 512 = pp_head p ↔ i mod 512 = pipe_used p) as Hpos.
  { intros i. rewrite pipe_used_mod. split; intros E.
    - rewrite <- E, Zminus_mod_idemp_l. f_equal. lia.
    - rewrite <- Zplus_mod_idemp_r, E, Zplus_mod_idemp_r.
      replace (pp_tail p + (pp_head p - pp_tail p)) with (pp_head p) by lia. by apply Z.mod_small. }
  f_equal.
  - apply list_fmap_ext. intros i x Hx. apply lookup_seq in Hx as [-> Hi]. subst p'. cbn.
    rewrite list_lookup_total_insert_ne; [done|]. intros E.
    assert ((pp_tail p + Z.of_nat i) mod 512 = pp_head p) as E'.
    { pose proof (Z.mod_pos_bound (pp_tail p + Z.of_nat i) 512). cbn in E. lia. }
    apply Hpos in E'. rewrite Z.mod_small in E' by lia. lia.
  - f_equal. subst p'. cbn.
    assert ((pp_tail p + Z.of_nat (Z.to_nat (pipe_used p))) mod 512 = pp_head p) as ->.
    { apply Hpos. rewrite Z.mod_small by lia. lia. }
    apply list_lookup_total_insert_eq. rewrite Hl. unfold PIPE_BUF_SIZE. lia.
Qed.

(** ** Transfers *)

Section Transfers.
Context {cfg : PageConfig}.

Lemma pipe_advance_at ref a : ref_at ref a → 0 < a → addressable (a + 1) → ref_at (pipe_advance ref) (a + 1).
Proof.
  intros [Hp Ho] Ha (_ & Hv & _). unfold pipe_advance, ref_at, PAGE_SIZE in *. rewrite Ho.
  pose proof (Z.div_mod a 4096). pose proof (Z.mod_pos_bound a 4096).
  pose proof (Z.div_mod (a + 1) 4096). pose proof (Z.mod_pos_bound (a + 1) 4096).
  rewrite (uN_small 16) by lia. destruct (Z.eqb_spec (a mod 4096 + 1) 4096); cbn [ref_page ref_off]; rewrite Hp.
  - unfold to_page_id, PAGE_ID_INVALID in *. rewrite uN_small by (split; [|lia]; pose proof (Z.div_pos a 4096); lia). lia.
  - lia.
Qed.

Lemma ring_ends p : pop1 p = Pipe (pp_buf p) (pp_head p) (u16 (Z.land (pp_tail p + 1) PIPE_MASK))
  (pp_readers p) (pp_writers p) (pp_in_use p).
Proof. done. Qed.

Definition same_ends (p p' : pipe_t) : Prop :=
  pp_readers p' = pp_readers p ∧ pp_writers p' = pp_writers p ∧ pp_in_use p' = pp_in_use p.

Lemma mem_write_cons mem a c bs x : mem_write (mem_write mem a [c]) (a + 1) bs x = mem_write mem a (c :: bs) x.
Proof. exact (mem_write_app mem a [c] bs x). Qed.

Lemma pipe_drain_spec k p mem ref a : ring_ok p → (k <= length (contents p))%nat → ref_at ref a → 0 < a →
  (∀ x, a <= x < a + Z.of_nat k → addressable x) →
  let '(p', mem') := pipe_drain k p mem ref in
  ring_ok p' ∧ same_ends p p' ∧ contents p' = drop k (contents p) ∧
  ∀ x, mem' x = mem_write mem a (take k (contents p)) x.
Proof.
  revert p mem ref a. induction k as [|k IH]; intros p mem ref a Hok Hk Hr Ha Hadd; cbn [pipe_drain].
  { split_and!; [done|done|done|]. intros x. by rewrite take_0, mem_write_nil. }
  rewrite length_contents in Hk. destruct (pop1_spec p Hok ltac:(lia)) as [Hok' Hc].
  destruct (ref_at_linear ref a Hr (Hadd a ltac:(lia))) as [Hlin Hv].
  set (ch := pp_buf p !!! Z.to_nat (pp_tail p)) in *. fold (pop1 p).
  assert (page_write mem (ref_page ref) (ref_off ref) [ch] = mem_write mem a [ch]) as ->.
  { unfold page_write. destruct (Z.eqb_spec (ref_page ref) PAGE_ID_INVALID); [done|]. cbn [orb length Nat.eqb].
    by rewrite Hlin. }
  destruct k as [|k].
  { cbn [pipe_drain]. rewrite Hc. split_and!; done. }
  specialize (IH (pop1 p) (mem_write mem a [ch]) (pipe_advance ref) (a + 1) Hok').
  destruct (pipe_drain (S k) (pop1 p) (mem_write mem a [ch]) (pipe_advance ref)) as [p' mem'].
  destruct IH as (A & B & C & D).
  - pose proof (f_equal length Hc) as Hlen. cbn [length] in Hlen. rewrite length_contents in Hlen. lia.
  - apply pipe_advance_at; [done|done|apply Hadd; lia].
  - lia.
  - intros x Hx. apply Hadd. lia.
  - rewrite Hc. split_and!; [done|done|done|]. intros x. rewrite D. cbn [take].
    by rewrite mem_write_cons.
Qed.

Lemma pipe_fill_spec k p mem ref a : ring_ok p → Z.of_nat k <= 511 - pipe_used p → ref_at ref a → 0 < a →
  (∀ x, a <= x < a + Z.of_nat k → addressable x) →
  ring_ok (pipe_fill k p mem ref) ∧ same_ends p (pipe_fill k p mem ref) ∧
  contents (pipe_fill k p mem ref) = contents p ++ mem_read mem a k.
Proof.
  revert p ref a. induction k as [|k IH]; intros p ref a Hok Hk Hr Ha Hadd; cbn [pipe_fill].
  { split_and!; [done|done|]. cbn. by rewrite app_nil_r. }
  destruct (ref_at_linear ref a Hr (Hadd a ltac:(lia))) as [Hlin Hv].
  assert (page_read mem (ref_page ref) (ref_off ref) 1 = Some [mem a]) as ->.
  { unfold page_read. destruct (Z.eqb_spec (ref_page ref) PAGE_ID_INVALID); [done|]. cbn [orb Nat.eqb].
    rewrite Hlin. cbn. by rewrite Z.add_0_r. }
  fold (push1 (mem a) p). destruct (push1_spec (mem a) p Hok ltac:(lia)) as [Hok' Hc].
  assert (mem_read mem a (S k) = mem a :: mem_read mem (a + 1) k) as ->.
  { change (S k) with (1 + k)%nat. rewrite mem_read_app. cbn. by rewrite Z.add_0_r. }
  destruct k as [|k].
  { cbn [pipe_fill]. rewrite Hc. by split_and!. }
  destruct (IH (push1 (mem a) p) (pipe_advance ref) (a + 1) Hok') as (A & B & C).
  - pose proof (f_equal length Hc) as Hlen. rewrite length_app, !length_contents in Hlen. cbn in Hlen.
    pose proof (pipe_used_range p). pose proof (pipe_used_range (push1 (mem a) p)). lia.
  - apply pipe_advance_at; [done|done|apply Hadd; lia].
  - lia.
  - intros x Hx. apply Hadd. lia.
  - split_and!; [done|done|]. by rewrite C, Hc, <- app_assoc.
Qed.

(** One pass of a read, on every branch. *)
Lemma pipe_read_spec flags sig p mem ref a n : ring_ok p → ref_at ref a → 0 < a → 0 <= n →
  (∀ x, a <= x < a + n → addressable x) →
  let '(r, p', mem') := pipe_read flags sig p mem ref n in
  if decide (contents p = []) then
    p' = p ∧ mem' = mem ∧
    r = if pp_writers p =? 0 then Return 0
        else if negb (Z.land flags O_NONBLOCK =? 0) then Return (- EAGAIN)
        else if sig then Return (- EINTR) else Sleep
  else
    let c := Z.min n (Z.of_nat (length (contents p))) in
    r = Return c ∧ ring_ok p' ∧ same_ends p p' ∧ contents p' = drop (Z.to_nat c) (contents p) ∧
    ∀ x, mem' x = mem_write mem a (take (Z.to_nat c) (contents p)) x.
Proof.
  intros Hok Hr Ha Hn Hadd. unfold pipe_read. pose proof (pipe_used_range p) as Hu.
  pose proof (length_contents p) as Hl. destruct (Z.ltb_spec 0 (pipe_used p)) as [Hpos|Hz].
  - destruct (decide (contents p = [])) as [He|He]; [rewrite He in Hl; cbn in Hl; lia|].
    assert ((if n <? pipe_used p then n else pipe_used p) = Z.min n (Z.of_nat (length (contents p)))) as ->.
    { rewrite Hl. destruct (Z.ltb_spec n (pipe_used p)); lia. }
    set (c := Z.min _ _). assert (0 <= c <= n ∧ c <= Z.of_nat (length (contents p))) as Hc by lia.
    pose proof (pipe_drain_spec (Z.to_nat c) p mem ref a Hok ltac:(lia) Hr Ha) as Hd.
    destruct (pipe_drain (Z.to_nat c) p mem ref) as [p' mem'].
    destruct Hd as (A & B & C & D); [intros; apply Hadd; lia|]. done.
  - destruct (decide (contents p = [])) as [He|He].
    + destruct (pp_writers p =? 0); [done|]. destruct (negb _); [done|]. by destruct sig.
    + destruct He. apply nil_length_inv. lia.
Qed.

(** One pass of a write, on every branch. *)
Lemma pipe_write_spec flags sig p mem ref a n : ring_ok p → ref_at ref a → 0 < a → 0 <= n →
  (∀ x, a <= x < a + n → addressable x) →
  let '(r, p') := pipe_write flags sig p mem ref n in
  if pp_readers p =? 0 then r = Return (- EPIPE) ∧ p' = p
  else if (length (contents p) =? 511)%nat then
    p' = p ∧ r = if negb (Z.land flags O_NONBLOCK =? 0) then Return (- EAGAIN)
                 else if sig then Return (- EINTR) else Sleep
  else
    let c := Z.min n (511 - Z.of_nat (length (contents p))) in
    r = Return c ∧ ring_ok p' ∧ same_ends p p' ∧ contents p' = contents p ++ mem_read mem a (Z.to_nat c).
Proof.
  intros Hok Hr Ha Hn Hadd. unfold pipe_write. destruct (pp_readers p =? 0); [done|].
  pose proof (pipe_space_spec p) as Hsp. pose proof (pipe_used_range p). pose proof (length_contents p) as Hl.
  rewrite Hsp. destruct (Nat.eqb_spec (length (contents p)) 511) as [He|He].
  - rewrite He. change (0 <? 511 - Z.of_nat 511) with false. cbn beta iota.
    destruct (negb _); [done|]. by destruct sig.
  - set (sp := 511 - _) in *. destruct (Z.ltb_spec 0 sp); [|lia].
    assert ((if n <? sp then n else sp) = Z.min n sp) as -> by (destruct (Z.ltb_spec n sp); lia).
    destruct (pipe_fill_spec (Z.to_nat (Z.min n sp)) p mem ref a Hok) as (A & B & C); try done; [lia|].
    intros x Hx. apply Hadd. lia.
Qed.
End Transfers.

(** ** Streams *)

(** A pipe with the bytes accepted from writers and handed to readers so far. *)
Inductive pipe_step `{PageConfig} : pipe_t * bytes * bytes → pipe_t * bytes * bytes → Prop :=
| ps_write flags sig p mem ref a n r p' sent recv : ref_at ref a → 0 < a → 0 <= n →
    (∀ x, a <= x < a + n → addressable x) → pipe_write flags sig p mem ref n = (r, p') →
    pipe_step (p, sent, recv)
      (p', match r with Return c => sent ++ mem_read mem a (Z.to_nat c) | Sleep => sent end, recv)
| ps_read flags sig p mem ref a n r p' mem' sent recv : ref_at ref a → 0 < a → 0 <= n →
    (∀ x, a <= x < a + n → addressable x) → pipe_read flags sig p mem ref n = (r, p', mem') →
    pipe_step (p, sent, recv)
      (p', sent, match r with Return c => recv ++ mem_read mem' a (Z.to_nat c) | Sleep => recv end)
| ps_close flags p sent recv : pipe_step (p, sent, recv) ((pipe_close_ends flags p).1, sent, recv).

Definition stream_inv (st : pipe_t * bytes * bytes) : Prop :=
  let '(p, sent, recv) := st in ring_ok p ∧ recv ++ contents p = sent.

Lemma mem_read_write mem mem' a bs : (∀ x, mem' x = mem_write mem a bs x) → mem_read mem' a (length bs) = bs.
Proof.
  intros Hm. apply list_eq_same_length with (length bs); [done|by rewrite length_mem_read|].
  intros i x y Hi Hx Hy. unfold mem_read in Hx. apply list_lookup_fmap_Some in Hx as (j & -> & Hj).
  apply lookup_seq in Hj as [-> _]. rewrite Hm. unfold mem_write. cbn [Nat.add].
  destruct (Z.leb_spec a (a + Z.of_nat i)); [|lia].
  destruct (Z.ltb_spec (a + Z.of_nat i) (a + Z.of_nat (length bs))); [|lia]. cbn [andb].
  replace (Z.to_nat (a + Z.of_nat i - a)) with i by lia. by apply list_lookup_total_correct.
Qed.

Lemma stream_step `{PageConfig} st st' : stream_inv st → pipe_step st st' → stream_inv st'.
Proof.
  intros Hi Hs. destruct Hs as [flags sig p mem ref a n r p' sent recv Hr Ha Hn Hadd He|
    flags sig p mem ref a n r p' mem' sent recv Hr Ha Hn Hadd He|flags p sent recv]; destruct Hi as [Hok Hst].
  - pose proof (pipe_write_spec flags sig p mem ref a n Hok Hr Ha Hn Hadd) as Hw. rewrite He in Hw.
    destruct (pp_readers p =? 0); [destruct Hw as [-> ->]; cbn; by rewrite app_nil_r|].
    destruct (_ =? 511)%nat.
    + destruct Hw as [-> ->]. destruct (negb _); [cbn; by rewrite app_nil_r|].
      destruct sig; [cbn; by rewrite app_nil_r|done].
    + destruct Hw as (-> & Hok' & _ & Hc). split; [done|]. by rewrite Hc, app_assoc, Hst.
  - pose proof (pipe_read_spec flags sig p mem ref a n Hok Hr Ha Hn Hadd) as Hw. rewrite He in Hw.
    destruct (decide (contents p = [])) as [Hc|Hc].
    + destruct Hw as (-> & -> & ->). destruct (_ =? 0); [cbn; by rewrite app_nil_r|].
      destruct (negb _); [cbn; by rewrite app_nil_r|]. destruct sig; [cbn; by rewrite app_nil_r|done].
    + destruct Hw as (-> & Hok' & _ & Hc' & Hm). split; [done|]. rewrite Hc'.
      set (c := Z.to_nat _) in *.
      assert (length (take c (contents p)) = c) as Hlen by (apply length_take_le; lia).
      rewrite <- Hlen at 1. rewrite (mem_read_write mem _ a _ Hm), <- app_assoc, take_drop. done.
  - split; [|cbn; by destruct (flags =? O_RDONLY)]. cbn. by destruct (flags =? O_RDONLY).
Qed.

(** ** Properties *)

(** C7. The ring implements a queue of at most 511 bytes.  A write appends the
    first [min(n, room)] bytes of the user buffer, a read removes the oldest
    [min(n, queued)] bytes and stores them, in order, at the user buffer and
    nowhere else; a read of an empty pipe is end of file without writers, a
    write without readers is EPIPE, and otherwise a full or empty pipe gives
    EAGAIN for a non-blocking file, EINTR when a signal waits, and blocks. *)
Theorem pipe_is_bounded_queue `{PageConfig} flags sig p mem ref a n : ring_ok p → ref_at ref a →
  0 < a → 0 <= n → (∀ x, a <= x < a + n → addressable x) →
  (let '(r, p', mem') := pipe_read flags sig p mem ref n in
   if decide (contents p = []) then
     p' = p ∧ mem' = mem ∧
     r = if pp_writers p =? 0 then Return 0
         else if negb (Z.land flags O_NONBLOCK =? 0) then Return (- EAGAIN)
         else if sig then Return (- EINTR) else Sleep
   else
     let c := Z.min n (Z.of_nat (length (contents p))) in
     r = Return c ∧ ring_ok p' ∧ same_ends p p' ∧ contents p' = drop (Z.to_nat c) (contents p) ∧
     ∀ x, mem' x = mem_write mem a (take (Z.to_nat c) (contents p)) x) ∧
  (let '(r, p') := pipe_write flags sig p mem ref n in
   if pp_readers p =? 0 then r = Return (- EPIPE) ∧ p' = p
   else if (length (contents p) =? 511)%nat then
     p' = p ∧ r = if negb (Z.land flags O_NONBLOCK =? 0) then Return (- EAGAIN)
                  else if sig then Return (- EINTR) else Sleep
   else
     let c := Z.min n (511 - Z.of_nat (length (contents p))) in
     r = Return c ∧ ring_ok p' ∧ same_ends p p' ∧
     contents p' = contents p ++ mem_read mem a (Z.to_nat c)).
Proof. intros. split; [by apply pipe_read_spec|by apply pipe_write_spec]. Qed.

Definition demo_pipe : pipe_t :=
  Pipe (<[511%nat := 65]> (replicate PIPE_BUF_SIZE 66)) 1 511 1 1 true.
Definition demo_ref : user_page_ref_t := UserRef 0x20006 0xFFF.

Lemma demo_ref_at : ref_at demo_ref 0x20006FFF ∧ ∀ x, 0x20006FFF <= x < 0x20006FFF + 8 → addressable x.
Proof.
  split; [done|]. intros x Hx. split_and!; [lia| |lia]. unfold PAGE_ID_INVALID. cbn [page_id_bits rp2040].
  apply Z.le_lt_trans with 0x20007; [|lia]. apply Z.lt_succ_r, Z.div_lt_upper_bound; unfold PAGE_SIZE; lia.
Qed.

Lemma pipe_is_bounded_queue_witness :
  (let '(r, p', mem') := pipe_read 0 false demo_pipe (λ _, 0) demo_ref 8 in
   if decide (contents demo_pipe = []) then
     p' = demo_pipe ∧ mem' = (λ _, 0) ∧
     r = if pp_writers demo_pipe =? 0 then Return 0
         else if negb (Z.land 0 O_NONBLOCK =? 0) then Return (- EAGAIN)
         else if false then Return (- EINTR) else Sleep
   else
     let c := Z.min 8 (Z.of_nat (length (contents demo_pipe))) in
     r = Return c ∧ ring_ok p' ∧ same_ends demo_pipe p' ∧
     contents p' = drop (Z.to_nat c) (contents demo_pipe) ∧
     ∀ x, mem' x = mem_write (λ _, 0) 0x20006FFF (take (Z.to_nat c) (contents demo_pipe)) x) ∧
  (let '(r, p') := pipe_write 0 false demo_pipe (λ _, 0) demo_ref 8 in
   if pp_readers demo_pipe =? 0 then r = Return (- EPIPE) ∧ p' = demo_pipe
   else if (length (contents demo_pipe) =? 511)%nat then
     p' = demo_pipe ∧ r = if negb (Z.land 0 O_NONBLOCK =? 0) then Return (- EAGAIN)
                  else if false then Return (- EINTR) else Sleep
   else
     let c := Z.min 8 (511 - Z.of_nat (length (contents demo_pipe))) in
     r = Return c ∧ ring_ok p' ∧ same_ends demo_pipe p' ∧
     contents p' = contents demo_pipe ++ mem_read (λ _, 0) 0x20006FFF (Z.to_nat c)).
Proof.
  apply (pipe_is_bounded_queue 0 false demo_pipe (λ _, 0) demo_ref 0x20006FFF 8);
    [by split_and!|apply demo_ref_at|lia|lia|apply demo_ref_at].
Defined.

(** Pipes are reliable streams: after any sequence of reads, writes and
    closes by any number of processes, in any order and whatever they returned,
    the bytes readers received followed by the bytes still queued are exactly
    the bytes writers sent, in order. *)
Theorem pipe_stream_order `{PageConfig} p p' sent recv : ring_ok p → contents p = [] →
  rtc pipe_step (p, [], []) (p', sent, recv) → recv ++ contents p' = sent ∧ ring_ok p'.
Proof.
  intros Hok Hc Hr. assert (stream_inv (p', sent, recv)) as [? ?].
  { assert (stream_inv (p, [], [])) as H0 by (split; [done|by rewrite Hc]). revert H0.
    induction Hr as [|x y z Hxy _ IH]; [done|]. intros. by apply IH, (stream_step x). }
  done.
Qed.

Lemma pipe_stream_order_witness :
  let p0 := Pipe (replicate PIPE_BUF_SIZE 0) 0 0 1 1 true in
  let p' := (pipe_write 0 false p0 (λ _, 7) demo_ref 2).2 in
  [] ++ contents p' = [] ++ mem_read (λ _, 7) 0x20006FFF 2 ∧ ring_ok p'.
Proof.
  apply (pipe_stream_order (Pipe (replicate PIPE_BUF_SIZE 0) 0 0 1 1 true)); [by split_and!|done|].
  apply rtc_once.
  apply (ps_write 0 false _ (λ _, 7) demo_ref 0x20006FFF 2 (Return 2) _ [] []);
    [apply demo_ref_at|lia|lia| |reflexivity].
  intros x Hx. apply (proj2 demo_ref_at). lia.
Defined.
