(* ===== verification/PathFacts.v ===== *)
(** * PathFacts: path normalization implements its specification

    The loop of [path_normalize], in place or into another buffer, computes
    [normalize]; normal forms are canonical. *)

From S2P Require Import Prelude Config Path.

(** ** Strings in memory *)

Fixpoint holds (mem : memory) (a : Z) (l : list Z) : Prop :=
  match l with
  | [] => True
  | c :: l => mem a = c ∧ holds mem (a + 1) l
  end.

Lemma holds_app mem a l1 l2 :
  holds mem a (l1 ++ l2) ↔ holds mem a l1 ∧ holds mem (a + Z.of_nat (length l1)) l2.
Proof.
  revert a. induction l1 as [|c l1 IH]; intros a; cbn [app holds length].
  - rewrite Z.add_0_r. tauto.
  - rewrite IH. replace (a + 1 + Z.of_nat (length l1)) with (a + Z.of_nat (S (length l1))) by lia. tauto.
Qed.

Lemma holds_ext mem mem' a l : (∀ x, a <= x < a + Z.of_nat (length l) → mem' x = mem x) →
  holds mem a l → holds mem' a l.
Proof.
  revert a. induction l as [|c l IH]; intros a He; cbn [holds]; [done|]. intros [Hc Hl]. split.
  - rewrite He; [done|cbn; lia].
  - apply IH; [|done]. intros x Hx. apply He. cbn. lia.
Qed.

Lemma store_eq a v mem : store a v mem a = v.
Proof. unfold store. by rewrite Z.eqb_refl. Qed.
Lemma store_ne a v mem x : x ≠ a → store a v mem x = mem x.
Proof. intros. unfold store. by destruct (Z.eqb_spec x a). Qed.

Lemma memmove_out dst src n mem x : ¬ (dst <= x < dst + n) → memmove dst src n mem x = mem x.
Proof. intros Hx. unfold memmove. destruct (_ && _) eqn:E; [|done]. zb. lia. Qed.

Lemma memmove_holds dst src mem l :
  holds mem src l → holds (memmove dst src (Z.of_nat (length l)) mem) dst l.
Proof.
  intros Hl. assert (∀ k l', holds mem (src + Z.of_nat k) l' → (k + length l' = length l)%nat →
    holds (memmove dst src (Z.of_nat (length l)) mem) (dst + Z.of_nat k) l') as H.
  { intros k l'. revert k. induction l' as [|c l' IH]; intros k Hh Hk; cbn [holds length] in *; [done|].
    destruct Hh as [Hc Hh]. split.
    - unfold memmove. destruct (Z.leb_spec dst (dst + Z.of_nat k)); [|lia].
      destruct (Z.ltb_spec (dst + Z.of_nat k) (dst + Z.of_nat (length l))); [|lia]. cbn [andb].
      by replace (src + (dst + Z.of_nat k - dst)) with (src + Z.of_nat k) by lia.
    - replace (dst + Z.of_nat k + 1) with (dst + Z.of_nat (S k)) by lia. apply IH; [|lia].
      by replace (src + Z.of_nat (S k)) with (src + Z.of_nat k + 1) by lia. }
  specialize (H O l). rewrite !Z.add_0_r in H. by apply H.
Qed.

(** ** Names and components *)

Definition name_char (x : Z) : Prop := x ≠ NUL ∧ x ≠ SLASH.
Definition good_name (c : name) : Prop := c ≠ [] ∧ Forall name_char c.

(** The rest of a path behind a component. *)
Definition at_slash (r : list Z) : Prop := r = [] ∨ ∃ r', r = SLASH :: r'.

Lemma components_slash s : components (SLASH :: s) = components s.
Proof. done. Qed.

Lemma split_cons s : ∃ w ws, split s = w :: ws.
Proof.
  destruct s as [|c s]; cbn [split]; [eauto|]. destruct (c =? SLASH); [eauto|].
  destruct (split s) as [|w ws]; eauto.
Qed.

Lemma split_name c r : Forall name_char c → at_slash r → split (c ++ r) = c :: tail (split r).
Proof.
  intros Hc Hr. induction Hc as [|x c [_ Hx] _ IH]; cbn [app split].
  - destruct Hr as [->|[r' ->]]; done.
  - destruct (Z.eqb_spec x SLASH); [done|]. by rewrite IH.
Qed.

Lemma components_name c r : good_name c → at_slash r → components (c ++ r) = c :: components r.
Proof.
  intros [Hn Hc] Hr. unfold components. rewrite split_name by done. rewrite filter_cons_True by done. f_equal.
  destruct Hr as [->|[r' ->]]; done.
Qed.

(** A path behind a component is a run of slashes, a component, and the rest. *)
Lemma path_cases r : Forall (λ x, x ≠ NUL) r → at_slash r →
  ∃ k c r', r = replicate k SLASH ++ c ++ r' ∧ Forall name_char c ∧ at_slash r' ∧
    (c = [] → r' = []) ∧ (c ≠ [] → (0 < k)%nat) ∧ (r = [] ∨ (0 < k)%nat).
Proof.
  intros Hr Hs.
  assert (∀ s, Forall (λ x, x ≠ NUL) s → ∃ c r', s = c ++ r' ∧ Forall name_char c ∧ at_slash r') as Hname.
  { induction s as [|x s IH]; intros HF; [exists [], []; split_and!; [done|done|by left]|].
    inversion_clear HF as [|? ? Hx HF']. destruct (decide (x = SLASH)) as [->|Hne].
    - exists [], (SLASH :: s). split_and!; [done|done|right; eauto].
    - destruct (IH HF') as (c & r' & -> & Hc & Ha). exists (x :: c), r'. split_and!; [done|by constructor|done]. }
  assert (∀ s, Forall (λ x, x ≠ NUL) s → ∃ k c r', s = replicate k SLASH ++ c ++ r' ∧ Forall name_char c ∧
    at_slash r' ∧ (c = [] → r' = [])) as Hcases.
  { induction s as [|x s IH]; intros HF; [exists 0%nat, [], []; split_and!; [done|done|by left|done]|].
    pose proof HF as HF0. inversion_clear HF as [|? ? Hx HF']. destruct (decide (x = SLASH)) as [->|Hne].
    - destruct (IH HF') as (k & c & r' & -> & Hc). by exists (S k), c, r'.
    - destruct (Hname _ HF0) as (c & r' & Heq & Hc & Ha). exists 0%nat, c, r'. split_and!; try done.
      intros ->. cbn in Heq. subst r'. destruct Ha as [|[r'' [=]]]; done. }
  destruct (Hcases r Hr) as (k & c & r' & -> & Hc & Ha & Hn). exists k, c, r'.
  assert ((0 < k)%nat ∨ replicate k SLASH ++ c ++ r' = []) as Hk.
  { destruct k; [|left; lia]. right. destruct Hs as [Hs|[s Hs]]; [done|]. destruct c as [|x c].
    - by rewrite Hn.
    - cbn in Hs. injection Hs as -> _. inversion_clear Hc as [|? ? [_ ?] _]. done. }
  split_and!; try done.
  - intros Hc'. destruct Hk as [|He]; [done|]. apply app_eq_nil in He as [_ He]. by apply app_eq_nil in He as [? _].
  - tauto.
Qed.

Lemma components_run k s : components (replicate k SLASH ++ s) = components s.
Proof. induction k; [done|]. cbn [replicate app]. by rewrite components_slash. Qed.

(** ** The scanning loops *)

Lemma skip_slashes_spec fuel mem p k x l : holds mem p (replicate k SLASH ++ x :: l) → x ≠ SLASH →
  (k < fuel)%nat → skip_slashes fuel mem p = Some (p + Z.of_nat k).
Proof.
  revert fuel p. induction k as [|k IH]; intros fuel p Hh Hx Hf; (destruct fuel as [|fuel]; [lia|]);
    cbn [skip_slashes replicate app holds] in *; destruct Hh as [Hp Hh].
  - rewrite Hp. destruct (Z.eqb_spec x SLASH); [done|]. by rewrite Z.add_0_r.
  - rewrite Hp, Z.eqb_refl, (IH fuel (p + 1)) by (done || lia). f_equal. lia.
Qed.

Lemma skip_name_spec fuel mem p c x l : holds mem p (c ++ x :: l) → Forall name_char c → x = NUL ∨ x = SLASH →
  (length c < fuel)%nat → skip_name fuel mem p = Some (p + Z.of_nat (length c)).
Proof.
  revert fuel p. induction c as [|y c IH]; intros fuel p Hh Hc Hx Hf; (destruct fuel as [|fuel]; [cbn in Hf; lia|]);
    cbn [skip_name app holds length] in *; destruct Hh as [Hp Hh]; rewrite Hp.
  - destruct Hx as [->| ->]; cbn; by rewrite Z.add_0_r.
  - inversion_clear Hc as [|? ? [Hy0 Hy] Hc']. destruct (Z.eqb_spec y NUL), (Z.eqb_spec y SLASH); try done.
    cbn [negb andb]. rewrite IH by (done || lia). f_equal. lia.
Qed.

Lemma render_snoc cs c : render (cs ++ [c]) = render cs ++ SLASH :: c.
Proof. unfold render. rewrite fmap_app, concat_app. cbn. by rewrite app_nil_r. Qed.

Lemma pop_name_spec mem buf (l : list Z) c : holds mem buf (l ++ SLASH :: c) → Forall name_char c →
  pop_name mem buf (length l + S (length c)) = S (length l).
Proof.
  induction c as [|x c IH] using rev_ind; intros Hh Hc.
  - cbn [length]. rewrite Nat.add_comm. cbn [pop_name Nat.add].
    apply holds_app in Hh as [_ [Hp _]]. by rewrite Hp.
  - apply Forall_app in Hc as [Hc [[_ Hx] _]%Forall_cons].
    assert (holds mem buf ((l ++ SLASH :: c) ++ [x])) as Hh' by (by rewrite <- app_assoc).
    apply holds_app in Hh' as [Hh1 [Hp _]]. rewrite length_app. cbn [length].
    replace (length l + S (length c + 1))%nat with (S (length l + S (length c))) by lia. cbn [pop_name].
    rewrite length_app in Hp. cbn [length] in Hp. rewrite Hp. destruct (Z.eqb_spec x SLASH); [done|]. by apply IH.
Qed.

(** ** The loop *)

(** What a call leaves: the error or the text of the components at [buf], and
    nothing else changed. *)
Definition normalized (mem : memory) (buf bufsiz : Z) (out : Z + list name) (res : option (Z * memory)) : Prop :=
  ∃ rc mem', res = Some (rc, mem') ∧ (∀ x, ¬ (buf <= x < buf + bufsiz) → mem' x = mem x) ∧
    match out with
    | inl e => rc = e
    | inr cs => rc = Z.of_nat (length (path_text cs)) ∧ holds mem' buf (path_text cs ++ [NUL])
    end.

Lemma normalized_weaken mem mem' buf bufsiz out res : (∀ x, ¬ (buf <= x < buf + bufsiz) → mem' x = mem x) →
  normalized mem' buf bufsiz out res → normalized mem buf bufsiz out res.
Proof.
  intros Hm (rc & m & -> & Hf & Ho). exists rc, m. split_and!; [done| |done]. intros x Hx. by rewrite Hf, Hm.
Qed.

Lemma render_nil cs : Forall good_name cs → length (render cs) = 0%nat → cs = [].
Proof. destruct cs as [|c cs]; [done|]. intros _. cbn. lia. Qed.

Lemma finish_spec mem buf bufsiz cs : Forall good_name cs → holds mem buf (render cs) →
  2 <= bufsiz → Z.of_nat (length (render cs)) < bufsiz →
  normalized mem buf bufsiz (inr cs) (Some (normalize_finish mem buf (length (render cs)))).
Proof.
  intros Hg Hh Hb Hl. unfold normalize_finish. destruct (Nat.eqb_spec (length (render cs)) 0) as [He|He].
  - rewrite (render_nil cs Hg He). eexists _, _. split; [reflexivity|]. split; [|split; [done|]].
    + intros x Hx. rewrite !store_ne by (cbn in *; lia). done.
    + cbn. rewrite store_ne by lia. by rewrite !store_eq.
  - assert (path_text cs = render cs) as Ht by (by destruct cs).
    eexists _, _. split; [reflexivity|]. rewrite Ht. split; [|split; [done|]].
    + intros x Hx. rewrite store_ne by lia. done.
    + apply holds_app. split; [|cbn; by rewrite store_eq].
      eapply holds_ext; [|exact Hh]. intros x Hx. apply store_ne. lia.
Qed.

(** The unread text lies behind the part of the buffer in use, or in front of
    the buffer. *)
Definition apart (p buf : Z) (len rest : nat) : Prop :=
  buf + Z.of_nat len <= p ∨ p + Z.of_nat rest < buf.

Lemma removelast_render (done : list name) mem buf : Forall good_name done → holds mem buf (render done) →
  let len := pop_name mem buf (length (render done)) in
  (if (0 <? len)%nat then (len - 1)%nat else len) = length (render (removelast done)) ∧
  (length (render (removelast done)) <= length (render done))%nat ∧
  holds mem buf (render (removelast done)) ∧ Forall good_name (removelast done).
Proof.
  intros Hg Hh. induction done as [|c cs _] using rev_ind; [done|]. cbn zeta. rewrite removelast_last.
  apply Forall_app in Hg as [Hg [[_ Hc] _]%Forall_cons]. rewrite render_snoc in *.
  rewrite length_app. cbn [length]. rewrite pop_name_spec by done.
  apply holds_app in Hh as [Hh _]. split_and!; [cbn; lia|lia|done|done].
Qed.

Lemma dot_test mem a w : holds mem a w → w ≠ [] →
  (Z.of_nat (length w) =? 1) && (mem a =? DOT) = bool_decide (w = [DOT]).
Proof.
  destruct w as [|x [|y w]]; cbn [holds]; [done| |].
  - intros [-> _] _. destruct (Z.eqb_spec x DOT) as [->|Hx].
    + by rewrite bool_decide_eq_true_2.
    + symmetry. apply bool_decide_eq_false. congruence.
  - intros _ _. rewrite bool_decide_eq_false_2 by done. destruct (Z.eqb_spec (Z.of_nat (length (x :: y :: w))) 1) as [E|]; [|done].
    cbn in E. lia.
Qed.

Lemma dotdot_test mem a w : holds mem a w → w ≠ [] →
  (Z.of_nat (length w) =? 2) && (mem a =? DOT) && (mem (a + 1) =? DOT) = bool_decide (w = [DOT; DOT]).
Proof.
  destruct w as [|x [|y [|z w]]]; cbn [holds]; [done|by rewrite bool_decide_eq_false_2| |].
  - intros (-> & -> & _) _. destruct (Z.eqb_spec x DOT) as [->|Hx], (Z.eqb_spec y DOT) as [->|Hy];
      (by rewrite bool_decide_eq_true_2) || (symmetry; apply bool_decide_eq_false; congruence).
  - intros _ _. rewrite bool_decide_eq_false_2 by done.
    destruct (Z.eqb_spec (Z.of_nat (length (x :: y :: z :: w))) 2) as [E|]; [|done]. cbn in E. lia.
Qed.

(** A slash and the name at [start] are appended to the buffer. *)
Lemma append_name mem buf start w done : holds mem buf (render done) → holds mem start w →
  (∀ x, start <= x < start + Z.of_nat (length w) → x ≠ buf + Z.of_nat (length (render done))) →
  let len := length (render done) in
  let mem' := memmove (buf + Z.of_nat (S len)) start (Z.of_nat (length w)) (store (buf + Z.of_nat len) SLASH mem) in
  (∀ x, ¬ (buf + Z.of_nat len <= x < buf + Z.of_nat len + 1 + Z.of_nat (length w)) → mem' x = mem x) ∧
  holds mem' buf (render (done ++ [w])).
Proof.
  intros Hb Hw Hap len mem'. set (mem1 := store (buf + Z.of_nat len) SLASH mem) in mem'.
  assert (∀ x, x ≠ buf + Z.of_nat len → mem1 x = mem x) as Hm1 by (intros; by apply store_ne).
  assert (∀ x, ¬ (buf + Z.of_nat len <= x < buf + Z.of_nat len + 1 + Z.of_nat (length w)) → mem' x = mem x) as Hm.
  { intros x Hx. subst mem'. rewrite memmove_out by lia. apply Hm1. lia. }
  split; [done|]. rewrite render_snoc. apply holds_app. split.
  { eapply holds_ext; [|exact Hb]. intros x Hx. apply Hm. fold len in Hx. lia. }
  fold len. split; [subst mem'; rewrite memmove_out by lia; apply store_eq|].
  replace (buf + Z.of_nat len + 1) with (buf + Z.of_nat (S len)) by lia. apply memmove_holds.
  eapply holds_ext; [|exact Hw]. intros x Hx. apply Hm1. by apply Hap.
Qed.

Lemma normalize_loop_spec fuel mem p buf bufsiz r done :
  Forall (λ x, x ≠ NUL) r → at_slash r → holds mem p (r ++ [NUL]) → Forall good_name done →
  holds mem buf (render done) → 2 <= bufsiz → Z.of_nat (length (render done)) < bufsiz →
  apart p buf (length (render done)) (length r) → (length r + 2 <= fuel)%nat →
  normalized mem buf bufsiz (resolve bufsiz (components r) done)
    (normalize_loop fuel mem p buf bufsiz (length (render done))).
Proof.
  revert mem p r done. induction fuel as [|fuel IH]; intros mem p r done Hr Has Hp Hg Hb H2 Hlen Hap Hf; [lia|].
  cbn [normalize_loop]. destruct (decide (r = [])) as [->|Hne].
  { destruct Hp as [-> _]. by apply finish_spec. }
  destruct (path_cases r Hr Has) as (k & c & r' & -> & Hc & Has' & Hcn & Hck & Hk).
  destruct Hk as [|Hk]; [done|]. rewrite components_run. rewrite <- !app_assoc in Hp.
  rewrite !length_app, length_replicate in Hap, Hf.
  apply Forall_app in Hr as [_ Hr]. apply Forall_app in Hr as [_ Hr].
  assert (mem p = SLASH) as Hp0 by (destruct k; [lia|]; by destruct Hp).
  rewrite Hp0. change (SLASH =? NUL) with false. cbn iota.
  pose proof Hp as Hrest. apply holds_app in Hrest as [_ Hrest]. rewrite length_replicate in Hrest.
  destruct c as [|x c].
  { rewrite (Hcn eq_refl) in *. cbn [app] in *.
    rewrite (skip_slashes_spec fuel mem p k NUL []) by (done || lia). cbn [mbind option_bind].
    destruct Hrest as [-> _]. by apply finish_spec. }
  pose proof (Forall_inv Hc) as [Hx0 Hx1].
  rewrite (skip_slashes_spec fuel mem p k x (c ++ r' ++ [NUL])) by (done || lia). cbn [mbind option_bind].
  set (start := p + Z.of_nat k) in *. assert (mem start = x) as Hs0 by (by destruct Hrest).
  destruct (Z.eqb_spec (mem start) NUL) as [|_]; [congruence|].
  assert (∃ y l, r' ++ [NUL] = y :: l ∧ (y = NUL ∨ y = SLASH)) as (y & l & Hyl & Hy).
  { destruct Has' as [->|[r'' ->]]; cbn; eauto. }
  assert (skip_name fuel mem start = Some (start + Z.of_nat (length (x :: c)))) as Hsn.
  { rewrite Hyl in Hrest. eapply skip_name_spec; [exact Hrest|done|done|]. cbn in *. lia. }
  rewrite Hsn. cbn [mbind option_bind].
  replace (start + Z.of_nat (length (x :: c)) - start) with (Z.of_nat (length (x :: c))) by lia.
  rewrite (components_name (x :: c) r') by (done || by split).
  apply holds_app in Hrest as [Hname Hrest].
  rewrite (dot_test mem start), (dotdot_test mem start) by done. cbn [resolve].
  set (w := x :: c) in *. set (p' := start + Z.of_nat (length w)) in *.
  assert (1 <= length w)%nat as Hw by (subst w; cbn; lia).
  destruct (decide (w = [DOT])) as [Hd|Hd].
  { rewrite bool_decide_eq_true_2 by done. apply IH; try done; [|lia]. unfold apart in *. lia. }
  rewrite bool_decide_eq_false_2 by done. destruct (decide (w = [DOT; DOT])) as [Hdd|Hdd].
  { rewrite bool_decide_eq_true_2 by done. destruct (removelast_render done mem buf Hg Hb) as (-> & Hle & Hb' & Hg').
    eapply normalized_weaken; [|apply IH]; try done; try lia.
    - intros y' Hy'. apply store_ne. lia.
    - eapply holds_ext; [|exact Hrest]. intros y' Hy'. apply store_ne.
      rewrite length_app in Hy'. cbn in Hy'. unfold apart in Hap. lia.
    - eapply holds_ext; [|exact Hb']. intros y' Hy'. apply store_ne. lia.
    - unfold apart in *. lia. }
  rewrite bool_decide_eq_false_2 by done.
  destruct (Z.ltb_spec (Z.of_nat VFS_NAME_MAX) (Z.of_nat (length w))) as [Hlong|Hlong]; cbn [orb].
  { by exists (- ENAMETOOLONG), mem. }
  destruct (Z.leb_spec bufsiz (Z.of_nat (length (render done)) + 1 + Z.of_nat (length w))) as [Hfull|Hfull].
  { by exists (- ENAMETOOLONG), mem. }
  destruct (append_name mem buf start w done Hb Hname) as [Hm2 Hb2]; [intros; unfold apart in Hap; lia|].
  set (len := length (render done)) in *. set (mem2 := memmove _ _ _ _) in *.
  assert (S len + Z.to_nat (Z.of_nat (length w)) = length (render (done ++ [w])))%nat as Hlen2.
  { rewrite render_snoc, length_app. cbn [length]. subst len. lia. }
  rewrite Hlen2. eapply normalized_weaken; [|apply IH]; try done.
  - intros y' Hy'. apply Hm2. lia.
  - eapply holds_ext; [|exact Hrest]. intros y' Hy'. apply Hm2. rewrite length_app in Hy'. cbn in Hy'.
    unfold apart in Hap. lia.
  - apply Forall_app. split; [done|]. constructor; [|done]. by split.
  - lia.
  - rewrite <- Hlen2. unfold apart in *. lia.
  - lia.
Qed.

(** ** Normal forms *)

Definition proper_name (c : name) : Prop :=
  good_name c ∧ c ≠ [DOT] ∧ c ≠ [DOT; DOT] ∧ Z.of_nat (length c) <= Z.of_nat VFS_NAME_MAX.

Lemma split_good s : Forall (λ x, x ≠ NUL) s → Forall (Forall name_char) (split s).
Proof.
  induction 1 as [|x s Hx _ IH]; cbn [split]; [by repeat constructor|].
  destruct (Z.eqb_spec x SLASH); [by constructor|]. destruct (split s) as [|w ws]; [by repeat constructor|].
  inversion_clear IH. constructor; [|done]. by constructor.
Qed.

Lemma components_good s : Forall (λ x, x ≠ NUL) s → Forall good_name (components s).
Proof.
  intros Hs%split_good. unfold components. induction Hs as [|w ws Hw _ IH]; [done|].
  rewrite filter_cons. destruct (decide _); [|done]. by constructor.
Qed.

Lemma removelast_Forall {A} (P : A → Prop) (l : list A) : Forall P l → Forall P (removelast l).
Proof.
  induction l as [|x l _] using rev_ind; [done|]. rewrite removelast_last. by intros [? _]%Forall_app.
Qed.

Lemma render_removelast cs : (length (render (removelast cs)) <= length (render cs))%nat.
Proof.
  induction cs as [|c cs _] using rev_ind; [done|]. rewrite removelast_last, render_snoc, length_app. lia.
Qed.

Lemma resolve_proper bufsiz cs done out : Forall good_name cs → Forall proper_name done →
  Z.of_nat (length (render done)) < bufsiz → resolve bufsiz cs done = inr out →
  Forall proper_name out ∧ Z.of_nat (length (render out)) < bufsiz.
Proof.
  intros Hcs. revert done. induction Hcs as [|c cs Hc _ IH]; intros done Hd Hl; cbn [resolve]; [by intros [= <-]|].
  destruct (decide (c = [DOT])); [by apply IH|]. destruct (decide (c = [DOT; DOT])).
  - apply IH; [by apply removelast_Forall|]. pose proof (render_removelast done). lia.
  - destruct (Z.ltb_spec (Z.of_nat VFS_NAME_MAX) (Z.of_nat (length c))); [done|]. cbn [orb].
    destruct (Z.leb_spec bufsiz (Z.of_nat (length (render done)) + 1 + Z.of_nat (length c))); [done|].
    apply IH.
    + apply Forall_app. split; [done|]. constructor; [|done]. by split_and!.
    + rewrite render_snoc, length_app. cbn [length]. lia.
Qed.

Lemma components_render cs : Forall good_name cs → components (render cs) = cs.
Proof.
  induction 1 as [|c cs Hc Hcs IH]; [done|]. change (render (c :: cs)) with (SLASH :: (c ++ render cs)).
  rewrite components_slash, components_name; [by rewrite IH|done|].
  destruct cs as [|c' cs]; [by left|right]. by exists (c' ++ render cs).
Qed.

Lemma resolve_idem bufsiz cs done : Forall proper_name cs → Z.of_nat (length (render (done ++ cs))) < bufsiz →
  resolve bufsiz cs done = inr (done ++ cs).
Proof.
  intros Hcs. revert done. induction Hcs as [|c cs (_ & H1 & H2 & Hl) _ IH]; intros done Hlen; cbn [resolve].
  { by rewrite app_nil_r. }
  destruct (decide (c = [DOT])); [done|]. destruct (decide (c = [DOT; DOT])); [done|].
  replace (done ++ c :: cs) with ((done ++ [c]) ++ cs) in * by (by rewrite <- app_assoc).
  assert (Z.of_nat (length (render (done ++ [c]))) < bufsiz) as Hl'.
  { revert Hlen. unfold render. rewrite fmap_app, concat_app, length_app. lia. }
  rewrite render_snoc, length_app in Hl'. cbn [length] in Hl'.
  destruct (Z.ltb_spec (Z.of_nat VFS_NAME_MAX) (Z.of_nat (length c))); [lia|].
  destruct (Z.leb_spec bufsiz (Z.of_nat (length (render done)) + 1 + Z.of_nat (length c))); [lia|]. cbn [orb].
  by apply IH.
Qed.

Lemma Forall_proper_good cs : Forall proper_name cs → Forall good_name cs.
Proof. intros H. eapply Forall_impl; [exact H|]. by intros c [? _]. Qed.

(** ** Properties *)

(** "/a/../b" at address 100 *)
Definition demo_path : list Z := [47; 97; 47; 46; 46; 47; 98].
Definition demo_string : memory := λ x, (demo_path ++ [NUL]) !!! Z.to_nat (x - 100).

(** C10. Path normalization terminates and is right, whether it writes into
    another buffer or over its own input: with fuel for the length of the string
    it returns the error the specification gives, or the length of the normal
    form, which it leaves NUL-terminated at the buffer; it writes nothing
    outside the buffer's [bufsiz] bytes. *)
Theorem path_normalize_correct fuel mem path buf bufsiz s : path ≠ 0 → Forall (λ x, x ≠ NUL) s →
  holds mem path (s ++ [NUL]) →
  path = buf ∨ buf + bufsiz <= path ∨ path + Z.of_nat (length s) < buf →
  (length s + 2 <= fuel)%nat →
  ∃ rc mem', path_normalize fuel mem path buf bufsiz = Some (rc, mem') ∧
    (∀ x, ¬ (buf <= x < buf + bufsiz) → mem' x = mem x) ∧
    match normalize bufsiz s with
    | inl e => rc = e
    | inr out => rc = Z.of_nat (length out) ∧ holds mem' buf (out ++ [NUL])
    end.
Proof.
  intros Hp Hs Hh Hal Hf. unfold path_normalize, normalize.
  destruct (Z.eqb_spec path 0) as [|_]; [done|]. destruct s as [|c s].
  { destruct Hh as [-> _]. eexists _, mem. by split_and!. }
  pose proof Hh as [Hc _]. rewrite Hc. destruct (Z.eqb_spec c SLASH) as [->|]; cbn [negb orb]; [|by eexists _, mem].
  destruct (Z.ltb_spec bufsiz 2) as [|Hb]; [by eexists _, mem|].
  destruct (normalize_loop_spec fuel mem path buf bufsiz (SLASH :: s) []) as (rc & mem' & Hr & Hfr & Ho);
    try done; try (cbn; lia).
  - right. eauto.
  - unfold apart. change (length (render [])) with 0%nat. lia.
  - exists rc, mem'. split; [exact Hr|]. split; [done|]. by destruct (resolve _ _ _).
Qed.

Lemma path_normalize_correct_witness :
  ∃ rc mem', path_normalize 9 demo_string 100 100 128 = Some (rc, mem') ∧
    (∀ x, ¬ (100 <= x < 100 + 128) → mem' x = demo_string x) ∧
    match normalize 128 demo_path with
    | inl e => rc = e
    | inr out => rc = Z.of_nat (length out) ∧ holds mem' 100 (out ++ [NUL])
    end.
Proof.
  apply (path_normalize_correct 9 demo_string 100 100 128 demo_path);
    [done|by repeat constructor|by repeat split|by left|unfold demo_path; cbn; lia].
Defined.

(** Normal forms are canonical: a normalized path fits its buffer, is the
    text of components without empty names, "." and "..", none longer than
    VFS_NAME_MAX, and normalizing it again changes nothing. *)
Theorem normalize_canonical bufsiz s out : Forall (λ x, x ≠ NUL) s → normalize bufsiz s = inr out →
  ∃ cs, out = path_text cs ∧ Forall proper_name cs ∧ Z.of_nat (length out) < bufsiz ∧
    components out = cs ∧ normalize bufsiz out = inr out.
Proof.
  intros Hs. unfold normalize at 1. destruct s as [|c s]; [done|].
  destruct (Z.eqb_spec c SLASH) as [->|]; [|done]. cbn [negb orb]. destruct (Z.ltb_spec bufsiz 2) as [|Hb]; [done|].
  destruct (resolve bufsiz (components (SLASH :: s)) []) as [e|cs] eqn:Hr; [done|]. intros [= <-].
  destruct (resolve_proper bufsiz _ [] cs (components_good _ Hs) (Forall_nil_2 _) ltac:(cbn; lia) Hr) as [Hp Hl].
  exists cs. assert (components (path_text cs) = cs) as Hc.
  { destruct cs; [done|]. by apply components_render, Forall_proper_good. }
  split_and!; try done.
  - destruct cs; [cbn; lia|done].
  - unfold normalize. destruct (path_text cs) as [|y out] eqn:Ht; [by destruct cs|].
    assert (y = SLASH) as -> by (destruct cs; cbn in Ht; congruence). cbn [Z.eqb negb orb].
    destruct (Z.ltb_spec bufsiz 2); [lia|]. change (negb (SLASH =? SLASH)) with false. cbn [orb].
    rewrite Hc, (resolve_idem bufsiz cs []) by done. cbn [app]. by rewrite Ht.
Qed.

Lemma normalize_canonical_witness :
  ∃ cs, [47; 98] = path_text cs ∧ Forall proper_name cs ∧ Z.of_nat (length [47; 98]) < 128 ∧
    components [47; 98] = cs ∧ normalize 128 [47; 98] = inr [47; 98].
Proof. apply (normalize_canonical 128 demo_path); [by repeat constructor|reflexivity]. Defined.
