(* ===== verification/Vfs.v ===== *)
(** * Vfs: vnodes and the mount table (src/kernel/vfs/vfs.c, vfs_types.h)

    The vnode pool, the scratch buffers and the mount table.  Pointers to vnodes
    and mount entries are indices, None for NULL.  The two kmem pools appear as
    the stacks Kmem shows they implement; of a scratch buffer only its being
    taken matters, so that pool is the number of free buffers.  A filesystem
    driver is the table of functions [vfs_ops] points to, a parameter here as it
    is in the code; NULL entries are None. *)

From S2P Require Import Prelude Config Path.

Inductive vnode_type_t := VNODE_FILE | VNODE_DIR | VNODE_SYMLINK | VNODE_DEV.

#[export] Instance vnode_type_eq_dec : EqDecision vnode_type_t.
Proof. solve_decision. Defined.

Record vnode_t := Vnode {
  vn_type : vnode_type_t;
  vn_size : Z;
  vn_mode : Z;
  vn_ino : Z;
  vn_refcnt : Z;
  vn_fs_priv : Z;
  vn_mount : option nat;
  vn_xip_addr : Z
}.

#[export] Instance vnode_inhabited : Inhabited vnode_t := populate (Vnode VNODE_FILE 0 0 0 0 0 None 0).

Definition set_refcnt (v : Z) (vn : vnode_t) : vnode_t :=
  Vnode (vn_type vn) (vn_size vn) (vn_mode vn) (vn_ino vn) (u32 v) (vn_fs_priv vn) (vn_mount vn) (vn_xip_addr vn).

Definition MNT_STATE_FREE : Z := 0.
Definition MNT_STATE_ACTIVE : Z := 1.
Definition MNT_STATE_MOUNTING : Z := 2.
Definition VFS_LOOKUP_NOFOLLOW : Z := 1.
Definition VFS_SCRATCH_POOL_SIZE : nat := 8.

(** [mnt_ops] is the address of the driver's table, 0 for NULL. *)
Record mount_entry_t := Mount {
  mnt_path : list Z;
  mnt_path_len : Z;
  mnt_flags : Z;
  mnt_active : Z;
  mnt_ops : Z;
  mnt_root : option nat;
  mnt_sb_priv : Z
}.

#[export] Instance mount_inhabited : Inhabited mount_entry_t := populate (Mount [] 0 0 0 0 None 0).

Definition set_active (v : Z) (m : mount_entry_t) : mount_entry_t :=
  Mount (mnt_path m) (mnt_path_len m) (mnt_flags m) (u8 v) (mnt_ops m) (mnt_root m) (mnt_sb_priv m).
Definition set_root (v : option nat) (m : mount_entry_t) : mount_entry_t :=
  Mount (mnt_path m) (mnt_path_len m) (mnt_flags m) (mnt_active m) (mnt_ops m) v (mnt_sb_priv m).

(** The state of the layer; [W] is that of the drivers. *)
Record vfs_t {W : Type} := Vfs {
  vnodes : list vnode_t;
  vnode_free : list nat;
  mounts : list mount_entry_t;
  mount_count : Z;
  scratch_free : nat;
  fs_world : W
}.
Arguments vfs_t : clear implicits.

(** The driver functions this library calls. *)
Record vfs_ops_t {W : Type} := VfsOps {
  op_mount : option (nat → Z → vfs_t W → Z * vfs_t W);
  op_lookup : option (nat → name → vfs_t W → Z * option nat * vfs_t W);
  op_readlink : option (nat → Z → vfs_t W → Z * list Z * vfs_t W)
}.
Arguments vfs_ops_t : clear implicits.

Section Operations.
Context {W : Type} (ops_at : Z → vfs_ops_t W).
#[local] Abbreviation vfs := (vfs_t W).

Definition vnode (st : vfs) (v : nat) : vnode_t := vnodes st !!! v.
Definition mount_at (st : vfs) (i : nat) : mount_entry_t := mounts st !!! i.

Definition upd_vnode (v : nat) (f : vnode_t → vnode_t) (st : vfs) : vfs :=
  Vfs _ (alter f v (vnodes st)) (vnode_free st) (mounts st) (mount_count st) (scratch_free st) (fs_world st).
Definition upd_mount (i : nat) (f : mount_entry_t → mount_entry_t) (st : vfs) : vfs :=
  Vfs _ (vnodes st) (vnode_free st) (alter f i (mounts st)) (mount_count st) (scratch_free st) (fs_world st).
Definition set_vnode_free (l : list nat) (st : vfs) : vfs :=
  Vfs _ (vnodes st) l (mounts st) (mount_count st) (scratch_free st) (fs_world st).
Definition set_mount_count (n : Z) (st : vfs) : vfs :=
  Vfs _ (vnodes st) (vnode_free st) (mounts st) (u32 n) (scratch_free st) (fs_world st).
Definition set_scratch_free (n : nat) (st : vfs) : vfs :=
  Vfs _ (vnodes st) (vnode_free st) (mounts st) (mount_count st) n (fs_world st).

(** ** Vnodes *)

Definition vfs_vnode_alloc (st : vfs) : option nat * vfs :=
  match vnode_free st with
  | [] => (None, st)
  | v :: l => (Some v, upd_vnode v (λ _, Vnode VNODE_FILE 0 0 0 1 0 None 0) (set_vnode_free l st))
  end.

Definition vfs_vnode_acquire (vn : option nat) (st : vfs) : vfs :=
  match vn with
  | None => st
  | Some v => upd_vnode v (λ n, set_refcnt (vn_refcnt n + 1) n) st
  end.

(** The locked part of a release, which [vfs_umount] repeats. *)
Definition vnode_drop (v : nat) (st : vfs) : vfs :=
  let st := if 0 <? vn_refcnt (vnode st v) then upd_vnode v (λ n, set_refcnt (vn_refcnt n - 1) n) st else st in
  if vn_refcnt (vnode st v) =? 0 then set_vnode_free (v :: vnode_free st) st else st.

Definition vfs_vnode_release (vn : option nat) (st : vfs) : vfs :=
  match vn with None => st | Some v => vnode_drop v st end.

Definition vnode_free_count (st : vfs) : nat := length (vnode_free st).

(** ** Scratch buffers *)

Definition vfs_scratch_alloc (st : vfs) : bool * vfs :=
  match scratch_free st with
  | O => (false, st)
  | S n => (true, set_scratch_free n st)
  end.

(** [buf] tells whether the pointer is not NULL. *)
Definition vfs_scratch_free (buf : bool) (st : vfs) : vfs :=
  if buf then set_scratch_free (S (scratch_free st)) st else st.

(** ** The mount table *)

(** [s[i]] of a C string. *)
Definition char_at (s : list Z) (i : nat) : Z := default NUL (s !! i).

(** [strncmp(a, b, n) == 0] *)
Definition strn_eq (a b : list Z) (n : nat) : bool := bool_decide (take n a = take n b).

(** [while (plen > 1 && path[plen - 1] == '/') plen--] *)
Fixpoint strip_slashes (path : list Z) (plen : nat) : nat :=
  match plen with
  | S (S _ as plen') => if char_at path plen' =? SLASH then strip_slashes path plen' else plen
  | _ => plen
  end.

Definition mount_taken (path : list Z) (plen : nat) (m : mount_entry_t) : bool :=
  negb ((mnt_active m =? MNT_STATE_FREE) || negb (mnt_path_len m =? Z.of_nat plen)) &&
  (strn_eq (mnt_path m) path plen && (char_at (mnt_path m) plen =? NUL)).

(** The index of the first entry that satisfies a condition. *)
Fixpoint find_mount (P : mount_entry_t → bool) (l : list mount_entry_t) (i : nat) : option nat :=
  match l with
  | [] => None
  | m :: l => if P m then Some i else find_mount P l (S i)
  end.

Definition vfs_mount (path : list Z) (ops flags dev_data : Z) (st : vfs) : Z * vfs :=
  if ops =? 0 then (- EINVAL, st)
  else
    let plen := length path in
    if (VFS_PATH_MAX <=? plen)%nat then (- ENAMETOOLONG, st)
    else
      let plen := strip_slashes path plen in
      match find_mount (mount_taken path plen) (mounts st) 0 with
      | Some _ => (- EBUSY, st)
      | None =>
          match find_mount (λ m, mnt_active m =? MNT_STATE_FREE) (mounts st) 0 with
          | None => (- ENOMEM, st)
          | Some i =>
              let st := upd_mount i (λ _, Mount (take plen path) (u8 (Z.of_nat plen)) (u8 flags)
                                            MNT_STATE_MOUNTING ops None 0) st in
              let '(err, st) := match op_mount (ops_at ops) with
                                | Some f => f i dev_data st
                                | None => (0, st)
                                end in
              if negb (err =? 0) then (err, upd_mount i (set_active MNT_STATE_FREE) st)
              else
                let st := upd_mount i (set_active MNT_STATE_ACTIVE) st in
                (0, set_mount_count (mount_count st + 1) st)
          end
      end.

(** Some other vnode still refers to mount [i]. *)
Definition mount_in_use (i : nat) (root : option nat) (st : vfs) : bool :=
  existsb (λ v, (0 <? vn_refcnt (vnode st v)) && bool_decide (vn_mount (vnode st v) = Some i) &&
                negb (bool_decide (Some v = root))) (seq 0 VFS_VNODE_MAX).

Definition vfs_umount (path : list Z) (st : vfs) : Z * vfs :=
  if bool_decide (path = [SLASH]) then (- EINVAL, st)
  else
    match find_mount (λ m, (mnt_active m =? MNT_STATE_ACTIVE) && bool_decide (mnt_path m = path)) (mounts st) 0 with
    | None => (- ENOENT, st)
    | Some i =>
        let root := mnt_root (mount_at st i) in
        if match root with Some r => 1 <? vn_refcnt (vnode st r) | None => false end then (- EBUSY, st)
        else if mount_in_use i root st then (- EBUSY, st)
        else
          let st := match root with Some r => vnode_drop r st | None => st end in
          let st := upd_mount i (set_root None) st in
          let st := upd_mount i (set_active MNT_STATE_FREE) st in
          (0, set_mount_count (mount_count st - 1) st)
    end.

(** One entry against the best so far, an index and its length. *)
Definition mount_better (path : list Z) (i : nat) (m : mount_entry_t) (best : option nat * Z) : option nat * Z :=
  if negb (mnt_active m =? MNT_STATE_ACTIVE) then best
  else
    let mlen := mnt_path_len m in
    if (mlen =? 1) && (char_at (mnt_path m) 0 =? SLASH) then
      if negb (bool_decide (is_Some (best.1))) || (best.2 <? mlen) then (Some i, mlen) else best
    else if strn_eq path (mnt_path m) (Z.to_nat mlen) then
      let next := char_at path (Z.to_nat mlen) in
      if (next =? SLASH) || (next =? NUL) then
        if best.2 <? mlen then (Some i, mlen) else best
      else best
    else best.

Fixpoint mount_scan (path : list Z) (l : list mount_entry_t) (i : nat) (best : option nat * Z) : option nat * Z :=
  match l with
  | [] => best
  | m :: l => mount_scan path l (S i) (mount_better path i m best)
  end.

(** [while ( *r == '/') r++] on the rest of a string *)
Fixpoint drop_slashes (r : list Z) : list Z :=
  match r with
  | c :: r' => if c =? SLASH then drop_slashes r' else r
  | [] => []
  end.

(** The entry, with its root acquired, and the remainder of the path. *)
Definition vfs_mount_find (path : list Z) (st : vfs) : option (nat * list Z) * vfs :=
  let '(best, best_len) := mount_scan path (mounts st) 0 (None, 0) in
  match best with
  | None => (None, st)
  | Some i =>
      match mnt_root (mount_at st i) with
      | None => (None, st)
      | Some r =>
          (Some (i, drop_slashes (drop (Z.to_nat best_len) path)),
           upd_vnode r (λ n, set_refcnt (vn_refcnt n + 1) n) st)
      end
  end.
End Operations.
