(* ===== verification/VfsFacts.v ===== *)
(** * VfsFacts: reference counts, unmounting and mount selection

    [pins st0 held st] says that [st] is [st0] with one extra reference for each
    entry of [held]; the operations of the layer add and remove entries. *)

From S2P Require Import Prelude Config Path Vfs.

Section Refs.
Context {W : Type}.
#[local] Abbreviation vfs := (vfs_t W).
Implicit Types st : vfs.

Definition refs st (v : nat) : Z := vn_refcnt (vnode st v).

(** The vnode pool: the free ones are those without references. *)
Record pool_ok st : Prop := {
  pool_length : length (vnodes st) = VFS_VNODE_MAX;
  pool_free_lt : ∀ v, v ∈ vnode_free st → (v < VFS_VNODE_MAX)%nat;
  pool_nodup : NoDup (vnode_free st);
  pool_free : ∀ v, (v < VFS_VNODE_MAX)%nat → v ∈ vnode_free st ↔ refs st v = 0;
  pool_refs : ∀ v, 0 <= refs st v < 2 ^ 32
}.

(** Occurrences in a list of pins. *)
Fixpoint occ (v : nat) (l : list nat) : Z :=
  match l with
  | [] => 0
  | w :: l => (if decide (v = w) then 1 else 0) + occ v l
  end.

Lemma occ_range v l : 0 <= occ v l <= Z.of_nat (length l).
Proof. induction l as [|w l IH]; cbn [occ length]; [lia|]. destruct (decide (v = w)); lia. Qed.

Lemma occ_perm v l l' : l ≡ₚ l' → occ v l = occ v l'.
Proof. induction 1; cbn [occ]; lia. Qed.

Record pins st0 (held : list nat) st : Prop := {
  pins_refs : ∀ v, refs st v = refs st0 v + occ v held;
  pins_mounts : mounts st = mounts st0;
  pins_count : mount_count st = mount_count st0;
  pins_scratch : scratch_free st = scratch_free st0;
  pins_pool : pool_ok st
}.

Lemma pins_refl st : pool_ok st → pins st [] st.
Proof. intros H. split; try done. intros v. cbn. lia. Qed.

Lemma pins_perm st0 l l' st : l ≡ₚ l' → pins st0 l st → pins st0 l' st.
Proof. intros Hp []. split; try done. intros v. by rewrite <- (occ_perm v l l'). Qed.

Lemma refs_upd st v w f : length (vnodes st) = VFS_VNODE_MAX → (v < VFS_VNODE_MAX)%nat →
  refs (upd_vnode v f st) w = if decide (w = v) then vn_refcnt (f (vnode st v)) else refs st w.
Proof.
  intros Hl Hv. unfold refs, vnode, upd_vnode. cbn [vnodes]. rewrite !list_lookup_total_alt.
  destruct (decide (w = v)) as [->|Hne].
  - rewrite list_lookup_alter_eq. destruct (lookup_lt_is_Some_2 (vnodes st) v) as [x ->]; [by rewrite Hl|done].
  - by rewrite list_lookup_alter_ne.
Qed.

(** Acquiring adds a pin. *)
Lemma acquire_pins st0 held st v : (∀ w, refs st0 w < 2 ^ 31) → (length held < 8)%nat → (v < VFS_VNODE_MAX)%nat →
  0 < refs st v → pins st0 held st →
  pins st0 (v :: held) (upd_vnode v (λ n, set_refcnt (vn_refcnt n + 1) n) st).
Proof.
  intros Hb Hh Hv Hpos [Hr Hm Hc Hs [Pl Pf Pn Pi Pr]].
  assert (∀ w, refs (upd_vnode v (λ n, set_refcnt (vn_refcnt n + 1) n) st) w =
    refs st w + (if decide (w = v) then 1 else 0)) as Hu.
  { intros w. rewrite refs_upd by done. destruct (decide (w = v)) as [->|]; [|lia]. cbn. fold (refs st v).
    apply (uN_small 32). specialize (Hb v). specialize (Hr v). pose proof (occ_range v held). specialize (Pr v). lia. }
  split; try done.
  - intros w. rewrite Hu, Hr. cbn [occ]. lia.
  - split; try done.
    + unfold upd_vnode. cbn [vnodes]. by rewrite length_alter.
    + intros w Hw. rewrite Hu. cbn [upd_vnode vnode_free]. rewrite (Pi w Hw). destruct (decide (w = v)) as [->|]; lia.
    + intros w. rewrite Hu, Hr. specialize (Hb w). pose proof (occ_range w held). specialize (Pr w). rewrite Hr in Pr.
      case_match; lia.
Qed.

(** Releasing removes one, and frees the vnode with its last reference. *)
Lemma drop_pins st0 held st v : (v < VFS_VNODE_MAX)%nat → pins st0 (v :: held) st → pool_ok st0 →
  pins st0 held (vnode_drop v st).
Proof.
  intros Hv [Hr Hm Hc Hs [Pl Pf Pn Pi Pr]] H0. pose proof (pool_refs _ H0 v) as H0v.
  pose proof (Hr v) as Hrv. cbn [occ] in Hrv. rewrite decide_True in Hrv by done. pose proof (occ_range v held) as Ho.
  unfold vnode_drop. fold (refs st v). destruct (Z.ltb_spec 0 (refs st v)) as [_|]; [|lia].
  set (st1 := upd_vnode v (λ n, set_refcnt (vn_refcnt n - 1) n) st).
  assert (∀ w, refs st1 w = refs st w - (if decide (w = v) then 1 else 0)) as Hu.
  { intros w. subst st1. rewrite refs_upd by done. destruct (decide (w = v)) as [->|]; [|lia]. cbn. fold (refs st v).
    apply (uN_small 32). specialize (Pr v). lia. }
  assert (length (vnodes st1) = VFS_VNODE_MAX) as Hl1 by (unfold st1, upd_vnode; cbn; by rewrite length_alter).
  assert (∀ w, refs st1 w = refs st0 w + occ w held) as Hr1.
  { intros w. rewrite Hu, Hr. cbn [occ]. case_match; lia. }
  assert (∀ w, 0 <= refs st1 w < 2 ^ 32) as Hb1.
  { intros w. pose proof (Pr w). rewrite Hu. destruct (decide (w = v)) as [->|]; lia. }
  fold (refs st1 v). destruct (Z.eqb_spec (refs st1 v) 0) as [Hz|Hz].
  - assert (v ∉ vnode_free st) as Hnf by (rewrite (Pi v Hv); lia).
    split; try done. split; try done.
    + intros w. cbn [vnode_free set_vnode_free]. rewrite elem_of_cons. intros [->|?]; [done|by apply Pf].
    + cbn [vnode_free set_vnode_free]. by constructor.
    + intros w Hw. cbn [vnode_free set_vnode_free]. rewrite elem_of_cons. change (refs (set_vnode_free _ st1) w) with (refs st1 w).
      change (vnode_free st1) with (vnode_free st). rewrite (Pi w Hw), Hu.
      destruct (decide (w = v)) as [->|Hne]; [|lia]. rewrite Hu, decide_True in Hz by done. split; [intros _; lia|by left].
  - split; try done. split; try done. intros w Hw. change (vnode_free st1) with (vnode_free st). rewrite (Pi w Hw), Hu.
    destruct (decide (w = v)) as [->|Hne]; [|lia]. rewrite Hu, decide_True in Hz by done. lia.
Qed.
End Refs.

(** ** Mount selection *)

Section Mounts.
Context {W : Type}.
#[local] Abbreviation vfs := (vfs_t W).
Implicit Types st : vfs.

(** The test of [vfs_mount_find] on one entry. *)
Definition selects (path : list Z) (m : mount_entry_t) : bool :=
  (mnt_active m =? MNT_STATE_ACTIVE) &&
  (((mnt_path_len m =? 1) && (char_at (mnt_path m) 0 =? SLASH)) ||
   (strn_eq path (mnt_path m) (Z.to_nat (mnt_path_len m)) &&
    ((char_at path (Z.to_nat (mnt_path_len m)) =? SLASH) || (char_at path (Z.to_nat (mnt_path_len m)) =? NUL)))).

Lemma mount_better_eq path i m best : (best.1 = None → best.2 = 0) →
  mount_better path i m best =
  if selects path m && (best.2 <? mnt_path_len m) then (Some i, mnt_path_len m) else best.
Proof.
  intros Hb. unfold mount_better, selects. destruct (mnt_active m =? MNT_STATE_ACTIVE); [|done]. cbn [negb andb].
  destruct ((mnt_path_len m =? 1) && _) eqn:E; cbn [orb andb].
  - apply andb_true_iff in E as [E _]. apply Z.eqb_eq in E. rewrite E.
    destruct best as [[b|] l]; cbn [fst snd] in *; [done|]. by rewrite (Hb eq_refl).
  - destruct (strn_eq _ _ _); [|done]. cbn [andb]. by destruct (_ || _).
Qed.

(** [best] is the selected entry of [ms] with the longest path. *)
Definition best_of (path : list Z) (ms : list mount_entry_t) (best : option nat * Z) : Prop :=
  (∀ m, m ∈ ms → selects path m = true → mnt_path_len m <= best.2) ∧
  match best.1 with
  | None => best.2 = 0
  | Some i => ∃ m, ms !! i = Some m ∧ selects path m = true ∧ best.2 = mnt_path_len m
  end.

Lemma mount_scan_best path l ms best : best_of path ms best →
  best_of path (ms ++ l) (mount_scan path l (length ms) best).
Proof.
  revert ms best. induction l as [|m l IH]; intros ms best Hb; cbn [mount_scan]; [by rewrite app_nil_r|].
  replace (ms ++ m :: l) with ((ms ++ [m]) ++ l) by (by rewrite <- app_assoc).
  replace (S (length ms)) with (length (ms ++ [m])) by (rewrite length_app; cbn; lia). apply IH.
  destruct Hb as [Hmax Hb]. rewrite mount_better_eq by (destruct best as [[]]; done).
  destruct (selects path m) eqn:Hs; cbn [andb].
  - destruct (Z.ltb_spec best.2 (mnt_path_len m)).
    + split; cbn [fst snd].
      * intros m' [Hm|Hm%list_elem_of_singleton]%elem_of_app Hs'; [|subst; lia]. specialize (Hmax m' Hm Hs'). lia.
      * exists m. by rewrite lookup_app_r, Nat.sub_diag by lia.
    + split.
      * intros m' [Hm|Hm%list_elem_of_singleton]%elem_of_app Hs'; [by apply Hmax|subst; lia].
      * destruct best as [[i|] len]; [|done]. destruct Hb as (m0 & Hi & Hb). exists m0. by rewrite lookup_app_l by (by eapply lookup_lt_Some).
  - split.
    + intros m' [Hm|Hm%list_elem_of_singleton]%elem_of_app Hs'; [by apply Hmax|subst; congruence].
    + destruct best as [[i|] len]; [|done]. destruct Hb as (m0 & Hi & Hb). exists m0. by rewrite lookup_app_l by (by eapply lookup_lt_Some).
Qed.

Lemma mount_scan_table path st : best_of path (mounts st) (mount_scan path (mounts st) 0 (None, 0)).
Proof. apply (mount_scan_best path (mounts st) []). split; [|done]. by intros m ?%not_elem_of_nil. Qed.

(** An entry whose root is pinned by its mount. *)
Definition mounts_ok st : Prop :=
  ∀ i m r, mounts st !! i = Some m → mnt_active m = MNT_STATE_ACTIVE → mnt_root m = Some r →
    (r < VFS_VNODE_MAX)%nat ∧ 0 < refs st r.

Lemma vfs_mount_find_cases path st :
  (vfs_mount_find path st = (None, st)) ∨
  ∃ i m r rem, vfs_mount_find path st = (Some (i, rem), upd_vnode r (λ n, set_refcnt (vn_refcnt n + 1) n) st) ∧
    mounts st !! i = Some m ∧ mnt_active m = MNT_STATE_ACTIVE ∧ mnt_root m = Some r ∧ selects path m = true.
Proof.
  unfold vfs_mount_find. pose proof (mount_scan_table path st) as [_ Hb].
  destruct (mount_scan path (mounts st) 0 (None, 0)) as [[i|] len]; cbn [fst snd] in Hb; [|by left].
  destruct Hb as (m & Hi & Hs & _). unfold mount_at. rewrite (list_lookup_total_correct _ _ _ Hi).
  destruct (mnt_root m) as [r|] eqn:Hr; [|by left]. right. eexists i, m, r, _. split_and!; try done.
  unfold selects in Hs. apply andb_true_iff in Hs as [Hs _]. by apply Z.eqb_eq in Hs.
Qed.

(** The mount covers the path: it is the root, or the path is its mount point or
    lies below it. *)
Definition covers (path : list Z) (m : mount_entry_t) : Prop :=
  mnt_active m = MNT_STATE_ACTIVE ∧
  (mnt_path m = [SLASH] ∨ ∃ r, path = mnt_path m ++ r ∧ (r = [] ∨ ∃ r', r = SLASH :: r')).

Definition path_len_ok (m : mount_entry_t) : Prop :=
  mnt_path_len m = Z.of_nat (length (mnt_path m)) ∧ mnt_path m ≠ [].

Lemma char_at_app_r (l r : list Z) : char_at (l ++ r) (length l) = char_at r 0.
Proof. unfold char_at. by rewrite lookup_app_r, Nat.sub_diag. Qed.

Lemma selects_covers path m : Forall (λ x, x ≠ NUL) path → path_len_ok m →
  selects path m = true ↔ covers path m.
Proof.
  intros Hp [Hl Hne]. unfold selects, covers. rewrite Hl, Nat2Z.id, andb_true_iff, orb_true_iff, !andb_true_iff, Z.eqb_eq.
  apply and_iff_compat_l. assert ((Z.of_nat (length (mnt_path m)) =? 1) = true ∧ (char_at (mnt_path m) 0 =? SLASH) = true ↔
    mnt_path m = [SLASH]) as ->.
  { rewrite !Z.eqb_eq. destruct (mnt_path m) as [|x [|y l]]; [done| |].
    - unfold char_at. cbn. split; [by intros [_ ->]|by intros [= ->]].
    - cbn [length]. split; [lia|done]. }
  apply or_iff_compat_l. unfold strn_eq. rewrite bool_decide_eq_true, orb_true_iff, !Z.eqb_eq, (take_ge (mnt_path m)) by lia.
  split.
  - intros [Ht Hc]. exists (drop (length (mnt_path m)) path).
    assert (path = mnt_path m ++ drop (length (mnt_path m)) path) as He by (rewrite <- Ht at 1; by rewrite take_drop).
    split; [done|]. rewrite He in Hc, Hp. rewrite char_at_app_r in Hc. apply Forall_app in Hp as [_ Hp].
    destruct (drop _ path) as [|x r]; [by left|]. right. unfold char_at in Hc. cbn in Hc. inversion_clear Hp.
    destruct Hc as [->|]; [by exists r|done].
  - intros (r & -> & Hr). rewrite take_app_length, char_at_app_r. split; [done|].
    destruct Hr as [->|[r' ->]]; [by right|by left].
Qed.

Lemma find_mount_spec (P : mount_entry_t → bool) l k :
  match find_mount P l k with
  | None => ∀ m, m ∈ l → P m = false
  | Some i => ∃ j m, i = (k + j)%nat ∧ l !! j = Some m ∧ P m = true
  end.
Proof.
  revert k. induction l as [|m l IH]; intros k; cbn [find_mount]; [by intros m ?%not_elem_of_nil|].
  destruct (P m) eqn:Hm; [exists 0%nat, m; split_and!; [lia|done|done]|]. specialize (IH (S k)).
  destruct (find_mount P l (S k)) as [i|].
  - destruct IH as (j & m' & -> & Hj & HP). exists (S j), m'. split_and!; [lia|done|done].
  - intros m' [->|Hm']%elem_of_cons; [done|by apply IH].
Qed.

(** ** Unmounting *)

Lemma mount_in_use_true i root st : mount_in_use i root st = true →
  ∃ v, (v < VFS_VNODE_MAX)%nat ∧ 0 < refs st v ∧ vn_mount (vnode st v) = Some i ∧ Some v ≠ root.
Proof.
  unfold mount_in_use. rewrite existsb_exists. intros (v & Hv%in_seq & Hb). exists v.
  apply andb_true_iff in Hb as [Hb Hr%negb_true_iff%bool_decide_eq_false].
  apply andb_true_iff in Hb as [Hz%Z.ltb_lt Hm%bool_decide_eq_true]. split_and!; [lia|done|done|done].
Qed.

Lemma mount_in_use_false i root st v : mount_in_use i root st = false → (v < VFS_VNODE_MAX)%nat → 0 < refs st v →
  Some v ≠ root → vn_mount (vnode st v) ≠ Some i.
Proof.
  intros Hf Hv Hr Hne Hm. assert (mount_in_use i root st = true); [|congruence]. unfold mount_in_use.
  apply existsb_exists. exists v. split; [apply in_seq; lia|]. fold (refs st v).
  destruct (Z.ltb_spec 0 (refs st v)); [|lia]. by rewrite bool_decide_eq_true_2, bool_decide_eq_false_2.
Qed.

Lemma vnode_drop_other v w st : w ≠ v → vnode (vnode_drop v st) w = vnode st w.
Proof.
  intros Hne. assert (∀ f st, vnode (upd_vnode v f st) w = vnode st w) as Hu.
  { intros f s. unfold vnode, upd_vnode. cbn [vnodes]. rewrite !list_lookup_total_alt. by rewrite list_lookup_alter_ne. }
  unfold vnode_drop. destruct (0 <? _); destruct (_ =? 0);
    try change (vnode (set_vnode_free ?l ?s) w) with (vnode s w); by rewrite ?Hu.
Qed.

Lemma vnode_drop_mounts v st : mounts (vnode_drop v st) = mounts st.
Proof. unfold vnode_drop. by destruct (0 <? _); destruct (_ =? 0). Qed.

(** Dropping the mount's own reference of the root. *)
Lemma drop_last v st : (v < VFS_VNODE_MAX)%nat → pool_ok st → refs st v = 1 →
  pool_ok (vnode_drop v st) ∧ refs (vnode_drop v st) v = 0.
Proof.
  intros Hv Hok H1.
  set (st0 := upd_vnode v (set_refcnt 0) (set_vnode_free (v :: vnode_free st) st)).
  assert (∀ w, refs st0 w = if decide (w = v) then 0 else refs st w) as Hr0.
  { intros w. subst st0. rewrite refs_upd; [|apply Hok|done]. done. }
  assert (pool_ok st0) as H0.
  { destruct Hok as [Pl Pf Pn Pi Pr]. split.
    - subst st0. unfold upd_vnode. cbn. by rewrite length_alter.
    - intros w. cbn. rewrite elem_of_cons. intros [->|?]; [done|by apply Pf].
    - cbn. constructor; [|done]. rewrite (Pi v Hv). lia.
    - intros w Hw. cbn. rewrite elem_of_cons, (Pi w Hw), Hr0. destruct (decide (w = v)); [tauto|]. split; [|tauto].
      by intros [|].
    - intros w. rewrite Hr0. case_match; [lia|apply Pr]. }
  assert (pins st0 [v] (Vfs W (vnodes st) (vnode_free st) (mounts st) (mount_count st) (scratch_free st) (fs_world st))) as Hp.
  { split; try done; [|by destruct Hok]. intros w. rewrite Hr0. cbn [occ]. change (refs (Vfs _ _ _ _ _ _ _) w) with (refs st w).
    destruct (decide (w = v)) as [->|]; lia. }
  apply (drop_pins _ _ _ _ Hv) in Hp; [|done]. destruct Hp as [Hr _ _ _ Hpool].
  assert (vnode_drop v (Vfs W (vnodes st) (vnode_free st) (mounts st) (mount_count st) (scratch_free st) (fs_world st)) =
    vnode_drop v st) as He by (by destruct st). rewrite He in Hr, Hpool. split; [done|].
  rewrite Hr, Hr0, decide_True by done. done.
Qed.
End Mounts.

(** ** Properties *)

(** Mount selection: [vfs_mount_find] chooses, among the active mounts that
    are the root or whose path ends at a component boundary of the given path,
    one with the longest path, returns the rest of the path without leading
    slashes, and takes one reference of its root; it fails, changing nothing,
    only when no mount covers the path or the longest has no root. *)
Theorem vfs_mount_find_longest {W} path (st : vfs_t W) : Forall (λ x, x ≠ NUL) path → Forall path_len_ok (mounts st) →
  match vfs_mount_find path st with
  | (Some (i, rem), st') =>
      ∃ m r, mounts st !! i = Some m ∧ covers path m ∧
        (∀ m', m' ∈ mounts st → covers path m' → (length (mnt_path m') <= length (mnt_path m))%nat) ∧
        rem = drop_slashes (drop (length (mnt_path m)) path) ∧
        mnt_root m = Some r ∧ st' = upd_vnode r (λ n, set_refcnt (vn_refcnt n + 1) n) st
  | (None, st') =>
      st' = st ∧
      ∀ m, m ∈ mounts st → covers path m →
        ∃ m', m' ∈ mounts st ∧ covers path m' ∧ mnt_root m' = None ∧
              (length (mnt_path m) <= length (mnt_path m'))%nat
  end.
Proof.
  intros Hp Hl. rewrite Forall_forall in Hl. unfold vfs_mount_find.
  pose proof (mount_scan_table path st) as [Hmax Hb].
  assert (∀ m, m ∈ mounts st → covers path m → Z.of_nat (length (mnt_path m)) <= (mount_scan path (mounts st) 0 (None, 0)).2) as Hmax'.
  { intros m Hm Hc. destruct (Hl m Hm) as [<- _]. apply Hmax; [done|]. apply selects_covers; auto. }
  destruct (mount_scan path (mounts st) 0 (None, 0)) as [[i|] len]; cbn [fst snd] in *.
  - destruct Hb as (m & Hi & Hs & Hlen). assert (m ∈ mounts st) as Hm by (by eapply list_elem_of_lookup_2).
    destruct (Hl m Hm) as [Hl' Hne]. rewrite selects_covers in Hs by auto.
    assert (∀ m', m' ∈ mounts st → covers path m' → (length (mnt_path m') <= length (mnt_path m))%nat) as Hle.
    { intros m' Hm' Hc'. specialize (Hmax' m' Hm' Hc'). lia. }
    unfold mount_at. rewrite (list_lookup_total_correct _ _ _ Hi). destruct (mnt_root m) as [r|] eqn:Hr.
    + exists m, r. split_and!; try done. rewrite Hlen, Hl'. by rewrite Nat2Z.id.
    + split; [done|]. intros m' Hm' Hc'. exists m. split_and!; auto.
  - split; [done|]. intros m Hm Hc. specialize (Hmax' m Hm Hc). destruct (Hl m Hm) as [_ Hne].
    destruct (mnt_path m); [done|]. cbn in Hmax'. lia.
Qed.

(** "/" and "/dev", whose roots are vnodes 0 and 1. *)
Definition demo_vfs : vfs_t unit :=
  Vfs unit (Vnode VNODE_DIR 0 0 0 1 0 (Some 0%nat) 0 :: Vnode VNODE_DIR 0 0 0 1 0 (Some 1%nat) 0 ::
            replicate 62 (Vnode VNODE_FILE 0 0 0 0 0 None 0)) (seq 2 62)
    [Mount [47] 1 0 MNT_STATE_ACTIVE 1 (Some 0%nat) 0; Mount [47; 100; 101; 118] 4 0 MNT_STATE_ACTIVE 1 (Some 1%nat) 0]
    2 8 tt.

Lemma vfs_mount_find_longest_witness :
  match vfs_mount_find [47; 100; 101; 118; 47; 120] demo_vfs with
  | (Some (i, rem), st') =>
      ∃ m r, mounts demo_vfs !! i = Some m ∧ covers [47; 100; 101; 118; 47; 120] m ∧
        (∀ m', m' ∈ mounts demo_vfs → covers [47; 100; 101; 118; 47; 120] m' →
          (length (mnt_path m') <= length (mnt_path m))%nat) ∧
        rem = drop_slashes (drop (length (mnt_path m)) [47; 100; 101; 118; 47; 120]) ∧
        mnt_root m = Some r ∧ st' = upd_vnode r (λ n, set_refcnt (vn_refcnt n + 1) n) demo_vfs
  | (None, st') =>
      st' = demo_vfs ∧
      ∀ m, m ∈ mounts demo_vfs → covers [47; 100; 101; 118; 47; 120] m →
        ∃ m', m' ∈ mounts demo_vfs ∧ covers [47; 100; 101; 118; 47; 120] m' ∧ mnt_root m' = None ∧
              (length (mnt_path m) <= length (mnt_path m'))%nat
  end.
Proof.
  apply (vfs_mount_find_longest [47; 100; 101; 118; 47; 120] demo_vfs); [by repeat constructor|].
  repeat constructor; done.
Defined.

(** C11. Unmounting is safe: [vfs_umount] either changes nothing, with EINVAL for
    the root, ENOENT when nothing is mounted there, or EBUSY while the root has
    a second reference or another referenced vnode belongs to the mount; or it
    frees the entry, and then no referenced vnode belongs to it, the root vnode
    went back to the pool and every other vnode is untouched. *)
Theorem vfs_umount_safe {W} path (st : vfs_t W) : pool_ok st → mounts_ok st →
  let '(rc, st') := vfs_umount path st in
  (rc = 0 ∧ path ≠ [SLASH] ∧ ∃ i m, mounts st !! i = Some m ∧ mnt_active m = MNT_STATE_ACTIVE ∧ mnt_path m = path ∧
     mounts st' = <[i := set_active MNT_STATE_FREE (set_root None m)]> (mounts st) ∧
     pool_ok st' ∧
     (∀ v, (v < VFS_VNODE_MAX)%nat → 0 < refs st' v → vn_mount (vnode st' v) ≠ Some i) ∧
     (∀ r, mnt_root m = Some r → refs st' r = 0) ∧
     (∀ v, Some v ≠ mnt_root m → vnode st' v = vnode st v)) ∨
  (st' = st ∧
   (rc = - EINVAL ∧ path = [SLASH] ∨
    rc = - ENOENT ∧ (∀ m, m ∈ mounts st → mnt_active m = MNT_STATE_ACTIVE → mnt_path m ≠ path) ∨
    rc = - EBUSY ∧ ∃ i m, mounts st !! i = Some m ∧ mnt_active m = MNT_STATE_ACTIVE ∧ mnt_path m = path ∧
      ((∃ r, mnt_root m = Some r ∧ 1 < refs st r) ∨
       (∃ v, (v < VFS_VNODE_MAX)%nat ∧ 0 < refs st v ∧ vn_mount (vnode st v) = Some i ∧ Some v ≠ mnt_root m)))).
Proof.
  intros Hpool Hmo. unfold vfs_umount. case_bool_decide as Hslash; [right; split; [done|by left]|].
  pose proof (find_mount_spec (λ m, (mnt_active m =? MNT_STATE_ACTIVE) && bool_decide (mnt_path m = path)) (mounts st) 0) as Hf.
  destruct (find_mount _ _ _) as [i|].
  2: { right. split; [done|]. right; left. split; [done|]. intros m Hm Ha Hpath. specialize (Hf m Hm). cbn beta in Hf.
       rewrite Ha, bool_decide_eq_true_2 in Hf by done. done. }
  destruct Hf as (j & m & -> & Hi & Hb). cbn [Nat.add]. apply andb_true_iff in Hb as [Ha%Z.eqb_eq Hp%bool_decide_eq_true].
  unfold mount_at. rewrite (list_lookup_total_correct _ _ _ Hi).
  destruct (match mnt_root m with Some r => 1 <? vn_refcnt (vnode st r) | None => false end) eqn:Hroot.
  { right. split; [done|]. right; right. split; [done|]. exists j, m. split_and!; try done. left.
    destruct (mnt_root m) as [r|]; [|done]. exists r. by apply Z.ltb_lt in Hroot. }
  destruct (mount_in_use j (mnt_root m) st) eqn:Huse.
  { right. split; [done|]. right; right. split; [done|]. exists j, m. split_and!; try done. right. by apply mount_in_use_true. }
  left. split; [done|]. split; [done|]. exists j, m. split; [done|]. split; [done|]. split; [done|].
  set (st1 := match mnt_root m with Some r => vnode_drop r st | None => st end).
  assert (pool_ok st1 ∧ mounts st1 = mounts st ∧ (∀ v, Some v ≠ mnt_root m → vnode st1 v = vnode st v) ∧
    (∀ r, mnt_root m = Some r → refs st1 r = 0)) as (Hp1 & Hm1 & Hv1 & Hr1).
  { subst st1. destruct (mnt_root m) as [r|] eqn:Hr; [|by split_and!].
    destruct (Hmo j m r Hi Ha Hr) as [Hlt Hpos]. apply Z.ltb_ge in Hroot. fold (refs st r) in Hroot.
    destruct (drop_last r st Hlt Hpool ltac:(lia)) as [A B]. split_and!; [done|apply vnode_drop_mounts| |by intros ? [= <-]].
    intros v Hv. apply vnode_drop_other. congruence. }
  split_and!.
  - cbn. rewrite Hm1. apply list_eq. intros k. destruct (decide (k = j)) as [->|Hne].
    + rewrite list_lookup_alter_eq, list_lookup_alter_eq, list_lookup_insert_eq, Hi by (by eapply lookup_lt_Some). done.
    + by rewrite !list_lookup_alter_ne, list_lookup_insert_ne by done.
  - by destruct Hp1.
  - intros v Hv Hpos. change (vnode _ v) with (vnode st1 v). change (refs _ v) with (refs st1 v) in Hpos.
    assert (Some v ≠ mnt_root m) as Hne by (intros He; specialize (Hr1 v (eq_sym He)); lia).
    unfold refs in Hpos. rewrite (Hv1 v Hne) in *. by apply (mount_in_use_false j (mnt_root m)).
  - intros r Hr. exact (Hr1 r Hr).
  - intros v Hv. exact (Hv1 v Hv).
Qed.

Lemma demo_vfs_ok : pool_ok demo_vfs ∧ mounts_ok demo_vfs.
Proof.
  assert (∀ v, refs demo_vfs v = if (v <? 2)%nat then 1 else 0) as Hr.
  { intros v. unfold refs, vnode, demo_vfs. cbn [vnodes]. destruct v as [|[|v]]; [done|done|]. cbn [Nat.ltb Nat.leb].
    change (lookup_total (S (S v)) (?a :: ?b :: ?l)) with (l !!! v).
    rewrite list_lookup_total_alt. destruct (replicate 62 _ !! v) as [x|] eqn:E; [|done].
    apply lookup_replicate in E as [-> _]. done. }
  split; [split|].
  - done.
  - cbn [vnode_free demo_vfs]. intros v Hv%elem_of_seq. unfold VFS_VNODE_MAX. lia.
  - apply NoDup_seq.
  - intros v Hv. rewrite Hr. cbn [vnode_free demo_vfs]. rewrite elem_of_seq. unfold VFS_VNODE_MAX in Hv.
    destruct (Nat.ltb_spec v 2); lia.
  - intros v. rewrite Hr. case_match; lia.
  - intros [|[|i]] m r Hi; cbn in Hi; simplify_eq; cbn; intros _ [= <-]; rewrite Hr; unfold VFS_VNODE_MAX; cbn; lia.
Qed.

Lemma vfs_umount_safe_witness :
  let '(rc, st') := vfs_umount [47; 100; 101; 118] demo_vfs in
  (rc = 0 ∧ [47; 100; 101; 118] ≠ [SLASH] ∧ ∃ i m, mounts demo_vfs !! i = Some m ∧
     mnt_active m = MNT_STATE_ACTIVE ∧ mnt_path m = [47; 100; 101; 118] ∧
     mounts st' = <[i := set_active MNT_STATE_FREE (set_root None m)]> (mounts demo_vfs) ∧
     pool_ok st' ∧
     (∀ v, (v < VFS_VNODE_MAX)%nat → 0 < refs st' v → vn_mount (vnode st' v) ≠ Some i) ∧
     (∀ r, mnt_root m = Some r → refs st' r = 0) ∧
     (∀ v, Some v ≠ mnt_root m → vnode st' v = vnode demo_vfs v)) ∨
  (st' = demo_vfs ∧
   (rc = - EINVAL ∧ [47; 100; 101; 118] = [SLASH] ∨
    rc = - ENOENT ∧ (∀ m, m ∈ mounts demo_vfs → mnt_active m = MNT_STATE_ACTIVE → mnt_path m ≠ [47; 100; 101; 118]) ∨
    rc = - EBUSY ∧ ∃ i m, mounts demo_vfs !! i = Some m ∧ mnt_active m = MNT_STATE_ACTIVE ∧
      mnt_path m = [47; 100; 101; 118] ∧
      ((∃ r, mnt_root m = Some r ∧ 1 < refs demo_vfs r) ∨
       (∃ v, (v < VFS_VNODE_MAX)%nat ∧ 0 < refs demo_vfs v ∧ vn_mount (vnode demo_vfs v) = Some i ∧
             Some v ≠ mnt_root m)))).
Proof. apply (vfs_umount_safe [47; 100; 101; 118] demo_vfs); apply demo_vfs_ok. Defined.
