(* ===== verification/Driver.v ===== *)
(** * Driver: file system drivers as programs on the vfs state
    (src/kernel/common/vfs/vfs_types.h)

    An operation of a driver runs on the vnodes and the mount table with the
    driver's own state as [fs_world]; [lift] embeds what touches that state
    only.  Shared by UFS and VFAT. *)

From S2P Require Import Prelude ErrState Path Vfs.

Section Driver.
Context {W : Type}.

Definition set_fs (u : W) (st : vfs_t W) : vfs_t W :=
  Vfs _ (vnodes st) (vnode_free st) (mounts st) (mount_count st) (scratch_free st) u.
Definition lift {A} : prog W A → prog (vfs_t W) A := zoom fs_world set_fs.

Definition vnode_of (v : nat) : prog (vfs_t W) vnode_t := gets (λ st, vnode st v).

Definition set_vn_size (v : Z) (n : vnode_t) : vnode_t :=
  Vnode (vn_type n) (u32 v) (vn_mode n) (vn_ino n) (vn_refcnt n) (vn_fs_priv n) (vn_mount n) (vn_xip_addr n).
Definition set_vn_mode (v : Z) (n : vnode_t) : vnode_t :=
  Vnode (vn_type n) (vn_size n) (u32 v) (vn_ino n) (vn_refcnt n) (vn_fs_priv n) (vn_mount n) (vn_xip_addr n).
Definition set_vn_ino (v : Z) (n : vnode_t) : vnode_t :=
  Vnode (vn_type n) (vn_size n) (vn_mode n) (u32 v) (vn_refcnt n) (vn_fs_priv n) (vn_mount n) (vn_xip_addr n).
Definition set_sb_priv (v : Z) (m : mount_entry_t) : mount_entry_t :=
  Mount (mnt_path m) (mnt_path_len m) (mnt_flags m) (mnt_active m) (mnt_ops m) (mnt_root m) v.

Lemma wp_lift {A} (m : prog W A) Q E (st : vfs_t W) : wp m (λ x u, Q x (set_fs u st)) (λ e u, E e (set_fs u st)) (fs_world st) → wp (lift m) Q E st.
Proof. unfold wp, lift, zoom. by destruct (m (fs_world st)) as [[e|x] u]. Qed.
End Driver.
