(* ===== verification/Namei.v ===== *)
(** * Namei: path lookup (src/kernel/vfs/namei.c)

    The walk over the components of a normalized path: crossing into mounts,
    asking the driver for each name, restarting on symbolic links.  Strings are
    character lists here; [normalize] is what Path shows [path_normalize] to
    compute.  Every exit of the code releases the scratch buffers and the vnode
    it holds, and so does every result below. *)

From S2P Require Import Prelude Config Path PathFacts Vfs VfsFacts.

(** How a walk ends: with the status and [*result], or with a path to start
    over with. *)
Inductive walk_end := Done (rc : Z) (result : option nat) | Again (path : list Z).

(** The characters before the next slash, at most [n]. *)
Fixpoint take_name (n : nat) (p : list Z) : name :=
  match n, p with
  | S n, c :: p => if c =? SLASH then [] else c :: take_name n p
  | _, _ => []
  end.

(** A path up to and including its last slash. *)
Definition parent_len (path : list Z) : nat :=
  (fix go n := match n with
               | O => O
               | S n' => if char_at path n' =? SLASH then S n' else go n'
               end) (length path).

Section Operations.
Context {W : Type} (ops_at : Z → vfs_ops_t W).
#[local] Abbreviation vfs := (vfs_t W).

Definition mount_at_acquire (resolved : list Z) (st : vfs) : option nat * vfs :=
  match vfs_mount_find resolved st with
  | (Some (i, []), st) => (Some i, st)
  | (Some (i, _), st) => (None, vfs_vnode_release (mnt_root (mount_at st i)) st)
  | (None, st) => (None, st)
  end.

(** The path a symbolic link leads to: [target] is its text, [resolved] the path
    of the link, [rest] what follows the link. *)
Definition link_path (target resolved rest : list Z) : Z + list Z :=
  match
    (if char_at target 0 =? SLASH then inr target
     else
       let plen := parent_len resolved in
       let plen := if (plen =? 0)%nat then 1%nat else plen in
       if (VFS_PATH_MAX <=? plen + length target)%nat then inl (- ENAMETOOLONG)
       else if (plen =? 1)%nat && (length resolved =? 0)%nat then inr (SLASH :: target)
       else inr (take plen resolved ++ target))
  with
  | inl e => inl e
  | inr path =>
      match
        (match rest with
         | [] => inr path
         | _ =>
             if (VFS_PATH_MAX <=? length path + 1 + length rest)%nat then inl (- ENAMETOOLONG)
             else inr (path ++ SLASH :: rest)
         end)
      with
      | inl e => inl e
      | inr path => normalize (Z.of_nat VFS_PATH_MAX) path
      end
  end.

(** The symbolic link [child]; its reference is the walk's. *)
Definition follow_link (flags : Z) (child : nat) (resolved rest : list Z) (st : vfs) : walk_end * vfs :=
  if negb (Z.land flags VFS_LOOKUP_NOFOLLOW =? 0) && bool_decide (drop_slashes rest = [])
  then (Done 0 (Some child), st)
  else
    let '(target, st) := vfs_scratch_alloc st in
    let '(norm, st) := vfs_scratch_alloc st in
    if negb target || negb norm then
      let st := vfs_scratch_free norm st in
      let st := vfs_scratch_free target st in
      (Done (- ENOMEM) None, vfs_vnode_release (Some child) st)
    else
      let free st := vfs_scratch_free target (vfs_scratch_free norm st) in
      match vn_mount (vnode st child) with
      | None => (Done (- EINVAL) None, free (vfs_vnode_release (Some child) st))
      | Some i =>
          match op_readlink (ops_at (mnt_ops (mount_at st i))) with
          | None => (Done (- EINVAL) None, free (vfs_vnode_release (Some child) st))
          | Some readlink =>
              let '(tlen, text, st) := readlink child (Z.of_nat VFS_PATH_MAX - 1) st in
              let st := vfs_vnode_release (Some child) st in
              if tlen <? 0 then (Done tlen None, free st)
              else
                match link_path text resolved rest with
                | inl e => (Done e None, free st)
                | inr path => (Again path, free st)
                end
          end
      end.

(** The driver's lookup of [comp] in [cur]: the error, or the child with the
    reference moved to it. *)
Definition lookup_child (cur : nat) (comp : name) (st : vfs) : (Z + nat) * vfs :=
  match vn_mount (vnode st cur) with
  | None => (inl (- ENOENT), vfs_vnode_release (Some cur) st)
  | Some i =>
      if mnt_ops (mount_at st i) =? 0 then (inl (- ENOENT), vfs_vnode_release (Some cur) st)
      else
        match op_lookup (ops_at (mnt_ops (mount_at st i))) with
        | None => (inl (- ENOENT), vfs_vnode_release (Some cur) st)
        | Some lookup =>
            let '(err, child, st) := lookup cur comp st in
            if negb (err =? 0) then (inl err, vfs_vnode_release (Some cur) st)
            else (inr (default 0%nat child), vfs_vnode_release (Some cur) st)
        end
  end.

(** The walk below [cur], which it holds a reference of; [p] is the rest of the
    path, [resolved] the part walked.  None: out of fuel. *)
Fixpoint walk (fuel : nat) (flags : Z) (p resolved : list Z) (cur : nat) (st : vfs) : option (walk_end * vfs) :=
  match fuel with
  | O => None
  | S fuel =>
      match drop_slashes p with
      | [] => Some (Done 0 (Some cur), st)
      | p =>
          if negb (bool_decide (vn_type (vnode st cur) = VNODE_DIR))
          then Some (Done (- ENOTDIR) None, vfs_vnode_release (Some cur) st)
          else
            let comp := take_name VFS_NAME_MAX p in
            let p := drop (length comp) p in
            if negb (char_at p 0 =? NUL) && negb (char_at p 0 =? SLASH)
            then Some (Done (- ENAMETOOLONG) None, vfs_vnode_release (Some cur) st)
            else if (VFS_PATH_MAX <=? length resolved + 1 + length comp)%nat
            then Some (Done (- ENAMETOOLONG) None, vfs_vnode_release (Some cur) st)
            else
              let resolved := resolved ++ SLASH :: comp in
              let '(child_mnt, st) := mount_at_acquire resolved st in
              let step st :=
                match lookup_child cur comp st with
                | (inl err, st) => Some (Done err None, st)
                | (inr child, st) =>
                    if bool_decide (vn_type (vnode st child) = VNODE_SYMLINK)
                    then Some (follow_link flags child resolved p st)
                    else walk fuel flags p resolved child st
                end in
              match child_mnt with
              | None => step st
              | Some i =>
                  let root := mnt_root (mount_at st i) in
                  if bool_decide (Some i = vn_mount (vnode st cur)) then step (vfs_vnode_release root st)
                  else walk fuel flags p resolved (default 0%nat root) (vfs_vnode_release (Some cur) st)
              end
      end
  end.

(** [restart]; [n] is what symloop may still grow by. *)
Fixpoint walk_restarts (n : nat) (flags : Z) (normalized : list Z) (st : vfs) : option (Z * option nat * vfs) :=
  match n with
  | O => Some (- ELOOP, None, st)
  | S n =>
      match mount_at_acquire [SLASH] st with
      | (None, st) => Some (- ENOENT, None, st)
      | (Some i, st) =>
          let root := mnt_root (mount_at st i) in
          if bool_decide (normalized = [SLASH]) then Some (0, root, st)
          else
            match walk (S (length normalized)) flags (drop 1 normalized) [] (default 0%nat root) st with
            | None => None
            | Some (Done rc result, st) => Some (rc, result, st)
            | Some (Again path, st) => walk_restarts n flags path st
            end
      end
  end.

Definition lookup_walk_flags (normalized : list Z) (symloop flags : Z) (st : vfs) : option (Z * option nat * vfs) :=
  let '(resolved, st) := vfs_scratch_alloc st in
  let '(restart_path, st) := vfs_scratch_alloc st in
  let '(comp, st) := vfs_scratch_alloc st in
  let free st := vfs_scratch_free resolved (vfs_scratch_free restart_path (vfs_scratch_free comp st)) in
  if negb resolved || negb restart_path || negb comp then Some (- ENOMEM, None, free st)
  else
    '(rc, result, st) ← walk_restarts (Z.to_nat (VFS_SYMLOOP_MAX - symloop)) flags normalized st;
    Some (rc, result, free st).

(** [cwd] is current->cwd, empty without a current process. *)
Definition absolutize (cwd path : list Z) (cap : nat) : Z + list Z :=
  if negb (char_at path 0 =? SLASH) then
    let cwd := match cwd with [] => [SLASH] | _ => cwd end in
    if (length cwd =? 1)%nat then
      if (cap <=? 1 + length path)%nat then inl (- ENAMETOOLONG)
      else normalize (Z.of_nat cap) (SLASH :: path)
    else if (cap <=? length cwd + 1 + length path)%nat then inl (- ENAMETOOLONG)
    else normalize (Z.of_nat cap) (cwd ++ SLASH :: path)
  else normalize (Z.of_nat cap) path.

Definition vfs_lookup_flags (cwd path : list Z) (flags : Z) (st : vfs) : option (Z * option nat * vfs) :=
  let '(normalized, st) := vfs_scratch_alloc st in
  if negb normalized then Some (- ENOMEM, None, st)
  else
    match absolutize cwd path VFS_PATH_MAX with
    | inl e => Some (e, None, vfs_scratch_free normalized st)
    | inr text =>
        '(rc, result, st) ← lookup_walk_flags text 0 flags st;
        Some (rc, result, vfs_scratch_free normalized st)
    end.

Definition vfs_lookup (cwd path : list Z) (st : vfs) : option (Z * option nat * vfs) :=
  vfs_lookup_flags cwd path 0 st.

(** The second component is [namebuf]. *)
Definition vfs_lookup_parent (cwd path : list Z) (namebuf_size : nat) (st : vfs)
    : option (Z * option nat * name * vfs) :=
  if (namebuf_size <? 2)%nat then Some (- EINVAL, None, [], st)
  else
    let '(normalized, st) := vfs_scratch_alloc st in
    if negb normalized then Some (- ENOMEM, None, [], st)
    else
      match absolutize cwd path VFS_PATH_MAX with
      | inl e => Some (e, None, [], vfs_scratch_free normalized st)
      | inr text =>
          if bool_decide (text = [SLASH]) then Some (- EINVAL, None, [], vfs_scratch_free normalized st)
          else
            let last_slash := (parent_len text - 1)%nat in
            let nm := drop (S last_slash) text in
            if (length nm =? 0)%nat || (namebuf_size <=? length nm)%nat
            then Some (- ENAMETOOLONG, None, [], vfs_scratch_free normalized st)
            else
              let text := if (last_slash =? 0)%nat then [SLASH] else take last_slash text in
              '(rc, parent, st) ← lookup_walk_flags text 0 0 st;
              Some (rc, parent, nm, vfs_scratch_free normalized st)
      end.
End Operations.
