(* ===== verification/NameiFacts.v ===== *)
(** * NameiFacts: lookups terminate and leak nothing

    Proved against what the table of driver functions promises: a successful
    lookup adds one reference, to the vnode it returns, and nothing else changes
    a reference, a mount or a scratch buffer. *)

From S2P Require Import Prelude Config Path PathFacts Vfs VfsFacts Namei.

(** The interface of the filesystem drivers. *)
Class Drivers {W} (ops_at : Z → vfs_ops_t W) : Prop := {
  driver_lookup o f dir comp st err child st' : op_lookup (ops_at o) = Some f →
    f dir comp st = (err, child, st') → pool_ok st →
    if decide (err = 0) then ∃ c, child = Some c ∧ (c < VFS_VNODE_MAX)%nat ∧ pins st [c] st'
    else pins st [] st';
  driver_readlink o f v n st len text st' : op_readlink (ops_at o) = Some f →
    f v n st = (len, text, st') → pool_ok st → pins st [] st'
}.

Section Balance.
Context {W : Type} (ops_at : Z → vfs_ops_t W) `{!Drivers ops_at}.
#[local] Abbreviation vfs := (vfs_t W).
Implicit Types st : vfs.

(** The state a lookup starts in. *)
Record ready st0 : Prop := {
  ready_pool : pool_ok st0;
  ready_mounts : mounts_ok st0;
  ready_refs : ∀ v, refs st0 v < 2 ^ 31
}.

Lemma occ_app v l l' : occ v (l ++ l') = occ v l + occ v l'.
Proof. induction l as [|w l IH]; cbn [occ app]; lia. Qed.

Lemma pins_trans st0 held more st st' : pins st0 held st → pins st more st' → pins st0 (more ++ held) st'.
Proof.
  intros [Hr Hm Hc Hs _] [Hr' Hm' Hc' Hs' Hp]. split; [|congruence|congruence|congruence|done].
  intros v. rewrite Hr', Hr, occ_app. lia.
Qed.

Context (st0 : vfs) (Hready : ready st0).

(** [st] is [st0] with the pins [held] and [n] free scratch buffers. *)
Definition holding (held : list nat) (n : nat) st : Prop :=
  pins (set_scratch_free n st0) held st.

Lemma holding_drop v held n st : (v < VFS_VNODE_MAX)%nat → holding (v :: held) n st → holding held n (vnode_drop v st).
Proof.
  intros Hv Hh. apply drop_pins; [done|done|]. destruct (ready_pool _ Hready). by split.
Qed.

Lemma holding_scratch held n n' st : holding held n st → holding held n' (set_scratch_free n' st).
Proof. intros [Hr Hm Hc Hs [? ? ? ? ?]]. split; try done; by split. Qed.

Lemma scratch_alloc_holding held n st : holding held n st →
  match vfs_scratch_alloc st with
  | (true, st') => ∃ k, n = S k ∧ holding held k st'
  | (false, st') => st' = st
  end.
Proof.
  intros Hh. assert (scratch_free st = n) as Hn by apply Hh. unfold vfs_scratch_alloc. rewrite Hn.
  destruct n as [|k]; [done|]. exists k. split; [done|]. by eapply holding_scratch.
Qed.

Lemma scratch_free_holding held k st : holding held k st → holding held (S k) (vfs_scratch_free true st).
Proof.
  intros Hh. assert (scratch_free st = k) as Hn by apply Hh. unfold vfs_scratch_free. rewrite Hn.
  by eapply holding_scratch.
Qed.

Lemma holding_refs held n st v : holding held n st → refs st0 v <= refs st v.
Proof. intros [Hr _ _ _ _]. rewrite Hr. pose proof (occ_range v held). change (refs (set_scratch_free _ _) v) with (refs st0 v). lia. Qed.

(** A mount found at a path: its root is pinned. *)
Lemma acquire_holding path held n st : holding held n st → (length held < 7)%nat →
  match mount_at_acquire path st with
  | (None, st') => holding held n st'
  | (Some i, st') => ∃ r, mnt_root (mount_at st' i) = Some r ∧ (r < VFS_VNODE_MAX)%nat ∧ holding (r :: held) n st'
  end.
Proof.
  intros Hh Hlen. unfold mount_at_acquire.
  destruct (vfs_mount_find_cases path st) as [->|(i & m & r & rem & -> & Hi & Ha & Hr & _)]; [done|].
  assert (mounts st = mounts st0) as Hms by apply Hh. rewrite Hms in Hi.
  destruct (ready_mounts _ Hready i m r Hi Ha Hr) as [Hlt Hpos].
  pose proof (holding_refs held n st r Hh) as Hge.
  pose proof (acquire_pins (set_scratch_free n st0) held st r (ready_refs _ Hready) ltac:(lia) Hlt ltac:(lia) Hh) as Hp.
  set (st1 := upd_vnode r _ st) in *.
  assert (mnt_root (mount_at st1 i) = Some r) as Hroot.
  { unfold mount_at. change (mounts st1) with (mounts st). rewrite Hms. by rewrite (list_lookup_total_correct _ _ _ Hi). }
  destruct rem as [|c rem]; [by exists r|]. rewrite Hroot. by apply holding_drop.
Qed.

(** The pin on the directory moves to the child. *)
Lemma lookup_child_holding cur comp held n st : (cur < VFS_VNODE_MAX)%nat → holding (cur :: held) n st →
  match lookup_child ops_at cur comp st with
  | (inl err, st') => err ≠ 0 ∧ holding held n st'
  | (inr child, st') => (child < VFS_VNODE_MAX)%nat ∧ holding (child :: held) n st'
  end.
Proof.
  intros Hcur Hh. unfold lookup_child.
  destruct (vn_mount (vnode st cur)) as [i|]; [|split; [done|by apply holding_drop]].
  destruct (mnt_ops (mount_at st i) =? 0); [split; [done|by apply holding_drop]|].
  destruct (op_lookup (ops_at _)) as [f|] eqn:Hf; [|split; [done|by apply holding_drop]].
  destruct (f cur comp st) as [[err child] st'] eqn:He.
  pose proof (driver_lookup _ _ _ _ _ _ _ _ Hf He (pins_pool _ _ _ Hh)) as Hd.
  destruct (decide (err = 0)) as [->|Herr].
  - destruct Hd as (c & -> & Hc & Hp). cbn. split; [done|]. apply holding_drop; [done|].
    eapply pins_perm; [|by eapply pins_trans]. cbn. apply Permutation_swap.
  - destruct (Z.eqb_spec err 0); [done|]. cbn [negb]. split; [done|]. apply holding_drop; [done|].
    exact (pins_trans _ _ [] _ _ Hh Hd).
Qed.

(** What the end of a walk holds. *)
Definition ends (n : nat) (r : walk_end * vfs) : Prop :=
  match r with
  | (Done rc (Some v), st) => rc = 0 ∧ (v < VFS_VNODE_MAX)%nat ∧ holding [v] n st
  | (Done rc None, st) => rc ≠ 0 ∧ holding [] n st
  | (Again _, st) => holding [] n st
  end.

Lemma normalize_error n s e : normalize n s = inl e → e ≠ 0.
Proof.
  unfold normalize. destruct s as [|c s]; [by intros [= <-]|]. destruct (_ || _); [by intros [= <-]|].
  destruct (resolve n (components (c :: s)) []) as [e'|cs] eqn:E; [|done]. intros [= <-].
  revert E. generalize (components (c :: s)) (@nil name). intros l. induction l as [|x l IH]; intros d; cbn [resolve]; [done|].
  destruct (decide _); [apply IH|]. destruct (decide _); [apply IH|]. destruct (_ || _); [by intros [= <-]|apply IH].
Qed.

Lemma link_path_error t r p e : link_path t r p = inl e → e ≠ 0.
Proof.
  unfold link_path. intros H. repeat (case_match; simplify_eq; try done); by eapply normalize_error.
Qed.

Lemma follow_link_ends flags child resolved rest n st : (child < VFS_VNODE_MAX)%nat →
  holding [child] n st → ends n (follow_link ops_at flags child resolved rest st).
Proof.
  intros Hc Hh. unfold follow_link. destruct (_ && _); [done|].
  pose proof (scratch_alloc_holding _ _ _ Hh) as H1. destruct (vfs_scratch_alloc st) as [[] s1].
  2: { subst s1. pose proof (scratch_alloc_holding _ _ _ Hh) as H2. destruct (vfs_scratch_alloc st) as [[] s2]; cbn [negb orb].
       - destruct H2 as (k & -> & H2). split; [done|]. apply holding_drop; [done|].
         exact (scratch_free_holding _ _ _ H2).
       - subst s2. split; [done|]. by apply holding_drop. }
  destruct H1 as (k & -> & H1). pose proof (scratch_alloc_holding _ _ _ H1) as H2.
  destruct (vfs_scratch_alloc s1) as [[] s2]; cbn [negb orb].
  2: { subst s2. split; [done|]. apply holding_drop; [done|]. exact (scratch_free_holding _ _ _ H1). }
  destruct H2 as (k' & -> & H2).
  assert (∀ s, holding [] k' s → holding [] (S (S k')) (vfs_scratch_free true (vfs_scratch_free true s))) as Hfree.
  { intros s Hs. by apply scratch_free_holding, scratch_free_holding. }
  destruct (vn_mount (vnode s2 child)) as [i|]; [|split; [done|]; by apply Hfree, holding_drop].
  destruct (op_readlink (ops_at _)) as [f|] eqn:Hf; [|split; [done|]; by apply Hfree, holding_drop].
  destruct (f child _ s2) as [[tlen text] s3] eqn:He.
  pose proof (driver_readlink _ _ _ _ _ _ _ _ Hf He (pins_pool _ _ _ H2)) as Hp.
  assert (holding [] k' (vfs_vnode_release (Some child) s3)) as H3.
  { apply holding_drop; [done|]. exact (pins_trans _ _ [] _ _ H2 Hp). }
  destruct (Z.ltb_spec tlen 0); [split; [lia|]; by apply Hfree|].
  destruct (link_path text resolved rest) as [e|path] eqn:Hl.
  - split; [by eapply link_path_error|by apply Hfree].
  - by apply Hfree.
Qed.

(** The rest of the path gets shorter at every component. *)
Lemma drop_slashes_length p : (length (drop_slashes p) <= length p)%nat.
Proof. induction p as [|c p IH]; cbn [drop_slashes length]; [lia|]. destruct (c =? SLASH); cbn [length]; lia. Qed.

Lemma drop_slashes_head p c r : drop_slashes p = c :: r → c ≠ SLASH.
Proof.
  induction p as [|x p IH]; cbn [drop_slashes]; [done|]. destruct (Z.eqb_spec x SLASH); [done|]. by intros [= <- _].
Qed.

Lemma rest_shorter p c r : drop_slashes p = c :: r →
  (length (drop (length (take_name VFS_NAME_MAX (c :: r))) (c :: r)) < length p)%nat.
Proof.
  intros Hd. pose proof (drop_slashes_length p) as Hl. pose proof (drop_slashes_head p c r Hd) as Hc. rewrite Hd in Hl.
  change (take_name VFS_NAME_MAX (c :: r)) with (if c =? SLASH then [] else c :: take_name 62 r).
  destruct (Z.eqb_spec c SLASH); [done|]. rewrite length_drop. cbn [length] in *. lia.
Qed.

Lemma walk_ends fuel flags p resolved cur n st : (cur < VFS_VNODE_MAX)%nat → holding [cur] n st →
  (length p < fuel)%nat → ∃ r, walk ops_at fuel flags p resolved cur st = Some r ∧ ends n r.
Proof.
  revert p resolved cur st. induction fuel as [|fuel IH]; intros p resolved cur st Hcur Hh Hf; [lia|].
  cbn [walk]. destruct (drop_slashes p) as [|c r] eqn:Hd; [by eexists|].
  pose proof (rest_shorter p c r Hd) as Hshort. set (q := c :: r) in *. cbn zeta.
  set (comp := take_name VFS_NAME_MAX q) in *. set (p' := drop (length comp) q) in *.
  assert (∀ rc, rc ≠ 0 → ∃ r, Some (Done rc None, vfs_vnode_release (Some cur) st) = Some r ∧ ends n r) as Hfail.
  { intros rc Hrc. eexists. split; [done|]. split; [done|]. by apply holding_drop. }
  destruct (negb _); [by apply Hfail|]. destruct (_ && _); [by apply Hfail|]. destruct (_ <=? _)%nat; [by apply Hfail|].
  set (res' := resolved ++ SLASH :: comp).
  assert (∀ s, holding [cur] n s → ∃ r,
    (match lookup_child ops_at cur comp s with
     | (inl err, s) => Some (Done err None, s)
     | (inr child, s) =>
         if bool_decide (vn_type (vnode s child) = VNODE_SYMLINK) then Some (follow_link ops_at flags child res' p' s)
         else walk ops_at fuel flags p' res' child s
     end) = Some r ∧ ends n r) as Hstep.
  { intros s Hs. pose proof (lookup_child_holding cur comp [] n s Hcur Hs) as Hl.
    destruct (lookup_child ops_at cur comp s) as [[err|child] s']; [by eexists|].
    destruct Hl as [Hc Hl]. case_bool_decide.
    - eexists. split; [done|]. by apply follow_link_ends.
    - apply IH; [done|done|lia]. }
  pose proof (acquire_holding res' [cur] n st Hh ltac:(cbn; lia)) as Ha.
  destruct (mount_at_acquire res' st) as [[i|] s1]; [|by apply Hstep].
  destruct Ha as (root & Hroot & Hlt & Ha). rewrite Hroot. case_bool_decide.
  - apply Hstep. by apply holding_drop.
  - apply IH; [done| |lia]. apply holding_drop; [done|].
    eapply pins_perm; [apply Permutation_swap|done].
Qed.

Definition finished (n : nat) (r : Z * option nat * vfs) : Prop :=
  let '(rc, result, st) := r in ends n (Done rc result, st).

Lemma walk_restarts_finished k flags path n st : holding [] n st →
  ∃ r, walk_restarts ops_at k flags path st = Some r ∧ finished n r.
Proof.
  revert path st. induction k as [|k IH]; intros path st Hh; cbn [walk_restarts]; [by eexists|].
  pose proof (acquire_holding [SLASH] [] n st Hh ltac:(cbn; lia)) as Ha.
  destruct (mount_at_acquire [SLASH] st) as [[i|] s1]; [|by eexists].
  destruct Ha as (root & Hroot & Hlt & Ha). rewrite Hroot. case_bool_decide.
  { eexists. by split. }
  change (default 0%nat (Some root)) with root. destruct (walk_ends (S (length path)) flags (drop 1 path) [] root n s1 Hlt Ha) as ([[rc res|path'] s] & -> & He).
  { rewrite length_drop. lia. }
  - by eexists.
  - by apply IH.
Qed.

(** The buffers [lookup_walk_flags] takes are given back. *)
Lemma lookup_walk_finished path symloop flags n st : holding [] n st →
  ∃ r, lookup_walk_flags ops_at path symloop flags st = Some r ∧ finished n r.
Proof.
  intros Hh. unfold lookup_walk_flags.
  pose proof (scratch_alloc_holding _ _ _ Hh) as H1. destruct (vfs_scratch_alloc st) as [b1 s1].
  assert (∃ n1, holding [] n1 s1 ∧ n = (if b1 then S n1 else n1)) as (n1 & H1' & E1).
  { destruct b1; [destruct H1 as (k & -> & H1); by exists k|subst s1; by exists n]. }
  pose proof (scratch_alloc_holding _ _ _ H1') as H2. destruct (vfs_scratch_alloc s1) as [b2 s2].
  assert (∃ n2, holding [] n2 s2 ∧ n1 = (if b2 then S n2 else n2)) as (n2 & H2' & E2).
  { destruct b2; [destruct H2 as (k & -> & H2); by exists k|subst s2; by exists n1]. }
  pose proof (scratch_alloc_holding _ _ _ H2') as H3. destruct (vfs_scratch_alloc s2) as [b3 s3].
  assert (∃ n3, holding [] n3 s3 ∧ n2 = (if b3 then S n3 else n3)) as (n3 & H3' & E3).
  { destruct b3; [destruct H3 as (k & -> & H3); by exists k|subst s3; by exists n2]. }
  assert (∀ held s, holding held n3 s →
    holding held n (vfs_scratch_free b1 (vfs_scratch_free b2 (vfs_scratch_free b3 s)))) as Hfree.
  { intros held s Hs. subst n n1 n2. destruct b1, b2, b3; cbn [vfs_scratch_free]; by repeat apply scratch_free_holding. }
  destruct (negb b1 || negb b2 || negb b3).
  { eexists. split; [done|]. split; [done|]. by apply Hfree. }
  destruct (walk_restarts_finished (Z.to_nat (VFS_SYMLOOP_MAX - symloop)) flags path n3 s3 H3') as ([[rc res] s] & -> & He).
  cbn [mbind option_bind]. eexists. split; [done|]. destruct res as [v|]; cbn in *.
  - destruct He as (-> & Hv & He). split_and!; [done|done|by apply Hfree].
  - destruct He as [Hrc He]. split; [done|by apply Hfree].
Qed.

Lemma absolutize_error cwd path cap e : absolutize cwd path cap = inl e → e ≠ 0.
Proof. unfold absolutize. intros H. repeat (case_match; simplify_eq; try done); by eapply normalize_error. Qed.

Lemma lookup_flags_finished cwd path flags n st : holding [] n st →
  ∃ r, vfs_lookup_flags ops_at cwd path flags st = Some r ∧ finished n r.
Proof.
  intros Hh. unfold vfs_lookup_flags. pose proof (scratch_alloc_holding _ _ _ Hh) as H1.
  destruct (vfs_scratch_alloc st) as [[] s1]; cbn [negb]; [|subst s1; by eexists].
  destruct H1 as (k & -> & H1). destruct (absolutize cwd path VFS_PATH_MAX) as [e|text] eqn:Ha.
  - eexists. split; [done|]. split; [by eapply absolutize_error|]. by apply scratch_free_holding.
  - destruct (lookup_walk_finished text 0 flags k s1 H1) as ([[rc res] s] & -> & He). cbn [mbind option_bind].
    eexists. split; [done|]. destruct res as [v|]; cbn in *.
    + destruct He as (-> & Hv & He). split_and!; [done|done|by apply scratch_free_holding].
    + destruct He as [Hrc He]. split; [done|by apply scratch_free_holding].
Qed.

Lemma lookup_parent_finished cwd path size n st : holding [] n st →
  ∃ rc res nm s, vfs_lookup_parent ops_at cwd path size st = Some (rc, res, nm, s) ∧ finished n (rc, res, s).
Proof.
  intros Hh. unfold vfs_lookup_parent. destruct (size <? 2)%nat; [eexists _, None, _, _; by split|].
  pose proof (scratch_alloc_holding _ _ _ Hh) as H1.
  destruct (vfs_scratch_alloc st) as [[] s1]; cbn [negb]; [|subst s1; eexists _, None, _, _; by split].
  destruct H1 as (k & -> & H1).
  assert (∀ e (nm : name), e ≠ 0 → ∃ rc (res : option nat) nm' s,
    Some (e, None, nm, vfs_scratch_free true s1) = Some (rc, res, nm', s) ∧ finished (S k) (rc, res, s)) as Hfail.
  { intros e nm He. eexists _, _, _, _. split; [done|]. split; [done|]. by apply scratch_free_holding. }
  destruct (absolutize cwd path VFS_PATH_MAX) as [e|text] eqn:Ha; [apply Hfail; by eapply absolutize_error|].
  case_bool_decide; [by apply Hfail|]. cbn zeta. destruct (_ || _); [by apply Hfail|].
  destruct (lookup_walk_finished (if (parent_len text - 1 =? 0)%nat then [SLASH] else take (parent_len text - 1) text)
    0 0 k s1 H1) as ([[rc res] s] & -> & He). cbn [mbind option_bind].
  eexists _, _, _, _. split; [done|]. destruct res as [v|]; cbn in *.
  - destruct He as (-> & Hv & He). split_and!; [done|done|by apply scratch_free_holding].
  - destruct He as [Hrc He]. split; [done|by apply scratch_free_holding].
Qed.

Lemma holding_start : holding [] (scratch_free st0) st0.
Proof.
  destruct (ready_pool _ Hready). split; try done. intros v. cbn [occ].
  change (refs (set_scratch_free _ _) v) with (refs st0 v). lia.
Qed.
End Balance.

(** A new vnode is a pin. *)
Lemma alloc_pins {W} (st st' : vfs_t W) v : pool_ok st → vfs_vnode_alloc st = (Some v, st') →
  (v < VFS_VNODE_MAX)%nat ∧ pins st [v] st'.
Proof.
  intros [Pl Pf Pn Pi Pr]. unfold vfs_vnode_alloc. destruct (vnode_free st) as [|w l] eqn:Hl; [done|]. intros [= -> <-].
  assert (v < VFS_VNODE_MAX)%nat as Hv by (apply Pf; by left). split; [done|].
  assert (refs st v = 0) as Hz by (apply Pi; [done|by left]). apply NoDup_cons in Pn as [Hn Pn].
  set (st' := upd_vnode v _ _).
  assert (∀ w, refs st' w = if decide (w = v) then 1 else refs st w) as Hr.
  { intros w. subst st'. by rewrite refs_upd. }
  split; try done.
  - intros w. rewrite Hr. cbn [occ]. destruct (decide (w = v)) as [->|]; lia.
  - split.
    + subst st'. unfold upd_vnode. cbn. by rewrite length_alter.
    + intros w Hw. apply Pf. by right.
    + done.
    + intros w Hw. change (vnode_free st') with l. rewrite Hr. specialize (Pi w Hw). rewrite elem_of_cons in Pi.
      destruct (decide (w = v)) as [->|]; [|tauto]. split; [done|lia].
    + intros w. rewrite Hr. specialize (Pr w). destruct (decide (w = v)); lia.
Qed.

(** ** Properties *)

(** C12. Lookups terminate and are balanced: [vfs_lookup_flags] and
    [vfs_lookup_parent] return after at most VFS_SYMLOOP_MAX walks, and then
    every scratch buffer is free again, the mount table is as before, and the
    vnodes have the references they had, apart from one more on the vnode
    returned with status 0; with an error no reference is left behind.  This
    holds for any drivers that keep their contract, with any mounts, links and
    lack of buffers on the way. *)
Theorem lookup_balanced {W} (ops_at : Z → vfs_ops_t W) `{!Drivers ops_at} st cwd path flags size : ready st →
  (∃ rc res st', vfs_lookup_flags ops_at cwd path flags st = Some (rc, res, st') ∧
     (rc = 0 ↔ is_Some res) ∧ pins st (option_list res) st') ∧
  (∃ rc res nm st', vfs_lookup_parent ops_at cwd path size st = Some (rc, res, nm, st') ∧
     (rc = 0 ↔ is_Some res) ∧ pins st (option_list res) st').
Proof.
  intros Hr. pose proof (holding_start st Hr) as Hh.
  assert (∀ rc res s, finished st (scratch_free st) (rc, res, s) →
    (rc = 0 ↔ is_Some res) ∧ pins st (option_list res) s) as Hfin.
  { intros rc [v|] s He; cbn in *; [destruct He as (-> & _ & [])|destruct He as [Hrc []]]; (split; [|by split]).
    - split; [by eexists|done].
    - split; [done|by intros []]. }
  split.
  - destruct (lookup_flags_finished ops_at st Hr cwd path flags _ st Hh) as ([[rc res] s] & -> & He).
    exists rc, res, s. split; [done|]. by apply Hfin.
  - destruct (lookup_parent_finished ops_at st Hr cwd path size _ st Hh) as (rc & res & nm & s & -> & He).
    exists rc, res, nm, s. split; [done|]. by apply Hfin.
Qed.

(** A driver with a file "x" in every directory. *)
Definition demo_driver : Z → vfs_ops_t unit := λ _,
  VfsOps _ None
    (Some (λ dir comp st, if bool_decide (comp = [120]) then
                            match vfs_vnode_alloc st with
                            | (Some v, st) => (0, Some v, st)
                            | (None, st) => (- ENOMEM, None, st)
                            end
                          else (- ENOENT, None, st)))
    None.

#[export] Instance demo_driver_ok : Drivers demo_driver.
Proof.
  split; [|done]. intros o f dir comp st err child st' [= <-] Hf Hok. case_bool_decide.
  - destruct (vfs_vnode_alloc st) as [[v|] s] eqn:Ha; simplify_eq.
    + rewrite decide_True by done. exists v. destruct (alloc_pins _ _ _ Hok Ha). by split_and!.
    + cbn. unfold vfs_vnode_alloc in Ha. destruct (vnode_free st) eqn:Hl; simplify_eq. by apply pins_refl.
  - simplify_eq. cbn. by apply pins_refl.
Qed.

Lemma demo_vfs_ready : ready demo_vfs.
Proof.
  destruct demo_vfs_ok as [H1 H2]. split; [done|done|]. intros v. unfold refs, vnode.
  destruct (decide (v < 64)%nat) as [Hv|Hv].
  - do 64 (destruct v as [|v]; [vm_compute; congruence|]). lia.
  - rewrite list_lookup_total_alt, lookup_ge_None_2; [vm_compute; congruence|]. cbn. lia.
Qed.

Lemma lookup_balanced_witness :
  (∃ rc res st', vfs_lookup_flags demo_driver [] [47; 100; 101; 118; 47; 120] 0 demo_vfs = Some (rc, res, st') ∧
     (rc = 0 ↔ is_Some res) ∧ pins demo_vfs (option_list res) st') ∧
  (∃ rc res nm st', vfs_lookup_parent demo_driver [] [47; 100; 101; 118; 47; 120] 64 demo_vfs = Some (rc, res, nm, st') ∧
     (rc = 0 ↔ is_Some res) ∧ pins demo_vfs (option_list res) st').
Proof. exact (lookup_balanced demo_driver demo_vfs [] [47; 100; 101; 118; 47; 120] 0 64 demo_vfs_ready). Defined.

Example demo_lookup_finds : ∃ st', vfs_lookup_flags demo_driver [] [47; 100; 101; 118; 47; 120] 0 demo_vfs = Some (0, Some 2%nat, st').
Proof. eexists. vm_compute. reflexivity. Qed.
