(* ===== verification/Bits.v ===== *)
(** * Bits: machine arithmetic by bits

    Generic lemmas on the C operators: testing a single bit, the bits of a
    conversion, the carries of an addition, two's complement bytes. *)

From S2P Require Import Prelude.
#[local] Open Scope c_scope.

Lemma bset_bit x k : 0 <= k → bset x (2 ^ k) = Z.testbit x k.
Proof.
  intros Hk. unfold bset. destruct (Z.testbit x k) eqn:E.
  - apply negb_true_iff, Z.eqb_neq. intros H0.
    assert (Z.testbit (Z.land x (2 ^ k)) k = true) as Hb.
    { by rewrite Z.land_spec, E, Z.pow2_bits_true. }
    by rewrite H0, Z.bits_0 in Hb.
  - apply negb_false_iff, Z.eqb_eq, Z.bits_inj'. intros n Hn.
    rewrite Z.land_spec, Z.bits_0, Z.pow2_bits_eqb by done.
    destruct (Z.eqb_spec k n) as [->|]; [by rewrite E|]. by rewrite andb_false_r.
Qed.

Lemma bset_1 x : bset x 1 = Z.testbit x 0. Proof. exact (bset_bit x 0 ltac:(lia)). Qed.
Lemma bset_2 x : bset x 2 = Z.testbit x 1. Proof. exact (bset_bit x 1 ltac:(lia)). Qed.
Lemma bset_4 x : bset x 4 = Z.testbit x 2. Proof. exact (bset_bit x 2 ltac:(lia)). Qed.
Lemma bset_8 x : bset x 8 = Z.testbit x 3. Proof. exact (bset_bit x 3 ltac:(lia)). Qed.
Lemma bset_16 x : bset x 16 = Z.testbit x 4. Proof. exact (bset_bit x 4 ltac:(lia)). Qed.
Lemma bset_32 x : bset x 32 = Z.testbit x 5. Proof. exact (bset_bit x 5 ltac:(lia)). Qed.
Lemma bset_64 x : bset x 64 = Z.testbit x 6. Proof. exact (bset_bit x 6 ltac:(lia)). Qed.
Lemma bset_128 x : bset x 128 = Z.testbit x 7. Proof. exact (bset_bit x 7 ltac:(lia)). Qed.

Lemma testbit_flag b m k : Z.testbit (flag b m) k = b && Z.testbit m k.
Proof. by destruct b; [|rewrite Z.bits_0]. Qed.

Lemma testbit_uN w z k : 0 <= k < w → Z.testbit (uN w z) k = Z.testbit z k.
Proof. intros. unfold uN. apply Z.mod_pow2_bits_low. lia. Qed.

Lemma testbit_u8 z k : 0 <= k < 8 → Z.testbit (u8 z) k = Z.testbit z k.
Proof. apply testbit_uN. Qed.

(** The top bit of a value of [w + 1] bits. *)
Lemma testbit_top w z : 0 <= w → 0 <= z < 2 ^ (w + 1) → Z.testbit z w = (2 ^ w <=? z).
Proof.
  intros Hw Hz. pose proof (Z.pow_pos_nonneg 2 w ltac:(lia) Hw) as Hp.
  rewrite Z.pow_add_r, Z.pow_1_r in Hz by lia. destruct (Z.leb_spec (2 ^ w) z).
  - apply Z.testbit_true; [done|]. assert (z / 2 ^ w = 1) as ->; [|done].
    symmetry. apply Z.div_unique with (z - 2 ^ w); [left|]; lia.
  - apply Z.testbit_false; [done|]. rewrite Z.div_small; [done|lia].
Qed.

(** The bits in which a sum differs from its terms are the carries into them. *)
Lemma carry_bit a b c k : 0 <= k → 0 <= c <= 1 →
  Z.testbit (a .^ b .^ (a + b + c)) k = (2 ^ k <=? a mod 2 ^ k + b mod 2 ^ k + c).
Proof.
  intros Hk Hc. pose proof (Z.pow_pos_nonneg 2 k ltac:(lia) Hk) as Hp.
  rewrite !Z.lxor_spec, !Z.testbit_odd, !Z.shiftr_div_pow2 by done.
  pose proof (Z.div_mod a (2 ^ k) ltac:(lia)) as Ea. pose proof (Z.div_mod b (2 ^ k) ltac:(lia)) as Eb.
  pose proof (Z.mod_pos_bound a (2 ^ k) ltac:(lia)). pose proof (Z.mod_pos_bound b (2 ^ k) ltac:(lia)).
  set (qa := a / 2 ^ k) in *. set (qb := b / 2 ^ k) in *.
  set (ra := a mod 2 ^ k) in *. set (rb := b mod 2 ^ k) in *. clearbody qa qb ra rb.
  assert ((a + b + c) / 2 ^ k = qa + qb + (if 2 ^ k <=? ra + rb + c then 1 else 0)) as ->.
  { destruct (Z.leb_spec (2 ^ k) (ra + rb + c)).
    - symmetry. apply Z.div_unique with (ra + rb + c - 2 ^ k); [left; lia|]. rewrite Ea, Eb. ring.
    - symmetry. apply Z.div_unique with (ra + rb + c); [left; lia|]. rewrite Ea, Eb. ring. }
  rewrite !Z.odd_add. destruct (2 ^ k <=? _); by destruct (Z.odd qa), (Z.odd qb).
Qed.

Lemma borrow_bit a b c k : 0 <= k → 0 <= c <= 1 →
  Z.testbit (a .^ b .^ (a - b - c)) k = (a mod 2 ^ k <? b mod 2 ^ k + c).
Proof.
  intros Hk Hc. pose proof (Z.pow_pos_nonneg 2 k ltac:(lia) Hk) as Hp.
  rewrite !Z.lxor_spec, !Z.testbit_odd, !Z.shiftr_div_pow2 by done.
  pose proof (Z.div_mod a (2 ^ k) ltac:(lia)) as Ea. pose proof (Z.div_mod b (2 ^ k) ltac:(lia)) as Eb.
  pose proof (Z.mod_pos_bound a (2 ^ k) ltac:(lia)). pose proof (Z.mod_pos_bound b (2 ^ k) ltac:(lia)).
  set (qa := a / 2 ^ k) in *. set (qb := b / 2 ^ k) in *.
  set (ra := a mod 2 ^ k) in *. set (rb := b mod 2 ^ k) in *. clearbody qa qb ra rb.
  assert ((a - b - c) / 2 ^ k = qa - qb - (if ra <? rb + c then 1 else 0)) as ->.
  { destruct (Z.ltb_spec ra (rb + c)).
    - symmetry. apply Z.div_unique with (ra - rb - c + 2 ^ k); [left; lia|]. rewrite Ea, Eb. ring.
    - symmetry. apply Z.div_unique with (ra - rb - c); [left; lia|]. rewrite Ea, Eb. ring. }
  rewrite !Z.odd_sub. destruct (ra <? _); by destruct (Z.odd qa), (Z.odd qb).
Qed.

Lemma land_ff z : z .& 0xFF = u8 z.
Proof. change 0xFF with (Z.ones 8). by rewrite Z.land_ones. Qed.
Lemma land_ffff z : z .& 0xFFFF = u16 z.
Proof. change 0xFFFF with (Z.ones 16). by rewrite Z.land_ones. Qed.
Lemma land_0f z : z .& 0x0F = z mod 16.
Proof. change 0x0F with (Z.ones 4). by rewrite Z.land_ones. Qed.
Lemma land_7 z : z .& 7 = z mod 8.
Proof. change 7 with (Z.ones 3). by rewrite Z.land_ones. Qed.
Lemma land_1 z : z .& 1 = Z.b2z (Z.testbit z 0).
Proof. change 1 with (Z.ones 1). by rewrite Z.land_ones, Z.bit0_mod by done. Qed.

Lemma u8_small z : 0 <= z < 256 → u8 z = z. Proof. apply (uN_small 8). Qed.
Lemma u16_small z : 0 <= z < 65536 → u16 z = z. Proof. apply (uN_small 16). Qed.
Lemma u16_add x y : u16 (u16 x + y) = u16 (x + y).
Proof. apply Zplus_mod_idemp_l. Qed.
Lemma u16_sub x y : u16 (u16 x - y) = u16 (x - y).
Proof. apply Zminus_mod_idemp_l. Qed.
Lemma u8_u16 z : u8 (u16 z) = u8 z.
Proof.
  apply Z.bits_inj'. intros k Hk. destruct (Z.lt_ge_cases k 8).
  - by rewrite !testbit_uN by lia.
  - unfold uN. by rewrite !Z.mod_pow2_bits_high by lia.
Qed.

(** A byte pair is disjoint. *)
Lemma lor_pair hi lo : 0 <= lo < 256 → (hi ≪ 8) .| lo = hi * 256 + lo.
Proof.
  intros Hlo. rewrite <- Z.add_nocarry_lor; [by rewrite Z.shiftl_mul_pow2|].
  apply Z.bits_inj'. intros k Hk. rewrite Z.land_spec, Z.bits_0. destruct (Z.lt_ge_cases k 8).
  - by rewrite Z.shiftl_spec_low.
  - rewrite <- (Z.mod_small lo (2 ^ 8)) by lia. rewrite Z.mod_pow2_bits_high by lia. apply andb_false_r.
Qed.

Lemma s8_range z : -128 <= s8 z < 128.
Proof. unfold sN. cbn zeta. pose proof (u8_range z). change (2 ^ 8) with 256. change (2 ^ (8 - 1)) with 128. cases; zb; lia. Qed.

(** Bytes written in decimal digits. *)
Definition bcd (x : Z) : Z := 16 * (x / 10) + x mod 10.

Lemma bcd_digits x : 0 <= x < 100 → bcd x / 16 = x / 10 ∧ bcd x mod 16 = x mod 10 ∧ 0 <= bcd x < 160.
Proof.
  intros Hx. unfold bcd. pose proof (Z.mod_pos_bound x 10). pose proof (Z.div_lt_upper_bound x 10 10).
  pose proof (Z.div_pos x 10). split_and!.
  - symmetry. apply Z.div_unique with (x mod 10); lia.
  - symmetry. apply Z.mod_unique with (x / 10); lia.
  - lia.
  - lia.
Qed.

(** Nor do two words overlap. *)
Lemma lor_words hi lo : 0 <= lo < 65536 → (hi ≪ 16) .| lo = 65536 * hi + lo.
Proof.
  intros Hlo. rewrite <- Z.add_nocarry_lor; [rewrite Z.shiftl_mul_pow2 by lia; lia|]. apply Z.bits_inj'. intros k Hk.
  rewrite Z.land_spec, Z.bits_0. destruct (Z.lt_ge_cases k 16); [by rewrite Z.shiftl_spec_low|].
  rewrite <- (Z.mod_small lo (2 ^ 16)) by lia. rewrite (Z.mod_pow2_bits_high lo) by lia. apply andb_false_r.
Qed.

(** An or stays below the same power of two. *)
Lemma lor_below w x y : 0 <= x < 2 ^ w → 0 <= y < 2 ^ w → 0 <= x .| y < 2 ^ w.
Proof.
  intros Hx Hy. destruct (Z.lt_ge_cases w 0); [rewrite Z.pow_neg_r in * by done; lia|].
  assert (x .| y = (x .| y) mod 2 ^ w) as ->; [|apply Z.mod_pos_bound; lia].
  apply Z.bits_inj'. intros k Hk. destruct (Z.lt_ge_cases k w); [by rewrite Z.mod_pow2_bits_low|].
  rewrite Z.mod_pow2_bits_high, Z.lor_spec by lia. rewrite <- (Z.mod_small x (2 ^ w)), <- (Z.mod_small y (2 ^ w)) by done.
  by rewrite !Z.mod_pow2_bits_high by lia.
Qed.

(** A mask bounds what it leaves. *)
Lemma land_le a b : 0 <= b → 0 <= a .& b <= b.
Proof.
  intros Hb. split; [apply Z.land_nonneg; by right|].
  assert (Z.land (Z.ldiff b a) (b .& a) = 0) as H0.
  { apply Z.bits_inj'. intros n Hn. rewrite !Z.land_spec, Z.ldiff_spec, Z.bits_0. by destruct (Z.testbit a n), (Z.testbit b n). }
  pose proof (Z.lor_ldiff_and b a) as Hl. rewrite <- Z.lxor_lor, <- Z.add_nocarry_lxor in Hl by done.
  assert (0 <= Z.ldiff b a) by (apply Z.ldiff_nonneg; by left). rewrite Z.land_comm. lia.
Qed.
