(* ===== verification/Z80.v ===== *)
(** * Z80: state of the Z80 core (src/kernel/core/cpu/ecpu_z80.h, ecpu_z80.c)

    [z80_state_t], its registers and memory, and the accessors the interpreter
    and the other parts of the kernel use.  [memory] is the 64 KB array as a
    function of the offset.  The trap handler is a function of the embedding
    subsystem: the state says whether one is installed, [trap_ctx] is the object
    its context pointer designates (None for NULL), and Z80Run takes the handler
    as a parameter. *)

From S2P Require Import Prelude.
#[local] Open Scope c_scope.

Definition Z80_REG_A : Z := 0.
Definition Z80_REG_F : Z := 1.
Definition Z80_REG_B : Z := 2.
Definition Z80_REG_C : Z := 3.
Definition Z80_REG_D : Z := 4.
Definition Z80_REG_E : Z := 5.
Definition Z80_REG_H : Z := 6.
Definition Z80_REG_L : Z := 7.
Definition Z80_REG_AF : Z := 8.
Definition Z80_REG_BC : Z := 9.
Definition Z80_REG_DE : Z := 10.
Definition Z80_REG_HL : Z := 11.
Definition Z80_REG_IX : Z := 12.
Definition Z80_REG_IY : Z := 13.
Definition Z80_REG_SP : Z := 14.
Definition Z80_REG_PC : Z := 15.
Definition Z80_REG_I : Z := 16.
Definition Z80_REG_R : Z := 17.
Definition Z80_REG_AF2 : Z := 18.
Definition Z80_REG_BC2 : Z := 19.
Definition Z80_REG_DE2 : Z := 20.
Definition Z80_REG_HL2 : Z := 21.
Definition Z80_REG_IFF1 : Z := 22.
Definition Z80_REG_IFF2 : Z := 23.
Definition Z80_REG_IM : Z := 24.
Definition Z80_REG_WZ : Z := 25.

Definition FLAG_C : Z := 0x01.
Definition FLAG_N : Z := 0x02.
Definition FLAG_PV : Z := 0x04.
Definition FLAG_F3 : Z := 0x08.
Definition FLAG_H : Z := 0x10.
Definition FLAG_F5 : Z := 0x20.
Definition FLAG_Z : Z := 0x40.
Definition FLAG_S : Z := 0x80.
Definition FLAG_35 : Z := FLAG_F3 .| FLAG_F5.

(** cpu.h *)
Definition CPU_TRAP_RST : Z := 0.
Definition CPU_TRAP_HALT : Z := 2.
Definition CPU_TRAP_IO_IN : Z := 3.
Definition CPU_TRAP_IO_OUT : Z := 4.
Definition CPU_TRAP_UNHANDLED : Z := 0.
Definition CPU_TRAP_HANDLED : Z := 1.
Definition CPU_TRAP_EXIT : Z := 2.

Section State.
Context {C : Type}.

Record z80_state_t := Z80 {
  z_a : Z;
  z_f : Z;
  z_b : Z;
  z_c : Z;
  z_d : Z;
  z_e : Z;
  z_h : Z;
  z_l : Z;
  z_a2 : Z;
  z_f2 : Z;
  z_b2 : Z;
  z_c2 : Z;
  z_d2 : Z;
  z_e2 : Z;
  z_h2 : Z;
  z_l2 : Z;
  z_ix : Z;
  z_iy : Z;
  z_sp : Z;
  z_pc : Z;
  z_i : Z;
  z_r : Z;
  z_wz : Z;
  z_iff1 : Z;
  z_iff2 : Z;
  z_im : Z;
  z_halted : Z;
  z_step_budget : Z;
  z_step_trap_exit : Z;
  z_memory : Z → Z;
  z_mem_size : Z;
  z_trap_handler : bool;
  z_trap_ctx : option C
}.

(** Assignments convert to the field's type. *)
Definition set_a (v : Z) (cpu : z80_state_t) : z80_state_t :=
  Z80 (u8 v) (z_f cpu) (z_b cpu) (z_c cpu) (z_d cpu) (z_e cpu) (z_h cpu) (z_l cpu) (z_a2 cpu)
    (z_f2 cpu) (z_b2 cpu) (z_c2 cpu) (z_d2 cpu) (z_e2 cpu) (z_h2 cpu) (z_l2 cpu) (z_ix cpu)
    (z_iy cpu) (z_sp cpu) (z_pc cpu) (z_i cpu) (z_r cpu) (z_wz cpu) (z_iff1 cpu) (z_iff2 cpu)
    (z_im cpu) (z_halted cpu) (z_step_budget cpu) (z_step_trap_exit cpu) (z_memory cpu)
    (z_mem_size cpu) (z_trap_handler cpu) (z_trap_ctx cpu).
Definition set_f (v : Z) (cpu : z80_state_t) : z80_state_t :=
  Z80 (z_a cpu) (u8 v) (z_b cpu) (z_c cpu) (z_d cpu) (z_e cpu) (z_h cpu) (z_l cpu) (z_a2 cpu)
    (z_f2 cpu) (z_b2 cpu) (z_c2 cpu) (z_d2 cpu) (z_e2 cpu) (z_h2 cpu) (z_l2 cpu) (z_ix cpu)
    (z_iy cpu) (z_sp cpu) (z_pc cpu) (z_i cpu) (z_r cpu) (z_wz cpu) (z_iff1 cpu) (z_iff2 cpu)
    (z_im cpu) (z_halted cpu) (z_step_budget cpu) (z_step_trap_exit cpu) (z_memory cpu)
    (z_mem_size cpu) (z_trap_handler cpu) (z_trap_ctx cpu).
Definition set_b (v : Z) (cpu : z80_state_t) : z80_state_t :=
  Z80 (z_a cpu) (z_f cpu) (u8 v) (z_c cpu) (z_d cpu) (z_e cpu) (z_h cpu) (z_l cpu) (z_a2 cpu)
    (z_f2 cpu) (z_b2 cpu) (z_c2 cpu) (z_d2 cpu) (z_e2 cpu) (z_h2 cpu) (z_l2 cpu) (z_ix cpu)
    (z_iy cpu) (z_sp cpu) (z_pc cpu) (z_i cpu) (z_r cpu) (z_wz cpu) (z_iff1 cpu) (z_iff2 cpu)
    (z_im cpu) (z_halted cpu) (z_step_budget cpu) (z_step_trap_exit cpu) (z_memory cpu)
    (z_mem_size cpu) (z_trap_handler cpu) (z_trap_ctx cpu).
Definition set_c (v : Z) (cpu : z80_state_t) : z80_state_t :=
  Z80 (z_a cpu) (z_f cpu) (z_b cpu) (u8 v) (z_d cpu) (z_e cpu) (z_h cpu) (z_l cpu) (z_a2 cpu)
    (z_f2 cpu) (z_b2 cpu) (z_c2 cpu) (z_d2 cpu) (z_e2 cpu) (z_h2 cpu) (z_l2 cpu) (z_ix cpu)
    (z_iy cpu) (z_sp cpu) (z_pc cpu) (z_i cpu) (z_r cpu) (z_wz cpu) (z_iff1 cpu) (z_iff2 cpu)
    (z_im cpu) (z_halted cpu) (z_step_budget cpu) (z_step_trap_exit cpu) (z_memory cpu)
    (z_mem_size cpu) (z_trap_handler cpu) (z_trap_ctx cpu).
Definition set_d (v : Z) (cpu : z80_state_t) : z80_state_t :=
  Z80 (z_a cpu) (z_f cpu) (z_b cpu) (z_c cpu) (u8 v) (z_e cpu) (z_h cpu) (z_l cpu) (z_a2 cpu)
    (z_f2 cpu) (z_b2 cpu) (z_c2 cpu) (z_d2 cpu) (z_e2 cpu) (z_h2 cpu) (z_l2 cpu) (z_ix cpu)
    (z_iy cpu) (z_sp cpu) (z_pc cpu) (z_i cpu) (z_r cpu) (z_wz cpu) (z_iff1 cpu) (z_iff2 cpu)
    (z_im cpu) (z_halted cpu) (z_step_budget cpu) (z_step_trap_exit cpu) (z_memory cpu)
    (z_mem_size cpu) (z_trap_handler cpu) (z_trap_ctx cpu).
Definition set_e (v : Z) (cpu : z80_state_t) : z80_state_t :=
  Z80 (z_a cpu) (z_f cpu) (z_b cpu) (z_c cpu) (z_d cpu) (u8 v) (z_h cpu) (z_l cpu) (z_a2 cpu)
    (z_f2 cpu) (z_b2 cpu) (z_c2 cpu) (z_d2 cpu) (z_e2 cpu) (z_h2 cpu) (z_l2 cpu) (z_ix cpu)
    (z_iy cpu) (z_sp cpu) (z_pc cpu) (z_i cpu) (z_r cpu) (z_wz cpu) (z_iff1 cpu) (z_iff2 cpu)
    (z_im cpu) (z_halted cpu) (z_step_budget cpu) (z_step_trap_exit cpu) (z_memory cpu)
    (z_mem_size cpu) (z_trap_handler cpu) (z_trap_ctx cpu).
Definition set_h (v : Z) (cpu : z80_state_t) : z80_state_t :=
  Z80 (z_a cpu) (z_f cpu) (z_b cpu) (z_c cpu) (z_d cpu) (z_e cpu) (u8 v) (z_l cpu) (z_a2 cpu)
    (z_f2 cpu) (z_b2 cpu) (z_c2 cpu) (z_d2 cpu) (z_e2 cpu) (z_h2 cpu) (z_l2 cpu) (z_ix cpu)
    (z_iy cpu) (z_sp cpu) (z_pc cpu) (z_i cpu) (z_r cpu) (z_wz cpu) (z_iff1 cpu) (z_iff2 cpu)
    (z_im cpu) (z_halted cpu) (z_step_budget cpu) (z_step_trap_exit cpu) (z_memory cpu)
    (z_mem_size cpu) (z_trap_handler cpu) (z_trap_ctx cpu).
Definition set_l (v : Z) (cpu : z80_state_t) : z80_state_t :=
  Z80 (z_a cpu) (z_f cpu) (z_b cpu) (z_c cpu) (z_d cpu) (z_e cpu) (z_h cpu) (u8 v) (z_a2 cpu)
    (z_f2 cpu) (z_b2 cpu) (z_c2 cpu) (z_d2 cpu) (z_e2 cpu) (z_h2 cpu) (z_l2 cpu) (z_ix cpu)
    (z_iy cpu) (z_sp cpu) (z_pc cpu) (z_i cpu) (z_r cpu) (z_wz cpu) (z_iff1 cpu) (z_iff2 cpu)
    (z_im cpu) (z_halted cpu) (z_step_budget cpu) (z_step_trap_exit cpu) (z_memory cpu)
    (z_mem_size cpu) (z_trap_handler cpu) (z_trap_ctx cpu).
Definition set_a2 (v : Z) (cpu : z80_state_t) : z80_state_t :=
  Z80 (z_a cpu) (z_f cpu) (z_b cpu) (z_c cpu) (z_d cpu) (z_e cpu) (z_h cpu) (z_l cpu) (u8 v)
    (z_f2 cpu) (z_b2 cpu) (z_c2 cpu) (z_d2 cpu) (z_e2 cpu) (z_h2 cpu) (z_l2 cpu) (z_ix cpu)
    (z_iy cpu) (z_sp cpu) (z_pc cpu) (z_i cpu) (z_r cpu) (z_wz cpu) (z_iff1 cpu) (z_iff2 cpu)
    (z_im cpu) (z_halted cpu) (z_step_budget cpu) (z_step_trap_exit cpu) (z_memory cpu)
    (z_mem_size cpu) (z_trap_handler cpu) (z_trap_ctx cpu).
Definition set_f2 (v : Z) (cpu : z80_state_t) : z80_state_t :=
  Z80 (z_a cpu) (z_f cpu) (z_b cpu) (z_c cpu) (z_d cpu) (z_e cpu) (z_h cpu) (z_l cpu) (z_a2 cpu)
    (u8 v) (z_b2 cpu) (z_c2 cpu) (z_d2 cpu) (z_e2 cpu) (z_h2 cpu) (z_l2 cpu) (z_ix cpu) (z_iy
    cpu) (z_sp cpu) (z_pc cpu) (z_i cpu) (z_r cpu) (z_wz cpu) (z_iff1 cpu) (z_iff2 cpu) (z_im
    cpu) (z_halted cpu) (z_step_budget cpu) (z_step_trap_exit cpu) (z_memory cpu) (z_mem_size
    cpu) (z_trap_handler cpu) (z_trap_ctx cpu).
Definition set_b2 (v : Z) (cpu : z80_state_t) : z80_state_t :=
  Z80 (z_a cpu) (z_f cpu) (z_b cpu) (z_c cpu) (z_d cpu) (z_e cpu) (z_h cpu) (z_l cpu) (z_a2 cpu)
    (z_f2 cpu) (u8 v) (z_c2 cpu) (z_d2 cpu) (z_e2 cpu) (z_h2 cpu) (z_l2 cpu) (z_ix cpu) (z_iy
    cpu) (z_sp cpu) (z_pc cpu) (z_i cpu) (z_r cpu) (z_wz cpu) (z_iff1 cpu) (z_iff2 cpu) (z_im
    cpu) (z_halted cpu) (z_step_budget cpu) (z_step_trap_exit cpu) (z_memory cpu) (z_mem_size
    cpu) (z_trap_handler cpu) (z_trap_ctx cpu).
Definition set_c2 (v : Z) (cpu : z80_state_t) : z80_state_t :=
  Z80 (z_a cpu) (z_f cpu) (z_b cpu) (z_c cpu) (z_d cpu) (z_e cpu) (z_h cpu) (z_l cpu) (z_a2 cpu)
    (z_f2 cpu) (z_b2 cpu) (u8 v) (z_d2 cpu) (z_e2 cpu) (z_h2 cpu) (z_l2 cpu) (z_ix cpu) (z_iy
    cpu) (z_sp cpu) (z_pc cpu) (z_i cpu) (z_r cpu) (z_wz cpu) (z_iff1 cpu) (z_iff2 cpu) (z_im
    cpu) (z_halted cpu) (z_step_budget cpu) (z_step_trap_exit cpu) (z_memory cpu) (z_mem_size
    cpu) (z_trap_handler cpu) (z_trap_ctx cpu).
Definition set_d2 (v : Z) (cpu : z80_state_t) : z80_state_t :=
  Z80 (z_a cpu) (z_f cpu) (z_b cpu) (z_c cpu) (z_d cpu) (z_e cpu) (z_h cpu) (z_l cpu) (z_a2 cpu)
    (z_f2 cpu) (z_b2 cpu) (z_c2 cpu) (u8 v) (z_e2 cpu) (z_h2 cpu) (z_l2 cpu) (z_ix cpu) (z_iy
    cpu) (z_sp cpu) (z_pc cpu) (z_i cpu) (z_r cpu) (z_wz cpu) (z_iff1 cpu) (z_iff2 cpu) (z_im
    cpu) (z_halted cpu) (z_step_budget cpu) (z_step_trap_exit cpu) (z_memory cpu) (z_mem_size
    cpu) (z_trap_handler cpu) (z_trap_ctx cpu).
Definition set_e2 (v : Z) (cpu : z80_state_t) : z80_state_t :=
  Z80 (z_a cpu) (z_f cpu) (z_b cpu) (z_c cpu) (z_d cpu) (z_e cpu) (z_h cpu) (z_l cpu) (z_a2 cpu)
    (z_f2 cpu) (z_b2 cpu) (z_c2 cpu) (z_d2 cpu) (u8 v) (z_h2 cpu) (z_l2 cpu) (z_ix cpu) (z_iy
    cpu) (z_sp cpu) (z_pc cpu) (z_i cpu) (z_r cpu) (z_wz cpu) (z_iff1 cpu) (z_iff2 cpu) (z_im
    cpu) (z_halted cpu) (z_step_budget cpu) (z_step_trap_exit cpu) (z_memory cpu) (z_mem_size
    cpu) (z_trap_handler cpu) (z_trap_ctx cpu).
Definition set_h2 (v : Z) (cpu : z80_state_t) : z80_state_t :=
  Z80 (z_a cpu) (z_f cpu) (z_b cpu) (z_c cpu) (z_d cpu) (z_e cpu) (z_h cpu) (z_l cpu) (z_a2 cpu)
    (z_f2 cpu) (z_b2 cpu) (z_c2 cpu) (z_d2 cpu) (z_e2 cpu) (u8 v) (z_l2 cpu) (z_ix cpu) (z_iy
    cpu) (z_sp cpu) (z_pc cpu) (z_i cpu) (z_r cpu) (z_wz cpu) (z_iff1 cpu) (z_iff2 cpu) (z_im
    cpu) (z_halted cpu) (z_step_budget cpu) (z_step_trap_exit cpu) (z_memory cpu) (z_mem_size
    cpu) (z_trap_handler cpu) (z_trap_ctx cpu).
Definition set_l2 (v : Z) (cpu : z80_state_t) : z80_state_t :=
  Z80 (z_a cpu) (z_f cpu) (z_b cpu) (z_c cpu) (z_d cpu) (z_e cpu) (z_h cpu) (z_l cpu) (z_a2 cpu)
    (z_f2 cpu) (z_b2 cpu) (z_c2 cpu) (z_d2 cpu) (z_e2 cpu) (z_h2 cpu) (u8 v) (z_ix cpu) (z_iy
    cpu) (z_sp cpu) (z_pc cpu) (z_i cpu) (z_r cpu) (z_wz cpu) (z_iff1 cpu) (z_iff2 cpu) (z_im
    cpu) (z_halted cpu) (z_step_budget cpu) (z_step_trap_exit cpu) (z_memory cpu) (z_mem_size
    cpu) (z_trap_handler cpu) (z_trap_ctx cpu).
Definition set_ix (v : Z) (cpu : z80_state_t) : z80_state_t :=
  Z80 (z_a cpu) (z_f cpu) (z_b cpu) (z_c cpu) (z_d cpu) (z_e cpu) (z_h cpu) (z_l cpu) (z_a2 cpu)
    (z_f2 cpu) (z_b2 cpu) (z_c2 cpu) (z_d2 cpu) (z_e2 cpu) (z_h2 cpu) (z_l2 cpu) (u16 v) (z_iy
    cpu) (z_sp cpu) (z_pc cpu) (z_i cpu) (z_r cpu) (z_wz cpu) (z_iff1 cpu) (z_iff2 cpu) (z_im
    cpu) (z_halted cpu) (z_step_budget cpu) (z_step_trap_exit cpu) (z_memory cpu) (z_mem_size
    cpu) (z_trap_handler cpu) (z_trap_ctx cpu).
Definition set_iy (v : Z) (cpu : z80_state_t) : z80_state_t :=
  Z80 (z_a cpu) (z_f cpu) (z_b cpu) (z_c cpu) (z_d cpu) (z_e cpu) (z_h cpu) (z_l cpu) (z_a2 cpu)
    (z_f2 cpu) (z_b2 cpu) (z_c2 cpu) (z_d2 cpu) (z_e2 cpu) (z_h2 cpu) (z_l2 cpu) (z_ix cpu) (u16
    v) (z_sp cpu) (z_pc cpu) (z_i cpu) (z_r cpu) (z_wz cpu) (z_iff1 cpu) (z_iff2 cpu) (z_im cpu)
    (z_halted cpu) (z_step_budget cpu) (z_step_trap_exit cpu) (z_memory cpu) (z_mem_size cpu)
    (z_trap_handler cpu) (z_trap_ctx cpu).
Definition set_sp (v : Z) (cpu : z80_state_t) : z80_state_t :=
  Z80 (z_a cpu) (z_f cpu) (z_b cpu) (z_c cpu) (z_d cpu) (z_e cpu) (z_h cpu) (z_l cpu) (z_a2 cpu)
    (z_f2 cpu) (z_b2 cpu) (z_c2 cpu) (z_d2 cpu) (z_e2 cpu) (z_h2 cpu) (z_l2 cpu) (z_ix cpu)
    (z_iy cpu) (u16 v) (z_pc cpu) (z_i cpu) (z_r cpu) (z_wz cpu) (z_iff1 cpu) (z_iff2 cpu) (z_im
    cpu) (z_halted cpu) (z_step_budget cpu) (z_step_trap_exit cpu) (z_memory cpu) (z_mem_size
    cpu) (z_trap_handler cpu) (z_trap_ctx cpu).
Definition set_pc (v : Z) (cpu : z80_state_t) : z80_state_t :=
  Z80 (z_a cpu) (z_f cpu) (z_b cpu) (z_c cpu) (z_d cpu) (z_e cpu) (z_h cpu) (z_l cpu) (z_a2 cpu)
    (z_f2 cpu) (z_b2 cpu) (z_c2 cpu) (z_d2 cpu) (z_e2 cpu) (z_h2 cpu) (z_l2 cpu) (z_ix cpu)
    (z_iy cpu) (z_sp cpu) (u16 v) (z_i cpu) (z_r cpu) (z_wz cpu) (z_iff1 cpu) (z_iff2 cpu) (z_im
    cpu) (z_halted cpu) (z_step_budget cpu) (z_step_trap_exit cpu) (z_memory cpu) (z_mem_size
    cpu) (z_trap_handler cpu) (z_trap_ctx cpu).
Definition set_i (v : Z) (cpu : z80_state_t) : z80_state_t :=
  Z80 (z_a cpu) (z_f cpu) (z_b cpu) (z_c cpu) (z_d cpu) (z_e cpu) (z_h cpu) (z_l cpu) (z_a2 cpu)
    (z_f2 cpu) (z_b2 cpu) (z_c2 cpu) (z_d2 cpu) (z_e2 cpu) (z_h2 cpu) (z_l2 cpu) (z_ix cpu)
    (z_iy cpu) (z_sp cpu) (z_pc cpu) (u8 v) (z_r cpu) (z_wz cpu) (z_iff1 cpu) (z_iff2 cpu) (z_im
    cpu) (z_halted cpu) (z_step_budget cpu) (z_step_trap_exit cpu) (z_memory cpu) (z_mem_size
    cpu) (z_trap_handler cpu) (z_trap_ctx cpu).
Definition set_r (v : Z) (cpu : z80_state_t) : z80_state_t :=
  Z80 (z_a cpu) (z_f cpu) (z_b cpu) (z_c cpu) (z_d cpu) (z_e cpu) (z_h cpu) (z_l cpu) (z_a2 cpu)
    (z_f2 cpu) (z_b2 cpu) (z_c2 cpu) (z_d2 cpu) (z_e2 cpu) (z_h2 cpu) (z_l2 cpu) (z_ix cpu)
    (z_iy cpu) (z_sp cpu) (z_pc cpu) (z_i cpu) (u8 v) (z_wz cpu) (z_iff1 cpu) (z_iff2 cpu) (z_im
    cpu) (z_halted cpu) (z_step_budget cpu) (z_step_trap_exit cpu) (z_memory cpu) (z_mem_size
    cpu) (z_trap_handler cpu) (z_trap_ctx cpu).
Definition set_wz (v : Z) (cpu : z80_state_t) : z80_state_t :=
  Z80 (z_a cpu) (z_f cpu) (z_b cpu) (z_c cpu) (z_d cpu) (z_e cpu) (z_h cpu) (z_l cpu) (z_a2 cpu)
    (z_f2 cpu) (z_b2 cpu) (z_c2 cpu) (z_d2 cpu) (z_e2 cpu) (z_h2 cpu) (z_l2 cpu) (z_ix cpu)
    (z_iy cpu) (z_sp cpu) (z_pc cpu) (z_i cpu) (z_r cpu) (u16 v) (z_iff1 cpu) (z_iff2 cpu) (z_im
    cpu) (z_halted cpu) (z_step_budget cpu) (z_step_trap_exit cpu) (z_memory cpu) (z_mem_size
    cpu) (z_trap_handler cpu) (z_trap_ctx cpu).
Definition set_iff1 (v : Z) (cpu : z80_state_t) : z80_state_t :=
  Z80 (z_a cpu) (z_f cpu) (z_b cpu) (z_c cpu) (z_d cpu) (z_e cpu) (z_h cpu) (z_l cpu) (z_a2 cpu)
    (z_f2 cpu) (z_b2 cpu) (z_c2 cpu) (z_d2 cpu) (z_e2 cpu) (z_h2 cpu) (z_l2 cpu) (z_ix cpu)
    (z_iy cpu) (z_sp cpu) (z_pc cpu) (z_i cpu) (z_r cpu) (z_wz cpu) (u8 v) (z_iff2 cpu) (z_im
    cpu) (z_halted cpu) (z_step_budget cpu) (z_step_trap_exit cpu) (z_memory cpu) (z_mem_size
    cpu) (z_trap_handler cpu) (z_trap_ctx cpu).
Definition set_iff2 (v : Z) (cpu : z80_state_t) : z80_state_t :=
  Z80 (z_a cpu) (z_f cpu) (z_b cpu) (z_c cpu) (z_d cpu) (z_e cpu) (z_h cpu) (z_l cpu) (z_a2 cpu)
    (z_f2 cpu) (z_b2 cpu) (z_c2 cpu) (z_d2 cpu) (z_e2 cpu) (z_h2 cpu) (z_l2 cpu) (z_ix cpu)
    (z_iy cpu) (z_sp cpu) (z_pc cpu) (z_i cpu) (z_r cpu) (z_wz cpu) (z_iff1 cpu) (u8 v) (z_im
    cpu) (z_halted cpu) (z_step_budget cpu) (z_step_trap_exit cpu) (z_memory cpu) (z_mem_size
    cpu) (z_trap_handler cpu) (z_trap_ctx cpu).
Definition set_im (v : Z) (cpu : z80_state_t) : z80_state_t :=
  Z80 (z_a cpu) (z_f cpu) (z_b cpu) (z_c cpu) (z_d cpu) (z_e cpu) (z_h cpu) (z_l cpu) (z_a2 cpu)
    (z_f2 cpu) (z_b2 cpu) (z_c2 cpu) (z_d2 cpu) (z_e2 cpu) (z_h2 cpu) (z_l2 cpu) (z_ix cpu)
    (z_iy cpu) (z_sp cpu) (z_pc cpu) (z_i cpu) (z_r cpu) (z_wz cpu) (z_iff1 cpu) (z_iff2 cpu)
    (u8 v) (z_halted cpu) (z_step_budget cpu) (z_step_trap_exit cpu) (z_memory cpu) (z_mem_size
    cpu) (z_trap_handler cpu) (z_trap_ctx cpu).
Definition set_halted (v : Z) (cpu : z80_state_t) : z80_state_t :=
  Z80 (z_a cpu) (z_f cpu) (z_b cpu) (z_c cpu) (z_d cpu) (z_e cpu) (z_h cpu) (z_l cpu) (z_a2 cpu)
    (z_f2 cpu) (z_b2 cpu) (z_c2 cpu) (z_d2 cpu) (z_e2 cpu) (z_h2 cpu) (z_l2 cpu) (z_ix cpu)
    (z_iy cpu) (z_sp cpu) (z_pc cpu) (z_i cpu) (z_r cpu) (z_wz cpu) (z_iff1 cpu) (z_iff2 cpu)
    (z_im cpu) (u8 v) (z_step_budget cpu) (z_step_trap_exit cpu) (z_memory cpu) (z_mem_size cpu)
    (z_trap_handler cpu) (z_trap_ctx cpu).
Definition set_step_budget (v : Z) (cpu : z80_state_t) : z80_state_t :=
  Z80 (z_a cpu) (z_f cpu) (z_b cpu) (z_c cpu) (z_d cpu) (z_e cpu) (z_h cpu) (z_l cpu) (z_a2 cpu)
    (z_f2 cpu) (z_b2 cpu) (z_c2 cpu) (z_d2 cpu) (z_e2 cpu) (z_h2 cpu) (z_l2 cpu) (z_ix cpu)
    (z_iy cpu) (z_sp cpu) (z_pc cpu) (z_i cpu) (z_r cpu) (z_wz cpu) (z_iff1 cpu) (z_iff2 cpu)
    (z_im cpu) (z_halted cpu) (u8 v) (z_step_trap_exit cpu) (z_memory cpu) (z_mem_size cpu)
    (z_trap_handler cpu) (z_trap_ctx cpu).
Definition set_step_trap_exit (v : Z) (cpu : z80_state_t) : z80_state_t :=
  Z80 (z_a cpu) (z_f cpu) (z_b cpu) (z_c cpu) (z_d cpu) (z_e cpu) (z_h cpu) (z_l cpu) (z_a2 cpu)
    (z_f2 cpu) (z_b2 cpu) (z_c2 cpu) (z_d2 cpu) (z_e2 cpu) (z_h2 cpu) (z_l2 cpu) (z_ix cpu)
    (z_iy cpu) (z_sp cpu) (z_pc cpu) (z_i cpu) (z_r cpu) (z_wz cpu) (z_iff1 cpu) (z_iff2 cpu)
    (z_im cpu) (z_halted cpu) (z_step_budget cpu) (u8 v) (z_memory cpu) (z_mem_size cpu)
    (z_trap_handler cpu) (z_trap_ctx cpu).
Definition set_memory (v : Z → Z) (cpu : z80_state_t) : z80_state_t :=
  Z80 (z_a cpu) (z_f cpu) (z_b cpu) (z_c cpu) (z_d cpu) (z_e cpu) (z_h cpu) (z_l cpu) (z_a2 cpu)
    (z_f2 cpu) (z_b2 cpu) (z_c2 cpu) (z_d2 cpu) (z_e2 cpu) (z_h2 cpu) (z_l2 cpu) (z_ix cpu)
    (z_iy cpu) (z_sp cpu) (z_pc cpu) (z_i cpu) (z_r cpu) (z_wz cpu) (z_iff1 cpu) (z_iff2 cpu)
    (z_im cpu) (z_halted cpu) (z_step_budget cpu) (z_step_trap_exit cpu) v (z_mem_size cpu)
    (z_trap_handler cpu) (z_trap_ctx cpu).
Definition set_mem_size (v : Z) (cpu : z80_state_t) : z80_state_t :=
  Z80 (z_a cpu) (z_f cpu) (z_b cpu) (z_c cpu) (z_d cpu) (z_e cpu) (z_h cpu) (z_l cpu) (z_a2 cpu)
    (z_f2 cpu) (z_b2 cpu) (z_c2 cpu) (z_d2 cpu) (z_e2 cpu) (z_h2 cpu) (z_l2 cpu) (z_ix cpu)
    (z_iy cpu) (z_sp cpu) (z_pc cpu) (z_i cpu) (z_r cpu) (z_wz cpu) (z_iff1 cpu) (z_iff2 cpu)
    (z_im cpu) (z_halted cpu) (z_step_budget cpu) (z_step_trap_exit cpu) (z_memory cpu) (u32 v)
    (z_trap_handler cpu) (z_trap_ctx cpu).
Definition set_trap_handler (v : bool) (cpu : z80_state_t) : z80_state_t :=
  Z80 (z_a cpu) (z_f cpu) (z_b cpu) (z_c cpu) (z_d cpu) (z_e cpu) (z_h cpu) (z_l cpu) (z_a2 cpu)
    (z_f2 cpu) (z_b2 cpu) (z_c2 cpu) (z_d2 cpu) (z_e2 cpu) (z_h2 cpu) (z_l2 cpu) (z_ix cpu)
    (z_iy cpu) (z_sp cpu) (z_pc cpu) (z_i cpu) (z_r cpu) (z_wz cpu) (z_iff1 cpu) (z_iff2 cpu)
    (z_im cpu) (z_halted cpu) (z_step_budget cpu) (z_step_trap_exit cpu) (z_memory cpu)
    (z_mem_size cpu) v (z_trap_ctx cpu).
Definition set_trap_ctx (v : option C) (cpu : z80_state_t) : z80_state_t :=
  Z80 (z_a cpu) (z_f cpu) (z_b cpu) (z_c cpu) (z_d cpu) (z_e cpu) (z_h cpu) (z_l cpu) (z_a2 cpu)
    (z_f2 cpu) (z_b2 cpu) (z_c2 cpu) (z_d2 cpu) (z_e2 cpu) (z_h2 cpu) (z_l2 cpu) (z_ix cpu)
    (z_iy cpu) (z_sp cpu) (z_pc cpu) (z_i cpu) (z_r cpu) (z_wz cpu) (z_iff1 cpu) (z_iff2 cpu)
    (z_im cpu) (z_halted cpu) (z_step_budget cpu) (z_step_trap_exit cpu) (z_memory cpu)
    (z_mem_size cpu) (z_trap_handler cpu) v.

(** ** Register pairs *)

Definition z80_af (cpu : z80_state_t) : Z := u16 ((z_a cpu ≪ 8) .| z_f cpu).
Definition z80_set_af (val : Z) (cpu : z80_state_t) : z80_state_t := set_f (val .& 0xFF) (set_a (val ≫ 8) cpu).
Definition z80_bc (cpu : z80_state_t) : Z := u16 ((z_b cpu ≪ 8) .| z_c cpu).
Definition z80_set_bc (val : Z) (cpu : z80_state_t) : z80_state_t := set_c (val .& 0xFF) (set_b (val ≫ 8) cpu).
Definition z80_de (cpu : z80_state_t) : Z := u16 ((z_d cpu ≪ 8) .| z_e cpu).
Definition z80_set_de (val : Z) (cpu : z80_state_t) : z80_state_t := set_e (val .& 0xFF) (set_d (val ≫ 8) cpu).
Definition z80_hl (cpu : z80_state_t) : Z := u16 ((z_h cpu ≪ 8) .| z_l cpu).
Definition z80_set_hl (val : Z) (cpu : z80_state_t) : z80_state_t := set_l (val .& 0xFF) (set_h (val ≫ 8) cpu).

(** ** Memory *)

(** [memory[i] = v], an array of bytes. *)
Definition mem_set (i v : Z) (m : Z → Z) : Z → Z := λ j, if j =? i then u8 v else m j.

Definition z80_read8 (cpu : z80_state_t) (addr : Z) : Z := z_memory cpu addr.
Definition z80_write8 (addr val : Z) (cpu : z80_state_t) : z80_state_t :=
  set_memory (mem_set addr val (z_memory cpu)) cpu.
Definition z80_read16 (cpu : z80_state_t) (addr : Z) : Z :=
  u16 (z_memory cpu addr .| (z_memory cpu (u16 (addr + 1)) ≪ 8)).
Definition z80_write16 (addr val : Z) (cpu : z80_state_t) : z80_state_t :=
  let cpu := set_memory (mem_set addr (val .& 0xFF) (z_memory cpu)) cpu in
  set_memory (mem_set (u16 (addr + 1)) (val ≫ 8) (z_memory cpu)) cpu.

Definition z80_fetch8 (cpu : z80_state_t) : Z * z80_state_t :=
  (z_memory cpu (z_pc cpu), set_pc (z_pc cpu + 1) cpu).

Definition z80_fetch16 (cpu : z80_state_t) : Z * z80_state_t :=
  let '(lo, cpu) := z80_fetch8 cpu in
  let '(hi, cpu) := z80_fetch8 cpu in
  (u16 ((hi ≪ 8) .| lo), cpu).

Definition z80_push16 (val : Z) (cpu : z80_state_t) : z80_state_t :=
  let cpu := set_sp (z_sp cpu - 1) cpu in
  let cpu := set_memory (mem_set (z_sp cpu) (val ≫ 8) (z_memory cpu)) cpu in
  let cpu := set_sp (z_sp cpu - 1) cpu in
  set_memory (mem_set (z_sp cpu) (val .& 0xFF) (z_memory cpu)) cpu.

Definition z80_pop16 (cpu : z80_state_t) : Z * z80_state_t :=
  let val := z80_read16 cpu (z_sp cpu) in
  (val, set_sp (z_sp cpu + 2) cpu).

(** ** Register decode *)

Definition z80_read_r8 (cpu : z80_state_t) (code : Z) : Z :=
  match code with
  | 0 => z_b cpu
  | 1 => z_c cpu
  | 2 => z_d cpu
  | 3 => z_e cpu
  | 4 => z_h cpu
  | 5 => z_l cpu
  | 6 => z80_read8 cpu (z80_hl cpu)
  | 7 => z_a cpu
  | _ => 0
  end.

Definition z80_write_r8 (code val : Z) (cpu : z80_state_t) : z80_state_t :=
  match code with
  | 0 => set_b val cpu
  | 1 => set_c val cpu
  | 2 => set_d val cpu
  | 3 => set_e val cpu
  | 4 => set_h val cpu
  | 5 => set_l val cpu
  | 6 => z80_write8 (z80_hl cpu) val cpu
  | 7 => set_a val cpu
  | _ => cpu
  end.

Definition z80_read_rr (cpu : z80_state_t) (pp : Z) : Z :=
  match pp with
  | 0 => z80_bc cpu
  | 1 => z80_de cpu
  | 2 => z80_hl cpu
  | 3 => z_sp cpu
  | _ => 0
  end.

Definition z80_write_rr (pp val : Z) (cpu : z80_state_t) : z80_state_t :=
  match pp with
  | 0 => z80_set_bc val cpu
  | 1 => z80_set_de val cpu
  | 2 => z80_set_hl val cpu
  | 3 => set_sp val cpu
  | _ => cpu
  end.

Definition z80_condition (cpu : z80_state_t) (cc : Z) : bool :=
  match cc with
  | 0 => negb (bset (z_f cpu) FLAG_Z)
  | 1 => bset (z_f cpu) FLAG_Z
  | 2 => negb (bset (z_f cpu) FLAG_C)
  | 3 => bset (z_f cpu) FLAG_C
  | 4 => negb (bset (z_f cpu) FLAG_PV)
  | 5 => bset (z_f cpu) FLAG_PV
  | 6 => negb (bset (z_f cpu) FLAG_S)
  | 7 => bset (z_f cpu) FLAG_S
  | _ => false
  end.

Definition z80_read_qq (cpu : z80_state_t) (qq : Z) : Z :=
  match qq with
  | 0 => z80_bc cpu
  | 1 => z80_de cpu
  | 2 => z80_hl cpu
  | 3 => z80_af cpu
  | _ => 0
  end.

Definition z80_write_qq (qq val : Z) (cpu : z80_state_t) : z80_state_t :=
  match qq with
  | 0 => z80_set_bc val cpu
  | 1 => z80_set_de val cpu
  | 2 => z80_set_hl val cpu
  | 3 => z80_set_af val cpu
  | _ => cpu
  end.

(** ** The operations table *)

(** [memset(cpu, 0, sizeof *cpu)] *)
Definition z80_zero : z80_state_t :=
  Z80 0 0 0 0 0 0 0 0 0 0 0 0 0 0 0 0 0 0 0 0 0 0 0 0 0 0 0 0 0 (λ _, 0) 0 false None.

Definition ecpu_z80_init (memory : Z → Z) (mem_size : Z) : z80_state_t :=
  set_mem_size mem_size (set_memory memory z80_zero).

Definition ecpu_z80_set_trap_handler (handler : bool) (ctx : option C) (cpu : z80_state_t) : z80_state_t :=
  set_trap_ctx ctx (set_trap_handler handler cpu).

Definition ecpu_z80_get_reg (cpu : z80_state_t) (reg_id : Z) : Z :=
  if reg_id =? Z80_REG_A then z_a cpu
  else if reg_id =? Z80_REG_F then z_f cpu
  else if reg_id =? Z80_REG_B then z_b cpu
  else if reg_id =? Z80_REG_C then z_c cpu
  else if reg_id =? Z80_REG_D then z_d cpu
  else if reg_id =? Z80_REG_E then z_e cpu
  else if reg_id =? Z80_REG_H then z_h cpu
  else if reg_id =? Z80_REG_L then z_l cpu
  else if reg_id =? Z80_REG_AF then z80_af cpu
  else if reg_id =? Z80_REG_BC then z80_bc cpu
  else if reg_id =? Z80_REG_DE then z80_de cpu
  else if reg_id =? Z80_REG_HL then z80_hl cpu
  else if reg_id =? Z80_REG_IX then z_ix cpu
  else if reg_id =? Z80_REG_IY then z_iy cpu
  else if reg_id =? Z80_REG_SP then z_sp cpu
  else if reg_id =? Z80_REG_PC then z_pc cpu
  else if reg_id =? Z80_REG_I then z_i cpu
  else if reg_id =? Z80_REG_R then z_r cpu
  else if reg_id =? Z80_REG_AF2 then u16 (z_a2 cpu ≪ 8) .| z_f2 cpu
  else if reg_id =? Z80_REG_BC2 then u16 (z_b2 cpu ≪ 8) .| z_c2 cpu
  else if reg_id =? Z80_REG_DE2 then u16 (z_d2 cpu ≪ 8) .| z_e2 cpu
  else if reg_id =? Z80_REG_HL2 then u16 (z_h2 cpu ≪ 8) .| z_l2 cpu
  else if reg_id =? Z80_REG_IFF1 then z_iff1 cpu
  else if reg_id =? Z80_REG_IFF2 then z_iff2 cpu
  else if reg_id =? Z80_REG_IM then z_im cpu
  else if reg_id =? Z80_REG_WZ then z_wz cpu
  else 0.

(** [val] is a [uint32_t]; the pair setters take a [uint16_t]. *)
Definition ecpu_z80_set_reg (reg_id val : Z) (cpu : z80_state_t) : z80_state_t :=
  if reg_id =? Z80_REG_A then set_a val cpu
  else if reg_id =? Z80_REG_F then set_f val cpu
  else if reg_id =? Z80_REG_B then set_b val cpu
  else if reg_id =? Z80_REG_C then set_c val cpu
  else if reg_id =? Z80_REG_D then set_d val cpu
  else if reg_id =? Z80_REG_E then set_e val cpu
  else if reg_id =? Z80_REG_H then set_h val cpu
  else if reg_id =? Z80_REG_L then set_l val cpu
  else if reg_id =? Z80_REG_AF then z80_set_af (u16 val) cpu
  else if reg_id =? Z80_REG_BC then z80_set_bc (u16 val) cpu
  else if reg_id =? Z80_REG_DE then z80_set_de (u16 val) cpu
  else if reg_id =? Z80_REG_HL then z80_set_hl (u16 val) cpu
  else if reg_id =? Z80_REG_IX then set_ix val cpu
  else if reg_id =? Z80_REG_IY then set_iy val cpu
  else if reg_id =? Z80_REG_SP then set_sp val cpu
  else if reg_id =? Z80_REG_PC then set_pc val cpu
  else if reg_id =? Z80_REG_I then set_i val cpu
  else if reg_id =? Z80_REG_R then set_r val cpu
  else if reg_id =? Z80_REG_AF2 then set_f2 (val .& 0xFF) (set_a2 (val ≫ 8) cpu)
  else if reg_id =? Z80_REG_BC2 then set_c2 (val .& 0xFF) (set_b2 (val ≫ 8) cpu)
  else if reg_id =? Z80_REG_DE2 then set_e2 (val .& 0xFF) (set_d2 (val ≫ 8) cpu)
  else if reg_id =? Z80_REG_HL2 then set_l2 (val .& 0xFF) (set_h2 (val ≫ 8) cpu)
  else if reg_id =? Z80_REG_IFF1 then set_iff1 val cpu
  else if reg_id =? Z80_REG_IFF2 then set_iff2 val cpu
  else if reg_id =? Z80_REG_IM then set_im val cpu
  else if reg_id =? Z80_REG_WZ then set_wz val cpu
  else cpu.

(** The offset into [memory], None for NULL; the sum is a [uint32_t]. *)
Definition ecpu_z80_translate_ptr (cpu : z80_state_t) (guest_addr size : Z) : option Z :=
  if z_mem_size cpu <? u32 (guest_addr + size) then None else Some guest_addr.

Definition ecpu_z80_read8_op (cpu : z80_state_t) (addr : Z) : Z := z_memory cpu (u16 addr).
Definition ecpu_z80_write8_op (addr val : Z) (cpu : z80_state_t) : z80_state_t :=
  set_memory (mem_set (u16 addr) val (z_memory cpu)) cpu.
Definition ecpu_z80_read16_op (cpu : z80_state_t) (addr : Z) : Z := z80_read16 cpu (u16 addr).
Definition ecpu_z80_write16_op (addr val : Z) (cpu : z80_state_t) : z80_state_t :=
  z80_write16 (u16 addr) val cpu.
Definition ecpu_z80_read32_op (cpu : z80_state_t) (addr : Z) : Z :=
  z80_read16 cpu (u16 addr) .| u32 (z80_read16 cpu (u16 (addr + 2)) ≪ 16).
Definition ecpu_z80_write32_op (addr val : Z) (cpu : z80_state_t) : z80_state_t :=
  let cpu := z80_write16 (u16 addr) (val .& 0xFFFF) cpu in
  z80_write16 (u16 (addr + 2)) (u16 (val ≫ 16)) cpu.
End State.

Arguments z80_state_t C : clear implicits.
