(* ===== verification/Z80Alu.v ===== *)
(** * Z80Alu: arithmetic of the Z80 core (src/kernel/core/cpu/ecpu_z80_alu.c)

    One definition per function; a function that returns a byte gives it together
    with the state whose flags it set. *)

From S2P Require Import Prelude Z80.
#[local] Open Scope c_scope.

(** [z80_parity_table]: rows of eight, as in the source. *)
Definition row_even : list Z := [4; 0; 0; 4; 0; 4; 4; 0].
Definition row_odd : list Z := [0; 4; 4; 0; 4; 0; 0; 4].
Definition z80_parity_table : list Z :=
  row_even ++ row_odd ++ row_odd ++ row_even ++ row_odd ++ row_even ++ row_even ++ row_odd ++
  row_odd ++ row_even ++ row_even ++ row_odd ++ row_even ++ row_odd ++ row_odd ++ row_even ++
  row_odd ++ row_even ++ row_even ++ row_odd ++ row_even ++ row_odd ++ row_odd ++ row_even ++
  row_even ++ row_odd ++ row_odd ++ row_even ++ row_odd ++ row_even ++ row_even ++ row_odd.

Definition parity_table (v : Z) : Z := z80_parity_table !!! Z.to_nat v.

Section Alu.
Context {C : Type}.
#[local] Abbreviation state := (z80_state_t C).

(** ** 8-bit operations on the accumulator *)

Definition z80_add_a (val : Z) (cpu : state) : state :=
  let result := u16 (z_a cpu + val) in
  let res8 := result .& 0xFF in
  let f := (res8 .& FLAG_35)
    .| flag (res8 =? 0) FLAG_Z
    .| flag (bset res8 0x80) FLAG_S
    .| flag (0xFF <? result) FLAG_C
    .| flag (bset (z_a cpu .^ val .^ res8) 0x10) FLAG_H
    .| flag (bset (Z.lnot (z_a cpu .^ val) .& (z_a cpu .^ res8)) 0x80) FLAG_PV in
  set_a res8 (set_f f cpu).

Definition z80_adc_a (val : Z) (cpu : state) : state :=
  let carry := z_f cpu .& FLAG_C in
  let result := u16 (z_a cpu + val + carry) in
  let res8 := result .& 0xFF in
  let f := (res8 .& FLAG_35)
    .| flag (res8 =? 0) FLAG_Z
    .| flag (bset res8 0x80) FLAG_S
    .| flag (0xFF <? result) FLAG_C
    .| flag (bset (z_a cpu .^ val .^ res8) 0x10) FLAG_H
    .| flag (bset (Z.lnot (z_a cpu .^ val) .& (z_a cpu .^ res8)) 0x80) FLAG_PV in
  set_a res8 (set_f f cpu).

Definition z80_sub_a (val : Z) (cpu : state) : state :=
  let result := u16 (z_a cpu - val) in
  let res8 := result .& 0xFF in
  let f := (res8 .& FLAG_35) .| FLAG_N
    .| flag (res8 =? 0) FLAG_Z
    .| flag (bset res8 0x80) FLAG_S
    .| flag (0xFF <? result) FLAG_C
    .| flag (bset (z_a cpu .^ val .^ res8) 0x10) FLAG_H
    .| flag (bset ((z_a cpu .^ val) .& (z_a cpu .^ res8)) 0x80) FLAG_PV in
  set_a res8 (set_f f cpu).

Definition z80_sbc_a (val : Z) (cpu : state) : state :=
  let carry := z_f cpu .& FLAG_C in
  let result := u16 (z_a cpu - val - carry) in
  let res8 := result .& 0xFF in
  let f := (res8 .& FLAG_35) .| FLAG_N
    .| flag (res8 =? 0) FLAG_Z
    .| flag (bset res8 0x80) FLAG_S
    .| flag (0xFF <? result) FLAG_C
    .| flag (bset (z_a cpu .^ val .^ res8) 0x10) FLAG_H
    .| flag (bset ((z_a cpu .^ val) .& (z_a cpu .^ res8)) 0x80) FLAG_PV in
  set_a res8 (set_f f cpu).

Definition z80_and_a (val : Z) (cpu : state) : state :=
  let cpu := set_a (z_a cpu .& val) cpu in
  set_f ((z_a cpu .& FLAG_35) .| FLAG_H
    .| flag (z_a cpu =? 0) FLAG_Z
    .| flag (bset (z_a cpu) 0x80) FLAG_S
    .| parity_table (z_a cpu)) cpu.

Definition z80_xor_a (val : Z) (cpu : state) : state :=
  let cpu := set_a (z_a cpu .^ val) cpu in
  set_f ((z_a cpu .& FLAG_35)
    .| flag (z_a cpu =? 0) FLAG_Z
    .| flag (bset (z_a cpu) 0x80) FLAG_S
    .| parity_table (z_a cpu)) cpu.

Definition z80_or_a (val : Z) (cpu : state) : state :=
  let cpu := set_a (z_a cpu .| val) cpu in
  set_f ((z_a cpu .& FLAG_35)
    .| flag (z_a cpu =? 0) FLAG_Z
    .| flag (bset (z_a cpu) 0x80) FLAG_S
    .| parity_table (z_a cpu)) cpu.

Definition z80_cp_a (val : Z) (cpu : state) : state :=
  let result := u16 (z_a cpu - val) in
  let res8 := result .& 0xFF in
  let f := (val .& FLAG_35) .| FLAG_N
    .| flag (res8 =? 0) FLAG_Z
    .| flag (bset res8 0x80) FLAG_S
    .| flag (0xFF <? result) FLAG_C
    .| flag (bset (z_a cpu .^ val .^ res8) 0x10) FLAG_H
    .| flag (bset ((z_a cpu .^ val) .& (z_a cpu .^ res8)) 0x80) FLAG_PV in
  set_f f cpu.

Definition z80_alu_op (op val : Z) (cpu : state) : state :=
  match op with
  | 0 => z80_add_a val cpu
  | 1 => z80_adc_a val cpu
  | 2 => z80_sub_a val cpu
  | 3 => z80_sbc_a val cpu
  | 4 => z80_and_a val cpu
  | 5 => z80_xor_a val cpu
  | 6 => z80_or_a val cpu
  | 7 => z80_cp_a val cpu
  | _ => cpu
  end.

(** ** Increments *)

Definition z80_inc8 (val : Z) (cpu : state) : Z * state :=
  let res := u8 (val + 1) in
  (res, set_f ((z_f cpu .& FLAG_C)
    .| (res .& FLAG_35)
    .| flag (res =? 0) FLAG_Z .| (res .& 0x80)
    .| flag (val .& 0x0F =? 0x0F) FLAG_H
    .| flag (val =? 0x7F) FLAG_PV) cpu).

Definition z80_dec8 (val : Z) (cpu : state) : Z * state :=
  let res := u8 (val - 1) in
  (res, set_f ((z_f cpu .& FLAG_C)
    .| (res .& FLAG_35)
    .| FLAG_N .| flag (res =? 0) FLAG_Z .| (res .& 0x80)
    .| flag (val .& 0x0F =? 0x00) FLAG_H
    .| flag (val =? 0x80) FLAG_PV) cpu).

(** ** 16-bit addition *)

Definition z80_add_hl (val : Z) (cpu : state) : state :=
  let hl := z80_hl cpu in
  let result := u32 (hl + val) in
  let res16 := result .& 0xFFFF in
  let cpu := set_f ((z_f cpu .& (FLAG_S .| FLAG_Z .| FLAG_PV))
    .| ((res16 ≫ 8) .& FLAG_35)
    .| flag (0xFFFF <? result) FLAG_C
    .| flag (bset ((hl .^ val .^ res16) ≫ 8) 0x10) FLAG_H) cpu in
  set_wz (hl + 1) (z80_set_hl res16 cpu).

Definition z80_adc_hl (val : Z) (cpu : state) : state :=
  let hl := z80_hl cpu in
  let carry := z_f cpu .& FLAG_C in
  let result := u32 (hl + val + carry) in
  let res16 := result .& 0xFFFF in
  let cpu := set_f (((res16 ≫ 8) .& (FLAG_S .| FLAG_35)) .| flag (res16 =? 0) FLAG_Z
    .| flag (0xFFFF <? result) FLAG_C
    .| flag (bset ((hl .^ val .^ res16) ≫ 8) 0x10) FLAG_H
    .| flag (bset ((Z.lnot (hl .^ val) .& (hl .^ res16)) ≫ 8) 0x80) FLAG_PV) cpu in
  set_wz (hl + 1) (z80_set_hl res16 cpu).

Definition z80_sbc_hl (val : Z) (cpu : state) : state :=
  let hl := z80_hl cpu in
  let carry := z_f cpu .& FLAG_C in
  let result := u32 (hl - val - carry) in
  let res16 := result .& 0xFFFF in
  let cpu := set_f (((res16 ≫ 8) .& (FLAG_S .| FLAG_35)) .| FLAG_N
    .| flag (res16 =? 0) FLAG_Z .| flag (0xFFFF <? result) FLAG_C
    .| flag (bset ((hl .^ val .^ res16) ≫ 8) 0x10) FLAG_H
    .| flag (bset (((hl .^ val) .& (hl .^ res16)) ≫ 8) 0x80) FLAG_PV) cpu in
  set_wz (hl + 1) (z80_set_hl res16 cpu).

(** ** Rotations of the accumulator *)

Definition z80_rlca (cpu : state) : state :=
  let carry := (z_a cpu ≫ 7) .& 1 in
  let cpu := set_a ((z_a cpu ≪ 1) .| carry) cpu in
  set_f ((z_f cpu .& (FLAG_S .| FLAG_Z .| FLAG_PV)) .| (z_a cpu .& FLAG_35) .| carry) cpu.

Definition z80_rrca (cpu : state) : state :=
  let carry := z_a cpu .& 1 in
  let cpu := set_a ((z_a cpu ≫ 1) .| (carry ≪ 7)) cpu in
  set_f ((z_f cpu .& (FLAG_S .| FLAG_Z .| FLAG_PV)) .| (z_a cpu .& FLAG_35) .| carry) cpu.

Definition z80_rla (cpu : state) : state :=
  let old_carry := z_f cpu .& FLAG_C in
  let new_carry := (z_a cpu ≫ 7) .& 1 in
  let cpu := set_a ((z_a cpu ≪ 1) .| old_carry) cpu in
  set_f ((z_f cpu .& (FLAG_S .| FLAG_Z .| FLAG_PV)) .| (z_a cpu .& FLAG_35) .| new_carry) cpu.

Definition z80_rra (cpu : state) : state :=
  let old_carry := z_f cpu .& FLAG_C in
  let new_carry := z_a cpu .& 1 in
  let cpu := set_a ((z_a cpu ≫ 1) .| (old_carry ≪ 7)) cpu in
  set_f ((z_f cpu .& (FLAG_S .| FLAG_Z .| FLAG_PV)) .| (z_a cpu .& FLAG_35) .| new_carry) cpu.

(** ** Decimal adjustment and flags *)

Definition daa_correction (cpu : state) : Z * Z :=
  let a := z_a cpu in
  let carry := z_f cpu .& FLAG_C in
  let correction := 0 .| flag (bset (z_f cpu) FLAG_H || (9 <? a .& 0x0F)) 0x06 in
  if negb (carry =? 0) || (0x99 <? a) then (correction .| 0x60, FLAG_C) else (correction, carry).

Definition z80_daa (cpu : state) : state :=
  let a := z_a cpu in
  let '(correction, carry) := daa_correction cpu in
  let cpu := if bset (z_f cpu) FLAG_N then set_a (z_a cpu - correction) cpu
             else set_a (z_a cpu + correction) cpu in
  let n := bset (z_f cpu) FLAG_N in
  set_f ((z_f cpu .& FLAG_N) .| carry
    .| (z_a cpu .& FLAG_35)
    .| flag (z_a cpu =? 0) FLAG_Z
    .| flag (bset (z_a cpu) 0x80) FLAG_S
    .| parity_table (z_a cpu)
    .| (if n then flag (a .& 0x0F <? correction .& 0x0F) FLAG_H
        else flag (0x0F <? (a .& 0x0F) + (correction .& 0x0F)) FLAG_H)) cpu.

Definition z80_cpl (cpu : state) : state :=
  let cpu := set_a (Z.lnot (z_a cpu)) cpu in
  set_f ((z_f cpu .& (FLAG_S .| FLAG_Z .| FLAG_PV .| FLAG_C))
    .| (z_a cpu .& FLAG_35) .| FLAG_H .| FLAG_N) cpu.

Definition z80_scf (cpu : state) : state :=
  let f35 := (z_a cpu .| z_f cpu) .& FLAG_35 in
  set_f ((z_f cpu .& (FLAG_S .| FLAG_Z .| FLAG_PV)) .| f35 .| FLAG_C) cpu.

Definition z80_ccf (cpu : state) : state :=
  let f35 := (z_a cpu .| z_f cpu) .& FLAG_35 in
  let old_c := z_f cpu .& FLAG_C in
  set_f ((z_f cpu .& (FLAG_S .| FLAG_Z .| FLAG_PV)) .| f35
    .| (if old_c =? 0 then 0 else FLAG_H)
    .| (if old_c =? 0 then FLAG_C else 0)) cpu.

(** ** The index registers *)

(** [uint16_t *idx]: the address of one of the two index registers. *)
Inductive idx_reg := IX | IY.

Definition get_idx (idx : idx_reg) (cpu : state) : Z :=
  match idx with IX => z_ix cpu | IY => z_iy cpu end.
Definition set_idx (idx : idx_reg) (val : Z) (cpu : state) : state :=
  match idx with IX => set_ix val cpu | IY => set_iy val cpu end.

Definition z80_add_ix (idx : idx_reg) (val : Z) (cpu : state) : state :=
  let ix := get_idx idx cpu in
  let result := u32 (ix + val) in
  let res16 := result .& 0xFFFF in
  let cpu := set_f ((z_f cpu .& (FLAG_S .| FLAG_Z .| FLAG_PV))
    .| ((res16 ≫ 8) .& FLAG_35)
    .| flag (0xFFFF <? result) FLAG_C
    .| flag (bset ((ix .^ val .^ res16) ≫ 8) 0x10) FLAG_H) cpu in
  set_wz (ix + 1) (set_idx idx res16 cpu).

(** ** Shifts and rotations of the CB prefix *)

(** The argument [res] is converted to a byte at the call. *)
Definition cb_flags (res carry : Z) (cpu : state) : Z * state :=
  let res := u8 res in
  (res, set_f ((res .& (FLAG_S .| FLAG_35)) .| parity_table res .| flag (res =? 0) FLAG_Z .| carry) cpu).

Definition z80_rlc (val : Z) (cpu : state) : Z * state :=
  let carry := (val ≫ 7) .& 1 in
  cb_flags ((val ≪ 1) .| carry) carry cpu.

Definition z80_rrc (val : Z) (cpu : state) : Z * state :=
  let carry := val .& 1 in
  cb_flags ((val ≫ 1) .| (carry ≪ 7)) carry cpu.

Definition z80_rl (val : Z) (cpu : state) : Z * state :=
  let old_c := z_f cpu .& FLAG_C in
  let carry := (val ≫ 7) .& 1 in
  cb_flags ((val ≪ 1) .| old_c) carry cpu.

Definition z80_rr (val : Z) (cpu : state) : Z * state :=
  let old_c := z_f cpu .& FLAG_C in
  let carry := val .& 1 in
  cb_flags ((val ≫ 1) .| (old_c ≪ 7)) carry cpu.

Definition z80_sla (val : Z) (cpu : state) : Z * state :=
  let carry := (val ≫ 7) .& 1 in
  cb_flags (val ≪ 1) carry cpu.

Definition z80_sra (val : Z) (cpu : state) : Z * state :=
  let carry := val .& 1 in
  cb_flags ((val ≫ 1) .| (val .& 0x80)) carry cpu.

Definition z80_sll (val : Z) (cpu : state) : Z * state :=
  let carry := (val ≫ 7) .& 1 in
  cb_flags ((val ≪ 1) .| 1) carry cpu.

Definition z80_srl (val : Z) (cpu : state) : Z * state :=
  let carry := val .& 1 in
  cb_flags (val ≫ 1) carry cpu.

Definition z80_bit (bit val : Z) (cpu : state) : state :=
  let result := u8 (val .& (1 ≪ bit)) in
  set_f ((z_f cpu .& FLAG_C) .| FLAG_H
    .| (if result =? 0 then FLAG_Z .| FLAG_PV else result .& FLAG_S)
    .| (val .& FLAG_35)) cpu.
End Alu.
