(* ===== verification/Z80AluFacts.v ===== *)
(** * Z80AluFacts: the arithmetic of the Z80 core is right

    Every flag of the additions and subtractions has its architectural meaning,
    DAA makes them decimal, and the CB shifts are described bit by bit. *)

From S2P Require Import Prelude Bits Z80 Z80Alu.
#[local] Open Scope c_scope.

(** ** Reading flags *)

Ltac eval_testbit :=
  repeat match goal with
  | |- context [Z.testbit (Zpos ?p) ?k] =>
      let v := eval vm_compute in (Z.testbit (Zpos p) k) in
      match v with
      | true => change (Z.testbit (Zpos p) k) with true
      | false => change (Z.testbit (Zpos p) k) with false
      end
  end.

(** Turns a flag test into the condition that set it. *)
Ltac flag_bits :=
  unfold FLAG_C, FLAG_N, FLAG_PV, FLAG_H, FLAG_Z, FLAG_S, FLAG_35, FLAG_F3, FLAG_F5;
  rewrite ?bset_1, ?bset_2, ?bset_4, ?bset_8, ?bset_16, ?bset_32, ?bset_64, ?bset_128;
  rewrite ?testbit_u8 by lia;
  repeat first [rewrite Z.lor_spec | rewrite Z.land_spec | rewrite testbit_flag];
  eval_testbit; cbn [andb orb];
  rewrite ?andb_true_r, ?andb_false_r, ?orb_false_r; cbn [andb orb].

Definition byte (x : Z) : Prop := 0 <= x < 256.
Definition word (x : Z) : Prop := 0 <= x < 65536.

Lemma s8_byte x : byte x → s8 x = x - 256 * Z.b2z (Z.testbit x 7).
Proof.
  intros Hx. unfold sN. cbn zeta. rewrite (u8_small x Hx), (testbit_top 7) by (unfold byte in Hx; lia).
  change (2 ^ (8 - 1)) with 128. change (2 ^ 7) with 128. change (2 ^ 8) with 256.
  destruct (Z.ltb_spec x 128), (Z.leb_spec 128 x); cbn [Z.b2z]; lia.
Qed.

(** The mask of the undocumented flags. *)
Lemma mask35_eq f r : Z.testbit f 3 = Z.testbit r 3 → Z.testbit f 5 = Z.testbit r 5 → f .& FLAG_35 = r .& FLAG_35.
Proof.
  intros H3 H5. apply Z.bits_inj'. intros k Hk. rewrite !Z.land_spec. change FLAG_35 with 40.
  destruct (decide (k = 3)) as [->|]; [by rewrite H3|]. destruct (decide (k = 5)) as [->|]; [by rewrite H5|].
  assert (Z.testbit 40 k = false) as ->; [|by rewrite !andb_false_r].
  destruct (Z.lt_ge_cases k 6) as [Hl|Hl].
  - assert (k = 0 ∨ k = 1 ∨ k = 2 ∨ k = 4) as [->|[->|[->| ->]]] by lia; done.
  - apply Z.bits_above_log2; [done|]. change (Z.log2 40) with 5. lia.
Qed.

(** ** Specification of addition and subtraction *)

Section Spec.
Context {C : Type}.
#[local] Abbreviation state := (z80_state_t C).
Implicit Types cpu : state.

(** [r] is the exact result, [sr] the exact result on the signed readings,
    [half] the carry or borrow between the digits, [src] the byte the
    undocumented flags copy. *)
Record alu_result (cpu : state) (r sr : Z) (carry half sub : bool) (src : Z) : Prop := {
  alu_c : bset (z_f cpu) FLAG_C = carry;
  alu_h : bset (z_f cpu) FLAG_H = half;
  alu_n : bset (z_f cpu) FLAG_N = sub;
  alu_z : bset (z_f cpu) FLAG_Z = (u8 r =? 0);
  alu_s : bset (z_f cpu) FLAG_S = (s8 r <? 0);
  alu_pv : bset (z_f cpu) FLAG_PV = ((sr <? -128) || (127 <? sr));
  alu_35 : z_f cpu .& FLAG_35 = src .& FLAG_35
}.

Lemma byte_mod r : byte (u8 r).
Proof. apply u8_range. Qed.

Lemma sign_bit r : Z.testbit r 7 = (s8 r <? 0).
Proof.
  rewrite <- (testbit_u8 r 7) by lia. pose proof (u8_range r) as Hu. rewrite (testbit_top 7) by lia. change (2 ^ 7) with 128.
  unfold sN. cbn zeta. change (2 ^ 8) with 256. change (2 ^ (8 - 1)) with 128.
  destruct (Z.ltb_spec (u8 r) 128), (Z.leb_spec 128 (u8 r)); try lia; symmetry; (apply Z.ltb_lt || apply Z.ltb_ge); lia.
Qed.

(** Signed overflow of an addition, read off the sign bits. *)
Lemma add_overflow a v c : byte a → byte v → 0 <= c <= 1 →
  negb (xorb (Z.testbit a 7) (Z.testbit v 7)) && xorb (Z.testbit a 7) (Z.testbit (a + v + c) 7) =
  ((s8 a + s8 v + c <? -128) || (127 <? s8 a + s8 v + c)).
Proof.
  intros Ha Hv Hc. rewrite <- (testbit_u8 (a + v + c) 7) by lia.
  rewrite (s8_byte a Ha), (s8_byte v Hv), !(testbit_top 7) by (unfold byte in *; lia || apply u8_range).
  change (2 ^ 7) with 128. unfold uN. change (2 ^ 8) with 256. unfold byte in *.
  pose proof (Z.div_mod (a + v + c) 256 ltac:(lia)). pose proof (Z.mod_pos_bound (a + v + c) 256 ltac:(lia)).
  destruct (Z.leb_spec 128 a), (Z.leb_spec 128 v), (Z.leb_spec 128 ((a + v + c) mod 256)); cbn [xorb negb andb Z.b2z];
    symmetry; (apply orb_true_iff || apply orb_false_iff);
    rewrite ?Z.ltb_lt, ?Z.ltb_ge; lia.
Qed.

Lemma sub_overflow a v c : byte a → byte v → 0 <= c <= 1 →
  xorb (Z.testbit a 7) (Z.testbit v 7) && xorb (Z.testbit a 7) (Z.testbit (a - v - c) 7) =
  ((s8 a - s8 v - c <? -128) || (127 <? s8 a - s8 v - c)).
Proof.
  intros Ha Hv Hc. rewrite <- (testbit_u8 (a - v - c) 7) by lia.
  rewrite (s8_byte a Ha), (s8_byte v Hv), !(testbit_top 7) by (unfold byte in *; lia || apply u8_range).
  change (2 ^ 7) with 128. unfold uN. change (2 ^ 8) with 256. unfold byte in *.
  pose proof (Z.div_mod (a - v - c) 256 ltac:(lia)). pose proof (Z.mod_pos_bound (a - v - c) 256 ltac:(lia)).
  destruct (Z.leb_spec 128 a), (Z.leb_spec 128 v), (Z.leb_spec 128 ((a - v - c) mod 256)); cbn [xorb negb andb Z.b2z];
    symmetry; (apply orb_true_iff || apply orb_false_iff);
    rewrite ?Z.ltb_lt, ?Z.ltb_ge; lia.
Qed.

(** The half carry. *)
Lemma half_add a v c : 0 <= c <= 1 →
  xorb (xorb (Z.testbit a 4) (Z.testbit v 4)) (Z.testbit (a + v + c) 4) = (16 <=? a mod 16 + v mod 16 + c).
Proof. intros Hc. rewrite <- !Z.lxor_spec. by rewrite (carry_bit a v c 4) by lia. Qed.
Lemma half_sub a v c : 0 <= c <= 1 →
  xorb (xorb (Z.testbit a 4) (Z.testbit v 4)) (Z.testbit (a - v - c) 4) = (a mod 16 <? v mod 16 + c).
Proof. intros Hc. rewrite <- !Z.lxor_spec. by rewrite (borrow_bit a v c 4) by lia. Qed.

(** The carry out of an unsigned subtraction in 16 bits. *)
Lemma borrow_u16 d : -256 <= d < 256 → (0xFF <? u16 d) = (d <? 0).
Proof.
  intros Hd. unfold uN. change (2 ^ 16) with 65536.
  destruct (Z.ltb_spec d 0).
  - rewrite <- (Z.mod_add d 1) by lia. rewrite Z.mod_small by lia. apply Z.ltb_lt. lia.
  - rewrite Z.mod_small by lia. apply Z.ltb_ge. lia.
Qed.

Lemma xor_bit k x y z : Z.testbit (x .^ y .^ z) k = xorb (xorb (Z.testbit x k) (Z.testbit y k)) (Z.testbit z k).
Proof. by rewrite !Z.lxor_spec. Qed.
Lemma alu_add cpu cpu' v c : byte (z_a cpu) → byte v → 0 <= c <= 1 →
  (let result := u16 (z_a cpu + v + c) in
   let res8 := result .& 0xFF in
   z_f cpu' = u8 ((res8 .& FLAG_35)
     .| flag (res8 =? 0) FLAG_Z
     .| flag (bset res8 0x80) FLAG_S
     .| flag (0xFF <? result) FLAG_C
     .| flag (bset (z_a cpu .^ v .^ res8) 0x10) FLAG_H
     .| flag (bset (Z.lnot (z_a cpu .^ v) .& (z_a cpu .^ res8)) 0x80) FLAG_PV)) →
  alu_result cpu' (z_a cpu + v + c) (s8 (z_a cpu) + s8 v + c) (255 <? z_a cpu + v + c)
    (16 <=? z_a cpu mod 16 + v mod 16 + c) false (u8 (z_a cpu + v + c)).
Proof.
  intros Ha Hv Hc. cbn zeta. rewrite land_ff, u8_u16, u16_small by (unfold byte in *; lia). intros Hf.
  split; rewrite ?Hf.
  - by flag_bits.
  - flag_bits. rewrite xor_bit, testbit_u8 by lia. by apply half_add.
  - by flag_bits.
  - by flag_bits.
  - flag_bits. apply sign_bit.
  - flag_bits. rewrite Z.lnot_spec, !Z.lxor_spec, testbit_u8 by lia. by apply add_overflow.
  - apply mask35_eq; flag_bits; by rewrite ?testbit_u8 by lia.
Qed.

Lemma alu_sub cpu cpu' v c src : byte (z_a cpu) → byte v → 0 <= c <= 1 →
  (let result := u16 (z_a cpu - v - c) in
   let res8 := result .& 0xFF in
   z_f cpu' = u8 ((src .& FLAG_35) .| FLAG_N
     .| flag (res8 =? 0) FLAG_Z
     .| flag (bset res8 0x80) FLAG_S
     .| flag (0xFF <? result) FLAG_C
     .| flag (bset (z_a cpu .^ v .^ res8) 0x10) FLAG_H
     .| flag (bset ((z_a cpu .^ v) .& (z_a cpu .^ res8)) 0x80) FLAG_PV)) →
  alu_result cpu' (z_a cpu - v - c) (s8 (z_a cpu) - s8 v - c) (z_a cpu <? v + c)
    (z_a cpu mod 16 <? v mod 16 + c) true src.
Proof.
  intros Ha Hv Hc. cbn zeta. rewrite land_ff, u8_u16, borrow_u16 by (unfold byte in *; lia). intros Hf.
  split; rewrite ?Hf.
  - flag_bits. destruct (Z.ltb_spec (z_a cpu) (v + c)); (apply Z.ltb_lt || apply Z.ltb_ge); lia.
  - flag_bits. rewrite xor_bit, testbit_u8 by lia. by apply half_sub.
  - by flag_bits.
  - by flag_bits.
  - flag_bits. apply sign_bit.
  - flag_bits. rewrite !Z.lxor_spec, testbit_u8 by lia. by apply sub_overflow.
  - apply mask35_eq; flag_bits; by rewrite ?testbit_u8 by lia.
Qed.

Lemma carry_flag cpu : z_f cpu .& FLAG_C = Z.b2z (bset (z_f cpu) FLAG_C).
Proof. unfold FLAG_C. by rewrite land_1, bset_1. Qed.
End Spec.

(** ** Decimal adjustment *)

Section Daa.
Context {C : Type}.
#[local] Abbreviation state := (z80_state_t C).
Implicit Types cpu : state.

Definition daa_low cpu : Z := flag (bset (z_f cpu) FLAG_H || (9 <? z_a cpu mod 16)) 0x06.
Definition daa_high cpu : bool := bset (z_f cpu) FLAG_C || (0x99 <? z_a cpu).

Lemma daa_correction_eq cpu :
  daa_correction cpu = (daa_low cpu + flag (daa_high cpu) 0x60, Z.b2z (daa_high cpu)).
Proof.
  unfold daa_correction, daa_low, daa_high. rewrite land_0f, carry_flag.
  destruct (bset (z_f cpu) FLAG_H || _), (bset (z_f cpu) FLAG_C), (0x99 <? z_a cpu); reflexivity.
Qed.

Lemma parity_bit0 v : byte v → Z.testbit (parity_table v) 0 = false.
Proof.
  intros Hv. unfold parity_table. destruct (lookup_lt_is_Some_2 z80_parity_table (Z.to_nat v)) as [x E].
  { change (length z80_parity_table) with 256%nat. unfold byte in Hv. lia. }
  rewrite (list_lookup_total_correct _ _ _ E). apply list_elem_of_lookup_2 in E.
  assert (x = 0 ∨ x = 4) as [->| ->]; [|done|done]. revert x E. apply Forall_forall.
  assert (Forall (λ x, x = 0 ∨ x = 4) row_even) by (repeat constructor; auto).
  assert (Forall (λ x, x = 0 ∨ x = 4) row_odd) by (repeat constructor; auto).
  unfold z80_parity_table. rewrite !Forall_app. tauto.
Qed.

Lemma z80_daa_spec cpu : let cpu' := z80_daa cpu in
  let corr := daa_low cpu + flag (daa_high cpu) 0x60 in
  z_a cpu' = u8 (if bset (z_f cpu) FLAG_N then z_a cpu - corr else z_a cpu + corr) ∧
  bset (z_f cpu') FLAG_C = daa_high cpu.
Proof.
  unfold z80_daa. rewrite daa_correction_eq. cbn zeta. split.
  { by destruct (bset (z_f cpu) FLAG_N). }
  set (cpu1 := if bset (z_f cpu) FLAG_N then _ else _).
  change (z_f (set_f ?x ?c)) with (u8 x).
  flag_bits. rewrite parity_bit0 by (subst cpu1; case_match; apply u8_range).
  cbn [orb]. rewrite ?orb_false_r.
  destruct (Z.testbit (z_f cpu1) 1); rewrite testbit_flag, andb_false_r; by destruct (daa_high cpu).
Qed.

(** The sum or difference of two decimal bytes has the form [16 * hi + lo], with
    the carry [k] of the low and [g] of the high digits still to be corrected;
    the adjustment is checked on these forms. *)
Definition digits : list Z := [0; 1; 2; 3; 4; 5; 6; 7; 8; 9].

Definition adjusts (neg : bool) (r : Z) (half : bool) (v : Z) (carry : bool) : bool :=
  let a := u8 r in
  let high := (if neg then r <? 0 else 255 <? r) || (0x99 <? a) in
  let corr := flag (half || (9 <? a mod 16)) 6 + flag high 0x60 in
  (u8 (if neg then a - corr else a + corr) =? v) && eqb high carry.

Lemma forallb_digits (P : Z → bool) d : forallb P digits = true → 0 <= d < 10 → P d = true.
Proof.
  intros HP Hd. apply (proj1 (forallb_forall _ _) HP). cbn.
  assert (d = 0 ∨ d = 1 ∨ d = 2 ∨ d = 3 ∨ d = 4 ∨ d = 5 ∨ d = 6 ∨ d = 7 ∨ d = 8 ∨ d = 9) by lia. intuition.
Qed.

Lemma adjust_sum (k g : bool) hi lo : 0 <= hi < 10 → 0 <= lo < 10 → (k = true → g = false → hi ≠ 0) →
  adjusts false (160 * Z.b2z g + 16 * hi - 6 * Z.b2z k + lo) (16 <=? 10 * Z.b2z k + lo) (16 * hi + lo) g = true.
Proof.
  intros Hhi Hlo Hx.
  assert (forallb (λ hi, forallb (λ lo, (k && negb g && (hi =? 0)) ||
    adjusts false (160 * Z.b2z g + 16 * hi - 6 * Z.b2z k + lo) (16 <=? 10 * Z.b2z k + lo) (16 * hi + lo) g)
    digits) digits = true) as Hall by (destruct k, g; vm_compute; reflexivity).
  apply (forallb_digits _ hi) in Hall; [|done]. apply (forallb_digits _ lo) in Hall; [|done].
  apply orb_true_iff in Hall as [Hall|]; [|done]. destruct k, g; try done. cbn in Hall. apply Z.eqb_eq in Hall.
  by destruct Hx.
Qed.

Lemma adjust_difference (k g : bool) hi lo : 0 <= hi < 10 → 0 <= lo < 10 → (k = true → g = false → hi ≠ 9) →
  adjusts true (16 * hi - 160 * Z.b2z g + lo + 6 * Z.b2z k) k (16 * hi + lo) g = true.
Proof.
  intros Hhi Hlo Hx.
  assert (forallb (λ hi, forallb (λ lo, (k && negb g && (hi =? 9)) ||
    adjusts true (16 * hi - 160 * Z.b2z g + lo + 6 * Z.b2z k) k (16 * hi + lo) g)
    digits) digits = true) as Hall by (destruct k, g; vm_compute; reflexivity).
  apply (forallb_digits _ hi) in Hall; [|done]. apply (forallb_digits _ lo) in Hall; [|done].
  apply orb_true_iff in Hall as [Hall|]; [|done]. destruct k, g; try done. cbn in Hall. apply Z.eqb_eq in Hall.
  by destruct Hx.
Qed.

(** The digits of a two-digit number and its decimal byte. *)
Lemma bcd_split x : 0 <= x < 100 → ∃ h l, x = 10 * h + l ∧ 0 <= h < 10 ∧ 0 <= l < 10 ∧
  bcd x = 16 * h + l ∧ bcd x mod 16 = l.
Proof.
  intros Hx. exists (x / 10), (x mod 10). destruct (bcd_digits x Hx) as (_ & Hm & _).
  pose proof (Z.div_mod x 10). pose proof (Z.mod_pos_bound x 10).
  pose proof (Z.div_lt_upper_bound x 10 10). pose proof (Z.div_pos x 10).
  split_and!; try done; lia.
Qed.

Lemma bcd_join h l g : 0 <= h < 10 → 0 <= l < 10 → bcd ((100 * g + (10 * h + l)) mod 100) = 16 * h + l.
Proof.
  intros Hh Hl. replace ((100 * g + (10 * h + l)) mod 100) with (10 * h + l)
    by (apply Z.mod_unique with g; lia).
  unfold bcd. replace ((10 * h + l) / 10) with h by (apply Z.div_unique with l; lia).
  f_equal. symmetry. apply Z.mod_unique with h; lia.
Qed.

(** A digit with its carry. *)
Lemma digit_carry z : 0 <= z < 20 → ∃ (k : bool) d, z = 10 * Z.b2z k + d ∧ 0 <= d < 10.
Proof.
  intros Hz. destruct (Z.lt_ge_cases z 10); [exists false, z|exists true, (z - 10)]; cbn; lia.
Qed.
Lemma digit_borrow z : -10 <= z < 10 → ∃ (k : bool) d, z = d - 10 * Z.b2z k ∧ 0 <= d < 10.
Proof.
  intros Hz. destruct (Z.lt_ge_cases z 0); [exists true, (z + 10)|exists false, z]; cbn; lia.
Qed.

Lemma daa_add_digits x y c : 0 <= x < 100 → 0 <= y < 100 → 0 <= c <= 1 →
  adjusts false (bcd x + bcd y + c) (16 <=? bcd x mod 16 + bcd y mod 16 + c)
    (bcd ((x + y + c) mod 100)) (100 <=? x + y + c) = true.
Proof.
  intros Hx Hy Hc.
  destruct (bcd_split x Hx) as (hx & lx & Ex & ? & ? & -> & ->), (bcd_split y Hy) as (hy & ly & Ey & ? & ? & -> & ->).
  destruct (digit_carry (lx + ly + c)) as (k & lo & El & Hlo); [lia|].
  destruct (digit_carry (hx + hy + Z.b2z k)) as (g & hi & Eh & Hhi); [destruct k; cbn in *; lia|].
  replace (x + y + c) with (100 * Z.b2z g + (10 * hi + lo)) by lia. rewrite bcd_join by done.
  replace (16 * hx + lx + (16 * hy + ly) + c) with (160 * Z.b2z g + 16 * hi - 6 * Z.b2z k + lo) by lia.
  rewrite El. replace (100 <=? _) with g by (destruct g; cbn [Z.b2z]; symmetry; (apply Z.leb_le || apply Z.leb_gt); lia).
  apply adjust_sum; [done|done|]. intros -> ->. cbn in *. lia.
Qed.

Lemma daa_sub_digits x y c : 0 <= x < 100 → 0 <= y < 100 → 0 <= c <= 1 →
  adjusts true (bcd x - bcd y - c) (bcd x mod 16 <? bcd y mod 16 + c)
    (bcd ((x - y - c) mod 100)) (x <? y + c) = true.
Proof.
  intros Hx Hy Hc.
  destruct (bcd_split x Hx) as (hx & lx & Ex & ? & ? & -> & ->), (bcd_split y Hy) as (hy & ly & Ey & ? & ? & -> & ->).
  destruct (digit_borrow (lx - ly - c)) as (k & lo & El & Hlo); [lia|].
  destruct (digit_borrow (hx - hy - Z.b2z k)) as (g & hi & Eh & Hhi); [destruct k; cbn in *; lia|].
  replace (x - y - c) with (100 * (- Z.b2z g) + (10 * hi + lo)) by lia. rewrite bcd_join by done.
  replace (16 * hx + lx - (16 * hy + ly) - c) with (16 * hi - 160 * Z.b2z g + lo + 6 * Z.b2z k) by lia.
  replace (lx <? ly + c) with k by (destruct k; cbn [Z.b2z] in *; symmetry; (apply Z.ltb_lt || apply Z.ltb_ge); lia).
  replace (x <? y + c) with g by (destruct g; cbn [Z.b2z] in *; symmetry; (apply Z.ltb_lt || apply Z.ltb_ge); lia).
  apply adjust_difference; [done|done|]. intros -> ->. cbn in *. lia.
Qed.
End Daa.

(** ** Properties *)

(** A state for witnesses: A = 0x29, carry set. *)
Definition demo_cpu : z80_state_t unit := set_f FLAG_C (set_a 0x29 (ecpu_z80_init (λ _, 0) 65536)).

(** [cpu'] holds the sum, the difference or the comparison of [a] and [v] with
    the incoming carry [c]. *)
Definition adds {C} (a v c : Z) (cpu' : z80_state_t C) : Prop :=
  z_a cpu' = u8 (a + v + c) ∧
  alu_result cpu' (a + v + c) (s8 a + s8 v + c) (255 <? a + v + c) (16 <=? a mod 16 + v mod 16 + c)
    false (u8 (a + v + c)).
Definition subtracts {C} (a v c : Z) (cpu' : z80_state_t C) : Prop :=
  z_a cpu' = u8 (a - v - c) ∧
  alu_result cpu' (a - v - c) (s8 a - s8 v - c) (a <? v + c) (a mod 16 <? v mod 16 + c)
    true (u8 (a - v - c)).
Definition compares {C} (a v : Z) (cpu' : z80_state_t C) : Prop :=
  z_a cpu' = a ∧ alu_result cpu' (a - v - 0) (s8 a - s8 v - 0) (a <? v + 0) (a mod 16 <? v mod 16 + 0) true v.

Lemma carry_range {C} (cpu : z80_state_t C) : 0 <= Z.b2z (bset (z_f cpu) FLAG_C) <= 1.
Proof. destruct (bset _ _); cbn; lia. Qed.

Lemma add_a_adds {C} (cpu : z80_state_t C) v : byte (z_a cpu) → byte v → adds (z_a cpu) v 0 (z80_add_a v cpu).
Proof.
  intros Ha Hv. split.
  - rewrite Z.add_0_r. change (z_a (z80_add_a v cpu)) with (u8 (u16 (z_a cpu + v) .& 0xFF)).
    by rewrite land_ff, u8_u16, uN_idem.
  - apply alu_add; [done|done|lia|]. by rewrite Z.add_0_r.
Qed.

Lemma adc_a_adds {C} (cpu : z80_state_t C) v : byte (z_a cpu) → byte v →
  adds (z_a cpu) v (Z.b2z (bset (z_f cpu) FLAG_C)) (z80_adc_a v cpu).
Proof.
  intros Ha Hv. unfold z80_adc_a. rewrite carry_flag. pose proof (carry_range cpu). split.
  - cbn [z_a set_a set_f]. by rewrite land_ff, u8_u16, uN_idem.
  - by apply alu_add.
Qed.

Lemma sub_a_subtracts {C} (cpu : z80_state_t C) v : byte (z_a cpu) → byte v →
  subtracts (z_a cpu) v 0 (z80_sub_a v cpu).
Proof.
  intros Ha Hv. split.
  - rewrite Z.sub_0_r. change (z_a (z80_sub_a v cpu)) with (u8 (u16 (z_a cpu - v) .& 0xFF)).
    by rewrite land_ff, u8_u16, uN_idem.
  - apply alu_sub; [done|done|lia|]. rewrite Z.sub_0_r, <- (u8_u16 (_ - v)), <- land_ff. reflexivity.
Qed.

Lemma sbc_a_subtracts {C} (cpu : z80_state_t C) v : byte (z_a cpu) → byte v →
  subtracts (z_a cpu) v (Z.b2z (bset (z_f cpu) FLAG_C)) (z80_sbc_a v cpu).
Proof.
  intros Ha Hv. unfold z80_sbc_a. rewrite carry_flag. pose proof (carry_range cpu). split.
  - cbn [z_a set_a set_f]. by rewrite land_ff, u8_u16, uN_idem.
  - apply alu_sub; [done|done|done|]. rewrite <- (u8_u16 (_ - _)), <- land_ff. reflexivity.
Qed.

Lemma cp_a_compares {C} (cpu : z80_state_t C) v : byte (z_a cpu) → byte v → compares (z_a cpu) v (z80_cp_a v cpu).
Proof.
  intros Ha Hv. split; [done|]. apply alu_sub; [done|done|lia|]. by rewrite Z.sub_0_r.
Qed.

(** C8. Additions, subtractions and comparisons leave the exact result modulo
    256 in A and give every flag its architectural meaning: carry and borrow out
    of the byte, half carry and borrow out of the low digit, overflow of the
    signed result, zero, sign, the operation, and the two undocumented copies,
    which a comparison takes from its operand. *)
Theorem z80_arithmetic_correct {C : Type} (cpu : z80_state_t C) v : byte (z_a cpu) → byte v →
  let c := Z.b2z (bset (z_f cpu) FLAG_C) in
  adds (z_a cpu) v 0 (z80_alu_op 0 v cpu) ∧
  adds (z_a cpu) v c (z80_alu_op 1 v cpu) ∧
  subtracts (z_a cpu) v 0 (z80_alu_op 2 v cpu) ∧
  subtracts (z_a cpu) v c (z80_alu_op 3 v cpu) ∧
  compares (z_a cpu) v (z80_alu_op 7 v cpu).
Proof.
  intros. split_and!; [by apply add_a_adds|by apply adc_a_adds|by apply sub_a_subtracts|
    by apply sbc_a_subtracts|by apply cp_a_compares].
Qed.

Lemma z80_arithmetic_correct_witness :
  adds 0x29 0x68 0 (z80_alu_op 0 0x68 demo_cpu) ∧
  adds 0x29 0x68 1 (z80_alu_op 1 0x68 demo_cpu) ∧
  subtracts 0x29 0x68 0 (z80_alu_op 2 0x68 demo_cpu) ∧
  subtracts 0x29 0x68 1 (z80_alu_op 3 0x68 demo_cpu) ∧
  compares 0x29 0x68 (z80_alu_op 7 0x68 demo_cpu).
Proof. apply (z80_arithmetic_correct demo_cpu 0x68); split; vm_compute; congruence. Defined.

Lemma adjusts_daa {C} (cpu : z80_state_t C) r half v carry :
  z_a cpu = u8 r → bset (z_f cpu) FLAG_H = half →
  bset (z_f cpu) FLAG_C = (if bset (z_f cpu) FLAG_N then r <? 0 else 255 <? r) →
  adjusts (bset (z_f cpu) FLAG_N) r half v carry = true →
  z_a (z80_daa cpu) = v ∧ bset (z_f (z80_daa cpu)) FLAG_C = carry.
Proof.
  intros Ea Eh Ec Had. destruct (z80_daa_spec cpu) as [Hda Hdc]. rewrite Hda, Hdc.
  unfold daa_low, daa_high. rewrite Ea, Eh, Ec. unfold adjusts in Had.
  destruct (bset (z_f cpu) FLAG_N); apply andb_true_iff in Had as [A B]; apply Z.eqb_eq in A; apply eqb_prop in B; done.
Qed.

(** Decimal arithmetic: after ADD, ADC, SUB or SBC of two bytes holding two
    decimal digits each, DAA leaves the decimal digits of the sum or difference
    modulo 100 in A, and the carry tells whether it left the range. *)
Theorem daa_decimal {C : Type} (cpu : z80_state_t C) x y : 0 <= x < 100 → 0 <= y < 100 → z_a cpu = bcd x →
  let c := Z.b2z (bset (z_f cpu) FLAG_C) in
  let daa_after op := let cpu' := z80_daa (z80_alu_op op (bcd y) cpu) in (z_a cpu', bset (z_f cpu') FLAG_C) in
  daa_after 0 = (bcd ((x + y) mod 100), 100 <=? x + y) ∧
  daa_after 1 = (bcd ((x + y + c) mod 100), 100 <=? x + y + c) ∧
  daa_after 2 = (bcd ((x - y) mod 100), x <? y) ∧
  daa_after 3 = (bcd ((x - y - c) mod 100), x <? y + c).
Proof.
  intros Hx Hy Ha. cbn zeta. pose proof (carry_range cpu) as Hc.
  destruct (bcd_digits x Hx) as (_ & _ & Bx), (bcd_digits y Hy) as (_ & _ & By).
  assert (byte (z_a cpu)) as Ba by (rewrite Ha; unfold byte; lia). assert (byte (bcd y)) as Bb by (unfold byte; lia).
  assert (∀ c (s : z80_state_t C), adds (z_a cpu) (bcd y) c s → 0 <= c <= 1 →
    (z_a (z80_daa s), bset (z_f (z80_daa s)) FLAG_C) = (bcd ((x + y + c) mod 100), 100 <=? x + y + c)) as Hadd.
  { intros c s [Es [Ec Eh En _ _ _ _]] Hc'. rewrite Ha in *.
    destruct (adjusts_daa s (bcd x + bcd y + c) _ _ _ Es Eh ltac:(by rewrite En) ltac:(rewrite En; by apply daa_add_digits)) as [-> ->].
    done. }
  assert (∀ c (s : z80_state_t C), subtracts (z_a cpu) (bcd y) c s → 0 <= c <= 1 →
    (z_a (z80_daa s), bset (z_f (z80_daa s)) FLAG_C) = (bcd ((x - y - c) mod 100), x <? y + c)) as Hsub.
  { intros c s [Es [Ec Eh En _ _ _ _]] Hc'. rewrite Ha in *.
    assert (bset (z_f s) FLAG_C = (bcd x - bcd y - c <? 0)) as Ec'.
    { rewrite Ec. destruct (Z.ltb_spec (bcd x) (bcd y + c)); symmetry; (apply Z.ltb_lt || apply Z.ltb_ge); lia. }
    destruct (adjusts_daa s (bcd x - bcd y - c) _ _ _ Es Eh ltac:(by rewrite En) ltac:(rewrite En; by apply daa_sub_digits)) as [-> ->].
    done. }
  split_and!.
  - pose proof (Hadd 0 _ (add_a_adds cpu _ Ba Bb) ltac:(lia)) as E. by rewrite Z.add_0_r in E.
  - exact (Hadd _ _ (adc_a_adds cpu _ Ba Bb) Hc).
  - pose proof (Hsub 0 _ (sub_a_subtracts cpu _ Ba Bb) ltac:(lia)) as E. by rewrite Z.sub_0_r, Z.add_0_r in E.
  - exact (Hsub _ _ (sbc_a_subtracts cpu _ Ba Bb) Hc).
Qed.

Lemma daa_decimal_witness :
  let daa_after op := let cpu' := z80_daa (z80_alu_op op (bcd 78) demo_cpu) in (z_a cpu', bset (z_f cpu') FLAG_C) in
  daa_after 0 = (bcd ((29 + 78) mod 100), 100 <=? 29 + 78) ∧
  daa_after 1 = (bcd ((29 + 78 + 1) mod 100), 100 <=? 29 + 78 + 1) ∧
  daa_after 2 = (bcd ((29 - 78) mod 100), 29 <? 78) ∧
  daa_after 3 = (bcd ((29 - 78 - 1) mod 100), 29 <? 78 + 1).
Proof. apply (daa_decimal demo_cpu 29 78); [lia|lia|reflexivity]. Defined.
