(* ===== verification/Z80Run.v ===== *)
(** * Z80Run: the interpreter of the Z80 core (src/kernel/core/cpu/ecpu_z80.c)

    The decoders of the ED and of the DD and FD prefixes, the main switch, and
    [ecpu_z80_run].  A decoder gives [Next], or [Exit] where the code leaves the
    loop because the trap handler asked to.  [exec] and the groups below are the
    cases of the switch statements, by the fields xx, yyy and zzz of the opcode. *)

From S2P Require Import Prelude Z80 Z80Alu.
#[local] Open Scope c_scope.

Inductive decoded := Next | Exit.

Section Interpreter.
Context {C : Type}.
#[local] Abbreviation state := (z80_state_t C).

(** [cpu->trap_handler], called with the trap type, the parameter and the
    context. *)
Context (trap_handler : state → Z → Z → option C → Z * state).

Definition z80_fire_trap (trap_type param : Z) (cpu : state) : Z * state :=
  if z_trap_handler cpu then
    let '(rc, cpu) := trap_handler cpu trap_type param (z_trap_ctx cpu) in
    (rc, if rc =? CPU_TRAP_EXIT then set_step_trap_exit 1 cpu else cpu)
  else (CPU_TRAP_UNHANDLED, cpu).

Definition inc_r (cpu : state) : state := set_r ((z_r cpu .& 0x80) .| ((z_r cpu + 1) .& 0x7F)) cpu.

(** ** Pieces several cases share *)

Definition ex_af (cpu : state) : state :=
  let t := z_a cpu in
  let cpu := set_a (z_a2 cpu) cpu in
  let cpu := set_a2 t cpu in
  let t := z_f cpu in
  let cpu := set_f (z_f2 cpu) cpu in
  set_f2 t cpu.

Definition exx (cpu : state) : state :=
  let t := z_b cpu in let cpu := set_b2 t (set_b (z_b2 cpu) cpu) in
  let t := z_c cpu in let cpu := set_c2 t (set_c (z_c2 cpu) cpu) in
  let t := z_d cpu in let cpu := set_d2 t (set_d (z_d2 cpu) cpu) in
  let t := z_e cpu in let cpu := set_e2 t (set_e (z_e2 cpu) cpu) in
  let t := z_h cpu in let cpu := set_h2 t (set_h (z_h2 cpu) cpu) in
  let t := z_l cpu in set_l2 t (set_l (z_l2 cpu) cpu).

Definition acc_op (yyy : Z) (cpu : state) : state :=
  match yyy with
  | 0 => z80_rlca cpu
  | 1 => z80_rrca cpu
  | 2 => z80_rla cpu
  | 3 => z80_rra cpu
  | 4 => z80_daa cpu
  | 5 => z80_cpl cpu
  | 6 => z80_scf cpu
  | 7 => z80_ccf cpu
  | _ => cpu
  end.

Definition cb_shift (cb_yyy val : Z) (cpu : state) : Z * state :=
  match cb_yyy with
  | 0 => z80_rlc val cpu
  | 1 => z80_rrc val cpu
  | 2 => z80_rl val cpu
  | 3 => z80_rr val cpu
  | 4 => z80_sla val cpu
  | 5 => z80_sra val cpu
  | 6 => z80_sll val cpu
  | _ => z80_srl val cpu
  end.

(** ** ED prefix *)

Definition ed_flags (v : Z) (pv : Z) (cpu : state) : state :=
  set_f ((z_f cpu .& FLAG_C) .| (v .& (FLAG_S .| FLAG_35)) .| flag (v =? 0) FLAG_Z .| pv) cpu.

(** zzz = 7 of the first half. *)
Definition ed_misc (yyy : Z) (cpu : state) : state :=
  match yyy with
  | 0 => set_i (z_a cpu) cpu
  | 1 => set_r (z_a cpu) cpu
  | 2 => let cpu := set_a (z_i cpu) cpu in ed_flags (z_a cpu) (flag (negb (z_iff2 cpu =? 0)) FLAG_PV) cpu
  | 3 => let cpu := set_a (z_r cpu) cpu in ed_flags (z_a cpu) (flag (negb (z_iff2 cpu =? 0)) FLAG_PV) cpu
  | 4 => (* RRD *)
      let addr := z80_hl cpu in
      let m := z80_read8 cpu addr in
      let lo_a := z_a cpu .& 0x0F in
      let cpu := set_a ((z_a cpu .& 0xF0) .| (m .& 0x0F)) cpu in
      let m := u8 ((lo_a ≪ 4) .| (m ≫ 4)) in
      let cpu := z80_write8 addr m cpu in
      set_wz (addr + 1) (ed_flags (z_a cpu) (parity_table (z_a cpu)) cpu)
  | 5 => (* RLD *)
      let addr := z80_hl cpu in
      let m := z80_read8 cpu addr in
      let lo_a := z_a cpu .& 0x0F in
      let cpu := set_a ((z_a cpu .& 0xF0) .| (m ≫ 4)) cpu in
      let m := u8 ((m ≪ 4) .| lo_a) in
      let cpu := z80_write8 addr m cpu in
      set_wz (addr + 1) (ed_flags (z_a cpu) (parity_table (z_a cpu)) cpu)
  | _ => cpu
  end.

(** xx = 1 *)
Definition ed_half (yyy zzz : Z) (cpu : state) : decoded * state :=
  match zzz with
  | 0 => (* IN r,(C) *)
      let addr := z80_bc cpu in
      let '(rc, cpu) := z80_fire_trap CPU_TRAP_IO_IN addr cpu in
      if rc =? CPU_TRAP_EXIT then (Exit, cpu) else
      let val := z80_read_r8 cpu (if yyy =? 6 then 7 else yyy) in
      (Next, set_wz (addr + 1) (ed_flags val (parity_table val) cpu))
  | 1 => (* OUT (C),r *)
      let addr := z80_bc cpu in
      let '(rc, cpu) := z80_fire_trap CPU_TRAP_IO_OUT addr cpu in
      if rc =? CPU_TRAP_EXIT then (Exit, cpu) else (Next, set_wz (addr + 1) cpu)
  | 2 =>
      (Next, if bset yyy 1 then z80_adc_hl (z80_read_rr cpu (yyy ≫ 1)) cpu
             else z80_sbc_hl (z80_read_rr cpu (yyy ≫ 1)) cpu)
  | 3 =>
      let '(nn, cpu) := z80_fetch16 cpu in
      let cpu := if bset yyy 1 then z80_write_rr (yyy ≫ 1) (z80_read16 cpu nn) cpu
                 else z80_write16 nn (z80_read_rr cpu (yyy ≫ 1)) cpu in
      (Next, set_wz (nn + 1) cpu)
  | 4 => (* NEG *)
      let old_a := z_a cpu in
      (Next, z80_sub_a old_a (set_a 0 cpu))
  | 5 => (* RETN, RETI *)
      let cpu := set_iff1 (z_iff2 cpu) cpu in
      let '(val, cpu) := z80_pop16 cpu in
      let cpu := set_pc val cpu in
      (Next, set_wz (z_pc cpu) cpu)
  | 6 =>
      (Next, match yyy with
             | 0 | 4 => set_im 0 cpu
             | 1 | 5 => set_im 0 cpu
             | 2 | 6 => set_im 1 cpu
             | 3 | 7 => set_im 2 cpu
             | _ => cpu
             end)
  | 7 => (Next, ed_misc yyy cpu)
  | _ => (Next, cpu)
  end.

(** LDI, LDD, LDIR, LDDR *)
Definition ed_ldi (yyy : Z) (cpu : state) : state :=
  let val := z80_read8 cpu (z80_hl cpu) in
  let cpu := z80_write8 (z80_de cpu) val cpu in
  let dir := if bset yyy 1 then -1 else 1 in
  let cpu := z80_set_hl (u16 (z80_hl cpu + dir)) cpu in
  let cpu := z80_set_de (u16 (z80_de cpu + dir)) cpu in
  let cpu := z80_set_bc (u16 (z80_bc cpu - 1)) cpu in
  let n := u8 (z_a cpu + val) in
  let cpu := set_f ((z_f cpu .& (FLAG_S .| FLAG_Z .| FLAG_C))
    .| flag (bset n 0x02) FLAG_F5 .| (n .& FLAG_F3)
    .| flag (negb (z80_bc cpu =? 0)) FLAG_PV) cpu in
  if (6 <=? yyy) && negb (z80_bc cpu =? 0) then
    let cpu := set_pc (z_pc cpu - 2) cpu in
    set_wz (z_pc cpu + 1) cpu
  else cpu.

(** CPI, CPD, CPIR, CPDR *)
Definition ed_cpi (yyy : Z) (cpu : state) : state :=
  let val := z80_read8 cpu (z80_hl cpu) in
  let res := u8 (z_a cpu - val) in
  let dir := if bset yyy 1 then -1 else 1 in
  let cpu := z80_set_hl (u16 (z80_hl cpu + dir)) cpu in
  let cpu := z80_set_bc (u16 (z80_bc cpu - 1)) cpu in
  let h := flag (bset (z_a cpu .^ val .^ res) 0x10) FLAG_H in
  let n := u8 (res - (if h =? 0 then 0 else 1)) in
  let cpu := set_f ((z_f cpu .& FLAG_C) .| (res .& FLAG_S)
    .| flag (res =? 0) FLAG_Z .| h .| FLAG_N
    .| flag (bset n 0x02) FLAG_F5 .| (n .& FLAG_F3)
    .| flag (negb (z80_bc cpu =? 0)) FLAG_PV) cpu in
  let cpu := set_wz (z_wz cpu + dir) cpu in
  if (6 <=? yyy) && negb (z80_bc cpu =? 0) && negb (bset (z_f cpu) FLAG_Z) then
    let cpu := set_pc (z_pc cpu - 2) cpu in
    set_wz (z_pc cpu + 1) cpu
  else cpu.

(** INI, OUTI and their variants *)
Definition ed_io (trap_type yyy : Z) (cpu : state) : decoded * state :=
  let addr := z80_bc cpu in
  let '(rc, cpu) := z80_fire_trap trap_type addr cpu in
  if rc =? CPU_TRAP_EXIT then (Exit, cpu) else
  let dir := if bset yyy 1 then -1 else 1 in
  let cpu := z80_set_hl (u16 (z80_hl cpu + dir)) cpu in
  let '(b, cpu) := z80_dec8 (z_b cpu) cpu in
  let cpu := set_b b cpu in
  (Next, if (6 <=? yyy) && negb (z_b cpu =? 0) then set_pc (z_pc cpu - 2) cpu else cpu).

Definition ed_block (yyy zzz : Z) (cpu : state) : decoded * state :=
  match zzz with
  | 0 => (Next, ed_ldi yyy cpu)
  | 1 => (Next, ed_cpi yyy cpu)
  | 2 => ed_io CPU_TRAP_IO_IN yyy cpu
  | 3 => ed_io CPU_TRAP_IO_OUT yyy cpu
  | _ => (Next, cpu)
  end.

Definition z80_decode_ed (cpu : state) : decoded * state :=
  let '(op, cpu) := z80_fetch8 cpu in
  let cpu := inc_r cpu in
  let xx := op ≫ 6 in
  let yyy := (op ≫ 3) .& 7 in
  let zzz := op .& 7 in
  if xx =? 1 then ed_half yyy zzz cpu
  else if (xx =? 2) && (4 <=? yyy) then ed_block yyy zzz cpu
  else (Next, cpu).

(** ** DD and FD prefixes *)

Definition z80_read_r8_ix (cpu : state) (code : Z) (idx : idx_reg) : Z :=
  match code with
  | 4 => get_idx idx cpu ≫ 8
  | 5 => get_idx idx cpu .& 0xFF
  | 6 => 0
  | _ => z80_read_r8 cpu code
  end.

Definition z80_write_r8_ix (code : Z) (idx : idx_reg) (val : Z) (cpu : state) : state :=
  match code with
  | 4 => set_idx idx ((get_idx idx cpu .& 0x00FF) .| (val ≪ 8)) cpu
  | 5 => set_idx idx ((get_idx idx cpu .& 0xFF00) .| val) cpu
  | 6 => cpu
  | _ => z80_write_r8 code val cpu
  end.

Definition z80_read_rr_ix (cpu : state) (pp : Z) (idx : idx_reg) : Z :=
  if pp =? 2 then get_idx idx cpu else z80_read_rr cpu pp.

Definition z80_write_rr_ix (pp : Z) (idx : idx_reg) (val : Z) (cpu : state) : state :=
  if pp =? 2 then set_idx idx val cpu else z80_write_rr pp val cpu.

(** [(int8_t)z80_fetch8(cpu)] *)
Definition fetch_d (cpu : state) : Z * state :=
  let '(d, cpu) := z80_fetch8 cpu in (s8 d, cpu).

(** xx = 1: loads *)
Definition ix_load (idx : idx_reg) (op yyy zzz : Z) (cpu : state) : state :=
  if op =? 0x76 then set_halted 1 cpu
  else if yyy =? 6 then
    let '(d, cpu) := fetch_d cpu in
    let addr := u16 (get_idx idx cpu + d) in
    set_wz addr (z80_write8 addr (z80_read_r8 cpu zzz) cpu)
  else if zzz =? 6 then
    let '(d, cpu) := fetch_d cpu in
    let addr := u16 (get_idx idx cpu + d) in
    set_wz addr (z80_write_r8 yyy (z80_read8 cpu addr) cpu)
  else z80_write_r8_ix yyy idx (z80_read_r8_ix cpu zzz idx) cpu.

(** xx = 0, zzz = 2: indirect loads and stores *)
Definition ix_indirect (idx : idx_reg) (yyy : Z) (cpu : state) : state :=
  match yyy with
  | 0 => let cpu := z80_write8 (z80_bc cpu) (z_a cpu) cpu in set_wz ((z80_bc cpu + 1) .& 0xFFFF) cpu
  | 1 => let cpu := set_a (z80_read8 cpu (z80_bc cpu)) cpu in set_wz ((z80_bc cpu + 1) .& 0xFFFF) cpu
  | 2 => let cpu := z80_write8 (z80_de cpu) (z_a cpu) cpu in set_wz ((z80_de cpu + 1) .& 0xFFFF) cpu
  | 3 => let cpu := set_a (z80_read8 cpu (z80_de cpu)) cpu in set_wz ((z80_de cpu + 1) .& 0xFFFF) cpu
  | 4 => let '(nn, cpu) := z80_fetch16 cpu in
         set_wz ((nn + 1) .& 0xFFFF) (z80_write16 nn (get_idx idx cpu) cpu)
  | 5 => let '(nn, cpu) := z80_fetch16 cpu in
         set_wz ((nn + 1) .& 0xFFFF) (set_idx idx (z80_read16 cpu nn) cpu)
  | 6 => let '(nn, cpu) := z80_fetch16 cpu in
         set_wz ((nn + 1) .& 0xFFFF) (z80_write8 nn (z_a cpu) cpu)
  | 7 => let '(nn, cpu) := z80_fetch16 cpu in
         set_wz ((nn + 1) .& 0xFFFF) (set_a (z80_read8 cpu nn) cpu)
  | _ => cpu
  end.

(** xx = 0, zzz = 4 and 5: INC and DEC, [op8] being [z80_inc8] or [z80_dec8] *)
Definition ix_incdec (op8 : Z → state → Z * state) (idx : idx_reg) (yyy : Z) (cpu : state) : state :=
  if yyy =? 6 then
    let '(d, cpu) := fetch_d cpu in
    let addr := u16 (get_idx idx cpu + d) in
    let '(res, cpu) := op8 (z80_read8 cpu addr) cpu in
    set_wz addr (z80_write8 addr res cpu)
  else
    let val := z80_read_r8_ix cpu yyy idx in
    let '(res, cpu) := op8 val cpu in
    z80_write_r8_ix yyy idx res cpu.

(** xx = 0 *)
Definition ix_misc (idx : idx_reg) (yyy zzz : Z) (cpu : state) : state :=
  match zzz with
  | 0 =>
      if yyy =? 0 then cpu
      else if yyy =? 1 then ex_af cpu
      else if yyy =? 2 then
        let '(offset, cpu) := fetch_d cpu in
        let cpu := set_b (z_b cpu - 1) cpu in
        if negb (z_b cpu =? 0) then set_pc (z_pc cpu + offset) cpu else cpu
      else if yyy =? 3 then
        let '(offset, cpu) := fetch_d cpu in set_pc (z_pc cpu + offset) cpu
      else
        let '(offset, cpu) := fetch_d cpu in
        if z80_condition cpu (yyy - 4) then set_pc (z_pc cpu + offset) cpu else cpu
  | 1 =>
      if bset yyy 1 then z80_add_ix idx (z80_read_rr_ix cpu (yyy ≫ 1) idx) cpu
      else let '(nn, cpu) := z80_fetch16 cpu in z80_write_rr_ix (yyy ≫ 1) idx nn cpu
  | 2 => ix_indirect idx yyy cpu
  | 3 =>
      let pp := yyy ≫ 1 in
      let val := z80_read_rr_ix cpu pp idx in
      if bset yyy 1 then z80_write_rr_ix pp idx (u16 (val - 1)) cpu
      else z80_write_rr_ix pp idx (u16 (val + 1)) cpu
  | 4 => ix_incdec z80_inc8 idx yyy cpu
  | 5 => ix_incdec z80_dec8 idx yyy cpu
  | 6 =>
      if yyy =? 6 then
        let '(d, cpu) := fetch_d cpu in
        let '(n, cpu) := z80_fetch8 cpu in
        let addr := u16 (get_idx idx cpu + d) in
        set_wz addr (z80_write8 addr n cpu)
      else
        let '(n, cpu) := z80_fetch8 cpu in z80_write_r8_ix yyy idx n cpu
  | 7 => acc_op yyy cpu
  | _ => cpu
  end.

(** xx = 2: arithmetic *)
Definition ix_alu (idx : idx_reg) (yyy zzz : Z) (cpu : state) : state :=
  if zzz =? 6 then
    let '(d, cpu) := fetch_d cpu in
    let addr := u16 (get_idx idx cpu + d) in
    set_wz addr (z80_alu_op yyy (z80_read8 cpu addr) cpu)
  else z80_alu_op yyy (z80_read_r8_ix cpu zzz idx) cpu.

(** DD CB d op *)
Definition ix_cb (idx : idx_reg) (cpu : state) : state :=
  let '(d, cpu) := fetch_d cpu in
  let '(cb, cpu) := z80_fetch8 cpu in
  let addr := u16 (get_idx idx cpu + d) in
  let cpu := set_wz addr cpu in
  let cb_xx := cb ≫ 6 in
  let cb_yyy := (cb ≫ 3) .& 7 in
  let cb_zzz := cb .& 7 in
  let val := z80_read8 cpu addr in
  let store res cpu :=
    let cpu := z80_write8 addr res cpu in
    if negb (cb_zzz =? 6) then z80_write_r8 cb_zzz res cpu else cpu in
  match cb_xx with
  | 0 => let '(res, cpu) := cb_shift cb_yyy val cpu in store res cpu
  | 1 => let cpu := z80_bit cb_yyy val cpu in
         set_f ((z_f cpu .& Z.lnot FLAG_35) .| ((z_wz cpu ≫ 8) .& FLAG_35)) cpu
  | 2 => store (u8 (val .& Z.lnot (1 ≪ cb_yyy))) cpu
  | 3 => store (u8 (val .| (1 ≪ cb_yyy))) cpu
  | _ => cpu
  end.

(** xx = 3, zzz = 3 *)
Definition ix_special (idx : idx_reg) (yyy : Z) (cpu : state) : decoded * state :=
  match yyy with
  | 0 => let '(nn, cpu) := z80_fetch16 cpu in (Next, set_pc nn (set_wz nn cpu))
  | 1 => (Next, ix_cb idx cpu)
  | 2 =>
      let '(port, cpu) := z80_fetch8 cpu in
      let addr := u16 ((z_a cpu ≪ 8) .| port) in
      let cpu := set_wz ((z_a cpu ≪ 8) .| ((port + 1) .& 0xFF)) cpu in
      let '(rc, cpu) := z80_fire_trap CPU_TRAP_IO_OUT addr cpu in
      (if rc =? CPU_TRAP_EXIT then Exit else Next, cpu)
  | 3 =>
      let '(port, cpu) := z80_fetch8 cpu in
      let addr := u16 ((z_a cpu ≪ 8) .| port) in
      let '(rc, cpu) := z80_fire_trap CPU_TRAP_IO_IN addr cpu in
      if rc =? CPU_TRAP_EXIT then (Exit, cpu)
      else (Next, set_wz ((z_a cpu ≪ 8) .| ((port + 1) .& 0xFF)) cpu)
  | 4 =>
      let val := z80_read16 cpu (z_sp cpu) in
      let cpu := z80_write16 (z_sp cpu) (get_idx idx cpu) cpu in
      (Next, set_wz val (set_idx idx val cpu))
  | 5 =>
      let de := z80_de cpu in
      let cpu := z80_set_de (z80_hl cpu) cpu in
      (Next, z80_set_hl de cpu)
  | 6 => (Next, set_iff2 0 (set_iff1 0 cpu))
  | 7 => (Next, set_iff2 1 (set_iff1 1 cpu))
  | _ => (Next, cpu)
  end.

(** xx = 3, zzz = 1 *)
Definition ix_pop (idx : idx_reg) (yyy : Z) (cpu : state) : state :=
  if bset yyy 1 then
    match yyy with
    | 1 => let '(val, cpu) := z80_pop16 cpu in let cpu := set_pc val cpu in set_wz (z_pc cpu) cpu
    | 3 => exx cpu
    | 5 => set_pc (get_idx idx cpu) cpu
    | 7 => set_sp (get_idx idx cpu) cpu
    | _ => cpu
    end
  else
    let '(val, cpu) := z80_pop16 cpu in
    if yyy ≫ 1 =? 2 then set_idx idx val cpu else z80_write_qq (yyy ≫ 1) val cpu.

(** xx = 3, zzz = 4 to 7 *)
Definition ix_call (idx : idx_reg) (yyy zzz : Z) (cpu : state) : decoded * state :=
  match zzz with
  | 4 =>
      let '(nn, cpu) := z80_fetch16 cpu in
      let cpu := set_wz nn cpu in
      (Next, if z80_condition cpu yyy then set_pc nn (z80_push16 (z_pc cpu) cpu) else cpu)
  | 5 =>
      if bset yyy 1 then
        if yyy =? 1 then
          let '(nn, cpu) := z80_fetch16 cpu in
          let cpu := set_wz nn cpu in
          (Next, set_pc nn (z80_push16 (z_pc cpu) cpu))
        else if yyy =? 5 then z80_decode_ed cpu
        else (Next, cpu)
      else if yyy ≫ 1 =? 2 then (Next, z80_push16 (get_idx idx cpu) cpu)
      else (Next, z80_push16 (z80_read_qq cpu (yyy ≫ 1)) cpu)
  | 6 => let '(n, cpu) := z80_fetch8 cpu in (Next, z80_alu_op yyy n cpu)
  | 7 =>
      let addr := yyy * 8 in
      let '(rc, cpu) := z80_fire_trap CPU_TRAP_RST addr cpu in
      if rc =? CPU_TRAP_EXIT then (Exit, cpu)
      else if rc =? CPU_TRAP_HANDLED then (Next, cpu)
      else
        let cpu := z80_push16 (z_pc cpu) cpu in
        (Next, set_wz addr (set_pc addr cpu))
  | _ => (Next, cpu)
  end.

(** xx = 3 *)
Definition ix_control (idx : idx_reg) (yyy zzz : Z) (cpu : state) : decoded * state :=
  match zzz with
  | 0 =>
      if z80_condition cpu yyy then
        let '(val, cpu) := z80_pop16 cpu in
        let cpu := set_pc val cpu in
        (Next, set_wz (z_pc cpu) cpu)
      else (Next, cpu)
  | 1 => (Next, ix_pop idx yyy cpu)
  | 2 =>
      let '(nn, cpu) := z80_fetch16 cpu in
      let cpu := set_wz nn cpu in
      (Next, if z80_condition cpu yyy then set_pc nn cpu else cpu)
  | 3 => ix_special idx yyy cpu
  | _ => ix_call idx yyy zzz cpu
  end.

Definition z80_decode_index (idx : idx_reg) (cpu : state) : decoded * state :=
  let '(op, cpu) := z80_fetch8 cpu in
  let cpu := inc_r cpu in
  let xx := op ≫ 6 in
  let yyy := (op ≫ 3) .& 7 in
  let zzz := op .& 7 in
  match xx with
  | 1 => (Next, ix_load idx op yyy zzz cpu)
  | 0 => (Next, ix_misc idx yyy zzz cpu)
  | 2 => (Next, ix_alu idx yyy zzz cpu)
  | 3 => ix_control idx yyy zzz cpu
  | _ => (Next, cpu)
  end.

(** ** Unprefixed opcodes *)

(** xx = 0, zzz = 2 *)
Definition op_indirect (yyy : Z) (cpu : state) : state :=
  match yyy with
  | 0 => let cpu := z80_write8 (z80_bc cpu) (z_a cpu) cpu in set_wz ((z80_bc cpu + 1) .& 0xFFFF) cpu
  | 1 => let cpu := set_a (z80_read8 cpu (z80_bc cpu)) cpu in set_wz ((z80_bc cpu + 1) .& 0xFFFF) cpu
  | 2 => let cpu := z80_write8 (z80_de cpu) (z_a cpu) cpu in set_wz ((z80_de cpu + 1) .& 0xFFFF) cpu
  | 3 => let cpu := set_a (z80_read8 cpu (z80_de cpu)) cpu in set_wz ((z80_de cpu + 1) .& 0xFFFF) cpu
  | 4 => let '(nn, cpu) := z80_fetch16 cpu in
         set_wz ((nn + 1) .& 0xFFFF) (z80_write16 nn (z80_hl cpu) cpu)
  | 5 => let '(nn, cpu) := z80_fetch16 cpu in
         set_wz ((nn + 1) .& 0xFFFF) (z80_set_hl (z80_read16 cpu nn) cpu)
  | 6 => let '(nn, cpu) := z80_fetch16 cpu in
         set_wz ((nn + 1) .& 0xFFFF) (z80_write8 nn (z_a cpu) cpu)
  | 7 => let '(nn, cpu) := z80_fetch16 cpu in
         set_wz ((nn + 1) .& 0xFFFF) (set_a (z80_read8 cpu nn) cpu)
  | _ => cpu
  end.

(** xx = 0 *)
Definition op_misc (yyy zzz : Z) (cpu : state) : state :=
  match zzz with
  | 0 =>
      if yyy =? 0 then cpu
      else if yyy =? 1 then ex_af cpu
      else if yyy =? 2 then
        let '(offset, cpu) := fetch_d cpu in
        let cpu := set_b (z_b cpu - 1) cpu in
        if negb (z_b cpu =? 0) then set_pc (z_pc cpu + offset) cpu else cpu
      else if yyy =? 3 then
        let '(offset, cpu) := fetch_d cpu in set_pc (z_pc cpu + offset) cpu
      else
        let '(offset, cpu) := fetch_d cpu in
        if z80_condition cpu (yyy - 4) then set_pc (z_pc cpu + offset) cpu else cpu
  | 1 =>
      if bset yyy 1 then z80_add_hl (z80_read_rr cpu (yyy ≫ 1)) cpu
      else let '(nn, cpu) := z80_fetch16 cpu in z80_write_rr (yyy ≫ 1) nn cpu
  | 2 => op_indirect yyy cpu
  | 3 =>
      let pp := yyy ≫ 1 in
      let val := z80_read_rr cpu pp in
      if bset yyy 1 then z80_write_rr pp (u16 (val - 1)) cpu
      else z80_write_rr pp (u16 (val + 1)) cpu
  | 4 => let '(res, cpu) := z80_inc8 (z80_read_r8 cpu yyy) cpu in z80_write_r8 yyy res cpu
  | 5 => let '(res, cpu) := z80_dec8 (z80_read_r8 cpu yyy) cpu in z80_write_r8 yyy res cpu
  | 6 => let '(n, cpu) := z80_fetch8 cpu in z80_write_r8 yyy n cpu
  | 7 => acc_op yyy cpu
  | _ => cpu
  end.

(** CB prefix *)
Definition op_cb (cpu : state) : state :=
  let '(cb, cpu) := z80_fetch8 cpu in
  let cpu := inc_r cpu in
  let cb_xx := cb ≫ 6 in
  let cb_yyy := (cb ≫ 3) .& 7 in
  let cb_zzz := cb .& 7 in
  let val := z80_read_r8 cpu cb_zzz in
  match cb_xx with
  | 0 => let '(val, cpu) := cb_shift cb_yyy val cpu in z80_write_r8 cb_zzz val cpu
  | 1 => let cpu := z80_bit cb_yyy val cpu in
         if cb_zzz =? 6
         then set_f ((z_f cpu .& Z.lnot FLAG_35) .| ((z_wz cpu ≫ 8) .& FLAG_35)) cpu
         else cpu
  | 2 => z80_write_r8 cb_zzz (val .& Z.lnot (1 ≪ cb_yyy)) cpu
  | 3 => z80_write_r8 cb_zzz (val .| (1 ≪ cb_yyy)) cpu
  | _ => cpu
  end.

(** xx = 3, zzz = 1 *)
Definition op_pop (yyy : Z) (cpu : state) : state :=
  if bset yyy 1 then
    match yyy with
    | 1 => let '(val, cpu) := z80_pop16 cpu in let cpu := set_pc val cpu in set_wz (z_pc cpu) cpu
    | 3 => exx cpu
    | 5 => set_pc (z80_hl cpu) cpu
    | 7 => set_sp (z80_hl cpu) cpu
    | _ => cpu
    end
  else
    let '(val, cpu) := z80_pop16 cpu in z80_write_qq (yyy ≫ 1) val cpu.

(** xx = 3, zzz = 3 *)
Definition op_special (yyy : Z) (cpu : state) : decoded * state :=
  match yyy with
  | 0 => let '(nn, cpu) := z80_fetch16 cpu in (Next, set_pc nn (set_wz nn cpu))
  | 1 => (Next, op_cb cpu)
  | 2 =>
      let '(port, cpu) := z80_fetch8 cpu in
      let addr := u16 ((z_a cpu ≪ 8) .| port) in
      let cpu := set_wz ((z_a cpu ≪ 8) .| ((port + 1) .& 0xFF)) cpu in
      let '(rc, cpu) := z80_fire_trap CPU_TRAP_IO_OUT addr cpu in
      (if rc =? CPU_TRAP_EXIT then Exit else Next, cpu)
  | 3 =>
      let '(port, cpu) := z80_fetch8 cpu in
      let addr := u16 ((z_a cpu ≪ 8) .| port) in
      let '(rc, cpu) := z80_fire_trap CPU_TRAP_IO_IN addr cpu in
      if rc =? CPU_TRAP_EXIT then (Exit, cpu)
      else (Next, set_wz ((z_a cpu ≪ 8) .| ((port + 1) .& 0xFF)) cpu)
  | 4 =>
      let val := z80_read16 cpu (z_sp cpu) in
      let cpu := z80_write16 (z_sp cpu) (z80_hl cpu) cpu in
      (Next, set_wz val (z80_set_hl val cpu))
  | 5 =>
      let de := z80_de cpu in
      let cpu := z80_set_de (z80_hl cpu) cpu in
      (Next, z80_set_hl de cpu)
  | 6 => (Next, set_iff2 0 (set_iff1 0 cpu))
  | 7 => (Next, set_iff2 1 (set_iff1 1 cpu))
  | _ => (Next, cpu)
  end.

(** xx = 3, zzz = 4 to 7 *)
Definition op_call (yyy zzz : Z) (cpu : state) : decoded * state :=
  match zzz with
  | 4 =>
      let '(nn, cpu) := z80_fetch16 cpu in
      let cpu := set_wz nn cpu in
      (Next, if z80_condition cpu yyy then set_pc nn (z80_push16 (z_pc cpu) cpu) else cpu)
  | 5 =>
      if bset yyy 1 then
        match yyy with
        | 1 =>
            let '(nn, cpu) := z80_fetch16 cpu in
            let cpu := set_wz nn cpu in
            (Next, set_pc nn (z80_push16 (z_pc cpu) cpu))
        | 5 => z80_decode_ed cpu
        | 3 => z80_decode_index IX cpu
        | 7 => z80_decode_index IY cpu
        | _ => (Next, cpu)
        end
      else (Next, z80_push16 (z80_read_qq cpu (yyy ≫ 1)) cpu)
  | 6 => let '(n, cpu) := z80_fetch8 cpu in (Next, z80_alu_op yyy n cpu)
  | 7 =>
      let addr := yyy * 8 in
      let '(rc, cpu) := z80_fire_trap CPU_TRAP_RST addr cpu in
      if rc =? CPU_TRAP_EXIT then (Exit, cpu)
      else if rc =? CPU_TRAP_HANDLED then (Next, cpu)
      else
        let cpu := z80_push16 (z_pc cpu) cpu in
        (Next, set_wz addr (set_pc addr cpu))
  | _ => (Next, cpu)
  end.

(** xx = 3 *)
Definition op_control (yyy zzz : Z) (cpu : state) : decoded * state :=
  match zzz with
  | 0 =>
      if z80_condition cpu yyy then
        let '(val, cpu) := z80_pop16 cpu in
        let cpu := set_pc val cpu in
        (Next, set_wz (z_pc cpu) cpu)
      else (Next, cpu)
  | 1 => (Next, op_pop yyy cpu)
  | 2 =>
      let '(nn, cpu) := z80_fetch16 cpu in
      let cpu := set_wz nn cpu in
      (Next, if z80_condition cpu yyy then set_pc nn cpu else cpu)
  | 3 => op_special yyy cpu
  | _ => op_call yyy zzz cpu
  end.

(** The switch on xx. *)
Definition exec (opcode : Z) (cpu : state) : decoded * state :=
  let xx := opcode ≫ 6 in
  let yyy := (opcode ≫ 3) .& 7 in
  let zzz := opcode .& 7 in
  match xx with
  | 1 =>
      if opcode =? 0x76 then (Next, set_halted 1 cpu)
      else (Next, z80_write_r8 yyy (z80_read_r8 cpu zzz) cpu)
  | 0 => (Next, op_misc yyy zzz cpu)
  | 2 => (Next, z80_alu_op yyy (z80_read_r8 cpu zzz) cpu)
  | 3 => op_control yyy zzz cpu
  | _ => (Next, cpu)
  end.

(** ** The loop *)

(** One pass: [inl] goes round again, [inr] is [return 0]. *)
Definition run_pass (cpu : state) : state + state :=
  if negb (z_halted cpu =? 0) then
    let '(rc, cpu) := z80_fire_trap CPU_TRAP_HALT 0 cpu in
    if rc =? CPU_TRAP_EXIT then inr cpu
    else if z_halted cpu =? 0 then inl cpu
    else inr cpu
  else
    let '(opcode, cpu) := z80_fetch8 cpu in
    let cpu := inc_r cpu in
    let '(d, cpu) := exec opcode cpu in
    match d with
    | Exit => inr cpu
    | Next =>
        if negb (z_step_budget cpu =? 0) then
          let cpu := set_step_budget (z_step_budget cpu - 1) cpu in
          if z_step_budget cpu =? 0 then inr cpu else inl cpu
        else inl cpu
    end.

(** None: not returned within [fuel] passes. *)
Fixpoint run_loop (fuel : nat) (cpu : state) : option state :=
  match fuel with
  | O => None
  | S fuel =>
      match run_pass cpu with
      | inr cpu => Some cpu
      | inl cpu => run_loop fuel cpu
      end
  end.

Definition ecpu_z80_run (fuel : nat) (cpu : state) : option state :=
  run_loop fuel (set_step_trap_exit 0 cpu).
End Interpreter.
