(* ===== verification/Z80Facts.v ===== *)
(** * Z80Facts: the interpreter of the Z80 core is live and right

    Whatever a program does, a budgeted run returns.  The index prefixes leave the instructions that do not
    name HL alone, and a block copy copies the block. *)

From S2P Require Import Prelude Bits Z80 Z80Alu Z80AluFacts Z80Run.
#[local] Open Scope c_scope.

Create HintDb z80.

(** ** What instructions preserve *)

Section Stability.
Context {C : Type} (trap_handler : z80_state_t C → Z → Z → option C → Z * z80_state_t C).
#[local] Abbreviation state := (z80_state_t C).
Implicit Types cpu : state.

(** A predicate that the assignments of instructions, and the trap handler,
    preserve. *)
Class Stable (P : state → Prop) : Prop := {
  stable_a v cpu : P cpu → P (set_a v cpu);
  stable_f v cpu : P cpu → P (set_f v cpu);
  stable_b v cpu : P cpu → P (set_b v cpu);
  stable_c v cpu : P cpu → P (set_c v cpu);
  stable_d v cpu : P cpu → P (set_d v cpu);
  stable_e v cpu : P cpu → P (set_e v cpu);
  stable_h v cpu : P cpu → P (set_h v cpu);
  stable_l v cpu : P cpu → P (set_l v cpu);
  stable_a2 v cpu : P cpu → P (set_a2 v cpu);
  stable_f2 v cpu : P cpu → P (set_f2 v cpu);
  stable_b2 v cpu : P cpu → P (set_b2 v cpu);
  stable_c2 v cpu : P cpu → P (set_c2 v cpu);
  stable_d2 v cpu : P cpu → P (set_d2 v cpu);
  stable_e2 v cpu : P cpu → P (set_e2 v cpu);
  stable_h2 v cpu : P cpu → P (set_h2 v cpu);
  stable_l2 v cpu : P cpu → P (set_l2 v cpu);
  stable_ix v cpu : P cpu → P (set_ix v cpu);
  stable_iy v cpu : P cpu → P (set_iy v cpu);
  stable_sp v cpu : P cpu → P (set_sp v cpu);
  stable_pc v cpu : P cpu → P (set_pc v cpu);
  stable_i v cpu : P cpu → P (set_i v cpu);
  stable_r v cpu : P cpu → P (set_r v cpu);
  stable_wz v cpu : P cpu → P (set_wz v cpu);
  stable_iff1 v cpu : P cpu → P (set_iff1 v cpu);
  stable_iff2 v cpu : P cpu → P (set_iff2 v cpu);
  stable_im v cpu : P cpu → P (set_im v cpu);
  stable_halted v cpu : P cpu → P (set_halted v cpu);
  stable_step_trap_exit v cpu : P cpu → P (set_step_trap_exit v cpu);
  stable_memory i v cpu : P cpu → P (set_memory (mem_set i v (z_memory cpu)) cpu);
  stable_handler t p c cpu : P cpu → P (trap_handler cpu t p c).2
}.

Context (P : state → Prop) `{!Stable P}.

(** The outermost assignment. *)
Ltac setter :=
  lazymatch goal with
  | |- P (set_a _ _) => apply stable_a
  | |- P (set_f _ _) => apply stable_f
  | |- P (set_b _ _) => apply stable_b
  | |- P (set_c _ _) => apply stable_c
  | |- P (set_d _ _) => apply stable_d
  | |- P (set_e _ _) => apply stable_e
  | |- P (set_h _ _) => apply stable_h
  | |- P (set_l _ _) => apply stable_l
  | |- P (set_a2 _ _) => apply stable_a2
  | |- P (set_f2 _ _) => apply stable_f2
  | |- P (set_b2 _ _) => apply stable_b2
  | |- P (set_c2 _ _) => apply stable_c2
  | |- P (set_d2 _ _) => apply stable_d2
  | |- P (set_e2 _ _) => apply stable_e2
  | |- P (set_h2 _ _) => apply stable_h2
  | |- P (set_l2 _ _) => apply stable_l2
  | |- P (set_ix _ _) => apply stable_ix
  | |- P (set_iy _ _) => apply stable_iy
  | |- P (set_sp _ _) => apply stable_sp
  | |- P (set_pc _ _) => apply stable_pc
  | |- P (set_i _ _) => apply stable_i
  | |- P (set_r _ _) => apply stable_r
  | |- P (set_wz _ _) => apply stable_wz
  | |- P (set_iff1 _ _) => apply stable_iff1
  | |- P (set_iff2 _ _) => apply stable_iff2
  | |- P (set_im _ _) => apply stable_im
  | |- P (set_halted _ _) => apply stable_halted
  | |- P (set_step_trap_exit _ _) => apply stable_step_trap_exit
  | |- P (set_memory (mem_set _ _ _) _) => apply stable_memory
  end.
#[local] Hint Extern 1 (P _) => setter : z80.
#[local] Hint Extern 1 (P _) =>
  match goal with |- P (match ?x with _ => _ end) => destruct x end : z80.

(** Follows the branches of an operation down to its assignments. *)
Ltac branch x :=
  lazymatch type of x with
  | (_ * z80_state_t _)%type =>
      let H := fresh "Hp" in assert (P (snd x)) as H by eauto 20 with z80;
      destruct x; cbn [snd] in H
  | _ => destruct x
  end.
Ltac stable :=
  intros;
  repeat first [progress cbn beta iota zeta delta [fst snd] | match goal with
    | |- P (match ?x with _ => _ end) => branch x
    | |- P (snd (match ?x with _ => _ end)) => branch x
    end]; eauto 20 with z80.

Lemma push16_stable v cpu : P cpu → P (z80_push16 v cpu).
Proof. unfold z80_push16. stable. Qed.
Lemma set_af_stable v cpu : P cpu → P (z80_set_af v cpu).
Proof. unfold z80_set_af. stable. Qed.
Lemma set_bc_stable v cpu : P cpu → P (z80_set_bc v cpu).
Proof. unfold z80_set_bc. stable. Qed.
Lemma set_de_stable v cpu : P cpu → P (z80_set_de v cpu).
Proof. unfold z80_set_de. stable. Qed.
Lemma set_hl_stable v cpu : P cpu → P (z80_set_hl v cpu).
Proof. unfold z80_set_hl. stable. Qed.
Lemma write8_stable i v cpu : P cpu → P (z80_write8 i v cpu).
Proof. unfold z80_write8. stable. Qed.
Lemma write16_stable i v cpu : P cpu → P (z80_write16 i v cpu).
Proof. unfold z80_write16. intros. apply (stable_memory _ _ (set_memory _ _)). stable. Qed.
#[local] Hint Resolve push16_stable set_af_stable set_bc_stable set_de_stable set_hl_stable
  write8_stable write16_stable : z80.

Lemma fetch8_stable cpu : P cpu → P (z80_fetch8 cpu).2.
Proof. unfold z80_fetch8. stable. Qed.
Lemma pop16_stable cpu : P cpu → P (z80_pop16 cpu).2.
Proof. unfold z80_pop16. stable. Qed.
#[local] Hint Resolve fetch8_stable pop16_stable : z80.

Lemma fetch16_stable cpu : P cpu → P (z80_fetch16 cpu).2.
Proof. unfold z80_fetch16. stable. Qed.
Lemma write_r8_stable c v cpu : P cpu → P (z80_write_r8 c v cpu).
Proof. unfold z80_write_r8. stable. Qed.
Lemma write_rr_stable c v cpu : P cpu → P (z80_write_rr c v cpu).
Proof. unfold z80_write_rr. stable. Qed.
Lemma write_qq_stable c v cpu : P cpu → P (z80_write_qq c v cpu).
Proof. unfold z80_write_qq. stable. Qed.
Lemma add_a_stable v cpu : P cpu → P (z80_add_a v cpu).
Proof. unfold z80_add_a. stable. Qed.
Lemma adc_a_stable v cpu : P cpu → P (z80_adc_a v cpu).
Proof. unfold z80_adc_a. stable. Qed.
Lemma sub_a_stable v cpu : P cpu → P (z80_sub_a v cpu).
Proof. unfold z80_sub_a. stable. Qed.
Lemma sbc_a_stable v cpu : P cpu → P (z80_sbc_a v cpu).
Proof. unfold z80_sbc_a. stable. Qed.
Lemma and_a_stable v cpu : P cpu → P (z80_and_a v cpu).
Proof. unfold z80_and_a. stable. Qed.
Lemma xor_a_stable v cpu : P cpu → P (z80_xor_a v cpu).
Proof. unfold z80_xor_a. stable. Qed.
Lemma or_a_stable v cpu : P cpu → P (z80_or_a v cpu).
Proof. unfold z80_or_a. stable. Qed.
Lemma cp_a_stable v cpu : P cpu → P (z80_cp_a v cpu).
Proof. unfold z80_cp_a. stable. Qed.
#[local] Hint Resolve fetch16_stable write_r8_stable write_rr_stable write_qq_stable
  add_a_stable adc_a_stable sub_a_stable sbc_a_stable and_a_stable xor_a_stable
  or_a_stable cp_a_stable : z80.

Lemma alu_op_stable op v cpu : P cpu → P (z80_alu_op op v cpu).
Proof. unfold z80_alu_op. stable. Qed.
Lemma add_hl_stable v cpu : P cpu → P (z80_add_hl v cpu).
Proof. unfold z80_add_hl. stable. Qed.
Lemma adc_hl_stable v cpu : P cpu → P (z80_adc_hl v cpu).
Proof. unfold z80_adc_hl. stable. Qed.
Lemma sbc_hl_stable v cpu : P cpu → P (z80_sbc_hl v cpu).
Proof. unfold z80_sbc_hl. stable. Qed.
Lemma inc8_stable v cpu : P cpu → P (z80_inc8 v cpu).2.
Proof. unfold z80_inc8. stable. Qed.
Lemma dec8_stable v cpu : P cpu → P (z80_dec8 v cpu).2.
Proof. unfold z80_dec8. stable. Qed.
Lemma rlca_stable cpu : P cpu → P (z80_rlca cpu).
Proof. unfold z80_rlca. stable. Qed.
Lemma rrca_stable cpu : P cpu → P (z80_rrca cpu).
Proof. unfold z80_rrca. stable. Qed.
Lemma rla_stable cpu : P cpu → P (z80_rla cpu).
Proof. unfold z80_rla. stable. Qed.
Lemma rra_stable cpu : P cpu → P (z80_rra cpu).
Proof. unfold z80_rra. stable. Qed.
Lemma daa_stable cpu : P cpu → P (z80_daa cpu).
Proof. unfold z80_daa. stable. Qed.
Lemma cpl_stable cpu : P cpu → P (z80_cpl cpu).
Proof. unfold z80_cpl. stable. Qed.
Lemma scf_stable cpu : P cpu → P (z80_scf cpu).
Proof. unfold z80_scf. stable. Qed.
Lemma ccf_stable cpu : P cpu → P (z80_ccf cpu).
Proof. unfold z80_ccf. stable. Qed.
Lemma set_idx_stable i v cpu : P cpu → P (set_idx i v cpu).
Proof. unfold set_idx. stable. Qed.
Lemma cb_flags_stable r c cpu : P cpu → P (cb_flags r c cpu).2.
Proof. unfold cb_flags. stable. Qed.
#[local] Hint Resolve alu_op_stable add_hl_stable adc_hl_stable sbc_hl_stable inc8_stable
  dec8_stable rlca_stable rrca_stable rla_stable rra_stable daa_stable cpl_stable
  scf_stable ccf_stable set_idx_stable cb_flags_stable : z80.

Lemma add_ix_stable i v cpu : P cpu → P (z80_add_ix i v cpu).
Proof. unfold z80_add_ix. stable. Qed.
Lemma rlc_stable v cpu : P cpu → P (z80_rlc v cpu).2.
Proof. unfold z80_rlc. stable. Qed.
Lemma rrc_stable v cpu : P cpu → P (z80_rrc v cpu).2.
Proof. unfold z80_rrc. stable. Qed.
Lemma rl_stable v cpu : P cpu → P (z80_rl v cpu).2.
Proof. unfold z80_rl. stable. Qed.
Lemma rr_stable v cpu : P cpu → P (z80_rr v cpu).2.
Proof. unfold z80_rr. stable. Qed.
Lemma sla_stable v cpu : P cpu → P (z80_sla v cpu).2.
Proof. unfold z80_sla. stable. Qed.
Lemma sra_stable v cpu : P cpu → P (z80_sra v cpu).2.
Proof. unfold z80_sra. stable. Qed.
Lemma sll_stable v cpu : P cpu → P (z80_sll v cpu).2.
Proof. unfold z80_sll. stable. Qed.
Lemma srl_stable v cpu : P cpu → P (z80_srl v cpu).2.
Proof. unfold z80_srl. stable. Qed.
Lemma bit_stable n v cpu : P cpu → P (z80_bit n v cpu).
Proof. unfold z80_bit. stable. Qed.
Lemma inc_r_stable cpu : P cpu → P (inc_r cpu).
Proof. unfold inc_r. stable. Qed.
Lemma ex_af_stable cpu : P cpu → P (ex_af cpu).
Proof. unfold ex_af. stable. Qed.
Lemma exx_stable cpu : P cpu → P (exx cpu).
Proof. unfold exx. stable. Qed.
Lemma ed_flags_stable v pv cpu : P cpu → P (ed_flags v pv cpu).
Proof. unfold ed_flags. stable. Qed.
#[local] Hint Resolve add_ix_stable rlc_stable rrc_stable rl_stable rr_stable sla_stable
  sra_stable sll_stable srl_stable bit_stable inc_r_stable ex_af_stable exx_stable
  ed_flags_stable : z80.

Lemma acc_op_stable y cpu : P cpu → P (acc_op y cpu).
Proof. unfold acc_op. stable. Qed.
Lemma cb_shift_stable y v cpu : P cpu → P (cb_shift y v cpu).2.
Proof. unfold cb_shift. stable. Qed.
Lemma fire_trap_stable t p cpu : P cpu → P (z80_fire_trap trap_handler t p cpu).2.
Proof.
  intros HP. unfold z80_fire_trap. destruct (z_trap_handler cpu); [|done].
  pose proof (stable_handler t p (z_trap_ctx cpu) cpu HP) as H. destruct (trap_handler _ _ _ _) as [rc s]. stable.
Qed.
Lemma ed_misc_stable y cpu : P cpu → P (ed_misc y cpu).
Proof. unfold ed_misc. stable. Qed.
Lemma ed_ldi_stable y cpu : P cpu → P (ed_ldi y cpu).
Proof. unfold ed_ldi. stable. Qed.
Lemma ed_cpi_stable y cpu : P cpu → P (ed_cpi y cpu).
Proof. unfold ed_cpi. stable. Qed.
#[local] Hint Resolve acc_op_stable cb_shift_stable fire_trap_stable ed_misc_stable
  ed_ldi_stable ed_cpi_stable : z80.

Lemma ed_io_stable t y cpu : P cpu → P (ed_io trap_handler t y cpu).2.
Proof. unfold ed_io. stable. Qed.
Lemma ed_half_stable y z cpu : P cpu → P (ed_half trap_handler y z cpu).2.
Proof. unfold ed_half. stable. Qed.
#[local] Hint Resolve ed_io_stable ed_half_stable : z80.

Lemma ed_block_stable y z cpu : P cpu → P (ed_block trap_handler y z cpu).2.
Proof. unfold ed_block. stable. Qed.
#[local] Hint Resolve ed_block_stable : z80.

Lemma decode_ed_stable cpu : P cpu → P (z80_decode_ed trap_handler cpu).2.
Proof. unfold z80_decode_ed. stable. Qed.
Lemma write_r8_ix_stable c i v cpu : P cpu → P (z80_write_r8_ix c i v cpu).
Proof. unfold z80_write_r8_ix. stable. Qed.
Lemma write_rr_ix_stable c i v cpu : P cpu → P (z80_write_rr_ix c i v cpu).
Proof. unfold z80_write_rr_ix. stable. Qed.
Lemma fetch_d_stable cpu : P cpu → P (fetch_d cpu).2.
Proof. unfold fetch_d. stable. Qed.
#[local] Hint Resolve decode_ed_stable write_r8_ix_stable write_rr_ix_stable
  fetch_d_stable : z80.

Lemma ix_load_stable i o y z cpu : P cpu → P (ix_load i o y z cpu).
Proof. unfold ix_load. stable. Qed.
Lemma ix_indirect_stable i y cpu : P cpu → P (ix_indirect i y cpu).
Proof. unfold ix_indirect. stable. Qed.
Lemma ix_inc_stable i y cpu : P cpu → P (ix_incdec z80_inc8 i y cpu).
Proof. unfold ix_incdec. stable. Qed.
Lemma ix_dec_stable i y cpu : P cpu → P (ix_incdec z80_dec8 i y cpu).
Proof. unfold ix_incdec. stable. Qed.
Lemma ix_alu_stable i y z cpu : P cpu → P (ix_alu i y z cpu).
Proof. unfold ix_alu. stable. Qed.
Lemma ix_cb_stable i cpu : P cpu → P (ix_cb i cpu).
Proof. unfold ix_cb. stable. Qed.
Lemma ix_pop_stable i y cpu : P cpu → P (ix_pop i y cpu).
Proof. unfold ix_pop. stable. Qed.
#[local] Hint Resolve ix_load_stable ix_indirect_stable ix_inc_stable ix_dec_stable
  ix_alu_stable ix_cb_stable ix_pop_stable : z80.

Lemma ix_misc_stable i y z cpu : P cpu → P (ix_misc i y z cpu).
Proof. unfold ix_misc. stable. Qed.
Lemma ix_special_stable i y cpu : P cpu → P (ix_special trap_handler i y cpu).2.
Proof. unfold ix_special. stable. Qed.
#[local] Hint Resolve ix_misc_stable ix_special_stable : z80.

Lemma ix_call_stable i y z cpu : P cpu → P (ix_call trap_handler i y z cpu).2.
Proof. unfold ix_call. stable. Qed.
#[local] Hint Resolve ix_call_stable : z80.
Lemma ix_control_stable i y z cpu : P cpu → P (ix_control trap_handler i y z cpu).2.
Proof. unfold ix_control. stable. Qed.
#[local] Hint Resolve ix_control_stable : z80.

Lemma decode_index_stable i cpu : P cpu → P (z80_decode_index trap_handler i cpu).2.
Proof. unfold z80_decode_index. stable. Qed.
Lemma op_indirect_stable y cpu : P cpu → P (op_indirect y cpu).
Proof. unfold op_indirect. stable. Qed.
Lemma op_cb_stable cpu : P cpu → P (op_cb cpu).
Proof. unfold op_cb. stable. Qed.
Lemma op_pop_stable y cpu : P cpu → P (op_pop y cpu).
Proof. unfold op_pop. stable. Qed.
#[local] Hint Resolve decode_index_stable op_indirect_stable op_cb_stable op_pop_stable :
  z80.

Lemma op_misc_stable y z cpu : P cpu → P (op_misc y z cpu).
Proof. unfold op_misc. stable. Qed.
Lemma op_special_stable y cpu : P cpu → P (op_special trap_handler y cpu).2.
Proof. unfold op_special. stable. Qed.
#[local] Hint Resolve op_misc_stable op_special_stable : z80.

Lemma op_call_stable y z cpu : P cpu → P (op_call trap_handler y z cpu).2.
Proof. unfold op_call. stable. Qed.
#[local] Hint Resolve op_call_stable : z80.
Lemma op_control_stable y z cpu : P cpu → P (op_control trap_handler y z cpu).2.
Proof. unfold op_control. stable. Qed.
#[local] Hint Resolve op_control_stable : z80.

Lemma exec_stable op cpu : P cpu → P (exec trap_handler op cpu).2.
Proof. unfold exec. stable. Qed.
End Stability.

(** ** Types *)

Section Safety.
Context {C : Type} (trap_handler : z80_state_t C → Z → Z → option C → Z * z80_state_t C).
#[local] Abbreviation state := (z80_state_t C).
Implicit Types cpu : state.

(** Every field is a value of its type, and memory is an array of bytes. *)
Record z80_ok cpu : Prop := {
  ok_a : byte (z_a cpu);
  ok_f : byte (z_f cpu);
  ok_b : byte (z_b cpu);
  ok_c : byte (z_c cpu);
  ok_d : byte (z_d cpu);
  ok_e : byte (z_e cpu);
  ok_h : byte (z_h cpu);
  ok_l : byte (z_l cpu);
  ok_a2 : byte (z_a2 cpu);
  ok_f2 : byte (z_f2 cpu);
  ok_b2 : byte (z_b2 cpu);
  ok_c2 : byte (z_c2 cpu);
  ok_d2 : byte (z_d2 cpu);
  ok_e2 : byte (z_e2 cpu);
  ok_h2 : byte (z_h2 cpu);
  ok_l2 : byte (z_l2 cpu);
  ok_i : byte (z_i cpu);
  ok_r : byte (z_r cpu);
  ok_iff1 : byte (z_iff1 cpu);
  ok_iff2 : byte (z_iff2 cpu);
  ok_im : byte (z_im cpu);
  ok_halted : byte (z_halted cpu);
  ok_step_budget : byte (z_step_budget cpu);
  ok_step_trap_exit : byte (z_step_trap_exit cpu);
  ok_ix : word (z_ix cpu);
  ok_iy : word (z_iy cpu);
  ok_sp : word (z_sp cpu);
  ok_pc : word (z_pc cpu);
  ok_wz : word (z_wz cpu);
  ok_memory : ∀ i, byte (z_memory cpu i)
}.

Lemma word_mod z : word (u16 z).
Proof. apply u16_range. Qed.

#[local] Hint Resolve byte_mod word_mod : z80.

Lemma mem_set_byte i v m : (∀ j, byte (m j)) → ∀ j, byte (mem_set i v m j).
Proof. intros Hm j. unfold mem_set. case_match; auto with z80. Qed.

Lemma z80_ok_stable : (∀ t p c cpu, z80_ok cpu → z80_ok (trap_handler cpu t p c).2) →
  Stable trap_handler z80_ok.
Proof.
  intros Hh. split; [..|exact Hh];
    intros; (match goal with H : z80_ok _ |- _ => destruct H end); split; cbn; auto using mem_set_byte with z80.
Qed.

Lemma set_step_budget_ok v cpu : z80_ok cpu → z80_ok (set_step_budget v cpu).
Proof. intros []. split; cbn; auto with z80. Qed.

Lemma init_ok m n : (∀ i, byte (m i)) → z80_ok (ecpu_z80_init m n).
Proof. intros Hm. split; cbn; done. Qed.

Definition pass_state (r : state + state) : state := match r with inl cpu | inr cpu => cpu end.

Lemma run_pass_ok cpu : (∀ t p c cpu, z80_ok cpu → z80_ok (trap_handler cpu t p c).2) →
  z80_ok cpu → z80_ok (pass_state (run_pass trap_handler cpu)).
Proof.
  intros Hh Hok. pose proof (z80_ok_stable Hh) as Hst. unfold run_pass. case_match.
  - pose proof (fire_trap_stable trap_handler z80_ok CPU_TRAP_HALT 0 cpu Hok) as Ht.
    destruct (z80_fire_trap _ _ _ _) as [rc s]. cbn in Ht. case_match; [done|]. by case_match.
  - pose proof (fetch8_stable trap_handler z80_ok cpu Hok) as Hf. destruct (z80_fetch8 cpu) as [op s].
    pose proof (exec_stable trap_handler z80_ok op (inc_r s) (inc_r_stable trap_handler z80_ok s Hf)) as He.
    destruct (exec _ _ _) as [d s']. cbn in He. destruct d; [|done].
    case_match; [|done]. case_match; by apply set_step_budget_ok.
Qed.

(** ** Budgets *)

Definition budget_is (n : Z) cpu : Prop := z_step_budget cpu = n.

Lemma budget_stable n : (∀ t p c cpu, z_step_budget (trap_handler cpu t p c).2 = z_step_budget cpu) →
  Stable trap_handler (budget_is n).
Proof. intros Hh. split; [done..|]. intros. unfold budget_is. by rewrite Hh. Qed.

(** Reasons for the loop to return. *)
Definition stopped cpu : Prop := z_step_budget cpu = 0 ∨ z_step_trap_exit cpu = 1 ∨ z_halted cpu ≠ 0.

Lemma fire_trap_exit t p cpu rc cpu' :
  z80_fire_trap trap_handler t p cpu = (rc, cpu') → rc = CPU_TRAP_EXIT → z_step_trap_exit cpu' = 1.
Proof.
  unfold z80_fire_trap. intros E ->. destruct (z_trap_handler cpu); [|done].
  destruct (trap_handler _ _ _ _) as [rc s]. simplify_eq/=. done.
Qed.

(** [Exit] comes from a trap handler that asked for it. *)
Definition exits (r : decoded * state) : Prop := r.1 = Exit → z_step_trap_exit r.2 = 1.

Lemma trap_exits t p cpu (k : Z → state → decoded * state) :
  (∀ rc s, rc = CPU_TRAP_EXIT → (k rc s).2 = s) → (∀ rc s, rc ≠ CPU_TRAP_EXIT → exits (k rc s)) →
  exits (let '(rc, s) := z80_fire_trap trap_handler t p cpu in k rc s).
Proof.
  intros Hs Hk. destruct (z80_fire_trap trap_handler t p cpu) as [rc s] eqn:E.
  destruct (decide (rc = CPU_TRAP_EXIT)) as [He|]; [|by apply Hk].
  intros _. rewrite Hs by done. by eapply fire_trap_exit.
Qed.

Lemma exit_pair cpu : exits (Next, cpu).
Proof. done. Qed.

Ltac exits :=
  repeat first [apply exit_pair
    | apply trap_exits; [intros ? ? ->; reflexivity|intros ? ? ?%Z.eqb_neq]
    | match goal with H : (_ =? _) = false |- _ => rewrite H; clear H end
    | match goal with |- exits (match ?x with _ => _ end) => destruct x end].

Lemma ed_io_exits t y cpu : exits (ed_io trap_handler t y cpu).
Proof. unfold ed_io. exits. Qed.
Lemma ed_half_exits y z cpu : exits (ed_half trap_handler y z cpu).
Proof. unfold ed_half. exits. Qed.
Lemma decode_ed_exits cpu : exits (z80_decode_ed trap_handler cpu).
Proof.
  unfold z80_decode_ed, ed_block. destruct (z80_fetch8 cpu) as [op s]. case_match; [apply ed_half_exits|].
  exits; apply ed_io_exits.
Qed.
Lemma ix_special_exits i y cpu : exits (ix_special trap_handler i y cpu).
Proof. unfold ix_special. exits. Qed.
Lemma ix_call_exits i y z cpu : exits (ix_call trap_handler i y z cpu).
Proof. unfold ix_call. exits; apply decode_ed_exits. Qed.
Lemma ix_control_exits i y z cpu : exits (ix_control trap_handler i y z cpu).
Proof. unfold ix_control. exits; apply ix_special_exits || apply ix_call_exits. Qed.
Lemma decode_index_exits i cpu : exits (z80_decode_index trap_handler i cpu).
Proof. unfold z80_decode_index. exits; apply ix_control_exits. Qed.
Lemma op_special_exits y cpu : exits (op_special trap_handler y cpu).
Proof. unfold op_special. exits. Qed.
Lemma op_call_exits y z cpu : exits (op_call trap_handler y z cpu).
Proof. unfold op_call. exits; apply decode_ed_exits || apply decode_index_exits. Qed.
Lemma op_control_exits y z cpu : exits (op_control trap_handler y z cpu).
Proof. unfold op_control. exits; apply op_special_exits || apply op_call_exits. Qed.
Lemma exec_exits op cpu : exits (exec trap_handler op cpu).
Proof. unfold exec. exits; apply op_control_exits. Qed.

(** One pass with a budget. *)
Lemma run_pass_budget cpu : (∀ t p c s, z_step_budget (trap_handler s t p c).2 = z_step_budget s) →
  0 < z_step_budget cpu < 256 →
  match run_pass trap_handler cpu with
  | inr s => stopped s
  | inl s => if z_halted cpu =? 0 then z_step_budget s = z_step_budget cpu - 1 ∧ 0 < z_step_budget s
             else z_halted s = 0 ∧ z_step_budget s = z_step_budget cpu
  end.
Proof.
  intros Hh Hb. pose proof (budget_stable (z_step_budget cpu) Hh) as Hst. unfold run_pass.
  destruct (Z.eqb_spec (z_halted cpu) 0) as [Hz|Hz]; cbn [negb].
  - pose proof (fetch8_stable trap_handler (budget_is (z_step_budget cpu)) cpu eq_refl) as Hf. destruct (z80_fetch8 cpu) as [op s].
    pose proof (exec_stable trap_handler _ op _ (inc_r_stable trap_handler _ s Hf)) as He. unfold budget_is in He.
    pose proof (exec_exits op (inc_r s)) as Hx.
    destruct (exec _ _ _) as [d s']. cbn in He, Hx. destruct d; [|right; left; by apply Hx].
    rewrite He. destruct (Z.eqb_spec (z_step_budget cpu) 0); [lia|]. cbn [negb].
    change (z_step_budget (set_step_budget ?v ?c)) with (u8 v). rewrite u8_small by lia.
    destruct (Z.eqb_spec (z_step_budget cpu - 1) 0) as [E|E].
    + left. change (z_step_budget (set_step_budget ?v ?c)) with (u8 v). by rewrite u8_small, E by lia.
    + change (z_step_budget (set_step_budget ?v ?c)) with (u8 v). rewrite u8_small by lia. lia.
  - pose proof (fire_trap_stable trap_handler (budget_is (z_step_budget cpu)) CPU_TRAP_HALT 0 cpu eq_refl) as Ht.
    destruct (z80_fire_trap _ _ _ _) as [rc s] eqn:E. unfold budget_is in Ht. cbn in Ht.
    destruct (Z.eqb_spec rc CPU_TRAP_EXIT); [right; left; by eapply fire_trap_exit|].
    destruct (Z.eqb_spec (z_halted s) 0); [done|by right; right].
Qed.

Lemma run_loop_returns fuel cpu : (∀ t p c s, z_step_budget (trap_handler s t p c).2 = z_step_budget s) →
  0 < z_step_budget cpu < 256 →
  2 * z_step_budget cpu - (if z_halted cpu =? 0 then 1 else 0) <= Z.of_nat fuel →
  ∃ cpu', run_loop trap_handler fuel cpu = Some cpu' ∧ stopped cpu'.
Proof.
  intros Hh. revert cpu. induction fuel as [|fuel IH]; intros cpu Hb Hf; [case_match; lia|].
  pose proof (run_pass_budget cpu Hh Hb) as Hp. cbn [run_loop].
  destruct (run_pass trap_handler cpu) as [s|s]; [|by exists s].
  destruct (z_halted cpu =? 0).
  - apply IH; [lia|]. case_match; lia.
  - destruct Hp as [Hz Hs]. apply IH; [lia|]. rewrite Hz, Hs. cbn. lia.
Qed.
End Safety.

(** ** Index prefixes *)

Section Prefixes.
Context {C : Type} (trap_handler : z80_state_t C → Z → Z → option C → Z * z80_state_t C).
#[local] Abbreviation state := (z80_state_t C).
Implicit Types cpu : state.

(** Codes 4 to 6 of a register field name H, L and (HL), pair 2 names HL. *)
Definition names_hl (code : Z) : bool := (4 <=? code) && (code <=? 6).
Definition names_pair (yyy : Z) : bool := yyy ≫ 1 =? 2.

(** Opcodes an index prefix does not concern: they do not name HL, and are not
    prefixes of another table. *)
Definition index_free (op : Z) : bool :=
  let xx := op ≫ 6 in
  let yyy := (op ≫ 3) .& 7 in
  let zzz := op .& 7 in
  match xx with
  | 0 => match zzz with
         | 0 | 7 => true
         | 1 => negb (bset yyy 1) && negb (names_pair yyy)
         | 2 => negb ((yyy =? 4) || (yyy =? 5))
         | 3 => negb (names_pair yyy)
         | _ => negb (names_hl yyy)
         end
  | 1 => (op =? 0x76) || negb (names_hl yyy || names_hl zzz)
  | 2 => negb (names_hl zzz)
  | _ => match zzz with
         | 1 => (yyy =? 1) || (yyy =? 3) || (negb (bset yyy 1) && negb (names_pair yyy))
         | 3 => negb ((yyy =? 1) || (yyy =? 4))
         | 5 => (yyy =? 1) || (yyy =? 5) || (negb (bset yyy 1) && negb (names_pair yyy))
         | _ => true
         end
  end.

Ltac field_cases x :=
  assert (x = 0 ∨ x = 1 ∨ x = 2 ∨ x = 3 ∨ x = 4 ∨ x = 5 ∨ x = 6 ∨ x = 7)
    as [->|[->|[->|[->|[->|[->|[->| ->]]]]]]] by lia.

Lemma decode_index_free idx op cpu : 0 <= op < 256 → index_free op = true →
  match op ≫ 6 with
  | 1 => (Next, ix_load idx op ((op ≫ 3) .& 7) (op .& 7) cpu)
  | 0 => (Next, ix_misc idx ((op ≫ 3) .& 7) (op .& 7) cpu)
  | 2 => (Next, ix_alu idx ((op ≫ 3) .& 7) (op .& 7) cpu)
  | 3 => ix_control trap_handler idx ((op ≫ 3) .& 7) (op .& 7) cpu
  | _ => (Next, cpu)
  end = exec trap_handler op cpu.
Proof.
  intros Hop. unfold index_free, exec. rewrite !land_7.
  pose proof (Z.mod_pos_bound op 8 ltac:(lia)) as Hz. pose proof (Z.mod_pos_bound (op ≫ 3) 8 ltac:(lia)) as Hy.
  assert (0 <= op ≫ 6 < 4) as Hx.
  { rewrite Z.shiftr_div_pow2 by lia. split; [by apply Z.div_pos; lia|apply Z.div_lt_upper_bound; lia]. }
  set (yyy := (op ≫ 3) mod 8) in *. set (zzz := op mod 8) in *. set (xx := op ≫ 6) in *.
  clearbody yyy zzz xx.
  assert (xx = 0 ∨ xx = 1 ∨ xx = 2 ∨ xx = 3) as [->|[->|[->| ->]]] by lia.
  - field_cases zzz; try reflexivity; field_cases yyy; (discriminate || reflexivity).
  - unfold ix_load. destruct (op =? 0x76); [done|]. cbn [orb].
    field_cases zzz; try discriminate; field_cases yyy; (discriminate || reflexivity).
  - field_cases zzz; (discriminate || reflexivity).
  - field_cases zzz; try reflexivity; field_cases yyy; (discriminate || reflexivity).
Qed.
End Prefixes.

(** ** Block copies *)

Section Blocks.
Context {C : Type} (trap_handler : z80_state_t C → Z → Z → option C → Z * z80_state_t C).
#[local] Abbreviation state := (z80_state_t C).
Implicit Types cpu : state.

(** The state after [n] passes that all go round again. *)
Fixpoint passes (n : nat) cpu : option state :=
  match n with
  | O => Some cpu
  | S n => match run_pass trap_handler cpu with inl s => passes n s | inr _ => None end
  end.

Lemma pair_value v : u16 ((u8 (v ≫ 8) ≪ 8) .| u8 (v .& 0xFF)) = u16 v.
Proof.
  rewrite lor_pair by apply u8_range. rewrite land_ff, uN_idem by lia. rewrite Z.shiftr_div_pow2 by lia. unfold uN.
  pose proof (Z.div_mod v (2 ^ 8) ltac:(lia)) as E. change (2 ^ 8) with 256 in *. change (2 ^ 16) with 65536.
  pose proof (Z.div_mod (v / 256) 256 ltac:(lia)) as E'.
  rewrite E at 3. rewrite E' at 2.
  replace (256 * (256 * (v / 256 / 256) + (v / 256) mod 256) + v mod 256)
    with ((v / 256) mod 256 * 256 + v mod 256 + v / 256 / 256 * 65536) by ring.
  by rewrite Z.mod_add.
Qed.

Lemma hl_set v cpu : z80_hl (z80_set_hl v cpu) = u16 v.
Proof. apply pair_value. Qed.
Lemma de_set v cpu : z80_de (z80_set_de v cpu) = u16 v.
Proof. apply pair_value. Qed.
Lemma bc_set v cpu : z80_bc (z80_set_bc v cpu) = u16 v.
Proof. apply pair_value. Qed.

(** What LDI and LDIR do, apart from the flags. *)
Lemma ed_ldi_spec cpu : let cpu' := ed_ldi 6 cpu in
  z_memory cpu' = mem_set (z80_de cpu) (z_memory cpu (z80_hl cpu)) (z_memory cpu) ∧
  z80_hl cpu' = u16 (z80_hl cpu + 1) ∧ z80_de cpu' = u16 (z80_de cpu + 1) ∧
  z80_bc cpu' = u16 (z80_bc cpu - 1) ∧
  z_pc cpu' = (if u16 (z80_bc cpu - 1) =? 0 then z_pc cpu else u16 (z_pc cpu - 2)) ∧
  z_halted cpu' = z_halted cpu ∧ z_step_budget cpu' = z_step_budget cpu.
Proof.
  cbn zeta. unfold ed_ldi. change (bset 6 1) with false. change (6 <=? 6) with true. cbn [andb]. cbn beta iota zeta.
  set (c1 := z80_write8 _ _ cpu). set (c2 := z80_set_hl _ c1). set (c3 := z80_set_de _ c2).
  set (c4 := z80_set_bc _ c3). set (f := _ .| _). set (c5 := set_f f c4).
  assert (z80_bc c5 = u16 (z80_bc cpu - 1)) as Hbc.
  { change (z80_bc c5) with (z80_bc c4). subst c4. by rewrite bc_set, uN_idem. }
  assert (z80_hl c5 = u16 (z80_hl cpu + 1)) as Hhl.
  { change (z80_hl c5) with (z80_hl c2). subst c2. by rewrite hl_set, uN_idem. }
  assert (z80_de c5 = u16 (z80_de cpu + 1)) as Hde.
  { change (z80_de c5) with (z80_de c3). subst c3. by rewrite de_set, uN_idem. }
  rewrite Hbc. destruct (u16 (z80_bc cpu - 1) =? 0); cbn [negb]; split_and!; done.
Qed.

Lemma decode_ldir cpu : z_memory cpu (z_pc cpu) = 0xB0 →
  z80_decode_ed trap_handler cpu = (Next, ed_ldi 6 (inc_r (set_pc (z_pc cpu + 1) cpu))).
Proof. intros H. unfold z80_decode_ed, z80_fetch8. rewrite H. reflexivity. Qed.

Lemma ldir_pass cpu : z80_ok cpu → z_halted cpu = 0 → z_step_budget cpu = 0 →
  z_memory cpu (z_pc cpu) = 0xED → z_memory cpu (u16 (z_pc cpu + 1)) = 0xB0 →
  ∃ s, run_pass trap_handler cpu = inl s ∧
    z_memory s = mem_set (z80_de cpu) (z_memory cpu (z80_hl cpu)) (z_memory cpu) ∧
    z80_hl s = u16 (z80_hl cpu + 1) ∧ z80_de s = u16 (z80_de cpu + 1) ∧ z80_bc s = u16 (z80_bc cpu - 1) ∧
    z_pc s = (if u16 (z80_bc cpu - 1) =? 0 then u16 (z_pc cpu + 2) else z_pc cpu) ∧
    z_halted s = 0 ∧ z_step_budget s = 0.
Proof.
  intros Hok Hh Hb H0 H1.
  set (c1 := inc_r (set_pc (z_pc cpu + 1) cpu)). set (c := inc_r (set_pc (z_pc c1 + 1) c1)).
  destruct (ed_ldi_spec c) as (A & B & D & E & F & G & I). exists (ed_ldi 6 c).
  assert (run_pass trap_handler cpu = inl (ed_ldi 6 c)) as ->.
  { unfold run_pass. rewrite Hh. change (negb (0 =? 0)) with false. cbn beta iota. unfold z80_fetch8 at 1.
    rewrite H0. cbn beta iota. fold c1. change (exec trap_handler 0xED) with (z80_decode_ed (C:=C) trap_handler).
    rewrite (decode_ldir c1 H1). cbn beta iota. fold c.
    rewrite I. change (z_step_budget c) with (z_step_budget cpu). by rewrite Hb. }
  split_and!; try done; [| by rewrite G | by rewrite I].
  rewrite F. change (z80_bc c) with (z80_bc cpu). change (z_pc c) with (u16 (u16 (z_pc cpu + 1) + 1)).
  pose proof (ok_pc _ Hok) as Hpc. unfold word in Hpc.
  rewrite (u16_sub (u16 (z_pc cpu + 1) + 1)), (u16_add (z_pc cpu + 1)).
  replace (u16 (z_pc cpu + 1) + 1 - 2) with (u16 (z_pc cpu + 1) - 1) by lia. rewrite (u16_sub (z_pc cpu + 1)).
  replace (z_pc cpu + 1 - 1) with (z_pc cpu) by lia. rewrite (u16_small (z_pc cpu)) by lia.
  by replace (z_pc cpu + 1 + 1) with (z_pc cpu + 2) by lia.
Qed.

Lemma ldir_loop n cpu : (∀ t p c s, z80_ok s → z80_ok (trap_handler s t p c).2) →
  z80_ok cpu → z_halted cpu = 0 → z_step_budget cpu = 0 →
  z_memory cpu (z_pc cpu) = 0xED → z_memory cpu (u16 (z_pc cpu + 1)) = 0xB0 →
  z80_bc cpu = Z.of_nat (S n) →
  let s := z80_hl cpu in
  let d := z80_de cpu in
  let k := z80_bc cpu in
  s + k <= 65536 → d + k <= 65536 → (d <= s ∨ s + k <= d) →
  ¬ (d <= z_pc cpu < d + k) → ¬ (d <= u16 (z_pc cpu + 1) < d + k) →
  ∃ cpu', passes (S n) cpu = Some cpu' ∧
    z80_bc cpu' = 0 ∧ z80_hl cpu' = u16 (s + k) ∧ z80_de cpu' = u16 (d + k) ∧ z_pc cpu' = u16 (z_pc cpu + 2) ∧
    ∀ i, z_memory cpu' i = if (d <=? i) && (i <? d + k) then z_memory cpu (s + (i - d)) else z_memory cpu i.
Proof.
  intros Hh. revert cpu. induction n as [|n IH]; intros cpu Hok Hha Hb H0 H1 Hbc s d k Hs Hd Hov Hp0 Hp1;
    subst s d k; rewrite Hbc in *.
  all: destruct (ldir_pass cpu Hok Hha Hb H0 H1) as (c & Hc & Em & Ehl & Ede & Ebc & Epc & Eha & Eb).
  all: pose proof (run_pass_ok trap_handler cpu Hh Hok) as Hok'; rewrite Hc in Hok'; cbn [pass_state] in Hok'.
  all: assert (byte (z_memory cpu (z80_hl cpu))) as Hby by apply (ok_memory _ Hok).
  all: assert (0 <= z80_hl cpu ∧ 0 <= z80_de cpu) as [Hs0 Hd0] by (split; apply u16_range).
  all: set (s := z80_hl cpu) in *; set (d := z80_de cpu) in *; rewrite Hbc in Ebc, Epc.
  all: assert (∀ i, z_memory c i = if i =? d then z_memory cpu s else z_memory cpu i) as Em'
    by (intros i; rewrite Em; unfold mem_set; by rewrite (u8_small _ Hby)).
  - exists c. cbn [passes]. rewrite Hc. split_and!; try done. intros i. rewrite Em'.
    destruct (Z.eqb_spec i d), (Z.leb_spec d i), (Z.ltb_spec i (d + Z.of_nat 1)); cbn [andb]; try lia; try done.
    by replace (s + (i - d)) with s by lia.
  - rewrite u16_small in Ebc, Epc, Ehl, Ede by lia.
    destruct (Z.eqb_spec (Z.of_nat (S (S n)) - 1) 0); [lia|].
    destruct (IH c) as (c' & Hp & A & B & D & E & F); try done.
    + rewrite Em', Epc. destruct (Z.eqb_spec (z_pc cpu) d); [lia|done].
    + rewrite Em', Epc. destruct (Z.eqb_spec (u16 (z_pc cpu + 1)) d); [lia|done].
    + rewrite Ebc. lia.
    + rewrite Ehl, Ebc. lia.
    + rewrite Ede, Ebc. lia.
    + rewrite Ehl, Ede, Ebc. lia.
    + rewrite Ede, Ebc, Epc. lia.
    + rewrite Ede, Ebc, Epc. lia.
    + exists c'. change (passes (S (S n)) cpu) with (match run_pass trap_handler cpu with
        inl s => passes (S n) s | inr _ => None end). rewrite Hc, Hp, B, D, E, A, Ehl, Ede, Ebc, Epc.
      split_and!; try (done || f_equal; lia). intros i. rewrite F, Ehl, Ede, Ebc, !Em'.
      destruct (Z.leb_spec (d + 1) i), (Z.ltb_spec i (d + 1 + (Z.of_nat (S (S n)) - 1))),
        (Z.leb_spec d i), (Z.ltb_spec i (d + Z.of_nat (S (S n)))); cbn [andb]; try lia.
      all: try (destruct (Z.eqb_spec i d); try lia; done || (by replace (s + (i - d)) with s by lia)).
      destruct (Z.eqb_spec (s + 1 + (i - (d + 1))) d); [lia|]. f_equal. lia.
Qed.
End Blocks.

(** ** Properties *)

(** Memory holding LD A,n; INC A; HALT at 0. *)
Definition demo_mem : Z → Z := λ i, match i with 0 => 0x3E | 1 => 0xFF | 2 => 0x3C | 3 => 0x76 | _ => 0 end.
Definition no_handler : z80_state_t unit → Z → Z → option unit → Z * z80_state_t unit := λ s _ _ _, (0, s).

(** C9. Budgeted runs return: with a step budget of [n] instructions and a trap
    handler that leaves the budget alone, [ecpu_z80_run] returns within [2 * n]
    passes, halts included, whatever the program does; it returns because the
    budget is used up, because a trap handler asked to exit, or halted. *)
Theorem z80_budgeted_run_returns {C} (trap_handler : z80_state_t C → Z → Z → option C → Z * z80_state_t C)
    cpu fuel :
  (∀ t p c s, z_step_budget (trap_handler s t p c).2 = z_step_budget s) →
  0 < z_step_budget cpu < 256 → 2 * z_step_budget cpu <= Z.of_nat fuel →
  ∃ cpu', ecpu_z80_run trap_handler fuel cpu = Some cpu' ∧ stopped cpu'.
Proof.
  intros Hh Hb Hf. apply run_loop_returns; [done|done|]. cbn -[Z.mul Z.sub]. case_match; lia.
Qed.

Lemma z80_budgeted_run_returns_witness :
  ∃ cpu', ecpu_z80_run no_handler 4 (set_step_budget 2 (ecpu_z80_init demo_mem 65536)) = Some cpu' ∧ stopped cpu'.
Proof. apply (z80_budgeted_run_returns no_handler); [done|by split|by vm_compute]. Defined.

(** The decoder of the DD and FD prefixes agrees with the main switch on
    every opcode that does not name H, L, HL or (HL): the prefixed instruction
    does exactly what the instruction after the prefix does alone. *)
Theorem index_prefix_transparent {C} (trap_handler : z80_state_t C → Z → Z → option C → Z * z80_state_t C) cpu :
  z80_ok cpu → z_halted cpu = 0 →
  z_memory cpu (z_pc cpu) = 0xDD ∨ z_memory cpu (z_pc cpu) = 0xFD →
  index_free (z_memory cpu (u16 (z_pc cpu + 1))) = true →
  run_pass trap_handler cpu = run_pass trap_handler (inc_r (set_pc (z_pc cpu + 1) cpu)).
Proof.
  intros Hok Hh Hp Hfree. set (c := inc_r (set_pc (z_pc cpu + 1) cpu)).
  assert (exec trap_handler (z_memory cpu (z_pc cpu)) c = exec trap_handler (z_memory c (z_pc c)) (inc_r (set_pc (z_pc c + 1) c))) as He.
  { destruct Hp as [-> | ->].
    - change (exec trap_handler 0xDD c) with (z80_decode_index trap_handler IX c).
      exact (decode_index_free trap_handler IX _ _ (ok_memory _ Hok _) Hfree).
    - change (exec trap_handler 0xFD c) with (z80_decode_index trap_handler IY c).
      exact (decode_index_free trap_handler IY _ _ (ok_memory _ Hok _) Hfree). }
  unfold run_pass. rewrite Hh. change (z_halted c) with (z_halted cpu). rewrite Hh. unfold z80_fetch8.
  cbn beta iota. fold c. by rewrite He.
Qed.

(** DD; LD B,n *)
Definition demo_index : z80_state_t unit :=
  ecpu_z80_init (λ i, match i with 0 => 0xDD | 1 => 0x06 | 2 => 7 | _ => 0 end) 65536.

Lemma index_prefix_transparent_witness :
  run_pass no_handler demo_index = run_pass no_handler (inc_r (set_pc (z_pc demo_index + 1) demo_index)).
Proof.
  apply (index_prefix_transparent no_handler demo_index); [|done|by left|done].
  apply init_ok. intros i. unfold byte. repeat case_match; lia.
Defined.

(** LDIR copies a block: with BC = n > 0 it takes n passes, after which the
    n bytes from DE on are the bytes that were at HL, every other byte is
    unchanged, HL and DE point behind the blocks, BC is 0, and the program goes
    on behind the instruction; the destination may overlap the source from below
    but must not contain the instruction. *)
Theorem ldir_copies_block {C} (trap_handler : z80_state_t C → Z → Z → option C → Z * z80_state_t C) cpu :
  (∀ t p c s, z80_ok s → z80_ok (trap_handler s t p c).2) →
  z80_ok cpu → z_halted cpu = 0 → z_step_budget cpu = 0 →
  z_memory cpu (z_pc cpu) = 0xED → z_memory cpu (u16 (z_pc cpu + 1)) = 0xB0 →
  let s := z80_hl cpu in
  let d := z80_de cpu in
  let n := z80_bc cpu in
  n ≠ 0 → s + n <= 65536 → d + n <= 65536 → (d <= s ∨ s + n <= d) →
  ¬ (d <= z_pc cpu < d + n) → ¬ (d <= u16 (z_pc cpu + 1) < d + n) →
  ∃ cpu', passes trap_handler (Z.to_nat n) cpu = Some cpu' ∧
    z80_bc cpu' = 0 ∧ z80_hl cpu' = u16 (s + n) ∧ z80_de cpu' = u16 (d + n) ∧ z_pc cpu' = u16 (z_pc cpu + 2) ∧
    ∀ i, z_memory cpu' i = if (d <=? i) && (i <? d + n) then z_memory cpu (s + (i - d)) else z_memory cpu i.
Proof.
  intros Hh Hok Hha Hb H0 H1 s d n Hn Hs Hd Hov Hp0 Hp1.
  assert (0 <= n) as Hn0 by apply u16_range.
  assert (Z.to_nat n = S (Z.to_nat (n - 1))) as -> by lia.
  apply ldir_loop; try done. change (z80_bc cpu) with n. lia.
Qed.

(** LDIR at 0, three bytes from 0x100 to 0xFF. *)
Definition demo_ldir : z80_state_t unit :=
  z80_set_bc 3 (z80_set_de 0xFF (z80_set_hl 0x100 (ecpu_z80_init
    (λ i, match i with 0 => 0xED | 1 => 0xB0 | 0x100 => 1 | 0x101 => 2 | 0x102 => 3 | _ => 0 end) 65536))).

Lemma ldir_copies_block_witness :
  ∃ cpu', passes no_handler (Z.to_nat 3) demo_ldir = Some cpu' ∧
    z80_bc cpu' = 0 ∧ z80_hl cpu' = u16 (0x100 + 3) ∧ z80_de cpu' = u16 (0xFF + 3) ∧ z_pc cpu' = u16 (0 + 2) ∧
    ∀ i, z_memory cpu' i =
      if (0xFF <=? i) && (i <? 0xFF + 3) then z_memory demo_ldir (0x100 + (i - 0xFF)) else z_memory demo_ldir i.
Proof.
  apply (ldir_copies_block no_handler demo_ldir); [done| |done|done|done|done| | | | | |].
  { split; cbn; try done. intros i. unfold byte. repeat case_match; lia. }
  all: vm_compute; intuition congruence.
Defined.
