(* ===== verification/Fd.v ===== *)
(** * Fd: the descriptor pool and the descriptor tables
    (src/kernel/vfs/fd.c, src/kernel/core/syscall/sys_fs.c, sys_proc.c)

    Open files are entries of a system-wide pool with a reference count; each
    process maps its descriptors to pool entries.  Every operation on an open
    file holds a reference of its own from [fd_get] to [vfs_fd_release].  The
    call of a file's [close] function is an event of the state. *)

From S2P Require Import Prelude Config Pipe.

Definition O_ACCMODE : Z := 3.
Definition SEEK_SET : Z := 0.
Definition SEEK_CUR : Z := 1.
Definition SEEK_END : Z := 2.

(** [struct file] without its mutex; [f_ops] is the address of the table of
    functions, [f_vnode] that of the vnode, 0 for NULL. *)
Record file_t := File {
  f_ops : Z;
  f_priv : Z;
  f_flags : Z;
  f_refcnt : Z;
  f_vnode : Z;
  f_offset : Z
}.

Definition file_zero : file_t := File 0 0 0 0 0 0.
#[export] Instance file_inhabited : Inhabited file_t := populate file_zero.

Definition set_f_refcnt (v : Z) (f : file_t) : file_t :=
  File (f_ops f) (f_priv f) (f_flags f) (u32 v) (f_vnode f) (f_offset f).
Definition set_f_flags (v : Z) (f : file_t) : file_t :=
  File (f_ops f) (f_priv f) (u32 v) (f_refcnt f) (f_vnode f) (f_offset f).
Definition set_f_offset (v : Z) (f : file_t) : file_t :=
  File (f_ops f) (f_priv f) (f_flags f) (f_refcnt f) (f_vnode f) (u32 v).

(** A process: its [fd_map], and the entry its current operation holds. *)
Record fd_proc := FdProc { fp_map : list Z; fp_busy : option Z }.
#[export] Instance fd_proc_inhabited : Inhabited fd_proc := populate (FdProc [] None).

(** [closed]: the files whose [close] was called, the last one first. *)
Record fd_state := FdState { fd_pool : list file_t; procs : list fd_proc; closed : list file_t }.

Definition file (st : fd_state) (d : Z) : file_t := fd_pool st !!! Z.to_nat d.
Definition upd_file (d : Z) (f : file_t → file_t) (st : fd_state) : fd_state :=
  FdState (alter f (Z.to_nat d) (fd_pool st)) (procs st) (closed st).
Definition fd_map (st : fd_state) (c : nat) : list Z := fp_map (procs st !!! c).
Definition set_map (c : nat) (i : Z) (v : Z) (st : fd_state) : fd_state :=
  FdState (fd_pool st) (alter (λ p, FdProc (<[Z.to_nat i := s16 v]> (fp_map p)) (fp_busy p)) c (procs st)) (closed st).
Definition set_busy (c : nat) (v : option Z) (st : fd_state) : fd_state :=
  FdState (fd_pool st) (alter (λ p, FdProc (fp_map p) v) c (procs st)) (closed st).

Definition desc_ok (d : Z) : bool := negb ((d <? 0) || (Z.of_nat FILE_MAX <=? d)).

(** ** The pool *)

Fixpoint pool_scan (l : list file_t) (i : nat) : option nat :=
  match l with
  | [] => None
  | f :: l => if (f_refcnt f =? 0) && (f_ops f =? 0) then Some i else pool_scan l (S i)
  end.

Definition fd_pool_alloc (st : fd_state) : Z * fd_state :=
  match pool_scan (fd_pool st) 0 with
  | None => (-1, st)
  | Some i => (Z.of_nat i, upd_file (Z.of_nat i) (λ _, set_f_refcnt 1 file_zero) st)
  end.

(** NULL is false. *)
Definition fd_get (d : Z) (st : fd_state) : bool * fd_state :=
  if negb (desc_ok d) then (false, st)
  else if (0 <? f_refcnt (file st d)) && negb (f_ops (file st d) =? 0)
  then (true, upd_file d (λ f, set_f_refcnt (f_refcnt f + 1) f) st)
  else (false, st).

Definition vfs_fd_acquire (d : Z) (st : fd_state) : fd_state :=
  if negb (desc_ok d) then st
  else if 0 <? f_refcnt (file st d) then upd_file d (λ f, set_f_refcnt (f_refcnt f + 1) f) st
  else st.

Definition vfs_fd_release (d : Z) (st : fd_state) : fd_state :=
  if negb (desc_ok d) then st
  else
    let st := if 0 <? f_refcnt (file st d) then upd_file d (λ f, set_f_refcnt (f_refcnt f - 1) f) st else st in
    if f_refcnt (file st d) =? 0 then
      let closing := file st d in
      let st := upd_file d (λ _, file_zero) st in
      if negb (f_ops closing =? 0) then FdState (fd_pool st) (procs st) (closing :: closed st) else st
    else st.

(** The end of [vfs_fd_open], and [fd_pool_alloc_pipe]: a new entry. *)
Definition fd_pool_install (ops priv flags vnode offset : Z) (st : fd_state) : Z * fd_state :=
  let '(d, st) := fd_pool_alloc st in
  if d <? 0 then (- ENOMEM, st)
  else (d, upd_file d (λ f, File ops priv (u32 flags) (f_refcnt f) vnode (u32 offset)) st).

(** [vfs_fd_pipe_create] behind [pipe_alloc], whose result is [priv]; [pipe_free]
    belongs to Pipe. *)
Definition vfs_fd_pipe_create (rops wops priv : Z) (st : fd_state) : Z * Z * Z * fd_state :=
  if priv =? 0 then (- ENOMEM, 0, 0, st)
  else
    let '(rd, st) := fd_pool_install rops priv O_RDONLY 0 0 st in
    if rd <? 0 then (rd, 0, 0, st)
    else
      let '(wd, st) := fd_pool_install wops priv O_WRONLY 0 0 st in
      if wd <? 0 then (wd, 0, 0, vfs_fd_release rd st) else (0, rd, wd, st).

(** At boot: [tty] is the address of [tty_fops], [console] the console's. *)
Definition fd_pool_init (tty console : Z) (ps : list fd_proc) : fd_state :=
  FdState
    ([File tty console O_RDONLY 1 0 0; File tty console O_WRONLY 1 0 0; File tty console O_WRONLY 1 0 0]
     ++ replicate (FILE_MAX - 3) file_zero) ps [].

Definition vfs_fd_stdio_desc (which : Z) (st : fd_state) : Z * fd_state :=
  if (which <? 0) || (2 <? which) then (-1, st)
  else (which, upd_file which (λ f, set_f_refcnt (f_refcnt f + 1) f) st).

Definition set_f_priv (v : Z) (f : file_t) : file_t :=
  File (f_ops f) v (f_flags f) (f_refcnt f) (f_vnode f) (f_offset f).

(** ** File state *)

(** Between [fd_get] and [vfs_fd_release]; [size] is that of the vnode. *)
Definition fd_lseek (size off whence : Z) (f : file_t) : Z * file_t :=
  if f_vnode f =? 0 then (- ESPIPE, f)
  else
    let move new_off := if new_off <? 0 then (- EINVAL, f) else (new_off, set_f_offset new_off f) in
    if whence =? SEEK_SET then move off
    else if whence =? SEEK_CUR then move (s32 (s32 (f_offset f) + off))
    else if whence =? SEEK_END then move (s32 (s32 size + off))
    else (- EINVAL, f).

Definition fd_fcntl (cmd arg : Z) (f : file_t) : Z * file_t :=
  if cmd =? 3 then (s32 (f_flags f), f)
  else if cmd =? 4 then
    (0, set_f_flags (Z.lor (Z.land (f_flags f) O_ACCMODE) (Z.land arg (Z.lnot O_ACCMODE))) f)
  else (- EINVAL, f).

(** ** System calls on the table of process [c] *)

Definition fd_ok (fd : Z) : bool := negb ((fd <? 0) || (Z.of_nat FD_MAX <=? fd)).
Definition lookup_fd (c : nat) (fd : Z) (st : fd_state) : Z := fd_map st c !!! Z.to_nat fd.

(** The first free slot from [i] on, [n] slots left. *)
Fixpoint free_slot (n : nat) (i : Z) (m : list Z) : option Z :=
  match n with
  | O => None
  | S n => if m !!! Z.to_nat i =? FD_DESC_NONE then Some i else free_slot n (i + 1) m
  end.

(** The part of [sys_open] behind [fd_open]. *)
Definition open_slot (c : nat) (d : Z) (st : fd_state) : Z * fd_state :=
  match free_slot FD_MAX 0 (fd_map st c) with
  | Some i => (i, set_map c i d st)
  | None => (- EMFILE, vfs_fd_release d st)
  end.

Definition sys_open_install (c : nat) (ops priv flags vnode offset : Z) (st : fd_state) : Z * fd_state :=
  let '(d, st) := fd_pool_install ops priv flags vnode offset st in
  if d <? 0 then (d, st) else open_slot c d st.

Definition sys_close (c : nat) (fd : Z) (st : fd_state) : Z * fd_state :=
  if negb (fd_ok fd) then (- EBADF, st)
  else
    let d := lookup_fd c fd st in
    if d =? FD_DESC_NONE then (- EBADF, st)
    else (0, vfs_fd_release d (set_map c fd FD_DESC_NONE st)).

Definition sys_dup (c : nat) (oldfd : Z) (st : fd_state) : Z * fd_state :=
  if negb (fd_ok oldfd) then (- EBADF, st)
  else
    let d := lookup_fd c oldfd st in
    if d =? FD_DESC_NONE then (- EBADF, st)
    else
      match free_slot FD_MAX 0 (fd_map st c) with
      | Some i => (i, vfs_fd_acquire d (set_map c i d st))
      | None => (- EMFILE, st)
      end.

Definition sys_dup2 (c : nat) (oldfd newfd : Z) (st : fd_state) : Z * fd_state :=
  if negb (fd_ok oldfd) then (- EBADF, st)
  else if negb (fd_ok newfd) then (- EBADF, st)
  else
    let d := lookup_fd c oldfd st in
    if d =? FD_DESC_NONE then (- EBADF, st)
    else if oldfd =? newfd then (newfd, st)
    else
      let old_desc := lookup_fd c newfd st in
      let st := if negb (old_desc =? FD_DESC_NONE)
                then vfs_fd_release old_desc (set_map c newfd FD_DESC_NONE st) else st in
      (newfd, vfs_fd_acquire d (set_map c newfd d st)).

(** [copied] is the outcome of the copy to the caller. *)
Definition sys_pipe (c : nat) (fds_ptr rops wops priv : Z) (copied : bool) (st : fd_state) : Z * fd_state :=
  if fds_ptr =? 0 then (- EINVAL, st)
  else
    let '(err, rdesc, wdesc, st) := vfs_fd_pipe_create rops wops priv st in
    if negb (err =? 0) then (err, st)
    else
      match free_slot FD_MAX 0 (fd_map st c) with
      | None => (- EMFILE, vfs_fd_release wdesc (vfs_fd_release rdesc st))
      | Some rfd =>
          match free_slot (FD_MAX - Z.to_nat (rfd + 1)) (rfd + 1) (fd_map st c) with
          | None => (- EMFILE, vfs_fd_release wdesc (vfs_fd_release rdesc st))
          | Some wfd =>
              let st := set_map c wfd wdesc (set_map c rfd rdesc st) in
              if copied then (0, st)
              else (- EFAULT, vfs_fd_release wdesc (vfs_fd_release rdesc
                     (set_map c wfd FD_DESC_NONE (set_map c rfd FD_DESC_NONE st))))
          end
      end.

(** F_DUPFD; None: the loop reads [fd_map] outside its bounds. *)
Definition fcntl_dupfd (c : nat) (fd arg : Z) (st : fd_state) : option (Z * fd_state) :=
  if negb (fd_ok fd) then Some (- EBADF, st)
  else
    let d := lookup_fd c fd st in
    if d =? FD_DESC_NONE then Some (- EBADF, st)
    else if Z.of_nat FD_MAX <=? arg then Some (- EMFILE, st)
    else if arg <? 0 then None
    else
      match free_slot (FD_MAX - Z.to_nat arg) arg (fd_map st c) with
      | Some i => Some (i, vfs_fd_acquire d (set_map c i d st))
      | None => Some (- EMFILE, st)
      end.

Definition stdio_slot (c : nat) (i : Z) (st : fd_state) : fd_state :=
  let '(d, st) := vfs_fd_stdio_desc i st in set_map c i d st.
Definition fd_stdio_init (console : Z) (c : nat) (st : fd_state) : fd_state :=
  let st := foldl (λ st i, upd_file i (set_f_priv console) st) st [0; 1; 2] in
  foldl (λ st i, stdio_slot c i st) st [0; 1; 2].

(** The step of [do_execve] that gives standard files to the first process. *)
Definition exec_stdio (console : Z) (c : nat) (st : fd_state) : fd_state :=
  if (lookup_fd c 0 st =? FD_DESC_NONE) && (lookup_fd c 1 st =? FD_DESC_NONE) && (lookup_fd c 2 st =? FD_DESC_NONE)
  then fd_stdio_init console c st else st.

(** The loop of [sys_exit] over the descriptors, [n] left. *)
Fixpoint close_all (n : nat) (c : nat) (st : fd_state) : fd_state :=
  match n with
  | O => st
  | S n =>
      let i := Z.of_nat (FD_MAX - S n) in
      let d := lookup_fd c i st in
      close_all n c (if negb (d =? FD_DESC_NONE) then set_map c i FD_DESC_NONE (vfs_fd_release d st) else st)
  end.

(** The loop of [sys_vfork] that fills the table of [child]. *)
Fixpoint inherit_fds (n : nat) (c child : nat) (st : fd_state) : fd_state :=
  match n with
  | O => st
  | S n =>
      let i := Z.of_nat (FD_MAX - S n) in
      let d := lookup_fd c i st in
      let st := set_map child i d st in
      inherit_fds n c child (if negb (d =? FD_DESC_NONE) then vfs_fd_acquire d st else st)
  end.

(** An operation on an open file of process [c] begins and ends; in between it
    may block and other processes run. *)
Definition op_begin (c : nat) (fd : Z) (st : fd_state) : fd_state :=
  if negb (fd_ok fd) || (lookup_fd c fd st =? FD_DESC_NONE) then st
  else
    let '(got, st') := fd_get (lookup_fd c fd st) st in
    if got then set_busy c (Some (lookup_fd c fd st)) st' else st'.

Definition op_end (c : nat) (st : fd_state) : fd_state :=
  match fp_busy (procs st !!! c) with
  | None => st
  | Some d => vfs_fd_release d (set_busy c None st)
  end.

(** What the operation under way does to the file it holds. *)
Definition op_update (c : nat) (f : file_t → file_t) (st : fd_state) : fd_state :=
  match fp_busy (procs st !!! c) with
  | None => st
  | Some d => upd_file d f st
  end.

(** ** The system

    [fd_run n st]: from boot, any processes' operations lead to [st], with [n]
    files opened.  A process in the middle of an operation on a file runs
    nothing else. *)

Definition idle (c : nat) (st : fd_state) : Prop := ∃ p, procs st !! c = Some p ∧ fp_busy p = None.
Definition fd_proc_init : fd_proc := FdProc (replicate FD_MAX FD_DESC_NONE) None.

(** One operation, and how many files it opened. *)
Inductive fd_step : fd_state → Z → fd_state → Prop :=
  | step_open c ops priv flags vnode offset st d st1 r st' :
      idle c st → ops ≠ 0 → fd_pool_install ops priv flags vnode offset st = (d, st1) →
      sys_open_install c ops priv flags vnode offset st = (r, st') →
      fd_step st (if d <? 0 then 0 else 1) st'
  | step_pipe c ptr rops wops priv copied st rd st1 wd st2 r st' :
      idle c st → rops ≠ 0 → wops ≠ 0 → ptr ≠ 0 → priv ≠ 0 →
      fd_pool_install rops priv O_RDONLY 0 0 st = (rd, st1) → fd_pool_install wops priv O_WRONLY 0 0 st1 = (wd, st2) →
      sys_pipe c ptr rops wops priv copied st = (r, st') →
      fd_step st (if rd <? 0 then 0 else if wd <? 0 then 1 else 2) st'
  | step_close c fd st r st' : idle c st → sys_close c fd st = (r, st') → fd_step st 0 st'
  | step_dup c fd st r st' : idle c st → sys_dup c fd st = (r, st') → fd_step st 0 st'
  | step_dup2 c fd fd' st r st' : idle c st → sys_dup2 c fd fd' st = (r, st') → fd_step st 0 st'
  | step_dupfd c fd arg st r st' : idle c st → fcntl_dupfd c fd arg st = Some (r, st') → fd_step st 0 st'
  | step_stdio c console st : idle c st → fd_step st 0 (exec_stdio console c st)
  | step_exit c st : idle c st → fd_step st 0 (close_all FD_MAX c st)
  | step_vfork c child st :
      idle c st → procs st !! child = Some fd_proc_init → c ≠ child → fd_step st 0 (inherit_fds FD_MAX c child st)
  | step_begin c fd st : idle c st → fd_step st 0 (op_begin c fd st)
  | step_lseek c size off whence st :
      (c < length (procs st))%nat → fd_step st 0 (op_update c (λ f, (fd_lseek size off whence f).2) st)
  | step_fcntl c cmd arg st :
      (c < length (procs st))%nat → fd_step st 0 (op_update c (λ f, (fd_fcntl cmd arg f).2) st)
  | step_end c st : (c < length (procs st))%nat → fd_step st 0 (op_end c st).

Inductive fd_run (tty console : Z) (nprocs : nat) : Z → fd_state → Prop :=
  | run_boot : fd_run tty console nprocs 0 (fd_pool_init tty console (replicate nprocs fd_proc_init))
  | run_step n k st st' : fd_run tty console nprocs n st → fd_step st k st' → fd_run tty console nprocs (n + k) st'.
