(* ===== verification/FdFacts.v ===== *)
(** * FdFacts: the reference counts of open files are exact

    [fd_inv base] holds when each pool entry counts [base] references besides
    those of the descriptor tables and of the operations under way.  Between the
    two halves of an operation the invariant holds for another [base]. *)

From S2P Require Import Prelude Config Pipe Fd.

(** ** Counting references *)

Definition cnt (d : Z) (l : list Z) : Z := zsum (λ x, ind (x =? d)) l.
Definition busy_cnt (d : Z) (p : fd_proc) : Z :=
  match fp_busy p with Some x => ind (x =? d) | None => 0 end.
Definition proc_refs (d : Z) (p : fd_proc) : Z := cnt d (fp_map p) + busy_cnt d p.
Definition total (d : Z) (ps : list fd_proc) : Z := zsum (proc_refs d) ps.

Lemma cnt_range d l : 0 <= cnt d l <= Z.of_nat (length l).
Proof.
  unfold cnt. rewrite <- (Z.mul_1_r (Z.of_nat (length l))). apply zsum_bound, Forall_true. intros x. apply ind_range.
Qed.

Lemma proc_refs_range d p : 0 <= proc_refs d p <= Z.of_nat (length (fp_map p)) + 1.
Proof.
  unfold proc_refs, busy_cnt. pose proof (cnt_range d (fp_map p)).
  destruct (fp_busy p) as [x|]; [pose proof (ind_range (x =? d))|]; lia.
Qed.

Lemma total_range d ps : Forall (λ p, length (fp_map p) = FD_MAX) ps →
  0 <= total d ps <= Z.of_nat (length ps) * (Z.of_nat FD_MAX + 1).
Proof.
  intros Hl. apply zsum_bound. eapply Forall_impl; [exact Hl|]. intros p Hp. cbv beta in *. rewrite <- Hp. apply proc_refs_range.
Qed.

Lemma cnt_elem d l : d ∈ l → 0 < cnt d l.
Proof.
  intros Hd. pose proof (zsum_elem (λ x, ind (x =? d)) l d Hd) as H. cbv beta in H. rewrite Z.eqb_refl in H.
  unfold cnt. cbn [ind] in H. enough (1 <= zsum (λ x, ind (x =? d)) l) by lia. apply H, Forall_true. intros x. apply ind_range.
Qed.

Lemma total_elem d ps p : p ∈ ps → proc_refs d p <= total d ps.
Proof. intros Hp. apply zsum_elem; [done|]. apply Forall_true. intros q. apply proc_refs_range. Qed.

(** Open entries of the pool. *)
Definition is_open (f : file_t) : bool := negb (f_ops f =? 0).
Definition open_count (l : list file_t) : Z := zsum (λ f, ind (is_open f)) l.

#[global] Arguments cnt : simpl never.
#[global] Arguments total : simpl never.
#[global] Arguments open_count : simpl never.

(** ** The invariant *)

Definition valid_desc (d : Z) : Prop := 0 <= d < Z.of_nat FILE_MAX.

Lemma desc_ok_valid d : desc_ok d = true ↔ valid_desc d.
Proof.
  unfold desc_ok, valid_desc. rewrite negb_true_iff, orb_false_iff, Z.ltb_ge, Z.leb_gt. lia.
Qed.

Definition entry_ok (x : Z) : Prop := x = FD_DESC_NONE ∨ valid_desc x.
Definition proc_ok (p : fd_proc) : Prop :=
  length (fp_map p) = FD_MAX ∧ Forall entry_ok (fp_map p) ∧ ∀ d, fp_busy p = Some d → valid_desc d.

Record fd_inv (base : Z → Z) (st : fd_state) : Prop := {
  inv_pool : length (fd_pool st) = FILE_MAX;
  inv_procs : (length (procs st) <= 8)%nat;
  inv_proc : Forall proc_ok (procs st);
  inv_refs : ∀ d, valid_desc d → f_refcnt (file st d) = base d + total d (procs st);
  inv_open : ∀ d, valid_desc d → if f_refcnt (file st d) =? 0 then file st d = file_zero else is_open (file st d) = true
}.

Lemma inv_ext base base' st : (∀ d, valid_desc d → base d = base' d) → fd_inv base st → fd_inv base' st.
Proof. intros He []. split; try done. intros d Hd. by rewrite <- He, inv_refs0. Qed.

Lemma inv_lengths base st : fd_inv base st → Forall (λ p, length (fp_map p) = FD_MAX) (procs st).
Proof. intros []. eapply Forall_impl; [done|]. by intros p (? & _). Qed.

Lemma inv_total base st d : fd_inv base st → 0 <= total d (procs st) <= 136.
Proof.
  intros Hi. pose proof (total_range d _ (inv_lengths _ _ Hi)). pose proof (inv_procs _ _ Hi).
  unfold FD_MAX in *. lia.
Qed.

Lemma file_upd st d e f : length (fd_pool st) = FILE_MAX → valid_desc d → valid_desc e →
  file (upd_file d f st) e = if decide (e = d) then f (file st d) else file st e.
Proof.
  intros Hl Hd He. unfold file, upd_file, valid_desc in *. cbn [fd_pool]. rewrite !list_lookup_total_alt.
  destruct (decide (e = d)) as [->|Hne].
  - rewrite list_lookup_alter_eq. destruct (lookup_lt_is_Some_2 (fd_pool st) (Z.to_nat d)) as [x ->]; [lia|done].
  - rewrite list_lookup_alter_ne by lia. done.
Qed.

Lemma file_lookup st d : length (fd_pool st) = FILE_MAX → valid_desc d → fd_pool st !! Z.to_nat d = Some (file st d).
Proof.
  intros Hl Hd. unfold file, valid_desc in *. rewrite list_lookup_total_alt.
  destruct (lookup_lt_is_Some_2 (fd_pool st) (Z.to_nat d)) as [x ->]; [lia|done].
Qed.

(** Changing the count of one open entry. *)
Lemma upd_refcnt_inv base st d v : fd_inv base st → valid_desc d → 0 < v < 2 ^ 32 → 0 < f_refcnt (file st d) →
  fd_inv (λ x, base x + (if decide (x = d) then v - f_refcnt (file st d) else 0)) (upd_file d (set_f_refcnt v) st) ∧
  open_count (fd_pool (upd_file d (set_f_refcnt v) st)) = open_count (fd_pool st).
Proof.
  intros [Hl Hn Hp Hr Ho] Hd Hv Hpos. split.
  - split; try done.
    + cbn. by rewrite length_alter.
    + intros e He. rewrite file_upd by done. cbn [procs upd_file]. destruct (decide (e = d)) as [->|]; [|rewrite Hr by done; lia].
      cbn. rewrite (uN_small 32) by lia. rewrite Hr by done. lia.
    + intros e He. rewrite file_upd by done. destruct (decide (e = d)) as [->|]; [|by apply Ho].
      cbn. rewrite (uN_small 32) by lia. specialize (Ho d Hd).
      destruct (Z.eqb_spec v 0); [lia|]. destruct (Z.eqb_spec (f_refcnt (file st d)) 0); [lia|done].
  - cbn. unfold open_count; rewrite (zsum_alter _ _ _ _ _ (file_lookup st d Hl Hd)). unfold is_open. cbn. lia.
Qed.

Lemma fd_acquire_inv base st d : fd_inv base st → valid_desc d → base d <= 10 → 0 < f_refcnt (file st d) →
  fd_inv (λ x, base x + (if decide (x = d) then 1 else 0)) (vfs_fd_acquire d st) ∧
  open_count (fd_pool (vfs_fd_acquire d st)) = open_count (fd_pool st) ∧ closed (vfs_fd_acquire d st) = closed st ∧
  procs (vfs_fd_acquire d st) = procs st.
Proof.
  intros Hi Hd Hb Hpos. unfold vfs_fd_acquire. rewrite (proj2 (desc_ok_valid d) Hd). cbn [negb].
  destruct (Z.ltb_spec 0 (f_refcnt (file st d))); [|lia].
  pose proof (inv_refs _ _ Hi d Hd) as Hr. pose proof (inv_total _ _ d Hi) as Ht.
  assert (upd_file d (λ f, set_f_refcnt (f_refcnt f + 1) f) st = upd_file d (set_f_refcnt (f_refcnt (file st d) + 1)) st) as ->.
  { unfold upd_file. f_equal. apply list_alter_ext; [|done]. intros f Hf. rewrite (file_lookup st d) in Hf by (done || apply Hi). by simplify_eq. }
  destruct (upd_refcnt_inv base st d (f_refcnt (file st d) + 1) Hi Hd ltac:(lia) Hpos) as [A B].
  split_and!; try done. eapply inv_ext; [|exact A]. intros x _. cbn. destruct (decide (x = d)); lia.
Qed.

(** Files neither vanish nor multiply: the open ones and the closed ones. *)
Definition tally (st : fd_state) : Z := open_count (fd_pool st) + Z.of_nat (length (closed st)).

Lemma fd_release_inv base st d : fd_inv base st → valid_desc d → base d <= 10 → 0 < f_refcnt (file st d) →
  fd_inv (λ x, base x - (if decide (x = d) then 1 else 0)) (vfs_fd_release d st) ∧
  procs (vfs_fd_release d st) = procs st ∧ tally (vfs_fd_release d st) = tally st ∧
  closed (vfs_fd_release d st) =
    (if f_refcnt (file st d) =? 1 then [set_f_refcnt 0 (file st d)] else []) ++ closed st.
Proof.
  intros Hi Hd Hb Hpos. unfold vfs_fd_release. rewrite (proj2 (desc_ok_valid d) Hd). cbn [negb].
  destruct (Z.ltb_spec 0 (f_refcnt (file st d))); [|lia].
  pose proof (inv_refs _ _ Hi d Hd) as Hr. pose proof (inv_total _ _ d Hi) as Ht.
  pose proof (inv_open _ _ Hi d Hd) as Ho. destruct (Z.eqb_spec (f_refcnt (file st d)) 0) as [|_] in Ho; [lia|].
  pose proof (inv_pool _ _ Hi) as Hl.
  assert (upd_file d (λ f, set_f_refcnt (f_refcnt f - 1) f) st = upd_file d (set_f_refcnt (f_refcnt (file st d) - 1)) st) as ->.
  { unfold upd_file. f_equal. apply list_alter_ext; [|done]. intros f Hf. rewrite (file_lookup st d) in Hf by done. by simplify_eq. }
  set (v := f_refcnt (file st d) - 1). rewrite file_upd, decide_True by done.
  destruct (Z.eqb_spec (f_refcnt (file st d)) 1) as [H1|H1].
  - assert (v = 0) as -> by (subst v; lia). change (f_refcnt (set_f_refcnt 0 (file st d))) with 0. cbn [Z.eqb].
    change (f_ops (set_f_refcnt 0 (file st d))) with (f_ops (file st d)). unfold is_open in Ho. rewrite Ho.
    set (st1 := upd_file d (set_f_refcnt 0) st). set (st2 := upd_file d (λ _, file_zero) st1).
    assert (length (fd_pool st1) = FILE_MAX) as Hl1 by (cbn; by rewrite length_alter).
    assert (∀ e, valid_desc e → file st2 e = if decide (e = d) then file_zero else file st e) as Hf.
    { intros e He. subst st2. rewrite file_upd by done. subst st1. rewrite file_upd by done. by destruct (decide (e = d)). }
    split_and!; [|done| |done].
    + split; try apply Hi.
      * cbn. by rewrite !length_alter.
      * intros e He. change (file (FdState _ _ _) e) with (file st2 e). rewrite Hf by done.
        change (procs (FdState _ _ _)) with (procs st).
        destruct (decide (e = d)) as [->|]; [change (f_refcnt file_zero) with 0|rewrite (inv_refs _ _ Hi e He)]; lia.
      * intros e He. change (file (FdState _ _ _) e) with (file st2 e). rewrite Hf by done.
        destruct (decide (e = d)); [done|by apply Hi].
    + unfold tally. cbn [closed fd_pool]. subst st2. cbn [fd_pool upd_file length].
      unfold open_count; rewrite (zsum_alter _ _ _ _ _ (file_lookup st1 d Hl1 Hd)). subst st1. rewrite file_upd, decide_True by done.
      cbn [fd_pool upd_file]. unfold open_count; rewrite (zsum_alter _ _ _ _ _ (file_lookup st d Hl Hd)). unfold is_open.
      change (f_ops (set_f_refcnt 0 (file st d))) with (f_ops (file st d)). rewrite Ho. cbn. lia.
  - assert (f_refcnt (set_f_refcnt v (file st d)) = v) as -> by (cbn; apply (uN_small 32); lia).
    destruct (Z.eqb_spec v 0) as [|_]; [lia|].
    destruct (upd_refcnt_inv base st d v Hi Hd ltac:(lia) Hpos) as [A B]. split_and!; try done.
    + eapply inv_ext; [|exact A]. intros x _. cbn. subst v. destruct (decide (x = d)); lia.
    + unfold tally. by rewrite B.
Qed.

Lemma entry_s16 v : entry_ok v → s16 v = v.
Proof.
  unfold entry_ok, valid_desc, FILE_MAX, FD_DESC_NONE. intros [->|Hv]; [done|]. unfold sN, uN. cbn zeta.
  rewrite Z.mod_small by lia. by destruct (Z.ltb_spec v (2 ^ (16 - 1))); [|lia].
Qed.

Definition slot_ok (i : Z) : Prop := 0 <= i < Z.of_nat FD_MAX.

Lemma fd_ok_slot i : fd_ok i = true ↔ slot_ok i.
Proof. unfold fd_ok, slot_ok. rewrite negb_true_iff, orb_false_iff, Z.ltb_ge, Z.leb_gt. lia. Qed.

Lemma proc_lookup base st c p : fd_inv base st → procs st !! c = Some p → proc_ok p.
Proof. intros Hi Hc. eapply Forall_lookup_1; [apply Hi|done]. Qed.

Lemma lookup_fd_slot base st c p i : fd_inv base st → procs st !! c = Some p → slot_ok i →
  fp_map p !! Z.to_nat i = Some (lookup_fd c i st) ∧ entry_ok (lookup_fd c i st).
Proof.
  intros Hi Hc Hs. destruct (proc_lookup _ _ _ _ Hi Hc) as (Hl & He & _).
  unfold lookup_fd, fd_map. rewrite (list_lookup_total_correct _ _ _ Hc).
  destruct (lookup_lt_is_Some_2 (fp_map p) (Z.to_nat i)) as [x Hx]; [unfold slot_ok in Hs; lia|].
  rewrite (list_lookup_total_correct _ _ _ Hx). split; [done|]. by eapply Forall_lookup_1.
Qed.

(** Storing in a table moves the old entry's reference to [base] and takes the
    new one's from it. *)
Lemma set_map_inv base st c p i v : fd_inv base st → procs st !! c = Some p → slot_ok i → entry_ok v →
  fd_inv (λ x, base x + ind (lookup_fd c i st =? x) - ind (v =? x)) (set_map c i v st).
Proof.
  intros Hi Hc Hs Hv. destruct (lookup_fd_slot _ _ _ _ _ Hi Hc Hs) as [Hx Hxe].
  destruct (proc_lookup _ _ _ _ Hi Hc) as (Hl & He & Hb). split; try apply Hi.
  - cbn. rewrite length_alter. apply Hi.
  - cbn. apply Forall_alter; [apply Hi|]. intros q Hq _. assert (q = p) as -> by congruence.
    split_and!; cbn; [by rewrite length_insert| |done]. rewrite entry_s16 by done. by apply Forall_insert.
  - intros d Hd. change (file (set_map c i v st) d) with (file st d). rewrite (inv_refs _ _ Hi d Hd). cbn [procs set_map].
    unfold total; rewrite (zsum_alter _ _ _ _ _ Hc). unfold proc_refs, busy_cnt. cbn [fp_map fp_busy].
    unfold cnt; rewrite (zsum_insert _ _ _ _ _ Hx), entry_s16 by done. lia.
Qed.

(** The descriptors of a table, and of an operation, are open. *)
Lemma table_open base st c p i : fd_inv base st → procs st !! c = Some p → slot_ok i →
  lookup_fd c i st ≠ FD_DESC_NONE → 0 <= base (lookup_fd c i st) →
  valid_desc (lookup_fd c i st) ∧ 0 < f_refcnt (file st (lookup_fd c i st)).
Proof.
  intros Hi Hc Hs Hn Hb. destruct (lookup_fd_slot _ _ _ _ _ Hi Hc Hs) as [Hx [|Hv]]; [done|]. split; [done|].
  set (d := lookup_fd c i st) in *. rewrite (inv_refs _ _ Hi d Hv).
  assert (p ∈ procs st) as Hp by (by eapply list_elem_of_lookup_2).
  pose proof (total_elem d _ p Hp) as Ht.
  assert (0 < cnt d (fp_map p)) as Hcnt by (apply cnt_elem; by eapply list_elem_of_lookup_2).
  unfold proc_refs, busy_cnt in Ht. destruct (fp_busy p) as [x|]; [pose proof (ind_range (x =? d))|]; lia.
Qed.

Lemma set_busy_inv base st c p v : fd_inv base st → procs st !! c = Some p →
  (∀ d, v = Some d → valid_desc d) →
  fd_inv (λ x, base x + busy_cnt x p - match v with Some d => ind (d =? x) | None => 0 end) (set_busy c v st).
Proof.
  intros Hi Hc Hv. destruct (proc_lookup _ _ _ _ Hi Hc) as (Hl & He & Hb). split; try apply Hi.
  - cbn. rewrite length_alter. apply Hi.
  - cbn. apply Forall_alter; [apply Hi|]. intros q Hq _. assert (q = p) as -> by congruence. by split_and!.
  - intros d Hd. change (file (set_busy c v st) d) with (file st d). rewrite (inv_refs _ _ Hi d Hd). cbn [procs set_busy].
    unfold total; rewrite (zsum_alter _ _ _ _ _ Hc). unfold proc_refs, busy_cnt. cbn [fp_map fp_busy]. destruct v; lia.
Qed.

(** A new entry starts with the reference of its opener. *)
Lemma install_inv base st ops priv flags vnode offset : fd_inv base st → ops ≠ 0 → (∀ d, valid_desc d → 0 <= base d) →
  let '(d, st') := fd_pool_install ops priv flags vnode offset st in
  if d <? 0 then d = - ENOMEM ∧ st' = st
  else valid_desc d ∧ f_refcnt (file st d) = 0 ∧ 0 < f_refcnt (file st' d) ∧
    fd_inv (λ x, base x + (if decide (x = d) then 1 else 0)) st' ∧
    procs st' = procs st ∧ tally st' = tally st + 1 ∧ closed st' = closed st.
Proof.
  intros Hi Hops Hb. unfold fd_pool_install, fd_pool_alloc.
  assert (∀ l i, match pool_scan l i with
    | None => True
    | Some j => ∃ k f, j = (i + k)%nat ∧ l !! k = Some f ∧ f_refcnt f = 0 end) as Hscan.
  { induction l as [|f l IH]; intros i; cbn [pool_scan]; [done|]. destruct (_ && _) eqn:E.
    - apply andb_true_iff in E as [E _]. apply Z.eqb_eq in E. exists 0%nat, f. split_and!; [lia|done|done].
    - specialize (IH (S i)). destruct (pool_scan l (S i)); [|done]. destruct IH as (k & g & -> & Hk & Hz).
      exists (S k), g. split_and!; [lia|done|done]. }
  specialize (Hscan (fd_pool st) 0%nat). destruct (pool_scan (fd_pool st) 0) as [j|]; [|done].
  destruct Hscan as (k & f & -> & Hk & Hz). cbn [Nat.add].
  assert (Z.of_nat k <? 0 = false) as Hk0 by (apply Z.ltb_ge; lia). rewrite Hk0. cbn beta iota. rewrite Hk0.
  pose proof (inv_pool _ _ Hi) as Hl.
  assert (valid_desc (Z.of_nat k)) as Hd.
  { apply lookup_lt_Some in Hk. unfold valid_desc. rewrite Hl in Hk. lia. }
  assert (file st (Z.of_nat k) = f) as Hf.
  { pose proof (file_lookup st _ Hl Hd) as E. rewrite Nat2Z.id, Hk in E. congruence. }
  set (d := Z.of_nat k) in *. set (st1 := upd_file d (λ _, set_f_refcnt 1 file_zero) st).
  set (g := λ f : file_t, File ops priv (u32 flags) (f_refcnt f) vnode (u32 offset)). set (st2 := upd_file d g st1).
  assert (length (fd_pool st1) = FILE_MAX) as Hl1 by (cbn; by rewrite length_alter).
  assert (∀ e, valid_desc e → file st2 e = if decide (e = d) then g (set_f_refcnt 1 file_zero) else file st e) as Hf2.
  { intros e He. subst st2. rewrite file_upd by done. subst st1. rewrite !file_upd by done.
    by destruct (decide (e = d)) as [->|]; [rewrite decide_True|]. }
  pose proof (inv_refs _ _ Hi d Hd) as Hr. rewrite Hf, Hz in Hr.
  pose proof (inv_open _ _ Hi d Hd) as Ho. rewrite Hf, Hz in Ho. cbn in Ho.
  split; [done|]. split; [by rewrite Hf|]. split; [rewrite Hf2, decide_True by done; by change (0 < 1)|]. split_and!.
  - split; try apply Hi.
    + cbn. by rewrite !length_alter.
    + intros e He. rewrite Hf2 by done. change (procs st2) with (procs st). destruct (decide (e = d)) as [->|].
      * change (f_refcnt (g _)) with 1. lia.
      * rewrite (inv_refs _ _ Hi e He). lia.
    + intros e He. rewrite Hf2 by done. destruct (decide (e = d)); [|by apply Hi]. cbn. unfold is_open. cbn.
      by destruct (Z.eqb_spec ops 0).
  - done.
  - unfold tally. change (closed st2) with (closed st). subst st2. cbn [fd_pool upd_file].
    unfold open_count; rewrite (zsum_alter _ _ _ _ _ (file_lookup st1 d Hl1 Hd)). subst st1. rewrite file_upd, decide_True by done.
    cbn [fd_pool upd_file]. unfold open_count; rewrite (zsum_alter _ _ _ _ _ (file_lookup st d Hl Hd)), Hf, Ho. unfold is_open, g. cbn.
    destruct (Z.eqb_spec ops 0); [done|]. cbn. lia.
  - done.
Qed.

(** ** Tables under updates *)

Lemma lookup_fd_procs c i st st' : procs st' = procs st → lookup_fd c i st' = lookup_fd c i st.
Proof. intros E. unfold lookup_fd, fd_map. by rewrite E. Qed.

Lemma lookup_set_map base st c p i j v : fd_inv base st → procs st !! c = Some p → slot_ok i → slot_ok j → entry_ok v →
  lookup_fd c j (set_map c i v st) = if decide (j = i) then v else lookup_fd c j st.
Proof.
  intros Hi Hc Hs Hj Hv. destruct (proc_lookup _ _ _ _ Hi Hc) as (Hl & _).
  unfold lookup_fd, fd_map. cbn [procs set_map]. unfold slot_ok in *.
  erewrite (list_lookup_total_correct (alter _ _ _)) by (rewrite list_lookup_alter_eq, Hc; done).
  rewrite (list_lookup_total_correct _ _ _ Hc). cbn [fp_map]. rewrite entry_s16 by done.
  destruct (decide (j = i)) as [->|]; [apply list_lookup_total_insert_eq; lia|apply list_lookup_total_insert_ne; lia].
Qed.

Lemma lookup_set_map_ne c c' i j v st : c ≠ c' → lookup_fd c' j (set_map c i v st) = lookup_fd c' j st.
Proof.
  intros Hne. unfold lookup_fd, fd_map. cbn [procs set_map].
  by rewrite !list_lookup_total_alt, list_lookup_alter_ne.
Qed.

Lemma alive_set_map c c' i v st : (c < length (procs st))%nat → (c < length (procs (set_map c' i v st)))%nat.
Proof. cbn. by rewrite length_alter. Qed.

Lemma free_slot_spec n i m j : 0 <= i → free_slot n i m = Some j → i <= j < i + Z.of_nat n ∧ m !!! Z.to_nat j = FD_DESC_NONE.
Proof.
  revert i. induction n as [|n IH]; intros i Hi; cbn [free_slot]; [done|].
  destruct (Z.eqb_spec (m !!! Z.to_nat i) FD_DESC_NONE) as [E|]; [intros [= <-]; split; [lia|done]|].
  intros H. apply IH in H; [|lia]. destruct H. split; [lia|done].
Qed.

Lemma ind_none x : valid_desc x → ind (FD_DESC_NONE =? x) = 0.
Proof. unfold valid_desc. intros Hx. by rewrite (proj2 (Z.eqb_neq FD_DESC_NONE x)) by (unfold FD_DESC_NONE; lia). Qed.

Lemma ind_decide d x : ind (d =? x) = if decide (x = d) then 1 else 0.
Proof. destruct (decide (x = d)) as [->|]; [by rewrite Z.eqb_refl|by rewrite (proj2 (Z.eqb_neq d x)) by done]. Qed.

(** ** The operations

    [base] counts what stays outside tables and operations: the reference the
    pool keeps to each standard file. *)

Section operations.
Context (base : Z → Z) (base_small : ∀ d, 0 <= base d <= 2).

Definition after (k : Z) (st st' : fd_state) : Prop :=
  fd_inv base st' ∧ tally st' = tally st + k ∧ length (procs st') = length (procs st).

Lemma after_refl st : fd_inv base st → after 0 st st.
Proof. intros Hi. unfold after; split_and!; [done|lia|done]. Qed.

Lemma after_trans k1 k2 st1 st2 st3 : after k1 st1 st2 → after k2 st2 st3 → after (k1 + k2) st1 st3.
Proof. intros (A1 & A2 & A3) (B1 & B2 & B3). unfold after; split_and!; [done|lia|congruence]. Qed.

Lemma alive st c : (c < length (procs st))%nat → ∃ p, procs st !! c = Some p.
Proof. intros H. by apply lookup_lt_is_Some_2 in H. Qed.

Lemma idle_alive c st : idle c st → (c < length (procs st))%nat.
Proof. intros (p & Hp & _). by apply lookup_lt_Some in Hp. Qed.

(** The current entry of slot [i] is dropped. *)
Lemma close_slot st c i : fd_inv base st → (c < length (procs st))%nat → slot_ok i → lookup_fd c i st ≠ FD_DESC_NONE →
  after 0 st (vfs_fd_release (lookup_fd c i st) (set_map c i FD_DESC_NONE st)) ∧
  procs (vfs_fd_release (lookup_fd c i st) (set_map c i FD_DESC_NONE st)) = procs (set_map c i FD_DESC_NONE st).
Proof.
  intros Hi Hc Hs Hn. destruct (alive _ _ Hc) as [p Hp]. set (d := lookup_fd c i st) in *.
  pose proof (base_small d) as Hbd.
  destruct (table_open _ _ _ _ _ Hi Hp Hs Hn (proj1 Hbd)) as [Hv Hpos]. fold d in Hv, Hpos.
  pose proof (set_map_inv _ _ _ _ _ FD_DESC_NONE Hi Hp Hs (or_introl eq_refl)) as H1. fold d in H1.
  eapply fd_release_inv in H1 as (H1 & H2 & H3 & _); [|exact Hv| |exact Hpos].
  - split; [unfold after; split_and!|done].
    + eapply inv_ext; [|exact H1]. intros x Hx. cbv beta. rewrite (ind_none x Hx), ind_decide.
      destruct (decide (x = d)); lia.
    + rewrite H3. unfold tally. cbn. lia.
    + rewrite H2. cbn. by rewrite length_alter.
  - cbn. rewrite Z.eqb_refl. pose proof (ind_range (FD_DESC_NONE =? d)). cbn in *. lia.
Qed.

(** An open entry is stored in an empty slot and acquired. *)
Lemma put_slot st c i d : fd_inv base st → (c < length (procs st))%nat → slot_ok i → lookup_fd c i st = FD_DESC_NONE →
  valid_desc d → 0 < f_refcnt (file st d) →
  after 0 st (vfs_fd_acquire d (set_map c i d st)) ∧
  procs (vfs_fd_acquire d (set_map c i d st)) = procs (set_map c i d st).
Proof.
  intros Hi Hc Hs Hn Hv Hpos. destruct (alive _ _ Hc) as [p Hp]. pose proof (base_small d) as Hbd.
  pose proof (set_map_inv _ _ _ _ _ d Hi Hp Hs (or_intror Hv)) as H1. rewrite Hn in H1.
  eapply fd_acquire_inv in H1 as (H1 & H2 & H3 & H4); [|exact Hv| |exact Hpos].
  - split; [unfold after; split_and!|done].
    + eapply inv_ext; [|exact H1]. intros x Hx. cbv beta. rewrite (ind_none x Hx), ind_decide.
      destruct (decide (x = d)); lia.
    + unfold tally. rewrite H2, H3. cbn. lia.
    + rewrite H4. cbn. by rewrite length_alter.
  - cbn. rewrite Z.eqb_refl. pose proof (ind_range (FD_DESC_NONE =? d)). cbn in *. lia.
Qed.

Lemma slot_open st c i : fd_inv base st → (c < length (procs st))%nat → slot_ok i → lookup_fd c i st ≠ FD_DESC_NONE →
  valid_desc (lookup_fd c i st) ∧ 0 < f_refcnt (file st (lookup_fd c i st)).
Proof.
  intros Hi Hc Hs Hn. destruct (alive _ _ Hc) as [p Hp]. pose proof (base_small (lookup_fd c i st)).
  eapply table_open; [done..|lia].
Qed.

Lemma free_lookup st c n i j : 0 <= i → free_slot n i (fd_map st c) = Some j → i + Z.of_nat n <= Z.of_nat FD_MAX →
  slot_ok j ∧ lookup_fd c j st = FD_DESC_NONE.
Proof. intros Hi Hf Hn. apply free_slot_spec in Hf as [H1 H2]; [|done]. split; [unfold slot_ok; lia|done]. Qed.

Lemma sys_close_ok st c fd r st' : fd_inv base st → idle c st → sys_close c fd st = (r, st') → after 0 st st'.
Proof.
  intros Hi Hc%idle_alive. unfold sys_close. destruct (fd_ok fd) eqn:Hf; [|intros [= _ <-]; by apply after_refl].
  apply fd_ok_slot in Hf. cbn [negb]. destruct (Z.eqb_spec (lookup_fd c fd st) FD_DESC_NONE); intros [= _ <-]; [by apply after_refl|].
  by apply close_slot.
Qed.

Lemma dup_into st c old i : fd_inv base st → (c < length (procs st))%nat → slot_ok old → slot_ok i →
  lookup_fd c old st ≠ FD_DESC_NONE → lookup_fd c i st = FD_DESC_NONE →
  after 0 st (vfs_fd_acquire (lookup_fd c old st) (set_map c i (lookup_fd c old st) st)).
Proof.
  intros Hi Hc Ho Hs Hn He. destruct (slot_open _ _ _ Hi Hc Ho Hn). by apply put_slot.
Qed.

Lemma sys_dup_ok st c fd r st' : fd_inv base st → idle c st → sys_dup c fd st = (r, st') → after 0 st st'.
Proof.
  intros Hi Hc%idle_alive. unfold sys_dup. destruct (fd_ok fd) eqn:Hf; [|intros [= _ <-]; by apply after_refl].
  apply fd_ok_slot in Hf. cbn [negb]. destruct (Z.eqb_spec (lookup_fd c fd st) FD_DESC_NONE); [intros [= _ <-]; by apply after_refl|].
  destruct (free_slot _ _ _) as [i|] eqn:Hfree; intros [= _ <-]; [|by apply after_refl].
  eapply free_lookup in Hfree as []; [|done|done]. by apply dup_into.
Qed.

Lemma fcntl_dupfd_ok st c fd arg r st' : fd_inv base st → idle c st → fcntl_dupfd c fd arg st = Some (r, st') → after 0 st st'.
Proof.
  intros Hi Hc%idle_alive. unfold fcntl_dupfd. destruct (fd_ok fd) eqn:Hf; [|intros [= _ <-]; by apply after_refl].
  apply fd_ok_slot in Hf. cbn [negb]. destruct (Z.eqb_spec (lookup_fd c fd st) FD_DESC_NONE); [intros [= _ <-]; by apply after_refl|].
  destruct (Z.leb_spec (Z.of_nat FD_MAX) arg); [intros [= _ <-]; by apply after_refl|]. destruct (Z.ltb_spec arg 0); [done|].
  destruct (free_slot _ _ _) as [i|] eqn:Hfree; intros [= _ <-]; [|by apply after_refl].
  eapply free_lookup in Hfree as []; [|done|lia]. by apply dup_into.
Qed.

Lemma sys_dup2_ok st c fd fd' r st' : fd_inv base st → idle c st → sys_dup2 c fd fd' st = (r, st') → after 0 st st'.
Proof.
  intros Hi Hc%idle_alive. unfold sys_dup2. destruct (fd_ok fd) eqn:Hf; [|intros [= _ <-]; by apply after_refl].
  destruct (fd_ok fd') eqn:Hf'; [|intros [= _ <-]; by apply after_refl]. apply fd_ok_slot in Hf, Hf'. cbn [negb].
  destruct (Z.eqb_spec (lookup_fd c fd st) FD_DESC_NONE) as [|Hn]; [intros [= _ <-]; by apply after_refl|].
  destruct (Z.eqb_spec fd fd') as [|Hne]; [intros [= _ <-]; by apply after_refl|].
  destruct (Z.eqb_spec (lookup_fd c fd' st) FD_DESC_NONE) as [|Hn']; cbn [negb]; intros [= _ <-]; [by apply dup_into|].
  destruct (close_slot _ _ _ Hi Hc Hf' Hn') as [A Hpr]. set (st1 := vfs_fd_release _ _) in *.
  destruct (alive _ _ Hc) as [p Hp].
  assert (∀ j, slot_ok j → lookup_fd c j st1 = if decide (j = fd') then FD_DESC_NONE else lookup_fd c j st) as Hl.
  { intros j Hj. rewrite (lookup_fd_procs _ _ _ _ Hpr). eapply lookup_set_map; try done. by left. }
  pose proof (Hl fd Hf) as E. rewrite decide_False in E by done. rewrite <- E in Hn |- *.
  change 0 with (0 + 0). eapply after_trans; [exact A|]. destruct A as (A & _ & Hlen).
  apply dup_into; try done; [by rewrite Hlen|]. by rewrite Hl, decide_True.
Qed.

(** ** Opening *)

Abbreviation plus d := (λ x, base x + (if decide (x = d) then 1 else 0)).

Lemma release_set_map d c i v st : vfs_fd_release d (set_map c i v st) = set_map c i v (vfs_fd_release d st).
Proof.
  unfold vfs_fd_release. destruct (desc_ok d); [|done]. cbn [negb]. change (file (set_map c i v st) d) with (file st d).
  set (st1 := if 0 <? f_refcnt (file st d) then upd_file d (λ f, set_f_refcnt (f_refcnt f - 1) f) st else st).
  assert ((if 0 <? f_refcnt (file st d) then upd_file d (λ f, set_f_refcnt (f_refcnt f - 1) f) (set_map c i v st)
           else set_map c i v st) = set_map c i v st1) as -> by (subst st1; by destruct (0 <? _)).
  change (file (set_map c i v st1) d) with (file st1 d). by repeat case_match.
Qed.

(** A reference outside the tables is dropped, or moves to an empty slot. *)
Lemma release_plus st d : valid_desc d → fd_inv (plus d) st → after 0 st (vfs_fd_release d st).
Proof.
  intros Hd Hi. pose proof (base_small d) as Hb. pose proof (inv_total _ _ d Hi) as Ht.
  pose proof (inv_refs _ _ Hi d Hd) as Hr. cbv beta in Hr. rewrite decide_True in Hr by done.
  destruct (fd_release_inv _ _ d Hi Hd) as (A & B & C & _); [cbv beta; rewrite decide_True by done; lia|lia|].
  unfold after. rewrite B. split_and!; [|lia|done]. eapply inv_ext; [|exact A]. intros x _. cbv beta. lia.
Qed.

Lemma move_plus base' st d c i : valid_desc d → fd_inv (λ x, base' x + (if decide (x = d) then 1 else 0)) st →
  (c < length (procs st))%nat → slot_ok i → lookup_fd c i st = FD_DESC_NONE → fd_inv base' (set_map c i d st).
Proof.
  intros Hd Hi Hc Hs Hn. destruct (alive _ _ Hc) as [p Hp].
  pose proof (set_map_inv _ _ _ _ _ d Hi Hp Hs (or_intror Hd)) as H1. rewrite Hn in H1.
  eapply inv_ext; [|exact H1]. intros x Hx. cbv beta. rewrite (ind_none x Hx), ind_decide. lia.
Qed.

Lemma sys_open_ok st c ops priv flags vnode offset d st1 r st' : fd_inv base st → idle c st → ops ≠ 0 →
  fd_pool_install ops priv flags vnode offset st = (d, st1) → sys_open_install c ops priv flags vnode offset st = (r, st') →
  after (if d <? 0 then 0 else 1) st st'.
Proof.
  intros Hi Hc%idle_alive Ho Hd. unfold sys_open_install. rewrite Hd.
  pose proof (install_inv base st ops priv flags vnode offset Hi Ho (λ x _, proj1 (base_small x))) as H. rewrite Hd in H.
  destruct (d <? 0); [destruct H as [_ ->]; intros [= _ <-]; by apply after_refl|].
  destruct H as (Hv & _ & _ & H1 & H2 & H3 & H4). unfold open_slot. rewrite <- H2 in Hc.
  destruct (free_slot _ _ _) as [i|] eqn:Hfree; intros [= _ <-].
  - eapply free_lookup in Hfree as [Hs Hn]; [|done|done]. unfold after. split_and!; [by apply move_plus|unfold tally in *; cbn; lia|].
    cbn. by rewrite length_alter, H2.
  - destruct (release_plus _ _ Hv H1) as (A & B & C). unfold after. rewrite C, H2. split_and!; [done|lia|done].
Qed.

Lemma drop_two st rd wd : valid_desc rd → valid_desc wd → fd_inv (λ x, plus rd x + (if decide (x = wd) then 1 else 0)) st →
  after 0 st (vfs_fd_release wd (vfs_fd_release rd st)).
Proof.
  intros Hr Hw Hi. pose proof (base_small rd). pose proof (inv_total _ _ rd Hi). pose proof (inv_refs _ _ Hi rd Hr) as Hc.
  cbv beta in Hc. rewrite (decide_True (P := rd = rd)) in Hc by done.
  destruct (fd_release_inv _ _ rd Hi Hr) as (A & B & C & _); [cbv beta; rewrite (decide_True (P := rd = rd)) by done; case_decide; lia|case_decide; lia|].
  eapply (inv_ext _ (plus wd)) in A; [|intros x _; cbv beta; case_decide; case_decide; lia].
  destruct (release_plus _ _ Hw A) as (A' & B' & C'). unfold after. rewrite C', B. split_and!; [done|lia|done].
Qed.

(** Two new entries, stored in two empty slots; and taken out again. *)
Lemma store_two st c rd wd i j : valid_desc rd → valid_desc wd →
  fd_inv (λ x, plus rd x + (if decide (x = wd) then 1 else 0)) st →
  (c < length (procs st))%nat → slot_ok i → slot_ok j → i ≠ j → lookup_fd c i st = FD_DESC_NONE → lookup_fd c j st = FD_DESC_NONE →
  after 0 st (set_map c j wd (set_map c i rd st)) ∧
  after 0 st (vfs_fd_release wd (vfs_fd_release rd (set_map c j FD_DESC_NONE (set_map c i FD_DESC_NONE (set_map c j wd (set_map c i rd st)))))).
Proof.
  intros Hr Hw Hi Hc Hsi Hsj Hij Hni Hnj. destruct (alive _ _ Hc) as [p Hp].
  eapply (inv_ext _ (λ x, plus wd x + (if decide (x = rd) then 1 else 0))) in Hi; [|intros x _; cbv beta; lia].
  pose proof (move_plus _ _ _ _ _ Hr Hi Hc Hsi Hni) as H1. pose proof (alive_set_map c c i rd st Hc) as Hc1.
  destruct (alive _ _ Hc1) as [p1 Hp1].
  assert (lookup_fd c j (set_map c i rd st) = FD_DESC_NONE) as Hnj1.
  { erewrite lookup_set_map, decide_False by (done || by right). done. }
  pose proof (move_plus _ _ _ _ _ Hw H1 Hc1 Hsj Hnj1) as H2. set (X := set_map c j wd (set_map c i rd st)) in *.
  assert (after 0 st X) as HX.
  { unfold after. split_and!; [done|unfold tally; cbn; lia|]. cbn. by rewrite !length_alter. }
  pose proof (alive_set_map c c j wd _ Hc1) as HcX. fold X in HcX.
  assert (lookup_fd c i X = rd) as HiX.
  { subst X. erewrite lookup_set_map, decide_False by (done || by right). erewrite lookup_set_map, decide_True by (done || by right). done. }
  assert (lookup_fd c j X = wd) as HjX.
  { subst X. erewrite lookup_set_map, decide_True by (done || by right). done. }
  split; [done|]. change 0 with (0 + 0). eapply after_trans; [exact HX|]. rewrite release_set_map.
  destruct (close_slot X c i H2 HcX Hsi) as [A Hpr]; [rewrite HiX; intros ->; by destruct Hr|]. rewrite HiX in A, Hpr.
  set (Z := vfs_fd_release rd _) in *. change 0 with (0 + 0). eapply after_trans; [exact A|].
  destruct A as (A & _ & HlZ). destruct (alive _ _ HcX) as [pX HpX].
  assert (lookup_fd c j Z = wd) as HjZ.
  { rewrite (lookup_fd_procs _ _ _ _ Hpr). erewrite lookup_set_map, decide_False by (done || by left). done. }
  destruct (close_slot Z c j A) as [B _]; [by rewrite HlZ|done|rewrite HjZ; intros ->; by destruct Hw|]. by rewrite HjZ in B.
Qed.

Lemma sys_pipe_ok st c ptr rops wops priv copied rd st1 wd st2 r st' : fd_inv base st → idle c st →
  rops ≠ 0 → wops ≠ 0 → ptr ≠ 0 → priv ≠ 0 →
  fd_pool_install rops priv O_RDONLY 0 0 st = (rd, st1) → fd_pool_install wops priv O_WRONLY 0 0 st1 = (wd, st2) →
  sys_pipe c ptr rops wops priv copied st = (r, st') →
  after (if rd <? 0 then 0 else if wd <? 0 then 1 else 2) st st'.
Proof.
  intros Hi Hc%idle_alive Hro Hwo Hptr Hpriv Hrd Hwd. unfold sys_pipe, vfs_fd_pipe_create.
  rewrite (proj2 (Z.eqb_neq ptr 0) Hptr), (proj2 (Z.eqb_neq priv 0) Hpriv), Hrd.
  pose proof (install_inv base st _ priv O_RDONLY 0 0 Hi Hro (λ x _, proj1 (base_small x))) as H. rewrite Hrd in H.
  destruct (rd <? 0).
  { destruct H as [-> ->]. cbn. intros [= _ <-]. by apply after_refl. }
  destruct H as (Hrv & _ & _ & R1 & R2 & R3 & _). rewrite Hwd.
  assert (∀ d, valid_desc d → 0 <= plus rd d) as Hpos by (intros d _; pose proof (base_small d); case_decide; lia).
  pose proof (install_inv _ st1 _ priv O_WRONLY 0 0 R1 Hwo Hpos) as H. rewrite Hwd in H.
  destruct (wd <? 0).
  { destruct H as [-> ->]. destruct (release_plus _ _ Hrv R1) as (A & B & C). cbn. intros [= _ <-].
    unfold after. rewrite C, R2. split_and!; [done|lia|done]. }
  destruct H as (Hwv & _ & _ & W1 & W2 & W3 & _). cbn [Z.eqb negb].
  assert (length (procs st2) = length (procs st)) as Hlen by congruence. rewrite <- Hlen in Hc.
  assert (∀ st', after 0 st2 st' → after 2 st st') as Hfin.
  { intros s (A & B & C). unfold after. rewrite C. split_and!; [done|lia|done]. }
  destruct (free_slot FD_MAX _ _) as [i|] eqn:Hf1; [|intros [= _ <-]; apply Hfin; by apply drop_two].
  pose proof (free_slot_spec _ _ _ _ (Z.le_refl 0) Hf1) as [Hir _].
  destruct (free_slot (FD_MAX - _) _ _) as [j|] eqn:Hf2; [|intros [= _ <-]; apply Hfin; by apply drop_two].
  pose proof (free_slot_spec _ (i + 1) _ _ ltac:(lia) Hf2) as [Hjr _].
  eapply free_lookup in Hf1 as [Hs1 Hn1]; [|done|done]. eapply free_lookup in Hf2 as [Hs2 Hn2]; [|lia|unfold slot_ok in *; lia].
  destruct (store_two st2 c rd wd i j) as [A B]; [done..|lia|done|done|].
  destruct copied; intros [= _ <-]; by apply Hfin.
Qed.

(** ** Standard files, exit, vfork, operations under way *)

Context (base_stdio : ∀ d, 0 <= d <= 2 → base d = 1).

(** Other fields of an open file do not matter. *)
Lemma upd_file_inv st d g : fd_inv base st → valid_desc d → 0 < f_refcnt (file st d) →
  (∀ f, f_refcnt (g f) = f_refcnt f ∧ is_open (g f) = is_open f) → after 0 st (upd_file d g st).
Proof.
  intros Hi Hv Hpos Hg. pose proof (inv_pool _ _ Hi) as Hl. pose proof (inv_open _ _ Hi d Hv) as Ho.
  destruct (Z.eqb_spec (f_refcnt (file st d)) 0); [lia|]. destruct (Hg (file st d)) as [Hg1 Hg2].
  unfold after. split_and!; [|unfold tally|done].
  - split; try apply Hi.
    + cbn. by rewrite length_alter.
    + intros e He. rewrite file_upd by done. cbn [procs upd_file]. rewrite <- (inv_refs _ _ Hi e He).
      by destruct (decide (e = d)) as [->|].
    + intros e He. rewrite file_upd by done. pose proof (inv_open _ _ Hi e He). destruct (decide (e = d)) as [->|]; [|done].
      rewrite Hg1, Hg2. by destruct (Z.eqb_spec (f_refcnt (file st d)) 0).
  - cbn [fd_pool upd_file closed]. unfold open_count; rewrite (zsum_alter _ _ _ _ _ (file_lookup st d Hl Hv)), Hg2. lia.
Qed.

Lemma upd_priv_inv st d v : fd_inv base st → 0 <= d <= 2 → after 0 st (upd_file d (set_f_priv v) st).
Proof.
  intros Hi Hd. assert (valid_desc d) as Hv by (unfold valid_desc, FILE_MAX; lia). pose proof (inv_total _ _ d Hi).
  apply upd_file_inv; try done. rewrite (inv_refs _ _ Hi d Hv), base_stdio by done. lia.
Qed.

(** The file an operation holds is open. *)
Lemma busy_open st c p d : fd_inv base st → procs st !! c = Some p → fp_busy p = Some d →
  valid_desc d ∧ 0 < f_refcnt (file st d).
Proof.
  intros Hi Hc Hb. destruct (proc_lookup _ _ _ _ Hi Hc) as (_ & _ & Hv). specialize (Hv d Hb). split; [done|].
  rewrite (inv_refs _ _ Hi d Hv). pose proof (base_small d).
  pose proof (total_elem d _ p (list_elem_of_lookup_2 _ _ _ Hc)) as Htot.
  unfold proc_refs, busy_cnt in Htot. rewrite Hb, Z.eqb_refl in Htot. pose proof (cnt_range d (fp_map p)). cbn [ind] in Htot. lia.
Qed.

Lemma op_update_ok st c g : fd_inv base st → (c < length (procs st))%nat →
  (∀ f, f_refcnt (g f) = f_refcnt f ∧ is_open (g f) = is_open f) → after 0 st (op_update c g st).
Proof.
  intros Hi Hc Hg. destruct (alive _ _ Hc) as [p Hp]. unfold op_update. rewrite (list_lookup_total_correct _ _ _ Hp).
  destruct (fp_busy p) as [d|] eqn:Hb; [|by apply after_refl]. destruct (busy_open _ _ _ _ Hi Hp Hb). by apply upd_file_inv.
Qed.

Lemma acquire_set_map d c i v st : vfs_fd_acquire d (set_map c i v st) = set_map c i v (vfs_fd_acquire d st).
Proof.
  unfold vfs_fd_acquire. change (file (set_map c i v st) d) with (file st d). by destruct (desc_ok d), (0 <? _).
Qed.

Lemma stdio_slot_ok st c i : fd_inv base st → (c < length (procs st))%nat → 0 <= i <= 2 → lookup_fd c i st = FD_DESC_NONE →
  after 0 st (stdio_slot c i st) ∧ procs (stdio_slot c i st) = procs (set_map c i i st).
Proof.
  intros Hi Hc Hr Hn. assert (valid_desc i) as Hv by (unfold valid_desc, FILE_MAX; lia).
  pose proof (inv_refs _ _ Hi i Hv) as Hf. rewrite base_stdio in Hf by done. pose proof (inv_total _ _ i Hi).
  assert (stdio_slot c i st = vfs_fd_acquire i (set_map c i i st)) as ->.
  { rewrite acquire_set_map. unfold stdio_slot, vfs_fd_stdio_desc, vfs_fd_acquire.
    rewrite (proj2 (desc_ok_valid i) Hv), (proj2 (Z.ltb_ge i 0)), (proj2 (Z.ltb_ge 2 i)), (proj2 (Z.ltb_lt 0 _)) by lia. done. }
  apply put_slot; try done; [unfold slot_ok, FD_MAX; lia|lia].
Qed.

Lemma stdio_map st c i j : fd_inv base st → (c < length (procs st))%nat → 0 <= i <= 2 → lookup_fd c i st = FD_DESC_NONE →
  slot_ok j → j ≠ i → lookup_fd c j (stdio_slot c i st) = lookup_fd c j st.
Proof.
  intros Hi Hc Hr Hn Hj Hne. destruct (alive _ _ Hc) as [p Hp].
  rewrite (lookup_fd_procs _ _ _ _ (proj2 (stdio_slot_ok _ _ _ Hi Hc Hr Hn))).
  erewrite lookup_set_map, decide_False; try done; [unfold slot_ok, FD_MAX; lia|right; unfold valid_desc, FILE_MAX; lia].
Qed.

Lemma stdio_slots_ok c l st : NoDup l → fd_inv base st → (c < length (procs st))%nat →
  (∀ i, i ∈ l → 0 <= i <= 2 ∧ lookup_fd c i st = FD_DESC_NONE) →
  after 0 st (foldl (λ st i, stdio_slot c i st) st l).
Proof.
  intros Hd. revert st. induction Hd as [|i l Hnot Hd IH]; intros st Hi Hc Hl; cbn [foldl]; [by apply after_refl|].
  destruct (Hl i ltac:(left)) as [Hr Hn]. destruct (stdio_slot_ok _ _ _ Hi Hc Hr Hn) as [A _].
  change 0 with (0 + 0). eapply after_trans; [exact A|]. destruct A as (A & _ & HlA). apply IH; [done|by rewrite HlA|].
  intros j Hj. destruct (Hl j) as [Hrj Hnj]; [by right|]. split; [done|].
  rewrite stdio_map; try done; [unfold slot_ok, FD_MAX; lia|by intros ->].
Qed.

Lemma stdio_privs_ok v l st : fd_inv base st → (∀ i, i ∈ l → 0 <= i <= 2) →
  after 0 st (foldl (λ st i, upd_file i (set_f_priv v) st) st l).
Proof.
  revert st. induction l as [|i l IH]; intros st Hi Hl; cbn [foldl]; [by apply after_refl|].
  pose proof (upd_priv_inv st i v Hi (Hl i ltac:(left))) as A. change 0 with (0 + 0). eapply after_trans; [exact A|].
  apply IH; [apply A|]. intros j Hj. apply Hl. by right.
Qed.

Lemma exec_stdio_ok st c console : fd_inv base st → idle c st → after 0 st (exec_stdio console c st).
Proof.
  intros Hi Hc%idle_alive. unfold exec_stdio. destruct (_ && _) eqn:E; [|by apply after_refl].
  apply andb_true_iff in E as [[E0 E1]%andb_true_iff E2]. apply Z.eqb_eq in E0, E1, E2. unfold fd_stdio_init.
  assert (∀ i, i ∈ [0; 1; 2] → 0 <= i <= 2 ∧ lookup_fd c i st = FD_DESC_NONE) as Hl.
  { intros i. rewrite !elem_of_cons. intros [->|[->|[->|H]]]; [split; [lia|done]..|by apply not_elem_of_nil in H]. }
  pose proof (stdio_privs_ok console [0; 1; 2] st Hi (λ i H, proj1 (Hl i H))) as A.
  replace 0 with (0 + 0) at 1 by done. eapply after_trans; [exact A|]. destruct A as (A & _ & HlA).
  apply stdio_slots_ok; [apply (bool_decide_unpack _); by vm_compute|done|by rewrite HlA|done].
Qed.

Lemma close_all_ok n c st : (n <= FD_MAX)%nat → fd_inv base st → (c < length (procs st))%nat → after 0 st (close_all n c st).
Proof.
  revert st. induction n as [|n IH]; intros st Hn Hi Hc; cbn [close_all]; [by apply after_refl|].
  set (i := Z.of_nat (FD_MAX - S n)). assert (slot_ok i) as Hs by (unfold slot_ok; subst i; lia).
  assert (after 0 st (if negb (lookup_fd c i st =? FD_DESC_NONE)
    then set_map c i FD_DESC_NONE (vfs_fd_release (lookup_fd c i st) st) else st)) as A.
  { destruct (Z.eqb_spec (lookup_fd c i st) FD_DESC_NONE) as [|H]; cbn [negb]; [by apply after_refl|].
    rewrite <- release_set_map. by apply close_slot. }
  change 0 with (0 + 0). eapply after_trans; [exact A|]. destruct A as (A & _ & Hl). apply IH; [lia|done|by rewrite Hl].
Qed.

Lemma inherit_ok n c child st : (n <= FD_MAX)%nat → c ≠ child → fd_inv base st →
  (c < length (procs st))%nat → (child < length (procs st))%nat →
  (∀ j, Z.of_nat (FD_MAX - n) <= j < Z.of_nat FD_MAX → lookup_fd child j st = FD_DESC_NONE) →
  after 0 st (inherit_fds n c child st).
Proof.
  revert st. induction n as [|n IH]; intros st Hn Hne Hi Hc Hch Hnone; cbn [inherit_fds]; [by apply after_refl|].
  set (i := Z.of_nat (FD_MAX - S n)) in *. assert (slot_ok i) as Hs by (unfold slot_ok; subst i; lia).
  assert (lookup_fd child i st = FD_DESC_NONE) as Hni by (apply Hnone; unfold slot_ok in Hs; lia).
  set (d := lookup_fd c i st). destruct (alive _ _ Hch) as [p Hp].
  set (st1 := if negb (d =? FD_DESC_NONE) then vfs_fd_acquire d (set_map child i d st) else set_map child i d st).
  assert (entry_ok d) as Hd.
  { destruct (alive _ _ Hc) as [q Hq]. by eapply lookup_fd_slot. }
  assert (after 0 st st1 ∧ procs st1 = procs (set_map child i d st)) as [A Hpr].
  { subst st1. destruct (Z.eqb_spec d FD_DESC_NONE) as [Hd0|Hd0]; cbn [negb].
    - split; [|done]. pose proof (set_map_inv _ _ _ _ _ d Hi Hp Hs Hd) as H1. rewrite Hni, Hd0 in H1. unfold after. rewrite Hd0.
      split_and!; [|unfold tally; cbn; lia|cbn; by rewrite length_alter].
      eapply inv_ext; [|exact H1]. intros x _. cbv beta. lia.
    - destruct (slot_open _ _ _ Hi Hc Hs Hd0). by apply put_slot. }
  change 0 with (0 + 0). eapply after_trans; [exact A|]. destruct A as (A & _ & Hl). apply IH; try done; [lia|by rewrite Hl|by rewrite Hl|].
  intros j Hj. rewrite (lookup_fd_procs _ _ _ _ Hpr). erewrite lookup_set_map; [|done..|unfold slot_ok; lia|done].
  destruct (decide (j = i)); [subst i; lia|]. apply Hnone. lia.
Qed.

Lemma op_begin_ok st c fd : fd_inv base st → idle c st → after 0 st (op_begin c fd st).
Proof.
  intros Hi (p & Hp & Hidle). pose proof (lookup_lt_Some _ _ _ Hp) as Hc. unfold op_begin.
  destruct (fd_ok fd) eqn:Hf; cbn [negb orb]; [|by apply after_refl]. apply fd_ok_slot in Hf.
  destruct (Z.eqb_spec (lookup_fd c fd st) FD_DESC_NONE) as [|Hn]; [by apply after_refl|]. set (d := lookup_fd c fd st) in *.
  destruct (slot_open _ _ _ Hi Hc Hf Hn) as [Hv Hpos]. fold d in Hv, Hpos. pose proof (base_small d).
  pose proof (inv_open _ _ Hi d Hv) as Ho. destruct (Z.eqb_spec (f_refcnt (file st d)) 0); [lia|]. unfold is_open in Ho.
  assert (fd_get d st = (true, vfs_fd_acquire d st)) as ->.
  { unfold fd_get, vfs_fd_acquire. by rewrite (proj2 (desc_ok_valid d) Hv), (proj2 (Z.ltb_lt 0 _) Hpos), Ho. }
  destruct (fd_acquire_inv _ _ d Hi Hv ltac:(lia) Hpos) as (A & B & C & D). rewrite <- D in Hp.
  eapply (set_busy_inv _ _ _ _ (Some d)) in A; [|exact Hp|by intros ? [= <-]]. unfold after. split_and!.
  - eapply inv_ext; [|exact A]. intros x _. unfold busy_cnt. rewrite Hidle, ind_decide. lia.
  - unfold tally. cbn [fd_pool closed set_busy]. rewrite B, C. lia.
  - cbn. by rewrite length_alter, D.
Qed.

Lemma op_end_ok st c : fd_inv base st → (c < length (procs st))%nat → after 0 st (op_end c st).
Proof.
  intros Hi Hc. destruct (alive _ _ Hc) as [p Hp]. unfold op_end. rewrite (list_lookup_total_correct _ _ _ Hp).
  destruct (fp_busy p) as [d|] eqn:Hb; [|by apply after_refl].
  destruct (proc_lookup _ _ _ _ Hi Hp) as (_ & _ & Hv). specialize (Hv d Hb).
  pose proof (set_busy_inv _ _ _ _ None Hi Hp ltac:(done)) as A.
  eapply (inv_ext _ (plus d)) in A.
  - destruct (release_plus _ _ Hv A) as (B & C & D). unfold after. rewrite D. split_and!; [done|unfold tally in *; cbn in *; lia|].
    cbn. by rewrite length_alter.
  - intros x _. unfold busy_cnt. rewrite Hb, ind_decide. lia.
Qed.

Lemma fd_step_ok st k st' : fd_inv base st → fd_step st k st' → after k st st'.
Proof.
  intros Hi Hs. destruct Hs.
  - eapply sys_open_ok; eauto.
  - eapply (sys_pipe_ok _ _ ptr rops wops priv); eassumption.
  - by eapply sys_close_ok.
  - by eapply sys_dup_ok.
  - by eapply sys_dup2_ok.
  - by eapply fcntl_dupfd_ok.
  - by apply exec_stdio_ok.
  - apply close_all_ok; [done..|by apply idle_alive].
  - apply inherit_ok; [done..|by apply idle_alive|by eapply lookup_lt_Some|].
    intros j Hj. unfold lookup_fd, fd_map. erewrite (list_lookup_total_correct (procs st)) by done.
    cbn [fp_map fd_proc_init]. apply lookup_total_replicate_2. lia.
  - by apply op_begin_ok.
  - apply op_update_ok; [done..|]. intros f. unfold fd_lseek. by repeat case_match.
  - apply op_update_ok; [done..|]. intros f. unfold fd_fcntl. by repeat case_match.
  - by apply op_end_ok.
Qed.

End operations.

(** ** From boot *)

Definition base_boot (d : Z) : Z := if (0 <=? d) && (d <=? 2) then 1 else 0.

Lemma base_boot_small d : 0 <= base_boot d <= 2.
Proof. unfold base_boot. destruct (_ && _); lia. Qed.

Lemma base_boot_stdio d : 0 <= d <= 2 → base_boot d = 1.
Proof. intros H. unfold base_boot. by rewrite (proj2 (Z.leb_le 0 d)), (proj2 (Z.leb_le d 2)) by lia. Qed.

Lemma total_boot d n : valid_desc d → total d (replicate n fd_proc_init) = 0.
Proof.
  intros Hd. apply zsum_zero, Forall_replicate. unfold proc_refs, busy_cnt. cbn [fp_map fp_busy fd_proc_init].
  rewrite Z.add_0_r. apply zsum_zero, Forall_replicate. rewrite ind_none; [done|exact Hd].
Qed.

Lemma boot_inv tty console n : tty ≠ 0 → (n <= PROC_MAX)%nat →
  fd_inv base_boot (fd_pool_init tty console (replicate n fd_proc_init)) ∧
  tally (fd_pool_init tty console (replicate n fd_proc_init)) = 3.
Proof.
  intros Ht Hn. set (st := fd_pool_init _ _ _).
  assert (∀ d, valid_desc d → file st d = if base_boot d =? 1
    then File tty console (if d =? 0 then O_RDONLY else O_WRONLY) 1 0 0 else file_zero) as Hf.
  { intros d Hd. unfold valid_desc, FILE_MAX in Hd. unfold file. replace d with (Z.of_nat (Z.to_nat d)) by lia.
    rewrite Nat2Z.id. assert (Z.to_nat d < 32)%nat as Hk by lia. revert Hk. generalize (Z.to_nat d) as k. intros k Hk.
    do 32 (destruct k as [|k]; [done|]). lia. }
  split; [split|].
  - done.
  - cbn. rewrite length_replicate. done.
  - cbn. apply Forall_replicate. split_and!; [done| |done].
    change (Forall entry_ok (replicate FD_MAX FD_DESC_NONE)). apply Forall_replicate. by left.
  - intros d Hd. rewrite Hf by done. cbn [procs st fd_pool_init]. rewrite total_boot by done.
    unfold base_boot. by destruct (_ && _).
  - intros d Hd. rewrite Hf by done. unfold base_boot, is_open. destruct (_ && _); [|done]. cbn. by destruct (Z.eqb_spec tty 0).
  - unfold tally, open_count. cbn. unfold is_open. cbn. destruct (Z.eqb_spec tty 0); [done|]. cbn. done.
Qed.

Lemma run_inv tty console nprocs n st : tty ≠ 0 → (nprocs <= PROC_MAX)%nat → fd_run tty console nprocs n st →
  fd_inv base_boot st ∧ tally st = 3 + n.
Proof.
  intros Ht Hn. induction 1 as [|n k st st' _ [IH1 IH2] Hs]; [apply boot_inv; done|].
  eapply (fd_step_ok base_boot base_boot_small base_boot_stdio) in Hs as (A & B & _); [|done]. split; [done|lia].
Qed.


(** A process opens a file and forks; the child's operation on the file
    outlives the parent's close, and the child's exit closes it. *)
Definition demo_boot : fd_state := fd_pool_init 1 5 (replicate 2 fd_proc_init).
Definition demo_opened : fd_state := (sys_open_install 0 7 0 2 9 0 (exec_stdio 5 0 demo_boot)).2.
Definition demo_reading : fd_state := op_begin 1 3 (inherit_fds FD_MAX 0 1 demo_opened).
Definition demo_ended : fd_state := op_end 1 (sys_close 0 3 demo_reading).2.
Definition demo_exited : fd_state := close_all FD_MAX 1 demo_ended.

Example demo_counts : (f_refcnt (file demo_reading 3), f_refcnt (file demo_ended 3), closed demo_exited) =
  (3, 1, [File 7 0 2 0 9 0]).
Proof. vm_compute. reflexivity. Qed.

Ltac demo_idle := eexists; split; [vm_compute; reflexivity|reflexivity].

Lemma demo_run : fd_run 1 5 2 1 demo_exited.
Proof.
  change 1 with (0 + 0 + (if 3 <? 0 then 0 else 1) + 0 + 0 + 0 + 0 + 0) at 2.
  eapply run_step; [|apply (step_exit 1 demo_ended); demo_idle].
  eapply run_step; [|apply (step_end 1 (sys_close 0 3 demo_reading).2); vm_compute; lia].
  eapply run_step; [|eapply (step_close 0 3 demo_reading); [demo_idle|apply surjective_pairing]].
  eapply run_step; [|apply (step_begin 1 3 (inherit_fds FD_MAX 0 1 demo_opened)); demo_idle].
  eapply run_step; [|apply (step_vfork 0 1 demo_opened); [demo_idle|vm_compute; reflexivity|done]].
  eapply run_step; [|eapply (step_open 0 7 0 2 9 0 (exec_stdio 5 0 demo_boot) 3);
    [demo_idle|done|apply (injective_projections (_, _)); vm_compute; reflexivity|apply surjective_pairing]].
  eapply run_step; [apply run_boot|apply (step_stdio 0 5 demo_boot); demo_idle].
Qed.

