(* ===== verification/ModCore.v ===== *)
(** * ModCore: the memory services of the core for the file systems
    (src/kernel/common/mod/mod_core.h)

    File systems reach pages only through the functions of [mod_core].  The
    class [PageStore] has the ones tmpfs calls and [PageStoreOk] what they
    promise; the instances are Region and the page accesses of page_io.c.  The
    clock is part of the state, as any call may find it advanced. *)

From S2P Require Import Prelude Config PagePool PagePoolFacts Page Region PageFacts.
From S2P Require Import ProcState Sched SchedFacts Kmutex KmutexFacts Proc UserCopy.

Class PageStore := {
  core : Type;
  (** [region_alloc(PPAP_MEM_RAM_DATA, PAGE_SIZE, 0, &r)]: the status, [r.base_page] *)
  core_alloc : core → Z * Z * core;
  (** [region_free(PPAP_MEM_RAM_DATA, PAGE_SIZE, &r)] of [{NULL, page}] *)
  core_free : Z → core → core;
  core_read : Z → Z → nat → core → list Z;
  core_write : Z → Z → list Z → core → core;
  core_zero : Z → Z → Z → core → core;
  core_time : core → Z
}.

(** [page_in_use c p]: page [p] is allocated, to whomever. *)
Class PageStoreOk {cfg : PageConfig} {ps : PageStore} := {
  store_ok : core → Prop;
  page_in_use : core → Z → Prop;
  byte_at : core → Z → Z → Z;
  store_alloc c rc p c' : store_ok c → core_alloc c = (rc, p, c') →
    store_ok c' ∧ (∀ q o, byte_at c' q o = byte_at c q o) ∧
    if rc <? 0 then ∀ q, page_in_use c' q ↔ page_in_use c q
    else p ≠ PAGE_ID_INVALID ∧ ¬ page_in_use c p ∧ ∀ q, page_in_use c' q ↔ page_in_use c q ∨ q = p;
  store_free c p : store_ok c → page_in_use c p →
    store_ok (core_free p c) ∧ (∀ q o, byte_at (core_free p c) q o = byte_at c q o) ∧
    ∀ q, page_in_use (core_free p c) q ↔ page_in_use c q ∧ q ≠ p;
  store_read c p o n : store_ok c → page_in_use c p → 0 <= o → (0 < n)%nat → o + Z.of_nat n <= PAGE_SIZE →
    core_read p o n c = (λ i, byte_at c p (o + Z.of_nat i)) <$> seq 0 n;
  store_write c p o bs : store_ok c → page_in_use c p → 0 <= o → o + Z.of_nat (length bs) <= PAGE_SIZE →
    store_ok (core_write p o bs c) ∧ (∀ q, page_in_use (core_write p o bs c) q ↔ page_in_use c q) ∧
    ∀ q x, page_in_use c q → 0 <= x < PAGE_SIZE →
      byte_at (core_write p o bs c) q x =
        if decide (q = p ∧ o <= x < o + Z.of_nat (length bs)) then bs !!! Z.to_nat (x - o) else byte_at c q x;
  store_zero c p o n : store_ok c → page_in_use c p → 0 <= o → 0 <= n → o + n <= PAGE_SIZE →
    store_ok (core_zero p o n c) ∧ (∀ q, page_in_use (core_zero p o n c) q ↔ page_in_use c q) ∧
    ∀ q x, page_in_use c q → 0 <= x < PAGE_SIZE →
      byte_at (core_zero p o n c) q x = if decide (q = p ∧ o <= x < o + n) then 0 else byte_at c q x
}.

(** ** Copies into a page *)

Section Copies.
Context {cfg : PageConfig} {ps : PageStore} {psok : PageStoreOk}.

(** The caller's page has got [k] bytes of [f] from offset [po] on. *)
Record copied (c c' : core) (page po k : Z) (f : Z → Z) : Prop := {
  cp_ok : store_ok c';
  cp_used q : page_in_use c' q ↔ page_in_use c q;
  cp_byte q x : page_in_use c q → 0 <= x < PAGE_SIZE → byte_at c' q x = if decide (q = page ∧ po <= x < po + k) then f (x - po) else byte_at c q x
}.

Lemma copied_none c page po k f : store_ok c → k <= 0 → copied c c page po k f.
Proof. intros Hc Hk. split; [done|done|]. intros q x _ _. rewrite decide_False; [done|lia]. Qed.

Lemma copied_more c c1 c2 page po k1 k2 f f1 f2 : copied c c1 page po k1 f1 → copied c1 c2 page (po + k1) k2 f2 → 0 <= k1 → 0 <= k2 →
  (∀ x, 0 <= x < k1 → f x = f1 x) → (∀ x, 0 <= x < k2 → f (k1 + x) = f2 x) → copied c c2 page po (k1 + k2) f.
Proof.
  intros [A B C] [A' B' C'] Hk1 Hk2 H1 H2. split; [done|intros q; by rewrite B', B|]. intros q x Hq Hx. rewrite C' by (done || by apply B). rewrite C by done.
  repeat case_decide; try lia; [|by rewrite H1 by lia].
  replace (x - po) with (k1 + (x - (po + k1))) by lia. by rewrite H2 by lia.
Qed.

(** A caller's buffer. *)
Definition core_range (c : core) (page off n : Z) : Prop := store_ok c ∧ page_in_use c page ∧ 0 <= off ∧ off + n <= PAGE_SIZE.

Lemma copied_range c c' page po k f n : copied c c' page po k f → core_range c page po n → 0 <= k → core_range c' page (po + k) (n - k).
Proof. intros [A B _] (_ & Hp & Ho & Hn) Hk. split_and!; [done|by apply B|lia|lia]. Qed.

Lemma copied_write c page po bs (f : Z → Z) n : core_range c page po n → Z.of_nat (length bs) <= n →
  (∀ x, 0 <= x < Z.of_nat (length bs) → bs !!! Z.to_nat x = f x) → copied c (core_write page po bs c) page po (Z.of_nat (length bs)) f.
Proof.
  intros (Hc & Hp & Ho & Hn) Hl Hf. destruct (store_write c page po bs Hc Hp Ho ltac:(lia)) as (W1 & W2 & W3). split; [done|done|].
  intros q x Hq Hx. rewrite W3 by done. case_decide; [|done]. apply Hf. lia.
Qed.
End Copies.

(** ** The kernel's implementation *)

Section Kernel.
Context {cfg : PageConfig} {tgt : PageTarget} {mh : MemHelper}.

Definition page_zero (mem : umem) (id off len : Z) : umem :=
  if (id =? PAGE_ID_INVALID) || (len =? 0) then mem
  else mem_write mem (page_linear id + off) (replicate (Z.to_nat len) 0).

Record kcore := KCore { kc_mm : mm_t; kc_mem : umem; kc_now : Z }.

(** [tmpfs] leaves the base of the region uninitialised before the call and
    reads only the page after it. *)
#[export] Instance kernel_store : PageStore := {|
  core := kcore;
  core_alloc c :=
    let '(rc, r, m) := region_alloc (kc_mm c) PPAP_MEM_RAM_DATA PAGE_SIZE 0 (Some (Region 0 0)) in
    (rc, from_option r_base_page 0 r, KCore m (kc_mem c) (kc_now c));
  core_free p c :=
    KCore (region_free (kc_mm c) PPAP_MEM_RAM_DATA PAGE_SIZE (Some (Region 0 p))) (kc_mem c) (kc_now c);
  core_read p o n c := default [] (page_read (kc_mem c) p o n);
  core_write p o bs c := KCore (kc_mm c) (page_write (kc_mem c) p o bs) (kc_now c);
  core_zero p o n c := KCore (kc_mm c) (page_zero (kc_mem c) p o n) (kc_now c);
  core_time := kc_now
|}.

Context `{!PageBacked} (lo hi : Z) (hi_addr : hi <= 2 ^ 20).

Definition kc_byte (c : kcore) (p o : Z) : Z := kc_mem c (p * PAGE_SIZE + o).
Definition kc_used (c : kcore) (p : Z) : Prop := lo <= p < hi ∧ ¬ page_is_free (mm_pool (kc_mm c)) p.

Lemma page_linear_pool m p : mm_inv m lo hi → lo <= p < hi → p ≠ PAGE_ID_INVALID ∧ page_linear p = p * PAGE_SIZE.
Proof.
  intros Hm Hp. pose proof (mm_geo _ _ _ Hm) as [H1 H2 H3 H4].
  assert (p ≠ PAGE_ID_INVALID) as Hi by lia. split; [done|]. unfold page_linear.
  destruct (Z.eqb_spec p PAGE_ID_INVALID); [done|]. unfold page_id_linear. apply uN_small. unfold PAGE_SIZE. lia.
Qed.

Lemma mem_write_page mem p o bs q x : 0 <= o → o + Z.of_nat (length bs) <= PAGE_SIZE → 0 <= x < PAGE_SIZE →
  mem_write mem (p * PAGE_SIZE + o) bs (q * PAGE_SIZE + x) =
    if decide (q = p ∧ o <= x < o + Z.of_nat (length bs)) then bs !!! Z.to_nat (x - o) else mem (q * PAGE_SIZE + x).
Proof.
  intros Ho Hn Hx. unfold mem_write, PAGE_SIZE in *.
  destruct (Z.leb_spec (p * 4096 + o) (q * 4096 + x)), (Z.ltb_spec (q * 4096 + x) (p * 4096 + o + Z.of_nat (length bs)));
    cbn [andb]; case_decide as Hd; try done; try lia. f_equal. lia.
Qed.

Lemma one_page : region_page_count PAGE_SIZE = 1.
Proof. done. Qed.

Lemma kernel_alloc c rc p c' : mm_inv (kc_mm c) lo hi → core_alloc (PageStore := kernel_store) c = (rc, p, c') →
  mm_inv (kc_mm c') lo hi ∧ kc_mem c' = kc_mem c ∧
  if rc <? 0 then ∀ q, kc_used c' q ↔ kc_used c q
  else p ≠ PAGE_ID_INVALID ∧ ¬ kc_used c p ∧ ∀ q, kc_used c' q ↔ kc_used c q ∨ q = p.
Proof.
  intros Hm. unfold core_alloc, kernel_store, region_alloc. rewrite page_backed_alloc, set_arch_id. cbn [negb Z.eqb ENOSYS Z.opp].
  change (negb (-38 =? -38)) with false. cbn iota.
  pose proof (region_backed_spec (kc_mm c) lo hi PAGE_SIZE (Region 0 0) Hm) as Hr. rewrite one_page in Hr.
  destruct (region_alloc_page_backed _ _ _) as [[rc0 r] m'].
  destruct Hr as [Hm' Hr]; [unfold PAGE_SIZE; lia..|]. intros [= <- <- <-]. cbn [kc_mm kc_mem from_option].
  split; [done|]. split; [done|]. destruct Hr as [(-> & _ & Hp & _)|(-> & Hid & Hl & Hh & Hrun & _ & Hf & _)].
  - cbn. intros q. unfold kc_used. cbn [kc_mm]. by rewrite Hp.
  - cbn [Z.ltb]. split; [done|]. assert (page_is_free (mm_pool (kc_mm c)) (r_base_page r)) as Hfree by (apply Hrun; lia).
    split; [by intros [_ Hn]|]. intros q. unfold kc_used. cbn [kc_mm]. rewrite Hf.
    destruct (decide (q = r_base_page r)) as [->|]; [split; [tauto|intros _; split; [lia|]; intros [_ Hn]; lia]|].
    split; [intros [? Hn]; left; split; [done|]; intros Hq; apply Hn; split; [done|lia]|intros [[? Hn]|]; [|done]].
    split; [done|]. tauto.
Qed.

Lemma kernel_free c p : mm_inv (kc_mm c) lo hi → kc_used c p →
  mm_inv (kc_mm (core_free (PageStore := kernel_store) p c)) lo hi ∧ kc_mem (core_free (PageStore := kernel_store) p c) = kc_mem c ∧
  ∀ q, kc_used (core_free (PageStore := kernel_store) p c) q ↔ kc_used c q ∧ q ≠ p.
Proof.
  intros Hm [Hp Hn]. pose proof (mm_geo _ _ _ Hm) as Hg. destruct (page_linear_pool _ p Hm Hp) as [Hid _].
  assert (to_page_id (p + to_page_id 0) = p) as Hto.
  { pose proof Hg as [? ? ? ?]. rewrite (page_id_small lo hi Hg 0), Z.add_0_r by lia. apply (page_id_small lo hi Hg). lia. }
  assert (region_free (kc_mm c) PPAP_MEM_RAM_DATA PAGE_SIZE (Some (Region 0 p)) = page_free (kc_mm c) p) as Hf.
  { unfold region_free. cbn [r_base r_base_page Z.eqb andb]. destruct (Z.eqb_spec p PAGE_ID_INVALID); [done|].
    rewrite page_backed_free, set_arch_id. unfold region_free_page_backed. rewrite one_page. cbn [r_base_page].
    destruct (Z.eqb_spec p PAGE_ID_INVALID); [done|]. change (Z.to_nat 1) with 1%nat. cbn [free_pages]. by rewrite Hto. }
  unfold core_free, kernel_store. cbn [kc_mm kc_mem]. rewrite Hf.
  destruct (page_free_spec (kc_mm c) lo hi p Hm) as (A & _ & B); [unfold valid_id; pose proof Hg as [? ? ? Hh]; unfold PAGE_ID_INVALID in Hh; lia|].
  split; [done|]. split; [done|]. intros q. unfold kc_used. cbn [kc_mm]. rewrite B. split.
  - intros [? Hq]. split; [split; [done|tauto]|]. intros ->. tauto.
  - intros [[? Hq] Hne]. split; [done|]. tauto.
Qed.

#[export] Instance kernel_store_ok : @PageStoreOk cfg kernel_store.
Proof.
  refine (@Build_PageStoreOk cfg kernel_store (λ c : kcore, mm_inv (kc_mm c) lo hi) kc_used kc_byte _ _ _ _ _).
  - intros c rc p c' Hm Ha. destruct (kernel_alloc _ _ _ _ Hm Ha) as (A & B & C). split; [exact A|]. split; [|exact C].
    intros q o. unfold kc_byte. by rewrite B.
  - intros c p Hm Hp. destruct (kernel_free _ _ Hm Hp) as (A & B & C). split; [exact A|]. split; [|exact C].
    intros q o. unfold kc_byte. by rewrite B.
  - intros c p o n Hm [Hp _] Ho Hn Hlen. destruct (page_linear_pool _ p Hm Hp) as [Hid Hlin].
    cbn. unfold page_read. destruct (Z.eqb_spec p PAGE_ID_INVALID); [done|]. destruct (Nat.eqb_spec n 0); [lia|]. cbn.
    unfold mem_read. apply list_fmap_ext. intros i x _. unfold kc_byte. rewrite Hlin. f_equal. lia.
  - intros c p o bs Hm [Hp _] Ho Hlen. destruct (page_linear_pool _ p Hm Hp) as [Hid Hlin]. split; [done|]. split; [done|].
    intros q x _ Hx. cbn. unfold page_write, kc_byte. destruct (Z.eqb_spec p PAGE_ID_INVALID); [done|].
    destruct (Nat.eqb_spec (length bs) 0) as [H0|]; cbn; [case_decide; [lia|done]|]. rewrite Hlin. by apply mem_write_page.
  - intros c p o n Hm [Hp _] Ho Hn Hlen. destruct (page_linear_pool _ p Hm Hp) as [Hid Hlin]. split; [done|]. split; [done|].
    intros q x _ Hx. cbn. unfold page_zero, kc_byte. destruct (Z.eqb_spec p PAGE_ID_INVALID); [done|].
    destruct (Z.eqb_spec n 0) as [H0|]; cbn; [case_decide; [lia|done]|]. rewrite Hlin.
    rewrite mem_write_page; rewrite ?length_replicate, ?Z2Nat.id by lia; try done.
    case_decide; [|done]. apply lookup_total_replicate_2. lia.
Defined.

End Kernel.

(** ** The services of the RP2040 *)

Lemma alloc_used `{PageStoreOk} c : store_ok c → ((core_alloc c).1.1 <? 0) = false → store_ok (core_alloc c).2 ∧ page_in_use (core_alloc c).2 (core_alloc c).1.2.
Proof.
  intros Hc. destruct (core_alloc c) as [[rc p] c'] eqn:E. cbn. intros Hrc. destruct (store_alloc _ _ _ _ Hc E) as (A & _ & B).
  rewrite Hrc in B. split; [done|]. apply B. by right.
Qed.

#[export] Instance demo_store_ok : @PageStoreOk _ kernel_store := kernel_store_ok 131078 131128 ltac:(lia).

Definition demo_core0 : core := KCore rp2040_mm (λ _, 65) 1000.
Definition demo_page : Z := (core_alloc demo_core0).1.2.
(** One page belongs to a process. *)
Definition demo_core : core := (core_alloc demo_core0).2.

Lemma demo_core0_ok : store_ok demo_core0.
Proof. unfold store_ok, demo_store_ok, kernel_store_ok. apply rp2040_mm_inv. Qed.

Lemma demo_store : store_ok demo_core ∧ page_in_use demo_core demo_page.
Proof. apply alloc_used; [apply demo_core0_ok|]. vm_compute. done. Qed.
