(* ===== verification/Mem.v ===== *)
(** * Mem: the break and anonymous mappings (src/kernel/core/syscall/sys_mem.c)

    [sys_brk], [sys_mmap2] and [sys_munmap] of the flat targets, and of the
    segmented one, where a process owns the pages of its segment from the start
    and [user_pages] only says which are in use.  Memory is a map from linear
    addresses to bytes; [current] is an argument. *)

From S2P Require Import Prelude Config PagePool PagePoolFacts Page Region PageFacts.
From S2P Require Import ProcState Sched SchedFacts Kmutex KmutexFacts Proc UserCopy ModCore.

Definition MAP_ANONYMOUS : Z := 0x20.
Definition MAP_FIXED : Z := 0x10.

Section Operations.
Context {cfg : PageConfig} {tgt : PageTarget} {mh : MemHelper}.

(** [current], the allocator and the memory. *)
Record usr_t := Usr { usr_proc : pcb_t; usr_mm : mm_t; usr_mem : umem }.

Definition usr_pages (s : usr_t) : list Z := p_user_pages (usr_proc s).
Definition set_pages (pages : list Z) (s : usr_t) : usr_t := Usr (set_p_user_pages pages (usr_proc s)) (usr_mm s) (usr_mem s).
Definition set_brk (v : Z) (s : usr_t) : usr_t := Usr (set_p_brk_current v (usr_proc s)) (usr_mm s) (usr_mem s).

(** Conversions to [uintptr_t] and to [long], which have the same width. *)
Definition uptr (z : Z) : Z := uN uintptr_bits z.
Definition to_long (z : Z) : Z := sN uintptr_bits z.

(** [memset(p, 0, n)] *)
Definition clear (p n : Z) (mem : umem) : umem := mem_write mem p (replicate (Z.to_nat n) 0).

(** [proc_release_tracked_pages(current, i, j)] *)
Definition release_range (i j : Z) (s : usr_t) : usr_t :=
  let '(p, m) := proc_release_tracked_pages false (Some (usr_proc s)) (Z.to_nat i) (Z.to_nat j) (usr_mm s) in
  Usr (default (usr_proc s) p) m (usr_mem s).

(** ** The break *)

Definition pages_to (top base : Z) : Z := uptr (top - base + PAGE_SIZE - 1) / PAGE_SIZE.

(** The pages from [i] on, [n] of them; those allocated are released again when
    one cannot be had. *)
Fixpoint brk_grow (n : nat) (i page0_base old_pages : Z) (s : usr_t) : bool * usr_t :=
  match n with
  | O => (true, s)
  | S n =>
      let target := uptr (page0_base + u32 (i * PAGE_SIZE)) in
      let '(rc, r, m) := region_alloc_at (usr_mm s) PPAP_MEM_RAM_DATA target PAGE_SIZE 0 (Some (Region 0 0)) in
      let s := Usr (usr_proc s) m (usr_mem s) in
      if rc <? 0 then (false, release_range old_pages i s)
      else
        let r := default (Region 0 0) r in
        let p := (proc_track_page (Some (usr_proc s)) i (r_base_page r)).2 in
        brk_grow n (i + 1) page0_base old_pages
          (Usr (default (usr_proc s) p) m (clear (r_base r) PAGE_SIZE (usr_mem s)))
  end.

Definition sys_brk (addr : Z) (s : usr_t) : Z * usr_t :=
  let unchanged := (to_long (p_brk_current (usr_proc s)), s) in
  let new_brk := uptr addr in
  if addr =? 0 then unchanged
  else if new_brk <? p_brk_base (usr_proc s) then unchanged
  else
    let page0_id := proc_page_backed_base (Some (usr_proc s)) in
    if page0_id =? PAGE_ID_INVALID then unchanged
    else
      let page0_base := uptr (page_linear page0_id) in
      let old_pages := pages_to (p_brk_current (usr_proc s)) page0_base in
      let new_pages := pages_to new_brk page0_base in
      if Z.of_nat USER_PAGES_MAX <? new_pages then unchanged
      else
        let '(ok, s) := brk_grow (Z.to_nat (new_pages - old_pages)) old_pages page0_base old_pages s in
        if negb ok then (to_long (p_brk_current (usr_proc s)), s)
        else (to_long new_brk, set_brk new_brk (release_range new_pages old_pages s)).

(** ** Mappings *)

Definition mem_pages (len : Z) : Z := uptr (len + PAGE_SIZE - 1) / PAGE_SIZE.

(** [for (i = USER_PAGES_MAX; i > 0; i--)], with [run] free slots above [i]. *)
Fixpoint find_slots (pages : list Z) (i : nat) (num_pages run : Z) : Z :=
  match i with
  | O => -1
  | S i =>
      if pages !!! i =? PAGE_ID_INVALID then
        if num_pages <=? run + 1 then Z.of_nat i else find_slots pages i num_pages (run + 1)
      else find_slots pages i num_pages 0
  end.
Definition mmap_find_slots (p : pcb_t) (num_pages : Z) : Z := find_slots (p_user_pages p) USER_PAGES_MAX num_pages 0.

(** The end of both branches: the region cleared and its pages tracked. *)
Definition mmap_track (slot num_pages size : Z) (r : region_t) (m : mm_t) (s : usr_t) : usr_t :=
  Usr (set_p_user_pages (track_loop (Z.to_nat num_pages) 0 (Z.to_nat slot) (r_base_page r) (usr_pages s)) (usr_proc s))
    m (clear (r_base r) size (usr_mem s)).

Definition sys_mmap2 (addr len flags fd : Z) (s : usr_t) : Z * usr_t :=
  if negb (bset flags MAP_ANONYMOUS) then (- ENOSYS, s)
  else if negb (s32 fd =? -1) then (- EINVAL, s)
  else if len =? 0 then (- EINVAL, s)
  else
    let num_pages := mem_pages len in
    let slot := mmap_find_slots (usr_proc s) num_pages in
    if slot <? 0 then (- ENOMEM, s)
    else
      let size := u32 (num_pages * PAGE_SIZE) in
      if bset flags MAP_FIXED && negb (addr =? 0) then
        let '(rc, r, m) := region_alloc_at (usr_mm s) PPAP_MEM_RAM_DATA addr size 0 (Some (Region 0 0)) in
        if rc <? 0 then (- ENOMEM, Usr (usr_proc s) m (usr_mem s))
        else (to_long addr, mmap_track slot num_pages size (default (Region 0 0) r) m s)
      else
        let '(rc, r, m) := region_alloc (usr_mm s) PPAP_MEM_RAM_DATA size 0 (Some (Region 0 0)) in
        if rc <? 0 then (- ENOMEM, Usr (usr_proc s) m (usr_mem s))
        else
          let r := default (Region 0 0) r in
          (to_long (r_base r), mmap_track slot num_pages size r m s).

(** The first slot from [i] on whose page is at [addr]. *)
Fixpoint find_mapping (pages : list Z) (n i : nat) (addr : Z) : option nat :=
  match n with
  | O => None
  | S n =>
      if negb (pages !!! i =? PAGE_ID_INVALID) && (page_linear (pages !!! i) =? addr) then Some i
      else find_mapping pages n (S i) addr
  end.

(** The slots from [i] on, [n] at most, up to a free one. *)
Fixpoint unmap_slots (n i : nat) (pages : list Z) (m : mm_t) : list Z * mm_t :=
  match n with
  | O => (pages, m)
  | S n =>
      if pages !!! i =? PAGE_ID_INVALID then (pages, m)
      else unmap_slots n (S i) (<[i := PAGE_ID_INVALID]> pages) (page_free m (pages !!! i))
  end.

Definition sys_munmap (addr len : Z) (s : usr_t) : Z * usr_t :=
  if (addr =? 0) || (len =? 0) then (- EINVAL, s)
  else
    let num_pages := mem_pages len in
    match find_mapping (usr_pages s) USER_PAGES_MAX 0 (u32 addr) with
    | Some i =>
        let '(pages, m) := unmap_slots (Nat.min (Z.to_nat num_pages) (USER_PAGES_MAX - i)) i (usr_pages s) (usr_mm s) in
        (0, Usr (set_p_user_pages pages (usr_proc s)) m (usr_mem s))
    | None =>
        let r := Region addr (page_from_ptr addr) in
        (0, Usr (usr_proc s) (region_free (usr_mm s) PPAP_MEM_RAM_DATA (u32 (num_pages * PAGE_SIZE)) (Some r)) (usr_mem s))
    end.
End Operations.
