(* ===== verification/MemFacts.v ===== *)
(** * MemFacts: the break and mappings keep the pages of the pool apart
    (src/kernel/core/syscall/sys_mem.c)

    Every page of the pool is free, or in one slot of one process.  What a process
    may dispose of, its own pages and the free ones, is the same before and after
    each call; so its end gives back what its calls took. *)

From S2P Require Import Prelude Config PagePool PagePoolFacts Page Region PageFacts.
From S2P Require Import ProcState Sched SchedFacts Kmutex KmutexFacts Proc UserCopy ModCore Mem.

(** ** Slots and free pages *)

Section Slots.
Context {cfg : PageConfig} (lo hi : Z).
Implicit Types (F : Z → Prop) (pages : list Z).

Abbreviation NONE := PAGE_ID_INVALID.

Definition tracked pages (p : Z) : Prop := p ≠ NONE ∧ p ∈ pages.

Record owns F pages : Prop := {
  ow_length : length pages = USER_PAGES_MAX;
  ow_used i p : pages !! i = Some p → p ≠ NONE → lo <= p < hi ∧ ¬ F p;
  ow_once i j p : pages !! i = Some p → pages !! j = Some p → p ≠ NONE → i = j
}.

(** Free or the process's own: the same before and after. *)
Definition trade F pages F' pages' : Prop :=
  owns F' pages' ∧ ∀ p, F p ∨ tracked pages p ↔ F' p ∨ tracked pages' p.

Lemma trade_refl F pages : owns F pages → trade F pages F pages.
Proof. by split. Qed.
Lemma trade_trans F1 l1 F2 l2 F3 l3 : trade F1 l1 F2 l2 → trade F2 l2 F3 l3 → trade F1 l1 F3 l3.
Proof. intros [_ A] [H B]. split; [done|]. intros p. by rewrite A. Qed.
Lemma trade_owns F l F' l' : trade F l F' l' → owns F' l'.
Proof. by intros [? _]. Qed.
Lemma owns_ext F F' pages : (∀ p, F p ↔ F' p) → owns F pages → owns F' pages.
Proof. intros E [A B C]. split; [done| |done]. intros i p Hi Hn. rewrite <-E. by apply (B i). Qed.
Lemma trade_ext F l F1 F2 l' : (∀ p, F1 p ↔ F2 p) → trade F l F1 l' → trade F l F2 l'.
Proof. intros E [H A]. split; [by apply (owns_ext F1)|]. intros p. by rewrite A, E. Qed.

Lemma elem_of_put (pages : list Z) i (old p q : Z) : pages !! i = Some old → q ≠ old → q ≠ p → q ∈ <[i := p]> pages ↔ q ∈ pages.
Proof.
  intros Hi Ho Hn. rewrite !list_elem_of_lookup. split.
  - intros [j Hj]. apply list_lookup_insert_Some in Hj as [(_ & ? & _)|[? ?]]; [done|]. by exists j.
  - intros [j Hj]. exists j. rewrite list_lookup_insert_ne; [done|]. intros ->. congruence.
Qed.

Lemma take_slot F F' pages i p : owns F pages → pages !! i = Some NONE → F p → lo <= p < hi → p ≠ NONE →
  (∀ q, F' q ↔ F q ∧ q ≠ p) → trade F pages F' (<[i := p]> pages).
Proof.
  intros [A B C] Hi Hp Hr Hn HF. assert (p ∉ pages) as Hnew.
  { intros [j Hj]%list_elem_of_lookup_1. by destruct (B j p Hj Hn). }
  pose proof (lookup_lt_Some _ _ _ Hi) as Hlt. split; [split|].
  - by rewrite length_insert.
  - intros j q Hj Hq. apply list_lookup_insert_Some in Hj as [(-> & -> & _)|[_ Hj]].
    + split; [done|]. rewrite HF. tauto.
    + destruct (B j q Hj Hq). split; [done|]. rewrite HF. tauto.
  - intros j k q Hj Hk Hq. apply list_lookup_insert_Some in Hj as [(-> & -> & _)|[Hj' Hj]]; apply list_lookup_insert_Some in Hk as [(-> & E & _)|[Hk' Hk]]; try done.
    + destruct Hnew. by eapply list_elem_of_lookup_2.
    + subst. destruct Hnew. by eapply list_elem_of_lookup_2.
    + by apply (C j k q).
  - intros q. rewrite HF. unfold tracked. destruct (decide (q = p)) as [->|Hne].
    + split; [intros _; right; split; [done|]; by apply list_elem_of_insert|intros _; by left].
    + pose proof (elem_of_put pages i NONE p q Hi). naive_solver.
Qed.

Lemma drop_slot F F' pages i p : owns F pages → pages !! i = Some p → p ≠ NONE → (∀ q, F' q ↔ F q ∨ q = p) →
  trade F pages F' (<[i := NONE]> pages).
Proof.
  intros [A B C] Hi Hn HF. pose proof (lookup_lt_Some _ _ _ Hi) as Hlt. split; [split|].
  - by rewrite length_insert.
  - intros j q Hj Hq. apply list_lookup_insert_Some in Hj as [(_ & <- & _)|[Hj' Hj]]; [done|].
    destruct (B j q Hj Hq). split; [done|]. rewrite HF. intros [?| ->]; [done|]. by rewrite (C i j p) in Hj'.
  - intros j k q Hj Hk Hq. apply list_lookup_insert_Some in Hj as [(_ & <- & _)|[_ Hj]]; [done|].
    apply list_lookup_insert_Some in Hk as [(_ & <- & _)|[_ Hk]]; [done|]. by apply (C j k q).
  - intros q. rewrite HF. unfold tracked. destruct (decide (q = p)) as [->|Hne].
    + split; [intros _; left; by right|intros _; right; split; [done|by eapply list_elem_of_lookup_2]].
    + pose proof (elem_of_put pages i p NONE q Hi Hne). naive_solver.
Qed.
End Slots.

(** ** The state of a call *)

Section State.
Context {cfg : PageConfig} {tgt : PageTarget} {mh : MemHelper} {pb : PageBacked} (lo hi : Z).
(** The pool ends so far below the top of the address space that no page of a
    process's table wraps around. *)
Context (room_addr : (hi + Z.of_nat USER_PAGES_MAX) * PAGE_SIZE <= 2 ^ uintptr_bits).
Context (room_id : hi + Z.of_nat USER_PAGES_MAX <= PAGE_ID_INVALID).
Implicit Types (s : usr_t) (m : mm_t).

Definition free_in s (p : Z) : Prop := page_is_free (mm_pool (usr_mm s)) p.

(** The allocator is well-formed and the process has its pages to itself. *)
Record mem_ok s : Prop := {
  mo_inv : mm_inv (usr_mm s) lo hi;
  mo_owns : owns lo hi (free_in s) (usr_pages s)
}.

(** What a call leaves alone: the memory apart, the process but for its pages. *)
Definition kept s s' : Prop := ∀ pages, set_p_user_pages pages (usr_proc s') = set_p_user_pages pages (usr_proc s).
Definition traded s s' : Prop := trade lo hi (free_in s) (usr_pages s) (free_in s') (usr_pages s').

Lemma page_linear_small p : 0 <= p → p < hi + Z.of_nat USER_PAGES_MAX → uptr (page_linear p) = p * PAGE_SIZE.
Proof.
  intros H0 Hp. pose proof uintptr_bits_range. assert (2 ^ uintptr_bits <= 2 ^ 32) by (apply Z.pow_le_mono_r; lia). unfold PAGE_SIZE in *.
  unfold page_linear. destruct (Z.eqb_spec p PAGE_ID_INVALID); [lia|]. unfold page_id_linear, uptr, PAGE_SIZE.
  rewrite (uN_small 32) by lia. apply uN_small. lia.
Qed.
Lemma page_from_ptr_page p : 0 < p → p < hi + Z.of_nat USER_PAGES_MAX → page_from_ptr (p * PAGE_SIZE) = p.
Proof.
  intros H0 Hp. unfold page_from_ptr, PAGE_SIZE. destruct (Z.eqb_spec (p * 4096) 0); [lia|]. unfold linear_page_id, PAGE_SIZE.
  rewrite Z.div_mul by lia. apply uN_small. unfold PAGE_ID_INVALID in room_id. lia.
Qed.

(** One page at an address: taken when it is free, and nothing else happens. *)
Lemma alloc_one m p r : mm_inv m lo hi → 0 < p → p < hi + Z.of_nat USER_PAGES_MAX →
  let '(rc, r', m') := region_alloc_at m PPAP_MEM_RAM_DATA (p * PAGE_SIZE) PAGE_SIZE 0 (Some r) in
  mm_inv m' lo hi ∧
  if rc <? 0 then ¬ page_is_free (mm_pool m) p ∧ m' = m
  else page_is_free (mm_pool m) p ∧ r' = Some (Region (p * PAGE_SIZE) p) ∧ ∀ q, page_is_free (mm_pool m') q ↔ page_is_free (mm_pool m) q ∧ q ≠ p.
Proof.
  intros Hm H0 Hp. unfold region_alloc_at. destruct (Z.eqb_spec (p * PAGE_SIZE) 0); [unfold PAGE_SIZE in *; lia|].
  change (PAGE_SIZE =? 0) with false. change (PPAP_MEM_RAM_DATA =? PPAP_MEM_RAM_DATA) with true. cbn [orb]. rewrite page_from_ptr_page by done.
  change (Z.to_nat (region_page_count PAGE_SIZE)) with 1%nat. cbn [alloc_pages_at].
  assert (to_page_id (p + to_page_id 0) = p) as ->.
  { unfold to_page_id. rewrite (uN_small _ 0), Z.add_0_r by (pose proof page_id_bits_range; lia). apply uN_small. unfold PAGE_ID_INVALID in room_id. lia. }
  pose proof (page_alloc_at_spec m lo hi p Hm) as Ha. destruct (page_alloc_at m p) as [rc m']. destruct Ha as (A & _ & [(-> & B & C)|(-> & B & ->)]); cbn.
  - done.
  - done.
Qed.

(** ** Growing and shrinking *)

(** The pages [b + i], ..., [b + i + k - 1] in the slots [i], ..., cleared. *)
Record taken (k i : nat) (b : Z) s s' : Prop := {
  tk_ok : mem_ok s';
  tk_trade : traded s s';
  tk_proc : usr_proc s' = set_p_user_pages (usr_pages s') (usr_proc s);
  tk_pages j : usr_pages s' !! j = if decide (i <= j < i + k)%nat then Some (b + Z.of_nat j) else usr_pages s !! j;
  tk_free q : free_in s' q ↔ free_in s q ∧ ¬ b + Z.of_nat i <= q < b + Z.of_nat (i + k);
  tk_were q : b + Z.of_nat i <= q < b + Z.of_nat (i + k) → free_in s q;
  tk_mem x : usr_mem s' x = if decide ((b + Z.of_nat i) * PAGE_SIZE <= x < (b + Z.of_nat (i + k)) * PAGE_SIZE) then 0 else usr_mem s x
}.

Lemma set_pages_id q : set_p_user_pages (p_user_pages q) q = q.
Proof. by destruct q. Qed.

Lemma taken_none i b s : mem_ok s → taken 0 i b s s.
Proof.
  intros H. split; try done.
  - apply trade_refl, H.
  - symmetry. apply set_pages_id.
  - intros j. case_decide; [lia|done].
  - intros q. split; [|tauto]. intros. split; [done|lia].
  - lia.
  - intros x. case_decide; [nia|done].
Qed.

Lemma taken_more k i b s s1 s2 : taken 1 i b s s1 → taken k (S i) b s1 s2 → taken (S k) i b s s2.
Proof.
  intros [A1 A2 A3 A4 A5 A6 A7] [B1 B2 B3 B4 B5 B6 B7]. split.
  - done.
  - by eapply trade_trans.
  - rewrite B3, A3. done.
  - intros j. rewrite B4, A4. repeat case_decide; try done; lia.
  - intros q. rewrite B5, A5. split; [intros [[? ?] ?]|intros [? ?]]; split_and?; try done; lia.
  - intros q Hq. destruct (decide (q = b + Z.of_nat i)) as [->|]; [apply A6; lia|]. apply (A5 q), B6. lia.
  - intros x. rewrite B7, A7. unfold PAGE_SIZE. repeat case_decide; try done; lia.
Qed.

(** One pass of the loop. *)
Lemma taken_one i b s m : mem_ok s → 0 < b → (i < USER_PAGES_MAX)%nat → usr_pages s !! i = Some PAGE_ID_INVALID → free_in s (b + Z.of_nat i) →
  mm_inv m lo hi → (∀ q, page_is_free (mm_pool m) q ↔ free_in s q ∧ q ≠ b + Z.of_nat i) →
  taken 1 i b s (Usr (set_p_user_pages (<[i := b + Z.of_nat i]> (usr_pages s)) (usr_proc s)) m (clear ((b + Z.of_nat i) * PAGE_SIZE) PAGE_SIZE (usr_mem s))).
Proof.
  intros [Hm Ho] Hb Hi Hslot Hfree Hm' Hq. pose proof (mm_geo _ _ _ Hm) as [? ? ? ?].
  pose proof (free_page_bounds lo hi _ _ (mm_pool_inv _ _ _ Hm) Hfree).
  assert (traded s (Usr (set_p_user_pages (<[i := b + Z.of_nat i]> (usr_pages s)) (usr_proc s)) m (clear ((b + Z.of_nat i) * PAGE_SIZE) PAGE_SIZE (usr_mem s)))) as Ht.
  { apply (take_slot lo hi (free_in s)); [exact Ho|exact Hslot|exact Hfree|lia|lia|exact Hq]. }
  split; [split; [exact Hm'|by eapply trade_owns]|exact Ht|done|..].
  - intros j. cbn [usr_pages usr_proc p_user_pages set_p_user_pages]. pose proof (ow_length _ _ _ _ Ho) as Hl.
    destruct (decide (j = i)) as [->|]; [rewrite list_lookup_insert_eq by lia|rewrite list_lookup_insert_ne by done]; case_decide; by (done || lia).
  - intros q. rewrite (Hq q). split; intros [? ?]; (split; [done|]); [lia|]. intros ->. lia.
  - intros q ?. replace q with (b + Z.of_nat i) by lia. done.
  - intros x. cbn [usr_mem]. unfold clear, mem_write. rewrite length_replicate, Z2Nat.id by (unfold PAGE_SIZE; lia).
    replace ((b + Z.of_nat (i + 1)) * PAGE_SIZE) with ((b + Z.of_nat i) * PAGE_SIZE + PAGE_SIZE) by lia.
    destruct (Z.leb_spec ((b + Z.of_nat i) * PAGE_SIZE) x), (Z.ltb_spec x ((b + Z.of_nat i) * PAGE_SIZE + PAGE_SIZE)); cbn [andb]; case_decide; try lia; try done.
    apply lookup_total_replicate_2. unfold PAGE_SIZE in *. lia.
Qed.

Lemma brk_grow_spec n i b old s : mem_ok s → 0 < b < hi → (i + n <= USER_PAGES_MAX)%nat →
  (∀ j, (i <= j < i + n)%nat → usr_pages s !! j = Some PAGE_ID_INVALID) →
  let '(ok, s') := brk_grow n (Z.of_nat i) (b * PAGE_SIZE) old s in
  if ok then taken n i b s s'
  else ∃ k s1, (k < n)%nat ∧ taken k i b s s1 ∧ ¬ free_in s (b + Z.of_nat (i + k)) ∧ s' = release_range old (Z.of_nat (i + k)) s1.
Proof.
  revert i s. induction n as [|n IH]; intros i s Hs Hb Hi Hslots; [by apply taken_none|]. cbn [brk_grow].
  assert (uptr (b * PAGE_SIZE + u32 (Z.of_nat i * PAGE_SIZE)) = (b + Z.of_nat i) * PAGE_SIZE) as ->.
  { rewrite (uN_small 32) by (unfold USER_PAGES_MAX, PAGE_SIZE in *; lia). rewrite <-Z.mul_add_distr_r. apply uN_small. unfold PAGE_SIZE in *. lia. }
  pose proof (alloc_one (usr_mm s) (b + Z.of_nat i) (Region 0 0) (mo_inv _ Hs) ltac:(lia) ltac:(lia)) as Ha.
  destruct (region_alloc_at _ _ _ _ _ _) as [[rc r] m]. destruct Ha as [Hm Ha]. destruct (Z.ltb_spec rc 0).
  - destruct Ha as [Hn ->]. exists 0%nat, s. split; [lia|]. split; [by apply taken_none|]. rewrite Nat.add_0_r. split; [done|]. by destruct s.
  - destruct Ha as (Hf & -> & Hq). cbn [default id]. unfold proc_track_page. cbn [r_base r_base_page usr_proc usr_mem].
    pose proof (mm_geo _ _ _ (mo_inv _ Hs)) as [? ? ? ?].
    pose proof (free_page_bounds lo hi _ _ (mm_pool_inv _ _ _ (mo_inv _ Hs)) Hf).
    destruct (Z.eqb_spec (b + Z.of_nat i) PAGE_ID_INVALID); [lia|]. destruct (Z.leb_spec (Z.of_nat USER_PAGES_MAX) (Z.of_nat i)); [lia|]. cbn [snd default id].
    rewrite Nat2Z.id. pose proof (taken_one i b s m Hs ltac:(lia) ltac:(lia) (Hslots i ltac:(lia)) Hf Hm Hq) as Ht1. fold (usr_pages s).
    set (s1 := Usr _ _ _) in *. replace (Z.of_nat i + 1) with (Z.of_nat (S i)) by lia.
    assert (∀ j, (S i <= j < S i + n)%nat → usr_pages s1 !! j = Some PAGE_ID_INVALID) as Hs1.
    { intros j Hj. rewrite (tk_pages _ _ _ _ _ Ht1). case_decide; [lia|]. apply Hslots. lia. }
    specialize (IH (S i) s1 (tk_ok _ _ _ _ _ Ht1) Hb ltac:(lia) Hs1). destruct (brk_grow n _ _ _ s1) as [[] s'].
    + by apply (taken_more _ _ _ _ s1).
    + destruct IH as (k & s2 & Hk & Ht & Hnf & ->). exists (S k), s2. split; [lia|]. split; [by apply (taken_more _ _ _ _ s1)|].
      replace (i + S k)%nat with (S i + k)%nat by lia. split; [|done]. intros Hf2. apply Hnf. apply (tk_free _ _ _ _ _ Ht1). split; [done|lia].
Qed.

(** The slots from [i] to [j] empty, their pages free. *)
Record dropped (i j : nat) s s' : Prop := {
  dr_ok : mem_ok s';
  dr_trade : traded s s';
  dr_proc : usr_proc s' = set_p_user_pages (usr_pages s') (usr_proc s);
  dr_pages k : usr_pages s' !! k = if decide (i <= k < j)%nat then (λ _, PAGE_ID_INVALID) <$> usr_pages s !! k else usr_pages s !! k;
  dr_free q : free_in s' q ↔ free_in s q ∨ tracked (take (j - i) (drop i (usr_pages s))) q;
  dr_mem : usr_mem s' = usr_mem s
}.

Lemma elem_of_part (l : list Z) i j q : q ∈ take (j - i) (drop i l) ↔ ∃ k, (i <= k < j)%nat ∧ l !! k = Some q.
Proof.
  rewrite list_elem_of_lookup. split.
  - intros [k Hk]. apply lookup_take_Some in Hk as [Hk ?]. rewrite lookup_drop in Hk. exists (i + k)%nat. split; [lia|done].
  - intros (k & ? & Hk). exists (k - i)%nat. apply lookup_take_Some. rewrite lookup_drop. split; [|lia]. by replace (i + (k - i))%nat with k by lia.
Qed.

Lemma pages_valid s : mem_ok s → Forall valid_id (usr_pages s).
Proof.
  intros [Hm Ho]. pose proof (mm_geo _ _ _ Hm) as [? ? ? ?]. pose proof page_id_bits_range. apply Forall_lookup. intros i p Hi.
  unfold valid_id, PAGE_ID_INVALID in *. destruct (decide (p = 2 ^ page_id_bits - 1)) as [->|]; [lia|].
  destruct (ow_used _ _ _ _ Ho i p Hi) as [? _]; [done|lia].
Qed.

(** Pages are dropped together. *)
Lemma dropped_by i j s s' : mem_ok s → mm_inv (usr_mm s') lo hi → usr_proc s' = set_p_user_pages (usr_pages s') (usr_proc s) → usr_mem s' = usr_mem s →
  (∀ k, usr_pages s' !! k = if decide (i <= k < j)%nat then (λ _, PAGE_ID_INVALID) <$> usr_pages s !! k else usr_pages s !! k) →
  (∀ q, free_in s' q ↔ free_in s q ∨ tracked (take (j - i) (drop i (usr_pages s))) q) → dropped i j s s'.
Proof.
  intros [Hm Ho] Hm' Hp Hmem Hl Hf. destruct Ho as [A B C].
  assert (∀ k p, usr_pages s' !! k = Some p → p ≠ PAGE_ID_INVALID → usr_pages s !! k = Some p ∧ ¬ (i <= k < j)%nat) as Hold.
  { intros k p Hk Hn. rewrite Hl in Hk. case_decide; [|done]. apply fmap_Some in Hk as (? & _ & ->). done. }
  assert (∀ p, tracked (usr_pages s') p ↔ tracked (usr_pages s) p ∧ ¬ tracked (take (j - i) (drop i (usr_pages s))) p) as Ht.
  { intros p. unfold tracked. rewrite elem_of_part. split.
    - intros [Hn [k Hk]%list_elem_of_lookup]. destruct (Hold k p Hk Hn) as [Hk' Hout]. split; [split; [done|by eapply list_elem_of_lookup_2]|].
      intros (_ & k' & Hin & Hk2). by rewrite (C k k' p) in Hout.
    - intros [[Hn [k Hk]%list_elem_of_lookup] Hout]. split; [done|]. apply list_elem_of_lookup. exists k. rewrite Hl.
      case_decide as Hd; [|done]. destruct Hout. split; [done|]. by exists k. }
  assert (owns lo hi (free_in s') (usr_pages s')) as Ho'.
  { split.
    - rewrite <-A. apply Nat.le_antisymm; apply Nat.nlt_ge; intros Hlt.
      + assert (is_Some (usr_pages s' !! length (usr_pages s))) as [x Hx] by by apply lookup_lt_is_Some_2.
        rewrite Hl in Hx. rewrite lookup_ge_None_2 in Hx by lia. by case_decide.
      + assert (is_Some (usr_pages s !! length (usr_pages s'))) as [x Hx] by by apply lookup_lt_is_Some_2.
        pose proof (Hl (length (usr_pages s'))) as E. rewrite Hx, lookup_ge_None_2 in E by lia. by case_decide.
    - intros k p Hk Hn. destruct (Hold k p Hk Hn) as [Hk' Hout]. destruct (B k p Hk' Hn) as [? Hnf]. split; [done|]. rewrite Hf.
      intros [?|Hp2]; [done|]. assert (tracked (usr_pages s') p) as Hp3 by (split; [done|by eapply list_elem_of_lookup_2]). apply Ht in Hp3. tauto.
    - intros k k' p Hk Hk' Hn. destruct (Hold k p Hk Hn) as [? _], (Hold k' p Hk' Hn) as [? _]. by apply (C k k' p). }
  assert (∀ p, tracked (take (j - i) (drop i (usr_pages s))) p ∨ ¬ tracked (take (j - i) (drop i (usr_pages s))) p) as Hdec.
  { intros p. unfold tracked. destruct (decide (p ≠ PAGE_ID_INVALID ∧ p ∈ take (j - i) (drop i (usr_pages s)))); tauto. }
  assert (∀ p, tracked (take (j - i) (drop i (usr_pages s))) p → tracked (usr_pages s) p) as Hsub.
  { intros p [Hn (k & _ & Hk)%elem_of_part]. split; [done|by eapply list_elem_of_lookup_2]. }
  assert (traded s s') as Htr.
  { split; [done|]. intros p. rewrite Hf, Ht. specialize (Hdec p). specialize (Hsub p). tauto. }
  by split.
Qed.

Lemma release_range_spec i j s : mem_ok s → dropped i j s (release_range (Z.of_nat i) (Z.of_nat j) s).
Proof.
  intros Hs. pose proof (pages_valid s Hs) as Hv. pose proof (ow_length _ _ _ _ (mo_owns _ Hs)) as Hl.
  unfold release_range, proc_release_tracked_pages. rewrite !Nat2Z.id. fold (usr_pages s). destruct (Nat.leb_spec USER_PAGES_MAX i) as [Hbig|Hsmall].
  - apply dropped_by; try done; cbn [default id usr_proc usr_mm usr_mem usr_pages]; [apply Hs|symmetry; apply set_pages_id|..].
    + intros k. case_decide; [|done]. unfold usr_pages. cbn [usr_proc]. fold (usr_pages s). by rewrite lookup_ge_None_2 by lia.
    + intros q. unfold tracked. rewrite elem_of_part. split; [by left|]. intros [?|(_ & k & ? & Hk)]; [done|]. apply lookup_lt_Some in Hk. lia.
  - set (e := if (USER_PAGES_MAX <? j)%nat then USER_PAGES_MAX else j). match goal with |- context [release_pages false ?f _ _ _] => set (keep := f) end.
    assert (∀ k id, usr_pages s !! k = Some id → released keep k id ↔ id ≠ PAGE_ID_INVALID ∧ (i <= k < j)%nat) as Hrel.
    { intros k id Hk%lookup_lt_Some. unfold released, keep. rewrite negb_false_iff, andb_true_iff, Nat.leb_le, Nat.ltb_lt.
      assert ((k < e)%nat ↔ (k < j)%nat) as ->; [|tauto]. unfold e. destruct (Nat.ltb_spec USER_PAGES_MAX j); lia. }
    pose proof (release_pages_spec keep 0 (usr_pages s) (usr_mm s) lo hi (mo_inv _ Hs) Hv) as Hr.
    destruct (release_pages false keep 0 (usr_pages s) (usr_mm s)) as [pages m]. destruct Hr as (Hm & Hp & Hf). cbn [default id].
    apply dropped_by; try done.
    + intros k. change (usr_pages _) with pages at 1. rewrite Hp. destruct (usr_pages s !! k) as [id|] eqn:Ek; cbn; [|by case_decide].
      pose proof (Hrel k id Ek) as Hk. destruct (decide (released keep k id)) as [Hd|Hd]; rewrite Hk in Hd; [by rewrite decide_True by tauto|].
      case_decide; [|done]. destruct (decide (id = PAGE_ID_INVALID)); [by f_equal|tauto].
    + intros q. etrans; [exact (Hf q)|]. fold (free_in s q). unfold tracked. rewrite elem_of_part.
      split; (intros [?|H]; [by left|right]).
      * destruct H as (_ & k & Hk & [Hn Hin]%(Hrel k q Hk)). split; [done|]. by exists k.
      * destruct H as (Hn & k & Hin & Hk). split; [by apply (ow_used _ _ _ _ (mo_owns _ Hs) k)|]. exists k. split; [done|]. by apply Hrel.
Qed.

(** ** The break *)

Definition heap_size (b v : Z) : nat := Z.to_nat ((v - b * PAGE_SIZE + PAGE_SIZE - 1) / PAGE_SIZE).
Definition old_brk s : Z := p_brk_current (usr_proc s).

(** The image from page [b] on and the heap behind it, as the loader and earlier
    calls leave them: page by page in the lowest slots. *)
Record heap (b : Z) s : Prop := {
  he_page : 0 < b < hi;
  he_base : b * PAGE_SIZE < p_brk_base (usr_proc s) <= old_brk s;
  he_top : old_brk s <= (b + Z.of_nat USER_PAGES_MAX) * PAGE_SIZE;
  he_slots j : (j < heap_size b (old_brk s))%nat → usr_pages s !! j = Some (b + Z.of_nat j)
}.

(** The break can go to [v]: its pages are free. *)
Definition can_move (b v : Z) s : Prop :=
  p_brk_base (usr_proc s) <= v ∧ (heap_size b v <= USER_PAGES_MAX)%nat ∧
  ∀ j, (heap_size b (old_brk s) <= j < heap_size b v)%nat → free_in s (b + Z.of_nat j).

(** The pages between the old and the new break come and go; those that come are
    cleared. *)
Record moved (b v : Z) s s' : Prop := {
  mv_brk : old_brk s' = v;
  mv_slots j : usr_pages s' !! j = if decide (j < heap_size b v)%nat then Some (b + Z.of_nat j)
    else if decide (j < heap_size b (old_brk s))%nat then Some PAGE_ID_INVALID else usr_pages s !! j;
  mv_free q : free_in s' q ↔ (free_in s q ∨ b + Z.of_nat (heap_size b v) <= q < b + Z.of_nat (heap_size b (old_brk s))) ∧
    ¬ b + Z.of_nat (heap_size b (old_brk s)) <= q < b + Z.of_nat (heap_size b v);
  mv_mem x : usr_mem s' x = if decide ((b + Z.of_nat (heap_size b (old_brk s))) * PAGE_SIZE <= x < (b + Z.of_nat (heap_size b v)) * PAGE_SIZE)
    then 0 else usr_mem s x
}.
(** Nothing has happened but in pages that were free and are free again. *)
Record unmoved s s' : Prop := {
  um_proc : usr_proc s' = usr_proc s;
  um_free q : free_in s' q ↔ free_in s q;
  um_mem x : usr_mem s' x ≠ usr_mem s x → free_in s (x / PAGE_SIZE)
}.

Lemma heap_ext b s s' : heap b s → p_brk_base (usr_proc s') = p_brk_base (usr_proc s) → old_brk s' = old_brk s →
  (∀ j, (j < heap_size b (old_brk s))%nat → usr_pages s' !! j = usr_pages s !! j) → heap b s'.
Proof.
  intros [A B C D] E1 E2 Hs. split; rewrite ?E1, ?E2; try done. intros j Hj. rewrite Hs by done. by apply D.
Qed.

Lemma unmoved_refl s : unmoved s s.
Proof. split; naive_solver. Qed.

Lemma pages_to_heap b v : 0 < b → b * PAGE_SIZE <= v < 2 ^ uintptr_bits → pages_to v (b * PAGE_SIZE) = Z.of_nat (heap_size b v).
Proof.
  intros Hb Hv. unfold pages_to, heap_size, uptr. rewrite (uN_small _ (v - _ + _ - 1)) by (unfold PAGE_SIZE in *; lia). rewrite Z2Nat.id; [done|].
  apply Z.div_pos; unfold PAGE_SIZE in *; lia.
Qed.

Lemma heap_size_mono b v w : v <= w → (heap_size b v <= heap_size b w)%nat.
Proof. intros. unfold heap_size. pose proof (Z.div_le_mono (v - b * PAGE_SIZE + PAGE_SIZE - 1) (w - b * PAGE_SIZE + PAGE_SIZE - 1) PAGE_SIZE). unfold PAGE_SIZE in *. lia. Qed.
Lemma heap_size_pos b v : b * PAGE_SIZE < v → (0 < heap_size b v)%nat.
Proof.
  intros Hv. unfold heap_size. assert (1 <= (v - b * PAGE_SIZE + PAGE_SIZE - 1) / PAGE_SIZE); [|lia].
  apply Z.div_le_lower_bound; unfold PAGE_SIZE in *; lia.
Qed.

Lemma heap_size_top b v : (heap_size b v <= USER_PAGES_MAX)%nat → v <= (b + Z.of_nat USER_PAGES_MAX) * PAGE_SIZE.
Proof.
  unfold heap_size. intros Hv. pose proof (Z.div_mod (v - b * PAGE_SIZE + PAGE_SIZE - 1) PAGE_SIZE). pose proof (Z.mod_pos_bound (v - b * PAGE_SIZE + PAGE_SIZE - 1) PAGE_SIZE).
  unfold PAGE_SIZE, USER_PAGES_MAX in *. lia.
Qed.

Lemma heap_base b s : mem_ok s → heap b s → proc_page_backed_base (Some (usr_proc s)) = b.
Proof.
  intros [Hm _] [Hb Hbase _ Hs]. pose proof (mm_geo _ _ _ Hm) as [? ? ? ?]. pose proof (Hs 0%nat (heap_size_pos b (old_brk s) ltac:(lia))) as H0. rewrite Z.add_0_r in H0. unfold proc_page_backed_base, page_at_slot, proc_first_page_backed_slot.
  fold (usr_pages s). assert (usr_pages s !!! 0%nat = b) as E by by apply list_lookup_total_correct.
  assert (first_backed (usr_pages s) USER_PAGES_MAX 0 = 0%nat) as ->; [|exact E].
  change (first_backed (usr_pages s) (S 63) 0 = 0%nat). cbn [first_backed]. rewrite E. destruct (Z.eqb_spec b PAGE_ID_INVALID); [lia|done].
Qed.

(** Going back after a failure. *)
Lemma grow_undone n k b s s1 s' : mem_ok s → taken k n b s s1 → (∀ j, (n <= j < n + k)%nat → usr_pages s !! j = Some PAGE_ID_INVALID) →
  dropped n (n + k) s1 s' → unmoved s s'.
Proof.
  intros [Hm _] [A1 A2 A3 A4 A5 A6 A7] Hs [B1 B2 B3 B4 B5 B6].
  assert (usr_pages s' = usr_pages s) as Ep.
  { apply list_eq. intros j. rewrite B4, A4. repeat case_decide; try done; try lia. cbn. symmetry. by apply Hs. }
  split.
  - rewrite B3, A3, Ep. exact (set_pages_id (usr_proc s)).
  - intros q. rewrite B5, A5. unfold tracked. rewrite elem_of_part. split.
    + intros [[? _]|(_ & j & Hj & E)]; [done|]. rewrite A4 in E. rewrite decide_True in E by done. injection E as <-. apply A6. lia.
    + intros Hq. destruct (decide (b + Z.of_nat n <= q < b + Z.of_nat (n + k))); [right|by left].
      assert (q ∈ usr_pages s1 ∧ q ≠ PAGE_ID_INVALID) as [Hin Hn].
      { assert (usr_pages s1 !! Z.to_nat (q - b) = Some q) as E by (rewrite A4; rewrite decide_True by lia; f_equal; lia). split; [by eapply list_elem_of_lookup_2|].
        pose proof (free_page_bounds lo hi _ _ (mm_pool_inv _ _ _ Hm) (A6 q a)). pose proof (mm_geo _ _ _ Hm) as [? ? ? ?]. lia. }
      split; [done|]. exists (Z.to_nat (q - b)). split; [lia|]. rewrite A4. rewrite decide_True by lia. f_equal. lia.
  - intros x. rewrite B6, A7. case_decide as Hx; [|done]. intros _. apply A6. unfold PAGE_SIZE in *. split.
    + apply Z.div_le_lower_bound; lia.
    + apply Z.div_lt_upper_bound; lia.
Qed.

(** What holds of both ends of the call. *)
Definition brk_done (b v : Z) s (r : Z) s' : Prop :=
  mem_ok s' ∧ heap b s' ∧ traded s s' ∧
  (can_move b v s ∧ r = to_long v ∧ moved b v s s' ∨ ¬ can_move b v s ∧ r = to_long (old_brk s) ∧ unmoved s s').

Lemma brk_fails b v s s' : mem_ok s → heap b s → mem_ok s' → traded s s' → unmoved s s' → ¬ can_move b v s → brk_done b v s (to_long (old_brk s)) s'.
Proof.
  intros Hs Hh Hs' Ht Hu Hc. split; [done|]. split; [|split; [done|by right]].
  pose proof (um_proc _ _ Hu) as E. apply (heap_ext b s); [done|by rewrite E|unfold old_brk; by rewrite E|]. intros j _. unfold usr_pages. by rewrite E.
Qed.

(** The pages between the new break and the old one are dropped at the end. *)
Lemma brk_moves b v n k s s1 s' : mem_ok s → heap b s → n = heap_size b (old_brk s) → k = (heap_size b v - n)%nat → can_move b v s → v < 2 ^ uintptr_bits →
  v <= (b + Z.of_nat USER_PAGES_MAX) * PAGE_SIZE → (heap_size b v <= USER_PAGES_MAX)%nat →
  taken k n b s s1 → dropped (heap_size b v) n s1 s' → brk_done b v s (to_long v) (set_brk v s').
Proof.
  intros Hs [Hb Hbase Htop Hslots] -> -> Hcan Hv Hvtop Hmax [A1 A2 A3 A4 A5 A6 A7] [B1 B2 B3 B4 B5 B6].
  set (n := heap_size b (old_brk s)) in *. set (n' := heap_size b v) in *. destruct Hcan as (Hv1 & Hcan).
  assert (∀ j, usr_pages s' !! j = if decide (j < n')%nat then Some (b + Z.of_nat j) else if decide (j < n)%nat then Some PAGE_ID_INVALID else usr_pages s !! j) as Hp.
  { intros j. rewrite B4, A4. repeat case_decide; try lia; try done; by (rewrite Hslots by lia). }
  assert (heap b (set_brk v s')) as Hh.
  { assert (p_brk_base (usr_proc (set_brk v s')) = p_brk_base (usr_proc s)) as Eb by (cbn; by rewrite B3, A3).
    split; [done|rewrite Eb; unfold old_brk; cbn; lia|exact Hvtop|].
    intros j Hj. change (usr_pages s' !! j = Some (b + Z.of_nat j)). rewrite Hp. by rewrite decide_True. }
  split; [|split; [done|split; [by eapply trade_trans|left]]].
  - destruct B1. by split.
  - split; [done|]. split; [done|]. split; [done|exact Hp|..].
    + intros q. change (free_in s' q ↔ (free_in s q ∨ b + Z.of_nat n' <= q < b + Z.of_nat n) ∧ ¬ b + Z.of_nat n <= q < b + Z.of_nat n'). 
      rewrite B5, A5. assert (tracked (take (n - n') (drop n' (usr_pages s1))) q ↔ b + Z.of_nat n' <= q < b + Z.of_nat n) as ->; [|replace (n + (n' - n))%nat with (Nat.max n n') by lia;
        split; [intros [[? ?]|?]; (split; [tauto || (right; lia)|lia])|intros [[?|?] ?]; [left; split; [done|lia]|right; lia]]].
      unfold tracked. rewrite elem_of_part. split.
      * intros (_ & j & Hj & E). rewrite A4, decide_False, Hslots in E by lia. injection E as <-. lia.
      * intros Hq. pose proof (lookup_lt_Some _ _ _ (Hslots (Z.to_nat (q - b)) ltac:(lia))). rewrite (ow_length _ _ _ _ (mo_owns _ Hs)) in *. split; [lia|]. exists (Z.to_nat (q - b)). split; [lia|]. rewrite A4, decide_False, Hslots by lia. f_equal. lia.
    + intros x. cbn. rewrite B6, A7. replace (n + (n' - n))%nat with (Nat.max n n') by lia. repeat case_decide; try done; unfold PAGE_SIZE in *; lia.
Qed.

Lemma brk_outcome b addr s : mem_ok s → heap b s → 0 <= addr < 2 ^ uintptr_bits → addr ≠ 0 →
  (∀ j, (heap_size b (old_brk s) <= j < Nat.min (heap_size b addr) USER_PAGES_MAX)%nat → usr_pages s !! j = Some PAGE_ID_INVALID) →
  brk_done b addr s (sys_brk addr s).1 (sys_brk addr s).2.
Proof.
  intros Hs Hh Ha Hne Hslots. pose proof Hh as [Hb Hbase Htop Hheap]. assert (uptr addr = addr) as Eu by by apply uN_small.
  assert (¬ can_move b addr s → brk_done b addr s (to_long (old_brk s)) s) as Hsame by (intros; by apply brk_fails; [..|apply trade_refl, Hs|apply unmoved_refl|]).
  assert (let '(r, s') := sys_brk addr s in brk_done b addr s r s') as H; [|by destruct (sys_brk addr s)]. unfold sys_brk. rewrite Eu. fold (old_brk s).
  destruct (Z.eqb_spec addr 0) as [|_]; [done|]. destruct (Z.ltb_spec addr (p_brk_base (usr_proc s))) as [|Hlow]; [apply Hsame; intros [? _]; lia|].
  rewrite (heap_base b s Hs Hh). destruct (Z.eqb_spec b PAGE_ID_INVALID) as [|_]; [lia|]. rewrite page_linear_small by lia.
  rewrite !pages_to_heap by (unfold PAGE_SIZE in *; lia). set (n := heap_size b (old_brk s)) in *. set (n' := heap_size b addr) in *.
  destruct (Z.ltb_spec (Z.of_nat USER_PAGES_MAX) (Z.of_nat n')) as [|Hmax]; [apply Hsame; intros (_ & ? & _); lia|].
  assert (n <= USER_PAGES_MAX)%nat as Hn.
  { destruct (Nat.le_gt_cases n USER_PAGES_MAX) as [|Hgt]; [done|]. pose proof (Hheap (n - 1)%nat ltac:(lia)) as E%lookup_lt_Some.
    rewrite (ow_length _ _ _ _ (mo_owns _ Hs)) in E. lia. }
  replace (Z.to_nat (Z.of_nat n' - Z.of_nat n)) with (n' - n)%nat by lia.
  assert (∀ j, (n <= j < n + (n' - n))%nat → usr_pages s !! j = Some PAGE_ID_INVALID) as Hnew by (intros; apply Hslots; lia).
  pose proof (brk_grow_spec (n' - n) n b (Z.of_nat n) s Hs Hb ltac:(lia) Hnew) as Hg. destruct (brk_grow _ _ _ _ s) as [[] s1]; cbn [negb].
  - assert (can_move b addr s) as Hc by (split; [done|split; [lia|]]; intros j Hj; apply (tk_were _ _ _ _ _ Hg); lia).
    apply (brk_moves b addr n (n' - n) s s1); [done..|lia|apply heap_size_top; fold n'; lia|fold n'; lia|done|by apply release_range_spec, Hg].
  - destruct Hg as (k & s2 & Hk & Ht & Hnf & ->). pose proof (release_range_spec n (n + k) s2 (tk_ok _ _ _ _ _ Ht)) as Hd.
    pose proof (grow_undone n k b s s2 _ Hs Ht ltac:(intros; apply Hnew; lia) Hd) as Hu. set (s' := release_range _ _ _) in *.
    assert (p_brk_current (usr_proc s') = old_brk s) as -> by (by rewrite (um_proc _ _ Hu)).
    apply brk_fails; [done|done|apply Hd|eapply trade_trans; [apply Ht|apply Hd]|done|].
    intros (_ & _ & Hf). apply Hnf, Hf. fold n n'. lia.
Qed.

(** ** Mappings *)

Lemma nth_page_inj id i j : 0 <= i < Z.of_nat USER_PAGES_MAX → 0 <= j < Z.of_nat USER_PAGES_MAX → nth_page id i = nth_page id j → i = j.
Proof.
  intros Hi Hj E. pose proof page_id_bits_range as Hb. assert (2 ^ 8 <= 2 ^ page_id_bits) by (apply Z.pow_le_mono_r; lia). unfold USER_PAGES_MAX in *.
  unfold nth_page, to_page_id in E. rewrite !(uN_small _ i), !(uN_small _ j) in E by lia. unfold uN in E.
  assert ((i - j) mod 2 ^ page_id_bits = 0) as E0.
  { replace (i - j) with ((id + i) - (id + j)) by lia. rewrite Zminus_mod, E, Z.sub_diag. apply Z.mod_0_l. lia. }
  apply Z.mod_divide in E0 as [k Ek]; [|lia]. assert (k = 0) by nia. lia.
Qed.

(** The pages of the run [id] go to the slots from [start + i] on. *)
Lemma track_loop_trade k i start id (F F' : Z → Prop) pages : owns lo hi F pages → (i + k <= USER_PAGES_MAX)%nat →
  (∀ j, (i <= j < i + k)%nat → pages !! (start + j)%nat = Some PAGE_ID_INVALID ∧ F (nth_page id (Z.of_nat j)) ∧ lo <= nth_page id (Z.of_nat j) < hi) →
  hi <= PAGE_ID_INVALID → (∀ q, F' q ↔ F q ∧ ¬ ∃ j, (i <= j < i + k)%nat ∧ q = nth_page id (Z.of_nat j)) →
  trade lo hi F pages F' (track_loop k i start id pages) ∧
  ∀ j, track_loop k i start id pages !! j = if decide (start + i <= j < start + i + k)%nat then Some (nth_page id (Z.of_nat (j - start))) else pages !! j.
Proof.
  revert i F pages. induction k as [|k IH]; intros i F pages Ho Hk Hs Hhi HF; cbn [track_loop].
  - split; [|intros j; case_decide; [lia|done]]. apply (trade_ext lo hi F pages F); [|by apply trade_refl].
    intros q. rewrite HF. split; [intros Hq; split; [done|]; intros (j & ? & _); lia|tauto].
  - destruct (Hs i ltac:(lia)) as (Hslot & Hfree & Hr). fold (nth_page id (Z.of_nat i)). set (p := nth_page id (Z.of_nat i)) in *.
    pose proof (take_slot lo hi F (λ q, F q ∧ q ≠ p) pages (start + i) p Ho Hslot Hfree Hr ltac:(lia) ltac:(done)) as Ht.
    destruct (IH (S i) (λ q, F q ∧ q ≠ p) (<[(start + i)%nat := p]> pages) (trade_owns _ _ _ _ _ _ Ht) ltac:(lia)) as [Ht2 Hl].
    + intros j Hj. destruct (Hs j ltac:(lia)) as (A & B & C). rewrite list_lookup_insert_ne by lia. split; [done|]. split; [split; [done|]|done].
      intros E. apply nth_page_inj in E; lia.
    + done.
    + intros q. rewrite HF. split.
      * intros [Hq Hn]. split; [split; [done|]|]; [intros ->; apply Hn; exists i; split; [lia|done]|]. intros (j & ? & ->). apply Hn. exists j. split; [lia|done].
      * intros [[Hq Hp] Hn]. split; [done|]. intros (j & ? & ->). destruct (decide (j = i)) as [->|]; [done|]. apply Hn. exists j. split; [lia|done].
    + split; [by eapply trade_trans|]. intros j. rewrite Hl. apply lookup_lt_Some in Hslot. destruct (decide (j = start + i)%nat) as [->|].
      * rewrite decide_False by lia. rewrite list_lookup_insert_eq by done. rewrite decide_True by lia. by replace (start + i - start)%nat with i by lia.
      * rewrite list_lookup_insert_ne by done. repeat case_decide; try done; lia.
Qed.

Lemma find_slots_spec pages i n run slot : 0 < n → 0 <= run < n → (∀ j, (i <= j)%nat → Z.of_nat j < Z.of_nat i + run → pages !!! j = PAGE_ID_INVALID) →
  find_slots pages i n run = slot → 0 <= slot →
  slot + n <= Z.of_nat i + run ∧ ∀ j, slot <= Z.of_nat j < slot + n → pages !!! j = PAGE_ID_INVALID.
Proof.
  revert run. induction i as [|i IH]; intros run Hn Hrun Hfree E Hs; cbn [find_slots] in E; [lia|].
  destruct (Z.eqb_spec (pages !!! i) PAGE_ID_INVALID) as [Ei|].
  - assert (∀ j, (i <= j)%nat → Z.of_nat j < Z.of_nat i + (run + 1) → pages !!! j = PAGE_ID_INVALID) as Hfree1.
    { intros j Hj Hlt. destruct (decide (j = i)) as [->|]; [done|apply Hfree; lia]. }
    destruct (Z.leb_spec n (run + 1)).
    + subst slot. split; [lia|]. intros j Hj. apply Hfree1; lia.
    + destruct (IH (run + 1) Hn ltac:(lia) Hfree1 E Hs) as [A B]. split; [lia|done].
  - destruct (IH 0 Hn ltac:(lia) ltac:(lia) E Hs) as [A B]. split; [lia|done].
Qed.

(** A call that keeps what is tracked and does not touch the break. *)
Record extends s s' : Prop := {
  ex_ok : mem_ok s';
  ex_trade : traded s s';
  ex_base : p_brk_base (usr_proc s') = p_brk_base (usr_proc s);
  ex_brk : old_brk s' = old_brk s;
  ex_slots j p : usr_pages s !! j = Some p → p ≠ PAGE_ID_INVALID → usr_pages s' !! j = Some p
}.

Lemma extends_refl s : mem_ok s → extends s s.
Proof. intros H. split; try done. apply trade_refl, H. Qed.

Lemma heap_small b s j : mem_ok s → heap b s → (j < heap_size b (old_brk s))%nat → b + Z.of_nat j ≠ PAGE_ID_INVALID.
Proof.
  intros Hs [Hb _ _ Hh] Hj. pose proof (lookup_lt_Some _ _ _ (Hh j Hj)) as Hl. rewrite (ow_length _ _ _ _ (mo_owns _ Hs)) in Hl. lia.
Qed.

Lemma extends_heap b s s' : mem_ok s → heap b s → extends s s' → heap b s'.
Proof.
  intros Hs Hh [_ _ E1 E2 Hk]. apply (heap_ext b s); try done. intros j Hj. rewrite (he_slots _ _ Hh j Hj).
  apply Hk; [by apply Hh|by apply (heap_small b s)].
Qed.

(** Another state of the allocator with the same free pages. *)
Lemma extends_same s m : mem_ok s → mm_inv m lo hi → (∀ q, page_is_free (mm_pool m) q ↔ free_in s q) → extends s (Usr (usr_proc s) m (usr_mem s)).
Proof.
  intros [Hm Ho] Hm' E. assert (∀ q, free_in s q ↔ free_in (Usr (usr_proc s) m (usr_mem s)) q) as Hq by (intros q; symmetry; apply E).
  split; try done; [split; [done|by apply (owns_ext lo hi (free_in s))]|]. apply (trade_ext lo hi _ _ (free_in s)); [done|]. by apply trade_refl.
Qed.

Lemma track_extends s m (slot n : nat) size r : mem_ok s → mm_inv m lo hi → (n <= USER_PAGES_MAX)%nat →
  (∀ j, (slot <= j < slot + n)%nat → usr_pages s !! j = Some PAGE_ID_INVALID) →
  (∀ j, 0 <= j < Z.of_nat n → free_in s (nth_page (r_base_page r) j)) →
  (∀ q, page_is_free (mm_pool m) q ↔ free_in s q ∧ ¬ ∃ j, 0 <= j < Z.of_nat n ∧ q = nth_page (r_base_page r) j) →
  extends s (mmap_track (Z.of_nat slot) (Z.of_nat n) size r m s).
Proof.
  intros [Hm Ho] Hm' Hn Hslots Hfree HF. set (s' := mmap_track _ _ _ _ _ _). pose proof (mm_geo _ _ _ Hm) as [? ? ? Hhi].
  destruct (track_loop_trade n 0 slot (r_base_page r) (free_in s) (free_in s') (usr_pages s) Ho) as [Ht Hl]; [lia| |done|..].
  - intros j Hj. split; [apply Hslots; lia|]. pose proof (Hfree (Z.of_nat j) ltac:(lia)) as Hf. split; [done|].
    by apply (free_page_bounds lo hi _ _ (mm_pool_inv _ _ _ Hm)).
  - intros q. etrans; [apply HF|]. split; (intros [Hq Hno]; split; [done|]); intros (j & ? & ->); apply Hno.
    + exists (Z.of_nat j). split; [lia|done].
    + exists (Z.to_nat j). split; [lia|]. by rewrite Z2Nat.id by lia.
  - assert (usr_pages s' = track_loop n 0 slot (r_base_page r) (usr_pages s)) as Ep by (unfold s', mmap_track; cbn; by rewrite !Nat2Z.id).
    assert (traded s s') as Htr by (unfold traded; by rewrite Ep). split; try done; [split; [done|by eapply trade_owns]|].
    intros j p Hj Hp. rewrite Ep, Hl. case_decide as Hd; [|done]. rewrite Hslots in Hj by lia. congruence.
Qed.

Lemma mem_pages_pos len : 0 < len <= 2 ^ uintptr_bits - PAGE_SIZE → 0 < mem_pages len.
Proof.
  intros Hl. unfold mem_pages, uptr, PAGE_SIZE in *. rewrite uN_small by lia. assert (1 <= (len + 4096 - 1) / 4096); [|lia].
  apply Z.div_le_lower_bound; lia.
Qed.
Lemma region_pages n : 0 < n <= Z.of_nat USER_PAGES_MAX → u32 (n * PAGE_SIZE) = n * PAGE_SIZE ∧ region_page_count (n * PAGE_SIZE) = n.
Proof.
  unfold USER_PAGES_MAX, PAGE_SIZE. intros Hn. split; [apply uN_small; lia|]. unfold region_page_count, PAGE_SIZE. rewrite uN_small by lia.
  symmetry. apply (Z.div_unique_pos _ _ _ 4095); lia.
Qed.

(** The two ways to the pages of a mapping. *)
Lemma alloc_run m n r : mm_inv m lo hi → 0 < n <= Z.of_nat USER_PAGES_MAX →
  let '(rc, r', m') := region_alloc m PPAP_MEM_RAM_DATA (n * PAGE_SIZE) 0 (Some r) in
  mm_inv m' lo hi ∧
  if rc <? 0 then ∀ q, page_is_free (mm_pool m') q ↔ page_is_free (mm_pool m) q
  else ∃ x, r' = Some x ∧ (∀ j, 0 <= j < n → page_is_free (mm_pool m) (nth_page (r_base_page x) j)) ∧
    ∀ q, page_is_free (mm_pool m') q ↔ page_is_free (mm_pool m) q ∧ ¬ ∃ j, 0 <= j < n ∧ q = nth_page (r_base_page x) j.
Proof.
  intros Hm Hn. unfold region_alloc. rewrite page_backed_alloc, set_arch_id. change (negb (- ENOSYS =? - ENOSYS)) with false. cbn iota.
  pose proof (region_backed_spec m lo hi (n * PAGE_SIZE) r Hm) as Hr. rewrite (proj2 (region_pages n Hn)) in Hr.
  destruct (region_alloc_page_backed _ _ _) as [[rc x] m']. destruct Hr as [Hm' Hr]; [unfold USER_PAGES_MAX, PAGE_SIZE in *; lia..|].
  split; [done|]. destruct Hr as [(-> & _ & Hp & _)|(-> & _ & Hl & Hh & Hrun & _ & Hf & _)]; [cbn; by rewrite Hp|]. cbn. exists x. split; [done|].
  pose proof (mm_geo _ _ _ Hm) as [? ? ? Hhi]. unfold PAGE_ID_INVALID in Hhi.
  assert (∀ j, 0 <= j < n → nth_page (r_base_page x) j = r_base_page x + j) as E.
  { intros j Hj. unfold nth_page, to_page_id. rewrite (uN_small _ j) by lia. apply uN_small. lia. }
  split; [intros j Hj; rewrite E by done; apply Hrun; lia|]. intros q. rewrite Hf. split; (intros [Hq Hno]; split; [done|]).
  - intros (j & ? & ->). rewrite E in Hno by done. lia.
  - intros ?. apply Hno. exists (q - r_base_page x). split; [lia|]. rewrite E by lia. lia.
Qed.

Lemma alloc_run_at m base n r : mm_inv m lo hi → base ≠ 0 → 0 < n <= Z.of_nat USER_PAGES_MAX →
  let '(rc, r', m') := region_alloc_at m PPAP_MEM_RAM_DATA base (n * PAGE_SIZE) 0 (Some r) in
  mm_inv m' lo hi ∧
  if rc <? 0 then ∀ q, page_is_free (mm_pool m') q ↔ page_is_free (mm_pool m) q
  else ∃ x, r' = Some x ∧ (∀ j, 0 <= j < n → page_is_free (mm_pool m) (nth_page (r_base_page x) j)) ∧
    ∀ q, page_is_free (mm_pool m') q ↔ page_is_free (mm_pool m) q ∧ ¬ ∃ j, 0 <= j < n ∧ q = nth_page (r_base_page x) j.
Proof.
  intros Hm Hb Hn. unfold region_alloc_at. destruct (Z.eqb_spec base 0); [done|]. destruct (Z.eqb_spec (n * PAGE_SIZE) 0); [unfold PAGE_SIZE in *; lia|].
  change (PPAP_MEM_RAM_DATA =? PPAP_MEM_RAM_DATA) with true. cbn [orb]. rewrite (proj2 (region_pages n Hn)). set (id := page_from_ptr base).
  pose proof (alloc_pages_at_spec m lo hi id (Z.to_nat n) 0 Hm) as Ha. destruct (alloc_pages_at m id (Z.to_nat n) 0) as [[i|] m1] eqn:E.
  - destruct (rollback_equiv m m1 lo hi id (Z.to_nat n) i Hm E) as (A & _ & B). split; [done|]. cbn. intros q. by rewrite B.
  - destruct Ha as (A & _ & _ & _ & B & C). cbn in B, C. split; [done|]. cbn. exists (Region base id). split; [done|]. cbn.
    replace (Z.of_nat (Z.to_nat n)) with n in * by lia. done.
Qed.

Lemma find_slots_free pages N n : length pages = N → 0 < n → 0 <= find_slots pages N n 0 →
  find_slots pages N n 0 + n <= Z.of_nat N ∧
  ∀ j, (Z.to_nat (find_slots pages N n 0) <= j < Z.to_nat (find_slots pages N n 0) + Z.to_nat n)%nat → pages !! j = Some PAGE_ID_INVALID.
Proof.
  intros Hl Hn Hs. assert (0 <= 0 < n) as H0 by lia.
  assert (∀ j, (N <= j)%nat → Z.of_nat j < Z.of_nat N + 0 → pages !!! j = PAGE_ID_INVALID) as H1 by lia.
  destruct (find_slots_spec pages N n 0 _ Hn H0 H1 eq_refl Hs) as [A B]. split; [lia|]. intros j Hj.
  assert (is_Some (pages !! j)) as [p Hp] by (apply lookup_lt_is_Some_2; lia). rewrite Hp. f_equal. rewrite <-(B j) by lia.
  symmetry. by apply list_lookup_total_correct.
Qed.

Lemma mmap_extends addr len flags fd s : mem_ok s → 0 <= len <= 2 ^ uintptr_bits - PAGE_SIZE → extends s (sys_mmap2 addr len flags fd s).2.
Proof.
  intros Hs Hlen. unfold sys_mmap2. destruct (negb (bset _ _)); [by apply extends_refl|]. destruct (negb (s32 fd =? -1)); [by apply extends_refl|].
  destruct (Z.eqb_spec len 0) as [|Hl0]; [by apply extends_refl|]. pose proof (mem_pages_pos len ltac:(lia)) as Hn. set (n := mem_pages len) in *.
  unfold mmap_find_slots. destruct (Z.ltb_spec (find_slots (p_user_pages (usr_proc s)) USER_PAGES_MAX n 0) 0) as [|Hslot]; [by apply extends_refl|].
  destruct (find_slots_free (p_user_pages (usr_proc s)) USER_PAGES_MAX n (ow_length _ _ _ _ (mo_owns _ Hs)) Hn Hslot) as [Hmax Hslots].
  set (slot := find_slots _ _ _ _) in *.
  assert (0 < n <= Z.of_nat USER_PAGES_MAX) as Hn64 by lia. rewrite (proj1 (region_pages n Hn64)).
  replace slot with (Z.of_nat (Z.to_nat slot)) by lia. replace n with (Z.of_nat (Z.to_nat n)) by lia.
  destruct (bset flags MAP_FIXED && negb (addr =? 0)) eqn:Efix.
  - apply andb_true_iff in Efix as [_ Ea]. pose proof (alloc_run_at (usr_mm s) addr (Z.of_nat (Z.to_nat n)) (Region 0 0) (mo_inv _ Hs)) as Ha.
    destruct (region_alloc_at _ _ _ _ _ _) as [[rc r] m]. destruct Ha as [Hm Ha]; [by intros ->|lia|]. destruct (rc <? 0); cbn [snd].
    + by apply extends_same.
    + destruct Ha as (x & -> & Hf & Hq). by apply track_extends; [..|lia| | |].
  - pose proof (alloc_run (usr_mm s) (Z.of_nat (Z.to_nat n)) (Region 0 0) (mo_inv _ Hs)) as Ha.
    destruct (region_alloc _ _ _ _ _) as [[rc r] m]. destruct Ha as [Hm Ha]; [lia|]. destruct (rc <? 0); cbn [snd].
    + by apply extends_same.
    + destruct Ha as (x & -> & Hf & Hq). by apply track_extends; [..|lia| | |].
Qed.

Lemma find_mapping_spec pages n i addr r : find_mapping pages n i addr = Some r →
  (i <= r < i + n)%nat ∧ pages !!! r ≠ PAGE_ID_INVALID ∧ page_linear (pages !!! r) = addr.
Proof.
  revert i. induction n as [|n IH]; intros i E; [done|]. cbn [find_mapping] in E. destruct (_ && _) eqn:Ef.
  - injection E as <-. apply andb_true_iff in Ef as [?%negb_true_iff%Z.eqb_neq ?%Z.eqb_eq]. split; [lia|done].
  - destruct (IH _ E). split; [lia|done].
Qed.

Lemma usr_eta s : Usr (set_p_user_pages (usr_pages s) (usr_proc s)) (usr_mm s) (usr_mem s) = s.
Proof. destruct s as [p m mem]. f_equal. exact (set_pages_id p). Qed.

(** The slots before [i] stay as they are. *)
Lemma unmap_slots_trade n i s pages m : mem_ok s → (i + n <= USER_PAGES_MAX)%nat → usr_pages s = pages → usr_mm s = m →
  let '(pages', m') := unmap_slots n i pages m in
  let s' := Usr (set_p_user_pages pages' (usr_proc s)) m' (usr_mem s) in
  mem_ok s' ∧ traded s s' ∧ ∀ j, (j < i)%nat → pages' !! j = pages !! j.
Proof.
  revert i s pages m. induction n as [|n IH]; intros i s pages m Hs Hin <- <-; cbn [unmap_slots].
  - cbn zeta. rewrite usr_eta. split_and!; [done|by apply trade_refl, Hs|done].
  - destruct (Z.eqb_spec (usr_pages s !!! i) PAGE_ID_INVALID) as [|Hn].
    { cbn zeta. rewrite usr_eta. split_and!; [done|by apply trade_refl, Hs|done]. }
    assert (usr_pages s !! i = Some (usr_pages s !!! i)) as Hi.
    { apply list_lookup_lookup_total_lt. rewrite (ow_length _ _ _ _ (mo_owns _ Hs)). lia. }
    set (p := usr_pages s !!! i) in *. pose proof Hs as [Hm Ho].
    destruct (page_free_spec (usr_mm s) lo hi p Hm) as (Hm1 & _ & Hf).
    { pose proof (pages_valid s Hs) as Hv. rewrite Forall_lookup in Hv. by eapply Hv. }
    destruct (ow_used _ _ _ _ Ho i p Hi Hn) as [Hp _].
    set (s1 := Usr (set_p_user_pages (<[i := PAGE_ID_INVALID]> (usr_pages s)) (usr_proc s)) (page_free (usr_mm s) p) (usr_mem s)).
    assert (traded s s1) as Ht.
    { apply (drop_slot lo hi (free_in s) _ _ i p Ho Hi Hn). intros q. unfold free_in, s1. cbn. rewrite Hf. tauto. }
    assert (mem_ok s1) as Hs1 by (split; [done|by eapply trade_owns]).
    specialize (IH (S i) s1 _ _ Hs1 ltac:(lia) eq_refl eq_refl). change (usr_pages s1) with (<[i := PAGE_ID_INVALID]> (usr_pages s)) in IH.
    change (usr_mm s1) with (page_free (usr_mm s) p) in IH. destruct (unmap_slots n (S i) _ _) as [pages' m']. cbn zeta in IH.
    destruct IH as (A & B & C). cbn zeta. split; [exact A|]. split; [exact (trade_trans _ _ _ _ _ _ _ _ Ht B)|].
    intros j Hj. rewrite C by lia. by rewrite list_lookup_insert_ne by lia.
Qed.

(** Unmapping what is not the heap. *)
Lemma munmap_ok b addr len i s : mem_ok s → heap b s → find_mapping (usr_pages s) USER_PAGES_MAX 0 (u32 addr) = Some i → (heap_size b (old_brk s) <= i)%nat →
  let s' := (sys_munmap addr len s).2 in mem_ok s' ∧ heap b s' ∧ traded s s'.
Proof.
  intros Hs Hh E Hi. unfold sys_munmap. destruct (_ || _); [split_and!; [done|done|by apply trade_refl, Hs]|]. rewrite E.
  pose proof (unmap_slots_trade (Nat.min (Z.to_nat (mem_pages len)) (USER_PAGES_MAX - i)) i s _ _ Hs ltac:(apply find_mapping_spec in E; lia) eq_refl eq_refl) as Hu.
  destruct (unmap_slots _ _ _ _) as [pages m]. destruct Hu as (A & B & C). cbn zeta in *. cbn [snd]. split; [done|]. split; [|done].
  apply (heap_ext b s); try done. intros j Hj. apply C. lia.
Qed.

(** ** Sequences of calls *)

Inductive mem_call := Brk (addr : Z) | Mmap (addr len flags fd : Z) | Munmap (addr len : Z).

Definition run_call (c : mem_call) s : Z * usr_t :=
  match c with
  | Brk addr => sys_brk addr s
  | Mmap addr len flags fd => sys_mmap2 addr len flags fd s
  | Munmap addr len => sys_munmap addr len s
  end.

(** What the code takes for granted.  The slots a growing heap needs are empty: no
    mapping has been put there. *)
Definition slots_ahead (b addr : Z) s : Prop :=
  ∀ j, (heap_size b (old_brk s) <= j < Nat.min (heap_size b addr) USER_PAGES_MAX)%nat → usr_pages s !! j = Some PAGE_ID_INVALID.
(** The address is that of a page which a slot behind the heap tracks. *)
Definition was_mapped (b addr : Z) s : Prop :=
  ∃ i, find_mapping (usr_pages s) USER_PAGES_MAX 0 (u32 addr) = Some i ∧ (heap_size b (old_brk s) <= i)%nat.
(** Rounding the length up to pages does not wrap. *)
Definition length_fits (len : Z) : Prop := 0 <= len <= 2 ^ uintptr_bits - PAGE_SIZE.

Definition sound (b : Z) (c : mem_call) s : Prop :=
  match c with
  | Brk addr => 0 <= addr < 2 ^ uintptr_bits ∧ slots_ahead b addr s
  | Mmap _ len _ _ => length_fits len
  | Munmap addr _ => was_mapped b addr s
  end.

Fixpoint run_calls (cs : list mem_call) s : usr_t :=
  match cs with
  | [] => s
  | c :: cs => run_calls cs (run_call c s).2
  end.
Fixpoint all_sound (b : Z) (cs : list mem_call) s : Prop :=
  match cs with
  | [] => True
  | c :: cs => sound b c s ∧ all_sound b cs (run_call c s).2
  end.

(** [sys_exit] gives back all that is tracked. *)
Definition exit_pages s : mm_t := usr_mm (release_range 0 (Z.of_nat USER_PAGES_MAX) s).

Lemma call_step b c s : mem_ok s → heap b s → sound b c s → let s' := (run_call c s).2 in mem_ok s' ∧ heap b s' ∧ traded s s'.
Proof.
  intros Hs Hh Hc. destruct c as [addr|addr len flags fd|addr len]; cbn [run_call sound] in *.
  - destruct Hc as [Ha Hslots]. destruct (decide (addr = 0)) as [->|Hne]; [split_and!; [done|done|by apply trade_refl, Hs]|].
    destruct (brk_outcome b addr s Hs Hh Ha Hne Hslots) as (A & B & C & _). done.
  - pose proof (mmap_extends addr len flags fd s Hs Hc) as He. split_and!; [apply He|by apply (extends_heap b s)|apply He].
  - destruct Hc as (i & E & Hi). by apply (munmap_ok b addr len i).
Qed.

Lemma exit_free s q : mem_ok s → page_is_free (mm_pool (exit_pages s)) q ↔ free_in s q ∨ tracked (usr_pages s) q.
Proof.
  intros Hs. pose proof (dr_free _ _ _ _ (release_range_spec 0 USER_PAGES_MAX s Hs) q) as Hf. rewrite drop_0, Nat.sub_0_r in Hf.
  rewrite take_ge in Hf by (rewrite (ow_length _ _ _ _ (mo_owns _ Hs)); done). exact Hf.
Qed.

(** C36. Where no mapping is in the slots up to the new break ([slots_ahead]: the code
    does not test them and would overwrite the page it finds there, which is then
    lost), a break moves exactly when the pages for it are free, and then by exactly
    these pages, which come cleared; otherwise nothing has changed.  No page is lost
    or taken from anyone else, and the heap stays one piece behind the image. *)
Theorem sys_brk_correct b addr s : mem_ok s → heap b s → 0 <= addr < 2 ^ uintptr_bits → addr ≠ 0 → slots_ahead b addr s →
  let '(r, s') := sys_brk addr s in
  mem_ok s' ∧ heap b s' ∧ traded s s' ∧
  (can_move b addr s ∧ r = to_long addr ∧ moved b addr s s' ∨ ¬ can_move b addr s ∧ r = to_long (old_brk s) ∧ unmoved s s').
Proof.
  intros Hs Hh Ha Hne Hslots. pose proof (brk_outcome b addr s Hs Hh Ha Hne Hslots) as H. destruct (sys_brk addr s) as [r s']. exact H.
Qed.

(** C35. For any sequence of breaks, mappings and unmappings by a process that keeps to
    three conditions the code does not check (it unmaps only addresses of pages it
    has mapped, [was_mapped]; its heap does not grow over the slots of mappings,
    [slots_ahead]; rounding a length up does not wrap, [length_fits]), its exit
    leaves the same free pages as if it had ended before: no page is lost, and none
    of another process or of the kernel is given away. *)
Theorem mem_calls_conserve b cs s : mem_ok s → heap b s → all_sound b cs s →
  let s' := run_calls cs s in
  mem_ok s' ∧ heap b s' ∧ pool_equiv (mm_pool (exit_pages s')) (mm_pool (exit_pages s)).
Proof.
  intros Hs Hh Hc. assert (let s' := run_calls cs s in mem_ok s' ∧ heap b s' ∧ traded s s') as (A & B & C).
  { revert s Hs Hh Hc. induction cs as [|c cs IH]; intros s Hs Hh Hc; [split_and!; [done|done|by apply trade_refl, Hs]|].
    destruct Hc as [Hc Hcs]. destruct (call_step b c s Hs Hh Hc) as (H1 & H2 & H3). destruct (IH _ H1 H2 Hcs) as (H4 & H5 & H6).
    cbn [run_calls]. split_and!; [done|done|by eapply trade_trans]. }
  split; [done|]. split; [done|]. pose proof (release_range_spec 0 USER_PAGES_MAX s Hs) as Hd. pose proof (release_range_spec 0 USER_PAGES_MAX _ A) as Hd'.
  apply (pool_equiv_intro lo hi); [apply (mm_pool_inv _ _ _ (mo_inv _ (dr_ok _ _ _ _ Hd')))|apply (mm_pool_inv _ _ _ (mo_inv _ (dr_ok _ _ _ _ Hd)))|].
  intros q. rewrite !exit_free by done. symmetry. apply C.
Qed.
End State.
