(* ===== verification/MemDemo.v ===== *)
(** * MemDemo: a process on the RP2040 that moves its break and maps pages

    An image of three pages in the pool of fifty, and what the calls of sys_mem.c
    do with it, also where a program asks for what it should not. *)

From S2P Require Import Prelude Config PagePool PagePoolFacts Page Region PageFacts.
From S2P Require Import ProcState Sched SchedFacts Kmutex KmutexFacts Proc UserCopy ModCore Mem MemFacts.

Definition image_page : Z := 131078.
Definition image_top : Z := image_page * PAGE_SIZE + 9000.
Definition demo_usr : usr_t :=
  Usr (set_p_brk_base image_top (set_p_brk_current image_top (set_p_user_pages
    ([image_page; image_page + 1; image_page + 2] ++ replicate 61 PAGE_ID_INVALID) pcb_zero))) (page_alloc_n rp2040_mm 3).2 (λ _, 65).

Lemma demo_usr_image : (page_alloc_n rp2040_mm 3).1 = image_page.
Proof. vm_compute. reflexivity. Qed.

(** ** Calls *)

Definition ANON : Z := MAP_ANONYMOUS.
Definition top_page : Z := 131127 * PAGE_SIZE.

(** Six pages more, a mapping of two pages and one of a single page, which comes
    from the top of the pool. *)
Definition brk_demo : usr_t := (sys_brk (image_top + 6 * PAGE_SIZE) demo_usr).2.
Definition two_demo : usr_t := (sys_mmap2 0 5000 ANON 0xFFFFFFFF brk_demo).2.
Definition map_demo : usr_t := (sys_mmap2 0 100 ANON 0xFFFFFFFF two_demo).2.

Lemma mem_demo_calls :
  (sys_brk (image_top + 6 * PAGE_SIZE) demo_usr).1 = image_top + 6 * PAGE_SIZE ∧ usr_pages brk_demo !! 8%nat = Some (image_page + 8) ∧
  usr_mem brk_demo ((image_page + 8) * PAGE_SIZE) = 0 ∧ usr_mem brk_demo ((image_page + 2) * PAGE_SIZE) = 65 ∧
  (sys_mmap2 0 5000 ANON 0xFFFFFFFF brk_demo).1 = (image_page + 9) * PAGE_SIZE ∧ (sys_mmap2 0 100 ANON 0xFFFFFFFF two_demo).1 = top_page ∧
  usr_pages map_demo !! 61%nat = Some 131127 ∧ usr_pages map_demo !! 62%nat = Some (image_page + 9) ∧ page_free_count (usr_mm map_demo) = 38 ∧
  (* The pages behind the heap are taken: the break stays. *)
  (sys_brk (image_top + 7 * PAGE_SIZE) map_demo).1 = image_top + 6 * PAGE_SIZE ∧
  (sys_munmap top_page 100 map_demo).1 = 0 ∧ page_free_count (usr_mm (sys_munmap top_page 100 map_demo).2) = 39 ∧
  (sys_brk image_top map_demo).1 = image_top ∧ page_free_count (usr_mm (sys_brk image_top map_demo).2) = 44.
Proof. vm_compute. repeat split. Qed.

(** ** What the calls do when asked for too much *)

(** An address that was never mapped: the page is freed, whose ever it is. *)
Definition kernel_page : mm_t := (page_alloc (usr_mm demo_usr)).2.
Lemma munmap_foreign : let s := Usr (usr_proc demo_usr) kernel_page (usr_mem demo_usr) in
  (page_alloc (usr_mm demo_usr)).1 = 131127 ∧ pool_is_free (mm_pool kernel_page) 131127 = false ∧
  (sys_munmap top_page 1 s).1 = 0 ∧ pool_is_free (mm_pool (usr_mm (sys_munmap top_page 1 s).2)) 131127 = true.
Proof. vm_compute. done. Qed.

(** A length for which the number of pages wraps around: success at address 0. *)
Lemma mmap_wraps : (sys_mmap2 0 0xFFFFFFFF ANON 0xFFFFFFFF demo_usr).1 = 0 ∧ page_free_count (usr_mm (sys_mmap2 0 0xFFFFFFFF ANON 0xFFFFFFFF demo_usr).2) = 47.
Proof. vm_compute. done. Qed.

(** A fixed address within a page: as many bytes of the next page are cleared, which
    belongs to someone else. *)
Lemma mmap_fixed_overrun : let p := sys_mmap2 (131126 * PAGE_SIZE + 100) PAGE_SIZE (Z.lor MAP_FIXED ANON) 0xFFFFFFFF (Usr (usr_proc demo_usr) kernel_page (usr_mem demo_usr)) in
  p.1 = 131126 * PAGE_SIZE + 100 ∧ usr_mem p.2 top_page = 0 ∧ usr_mem p.2 (top_page + 99) = 0 ∧ usr_mem p.2 (top_page + 100) = 65 ∧
  pool_is_free (mm_pool kernel_page) 131127 = false.
Proof. vm_compute. done. Qed.

(** A length beyond the mapping: the next slots are freed, at another address. *)
Definition far_demo : usr_t := (sys_mmap2 0 5000 ANON 0xFFFFFFFF (sys_mmap2 0 100 ANON 0xFFFFFFFF brk_demo).2).2.
Lemma munmap_too_long : usr_pages far_demo !! 63%nat = Some 131127 ∧ usr_pages far_demo !! 61%nat = Some (image_page + 9) ∧
  pool_is_free (mm_pool (usr_mm (sys_munmap ((image_page + 9) * PAGE_SIZE) (3 * PAGE_SIZE) far_demo).2)) 131127 = true.
Proof. vm_compute. done. Qed.

(** ** Witnesses *)

Lemma room_addr : (131128 + Z.of_nat USER_PAGES_MAX) * PAGE_SIZE <= 2 ^ uintptr_bits.
Proof. vm_compute. discriminate. Qed.
Lemma room_id : 131128 + Z.of_nat USER_PAGES_MAX <= PAGE_ID_INVALID.
Proof. vm_compute. discriminate. Qed.

Lemma demo_usr_free q : free_in demo_usr q ↔ 131081 <= q < 131128.
Proof.
  assert (mm_inv (usr_mm demo_usr) 131078 131128) as Hm.
  { destruct (page_alloc_n_spec rp2040_mm 131078 131128 3 rp2040_mm_inv) as (A & _); [lia|exact A]. }
  unfold free_in. split.
  - intros Hq. pose proof (free_page_bounds _ _ _ _ (mm_pool_inv _ _ _ Hm) Hq).
    destruct (page_alloc_n_spec rp2040_mm 131078 131128 3 rp2040_mm_inv ltac:(lia)) as (_ & _ & [(E & _)|(_ & _ & _ & _ & F & _)]); [by rewrite demo_usr_image in E|].
    rewrite demo_usr_image in F. unfold image_page in F. apply F in Hq as [_ ?]. lia.
  - intros Hq. exists (FreeBlock 131081 47). split; [vm_compute; by left|split; cbn; lia].
Qed.

Lemma demo_usr_slot j p : usr_pages demo_usr !! j = Some p → p ≠ PAGE_ID_INVALID → (j < 3)%nat ∧ p = image_page + Z.of_nat j.
Proof.
  change (usr_pages demo_usr) with ([image_page; image_page + 1; image_page + 2] ++ replicate 61 PAGE_ID_INVALID).
  intros [E|[_ E]]%lookup_app_Some Hn; [|by apply lookup_replicate in E as [-> _]].
  destruct j as [|[|[|j]]]; try done; cbn in E; injection E as <-; lia.
Qed.

Lemma demo_usr_ok : mem_ok 131078 131128 demo_usr.
Proof.
  split.
  - destruct (page_alloc_n_spec rp2040_mm 131078 131128 3 rp2040_mm_inv) as (A & _); [lia|exact A].
  - split; [done|..].
    + intros i p E Hn. destruct (demo_usr_slot i p E Hn) as [? ->]. rewrite demo_usr_free. unfold image_page. lia.
    + intros i j p Ei Ej Hn. destruct (demo_usr_slot i p Ei Hn), (demo_usr_slot j p Ej Hn). lia.
Qed.

Lemma demo_usr_heap : heap 131128 image_page demo_usr.
Proof.
  split; [unfold image_page; lia|vm_compute; split; congruence|vm_compute; congruence|].
  intros j Hj. change (heap_size image_page (old_brk demo_usr)) with 3%nat in Hj. by destruct j as [|[|[|j]]]; [..|lia].
Qed.

(** Free slots, checked one by one. *)
Lemma slots_free (s : usr_t) a b : forallb (λ j, bool_decide (usr_pages s !! j = Some PAGE_ID_INVALID)) (seq a (b - a)) = true →
  ∀ j, (a <= j < b)%nat → usr_pages s !! j = Some PAGE_ID_INVALID.
Proof.
  intros H j Hj. rewrite forallb_forall in H. specialize (H j). rewrite bool_decide_eq_true in H. apply H. apply in_seq. lia.
Qed.

Lemma sys_brk_correct_witness : let p := sys_brk (image_top + 6 * PAGE_SIZE) demo_usr in
  p.1 = image_top + 6 * PAGE_SIZE ∧ moved image_page (image_top + 6 * PAGE_SIZE) demo_usr p.2 ∧ mem_ok 131078 131128 p.2.
Proof.
  intros p. pose proof (sys_brk_correct 131078 131128 room_addr room_id image_page (image_top + 6 * PAGE_SIZE) demo_usr demo_usr_ok demo_usr_heap) as H.
  assert (p.1 = image_top + 6 * PAGE_SIZE) as E by (vm_compute; reflexivity). split; [exact E|]. unfold p in *. destruct (sys_brk _ _) as [r s'] eqn:Ep.
  destruct H as (A & _ & _ & D).
  - vm_compute. split; congruence.
  - vm_compute. congruence.
  - unfold slots_ahead. apply slots_free. vm_compute. reflexivity.
  - destruct D as [(_ & _ & Hm)|(_ & Hr & _)]; [split; [exact Hm|exact A]|]. exfalso. cbn [fst] in E. rewrite Hr in E. revert E. vm_compute. discriminate.
Defined.

Lemma mem_calls_conserve_witness : let cs := [Brk (image_top + 6 * PAGE_SIZE); Mmap 0 5000 ANON 0xFFFFFFFF; Mmap 0 100 ANON 0xFFFFFFFF; Munmap top_page 100; Brk image_top] in
  let s' := run_calls cs demo_usr in
  page_free_count (usr_mm s') = 45 ∧ pool_equiv (mm_pool (exit_pages s')) (mm_pool (exit_pages demo_usr)) ∧ page_free_count (exit_pages demo_usr) = 50.
Proof.
  intros cs s'. split; [vm_compute; reflexivity|]. split; [|vm_compute; reflexivity].
  apply (mem_calls_conserve 131078 131128 room_addr room_id image_page cs demo_usr demo_usr_ok demo_usr_heap).
  split; [split; [vm_compute; split; congruence|unfold slots_ahead; apply slots_free; vm_compute; reflexivity]|].
  split; [vm_compute; split; congruence|]. split; [vm_compute; split; congruence|].
  split; [exists 61%nat; split; [vm_compute; reflexivity|apply Nat.leb_le; vm_compute; reflexivity]|].
  split; [split; [vm_compute; split; congruence|unfold slots_ahead; apply slots_free; vm_compute; reflexivity]|done].
Defined.
