(* ===== verification/MemSeg.v ===== *)
(** * MemSeg: the break and mappings of the segmented target
    (src/kernel/core/syscall/sys_mem.c, __ia16__)

    A process has sixteen pages in a row, its segment, from the start; the break,
    mappings and the stack share it, and [user_pages] says which pages are in use.
    An address is an offset in the segment. *)

From S2P Require Import Prelude Config PagePool PagePoolFacts Page Region PageFacts.
From S2P Require Import ProcState Sched SchedFacts Kmutex KmutexFacts Proc UserCopy ModCore Mem MemFacts.

Definition I16_USER_SEG_PAGES : Z := 16.
Definition I16_USER_STACK_PAGE : Z := I16_USER_SEG_PAGES - 1.

Section Operations.
Context {cfg : PageConfig} {tgt : PageTarget} {mh : MemHelper}.
(** [current->image.data.base_page] *)
Context (data_base : Z).

Definition i16_user_segment_base (p : pcb_t) : Z :=
  if negb (data_base =? PAGE_ID_INVALID) then data_base else proc_page_backed_base (Some p).
Definition i16_user_page_count (end_off : Z) : Z := if end_off =? 0 then 0 else u16 (uptr (end_off + PAGE_SIZE - 1) / PAGE_SIZE).
Definition i16_user_zero_page (page_id : Z) (mem : umem) : umem := page_zero mem page_id 0 PAGE_SIZE.
(** [base_id + (page_id_t)page] *)
Definition seg_page (base_id page : Z) : Z := to_page_id (base_id + to_page_id page).

Fixpoint zero_range (fuel : nat) (base_id pos end_off : Z) (mem : umem) : umem :=
  match fuel with
  | O => mem
  | S fuel =>
      if pos <? end_off then
        let pg_off := u16 (pos mod PAGE_SIZE) in
        let chunk := if uptr (end_off - pos) <? PAGE_SIZE - pg_off then u16 (end_off - pos) else PAGE_SIZE - pg_off in
        zero_range fuel base_id (uptr (pos + chunk)) end_off (page_zero mem (seg_page base_id (pos / PAGE_SIZE)) pg_off chunk)
      else mem
  end.
Definition sys_brk_zero_owned_range (base_id start_off end_off : Z) (mem : umem) : umem :=
  if end_off <=? start_off then mem else zero_range (Z.to_nat (end_off - start_off)) base_id start_off end_off mem.

(** [for (page = a; page < b; page++)], with [n] pages left: whether all are free,
    all are in use, and their marking. *)
Fixpoint pages_free (n : nat) (page : Z) (pages : list Z) : bool :=
  match n with
  | O => true
  | S n => (pages !!! Z.to_nat page =? PAGE_ID_INVALID) && pages_free n (page + 1) pages
  end.
Fixpoint pages_used (n : nat) (page : Z) (pages : list Z) : bool :=
  match n with
  | O => true
  | S n => negb (pages !!! Z.to_nat page =? PAGE_ID_INVALID) && pages_used n (page + 1) pages
  end.
Fixpoint mark (v : Z → Z) (n : nat) (page : Z) (pages : list Z) : list Z :=
  match n with
  | O => pages
  | S n => mark v n (page + 1) (<[Z.to_nat page := v page]> pages)
  end.
Definition count (a b : Z) : nat := Z.to_nat (b - a).

Definition sys_brk16 (addr : Z) (s : usr_t) : Z * usr_t :=
  let unchanged := (p_brk_current (usr_proc s), s) in
  let new_brk := uptr addr in
  if addr =? 0 then unchanged
  else if new_brk <? p_brk_base (usr_proc s) then unchanged
  else
    let base_id := i16_user_segment_base (usr_proc s) in
    let old_top := p_brk_current (usr_proc s) in
    if base_id =? PAGE_ID_INVALID then unchanged
    else if I16_USER_STACK_PAGE * PAGE_SIZE <? new_brk then unchanged
    else
      let old_pages := i16_user_page_count old_top in
      let new_pages := i16_user_page_count new_brk in
      if (old_pages <? new_pages) && negb (pages_free (count old_pages new_pages) old_pages (usr_pages s)) then unchanged
      else
        let pages :=
          if old_pages <? new_pages then mark (seg_page base_id) (count old_pages new_pages) old_pages (usr_pages s)
          else mark (λ _, PAGE_ID_INVALID) (count new_pages old_pages) new_pages (usr_pages s) in
        let mem := if old_top <? new_brk then sys_brk_zero_owned_range base_id old_top new_brk (usr_mem s) else usr_mem s in
        (new_brk, set_brk new_brk (Usr (set_p_user_pages pages (usr_proc s)) (usr_mm s) mem)).

Definition i16_mmap_range_is_free (p : pcb_t) (start_page num_pages brk_pages : Z) : bool :=
  let end_page := u16 (start_page + num_pages) in
  if I16_USER_STACK_PAGE <? end_page then false
  else if start_page <? brk_pages then false
  else pages_free (count start_page end_page) start_page (p_user_pages p).

(** The pages cleared and marked. *)
Fixpoint zero_pages (n : nat) (base_id page : Z) (mem : umem) : umem :=
  match n with
  | O => mem
  | S n => zero_pages n base_id (page + 1) (i16_user_zero_page (seg_page base_id page) mem)
  end.
Definition mmap_pages (base_id start_page num_pages : Z) (s : usr_t) : usr_t :=
  let n := count start_page (u16 (start_page + num_pages)) in
  Usr (set_p_user_pages (mark (seg_page base_id) n start_page (usr_pages s)) (usr_proc s)) (usr_mm s) (zero_pages n base_id start_page (usr_mem s)).

(** The highest free range. *)
Fixpoint mmap_search (p : pcb_t) (start_page : nat) (num_pages brk_pages : Z) : option Z :=
  if Z.of_nat start_page <? brk_pages then None
  else if i16_mmap_range_is_free p (Z.of_nat start_page) num_pages brk_pages then Some (Z.of_nat start_page)
  else match start_page with
       | O => None
       | S start_page => mmap_search p start_page num_pages brk_pages
       end.

Definition sys_mmap16 (addr len flags fd : Z) (s : usr_t) : Z * usr_t :=
  if negb (bset flags MAP_ANONYMOUS) then (- ENOSYS, s)
  else if negb (s32 fd =? -1) then (- EINVAL, s)
  else if len =? 0 then (- EINVAL, s)
  else
    let num_pages := mem_pages len in
    let base_id := i16_user_segment_base (usr_proc s) in
    if base_id =? PAGE_ID_INVALID then (- ENOMEM, s)
    else if (num_pages =? 0) || (I16_USER_STACK_PAGE <? num_pages) then (- ENOMEM, s)
    else
      let brk_pages := i16_user_page_count (p_brk_current (usr_proc s)) in
      if bset flags MAP_FIXED && negb (addr =? 0) then
        if negb (Z.land addr (PAGE_SIZE - 1) =? 0) then (- EINVAL, s)
        else
          let start_page := u16 (addr / PAGE_SIZE) in
          if I16_USER_STACK_PAGE <? u16 (start_page + num_pages) then (- ENOMEM, s)
          else if negb (i16_mmap_range_is_free (usr_proc s) start_page (u16 num_pages) brk_pages) then (- ENOMEM, s)
          else (start_page * PAGE_SIZE, mmap_pages base_id start_page num_pages s)
      else
        match mmap_search (usr_proc s) (Z.to_nat (I16_USER_STACK_PAGE - num_pages)) (u16 num_pages) brk_pages with
        | None => (- ENOMEM, s)
        | Some start_page => (start_page * PAGE_SIZE, mmap_pages base_id start_page (u16 num_pages) s)
        end.

Definition sys_munmap16 (addr len : Z) (s : usr_t) : Z * usr_t :=
  if (addr =? 0) || (len =? 0) then (- EINVAL, s)
  else
    let num_pages := mem_pages len in
    let brk_pages := i16_user_page_count (p_brk_current (usr_proc s)) in
    if negb (Z.land addr (PAGE_SIZE - 1) =? 0) then (- EINVAL, s)
    else
      let start_page := u16 (addr / PAGE_SIZE) in
      let end_page := u16 (start_page + num_pages) in
      if I16_USER_STACK_PAGE <? end_page then (- EINVAL, s)
      else if start_page <? brk_pages then (- EINVAL, s)
      else
        let n := count start_page end_page in
        if negb (pages_used n start_page (usr_pages s)) then (- EINVAL, s)
        else (0, Usr (set_p_user_pages (mark (λ _, PAGE_ID_INVALID) n start_page (usr_pages s)) (usr_proc s)) (usr_mm s) (usr_mem s)).
End Operations.

(** ** What a program sees of its segment *)

Section Facts.
Context {cfg : PageConfig} {tgt : PageTarget} {mh : MemHelper}.
Context (base : Z) (base_low : 0 < base) (base_high : base + I16_USER_SEG_PAGES <= PAGE_ID_INVALID) (base_mem : base + I16_USER_SEG_PAGES <= 2 ^ 20).
Context (sixteen : uintptr_bits = 16).
Implicit Types (s : usr_t) (a : Z).

Abbreviation SEG_TOP := (I16_USER_STACK_PAGE * PAGE_SIZE).

Definition slot s (i : Z) : Z := usr_pages s !!! Z.to_nat i.
Definition brk s : Z := p_brk_current (usr_proc s).
Definition brk_pages s : Z := i16_user_page_count (brk s).

(** Below the stack, a slot has its page of the segment or none, and the heap has
    all of its pages. *)
Record seg_ok s : Prop := {
  sg_length : length (usr_pages s) = USER_PAGES_MAX;
  sg_brk : 0 <= p_brk_base (usr_proc s) <= brk s ∧ brk s <= SEG_TOP;
  sg_slots i : 0 <= i < I16_USER_STACK_PAGE → slot s i ≠ PAGE_ID_INVALID → slot s i = base + i;
  sg_heap i : 0 <= i < brk_pages s → slot s i ≠ PAGE_ID_INVALID
}.

(** The offsets that the program may use: below the break, or mapped. *)
Definition usable s a : Prop :=
  0 <= a < SEG_TOP ∧ (a < brk s ∨ brk_pages s <= a / PAGE_SIZE ∧ slot s (a / PAGE_SIZE) ≠ PAGE_ID_INVALID).
Definition byte s a : Z := usr_mem s (base * PAGE_SIZE + a).

Lemma seg_page_at i : 0 <= i < I16_USER_SEG_PAGES → seg_page base i = base + i ∧ base + i ≠ PAGE_ID_INVALID ∧ page_linear (base + i) = (base + i) * PAGE_SIZE.
Proof.
  intros Hi. unfold I16_USER_SEG_PAGES, PAGE_ID_INVALID in *. unfold seg_page, to_page_id. rewrite (uN_small _ i), uN_small by lia.
  split_and!; [done|lia|]. unfold page_linear, PAGE_ID_INVALID. destruct (Z.eqb_spec (base + i) (2 ^ page_id_bits - 1)); [lia|].
  unfold page_id_linear, PAGE_SIZE. apply uN_small. lia.
Qed.

(** ** The loops *)

Lemma mark_spec v n i pages : 0 <= i → i + Z.of_nat n <= Z.of_nat (length pages) →
  length (mark v n i pages) = length pages ∧
  ∀ j, 0 <= j → mark v n i pages !!! Z.to_nat j = if decide (i <= j < i + Z.of_nat n) then v j else pages !!! Z.to_nat j.
Proof.
  revert i pages. induction n as [|n IH]; intros i pages Hi Hl; cbn [mark].
  - split; [done|]. intros j Hj. case_decide; [lia|done].
  - destruct (IH (i + 1) (<[Z.to_nat i := v i]> pages)) as [A B]; [lia|rewrite length_insert; lia|]. rewrite length_insert in A. split; [done|].
    intros j Hj. rewrite B by done. destruct (decide (j = i)) as [->|Hne].
    + rewrite decide_False by lia. rewrite list_lookup_total_insert_eq by lia. by rewrite decide_True by lia.
    + rewrite list_lookup_total_insert_ne by lia. repeat case_decide; try done; lia.
Qed.

Lemma pages_free_spec n i pages : 0 <= i → pages_free n i pages = true ↔ ∀ j, i <= j < i + Z.of_nat n → pages !!! Z.to_nat j = PAGE_ID_INVALID.
Proof.
  revert i. induction n as [|n IH]; intros i Hi; cbn [pages_free]; [split; [intros _ j ?; lia|done]|].
  rewrite andb_true_iff, Z.eqb_eq, IH by lia. split.
  - intros [A B] j Hj. destruct (decide (j = i)) as [->|]; [done|apply B; lia].
  - intros A. split; [apply A; lia|intros j Hj; apply A; lia].
Qed.
Lemma pages_used_spec n i pages : 0 <= i → pages_used n i pages = true ↔ ∀ j, i <= j < i + Z.of_nat n → pages !!! Z.to_nat j ≠ PAGE_ID_INVALID.
Proof.
  revert i. induction n as [|n IH]; intros i Hi; cbn [pages_used]; [split; [intros _ j ?; lia|done]|].
  rewrite andb_true_iff, negb_true_iff, Z.eqb_neq, IH by lia. split.
  - intros [A B] j Hj. destruct (decide (j = i)) as [->|]; [done|apply B; lia].
  - intros A. split; [apply A; lia|intros j Hj; apply A; lia].
Qed.

(** The segment's bytes from [a] to [b] cleared. *)
Definition cleared (a b : Z) (mem mem' : umem) : Prop :=
  ∀ x, mem' x = if decide (base * PAGE_SIZE + a <= x < base * PAGE_SIZE + b) then 0 else mem x.

Lemma page_zero_cleared i off len mem : 0 <= i < I16_USER_SEG_PAGES → 0 < len →
  cleared (i * PAGE_SIZE + off) (i * PAGE_SIZE + off + len) mem (page_zero mem (seg_page base i) off len).
Proof.
  intros Hi Hl x. destruct (seg_page_at i Hi) as (-> & Hn & Hlin). unfold page_zero. destruct (Z.eqb_spec (base + i) PAGE_ID_INVALID); [done|].
  destruct (Z.eqb_spec len 0); [lia|]. cbn [orb]. rewrite Hlin. unfold mem_write. rewrite length_replicate, Z2Nat.id by lia.
  replace ((base + i) * PAGE_SIZE + off) with (base * PAGE_SIZE + (i * PAGE_SIZE + off)) by lia.
  destruct (Z.leb_spec (base * PAGE_SIZE + (i * PAGE_SIZE + off)) x), (Z.ltb_spec x (base * PAGE_SIZE + (i * PAGE_SIZE + off) + len)); cbn [andb]; case_decide; try done; try lia.
  apply lookup_total_replicate_2. lia.
Qed.
Lemma cleared_none a b mem : b <= a → cleared a b mem mem.
Proof. intros Hab x. case_decide; [lia|done]. Qed.
Lemma cleared_more a b c mem mem1 mem2 : a <= b <= c → cleared a b mem mem1 → cleared b c mem1 mem2 → cleared a c mem mem2.
Proof. intros Habc A B x. rewrite B, A. repeat case_decide; try done; lia. Qed.

Lemma zero_range_cleared fuel pos end_ mem : 0 <= pos <= end_ → end_ <= SEG_TOP → end_ - pos <= Z.of_nat fuel →
  cleared pos end_ mem (zero_range fuel base pos end_ mem).
Proof.
  unfold I16_USER_STACK_PAGE, I16_USER_SEG_PAGES. revert pos mem. induction fuel as [|fuel IH]; intros pos mem Hp He Hf; cbn [zero_range]; [by apply cleared_none; lia|].
  destruct (Z.ltb_spec pos end_); [|apply cleared_none; lia].
  pose proof (Z.div_mod pos PAGE_SIZE). pose proof (Z.mod_pos_bound pos PAGE_SIZE). unfold PAGE_SIZE in *.
  assert (∀ z, 0 <= z < 65536 → uptr z = z) as Eu by (intros; unfold uptr; rewrite sixteen; by apply uN_small).
  rewrite (uN_small 16 (pos mod 4096)), (Eu (end_ - pos)) by lia.
  set (chunk := if end_ - pos <? 4096 - pos mod 4096 then _ else _).
  assert (0 < chunk ∧ pos + chunk <= end_ ∧ pos mod 4096 + chunk <= 4096) as Hc.
  { unfold chunk. destruct (Z.ltb_spec (end_ - pos) (4096 - pos mod 4096)); [rewrite (uN_small 16) by lia|]; lia. }
  rewrite Eu by lia. eapply (cleared_more pos (pos + chunk) end_); [lia| |apply IH; lia].
  pose proof (page_zero_cleared (pos / 4096) (pos mod 4096) chunk mem) as Hz. unfold PAGE_SIZE in Hz.
  replace (pos / 4096 * 4096 + pos mod 4096) with pos in Hz by lia. apply Hz; [|lia]. unfold I16_USER_SEG_PAGES. split; [apply Z.div_pos; lia|apply Z.div_lt_upper_bound; lia].
Qed.

Lemma zero_pages_cleared n i mem : 0 <= i → i + Z.of_nat n <= I16_USER_STACK_PAGE →
  cleared (i * PAGE_SIZE) ((i + Z.of_nat n) * PAGE_SIZE) mem (zero_pages n base i mem).
Proof.
  unfold I16_USER_STACK_PAGE. revert i mem. induction n as [|n IH]; intros i mem Hi Hn; cbn [zero_pages]; [apply cleared_none; lia|].
  eapply (cleared_more _ ((i + 1) * PAGE_SIZE)); [unfold PAGE_SIZE; lia| |].
  - pose proof (page_zero_cleared i 0 PAGE_SIZE mem ltac:(lia) ltac:(done)) as Hz. rewrite Z.add_0_r in Hz.
    replace ((i + 1) * PAGE_SIZE) with (i * PAGE_SIZE + PAGE_SIZE) by lia. exact Hz.
  - replace (i + Z.of_nat (S n)) with (i + 1 + Z.of_nat n) by lia. apply IH; lia.
Qed.

(** ** Calls *)

Lemma page_count_eq v : 0 <= v <= SEG_TOP → i16_user_page_count v = (v + PAGE_SIZE - 1) / PAGE_SIZE ∧ 0 <= (v + PAGE_SIZE - 1) / PAGE_SIZE <= I16_USER_STACK_PAGE.
Proof.
  unfold I16_USER_STACK_PAGE, I16_USER_SEG_PAGES, PAGE_SIZE. intros Hv.
  assert (0 <= (v + 4096 - 1) / 4096 <= 15) as Hd by (split; [apply Z.div_pos; lia|apply Z.lt_succ_r, Z.div_lt_upper_bound; lia]).
  split; [|done]. unfold i16_user_page_count, uptr, PAGE_SIZE. rewrite sixteen. destruct (Z.eqb_spec v 0) as [->|]; [done|].
  rewrite (uN_small 16 (v + 4096 - 1)), (uN_small 16) by lia. done.
Qed.

Lemma below_count v a : 0 <= v <= SEG_TOP → i16_user_page_count v <= a / PAGE_SIZE → v <= a.
Proof.
  intros Hv. rewrite (proj1 (page_count_eq v Hv)). unfold PAGE_SIZE. intros Ha. pose proof (Z.div_mod (v + 4096 - 1) 4096). pose proof (Z.mod_pos_bound (v + 4096 - 1) 4096).
  pose proof (Z.div_mod a 4096). pose proof (Z.mod_pos_bound a 4096). lia.
Qed.

Definition mapped s a : Prop := 0 <= a < SEG_TOP ∧ brk_pages s <= a / PAGE_SIZE ∧ slot s (a / PAGE_SIZE) ≠ PAGE_ID_INVALID.

(** The program may use [U] now: what it could use before is as it was, what is new
    is zero, and no other memory has changed. *)
Record becomes (U : Z → Prop) s s' : Prop := {
  bc_ok : seg_ok s';
  bc_usable a : usable s' a ↔ U a;
  bc_same a : usable s a → U a → byte s' a = byte s a;
  bc_zero a : ¬ usable s a → U a → byte s' a = 0;
  bc_others x : ¬ base * PAGE_SIZE <= x < (base + I16_USER_STACK_PAGE) * PAGE_SIZE → usr_mem s' x = usr_mem s x
}.

Lemma page_of a : 0 <= a < SEG_TOP → 0 <= a / PAGE_SIZE < I16_USER_STACK_PAGE.
Proof. unfold PAGE_SIZE. intros. split; [apply Z.div_pos; lia|apply Z.div_lt_upper_bound; lia]. Qed.

(** The break: the slots between, and the bytes from the old break on. *)
Lemma brk_becomes s v pages mem : seg_ok s → p_brk_base (usr_proc s) <= v <= SEG_TOP → length pages = USER_PAGES_MAX →
  (∀ i, brk_pages s <= i < i16_user_page_count v → slot s i = PAGE_ID_INVALID) →
  (∀ i, 0 <= i < I16_USER_STACK_PAGE → pages !!! Z.to_nat i =
    if decide (brk_pages s <= i < i16_user_page_count v) then base + i else if decide (i16_user_page_count v <= i < brk_pages s) then PAGE_ID_INVALID else slot s i) →
  cleared (brk s) v (usr_mem s) mem →
  becomes (λ a, 0 <= a < v ∨ mapped s a) s (set_brk v (Usr (set_p_user_pages pages (usr_proc s)) (usr_mm s) mem)).
Proof.
  intros [Hl Hb Hs Hh] Hv Hlen Hfree Hp Hm. set (s' := set_brk _ _).
  pose proof (page_count_eq v ltac:(lia)) as [_ Hcv]. rewrite <-(proj1 (page_count_eq v ltac:(lia))) in Hcv.
  pose proof (page_count_eq (brk s) ltac:(lia)) as [_ Hco]. rewrite <-(proj1 (page_count_eq (brk s) ltac:(lia))) in Hco. fold (brk_pages s) in Hco.
  assert (∀ i, 0 <= i < I16_USER_STACK_PAGE → base + i ≠ PAGE_ID_INVALID) as Hne by (intros; apply seg_page_at; unfold I16_USER_STACK_PAGE in *; lia).
  assert (∀ a, usable s' a ↔ 0 <= a < v ∨ mapped s a) as HU.
  { intros a. unfold usable, mapped. change (brk s') with v. change (brk_pages s') with (i16_user_page_count v).
    split.
    - intros (Ha & [?|[Hc Hsl]]); [by left; lia|right]. pose proof (page_of a Ha) as Hpa. unfold slot, s' in Hsl. cbn in Hsl. rewrite Hp in Hsl by done.
      revert Hsl. repeat case_decide; (done || intros; lia).
    - intros [?|(Ha & Hc & Hsl)]; [split; [lia|left; lia]|]. pose proof (page_of a Ha) as Hpa. split; [done|]. right.
      assert (i16_user_page_count v <= a / PAGE_SIZE) as Hcv2 by (apply Z.nlt_ge; intros Hlt; apply Hsl, Hfree; lia). split; [done|].
      unfold slot, s'. cbn. rewrite Hp by done. repeat case_decide; try lia; done. }
  split.
  - split.
    + exact Hlen.
    + cbn. lia.
    + intros i Hi Hn. unfold slot, s' in *. cbn in *. rewrite Hp in * by done. repeat case_decide; try done. by apply Hs.
    + intros i Hi. change (brk_pages s') with (i16_user_page_count v) in Hi. unfold slot, s'. cbn. rewrite Hp by lia.
      repeat case_decide; try lia; [apply Hne; lia|]. apply Hh. lia.
  - exact HU.
  - intros a [Ha Hu] HUa. unfold byte, s'. cbn. rewrite Hm. case_decide as Hx; [|done]. exfalso. destruct Hu as [?|[Hc Hsl]]; [lia|].
    destruct (Z.lt_ge_cases (a / PAGE_SIZE) (i16_user_page_count v)); [by apply Hsl, Hfree|]. pose proof (below_count v a ltac:(lia) ltac:(done)). lia.
  - intros a Hu [Ha|Hmp]; [|destruct Hu; destruct Hmp as (? & ? & ?); split; [done|by right]].
    unfold byte, s'. cbn. rewrite Hm. case_decide as Hx; [done|]. destruct Hu. split; [lia|]. left. lia.
  - intros x Hx. cbn. rewrite Hm. case_decide as Hd; [|done]. destruct Hx. unfold I16_USER_STACK_PAGE, I16_USER_SEG_PAGES, PAGE_SIZE in *. lia.
Qed.

Lemma sys_brk16_correct addr s : seg_ok s → 0 <= addr < 2 ^ 16 → let '(r, s') := sys_brk16 base addr s in
  r = addr ∧ brk s' = addr ∧ becomes (λ a, 0 <= a < addr ∨ mapped s a) s s' ∨ r = brk s ∧ s' = s.
Proof.
  intros Hs Ha. pose proof Hs as [Hl Hb Hsl Hh]. unfold sys_brk16. assert (uptr addr = addr) as -> by (unfold uptr; rewrite sixteen; by apply uN_small).
  destruct (Z.eqb_spec addr 0); [by right|]. destruct (Z.ltb_spec addr (p_brk_base (usr_proc s))) as [|Hlow]; [by right|].
  assert (i16_user_segment_base base (usr_proc s) = base) as ->.
  { unfold i16_user_segment_base. destruct (Z.eqb_spec base PAGE_ID_INVALID); [unfold I16_USER_SEG_PAGES in *; lia|done]. }
  destruct (Z.eqb_spec base PAGE_ID_INVALID); [unfold I16_USER_SEG_PAGES in *; lia|]. destruct (Z.ltb_spec SEG_TOP addr) as [|Hhigh]; [by right|].
  fold (brk s) (brk_pages s). set (o := brk_pages s). set (n1 := i16_user_page_count addr).
  pose proof (page_count_eq addr ltac:(lia)) as [_ Hcn]. rewrite <-(proj1 (page_count_eq addr ltac:(lia))) in Hcn. fold n1 in Hcn.
  pose proof (page_count_eq (brk s) ltac:(lia)) as [_ Hco]. rewrite <-(proj1 (page_count_eq (brk s) ltac:(lia))) in Hco. fold (brk_pages s) o in Hco.
  destruct ((o <? n1) && negb (pages_free (count o n1) o (usr_pages s))) eqn:Ec; [by right|]. left. split; [done|]. split; [done|].
  assert (∀ i, o <= i < n1 → slot s i = PAGE_ID_INVALID) as Hfree.
  { intros i Hi. destruct (Z.ltb_spec o n1); [|lia]. cbn [andb] in Ec. apply negb_false_iff in Ec. rewrite pages_free_spec in Ec by lia. apply Ec. unfold count. lia. }
  assert (∀ v k i, 0 <= i → i + Z.of_nat k <= I16_USER_STACK_PAGE → let q := mark v k i (usr_pages s) in length q = USER_PAGES_MAX ∧
      ∀ j, 0 <= j → q !!! Z.to_nat j = if decide (i <= j < i + Z.of_nat k) then v j else slot s j) as Hmark.
  { intros v k i Hi Hk. cbn. destruct (mark_spec v k i (usr_pages s) Hi) as [A B]; [rewrite Hl; unfold USER_PAGES_MAX, I16_USER_STACK_PAGE, I16_USER_SEG_PAGES in *; lia|]. by rewrite A. }
  apply brk_becomes; try done.
  - destruct (Z.ltb_spec o n1); apply Hmark; unfold count; lia.
  - intros i Hi. fold o n1. destruct (Z.ltb_spec o n1).
    + destruct (Hmark (seg_page base) (count o n1) o) as [_ E]; [lia|unfold count; lia|]. rewrite E by lia. unfold count. rewrite (proj1 (seg_page_at i ltac:(unfold I16_USER_STACK_PAGE in *; lia))).
      repeat case_decide; try done; lia.
    + destruct (Hmark (λ _, PAGE_ID_INVALID) (count n1 o) n1) as [_ E]; [lia|unfold count; lia|]. rewrite E by lia. unfold count. repeat case_decide; try done; lia.
  - destruct (Z.ltb_spec (brk s) addr); [|by apply cleared_none]. unfold sys_brk_zero_owned_range. destruct (Z.leb_spec addr (brk s)); [lia|].
    apply zero_range_cleared; lia.
Qed.

Definition in_pages (p n a : Z) : Prop := p * PAGE_SIZE <= a < (p + n) * PAGE_SIZE.

Lemma in_pages_div p n a : in_pages p n a ↔ p <= a / PAGE_SIZE < p + n.
Proof.
  unfold in_pages, PAGE_SIZE. pose proof (Z.div_mod a 4096). pose proof (Z.mod_pos_bound a 4096). lia.
Qed.

(** Slots above the heap change; the memory of those that come is cleared. *)
Lemma slots_become s p n v pages mem : seg_ok s → brk_pages s <= p → 0 <= n → p + n <= I16_USER_STACK_PAGE → length pages = USER_PAGES_MAX →
  (∀ j, p <= j < p + n → v j = PAGE_ID_INVALID ∨ v j = base + j) →
  (∀ j, 0 <= j → pages !!! Z.to_nat j = if decide (p <= j < p + n) then v j else slot s j) →
  (∀ a, usable s a → ¬ in_pages p n a → mem (base * PAGE_SIZE + a) = usr_mem s (base * PAGE_SIZE + a)) →
  (∀ a, in_pages p n a → v (a / PAGE_SIZE) ≠ PAGE_ID_INVALID → ¬ usable s a ∧ mem (base * PAGE_SIZE + a) = 0) →
  (∀ x, ¬ base * PAGE_SIZE <= x < (base + I16_USER_STACK_PAGE) * PAGE_SIZE → mem x = usr_mem s x) →
  becomes (λ a, in_pages p n a ∧ v (a / PAGE_SIZE) ≠ PAGE_ID_INVALID ∨ ¬ in_pages p n a ∧ usable s a) s (Usr (set_p_user_pages pages (usr_proc s)) (usr_mm s) mem).
Proof.
  intros [Hl Hb Hs Hh] Hp Hn Hpn Hlen Hv Hpages Hsame Hzero Hother. set (s' := Usr _ _ _).
  pose proof (page_count_eq (brk s) ltac:(lia)) as [_ Hco]. rewrite <-(proj1 (page_count_eq (brk s) ltac:(lia))) in Hco. fold (brk_pages s) in Hco.
  assert (∀ j, 0 <= j → slot s' j = if decide (p <= j < p + n) then v j else slot s j) as Hsl by exact Hpages.
  assert (∀ a, usable s' a ↔ in_pages p n a ∧ v (a / PAGE_SIZE) ≠ PAGE_ID_INVALID ∨ ¬ in_pages p n a ∧ usable s a) as HU.
  { intros a. unfold usable. change (brk s') with (brk s). change (brk_pages s') with (brk_pages s). pose proof (in_pages_div p n a) as Hd.
    destruct (decide (p <= a / PAGE_SIZE < p + n)) as [Hin|Hout].
    - rewrite Hsl by lia. rewrite decide_True by done. split.
      + intros (Ha & [Hlt|[_ ?]]); [|left; tauto]. pose proof (below_count (brk s) a ltac:(lia)). unfold brk_pages in *. lia.
      + intros [[Hi ?]|[Hni _]]; [|tauto]. split; [unfold in_pages, I16_USER_STACK_PAGE, PAGE_SIZE in *; lia|]. right. split; [lia|done].
    - split.
      + intros [Ha HuA]. right. split; [tauto|]. split; [done|]. destruct HuA as [?|[? Hn2]]; [by left|right]. split; [done|].
        pose proof (page_of a Ha). rewrite Hsl in Hn2 by lia. by rewrite decide_False in Hn2.
      + intros [[Hi _]|[_ [Ha HuA]]]; [tauto|]. split; [done|]. destruct HuA as [?|[? Hn2]]; [by left|right]. split; [done|].
        pose proof (page_of a Ha). rewrite Hsl by lia. by rewrite decide_False. }
  split.
  - split; [exact Hlen|exact Hb|..].
    + intros i Hi. rewrite Hsl by lia. case_decide as Hd; [|by apply Hs]. destruct (Hv i Hd) as [->| ->]; done.
    + intros i Hi. change (brk_pages s') with (brk_pages s) in Hi. rewrite Hsl by lia. rewrite decide_False by lia. by apply Hh.
  - exact HU.
  - intros a Hu [[Hi Hn2]|[Hni _]]; [|by apply Hsame]. destruct (Hzero a Hi Hn2). done.
  - intros a Hu [[Hi Hn2]|[_ ?]]; [|done]. by apply Hzero.
  - exact Hother.
Qed.

Lemma mmap_becomes s p n : seg_ok s → brk_pages s <= p → 0 <= n → p + n <= I16_USER_STACK_PAGE → 
  (∀ j, p <= j < p + n → slot s j = PAGE_ID_INVALID) →
  (∀ a, in_pages p n a → ¬ usable s a) ∧ becomes (λ a, in_pages p n a ∨ usable s a) s (mmap_pages base p n s).
Proof.
  intros Hs Hp Hn Hpn Hfree. pose proof Hs as [Hl Hb _ _].
  pose proof (page_count_eq (brk s) ltac:(lia)) as [_ Hco]. rewrite <-(proj1 (page_count_eq (brk s) ltac:(lia))) in Hco. fold (brk_pages s) in Hco.
  assert (∀ a, in_pages p n a → ¬ usable s a) as Hnew.
  { intros a Hi [Ha HuA]. pose proof (proj1 (in_pages_div p n a) Hi) as Hd. destruct HuA as [?|[_ Hn2]]; [|by apply Hn2, Hfree].
    pose proof (below_count (brk s) a ltac:(lia)). unfold brk_pages in *. lia. }
  split; [done|]. unfold mmap_pages. rewrite (uN_small 16) by (unfold I16_USER_STACK_PAGE, I16_USER_SEG_PAGES in *; lia).
  assert (count p (p + n) = Z.to_nat n) as -> by (unfold count; lia).
  destruct (mark_spec (seg_page base) (Z.to_nat n) p (usr_pages s)) as [A B]; [lia|rewrite Hl; unfold USER_PAGES_MAX, I16_USER_STACK_PAGE, I16_USER_SEG_PAGES in *; lia|].
  rewrite Z2Nat.id in B by lia. assert (∀ j, p <= j < p + n → seg_page base j = base + j ∧ base + j ≠ PAGE_ID_INVALID) as Hsp.
  { intros j Hj. destruct (seg_page_at j) as (? & ? & _); [unfold I16_USER_STACK_PAGE in *; lia|done]. }
  pose proof (zero_pages_cleared (Z.to_nat n) p (usr_mem s) ltac:(lia) ltac:(lia)) as Hz. rewrite Z2Nat.id in Hz by lia.
  destruct (slots_become s p n (seg_page base) (mark (seg_page base) (Z.to_nat n) p (usr_pages s)) (zero_pages (Z.to_nat n) base p (usr_mem s)) Hs Hp Hn Hpn) as [C D E F G].
  - by rewrite A.
  - intros j Hj. right. by apply Hsp.
  - exact B.
  - intros a _ Hni. rewrite Hz. case_decide; [|done]. destruct Hni. unfold in_pages. lia.
  - intros a Hi _. split; [by apply Hnew|]. rewrite Hz. rewrite decide_True; [done|]. unfold in_pages in Hi. lia.
  - intros x Hx. rewrite Hz. case_decide; [|done]. destruct Hx. unfold I16_USER_STACK_PAGE, I16_USER_SEG_PAGES, PAGE_SIZE in *. lia.
  - assert (∀ a, (in_pages p n a ∧ seg_page base (a / PAGE_SIZE) ≠ PAGE_ID_INVALID ∨ ¬ in_pages p n a ∧ usable s a) ↔ (in_pages p n a ∨ usable s a)) as HE.
    { intros a. pose proof (in_pages_div p n a) as Hd. specialize (Hnew a). split; [tauto|]. intros [Hi|Hu]; [left|right; tauto]. split; [done|].
      destruct (Hsp (a / PAGE_SIZE)) as [-> ?]; [tauto|done]. }
    split; [done| | | |done].
    + intros a. by rewrite D, HE.
    + intros a Hu HU. apply E; [done|]. by apply HE.
    + intros a Hu HU. apply F; [done|]. by apply HE.
Qed.

Lemma munmap_becomes s p n : seg_ok s → brk_pages s <= p → 0 <= n → p + n <= I16_USER_STACK_PAGE →
  becomes (λ a, ¬ in_pages p n a ∧ usable s a) s
    (Usr (set_p_user_pages (mark (λ _, PAGE_ID_INVALID) (count p (u16 (p + n))) p (usr_pages s)) (usr_proc s)) (usr_mm s) (usr_mem s)).
Proof.
  intros Hs Hp Hn Hpn. pose proof Hs as [Hl Hb _ _]. rewrite (uN_small 16) by (pose proof (page_count_eq (brk s)); unfold brk_pages, I16_USER_STACK_PAGE, I16_USER_SEG_PAGES in *; lia).
  pose proof (page_count_eq (brk s) ltac:(lia)) as [_ Hco]. rewrite <-(proj1 (page_count_eq (brk s) ltac:(lia))) in Hco. fold (brk_pages s) in Hco.
  assert (count p (p + n) = Z.to_nat n) as -> by (unfold count; lia).
  destruct (mark_spec (λ _, PAGE_ID_INVALID) (Z.to_nat n) p (usr_pages s)) as [A B]; [lia|rewrite Hl; unfold USER_PAGES_MAX, I16_USER_STACK_PAGE, I16_USER_SEG_PAGES in *; lia|].
  rewrite Z2Nat.id in B by lia.
  destruct (slots_become s p n (λ _, PAGE_ID_INVALID) (mark (λ _, PAGE_ID_INVALID) (Z.to_nat n) p (usr_pages s)) (usr_mem s) Hs Hp Hn Hpn) as [C D E F G]; try done.
  - by rewrite A.
  - by left.
  - split; [done| | | |done].
    + intros a. rewrite D. tauto.
    + intros a Hu [? ?]. apply E; [done|by right].
    + intros a Hu [? ?]. done.
Qed.

Lemma range_free_spec s p n : seg_ok s → 0 <= p <= I16_USER_STACK_PAGE → 0 <= n <= I16_USER_STACK_PAGE →
  i16_mmap_range_is_free (usr_proc s) p n (brk_pages s) = true → brk_pages s <= p ∧ p + n <= I16_USER_STACK_PAGE ∧ ∀ j, p <= j < p + n → slot s j = PAGE_ID_INVALID.
Proof.
  unfold I16_USER_STACK_PAGE, I16_USER_SEG_PAGES. intros Hs Hp Hn. unfold i16_mmap_range_is_free, I16_USER_STACK_PAGE, I16_USER_SEG_PAGES. rewrite (uN_small 16) by lia.
  destruct (Z.ltb_spec (16 - 1) (p + n)); [done|]. destruct (Z.ltb_spec p (brk_pages s)); [done|]. rewrite pages_free_spec by lia. intros Hf.
  split; [done|]. split; [lia|]. intros j Hj. apply Hf. unfold count. lia.
Qed.

Lemma mmap_search_spec q k n b p : mmap_search q k n b = Some p → ∃ i, (i <= k)%nat ∧ p = Z.of_nat i ∧ i16_mmap_range_is_free q p n b = true.
Proof.
  induction k as [|k IH]; cbn [mmap_search]; (destruct (_ <? b); [done|]); destruct (i16_mmap_range_is_free q (Z.of_nat _) n b) eqn:E; try done.
  - intros Hk. injection Hk as Hk. subst p. by exists 0%nat.
  - intros Hk. injection Hk as Hk. subst p. by exists (S k).
  - intros Hk. destruct (IH Hk) as (i & ? & ? & ?). exists i. split; [lia|done].
Qed.

Lemma aligned_page addr : 0 <= addr < 2 ^ 16 → Z.land addr (PAGE_SIZE - 1) = 0 → u16 (addr / PAGE_SIZE) * PAGE_SIZE = addr ∧ 0 <= u16 (addr / PAGE_SIZE) <= I16_USER_STACK_PAGE.
Proof.
  intros Ha. change (PAGE_SIZE - 1) with (Z.ones 12). rewrite Z.land_ones by lia. unfold PAGE_SIZE, I16_USER_STACK_PAGE, I16_USER_SEG_PAGES. intros E.
  pose proof (Z.div_mod addr 4096). assert (0 <= addr / 4096 <= 15) by (split; [apply Z.div_pos; lia|apply Z.lt_succ_r, Z.div_lt_upper_bound; lia]).
  rewrite (uN_small 16) by lia. change (2 ^ 12) with 4096 in E. lia.
Qed.

Lemma mem_pages_range len : 0 <= mem_pages len <= I16_USER_STACK_PAGE.
Proof.
  unfold mem_pages, uptr, PAGE_SIZE, I16_USER_STACK_PAGE, I16_USER_SEG_PAGES. rewrite sixteen. pose proof (uN_range 16 (len + 4096 - 1)).
  split; [apply Z.div_pos; lia|apply Z.lt_succ_r, Z.div_lt_upper_bound; lia].
Qed.

(** What a call of the segmented target has done. *)
Definition call16 (c : mem_call) s : Z * usr_t :=
  match c with
  | Brk addr => sys_brk16 base addr s
  | Mmap addr len flags fd => sys_mmap16 base addr len flags fd s
  | Munmap addr len => sys_munmap16 addr len s
  end.
Definition call_fits (c : mem_call) : Prop :=
  match c with
  | Brk addr => 0 <= addr < 2 ^ 16
  | Mmap addr _ _ _ | Munmap addr _ => 0 <= addr < 2 ^ 16
  end.
Definition call_done (c : mem_call) s (r : Z) s' : Prop :=
  match c with
  | Brk addr => r = addr ∧ brk s' = addr ∧ becomes (λ a, 0 <= a < addr ∨ mapped s a) s s' ∨ r = brk s ∧ s' = s
  | Mmap addr len flags _ => r < 0 ∧ s' = s ∨
      ∃ p, r = p * PAGE_SIZE ∧ (bset flags MAP_FIXED = true → addr ≠ 0 → r = addr) ∧ 0 < mem_pages len ∧ p + mem_pages len <= I16_USER_STACK_PAGE ∧
        (∀ a, in_pages p (mem_pages len) a → ¬ usable s a) ∧ becomes (λ a, in_pages p (mem_pages len) a ∨ usable s a) s s'
  | Munmap addr len => r < 0 ∧ s' = s ∨
      ∃ p, r = 0 ∧ addr = p * PAGE_SIZE ∧ becomes (λ a, ¬ in_pages p (mem_pages len) a ∧ usable s a) s s'
  end.

Lemma sys_mmap16_correct addr len flags fd s : seg_ok s → 0 <= addr < 2 ^ 16 →
  call_done (Mmap addr len flags fd) s (sys_mmap16 base addr len flags fd s).1 (sys_mmap16 base addr len flags fd s).2.
Proof.
  intros Hs Ha. cbn [call_done]. unfold sys_mmap16. destruct (negb (bset flags MAP_ANONYMOUS)); [by left|]. destruct (negb (s32 fd =? -1)); [by left|].
  destruct (len =? 0); [by left|]. assert (i16_user_segment_base base (usr_proc s) = base) as ->.
  { unfold i16_user_segment_base. destruct (Z.eqb_spec base PAGE_ID_INVALID); [unfold I16_USER_SEG_PAGES in *; lia|done]. }
  destruct (base =? PAGE_ID_INVALID); [by left|]. pose proof (mem_pages_range len) as Hn. set (n := mem_pages len) in *.
  destruct (Z.eqb_spec n 0) as [|Hn0]; [by left|]. cbn [orb]. destruct (Z.ltb_spec I16_USER_STACK_PAGE n); [by left|]. fold (brk s) (brk_pages s).
  rewrite (uN_small 16 n) by (unfold I16_USER_STACK_PAGE, I16_USER_SEG_PAGES in *; lia). destruct (bset flags MAP_FIXED && negb (addr =? 0)) eqn:Efix.
  - destruct (Z.eqb_spec (Z.land addr (PAGE_SIZE - 1)) 0) as [Eal|]; [|by left]. cbn [negb]. destruct (aligned_page addr Ha Eal) as [Ep Hp]. set (p := u16 (addr / PAGE_SIZE)) in *.
    destruct (I16_USER_STACK_PAGE <? u16 (p + n)); [by left|]. destruct (i16_mmap_range_is_free _ _ _ _) eqn:Ef; [|by left]. cbn [negb fst snd].
    destruct (range_free_spec s p n Hs Hp ltac:(lia) Ef) as (A & B & C). destruct (mmap_becomes s p n Hs A ltac:(lia) B C) as [D E].
    right. exists p. split_and!; try done. lia.
  - destruct (mmap_search _ _ _ _) as [p|] eqn:Es; [|by left]. cbn [fst snd]. destruct (mmap_search_spec _ _ _ _ _ Es) as (i & Hi & -> & Ef).
    destruct (range_free_spec s (Z.of_nat i) n Hs ltac:(lia) ltac:(lia) Ef) as (A & B & C). destruct (mmap_becomes s (Z.of_nat i) n Hs A ltac:(lia) B C) as [D E].
    right. exists (Z.of_nat i). split_and!; try done; [|lia]. intros Hfx Hne. rewrite Hfx in Efix. by destruct (Z.eqb_spec addr 0).
Qed.

Lemma sys_munmap16_correct addr len s : seg_ok s → 0 <= addr < 2 ^ 16 → call_done (Munmap addr len) s (sys_munmap16 addr len s).1 (sys_munmap16 addr len s).2.
Proof.
  intros Hs Ha. cbn [call_done]. unfold sys_munmap16. destruct (_ || _); [by left|]. destruct (Z.eqb_spec (Z.land addr (PAGE_SIZE - 1)) 0) as [Eal|]; [|by left].
  cbn [negb]. destruct (aligned_page addr Ha Eal) as [Ep Hp]. set (p := u16 (addr / PAGE_SIZE)) in *. pose proof (mem_pages_range len) as Hn. set (n := mem_pages len) in *.
  fold (brk s) (brk_pages s). assert (u16 (p + n) = p + n) as E by (apply uN_small; unfold I16_USER_STACK_PAGE, I16_USER_SEG_PAGES in *; lia). rewrite E.
  destruct (Z.ltb_spec I16_USER_STACK_PAGE (p + n)); [by left|]. destruct (Z.ltb_spec p (brk_pages s)); [by left|]. destruct (negb _); [by left|].
  right. exists p. split; [done|]. split; [done|]. cbn [snd]. pose proof (munmap_becomes s p n Hs ltac:(lia) ltac:(lia) ltac:(lia)) as Hb. by rewrite E in Hb.
Qed.

(** C37. In a segment the break, mappings and the stack never overlap: a mapping lies
    in pages the program could not use, the break does not grow into a mapping, and
    a call disturbs no byte that the program can use before and after it.  What a
    call adds is zero; nothing outside the segment is touched; a call that fails
    changes nothing. *)
Theorem seg_calls_correct c s : seg_ok s → call_fits c → let '(r, s') := call16 c s in seg_ok s' ∧ call_done c s r s'.
Proof.
  intros Hs Hc. destruct c as [addr|addr len flags fd|addr len]; cbn [call16].
  - pose proof (sys_brk16_correct addr s Hs Hc) as H. destruct (sys_brk16 base addr s) as [r s1]. cbn [fst snd] in H. split; [|exact H].
    destruct H as [(_ & _ & H)|[_ ->]]; [apply H|done].
  - pose proof (sys_mmap16_correct addr len flags fd s Hs Hc) as H. destruct (sys_mmap16 base addr len flags fd s) as [r s1]. cbn [fst snd] in H. split; [|exact H].
    destruct H as [[_ ->]|(p & _ & _ & _ & _ & _ & H)]; [done|apply H].
  - pose proof (sys_munmap16_correct addr len s Hs Hc) as H. destruct (sys_munmap16 addr len s) as [r s1]. cbn [fst snd] in H. split; [|exact H].
    destruct H as [[_ ->]|(p & _ & _ & H)]; [done|apply H].
Qed.
End Facts.

(** ** A PC/XT segment *)

#[local] Instance pcxt_config : PageConfig.
Proof. refine {| page_id_bits := 8; page_count_max := 128 |}; abstract lia. Defined.
#[local] Instance pcxt_target : PageTarget.
Proof. refine {| PAGE_POOL_BASE := 0x20000; stack_top := 0x1000; uintptr_bits := 16 |}. abstract lia. Defined.

(** Nine thousand bytes of program in the segment that begins with page 64. *)
Definition seg_base : Z := 64.
Definition seg_usr : usr_t :=
  Usr (set_p_brk_base 9000 (set_p_brk_current 9000 (set_p_user_pages
    ([64; 65; 66] ++ replicate 12 PAGE_ID_INVALID ++ [79] ++ replicate 48 PAGE_ID_INVALID) pcb_zero))) (Mm (Pool [] 0 0) 0 0 0 tt []) (λ _, 65).

Definition seg_mapped : usr_t := (sys_mmap16 seg_base 0 5000 MAP_ANONYMOUS 0xFFFFFFFF seg_usr).2.

Lemma seg_demo_calls : (sys_mmap16 seg_base 0 5000 MAP_ANONYMOUS 0xFFFFFFFF seg_usr).1 = 13 * PAGE_SIZE ∧
  usr_mem seg_mapped (77 * PAGE_SIZE) = 0 ∧ usr_mem seg_mapped (77 * PAGE_SIZE - 1) = 65 ∧
  (sys_brk16 seg_base (13 * PAGE_SIZE) seg_mapped).1 = 13 * PAGE_SIZE ∧ (sys_brk16 seg_base (13 * PAGE_SIZE + 1) seg_mapped).1 = 9000 ∧
  (sys_munmap16 (13 * PAGE_SIZE) 5000 seg_mapped).1 = 0 ∧ usr_pages (sys_munmap16 (13 * PAGE_SIZE) 5000 seg_mapped).2 = usr_pages seg_usr.
Proof. vm_compute. repeat split. Qed.

(** A length whose number of pages wraps around: success, and nothing is unmapped. *)
Lemma seg_munmap_wraps : (sys_munmap16 (13 * PAGE_SIZE) 0xF801 seg_mapped).1 = 0 ∧ usr_pages (sys_munmap16 (13 * PAGE_SIZE) 0xF801 seg_mapped).2 = usr_pages seg_mapped.
Proof. vm_compute. done. Qed.

Lemma seg_usr_ok : seg_ok seg_base seg_usr.
Proof.
  split.
  - vm_compute. reflexivity.
  - vm_compute. split; [split|]; congruence.
  - unfold I16_USER_STACK_PAGE, I16_USER_SEG_PAGES. intros i Hi Hn. assert (i < 3 ∨ 3 <= i) as [H|H] by lia.
    + assert (i = 0 ∨ i = 1 ∨ i = 2) as [->|[->| ->]] by lia; reflexivity.
    + exfalso. apply Hn. unfold slot, usr_pages. cbn [usr_proc seg_usr p_user_pages set_p_user_pages set_p_brk_base set_p_brk_current].
      rewrite lookup_total_app_r by (cbn; lia). rewrite lookup_total_app_l by (rewrite length_replicate; cbn; lia). apply lookup_total_replicate_2. cbn. lia.
  - intros i Hi. change (brk_pages seg_usr) with 3 in Hi. assert (i = 0 ∨ i = 1 ∨ i = 2) as [->|[->| ->]] by lia; done.
Qed.

Lemma seg_calls_correct_witness : let p := call16 seg_base (Mmap 0 5000 MAP_ANONYMOUS 0xFFFFFFFF) seg_usr in
  p.1 = 13 * PAGE_SIZE ∧ seg_ok seg_base p.2 ∧ call_done seg_base (Mmap 0 5000 MAP_ANONYMOUS 0xFFFFFFFF) seg_usr p.1 p.2.
Proof.
  intros p. split; [vm_compute; reflexivity|].
  assert (0 < seg_base) as H1 by (unfold seg_base; lia). assert (seg_base + I16_USER_SEG_PAGES <= PAGE_ID_INVALID) as H2 by (vm_compute; congruence).
  assert (seg_base + I16_USER_SEG_PAGES <= 2 ^ 20) as H3 by (vm_compute; congruence).
  assert (call_fits (Mmap 0 5000 MAP_ANONYMOUS 0xFFFFFFFF)) as H4 by (cbn; lia).
  pose proof (seg_calls_correct seg_base H1 H2 H3 eq_refl (Mmap 0 5000 MAP_ANONYMOUS 0xFFFFFFFF) seg_usr seg_usr_ok H4) as H.
  unfold p in *. destruct (call16 _ _ _) as [r s1]. exact H.
Defined.
