(* ===== verification/Tty.v ===== *)
(** * Tty: terminals and their line discipline (src/kernel/vfs/tty.c)

    [W] is the state of the devices behind the terminals; the functions a backend
    registers act on it.  Giving up the processor is [others], the step of the
    rest of the machine until the process runs again: interrupts that bring
    input, other processes, signals. *)

From S2P Require Import Prelude Config RunState PagePool PagePoolFacts Page Region PageFacts.
From S2P Require Import ProcState Sched SchedFacts Kmutex KmutexFacts Proc UserCopy Signal ModCore Pipe.

Definition TTY_MAX : nat := 2.
Definition TTY_SERIAL : nat := 0.
Definition TTY_DISPLAY : nat := 1.
Definition LINE_BUF_SIZE : nat := 128.

Definition ICRNL : Z := 0x100.
Definition IXON : Z := 0x400.
Definition OPOST : Z := 1.
Definition ONLCR : Z := 4.
Definition ISIG : Z := 1.
Definition ICANON : Z := 2.
Definition ECHO : Z := 8.
Definition CFLAG_DEFAULT : Z := 0xbf.
Definition LFLAG_DEFAULT : Z := 0x8a3b.
Definition NCCS : nat := 19.

Definition CTRL_C : Z := 3.
Definition CTRL_D : Z := 4.
Definition CTRL_U : Z := 0x15.
Definition ASCII_BS : Z := 8.
Definition ASCII_DEL : Z := 0x7f.
Definition BEL : Z := 7.
Definition LF : Z := 10.
Definition CR : Z := 13.
Definition SPACE : Z := 32.

Definition SIGINT : Z := 2.
Definition TTY_DEFAULT_ROWS : Z := 25.
Definition TTY_DEFAULT_COLS : Z := 80.
Definition POLLIN : Z := 1.
Definition POLLOUT : Z := 4.

Definition TCGETS : Z := 0x5401.
Definition TCSETS : Z := 0x5402.
Definition TCSETSW : Z := 0x5403.
Definition TCSETSF : Z := 0x5404.
Definition TIOCSCTTY : Z := 0x540e.
Definition TIOCGPGRP : Z := 0x540f.
Definition TIOCSPGRP : Z := 0x5410.
Definition TIOCGWINSZ : Z := 0x5413.
Definition TIOCSWINSZ : Z := 0x5414.
Definition TIOCGSID : Z := 0x5429.

Record termios := Termios { c_iflag : Z; c_oflag : Z; c_cflag : Z; c_lflag : Z; c_line : Z; c_cc : list Z }.
Record winsize := Winsize { ws_row : Z; ws_col : Z; ws_xpixel : Z; ws_ypixel : Z }.

Section Device.
Context {W : Type}.

(** [None] is the NULL pointer.  [putc] takes the character and whether it is to
    call back when there is space; it says whether the character was taken. *)
Record backend_t := Backend {
  be_putc : option (Z → bool → W → bool * W);
  be_flush : option (W → W);
  be_getc : option (W → Z * W);
  be_rx_avail : option (W → bool * W);
  be_get_cols : option (W → Z);
  be_get_rows : option (W → Z);
  be_set_winsize : option (Z → Z → W → W)
}.

Record tty_dev_t := TtyDev {
  t_be : backend_t;
  t_line_buf : list Z;
  t_line_pos : Z;
  t_line_ready : bool;
  t_termios : termios;
  t_fg_pgrp : Z;
  t_session : Z
}.

Definition no_backend : backend_t := Backend None None None None None None None.
(** The static initialiser of [tty_devs]. *)
Definition tty_dev_init : tty_dev_t :=
  TtyDev no_backend (replicate LINE_BUF_SIZE 0) 0 false
    (Termios (Z.lor ICRNL IXON) (Z.lor OPOST ONLCR) CFLAG_DEFAULT LFLAG_DEFAULT 0 (replicate NCCS 0)) 0 0.
#[global] Instance tty_dev_inhabited : Inhabited tty_dev_t := populate tty_dev_init.

Definition set_t_be (v : backend_t) (t : tty_dev_t) := TtyDev v (t_line_buf t) (t_line_pos t) (t_line_ready t) (t_termios t) (t_fg_pgrp t) (t_session t).
Definition set_line (buf : list Z) (pos : Z) (ready : bool) (t : tty_dev_t) := TtyDev (t_be t) buf pos ready (t_termios t) (t_fg_pgrp t) (t_session t).
Definition set_t_termios (v : termios) (t : tty_dev_t) := TtyDev (t_be t) (t_line_buf t) (t_line_pos t) (t_line_ready t) v (t_fg_pgrp t) (t_session t).
Definition set_t_fg_pgrp (v : Z) (t : tty_dev_t) := TtyDev (t_be t) (t_line_buf t) (t_line_pos t) (t_line_ready t) (t_termios t) v (t_session t).
Definition set_t_session (v : Z) (t : tty_dev_t) := TtyDev (t_be t) (t_line_buf t) (t_line_pos t) (t_line_ready t) (t_termios t) (t_fg_pgrp t) v.
Definition set_line_pos (pos : Z) (t : tty_dev_t) := set_line (t_line_buf t) pos (t_line_ready t) t.
Definition set_line_ready (b : bool) (t : tty_dev_t) := set_line (t_line_buf t) (t_line_pos t) b t.

Context {cfg : PageConfig} {ps : PageStore}.

Record tty_w := TtyW {
  tw_devs : list tty_dev_t;
  tw_console : Z;
  tw_k : kernel_t;
  tw_core : core;
  tw_io : W
}.

Definition dev (s : tty_w) (i : nat) : tty_dev_t := tw_devs s !!! i.
Definition upd_dev (i : nat) (f : tty_dev_t → tty_dev_t) (s : tty_w) : tty_w :=
  TtyW (alter f i (tw_devs s)) (tw_console s) (tw_k s) (tw_core s) (tw_io s).
Definition set_tw_k (k : kernel_t) (s : tty_w) : tty_w := TtyW (tw_devs s) (tw_console s) k (tw_core s) (tw_io s).
Definition set_tw_core (c : core) (s : tty_w) : tty_w := TtyW (tw_devs s) (tw_console s) (tw_k s) c (tw_io s).
Definition set_tw_io (w : W) (s : tty_w) : tty_w := TtyW (tw_devs s) (tw_console s) (tw_k s) (tw_core s) w.

Definition flag (f : termios → Z) (bit : Z) (i : nat) (s : tty_w) : bool := bset (f (t_termios (dev s i))) bit.

(** ** Backends and the console *)

Definition tty_set_backend (idx : nat) (be : backend_t) (s : tty_w) : tty_w :=
  if (TTY_MAX <=? idx)%nat then s else upd_dev idx (set_t_be be) s.
Definition tty_get_dev (idx : nat) : nat := if (TTY_MAX <=? idx)%nat then 0%nat else idx.
Definition tty_backend_ready (idx : nat) (s : tty_w) : bool :=
  if (TTY_MAX <=? idx)%nat then false else bool_decide (is_Some (be_putc (t_be (dev s idx)))).
Definition tty_set_console (idx : nat) (s : tty_w) : tty_w :=
  if (idx <? TTY_MAX)%nat then TtyW (tw_devs s) (Z.of_nat idx) (tw_k s) (tw_core s) (tw_io s) else s.
Definition tty_get_console_idx (s : tty_w) : Z := tw_console s.
Definition tty_get_console_dev (s : tty_w) : nat := tty_get_dev (Z.to_nat (tty_get_console_idx s)).

(** [t->out(c, notify)] and [t->in()]. *)
Definition putc (i : nat) (c : Z) (notify : bool) : run tty_w bool := λ s,
  match be_putc (t_be (dev s i)) with
  | Some f => let '(ok, w) := f c notify (tw_io s) in Some (ok, set_tw_io w s)
  | None => None
  end.
Definition getc (i : nat) : run tty_w Z := λ s,
  match be_getc (t_be (dev s i)) with
  | Some f => let '(c, w) := f (tw_io s) in Some (c, set_tw_io w s)
  | None => None
  end.

Definition tty_raw_getc (idx : nat) : run tty_w Z := λ s,
  if (TTY_MAX <=? idx)%nat then Some (-1, s)
  else match be_getc (t_be (dev s idx)) with None => Some (-1, s) | Some _ => getc idx s end.
Definition tty_raw_putc (idx : nat) (c : Z) (notify : bool) : run tty_w bool := λ s,
  if (TTY_MAX <=? idx)%nat then Some (false, s)
  else match be_putc (t_be (dev s idx)) with None => Some (false, s) | Some _ => putc idx c notify s end.

(** ** Page cursors *)

Definition tty_advance (page off delta : Z) : Z * Z := let pos := off + delta in (to_page_id (page + pos / PAGE_SIZE), pos mod PAGE_SIZE).

(** The length bounds the passes. *)
Fixpoint copy_to_pages (fuel : nat) (page off : Z) (src : list Z) (c : core) : core :=
  match fuel with
  | O => c
  | S fuel =>
      match src with
      | [] => c
      | _ =>
          let chunk := Z.to_nat (Z.min (u32 (PAGE_SIZE - off)) (Z.of_nat (length src))) in
          let '(page', off') := tty_advance page off (Z.of_nat chunk) in
          copy_to_pages fuel page' off' (drop chunk src) (core_write page off (take chunk src) c)
      end
  end.
Definition tty_copy_to_pages (page off : Z) (src : list Z) (c : core) : core := copy_to_pages (length src) page off src c.

(** ** Giving up the processor *)

Section Operations.
Context (cur : nat) (others : tty_w → option tty_w) (fuel : nat) (dev_addr tx_addr : nat → Z).

Definition sched_switch : run tty_w unit := λ s, s ← others s; Some ((), s).
Definition sched_sleep_current (channel : Z) : run tty_w unit :=
  change (λ s, set_tw_k (upd_proc cur (λ p, set_p_wait_channel channel (set_p_state PROC_BLOCKED p)) (tw_k s)) s);;
  sched_switch.

(** [current->sig_pending & ~current->sig_blocked] *)
Definition signalled : run tty_w bool := look (λ s, negb (deliverable (proc (tw_k s) cur) =? 0)).

(** ** Echo and signals *)

Definition dev_echo (i : nat) (c : Z) : run tty_w unit := loop fuel (ok ← putc i c false; mret (if (ok : bool) then Some () else None)).
Definition dev_echo_flush (i : nat) : run tty_w unit :=
  change (λ s, match be_flush (t_be (dev s i)) with Some f => set_tw_io (f (tw_io s)) s | None => s end).
Definition echoes (i : nat) : run tty_w bool := look (flag c_lflag ECHO i).

(** The processes the loop of [dev_send_signal] does not skip. *)
Definition signal_target (fg_pgrp : Z) (p : pcb_t) : bool :=
  proc_state_is_live (p_state p) && (if negb (fg_pgrp =? 0) then p_pgid p =? fg_pgrp else negb (p_pid p <=? 1)).
Definition asleep_now (p : pcb_t) : bool := bool_decide (p_state p = PROC_BLOCKED) || bool_decide (p_state p = PROC_SLEEPING).

Definition dev_send_signal (i : nat) (sig : Z) : run tty_w unit :=
  fg ← look (λ s, t_fg_pgrp (dev s i));
  woke ← look (λ s, existsb (λ p, signal_target fg p && asleep_now p) (proc_table (tw_k s)));
  change (λ s, set_tw_k (set_proc_table (map (λ p, if signal_target fg p then post_signal sig p else p) (proc_table (tw_k s))) (tw_k s)) s);;
  if (woke : bool) then sched_switch else mret ().

(** ** Writing *)

(** [while (!t->out(c, t->tx_wakeup)) ...]: the result with which the call
    returns early. *)
Definition put_wait (i : nat) (c : Z) (nonblock : bool) (pos : Z) : run tty_w (option Z) :=
  loop fuel (
    ok ← putc i c true;
    if (ok : bool) then mret (Some None)
    else if nonblock then mret (Some (Some (if 0 <? pos then pos else - EAGAIN)))
    else
      sig ← signalled;
      if (sig : bool) then mret (Some (Some (if 0 <? pos then pos else - EINTR)))
      else sched_sleep_current (tx_addr i);; mret None).

Fixpoint write_chars (i : nat) (onlcr nonblock : bool) (n : nat) (pos page off : Z) : run tty_w (option Z) :=
  match n with
  | O => mret None
  | S n =>
      c ← look (λ s, hd 0 (core_read page off 1 (tw_core s)));
      early ← (if onlcr && (c =? LF) then put_wait i CR nonblock pos else mret None);
      match early with
      | Some r => mret (Some r)
      | None =>
          early ← put_wait i c nonblock pos;
          match early with
          | Some r => mret (Some r)
          | None => let '(page, off) := tty_advance page off 1 in write_chars i onlcr nonblock n (pos + 1) page off
          end
      end
  end.

(** [priv] is [f->priv], [nonblock] [f->flags & O_NONBLOCK]. *)
Definition tty_write (priv : option nat) (nonblock : bool) (page off n : Z) : run tty_w Z :=
  match priv with
  | None => mret (- ENODEV)
  | Some i =>
      out ← look (λ s, be_putc (t_be (dev s i)));
      match out with
      | None => mret n
      | Some _ =>
          onlcr ← look (λ s, flag c_oflag OPOST i s && flag c_oflag ONLCR i s);
          early ← write_chars i onlcr nonblock (Z.to_nat n) 0 page off;
          match early with
          | Some r => mret r
          | None => dev_echo_flush i;; mret n
          end
      end
  end.

(** ** Reading lines *)

(** How the loop of [tty_read_canon] is left: with a line, or from the call. *)
Inductive canon_exit := Deliver | Leave (rc : Z).

Definition map_cr (i : nat) (c : Z) : run tty_w Z := look (λ s, if flag c_iflag ICRNL i s && (c =? CR) then LF else c).

(** Backspace, space, backspace. *)
Definition echo_erase (i : nat) : run tty_w unit := dev_echo i ASCII_BS;; dev_echo i SPACE;; dev_echo i ASCII_BS.

(** [while (t->line_pos > 0)] of ^U. *)
Fixpoint kill_line (n : nat) (i : nat) : run tty_w unit :=
  match n with
  | O => mret ()
  | S n =>
      change (upd_dev i (λ t, set_line_pos (t_line_pos t - 1) t));;
      e ← echoes i;
      (if (e : bool) then echo_erase i else mret ());;
      kill_line n i
  end.

Definition line_pos (i : nat) : run tty_w Z := look (λ s, t_line_pos (dev s i)).
Definition store_char (i : nat) (c : Z) : run tty_w unit :=
  change (upd_dev i (λ t, set_line (<[Z.to_nat (t_line_pos t) := u8 c]> (t_line_buf t)) (t_line_pos t + 1) (t_line_ready t) t)).

(** What the loop does with a character. *)
Definition canon_char (i : nat) (c : Z) : run tty_w (option canon_exit) :=
  c ← map_cr i c;
  isig ← look (flag c_lflag ISIG i);
  if isig && (c =? CTRL_C) then
    dev_send_signal i SIGINT;;
    e ← echoes i;
    (if (e : bool) then dev_echo i 94;; dev_echo i 67;; dev_echo i CR;; dev_echo i LF;; dev_echo_flush i else mret ());;
    change (upd_dev i (set_line_pos 0));;
    mret (Some (Leave (- EINTR)))
  else if (c =? ASCII_DEL) || (c =? ASCII_BS) then
    pos ← line_pos i;
    (if 0 <? pos then
       change (upd_dev i (λ t, set_line_pos (t_line_pos t - 1) t));;
       e ← echoes i;
       if (e : bool) then echo_erase i;; dev_echo_flush i else mret ()
     else mret ());;
    mret None
  else if c =? CTRL_U then
    pos ← line_pos i;
    kill_line (Z.to_nat pos) i;;
    dev_echo_flush i;;
    mret None
  else if c =? CTRL_D then
    pos ← line_pos i;
    if pos =? 0 then mret (Some (Leave 0))
    else change (upd_dev i (set_line_ready true));; mret (Some Deliver)
  else if c =? LF then
    pos ← line_pos i;
    (if pos <? Z.of_nat LINE_BUF_SIZE then store_char i c else mret ());;
    e ← echoes i;
    (if (e : bool) then dev_echo i CR;; dev_echo i LF;; dev_echo_flush i else mret ());;
    change (upd_dev i (set_line_ready true));;
    mret (Some Deliver)
  else
    pos ← line_pos i;
    (if pos <? Z.of_nat LINE_BUF_SIZE then
       store_char i c;;
       e ← echoes i;
       if (e : bool) then dev_echo i (u8 c);; dev_echo_flush i else mret ()
     else dev_echo i BEL;; dev_echo_flush i);;
    mret None.

(** A pass of the loop. *)
Definition canon_pass (i : nat) (nonblock : bool) : run tty_w (option canon_exit) :=
  ready ← look (λ s, t_line_ready (dev s i));
  if (ready : bool) then mret (Some Deliver)
  else
    c ← getc i;
    if c <? 0 then
      if nonblock then mret (Some (Leave (- EAGAIN)))
      else
        sig ← signalled;
        if (sig : bool) then mret (Some (Leave (- EINTR)))
        else sched_sleep_current (dev_addr i);; mret None
    else canon_char i c.

(** [for (i = 0; i < n; i++) line_buf[i] = line_buf[avail + i];] *)
Fixpoint shift_line (n i avail : nat) (buf : list Z) : list Z :=
  match n with
  | O => buf
  | S n => shift_line n (S i) avail (<[i := buf !!! (avail + i)%nat]> buf)
  end.

Definition deliver (i : nat) (page off n : Z) : run tty_w Z :=
  pos ← line_pos i;
  let avail := if n <? pos then n else pos in
  change (λ s, set_tw_core (tty_copy_to_pages page off (take (Z.to_nat avail) (t_line_buf (dev s i))) (tw_core s)) s);;
  change (upd_dev i (λ t,
    if avail <? t_line_pos t
    then set_line (shift_line (Z.to_nat (t_line_pos t - avail)) 0 (Z.to_nat avail) (t_line_buf t)) (t_line_pos t - avail) (t_line_ready t) t
    else set_line (t_line_buf t) 0 false t));;
  mret avail.

Definition tty_read_canon (i : nat) (nonblock : bool) (page off n : Z) : run tty_w Z :=
  e ← loop fuel (canon_pass i nonblock);
  match e with
  | Leave rc => mret rc
  | Deliver => deliver i page off n
  end.

(** ** Reading characters *)

Definition tty_read_raw (i : nat) (nonblock : bool) (page off : Z) : run tty_w Z :=
  r ← loop fuel (
    c ← getc i;
    if 0 <=? c then mret (Some (inr c))
    else if nonblock then mret (Some (inl (- EAGAIN)))
    else
      sig ← signalled;
      if (sig : bool) then mret (Some (inl (- EINTR)))
      else sched_sleep_current (dev_addr i);; mret None);
  match (r : Z + Z) with
  | inl rc => mret rc
  | inr c =>
      c ← map_cr i c;
      isig ← look (flag c_lflag ISIG i);
      if isig && (c =? CTRL_C) then dev_send_signal i SIGINT;; mret (- EINTR)
      else
        e ← echoes i;
        (if (e : bool) then
           onlcr ← look (λ s, flag c_oflag OPOST i s && flag c_oflag ONLCR i s);
           (if (c =? LF) && onlcr then dev_echo i CR else mret ());;
           dev_echo i (u8 c);;
           dev_echo_flush i
         else mret ());;
        change (λ s, set_tw_core (core_write page off [u8 c] (tw_core s)) s);;
        mret 1
  end.

Definition tty_read (priv : option nat) (nonblock : bool) (page off n : Z) : run tty_w Z :=
  match priv with
  | None => mret (- ENODEV)
  | Some i =>
      inp ← look (λ s, be_getc (t_be (dev s i)));
      match inp with
      | None =>
          if nonblock then mret (- EAGAIN)
          else loop fuel (
            sig ← signalled;
            if (sig : bool) then mret (Some (- EINTR)) else sched_sleep_current (dev_addr i);; mret None)
      | Some _ =>
          if n =? 0 then mret 0
          else
            canon ← look (flag c_lflag ICANON i);
            if (canon : bool) then tty_read_canon i nonblock page off n else tty_read_raw i nonblock page off
      end
  end.

Definition tty_close : Z := 0.

(** ** Control, polling and interrupts *)

(** The argument as each request sees it. *)
Record ioctl_arg := IoctlArg { arg_termios : termios; arg_winsize : winsize; arg_int : Z }.

Definition tty_ioctl (priv : option nat) (cmd : Z) (arg : ioctl_arg) (s : tty_w) : Z * ioctl_arg * tty_w :=
  match priv with
  | None => (- ENOTTY, arg, s)
  | Some i =>
      let t := dev s i in
      if cmd =? TCGETS then (0, IoctlArg (t_termios t) (arg_winsize arg) (arg_int arg), s)
      else if (cmd =? TCSETS) || (cmd =? TCSETSW) || (cmd =? TCSETSF) then (0, arg, upd_dev i (set_t_termios (arg_termios arg)) s)
      else if cmd =? TIOCGWINSZ then
        let cols := match be_get_cols (t_be t) with Some f => f (tw_io s) | None => TTY_DEFAULT_COLS end in
        let rows := match be_get_rows (t_be t) with Some f => f (tw_io s) | None => TTY_DEFAULT_ROWS end in
        (0, IoctlArg (arg_termios arg) (Winsize (u16 rows) (u16 cols) 0 0) (arg_int arg), s)
      else if cmd =? TIOCSWINSZ then
        (0, arg, match be_set_winsize (t_be t) with
                 | Some f => set_tw_io (f (ws_col (arg_winsize arg)) (ws_row (arg_winsize arg)) (tw_io s)) s
                 | None => s
                 end)
      else if cmd =? TIOCGPGRP then (0, IoctlArg (arg_termios arg) (arg_winsize arg) (t_fg_pgrp t), s)
      else if cmd =? TIOCSPGRP then (0, arg, upd_dev i (set_t_fg_pgrp (arg_int arg)) s)
      else if cmd =? TIOCSCTTY then
        let p := proc (tw_k s) cur in
        if negb (p_pid p =? p_sid p) then (- EPERM, arg, s)
        else (0, arg, upd_dev i (λ t, set_t_fg_pgrp (p_pgid p) (set_t_session (p_sid p) t)) s)
      else if cmd =? TIOCGSID then (0, IoctlArg (arg_termios arg) (arg_winsize arg) (t_session t), s)
      else (- ENOTTY, arg, s)
  end.

(** [t->in_avail && t->in_avail()] *)
Definition in_avail (i : nat) (s : tty_w) : bool * tty_w :=
  match be_rx_avail (t_be (dev s i)) with
  | Some f => let '(b, w) := f (tw_io s) in (b, set_tw_io w s)
  | None => (false, s)
  end.

Definition tty_poll (priv : option nat) (s : tty_w) : Z * tty_w :=
  match priv with
  | None => (POLLOUT, s)
  | Some i =>
      if t_line_ready (dev s i) then (Z.lor POLLOUT POLLIN, s)
      else let '(b, s) := in_avail i s in (if b then Z.lor POLLOUT POLLIN else POLLOUT, s)
  end.

Definition tty_rx_notify (idx : nat) (s : tty_w) : tty_w :=
  if (TTY_MAX <=? idx)%nat then s else set_tw_k (sched_wakeup (dev_addr idx) (tw_k s)) s.
(** [tx_ready_0] and [tx_ready_1] *)
Definition tx_ready (idx : nat) (s : tty_w) : tty_w := set_tw_k (sched_wakeup (tx_addr idx) (tw_k s)) s.

Fixpoint poll_input (n i : nat) (s : tty_w) : tty_w :=
  match n with
  | O => s
  | S n => let '(b, s) := in_avail i s in poll_input n (S i) (if b then tty_rx_notify i s else s)
  end.
Definition tty_poll_input (s : tty_w) : tty_w := poll_input TTY_MAX 0 s.

Definition tty_signal_intr (idx : nat) : run tty_w Z := λ s,
  if (TTY_MAX <=? idx)%nat then Some (0, s)
  else if negb (flag c_lflag ISIG idx s) then Some (0, s)
  else (
    e ← echoes idx;
    (if (e : bool) then
       out ← look (λ s, be_putc (t_be (dev s idx)));
       (match out with
        | Some _ => dev_echo idx 94;; dev_echo idx 67;; dev_echo idx CR;; dev_echo idx LF
        | None => mret ()
        end);;
       dev_echo_flush idx
     else mret ());;
    change (upd_dev idx (λ t, set_line (t_line_buf t) 0 false t));;
    dev_send_signal idx SIGINT;;
    mret 1) s.

Definition tty_set_fg_pgrp (idx : nat) (pgid : Z) (s : tty_w) : tty_w :=
  if (TTY_MAX <=? idx)%nat then s else upd_dev idx (set_t_fg_pgrp (s32 pgid)) s.
End Operations.
End Device.
