(* ===== verification/TtyFacts.v ===== *)
(** * TtyFacts: the line editor (src/kernel/vfs/tty.c)

    What the reader of a terminal gets is what a line editor makes of the
    characters typed, however the characters arrive: in which portions, before the
    call or while it sleeps, with the transmitter busy or not.  A writer's
    characters reach the line in order, each newline behind a carriage return. *)

From S2P Require Import Prelude Config RunState PagePool PagePoolFacts Page Region PageFacts.
From S2P Require Import ProcState Sched SchedFacts Kmutex KmutexFacts Proc UserCopy Signal ModCore Pipe Tty.

(** ** The line editor *)

Inductive edit_t := Typing (line out : list Z) | Line (line out : list Z) | Eof | Interrupt (out : list Z).

Section Editor.
Context (icrnl isig echo : bool).

Definition shown (o : list Z) : list Z := if echo then o else [].
Definition rubout : list Z := [ASCII_BS; SPACE; ASCII_BS].

Definition edit_char (line : list Z) (c : Z) : edit_t :=
  let c := if icrnl && (c =? CR) then LF else c in
  if isig && (c =? CTRL_C) then Interrupt (shown [94; 67; CR; LF])
  else if (c =? ASCII_DEL) || (c =? ASCII_BS) then
    match line with [] => Typing [] [] | _ => Typing (removelast line) (shown rubout) end
  else if c =? CTRL_U then Typing [] (shown (concat (replicate (length line) rubout)))
  else if c =? CTRL_D then match line with [] => Eof | _ => Line line [] end
  else if c =? LF then Line (if (length line <? LINE_BUF_SIZE)%nat then line ++ [LF] else line) (shown [CR; LF])
  else if (length line <? LINE_BUF_SIZE)%nat then Typing (line ++ [c]) (shown [c])
  else Typing line [BEL].

(** The first line of the input [cs], begun with [line]: how it ends, what is
    shown, and the input behind it. *)
Fixpoint edit (line : list Z) (cs : list Z) : option (edit_t * list Z * list Z) :=
  match cs with
  | [] => None
  | c :: cs =>
      match edit_char line c with
      | Typing line o => '(r, o', rest) ← edit line cs; Some (r, o ++ o', rest)
      | Line l o => Some (Line l [], o, cs)
      | Eof => Some (Eof, [], cs)
      | Interrupt o => Some (Interrupt [], o, cs)
      end
  end.
End Editor.

(** ** Devices *)

(** What a device has to say of itself: characters received and not read, the
    portions still to arrive, what it has sent, and how long it can stay full. *)
Class Wire (W : Type) := {
  input : W → list Z;
  coming : W → list (list Z);
  sent : W → list Z;
  busy : W → nat
}.

Definition stream `{Wire W} (w : W) : list Z := input w ++ concat (coming w).

(** A backend with such a device behind it. *)
Class WireOk {W} {wire : Wire W} (b : backend_t (W := W)) (p : Z → bool → W → bool * W) (g : W → Z * W) (limit : nat) := {
  wire_putc : be_putc b = Some p;
  wire_getc : be_getc b = Some g;
  wire_put c nt w : input (p c nt w).2 = input w ∧ coming (p c nt w).2 = coming w ∧
    if (p c nt w).1 then sent (p c nt w).2 = sent w ++ [c] else sent (p c nt w).2 = sent w ∧ (busy (p c nt w).2 < busy w)%nat;
  wire_busy w : (busy w < limit)%nat;
  wire_get w : coming (g w).2 = coming w ∧ sent (g w).2 = sent w ∧
    match input w with
    | [] => (g w).1 < 0 ∧ input (g w).2 = []
    | c :: cs => (g w).1 = c ∧ input (g w).2 = cs
    end;
  wire_bytes w : Forall (λ c, 0 <= c < 256) (input w);
  wire_flush f w : be_flush b = Some f → input (f w) = input w ∧ coming (f w) = coming w ∧ sent (f w) = sent w
}.

Section Terminal.
Context {cfg : PageConfig} {W : Type} {wire : Wire W} {ps : PageStore} (b : backend_t (W := W)) (p : Z → bool → W → bool * W) (g : W → Z * W) (limit : nat).
Context {wok : WireOk b p g limit}.
Context (cur : nat) (others : tty_w (W := W) → option (tty_w (W := W))) (fuel : nat) (dev_addr tx_addr : nat → Z) (i : nat) (D : list (tty_dev_t (W := W))) (T : termios).
Context (Hi : (i < length D)%nat) (Hfuel : (limit <= fuel)%nat).

(** The state with terminal [i] as [t] and the device as described. *)
Definition st (t : tty_dev_t) (con : Z) (k : kernel_t) (c : core) (ins : list Z) (com : list (list Z)) (out : list Z) (s : tty_w (W := W)) : Prop :=
  ∃ w, s = TtyW (<[i := t]> D) con k c w ∧ input w = ins ∧ coming w = com ∧ sent w = out.

(** Terminal [i] has the line so far in its buffer. *)
Record holds (t : tty_dev_t (W := W)) (line : list Z) (ready : bool) : Prop := {
  ho_be : t_be t = b;
  ho_termios : t_termios t = T;
  ho_ready : t_line_ready t = ready;
  ho_pos : t_line_pos t = Z.of_nat (length line);
  ho_buf : length (t_line_buf t) = LINE_BUF_SIZE;
  ho_line : take (length line) (t_line_buf t) = line;
  ho_max : (length line <= LINE_BUF_SIZE)%nat
}.

Lemma st_dev t con k c ins com out s : st t con k c ins com out s → dev s i = t.
Proof. intros (w & -> & _). unfold dev. cbn. by apply list_lookup_total_insert_eq. Qed.

Lemma st_upd t con k c ins com out s f : st t con k c ins com out s → st (f t) con k c ins com out (upd_dev i f s).
Proof.
  intros (w & -> & H). exists w. split; [|done]. unfold upd_dev. cbn. f_equal. apply list_eq. intros j. destruct (decide (j = i)) as [->|Hj].
  - by rewrite list_lookup_alter_eq, !list_lookup_insert_eq.
  - by rewrite list_lookup_alter_ne, !list_lookup_insert_ne.
Qed.

Lemma putc_st t con k c ins com out s x nt line ready : st t con k c ins com out s → holds t line ready →
  ends (putc i x nt) (λ ok s', if ok then st t con k c ins com (out ++ [x]) s' else st t con k c ins com out s' ∧ (busy (tw_io s') < busy (tw_io s))%nat) s.
Proof.
  intros Hst Ht. unfold putc, ends. rewrite (st_dev _ _ _ _ _ _ _ _ Hst), (ho_be _ _ _ Ht), wire_putc. destruct Hst as (w & -> & Hin & Hco & Hse). cbn.
  pose proof (wire_put x nt w) as Hp. destruct (p x nt w) as [ok w']. cbn in Hp. destruct Hp as (H1 & H2 & H3). destruct ok.
  - exists w'. by rewrite H1, H2, H3, Hse.
  - destruct H3 as [H3 H4]. split; [|done]. exists w'. by rewrite H1, H2, H3.
Qed.

Lemma dev_echo_st t con k c ins com out s x line ready : st t con k c ins com out s → holds t line ready →
  ends (dev_echo fuel i x) (λ _, st t con k c ins com (out ++ [x])) s.
Proof.
  intros Hst Ht. unfold dev_echo. apply (ends_loop (st t con k c ins com out) (λ s, busy (tw_io s))); [done|pose proof (wire_busy (tw_io s)); lia|].
  clear s Hst. intros s Hst. eapply ends_seq; [by eapply putc_st|]. intros [] s' H; apply ends_ret; done.
Qed.

Lemma dev_echo_flush_st t con k c ins com out s line ready : st t con k c ins com out s → holds t line ready →
  ends (dev_echo_flush i) (λ _, st t con k c ins com out) s.
Proof.
  intros Hst Ht. unfold dev_echo_flush. apply ends_change. rewrite (st_dev _ _ _ _ _ _ _ _ Hst), (ho_be _ _ _ Ht).
  destruct (be_flush b) as [f|] eqn:E; [|done]. destruct Hst as (w & -> & Hin & Hco & Hse). exists (f w). cbn. destruct (wire_flush f w E) as (-> & -> & ->). done.
Qed.

Lemma echoes_st t con k c ins com out s line ready : st t con k c ins com out s → holds t line ready → echoes i s = Some (bset (c_lflag T) ECHO, s).
Proof. intros Hst Ht. unfold echoes, look, flag. by rewrite (st_dev _ _ _ _ _ _ _ _ Hst), (ho_termios _ _ _ Ht). Qed.

(** Steps that only look or only change the state. *)
Lemma ends_read {A B} (f : tty_w (W := W) → A) (m : A → run _ B) Q s : ends (m (f s)) Q s → ends (look f ≫= m) Q s.
Proof. done. Qed.
Lemma ends_set {B} (f : tty_w (W := W) → tty_w) (m : run _ B) Q s : ends m Q (f s) → ends (change f;; m) Q s.
Proof. done. Qed.
Lemma ends_echoes {B} (m : bool → run _ B) Q t con k c ins com out s line ready : st t con k c ins com out s → holds t line ready →
  ends (m (bset (c_lflag T) ECHO)) Q s → ends (echoes i ≫= m) Q s.
Proof. intros Hst Ht H. apply ends_bind. unfold ends. by rewrite (echoes_st _ _ _ _ _ _ _ _ _ _ Hst Ht). Qed.

(** ** The line in the buffer *)

Lemma holds_line t line ready r' : holds t line ready → holds (set_line_ready r' t) line r'.
Proof. intros [? ? ? ? ? ? ?]. by split. Qed.

Lemma holds_clear t line ready : holds t line ready → holds (set_line_pos 0 t) [] ready.
Proof. intros [? ? ? ? ? ? ?]. split; try done. cbn. lia. Qed.

Lemma holds_drop t line ready : holds t line ready → line ≠ [] → holds (set_line_pos (t_line_pos t - 1) t) (removelast line) ready.
Proof.
  intros [A B C P E F G] Hne. assert (0 < length line)%nat by (destruct line; [done|cbn; lia]).
  assert (length (removelast line) = length line - 1)%nat as El by (rewrite removelast_firstn_len, length_take; lia).
  split; try done; cbn; [rewrite P, El; lia|rewrite El|lia].
  rewrite removelast_firstn_len. transitivity (take (pred (length line)) (take (length line) (t_line_buf t))); [rewrite take_take; f_equal; lia|by rewrite F].
Qed.

Lemma holds_store t line ready x : holds t line ready → (length line < LINE_BUF_SIZE)%nat → 0 <= x < 256 →
  holds (set_line (<[Z.to_nat (t_line_pos t) := u8 x]> (t_line_buf t)) (t_line_pos t + 1) (t_line_ready t) t) (line ++ [x]) ready.
Proof.
  intros [A B C P E F G] Hl Hx. split; try done; cbn; rewrite ?length_insert, ?length_app; cbn [length]; try done; [lia| |lia].
  rewrite P, Nat2Z.id, (uN_small 8 x) by lia. replace (length line + 1)%nat with (S (length line)) by lia.
  rewrite (take_S_r _ _ x) by (apply list_lookup_insert_eq; lia). by rewrite take_insert_ge, F by lia.
Qed.

Lemma holds_empty t line ready : holds t line ready → (t_line_pos t =? 0) = match line with [] => true | _ => false end.
Proof. intros H. rewrite (ho_pos _ _ _ H). by destruct line. Qed.

(** ** A character *)

Definition awake (k : kernel_t) : Prop := table_ok k ∧ (cur < PROC_MAX)%nat ∧ p_state (proc k cur) ≠ PROC_BLOCKED.

(** The process is resumed: the terminals, the pages and what has been sent are as
    they were, and no character of the input is lost. *)
Definition resumed (s s' : tty_w (W := W)) : Prop :=
  tw_devs s' = tw_devs s ∧ tw_console s' = tw_console s ∧ tw_core s' = tw_core s ∧ sent (tw_io s') = sent (tw_io s) ∧
  stream (tw_io s') = stream (tw_io s) ∧ awake (tw_k s').

(** What is assumed of the rest of the machine.  No other process uses the terminal.
    A process that can run is resumed.  One that sleeps for input is resumed with
    the next portion, and by no signal.  One that sleeps for space is resumed, by a
    wake-up or a signal: the code does not secure this, since the device can have
    space between the refusal of a character and the sleep, and the wake-up is then
    lost. *)
Class Crowd := {
  crowd_run s : awake (tw_k s) → ∃ s', others s = Some s' ∧ resumed s s';
  crowd_rx s : table_ok (tw_k s) → p_state (proc (tw_k s) cur) = PROC_BLOCKED → p_wait_channel (proc (tw_k s) cur) = dev_addr i → coming (tw_io s) ≠ [] →
    ∃ s', others s = Some s' ∧ resumed s s' ∧ deliverable (proc (tw_k s') cur) = deliverable (proc (tw_k s) cur) ∧
      length (coming (tw_io s)) = S (length (coming (tw_io s')));
  crowd_tx s : table_ok (tw_k s) → p_state (proc (tw_k s) cur) = PROC_BLOCKED → p_wait_channel (proc (tw_k s) cur) = tx_addr i →
    ∃ s', others s = Some s' ∧ resumed s s' ∧ (busy (tw_io s') <= busy (tw_io s))%nat
}.

Definition icrnl : bool := bset (c_iflag T) ICRNL.
Definition isig : bool := bset (c_lflag T) ISIG.
Definition echo : bool := bset (c_lflag T) ECHO.

(** Where a character leaves the terminal. *)
Definition edited con k c ins com out (line : list Z) (r : edit_t) (res : option canon_exit) (s' : tty_w (W := W)) : Prop :=
  match r with
  | Typing l o => res = None ∧ ∃ t, st t con k c ins com (out ++ o) s' ∧ holds t l false
  | Line l o => res = Some Deliver ∧ ∃ t, st t con k c ins com (out ++ o) s' ∧ holds t l true
  | Eof => res = Some (Leave 0) ∧ line = [] ∧ ∃ t, st t con k c ins com out s' ∧ holds t [] false
  | Interrupt o => res = Some (Leave (- EINTR)) ∧ ∃ t k' ins' com', st t con k' c ins' com' (out ++ o) s' ∧ holds t [] false ∧ ins' ++ concat com' = ins ++ concat com
  end.

Ltac echo_next H := eapply ends_seq; [eapply dev_echo_st; [exact H|eassumption]|clear H; intros [] ? H].

Lemma echo_erase_st t con k c ins com out s line ready : st t con k c ins com out s → holds t line ready →
  ends (echo_erase fuel i) (λ _, st t con k c ins com (out ++ rubout)) s.
Proof.
  intros Hst Ht. unfold echo_erase. echo_next Hst. echo_next Hst. eapply ends_mono; [by eapply dev_echo_st|]. intros u s2 H2. by rewrite <-!app_assoc in H2.
Qed.

Lemma kill_line_st line : ∀ t con k c ins com out s, st t con k c ins com out s → holds t line false →
  ends (kill_line fuel (length line) i) (λ _ s', ∃ t, st t con k c ins com (out ++ shown echo (concat (replicate (length line) rubout))) s' ∧ holds t [] false) s.
Proof.
  induction line as [|x line IH] using rev_ind; intros t con k c ins com out s Hst Ht.
  { apply ends_ret. exists t. split; [|done]. unfold shown. destruct echo; by rewrite app_nil_r. }
  rewrite length_app, Nat.add_comm. cbn [length Nat.add kill_line]. apply ends_set. pose proof (holds_drop _ _ _ Ht ltac:(by destruct line)) as Ht'. rewrite removelast_last in Ht'.
  eapply st_upd in Hst. eapply ends_echoes; [exact Hst|exact Ht'|]. fold echo. cbn [replicate concat].
  assert (∀ s', st (set_line_pos (t_line_pos t - 1) t) con k c ins com (out ++ shown echo rubout) s' → ends (kill_line fuel (length line) i)
    (λ _ s', ∃ t, st t con k c ins com (out ++ shown echo (rubout ++ concat (replicate (length line) rubout))) s' ∧ holds t [] false) s') as Hgo.
  { intros s' Hs'. eapply ends_mono; [by apply IH with (1 := Hs')|]. intros _ s2 (t2 & H2 & Ht2). exists t2. split; [|done]. revert H2. unfold shown. destruct echo; by rewrite <-app_assoc. }
  unfold shown at 1 in Hgo. destruct echo.
  - eapply ends_seq; [by eapply echo_erase_st|]. intros [] s' Hs'. by apply Hgo.
  - apply ends_bind, ends_ret, Hgo. by rewrite app_nil_r.
Qed.

(** ** The environment *)

Lemma flag_st t con k c ins com out s line ready f bit : st t con k c ins com out s → holds t line ready → flag f bit i s = bset (f T) bit.
Proof. intros Hst Ht. unfold flag. by rewrite (st_dev _ _ _ _ _ _ _ _ Hst), (ho_termios _ _ _ Ht). Qed.

Lemma ends_line_pos {B} (m : Z → run _ B) Q t con k c ins com out s line ready : st t con k c ins com out s → holds t line ready →
  ends (m (Z.of_nat (length line))) Q s → ends (line_pos i ≫= m) Q s.
Proof. intros Hst Ht H. apply ends_read. by rewrite (st_dev _ _ _ _ _ _ _ _ Hst), (ho_pos _ _ _ Ht). Qed.

Lemma st_resumed t con k c ins com out s s' : st t con k c ins com out s → resumed s s' →
  ∃ ins' com', st t con (tw_k s') c ins' com' out s' ∧ ins' ++ concat com' = ins ++ concat com ∧ ins' = input (tw_io s') ∧ com' = coming (tw_io s').
Proof.
  intros (w & -> & Hin & Hco & Hse) (A & B & C & E & F & _). cbn in *. exists (input (tw_io s')), (coming (tw_io s')). split_and!; [|by rewrite <-Hin, <-Hco|done..].
  exists (tw_io s'). split_and!; [|done|done|by rewrite E]. destruct s'. cbn in *. by subst.
Qed.

Lemma st_k t con k k' c ins com out s : st t con k c ins com out s → st t con k' c ins com out (set_tw_k k' s).
Proof. intros (w & -> & H). by exists w. Qed.

Lemma dev_send_signal_st `{Crowd} t con k c ins com out s sig : st t con k c ins com out s → awake k →
  ends (dev_send_signal others i sig) (λ _ s', ∃ k' ins' com', st t con k' c ins' com' out s' ∧ ins' ++ concat com' = ins ++ concat com) s.
Proof.
  intros Hst (Hk & Hc & Hb). unfold dev_send_signal. do 2 apply ends_read. apply ends_set.
  assert (tw_k s = k) as -> by (by destruct Hst as (w & -> & _)). set (k1 := set_proc_table _ k).
  assert (awake k1) as Hk1.
  { split_and!; [unfold table_ok, k1; cbn; by rewrite length_map|done|]. unfold k1. rewrite proc_map by done. destruct (signal_target _ _); [|done].
    unfold post_signal. cbn. by repeat case_bool_decide. }
  apply (st_k _ _ _ k1) in Hst. destruct (existsb _ _).
  - unfold sched_switch, ends. destruct (crowd_run (set_tw_k k1 s) Hk1) as (s' & E & Hr). rewrite E. cbn.
    destruct (st_resumed _ _ _ _ _ _ _ _ _ Hst Hr) as (ins' & com' & H' & Es & _). eauto.
  - apply ends_ret. eauto.
Qed.

Lemma edited_typing con k c ins com out line l o s t : st t con k c ins com (out ++ o) s → holds t l false → edited con k c ins com out line (Typing l o) None s.
Proof. intros H1 H2. split; [done|]. by exists t. Qed.

(** The last echoes of a branch, with the flush. *)
Lemma shown_end t con k c ins com out s l o (e : bool) (m : run (tty_w (W := W)) unit) : st t con k c ins com out s → holds t l false → e = echo →
  (∀ s', st t con k c ins com out s' → ends m (λ _, st t con k c ins com (out ++ o)) s') →
  ends (if e then m else mret ()) (λ _, st t con k c ins com (out ++ shown echo o)) s.
Proof. intros Hst Ht -> Hm. unfold shown. destruct echo; [by apply Hm|]. apply ends_ret. by rewrite app_nil_r. Qed.

Lemma canon_char_st `{Crowd} t con k c ins com out s line x : st t con k c ins com out s → holds t line false → awake k → 0 <= x < 256 →
  ends (canon_char others fuel i x) (edited con k c ins com out line (edit_char icrnl isig echo line x)) s.
Proof.
  intros Hst Ht Hk Hx. unfold canon_char, edit_char, map_cr. apply ends_read. rewrite (flag_st _ _ _ _ _ _ _ _ _ _ _ _ Hst Ht). fold icrnl.
  set (x' := if icrnl && (x =? CR) then LF else x). assert (0 <= x' < 256) as Hx' by (unfold x', LF; destruct (_ && _); lia). clearbody x'. clear x Hx.
  apply ends_read. rewrite (flag_st _ _ _ _ _ _ _ _ _ _ _ _ Hst Ht). fold isig.
  destruct (isig && (x' =? CTRL_C)).
  { eapply ends_seq; [by eapply dev_send_signal_st|]. intros [] s1 (k1 & ins1 & com1 & Hs1 & Estr). eapply ends_echoes; [exact Hs1|exact Ht|]. fold echo.
    eapply ends_seq; [eapply shown_end with (o := [94; 67; CR; LF]); [exact Hs1|exact Ht|done|]|].
    - intros s2 Hs2. echo_next Hs2. echo_next Hs2. echo_next Hs2. echo_next Hs2. eapply ends_mono; [by eapply dev_echo_flush_st|]. intros u s4 H4. by rewrite <-!app_assoc in H4.
    - intros [] s2 Hs2. apply ends_set, ends_ret. split; [done|]. exists (set_line_pos 0 t), k1, ins1, com1. split_and!; [by apply st_upd|by eapply holds_clear|done]. }
  destruct ((x' =? ASCII_DEL) || (x' =? ASCII_BS)).
  { eapply ends_line_pos; [exact Hst|exact Ht|]. destruct line as [|y line].
    - apply ends_bind, ends_ret, ends_ret. eapply edited_typing; [|exact Ht]. by rewrite app_nil_r.
    - rewrite (proj2 (Z.ltb_lt _ _)) by (cbn; lia). apply ends_bind, ends_set. eapply st_upd in Hst. pose proof (holds_drop _ _ _ Ht ltac:(done)) as Ht'.
      eapply ends_echoes; [exact Hst|exact Ht'|]. fold echo. eapply ends_mono; [eapply shown_end with (o := rubout); [exact Hst|exact Ht'|done|]|].
      + intros s2 Hs2. eapply ends_seq; [by eapply echo_erase_st|]. intros [] s3 Hs3. by eapply dev_echo_flush_st.
      + intros u s2 Hs2. apply ends_ret. (cbn beta in *; by eapply edited_typing). }
  destruct (x' =? CTRL_U).
  { eapply ends_line_pos; [exact Hst|exact Ht|]. rewrite Nat2Z.id. eapply ends_seq; [by eapply kill_line_st|]. intros [] s1 (t1 & Hs1 & Ht1).
    eapply ends_seq; [by eapply dev_echo_flush_st|]. intros [] s2 Hs2. apply ends_ret. (cbn beta in *; by eapply edited_typing). }
  destruct (x' =? CTRL_D).
  { eapply ends_line_pos; [exact Hst|exact Ht|]. destruct line as [|y line].
    - apply ends_ret. split_and!; [done|done|]. by exists t.
    - rewrite (proj2 (Z.eqb_neq _ _)) by (cbn; lia). apply ends_set, ends_ret. split; [done|]. eexists. rewrite app_nil_r. split; [by apply st_upd|by eapply holds_line]. }
  assert ((Z.of_nat (length line) <? Z.of_nat LINE_BUF_SIZE) = (length line <? LINE_BUF_SIZE)%nat) as El.
  { apply eq_true_iff_eq. rewrite Z.ltb_lt, Nat.ltb_lt. lia. }
  destruct (x' =? LF) eqn:Elf.
  { apply Z.eqb_eq in Elf as ->. eapply ends_line_pos; [exact Hst|exact Ht|]. rewrite El.
    assert (∃ t', ends (if (length line <? LINE_BUF_SIZE)%nat then store_char i LF else mret ()) (λ _, st t' con k c ins com out) s ∧
      holds t' (if (length line <? LINE_BUF_SIZE)%nat then line ++ [LF] else line) false) as (t' & Hstore & Ht').
    { destruct (length line <? LINE_BUF_SIZE)%nat eqn:E; [apply Nat.ltb_lt in E|].
      - eexists. split; [apply ends_change; by eapply st_upd|by eapply holds_store].
      - exists t. split; [by apply ends_ret|done]. }
    eapply ends_seq; [exact Hstore|]. intros [] s1 Hs1. eapply ends_echoes; [exact Hs1|exact Ht'|]. fold echo.
    eapply ends_seq; [eapply shown_end with (o := [CR; LF]); [exact Hs1|exact Ht'|done|]|].
    - intros s2 Hs2. echo_next Hs2. echo_next Hs2. eapply ends_mono; [by eapply dev_echo_flush_st|]. intros u s4 H4. by rewrite <-!app_assoc in H4.
    - intros [] s2 Hs2. apply ends_set, ends_ret. split; [done|]. eexists. split; [by apply st_upd|by eapply holds_line]. }
  eapply ends_line_pos; [exact Hst|exact Ht|]. rewrite El. destruct (length line <? LINE_BUF_SIZE)%nat eqn:E; [apply Nat.ltb_lt in E|].
  - unfold store_char. pose proof (holds_store _ _ _ x' Ht E Hx') as Ht'. rewrite (uN_small 8 x') in * by lia. apply ends_bind, ends_set. eapply st_upd in Hst. eapply ends_echoes; [exact Hst|exact Ht'|]. fold echo.
    eapply ends_mono; [eapply shown_end with (o := [x']); [exact Hst|exact Ht'|done|]|].
    + intros s2 Hs2. echo_next Hs2. by eapply dev_echo_flush_st.
    + intros u s2 Hs2. apply ends_ret. (cbn beta in *; by eapply edited_typing).
  - apply ends_bind. echo_next Hst. eapply ends_mono; [by eapply dev_echo_flush_st|]. intros u s2 H2. apply ends_ret. (cbn beta in *; by eapply edited_typing).
Qed.

(** ** A line *)

Lemma st_stream t con k c ins com out s : st t con k c ins com out s → tw_k s = k ∧ stream (tw_io s) = ins ++ concat com ∧ coming (tw_io s) = com ∧ input (tw_io s) = ins.
Proof. intros (w & -> & <- & <- & _). done. Qed.

Lemma getc_st t con k c ins com out s line ready : st t con k c ins com out s → holds t line ready →
  ends (getc i) (λ x s', match ins with [] => x < 0 ∧ st t con k c ins com out s' | y :: cs => x = y ∧ 0 <= x < 256 ∧ st t con k c cs com out s' end) s.
Proof.
  intros Hst Ht. unfold getc, ends. rewrite (st_dev _ _ _ _ _ _ _ _ Hst), (ho_be _ _ _ Ht), (wire_getc (p := p) (g := g) (limit := limit)).
  destruct Hst as (w & -> & Hin & Hco & Hse). cbn. pose proof (wire_get w) as Hg. pose proof (wire_bytes w) as Hb. destruct (g w) as [x w']. cbn in *.
  destruct Hg as (H1 & H2 & H3). rewrite Hin in *. destruct ins as [|y cs].
  - destruct H3 as [H3 H4]. split; [done|]. exists w'. by rewrite H1, H2, H4.
  - destruct H3 as [-> H4]. split_and!; [done|apply Forall_cons in Hb; lia|apply Forall_cons in Hb; lia|]. exists w'. by rewrite H1, H2, H4.
Qed.

(** How the loop is left when the editor says [r] after showing [o], with [rest]
    not read. *)
Definition left_with con c out (r : edit_t) o rest (e : canon_exit) (s' : tty_w (W := W)) : Prop :=
  ∃ t k ins com, st t con k c ins com (out ++ o) s' ∧ ins ++ concat com = rest ∧
  match r with
  | Line l _ => e = Deliver ∧ holds t l true
  | Eof => e = Leave 0 ∧ holds t [] false
  | Interrupt _ => e = Leave (- EINTR) ∧ holds t [] false
  | Typing _ _ => False
  end.

(** Before each pass: the editor goes on with the line so far. *)
Definition typing con c out (r : edit_t) o rest (s : tty_w (W := W)) : Prop :=
  ∃ t k ins com line out' o', st t con k c ins com out' s ∧ holds t line false ∧ awake k ∧ deliverable (proc k cur) = 0 ∧
    edit icrnl isig echo line (ins ++ concat com) = Some (r, o', rest) ∧ out' ++ o' = out ++ o.

Lemma canon_sleep `{Crowd} t con k c com out s line x : st t con k c [] com out s → awake k → deliverable (proc k cur) = 0 →
  edit icrnl isig echo line (concat com) = Some x →
  ends (sched_sleep_current cur others (dev_addr i)) (λ _ s', ∃ k' ins' com', st t con k' c ins' com' out s' ∧ awake k' ∧ deliverable (proc k' cur) = 0 ∧
    ins' ++ concat com' = concat com ∧ length com = S (length com')) s.
Proof.
  intros Hst (Hk & Hc & Hb) Hd He. unfold sched_sleep_current. apply ends_set. destruct (st_stream _ _ _ _ _ _ _ _ Hst) as (Ek & _ & Eco & _). rewrite Ek.
  set (k1 := upd_proc cur _ k). apply (st_k _ _ _ k1) in Hst. destruct (st_stream _ _ _ _ _ _ _ _ Hst) as (Ek1 & Est1 & Eco1 & _).
  assert (proc k1 cur = set_p_wait_channel (dev_addr i) (set_p_state PROC_BLOCKED (proc k cur))) as Ep by (by apply proc_upd_eq).
  destruct (crowd_rx (set_tw_k k1 s)) as (s' & E & Hr & Hdel & Hlen).
  - by apply table_ok_upd.
  - cbn. by rewrite Ep.
  - cbn. by rewrite Ep.
  - intros E. rewrite Eco1 in E. by rewrite E in He.
  - unfold sched_switch, ends. cbn [mbind option_bind]. rewrite E. cbn. destruct (st_resumed _ _ _ _ _ _ _ _ _ Hst Hr) as (ins' & com' & H' & Es & Ei' & Ec').
    exists (tw_k s'), ins', com'. split_and!; [done|apply Hr| |done|].
    + rewrite Hdel. cbn. by rewrite Ep.
    + rewrite Ec'. by rewrite Eco1 in Hlen.
Qed.

Lemma canon_pass_st `{Crowd} con c out r o rest s : typing con c out r o rest s →
  ends (canon_pass cur others fuel dev_addr i false) (λ e s', match e with
    | Some e => left_with con c out r o rest e s'
    | None => typing con c out r o rest s' ∧ (length (stream (tw_io s')) + length (coming (tw_io s')) < length (stream (tw_io s)) + length (coming (tw_io s)))%nat
    end) s.
Proof.
  intros (t & k & ins & com & line & out' & o' & Hst & Ht & Hk & Hd & He & Ho). destruct (st_stream _ _ _ _ _ _ _ _ Hst) as (_ & Estr & Eco & _). rewrite Estr, Eco.
  unfold canon_pass. apply ends_read. rewrite (st_dev _ _ _ _ _ _ _ _ Hst), (ho_ready _ _ _ Ht).
  eapply ends_seq; [by eapply getc_st|]. intros x s1 H1. destruct ins as [|y cs].
  - destruct H1 as [Hx Hs1]. apply Z.ltb_lt in Hx as ->. apply ends_read. destruct (st_stream _ _ _ _ _ _ _ _ Hs1) as (-> & _). rewrite Hd. cbn [negb Z.eqb].
    eapply ends_seq; [by eapply canon_sleep|]. intros [] s2 (k2 & ins2 & com2 & Hs2 & Hk2 & Hd2 & Es2 & El2). apply ends_ret.
    destruct (st_stream _ _ _ _ _ _ _ _ Hs2) as (_ & -> & -> & _). split; [|rewrite Es2; cbn; lia].
    exists t, k2, ins2, com2, line, out', o'. by rewrite Es2.
  - destruct H1 as (-> & Hy & Hs1). rewrite (proj2 (Z.ltb_ge y 0)) by lia. cbn [app edit] in He.
    eapply ends_mono; [by eapply canon_char_st|]. intros e s2 Hed. destruct (edit_char icrnl isig echo line y) as [l oc|l oc| |oc]; cbn in Hed.
    + destruct Hed as (-> & t2 & Hs2 & Ht2). destruct (edit _ _ _ l _) as [[[r1 o1] rest1]|] eqn:E1; [|done]. cbn in He. injection He as <- <- <-.
      destruct (st_stream _ _ _ _ _ _ _ _ Hs2) as (_ & -> & -> & _). split; [|cbn; lia].
      exists t2, k, cs, com, l, (out' ++ oc), o1. split_and!; try done. by rewrite <-app_assoc.
    + destruct Hed as (-> & t2 & Hs2 & Ht2). injection He as <- <- <-. exists t2, k, cs, com. by rewrite <-Ho.
    + destruct Hed as (-> & -> & t2 & Hs2 & Ht2). injection He as <- <- <-. exists t2, k, cs, com. by rewrite <-Ho, app_nil_r.
    + destruct Hed as (-> & t2 & k2 & ins2 & com2 & Hs2 & Ht2 & E2). injection He as <- <- <-. exists t2, k2, ins2, com2. by rewrite <-Ho.
Qed.

Lemma canon_loop_st `{Crowd} con c out r o rest s : typing con c out r o rest s → (length (stream (tw_io s)) + length (coming (tw_io s)) < fuel)%nat →
  ends (loop fuel (canon_pass cur others fuel dev_addr i false)) (left_with con c out r o rest) s.
Proof.
  intros Hs Hf. apply (ends_loop (typing con c out r o rest) (λ s, length (stream (tw_io s)) + length (coming (tw_io s)))%nat); [done|done|].
  intros s1 H1. by apply canon_pass_st.
Qed.

(** ** Delivery *)

Lemma shift_line_spec n : ∀ j avail buf, (j + n + avail <= length buf)%nat → length (shift_line n j avail buf) = length buf ∧
  ∀ q, (q < length buf)%nat → shift_line n j avail buf !!! q = if decide (j <= q < j + n)%nat then buf !!! (avail + q)%nat else buf !!! q.
Proof.
  induction n as [|n IH]; intros j avail buf Hl; cbn [shift_line].
  { split; [done|]. intros q _. by rewrite decide_False by lia. }
  destruct (IH (S j) avail (<[j := buf !!! (avail + j)%nat]> buf)) as [A B]; [rewrite length_insert; lia|]. rewrite length_insert in A, B. split; [done|].
  intros q Hq. rewrite B by done. destruct (decide (q = j)) as [->|Hne].
  - rewrite decide_False by lia. by rewrite decide_True, list_lookup_total_insert_eq by lia.
  - rewrite (list_lookup_total_insert_ne _ j q) by done. destruct (decide (S j <= q < S j + n)%nat).
    + rewrite decide_True by lia. by rewrite list_lookup_total_insert_ne by lia.
    + by rewrite decide_False by lia.
Qed.

Lemma shift_line_take n avail buf : (n + avail <= length buf)%nat → length (shift_line n 0 avail buf) = length buf ∧ take n (shift_line n 0 avail buf) = drop avail (take (avail + n) buf).
Proof.
  intros Hl. destruct (shift_line_spec n 0 avail buf) as [A B]; [lia|]. split; [done|]. apply list_eq_same_length with (n := n); [rewrite length_drop, length_take; lia|rewrite length_take; lia|].
  intros q x y Hq Hx Hy. rewrite lookup_take in Hx. rewrite lookup_drop, lookup_take in Hy. case_decide; [|lia]. case_decide; [|lia].
  apply list_lookup_total_correct in Hx as <-. apply list_lookup_total_correct in Hy as <-. rewrite B by lia. rewrite decide_True by lia. done.
Qed.

Lemma deliver_st t con k c ins com out s l page off n : st t con k c ins com out s → holds t l true → 0 <= n →
  ends (deliver i page off n) (λ r s', r = Z.of_nat (min (Z.to_nat n) (length l)) ∧
    ∃ t', st t' con k (tty_copy_to_pages page off (take (Z.to_nat n) l) c) ins com out s' ∧ holds t' (drop (Z.to_nat n) l) (negb (bool_decide (length l <= Z.to_nat n)%nat))) s.
Proof.
  intros Hst Ht Hn. unfold deliver. eapply ends_line_pos; [exact Hst|exact Ht|]. set (avail := if n <? _ then _ else _).
  assert (avail = Z.of_nat (min (Z.to_nat n) (length l))) as Ea. { unfold avail. destruct (Z.ltb_spec n (Z.of_nat (length l))); lia. } clearbody avail.
  apply ends_set, ends_set, ends_ret. split; [done|]. pose proof Ht as [A B C P E F G].
  assert (take (Z.to_nat avail) (t_line_buf (dev s i)) = take (Z.to_nat n) l) as ->.
  { rewrite (st_dev _ _ _ _ _ _ _ _ Hst). rewrite Ea, Nat2Z.id.
    transitivity (take (Z.to_nat n) (take (length l) (t_line_buf t))); [by rewrite take_take|by rewrite F]. }
  assert (∀ c2, st t con k c2 ins com out (set_tw_core c2 s)) as Hc by (intros c2; destruct Hst as (w & -> & Hw); by exists w).
  assert (tw_core s = c) as -> by (by destruct Hst as (w & -> & _)). eexists. split; [apply st_upd, Hc|]. cbn.
  case_bool_decide as Hle; cbn [negb].
  - rewrite (proj2 (Z.ltb_ge _ _)) by lia. rewrite drop_ge by done. split; try done. cbn. lia.
  - rewrite (proj2 (Z.ltb_lt _ _)) by lia. rewrite P, Ea, Nat2Z.id, Nat.min_l by lia.
    replace (Z.to_nat (Z.of_nat (length l) - Z.of_nat (Z.to_nat n))) with (length l - Z.to_nat n)%nat by lia.
    destruct (shift_line_take (length l - Z.to_nat n) (Z.to_nat n) (t_line_buf t)) as [L1 L2]; [lia|].
    split; cbn; rewrite ?length_drop; [done|done|done|lia|by rewrite L1| |lia]. rewrite L2. f_equal. rewrite <-F at 2. f_equal. lia.
Qed.

(** ** Writing *)

(** The device while a writer may sleep: input may arrive, none is lost. *)
Definition writing t con c S out (s : tty_w (W := W)) : Prop :=
  ∃ k ins com, st t con k c ins com out s ∧ awake k ∧ ins ++ concat com = S.

(** Why a call stops at [q] bytes, and what it returns: a full transmitter with
    O_NONBLOCK, or a signal that is deliverable now. *)
Definition stops (nonblock : bool) (q rc : Z) (s : tty_w (W := W)) : Prop :=
  if nonblock then rc = (if 0 <? q then q else - EAGAIN)
  else deliverable (proc (tw_k s) cur) ≠ 0 ∧ rc = (if 0 <? q then q else - EINTR).

Lemma put_wait_st `{Crowd} t con c S out s line ready x nonblock pos : writing t con c S out s → holds t line ready →
  ends (put_wait cur others fuel tx_addr i x nonblock pos) (λ r s', match r with
    | None => writing t con c S (out ++ [x]) s'
    | Some rc => stops nonblock pos rc s' ∧ writing t con c S out s'
    end) s.
Proof.
  intros Hs Ht. unfold put_wait. apply (ends_loop (writing t con c S out) (λ s, busy (tw_io s))); [done|pose proof (wire_busy (tw_io s)); lia|].
  clear s Hs. intros s (k & ins & com & Hst & Hk & ES). eapply ends_seq; [by eapply putc_st|]. intros [] s1 Hs1.
  { apply ends_ret. exists k, ins, com. done. }
  destruct Hs1 as [Hs1 Hbusy]. destruct nonblock.
  { apply ends_ret. split; [done|]. exists k, ins, com. done. }
  apply ends_read. destruct (st_stream _ _ _ _ _ _ _ _ Hs1) as (Ek & _). destruct (Z.eqb_spec (deliverable (proc (tw_k s1) cur)) 0) as [_|Hd]; cbn [negb].
  2:{ apply ends_ret. split; [done|]. exists k, ins, com. done. }
  unfold sched_sleep_current. destruct Hk as (Hk & Hc & Hb). apply ends_bind, ends_set. rewrite Ek. set (k1 := upd_proc cur _ k). apply (st_k _ _ _ k1) in Hs1.
  assert (proc k1 cur = set_p_wait_channel (tx_addr i) (set_p_state PROC_BLOCKED (proc k cur))) as Ep by (by apply proc_upd_eq).
  destruct (crowd_tx (set_tw_k k1 s1)) as (s' & E & Hr & Hbz).
  - by apply table_ok_upd.
  - cbn. by rewrite Ep.
  - cbn. by rewrite Ep.
  - unfold sched_switch, ends at 1. cbn [mbind option_bind]. rewrite E. cbn. apply ends_ret. destruct (st_resumed _ _ _ _ _ _ _ _ _ Hs1 Hr) as (ins' & com' & H' & Es & _).
    split; [|cbn in Hbz; lia]. exists (tw_k s'), ins', com'. split_and!; [done|apply Hr|by rewrite Es].
Qed.

Definition expand (onlcr : bool) (x : Z) : list Z := if onlcr && (x =? LF) then [CR; LF] else [x].

Lemma put_char_st `{Crowd} t con c S out s line ready x onlcr nonblock pos {B} (m : run (tty_w (W := W)) (option B)) (fin : Z → option B) Q : writing t con c S out s → holds t line ready →
  (∀ s', writing t con c S (out ++ expand onlcr x) s' → ends m Q s') →
  (∀ rc s', stops nonblock pos rc s' → writing t con c S out s' ∨ onlcr = true ∧ x = LF ∧ writing t con c S (out ++ [CR]) s' → Q (fin rc) s') →
  ends (early ← (if onlcr && (x =? LF) then put_wait cur others fuel tx_addr i CR nonblock pos else mret None);
    match early with Some r => mret (fin r) | None => early ← put_wait cur others fuel tx_addr i x nonblock pos; match early with Some r => mret (fin r) | None => m end end) Q s.
Proof.
  intros Hs Ht Hm Hq. unfold expand in Hm. destruct (onlcr && (x =? LF)) eqn:E.
  - apply andb_true_iff in E as [-> ->%Z.eqb_eq]. eapply ends_seq; [by eapply put_wait_st|]. intros [rc|] s1 H1.
    { apply ends_ret. destruct H1 as [? ?]. apply Hq; auto. }
    eapply ends_seq; [by eapply put_wait_st|]. intros [rc|] s2 H2; [|apply Hm; by rewrite <-app_assoc in H2].
    apply ends_ret. destruct H2 as [? ?]. apply Hq; auto.
  - apply ends_bind, ends_ret. eapply ends_seq; [by eapply put_wait_st|]. intros [rc|] s2 H2; [|by apply Hm].
    apply ends_ret. destruct H2 as [? ?]. apply Hq; auto.
Qed.
End Terminal.

(** ** Copies over pages *)

Section Copy.
Context {cfg : PageConfig} {ps : PageStore} {psok : PageStoreOk}.

(** The user's buffer: the pages that the [n] bytes from [off] of [page] touch. *)
Definition mapped (c : core) (page off n : Z) : Prop :=
  ∀ j, 0 <= j <= (off + n - 1) / PAGE_SIZE → page_in_use c (page + j) ∧ to_page_id (page + j) = page + j.

Lemma copy_to_pages_next fuel page off src c : src ≠ [] → copy_to_pages (S fuel) page off src c =
  (let chunk := Z.to_nat (Z.min (u32 (PAGE_SIZE - off)) (Z.of_nat (length src))) in
   let '(page', off') := tty_advance page off (Z.of_nat chunk) in copy_to_pages fuel page' off' (drop chunk src) (core_write page off (take chunk src) c)).
Proof. by destruct src. Qed.

Lemma copy_to_pages_spec fuel : ∀ page off src c, store_ok c → 0 <= off < PAGE_SIZE → (length src <= fuel)%nat → mapped c page off (Z.of_nat (length src)) →
  store_ok (copy_to_pages fuel page off src c) ∧ (∀ q, page_in_use (copy_to_pages fuel page off src c) q ↔ page_in_use c q) ∧
  ∀ q x, page_in_use c q → 0 <= x < PAGE_SIZE → byte_at (copy_to_pages fuel page off src c) q x =
    let pos := (q - page) * PAGE_SIZE + x - off in if decide (0 <= pos < Z.of_nat (length src)) then src !!! Z.to_nat pos else byte_at c q x.
Proof.
  unfold mapped, PAGE_SIZE. induction fuel as [|fuel IH]; intros page off src c Hc Ho Hl Hm.
  { split_and!; [done|done|]. intros q x _ _. cbn. rewrite decide_False by lia. done. }
  destruct (decide (src = [])) as [->|Hne]; [split_and!; [done|done|]; intros q x _ _; cbn; by rewrite decide_False by lia|].
  assert (0 < length src)%nat as Hpos by (destruct src; [done|cbn; lia]). rewrite copy_to_pages_next by done. cbn zeta. unfold PAGE_SIZE.
  rewrite (uN_small 32 (4096 - off)) by lia. set (chunk := Z.to_nat (Z.min (4096 - off) (Z.of_nat (length src)))).
  assert (Z.of_nat chunk = Z.min (4096 - off) (Z.of_nat (length src))) as Ech by lia. clearbody chunk. unfold tty_advance, PAGE_SIZE.
  assert (page_in_use c page) as Hpg. { destruct (Hm 0) as [H _]; [split; [lia|apply Z.div_pos; lia]|]. by rewrite Z.add_0_r in H. }
  assert (length (take chunk src) = chunk) as Lch by (rewrite length_take; lia).
  destruct (store_write c page off (take chunk src) Hc Hpg ltac:(lia) ltac:(unfold PAGE_SIZE; lia)) as (S1 & U1 & B1). unfold PAGE_SIZE in B1. rewrite Lch in B1.
  set (c1 := core_write page off (take chunk src) c) in *. clearbody c1.
  assert (drop chunk src = [] ∧ chunk = length src ∨ off + Z.of_nat chunk = 4096 ∧ (chunk < length src)%nat) as [[Hd Hc']|[Hfull Hmore]].
  { destruct (Z.le_gt_cases (Z.of_nat (length src)) (4096 - off)); [left; split; [apply drop_ge; lia|lia]|right; lia]. }
  - rewrite Hd. assert (∀ p2 o2, copy_to_pages fuel p2 o2 [] c1 = c1) as -> by (intros; by destruct fuel). split_and!; [done|done|].
    intros q x Hq Hx. cbn zeta. rewrite B1, Hc', take_ge by (done || lia). destruct (decide (q = page ∧ _)) as [[-> Hx']|Hn].
    + rewrite decide_True by lia. f_equal. lia.
    + rewrite decide_False; [done|]. intros Hp. apply Hn. split; [|nia]. nia.
  - rewrite Hfull. change (4096 / 4096) with 1. change (4096 mod 4096) with 0.
    assert (to_page_id (page + 1) = page + 1) as ->. { apply Hm. split; [lia|]. apply Z.div_le_lower_bound; lia. }
    destruct (IH (page + 1) 0 (drop chunk src) c1) as (S2 & U2 & B2); [done|lia|rewrite length_drop; lia| |].
    { rewrite length_drop. intros j Hj. rewrite U1. replace (page + 1 + j) with (page + (j + 1)) by lia. apply Hm. split; [lia|].
      transitivity ((0 + Z.of_nat (length src - chunk) - 1) / 4096 + 1); [unfold PAGE_SIZE in Hj; lia|]. rewrite <-Z.div_add by lia. apply Z.div_le_mono; lia. }
    split_and!; [done|intros q; by rewrite U2, U1|]. intros q x Hq Hx. cbn zeta. rewrite B2 by (by apply U1 || lia). cbn zeta. rewrite length_drop, B1 by done.
    destruct (decide (0 <= (q - (page + 1)) * 4096 + x - 0 < Z.of_nat (length src - chunk))).
    + rewrite decide_True by lia. rewrite list_lookup_total_alt, lookup_drop, <-list_lookup_total_alt. f_equal. lia.
    + destruct (decide (q = page ∧ _)) as [[-> Hx']|Hn].
      * rewrite decide_True by lia. rewrite lookup_total_take, decide_True by lia. f_equal. lia.
      * rewrite decide_False; [done|]. intros Hp. apply Hn. split; nia.
Qed.

Lemma copy_reads page off src c j : store_ok c → 0 <= off < PAGE_SIZE → mapped c page off (Z.of_nat (length src)) → 0 <= j < Z.of_nat (length src) →
  byte_at (tty_copy_to_pages page off src c) (page + (off + j) / PAGE_SIZE) ((off + j) mod PAGE_SIZE) = src !!! Z.to_nat j.
Proof.
  intros Hc Ho Hm Hj. destruct (copy_to_pages_spec (length src) page off src c Hc Ho (Nat.le_refl _) Hm) as (_ & _ & B).
  pose proof (Z.div_mod (off + j) PAGE_SIZE ltac:(done)) as Hdm. pose proof (Z.mod_pos_bound (off + j) PAGE_SIZE ltac:(done)) as Hmb. unfold tty_copy_to_pages. rewrite B; [|apply Hm|done].
  - cbn zeta. replace ((page + (off + j) / PAGE_SIZE - page) * PAGE_SIZE + (off + j) mod PAGE_SIZE - off) with j by lia. by rewrite decide_True.
  - split; [apply Z.div_pos; unfold PAGE_SIZE in *; lia|]. apply Z.div_le_mono; [done|lia].
Qed.
End Copy.

(** Byte [j] of the user's buffer, and [m] of them from there. *)
Definition user_byte `{PageStoreOk} (c : core) (page off j : Z) : Z := byte_at c (page + (off + j) / PAGE_SIZE) ((off + j) mod PAGE_SIZE).
Fixpoint user_bytes `{PageStoreOk} (c : core) (page off : Z) (m : nat) (j : Z) : list Z :=
  match m with
  | O => []
  | S m => user_byte c page off j :: user_bytes c page off m (j + 1)
  end.

Section Promises.
Context {cfg : PageConfig} {W : Type} {wire : Wire W} {ps : PageStore} {psok : PageStoreOk} (b : backend_t (W := W)) (p : Z → bool → W → bool * W) (g : W → Z * W) (limit : nat).
Context {wok : WireOk b p g limit}.
Context (cur : nat) (others : tty_w (W := W) → option (tty_w (W := W))) (fuel : nat) (dev_addr tx_addr : nat → Z) (i : nat) (D : list (tty_dev_t (W := W))) (T : termios).
Context {crowd : Crowd cur others dev_addr tx_addr i}.
Context (Hi : (i < length D)%nat) (Hfuel : (limit <= fuel)%nat).

Lemma user_byte_read c page off n j : store_ok c → mapped c page off n → 0 <= off < PAGE_SIZE → 0 <= j < n →
  core_read (page + (off + j) / PAGE_SIZE) ((off + j) mod PAGE_SIZE) 1 c = [user_byte c page off j].
Proof.
  intros Hc Hm Ho Hj. pose proof (Z.mod_pos_bound (off + j) PAGE_SIZE ltac:(done)) as Hb. rewrite store_read; [cbn; by rewrite Z.add_0_r|done| |lia|lia|lia].
  apply Hm. split; [apply Z.div_pos; unfold PAGE_SIZE in *; lia|]. apply Z.div_le_mono; [done|lia].
Qed.

Lemma advance_next c page off n j : mapped c page off n → 0 <= off < PAGE_SIZE → 0 <= j → j + 1 < n →
  tty_advance (page + (off + j) / PAGE_SIZE) ((off + j) mod PAGE_SIZE) 1 = (page + (off + (j + 1)) / PAGE_SIZE, (off + (j + 1)) mod PAGE_SIZE).
Proof.
  intros Hm Ho Hj Hn. unfold tty_advance. pose proof (Z.div_mod (off + j) PAGE_SIZE ltac:(done)) as Hdm.
  replace (off + (j + 1)) with ((off + j) / PAGE_SIZE * PAGE_SIZE + ((off + j) mod PAGE_SIZE + 1)) at 1 2 by lia.
  rewrite (Z.add_comm (_ * _)), Z.div_add, Z.mod_add by done. f_equal. rewrite <-Z.add_assoc. rewrite (Z.add_comm ((off + j) / PAGE_SIZE)), <-Z.div_add by done.
  replace ((off + j) mod PAGE_SIZE + 1 + (off + j) / PAGE_SIZE * PAGE_SIZE) with (off + (j + 1)) by lia.
  apply Hm. split; [apply Z.div_pos; unfold PAGE_SIZE in *; lia|]. apply Z.div_le_mono; [done|lia].
Qed.

Lemma write_chars_st t con c page off n line ready onlcr nonblock : holds b T t line ready → store_ok c → mapped c page off n → 0 <= off < PAGE_SIZE →
  ∀ m j pg po S out s, j + Z.of_nat m = n → 0 <= j → (m ≠ 0%nat → pg = page + (off + j) / PAGE_SIZE ∧ po = (off + j) mod PAGE_SIZE) →
  writing cur i D t con c S out s →
  ends (write_chars cur others fuel tx_addr i onlcr nonblock m j pg po) (λ r s', match r with
    | None => writing cur i D t con c S (out ++ concat (map (expand onlcr) (user_bytes c page off m j))) s'
    | Some rc => ∃ q tail, j <= q < n ∧ stops cur nonblock q rc s' ∧
        (tail = [] ∨ onlcr = true ∧ user_byte c page off q = LF ∧ tail = [CR]) ∧
        writing cur i D t con c S (out ++ concat (map (expand onlcr) (user_bytes c page off (Z.to_nat (q - j)) j)) ++ tail) s'
    end) s.
Proof.
  intros Ht Hc Hm Ho. induction m as [|m IH]; intros j pg po S out s Hn Hj Hpg Hs; cbn [write_chars user_bytes map concat].
  { apply ends_ret. by rewrite app_nil_r. }
  destruct Hpg as [-> ->]; [done|]. apply ends_read. assert (tw_core s = c) as -> by (by destruct Hs as (? & ? & ? & (w & -> & _) & _)).
  rewrite (user_byte_read c page off n j) by (done || lia). cbn [hd]. set (x := user_byte c page off j).
  eapply (put_char_st b p g limit cur others fuel dev_addr tx_addr i D T Hi Hfuel t con c S out s line ready x onlcr nonblock j _ Some); [done|done|..].
  - intros s1 H1. destruct (tty_advance _ _ 1) as [pg po] eqn:Ea. eapply ends_mono; [apply (IH (j + 1)); [lia|lia| |exact H1]|].
    + intros Hm0. rewrite (advance_next c page off n) in Ea by (done || lia). by injection Ea as <- <-.
    + intros [rc|] s2; [|by rewrite <-app_assoc]. intros (q & tail & Hq & Hst & Htail & H2). exists q, tail. split_and!; [lia|lia|done|done|].
      replace (Z.to_nat (q - j)) with (Datatypes.S (Z.to_nat (q - (j + 1)))) by lia. cbn [user_bytes map concat]. by rewrite <-app_assoc in H2 |- *.
  - intros rc s1 Hst H1. exists j. replace (Z.to_nat (j - j)) with 0%nat by lia. cbn [user_bytes map concat app].
    destruct H1 as [H1|(-> & Hx & H1)]; [exists []; rewrite app_nil_r|exists [CR]]; split_and!; try done; try lia; [by left|by right].
Qed.

(** C28. Reading a line is editing: whatever portions the input comes in, before
    the call or while the process sleeps, and however often the transmitter is
    full, [tty_read] of a terminal in canonical mode returns, gives the caller the
    first [n] characters of the line the editor makes of the characters typed,
    keeps the rest of the line for the next call and leaves the input behind the
    line unread; what the terminal has shown is what the editor shows.  An end of
    file on an empty line returns 0, an interrupt [- EINTR]. *)
Theorem tty_read_is_line_editor t con k c ins com out line n page off r o rest s :
  st i D t con k c ins com out s → holds b T t line false → awake cur k → deliverable (proc k cur) = 0 → bset (c_lflag T) ICANON = true →
  0 < n → 0 <= off < PAGE_SIZE → store_ok c → mapped c page off n →
  edit (icrnl T) (isig T) (echo T) line (ins ++ concat com) = Some (r, o, rest) → (length (ins ++ concat com) + length com < fuel)%nat →
  ∃ rc s', tty_read cur others fuel dev_addr (Some i) false page off n s = Some (rc, s') ∧
  ∃ t' k' c' ins' com', st i D t' con k' c' ins' com' (out ++ o) s' ∧ ins' ++ concat com' = rest ∧
    match r with
    | Line l _ => rc = Z.of_nat (min (Z.to_nat n) (length l)) ∧ holds b T t' (drop (Z.to_nat n) l) (negb (bool_decide (length l <= Z.to_nat n)%nat)) ∧
        ∀ j, 0 <= j < rc → user_byte c' page off j = l !!! Z.to_nat j
    | Eof => rc = 0 ∧ holds b T t' [] false
    | Interrupt _ => rc = - EINTR ∧ holds b T t' [] false
    | Typing _ _ => False
    end.
Proof.
  intros Hst Ht Hk Hd Hcanon Hn Ho Hc Hm He Hf. apply ends_run. unfold tty_read. apply ends_read.
  rewrite (st_dev i D Hi _ _ _ _ _ _ _ _ Hst), (ho_be _ _ _ _ _ Ht), wire_getc. rewrite (proj2 (Z.eqb_neq n 0)) by lia.
  apply ends_read. rewrite (flag_st b i D T Hi _ _ _ _ _ _ _ _ _ _ _ _ Hst Ht), Hcanon. unfold tty_read_canon.
  destruct (st_stream i D _ _ _ _ _ _ _ _ Hst) as (_ & Estr & Eco & _).
  eapply ends_seq; [eapply (canon_loop_st b p g limit cur others fuel dev_addr tx_addr i D T Hi Hfuel con c out r o rest)|].
  - exists t, k, ins, com, line, out, o. done.
  - by rewrite Estr, Eco.
  - intros e s1 (t1 & k1 & ins1 & com1 & Hs1 & Erest & He1). destruct r as [|l|l|]; [done|..].
    + destruct He1 as [-> Ht1]. eapply ends_mono; [eapply deliver_st; [exact Hi|exact Hfuel|exact Hs1|exact Ht1|lia]|].
      intros rc s2 (-> & t2 & Hs2 & Ht2). exists t2, k1, (tty_copy_to_pages page off (take (Z.to_nat n) l) c), ins1, com1. split_and!; [done|done|done|done|].
      intros j Hj. unfold user_byte. rewrite copy_reads; [|done|done| |rewrite length_take; lia].
      * rewrite lookup_total_take, decide_True by lia. done.
      * intros q Hq. apply Hm. split; [lia|]. etrans; [apply Hq|]. apply Z.div_le_mono; [done|]. rewrite length_take. lia.
    + destruct He1 as [-> Ht1]. apply ends_ret. exists t1, k1, c, ins1, com1. done.
    + destruct He1 as [-> Ht1]. apply ends_ret. exists t1, k1, c, ins1, com1. done.
Qed.

(** C29. Writing reaches the line, on a machine where no other process uses the
    terminal and a process that sleeps for space is resumed, by a wake-up or by a
    signal ([Crowd]; the code itself can lose that wake-up, tty.c:308, and would
    then sleep on).  There [tty_write] returns.  Either it has sent all [n] bytes
    of the caller in order, with a carriage return before each newline in the modes
    OPOST and ONLCR; or it has stopped early, with O_NONBLOCK at a full transmitter
    and without it only for a signal that is deliverable when it returns.  Stopped
    early it returns the number of bytes sent, or [- EAGAIN] or [- EINTR] for none,
    and what was sent is those bytes, perhaps with the carriage return of the next
    one. *)
Theorem tty_write_correct t con c ins line ready n page off nonblock out s : let onlcr := bset (c_oflag T) OPOST && bset (c_oflag T) ONLCR in
  writing cur i D t con c ins out s → holds b T t line ready → 0 <= n → 0 <= off < PAGE_SIZE → store_ok c → mapped c page off n →
  ∃ rc s', tty_write cur others fuel tx_addr (Some i) nonblock page off n s = Some (rc, s') ∧
    ∃ q tail, 0 <= q <= n ∧ writing cur i D t con c ins (out ++ concat (map (expand onlcr) (user_bytes c page off (Z.to_nat q) 0)) ++ tail) s' ∧
      (rc = n ∧ q = n ∧ tail = [] ∨
       stops cur nonblock q rc s' ∧ q < n ∧ (tail = [] ∨ onlcr = true ∧ user_byte c page off q = LF ∧ tail = [CR])).
Proof.
  intros onlcr Hw Ht Hn Ho Hc Hm. apply ends_run. unfold tty_write. apply ends_read. destruct Hw as (k & w & com & Hst & Hk & Es).
  rewrite (st_dev i D Hi _ _ _ _ _ _ _ _ Hst), (ho_be _ _ _ _ _ Ht), wire_putc. apply ends_read.
  rewrite !(flag_st b i D T Hi _ _ _ _ _ _ _ _ _ _ _ _ Hst Ht). fold onlcr.
  eapply ends_seq; [eapply (write_chars_st t con c page off n line ready onlcr nonblock Ht Hc Hm Ho (Z.to_nat n) 0 page off ins out s); [lia|lia| |by exists k, w, com]|].
  - intros _. by rewrite Z.add_0_r, Z.div_small, Z.mod_small, Z.add_0_r by done.
  - intros [rc|] s1 H1.
    + apply ends_ret. destruct H1 as (q & tail & Hq & Hstop & Htail & H1). exists q, tail. rewrite Z.sub_0_r in H1. split_and!; [lia|lia|done|]. right. split_and!; [done|lia|done].
    + destruct H1 as (k1 & ins1 & com1 & Hs1 & Hk1 & E1). eapply ends_seq; [by eapply (dev_echo_flush_st b p g limit i D T Hi)|].
      intros [] s2 H2. apply ends_ret. exists n, []. split_and!; [lia|lia|rewrite app_nil_r; by exists k1, ins1, com1|by left].
Qed.
End Promises.

(** ** A terminal to run the claims on

    A line whose transmitter takes sixteen characters and is then full until it is
    tried again, and whose input comes in portions; a process that reads and writes
    it; a machine that lets a portion in whenever the process sleeps for input. *)

Module Demo.
Record line_w := LineW { lw_in : list Z; lw_coming : list (list Z); lw_sent : list Z; lw_room : nat }.

#[export] Instance line_wire : Wire line_w := {|
  input w := u8 <$> lw_in w;
  coming w := map u8 <$> lw_coming w;
  sent := lw_sent;
  busy w := (if lw_room w is O then 1 else 0)%nat
|}.

Definition line_putc (c : Z) (notify : bool) (w : line_w) : bool * line_w :=
  match lw_room w with
  | O => (false, LineW (lw_in w) (lw_coming w) (lw_sent w) 16)
  | S n => (true, LineW (lw_in w) (lw_coming w) (lw_sent w ++ [c]) n)
  end.
Definition line_getc (w : line_w) : Z * line_w :=
  match lw_in w with
  | [] => (-1, w)
  | c :: cs => (u8 c, LineW cs (lw_coming w) (lw_sent w) (lw_room w))
  end.
Definition line_backend : backend_t (W := line_w) := Backend (Some line_putc) None (Some line_getc) None None None None.

#[export] Instance line_ok : WireOk line_backend line_putc line_getc 2.
Proof.
  split; try done.
  - intros c nt w. unfold line_putc. cbn. by destruct (lw_room w); cbn; split_and!; try done; lia.
  - intros w. cbn. destruct (lw_room w); lia.
  - intros w. unfold line_getc. destruct w as [[|c cs] co se ro]; cbn; split_and!; done.
  - intros w. cbn. apply Forall_fmap, Forall_true. intros c. unfold compose. by apply (uN_range 8).
Qed.

Definition demo_dev_addr (i : nat) : Z := 4096 + Z.of_nat i.
Definition demo_tx_addr (i : nat) : Z := 8192 + Z.of_nat i.

Definition resume_one (p : pcb_t) : pcb_t := if bool_decide (p_state p = PROC_BLOCKED) then set_p_state PROC_RUNNABLE p else p.

(** The next portion arrives for a process that sleeps for input. *)
Definition arrive (k : kernel_t) (w : line_w) : line_w :=
  if bool_decide (p_state (proc k 1) = PROC_BLOCKED) && (p_wait_channel (proc k 1) =? demo_dev_addr 0)
  then match lw_coming w with [] => w | ch :: rest => LineW (lw_in w ++ ch) rest (lw_sent w) (lw_room w) end
  else w.

Definition demo_others (s : tty_w (W := line_w)) : option tty_w :=
  Some (TtyW (tw_devs s) (tw_console s) (upd_proc 1 resume_one (tw_k s)) (tw_core s) (arrive (tw_k s) (tw_io s))).

Lemma arrive_same k w : sent (arrive k w) = sent w ∧ stream (arrive k w) = stream w ∧ busy (arrive k w) = busy w.
Proof.
  unfold arrive. destruct (_ && _); [|done]. destruct w as [ins [|ch co] se ro]; [done|]. cbn. split_and!; [done| |done].
  unfold stream. cbn. by rewrite fmap_app, app_assoc.
Qed.

Lemma resume_awake k : table_ok k → awake 1 (upd_proc 1 resume_one k) ∧ deliverable (proc (upd_proc 1 resume_one k) 1) = deliverable (proc k 1).
Proof.
  intros Hk. assert (1 < PROC_MAX)%nat as H1 by (unfold PROC_MAX; lia). rewrite proc_upd_eq by done. split.
  - split_and!; [by apply table_ok_upd|done|]. rewrite proc_upd_eq by done. unfold resume_one. by case_bool_decide.
  - unfold resume_one. by case_bool_decide.
Qed.

#[export] Instance demo_crowd : Crowd 1 demo_others demo_dev_addr demo_tx_addr 0.
Proof.
  assert (∀ s, table_ok (tw_k s) → ∃ s', demo_others s = Some s' ∧ resumed 1 s s' ∧ deliverable (proc (tw_k s') 1) = deliverable (proc (tw_k s) 1) ∧ tw_io s' = arrive (tw_k s) (tw_io s)) as H.
  { intros s Hk. eexists. split; [done|]. destruct (resume_awake _ Hk) as [A B], (arrive_same (tw_k s) (tw_io s)) as (C & E & _). by split_and!. }
  split.
  - intros s Hk. destruct (H s) as (s' & A & B & _); [apply Hk|]. eauto.
  - intros s Hk Hb Hw Hco. destruct (H s Hk) as (s' & A & B & C & E). exists s'. split_and!; [done..|]. rewrite E. unfold arrive.
    rewrite bool_decide_true, Hw by done. rewrite Z.eqb_refl. cbn [andb]. cbn in Hco |- *. destruct (lw_coming (tw_io s)); [done|]. by rewrite !length_fmap.
  - intros s Hk Hb Hw. destruct (H s Hk) as (s' & A & B & _ & E). exists s'. split_and!; [done..|]. rewrite E. by destruct (arrive_same (tw_k s) (tw_io s)) as (_ & _ & ->).
Qed.

Definition demo_tty : tty_dev_t (W := line_w) := set_t_be line_backend tty_dev_init.
Definition demo_devs : list (tty_dev_t (W := line_w)) := [demo_tty; tty_dev_init].
Definition demo_tty_k : kernel_t :=
  Kernel (<[1%nat := set_p_state PROC_RUNNABLE (set_p_pid 1 pcb_zero)]> (replicate PROC_MAX pcb_zero)) [None; None] 2 0 0 [0; 0] [0; 0] [0; 0] ∅.
(** "a", then "b", delete, nothing, and "c", carriage return, "x". *)
Definition demo_line : line_w := LineW [97] [[98; 127]; []; [99; 13; 120]] [] 1.
Definition demo_tw : tty_w (W := line_w) := TtyW demo_devs 0 demo_tty_k demo_core demo_line.

Lemma demo_st : st 0 demo_devs demo_tty 0 demo_tty_k demo_core [97] [[98; 127]; []; [99; 13; 120]] [] demo_tw.
Proof. by exists demo_line. Qed.

Lemma demo_holds : holds line_backend (t_termios demo_tty) demo_tty [] false.
Proof. by split; try done; cbn; unfold LINE_BUF_SIZE; lia. Qed.

Lemma demo_awake : awake 1 demo_tty_k.
Proof. split_and!; [done|unfold PROC_MAX; lia|done]. Qed.

Lemma demo_mapped : mapped demo_core demo_page 16 10.
Proof.
  intros j Hj. assert (j = 0) as -> by (change ((16 + 10 - 1) / PAGE_SIZE) with 0 in Hj; lia). rewrite Z.add_0_r. split; [apply demo_store|by vm_compute].
Qed.

Lemma tty_read_is_line_editor_witness :
  ∃ rc s', tty_read 1 demo_others 100 demo_dev_addr (Some 0%nat) false demo_page 16 10 demo_tw = Some (rc, s') ∧ rc = 3 ∧
    sent (tw_io s') = [97; 98; 8; 32; 8; 99; 13; 10] ∧ user_byte (tw_core s') demo_page 16 1 = 99.
Proof.
  destruct (tty_read_is_line_editor line_backend line_putc line_getc 2 1 demo_others 100 demo_dev_addr demo_tx_addr 0 demo_devs (t_termios demo_tty)
    ltac:(cbn; lia) ltac:(lia) demo_tty 0 demo_tty_k demo_core [97] [[98; 127]; []; [99; 13; 120]] [] [] 10 demo_page 16
    (Line [97; 99; 10] []) [97; 98; 8; 32; 8; 99; 13; 10] [120] demo_tw demo_st demo_holds demo_awake eq_refl eq_refl eq_refl ltac:(unfold PAGE_SIZE; lia)
    (proj1 demo_store) demo_mapped eq_refl ltac:(cbn; lia)) as (rc & s' & E & t' & k' & c' & ins' & com' & (w & Es & _ & _ & Hse) & _ & Hrc & _ & Hb).
  exists rc, s'. split; [exact E|]. split; [exact Hrc|]. subst s'. split; [exact Hse|]. apply (Hb 1). rewrite Hrc. cbn. lia.
Defined.

Lemma tty_write_correct_witness :
  ∃ rc s', tty_write 1 demo_others 100 demo_tx_addr (Some 0%nat) false demo_page 16 10 demo_tw = Some (rc, s') ∧ rc = 10 ∧ sent (tw_io s') = replicate 10 65.
Proof.
  destruct (tty_write_correct line_backend line_putc line_getc 2 1 demo_others 100 demo_dev_addr demo_tx_addr 0 demo_devs (t_termios demo_tty)
    ltac:(cbn; lia) ltac:(lia) demo_tty 0 demo_core [97; 98; 127; 99; 13; 120] [] false 10 demo_page 16 false [] demo_tw
    ltac:(exists demo_tty_k, [97], [[98; 127]; []; [99; 13; 120]]; split; [exact demo_st|split; [exact demo_awake|done]]) demo_holds ltac:(lia) ltac:(unfold PAGE_SIZE; lia)
    (proj1 demo_store) demo_mapped) as (rc & s' & E & q & tail & Hq & (k' & ins' & com' & (w & Es & _ & _ & Hse) & _) & Hr).
  exists rc, s'. split; [exact E|]. assert (rc = 10) as Erc.
  { assert (fst <$> tty_write 1 demo_others 100 demo_tx_addr (Some 0%nat) false demo_page 16 10 demo_tw = Some 10) as E10 by (vm_compute; reflexivity).
    rewrite E in E10. cbn in E10. congruence. }
  destruct Hr as [(_ & -> & ->)|((_ & Hn) & Hq' & _)]; [|exfalso; rewrite Erc in Hn; destruct (Z.ltb_spec 0 q); unfold EINTR in Hn; lia].
  split; [exact Erc|]. subst s'. cbn [tw_io]. rewrite Hse. by vm_compute.
Defined.
End Demo.
