(* ===== verification/BlkDev.v ===== *)
(** * BlkDev: the block device registry and its sector cache
    (src/kernel/vfs/driver/blkdev.h, blkdev.c)

    A driver is a pair of functions on pages, here a class; the registry gives a
    registered device its slot and puts the shared write-through cache before the
    driver.  Each section under SPIN_BLKDEV is one transition ([cache_read_hit],
    [cache_insert_from_page], [cache_invalidate]), the call of the driver between
    them another.  [BlockDevice] at the end is the interface a file system sees
    when it moves one sector to or from its own buffer. *)

From S2P Require Import Prelude Config PagePool Path ModCore.

(** The entry points of the drivers: [raw_read drv dev page off sector count] is
    [dev->raw_read], where [drv] tells which driver's function that is. *)
Class RawDriver {ps : PageStore} := {
  raw : Type;
  raw_read : Z → nat → Z → Z → Z → Z → core * raw → Z * (core * raw);
  raw_write : Z → nat → Z → Z → Z → Z → core * raw → Z * (core * raw)
}.

Definition BLKDEV_F_NOCACHE : Z := 1.
(** The bytes of a sector, as the length of a list. *)
Definition SECTOR : nat := Z.to_nat BLKDEV_SECTOR_SIZE.

(** [bd_cached]: [read] and [write] are the wrappers with the cache. *)
Record blkdev_t := BlkDev {
  bd_name : option name;
  bd_sector_count : Z;
  bd_flags : Z;
  bd_raw : Z;
  bd_cached : bool
}.
#[export] Instance blkdev_inhabited : Inhabited blkdev_t := populate (BlkDev None 0 0 0 false).

Record blkdev_cache_entry_t := CacheEntry { ce_dev : nat; ce_sector : Z; ce_age : Z; ce_valid : bool }.
#[export] Instance cache_entry_inhabited : Inhabited blkdev_cache_entry_t := populate (CacheEntry 0 0 0 false).

Definition set_ce_age (v : Z) (e : blkdev_cache_entry_t) := CacheEntry (ce_dev e) (ce_sector e) (u32 v) (ce_valid e).
Definition set_ce_valid (v : bool) (e : blkdev_cache_entry_t) := CacheEntry (ce_dev e) (ce_sector e) (ce_age e) v.

Section Registry.
Context {cfg : PageConfig} {ps : PageStore} {rd : RawDriver}.

Record blkdevs := Blkdevs {
  blkdev_table : list blkdev_t;
  cache : list blkdev_cache_entry_t;
  cache_page : Z;
  cache_age : Z;
  cache_enabled : bool;
  bk_core : core;
  bk_raw : raw
}.

Definition set_table v (w : blkdevs) := Blkdevs v (cache w) (cache_page w) (cache_age w) (cache_enabled w) (bk_core w) (bk_raw w).
Definition set_cache v (w : blkdevs) := Blkdevs (blkdev_table w) v (cache_page w) (cache_age w) (cache_enabled w) (bk_core w) (bk_raw w).
Definition set_cache_page v (w : blkdevs) := Blkdevs (blkdev_table w) (cache w) v (cache_age w) (cache_enabled w) (bk_core w) (bk_raw w).
Definition set_cache_age v (w : blkdevs) := Blkdevs (blkdev_table w) (cache w) (cache_page w) (u32 v) (cache_enabled w) (bk_core w) (bk_raw w).
Definition set_cache_enabled v (w : blkdevs) := Blkdevs (blkdev_table w) (cache w) (cache_page w) (cache_age w) v (bk_core w) (bk_raw w).
Definition set_bk_core v (w : blkdevs) := Blkdevs (blkdev_table w) (cache w) (cache_page w) (cache_age w) (cache_enabled w) v (bk_raw w).
Definition set_io (v : core * raw) (w : blkdevs) := Blkdevs (blkdev_table w) (cache w) (cache_page w) (cache_age w) (cache_enabled w) v.1 v.2.

Definition entry (w : blkdevs) (i : nat) : blkdev_cache_entry_t := cache w !!! i.
Definition device (w : blkdevs) (d : nat) : blkdev_t := blkdev_table w !!! d.

(** ** The cache *)

Fixpoint cache_find (n i dev : nat) (sector : Z) (l : list blkdev_cache_entry_t) : Z :=
  match n with
  | O => -1
  | S n =>
      let e := l !!! i in
      if ce_valid e && (ce_dev e =? dev)%nat && (ce_sector e =? sector) then Z.of_nat i
      else cache_find n (S i) dev sector l
  end.
Definition cache_find_locked (dev : nat) (sector : Z) (w : blkdevs) : Z := cache_find BLKDEV_CACHE_SLOTS 0 dev sector (cache w).

Fixpoint cache_victim (n i victim : nat) (oldest : Z) (l : list blkdev_cache_entry_t) : nat :=
  match n with
  | O => victim
  | S n =>
      let e := l !!! i in
      if negb (ce_valid e) then i
      else if ce_age e <? oldest then cache_victim n (S i) i (ce_age e) l
      else cache_victim n (S i) victim oldest l
  end.
Definition cache_victim_locked (w : blkdevs) : nat := cache_victim BLKDEV_CACHE_SLOTS 0 0 4294967295 (cache w).

Definition cache_invalidate_all_locked (w : blkdevs) : blkdevs := set_cache (set_ce_valid false <$> cache w) w.

(** [!cache_enabled || cache_page == PAGE_ID_INVALID] *)
Definition cache_off (w : blkdevs) : bool := negb (cache_enabled w) || (cache_page w =? PAGE_ID_INVALID).

(** The offset of a slot in the cache page. *)
Definition slot_off (idx : Z) : Z := u16 (idx * BLKDEV_SECTOR_SIZE).

(** [page_read(src, soff, cache_buf, 512); page_write(dst, doff, cache_buf, 512)] *)
Definition copy_sector (src soff dst doff : Z) (c : core) : core :=
  core_write dst doff (core_read src soff (Z.to_nat BLKDEV_SECTOR_SIZE) c) c.

Definition cache_read_hit (dev : nat) (page off sector : Z) (w : blkdevs) : bool * blkdevs :=
  if cache_off w then (false, w)
  else
    let idx := cache_find_locked dev sector w in
    if 0 <=? idx then
      let w := set_cache_age (cache_age w + 1) w in
      let w := set_cache (alter (set_ce_age (cache_age w)) (Z.to_nat idx) (cache w)) w in
      (true, set_bk_core (copy_sector (cache_page w) (slot_off idx) page off (bk_core w)) w)
    else (false, w).

Definition cache_insert_from_page (dev : nat) (page off sector : Z) (w : blkdevs) : blkdevs :=
  if cache_off w then w
  else
    let idx := cache_find_locked dev sector w in
    let idx := if idx <? 0 then Z.of_nat (cache_victim_locked w) else idx in
    let w := set_cache_age (cache_age w + 1) w in
    let w := set_cache (<[Z.to_nat idx := CacheEntry dev sector (cache_age w) true]> (cache w)) w in
    set_bk_core (copy_sector page off (cache_page w) (slot_off idx) (bk_core w)) w.

Definition cache_invalidate (dev : nat) (sector : Z) (w : blkdevs) : blkdevs :=
  if cache_off w then w
  else
    let idx := cache_find_locked dev sector w in
    if 0 <=? idx then set_cache (alter (set_ce_valid false) (Z.to_nat idx) (cache w)) w else w.

(** ** Reads and writes *)

Definition dev_raw_read (dev : nat) (page off sector count : Z) (w : blkdevs) : Z * blkdevs :=
  let '(rc, io) := raw_read (bd_raw (device w dev)) dev page off sector count (bk_core w, bk_raw w) in (rc, set_io io w).
Definition dev_raw_write (dev : nat) (page off sector count : Z) (w : blkdevs) : Z * blkdevs :=
  let '(rc, io) := raw_write (bd_raw (device w dev)) dev page off sector count (bk_core w, bk_raw w) in (rc, set_io io w).

(** [n] passes of the loops are left, pass [i] is next. *)
Fixpoint cached_read_loop (n : nat) (i : Z) (dev : nat) (page off sector : Z) (w : blkdevs) : Z * blkdevs :=
  match n with
  | O => (0, w)
  | S n =>
      let s := u32 (sector + i) in
      let sector_off := u16 (off + i * BLKDEV_SECTOR_SIZE) in
      let '(hit, w) := cache_read_hit dev page sector_off s w in
      if hit then cached_read_loop n (i + 1) dev page off sector w
      else
        let '(rc, w) := dev_raw_read dev page sector_off s 1 w in
        if rc <? 0 then (rc, w)
        else cached_read_loop n (i + 1) dev page off sector (cache_insert_from_page dev page sector_off s w)
  end.
Definition blkdev_cached_read (dev : nat) (page off sector count : Z) (w : blkdevs) : Z * blkdevs :=
  cached_read_loop (Z.to_nat count) 0 dev page off sector w.

Fixpoint cached_write_loop (n : nat) (i : Z) (dev : nat) (page off sector : Z) (w : blkdevs) : Z * blkdevs :=
  match n with
  | O => (0, w)
  | S n =>
      let s := u32 (sector + i) in
      let sector_off := u16 (off + i * BLKDEV_SECTOR_SIZE) in
      let w := cache_invalidate dev s w in
      let '(rc, w) := dev_raw_write dev page sector_off s 1 w in
      if rc <? 0 then (rc, w)
      else cached_write_loop n (i + 1) dev page off sector (cache_insert_from_page dev page sector_off s w)
  end.
Definition blkdev_cached_write (dev : nat) (page off sector count : Z) (w : blkdevs) : Z * blkdevs :=
  cached_write_loop (Z.to_nat count) 0 dev page off sector w.

(** [dev->read] and [dev->write] of a registered device *)
Definition dev_read (dev : nat) (page off sector count : Z) (w : blkdevs) : Z * blkdevs :=
  if bd_cached (device w dev) then blkdev_cached_read dev page off sector count w else dev_raw_read dev page off sector count w.
Definition dev_write (dev : nat) (page off sector count : Z) (w : blkdevs) : Z * blkdevs :=
  if bd_cached (device w dev) then blkdev_cached_write dev page off sector count w else dev_raw_write dev page off sector count w.

(** ** The registry *)

Definition blkdev_init (w : blkdevs) : blkdevs :=
  let w := set_table ((λ d, BlkDev None (bd_sector_count d) (bd_flags d) (bd_raw d) (bd_cached d)) <$> blkdev_table w) w in
  let w := cache_invalidate_all_locked w in
  set_cache_enabled false (set_cache_age 0 (set_cache_page PAGE_ID_INVALID w)).

Definition blkdev_cache_set_enabled (enabled : bool) (w : blkdevs) : blkdevs :=
  let w := if enabled && (cache_page w =? PAGE_ID_INVALID) then
             let '(rc, p, c) := core_alloc (bk_core w) in
             let w := set_bk_core c w in
             if rc =? 0 then set_cache_page p w else w
           else w in
  let w := set_cache_enabled (enabled && negb (cache_page w =? PAGE_ID_INVALID)) w in
  cache_invalidate_all_locked w.

Fixpoint find_device (P : blkdev_t → bool) (n i : nat) (l : list blkdev_t) : option nat :=
  match n with
  | O => None
  | S n => if P (l !!! i) then Some i else find_device P n (S i) l
  end.

(** [dev] is None for NULL. *)
Definition blkdev_register (dev : option blkdev_t) (w : blkdevs) : Z * blkdevs :=
  match dev with
  | None => (- EINVAL, w)
  | Some dev =>
      match bd_name dev with
      | None => (- EINVAL, w)
      | Some _ =>
          match find_device (λ d, bool_decide (bd_name d = None)) BLKDEV_MAX 0 (blkdev_table w) with
          | None => (- ENOMEM, w)
          | Some i =>
              let dev := BlkDev (bd_name dev) (bd_sector_count dev) (bd_flags dev) (bd_raw dev)
                           (Z.land (bd_flags dev) BLKDEV_F_NOCACHE =? 0) in
              (Z.of_nat i, set_table (<[i := dev]> (blkdev_table w)) w)
          end
      end
  end.

Definition blkdev_find (nm : option name) (w : blkdevs) : option nat :=
  match nm with
  | None => None
  | Some _ => find_device (λ d, bool_decide (bd_name d = nm)) BLKDEV_MAX 0 (blkdev_table w)
  end.
End Registry.
Arguments blkdevs {ps rd}.
