(* ===== verification/BlkDevFacts.v ===== *)
(** * BlkDevFacts: the sector cache is transparent (src/kernel/vfs/driver/blkdev.c)

    [RawDriverOk] is what blkdev.h demands of a driver, stated over the contents
    of its sectors.  With the cache coherent, reads and writes through the
    registry keep exactly that contract, whatever the cache holds and however
    the driver fails.  The last section shows what two cores can do to it. *)

From S2P Require Import Prelude Config PagePool Path ModCore BlkDev.

(** Arithmetic on offsets in pages and slots. *)
Ltac sec := unfold BLKDEV_CACHE_SLOTS, BLKDEV_SECTOR_SIZE, PAGE_SIZE in *; lia.

Section Contract.
Context {cfg : PageConfig} {ps : PageStore} {psok : PageStoreOk} {rd : RawDriver}.

(** Only bytes [off .. off + len) of [page] may have changed. *)
Record pages_kept (c c' : core) (page off len : Z) : Prop := {
  pk_ok : store_ok c';
  pk_used q : page_in_use c' q ↔ page_in_use c q;
  pk_byte q x : page_in_use c q → 0 <= x < PAGE_SIZE → ¬ (q = page ∧ off <= x < off + len) → byte_at c' q x = byte_at c q x
}.

(** A range of sectors in a page: blkdev.h's single-page contract. *)
Definition in_page (off n s : Z) : Prop :=
  0 <= off ∧ 0 < n ∧ off + n * BLKDEV_SECTOR_SIZE <= PAGE_SIZE ∧ 0 <= s ∧ s + n < 2 ^ 32.

Class RawDriverOk := {
  raw_ok : raw → Prop;
  (** the medium behind a device: two devices may share one *)
  medium : Z → nat → nat;
  sector_byte : raw → nat → Z → Z → Z;
  raw_read_spec drv dev page off s n c r rc c' r' :
    store_ok c → raw_ok r → page_in_use c page → in_page off n s →
    raw_read drv dev page off s n (c, r) = (rc, (c', r')) →
    pages_kept c c' page off (n * BLKDEV_SECTOR_SIZE) ∧ raw_ok r' ∧
    (∀ m t x, sector_byte r' m t x = sector_byte r m t x) ∧
    (0 <= rc → ∀ i x, 0 <= i < n → 0 <= x < BLKDEV_SECTOR_SIZE →
       byte_at c' page (off + i * BLKDEV_SECTOR_SIZE + x) = sector_byte r (medium drv dev) (s + i) x);
  raw_write_spec drv dev page off s n c r rc c' r' :
    store_ok c → raw_ok r → page_in_use c page → in_page off n s →
    raw_write drv dev page off s n (c, r) = (rc, (c', r')) →
    pages_kept c c' page off 0 ∧ raw_ok r' ∧
    (∀ m t x, ¬ (m = medium drv dev ∧ s <= t < s + n) → sector_byte r' m t x = sector_byte r m t x) ∧
    (0 <= rc → ∀ i x, 0 <= i < n → 0 <= x < BLKDEV_SECTOR_SIZE →
       sector_byte r' (medium drv dev) (s + i) x = byte_at c page (off + i * BLKDEV_SECTOR_SIZE + x))
}.
End Contract.

Section Cache.
Context {cfg : PageConfig} {ps : PageStore} {psok : PageStoreOk} {rd : RawDriver} {rdok : RawDriverOk}.
#[local] Abbreviation world := (blkdevs).

Definition registered (w : world) (d : nat) : Prop := (d < BLKDEV_MAX)%nat ∧ bd_name (device w d) ≠ None.
Definition dev_medium (w : world) (d : nat) : nat := medium (bd_raw (device w d)) d.
(** Byte [x] of sector [s] of a device. *)
Definition dev_byte (w : world) (d : nat) (s x : Z) : Z := sector_byte (bk_raw w) (dev_medium w d) s x.

(** Slot [i] of the cache holds sector [s] of device [d]. *)
Definition holds_sector (w : world) (i d : nat) (s : Z) : Prop :=
  (i < BLKDEV_CACHE_SLOTS)%nat ∧ ce_valid (entry w i) = true ∧ ce_dev (entry w i) = d ∧ ce_sector (entry w i) = s.

Definition slot_byte (w : world) (i : nat) (x : Z) : Z := byte_at (bk_core w) (cache_page w) (Z.of_nat i * BLKDEV_SECTOR_SIZE + x).

(** What is cached is what the device has, once. *)
Record cache_good (w : world) : Prop := {
  cg_entry i d s : holds_sector w i d s →
    registered w d ∧ bd_cached (device w d) = true ∧ ∀ x, 0 <= x < BLKDEV_SECTOR_SIZE → slot_byte w i x = dev_byte w d s x;
  cg_unique i j d s : holds_sector w i d s → holds_sector w j d s → i = j
}.

Record coherent (w : world) : Prop := {
  co_store : store_ok (bk_core w);
  co_raw : raw_ok (bk_raw w);
  co_table : length (blkdev_table w) = BLKDEV_MAX;
  co_cache : length (cache w) = BLKDEV_CACHE_SLOTS;
  co_media d d' : registered w d → registered w d' → dev_medium w d = dev_medium w d' → d = d';
  co_page : cache_page w ≠ PAGE_ID_INVALID → page_in_use (bk_core w) (cache_page w);
  co_good : cache_off w = false → cache_good w
}.

(** What every read and write leaves alone. *)
Record io_kept (w w' : world) (page off len : Z) : Prop := {
  ik_table : blkdev_table w' = blkdev_table w;
  ik_page : cache_page w' = cache_page w;
  ik_enabled : cache_enabled w' = cache_enabled w;
  ik_used q : page_in_use (bk_core w') q ↔ page_in_use (bk_core w) q;
  ik_byte q x : page_in_use (bk_core w) q → q ≠ cache_page w → 0 <= x < PAGE_SIZE →
    ¬ (q = page ∧ off <= x < off + len) → byte_at (bk_core w') q x = byte_at (bk_core w) q x
}.

Lemma io_kept_refl w page off len : io_kept w w page off len.
Proof. by split. Qed.

Lemma io_kept_trans w1 w2 w3 page off len : io_kept w1 w2 page off len → io_kept w2 w3 page off len → io_kept w1 w3 page off len.
Proof.
  intros [A1 A2 A3 A4 A5] [B1 B2 B3 B4 B5]. split; [congruence..| |].
  - intros q. by rewrite B4.
  - intros q x Hq Hc Hx Hn. rewrite B5; [by apply A5|by apply A4|by rewrite A2|done|done].
Qed.

Lemma io_kept_weaken w w' page off len off' len' : io_kept w w' page off len → off' <= off → off + len <= off' + len' → io_kept w w' page off' len'.
Proof. intros [A1 A2 A3 A4 A5] H1 H2. split; [done..|]. intros q x Hq Hc Hx Hn. apply A5; [done..|]. intros [-> ?]. apply Hn. split; [done|lia]. Qed.

(** No byte changed at all. *)
Lemma io_kept_none w w' page off page' off' len' : io_kept w w' page off 0 → io_kept w w' page' off' len'.
Proof. intros [A1 A2 A3 A4 A5]. split; [done..|]. intros q x Hq Hc Hx _. apply A5; [done..|]. lia. Qed.

Lemma io_kept_medium w w' page off len d : io_kept w w' page off len → dev_medium w' d = dev_medium w d.
Proof. intros [A _ _ _ _]. unfold dev_medium, device. by rewrite A. Qed.

Lemma io_kept_registered w w' page off len d : io_kept w w' page off len → registered w' d ↔ registered w d.
Proof. intros [A _ _ _ _]. unfold registered, device. by rewrite A. Qed.

Lemma io_kept_cached w w' page off len d : io_kept w w' page off len → bd_cached (device w' d) = bd_cached (device w d).
Proof. intros [A _ _ _ _]. unfold device. by rewrite A. Qed.

Lemma io_kept_off w w' page off len : io_kept w w' page off len → cache_off w' = cache_off w.
Proof. intros [_ A B _ _]. unfold cache_off. by rewrite A, B. Qed.

(** ** The cache operations *)

Lemma cache_find_spec n i d s (l : list blkdev_cache_entry_t) :
  (cache_find n i d s l = -1 ∧ ∀ j, (i <= j < i + n)%nat → ¬ (ce_valid (l !!! j) = true ∧ ce_dev (l !!! j) = d ∧ ce_sector (l !!! j) = s)) ∨
  ∃ j, cache_find n i d s l = Z.of_nat j ∧ (i <= j < i + n)%nat ∧ ce_valid (l !!! j) = true ∧ ce_dev (l !!! j) = d ∧ ce_sector (l !!! j) = s.
Proof.
  revert i. induction n as [|n IH]; intros i; cbn [cache_find]; [left; split; [done|intros; lia]|].
  destruct (ce_valid (l !!! i)) eqn:Ev, (Nat.eqb_spec (ce_dev (l !!! i)) d), (Z.eqb_spec (ce_sector (l !!! i)) s); cbn [andb];
    try (right; exists i; repeat split; first [done|lia]);
    (destruct (IH (S i)) as [[Hr Hn]|(j & Hr & Hj & Hv)];
     [left; split; [done|]; intros j Hj; destruct (decide (j = i)) as [->|]; [intros (? & ? & ?); congruence|apply Hn; lia]
     |right; exists j; split; [done|]; split; [lia|done]]).
Qed.

Lemma find_locked_spec w d s :
  (cache_find_locked d s w = -1 ∧ ∀ i, ¬ holds_sector w i d s) ∨ ∃ i, cache_find_locked d s w = Z.of_nat i ∧ holds_sector w i d s.
Proof.
  unfold cache_find_locked. destruct (cache_find_spec BLKDEV_CACHE_SLOTS 0 d s (cache w)) as [[-> Hn]|(i & -> & Hi & Hv)].
  - left. split; [done|]. intros i (Hi & Hv). apply (Hn i); [lia|done].
  - right. exists i. split; [done|]. split; [lia|done].
Qed.

Lemma cache_victim_lt n i v o (l : list blkdev_cache_entry_t) : (v < i + n)%nat → (cache_victim n i v o l < i + n)%nat.
Proof.
  revert i v o. induction n as [|n IH]; intros i v o Hv; cbn [cache_victim]; [done|]. case_match; [lia|].
  case_match; rewrite Nat.add_succ_r; apply (IH (S i)); lia.
Qed.

Lemma slot_off_eq i : (i < BLKDEV_CACHE_SLOTS)%nat → slot_off (Z.of_nat i) = Z.of_nat i * BLKDEV_SECTOR_SIZE.
Proof. intros Hi. unfold BLKDEV_CACHE_SLOTS in Hi. apply uN_small. unfold BLKDEV_SECTOR_SIZE. lia. Qed.

Lemma copy_sector_spec c src soff dst doff : store_ok c → page_in_use c src → page_in_use c dst →
  0 <= soff → soff + BLKDEV_SECTOR_SIZE <= PAGE_SIZE → 0 <= doff → doff + BLKDEV_SECTOR_SIZE <= PAGE_SIZE →
  let c' := copy_sector src soff dst doff c in
  pages_kept c c' dst doff BLKDEV_SECTOR_SIZE ∧
  ∀ x, 0 <= x < BLKDEV_SECTOR_SIZE → byte_at c' dst (doff + x) = byte_at c src (soff + x).
Proof.
  intros Hc Hs Hd H1 H2 H3 H4. unfold copy_sector. rewrite store_read by (unfold BLKDEV_SECTOR_SIZE in *; first [done|lia]).
  set (bs := (λ i, byte_at c src (soff + Z.of_nat i)) <$> seq 0 (Z.to_nat BLKDEV_SECTOR_SIZE)).
  assert (Z.of_nat (length bs) = BLKDEV_SECTOR_SIZE) as Hl by (unfold bs; by rewrite length_fmap, length_seq).
  destruct (store_write c dst doff bs Hc Hd H3) as (A & B & C); [lia|]. split.
  - split; [done|done|]. intros q x Hq Hx Hn. rewrite C by done. rewrite decide_False by (rewrite Hl; done). done.
  - intros x Hx. rewrite C by (unfold BLKDEV_SECTOR_SIZE in *; first [done|lia]). rewrite decide_True by (rewrite Hl; split; [done|lia]).
    replace (doff + x - doff) with x by lia. apply list_lookup_total_correct. unfold bs.
    rewrite seq_fmap_lookup, decide_True by lia. do 2 f_equal. lia.
Qed.
(** Changes to cache slots and ages only; [dst] is where bytes were copied to. *)
Lemma coherent_good w : coherent w → cache_off w = false → cache_good w ∧ page_in_use (bk_core w) (cache_page w).
Proof.
  intros [_ _ _ _ _ Hp H] Ho. split; [by apply H|]. apply Hp. unfold cache_off in Ho. apply orb_false_iff in Ho as [_ Ho]. by apply Z.eqb_neq.
Qed.

(** A world that keeps the registry and the drivers is coherent when what its
    cache holds was held before and lies where it lay. *)
Lemma coherent_kept w w' page off len : coherent w → io_kept w w' page off len → store_ok (bk_core w') → raw_ok (bk_raw w') →
  length (cache w') = length (cache w) →
  (cache_off w = false → ∀ i d s, holds_sector w' i d s → holds_sector w i d s ∧
     (registered w d → bd_cached (device w d) = true → ∀ x, sector_byte (bk_raw w') (dev_medium w d) s x = dev_byte w d s x)) →
  (cache_off w = false → ∀ x, 0 <= x < PAGE_SIZE → byte_at (bk_core w') (cache_page w) x = byte_at (bk_core w) (cache_page w) x) →
  coherent w'.
Proof.
  intros [C1 C2 C3 C4 C5 C6 C7] K Hs Hr Hl Hh Hb. split; [done|done|by rewrite (ik_table _ _ _ _ _ K)|by rewrite Hl| | |].
  - intros d d' A B. rewrite !(io_kept_medium _ _ _ _ _ _ K). apply C5; by apply (io_kept_registered _ _ _ _ _ _ K).
  - rewrite (ik_page _ _ _ _ _ K). intros Hp. by apply (ik_used _ _ _ _ _ K), C6.
  - rewrite (io_kept_off _ _ _ _ _ K). intros Ho. specialize (Hh Ho). specialize (Hb Ho). destruct (C7 Ho) as [G2 G3]. split.
    + intros i d s Hi. destruct (Hh _ _ _ Hi) as [Hi0 Hsame]. destruct (G2 _ _ _ Hi0) as (R & Rc & Rb).
      split; [by apply (io_kept_registered _ _ _ _ _ _ K)|]. split; [by rewrite (io_kept_cached _ _ _ _ _ _ K)|].
      intros x Hx. unfold slot_byte, dev_byte. rewrite (ik_page _ _ _ _ _ K), (io_kept_medium _ _ _ _ _ _ K), Hsame, Hb by (done || (destruct Hi0 as [Hi0 _]; sec)). by apply Rb.
    + intros i j d s Hi Hj. apply (G3 i j d s); by apply Hh.
Qed.

Definition fits (off : Z) : Prop := 0 <= off ∧ off + BLKDEV_SECTOR_SIZE <= PAGE_SIZE.

Lemma read_hit_spec w d page off s b w' : coherent w → page_in_use (bk_core w) page → page ≠ cache_page w → fits off →
  cache_read_hit d page off s w = (b, w') →
  coherent w' ∧ io_kept w w' page off BLKDEV_SECTOR_SIZE ∧ bk_raw w' = bk_raw w ∧
  (b = true → ∀ x, 0 <= x < BLKDEV_SECTOR_SIZE → byte_at (bk_core w') page (off + x) = dev_byte w d s x).
Proof.
  intros Hc Hp Hn [Ho1 Ho2]. unfold cache_read_hit. destruct (cache_off w) eqn:Hoff.
  { intros [= <- <-]. split_and!; [done|apply io_kept_refl|done|done]. }
  destruct (coherent_good w Hc Hoff) as [Hg Hcp].
  destruct (find_locked_spec w d s) as [[-> _]|(i & -> & Hi)].
  { intros [= <- <-]. split_and!; [done|apply io_kept_refl|done|done]. }
  pose proof Hi as (Hi4 & _). rewrite (proj2 (Z.leb_le _ _)), Nat2Z.id, (slot_off_eq i Hi4) by lia. intros [= <- <-].
  set (w' := set_bk_core _ _).
  destruct (copy_sector_spec (bk_core w) (cache_page w) (Z.of_nat i * BLKDEV_SECTOR_SIZE) page off (co_store w Hc) Hcp Hp) as [K Hb];
    [sec|sec|done|done|].
  assert (io_kept w w' page off BLKDEV_SECTOR_SIZE) as Hk.
  { split; [done..| |]. - intros q. apply (pk_used _ _ _ _ _ K). - intros q x Hq _ Hx Hne. by apply (pk_byte _ _ _ _ _ K). }
  split_and!; [|done|done|].
  - apply (coherent_kept w w' page off _ Hc Hk); [apply K|exact (co_raw w Hc)|cbn; by rewrite length_alter| |].
    + intros _ j d' s' (Hj & Hv). split; [|intros; reflexivity]. split; [done|]. unfold entry in *. cbn [w' cache set_bk_core set_cache] in Hv.
      rewrite list_lookup_total_alter in Hv. by case_decide; [destruct_and!; subst|].
    + intros _ x Hx. apply (pk_byte _ _ _ _ _ K); [done|done|]. intros [E _]. by apply Hn.
  - intros _ x Hx. etrans; [exact (Hb x Hx)|]. by apply (cg_entry w Hg i d s Hi).
Qed.

Lemma insert_spec w d page off s : coherent w → registered w d → bd_cached (device w d) = true →
  page_in_use (bk_core w) page → page ≠ cache_page w → fits off →
  (∀ x, 0 <= x < BLKDEV_SECTOR_SIZE → byte_at (bk_core w) page (off + x) = dev_byte w d s x) →
  let w' := cache_insert_from_page d page off s w in
  coherent w' ∧ io_kept w w' page off 0 ∧ bk_raw w' = bk_raw w.
Proof.
  intros Hc Hreg Hca Hp Hn [Ho1 Ho2] Hdata. unfold cache_insert_from_page. destruct (cache_off w) eqn:Hoff.
  { split_and!; [done|apply io_kept_refl|done]. }
  destruct (coherent_good w Hc Hoff) as [Hg Hcp].
  assert (∃ i, (i < BLKDEV_CACHE_SLOTS)%nat ∧ (∀ j, holds_sector w j d s → j = i) ∧
    (if cache_find_locked d s w <? 0 then Z.of_nat (cache_victim_locked w) else cache_find_locked d s w) = Z.of_nat i) as (i & Hi & Hu & Hz).
  { destruct (find_locked_spec w d s) as [[-> Hno]|(i & -> & Hi)].
    - exists (cache_victim_locked w). split; [apply (cache_victim_lt _ 0); unfold BLKDEV_CACHE_SLOTS; lia|]. split; [|done]. intros j Hj. by destruct (Hno j).
    - exists i. split; [apply Hi|]. split; [intros j Hj; by apply (cg_unique w Hg j i d s)|]. destruct (Z.ltb_spec (Z.of_nat i) 0); [lia|done]. }
  cbn zeta. rewrite Hz, Nat2Z.id, (slot_off_eq i Hi). set (w' := set_bk_core _ _).
  destruct (copy_sector_spec (bk_core w) page off (cache_page w) (Z.of_nat i * BLKDEV_SECTOR_SIZE) (co_store w Hc) Hp Hcp) as [K Hb];
    [done|done|sec|sec|].
  assert (io_kept w w' page off 0) as Hk.
  { split; [done..| |].
    - intros q. apply (pk_used _ _ _ _ _ K).
    - intros q x Hq Hqc Hx Hne. apply (pk_byte _ _ _ _ _ K); [done|done|]. intros [-> _]. done. }
  assert (∀ j d' s', holds_sector w' j d' s' → (j = i ∧ d' = d ∧ s' = s) ∨ (j ≠ i ∧ holds_sector w j d' s')) as Hh.
  { intros j d' s' (Hj & Hv). unfold entry in Hv. cbn [w' cache set_bk_core set_cache] in Hv. destruct (decide (j = i)) as [->|Hne].
    - left. rewrite list_lookup_total_insert in Hv. case_decide as Hd; [cbn in Hv; naive_solver|]. destruct Hd. split; [done|]. change (i < length (cache w))%nat. by rewrite (co_cache w Hc).
    - right. rewrite list_lookup_total_insert_ne in Hv by done. split; [done|]. by split. }
  split_and!; [|done|done]. pose proof Hc as [C1 C2 C3 C4 C5 C6 C7].
  split; [apply K|done|done|cbn; by rewrite length_insert| | |].
  - intros a b A B. by apply C5.
  - intros _. by apply (pk_used _ _ _ _ _ K).
  - intros _. split.
    + intros j d' s' Hj. destruct (Hh _ _ _ Hj) as [(-> & -> & ->)|[Hne Hw]].
      * split; [done|]. split; [done|]. intros x Hx. etrans; [exact (Hb x Hx)|]. by apply Hdata.
      * destruct (cg_entry w Hg _ _ _ Hw) as (R & Rc & Rb). split; [done|]. split; [done|]. intros x Hx.
        etrans; [|by apply Rb]. unfold slot_byte. destruct Hw as [Hj4 _]. apply (pk_byte _ _ _ _ _ K); [done|..];
          sec || (intros [_ ?]; sec).
    + intros j k d' s' Hj Hk'. destruct (Hh _ _ _ Hj) as [(-> & -> & ->)|[Hne Hw]], (Hh _ _ _ Hk') as [(-> & ? & ?)|[Hne' Hw']].
      * done.
      * destruct Hne'. by apply Hu.
      * subst. destruct Hne. by apply Hu.
      * by apply (cg_unique w Hg j k d' s').
Qed.

Lemma invalidate_spec w d s : coherent w →
  let w' := cache_invalidate d s w in
  coherent w' ∧ io_kept w w' 0 0 0 ∧ bk_raw w' = bk_raw w ∧ bk_core w' = bk_core w ∧
  (cache_off w = false → ∀ i, ¬ holds_sector w' i d s).
Proof.
  intros Hc. unfold cache_invalidate. destruct (cache_off w) eqn:Hoff.
  { split_and!; [done|apply io_kept_refl|done..]. }
  destruct (coherent_good w Hc Hoff) as [Hg Hcp].
  destruct (find_locked_spec w d s) as [[E Hno]|(i & E & Hi)]; cbn zeta; rewrite E.
  { split_and!; [done|apply io_kept_refl|done|done|]. intros _. apply Hno. }
  rewrite (proj2 (Z.leb_le _ _)), Nat2Z.id by lia. pose proof Hi as (Hi4 & _). set (w' := set_cache _ _).
  assert (∀ j d' s', holds_sector w' j d' s' → j ≠ i ∧ holds_sector w j d' s') as Hh.
  { intros j d' s' (Hj & Hv). unfold entry in Hv. cbn [w' cache set_cache] in Hv.
    rewrite list_lookup_total_alter in Hv. case_decide as Hd; [naive_solver|]. split; [|by split].
    intros ->. apply Hd. split; [done|]. by rewrite (co_cache w Hc). }
  split_and!; [|by split|done|done|].
  - pose proof Hc as [C1 C2 C3 C4 C5 C6 C7]. split; [done|done|done|cbn; by rewrite length_alter|done|done|]. intros _. split.
    + intros j d' s' Hj. by apply (cg_entry w Hg), Hh.
    + intros j k d' s' Hj Hk'. apply (cg_unique w Hg j k d' s'); by apply Hh.
  - intros _ j Hj. destruct (Hh _ _ _ Hj) as [Hne Hw]. apply Hne. by apply (cg_unique w Hg j i d s).
Qed.
(** ** Reads and writes *)

(** Within a larger range of the page, and with other sectors unchanged. *)
Definition same_sectors (w w' : world) : Prop := ∀ m t x, sector_byte (bk_raw w') m t x = sector_byte (bk_raw w) m t x.

(** [n] sectors from [s] on of device [d] are at [off] in [page]. *)
Definition page_has (w : world) (page off : Z) (d : nat) (s n : Z) : Prop :=
  ∀ i x, 0 <= i < n → 0 <= x < BLKDEV_SECTOR_SIZE →
    byte_at (bk_core w) page (off + i * BLKDEV_SECTOR_SIZE + x) = dev_byte w d (s + i) x.

(** The arguments of a request. *)
Record request (w : world) (d : nat) (page off s n : Z) : Prop := {
  rq_dev : registered w d;
  rq_page : page_in_use (bk_core w) page;
  rq_cache : page ≠ cache_page w;
  rq_fits : in_page off n s
}.

Lemma request_kept w w' p o l d page off s n off' s' n' : request w d page off s n → io_kept w w' p o l → in_page off' n' s' →
  request w' d page off' s' n'.
Proof.
  intros [A B C D] K H. split; [by apply (io_kept_registered _ _ _ _ _ _ K)|by apply (ik_used _ _ _ _ _ K)|by rewrite (ik_page _ _ _ _ _ K)|done].
Qed.

Lemma dev_raw_read_spec w d page off s n rc w' : coherent w → request w d page off s n → dev_raw_read d page off s n w = (rc, w') →
  coherent w' ∧ io_kept w w' page off (n * BLKDEV_SECTOR_SIZE) ∧ same_sectors w w' ∧ (0 <= rc → page_has w' page off d s n).
Proof.
  intros Hc [Hreg Hp Hn Hf]. unfold dev_raw_read. destruct (raw_read _ _ _ _ _ _ _) as [rc' [c' r']] eqn:E. intros [= <- <-].
  destruct (raw_read_spec _ _ _ _ _ _ _ _ _ _ _ (co_store w Hc) (co_raw w Hc) Hp Hf E) as (K & Hr & Hs & Hd).
  assert (io_kept w (set_io (c', r') w) page off (n * BLKDEV_SECTOR_SIZE)) as Hk.
  { split; [done..| |]. - apply K. - intros q x Hq _. by apply K. }
  split_and!; [|done|exact Hs|].
  - apply (coherent_kept _ _ _ _ _ Hc Hk); [apply K|done|done| |].
    + intros Ho i d' s' Hi. split; [done|]. intros _ _ x. apply Hs.
    + intros Ho x Hx. destruct (coherent_good w Hc Ho) as [_ Hu]. apply (pk_byte _ _ _ _ _ K); [done|done|]. intros [? _]; by apply Hn.
  - intros Hrc i x Hi Hx. unfold dev_byte. cbn. rewrite Hs. by apply Hd.
Qed.

Lemma dev_raw_write_spec w d page off s n rc w' : coherent w → request w d page off s n →
  (cache_off w = false → bd_cached (device w d) = true → ∀ i t, s <= t < s + n → ¬ holds_sector w i d t) →
  dev_raw_write d page off s n w = (rc, w') →
  coherent w' ∧ io_kept w w' page off 0 ∧
  (∀ d' t x, registered w d' → ¬ (d' = d ∧ s <= t < s + n) → dev_byte w' d' t x = dev_byte w d' t x) ∧
  (0 <= rc → page_has w' page off d s n).
Proof.
  intros Hc [Hreg Hp Hn Hf] Hno. unfold dev_raw_write. destruct (raw_write _ _ _ _ _ _ _) as [rc' [c' r']] eqn:E. intros [= <- <-].
  destruct (raw_write_spec _ _ _ _ _ _ _ _ _ _ _ (co_store w Hc) (co_raw w Hc) Hp Hf E) as (K & Hr & Hs & Hd).
  assert (io_kept w (set_io (c', r') w) page off 0) as Hk.
  { split; [done..| |]. - apply K. - intros q x Hq _. by apply K. }
  assert (∀ q x, page_in_use (bk_core w) q → 0 <= x < PAGE_SIZE → byte_at c' q x = byte_at (bk_core w) q x) as Hsame.
  { intros q x Hq Hx. apply (pk_byte _ _ _ _ _ K); [done|done|]. lia. }
  split_and!; [|done| |].
  - apply (coherent_kept _ _ _ _ _ Hc Hk); [apply K|done|done| |].
    + intros Ho i d' t Hi. split; [done|]. intros Hreg' Hca x. apply Hs. intros [Em Ht].
      assert (d' = d) as -> by (by apply (co_media w Hc)). by apply (Hno Ho Hca i t Ht).
    + intros Ho x Hx. apply Hsame; [|done]. by destruct (coherent_good w Hc Ho).
  - intros d' t x Hreg' Hne. apply Hs. intros [Em Ht]. apply Hne. split; [|done]. by apply (co_media w Hc).
  - intros Hrc i x Hi Hx. cbn. rewrite Hsame; [symmetry; by apply Hd|done|]. destruct Hf as (? & ? & ? & _). sec.
Qed.
(** One more sector is in place. *)
Lemma page_has_step w w' page off d s n i : request w d page off s n → 0 <= i < n →
  page_has w page off d s i → io_kept w w' page (off + i * BLKDEV_SECTOR_SIZE) BLKDEV_SECTOR_SIZE →
  (∀ j x, 0 <= j < i → dev_byte w' d (s + j) x = dev_byte w d (s + j) x) →
  (∀ x, 0 <= x < BLKDEV_SECTOR_SIZE → byte_at (bk_core w') page (off + i * BLKDEV_SECTOR_SIZE + x) = dev_byte w' d (s + i) x) →
  page_has w' page off d s (i + 1).
Proof.
  intros [_ Hp Hn (F1 & F2 & F3 & _)] Hi Hh K Hs Hx j x Hj Hx'. destruct (decide (j = i)) as [->|]; [by apply Hx|].
  rewrite Hs by lia. rewrite (ik_byte _ _ _ _ _ K); [apply Hh; [lia|done]|done|done|sec|intros [_ ?]; sec].
Qed.

Lemma same_dev_byte w w' page off len d s x : io_kept w w' page off len → same_sectors w w' → dev_byte w' d s x = dev_byte w d s x.
Proof. intros K Hs. unfold dev_byte. by rewrite (io_kept_medium _ _ _ _ _ _ K), Hs. Qed.

Lemma same_sectors_trans w1 w2 w3 : same_sectors w1 w2 → same_sectors w2 w3 → same_sectors w1 w3.
Proof. intros A B m t x. by rewrite B. Qed.

(** The sector and the offset of pass [i]. *)
Lemma pass_args w d page off s n i : request w d page off s n → 0 <= i < n →
  u32 (s + i) = s + i ∧ u16 (off + i * BLKDEV_SECTOR_SIZE) = off + i * BLKDEV_SECTOR_SIZE ∧
  fits (off + i * BLKDEV_SECTOR_SIZE) ∧ in_page (off + i * BLKDEV_SECTOR_SIZE) 1 (s + i).
Proof.
  intros [_ _ _ (F1 & F2 & F3 & F4 & F5)] Hi. split_and!.
  - apply uN_small. lia.
  - apply uN_small. sec.
  - split; sec.
  - unfold in_page. split_and!; sec.
Qed.

(** The contract of [read] and of [write], with a cache before the driver. *)
Definition reads_ok (d : nat) (page off s n rc : Z) (w w' : world) : Prop :=
  coherent w' ∧ io_kept w w' page off (n * BLKDEV_SECTOR_SIZE) ∧ same_sectors w w' ∧ (0 <= rc → page_has w' page off d s n).
Definition writes_ok (d : nat) (page off s n rc : Z) (w w' : world) : Prop :=
  coherent w' ∧ io_kept w w' page off 0 ∧
  (∀ d' t x, registered w d' → ¬ (d' = d ∧ s <= t < s + n) → dev_byte w' d' t x = dev_byte w d' t x) ∧
  (0 <= rc → page_has w' page off d s n).

(** The part of a pass of the read loop before the test of [rc]. *)
Lemma read_pass w d page off s n i w1 w2 rc b : coherent w → request w d page off s n → bd_cached (device w d) = true → 0 <= i < n →
  page_has w page off d s i →
  cache_read_hit d page (off + i * BLKDEV_SECTOR_SIZE) (s + i) w = (b, w1) →
  (if b then rc = 0 ∧ w2 = w1
   else ∃ w', dev_raw_read d page (off + i * BLKDEV_SECTOR_SIZE) (s + i) 1 w1 = (rc, w') ∧
     w2 = if rc <? 0 then w' else cache_insert_from_page d page (off + i * BLKDEV_SECTOR_SIZE) (s + i) w') →
  coherent w2 ∧ io_kept w w2 page off (n * BLKDEV_SECTOR_SIZE) ∧ same_sectors w w2 ∧ (0 <= rc → page_has w2 page off d s (i + 1)).
Proof.
  intros Hc Hq Hca Hi Hh Hhit Hrest. destruct (pass_args w d page off s n i Hq Hi) as (_ & _ & Hf & Hin).
  pose proof Hq as [Hreg Hp Hn (F1 & F2 & F3 & _)].
  destruct (read_hit_spec _ _ _ _ _ _ _ Hc Hp Hn Hf Hhit) as (C1 & K1 & R1 & D1).
  assert (same_sectors w w1) as S1 by (intros m t x; by rewrite R1).
  assert (∀ w', io_kept w w' page (off + i * BLKDEV_SECTOR_SIZE) BLKDEV_SECTOR_SIZE → io_kept w w' page off (n * BLKDEV_SECTOR_SIZE)) as Hwide.
  { intros w' K. apply (io_kept_weaken _ _ _ _ _ off (n * BLKDEV_SECTOR_SIZE) K); sec. }
  assert (∀ w', io_kept w w' page (off + i * BLKDEV_SECTOR_SIZE) BLKDEV_SECTOR_SIZE → same_sectors w w' →
    (∀ x, 0 <= x < BLKDEV_SECTOR_SIZE → byte_at (bk_core w') page (off + i * BLKDEV_SECTOR_SIZE + x) = dev_byte w' d (s + i) x) →
    page_has w' page off d s (i + 1)) as Hnext.
  { intros w' K Hs Hx. apply (page_has_step w w' page off d s n i Hq Hi Hh K); [|done]. intros j x _. by apply (same_dev_byte _ _ _ _ _ _ _ _ K Hs). }
  destruct b.
  - destruct Hrest as [-> ->]. split_and!; [done|by apply Hwide|done|]. intros _. apply Hnext; [done..|].
    intros x Hx. rewrite (same_dev_byte _ _ _ _ _ _ _ _ K1 S1). by apply D1.
  - destruct Hrest as (w' & E & ->).
    destruct (dev_raw_read_spec w1 d page _ (s + i) 1 rc w' C1 (request_kept _ _ _ _ _ _ _ _ _ _ _ _ _ Hq K1 Hin) E) as (C2 & K2 & S2 & D2).
    rewrite Z.mul_1_l in K2. pose proof (io_kept_trans _ _ _ _ _ _ K1 K2) as K. pose proof (same_sectors_trans _ _ _ S1 S2) as S.
    destruct (Z.ltb_spec rc 0) as [Hrc|Hrc]; [split_and!; [done|by apply Hwide|done|lia]|].
    assert (∀ x, 0 <= x < BLKDEV_SECTOR_SIZE → byte_at (bk_core w') page (off + i * BLKDEV_SECTOR_SIZE + x) = dev_byte w' d (s + i) x) as Hx.
    { intros x Hx. specialize (D2 Hrc 0 x ltac:(lia) Hx). by rewrite !Z.mul_0_l, !Z.add_0_r in D2. }
    destruct (insert_spec w' d page (off + i * BLKDEV_SECTOR_SIZE) (s + i) C2) as (C3 & K3 & R3);
      [by apply (io_kept_registered _ _ _ _ _ _ K)|by rewrite (io_kept_cached _ _ _ _ _ _ K)|by apply (ik_used _ _ _ _ _ K)|
       by rewrite (ik_page _ _ _ _ _ K)|done|exact Hx|].
    set (w3 := cache_insert_from_page _ _ _ _ _) in *.
    assert (same_sectors w' w3) as S3 by (intros m t x; by rewrite R3).
    assert (io_kept w w3 page (off + i * BLKDEV_SECTOR_SIZE) BLKDEV_SECTOR_SIZE) as K'.
    { apply (io_kept_trans _ _ _ _ _ _ K). apply (io_kept_weaken _ _ _ _ _ _ _ K3); sec. }
    split_and!; [done|by apply Hwide|by apply (same_sectors_trans _ w')|]. intros _. apply Hnext; [done|by apply (same_sectors_trans _ w')|].
    intros x Hx'. rewrite (same_dev_byte _ _ _ _ _ _ _ _ K3 S3). rewrite (ik_byte _ _ _ _ _ K3); [by apply Hx|by apply (ik_used _ _ _ _ _ K)|
      by rewrite (ik_page _ _ _ _ _ K)|sec|lia].
Qed.

Lemma read_loop_spec k i w d page off s n rc w' : coherent w → request w d page off s n → bd_cached (device w d) = true →
  0 <= i → i + Z.of_nat k = n → page_has w page off d s i →
  cached_read_loop k i d page off s w = (rc, w') → reads_ok d page off s n rc w w'.
Proof.
  revert i w. induction k as [|k IH]; intros i w Hc Hq Hca Hi Hk Hh; cbn [cached_read_loop].
  { intros [= <- <-]. replace n with i by lia. split_and!; [done|apply io_kept_refl|done|done]. }
  destruct (pass_args w d page off s n i Hq) as (-> & -> & _); [lia|].
  assert (∀ w2, coherent w2 → io_kept w w2 page off (n * BLKDEV_SECTOR_SIZE) → same_sectors w w2 → page_has w2 page off d s (i + 1) →
    cached_read_loop k (i + 1) d page off s w2 = (rc, w') → reads_ok d page off s n rc w w') as Hgo.
  { intros w2 C K S H E. apply IH in E; [|done|by apply (request_kept _ _ _ _ _ _ _ _ _ _ _ _ _ Hq K), Hq|by rewrite (io_kept_cached _ _ _ _ _ _ K)|lia|lia|done].
    destruct E as (A & B & D & F). split_and!; [done|by apply (io_kept_trans _ _ _ _ _ _ K)|by apply (same_sectors_trans _ w2)|done]. }
  destruct (cache_read_hit _ _ _ _ w) as [b w1] eqn:Ehit. destruct b.
  - destruct (read_pass w d page off s n i w1 w1 0 true) as (A & B & D & F); [done..|lia|done|done|done|]. apply Hgo; [done..|]. by apply F.
  - destruct (dev_raw_read _ _ _ _ _ _) as [rc1 w2] eqn:Er.
    destruct (read_pass w d page off s n i w1 _ rc1 false Hc Hq Hca ltac:(lia) Hh Ehit ltac:(by exists w2)) as (A & B & D & F).
    destruct (Z.ltb_spec rc1 0) as [Hrc|Hrc].
    + intros [= <- <-]. split_and!; [done..|lia].
    + apply Hgo; [done..|]. by apply F.
Qed.
(** The part of a pass of the write loop before the test of [rc]. *)
Lemma write_pass w d page off s n i w1 rc : coherent w → request w d page off s n → bd_cached (device w d) = true → 0 <= i < n →
  page_has w page off d s i →
  dev_raw_write d page (off + i * BLKDEV_SECTOR_SIZE) (s + i) 1 (cache_invalidate d (s + i) w) = (rc, w1) →
  let w2 := if rc <? 0 then w1 else cache_insert_from_page d page (off + i * BLKDEV_SECTOR_SIZE) (s + i) w1 in
  coherent w2 ∧ io_kept w w2 page off 0 ∧
  (∀ d' t x, registered w d' → ¬ (d' = d ∧ s <= t < s + n) → dev_byte w2 d' t x = dev_byte w d' t x) ∧
  (0 <= rc → page_has w2 page off d s (i + 1)).
Proof.
  intros Hc Hq Hca Hi Hh E. destruct (pass_args w d page off s n i Hq Hi) as (_ & _ & Hf & Hin).
  pose proof Hq as [Hreg Hp Hn (F1 & F2 & F3 & _)].
  destruct (invalidate_spec w d (s + i) Hc) as (C1 & K1 & R1 & _ & No). set (w0 := cache_invalidate _ _ _) in *.
  apply (io_kept_none _ _ _ _ page off 0) in K1.
  destruct (dev_raw_write_spec w0 d page _ (s + i) 1 rc w1 C1 (request_kept _ _ _ _ _ _ _ _ _ _ _ _ _ Hq K1 Hin)) as (C2 & K2 & S2 & D2); [|done|].
  { intros Ho _ j t Ht. replace t with (s + i) by lia. apply No. by rewrite <-(io_kept_off _ _ _ _ _ K1). }
  apply (io_kept_none _ _ _ _ page off 0) in K2. pose proof (io_kept_trans _ _ _ _ _ _ K1 K2) as K.
  assert (∀ d' t x, registered w d' → ¬ (d' = d ∧ t = s + i) → dev_byte w1 d' t x = dev_byte w d' t x) as S.
  { intros d' t x Hr Hne. rewrite S2; [unfold dev_byte; by rewrite (io_kept_medium _ _ _ _ _ _ K1), R1|
      by apply (io_kept_registered _ _ _ _ _ _ K1)|intros [? ?]; apply Hne; split; [done|lia]]. }
  destruct (Z.ltb_spec rc 0) as [Hrc|Hrc]; cbn zeta.
  { split_and!; [done|done| |lia]. intros d' t x Hr Hne. apply S; [done|]. intros [? ->]. apply Hne. split; [done|lia]. }
  assert (∀ x, 0 <= x < BLKDEV_SECTOR_SIZE → byte_at (bk_core w1) page (off + i * BLKDEV_SECTOR_SIZE + x) = dev_byte w1 d (s + i) x) as Hx.
  { intros x Hx. specialize (D2 Hrc 0 x ltac:(lia) Hx). by rewrite !Z.mul_0_l, !Z.add_0_r in D2. }
  destruct (insert_spec w1 d page (off + i * BLKDEV_SECTOR_SIZE) (s + i) C2) as (C3 & K3 & R3);
    [by apply (io_kept_registered _ _ _ _ _ _ K)|by rewrite (io_kept_cached _ _ _ _ _ _ K)|by apply (ik_used _ _ _ _ _ K)|
     by rewrite (ik_page _ _ _ _ _ K)|done|exact Hx|].
  set (w2 := cache_insert_from_page _ _ _ _ _) in *. apply (io_kept_none _ _ _ _ page off 0) in K3.
  assert (same_sectors w1 w2) as S3 by (intros m t x; by rewrite R3).
  pose proof (io_kept_trans _ _ _ _ _ _ K K3) as K'.
  split_and!; [done|done| |].
  - intros d' t x Hr Hne. rewrite (same_dev_byte _ _ _ _ _ _ _ _ K3 S3). apply S; [done|]. intros [? ->]. apply Hne. split; [done|lia].
  - intros _. apply (page_has_step w w2 page off d s n i Hq Hi Hh).
    + by apply (io_kept_none _ _ _ _ _ _ _ K').
    + intros j x Hj. rewrite (same_dev_byte _ _ _ _ _ _ _ _ K3 S3). apply S; [done|]. intros [_ ?]. lia.
    + intros x Hx'. rewrite (same_dev_byte _ _ _ _ _ _ _ _ K3 S3). rewrite (ik_byte _ _ _ _ _ K3); [by apply Hx|by apply (ik_used _ _ _ _ _ K)|
        by rewrite (ik_page _ _ _ _ _ K)|sec|lia].
Qed.

Lemma write_loop_spec k i w d page off s n rc w' : coherent w → request w d page off s n → bd_cached (device w d) = true →
  0 <= i → i + Z.of_nat k = n → page_has w page off d s i →
  cached_write_loop k i d page off s w = (rc, w') → writes_ok d page off s n rc w w'.
Proof.
  revert i w. induction k as [|k IH]; intros i w Hc Hq Hca Hi Hk Hh; cbn [cached_write_loop].
  { intros [= <- <-]. replace n with i by lia. split_and!; [done|apply io_kept_refl|done|done]. }
  destruct (pass_args w d page off s n i Hq) as (-> & -> & _); [lia|].
  destruct (dev_raw_write _ _ _ _ _ _) as [rc1 w1] eqn:Ew.
  destruct (write_pass w d page off s n i w1 rc1 Hc Hq Hca ltac:(lia) Hh Ew) as (C & K & S & D). cbn zeta in *.
  destruct (Z.ltb_spec rc1 0) as [Hrc|Hrc].
  - intros [= <- <-]. split_and!; [done..|lia].
  - intros E. destruct Hq as [Q1 Q2 Q3 Q4].
    apply IH in E; [|done|by apply (request_kept _ _ _ _ _ _ _ _ _ _ _ _ _ ltac:(by split) K)|by rewrite (io_kept_cached _ _ _ _ _ _ K)|lia|lia|by apply D].
    destruct E as (A & B & F & G). split_and!; [done|by apply (io_kept_trans _ _ _ _ _ _ K)| |done].
    intros d' t x Hr Hne. rewrite F; [by apply S|by apply (io_kept_registered _ _ _ _ _ _ K)|done].
Qed.

Lemma page_has_none w page off d s : page_has w page off d s 0.
Proof. intros i x Hi. lia. Qed.

(** The first registration of a medium, and its consequences. *)
Lemma find_device_spec P n i (l : list blkdev_t) :
  match find_device P n i l with
  | Some j => (i <= j < i + n)%nat ∧ P (l !!! j) = true ∧ ∀ k, (i <= k < j)%nat → P (l !!! k) = false
  | None => ∀ k, (i <= k < i + n)%nat → P (l !!! k) = false
  end.
Proof.
  revert i. induction n as [|n IH]; intros i; cbn [find_device]; [intros; lia|]. destruct (P (l !!! i)) eqn:E.
  - split; [lia|]. split; [done|]. intros; lia.
  - specialize (IH (S i)). destruct (find_device _ _ _ _) as [j|].
    + destruct IH as (A & B & C). split; [lia|]. split; [done|]. intros k Hk. destruct (decide (k = i)) as [->|]; [done|]. apply C. lia.
    + intros k Hk. destruct (decide (k = i)) as [->|]; [done|]. apply IH. lia.
Qed.
(** Switching the cache on or off leaves every sector as it is. *)
Lemma set_enabled_coherent b w : coherent w →
  let w' := blkdev_cache_set_enabled b w in
  coherent w' ∧ blkdev_table w' = blkdev_table w ∧ same_sectors w w' ∧ ∀ q, page_in_use (bk_core w) q → page_in_use (bk_core w') q.
Proof.
  intros Hc. unfold blkdev_cache_set_enabled.
  set (w1 := if b && (cache_page w =? PAGE_ID_INVALID) then _ else _).
  assert (store_ok (bk_core w1) ∧ bk_raw w1 = bk_raw w ∧ blkdev_table w1 = blkdev_table w ∧ cache w1 = cache w ∧
    (cache_page w1 ≠ PAGE_ID_INVALID → page_in_use (bk_core w1) (cache_page w1)) ∧
    ∀ q, page_in_use (bk_core w) q → page_in_use (bk_core w1) q) as (A & B & C & D & F & Hq).
  { subst w1. destruct (b && _); [|split_and!; [apply Hc|done..|apply Hc|done]]. destruct (core_alloc (bk_core w)) as [[rc p] c] eqn:E.
    destruct (store_alloc _ _ _ _ (co_store w Hc) E) as (S & _ & U). destruct (Z.eqb_spec rc 0) as [->|]; split_and!; try done; cbn.
    - intros _. apply U. by right.
    - intros q Hq. apply U. by left.
    - intros Hp. pose proof (co_page w Hc Hp). destruct (rc <? 0); [by apply U|]. apply U. by left.
    - intros q Hq. destruct (rc <? 0); [by apply U|]. apply U. by left. }
  cbn zeta. set (w2 := cache_invalidate_all_locked _).
  assert (blkdev_table w2 = blkdev_table w) as T by done. assert (bk_raw w2 = bk_raw w) as R by done.
  split_and!; [|done|intros m t x; by rewrite R|exact Hq].
  pose proof Hc as [C1 C2 C3 C4 C5 C6]. split; [done|by rewrite R|by rewrite T|cbn; by rewrite length_fmap, D| |done|].
  - intros d d'. unfold registered, dev_medium, device. rewrite T. apply C5.
  - intros Hoff. assert (∀ i d s, ¬ holds_sector w2 i d s) as Hno.
    { intros i d s (Hi & Hv & _). unfold entry in Hv. cbn [w2 cache cache_invalidate_all_locked set_cache] in Hv.
      rewrite (list_lookup_total_correct _ _ (set_ce_valid false (cache w1 !!! i))) in Hv; [done|].
      rewrite list_lookup_fmap. cbn. rewrite (list_lookup_lookup_total_lt (cache w1)); [done|]. rewrite D, C4. done. }
    split; [intros i d s Hi; by destruct (Hno i d s)|intros i j d s Hi; by destruct (Hno i d s)].
Qed.

Lemma register_coherent dev w rc w' : coherent w → blkdev_register dev w = (rc, w') →
  (∀ nd i d, dev = Some nd → registered w d → medium (bd_raw nd) i ≠ dev_medium w d) →
  (rc < 0 ∧ w' = w) ∨
  (coherent w' ∧ same_sectors w w' ∧ ¬ registered w (Z.to_nat rc) ∧ registered w' (Z.to_nat rc) ∧
   blkdev_table w' = <[Z.to_nat rc := device w' (Z.to_nat rc)]> (blkdev_table w)).
Proof.
  intros Hc. unfold blkdev_register. destruct dev as [nd|]; [|intros [= <- <-]; left; done].
  destruct (bd_name nd) as [nm|] eqn:En; [|intros [= <- <-]; left; done].
  pose proof (find_device_spec (λ d, bool_decide (bd_name d = None)) BLKDEV_MAX 0 (blkdev_table w)) as Hf.
  destruct (find_device _ _ _ _) as [i|]; [|intros [= <- <-]; left; done].
  destruct Hf as (Hi & Hn & _). apply bool_decide_eq_true in Hn. intros [= <- <-] Hm. right. rewrite Nat2Z.id.
  set (nd' := BlkDev (Some nm) _ _ _ _). set (w' := set_table _ w).
  assert (i < length (blkdev_table w))%nat as Hlt by (rewrite (co_table w Hc); lia).
  assert (device w' i = nd') as Ed by (unfold device; cbn; by rewrite list_lookup_total_insert, decide_True by done).
  assert (∀ d, d ≠ i → device w' d = device w d) as Eo by (intros d Hd; unfold device; cbn; by rewrite list_lookup_total_insert_ne).
  assert (¬ registered w i) as Hfree by (intros [_ H]; by apply H).
  assert (∀ d, registered w d → d ≠ i ∧ registered w' d ∧ dev_medium w' d = dev_medium w d) as Hold.
  { intros d Hr. assert (d ≠ i) as Hd by (by intros ->). split; [done|]. unfold registered, dev_medium. rewrite Eo by done. by destruct Hr. }
  assert (∀ d, registered w' d → d = i ∨ registered w d) as Hnew.
  { intros d [H1 H2]. destruct (decide (d = i)) as [|Hd]; [by left|]. right. unfold registered. by rewrite <-Eo. }
  split_and!; [|done|done|split; [lia|by rewrite Ed]|by rewrite Ed].
  pose proof Hc as [C1 C2 C3 C4 C5 C6 C7]. split; [done|done|cbn; by rewrite length_insert|done| |done|].
  - assert (∀ d, registered w d → dev_medium w' i ≠ dev_medium w' d) as Hx.
    { intros d Hr. destruct (Hold d Hr) as (_ & _ & ->). unfold dev_medium at 1. rewrite Ed. exact (Hm nd i d eq_refl Hr). }
    intros d d' H1 H2 E. destruct (Hnew d H1) as [->|R1], (Hnew d' H2) as [->|R2]; [done|by destruct (Hx d' R2)|by destruct (Hx d R1)|].
    apply C5; [done..|]. destruct (Hold d R1) as (_ & _ & <-), (Hold d' R2) as (_ & _ & <-). done.
  - intros Ho. destruct (C7 Ho) as [G1 G2]. split; [|done]. intros j d s Hj. destruct (G1 j d s Hj) as (R & Rc & Rb). destruct (Hold d R) as (H1 & H2 & H3).
    split; [done|]. split; [by rewrite Eo|]. intros x Hx. unfold dev_byte. rewrite H3. by apply Rb.
Qed.
(** C21. The sector cache is transparent: with the cache coherent, a request to a
    registered device, cached or not, keeps the contract of its driver.  A read
    changes no sector and no byte outside its range of the page, and if it
    succeeds the page holds the sectors; a write changes no byte of any page but
    the cache's and no sector outside the request, and if it succeeds the sectors
    hold the page's bytes.  Whatever happens the cache is coherent afterwards. *)
Theorem blkdev_cache_transparent w d page off s n : coherent w → request w d page off s n →
  (∀ rc w', dev_read d page off s n w = (rc, w') → reads_ok d page off s n rc w w') ∧
  (∀ rc w', dev_write d page off s n w = (rc, w') → writes_ok d page off s n rc w w').
Proof.
  intros Hc Hq. assert (0 < n) as Hn by apply Hq. unfold dev_read, dev_write, blkdev_cached_read, blkdev_cached_write.
  destruct (bd_cached (device w d)) eqn:Hca; split; intros rc w' E.
  - apply (read_loop_spec _ 0 _ _ _ _ _ _ _ _ Hc Hq Hca) in E; [done|done|lia|apply page_has_none].
  - apply (write_loop_spec _ 0 _ _ _ _ _ _ _ _ Hc Hq Hca) in E; [done|done|lia|apply page_has_none].
  - by apply dev_raw_read_spec.
  - apply dev_raw_write_spec in E; [done..|congruence].
Qed.
(** At boot: nothing is registered and the cache has no page. *)
Lemma boot_coherent w : store_ok (bk_core w) → raw_ok (bk_raw w) → length (blkdev_table w) = BLKDEV_MAX →
  length (cache w) = BLKDEV_CACHE_SLOTS → (∀ d, ¬ registered w d) → cache_page w = PAGE_ID_INVALID → coherent w.
Proof.
  intros H1 H2 H3 H4 Hno Hp. split; [done..| | |].
  - intros d d' Hd. by destruct (Hno d).
  - done.
  - unfold cache_off. rewrite Hp, Z.eqb_refl, orb_true_r. done.
Qed.
End Cache.
