(* ===== verification/RamBlk.v ===== *)
(** * RamBlk: the memory-backed block devices (src/kernel/vfs/driver/ramblk.c,
    flatblk.c)

    A ROM image with a write overlay in SRAM, and a flat image without one, as
    drivers of the registry.  Memory outside the pages is a function from
    offsets to bytes.  The proofs show that both keep the contract of BlkDevFacts,
    and an example shows the registry's cache losing a write on two cores. *)

From S2P Require Import Prelude Config PagePool PagePoolFacts Page Region PageFacts.
From S2P Require Import UserCopy ModCore BlkDev BlkDevFacts.

Definition SRAM_IOBUF_SIZE : Z := 24 * 1024.
Definition OVERLAY_CAP : Z := SRAM_IOBUF_SIZE / BLKDEV_SECTOR_SIZE.
Definition SLOT_CLEAN : Z := 0xFFFF.
Definition MAX_SECTORS : nat := 512.

(** The static state of the two drivers; [overlay], [rom] and [flat] are the
    bytes from OVERLAY_BASE, [rom_base] and [flat_base] on. *)
Record memblk := Memblk {
  slot_map : list Z;
  dirty_count : Z;
  overlay : Z → Z;
  rom : Z → Z;
  rom_sectors : Z;
  flat : Z → Z;
  flat_sectors : Z
}.

Definition set_slot (s v : Z) (r : memblk) : memblk :=
  Memblk (<[Z.to_nat s := u16 v]> (slot_map r)) (dirty_count r) (overlay r) (rom r) (rom_sectors r) (flat r) (flat_sectors r).
Definition set_dirty_count (v : Z) (r : memblk) : memblk :=
  Memblk (slot_map r) (u32 v) (overlay r) (rom r) (rom_sectors r) (flat r) (flat_sectors r).
Definition set_overlay (v : Z → Z) (r : memblk) : memblk :=
  Memblk (slot_map r) (dirty_count r) v (rom r) (rom_sectors r) (flat r) (flat_sectors r).
Definition slot_at (r : memblk) (s : Z) : Z := slot_map r !!! Z.to_nat s.

Definition bytes_from (mem : Z → Z) (p : Z) (n : nat) : list Z := (λ i, mem (p + Z.of_nat i)) <$> seq 0 n.

Section Drivers.
Context {cfg : PageConfig} {ps : PageStore}.

(** [n] passes are left, sector [s] is next. *)
Fixpoint ramblk_read_loop (n : nat) (page off s : Z) (c : core) (r : memblk) : Z * (core * memblk) :=
  match n with
  | O => (0, (c, r))
  | S n =>
      if rom_sectors r <=? s then (- EIO, (c, r))
      else
        let src := if negb (slot_at r s =? SLOT_CLEAN) then bytes_from (overlay r) (slot_at r s * BLKDEV_SECTOR_SIZE) SECTOR
                   else bytes_from (rom r) (s * BLKDEV_SECTOR_SIZE) SECTOR in
        ramblk_read_loop n page (u16 (off + BLKDEV_SECTOR_SIZE)) (s + 1) (core_write page off src c) r
  end.
Definition ramblk_read (page off sector count : Z) (io : core * memblk) : Z * (core * memblk) :=
  ramblk_read_loop (Z.to_nat (u32 (sector + count) - sector)) page off sector io.1 io.2.

Fixpoint ramblk_write_loop (n : nat) (page off s : Z) (c : core) (r : memblk) : Z * (core * memblk) :=
  match n with
  | O => (0, (c, r))
  | S n =>
      if rom_sectors r <=? s then (- EIO, (c, r))
      else if (slot_at r s =? SLOT_CLEAN) && (OVERLAY_CAP <=? dirty_count r) then (- ENOSPC, (c, r))
      else
        let slot := if slot_at r s =? SLOT_CLEAN then dirty_count r else slot_at r s in
        let r := if slot_at r s =? SLOT_CLEAN then set_slot s slot (set_dirty_count (dirty_count r + 1) r) else r in
        let r := set_overlay (mem_write (overlay r) (slot * BLKDEV_SECTOR_SIZE) (core_read page off SECTOR c)) r in
        ramblk_write_loop n page (u16 (off + BLKDEV_SECTOR_SIZE)) (s + 1) c r
  end.
Definition ramblk_write (page off sector count : Z) (io : core * memblk) : Z * (core * memblk) :=
  ramblk_write_loop (Z.to_nat (u32 (sector + count) - sector)) page off sector io.1 io.2.

Definition flatblk_read (page off sector count : Z) (io : core * memblk) : Z * (core * memblk) :=
  if flat_sectors io.2 <? u32 (sector + count) then (- EIO, io)
  else (0, (core_write page off (bytes_from (flat io.2) (u32 (sector * BLKDEV_SECTOR_SIZE)) (Z.to_nat (u16 (u32 (count * BLKDEV_SECTOR_SIZE))))) io.1, io.2)).
Definition flatblk_write (io : core * memblk) : Z * (core * memblk) := (- EIO, io).

Definition DRV_RAMBLK : Z := 0.
Definition DRV_FLATBLK : Z := 1.

#[export] Instance mem_drivers : RawDriver := {|
  raw := memblk;
  raw_read drv dev page off s n io := if drv =? DRV_RAMBLK then ramblk_read page off s n io else flatblk_read page off s n io;
  raw_write drv dev page off s n io := if drv =? DRV_RAMBLK then ramblk_write page off s n io else flatblk_write io
|}.

(** ** Initialisation *)

(** [base] is None for NULL. *)
Definition ramblk_init (base : option (Z → Z)) (size_bytes : Z) (w : blkdevs) : Z * blkdevs :=
  match base with
  | None => (- EINVAL, w)
  | Some base =>
      if size_bytes <? BLKDEV_SECTOR_SIZE then (- EINVAL, w)
      else
        let n := size_bytes / BLKDEV_SECTOR_SIZE in
        let n := if Z.of_nat MAX_SECTORS <? n then Z.of_nat MAX_SECTORS else n in
        let r := bk_raw w in
        let r := Memblk (replicate MAX_SECTORS SLOT_CLEAN) 0 (overlay r) base n (flat r) (flat_sectors r) in
        blkdev_register (Some (BlkDev (Some [109; 109; 99; 98; 108; 107; 48]) n 0 DRV_RAMBLK false)) (set_io (bk_core w, r) w)
  end.

Definition flatblk_init (nm : option (list Z)) (base : option (Z → Z)) (size_bytes : Z) (w : blkdevs) : Z * blkdevs :=
  match base with
  | None => (- EINVAL, w)
  | Some base =>
      if size_bytes <? BLKDEV_SECTOR_SIZE then (- EINVAL, w)
      else
        let n := size_bytes / BLKDEV_SECTOR_SIZE in
        let r := bk_raw w in
        let r := Memblk (slot_map r) (dirty_count r) (overlay r) (rom r) (rom_sectors r) base n in
        blkdev_register (Some (BlkDev nm n 0 DRV_FLATBLK false)) (set_io (bk_core w, r) w)
  end.
End Drivers.

(** ** The contract *)

Section Contract.
Context {cfg : PageConfig} {ps : PageStore} {psok : PageStoreOk}.

Definition slot_used (r : memblk) (s : Z) : Prop := 0 <= s < Z.of_nat MAX_SECTORS ∧ slot_at r s ≠ SLOT_CLEAN.

Record mem_ok (r : memblk) : Prop := {
  mo_map : length (slot_map r) = MAX_SECTORS;
  mo_rom : 0 <= rom_sectors r <= Z.of_nat MAX_SECTORS;
  mo_dirty : 0 <= dirty_count r <= OVERLAY_CAP;
  mo_slot s : slot_used r s → 0 <= slot_at r s < dirty_count r;
  mo_inj s t : slot_used r s → slot_used r t → slot_at r s = slot_at r t → s = t;
  mo_flat : 0 <= flat_sectors r < 2 ^ 23
}.

Definition mem_medium (drv : Z) (dev : nat) : nat := if drv =? DRV_RAMBLK then 0%nat else 1%nat.

Definition mem_byte (r : memblk) (m : nat) (s x : Z) : Z :=
  if decide (0 <= x < BLKDEV_SECTOR_SIZE) then
    match m with
    | O => if decide (0 <= s < rom_sectors r)
           then if decide (slot_at r s = SLOT_CLEAN) then rom r (s * BLKDEV_SECTOR_SIZE + x)
                else overlay r (slot_at r s * BLKDEV_SECTOR_SIZE + x)
           else 0
    | _ => flat r (s * BLKDEV_SECTOR_SIZE + x)
    end
  else 0.

Lemma length_bytes_from mem p n : length (bytes_from mem p n) = n.
Proof. unfold bytes_from. by rewrite length_fmap, length_seq. Qed.

Lemma bytes_from_at mem p n k : 0 <= k < Z.of_nat n → bytes_from mem p n !!! Z.to_nat k = mem (p + k).
Proof.
  intros Hk. apply list_lookup_total_correct. unfold bytes_from. rewrite seq_fmap_lookup, decide_True by lia. do 2 f_equal. lia.
Qed.

Lemma core_write_sector c page off mem p n : store_ok c → page_in_use c page → 0 <= off → off + Z.of_nat n <= PAGE_SIZE →
  let c' := core_write page off (bytes_from mem p n) c in
  pages_kept c c' page off (Z.of_nat n) ∧ ∀ x, 0 <= x < Z.of_nat n → byte_at c' page (off + x) = mem (p + x).
Proof.
  intros Hc Hp Ho Hl. destruct (store_write c page off (bytes_from mem p n) Hc Hp Ho) as (A & B & C); rewrite ?length_bytes_from in *; [done|].
  split; [split; [done|done|]|].
  - intros q x Hq Hx Hn. rewrite C by done. by rewrite decide_False.
  - intros x Hx. rewrite C by (done || sec). rewrite decide_True by (split; [done|lia]). rewrite bytes_from_at by lia. f_equal. lia.
Qed.

Lemma pages_kept_trans c1 c2 c3 page off len off1 len1 : pages_kept c1 c2 page off1 len1 → pages_kept c2 c3 page off len →
  off <= off1 → off1 + len1 <= off + len → pages_kept c1 c3 page off len.
Proof.
  intros [A1 A2 A3] [B1 B2 B3] H1 H2. split; [done| |].
  - intros q. by rewrite B2, A2.
  - intros q x Hq Hx Hn. rewrite B3; [apply A3; [done..|]|by apply A2|done|done]. intros [? ?]. apply Hn. split; [done|lia].
Qed.

Lemma ramblk_read_ok n page off s c r rc c' r' : store_ok c → page_in_use c page → 0 <= s → 0 <= off →
  off + Z.of_nat n * BLKDEV_SECTOR_SIZE <= PAGE_SIZE → ramblk_read_loop n page off s c r = (rc, (c', r')) →
  r' = r ∧ pages_kept c c' page off (Z.of_nat n * BLKDEV_SECTOR_SIZE) ∧
  (0 <= rc → ∀ i x, 0 <= i < Z.of_nat n → 0 <= x < BLKDEV_SECTOR_SIZE →
     byte_at c' page (off + i * BLKDEV_SECTOR_SIZE + x) = mem_byte r 0 (s + i) x).
Proof.
  revert off s c. induction n as [|n IH]; intros off s c Hc Hp Hs Ho Hl; cbn [ramblk_read_loop].
  { intros [= <- <- <-]. split; [done|]. split; [by split|]. intros _ i x Hi. lia. }
  destruct (Z.leb_spec (rom_sectors r) s) as [Hr|Hr].
  { intros [= <- <- <-]. split; [done|]. split; [by split|]. unfold EIO. lia. }
  set (src := if negb _ then _ else _).
  assert (∃ mem p, src = bytes_from mem p SECTOR ∧ ∀ x, 0 <= x < BLKDEV_SECTOR_SIZE → mem (p + x) = mem_byte r 0 s x) as (mem & p & -> & Hsrc).
  { unfold src, mem_byte. destruct (Z.eqb_spec (slot_at r s) SLOT_CLEAN) as [E|E]; cbn [negb]; eexists _, _; (split; [reflexivity|]);
      intros x Hx; rewrite decide_True, decide_True by (done || lia); [by rewrite decide_True|by rewrite decide_False]. }
  destruct (core_write_sector c page off mem p SECTOR Hc Hp Ho) as [K Hb]; [change (Z.of_nat SECTOR) with 512; sec|].
  change (Z.of_nat SECTOR) with 512 in *. rewrite (uN_small 16) by sec. intros E.
  apply IH in E as (-> & K' & Hd); [|apply K|by apply (pk_used _ _ _ _ _ K)|lia|sec|sec].
  split; [done|]. split.
  - assert (pages_kept (core_write page off (bytes_from mem p SECTOR) c) c' page off (Z.of_nat (S n) * BLKDEV_SECTOR_SIZE)) as K2.
    { destruct K' as [A B D]. split; [done|done|]. intros q x Hq Hx Hn. apply D; [done..|]. intros [-> ?]. apply Hn. split; [done|sec]. }
    apply (pages_kept_trans _ _ _ _ _ _ _ _ K K2); sec.
  - intros Hrc i x Hi Hx. destruct (decide (i = 0)) as [->|].
    + rewrite (pk_byte _ _ _ _ _ K'); [|by apply (pk_used _ _ _ _ _ K)|sec|intros [_ ?]; sec].
      rewrite Z.mul_0_l, !Z.add_0_r. rewrite Hb by sec. by apply Hsrc.
    + specialize (Hd Hrc (i - 1) x ltac:(lia) Hx). etrans; [|etrans; [exact Hd|]]; f_equal; sec.
Qed.

(** One pass of the write loop, with [bs] the sector's new bytes. *)
Definition write_one (s : Z) (bs : list Z) (r : memblk) : memblk :=
  let slot := if slot_at r s =? SLOT_CLEAN then dirty_count r else slot_at r s in
  let r := if slot_at r s =? SLOT_CLEAN then set_slot s slot (set_dirty_count (dirty_count r + 1) r) else r in
  set_overlay (mem_write (overlay r) (slot * BLKDEV_SECTOR_SIZE) bs) r.

Lemma mem_write_at mem a bs k : 0 <= k < Z.of_nat (length bs) → mem_write mem a bs (a + k) = bs !!! Z.to_nat k.
Proof.
  intros Hk. unfold mem_write. rewrite (proj2 (Z.leb_le _ _)), (proj2 (Z.ltb_lt _ _)) by lia. cbn [andb]. by replace (a + k - a) with k by lia.
Qed.

(** The slots after a pass: sector [s] has [slot], nothing else has changed. *)
Lemma write_one_slots r s bs : mem_ok r → 0 <= s < rom_sectors r → (slot_at r s = SLOT_CLEAN → dirty_count r < OVERLAY_CAP) →
  ∃ slot, let r' := write_one s bs r in
  slot_at r' s = slot ∧ slot ≠ SLOT_CLEAN ∧ 0 <= slot < dirty_count r' ∧ dirty_count r <= dirty_count r' <= OVERLAY_CAP ∧
  (∀ t, 0 <= t → t ≠ s → slot_at r' t = slot_at r t ∧ (slot_used r t → slot_at r t ≠ slot)) ∧
  overlay r' = mem_write (overlay r) (slot * BLKDEV_SECTOR_SIZE) bs ∧ length (slot_map r') = MAX_SECTORS ∧
  rom r' = rom r ∧ rom_sectors r' = rom_sectors r ∧ flat r' = flat r ∧ flat_sectors r' = flat_sectors r.
Proof.
  intros [M1 M2 M3 M4 M5 M6] Hs Hfull. change OVERLAY_CAP with 48 in *. unfold write_one. destruct (Z.eqb_spec (slot_at r s) SLOT_CLEAN) as [E|E].
  - exists (dirty_count r). specialize (Hfull E). cbn zeta.
    assert (u16 (dirty_count r) = dirty_count r) as Eu by (apply uN_small; lia).
    assert (u32 (dirty_count r + 1) = dirty_count r + 1) as Eu' by (apply uN_small; lia).
    cbn -[uN]. unfold slot_at. cbn -[uN]. rewrite Eu, Eu'. split_and!; try done; try lia.
    + apply list_lookup_total_insert_eq. rewrite M1. lia.
    + unfold SLOT_CLEAN. lia.
    + intros t Ht Hne. split; [apply list_lookup_total_insert_ne; lia|]. intros Hu. pose proof (M4 t Hu). unfold slot_at in *. lia.
    + by rewrite length_insert.
  - exists (slot_at r s). cbn zeta. assert (slot_used r s) as Hu by (split; [lia|done]). pose proof (M4 s Hu).
    change (dirty_count (set_overlay _ _)) with (dirty_count r). split_and!; try done; try lia.
    intros t Ht Hne. split; [done|]. intros Hut Ht'. apply Hne. by apply M5.
Qed.

Lemma write_one_ok r s bs : mem_ok r → 0 <= s < rom_sectors r → (slot_at r s = SLOT_CLEAN → dirty_count r < OVERLAY_CAP) →
  length bs = SECTOR →
  let r' := write_one s bs r in
  mem_ok r' ∧ (∀ m t x, ¬ (m = 0%nat ∧ t = s) → mem_byte r' m t x = mem_byte r m t x) ∧
  ∀ x, 0 <= x < BLKDEV_SECTOR_SIZE → mem_byte r' 0 s x = bs !!! Z.to_nat x.
Proof.
  intros Hr Hs Hfull Hl. destruct (write_one_slots r s bs Hr Hs Hfull) as (slot & E1 & E2 & E3 & E4 & E5 & E6 & E7 & E8 & E9 & E10 & E11).
  cbn zeta in *. set (r' := write_one s bs r) in *. pose proof Hr as [M1 M2 M3 M4 M5 M6]. assert (Z.of_nat (length bs) = BLKDEV_SECTOR_SIZE) as Hl' by (rewrite Hl; done).
  assert (∀ t, slot_used r' t → t = s ∨ (t ≠ s ∧ slot_used r t ∧ slot_at r' t = slot_at r t ∧ slot_at r t ≠ slot)) as Hold.
  { intros t [Ht Hu]. destruct (decide (t = s)) as [|Hne]; [by left|]. destruct (E5 t ltac:(lia) Hne) as [Et Hd].
    assert (slot_used r t) as Hut by (split; [done|by rewrite <-Et]). right. split_and!; [done..|by apply Hd]. }
  split_and!.
  - split; [done|by rewrite E9|lia| | |by rewrite E11].
    + intros t Ht. destruct (Hold t Ht) as [->|(_ & Hu & -> & _)]; [lia|]. pose proof (M4 t Hu). lia.
    + intros t u Ht Hu. destruct (Hold t Ht) as [->|(_ & Ht' & -> & Hnt)], (Hold u Hu) as [->|(_ & Hu' & -> & Hnu)]; [done|congruence|congruence|by apply M5].
  - intros m t x Hn. unfold mem_byte. case_decide as Hx; [|done]. destruct m as [|m]; [|by rewrite E10]. rewrite E9. case_decide as Ht; [|done].
    assert (t ≠ s) as Hne by (by intros ->; apply Hn). destruct (E5 t ltac:(lia) Hne) as [Et Hd]. rewrite Et, E8. case_decide as Hc; [done|].
    assert (slot_used r t) as Hu by (split; [lia|done]). specialize (Hd Hu). rewrite E6. apply mem_write_other. rewrite Hl'. sec.
  - intros x Hx. unfold mem_byte. rewrite decide_True, E9, decide_True, E1, decide_False by (done || lia). rewrite E6. apply mem_write_at. lia.
Qed.

Lemma ramblk_write_ok n page off s c r rc c' r' : store_ok c → page_in_use c page → mem_ok r → 0 <= s → 0 <= off →
  off + Z.of_nat n * BLKDEV_SECTOR_SIZE <= PAGE_SIZE → ramblk_write_loop n page off s c r = (rc, (c', r')) →
  c' = c ∧ mem_ok r' ∧
  (∀ m t x, ¬ (m = 0%nat ∧ s <= t < s + Z.of_nat n) → mem_byte r' m t x = mem_byte r m t x) ∧
  (0 <= rc → ∀ i x, 0 <= i < Z.of_nat n → 0 <= x < BLKDEV_SECTOR_SIZE →
     mem_byte r' 0 (s + i) x = byte_at c page (off + i * BLKDEV_SECTOR_SIZE + x)).
Proof.
  intros Hc Hp. revert off s r. induction n as [|n IH]; intros off s r Hr Hs Ho Hl; cbn [ramblk_write_loop].
  { intros [= <- <- <-]. split_and!; [done|done|done|]. intros _ i x Hi. lia. }
  destruct (Z.leb_spec (rom_sectors r) s) as [Hlt|Hlt]; [intros [= <- <- <-]; split_and!; [done|done|done|]; unfold EIO; lia|].
  destruct ((slot_at r s =? SLOT_CLEAN) && (OVERLAY_CAP <=? dirty_count r)) eqn:Efull; [intros [= <- <- <-]; split_and!; [done|done|done|]; unfold ENOSPC; lia|].
  assert (slot_at r s = SLOT_CLEAN → dirty_count r < OVERLAY_CAP) as Hfull.
  { intros E. rewrite E in Efull. by apply Z.leb_gt in Efull. }
  assert (core_read page off SECTOR c = (λ i, byte_at c page (off + Z.of_nat i)) <$> seq 0 SECTOR) as Eread.
  { apply store_read; [done|done|lia|unfold SECTOR; sec|change (Z.of_nat SECTOR) with 512; sec]. }
  destruct (write_one_ok r s (core_read page off SECTOR c) Hr ltac:(lia) Hfull) as (R1 & R2 & R3);
    [rewrite Eread; by rewrite length_fmap, length_seq|].
  change (set_overlay _ _) with (write_one s (core_read page off SECTOR c) r). cbn zeta. rewrite (uN_small 16) by sec. intros E.
  apply IH in E as (-> & A & B & D); [|done|lia|sec|sec]. split_and!; [done|done| |].
  - intros m t x Hn. rewrite B by (intros [? ?]; apply Hn; split; [done|lia]). apply R2. intros [? ->]. apply Hn. split; [done|lia].
  - intros Hrc i x Hi Hx. destruct (decide (i = 0)) as [->|].
    + rewrite B by lia. rewrite Z.mul_0_l, !Z.add_0_r, R3 by done. apply list_lookup_total_correct. rewrite Eread, seq_fmap_lookup.
      rewrite decide_True by (unfold SECTOR; sec). do 2 f_equal. lia.
    + specialize (D Hrc (i - 1) x ltac:(lia) Hx). etrans; [|etrans; [exact D|]]; f_equal; sec.
Qed.

#[export] Instance mem_drivers_ok : RawDriverOk.
Proof.
  refine {| raw_ok := mem_ok : raw → Prop; medium := mem_medium; sector_byte := mem_byte : raw → nat → Z → Z → Z |}.
  - intros drv dev page off s n c r rc c' r' Hc Hr Hp (F1 & F2 & F3 & F4 & F5) E. cbn in E. unfold mem_medium.
    destruct (drv =? DRV_RAMBLK).
    + unfold ramblk_read in E. rewrite (uN_small 32) in E by lia. replace (s + n - s) with n in E by lia.
      apply ramblk_read_ok in E as (-> & K & D); [|done|done|done|done|rewrite Z2Nat.id by lia; done]. rewrite Z2Nat.id in K, D by lia. done.
    + unfold flatblk_read in E. cbn [fst snd] in E. destruct (Z.ltb_spec (flat_sectors r) (u32 (s + n))) as [Hlt|Hge].
      { injection E as <- <- <-. split_and!; [by split|done|done|]. unfold EIO. lia. }
      pose proof (mo_flat _ Hr). rewrite (uN_small 32 (s + n)) in Hge by lia. rewrite (uN_small 32 (s * _)), (uN_small 32 (n * _)), (uN_small 16) in E by sec.
      injection E as <- <- <-.
      destruct (core_write_sector c page off (flat r) (s * BLKDEV_SECTOR_SIZE) (Z.to_nat (n * BLKDEV_SECTOR_SIZE)) Hc Hp F1) as [K Hb]; [sec|].
      rewrite Z2Nat.id in K, Hb by sec. split_and!; [exact K|done|done|]. intros _ i x Hi Hx.
      rewrite <-Z.add_assoc, Hb by sec. unfold mem_byte. rewrite decide_True by done. f_equal. sec.
  - intros drv dev page off s n c r rc c' r' Hc Hr Hp (F1 & F2 & F3 & F4 & F5) E. cbn in E. unfold mem_medium.
    destruct (drv =? DRV_RAMBLK).
    + unfold ramblk_write in E. rewrite (uN_small 32) in E by lia. replace (s + n - s) with n in E by lia.
      apply ramblk_write_ok in E as (-> & A & B & D); [|done|done|done|done|done|rewrite Z2Nat.id by lia; done]. rewrite Z2Nat.id in B, D by lia.
      split_and!; [by split|exact A|exact B|exact D].
    + unfold flatblk_write in E. injection E as <- <- <-. split_and!; [by split|done|done|]. unfold EIO. lia.
Defined.
End Contract.

(** ** The RAM disk of a target with the RP2040's pages *)

Definition demo_rom : Z → Z := λ p, p mod 251.
Definition blank_blk : blkdevs :=
  Blkdevs (replicate BLKDEV_MAX (BlkDev None 0 0 0 false)) (replicate BLKDEV_CACHE_SLOTS (CacheEntry 0 0 0 false)) PAGE_ID_INVALID 0 false
    demo_core (Memblk (replicate MAX_SECTORS SLOT_CLEAN) 0 (λ _, 0) demo_rom 0 (λ _, 0) 0).
(** A disk of 128 sectors in slot 0, with the cache on. *)
Definition demo_disk : blkdevs := blkdev_cache_set_enabled true (ramblk_init (Some demo_rom) 65536 blank_blk).2.

Lemma fresh_slots r : slot_map r = replicate MAX_SECTORS SLOT_CLEAN → ∀ s, ¬ slot_used r s.
Proof. intros E s [Hs Hu]. apply Hu. unfold slot_at. rewrite E. apply lookup_total_replicate_2. unfold MAX_SECTORS in *. lia. Qed.

Lemma fresh_ok r : slot_map r = replicate MAX_SECTORS SLOT_CLEAN → dirty_count r = 0 → 0 <= rom_sectors r <= Z.of_nat MAX_SECTORS →
  0 <= flat_sectors r < 2 ^ 23 → mem_ok r.
Proof.
  intros E D R F. pose proof (fresh_slots r E) as Hno. split; [by rewrite E, length_replicate|done|rewrite D; by vm_compute| | |done].
  - intros s Hs. by destruct (Hno s).
  - intros s t Hs. by destruct (Hno s).
Qed.

Lemma ramblk_init_coherent base size w : store_ok (bk_core w) → length (blkdev_table w) = BLKDEV_MAX →
  length (cache w) = BLKDEV_CACHE_SLOTS → (∀ d, ¬ registered w d) → cache_page w = PAGE_ID_INVALID →
  0 <= flat_sectors (bk_raw w) < 2 ^ 23 → BLKDEV_SECTOR_SIZE <= size →
  let '(rc, w') := ramblk_init (Some base) size w in 0 <= rc → coherent w' ∧ registered w' (Z.to_nat rc).
Proof.
  intros H1 H2 H3 H4 H5 H6 Hs. unfold ramblk_init. destruct (Z.ltb_spec size BLKDEV_SECTOR_SIZE); [lia|].
  set (n := if _ <? _ then _ else _). set (w1 := set_io _ w).
  assert (0 <= n <= Z.of_nat MAX_SECTORS) as Hn.
  { subst n. assert (0 <= size / BLKDEV_SECTOR_SIZE) by (apply Z.div_pos; unfold BLKDEV_SECTOR_SIZE in *; lia). case_match; zb; lia. }
  assert (coherent w1) as Hc by (apply boot_coherent; [done|by apply fresh_ok|done..]).
  destruct (blkdev_register _ w1) as [rc w'] eqn:E. intros Hrc. apply register_coherent in E as [[Hneg _]|(A & _ & _ & B & _)]; [lia|by split|done|].
  intros nd i d _ Hd. by destruct (H4 d).
Qed.

Lemma demo_disk_rc : (ramblk_init (Some demo_rom) 65536 blank_blk).1 = 0.
Proof. reflexivity. Qed.

Lemma demo_disk_coherent : coherent demo_disk ∧ registered demo_disk 0 ∧ page_in_use (bk_core demo_disk) demo_page.
Proof.
  assert (∀ d, ¬ registered blank_blk d) as Hno.
  { intros d [Hd Hn]. apply Hn. unfold device, blank_blk. cbn [blkdev_table]. by rewrite lookup_total_replicate_2. }
  pose proof (ramblk_init_coherent demo_rom 65536 blank_blk (proj1 demo_store) eq_refl eq_refl Hno eq_refl
    (conj (Z.le_refl 0) eq_refl) ltac:(unfold BLKDEV_SECTOR_SIZE; lia)) as H.
  pose proof demo_disk_rc as Hrc. unfold demo_disk. set (p := ramblk_init _ _ _) in *.
  assert (bk_core p.2 = demo_core) as Ec by reflexivity. destruct p as [rc w]. cbn [fst snd] in *. subst rc.
  destruct H as [Hc Hr]; [lia|]. destruct (set_enabled_coherent true w Hc) as (A & B & _ & D). split; [done|]. split.
  - unfold registered, device. rewrite B. exact Hr.
  - apply D. rewrite Ec. apply demo_store.
Qed.

Lemma demo_request n s : 0 < n <= 8 → 0 <= s < 2 ^ 31 → request demo_disk 0 demo_page 0 s n.
Proof.
  intros Hn Hs. split; [apply demo_disk_coherent|apply demo_disk_coherent| |unfold in_page; split_and!; sec].
  apply (bool_decide_eq_false_1 (demo_page = cache_page demo_disk)). vm_compute. reflexivity.
Qed.

(** Sectors 3 and 4 of the RAM disk. *)
Lemma blkdev_cache_transparent_witness :
  (∀ rc w', dev_read 0 demo_page 0 3 2 demo_disk = (rc, w') → reads_ok 0 demo_page 0 3 2 rc demo_disk w') ∧
  (∀ rc w', dev_write 0 demo_page 0 3 2 demo_disk = (rc, w') → writes_ok 0 demo_page 0 3 2 rc demo_disk w').
Proof. exact (blkdev_cache_transparent demo_disk 0 demo_page 0 3 2 (proj1 demo_disk_coherent) (demo_request 2 3 ltac:(lia) ltac:(lia))). Defined.

(** ** A race of two cores

    The sections under SPIN_BLKDEV do not cover the driver's transfer between
    them.  Core A misses in the cache and reads sector 3; before it inserts what
    it has read, core B writes the sector.  A then puts the old bytes over B's
    entry, and from there on reads return the bytes from before the write. *)

Definition race_page : Z := (core_alloc (bk_core demo_disk)).1.2.
Definition race_start : blkdevs := set_bk_core (core_alloc (bk_core demo_disk)).2 demo_disk.
Definition race_end : blkdevs :=
  let w := (cache_read_hit 0 demo_page 0 3 race_start).2 in                (* A *)
  let w := (dev_raw_read 0 demo_page 0 3 1 w).2 in                         (* A *)
  let w := (dev_write 0 race_page 0 3 1 w).2 in                            (* B *)
  cache_insert_from_page 0 demo_page 0 3 w.                                (* A *)

Lemma cache_race :
  dev_byte race_end 0 3 0 = 65 ∧
  (let '(rc, w) := dev_read 0 race_page 0 3 1 race_end in rc = 0 ∧ byte_at (bk_core w) race_page 0 = demo_rom (3 * 512)).
Proof. split; [vm_compute; reflexivity|]. vm_compute. split; reflexivity. Qed.
