(* ===== verification/SectorDev.v ===== *)
(** * SectorDev: a block device through a kernel buffer

    File systems move one sector at a time between a buffer of their own and a
    device: [mem_region_kbuf_to_page(buf, &page, &off)] and [dev->read] or
    [dev->write] with a count of one.  [SectorDev] is that service, with the
    buffer's contents as argument and result, and [SectorDevOk] its contract; the
    instance is the registry of BlkDev.  Words within a sector are in the byte
    order of the processor, as the code copies them with memcpy. *)

From S2P Require Import Prelude Config PagePool PagePoolFacts Page Region PageFacts.
From S2P Require Import UserCopy Path ModCore BlkDev BlkDevFacts RamBlk.

Class SectorDev := {
  disk : Type;
  (** [blkdev_find(name)]: the world with the device selected *)
  disk_find : Z → disk → option disk;
  disk_read : Z → disk → Z * list Z * disk;
  disk_write : Z → list Z → disk → Z * disk
}.

Definition SECTOR_LIMIT : Z := 2 ^ 32 - 1.

(** One more request refused, by the status. *)
Definition refusal (rc : Z) : nat := if rc <? 0 then 1 else 0.

Class SectorDevOk {sd : SectorDev} := {
  disk_ok : disk → Prop;
  sector : disk → Z → list Z;
  sector_length d s : length (sector d s) = SECTOR;
  disk_read_spec s d rc bs d' : disk_ok d → 0 <= s < SECTOR_LIMIT → disk_read s d = (rc, bs, d') →
    disk_ok d' ∧ (∀ t, sector d' t = sector d t) ∧ length bs = SECTOR ∧ (0 <= rc → bs = sector d s);
  disk_write_spec s bs d rc d' : disk_ok d → 0 <= s < SECTOR_LIMIT → length bs = SECTOR → disk_write s bs d = (rc, d') →
    disk_ok d' ∧ (∀ t, t ≠ s → sector d' t = sector d t) ∧ (0 <= rc → sector d' s = bs);
  (** Ghost state: the requests the device has refused so far.  No code reads it. *)
  reads_refused : disk → nat;
  writes_refused : disk → nat;
  refused_read s d rc bs d' : disk_read s d = (rc, bs, d') →
    reads_refused d' = (reads_refused d + refusal rc)%nat ∧ writes_refused d' = writes_refused d;
  refused_write s bs d rc d' : disk_write s bs d = (rc, d') →
    writes_refused d' = (writes_refused d + refusal rc)%nat ∧ reads_refused d' = reads_refused d
}.

(** Sectors that the device never refuses. *)
Class SectorDevServes {sd : SectorDev} {sdok : SectorDevOk} := {
  disk_serves : disk → Z → Prop;
  serves_read s d rc bs d' : disk_ok d → 0 <= s < SECTOR_LIMIT → disk_read s d = (rc, bs, d') →
    (∀ t, disk_serves d t → disk_serves d' t) ∧ (disk_serves d s → rc = 0);
  serves_write s bs d rc d' : disk_ok d → 0 <= s < SECTOR_LIMIT → length bs = SECTOR → disk_write s bs d = (rc, d') →
    (∀ t, disk_serves d t → disk_serves d' t) ∧ (disk_serves d s → rc = 0)
}.

(** ** Words *)

Class ByteOrder := big_endian : bool.

Fixpoint le_word (bs : list Z) : Z :=
  match bs with
  | [] => 0
  | b :: bs => u8 b + 256 * le_word bs
  end.
Fixpoint le_bytes (n : nat) (v : Z) : list Z :=
  match n with
  | O => []
  | S n => u8 v :: le_bytes n (v / 256)
  end.

Section Words.
Context {bo : ByteOrder}.

Definition word_of (bs : list Z) : Z := le_word (if big_endian then rev bs else bs).
Definition bytes_of (n : nat) (v : Z) : list Z := if big_endian then rev (le_bytes n v) else le_bytes n v.

(** [memcpy(&v, &buf[off], n)] and [memcpy(&buf[off], &v, n)] *)
Definition get_word (n off : nat) (buf : list Z) : Z := word_of (take n (drop off buf)).
Definition put_bytes (off : nat) (bs buf : list Z) : list Z := list_inserts off bs buf.
Definition put_word (n off : nat) (v : Z) (buf : list Z) : list Z := put_bytes off (bytes_of n v) buf.

Lemma length_le_bytes n v : length (le_bytes n v) = n.
Proof. revert v. induction n; intros; cbn; [done|]. by rewrite IHn. Qed.

Lemma le_word_bytes n v : le_word (le_bytes n v) = uN (8 * Z.of_nat n) v.
Proof.
  revert v. induction n as [|n IH]; intros v; cbn [le_bytes le_word]; [unfold uN; by rewrite Z.mod_1_r|].
  rewrite IH, uN_idem by lia. unfold uN. replace (8 * Z.of_nat (S n)) with (8 + 8 * Z.of_nat n) by lia. rewrite Z.pow_add_r by lia.
  rewrite Z.rem_mul_r by (try apply Z.pow_nonzero; try apply Z.pow_pos_nonneg; lia). done.
Qed.

Lemma le_word_range bs : 0 <= le_word bs < 2 ^ (8 * Z.of_nat (length bs)).
Proof.
  induction bs as [|b bs IH]; cbn [le_word length]; [lia|]. pose proof (u8_range b).
  replace (8 * Z.of_nat (S (length bs))) with (8 + 8 * Z.of_nat (length bs)) by lia. rewrite Z.pow_add_r by lia. lia.
Qed.

Lemma length_bytes_of n v : length (bytes_of n v) = n.
Proof. unfold bytes_of. destruct big_endian; [rewrite length_rev|]; apply length_le_bytes. Qed.

Lemma word_bytes n v : word_of (bytes_of n v) = uN (8 * Z.of_nat n) v.
Proof. unfold word_of, bytes_of. destruct big_endian; rewrite ?rev_involutive; apply le_word_bytes. Qed.

Lemma word_range bs n : (length bs <= n)%nat → 0 <= word_of bs < 2 ^ (8 * Z.of_nat n).
Proof.
  intros Hn. unfold word_of. pose proof (le_word_range (if big_endian then rev bs else bs)) as H.
  assert (length (if big_endian then rev bs else bs) = length bs) as E by (destruct big_endian; [apply length_rev|done]). rewrite E in H.
  split; [lia|]. eapply Z.lt_le_trans; [apply H|]. apply Z.pow_le_mono_r; lia.
Qed.

Lemma get_word_range n off buf : 0 <= get_word n off buf < 2 ^ (8 * Z.of_nat n).
Proof. apply word_range. rewrite length_take. lia. Qed.

Lemma length_put_bytes off bs buf : length (put_bytes off bs buf) = length buf.
Proof. apply length_inserts. Qed.

Lemma put_bytes_at off bs buf i : (off <= i < off + length bs)%nat → (i < length buf)%nat → put_bytes off bs buf !! i = bs !! (i - off)%nat.
Proof. intros. unfold put_bytes. by rewrite list_lookup_inserts by lia. Qed.

Lemma put_bytes_other off bs buf i : ¬ (off <= i < off + length bs)%nat → put_bytes off bs buf !! i = buf !! i.
Proof. intros. unfold put_bytes. destruct (decide (i < off)%nat); [by apply list_lookup_inserts_lt|apply list_lookup_inserts_ge; lia]. Qed.

Lemma put_bytes_all bs b : length bs = length b → put_bytes 0 bs b = bs.
Proof.
  intros Hl. apply list_eq. intros k. destruct (decide (k < length bs)%nat).
  - rewrite put_bytes_at by lia. f_equal. lia.
  - by rewrite !lookup_ge_None_2 by (rewrite ?length_put_bytes; lia).
Qed.

Lemma get_put_bytes n off bs buf : length bs = n → (off + n <= length buf)%nat → take n (drop off (put_bytes off bs buf)) = bs.
Proof.
  intros Hl Hb. apply list_eq. intros i. destruct (decide (i < n)%nat).
  - rewrite lookup_take_lt, lookup_drop by done. rewrite put_bytes_at by lia. f_equal. lia.
  - rewrite lookup_take_ge by lia. symmetry. apply lookup_ge_None_2. lia.
Qed.

Lemma get_put_word n off v buf : (off + n <= length buf)%nat → get_word n off (put_word n off v buf) = uN (8 * Z.of_nat n) v.
Proof. intros. unfold get_word, put_word. rewrite get_put_bytes by (rewrite ?length_bytes_of; lia). apply word_bytes. Qed.

Lemma take_drop_ext {A} n off (l l' : list A) : (∀ i, (off <= i < off + n)%nat → l !! i = l' !! i) → take n (drop off l) = take n (drop off l').
Proof.
  intros H. apply list_eq. intros i. destruct (decide (i < n)%nat).
  - rewrite !lookup_take_lt, !lookup_drop by done. apply H. lia.
  - by rewrite !lookup_take_ge by lia.
Qed.

Lemma get_put_other n off off' bs buf : (off + n <= off')%nat ∨ (off' + length bs <= off)%nat → get_word n off (put_bytes off' bs buf) = get_word n off buf.
Proof. intros H. unfold get_word. f_equal. apply take_drop_ext. intros i Hi. apply put_bytes_other. lia. Qed.
End Words.

(** ** The registry as a sector device *)

Section Blkdev.
Context {cfg : PageConfig} {ps : PageStore} {psok : PageStoreOk} {rd : RawDriver} {rdok : RawDriverOk}.
(** The buffer's page and offset, and the strings device names point to. *)
Context (kpage koff : Z) (name_at : Z → option name).

(** The device in use, the registry, and the requests refused so far, which the
    code does not count. *)
Record opened := Opened { op_dev : nat; op_blk : blkdevs; op_reads_refused : nat; op_writes_refused : nat }.

#[export] Instance blkdev_sectors : SectorDev := {|
  disk := opened;
  disk_find nm d := match blkdev_find (name_at nm) (op_blk d) with Some i => Some (Opened i (op_blk d) (op_reads_refused d) (op_writes_refused d)) | None => None end;
  disk_read s d :=
    let '(rc, w) := dev_read (op_dev d) kpage koff s 1 (op_blk d) in
    (rc, core_read kpage koff SECTOR (bk_core w), Opened (op_dev d) w (op_reads_refused d + refusal rc) (op_writes_refused d));
  disk_write s bs d :=
    let w := set_bk_core (core_write kpage koff bs (bk_core (op_blk d))) (op_blk d) in
    let '(rc, w) := dev_write (op_dev d) kpage koff s 1 w in
    (rc, Opened (op_dev d) w (op_reads_refused d) (op_writes_refused d + refusal rc))
|}.

Record opened_ok (d : opened) : Prop := {
  oo_coherent : coherent (op_blk d);
  oo_dev : registered (op_blk d) (op_dev d);
  oo_page : page_in_use (bk_core (op_blk d)) kpage;
  oo_cache : kpage ≠ cache_page (op_blk d)
}.

Definition dev_sector (d : opened) (s : Z) : list Z := (λ i, dev_byte (op_blk d) (op_dev d) s (Z.of_nat i)) <$> seq 0 SECTOR.

Lemma dev_sector_ext d d' s s' : (∀ x, 0 <= x < BLKDEV_SECTOR_SIZE → dev_byte (op_blk d') (op_dev d') s' x = dev_byte (op_blk d) (op_dev d) s x) →
  dev_sector d' s' = dev_sector d s.
Proof. intros H. apply list_fmap_ext. intros i x Hi. apply lookup_seq in Hi as [-> Hi]. apply H. unfold SECTOR in Hi. sec. Qed.

(** Bytes of the buffer may be overwritten without harm to the cache. *)
Lemma set_page_coherent w c page off len : coherent w → pages_kept (bk_core w) c page off len → page ≠ cache_page w →
  let w' := set_bk_core c w in
  coherent w' ∧ io_kept w w' page off len ∧ same_sectors w w'.
Proof.
  intros Hc K Hn w'. assert (io_kept w w' page off len) as Hk.
  { split; [done..| |]. - apply K. - intros q x Hq _. by apply K. }
  split_and!; [|done|done]. apply (coherent_kept w w' page off len Hc Hk); [apply K|exact (co_raw w Hc)|done|done|].
  intros Ho x Hx. apply (pk_byte _ _ _ _ _ K); [by destruct (coherent_good w Hc Ho)|done|]. intros [? _]. by apply Hn.
Qed.

Lemma opened_kept d w page off len r v : opened_ok d → coherent w → io_kept (op_blk d) w page off len → opened_ok (Opened (op_dev d) w r v).
Proof.
  intros [A B C D] Hc K. split; cbn; [done|by apply (io_kept_registered _ _ _ _ _ _ K)|by apply (ik_used _ _ _ _ _ K)|by rewrite (ik_page _ _ _ _ _ K)].
Qed.

Context (koff_fits : 0 <= koff ∧ koff + BLKDEV_SECTOR_SIZE <= PAGE_SIZE).

Lemma opened_request d s : opened_ok d → 0 <= s < SECTOR_LIMIT → request (op_blk d) (op_dev d) kpage koff s 1.
Proof. intros [A B C D] Hs. unfold SECTOR_LIMIT in Hs. split; [done..|]. unfold in_page. split_and!; sec. Qed.

#[export] Instance blkdev_sectors_ok : SectorDevOk.
Proof.
  refine {| disk_ok := opened_ok : disk → Prop; sector := dev_sector : disk → Z → list Z;
    reads_refused := op_reads_refused : disk → nat; writes_refused := op_writes_refused : disk → nat |}.
  - intros d s. unfold dev_sector. by rewrite length_fmap, length_seq.
  - intros s d rc bs d' Hd Hs E. cbn in E. destruct (dev_read _ _ _ _ _ _) as [rc1 w] eqn:Er. injection E as <- <- <-.
    destruct (blkdev_cache_transparent (op_blk d) _ _ _ _ _ (oo_coherent d Hd) (opened_request d s Hd Hs)) as [Hr _].
    destruct (Hr _ _ Er) as (C & K & S & D). pose proof (opened_kept d w _ _ _ (op_reads_refused d + refusal rc1) (op_writes_refused d) Hd C K) as Ho.
    assert (core_read kpage koff SECTOR (bk_core w) = (λ i, byte_at (bk_core w) kpage (koff + Z.of_nat i)) <$> seq 0 SECTOR) as ->.
    { apply store_read; [apply C|apply Ho|lia|unfold SECTOR; sec|change (Z.of_nat SECTOR) with 512; sec]. }
    split_and!; [done| |by rewrite length_fmap, length_seq|].
    + intros t. apply dev_sector_ext. intros x _. by apply (same_dev_byte _ _ _ _ _ _ _ _ K S).
    + intros Hrc. apply list_fmap_ext. intros i x Hi. apply lookup_seq in Hi as [-> Hi]. rewrite Nat.add_0_l.
      specialize (D Hrc 0 (Z.of_nat i) ltac:(lia) ltac:(unfold SECTOR in Hi; sec)). rewrite Z.mul_0_l, !Z.add_0_r in D.
      rewrite D. by apply (same_dev_byte _ _ _ _ _ _ _ _ K S).
  - intros s bs d rc d' Hd Hs Hl E. cbn in E. set (w0 := set_bk_core _ _) in E. destruct (dev_write _ _ _ _ _ _) as [rc1 w] eqn:Ew. injection E as <- <-.
    destruct koff_fits as [F1 F2]. assert (Z.of_nat (length bs) = BLKDEV_SECTOR_SIZE) as Hl' by (by rewrite Hl).
    destruct (store_write (bk_core (op_blk d)) kpage koff bs) as (W1 & W2 & W3); [apply Hd|apply Hd|done|lia|].
    destruct (set_page_coherent (op_blk d) (core_write kpage koff bs (bk_core (op_blk d))) kpage koff BLKDEV_SECTOR_SIZE) as (C0 & K0 & S0);
      [apply Hd| |apply Hd|].
    { split; [done|done|]. intros q x Hq Hx Hn. rewrite W3 by done. by rewrite Hl', decide_False. }
    fold w0 in C0, K0, S0. pose proof (opened_kept d w0 _ _ _ (op_reads_refused d) (op_writes_refused d) Hd C0 K0) as Ho.
    destruct (blkdev_cache_transparent w0 _ _ _ _ _ C0 (opened_request _ s Ho Hs)) as [_ Hw].
    destruct (Hw _ _ Ew) as (C & K & S & D). pose proof (opened_kept _ w _ _ _ (op_reads_refused d) (op_writes_refused d + refusal rc1) Ho C K) as Ho'.
    split_and!; [exact Ho'| |].
    + intros t Ht. apply dev_sector_ext. intros x _. cbn [op_blk op_dev]. rewrite S by (try apply Ho; cbn; lia).
      by apply (same_dev_byte _ _ _ _ _ _ _ _ K0 S0).
    + intros Hrc. apply list_eq. intros i. unfold dev_sector. cbn [op_blk op_dev]. rewrite seq_fmap_lookup. case_decide as Hi.
      * specialize (D Hrc 0 (Z.of_nat i) ltac:(lia) ltac:(unfold SECTOR in Hi; sec)). rewrite Z.mul_0_l, !Z.add_0_r in D.
        cbn [op_blk op_dev] in D. rewrite <-D. rewrite (ik_byte _ _ _ _ _ K); [|apply Ho|apply Ho|unfold SECTOR in Hi; sec|intros [_ ?]; lia].
        cbn [w0 bk_core set_bk_core]. rewrite W3; [|apply Hd|unfold SECTOR in Hi; sec]. rewrite decide_True by (split; [done|unfold SECTOR in Hi; sec]).
        replace (koff + Z.of_nat i - koff) with (Z.of_nat i) by lia. rewrite Nat2Z.id. symmetry. apply list_lookup_lookup_total_lt. by rewrite Hl.
      * symmetry. apply lookup_ge_None_2. rewrite Hl. lia.
  - intros s d rc bs d' E. cbn in E. destruct (dev_read _ _ _ _ _ _) as [rc1 w]. by injection E as <- <- <-.
  - intros s bs d rc d' E. cbn in E. destruct (dev_write _ _ _ _ _ _) as [rc1 w]. by injection E as <- <-.
Defined.
End Blkdev.
