(* ===== verification/Time.v ===== *)
(** * Time: the time calls (src/kernel/core/syscall/sys_time.c)

    The wall clock, kept as the time of boot beside the scheduler's tick counter,
    and the sleeping calls.  [irq] is what may happen between one step of a call
    and the next, interrupts and the other core; [others] is the step of the rest
    of the machine until the process runs again.  [W] is what they depend on.
    A [long] has 32 bits. *)

From S2P Require Import Prelude Config RunState PagePool PagePoolFacts Page Region PageFacts.
From S2P Require Import ProcState Sched SchedFacts Kmutex KmutexFacts Proc UserCopy Signal SectorDev.

(** [PPAP_TICK_HZ], 100 in config.h and 18 on the PC XT. *)
Class TickRate := tick_hz : Z.

Definition NS_PER_SEC : Z := 1000000000.

Section State.
Context {W : Type}.

Record time_w := TimeW {
  tm_k : kernel_t;
  time_boot_epoch : Z;
  tm_mem : umem;
  tm_env : W
}.
Definition set_tm_k (k : kernel_t) (s : time_w) : time_w := TimeW k (time_boot_epoch s) (tm_mem s) (tm_env s).
Definition set_boot_epoch (v : Z) (s : time_w) : time_w := TimeW (tm_k s) v (tm_mem s) (tm_env s).
Definition set_tm_mem (m : umem) (s : time_w) : time_w := TimeW (tm_k s) (time_boot_epoch s) m (tm_env s).

Context {cfg : PageConfig} {hz : TickRate} {bo : ByteOrder}.
Context (cur : nat) (irq : time_w → time_w) (others : time_w → option time_w) (fuel : nat).

Definition NS_PER_TICK : Z := NS_PER_SEC / tick_hz.

Definition self (s : time_w) : pcb_t := proc (tm_k s) cur.
Definition set_self (f : pcb_t → pcb_t) (s : time_w) : time_w := set_tm_k (upd_proc cur f (tm_k s)) s.

Definition pause : run time_w unit := change irq.
Definition read_ticks : run time_w Z := pause;; look (λ s, sched_get_ticks (tm_k s)).
Definition sched_switch : run time_w unit := λ s, s ← others s; Some ((), s).

Definition copy_in (ptr : Z) (n : nat) : run time_w (Z * list Z) := look (λ s, sys_copy_from_user (Some (self s)) (tm_mem s) ptr n).
Definition copy_out (ptr : Z) (bs : list Z) : run time_w Z := λ s,
  let '(rc, m) := sys_copy_to_user (Some (self s)) (tm_mem s) ptr bs in Some (rc, set_tm_mem m s).

(** ** The wall clock: its sections are under [SPIN_TIME] *)

Definition sec_at (s : time_w) : Z := u32 (time_boot_epoch s + sched_get_ticks (tm_k s) / tick_hz).

Definition sys_time_now : run time_w (Z * Z) := pause;; look (λ s, (sec_at s, sched_get_ticks (tm_k s) mod tick_hz)).
Definition time_now_sec : run time_w Z := pause;; look sec_at.
Definition time_set_wallclock (sec : Z) : run time_w unit :=
  pause;; change (λ s, set_boot_epoch (u32 (sec - sched_get_ticks (tm_k s) / tick_hz)) s).

(** A pair of [n]-byte integers, such as [struct timespec] and [int64_t ts[2]]. *)
Definition pair_bytes (n : nat) (a b : Z) : list Z := bytes_of n a ++ bytes_of n b.
Definition pair_of (n : nat) (bs : list Z) : Z * Z := (sN (8 * Z.of_nat n) (get_word n 0 bs), sN (8 * Z.of_nat n) (get_word n n bs)).

(** [if (sys_copy_to_user(...) < 0) return -EFAULT; return 0] *)
Definition store_pair (n : nat) (ptr a b : Z) : run time_w Z :=
  rc ← copy_out ptr (pair_bytes n a b); mret (if rc <? 0 then - EFAULT else 0).

Definition sys_clock_gettime32 (clk_id tp_ptr : Z) : run time_w Z :=
  if tp_ptr =? 0 then mret (- EINVAL)
  else '(sec, frac) ← sys_time_now; store_pair 4 tp_ptr sec (u32 (frac * NS_PER_TICK)).

Definition sys_clock_gettime64 (clk_id tp_ptr : Z) : run time_w Z :=
  if tp_ptr =? 0 then mret (- EINVAL)
  else '(sec, frac) ← sys_time_now; store_pair 8 tp_ptr sec (u32 (frac * NS_PER_TICK)).

Definition sys_gettimeofday (tv_ptr tz_ptr : Z) : run time_w Z :=
  if tv_ptr =? 0 then mret (- EINVAL)
  else '(sec, frac) ← sys_time_now; store_pair 4 tv_ptr sec (u32 (frac * (1000000 / tick_hz))).

Definition sys_settimeofday (tv_ptr tz_ptr : Z) : run time_w Z :=
  if tv_ptr =? 0 then mret (- EINVAL)
  else
    '(rc, bs) ← copy_in tv_ptr 8;
    if rc <? 0 then mret (- EFAULT)
    else
      let sec := (pair_of 4 bs).1 in
      if sec <? 0 then mret (- EINVAL) else time_set_wallclock (u32 sec);; mret 0.

(** ** Sleeping *)

Definition remaining_ticks (sleep_until now : Z) : Z :=
  if negb (sleep_until =? 0) && (0 <? s32 (sleep_until - now)) then u32 (sleep_until - now) else 0.

(** With [n] the size of an integer. *)
Definition write_remaining (n : nat) (rem_ptr : Z) : run time_w Z :=
  if rem_ptr =? 0 then mret 0
  else
    now ← read_ticks;
    r ← look (λ s, remaining_ticks (p_sleep_until (self s)) now);
    copy_out rem_ptr (pair_bytes n (r / tick_hz) (u32 (r mod tick_hz * NS_PER_TICK))).
Definition timespec32_write_remaining : Z → run time_w Z := write_remaining 4.
Definition timespec64_write_remaining : Z → run time_w Z := write_remaining 8.

Definition sleep_ticks (sec nsec : Z) : Z :=
  let ticks := u32 (u32 (u32 sec * tick_hz) + u32 nsec / NS_PER_TICK) in
  if ticks =? 0 then 1 else ticks.

Definition set_sleep_until (v : Z) : run time_w unit := change (set_self (set_p_sleep_until v)).

(** A pass of [for (;;)]. *)
Definition sleep_pass (store : Z → run time_w Z) (rem_ptr : Z) : run time_w (option Z) :=
  pause;;
  sig ← look (λ s, negb (deliverable (self s) =? 0));
  if (sig : bool) then
    rc ← store rem_ptr;
    set_sleep_until 0;;
    mret (Some (if rc <? 0 then - EFAULT else - EINTR))
  else
    now ← read_ticks;
    passed ← look (λ s, deadline_passed now (p_sleep_until (self s)));
    if (passed : bool) then set_sleep_until 0;; mret (Some 0)
    else pause;; change (set_self (set_p_state PROC_SLEEPING));; sched_switch;; mret None.

Definition sleep_for (store : Z → run time_w Z) (ticks rem_ptr : Z) : run time_w Z :=
  now ← read_ticks;
  set_sleep_until (u32 (now + ticks));;
  loop fuel (sleep_pass store rem_ptr).

(** From the request, a pair of [n]-byte integers, to the sleep. *)
Definition sleep_request (n : nat) (store : Z → run time_w Z) (req_ptr rem_ptr : Z) : run time_w Z :=
  if req_ptr =? 0 then mret (- EINVAL)
  else
    '(rc, bs) ← copy_in req_ptr (2 * n);
    if rc <? 0 then mret (- EFAULT)
    else
      let '(sec, nsec) := pair_of n bs in
      if (sec <? 0) || (nsec <? 0) || (NS_PER_SEC <=? nsec) then mret (- EINVAL)
      else sleep_for store (sleep_ticks sec nsec) rem_ptr.

Definition sys_nanosleep (req_ptr rem_ptr : Z) : run time_w Z := sleep_request 4 timespec32_write_remaining req_ptr rem_ptr.
Definition sys_clock_nanosleep32 (clk flags req_ptr rem_ptr : Z) : run time_w Z := sleep_request 4 timespec32_write_remaining req_ptr rem_ptr.
Definition sys_clock_nanosleep64 (clk flags req_ptr rem_ptr : Z) : run time_w Z := sleep_request 8 timespec64_write_remaining req_ptr rem_ptr.
End State.
Arguments time_w : clear implicits.
