(* ===== verification/TimeFacts.v ===== *)
(** * TimeFacts: sleeping and the wall clock

    The rest of the machine is a class: [clock] counts the ticks since boot
    without wrapping, no step takes more than [STRIDE] of them (a month at 100 Hz),
    and a process that sleeps runs again after a tick or with a signal. *)

From S2P Require Import Prelude Config RunState PagePool PagePoolFacts Page Region PageFacts.
From S2P Require Import ProcState Sched SchedFacts Kmutex KmutexFacts Proc UserCopy Signal SectorDev Time.

(** ** Copies *)

Section Copies.
Context {cfg : PageConfig}.

Definition user_range (ptr : Z) (n : nat) : Prop := 0 < ptr ∧ ∀ x, ptr <= x < ptr + Z.of_nat n → addressable x.

Lemma user_range_ref cur ptr n : user_range ptr n → (0 < n)%nat → ∃ ref, proc_user_ptr_to_page_ref (Some cur) ptr = (0, ref) ∧ ref_at ref ptr.
Proof. intros [H0 H] Hn. apply ref_at_start, H. lia. Qed.

Lemma copy_to_ok cur mem ptr bs : user_range ptr (length bs) → bs ≠ [] → (sys_copy_to_user (Some cur) mem ptr bs).1 = 0.
Proof. intros H Hn. destruct bs as [|b bs]; [done|]. destruct (user_range_ref cur ptr _ H) as (ref & Hr & _); [cbn; lia|]. unfold sys_copy_to_user. by rewrite Hr. Qed.

Lemma copy_from_ok cur mem ptr n : user_range ptr n → (0 < n)%nat → sys_copy_from_user (Some cur) mem ptr n = (0, mem_read mem ptr n).
Proof.
  intros [H0 H] Hn. destruct (user_range_ref cur ptr n (conj H0 H) Hn) as (ref & Hr & Hat). unfold sys_copy_from_user. rewrite Hr. cbn [Z.ltb Z.compare].
  f_equal. by apply copy_from_loop_flat.
Qed.

Lemma copy_back cur mem ptr bs : user_range ptr (length bs) → bs ≠ [] →
  mem_read (sys_copy_to_user (Some cur) mem ptr bs).2 ptr (length bs) = bs.
Proof.
  intros [H0 H] Hn. assert (0 < length bs)%nat as Hl by (destruct bs; [done|cbn; lia]).
  destruct (user_range_ref cur ptr _ (conj H0 H) Hl) as (ref & Hr & Hat). unfold sys_copy_to_user. rewrite Hr. cbn [Z.ltb Z.compare snd].
  pose proof (copy_to_loop_flat (length bs) mem ref ptr bs Hat ltac:(lia) H0 H) as Hto.
  apply list_eq_same_length with (length bs); [done|apply length_mem_read|]. intros i x y Hi Hx Hy. unfold mem_read in Hx.
  apply list_lookup_fmap_Some in Hx as (j & -> & Hj). apply lookup_seq in Hj as [-> _]. rewrite Hto. unfold mem_write.
  destruct (Z.leb_spec ptr (ptr + Z.of_nat (0 + i))); [|lia]. destruct (Z.ltb_spec (ptr + Z.of_nat (0 + i)) (ptr + Z.of_nat (length bs))); [|lia].
  cbn [andb]. replace (Z.to_nat (ptr + Z.of_nat (0 + i) - ptr)) with i by lia. by apply list_lookup_total_correct.
Qed.

Context {bo : ByteOrder}.

Lemma length_pair n a b : length (pair_bytes n a b) = (2 * n)%nat.
Proof. unfold pair_bytes. rewrite length_app, !length_bytes_of. lia. Qed.

Lemma copy_pair {W} cur ptr w a b (s : time_w W) (Q : Z → time_w W → Prop) : user_range ptr (2 * w) → (0 < w)%nat →
  (∀ m, mem_read m ptr (2 * w) = pair_bytes w a b → Q 0 (set_tm_mem m s)) → ends (copy_out cur ptr (pair_bytes w a b)) Q s.
Proof.
  intros Hp Hw HQ. rewrite <- (length_pair w a b) in Hp. assert (pair_bytes w a b ≠ []) as Hne.
  { intros E. apply (f_equal length) in E. rewrite length_pair in E. cbn in E. lia. }
  unfold ends, copy_out. pose proof (copy_to_ok (self cur s) (tm_mem s) ptr _ Hp Hne) as Hok. pose proof (copy_back (self cur s) (tm_mem s) ptr _ Hp Hne) as Hb.
  destruct (sys_copy_to_user _ _ _ _) as [rc m]. cbn in Hok, Hb. subst rc. apply HQ. by rewrite length_pair in Hb.
Qed.
End Copies.

(** ** Deadlines *)

Lemma remaining_spec t0 n e : 0 <= n < 2 ^ 31 → 0 <= e < n + 2 ^ 31 →
  remaining_ticks (u32 (t0 + n)) (u32 (t0 + e)) = if u32 (t0 + n) =? 0 then 0 else Z.max 0 (n - e).
Proof.
  intros Hn He. unfold remaining_ticks. destruct (Z.eqb_spec (u32 (t0 + n)) 0); cbn [negb andb]; [done|].
  assert (u32 (u32 (t0 + n) - u32 (t0 + e)) = u32 (n - e)) as E by (unfold uN; rewrite <- Zminus_mod; f_equal; lia).
  destruct (Z.eqb_spec (n - e) (- 2 ^ 31)); [lia|]. rewrite (s32_cong _ (n - e) E), s32_small, E by lia.
  destruct (Z.ltb_spec 0 (n - e)); [|lia]. rewrite uN_small; lia.
Qed.

Lemma deadline_at t0 n e : 0 <= n < 2 ^ 31 → 0 <= e < n + 2 ^ 31 → deadline_passed (u32 (t0 + e)) (u32 (t0 + n)) = (n <=? e).
Proof.
  intros Hn He. unfold deadline_passed.
  assert (u32 (u32 (t0 + e) - u32 (t0 + n)) = u32 (e - n)) as E by (unfold uN; rewrite <- Zminus_mod; f_equal; lia).
  rewrite (s32_cong _ (e - n) E), s32_small by lia. destruct (Z.leb_spec n e), (Z.leb_spec 0 (e - n)); done || lia.
Qed.

(** ** The machine *)

Definition STRIDE : Z := 2 ^ 28.

Section Machine.
Context {W : Type} {cfg : PageConfig} {hz : TickRate} {bo : ByteOrder}.
Abbreviation time_w := (time_w W).
Context (cur : nat) (irq : time_w → time_w) (others : time_w → option time_w) (fuel : nat) (clock : W → Z).

Definition clock_of (s : time_w) : Z := clock (tm_env s).
(** The tick counter is the clock, wrapped. *)
Definition timed (s : time_w) : Prop := table_ok (tm_k s) ∧ tick_count (tm_k s) = u32 (clock_of s).
Definition until (s : time_w) : Z := p_sleep_until (self cur s).
Definition signalled (s : time_w) : bool := negb (deliverable (self cur s) =? 0).

(** What the machine does to the process: time goes on, and signals stay. *)
Definition later (d : Z) (s s' : time_w) : Prop :=
  timed s' ∧ clock_of s <= clock_of s' <= clock_of s + d ∧ until s' = until s ∧ (signalled s = true → signalled s' = true).

Lemma later_refl d s : timed s → 0 <= d → later d s s.
Proof. intros. unfold later. split_and!; auto; lia. Qed.

Class Machine := {
  irq_later s : timed s → later STRIDE s (irq s);
  others_later s : timed s → p_state (self cur s) = PROC_SLEEPING →
    ∃ s', others s = Some s' ∧ later STRIDE s s' ∧ (clock_of s < clock_of s' ∨ signalled s' = true)
}.
Context {mach : Machine} (Hcur : (cur < PROC_MAX)%nat).

Lemma set_self_eq f s : timed s → self cur (set_self cur f s) = f (self cur s).
Proof. intros [Ht _]. by apply proc_upd_eq. Qed.
Lemma set_self_timed f s : timed s → timed (set_self cur f s).
Proof. intros [Ht Hc]. split; [by apply table_ok_upd|done]. Qed.

Lemma read_ticks_later s (Q : Z → time_w → Prop) : timed s →
  (∀ s', later STRIDE s s' → s' = irq s → Q (u32 (clock_of s')) s') → ends (read_ticks irq) Q s.
Proof.
  intros Ht HQ. pose proof (irq_later s Ht) as Hl. apply ends_bind, ends_change, ends_look. unfold sched_get_ticks.
  rewrite (proj2 (proj1 Hl)). by apply HQ.
Qed.

Lemma sched_switch_ends s s' (Q : unit → time_w → Prop) : others s = Some s' → Q () s' → ends (sched_switch others) Q s.
Proof. intros Ho HQ. unfold ends, sched_switch. by rewrite Ho. Qed.

(** ** Passes of the sleeping loop *)

(** While a sleep of [n] ticks from [c0] on has not ended. *)
Definition asleep (c0 n : Z) (s : time_w) : Prop :=
  timed s ∧ until s = u32 (c0 + n) ∧ c0 <= clock_of s <= c0 + n + 2 * STRIDE.

Lemma later_asleep c0 n s s' d : asleep c0 n s → later d s s' → timed s' ∧ until s' = u32 (c0 + n) ∧ c0 <= clock_of s' <= clock_of s + d.
Proof. intros (_ & Hu & Hc) (Ht & Hc' & Hu' & _). rewrite Hu', Hu. split_and!; [done|done|lia|lia]. Qed.

(** What the process finds in the memory for the rest of the time. *)
Definition rest (c0 n : Z) (s : time_w) : Z := if u32 (c0 + n) =? 0 then 0 else Z.max 0 (c0 + n - clock_of s).
Definition rest_stored (w : nat) (rem : Z) (r : Z) (s : time_w) : Prop :=
  rem = 0 ∨ mem_read (tm_mem s) rem (2 * w) = pair_bytes w (r / tick_hz) (u32 (r mod tick_hz * NS_PER_TICK)).

(** How a sleep ends. *)
Definition slept (w : nat) (c0 n rem rc : Z) (s : time_w) : Prop :=
  timed s ∧ until s = 0 ∧
  (rc = 0 ∧ c0 + n <= clock_of s ∨
   rc = - EINTR ∧ signalled s = true ∧ rest_stored w rem (rest c0 n s) s).

Lemma write_remaining_ends w rem c0 n s : (0 < w)%nat → rem = 0 ∨ user_range rem (2 * w) → 0 <= n < 2 ^ 31 →
  timed s → until s = u32 (c0 + n) → c0 <= clock_of s <= c0 + n + 3 * STRIDE →
  ends (write_remaining cur irq w rem) (λ rc s', rc = 0 ∧ later STRIDE s s' ∧ rest_stored w rem (rest c0 n s') s') s.
Proof.
  intros Hw Hr Hn Ht Hu Hc. unfold write_remaining. destruct (Z.eqb_spec rem 0) as [->|Hne].
  { apply ends_ret. split_and!; [done|by apply later_refl|by left]. }
  destruct Hr as [->|Hr]; [done|]. eapply ends_seq; [apply (read_ticks_later s (λ v s', v = u32 (clock_of s') ∧ later STRIDE s s'))|]; [done| |].
  { intros s' Hl _. done. }
  intros now s' [-> Hl]. apply ends_bind, ends_look. apply copy_pair; [done|done|].
  assert (remaining_ticks (p_sleep_until (self cur s')) (u32 (clock_of s')) = rest c0 n s') as ->.
  { destruct Hl as (_ & Hc' & Hu' & _). fold (until s'). rewrite Hu', Hu. unfold rest. unfold STRIDE in *.
    replace (clock_of s') with (c0 + (clock_of s' - c0)) by lia. rewrite remaining_spec by lia. destruct (_ =? 0); [done|]. f_equal. lia. }
  intros m Hm. split_and!; [done| |by right]. done.
Qed.

Definition size (c0 n : Z) (s : time_w) : nat := if signalled s then 0 else S (Z.to_nat (c0 + n - clock_of s)).

Lemma sleep_pass_ends w rem c0 n s : (0 < w)%nat → rem = 0 ∨ user_range rem (2 * w) → 0 < n < 2 ^ 31 → asleep c0 n s →
  ends (sleep_pass cur irq others (write_remaining cur irq w) rem)
    (λ r s', match r with Some rc => slept w c0 n rem rc s' | None => asleep c0 n s' ∧ (size c0 n s' < size c0 n s)%nat end) s.
Proof.
  intros Hw Hr Hn Ha. pose proof (irq_later s (proj1 Ha)) as Hl. destruct (later_asleep _ _ _ _ _ Ha Hl) as (Ht & Hu & Hc).
  pose proof (proj1 (proj2 Hl)) as Hc1. unfold sleep_pass.
  apply ends_bind, ends_change, ends_bind, ends_look. set (s1 := irq s) in *. destruct Ha as (Ht0 & Hu0 & Hc0).
  change (negb (deliverable (self cur s1) =? 0)) with (signalled s1). destruct (signalled s1) eqn:Hs1.
  - eapply ends_seq; [apply (write_remaining_ends w rem c0 n s1); [done..|lia|done|done|lia]|]. intros rc s2 (-> & Hl2 & Hst).
    apply ends_bind, ends_change, ends_ret. destruct Hl2 as (Ht2 & Hc2 & _ & Hs2). unfold slept, until. rewrite set_self_eq by done.
    split; [by apply set_self_timed|]. split; [done|]. right. cbn [Z.ltb Z.compare]. split; [done|]. split; [|done].
    unfold signalled. rewrite set_self_eq by done. by apply Hs2.
  - assert (signalled s = false) as Hs by (destruct (signalled s) eqn:E; [by rewrite (proj2 (proj2 (proj2 Hl))) in Hs1|done]).
    eapply ends_seq; [apply (read_ticks_later s1 (λ v s', v = u32 (clock_of s') ∧ later STRIDE s1 s')); [done|]|].
    { intros s' Hl' _. done. }
    intros now s2 [-> Hl2]. destruct Hl2 as (Ht2 & Hc2 & Hu2 & _). apply ends_bind, ends_look. fold (until s2). rewrite Hu2, Hu.
    assert (deadline_passed (u32 (clock_of s2)) (u32 (c0 + n)) = (c0 + n <=? clock_of s2)) as ->.
    { unfold STRIDE in *. replace (clock_of s2) with (c0 + (clock_of s2 - c0)) at 1 by lia. rewrite deadline_at by lia.
      destruct (Z.leb_spec n (clock_of s2 - c0)), (Z.leb_spec (c0 + n) (clock_of s2)); done || lia. }
    destruct (Z.leb_spec (c0 + n) (clock_of s2)) as [Hp|Hp].
    + apply ends_bind, ends_change, ends_ret. unfold slept, until. rewrite set_self_eq by done. split; [by apply set_self_timed|]. split; [done|]. by left.
    + destruct (irq_later s2 Ht2) as (Ht3 & Hc3 & Hu3 & _). set (s3 := irq s2) in *. apply ends_bind, ends_change, ends_bind, ends_change.
      set (s4 := set_self cur (set_p_state PROC_SLEEPING) s3). assert (timed s4) as Ht4 by by apply set_self_timed.
      destruct (others_later s4 Ht4) as (s5 & Ho & (Ht5 & Hc5 & Hu5 & _) & Hgo); [unfold s4; by rewrite set_self_eq|].
      apply ends_bind, (sched_switch_ends _ _ _ Ho), ends_ret.
      change (clock_of s4) with (clock_of s3) in *.
      assert (until s4 = until s3) as Hu4 by (unfold until, s4; by rewrite set_self_eq).
      split; [split_and!; [done|congruence|lia|lia]|]. unfold size. rewrite Hs. destruct Hgo as [Hgo| ->]; [|lia]. destruct (signalled s5); lia.
Qed.

Lemma sleep_for_ends w rem n s : (0 < w)%nat → rem = 0 ∨ user_range rem (2 * w) → 0 < n < 2 ^ 31 → (Z.to_nat n + 1 < fuel)%nat → timed s →
  ends (sleep_for cur irq others fuel (write_remaining cur irq w) n rem)
    (λ rc s', ∃ c0, clock_of s <= c0 <= clock_of s + STRIDE ∧ slept w c0 n rem rc s') s.
Proof.
  intros Hw Hr Hn Hf Ht. unfold sleep_for. eapply ends_seq; [apply (read_ticks_later s (λ v s', v = u32 (clock_of s') ∧ later STRIDE s s')); [done|]|].
  { intros s' Hl _. done. }
  intros now s1 [-> (Ht1 & Hc1 & _)]. apply ends_bind, ends_change. set (c0 := clock_of s1).
  eapply ends_mono with (Q := slept w c0 n rem); [|intros rc s' ?; by exists c0]. unfold STRIDE in Hc1.
  apply (ends_loop (asleep c0 n) (size c0 n)).
  - split; [by apply set_self_timed|]. unfold until. rewrite set_self_eq by done. cbn.
    change (clock_of (set_self cur (set_p_sleep_until (u32 (u32 c0 + n))) s1)) with c0. split; [|unfold STRIDE; lia].
    unfold uN. by rewrite Zplus_mod_idemp_l.
  - unfold size. change (clock_of (set_self _ _ s1)) with c0. destruct (signalled _); [lia|]. replace (c0 + n - c0) with n by lia. lia.
  - intros s'. by apply sleep_pass_ends.
Qed.
End Machine.

(** ** The calls *)

Section Calls.
Context {W : Type} {cfg : PageConfig} {hz : TickRate} {bo : ByteOrder}.
Abbreviation time_w := (time_w W).
Context (cur : nat) (irq : time_w → time_w) (others : time_w → option time_w) (fuel : nat) (clock : W → Z).
Context {mach : Machine cur irq others clock}.
Abbreviation timed := (timed clock).
Abbreviation clock_of := (clock_of clock).

Inductive sleep_call := Nanosleep | ClockNanosleep32 (clk flags : Z) | ClockNanosleep64 (clk flags : Z).
Definition sleep_width (c : sleep_call) : nat := match c with ClockNanosleep64 _ _ => 8 | _ => 4 end.
Definition run_sleep (c : sleep_call) (req rem : Z) : run time_w Z :=
  match c with
  | Nanosleep => sys_nanosleep cur irq others fuel req rem
  | ClockNanosleep32 clk flags => sys_clock_nanosleep32 cur irq others fuel clk flags req rem
  | ClockNanosleep64 clk flags => sys_clock_nanosleep64 cur irq others fuel clk flags req rem
  end.

Lemma sleep_ticks_spec sec nsec : 0 < tick_hz <= NS_PER_SEC → 0 <= sec → 0 <= nsec < NS_PER_SEC → sec * tick_hz + nsec / NS_PER_TICK < 2 ^ 31 →
  sleep_ticks sec nsec = Z.max 1 (sec * tick_hz + nsec / NS_PER_TICK).
Proof.
  intros Hh Hs Hn Hlt. assert (1 <= NS_PER_TICK) by (unfold NS_PER_TICK; apply Z.div_le_lower_bound; lia).
  assert (0 <= nsec / NS_PER_TICK) by (apply Z.div_pos; lia). unfold NS_PER_SEC in *. unfold sleep_ticks.
  rewrite (uN_small 32 sec), (uN_small 32 nsec), (uN_small 32 (sec * tick_hz)), uN_small by nia.
  destruct (Z.eqb_spec (sec * tick_hz + nsec / NS_PER_TICK) 0); nia.
Qed.

(** C38. Sleeping, under every machine that keeps the contract.  A sleep whose
    length in ticks is below [2 ^ 31] ends.  It returns 0 only when the clock has
    moved by the whole length since the start; it returns [EINTR] only with a
    signal to deliver, and then what is stored for the rest of the time is the
    length minus what the clock has moved, 0 where nothing is left or where the
    deadline is at the value 0 of the counter.  No deadline is left behind.
    Requests that are out of range are refused with nothing changed. *)
Theorem sleep_calls_correct c req rem s (sec nsec : Z) :
  (cur < PROC_MAX)%nat → 0 < tick_hz <= NS_PER_SEC → timed s →
  user_range req (2 * sleep_width c) → rem = 0 ∨ user_range rem (2 * sleep_width c) →
  pair_of (sleep_width c) (mem_read (tm_mem s) req (2 * sleep_width c)) = (sec, nsec) →
  if (sec <? 0) || (nsec <? 0) || (NS_PER_SEC <=? nsec) then run_sleep c req rem s = Some (- EINVAL, s)
  else
    let n := Z.max 1 (sec * tick_hz + nsec / NS_PER_TICK) in
    n < 2 ^ 31 → (Z.to_nat n + 1 < fuel)%nat →
    ends (run_sleep c req rem) (λ rc s', ∃ c0, clock_of s <= c0 <= clock_of s + STRIDE ∧ slept cur clock (sleep_width c) c0 n rem rc s') s.
Proof.
  intros Hcur Hh Ht Hq Hr Hp.
  assert (run_sleep c req rem = sleep_request cur irq others fuel (sleep_width c) (write_remaining cur irq (sleep_width c)) req rem) as -> by by destruct c.
  assert (0 < sleep_width c)%nat as Hw by (destruct c; cbn; lia). revert Hw Hq Hr Hp. generalize (sleep_width c) as w. intros w Hw Hq Hr Hp.
  unfold sleep_request. destruct (Z.eqb_spec req 0) as [|_]; [destruct Hq; lia|].
  pose proof (copy_from_ok (self cur s) (tm_mem s) req (2 * w) Hq ltac:(lia)) as Hcp.
  destruct (_ || _ || _) eqn:Hb.
  - unfold mbind, run_bind, copy_in, look. rewrite Hcp. cbn [Z.ltb Z.compare]. by rewrite Hp, Hb.
  - set (n := Z.max 1 _). intros Hn Hf. pose proof Hb as [[?%Z.ltb_ge ?%Z.ltb_ge]%orb_false_iff ?%Z.leb_gt]%orb_false_iff.
    apply ends_bind, ends_look. rewrite Hcp. cbn [Z.ltb Z.compare]. rewrite Hp, Hb.
    rewrite sleep_ticks_spec by (done || lia). fold n. apply sleep_for_ends; done || lia.
Qed.

(** ** The wall clock *)

Inductive clock_call := ClockGettime32 (clk : Z) | ClockGettime64 (clk : Z) | Gettimeofday (tz : Z).
Definition clock_width (c : clock_call) : nat := match c with ClockGettime64 _ => 8 | _ => 4 end.
(** The fraction that a tick is. *)
Definition clock_unit (c : clock_call) : Z := match c with Gettimeofday _ => 1000000 / tick_hz | _ => NS_PER_TICK end.
Definition run_clock (c : clock_call) (ptr : Z) : run time_w Z :=
  match c with
  | ClockGettime32 clk => sys_clock_gettime32 cur irq clk ptr
  | ClockGettime64 clk => sys_clock_gettime64 cur irq clk ptr
  | Gettimeofday tz => sys_gettimeofday cur irq ptr tz
  end.

(** [r] of the [h] parts of [n]. *)
Lemma part_range n h r : 0 <= r < h → 0 <= n → 0 <= r * (n / h) <= n.
Proof. intros. pose proof (Z.mul_div_le n h). pose proof (Z.div_pos n h). nia. Qed.

Lemma run_clock_ends c ptr s : timed s → user_range ptr (2 * clock_width c) →
  ends (run_clock c ptr) (λ rc s', rc = 0 ∧ later cur clock STRIDE s s' ∧
    mem_read (tm_mem s') ptr (2 * clock_width c) =
      pair_bytes (clock_width c) (u32 (time_boot_epoch (irq s) + u32 (clock_of s') / tick_hz)) (u32 (u32 (clock_of s') mod tick_hz * clock_unit c))) s.
Proof.
  intros Ht Hp. assert (run_clock c ptr = ('(sec, frac) ← sys_time_now irq; store_pair cur (clock_width c) ptr sec (u32 (frac * clock_unit c)))) as ->.
  { unfold run_clock, sys_clock_gettime32, sys_clock_gettime64, sys_gettimeofday. destruct (Z.eqb_spec ptr 0); [destruct Hp; lia|]. by destruct c. }
  pose proof (irq_later cur irq others clock s Ht) as Hl. apply ends_bind, ends_bind, ends_change, ends_look.
  unfold sec_at, sched_get_ticks. rewrite (proj2 (proj1 Hl)). apply ends_bind, copy_pair; [done|destruct c; cbn; lia|].
  intros m Hm. by apply ends_ret.
Qed.

(** The wall clock.  [sys_settimeofday] refuses negative seconds with nothing
    changed; otherwise each of the calls that tell the time says, as long as the
    time is not set again and the tick counter does not wrap, the seconds that
    were set plus the full seconds of the clock at the reading less those of the
    clock at the setting, and as a fraction the ticks of the current second. *)
Theorem wallclock_correct tv tz s (sec usec : Z) :
  0 < tick_hz <= 1000000 → timed s → user_range tv 8 → pair_of 4 (mem_read (tm_mem s) tv 8) = (sec, usec) →
  (∀ s, time_boot_epoch (irq s) = time_boot_epoch s) →
  if sec <? 0 then sys_settimeofday cur irq tv tz s = Some (- EINVAL, s)
  else
    ends (sys_settimeofday cur irq tv tz) (λ rc s1, rc = 0 ∧ later cur clock STRIDE s s1 ∧
      ∀ c ptr s2, timed s2 → time_boot_epoch s2 = time_boot_epoch s1 → user_range ptr (2 * clock_width c) →
      ends (run_clock c ptr) (λ rc s3, rc = 0 ∧ later cur clock STRIDE s2 s3 ∧
        (0 <= clock_of s1 → clock_of s1 <= clock_of s2 → clock_of s3 < 2 ^ 32 →
         mem_read (tm_mem s3) ptr (2 * clock_width c) =
           pair_bytes (clock_width c) (u32 (sec + (clock_of s3 / tick_hz - clock_of s1 / tick_hz))) (clock_of s3 mod tick_hz * clock_unit c))) s2) s.
Proof.
  intros Hh Ht Htv Hp He. unfold sys_settimeofday. destruct (Z.eqb_spec tv 0); [destruct Htv; lia|].
  pose proof (copy_from_ok (self cur s) (tm_mem s) tv 8 Htv ltac:(lia)) as Hcp. destruct (sec <? 0) eqn:Hs.
  { unfold mbind, run_bind, copy_in, look. rewrite Hcp. cbn [Z.ltb Z.compare]. by rewrite Hp; cbn [fst]; rewrite Hs. }
  apply ends_bind, ends_look. rewrite Hcp. cbn [Z.ltb Z.compare]. rewrite Hp. cbn [fst]. rewrite Hs.
  apply ends_bind, ends_bind, ends_change, ends_change, ends_ret. pose proof (irq_later cur irq others clock s Ht) as Hl. split; [done|]. split; [done|].
  intros c ptr s2 Ht2 He2 Hptr. eapply ends_mono; [by apply run_clock_ends|]. intros rc s3 (-> & Hl3 & Hm). split; [done|]. split; [done|].
  change (clock_of (set_boot_epoch _ ?x)) with (clock_of x). intros H1 H2 H3. rewrite Hm, He, He2. cbn [time_boot_epoch set_boot_epoch].
  unfold sched_get_ticks. rewrite (proj2 (proj1 Hl)). pose proof (proj1 (proj2 Hl3)) as Hc. rewrite !(uN_small 32 (clock_of _)) by lia. f_equal.
  - unfold uN. rewrite Zplus_mod_idemp_l, <- Zplus_mod_idemp_l, Zminus_mod_idemp_l, Zplus_mod_idemp_l. f_equal. lia.
  - apply uN_small. assert (0 <= clock_of s3 mod tick_hz * clock_unit c <= NS_PER_SEC) as Hu; [|unfold NS_PER_SEC in Hu; lia].
    pose proof (Z.mod_pos_bound (clock_of s3) tick_hz (proj1 Hh)). destruct c; cbn [clock_unit]; unfold NS_PER_TICK;
      [by apply part_range|by apply part_range|]. pose proof (part_range 1000000 tick_hz (clock_of s3 mod tick_hz)). unfold NS_PER_SEC. lia.
Qed.
End Calls.

(** ** Concrete machines

    [beat] is a machine that looks at the process after every tick; [wakes] is the
    scheduler's tick, until it wakes the process.  A signal is posted when the
    clock reaches [demo_alarm]. *)

Module Demo.
#[local] Instance hz100 : TickRate := 100.
#[local] Instance little : ByteOrder := false.

Record demo_t := Demo { demo_clock : Z; demo_alarm : Z }.
Abbreviation demo_w := (time_w demo_t).

Definition me : nat := 3.

Definition alarmed (c alarm : Z) (k : kernel_t) : kernel_t := if c =? alarm then upd_proc me (post_signal 2) k else k.
Definition beat (s : demo_w) : option demo_w :=
  let c := demo_clock (tm_env s) + 1 in
  let k := set_tick_count (u32 (tick_count (tm_k s) + 1)) (tm_k s) in
  Some (TimeW (alarmed c (demo_alarm (tm_env s)) k) (time_boot_epoch s) (tm_mem s) (Demo c (demo_alarm (tm_env s)))).
Definition quiet (s : demo_w) : demo_w := s.

Lemma deliverable_post sig p : deliverable p ≠ 0 → deliverable (post_signal sig p) ≠ 0.
Proof.
  intros H E. apply H. assert (deliverable (post_signal sig p) = Z.land (Z.lor (p_sig_pending p) (Z.shiftl 1 sig)) (not32 (p_sig_blocked p))) as E'.
  { unfold deliverable, post_signal. cbv zeta. by repeat case_match. }
  rewrite E', Z.land_lor_distr_l in E. by apply Z.lor_eq_0_iff in E as [].
Qed.

Lemma post_signal_until sig p : p_sleep_until (post_signal sig p) = p_sleep_until p.
Proof. unfold post_signal. cbv zeta. by repeat case_match. Qed.

Lemma quiet_later cur s : timed demo_clock s → later cur demo_clock STRIDE s (quiet s).
Proof. intros. apply later_refl; [done|]. unfold STRIDE. lia. Qed.

Lemma beat_later s : timed demo_clock s →
  ∃ s', beat s = Some s' ∧ later me demo_clock STRIDE s s' ∧ clock_of demo_clock s < clock_of demo_clock s'.
Proof.
  intros [Ht Hc]. eexists. split; [done|]. unfold later, timed, clock_of, until, signalled, self in *. cbn [tm_env tm_k demo_clock].
  assert (∀ k c, table_ok k → table_ok (alarmed c (demo_alarm (tm_env s)) k) ∧ tick_count (alarmed c (demo_alarm (tm_env s)) k) = tick_count k ∧
    p_sleep_until (proc (alarmed c (demo_alarm (tm_env s)) k) me) = p_sleep_until (proc k me) ∧
    (deliverable (proc k me) ≠ 0 → deliverable (proc (alarmed c (demo_alarm (tm_env s)) k) me) ≠ 0)) as Ha.
  { intros k c Hk. unfold alarmed. destruct (_ =? _); [|done]. split; [by apply table_ok_upd|]. split; [done|].
    rewrite proc_upd_eq by (done || (unfold me, PROC_MAX; lia)). split; [apply post_signal_until|apply deliverable_post]. }
  destruct (Ha (set_tick_count (u32 (tick_count (tm_k s) + 1)) (tm_k s)) (demo_clock (tm_env s) + 1) Ht) as (H1 & H2 & H3 & H4).
  split_and!; [done| |unfold STRIDE; lia|unfold STRIDE; lia|done| |lia].
  - rewrite H2. cbn. rewrite Hc. unfold uN. by rewrite Zplus_mod_idemp_l.
  - rewrite !negb_true_iff, !Z.eqb_neq. apply H4.
Qed.

#[local] Instance demo_machine : Machine me quiet beat demo_clock.
Proof.
  split; [apply quiet_later|]. intros s Ht _. destruct (beat_later s Ht) as (s' & H & Hl & Hc). exists s'. auto.
Qed.

(** A machine with a request at [0x20006000]. *)
Definition at_clock (c alarm epoch : Z) (req : list Z) : demo_w :=
  TimeW (Kernel (replicate PROC_MAX (set_p_state PROC_RUNNABLE pcb_zero)) [None; None] 1 (u32 c) 0 [0; 0] [0; 0] [0; 0] ∅) epoch
    (mem_write (λ _, 0) 0x20006000 req) (Demo c alarm).
Definition result {A} (f : demo_w → A) (r : option (Z * demo_w)) : option (Z * A) := '(rc, s) ← r; Some (rc, f s).
Definition moved (s : demo_w) : Z := demo_clock (tm_env s).
Definition long_at (a : Z) (s : demo_w) : Z := word_of (mem_read (tm_mem s) a 4).

(** 30 ms are three ticks; a signal after the first leaves 20 ms. *)
Example sleep_three :
  result moved (sys_nanosleep me quiet beat 100 0x20006000 0 (at_clock 1000 0 0 (pair_bytes 4 0 30000000))) = Some (0, 1003).
Proof. vm_compute. reflexivity. Qed.
Example sleep_interrupted :
  result (λ s, (moved s, long_at 0x20006010 s, long_at 0x20006014 s))
    (sys_nanosleep me quiet beat 100 0x20006000 0x20006010 (at_clock 1000 1001 0 (pair_bytes 4 0 30000000))) = Some (- EINTR, (1001, 0, 20000000)).
Proof. vm_compute. reflexivity. Qed.
(** 19.9 ms are one tick: a fraction of a tick is cut off. *)
Example sleep_short :
  result moved (sys_nanosleep me quiet beat 100 0x20006000 0 (at_clock 1000 0 0 (pair_bytes 4 0 19900000))) = Some (0, 1001).
Proof. vm_compute. reflexivity. Qed.
(** [2 ^ 31] ticks or more, 249 days, end at once. *)
Example sleep_too_long :
  result moved (sys_nanosleep me quiet beat 100 0x20006000 0 (at_clock 1000 0 0 (pair_bytes 4 21474837 0))) = Some (0, 1000).
Proof. vm_compute. reflexivity. Qed.
(** The upper half of 64-bit seconds is dropped. *)
Example sleep_truncated :
  result moved (sys_clock_nanosleep64 me quiet beat 100 0 0 0x20006000 0 (at_clock 1000 0 0 (pair_bytes 8 (2 ^ 32) 0))) = Some (0, 1001).
Proof. vm_compute. reflexivity. Qed.
(** [TIMER_ABSTIME] is ignored: the time of the day at which to wake up is slept. *)
Example sleep_abstime :
  result moved (sys_clock_nanosleep32 me quiet beat 2000 0 1 0x20006000 0 (at_clock 1000 0 0 (pair_bytes 4 11 0))) = Some (0, 2100).
Proof. vm_compute. reflexivity. Qed.
(** With the deadline at 0, nothing seems to be left. *)
Example rest_at_zero :
  result (λ s, (moved s, long_at 0x20006010 s, long_at 0x20006014 s))
    (sys_nanosleep me quiet beat 100 0x20006000 0x20006010 (at_clock (2 ^ 32 - 3) (2 ^ 32 - 2) 0 (pair_bytes 4 0 30000000)))
  = Some (- EINTR, (2 ^ 32 - 2, 0, 0)).
Proof. vm_compute. reflexivity. Qed.

(** The scheduler's tick. *)
Definition tick (s : demo_w) : demo_w :=
  let c := demo_clock (tm_env s) + 1 in
  TimeW (alarmed c (demo_alarm (tm_env s)) (sched_timer_tick 0 false (tm_k s))) (time_boot_epoch s) (tm_mem s) (Demo c (demo_alarm (tm_env s))).
Fixpoint ticks_until_awake (n : nat) (s : demo_w) : option demo_w :=
  match n with
  | O => None
  | S n => let s := tick s in if bool_decide (p_state (self me s) = PROC_RUNNABLE) then Some s else ticks_until_awake n s
  end.
Definition wakes : demo_w → option demo_w := ticks_until_awake 1000.

Example sleep_scheduled :
  result moved (sys_nanosleep me quiet wakes 3 0x20006000 0 (at_clock 1000 0 0 (pair_bytes 4 2 0))) = Some (0, 1200).
Proof. vm_compute. reflexivity. Qed.
Example sleep_scheduled_signal :
  result moved (sys_nanosleep me quiet wakes 3 0x20006000 0 (at_clock 1000 1050 0 (pair_bytes 4 2 0))) = Some (- EINTR, 1050).
Proof. vm_compute. reflexivity. Qed.

(** The other core posts a signal when the process has looked for one and has not
    yet gone to sleep: it sleeps to its deadline. *)
Definition other_core (s : demo_w) : demo_w :=
  let e := tm_env s in
  if demo_alarm e =? 0 then s
  else TimeW (if demo_alarm e =? 1 then upd_proc me (post_signal 2) (tm_k s) else tm_k s) (time_boot_epoch s) (tm_mem s) (Demo (demo_clock e) (demo_alarm e - 1)).
Example signal_sleeps_on :
  result moved (sys_nanosleep me other_core wakes 3 0x20006000 0 (at_clock 1000 4 0 (pair_bytes 4 2 0))) = Some (- EINTR, 1200).
Proof. vm_compute. reflexivity. Qed.

(** The time of the day when the counter of ticks wraps around. *)
Example wallclock_jumps :
  fst <$> time_now_sec quiet (at_clock (2 ^ 32 - 1) 0 1700000000 []) = Some 1742949672 ∧
  fst <$> time_now_sec quiet (at_clock (2 ^ 32) 0 1700000000 []) = Some 1700000000.
Proof. vm_compute. done. Qed.

Lemma demo_range : user_range 0x20006000 8 ∧ user_range 0x20006010 8.
Proof.
  split; (split; [lia|]); intros x Hx; unfold addressable, PAGE_SIZE, PAGE_ID_INVALID; cbn; (split; [lia|]); (split; [|lia]);
    apply Z.div_lt_upper_bound; lia.
Qed.

Lemma sleep_calls_correct_witness :
  ends (run_sleep me quiet beat 100 Nanosleep 0x20006000 0x20006010)
    (λ rc s', ∃ c0, 1000 <= c0 <= 1000 + STRIDE ∧ slept me demo_clock 4 c0 3 0x20006010 rc s') (at_clock 1000 1001 0 (pair_bytes 4 0 30000000)).
Proof.
  refine (sleep_calls_correct me quiet beat 100 demo_clock Nanosleep 0x20006000 0x20006010 (at_clock 1000 1001 0 (pair_bytes 4 0 30000000)) 0 30000000 _ _ _ _ _ _ _ _).
  - unfold me, PROC_MAX. lia.
  - vm_compute. split; [reflexivity|discriminate].
  - split; reflexivity.
  - exact (proj1 demo_range).
  - right. exact (proj2 demo_range).
  - vm_compute. reflexivity.
  - reflexivity.
  - vm_compute. lia.
Defined.

Lemma wallclock_correct_witness :
  ends (sys_settimeofday me quiet 0x20006000 0) (λ rc s1, rc = 0 ∧ later me demo_clock STRIDE (at_clock 1000 0 0 (pair_bytes 4 1700000000 0)) s1 ∧
    ∀ c ptr s2, timed demo_clock s2 → time_boot_epoch s2 = time_boot_epoch s1 → user_range ptr (2 * clock_width c) →
    ends (run_clock me quiet c ptr) (λ rc s3, rc = 0 ∧ later me demo_clock STRIDE s2 s3 ∧
      (0 <= clock_of demo_clock s1 → clock_of demo_clock s1 <= clock_of demo_clock s2 → clock_of demo_clock s3 < 2 ^ 32 →
       mem_read (tm_mem s3) ptr (2 * clock_width c) =
         pair_bytes (clock_width c) (u32 (1700000000 + (clock_of demo_clock s3 / tick_hz - clock_of demo_clock s1 / tick_hz))) (clock_of demo_clock s3 mod tick_hz * clock_unit c))) s2)
    (at_clock 1000 0 0 (pair_bytes 4 1700000000 0)).
Proof.
  refine (wallclock_correct me quiet beat demo_clock 0x20006000 0 (at_clock 1000 0 0 (pair_bytes 4 1700000000 0)) 1700000000 0 _ _ _ _ _).
  - vm_compute. split; [reflexivity|discriminate].
  - split; reflexivity.
  - exact (proj1 demo_range).
  - vm_compute. reflexivity.
  - reflexivity.
Defined.
End Demo.
