(* ===== verification/Poll.v ===== *)
(** * Poll: waiting for descriptors (src/kernel/core/syscall/sys_poll.c)

    The calls run on the machine of Time.  What the file layer says of a
    descriptor is a class: [fd_poll] are its events, and [fd_get_priv] the address
    that is used as the channel to sleep on. *)

From S2P Require Import Prelude Config RunState PagePool PagePoolFacts Page Region PageFacts.
From S2P Require Import ProcState Sched SchedFacts Kmutex KmutexFacts Proc UserCopy Signal SectorDev Time TimeFacts.

Definition POLLNVAL : Z := 0x20.

Class PollOps (W : Type) := { fd_poll : Z → W → Z * W; fd_get_priv : Z → W → Z }.

Record pollfd := Pollfd { pf_fd : Z; pf_events : Z; pf_revents : Z }.
Definition POLLFD_SIZE : nat := 8.

Section Layout.
Context {bo : ByteOrder}.

Definition pollfd_of (bs : list Z) : pollfd := Pollfd (s32 (get_word 4 0 bs)) (s16 (get_word 2 4 bs)) (s16 (get_word 2 6 bs)).
Definition pollfd_bytes (e : pollfd) : list Z := bytes_of 4 (pf_fd e) ++ bytes_of 2 (pf_events e) ++ bytes_of 2 (pf_revents e).
(** The array [local_fds], [n] entries of it. *)
Definition pollfds_of (n : nat) (bs : list Z) : list pollfd := (λ i, pollfd_of (drop (POLLFD_SIZE * i) bs)) <$> seq 0 n.
Definition pollfds_bytes (fds : list pollfd) : list Z := mjoin (pollfd_bytes <$> fds).
End Layout.

Section Poll.
Context {W : Type} {ops : PollOps W} {cfg : PageConfig} {hz : TickRate} {bo : ByteOrder}.
Abbreviation time_w := (time_w W).
Context (cur : nat) (irq : time_w → time_w) (others : time_w → option time_w) (fuel : nat).

Definition ts_to_ticks (ts : Z * Z) : Z :=
  if ts.1 <? 0 then 0 else u32 (u32 (u32 ts.1 * tick_hz) + u32 ts.2 / NS_PER_TICK).
Definition ts32_to_ticks : Z * Z → Z := ts_to_ticks.
Definition ts64_to_ticks : Z * Z → Z := ts_to_ticks.

Definition fd_used (p : pcb_t) (fd : Z) : bool :=
  (0 <=? fd) && (fd <? Z.of_nat FD_MAX) && negb (p_fd_map p !!! Z.to_nat fd =? FD_DESC_NONE).
Definition set_revents (v : Z) (e : pollfd) : pollfd := Pollfd (pf_fd e) (pf_events e) v.

(** [revents] of an entry. *)
Definition poll_fd (p : pcb_t) (e : pollfd) (w : W) : Z * W :=
  if pf_fd e <? 0 then (0, w)
  else if negb (fd_used p (pf_fd e)) then (POLLNVAL, w)
  else let '(mask, w) := fd_poll (p_fd_map p !!! Z.to_nat (pf_fd e)) w in (s16 (Z.land mask (pf_events e)), w).

Fixpoint poll_fds (p : pcb_t) (fds : list pollfd) (w : W) : list pollfd * W :=
  match fds with
  | [] => ([], w)
  | e :: fds =>
      let '(v, w) := poll_fd p e w in
      let '(fds, w) := poll_fds p fds w in
      (set_revents v e :: fds, w)
  end.
(** [ready], the entries with events. *)
Definition count_ready (fds : list pollfd) : Z := zsum (λ e, ind (negb (pf_revents e =? 0))) fds.

Definition poll_all (fds : list pollfd) : run time_w (list pollfd) := λ s,
  let '(fds, w) := poll_fds (self cur s) fds (tm_env s) in Some (fds, TimeW (tm_k s) (time_boot_epoch s) (tm_mem s) w).

(** The first entry in use whose file has an address. *)
Fixpoint poll_channel (p : pcb_t) (fds : list pollfd) (w : W) : Z :=
  match fds with
  | [] => 0
  | e :: fds =>
      if fd_used p (pf_fd e) then
        let priv := fd_get_priv (p_fd_map p !!! Z.to_nat (pf_fd e)) w in
        if priv =? 0 then poll_channel p fds w else priv
      else poll_channel p fds w
  end.

Definition sched_sleep_current (channel : Z) : run time_w unit :=
  change (set_self cur (λ p, set_p_wait_channel channel (set_p_state PROC_BLOCKED p)));; sched_switch others.

(** A pass of [for (;;)]; its result comes with the entries. *)
Definition poll_pass (fds : list pollfd) (timeout_ticks : Z) (has_timeout : bool) : run time_w (option (Z * list pollfd)) :=
  pause irq;;
  fds ← poll_all fds;
  let ready := count_ready fds in
  if 0 <? ready then set_sleep_until cur 0;; mret (Some (ready, fds))
  else if has_timeout && (timeout_ticks =? 0) then set_sleep_until cur 0;; mret (Some (0, fds))
  else
    passed ← (if has_timeout then now ← read_ticks irq; look (λ s, deadline_passed now (p_sleep_until (self cur s))) else mret false);
    if (passed : bool) then set_sleep_until cur 0;; mret (Some (0, fds))
    else
      pause irq;;
      sig ← look (λ s, negb (deliverable (self cur s) =? 0));
      if (sig : bool) then set_sleep_until cur 0;; mret (Some (- EINTR, fds))
      else
        channel ← look (λ s, poll_channel (self cur s) fds (tm_env s));
        pause irq;;
        sched_sleep_current channel;;
        mret None.

Definition do_ppoll (fds : list pollfd) (timeout_ticks : Z) (has_timeout : bool) : run time_w (Z * list pollfd) :=
  (if has_timeout && (0 <? timeout_ticks) then now ← read_ticks irq; set_sleep_until cur (u32 (now + timeout_ticks)) else mret ());;
  loop fuel (poll_pass fds timeout_ticks has_timeout).

(** ** The calls *)

Definition fds_capped (nfds : Z) : Z := if Z.of_nat FD_MAX <? nfds then Z.of_nat FD_MAX else nfds.

(** The array is copied in, [timeout] finds the ticks, and the array is copied
    out with the result. *)
Definition poll_call (fds_ptr nfds : Z) (has_timeout : bool) (timeout : run time_w (Z + Z)) : run time_w Z :=
  let nfds := fds_capped nfds in
  '(rc, fds) ← (if 0 <? nfds then
      if fds_ptr =? 0 then mret (- EINVAL, [])
      else '(rc, bs) ← copy_in cur fds_ptr (POLLFD_SIZE * Z.to_nat nfds); mret (rc, pollfds_of (Z.to_nat nfds) bs)
    else mret (0, []));
  if rc <? 0 then mret rc
  else
    t ← timeout;
    match t with
    | inl rc => mret rc
    | inr ticks =>
        '(rc, fds) ← do_ppoll fds ticks has_timeout;
        if 0 <? nfds then copy_rc ← copy_out cur fds_ptr (pollfds_bytes fds); mret (if copy_rc <? 0 then copy_rc else rc)
        else mret rc
    end.

Definition timeout_at (n : nat) (to_ticks : Z * Z → Z) (timeout_ptr : Z) : run time_w (Z + Z) :=
  if timeout_ptr =? 0 then mret (inr 0)
  else '(rc, bs) ← copy_in cur timeout_ptr (2 * n); mret (if rc <? 0 then inl rc else inr (to_ticks (pair_of n bs))).

Definition sys_poll (fds_ptr nfds timeout_ms : Z) : run time_w Z :=
  poll_call fds_ptr nfds (0 <=? timeout_ms) (mret (inr (if 0 <? timeout_ms then u32 (u32 timeout_ms * tick_hz) / 1000 else 0))).
Definition sys_ppoll (fds_ptr nfds timeout_ptr sigmask_ptr sigsetsize : Z) : run time_w Z :=
  poll_call fds_ptr nfds (negb (timeout_ptr =? 0)) (timeout_at 4 ts32_to_ticks timeout_ptr).
Definition sys_ppoll_time64 (fds_ptr nfds timeout_ptr sigmask_ptr sigsetsize : Z) : run time_w Z :=
  poll_call fds_ptr nfds (negb (timeout_ptr =? 0)) (timeout_at 8 ts64_to_ticks timeout_ptr).
End Poll.

(** ** Polls end, with what the files said

    The rest of the machine is that of TimeFacts with two additions: the events of
    a file cost no time, and between two ticks a process is woken at most [K]
    times for nothing, as [noise] counts. *)

Lemma count_ready_range fds : 0 <= count_ready fds.
Proof. unfold count_ready. induction fds as [|e fds IH]; cbn [zsum]; [lia|]. pose proof (ind_range (negb (pf_revents e =? 0))). lia. Qed.

Section Machine.
Context {W : Type} {ops : PollOps W} {cfg : PageConfig} {hz : TickRate} {bo : ByteOrder}.
Abbreviation time_w := (time_w W).
Context (cur : nat) (irq : time_w → time_w) (others : time_w → option time_w) (fuel : nat) (clock : W → Z) (noise : W → nat) (K : nat).
Abbreviation timed := (timed clock).
Abbreviation clock_of := (clock_of clock).
Abbreviation later := (later cur clock).
Abbreviation signalled := (signalled cur).
Abbreviation until := (until cur).

(** Time has gone on, or no wake-ups have been added. *)
Definition calm (s s' : time_w) : Prop := (noise (tm_env s') <= noise (tm_env s))%nat ∨ clock_of s < clock_of s' ∧ (noise (tm_env s') <= K)%nat.

Class PollMachine := {
  poll_irq s : timed s → later STRIDE s (irq s) ∧ calm s (irq s);
  poll_files d w : clock (fd_poll d w).2 = clock w ∧ (noise (fd_poll d w).2 <= noise w)%nat;
  poll_others s : timed s → p_state (self cur s) = PROC_BLOCKED → until s ≠ 0 →
    ∃ s', others s = Some s' ∧ later STRIDE s s' ∧
      (signalled s' = true ∨ clock_of s < clock_of s' ∧ (noise (tm_env s') <= K)%nat ∨ (noise (tm_env s') < noise (tm_env s))%nat)
}.
Context {mach : PollMachine} (Hcur : (cur < PROC_MAX)%nat).

Lemma poll_fds_quiet p fds w : clock (poll_fds p fds w).2 = clock w ∧ (noise (poll_fds p fds w).2 <= noise w)%nat.
Proof.
  revert w. induction fds as [|e fds IH]; intros w; cbn [poll_fds]; [done|].
  assert (clock (poll_fd p e w).2 = clock w ∧ (noise (poll_fd p e w).2 <= noise w)%nat) as He.
  { unfold poll_fd. destruct (_ <? 0); [done|]. destruct (negb _); [done|]. pose proof (poll_files (p_fd_map p !!! Z.to_nat (pf_fd e)) w) as Hf. by destruct (fd_poll _ w). }
  destruct (poll_fd p e w) as [v w1]. specialize (IH w1). destruct (poll_fds p fds w1) as [l w2]. cbn [snd] in *. destruct He, IH. split; [congruence|lia].
Qed.

Lemma length_poll_fds p fds w : length (poll_fds p fds w).1 = length fds.
Proof.
  revert w. induction fds as [|e fds IH]; intros w; cbn [poll_fds]; [done|]. destruct (poll_fd p e w) as [v w1]. specialize (IH w1).
  destruct (poll_fds p fds w1). cbn in *. by rewrite IH.
Qed.

(** The entries as the files answered at some instant between the two. *)
Definition answered (fds fds' : list pollfd) (s s' : time_w) : Prop :=
  ∃ s1, clock_of s <= clock_of s1 <= clock_of s' ∧ fds' = (poll_fds (self cur s1) fds (tm_env s1)).1.

(** How a poll ends that began at [s] and whose time is over at [end_]. *)
Definition polled (fds : list pollfd) (s : time_w) (end_ : Z) (r : Z * list pollfd) (s' : time_w) : Prop :=
  timed s' ∧ until s' = 0 ∧ answered fds r.2 s s' ∧
  (0 < r.1 ∧ r.1 = count_ready r.2 ∨
   count_ready r.2 = 0 ∧ (r.1 = 0 ∧ end_ <= clock_of s' ∨ r.1 = - EINTR ∧ signalled s' = true)).

Lemma polled_earlier fds s0 s e r s' : clock_of s0 <= clock_of s → polled fds s e r s' → polled fds s0 e r s'.
Proof. intros Hc (Ht & Hu & (s1 & Hs1 & E) & H). split; [done|]. split; [done|]. split; [|done]. exists s1. split; [lia|done]. Qed.

(** Nothing that matters is changed by the answers of files. *)
Definition env_step (s s' : time_w) : Prop :=
  tm_k s' = tm_k s ∧ clock_of s' = clock_of s ∧ (noise (tm_env s') <= noise (tm_env s))%nat.
Lemma poll_all_ends fds s (Q : list pollfd → time_w → Prop) :
  (∀ s', env_step s s' → Q (poll_fds (self cur s) fds (tm_env s)).1 s') → ends (poll_all cur fds) Q s.
Proof.
  intros HQ. unfold ends, poll_all. pose proof (poll_fds_quiet (self cur s) fds (tm_env s)) as [Hc Hn]. destruct (poll_fds _ _ _) as [l w]. by apply HQ.
Qed.

Lemma leave s rc (Q : option (Z * list pollfd) → time_w → Prop) :
  Q (Some rc) (set_self cur (set_p_sleep_until 0) s) → ends (set_sleep_until cur 0;; mret (Some rc)) Q s.
Proof. intros. by apply ends_bind, ends_change, ends_ret. Qed.

Lemma until_reset s : timed s → until (set_self cur (set_p_sleep_until 0) s) = 0.
Proof. intros. unfold TimeFacts.until. by rewrite (set_self_eq _ clock). Qed.
Lemma signalled_reset s : timed s → signalled (set_self cur (set_p_sleep_until 0) s) = signalled s.
Proof. intros. unfold TimeFacts.signalled. by rewrite (set_self_eq _ clock). Qed.

(** While a poll of [n] ticks from [c0] on has not ended. *)
Definition waiting (c0 n : Z) (s : time_w) : Prop := timed s ∧ until s = u32 (c0 + n) ∧ c0 <= clock_of s <= c0 + n + 3 * STRIDE.
Definition effort (c0 n : Z) (s : time_w) : nat :=
  if signalled s then 0 else S (Z.to_nat (c0 + n - clock_of s) * S K + noise (tm_env s)).

Lemma effort_less c0 n s s' : signalled s = false → clock_of s < c0 + n →
  signalled s' = true ∨ clock_of s < clock_of s' ∧ (noise (tm_env s') <= K)%nat ∨ clock_of s <= clock_of s' ∧ (noise (tm_env s') < noise (tm_env s))%nat →
  (effort c0 n s' < effort c0 n s)%nat.
Proof.
  intros Hs Hc H. unfold effort. rewrite Hs. destruct (signalled s'); [apply Nat.lt_0_succ|].
  destruct H as [?|H]; [done|]. revert H.
  assert (∀ x y a b k : nat, ((x < y ∧ a <= k) ∨ (x <= y ∧ a < b) → S (x * S k + a) < S (y * S k + b))%nat) as He.
  { intros x y a b k H. pose proof (Nat.mul_le_mono_r (S x) y (S k)). pose proof (Nat.mul_le_mono_r x y (S k)). rewrite (Nat.mul_succ_l x) in *. lia. }
  intros H. apply He. lia.
Qed.

Lemma calm_steps s1 s2 s3 : clock_of s1 <= clock_of s2 → clock_of s2 <= clock_of s3 → calm s1 s2 → calm s2 s3 → calm s1 s3.
Proof. unfold calm. lia. Qed.

Lemma poll_ticks_ends s (Q : Z → time_w → Prop) : timed s →
  (later STRIDE s (irq s) → calm s (irq s) → Q (u32 (clock_of (irq s))) (irq s)) → ends (read_ticks irq) Q s.
Proof.
  intros Ht HQ. destruct (poll_irq s Ht) as [Hl Hc]. apply ends_bind, ends_change, ends_look. unfold sched_get_ticks.
  rewrite (proj2 (proj1 Hl)). by apply HQ.
Qed.

(** What the first part of a pass leaves: the entries [l], and the state. *)
Lemma polled_leave fds s end_ rc l s1 s' : timed s' → answered fds l s s1 → clock_of s1 <= clock_of s' →
  (0 < rc ∧ rc = count_ready l ∨ count_ready l = 0 ∧ (rc = 0 ∧ end_ <= clock_of s' ∨ rc = - EINTR ∧ signalled s' = true)) →
  polled fds s end_ (rc, l) (set_self cur (set_p_sleep_until 0) s').
Proof.
  intros Ht (s2 & Hs2 & ->) Hc H. split; [by apply set_self_timed|]. split; [by apply until_reset|]. split; [exists s2; split; [|done]|].
  - change (clock_of (set_self _ _ s')) with (clock_of s'). lia.
  - cbn [fst snd]. rewrite signalled_reset by done. done.
Qed.

Lemma poll_pass_ends fds c0 n s : 0 < n < 2 ^ 31 → u32 (c0 + n) ≠ 0 → waiting c0 n s →
  ends (poll_pass cur irq others fds n true)
    (λ r s', match r with Some r => polled fds s (c0 + n) r s' | None => waiting c0 n s' ∧ clock_of s <= clock_of s' ∧ (effort c0 n s' < effort c0 n s)%nat end) s.
Proof.
  intros Hn Hne (Ht & Hu & Hc). unfold poll_pass. destruct (poll_irq s Ht) as [(Ht1 & Hc1 & Hu1 & Hg1) Hq1]. set (s1 := irq s) in *.
  apply ends_bind, ends_change. eapply ends_seq; [apply (poll_all_ends fds s1 (λ l s', env_step s1 s' ∧ l = (poll_fds (self cur s1) fds (tm_env s1)).1)); done|].
  intros l s2 [(Hk2 & Hc2 & Hn2) El]. assert (answered fds l s s2) as Ha by (exists s1; split; [fold s1; lia|done]).
  assert (timed s2) as Ht2 by (unfold TimeFacts.timed; rewrite Hk2, Hc2; apply Ht1).
  assert (until s2 = until s1 ∧ signalled s2 = signalled s1) as [Hu2 Hg2] by (unfold TimeFacts.until, TimeFacts.signalled, self; by rewrite Hk2).
  pose proof (count_ready_range l). destruct (Z.ltb_spec 0 (count_ready l)).
  { apply leave. eapply polled_leave; [done|done|lia|]. by left. }
  destruct (Z.eqb_spec n 0); [lia|]. cbn [andb]. apply ends_bind, ends_bind, poll_ticks_ends; [done|]. intros (Ht3 & Hc3 & Hu3 & Hg3) Hq3.
  set (s3 := irq s2) in *. apply ends_look. fold (until s3). rewrite Hu3, Hu2, Hu1, Hu. unfold STRIDE in *.
  assert (deadline_passed (u32 (clock_of s3)) (u32 (c0 + n)) = (c0 + n <=? clock_of s3)) as ->.
  { replace (clock_of s3) with (c0 + (clock_of s3 - c0)) at 1 by lia. rewrite deadline_at by lia.
    destruct (Z.leb_spec n (clock_of s3 - c0)), (Z.leb_spec (c0 + n) (clock_of s3)); done || lia. }
  destruct (Z.leb_spec (c0 + n) (clock_of s3)).
  { apply leave. eapply polled_leave; [done|done|lia|]. right. split; [lia|]. by left. }
  apply ends_bind, ends_change. destruct (poll_irq s3 Ht3) as [(Ht4 & Hc4 & Hu4 & Hg4) Hq4]. set (s4 := irq s3) in *. unfold STRIDE in *.
  apply ends_bind, ends_look. change (negb (deliverable (self cur s4) =? 0)) with (signalled s4). destruct (signalled s4) eqn:Hs4.
  { apply leave. eapply polled_leave; [done|done|lia|]. right. split; [lia|]. by right. }
  assert (signalled s = false) as Hs by (apply not_true_is_false; intros E; apply Hg1 in E; rewrite <- Hg2 in E; apply Hg3, Hg4 in E; congruence).
  apply ends_bind, ends_look, ends_bind, ends_change. destruct (poll_irq s4 Ht4) as [(Ht5 & Hc5 & Hu5 & _) Hq5]. set (s5 := irq s4) in *. unfold STRIDE in *.
  apply ends_bind, ends_bind, ends_change. set (block := λ p, set_p_wait_channel _ (set_p_state PROC_BLOCKED p)). set (s6 := set_self cur block s5).
  assert (timed s6) as Ht6 by by apply set_self_timed. assert (until s6 = until s5) as Hu6 by (unfold s6, TimeFacts.until; by rewrite (set_self_eq _ clock)).
  destruct (poll_others s6 Ht6) as (s7 & Ho & (Ht7 & Hc7 & Hu7 & _) & Hgo); [unfold s6; by rewrite (set_self_eq _ clock)|congruence|].
  eapply sched_switch_ends; [done|]. apply ends_ret. change (clock_of s6) with (clock_of s5) in *. change (tm_env s6) with (tm_env s5) in *. unfold STRIDE in *.
  assert (calm s s5) as Hq.
  { apply (calm_steps s s4); [lia|lia| |done]. apply (calm_steps s s3); [lia|lia| |done]. apply (calm_steps s s2); [lia|lia| |done].
    apply (calm_steps s s1); [lia|lia|done|by left]. }
  split; [split_and!; [done|congruence|unfold STRIDE; lia|unfold STRIDE; lia]|]. split; [lia|]. apply effort_less; [done|lia|].
  destruct Hgo as [?|[[? ?]|?]]; [by left|right; left; lia|]. right. destruct Hq as [?|[? ?]]; [right|left]; lia.
Qed.

(** A poll with a time-out of [n] ticks. *)
Lemma do_ppoll_ends fds n s : 0 <= n < 2 ^ 31 → timed s → (∀ c, clock_of s <= c <= clock_of s + STRIDE → u32 (c + n) ≠ 0) →
  (S (Z.to_nat n) * S K + noise (tm_env s) + 1 < fuel)%nat →
  ends (do_ppoll cur irq others fuel fds n true) (λ r s', ∃ c0, clock_of s <= c0 <= clock_of s + STRIDE ∧ polled fds s (c0 + n) r s') s.
Proof.
  intros Hn Ht Hne Hf. unfold do_ppoll. destruct (Z.ltb_spec 0 n) as [Hpos|]; cbn [andb].
  - apply ends_bind, ends_bind, poll_ticks_ends; [done|]. intros (Ht1 & Hc1 & _) Hq. set (s1 := irq s) in *. apply ends_change. set (s2 := set_self _ _ s1).
    eapply ends_mono with (Q := λ r s', polled fds s (clock_of s1 + n) r s'); [|intros r s' Hp; by exists (clock_of s1)].
    assert (timed s2) as Ht2 by by apply set_self_timed. assert (clock_of s2 = clock_of s1) as Ec by done.
    apply (ends_loop (λ s', waiting (clock_of s1) n s' ∧ clock_of s <= clock_of s') (effort (clock_of s1) n)).
    + split; [|lia]. split; [done|]. unfold TimeFacts.until, s2 at 1. rewrite (set_self_eq _ clock) by done. cbn [p_sleep_until set_p_sleep_until].
      rewrite Ec. unfold STRIDE. split; [unfold uN; by rewrite Zplus_mod_idemp_l|lia].
    + unfold effort. change (tm_env s2) with (tm_env s1). rewrite Ec. replace (clock_of s1 + n - clock_of s1) with n by lia.
      cbn [Nat.mul] in Hf. destruct (signalled s2); [lia|]. destruct Hq as [?|[_ ?]]; lia.
    + intros s' [Hw Hc]. eapply ends_mono; [apply poll_pass_ends; [lia|by apply Hne|done]|]. intros [r|] s''; [by apply polled_earlier|].
      intros (Hw' & Hc' & He). split; [|done]. split; [done|lia].
  - assert (n = 0) as -> by lia. apply ends_bind, ends_ret. destruct fuel as [|f]; [lia|]. cbn [loop]. apply ends_bind. unfold poll_pass.
    destruct (poll_irq s Ht) as [(Ht1 & Hc1 & _ & _) _]. apply ends_bind, ends_change. set (s1 := irq s) in *.
    eapply ends_seq; [apply (poll_all_ends fds s1 (λ l s', env_step s1 s' ∧ l = (poll_fds (self cur s1) fds (tm_env s1)).1)); done|].
    intros l s2 [(Hk2 & Hc2 & _) El]. assert (timed s2) as Ht2 by (unfold TimeFacts.timed; rewrite Hk2, Hc2; apply Ht1).
    assert (answered fds l s s2) as Ha by (exists s1; split; [fold s1; lia|done]). pose proof (count_ready_range l).
    destruct (Z.ltb_spec 0 (count_ready l)); cbn [andb Z.eqb]; apply leave, ends_ret; exists (clock_of s); (split; [unfold STRIDE; lia|]);
      (eapply polled_leave; [done|done|lia|]); [by left|]. right. split; [lia|]. left. split; [done|lia].
Qed.

(** ** The calls *)

Lemma length_pollfds_bytes fds : length (pollfds_bytes fds) = (POLLFD_SIZE * length fds)%nat.
Proof.
  induction fds as [|e fds IH]; [done|]. change (pollfds_bytes (e :: fds)) with (pollfd_bytes e ++ pollfds_bytes fds). rewrite length_app, IH.
  unfold pollfd_bytes. rewrite !length_app, !length_bytes_of. unfold POLLFD_SIZE. cbn [length]. lia.
Qed.

Inductive poll_req := PollMs (timeout_ms : Z) | Ppoll (timeout_ptr sigmask_ptr sigsetsize : Z) | PpollTime64 (timeout_ptr sigmask_ptr sigsetsize : Z).
Definition run_poll (c : poll_req) (fds_ptr nfds : Z) : run time_w Z :=
  match c with
  | PollMs ms => sys_poll cur irq others fuel fds_ptr nfds ms
  | Ppoll ts mask size => sys_ppoll cur irq others fuel fds_ptr nfds ts mask size
  | PpollTime64 ts mask size => sys_ppoll_time64 cur irq others fuel fds_ptr nfds ts mask size
  end.

(** The [struct timespec] at [ptr], of two [w]-byte integers, is [n] ticks. *)
Definition timespec_ticks (w : nat) (ptr : Z) (s : time_w) (n : Z) : Prop :=
  user_range ptr (2 * w) ∧ ∃ sec nsec, pair_of w (mem_read (tm_mem s) ptr (2 * w)) = (sec, nsec) ∧
    0 <= sec ∧ 0 <= nsec < NS_PER_SEC ∧ n = sec * tick_hz + nsec / NS_PER_TICK ∧ n < 2 ^ 31.
(** The time-out is [n] ticks. *)
Definition asks (c : poll_req) (s : time_w) (n : Z) : Prop :=
  match c with
  | PollMs ms => 0 <= ms ∧ ms * tick_hz < 2 ^ 32 ∧ n = ms * tick_hz / 1000
  | Ppoll ptr _ _ => timespec_ticks 4 ptr s n
  | PpollTime64 ptr _ _ => timespec_ticks 8 ptr s n
  end.

Lemma ts_to_ticks_eq sec nsec : 0 < tick_hz <= NS_PER_SEC → 0 <= sec → 0 <= nsec < NS_PER_SEC → sec * tick_hz + nsec / NS_PER_TICK < 2 ^ 31 →
  ts_to_ticks (sec, nsec) = sec * tick_hz + nsec / NS_PER_TICK ∧ 0 <= ts_to_ticks (sec, nsec).
Proof.
  clear Hcur. intros Hh Hs Hn Hlt. assert (1 <= NS_PER_TICK) by (unfold NS_PER_TICK; apply Z.div_le_lower_bound; lia).
  assert (0 <= nsec / NS_PER_TICK) by (apply Z.div_pos; lia). unfold NS_PER_SEC in *. unfold ts_to_ticks. cbn [fst snd].
  destruct (Z.ltb_spec sec 0); [lia|]. rewrite (uN_small 32 sec), (uN_small 32 nsec), (uN_small 32 (sec * tick_hz)), uN_small by nia. nia.
Qed.

Lemma timeout_at_eq w to ptr s n : (0 < w)%nat → 0 < tick_hz <= NS_PER_SEC → (∀ p, to p = ts_to_ticks p) → timespec_ticks w ptr s n →
  timeout_at cur w to ptr s = Some (inr n, s) ∧ negb (ptr =? 0) = true ∧ 0 <= n < 2 ^ 31.
Proof.
  intros Hw Hh Hto (Hr & sec & nsec & Hp & Hs & Hns & -> & Hn). destruct (ts_to_ticks_eq sec nsec Hh Hs Hns Hn) as [E H0]. rewrite E in H0.
  unfold timeout_at. destruct (Z.eqb_spec ptr 0); [destruct Hr; lia|]. unfold mbind, run_bind, copy_in, look.
  rewrite copy_from_ok by (done || lia). cbn [Z.ltb Z.compare]. rewrite Hp, Hto, E. done.
Qed.

Lemma poll_call_ends fds_ptr nfds timeout n s : 0 < nfds <= Z.of_nat FD_MAX → user_range fds_ptr (POLLFD_SIZE * Z.to_nat nfds) → timed s →
  timeout s = Some (inr n, s) → 0 <= n < 2 ^ 31 → (∀ c, clock_of s <= c <= clock_of s + STRIDE → u32 (c + n) ≠ 0) →
  (S (Z.to_nat n) * S K + noise (tm_env s) + 1 < fuel)%nat →
  ends (poll_call cur irq others fuel fds_ptr nfds true timeout) (λ rc s', ∃ c0 fds, clock_of s <= c0 <= clock_of s + STRIDE ∧
    polled (pollfds_of (Z.to_nat nfds) (mem_read (tm_mem s) fds_ptr (POLLFD_SIZE * Z.to_nat nfds))) s (c0 + n) (rc, fds) s' ∧
    mem_read (tm_mem s') fds_ptr (POLLFD_SIZE * Z.to_nat nfds) = pollfds_bytes fds) s.
Proof.
  intros Hnf Hr Ht Hto Hn Hne Hf. unfold poll_call, fds_capped. destruct (Z.ltb_spec (Z.of_nat FD_MAX) nfds); [lia|].
  destruct (Z.ltb_spec 0 nfds); [|lia]. destruct (Z.eqb_spec fds_ptr 0); [destruct Hr; lia|]. set (N := Z.to_nat nfds) in *. assert (0 < N)%nat by (unfold N; lia).
  apply ends_bind, ends_bind, ends_look. rewrite copy_from_ok by (done || (unfold POLLFD_SIZE; lia)). apply ends_ret. cbn [Z.ltb Z.compare].
  set (fds := pollfds_of N _). apply ends_bind. unfold ends at 1. rewrite Hto. eapply ends_seq; [by apply do_ppoll_ends|].
  intros [rc l] s1 (c0 & Hc0 & Hp). apply ends_bind.
  assert (length (pollfds_bytes l) = POLLFD_SIZE * N)%nat as Hl.
  { rewrite length_pollfds_bytes. destruct Hp as (_ & _ & (s2 & _ & E) & _). cbn [snd] in E. rewrite E, length_poll_fds. unfold fds, pollfds_of. by rewrite length_fmap, length_seq. }
  assert (pollfds_bytes l ≠ []) as Hnil by (intros E; rewrite E in Hl; unfold POLLFD_SIZE in Hl; cbn in Hl; lia). rewrite <- Hl in Hr.
  unfold ends at 1, copy_out. pose proof (copy_to_ok (self cur s1) (tm_mem s1) fds_ptr _ Hr Hnil) as Hok. pose proof (copy_back (self cur s1) (tm_mem s1) fds_ptr _ Hr Hnil) as Hb.
  destruct (sys_copy_to_user _ _ _ _) as [rc' m]. cbn [fst snd] in Hok, Hb. subst rc'. apply ends_ret. cbn [Z.ltb Z.compare]. exists c0, l.
  split; [done|]. split; [exact Hp|]. by rewrite Hl in Hb.
Qed.

(** C40. Polling, under every machine that keeps the contract.  A poll with a
    time-out of [n] ticks ends, and the array in the user's memory holds what the
    files answered at one instant of the call.  The result is the number of
    entries with events; it is 0, with no events, only when the clock has moved by
    the whole time-out, and [EINTR], with no events, only with a signal to
    deliver.  No deadline is left behind.  The deadline must not fall on the value
    0 of the tick counter. *)
Theorem poll_calls_correct c fds_ptr nfds n s : 0 < tick_hz <= 1000 → timed s →
  0 < nfds <= Z.of_nat FD_MAX → user_range fds_ptr (POLLFD_SIZE * Z.to_nat nfds) →
  asks c s n → (∀ c, clock_of s <= c <= clock_of s + STRIDE → u32 (c + n) ≠ 0) →
  (S (Z.to_nat n) * S K + noise (tm_env s) + 1 < fuel)%nat →
  ends (run_poll c fds_ptr nfds) (λ rc s', ∃ c0 fds, clock_of s <= c0 <= clock_of s + STRIDE ∧
    polled (pollfds_of (Z.to_nat nfds) (mem_read (tm_mem s) fds_ptr (POLLFD_SIZE * Z.to_nat nfds))) s (c0 + n) (rc, fds) s' ∧
    mem_read (tm_mem s') fds_ptr (POLLFD_SIZE * Z.to_nat nfds) = pollfds_bytes fds) s.
Proof.
  intros Hh Ht Hnf Hr Ha Hne Hf. assert (0 < tick_hz <= NS_PER_SEC) as Hh' by (unfold NS_PER_SEC; lia).
  destruct c as [ms|ptr mask size|ptr mask size]; cbn [run_poll asks] in *.
  - destruct Ha as (Hms & Hlt & ->). unfold sys_poll. destruct (Z.leb_spec 0 ms); [|lia].
    assert (0 <= ms * tick_hz / 1000 < 2 ^ 31) by (split; [apply Z.div_pos; nia|apply Z.div_lt_upper_bound; lia]).
    apply poll_call_ends; try done. destruct (Z.ltb_spec 0 ms); [rewrite (uN_small 32 ms), uN_small by nia; done|by assert (ms = 0) as -> by lia].
  - unfold sys_ppoll. destruct (timeout_at_eq 4 ts32_to_ticks ptr s n) as (E & -> & Hn); [lia|done|done|done|]. by apply poll_call_ends.
  - unfold sys_ppoll_time64. destruct (timeout_at_eq 8 ts64_to_ticks ptr s n) as (E & -> & Hn); [lia|done|done|done|]. by apply poll_call_ends.
Qed.
End Machine.

(** ** Concrete machines

    Descriptor [d] has input from the clock [pd_ready !!! d] on; [beat] looks at
    the process after every tick, [wakes] is the scheduler, with the event waking
    those that sleep on the file. *)

Module Demo.
#[local] Instance hz100 : TickRate := 100.
#[local] Instance little : ByteOrder := false.

Record poll_demo := PollDemo { pd_clock : Z; pd_ready : list Z }.
Abbreviation demo_w := (time_w poll_demo).
Definition me : nat := 3.
Definition POLLIN : Z := 1.

#[local] Instance demo_files : PollOps poll_demo := {
  fd_poll d w := (if pd_ready w !!! Z.to_nat d <=? pd_clock w then POLLIN else 0, w);
  fd_get_priv d w := 100 + d
}.

Definition quiet (s : demo_w) : demo_w := s.
Definition on_tick (s : demo_w) (k : kernel_t) : demo_w := TimeW k (time_boot_epoch s) (tm_mem s) (PollDemo (pd_clock (tm_env s) + 1) (pd_ready (tm_env s))).
Definition beat (s : demo_w) : option demo_w := Some (on_tick s (set_tick_count (u32 (tick_count (tm_k s) + 1)) (tm_k s))).

#[local] Instance demo_machine : PollMachine me quiet beat pd_clock (λ _, 0%nat) 0.
Proof.
  split.
  - intros s Ht. split; [by apply later_refl; [|unfold STRIDE; lia]|by left].
  - done.
  - intros s [Ht Hc] _ _. eexists. split; [done|]. unfold later, timed, clock_of, until, signalled, self in *. cbn. unfold STRIDE. split_and!; [done| |lia|lia|done|done|right; left; lia].
    rewrite Hc. unfold uN. by rewrite Zplus_mod_idemp_l.
Qed.

(** A timer tick, and the events that come with it. *)
Fixpoint notify (k : kernel_t) (c : Z) (d : Z) (ready : list Z) : kernel_t :=
  match ready with
  | [] => k
  | r :: ready => notify (if r =? c then sched_wakeup (100 + d) k else k) c (d + 1) ready
  end.
Definition tick (s : demo_w) : demo_w := on_tick s (notify (sched_timer_tick 0 false (tm_k s)) (pd_clock (tm_env s) + 1) 0 (pd_ready (tm_env s))).
Fixpoint ticks_until_awake (n : nat) (s : demo_w) : option demo_w :=
  match n with
  | O => None
  | S n => let s := tick s in if bool_decide (p_state (self me s) = PROC_RUNNABLE) then Some s else ticks_until_awake n s
  end.
Definition wakes : demo_w → option demo_w := ticks_until_awake 1000.

Definition at_clock (c : Z) (ready : list Z) (bs : list Z) : demo_w :=
  TimeW (Kernel (replicate PROC_MAX (set_p_fd_map (seqZ 0 16) (set_p_state PROC_RUNNABLE pcb_zero))) [None; None] 1 (u32 c) 0 [0; 0] [0; 0] [0; 0] ∅) 0
    (mem_write (λ _, 0) 0x20006000 bs) (PollDemo c ready).
Definition two : list Z := pollfds_bytes [Pollfd 0 POLLIN 0; Pollfd 1 POLLIN 0].
Definition result (r : option (Z * demo_w)) : option (Z * Z * list Z) :=
  '(rc, s) ← r; Some (rc, pd_clock (tm_env s), pf_revents <$> pollfds_of 2 (mem_read (tm_mem s) 0x20006000 16)).

(** Input on the first descriptor after ten ticks; none within a time-out of 50 ms. *)
Example poll_first : result (sys_poll me quiet wakes 10 0x20006000 2 (-1) (at_clock 1000 [1010; 9999] two)) = Some (1, 1010, [1; 0]).
Proof. vm_compute. reflexivity. Qed.
Example poll_timeout : result (sys_poll me quiet wakes 10 0x20006000 2 50 (at_clock 1000 [1010; 9999] two)) = Some (0, 1005, [0; 0]).
Proof. vm_compute. reflexivity. Qed.
(** Input on the second descriptor does not wake the process. *)
Example poll_second_hangs : result (sys_poll me quiet wakes 10 0x20006000 2 (-1) (at_clock 1000 [9999; 1010] two)) = None.
Proof. vm_compute. reflexivity. Qed.
(** A deadline at the value 0 of the tick counter is never over. *)
Example poll_deadline_zero : result (sys_poll me quiet wakes 10 0x20006000 2 50 (at_clock (2 ^ 32 - 5) [2 ^ 33; 2 ^ 33] two)) = None.
Proof. vm_compute. reflexivity. Qed.
(** Less than a tick is no time, and neither is half a day. *)
Example poll_short : result (sys_poll me quiet wakes 10 0x20006000 2 9 (at_clock 1000 [1010; 9999] two)) = Some (0, 1000, [0; 0]).
Proof. vm_compute. reflexivity. Qed.
Example poll_too_long : result (sys_poll me quiet wakes 10 0x20006000 2 42949673 (at_clock 1000 [1010; 9999] two)) = Some (0, 1000, [0; 0]).
Proof. vm_compute. reflexivity. Qed.

Lemma poll_calls_correct_witness :
  ends (run_poll me quiet beat 100 (PollMs 50) 0x20006000 2) (λ rc s', ∃ c0 fds, 1000 <= c0 <= 1000 + STRIDE ∧
    polled me pd_clock [Pollfd 0 POLLIN 0; Pollfd 1 POLLIN 0] (at_clock 1000 [1010; 9999] two) (c0 + 5) (rc, fds) s' ∧
    mem_read (tm_mem s') 0x20006000 16 = pollfds_bytes fds) (at_clock 1000 [1010; 9999] two).
Proof.
  refine (poll_calls_correct me quiet beat 100 pd_clock (λ _, 0%nat) 0 _ (PollMs 50) 0x20006000 2 5 (at_clock 1000 [1010; 9999] two) _ _ _ _ _ _ _).
  - unfold me, PROC_MAX. lia.
  - unfold tick_hz, hz100. lia.
  - split; reflexivity.
  - unfold FD_MAX. lia.
  - split; [lia|]. intros x Hx. unfold POLLFD_SIZE in Hx. unfold addressable, PAGE_SIZE, PAGE_ID_INVALID. cbn.
    split; [lia|]. split; [apply Z.div_lt_upper_bound; lia|lia].
  - vm_compute. split; [discriminate|]. split; reflexivity.
  - intros c Hc. unfold STRIDE in Hc. cbn in Hc. rewrite uN_small; lia.
  - vm_compute. lia.
Defined.
End Demo.
