(* ===== verification/SysIo.v ===== *)
(** * SysIo: read, write and their vectored forms
    (src/kernel/core/syscall/sys_io.c)

    The calls cut a request at page boundaries and hand the pieces to the file
    layer, which is a class here: [F] is its state.  Memory is a map from linear
    addresses to bytes.  Pointers and [long] have 32 bits. *)

From S2P Require Import Prelude Config PagePool PagePoolFacts Page Region PageFacts.
From S2P Require Import ProcState Sched SchedFacts Kmutex KmutexFacts Proc UserCopy Signal ModCore Tty SectorDev Time TimeFacts.

(** What [mod_vfs] offers for descriptors: the results are those of the C
    functions; a read changes the memory. *)
Class FileOps (F : Type) := {
  fd_write : Z → Z → Z → Z → umem → F → Z * F;
  fd_read : Z → Z → Z → Z → umem → F → Z * umem * F;
  fd_ioctl : Z → Z → option (list Z) → F → Z * option (list Z) * F
}.

Inductive direction := Reading | Writing.

Record io_w {F : Type} := IoW { io_mem : umem; io_files : F }.
Arguments io_w : clear implicits.

Section Operations.
Context {cfg : PageConfig} {bo : ByteOrder} {F : Type} {files : FileOps F} (cur : pcb_t).
Abbreviation io_w := (io_w F).

Definition sys_io_lookup_desc (fd : Z) : Z :=
  if (fd <? 0) || (Z.of_nat FD_MAX <=? u32 fd) then - EBADF
  else
    let d := p_fd_map cur !!! Z.to_nat (u32 fd) in
    if d =? FD_DESC_NONE then - EBADF else d.

(** [mod_vfs.fd_read] or [mod_vfs.fd_write] on a piece within a page. *)
Definition io_piece (dir : direction) (desc page off chunk : Z) (w : io_w) : Z * io_w :=
  match dir with
  | Writing => let '(ret, f) := fd_write desc page off chunk (io_mem w) (io_files w) in (ret, IoW _ (io_mem w) f)
  | Reading => let '(ret, m, f) := fd_read desc page off chunk (io_mem w) (io_files w) in (ret, IoW _ m f)
  end.

(** [while (total < n)]: a pass that goes on moves a byte, so there are at most
    [n] passes. *)
Fixpoint io_loop (fuel : nat) (dir : direction) (desc : Z) (ref : user_page_ref_t) (n total : Z) (w : io_w) : Z * io_w :=
  match fuel with
  | O => (total, w)
  | S fuel =>
      if negb (total <? n) then (total, w)
      else
        let remaining := n - total in
        let chunk := if PAGE_SIZE - ref_off ref <? remaining then u16 (PAGE_SIZE - ref_off ref) else u16 remaining in
        let '(ret, w) := io_piece dir desc (ref_page ref) (ref_off ref) chunk w in
        if ret <=? 0 then (if 0 <? total then total else ret, w)
        else
          let total := total + ret in
          if ret <? chunk then (total, w)
          else io_loop fuel dir desc (sys_io_advance_ref ref ret) n total w
  end.

Definition sys_rw (dir : direction) (fd page off n : Z) (w : io_w) : Z * io_w :=
  let desc := sys_io_lookup_desc fd in
  if desc <? 0 then (desc, w) else io_loop (Z.to_nat n) dir desc (UserRef page off) n 0 w.
Definition sys_write : Z → Z → Z → Z → io_w → Z * io_w := sys_rw Writing.
Definition sys_read : Z → Z → Z → Z → io_w → Z * io_w := sys_rw Reading.

(** ** Vectors *)

Definition iov_base (bs : list Z) : Z := get_word 4 0 bs.
Definition iov_len (bs : list Z) : Z := get_word 4 4 bs.
Definition IOVEC_SIZE : nat := 8.

(** The buffer of an entry. *)
Definition iov_rw (dir : direction) (fd : Z) (iov : list Z) (w : io_w) : Z * io_w :=
  let '(rc, ref) := proc_user_ptr_to_page_ref (Some cur) (iov_base iov) in
  if rc <? 0 then (- EFAULT, w) else sys_rw dir fd (ref_page ref) (ref_off ref) (iov_len iov) w.

(** [for (i = 0; i < iovcnt; i++)]; [todo] entries are left. *)
Fixpoint iov_loop (todo : nat) (dir : direction) (fd iov_ptr i total : Z) (w : io_w) : Z * io_w :=
  match todo with
  | O => (total, w)
  | S todo =>
      let '(rc, iov) := sys_copy_from_user (Some cur) (io_mem w) (u32 (iov_ptr + i * Z.of_nat IOVEC_SIZE)) IOVEC_SIZE in
      if rc <? 0 then (if 0 <? total then total else rc, w)
      else if iov_len iov =? 0 then iov_loop todo dir fd iov_ptr (i + 1) total w
      else
        let '(n, w) := iov_rw dir fd iov w in
        if n <? 0 then (if 0 <? total then total else n, w)
        else
          let total := total + n in
          let stop := match dir with Reading => (n =? 0) || (n <? iov_len iov) | Writing => n <? iov_len iov end in
          if stop then (total, w) else iov_loop todo dir fd iov_ptr (i + 1) total w
  end.

Definition sys_rwv (dir : direction) (fd iov_ptr iovcnt : Z) (w : io_w) : Z * io_w :=
  if (iovcnt <=? 0) || (1024 <? iovcnt) then (- EINVAL, w) else iov_loop (Z.to_nat iovcnt) dir fd iov_ptr 0 0 w.
Definition sys_writev : Z → Z → Z → io_w → Z * io_w := sys_rwv Writing.
Definition sys_readv : Z → Z → Z → io_w → Z * io_w := sys_rwv Reading.
End Operations.

(** ** Strings *)

Section Strings.
Context {cfg : PageConfig} (cur : pcb_t).

(** [for (i = 0; i < max_len; i++)], with [todo] passes left: the length of the
    string, copied with its terminator into a kernel page.  [None] where a byte
    would come from an uninitialised variable. *)
Fixpoint string_to_page (todo : nat) (dst_page dst_off i : Z) (ref : user_page_ref_t) (mem : umem) : option (Z * umem) :=
  match todo with
  | O => Some (- ENAMETOOLONG, mem)
  | S todo =>
      match page_read mem (ref_page ref) (ref_off ref) 1 with
      | Some [c] =>
          let mem := page_write mem dst_page (u16 (dst_off + i)) [c] in
          if c =? 0 then Some (i, mem) else string_to_page todo dst_page dst_off (i + 1) (sys_io_advance_ref ref 1) mem
      | _ => None
      end
  end.

Definition sys_copy_user_string_to_page (dst_page dst_off max_len user_ptr : Z) (mem : umem) : option (Z * umem) :=
  let '(rc, ref) := proc_user_ptr_to_page_ref (Some cur) user_ptr in
  if rc <? 0 then Some (rc, mem) else string_to_page (Z.to_nat max_len) dst_page dst_off 0 ref mem.
End Strings.

(** ** Control *)

Section Ioctl.
Context {cfg : PageConfig} {F : Type} {files : FileOps F} (cur : pcb_t).
Abbreviation io_w := (io_w F).

(** What a command does with [arg]: the size of the object behind it. *)
Inductive payload := Fetch (size : nat) | Store (size : nat) | NoPayload.
Definition ioctl_payload (cmd : Z) : payload :=
  if cmd =? TCGETS then Fetch 36
  else if (cmd =? TCSETS) || (cmd =? TCSETSW) || (cmd =? TCSETSF) then Store 36
  else if cmd =? TIOCGWINSZ then Fetch 8
  else if cmd =? TIOCSWINSZ then Store 8
  else if (cmd =? TIOCGPGRP) || (cmd =? TIOCGSID) then Fetch 4
  else if cmd =? TIOCSPGRP then Store 4
  else NoPayload.

Definition call_ioctl (desc cmd : Z) (arg : option (list Z)) (w : io_w) : Z * option (list Z) * io_w :=
  let '(rc, out, f) := fd_ioctl desc cmd arg (io_files w) in (rc, out, IoW _ (io_mem w) f).

(** [junk] is what an uninitialised local object holds. *)
Definition sys_ioctl (junk : nat → list Z) (fd cmd arg_ptr : Z) (w : io_w) : Z * io_w :=
  if (fd <? 0) || (Z.of_nat FD_MAX <=? u32 fd) then (- EBADF, w)
  else
    let desc := p_fd_map cur !!! Z.to_nat (u32 fd) in
    if desc =? FD_DESC_NONE then (- EBADF, w)
    else
      match ioctl_payload (u32 cmd) with
      | Fetch size =>
          if arg_ptr =? 0 then (- EINVAL, w)
          else
            let '(rc, out, w) := call_ioctl desc (u32 cmd) (Some (junk size)) w in
            if rc <? 0 then (rc, w)
            else
              let '(rc, m) := sys_copy_to_user (Some cur) (io_mem w) arg_ptr (default (junk size) out) in
              if rc <? 0 then (rc, w) else (0, IoW _ m (io_files w))
      | Store size =>
          if arg_ptr =? 0 then (- EINVAL, w)
          else
            let '(rc, bs) := sys_copy_from_user (Some cur) (io_mem w) arg_ptr size in
            if rc <? 0 then (rc, w)
            else let '(rc, _, w) := call_ioctl desc (u32 cmd) (Some bs) w in (rc, w)
      | NoPayload => let '(rc, _, w) := call_ioctl desc (u32 cmd) None w in (rc, w)
      end.
End Ioctl.
