(* ===== verification/SysIoFacts.v ===== *)
(** * SysIoFacts: the calls of SysIo transfer what was asked for, in order

    [FileOk] is what the file layer promises for a piece within a page: a write
    adds a prefix of the piece to what the descriptor has taken ([outflow]), a
    read takes a prefix of what it will deliver ([inflow]) to the place of the
    piece.  An operation may take less, or fail, at any time. *)

From S2P Require Import Prelude Config PagePool PagePoolFacts Page Region PageFacts.
From S2P Require Import ProcState Sched SchedFacts Kmutex KmutexFacts Proc UserCopy Signal ModCore Tty SectorDev Time TimeFacts SysIo.

Class FileOk {cfg : PageConfig} (F : Type) {files : FileOps F} := {
  inflow : F → Z → list Z;
  outflow : F → Z → list Z;
  fd_write_spec d page off chunk m f ret f' : 0 <= off → 0 < chunk → off + chunk <= PAGE_SIZE → fd_write d page off chunk m f = (ret, f') →
    ret <= chunk ∧ outflow f' d = outflow f d ++ take (Z.to_nat ret) (mem_read m (page_linear page + off) (Z.to_nat chunk));
  fd_read_spec d page off chunk m f ret m' f' : 0 <= off → 0 < chunk → off + chunk <= PAGE_SIZE → fd_read d page off chunk m f = (ret, m', f') →
    ret <= chunk ∧ ∃ bs, length bs = Z.to_nat ret ∧ inflow f d = bs ++ inflow f' d ∧ ∀ x, m' x = mem_write m (page_linear page + off) bs x
}.

(** ** Buffers in memory *)

Section Buffers.
Context {bo : ByteOrder}.

(** The entries of a vector, and the bytes of its buffers. *)
Fixpoint vec (m : umem) (ptr : Z) (n : nat) : list (Z * Z) :=
  match n with
  | O => []
  | S n => let bs := mem_read m ptr IOVEC_SIZE in (iov_base bs, iov_len bs) :: vec m (ptr + Z.of_nat IOVEC_SIZE) n
  end.
Definition iov_total (iovs : list (Z * Z)) : nat := sum_list (Z.to_nat ∘ snd <$> iovs).
Lemma iov_total_cons a l iovs : iov_total ((a, l) :: iovs) = (Z.to_nat l + iov_total iovs)%nat.
Proof. done. Qed.
Definition gathered (m : umem) (iovs : list (Z * Z)) : list Z := mjoin ((λ v, mem_read m v.1 (Z.to_nat v.2)) <$> iovs).
(** [bs], laid out over the buffers. *)
Fixpoint scatter (m : umem) (iovs : list (Z * Z)) (bs : list Z) : umem :=
  match iovs with
  | [] => m
  | (a, l) :: iovs => scatter (mem_write m a (take (Z.to_nat l) bs)) iovs (drop (Z.to_nat l) bs)
  end.

Lemma vec_ext m m' ptr n : (∀ x, ptr <= x < ptr + Z.of_nat (IOVEC_SIZE * n) → m x = m' x) → vec m ptr n = vec m' ptr n.
Proof.
  revert ptr. induction n as [|n IH]; intros ptr H; cbn [vec]; [done|].
  rewrite (mem_read_ext m m') by (intros; apply H; unfold IOVEC_SIZE in *; lia). f_equal. apply IH. intros. apply H. lia.
Qed.
Lemma scatter_ext m m' iovs bs : (∀ x, m x = m' x) → ∀ x, scatter m iovs bs x = scatter m' iovs bs x.
Proof. revert m m' bs. induction iovs as [|[a l] iovs IH]; intros m m' bs H; cbn [scatter]; [done|]. apply IH. by apply mem_write_ext. Qed.
Lemma scatter_nil m iovs x : scatter m iovs [] x = m x.
Proof.
  revert m. induction iovs as [|[a l] iovs IH]; intros m; cbn [scatter]; [done|]. rewrite take_nil, drop_nil, IH. apply mem_write_nil.
Qed.
End Buffers.

Section Facts.
Context {cfg : PageConfig} {bo : ByteOrder} {F : Type} {files : FileOps F} {fok : FileOk F} (cur : pcb_t) (dir : direction) (desc : Z).
Abbreviation io_w := (io_w F).

(** [k] bytes have been moved from or to the address [a]. *)
Definition moved (a : Z) (k : nat) (w w' : io_w) : Prop :=
  match dir with
  | Writing => io_mem w' = io_mem w ∧ outflow (io_files w') desc = outflow (io_files w) desc ++ mem_read (io_mem w) a k
  | Reading => ∃ bs, length bs = k ∧ inflow (io_files w) desc = bs ++ inflow (io_files w') desc ∧
      ∀ x, io_mem w' x = mem_write (io_mem w) a bs x
  end.

Lemma moved_none a w : moved a 0 w w.
Proof. unfold moved. destruct dir; [|by rewrite app_nil_r]. exists []. split; [done|]. split; [done|]. intros. by rewrite mem_write_nil. Qed.

Lemma moved_app a k k' w w1 w' : moved a k w w1 → moved (a + Z.of_nat k) k' w1 w' → moved a (k + k') w w'.
Proof.
  unfold moved. destruct dir.
  - intros (bs & Hl & Hi & Hm) (bs' & Hl' & Hi' & Hm'). exists (bs ++ bs'). rewrite length_app, Hi, Hi', <- app_assoc. split; [lia|]. split; [done|].
    intros x. rewrite Hm', <- mem_write_app, Hl. by apply mem_write_ext.
  - intros [Hm Ho] [Hm' Ho']. rewrite Hm', Hm, Ho', Ho, Hm, mem_read_app, app_assoc. done.
Qed.

(** What was moved left the rest of the memory as it was. *)
Lemma moved_other a k w w' x : moved a k w w' → x < a ∨ a + Z.of_nat k <= x → io_mem w' x = io_mem w x.
Proof.
  unfold moved. destruct dir; [|by intros [-> _]]. intros (bs & <- & _ & Hm) Hx. rewrite Hm. apply mem_write_other. lia.
Qed.

Lemma io_piece_moved page off chunk w ret w' : 0 <= off → 0 < chunk → off + chunk <= PAGE_SIZE →
  io_piece dir desc page off chunk w = (ret, w') → ret <= chunk ∧ moved (page_linear page + off) (Z.to_nat ret) w w'.
Proof.
  unfold io_piece, moved. intros Ho Hc Hp. destruct dir.
  - destruct (fd_read _ _ _ _ _ _) as [[r m] f] eqn:E. intros [= <- <-]. by apply fd_read_spec in E.
  - destruct (fd_write _ _ _ _ _ _) as [r f] eqn:E. intros [= <- <-]. apply fd_write_spec in E as [Hr E]; [|done..]. split; [done|]. split; [done|].
    cbn [io_files]. rewrite E. f_equal. unfold mem_read. rewrite <- fmap_take, take_seq, Nat.min_l by lia. done.
Qed.

(** ** The pieces of a call *)

(** A request to the file layer, and its answer. *)
Record piece := Piece { pc_page : Z; pc_off : Z; pc_len : Z; pc_ret : Z }.

(** The requests that lead from a state to another, one after the other. *)
Inductive pieces : list piece → io_w → io_w → Prop :=
| pieces_nil w : pieces [] w w
| pieces_cons p tr w w1 w' : 0 < pc_len p → pc_off p + pc_len p <= PAGE_SIZE → pc_ret p <= pc_len p →
    io_piece dir desc (pc_page p) (pc_off p) (pc_len p) w = (pc_ret p, w1) → pieces tr w1 w' → pieces (p :: tr) w w'.

Definition asked (tr : list piece) : Z := foldr (λ p n, pc_len p + n) 0 tr.
Definition got (tr : list piece) : Z := foldr (λ p n, Z.max 0 (pc_ret p) + n) 0 tr.
Definition complete (p : piece) : Prop := pc_ret p = pc_len p.

(** How the requests [tr] of a call that is to move [n] bytes, [total] of them moved
    before, end and what it returns: all are answered in full and nothing is left;
    or the last and only the last is answered with less, perhaps an error, which is
    returned if nothing was moved at all. *)
Definition ended (total n : Z) (tr : list piece) (r : Z) : Prop :=
  (Forall complete tr ∧ total + got tr = n ∧ r = n) ∨
  ∃ tr0 p, tr = tr0 ++ [p] ∧ Forall complete tr0 ∧ pc_ret p < pc_len p ∧ r = if total + got tr =? 0 then pc_ret p else total + got tr.

(** A call that was to move [n] bytes has moved [k] and returned [r]. *)
Definition outcome (n k : nat) (r : Z) (w w' : io_w) : Prop :=
  ∃ tr, pieces tr w w' ∧ asked tr <= Z.of_nat n ∧ got tr = Z.of_nat k ∧ ended 0 (Z.of_nat n) tr r.

Lemma got_app tr tr' : got (tr ++ tr') = got tr + got tr'.
Proof. unfold got. induction tr as [|p tr IH]; cbn; [done|]. rewrite IH. lia. Qed.
Lemma asked_app tr tr' : asked (tr ++ tr') = asked tr + asked tr'.
Proof. unfold asked. induction tr as [|p tr IH]; cbn; [done|]. rewrite IH. lia. Qed.
Lemma pieces_app tr tr' w w1 w' : pieces tr w w1 → pieces tr' w1 w' → pieces (tr ++ tr') w w'.
Proof. induction 1; [done|]. intros. cbn. econstructor; eauto. Qed.
Lemma pieces_amounts tr w w' : pieces tr w w' → 0 <= got tr <= asked tr ∧ (Forall complete tr → got tr = asked tr).
Proof.
  induction 1 as [|p tr w w1 w' H1 H2 H3 _ _ [IH1 IH2]]; [done|]. cbn. fold (got tr) (asked tr). split; [lia|].
  intros [Hp Htr]%Forall_cons. rewrite (IH2 Htr). unfold complete in Hp. lia.
Qed.
(** A request answered with less leaves less moved than asked for. *)
Lemma ended_short tr0 p w w' : pieces (tr0 ++ [p]) w w' → pc_ret p < pc_len p → got (tr0 ++ [p]) < asked (tr0 ++ [p]).
Proof.
  intros Hp Hs. assert (0 < pc_len p ∧ got tr0 <= asked tr0) as [Hl Hg].
  { clear Hs. revert w Hp. induction tr0 as [|q tr0 IH]; intros w Hp; inversion Hp; subst; [done|]. cbn. fold (got tr0) (asked tr0). edestruct IH; [done|]. lia. }
  rewrite got_app, asked_app. cbn. lia.
Qed.
Lemma ended_app total n tr tr' r : Forall complete tr → ended (total + got tr) n tr' r → ended total n (tr ++ tr') r.
Proof.
  intros Hc [(H1 & H2 & H3)|(tr0 & p & -> & H1 & H2 & H3)].
  - left. split; [by apply Forall_app|]. rewrite got_app. split; [lia|done].
  - right. exists (tr ++ tr0), p. rewrite got_app, Z.add_assoc. split; [by rewrite app_assoc|]. split; [by apply Forall_app|done].
Qed.

Lemma piece_size off rest : 0 <= off < PAGE_SIZE → 0 < rest →
  (if PAGE_SIZE - off <? rest then u16 (PAGE_SIZE - off) else u16 rest) = Z.min (PAGE_SIZE - off) rest.
Proof.
  intros Ho Hr. unfold PAGE_SIZE in *. destruct (Z.ltb_spec (4096 - off) rest); rewrite uN_small by lia; lia.
Qed.

Lemma io_loop_moved fuel ref a n total w r w' : 0 < a → ref_at ref a → (∀ x, a <= x < a + (n - total) → addressable x) →
  0 <= total < n → n - total <= Z.of_nat fuel → io_loop fuel dir desc ref n total w = (r, w') →
  ∃ tr, moved a (Z.to_nat (got tr)) w w' ∧ pieces tr w w' ∧ asked tr <= n - total ∧ ended total n tr r.
Proof.
  revert ref a total w. induction fuel as [|fuel IH]; intros ref a total w Ha Hr Hadd Ht Hf; [lia|]. cbn [io_loop].
  destruct (Z.ltb_spec total n); [|lia]. cbn [negb].
  assert (0 <= ref_off ref < PAGE_SIZE) as Hoff by (rewrite (proj2 Hr); apply Z.mod_pos_bound; unfold PAGE_SIZE; lia).
  rewrite piece_size by lia. set (chunk := Z.min _ _). destruct (io_piece _ _ _ _ _ _) as [ret w1] eqn:E.
  assert (0 < chunk ∧ ref_off ref + chunk <= PAGE_SIZE ∧ chunk <= n - total) as (Hc0 & Hc1 & Hc2) by (unfold chunk; lia).
  pose proof (io_piece_moved _ _ _ _ _ _ (proj1 Hoff) Hc0 Hc1 E) as [Hret Hm]. clearbody chunk.
  rewrite (proj1 (ref_at_linear ref a Hr (Hadd a ltac:(lia)))) in Hm.
  set (p := Piece (ref_page ref) (ref_off ref) chunk ret).
  assert (∀ tr w2, pieces tr w1 w2 → pieces (p :: tr) w w2) as Hp by (intros; by econstructor).
  assert (got [p] = Z.max 0 ret ∧ asked [p] = chunk) as [Eg Ea] by (cbn; lia).
  assert (ret < chunk → ∀ r', r' = (if total + got [p] =? 0 then ret else total + got [p]) → w1 = w' → r' = r →
    ∃ tr, moved a (Z.to_nat (got tr)) w w' ∧ pieces tr w w' ∧ asked tr <= n - total ∧ ended total n tr r) as Hstop.
  { intros Hs r' Hr' <- <-. exists [p]. rewrite Ea, Eg. replace (Z.to_nat (Z.max 0 ret)) with (Z.to_nat ret) by lia.
    split; [done|]. split; [apply Hp; constructor|]. split; [lia|]. right. exists [], p. by rewrite Eg in *. }
  destruct (Z.leb_spec ret 0).
  { intros [= Hr' Hw]. apply (Hstop ltac:(lia) _ eq_refl Hw). rewrite Eg, <- Hr'. destruct (Z.ltb_spec 0 total), (Z.eqb_spec (total + Z.max 0 ret) 0); lia. }
  destruct (Z.ltb_spec ret chunk).
  { intros [= Hr' Hw]. apply (Hstop ltac:(lia) _ eq_refl Hw). rewrite Eg, <- Hr'. destruct (Z.eqb_spec (total + Z.max 0 ret) 0); lia. }
  assert (ret = chunk) as -> by lia. assert (Forall complete [p]) as Hcp by by repeat constructor. destruct (decide (total + chunk = n)) as [He|].
  - intros Hl. assert (io_loop fuel dir desc (sys_io_advance_ref ref chunk) n (total + chunk) w1 = (total + chunk, w1)) as E1.
    { destruct fuel; cbn [io_loop]; [done|]. destruct (Z.ltb_spec (total + chunk) n); [lia|done]. }
    rewrite E1 in Hl. injection Hl as <- <-. exists [p]. rewrite Eg, Ea, Z.max_r by lia. split; [done|]. split; [apply Hp; constructor|]. split; [lia|].
    left. split; [done|]. rewrite Eg. lia.
  - intros Hl. apply (IH _ (a + chunk)) in Hl as (tr & Hk & Htr & Has & Hend); [|lia|apply ref_at_advance; [done|lia|apply Hadd; lia|lia]|intros; apply Hadd; lia|lia|lia].
    exists (p :: tr). destruct (pieces_amounts _ _ _ Htr) as [Hg _]. change (got (p :: tr)) with (Z.max 0 chunk + got tr). change (asked (p :: tr)) with (chunk + asked tr).
    rewrite Z.max_r, Z2Nat.inj_add by lia. split; [eapply moved_app; [done|]; by rewrite Z2Nat.id by lia|]. split; [by apply Hp|]. split; [lia|].
    apply (ended_app total n [p] tr); [done|]. by rewrite Eg, Z.max_r by lia.
Qed.

(** A request for the [n] bytes at [a], given by its page and offset. *)
Lemma sys_rw_moved fd ref a n w r w' : sys_io_lookup_desc cur fd = desc → 0 <= desc → ref_at ref a → 0 < n → user_range a (Z.to_nat n) →
  sys_rw cur dir fd (ref_page ref) (ref_off ref) n w = (r, w') →
  ∃ tr, moved a (Z.to_nat (got tr)) w w' ∧ pieces tr w w' ∧ asked tr <= n ∧ ended 0 n tr r.
Proof.
  intros Hd Hpos Hr Hn [Ha Hadd]. unfold sys_rw. rewrite Hd. destruct (Z.ltb_spec desc 0); [lia|]. replace (UserRef (ref_page ref) (ref_off ref)) with ref by by destruct ref.
  intros Hl. apply (io_loop_moved _ _ a) in Hl; [by rewrite Z.sub_0_r in Hl|done|done|intros; apply Hadd; lia|lia|lia].
Qed.

(** ** Vectors *)

(** [k] bytes have been moved from or to the buffers, in their order. *)
Definition transferred (iovs : list (Z * Z)) (k : nat) (w w' : io_w) : Prop :=
  match dir with
  | Writing => io_mem w' = io_mem w ∧ outflow (io_files w') desc = outflow (io_files w) desc ++ take k (gathered (io_mem w) iovs)
  | Reading => ∃ bs, length bs = k ∧ inflow (io_files w) desc = bs ++ inflow (io_files w') desc ∧
      ∀ x, io_mem w' x = scatter (io_mem w) iovs bs x
  end.

Lemma transferred_none iovs w : transferred iovs 0 w w.
Proof.
  unfold transferred. destruct dir; [|by rewrite take_0, app_nil_r]. exists []. split; [done|]. split; [done|]. intros. by rewrite scatter_nil.
Qed.

Lemma transferred_part a l iovs k w w' : (k <= Z.to_nat l)%nat → moved a k w w' → transferred ((a, l) :: iovs) k w w'.
Proof.
  unfold moved, transferred. intros Hk. destruct dir.
  - intros (bs & Hl & Hi & Hm). exists bs. split; [done|]. split; [done|]. intros x. cbn [scatter]. by rewrite take_ge, drop_ge, scatter_nil by lia.
  - intros [Hm Ho]. split; [done|]. rewrite Ho. f_equal. unfold gathered. cbn. replace (Z.to_nat l) with (k + (Z.to_nat l - k))%nat by lia.
    rewrite mem_read_app, <- app_assoc, take_app_length' by (by rewrite length_mem_read). done.
Qed.

Lemma transferred_cons a l iovs k w w1 w' : moved a (Z.to_nat l) w w1 → transferred iovs k w1 w' →
  transferred ((a, l) :: iovs) (Z.to_nat l + k) w w'.
Proof.
  unfold moved, transferred. destruct dir.
  - intros (bs & Hl & Hi & Hm) (bs' & Hl' & Hi' & Hm'). exists (bs ++ bs'). rewrite length_app, Hi, Hi', <- app_assoc. split; [lia|]. split; [done|].
    intros x. rewrite Hm'. cbn [scatter]. rewrite take_app_length', drop_app_length' by lia. by apply scatter_ext.
  - intros [Hm Ho] [Hm' Ho']. split; [by rewrite Hm'|]. rewrite Ho', Ho, Hm, <- app_assoc. f_equal. unfold gathered. cbn.
    rewrite take_app, length_mem_read, (take_ge (mem_read _ _ _)) by (rewrite length_mem_read; lia). by replace (Z.to_nat l + k - Z.to_nat l)%nat with k by lia.
Qed.

(** The buffers of a vector are the process's, and a read does not overwrite the
    entries. *)
Definition buffers_ok (ptr : Z) (n : nat) (iovs : list (Z * Z)) : Prop :=
  Forall (λ v, v.2 = 0 ∨ user_range v.1 (Z.to_nat v.2) ∧
    (dir = Reading → ∀ x, v.1 <= x < v.1 + v.2 → ¬ ptr <= x < ptr + Z.of_nat (IOVEC_SIZE * n))) iovs.

Lemma iov_len_range bs : 0 <= iov_len bs.
Proof. apply get_word_range. Qed.

(** What a call is to move, as a number of bytes. *)
Definition wanted (iovs : list (Z * Z)) : Z := Z.of_nat (iov_total iovs).
Lemma wanted_cons a l iovs : 0 <= l → wanted ((a, l) :: iovs) = l + wanted iovs.
Proof. intros. unfold wanted. rewrite iov_total_cons. lia. Qed.

Lemma iov_loop_moved todo fd ptr i total w r w' : sys_io_lookup_desc cur fd = desc → 0 <= desc → 0 <= i → 0 <= total →
  let p := ptr + i * Z.of_nat IOVEC_SIZE in
  0 < p → (∀ x, p <= x < p + Z.of_nat (IOVEC_SIZE * todo) → addressable x) → buffers_ok p todo (vec (io_mem w) p todo) →
  iov_loop cur todo dir fd ptr i total w = (r, w') →
  let iovs := vec (io_mem w) p todo in
  ∃ tr, transferred iovs (Z.to_nat (got tr)) w w' ∧ pieces tr w w' ∧ asked tr <= wanted iovs ∧ ended total (total + wanted iovs) tr r.
Proof.
  intros Hd Hpos. revert i total w r. induction todo as [|todo IH]; intros i total w r Hi Ht p Hp Hadd Hb; cbn [iov_loop].
  { intros [= <- <-]. exists []. split; [apply transferred_none|]. split; [constructor|]. split; [done|]. left. split; [done|]. unfold wanted. cbn. lia. }
  assert (u32 p = p) as Hu32 by (destruct (Hadd p ltac:(unfold IOVEC_SIZE; lia)) as (_ & _ & ?); apply uN_small; lia). fold p. rewrite Hu32.
  rewrite copy_from_ok by (split; [done|intros; apply Hadd; unfold IOVEC_SIZE in *; lia] || (unfold IOVEC_SIZE; lia)). cbn [Z.ltb Z.compare].
  cbn [vec] in Hb |- *. set (iov := mem_read (io_mem w) p IOVEC_SIZE) in *. set (l := iov_len iov) in *. set (a := iov_base iov) in *.
  pose proof (iov_len_range iov : 0 <= l) as Hl0. rewrite wanted_cons by done.
  assert (p + Z.of_nat IOVEC_SIZE = ptr + (i + 1) * Z.of_nat IOVEC_SIZE) as Hnext by (unfold p, IOVEC_SIZE; lia). rewrite Hnext in *.
  apply Forall_cons in Hb as [Hv Hb]. cbn [fst snd] in Hv. set (rest := vec (io_mem w) _ todo) in *.
  assert (∀ w1 tr1 r1, (∀ x, p + Z.of_nat IOVEC_SIZE <= x < p + Z.of_nat (IOVEC_SIZE * S todo) → io_mem w1 x = io_mem w x) →
    moved a (Z.to_nat l) w w1 → pieces tr1 w w1 → Forall complete tr1 → got tr1 = l → iov_loop cur todo dir fd ptr (i + 1) (total + l) w1 = (r1, w') →
    ∃ tr, transferred ((a, l) :: rest) (Z.to_nat (got tr)) w w' ∧ pieces tr w w' ∧ asked tr <= l + wanted rest ∧ ended total (total + (l + wanted rest)) tr r1) as Hgo.
  { intros w1 tr1 r1 Hm1 Hmv Htr1 Hc1 Hg1 Hl. unfold rest in *. rewrite <- (vec_ext (io_mem w1)) in * by (intros x Hx; apply Hm1; unfold IOVEC_SIZE in *; lia).
    apply IH in Hl as (tr & Hk & Htr & Has & Hend); [|lia|lia|lia|intros x Hx; apply Hadd; unfold IOVEC_SIZE in *; lia|].
    - destruct (pieces_amounts _ _ _ Htr) as [Hg _], (pieces_amounts _ _ _ Htr1) as [_ Hfull]. specialize (Hfull Hc1).
      exists (tr1 ++ tr). rewrite got_app, asked_app, Hg1, Z2Nat.inj_add by lia. split; [by eapply transferred_cons|]. split; [by eapply pieces_app|]. split; [lia|].
      apply ended_app; [done|]. rewrite Hg1, Z.add_assoc. exact Hend.
    - eapply Forall_impl; [exact Hb|]. intros v [?|[? Hdis]]; [by left|]. right. split; [done|]. intros Hd' x Hx Hx'. apply (Hdis Hd' x Hx). unfold IOVEC_SIZE in *. lia. }
  destruct (Z.eqb_spec l 0) as [El|].
  { intros Hl. apply (Hgo w []); [done|rewrite El; apply moved_none|constructor|constructor|done|by rewrite El, Z.add_0_r]. }
  destruct Hv as [?|[Hur Hdis]]; [done|].
  destruct (user_range_ref cur a _ Hur) as (ref & Href & Hat); [lia|]. unfold iov_rw. fold a l. rewrite Href. cbn [Z.ltb Z.compare].
  destruct (sys_rw _ _ _ _ _ _ _) as [n' w1] eqn:E. apply (sys_rw_moved fd ref a l) in E as (tr & Hk & Htr & Has & Hend); [|done|done|done|lia|done].
  destruct (pieces_amounts _ _ _ Htr) as [Hg _].
  assert (0 <= wanted rest) as Hrest by (unfold wanted; lia).
  destruct Hend as [(Hc & Hgl & ->)|(tr0 & q & -> & Hc & Hq & Hn')].
  - rewrite Z.add_0_l in Hgl. destruct (Z.ltb_spec l 0); [lia|].
    assert (match dir with Reading => (l =? 0) || (l <? l) | Writing => l <? l end = false) as ->.
    { destruct dir; destruct (Z.eqb_spec l 0), (Z.ltb_spec l l); done || lia. }
    intros Hl. rewrite Hgl in Hk. apply (Hgo w1 tr); [|done|done|done|done|done].
    intros x Hx. unfold moved in Hk. destruct dir eqn:Edir; [|by destruct Hk as [-> _]]. destruct Hk as (bs & Hbl & _ & Hm). rewrite Hm.
    apply mem_write_other. specialize (Hdis eq_refl x). unfold IOVEC_SIZE in *. lia.
  - pose proof (ended_short _ _ _ _ Htr Hq) as Hlt. set (tr := tr0 ++ [q]) in *. rewrite Z.add_0_l in Hn'.
    assert (∀ r1, r1 = (if total + got tr =? 0 then pc_ret q else total + got tr) → r1 = r → w1 = w' →
      ∃ tr, transferred ((a, l) :: rest) (Z.to_nat (got tr)) w w' ∧ pieces tr w w' ∧ asked tr <= l + wanted rest ∧ ended total (total + (l + wanted rest)) tr r) as Hstop.
    { intros r1 Hr1 <- <-. exists tr. split; [apply transferred_part; [lia|done]|]. split; [done|]. split; [lia|]. right. by exists tr0, q. }
    assert (got tr = 0 → pc_ret q <= 0) as Hq0.
    { unfold tr. rewrite got_app. cbn. destruct (pieces_amounts _ _ _ Htr) as [_ _]. assert (0 <= got tr0); [|lia].
      clear. induction tr0; cbn; [lia|]. fold (got tr0). lia. }
    destruct (Z.ltb_spec n' 0).
    { intros [= Hr Hw]. apply (Hstop _ eq_refl); [|done]. rewrite <- Hr. revert Hn'. destruct (Z.eqb_spec (got tr) 0), (Z.ltb_spec 0 total), (Z.eqb_spec (total + got tr) 0); lia. }
    assert (n' = got tr) as -> by (revert Hn'; destruct (Z.eqb_spec (got tr) 0); lia).
    assert (match dir with Reading => (got tr =? 0) || (got tr <? l) | Writing => got tr <? l end = true) as ->.
    { destruct dir; destruct (Z.eqb_spec (got tr) 0), (Z.ltb_spec (got tr) l); done || lia. }
    intros [= Hr Hw]. apply (Hstop _ eq_refl); [|done]. rewrite <- Hr. revert Hn'. destruct (Z.eqb_spec (got tr) 0), (Z.eqb_spec (total + got tr) 0); lia.
Qed.

End Facts.

(** ** A file that moves at most [demo_limit] bytes at a time *)

Record demo_file := DemoFile { demo_in : list Z; demo_out : list Z; demo_limit : Z }.

#[local] Instance demo_ops : FileOps demo_file := {
  fd_write d page off chunk m f :=
    let n := Z.min chunk (demo_limit f) in
    (n, DemoFile (demo_in f) (demo_out f ++ take (Z.to_nat n) (mem_read m (page_linear page + off) (Z.to_nat chunk))) (demo_limit f));
  fd_read d page off chunk m f :=
    let bs := take (Z.to_nat (Z.min chunk (demo_limit f))) (demo_in f) in
    (Z.of_nat (length bs), mem_write m (page_linear page + off) bs, DemoFile (drop (length bs) (demo_in f)) (demo_out f) (demo_limit f));
  fd_ioctl d cmd arg f := (0, (λ _, replicate 36 7) <$> arg, f)
}.

#[local, program] Instance demo_file_ok : FileOk demo_file := {
  inflow f d := demo_in f;
  outflow f d := demo_out f
}.
Next Obligation. intros d page off chunk m f ret f' Ho Hc Hp [= <- <-]. cbn. split; [lia|done]. Qed.
Next Obligation.
  intros d page off chunk m f ret m' f' Ho Hc Hp [= <- <- <-]. cbn. split; [rewrite length_take; lia|].
  exists (take (Z.to_nat (Z.min chunk (demo_limit f))) (demo_in f)). split; [by rewrite Nat2Z.id|]. split; [|done].
  rewrite length_take. destruct (decide (Z.to_nat (Z.min chunk (demo_limit f)) <= length (demo_in f))%nat).
  - rewrite Nat.min_l by lia. by rewrite take_drop.
  - rewrite Nat.min_r, take_ge, drop_ge, app_nil_r by lia. done.
Qed.

#[local] Instance demo_order : ByteOrder := false.
Definition demo_cur : pcb_t := set_p_fd_map (replicate FD_MAX 0) pcb_zero.
(** Two buffers, the first over a page boundary, and an empty one between them. *)
Definition demo_vec : list Z := bytes_of 4 0x20006FFE ++ bytes_of 4 5 ++ bytes_of 4 0 ++ bytes_of 4 0 ++ bytes_of 4 0x20009000 ++ bytes_of 4 3.
Definition demo_mem : umem :=
  mem_write (mem_write (mem_write (λ _, 0) 0x20005000 demo_vec) 0x20006FFE [1; 2; 3; 4; 5]) 0x20009000 [6; 7; 8].
Definition demo_io (input : list Z) (limit : Z) : io_w demo_file := IoW _ demo_mem (DemoFile input [] limit).

Example writev_all : (λ r, (r.1, demo_out (io_files r.2))) (sys_writev demo_cur 1 0x20005000 3 (demo_io [] 100)) = (8, [1; 2; 3; 4; 5; 6; 7; 8]).
Proof. vm_compute. reflexivity. Qed.
(** The second piece of the first buffer has three bytes, of which two are taken. *)
Example writev_short : (λ r, (r.1, demo_out (io_files r.2))) (sys_writev demo_cur 1 0x20005000 3 (demo_io [] 2)) = (4, [1; 2; 3; 4]).
Proof. vm_compute. reflexivity. Qed.
Example readv_end : (λ r, (r.1, mem_read (io_mem r.2) 0x20006FFE 6, mem_read (io_mem r.2) 0x20009000 3))
  (sys_readv demo_cur 1 0x20005000 3 (demo_io [11; 12; 13; 14; 15; 16] 100)) = (6, [11; 12; 13; 14; 15; 0], [16; 7; 8]).
Proof. vm_compute. reflexivity. Qed.
Example ioctl_tcgets : (λ r, (r.1, mem_read (io_mem r.2) 0x20009000 37)) (sys_ioctl demo_cur (λ n, replicate n 0) 1 TCGETS 0x20009000 (demo_io [] 1))
  = (0, replicate 36 7 ++ [0]).
Proof. vm_compute. reflexivity. Qed.

Lemma demo_addressable x : 0x20000000 <= x < 0x2000B000 → addressable x.
Proof. intros Hx. unfold addressable, PAGE_SIZE, PAGE_ID_INVALID. cbn. split; [lia|]. split; [apply Z.div_lt_upper_bound; lia|lia]. Qed.

Lemma demo_buffers_ok : buffers_ok Reading 0x20005000 3 (vec demo_mem 0x20005000 3).
Proof.
  assert (vec demo_mem 0x20005000 3 = [(0x20006FFE, 5); (0, 0); (0x20009000, 3)]) as -> by (vm_compute; reflexivity).
  unfold buffers_ok. rewrite !Forall_cons. cbn [fst snd].
  split; [right|split; [by left|split; [right|by apply Forall_nil]]];
    (split; [split; [lia|intros x Hx; apply demo_addressable; lia]|]); intros _ x Hx; unfold IOVEC_SIZE; lia.
Qed.

