(* ===== verification/Tmpfs.v ===== *)
(** * Tmpfs: the RAM-backed file system (src/kernel/vfs/tmpfs.c)

    The inode table over the pages of [PageStore], every function of the driver
    table as a transition of the vfs state whose driver world it is.  The driver
    mutex makes each of them atomic.  Names are character lists without their
    terminator. *)

From S2P Require Import Prelude Config PagePool Path Vfs ModCore.

Definition S_IFMT : Z := 0xF000.
Definition S_IFDIR : Z := 0x4000.
Definition S_IFREG : Z := 0x8000.
Definition DT_DIR : Z := 4.
Definition DT_REG : Z := 8.

Record tmpfs_inode_t := Inode {
  ti_name : name;
  ti_type : vnode_type_t;
  ti_active : bool;
  ti_mode : Z;
  ti_size : Z;
  ti_parent_ino : Z;
  ti_data_page : Z;
  ti_mtime : Z;
  ti_ctime : Z;
  ti_atime : Z
}.

Definition TMPFS_MAX_PAGES : Z := TMPFS_DATA_MAX / PAGE_SIZE.
Definition TMPFS_FILE_MAX : Z := PAGE_SIZE.

#[export] Instance inode_inhabited : Inhabited tmpfs_inode_t := populate (Inode [] VNODE_FILE false 0 0 0 0 0 0 0).

Definition set_ti_name (v : name) (n : tmpfs_inode_t) : tmpfs_inode_t :=
  Inode v (ti_type n) (ti_active n) (ti_mode n) (ti_size n) (ti_parent_ino n) (ti_data_page n) (ti_mtime n) (ti_ctime n) (ti_atime n).
Definition set_ti_active (v : bool) (n : tmpfs_inode_t) : tmpfs_inode_t :=
  Inode (ti_name n) (ti_type n) v (ti_mode n) (ti_size n) (ti_parent_ino n) (ti_data_page n) (ti_mtime n) (ti_ctime n) (ti_atime n).
Definition set_ti_mode (v : Z) (n : tmpfs_inode_t) : tmpfs_inode_t :=
  Inode (ti_name n) (ti_type n) (ti_active n) (u32 v) (ti_size n) (ti_parent_ino n) (ti_data_page n) (ti_mtime n) (ti_ctime n) (ti_atime n).
Definition set_ti_size (v : Z) (n : tmpfs_inode_t) : tmpfs_inode_t :=
  Inode (ti_name n) (ti_type n) (ti_active n) (ti_mode n) (u32 v) (ti_parent_ino n) (ti_data_page n) (ti_mtime n) (ti_ctime n) (ti_atime n).
Definition set_ti_parent (v : Z) (n : tmpfs_inode_t) : tmpfs_inode_t :=
  Inode (ti_name n) (ti_type n) (ti_active n) (ti_mode n) (ti_size n) (u32 v) (ti_data_page n) (ti_mtime n) (ti_ctime n) (ti_atime n).
Definition set_ti_data_page (v : Z) (n : tmpfs_inode_t) : tmpfs_inode_t :=
  Inode (ti_name n) (ti_type n) (ti_active n) (ti_mode n) (ti_size n) (ti_parent_ino n) v (ti_mtime n) (ti_ctime n) (ti_atime n).
Definition set_ti_mtime (v : Z) (n : tmpfs_inode_t) : tmpfs_inode_t :=
  Inode (ti_name n) (ti_type n) (ti_active n) (ti_mode n) (ti_size n) (ti_parent_ino n) (ti_data_page n) (u32 v) (ti_ctime n) (ti_atime n).
Definition set_ti_ctime (v : Z) (n : tmpfs_inode_t) : tmpfs_inode_t :=
  Inode (ti_name n) (ti_type n) (ti_active n) (ti_mode n) (ti_size n) (ti_parent_ino n) (ti_data_page n) (ti_mtime n) (u32 v) (ti_atime n).
Definition set_ti_atime (v : Z) (n : tmpfs_inode_t) : tmpfs_inode_t :=
  Inode (ti_name n) (ti_type n) (ti_active n) (ti_mode n) (ti_size n) (ti_parent_ino n) (ti_data_page n) (ti_mtime n) (ti_ctime n) (u32 v).

(** [str_copy] into a buffer of [max] bytes. *)
Definition str_copy (src : name) (max : nat) : name := take (max - 1) src.

Section Operations.
Context {cfg : PageConfig} {ps : PageStore}.

Record tmpfs_t := Tmpfs { inodes : list tmpfs_inode_t; data_pages_used : Z; fs_core : core }.
#[local] Abbreviation vfs := (vfs_t tmpfs_t).

Definition inode (fs : tmpfs_t) (i : nat) : tmpfs_inode_t := inodes fs !!! i.
Definition upd_inode (i : nat) (f : tmpfs_inode_t → tmpfs_inode_t) (fs : tmpfs_t) : tmpfs_t :=
  Tmpfs (alter f i (inodes fs)) (data_pages_used fs) (fs_core fs).
Definition set_pages_used (v : Z) (fs : tmpfs_t) : tmpfs_t := Tmpfs (inodes fs) (u32 v) (fs_core fs).
Definition set_core (c : core) (fs : tmpfs_t) : tmpfs_t := Tmpfs (inodes fs) (data_pages_used fs) c.
Definition time_now_sec (fs : tmpfs_t) : Z := core_time (fs_core fs).
(** [x->mtime = now; x->ctime = now;] *)
Definition touch (i : nat) (now : Z) (fs : tmpfs_t) : tmpfs_t :=
  upd_inode i (λ n, set_ti_ctime now (set_ti_mtime now n)) fs.

Definition set_world (fs : tmpfs_t) (st : vfs) : vfs :=
  Vfs _ (vnodes st) (vnode_free st) (mounts st) (mount_count st) (scratch_free st) fs.
(** [inodes[vn->ino]] *)
Definition ino (st : vfs) (v : nat) : nat := Z.to_nat (vn_ino (vnode st v)).

(** ** Inode management *)

Fixpoint inode_scan (n i : nat) (l : list tmpfs_inode_t) : Z :=
  match n with
  | O => -1
  | S n => if ti_active (l !!! i) then inode_scan n (S i) l else Z.of_nat i
  end.
Definition inode_alloc (fs : tmpfs_t) : Z := inode_scan (TMPFS_INODE_MAX - 1) 1 (inodes fs).

Definition inode_free (i : nat) (fs : tmpfs_t) : tmpfs_t :=
  let fs := if negb (ti_data_page (inode fs i) =? PAGE_ID_INVALID)
            then set_pages_used (data_pages_used fs - 1) (set_core (core_free (ti_data_page (inode fs i)) (fs_core fs)) fs)
            else fs in
  upd_inode i (λ n, set_ti_size 0 (set_ti_data_page PAGE_ID_INVALID (set_ti_active false n))) fs.

(** The loop of every operation by name: the first active entry of the
    directory with that name. *)
Fixpoint find_entry (n i : nat) (dir : Z) (nm : name) (l : list tmpfs_inode_t) : option nat :=
  match n with
  | O => None
  | S n =>
      let x := l !!! i in
      if ti_active x && (ti_parent_ino x =? dir) && bool_decide (ti_name x = nm) then Some i
      else find_entry n (S i) dir nm l
  end.
Definition tmpfs_find (dir : Z) (nm : name) (fs : tmpfs_t) : option nat :=
  find_entry TMPFS_INODE_MAX 0 dir nm (inodes fs).

(** Some entry other than [i] itself lies in directory [i]. *)
Definition has_children (i : nat) (fs : tmpfs_t) : bool :=
  existsb (λ j, negb (j =? i)%nat && ti_active (inode fs j) && (ti_parent_ino (inode fs j) =? Z.of_nat i)) (seq 0 TMPFS_INODE_MAX).

(** ** Mounting and lookup *)

Definition clear_inode (n : tmpfs_inode_t) : tmpfs_inode_t := set_ti_data_page PAGE_ID_INVALID (set_ti_active false n).

Definition tmpfs_mount (mnt : nat) (dev_data : Z) (st : vfs) : Z * vfs :=
  match vfs_vnode_alloc st with
  | (None, st) => (- ENOMEM, st)
  | (Some root, st) =>
      let fs := fs_world st in
      let now := u32 (time_now_sec fs) in
      let fs := Tmpfs (clear_inode <$> inodes fs) 0 (fs_core fs) in
      let fs := upd_inode 0 (λ _, Inode [] VNODE_DIR true (Z.lor S_IFDIR 493) 0 0 PAGE_ID_INVALID now now now) fs in
      let st := upd_vnode root (λ n, Vnode VNODE_DIR 0 (Z.lor S_IFDIR 493) 0 (vn_refcnt n) 0 (Some mnt) (vn_xip_addr n))
                  (set_world fs st) in
      (0, upd_mount mnt (set_root (Some root)) st)
  end.

(** The vnode of inode [i], found in or created in directory [dir]. *)
Definition fill_vnode (dir vn i : nat) (st : vfs) : vfs :=
  let n := inode (fs_world st) i in
  upd_vnode vn (λ x, Vnode (ti_type n) (ti_size n) (ti_mode n) (Z.of_nat i) (vn_refcnt x) 0
                       (vn_mount (vnode st dir)) (vn_xip_addr x)) st.

Definition tmpfs_lookup (dir : nat) (nm : name) (st : vfs) : Z * option nat * vfs :=
  let dir_ino := vn_ino (vnode st dir) in
  match vfs_vnode_alloc st with
  | (None, st) => (- ENOMEM, None, st)
  | (Some vn, st) =>
      match tmpfs_find dir_ino nm (fs_world st) with
      | Some i => (0, Some vn, fill_vnode dir vn i st)
      | None => (- ENOENT, None, vfs_vnode_release (Some vn) st)
      end
  end.

(** ** Data *)

(** The copy loops: through a buffer of 64 bytes. *)
Fixpoint page_copy (fuel : nat) (src src_off dst dst_off n copied : Z) (c : core) : core :=
  match fuel with
  | O => c
  | S fuel =>
      if copied <? u16 n then
        let chunk := u16 (u16 n - copied) in
        let chunk := if 64 <? chunk then 64 else chunk in
        let buf := core_read src (u16 (src_off + copied)) (Z.to_nat chunk) c in
        let c := core_write dst (u16 (dst_off + copied)) buf c in
        page_copy fuel src src_off dst dst_off n (u16 (copied + chunk)) c
      else c
  end.

(** Zeros, 32 at a time, where there is no page. *)
Fixpoint zero_fill (fuel : nat) (dst dst_off n zero_off : Z) (c : core) : core :=
  match fuel with
  | O => c
  | S fuel =>
      if zero_off <? u16 n then
        let zero_len := u16 (u16 n - zero_off) in
        let zero_len := if 32 <? zero_len then 32 else zero_len in
        let c := core_write dst (u16 (dst_off + zero_off)) (replicate (Z.to_nat zero_len) 0) c in
        zero_fill fuel dst dst_off n (u16 (zero_off + zero_len)) c
      else c
  end.

Definition tmpfs_read (vn : nat) (page page_off n off : Z) (st : vfs) : Z * vfs :=
  let fs := fs_world st in
  if bool_decide (vn_type (vnode st vn) = VNODE_DIR) then (- EISDIR, st)
  else
    let ti := inode fs (ino st vn) in
    if ti_size ti <=? off then (0, st)
    else
      let n := if ti_size ti <? u32 (off + n) then u32 (ti_size ti - off) else n in
      let fuel := Z.to_nat (u16 n) in
      let c := if negb (ti_data_page ti =? PAGE_ID_INVALID)
               then page_copy fuel (ti_data_page ti) off page page_off n 0 (fs_core fs)
               else zero_fill fuel page page_off n 0 (fs_core fs) in
      (s32 n, set_world (set_core c fs) st).

(** The page a write goes to, allocated when there is none. *)
Definition write_page (i : nat) fs : Z * tmpfs_t :=
  if ti_data_page (inode fs i) =? PAGE_ID_INVALID then
    if TMPFS_MAX_PAGES <=? data_pages_used fs then (- ENOSPC, fs)
    else
      let '(rc, p, c) := core_alloc (fs_core fs) in
      if rc <? 0 then (- ENOMEM, set_core c fs)
      else (0, set_pages_used (data_pages_used fs + 1) (set_core (core_zero p 0 PAGE_SIZE c) (upd_inode i (set_ti_data_page p) fs)))
  else (0, fs).

(** The rest of a write of [n] bytes that fit the file. *)
Definition write_data (vn i : nat) (page page_off n off : Z) (fs : tmpfs_t) (st : vfs) : Z * vfs :=
  let '(rc, fs) := write_page i fs in
  if rc <? 0 then (rc, set_world fs st)
  else
    let fs := set_core (page_copy (Z.to_nat (u16 n)) page page_off (ti_data_page (inode fs i)) off n 0 (fs_core fs)) fs in
    let new_size := u32 (off + n) in
    if ti_size (inode fs i) <? new_size
    then (s32 n, upd_vnode vn (λ x, Vnode (vn_type x) new_size (vn_mode x) (vn_ino x) (vn_refcnt x) (vn_fs_priv x) (vn_mount x) (vn_xip_addr x))
                 (set_world (upd_inode i (set_ti_size new_size) fs) st))
    else (s32 n, set_world fs st).

Definition tmpfs_write (vn : nat) (page page_off n off : Z) (st : vfs) : Z * vfs :=
  let fs := fs_world st in
  if bool_decide (vn_type (vnode st vn) = VNODE_DIR) then (- EISDIR, st)
  else
    let i := ino st vn in
    let fs := touch i (time_now_sec fs) fs in
    if TMPFS_FILE_MAX <? u32 (off + n) then
      if TMPFS_FILE_MAX <=? off then (- ENOSPC, set_world fs st)
      else write_data vn i page page_off (u32 (TMPFS_FILE_MAX - off)) off fs st
    else write_data vn i page page_off n off fs st.

Definition tmpfs_truncate (vn : nat) (length : Z) (st : vfs) : Z * vfs :=
  let fs := fs_world st in
  let i := ino st vn in
  let ti := inode fs i in
  if bool_decide (ti_type ti = VNODE_DIR) then (- EISDIR, st)
  else
    let fs := if (length =? 0) && negb (ti_data_page ti =? PAGE_ID_INVALID)
              then set_pages_used (data_pages_used fs - 1)
                     (upd_inode i (set_ti_data_page PAGE_ID_INVALID) (set_core (core_free (ti_data_page ti) (fs_core fs)) fs))
              else fs in
    let fs := upd_inode i (set_ti_size length) fs in
    let st := upd_vnode vn (λ x, Vnode (vn_type x) (u32 length) (vn_mode x) (vn_ino x) (vn_refcnt x) (vn_fs_priv x) (vn_mount x) (vn_xip_addr x)) st in
    (0, set_world (touch i (time_now_sec fs) fs) st).

(** ** The name space *)

(** [d_ino], [d_type], [d_name] *)
Record dirent := Dirent { d_ino : Z; d_type : Z; d_name : name }.

(** [n] inodes are left from [i] on; the result is the entries and [seen]. *)
Fixpoint readdir_loop (n i : nat) (dir_ino : Z) (max : nat) (skip seen : Z) (l : list tmpfs_inode_t) : list dirent * Z :=
  match n with
  | O => ([], seen)
  | S n =>
      if (max =? 0)%nat then ([], seen)
      else
        let x := l !!! i in
        if negb (ti_active x) || negb (ti_parent_ino x =? dir_ino) || (Z.of_nat i =? dir_ino)
        then readdir_loop n (S i) dir_ino max skip seen l
        else if seen <? skip then readdir_loop n (S i) dir_ino max skip (u32 (seen + 1)) l
        else
          let e := Dirent (Z.of_nat i) (if bool_decide (ti_type x = VNODE_DIR) then DT_DIR else DT_REG) (str_copy (ti_name x) (VFS_NAME_MAX + 1)) in
          let '(es, seen) := readdir_loop n (S i) dir_ino (max - 1) skip (u32 (seen + 1)) l in
          (e :: es, seen)
  end.

(** The entries with the new [*cookie]; their number is the result. *)
Definition tmpfs_readdir (dir max_entries : nat) (cookie : Z) (st : vfs) : list dirent * Z :=
  readdir_loop TMPFS_INODE_MAX 0 (vn_ino (vnode st dir)) max_entries cookie 0 (inodes (fs_world st)).

(** The new entry of [create] and [mkdir] in slot [idx]. *)
Definition new_entry (idx : nat) (type : vnode_type_t) (fmt mode parent now : Z) (nm : name) (fs : tmpfs_t) : tmpfs_t :=
  upd_inode idx (λ _, Inode (str_copy nm (TMPFS_NAME_MAX + 1)) type true (Z.lor fmt (Z.land mode 511)) 0 parent PAGE_ID_INVALID
                        (u32 now) (u32 now) (u32 now)) fs.

Definition tmpfs_create (dir : nat) (nm : name) (mode : Z) (st : vfs) : Z * option nat * vfs :=
  match vfs_vnode_alloc st with
  | (None, st) => (- ENOMEM, None, st)
  | (Some vn, st) =>
      let fs := fs_world st in
      let dir_ino := vn_ino (vnode st dir) in
      match tmpfs_find dir_ino nm fs with
      | Some _ => (- EEXIST, None, vfs_vnode_release (Some vn) st)
      | None =>
          let idx := inode_alloc fs in
          if idx <? 0 then (- ENOSPC, None, vfs_vnode_release (Some vn) st)
          else
            let now := time_now_sec fs in
            let fs := new_entry (Z.to_nat idx) VNODE_FILE S_IFREG mode dir_ino now nm fs in
            let fs := touch (Z.to_nat dir_ino) now fs in
            (0, Some vn, fill_vnode dir vn (Z.to_nat idx) (set_world fs st))
      end
  end.

Definition tmpfs_mkdir (dir : nat) (nm : name) (mode : Z) (st : vfs) : Z * vfs :=
  let fs := fs_world st in
  let dir_ino := vn_ino (vnode st dir) in
  match tmpfs_find dir_ino nm fs with
  | Some _ => (- EEXIST, st)
  | None =>
      let idx := inode_alloc fs in
      if idx <? 0 then (- ENOSPC, st)
      else
        let now := time_now_sec fs in
        let fs := new_entry (Z.to_nat idx) VNODE_DIR S_IFDIR mode dir_ino now nm fs in
        (0, set_world (touch (Z.to_nat dir_ino) now fs) st)
  end.

Definition is_dir (i : nat) (fs : tmpfs_t) : bool := bool_decide (ti_type (inode fs i) = VNODE_DIR).

Definition tmpfs_unlink (dir : nat) (nm : name) (st : vfs) : Z * vfs :=
  let fs := fs_world st in
  let dir_ino := vn_ino (vnode st dir) in
  match tmpfs_find dir_ino nm fs with
  | None => (- ENOENT, st)
  | Some i =>
      if is_dir i fs && has_children i fs then (- ENOTEMPTY, st)
      else
        let fs := inode_free i fs in
        (0, set_world (touch (Z.to_nat dir_ino) (time_now_sec fs) fs) st)
  end.

Definition tmpfs_rename (old_dir : nat) (old_name : name) (new_dir : nat) (new_name : name) (st : vfs) : Z * vfs :=
  let fs := fs_world st in
  let old_ino := vn_ino (vnode st old_dir) in
  let new_ino := vn_ino (vnode st new_dir) in
  match tmpfs_find old_ino old_name fs with
  | None => (- ENOENT, st)
  | Some src =>
      let target := tmpfs_find new_ino new_name fs in
      if from_option (λ i, is_dir i fs && has_children i fs) false target then (- ENOTEMPTY, st)
      else
        let fs := from_option (λ i, inode_free i fs) fs target in
        let now := time_now_sec fs in
        let fs := upd_inode src (λ n, set_ti_name (str_copy new_name (TMPFS_NAME_MAX + 1)) (set_ti_ctime now (set_ti_parent new_ino n))) fs in
        let fs := touch (Z.to_nat old_ino) now fs in
        let fs := if negb (new_ino =? old_ino) then touch (Z.to_nat new_ino) now fs else fs in
        (0, set_world fs st)
  end.

(** ** Attributes *)

Record stat_t := Stat { st_ino : Z; st_mode : Z; st_nlink : Z; st_size : Z; st_mtime : Z; st_ctime : Z; st_atime : Z }.

Definition tmpfs_stat (vn : nat) (st : vfs) : stat_t :=
  let ti := inode (fs_world st) (ino st vn) in
  Stat (vn_ino (vnode st vn)) (ti_mode ti) 1 (ti_size ti) (ti_mtime ti) (ti_ctime ti) (ti_atime ti).

Definition tmpfs_utimes (vn : nat) (atime mtime : Z) (st : vfs) : Z * vfs :=
  let fs := fs_world st in
  (0, set_world (upd_inode (ino st vn) (λ n, set_ti_ctime (time_now_sec fs) (set_ti_mtime mtime (set_ti_atime atime n))) fs) st).

Definition tmpfs_chmod (vn : nat) (mode : Z) (st : vfs) : Z * vfs :=
  let fs := fs_world st in
  let i := ino st vn in
  let new := Z.lor (Z.land (ti_mode (inode fs i)) S_IFMT) (Z.land mode 4095) in
  let fs := upd_inode i (λ n, set_ti_ctime (time_now_sec fs) (set_ti_mode new n)) fs in
  (0, upd_vnode vn (λ x, Vnode (vn_type x) (vn_size x) new (vn_ino x) (vn_refcnt x) (vn_fs_priv x) (vn_mount x) (vn_xip_addr x)) (set_world fs st)).

(** The fields of [struct kernel_statfs] that are not constant. *)
Record statfs_t := Statfs { f_blocks : Z; f_bfree : Z; f_files : Z; f_ffree : Z; f_namelen : Z }.

Definition tmpfs_statfs (fs : tmpfs_t) : statfs_t :=
  let active := Z.of_nat (length (filter (λ i, ti_active (inode fs i) = true) (seq 0 TMPFS_INODE_MAX))) in
  Statfs TMPFS_MAX_PAGES (u32 (TMPFS_MAX_PAGES - data_pages_used fs)) (Z.of_nat TMPFS_INODE_MAX) (u32 (Z.of_nat TMPFS_INODE_MAX - active))
    (Z.of_nat TMPFS_NAME_MAX).

(** [tmpfs_ops] *)
Definition tmpfs_ops : vfs_ops_t tmpfs_t := VfsOps _ (Some tmpfs_mount) (Some tmpfs_lookup) None.
End Operations.
