(* ===== verification/TmpfsFacts.v ===== *)
(** * TmpfsFacts: tmpfs keeps its tables consistent and its files intact

    The invariant of the inode table, the copy loops, the byte contents of the
    files, and the contract of Namei's drivers.  [alt] lemmas describe an
    operation by the fields it leaves alone. *)

From S2P Require Import Prelude Config PagePool Path Vfs VfsFacts ModCore NameiFacts Tmpfs.

Section Facts.
Context {cfg : PageConfig} {ps : PageStore} {pok : PageStoreOk}.
Implicit Types (fs : tmpfs_t) (c : core).
#[local] Abbreviation vfs := (vfs_t tmpfs_t).
Implicit Types st : vfs.

(** ** The copy loops *)

Lemma chunk_step n k m : 0 <= n <= PAGE_SIZE → 0 <= k < n → 0 < m → m <= 64 →
  let ch := u16 (u16 n - k) in
  let ch := if m <? ch then m else ch in
  0 < ch ∧ k + ch <= n ∧ ch <= m ∧ u16 (k + ch) = k + ch.
Proof.
  unfold PAGE_SIZE. intros Hn Hk Hm Hm'. cbn zeta. rewrite (uN_small 16 n), (uN_small 16 (n - k)) by lia.
  assert (∀ x, 0 <= x <= n → u16 x = x) as Hu by (intros; apply (uN_small 16); lia).
  destruct (Z.ltb_spec m (n - k)); (split_and!; [lia..|apply Hu; lia]).
Qed.

(** What the loops leave alone: everything but [n] bytes of page [dst]. *)
Definition wrote (c c' : core) (dst off n : Z) (f : Z → Z) : Prop :=
  store_ok c' ∧ (∀ q, page_in_use c' q ↔ page_in_use c q) ∧
  ∀ q x, page_in_use c q → 0 <= x < PAGE_SIZE →
    byte_at c' q x = if decide (q = dst ∧ off <= x < off + n) then f (x - off) else byte_at c q x.

Lemma page_copy_wrote fuel src so dst d_off n k c : store_ok c → page_in_use c src → page_in_use c dst → src ≠ dst →
  0 <= so → so + n <= PAGE_SIZE → 0 <= d_off → d_off + n <= PAGE_SIZE → 0 <= k <= n → (Z.to_nat (n - k) <= fuel)%nat →
  wrote c (page_copy fuel src so dst d_off n k c) dst (d_off + k) (n - k) (λ i, byte_at c src (so + k + i)).
Proof.
  revert k c. induction fuel as [|fuel IH]; intros k c Hok Hsrc Hdst Hne Hso Hsn Hdo Hdn Hk Hf; cbn [page_copy].
  { split_and!; [done|done|]. intros q x _ _. by rewrite decide_False by lia. }
  rewrite (uN_small 16 n) by (unfold PAGE_SIZE in *; lia).
  destruct (Z.ltb_spec k n) as [Hlt|Hge].
  2:{ split_and!; [done|done|]. intros q x _ _. by rewrite decide_False by lia. }
  pose proof (chunk_step n k 64 ltac:(lia) ltac:(lia) ltac:(lia) ltac:(lia)) as Hch. cbn zeta in Hch.
  rewrite (uN_small 16 n) in Hch by (unfold PAGE_SIZE in *; lia).
  set (ch := if 64 <? u16 (n - k) then 64 else u16 (n - k)) in *. destruct Hch as (H0 & H1 & H2 & ->).
  assert (u16 (so + k) = so + k ∧ u16 (d_off + k) = d_off + k) as [-> ->]
    by (split; apply (uN_small 16); unfold PAGE_SIZE in *; lia).
  rewrite (store_read c src (so + k) (Z.to_nat ch)) by (done || lia).
  set (buf := _ <$> seq 0 (Z.to_nat ch)).
  assert (Z.of_nat (length buf) = ch) as Hlen by (subst buf; rewrite length_fmap, length_seq; lia).
  destruct (store_write c dst (d_off + k) buf Hok Hdst) as (W1 & W2 & W3); [lia..|].
  set (c1 := core_write dst (d_off + k) buf c) in *.
  destruct (IH (k + ch) c1) as (I1 & I2 & I3); [done|by rewrite W2|by rewrite W2|done|lia..|].
  split_and!; [done|intros q; by rewrite I2, W2|]. intros q x Hq Hx. rewrite I3 by (done || by rewrite W2).
  assert (∀ y, 0 <= y < PAGE_SIZE → byte_at c1 src y = byte_at c src y) as Hsame.
  { intros y Hy. rewrite W3 by done. by rewrite decide_False by tauto. }
  destruct (decide (q = dst ∧ d_off + (k + ch) <= x < d_off + (k + ch) + (n - (k + ch)))) as [D1|D1].
  { rewrite decide_True by lia. rewrite Hsame by lia. f_equal. lia. }
  rewrite (W3 q x Hq Hx). case_decide as D2; case_decide as D3; try lia.
  - apply list_lookup_total_correct. subst buf. rewrite list_lookup_fmap, lookup_seq_lt by lia.
    cbn. do 2 f_equal. lia.
Qed.

Lemma zero_fill_wrote fuel dst d_off n k c : store_ok c → page_in_use c dst →
  0 <= d_off → d_off + n <= PAGE_SIZE → 0 <= k <= n → (Z.to_nat (n - k) <= fuel)%nat →
  wrote c (zero_fill fuel dst d_off n k c) dst (d_off + k) (n - k) (λ _, 0).
Proof.
  revert k c. induction fuel as [|fuel IH]; intros k c Hok Hdst Hdo Hdn Hk Hf; cbn [zero_fill].
  { split_and!; [done|done|]. intros q x _ _. by rewrite decide_False by lia. }
  rewrite (uN_small 16 n) by (unfold PAGE_SIZE in *; lia).
  destruct (Z.ltb_spec k n) as [Hlt|Hge].
  2:{ split_and!; [done|done|]. intros q x _ _. by rewrite decide_False by lia. }
  pose proof (chunk_step n k 32 ltac:(lia) ltac:(lia) ltac:(lia) ltac:(lia)) as Hch. cbn zeta in Hch.
  rewrite (uN_small 16 n) in Hch by (unfold PAGE_SIZE in *; lia).
  set (ch := if 32 <? u16 (n - k) then 32 else u16 (n - k)) in *. destruct Hch as (H0 & H1 & H2 & ->).
  assert (u16 (d_off + k) = d_off + k) as -> by (apply (uN_small 16); unfold PAGE_SIZE in *; lia).
  destruct (store_write c dst (d_off + k) (replicate (Z.to_nat ch) 0) Hok Hdst) as (W1 & W2 & W3);
    [lia|rewrite length_replicate; lia|]. rewrite length_replicate in W3.
  set (c1 := core_write dst (d_off + k) _ c) in *.
  destruct (IH (k + ch) c1) as (I1 & I2 & I3); [done|by rewrite W2|lia..|].
  split_and!; [done|intros q; by rewrite I2, W2|]. intros q x Hq Hx. rewrite I3 by (done || by rewrite W2).
  rewrite (W3 q x Hq Hx). repeat case_decide; try done; try lia.
  apply lookup_total_replicate_2. lia.
Qed.

(** ** The inode table *)

Definition has_page (n : tmpfs_inode_t) : bool := negb (ti_data_page n =? PAGE_ID_INVALID).
Definition pages_total (l : list tmpfs_inode_t) : Z := zsum (λ n, ind (has_page n)) l.
#[local] Arguments pages_total : simpl never.

(** An active inode other than the root, and how it hangs in the tree. *)
Definition linked fs (i : nat) (n : tmpfs_inode_t) : Prop :=
  ti_active n = true →
  0 <= ti_size n <= PAGE_SIZE ∧ (length (ti_name n) <= TMPFS_NAME_MAX)%nat ∧
  0 <= ti_parent_ino n < Z.of_nat TMPFS_INODE_MAX ∧
  ti_active (inode fs (Z.to_nat (ti_parent_ino n))) = true ∧ ti_type (inode fs (Z.to_nat (ti_parent_ino n))) = VNODE_DIR ∧
  (i ≠ 0%nat → Z.to_nat (ti_parent_ino n) ≠ i).

Definition paged c (n : tmpfs_inode_t) : Prop :=
  has_page n = true → ti_active n = true ∧ ti_type n = VNODE_FILE ∧ page_in_use c (ti_data_page n).

Definition apart_from (n m : tmpfs_inode_t) : Prop :=
  (has_page n = true → ti_data_page n ≠ ti_data_page m) ∧
  (ti_active n = true → ti_active m = true → ti_parent_ino n = ti_parent_ino m → ti_name n ≠ ti_name m).

Definition root_ok (n : tmpfs_inode_t) : Prop :=
  ti_active n = true ∧ ti_type n = VNODE_DIR ∧ ti_parent_ino n = 0 ∧ ti_name n = [].

Record tmpfs_inv fs : Prop := {
  inv_len : length (inodes fs) = TMPFS_INODE_MAX;
  inv_store : store_ok (fs_core fs);
  inv_root : root_ok (inode fs 0);
  inv_linked : ∀ i, (i < TMPFS_INODE_MAX)%nat → linked fs i (inode fs i);
  inv_paged : ∀ i, (i < TMPFS_INODE_MAX)%nat → paged (fs_core fs) (inode fs i);
  inv_apart : ∀ i j, (i < TMPFS_INODE_MAX)%nat → (j < TMPFS_INODE_MAX)%nat → i ≠ j → apart_from (inode fs i) (inode fs j);
  inv_used : data_pages_used fs = pages_total (inodes fs);
  inv_max : data_pages_used fs <= TMPFS_MAX_PAGES
}.

Lemma apart_sym n m : apart_from n m → (has_page m = true → ti_data_page n ≠ ti_data_page m) → apart_from m n.
Proof. intros [H1 H2] H3. split; [intros H E; by apply H3|intros ? ? ? E; by apply H2]. Qed.

Lemma inode_upd fs i j f : length (inodes fs) = TMPFS_INODE_MAX → (i < TMPFS_INODE_MAX)%nat →
  inode (upd_inode i f fs) j = if decide (j = i) then f (inode fs i) else inode fs j.
Proof.
  intros Hl Hi. unfold inode, upd_inode. cbn [inodes]. rewrite !list_lookup_total_alt. destruct (decide (j = i)) as [->|].
  - rewrite list_lookup_alter_eq. destruct (lookup_lt_is_Some_2 (inodes fs) i) as [x ->]; [lia|done].
  - by rewrite list_lookup_alter_ne.
Qed.

Lemma inode_lookup fs i : length (inodes fs) = TMPFS_INODE_MAX → (i < TMPFS_INODE_MAX)%nat → inodes fs !! i = Some (inode fs i).
Proof.
  intros Hl Hi. unfold inode. rewrite list_lookup_total_alt.
  destruct (lookup_lt_is_Some_2 (inodes fs) i) as [x ->]; [lia|done].
Qed.

(** One inode changes, with the pages and the core. *)
Lemma change_inode fs i g used c : tmpfs_inv fs → (i < TMPFS_INODE_MAX)%nat →
  let n' := g (inode fs i) in
  let fs' := Tmpfs (alter g i (inodes fs)) used c in
  store_ok c → (∀ j, (j < TMPFS_INODE_MAX)%nat → j ≠ i → has_page (inode fs j) = true → page_in_use c (ti_data_page (inode fs j))) →
  (i = 0%nat → root_ok n') → linked fs' i n' → paged c n' →
  (∀ j, (j < TMPFS_INODE_MAX)%nat → j ≠ i → ti_active (inode fs j) = true → ti_parent_ino (inode fs j) = Z.of_nat i →
     ti_active n' = true ∧ ti_type n' = VNODE_DIR) →
  (∀ j, (j < TMPFS_INODE_MAX)%nat → j ≠ i → apart_from n' (inode fs j)) →
  used = data_pages_used fs - ind (has_page (inode fs i)) + ind (has_page n') → used <= TMPFS_MAX_PAGES →
  tmpfs_inv fs'.
Proof.
  intros Hi Hlt n' fs' Hc Hpages Hroot Hlink Hpaged Hchild Hapart Hused Hmax.
  pose proof (inv_len _ Hi) as Hl.
  assert (∀ j, inode fs' j = if decide (j = i) then n' else inode fs j) as Hn.
  { intros j. apply (inode_upd fs i j g Hl Hlt). }
  split; try done.
  - cbn. by rewrite length_alter.
  - rewrite Hn. destruct (decide (0 = i)%nat) as [<-|]; [by apply Hroot|apply Hi].
  - intros j Hj. rewrite Hn. destruct (decide (j = i)) as [->|Hne]; [done|].
    intros Ha. destruct (inv_linked _ Hi j Hj Ha) as (L1 & L2 & L3 & L4 & L5 & L6). split_and!; try done; try lia.
    + rewrite Hn. destruct (decide (_ = i)) as [E|]; [|done]. eapply Hchild; [exact Hj|done|done|lia].
    + rewrite Hn. destruct (decide (_ = i)) as [E|]; [|done]. eapply Hchild; [exact Hj|done|done|lia].
  - intros j Hj. rewrite Hn. destruct (decide (j = i)) as [->|Hne]; [done|].
    intros Hp. destruct (inv_paged _ Hi j Hj Hp) as (? & ? & _). split_and!; [done|done|]. by apply Hpages.
  - intros j k Hj Hk Hne. rewrite !Hn. destruct (decide (j = i)) as [->|Hji], (decide (k = i)) as [->|Hki]; try done.
    + by apply Hapart.
    + apply apart_sym; [by apply Hapart|]. intros Hp E.
      pose proof (proj1 (Hapart j Hj Hji)) as Ha. apply Ha; [|done]. unfold has_page in *. by rewrite E.
    + by apply Hi.
  - cbn [data_pages_used inodes fs']. unfold pages_total. rewrite (zsum_alter _ _ _ _ _ (inode_lookup fs i Hl Hlt)), Hused, (inv_used _ Hi).
    change (g (inode fs i)) with n'. unfold pages_total. lia.
Qed.

(** A change of data: the entry keeps its place in the tree. *)
Definition same_place (n n' : tmpfs_inode_t) : Prop :=
  ti_name n' = ti_name n ∧ ti_type n' = ti_type n ∧ ti_active n' = ti_active n ∧ ti_parent_ino n' = ti_parent_ino n.

Lemma change_data fs i g used c : tmpfs_inv fs → (i < TMPFS_INODE_MAX)%nat →
  let n' := g (inode fs i) in
  same_place (inode fs i) n' → (ti_active n' = true → 0 <= ti_size n' <= PAGE_SIZE) →
  store_ok c → (∀ j, (j < TMPFS_INODE_MAX)%nat → j ≠ i → has_page (inode fs j) = true → page_in_use c (ti_data_page (inode fs j))) →
  paged c n' → (∀ j, (j < TMPFS_INODE_MAX)%nat → j ≠ i → has_page n' = true → ti_data_page n' ≠ ti_data_page (inode fs j)) →
  used = data_pages_used fs - ind (has_page (inode fs i)) + ind (has_page n') → used <= TMPFS_MAX_PAGES →
  tmpfs_inv (Tmpfs (alter g i (inodes fs)) used c).
Proof.
  intros Hi Hlt n' (K1 & K2 & K3 & K4) Hsize Hc Hpages Hpaged Hdist Hused Hmax.
  assert (∀ j, ti_active (inode (upd_inode i g fs) j) = ti_active (inode fs j) ∧ ti_type (inode (upd_inode i g fs) j) = ti_type (inode fs j)) as Hsame.
  { intros j. rewrite inode_upd by (done || apply Hi). by destruct (decide (j = i)) as [->|]. }
  apply change_inode; try done.
  - intros ->. destruct (inv_root _ Hi) as (? & ? & ? & ?). unfold root_ok. fold n'. by rewrite K1, K2, K3, K4.
  - intros Ha. split; [by apply Hsize|]. fold n' in Ha |- *. rewrite K3 in Ha. rewrite K1, K4.
    destruct (inv_linked _ Hi i Hlt Ha) as (_ & L2 & L3 & L4 & L5 & L6). split_and!; try done; try lia.
    + change (ti_active (inode (upd_inode i g fs) (Z.to_nat (ti_parent_ino (inode fs i)))) = true). by rewrite (proj1 (Hsame _)).
    + change (ti_type (inode (upd_inode i g fs) (Z.to_nat (ti_parent_ino (inode fs i)))) = VNODE_DIR). by rewrite (proj2 (Hsame _)).
  - intros j Hj Hne Ha Hp. fold n'. rewrite K2, K3. destruct (inv_linked _ Hi j Hj Ha) as (_ & _ & _ & L4 & L5 & _).
    by rewrite Hp, Nat2Z.id in L4, L5.
  - intros j Hj Hne. split; [intros Hp; by apply Hdist|]. fold n'. rewrite K1, K3, K4. by apply (inv_apart _ Hi).
Qed.

Lemma attrs_inv fs i g : tmpfs_inv fs → (i < TMPFS_INODE_MAX)%nat →
  (∀ n, same_place n (g n) ∧ ti_size (g n) = ti_size n ∧ ti_data_page (g n) = ti_data_page n) → tmpfs_inv (upd_inode i g fs).
Proof.
  intros Hi Hlt Hg. destruct (Hg (inode fs i)) as ((K1 & K2 & K3 & K4) & K5 & K6).
  assert (has_page (g (inode fs i)) = has_page (inode fs i)) as Hp by (unfold has_page; by rewrite K6).
  apply change_data; try done.
  - rewrite K5, K3. intros Ha. by apply (inv_linked _ Hi i Hlt Ha).
  - apply Hi.
  - intros j Hj _ Hj'. by apply (inv_paged _ Hi j Hj).
  - intros H. rewrite Hp in H. rewrite K2, K3, K6. by apply (inv_paged _ Hi i Hlt).
  - intros j Hj Hne. rewrite Hp, K6. intros H. by apply (inv_apart _ Hi i j).
  - rewrite Hp. lia.
  - apply Hi.
Qed.

Lemma touch_inv fs i now : tmpfs_inv fs → (i < TMPFS_INODE_MAX)%nat → tmpfs_inv (touch i now fs).
Proof. intros Hi Hlt. by apply attrs_inv. Qed.

Lemma max_pages : TMPFS_MAX_PAGES = 2.
Proof. done. Qed.

Lemma pages_total_pos fs i : (i < TMPFS_INODE_MAX)%nat → length (inodes fs) = TMPFS_INODE_MAX → has_page (inode fs i) = true →
  1 <= pages_total (inodes fs).
Proof.
  intros Hi Hl Hp. pose proof (zsum_elem (λ n, ind (has_page n)) (inodes fs) (inode fs i)) as H.
  cbv beta in H. rewrite Hp in H. apply H; [|apply Forall_true; intros n; apply ind_range].
  eapply list_elem_of_lookup_2. by apply inode_lookup.
Qed.

(** Giving up the page of an inode. *)
Lemma drop_page fs i : tmpfs_inv fs → (i < TMPFS_INODE_MAX)%nat → has_page (inode fs i) = true →
  let p := ti_data_page (inode fs i) in
  store_ok (core_free p (fs_core fs)) ∧
  (∀ j, (j < TMPFS_INODE_MAX)%nat → j ≠ i → has_page (inode fs j) = true → page_in_use (core_free p (fs_core fs)) (ti_data_page (inode fs j))) ∧
  u32 (data_pages_used fs - 1) = data_pages_used fs - 1 ∧ (∀ q o, byte_at (core_free p (fs_core fs)) q o = byte_at (fs_core fs) q o).
Proof.
  intros Hi Hlt Hp p. destruct (inv_paged _ Hi i Hlt Hp) as (_ & _ & Hu).
  destruct (store_free (fs_core fs) p (inv_store _ Hi) Hu) as (A & B & C). split_and!; try done.
  - intros j Hj Hne Hj'. apply C. split; [by apply (inv_paged _ Hi j Hj)|]. intros E.
    by apply (proj1 (inv_apart _ Hi j i Hj Hlt Hne) Hj').
  - pose proof (pages_total_pos fs i Hlt (inv_len _ Hi) Hp). pose proof (inv_used _ Hi). pose proof (inv_max _ Hi).
    apply (uN_small 32). pose proof max_pages. lia.
Qed.

Lemma inode_free_inv fs i : tmpfs_inv fs → (0 < i < TMPFS_INODE_MAX)%nat →
  (∀ j, (j < TMPFS_INODE_MAX)%nat → j ≠ i → ti_active (inode fs j) = true → ti_parent_ino (inode fs j) ≠ Z.of_nat i) →
  tmpfs_inv (inode_free i fs).
Proof.
  intros Hi Hlt Hnone. unfold inode_free. fold (has_page (inode fs i)).
  set (g := λ n, set_ti_size 0 (set_ti_data_page PAGE_ID_INVALID (set_ti_active false n))).
  assert (has_page (g (inode fs i)) = false) as Hg by (unfold has_page; cbn; by rewrite Z.eqb_refl).
  assert (∀ c used, store_ok c →
    (∀ j, (j < TMPFS_INODE_MAX)%nat → j ≠ i → has_page (inode fs j) = true → page_in_use c (ti_data_page (inode fs j))) →
    used = data_pages_used fs - ind (has_page (inode fs i)) → tmpfs_inv (Tmpfs (alter g i (inodes fs)) used c)) as Hall.
  { intros c used Hc Hpg ->. pose proof (inv_max _ Hi). pose proof (ind_range (has_page (inode fs i))).
    apply change_inode; try done; try lia.
    - intros Hh. by rewrite Hg in Hh.
    - intros j Hj Hne Ha Hpar. by destruct (Hnone j Hj Hne Ha).
    - intros j Hj Hne. split; [by rewrite Hg|done].
    - rewrite Hg. cbn. lia. }
  destruct (has_page (inode fs i)) eqn:Hp.
  - destruct (drop_page fs i Hi (proj2 Hlt) Hp) as (A & B & C & _). apply Hall; [done|done|]. cbn. lia.
  - apply Hall; [apply Hi|intros j Hj _ Hj'; by apply (inv_paged _ Hi j Hj)|]. cbn. lia.
Qed.

(** ** Entries *)

Definition is_entry fs (dir : Z) (nm : name) (i : nat) : Prop :=
  ti_active (inode fs i) = true ∧ ti_parent_ino (inode fs i) = dir ∧ ti_name (inode fs i) = nm.

Lemma find_entry_spec n i dir nm fs :
  match find_entry n i dir nm (inodes fs) with
  | Some j => (i <= j < i + n)%nat ∧ is_entry fs dir nm j
  | None => ∀ j, (i <= j < i + n)%nat → ¬ is_entry fs dir nm j
  end.
Proof.
  revert i. induction n as [|n IH]; intros i; cbn [find_entry]; [intros j Hj; lia|].
  change (inodes fs !!! i) with (inode fs i). destruct (_ && _) eqn:E.
  - apply andb_true_iff in E as [[E1 E2]%andb_true_iff E3]. apply Z.eqb_eq in E2. apply bool_decide_eq_true in E3.
    split; [lia|]. by split_and!.
  - specialize (IH (S i)). destruct (find_entry n (S i) dir nm (inodes fs)) as [j|].
    + destruct IH. split; [lia|done].
    + intros j Hj. destruct (decide (j = i)) as [->|]; [|apply IH; lia]. intros (E1 & E2 & E3).
      rewrite E1, E2, E3, Z.eqb_refl, bool_decide_eq_true_2 in E by done. done.
Qed.

Lemma tmpfs_find_spec dir nm fs :
  match tmpfs_find dir nm fs with
  | Some j => (j < TMPFS_INODE_MAX)%nat ∧ is_entry fs dir nm j
  | None => ∀ j, (j < TMPFS_INODE_MAX)%nat → ¬ is_entry fs dir nm j
  end.
Proof.
  pose proof (find_entry_spec TMPFS_INODE_MAX 0 dir nm fs) as H. unfold tmpfs_find.
  destruct (find_entry _ _ _ _ _); [destruct H; split; [lia|done]|]. intros j Hj. apply H. lia.
Qed.

(** Names are unique, so the search finds the entry there is. *)
Lemma tmpfs_find_unique dir nm fs i : tmpfs_inv fs → (i < TMPFS_INODE_MAX)%nat → is_entry fs dir nm i → tmpfs_find dir nm fs = Some i.
Proof.
  intros Hi Hlt (E1 & E2 & E3). pose proof (tmpfs_find_spec dir nm fs) as H. destruct (tmpfs_find dir nm fs) as [j|].
  - destruct H as (Hj & F1 & F2 & F3). f_equal. destruct (decide (j = i)) as [|Hne]; [done|].
    destruct (proj2 (inv_apart _ Hi j i Hj Hlt Hne) F1 E1); congruence.
  - by destruct (H i Hlt).
Qed.

Lemma entry_not_root dir nm fs i : tmpfs_inv fs → nm ≠ [] → is_entry fs dir nm i → i ≠ 0%nat.
Proof. intros Hi Hnm (_ & _ & E) ->. destruct (inv_root _ Hi) as (_ & _ & _ & E'). congruence. Qed.

Lemma inode_alloc_spec fs : let i := inode_alloc fs in
  if i <? 0 then ∀ j, (0 < j < TMPFS_INODE_MAX)%nat → ti_active (inode fs j) = true
  else (0 < Z.to_nat i < TMPFS_INODE_MAX)%nat ∧ ti_active (inode fs (Z.to_nat i)) = false.
Proof.
  assert (∀ n i, let r := inode_scan n i (inodes fs) in
    if r <? 0 then ∀ j, (i <= j < i + n)%nat → ti_active (inode fs j) = true
    else (i <= Z.to_nat r < i + n)%nat ∧ ti_active (inode fs (Z.to_nat r)) = false) as Hs.
  { induction n as [|n IH]; intros i; cbn [inode_scan]; cbn zeta; [cbn; intros j Hj; lia|].
    change (inodes fs !!! i) with (inode fs i). destruct (ti_active (inode fs i)) eqn:E.
    - specialize (IH (S i)). cbn zeta in IH. destruct (_ <? 0); [|destruct IH; split; [lia|done]].
      intros j Hj. destruct (decide (j = i)) as [->|]; [done|]. apply IH. lia.
    - destruct (Z.ltb_spec (Z.of_nat i) 0); [lia|]. rewrite Nat2Z.id. split; [lia|done]. }
  specialize (Hs (TMPFS_INODE_MAX - 1)%nat 1%nat). unfold inode_alloc. cbn zeta in *.
  destruct (_ <? 0); [|destruct Hs; split; [unfold TMPFS_INODE_MAX in *; lia|done]].
  intros j Hj. apply Hs. unfold TMPFS_INODE_MAX in *. lia.
Qed.

Definition good_entry (nm : name) : Prop := nm ≠ [] ∧ (length nm <= TMPFS_NAME_MAX)%nat.

Lemma str_copy_fits nm : (length nm <= TMPFS_NAME_MAX)%nat → str_copy nm (TMPFS_NAME_MAX + 1) = nm.
Proof. intros H. apply take_ge. lia. Qed.

Lemma new_entry_inv fs idx type fmt mode dir now nm : tmpfs_inv fs → (0 < idx < TMPFS_INODE_MAX)%nat → ti_active (inode fs idx) = false →
  good_entry nm → (dir < TMPFS_INODE_MAX)%nat → ti_active (inode fs dir) = true → ti_type (inode fs dir) = VNODE_DIR →
  tmpfs_find (Z.of_nat dir) nm fs = None → tmpfs_inv (new_entry idx type fmt mode (Z.of_nat dir) now nm fs).
Proof.
  intros Hi Hlt Hfree [Hn Hlen] Hd Hda Hdt Hnone. unfold new_entry. rewrite str_copy_fits by done. set (n' := Inode _ _ _ _ _ _ _ _ _ _).
  assert (has_page n' = false) as Hnp by (unfold has_page; cbn; by rewrite Z.eqb_refl).
  assert (has_page (inode fs idx) = false) as Hop.
  { destruct (has_page (inode fs idx)) eqn:E; [|done]. destruct (inv_paged _ Hi idx (proj2 Hlt) E). congruence. }
  assert (dir ≠ idx) as Hdi by congruence.
  apply (change_inode fs idx (λ _, n')); try done; try apply Hi; try lia.
  - intros j Hj _ Hj'. by apply (inv_paged _ Hi j Hj).
  - intros _. cbn [ti_size ti_name ti_parent_ino n']. rewrite Nat2Z.id.
    change (Tmpfs _ _ _) with (upd_inode idx (λ _, n') fs). rewrite inode_upd, decide_False by (done || apply Hi || lia).
    unfold PAGE_SIZE. split_and!; try done; lia.
  - intros Hp. congruence.
  - intros j Hj Hne Ha Hpar. destruct (inv_linked _ Hi j Hj Ha) as (_ & _ & _ & L4 & _). rewrite Hpar, Nat2Z.id in L4. congruence.
  - intros j Hj Hne. split; [congruence|]. intros _ Ha E1 E2. pose proof (tmpfs_find_spec (Z.of_nat dir) nm fs) as H.
    rewrite Hnone in H. by apply (H j Hj).
  - rewrite Hnp, Hop. cbn. lia.
Qed.

Lemma has_children_spec i fs : has_children i fs = false →
  ∀ j, (j < TMPFS_INODE_MAX)%nat → j ≠ i → ti_active (inode fs j) = true → ti_parent_ino (inode fs j) ≠ Z.of_nat i.
Proof.
  intros H j Hj Hne Ha E. enough (has_children i fs = true) by congruence. apply existsb_exists. exists j.
  split; [apply in_seq; lia|]. rewrite Ha, E, Z.eqb_refl. by destruct (Nat.eqb_spec j i).
Qed.

(** A file has no children either: it is nobody's directory. *)
Lemma removable i fs : tmpfs_inv fs → (i < TMPFS_INODE_MAX)%nat → is_dir i fs && has_children i fs = false →
  ∀ j, (j < TMPFS_INODE_MAX)%nat → j ≠ i → ti_active (inode fs j) = true → ti_parent_ino (inode fs j) ≠ Z.of_nat i.
Proof.
  intros Hi Hlt H. destruct (has_children i fs) eqn:Hc; [|by apply has_children_spec]. rewrite andb_true_r in H.
  apply bool_decide_eq_false in H. intros j Hj _ Ha E. destruct (inv_linked _ Hi j Hj Ha) as (_ & _ & _ & _ & L5 & _).
  by rewrite E, Nat2Z.id in L5.
Qed.

Lemma inode_free_other i j fs : length (inodes fs) = TMPFS_INODE_MAX → (i < TMPFS_INODE_MAX)%nat → j ≠ i →
  inode (inode_free i fs) j = inode fs j.
Proof.
  intros Hl Hi Hne. unfold inode_free.
  destruct (negb (ti_data_page (inode fs i) =? PAGE_ID_INVALID)); by rewrite inode_upd, decide_False by done.
Qed.

Lemma inode_free_at i fs : length (inodes fs) = TMPFS_INODE_MAX → (i < TMPFS_INODE_MAX)%nat →
  ti_active (inode (inode_free i fs) i) = false.
Proof.
  intros Hl Hi. unfold inode_free.
  destruct (negb (ti_data_page (inode fs i) =? PAGE_ID_INVALID)); by rewrite inode_upd, decide_True by done.
Qed.

(** Giving an entry another place, where its name is free. *)
Lemma relink_inv fs src dir now nm : tmpfs_inv fs → (0 < src < TMPFS_INODE_MAX)%nat → ti_active (inode fs src) = true →
  good_entry nm → (dir < TMPFS_INODE_MAX)%nat → ti_active (inode fs dir) = true → ti_type (inode fs dir) = VNODE_DIR → dir ≠ src →
  (∀ j, (j < TMPFS_INODE_MAX)%nat → j ≠ src → ¬ is_entry fs (Z.of_nat dir) nm j) →
  tmpfs_inv (upd_inode src (λ n, set_ti_name (str_copy nm (TMPFS_NAME_MAX + 1)) (set_ti_ctime now (set_ti_parent (Z.of_nat dir) n))) fs).
Proof.
  intros Hi Hlt Ha [Hn Hlen] Hd Hda Hdt Hne Hfree. rewrite str_copy_fits by done. set (g := λ n, set_ti_name nm (set_ti_ctime now (set_ti_parent (Z.of_nat dir) n))).
  assert (u32 (Z.of_nat dir) = Z.of_nat dir) as Hu by (apply (uN_small 32); unfold TMPFS_INODE_MAX in *; lia).
  assert (∀ j, ti_active (inode (upd_inode src g fs) j) = ti_active (inode fs j) ∧ ti_type (inode (upd_inode src g fs) j) = ti_type (inode fs j)) as Hsame.
  { intros j. rewrite inode_upd by (lia || apply Hi). by destruct (decide (j = src)) as [->|]. }
  apply change_inode; try done; try apply Hi; try lia.
  - intros j Hj _ Hj'. by apply (inv_paged _ Hi j Hj).
  - intros _. cbn [g ti_size ti_name ti_parent_ino set_ti_name set_ti_ctime set_ti_parent]. rewrite Hu, Nat2Z.id.
    destruct (inv_linked _ Hi src (proj2 Hlt) Ha) as (L1 & _). split_and!; try done; try lia.
    + change (ti_active (inode (upd_inode src g fs) dir) = true). by rewrite (proj1 (Hsame dir)).
    + change (ti_type (inode (upd_inode src g fs) dir) = VNODE_DIR). by rewrite (proj2 (Hsame dir)).
  - intros j Hj Hjs Hja Hpar. split; [done|]. destruct (inv_linked _ Hi j Hj Hja) as (_ & _ & _ & _ & L5 & _).
    by rewrite Hpar, Nat2Z.id in L5.
  - intros j Hj Hjs. split; [by apply (inv_apart _ Hi src j (proj2 Hlt) Hj)|]. intros _ Hja E1 E2.
    cbn in E1, E2. rewrite Hu in E1. by apply (Hfree j Hj Hjs).
  - change (has_page (g (inode fs src))) with (has_page (inode fs src)). lia.
Qed.

Lemma unlink_inv fs i : tmpfs_inv fs → (0 < i < TMPFS_INODE_MAX)%nat → is_dir i fs && has_children i fs = false → tmpfs_inv (inode_free i fs).
Proof. intros Hi Hlt Hr. apply inode_free_inv; [done|done|]. apply removable; [done|lia|done]. Qed.

(** ** Data *)

(** Writing into pages leaves the tables consistent. *)
Lemma core_inv fs c : tmpfs_inv fs → store_ok c → (∀ q, page_in_use c q ↔ page_in_use (fs_core fs) q) → tmpfs_inv (set_core c fs).
Proof.
  intros Hi Hc Hu. split; try apply Hi; try done. intros i Hlt Hp. destruct (inv_paged _ Hi i Hlt Hp) as (? & ? & ?).
  split_and!; [done|done|]. by apply Hu.
Qed.

Lemma alloc_inv fs i rc p c : tmpfs_inv fs → (i < TMPFS_INODE_MAX)%nat → ti_active (inode fs i) = true → ti_type (inode fs i) = VNODE_FILE →
  has_page (inode fs i) = false → data_pages_used fs < TMPFS_MAX_PAGES → core_alloc (fs_core fs) = (rc, p, c) →
  if rc <? 0 then tmpfs_inv (set_core c fs)
  else p ≠ PAGE_ID_INVALID ∧ ¬ page_in_use (fs_core fs) p ∧ store_ok c ∧ page_in_use c p ∧
    tmpfs_inv (set_pages_used (data_pages_used fs + 1) (set_core (core_zero p 0 PAGE_SIZE c) (upd_inode i (set_ti_data_page p) fs))).
Proof.
  intros Hi Hlt Ha Hty Hnp Hmax Halloc. destruct (store_alloc _ _ _ _ (inv_store _ Hi) Halloc) as (A & _ & C).
  destruct (rc <? 0); [by apply core_inv|]. destruct C as (C1 & C2 & C3). split_and!; [done|done|done|apply C3; by right|].
  destruct (store_zero c p 0 PAGE_SIZE A ltac:(apply C3; by right)) as (Z1 & Z2 & _); [unfold PAGE_SIZE; lia..|].
  pose proof max_pages. pose proof (inv_used _ Hi).
  assert (0 <= pages_total (inodes fs)) by (apply zsum_bound with (b := 1), Forall_true; intros; apply ind_range).
  assert (has_page (set_ti_data_page p (inode fs i)) = true) as Hp' by (unfold has_page; cbn; by destruct (Z.eqb_spec p PAGE_ID_INVALID)).
  assert (∀ j, (j < TMPFS_INODE_MAX)%nat → j ≠ i → has_page (inode fs j) = true → page_in_use (fs_core fs) (ti_data_page (inode fs j))) as Hu
    by (intros j Hj _ Hj'; by apply (inv_paged _ Hi j Hj)).
  apply (change_data fs i (set_ti_data_page p)); try done; rewrite ?Hnp, ?Hp'; cbn [ind].
  - intros _. by apply (inv_linked _ Hi i Hlt Ha).
  - intros j Hj Hne Hj'. apply Z2, C3. left. by apply Hu.
  - intros _. split_and!; [done|done|]. apply Z2, C3. by right.
  - intros j Hj Hne _ E. cbn in E. destruct (has_page (inode fs j)) eqn:Hj'.
    + apply C2. rewrite E. by apply Hu.
    + unfold has_page in Hj'. rewrite <- E in Hj'. by destruct (Z.eqb_spec p PAGE_ID_INVALID).
  - rewrite (uN_small 32) by lia. lia.
  - rewrite (uN_small 32) by lia. lia.
Qed.

Lemma size_inv fs i size : tmpfs_inv fs → (i < TMPFS_INODE_MAX)%nat → 0 <= size <= PAGE_SIZE → tmpfs_inv (upd_inode i (set_ti_size size) fs).
Proof.
  intros Hi Hlt Hs. assert (u32 size = size) as Hu by (apply (uN_small 32); unfold PAGE_SIZE in *; lia).
  apply (change_data fs i (set_ti_size size)); try done; try apply Hi.
  - intros _. cbn. by rewrite Hu.
  - intros j Hj _ Hj'. by apply (inv_paged _ Hi j Hj).
  - done.
  - intros j Hj Hne Hp. by apply (inv_apart _ Hi i j).
  - change (has_page (set_ti_size size (inode fs i))) with (has_page (inode fs i)). lia.
Qed.

Lemma free_page_inv fs i : tmpfs_inv fs → (i < TMPFS_INODE_MAX)%nat → has_page (inode fs i) = true →
  tmpfs_inv (set_pages_used (data_pages_used fs - 1)
    (upd_inode i (set_ti_data_page PAGE_ID_INVALID) (set_core (core_free (ti_data_page (inode fs i)) (fs_core fs)) fs))).
Proof.
  intros Hi Hlt Hp. destruct (drop_page fs i Hi Hlt Hp) as (A & B & C & _). pose proof (inv_max _ Hi).
  assert (has_page (set_ti_data_page PAGE_ID_INVALID (inode fs i)) = false) as Hp' by (unfold has_page; cbn; by rewrite Z.eqb_refl).
  apply (change_data fs i (set_ti_data_page PAGE_ID_INVALID)); try done; rewrite ?Hp, ?Hp'; cbn [ind]; try lia.
  - intros Ha. by apply (inv_linked _ Hi i Hlt Ha).
  - intros H'. congruence.
Qed.

(** ** The contents of files *)

Definition content fs (i : nat) (o : Z) : Z :=
  if has_page (inode fs i) then byte_at (fs_core fs) (ti_data_page (inode fs i)) o else 0.
Definition size_of fs (i : nat) : Z := ti_size (inode fs i).

Definition same_files fs fs' : Prop :=
  ∀ j, (j < TMPFS_INODE_MAX)%nat → size_of fs' j = size_of fs j ∧ ∀ o, 0 <= o < PAGE_SIZE → content fs' j o = content fs j o.

Lemma touch_same fs i now : tmpfs_inv fs → (i < TMPFS_INODE_MAX)%nat → same_files fs (touch i now fs).
Proof.
  intros Hi Hlt j Hj. unfold touch, size_of, content. rewrite inode_upd by (done || apply Hi).
  by destruct (decide (j = i)) as [->|].
Qed.

(** The user's bytes of a transfer, in a page no file owns. *)
Record user_buf fs (page page_off n : Z) : Prop := {
  ub_used : page_in_use (fs_core fs) page;
  ub_foreign : ∀ j, (j < TMPFS_INODE_MAX)%nat → has_page (inode fs j) = true → ti_data_page (inode fs j) ≠ page;
  ub_range : 0 <= page_off ∧ 0 <= n ∧ page_off + n <= PAGE_SIZE
}.
Definition user_byte fs (page page_off k : Z) : Z := byte_at (fs_core fs) page (page_off + k).

Lemma inode_touch fs i now j : tmpfs_inv fs → (i < TMPFS_INODE_MAX)%nat →
  same_place (inode fs j) (inode (touch i now fs) j) ∧ ti_data_page (inode (touch i now fs) j) = ti_data_page (inode fs j) ∧
  ti_size (inode (touch i now fs) j) = ti_size (inode fs j).
Proof.
  intros Hi Hlt. unfold touch. rewrite inode_upd by (done || apply Hi). by destruct (decide (j = i)) as [->|].
Qed.

Lemma write_page_spec fs i page page_off n : tmpfs_inv fs → (i < TMPFS_INODE_MAX)%nat → ti_active (inode fs i) = true →
  ti_type (inode fs i) = VNODE_FILE → user_buf fs page page_off n →
  let '(rc, fs') := write_page i fs in
  tmpfs_inv fs' ∧ same_files fs fs' ∧ user_buf fs' page page_off n ∧
  (∀ k, 0 <= k < n → user_byte fs' page page_off k = user_byte fs page page_off k) ∧
  (∀ j, same_place (inode fs j) (inode fs' j)) ∧
  if rc <? 0 then has_page (inode fs i) = false ∧ (rc = - ENOSPC ∧ data_pages_used fs = TMPFS_MAX_PAGES ∨ rc = - ENOMEM)
  else has_page (inode fs' i) = true.
Proof.
  intros Hi Hlt Ha Hty Hu. pose proof (inv_max _ Hi) as Hmax. unfold write_page.
  destruct (ti_data_page (inode fs i) =? PAGE_ID_INVALID) eqn:Hp.
  2:{ split_and!; try done. cbn. unfold has_page. by rewrite Hp. }
  assert (has_page (inode fs i) = false) as Hnp by (unfold has_page; by rewrite Hp).
  destruct (Z.leb_spec TMPFS_MAX_PAGES (data_pages_used fs)).
  { split_and!; try done. cbn. split; [done|]. left. split; [done|lia]. }
  destruct (core_alloc (fs_core fs)) as [[rc p] c] eqn:Halloc.
  pose proof (alloc_inv fs i rc p c Hi Hlt Ha Hty Hnp ltac:(lia) Halloc) as Hinv.
  destruct (store_alloc _ _ _ _ (inv_store _ Hi) Halloc) as (Hok & Hbytes & Huse). destruct Hu as [U1 U2 U3].
  destruct (rc <? 0).
  { split_and!; try done; [| |intros k _; apply Hbytes|split; [done|by right]].
    - intros j Hj. split; [done|]. intros o _. unfold content. change (inode (set_core c fs) j) with (inode fs j).
      destruct (has_page (inode fs j)); [apply Hbytes|done].
    - split; try done. by apply Huse. }
  destruct Hinv as (Hpi & Hfresh & _ & Hpu & Hinv). destruct Huse as (_ & _ & Huse).
  destruct (store_zero c p 0 PAGE_SIZE Hok Hpu) as (_ & Z2 & Z3); [unfold PAGE_SIZE; lia..|].
  set (fs' := set_pages_used _ _) in *.
  assert (∀ j, inode fs' j = if decide (j = i) then set_ti_data_page p (inode fs i) else inode fs j) as Hn
    by (intros j; apply (inode_upd fs i j _ (inv_len _ Hi) Hlt)).
  assert (∀ q x, page_in_use (fs_core fs) q → 0 <= x < PAGE_SIZE → byte_at (fs_core fs') q x = byte_at (fs_core fs) q x) as Hold.
  { intros q x Hq Hx. cbn [fs' fs_core set_pages_used set_core]. rewrite Z3 by (done || (apply Huse; by left)).
    rewrite decide_False; [apply Hbytes|]. intros [-> _]. done. }
  split_and!; [done| | | |intros j; rewrite Hn; by destruct (decide (j = i)) as [->|]|].
  - intros j Hj. unfold size_of, content. rewrite Hn. destruct (decide (j = i)) as [->|Hne].
    + split; [done|]. intros o Ho. rewrite Hnp. destruct (has_page (set_ti_data_page p (inode fs i))); [|done].
      change (byte_at (core_zero p 0 PAGE_SIZE c) p o = 0). rewrite Z3 by done. rewrite decide_True; [done|lia].
    + split; [done|]. intros o Ho. destruct (has_page (inode fs j)) eqn:E; [|done]. apply Hold; [|done].
      by apply (inv_paged _ Hi j Hj).
  - split; [apply Z2, Huse; by left| |done]. intros j Hj. rewrite Hn. destruct (decide (j = i)) as [->|]; [|by apply U2].
    intros _ E. cbn in E. by subst.
  - intros k Hk. apply Hold; [done|lia].
  - cbn [Z.ltb]. rewrite Hn, decide_True by done. unfold has_page. cbn. by destruct (Z.eqb_spec p PAGE_ID_INVALID).
Qed.

(** Storing [n] user bytes into the page of inode [i], and the size after it. *)
Lemma store_data fs i page page_off n off : tmpfs_inv fs → (i < TMPFS_INODE_MAX)%nat → has_page (inode fs i) = true →
  user_buf fs page page_off n → 0 <= off → off + n <= PAGE_SIZE →
  let fs' := set_core (page_copy (Z.to_nat (u16 n)) page page_off (ti_data_page (inode fs i)) off n 0 (fs_core fs)) fs in
  tmpfs_inv fs' ∧ ∀ j o, (j < TMPFS_INODE_MAX)%nat → 0 <= o < PAGE_SIZE →
    content fs' j o = if decide (j = i ∧ off <= o < off + n) then user_byte fs page page_off (o - off) else content fs j o.
Proof.
  intros Hi Hlt Hp [U1 U2 U3] Hoff Hn. destruct (inv_paged _ Hi i Hlt Hp) as (_ & _ & Hu).
  rewrite (uN_small 16) by (unfold PAGE_SIZE in *; lia).
  destruct (page_copy_wrote (Z.to_nat n) page page_off (ti_data_page (inode fs i)) off n 0 (fs_core fs)) as (W1 & W2 & W3);
    [apply Hi|done|done|by apply not_eq_sym, U2|lia..|].
  split; [by apply core_inv|]. intros j o Hj Ho. unfold content, user_byte. set (c := page_copy _ _ _ _ _ _ _ _) in *.
  change (inode (set_core c fs) j) with (inode fs j). change (fs_core (set_core c fs)) with c.
  destruct (has_page (inode fs j)) eqn:Hpj.
  - destruct (inv_paged _ Hi j Hj Hpj) as (_ & _ & Huj). rewrite W3 by done.
    destruct (decide (j = i)) as [->|Hne].
    + case_decide as D1; case_decide as D2; try done; try lia. f_equal. lia.
    + rewrite !decide_False; [done|tauto|]. intros [E _]. by apply (proj1 (inv_apart _ Hi j i Hj Hlt Hne) Hpj).
  - rewrite decide_False; [done|]. intros [-> _]. congruence.
Qed.

(** A vnode open on the regular file of inode [i]. *)
Definition file_at (st : vfs) (vn i : nat) : Prop :=
  vn_type (vnode st vn) = VNODE_FILE ∧ vn_ino (vnode st vn) = Z.of_nat i ∧ (i < TMPFS_INODE_MAX)%nat ∧
  ti_active (inode (fs_world st) i) = true ∧ ti_type (inode (fs_world st) i) = VNODE_FILE.

Lemma file_ino st vn i : file_at st vn i → ino st vn = i.
Proof. intros (_ & E & _). unfold ino. rewrite E. lia. Qed.

Lemma user_buf_touch fs i now page page_off n m : tmpfs_inv fs → (i < TMPFS_INODE_MAX)%nat → 0 <= m <= n →
  user_buf fs page page_off n → user_buf (touch i now fs) page page_off m.
Proof.
  intros Hi Hlt Hm [U1 U2 U3]. split; [done| |lia]. intros j Hj.
  destruct (inode_touch fs i now j Hi Hlt) as (_ & E & _). unfold has_page. rewrite E. by apply U2.
Qed.

Definition new_size_of fs (i : nat) (size : Z) (j : nat) : Z := if decide (j = i) then Z.max (size_of fs i) size else size_of fs j.

Lemma grow_spec fs i size : tmpfs_inv fs → (i < TMPFS_INODE_MAX)%nat → ti_active (inode fs i) = true → 0 <= size <= PAGE_SIZE →
  let fs' := if ti_size (inode fs i) <? size then upd_inode i (set_ti_size size) fs else fs in
  tmpfs_inv fs' ∧ ∀ j, (j < TMPFS_INODE_MAX)%nat → size_of fs' j = new_size_of fs i size j ∧ ∀ o, content fs' j o = content fs j o.
Proof.
  intros Hi Hlt Ha Hs fs'. unfold new_size_of, size_of. subst fs'. destruct (Z.ltb_spec (ti_size (inode fs i)) size).
  - split; [by apply size_inv|]. intros j Hj. unfold content. rewrite inode_upd by (done || apply Hi).
    destruct (decide (j = i)) as [->|]; [|done]. split; [|done]. cbn. rewrite (uN_small 32) by (unfold PAGE_SIZE in *; lia). lia.
  - split; [done|]. intros j Hj. split; [|done]. destruct (decide (j = i)) as [->|]; [lia|done].
Qed.

(** The result of [tmpfs_write], for a transfer within one page. *)
Definition write_outcome fs fs' (i : nat) (page page_off n off r : Z) : Prop :=
  if r <? 0 then same_files fs fs' ∧
    (r = - ENOSPC ∧ (PAGE_SIZE <= off ∧ PAGE_SIZE < off + n ∨ has_page (inode fs i) = false ∧ data_pages_used fs = TMPFS_MAX_PAGES) ∨
     r = - ENOMEM ∧ has_page (inode fs i) = false)
  else r = Z.min n (PAGE_SIZE - off) ∧ ∀ j, (j < TMPFS_INODE_MAX)%nat →
    size_of fs' j = new_size_of fs i (off + r) j ∧ ∀ o, 0 <= o < PAGE_SIZE →
    content fs' j o = if decide (j = i ∧ off <= o < off + r) then user_byte fs page page_off (o - off) else content fs j o.

Lemma write_data_spec fs0 st vn i page page_off n off : tmpfs_inv fs0 → (i < TMPFS_INODE_MAX)%nat →
  ti_active (inode fs0 i) = true → ti_type (inode fs0 i) = VNODE_FILE → user_buf fs0 page page_off n → 0 <= off → off + n <= PAGE_SIZE →
  let '(r, st') := write_data vn i page page_off n off fs0 st in
  tmpfs_inv (fs_world st') ∧ write_outcome fs0 (fs_world st') i page page_off n off r ∧ (r <? 0 = false → r = n).
Proof.
  intros Hi Hlt Ha Hty Hu Hoff Hn. pose proof (ub_range _ _ _ _ Hu) as Hr. unfold write_data.
  pose proof (write_page_spec fs0 i page page_off n Hi Hlt Ha Hty Hu) as Hw. destruct (write_page i fs0) as [rc fs1].
  destruct Hw as (Hi1 & Hsame & Hu1 & Hub & Hplace & Hrc). destruct (rc <? 0) eqn:Hneg.
  { split; [done|]. unfold write_outcome. rewrite Hneg. split; [|done]. split; [done|].
    destruct Hrc as [Hnp [[-> Hmax]| ->]]; [left; split; [done|by right]|by right]. }
  destruct (Hplace i) as (_ & _ & E3 & _). rewrite <- E3 in Ha.
  destruct (store_data fs1 i page page_off n off Hi1 Hlt Hrc Hu1 Hoff Hn) as [Hi2 Hc]. set (fs2 := set_core _ fs1) in *.
  change (ti_size (inode fs2 i)) with (ti_size (inode fs1 i)). assert (0 <= n < 2 ^ 31) by (unfold PAGE_SIZE in *; lia).
  assert (s32 n = n) as Hs32.
  { unfold sN. cbn zeta. rewrite (uN_small 32 n) by lia. by destruct (Z.ltb_spec n (2 ^ (32 - 1))); [|lia]. }
  assert (u32 (off + n) = off + n) as Hu32 by (apply (uN_small 32); unfold PAGE_SIZE in *; lia). rewrite Hs32, Hu32.
  destruct (grow_spec fs2 i (off + n) Hi2 Hlt Ha ltac:(lia)) as [Hi3 Hg].
  set (fs3 := if ti_size (inode fs2 i) <? off + n then _ else _) in *.
  assert (tmpfs_inv fs3 ∧ write_outcome fs0 fs3 i page page_off n off n ∧ ((n <? 0) = false → n = n)) as Hfin.
  { split; [done|]. split; [|done]. unfold write_outcome. destruct (Z.ltb_spec n 0); [lia|]. split; [lia|]. intros j Hj.
    destruct (Hg j Hj) as [G1 G2], (Hsame j Hj) as [S1 S2]. split.
    - rewrite G1. unfold new_size_of in *. change (size_of fs2 i) with (size_of fs1 i). change (size_of fs2 j) with (size_of fs1 j).
      by rewrite S1, (proj1 (Hsame i Hlt)).
    - intros o Ho. rewrite G2, Hc by done. rewrite S2 by done. case_decide as D; [|done]. apply Hub. lia. }
  subst fs3. change (ti_size (inode fs2 i)) with (ti_size (inode fs1 i)) in Hfin.
  by destruct (ti_size (inode fs1 i) <? off + n).
Qed.

Lemma touch_outcome fs i now page page_off n off r fs' : tmpfs_inv fs → (i < TMPFS_INODE_MAX)%nat →
  write_outcome (touch i now fs) fs' i page page_off n off r → write_outcome fs fs' i page page_off n off r.
Proof.
  intros Hi Hlt. pose proof (touch_same fs i now Hi Hlt) as Hs.
  destruct (inode_touch fs i now i Hi Hlt) as (_ & E & _). unfold write_outcome. destruct (r <? 0).
  - intros [Hf Hr]. split.
    + intros j Hj. destruct (Hf j Hj) as [F1 F2], (Hs j Hj) as [S1 S2]. split; [congruence|]. intros o Ho. by rewrite F2, S2.
    + unfold has_page in *. by rewrite E in Hr.
  - intros [-> Hf]. split; [done|]. intros j Hj. destruct (Hf j Hj) as [F1 F2], (Hs j Hj) as [S1 S2]. split.
    + rewrite F1. unfold new_size_of. by rewrite S1, (proj1 (Hs i Hlt)).
    + intros o Ho. by rewrite F2, S2.
Qed.

Lemma tmpfs_write_spec st vn i page page_off n off : tmpfs_inv (fs_world st) → file_at st vn i →
  user_buf (fs_world st) page page_off n → 0 <= off < 2 ^ 31 →
  let '(r, st') := tmpfs_write vn page page_off n off st in
  tmpfs_inv (fs_world st') ∧ write_outcome (fs_world st) (fs_world st') i page page_off n off r.
Proof.
  intros Hi Hf Hu Hoff. pose proof (file_ino _ _ _ Hf) as Hino. destruct Hf as (Hty & _ & Hlt & Ha & Hfty).
  pose proof (ub_range _ _ _ _ Hu) as Hr. unfold tmpfs_write. rewrite Hty, Hino, bool_decide_eq_false_2 by done.
  set (fs := fs_world st) in *. set (now := time_now_sec fs).
  pose proof (touch_inv fs i now Hi Hlt) as Hi1.
  destruct (inode_touch fs i now i Hi Hlt) as ((_ & P2 & P3 & _) & P5 & _). rewrite <- P3 in Ha. rewrite <- P2 in Hfty.
  rewrite (uN_small 32 (off + n)) by (unfold PAGE_SIZE in *; lia). unfold TMPFS_FILE_MAX.
  destruct (Z.ltb_spec PAGE_SIZE (off + n)) as [Hbig|Hsmall]; [destruct (Z.leb_spec PAGE_SIZE off) as [Hfar|Hnear]|].
  - split; [done|]. apply (touch_outcome fs i now); try done. unfold write_outcome. cbn [Z.ltb Z.opp ENOSPC Z.compare]. split; [done|].
    left. split; [done|]. by left.
  - rewrite (uN_small 32) by (unfold PAGE_SIZE in *; lia). set (m := PAGE_SIZE - off).
    pose proof (write_data_spec (touch i now fs) st vn i page page_off m off Hi1 Hlt Ha Hfty) as Hw.
    destruct (write_data _ _ _ _ _ _ _ _) as [r st']. destruct Hw as (A & B & C);
      [apply (user_buf_touch fs i now page page_off n); try done; lia|lia|lia|]. split; [done|].
    apply (touch_outcome fs i now); try done. unfold write_outcome in *. destruct (r <? 0).
    + destruct B as [B1 B2]. split; [done|]. destruct B2 as [[? [?|?]]|?]; [lia|left; split; [done|by right]|by right].
    + rewrite (C eq_refl) in *. split; [lia|]. apply B.
  - pose proof (write_data_spec (touch i now fs) st vn i page page_off n off Hi1 Hlt Ha Hfty) as Hw.
    destruct (write_data _ _ _ _ _ _ _ _) as [r st']. destruct Hw as (A & B & _);
      [apply (user_buf_touch fs i now page page_off n); try done; lia|lia|lia|]. split; [done|].
    by apply (touch_outcome fs i now).
Qed.

Lemma s32_page n : 0 <= n <= PAGE_SIZE → s32 n = n.
Proof.
  unfold PAGE_SIZE. intros Hn. unfold sN. cbn zeta. rewrite (uN_small 32 n) by lia. by destruct (Z.ltb_spec n (2 ^ (32 - 1))); [|lia].
Qed.

(** A core that differs in bytes of a page no file owns. *)
Lemma foreign_write fs c page off n f : tmpfs_inv fs → wrote (fs_core fs) c page off n f →
  (∀ j, (j < TMPFS_INODE_MAX)%nat → has_page (inode fs j) = true → ti_data_page (inode fs j) ≠ page) →
  tmpfs_inv (set_core c fs) ∧ same_files fs (set_core c fs).
Proof.
  intros Hi (W1 & W2 & W3) Hne. split; [by apply core_inv|]. intros j Hj. split; [done|]. intros o Ho. unfold content.
  change (inode (set_core c fs) j) with (inode fs j). destruct (has_page (inode fs j)) eqn:Hp; [|done].
  destruct (inv_paged _ Hi j Hj Hp) as (_ & _ & Hu). change (fs_core (set_core c fs)) with c. rewrite W3 by done.
  rewrite decide_False; [done|]. intros [E _]. by apply (Hne j Hj Hp).
Qed.

Lemma tmpfs_read_spec st vn i page page_off n off : tmpfs_inv (fs_world st) → file_at st vn i →
  user_buf (fs_world st) page page_off n → 0 <= off < 2 ^ 31 →
  let fs := fs_world st in
  let '(r, st') := tmpfs_read vn page page_off n off st in
  tmpfs_inv (fs_world st') ∧ same_files fs (fs_world st') ∧ r = Z.max 0 (Z.min n (size_of fs i - off)) ∧
  (∀ k, 0 <= k < r → user_byte (fs_world st') page page_off k = content fs i (off + k)) ∧
  (∀ x, 0 <= x < PAGE_SIZE → ¬ page_off <= x < page_off + r → byte_at (fs_core (fs_world st')) page x = byte_at (fs_core fs) page x).
Proof.
  intros Hi Hf [U1 U2 U3] Hoff. pose proof (file_ino _ _ _ Hf) as Hino. destruct Hf as (Hty & _ & Hlt & Ha & Hfty).
  unfold tmpfs_read. rewrite Hty, Hino, bool_decide_eq_false_2 by done. set (fs := fs_world st) in *.
  destruct (inv_linked _ Hi i Hlt Ha) as (Hsize & _). change (ti_size (inode fs i)) with (size_of fs i) in *.
  destruct (Z.leb_spec (size_of fs i) off) as [Hend|Hin].
  { split_and!; try done; [lia|intros k Hk; lia]. }
  rewrite (uN_small 32 (off + n)) by (unfold PAGE_SIZE in *; lia). rewrite (uN_small 32 (size_of fs i - off)) by (unfold PAGE_SIZE in *; lia).
  assert ((if size_of fs i <? off + n then size_of fs i - off else n) = Z.min n (size_of fs i - off)) as ->
    by (destruct (Z.ltb_spec (size_of fs i) (off + n)); lia).
  set (r := Z.min n (size_of fs i - off)). assert (0 <= r <= PAGE_SIZE) as Hr by lia. rewrite s32_page by lia.
  rewrite (uN_small 16 r) by (unfold PAGE_SIZE in *; lia). fold (has_page (inode fs i)).
  set (c := if has_page (inode fs i) then _ else _).
  assert (wrote (fs_core fs) c page page_off r (λ k, content fs i (off + k))) as Hw.
  { subst c. unfold content. destruct (has_page (inode fs i)) eqn:Hp.
    - destruct (inv_paged _ Hi i Hlt Hp) as (_ & _ & Hu).
      pose proof (page_copy_wrote (Z.to_nat r) (ti_data_page (inode fs i)) off page page_off r 0 (fs_core fs) (inv_store _ Hi) Hu U1) as H.
      rewrite !Z.add_0_r, Z.sub_0_r in H. apply H; try lia. by apply U2.
    - pose proof (zero_fill_wrote (Z.to_nat r) page page_off r 0 (fs_core fs) (inv_store _ Hi) U1) as H.
      rewrite Z.add_0_r, Z.sub_0_r in H. apply H; lia. }
  clearbody c. destruct (foreign_write fs c page page_off r _ Hi Hw U2) as [A B]. split_and!; [done|done|lia| |].
  - intros k Hk. destruct Hw as (_ & _ & W). unfold user_byte. change (fs_core (fs_world (set_world (set_core c fs) st))) with c.
    rewrite W by (done || lia). rewrite decide_True by lia. f_equal. lia.
  - intros x Hx Hnot. destruct Hw as (_ & _ & W). change (fs_core (fs_world (set_world (set_core c fs) st))) with c.
    rewrite W by (done || lia). by rewrite decide_False by lia.
Qed.

Lemma tmpfs_truncate_spec st vn i size : tmpfs_inv (fs_world st) → file_at st vn i → 0 <= size <= PAGE_SIZE →
  let fs := fs_world st in
  let '(r, st') := tmpfs_truncate vn size st in
  r = 0 ∧ tmpfs_inv (fs_world st') ∧ ∀ j, (j < TMPFS_INODE_MAX)%nat →
    size_of (fs_world st') j = (if decide (j = i) then size else size_of fs j) ∧
    ∀ o, content (fs_world st') j o = if decide (j = i ∧ size = 0) then 0 else content fs j o.
Proof.
  intros Hi Hf Hs. pose proof (file_ino _ _ _ Hf) as Hino. destruct Hf as (Hty & _ & Hlt & Ha & Hfty).
  unfold tmpfs_truncate. rewrite Hino, Hfty, bool_decide_eq_false_2 by done. set (fs := fs_world st) in *.
  fold (has_page (inode fs i)). set (fs1 := if (size =? 0) && has_page (inode fs i) then _ else fs).
  assert (tmpfs_inv fs1 ∧ ∀ j, (j < TMPFS_INODE_MAX)%nat → size_of fs1 j = size_of fs j ∧
    ∀ o, content fs1 j o = if decide (j = i ∧ size = 0) then 0 else content fs j o) as [Hi1 Hc1].
  { subst fs1. destruct (Z.eqb_spec size 0) as [Hz|Hz]; cbn [andb].
    - destruct (has_page (inode fs i)) eqn:Hp.
      + split; [by apply free_page_inv|]. intros j Hj. destruct (drop_page fs i Hi Hlt Hp) as (_ & _ & _ & Hb).
        set (fs2 := set_pages_used _ _).
        assert (inode fs2 j = if decide (j = i) then set_ti_data_page PAGE_ID_INVALID (inode fs i) else inode fs j) as Hn
          by apply (inode_upd fs i j _ (inv_len _ Hi) Hlt).
        unfold size_of, content. rewrite Hn. destruct (decide (j = i)) as [->|Hne].
        * split; [done|]. intros o. rewrite decide_True by done. unfold has_page. cbn. by rewrite Z.eqb_refl.
        * split; [done|]. intros o. rewrite decide_False by tauto. case_match; [apply Hb|done].
      + split; [done|]. intros j Hj. split; [done|]. intros o. case_decide as D; [|done]. destruct D as [-> _].
        unfold content. by rewrite Hp.
    - split; [done|]. intros j Hj. split; [done|]. intros o. rewrite decide_False by tauto. done. }
  clearbody fs1. split; [done|]. pose proof (size_inv fs1 i size Hi1 Hlt Hs) as Hi2. set (fs2 := upd_inode i _ fs1) in *.
  split; [by apply touch_inv|]. intros j Hj. change (fs_world (set_world ?f _)) with f.
  destruct (inode_touch fs2 i (time_now_sec fs2) j Hi2 Hlt) as (_ & E1 & E2).
  destruct (Hc1 j Hj) as [C1 C2].
  assert (inode fs2 j = if decide (j = i) then set_ti_size size (inode fs1 i) else inode fs1 j) as Hn
    by (apply inode_upd; [apply Hi1|done]).
  unfold size_of, content, has_page in *. cbn [fs_world set_world]. rewrite E1, E2, Hn. split.
  - destruct (decide (j = i)) as [->|]; [|done]. cbn. apply (uN_small 32). unfold PAGE_SIZE in *. lia.
  - intros o. rewrite <- C2. by destruct (decide (j = i)) as [->|].
Qed.

(** ** The operations on the vfs state *)

Lemma world_drop v (st : vfs) : fs_world (vnode_drop v st) = fs_world st.
Proof. unfold vnode_drop. by repeat case_match. Qed.

Lemma world_alloc (st : vfs) : match vfs_vnode_alloc st with (_, st') => fs_world st' = fs_world st end.
Proof. unfold vfs_vnode_alloc. by destruct (vnode_free st). Qed.

(** A referenced vnode of the directory of inode [d]. *)
Definition dir_at (st : vfs) (v d : nat) : Prop :=
  v ∉ vnode_free st ∧ vn_ino (vnode st v) = Z.of_nat d ∧ (d < TMPFS_INODE_MAX)%nat ∧
  ti_active (inode (fs_world st) d) = true ∧ ti_type (inode (fs_world st) d) = VNODE_DIR.

Lemma dir_alloc st v d vn st' : dir_at st v d → vfs_vnode_alloc st = (vn, st') →
  vn_ino (vnode st' v) = Z.of_nat d ∧ fs_world st' = fs_world st.
Proof.
  intros (Hfree & Hino & _) Ha. unfold vfs_vnode_alloc in Ha. destruct (vnode_free st) as [|w l]; simplify_eq; [done|]. split; [|done].
  rewrite <- Hino. unfold vnode, upd_vnode. cbn [vnodes]. rewrite !list_lookup_total_alt, list_lookup_alter_ne; [done|].
  intros ->. apply Hfree. by left.
Qed.

(** The world after [create] and [mkdir], which differ in the vnode only. *)
Definition add_entry (type : vnode_type_t) (fmt mode : Z) (d : nat) (nm : name) fs : Z * tmpfs_t :=
  match tmpfs_find (Z.of_nat d) nm fs with
  | Some _ => (- EEXIST, fs)
  | None =>
      let idx := inode_alloc fs in
      if idx <? 0 then (- ENOSPC, fs)
      else
        let now := time_now_sec fs in
        (0, touch d now (new_entry (Z.to_nat idx) type fmt mode (Z.of_nat d) now nm fs))
  end.

Lemma create_world st dir d nm mode : dir_at st dir d →
  let '(rc, res, st') := tmpfs_create dir nm mode st in
  if decide (vnode_free st = []) then rc = - ENOMEM ∧ res = None ∧ fs_world st' = fs_world st
  else (rc, fs_world st') = add_entry VNODE_FILE S_IFREG mode d nm (fs_world st) ∧ (rc = 0 ↔ is_Some res).
Proof.
  intros Hd. unfold tmpfs_create. destruct (vfs_vnode_alloc st) as [[vn|] st1] eqn:Ha.
  2:{ unfold vfs_vnode_alloc in Ha. destruct (vnode_free st) eqn:E; simplify_eq. by rewrite decide_True. }
  assert (vnode_free st ≠ []) as Hne by (intros E; unfold vfs_vnode_alloc in Ha; by rewrite E in Ha).
  destruct (dir_alloc _ _ _ _ _ Hd Ha) as [-> Hw]. rewrite Hw, Nat2Z.id. unfold add_entry.
  destruct (tmpfs_find _ _ _); [|destruct (_ <? 0)]; cbn [vfs_vnode_release]; rewrite decide_False by done; rewrite ?world_drop, ?Hw;
    (split; [done|]); split; try done; by intros [].
Qed.

Lemma mkdir_world st dir d nm mode : dir_at st dir d →
  let '(rc, st') := tmpfs_mkdir dir nm mode st in (rc, fs_world st') = add_entry VNODE_DIR S_IFDIR mode d nm (fs_world st).
Proof.
  intros (_ & Hino & _). unfold tmpfs_mkdir, add_entry. rewrite Hino, Nat2Z.id.
  destruct (tmpfs_find _ _ _); [done|]. by destruct (_ <? 0).
Qed.

Lemma add_entry_inv type fmt mode d nm fs rc fs' : tmpfs_inv fs → good_entry nm → (d < TMPFS_INODE_MAX)%nat →
  ti_active (inode fs d) = true → ti_type (inode fs d) = VNODE_DIR → add_entry type fmt mode d nm fs = (rc, fs') → tmpfs_inv fs'.
Proof.
  intros Hi Hg Hd Ha Hty. unfold add_entry. destruct (tmpfs_find _ _ _) eqn:Hf; [by intros [= _ <-]|].
  pose proof (inode_alloc_spec fs) as Hal. cbn zeta in Hal. destruct (_ <? 0); intros [= _ <-]; [done|].
  destruct Hal. apply touch_inv; [|done]. by apply new_entry_inv.
Qed.

Definition unlink_entry (d : nat) (nm : name) fs : Z * tmpfs_t :=
  match tmpfs_find (Z.of_nat d) nm fs with
  | None => (- ENOENT, fs)
  | Some i => if is_dir i fs && has_children i fs then (- ENOTEMPTY, fs) else (0, touch d (time_now_sec (inode_free i fs)) (inode_free i fs))
  end.

Lemma unlink_world st dir d nm : dir_at st dir d →
  let '(rc, st') := tmpfs_unlink dir nm st in (rc, fs_world st') = unlink_entry d nm (fs_world st).
Proof.
  intros (_ & Hino & _). unfold tmpfs_unlink, unlink_entry. rewrite Hino, Nat2Z.id.
  destruct (tmpfs_find _ _ _); [|done]. by destruct (_ && _).
Qed.

Lemma unlink_entry_inv d nm fs rc fs' : tmpfs_inv fs → nm ≠ [] → (d < TMPFS_INODE_MAX)%nat → unlink_entry d nm fs = (rc, fs') → tmpfs_inv fs'.
Proof.
  intros Hi Hnm Hd. unfold unlink_entry. pose proof (tmpfs_find_spec (Z.of_nat d) nm fs) as Hf.
  destruct (tmpfs_find _ _ _) as [i|]; [|by intros [= _ <-]]. destruct Hf as [Hlt He].
  pose proof (entry_not_root _ _ _ _ Hi Hnm He). destruct (_ && _) eqn:Hr; intros [= _ <-]; [done|].
  apply touch_inv; [|done]. apply unlink_inv; [done|lia|done].
Qed.

Definition rename_entry (od : nat) (old : name) (nd : nat) (new : name) fs : Z * tmpfs_t :=
  match tmpfs_find (Z.of_nat od) old fs with
  | None => (- ENOENT, fs)
  | Some src =>
      let target := tmpfs_find (Z.of_nat nd) new fs in
      if from_option (λ i, is_dir i fs && has_children i fs) false target then (- ENOTEMPTY, fs)
      else
        let fs := from_option (λ i, inode_free i fs) fs target in
        let now := time_now_sec fs in
        let fs := upd_inode src (λ n, set_ti_name (str_copy new (TMPFS_NAME_MAX + 1)) (set_ti_ctime now (set_ti_parent (Z.of_nat nd) n))) fs in
        let fs := touch od now fs in
        (0, if negb (Z.of_nat nd =? Z.of_nat od) then touch nd now fs else fs)
  end.

Lemma rename_world st odir od old ndir nd new : dir_at st odir od → dir_at st ndir nd →
  let '(rc, st') := tmpfs_rename odir old ndir new st in (rc, fs_world st') = rename_entry od old nd new (fs_world st).
Proof.
  intros (_ & Ho & _) (_ & Hn & _). unfold tmpfs_rename, rename_entry. rewrite Ho, Hn, !Nat2Z.id.
  destruct (tmpfs_find (Z.of_nat od) _ _); [|done]. by destruct (from_option _ _ _).
Qed.

(** What the code leaves to its callers: an entry is not renamed onto itself,
    nor moved into itself. *)
Definition rename_guard (od : nat) (old : name) (nd : nat) (new : name) fs : Prop :=
  (od, old) ≠ (nd, new) ∧ tmpfs_find (Z.of_nat od) old fs ≠ Some nd.

Lemma rename_target fs od old nd new src : tmpfs_inv fs → (od < TMPFS_INODE_MAX)%nat → (nd < TMPFS_INODE_MAX)%nat →
  ti_active (inode fs nd) = true → old ≠ [] → good_entry new → rename_guard od old nd new fs →
  tmpfs_find (Z.of_nat od) old fs = Some src →
  let target := tmpfs_find (Z.of_nat nd) new fs in
  from_option (λ i, is_dir i fs && has_children i fs) false target = false →
  let fs1 := from_option (λ i, inode_free i fs) fs target in
  tmpfs_inv fs1 ∧ (0 < src < TMPFS_INODE_MAX)%nat ∧ nd ≠ src ∧ inode fs1 src = inode fs src ∧ inode fs1 nd = inode fs nd ∧
  (∀ j, (j < TMPFS_INODE_MAX)%nat → ti_active (inode fs1 j) = true → inode fs1 j = inode fs j ∧ target ≠ Some j) ∧
  (∀ j, (j < TMPFS_INODE_MAX)%nat → target ≠ Some j → inode fs1 j = inode fs j).
Proof.
  intros Hi Hod Hnd Hna Hold [Hnew _] [Hself Hinto] Hsrc target Hempty fs1.
  pose proof (tmpfs_find_spec (Z.of_nat od) old fs) as He. rewrite Hsrc in He. destruct He as [Hslt He].
  pose proof (entry_not_root _ _ _ _ Hi Hold He). assert (nd ≠ src) by (intros ->; by rewrite Hsrc in Hinto).
  pose proof (tmpfs_find_spec (Z.of_nat nd) new fs) as Ht. subst fs1. subst target.
  destruct (tmpfs_find (Z.of_nat nd) new fs) as [i|]; cbn [from_option] in *.
  2:{ split_and!; try done; try lia. }
  destruct Ht as [Hlt Ht]. pose proof (entry_not_root _ _ _ _ Hi Hnew Ht). pose proof (inv_len _ Hi) as Hl.
  assert (src ≠ i) as Hsi.
  { intros ->. destruct He as (_ & E1 & E2), Ht as (_ & E3 & E4). apply Hself. f_equal; [|congruence]. lia. }
  assert (nd ≠ i) as Hni.
  { intros ->. destruct Ht as (Ha & E & _). destruct (inv_linked _ Hi i Hlt Ha) as (_ & _ & _ & _ & _ & L6). rewrite E, Nat2Z.id in L6. by apply L6. }
  split_and!; try done; try lia.
  - apply unlink_inv; [done|lia|done].
  - by apply inode_free_other.
  - by apply inode_free_other.
  - intros j Hj Ha. destruct (decide (j = i)) as [->|Hne]; [by rewrite inode_free_at in Ha|]. split; [by apply inode_free_other|congruence].
  - intros j Hj Hne. apply inode_free_other; [done|done|congruence].
Qed.

Definition relink (nd : nat) (new : name) (now : Z) (n : tmpfs_inode_t) : tmpfs_inode_t :=
  set_ti_name (str_copy new (TMPFS_NAME_MAX + 1)) (set_ti_ctime now (set_ti_parent (Z.of_nat nd) n)).

Lemma relinked_inv fs od old nd new src now : tmpfs_inv fs → (od < TMPFS_INODE_MAX)%nat → (nd < TMPFS_INODE_MAX)%nat →
  ti_active (inode fs nd) = true → ti_type (inode fs nd) = VNODE_DIR → old ≠ [] → good_entry new → rename_guard od old nd new fs →
  tmpfs_find (Z.of_nat od) old fs = Some src →
  let target := tmpfs_find (Z.of_nat nd) new fs in
  from_option (λ i, is_dir i fs && has_children i fs) false target = false →
  tmpfs_inv (upd_inode src (relink nd new now) (from_option (λ i, inode_free i fs) fs target)).
Proof.
  intros Hi Hod Hnd Hna Hnt Hold Hnew Hguard Hsrc target Hempty.
  pose proof (tmpfs_find_spec (Z.of_nat od) old fs) as He. rewrite Hsrc in He. destruct He as [_ He].
  destruct (rename_target fs od old nd new src Hi Hod Hnd Hna Hold Hnew Hguard Hsrc Hempty) as (H1 & H2 & H3 & H4 & H5 & H6 & _).
  fold target in H1, H4, H5, H6. set (fs1 := from_option (λ i, inode_free i fs) fs target) in *.
  apply relink_inv; try done; [rewrite H4; apply He|by rewrite H5|by rewrite H5|].
  intros j Hj Hjs Hej. destruct (H6 j Hj (proj1 Hej)) as [Hsame Hnt'].
  apply Hnt'. apply tmpfs_find_unique; [done|done|]. unfold is_entry in *. by rewrite Hsame in Hej.
Qed.

Lemma rename_entry_inv od old nd new fs rc fs' : tmpfs_inv fs → (od < TMPFS_INODE_MAX)%nat → (nd < TMPFS_INODE_MAX)%nat →
  ti_active (inode fs nd) = true → ti_type (inode fs nd) = VNODE_DIR → old ≠ [] → good_entry new →
  rename_guard od old nd new fs → rename_entry od old nd new fs = (rc, fs') → tmpfs_inv fs'.
Proof.
  intros Hi Hod Hnd Hna Hnt Hold Hnew Hguard. unfold rename_entry.
  destruct (tmpfs_find (Z.of_nat od) old fs) as [src|] eqn:Hsrc; [|by intros [= _ <-]]. cbn zeta.
  destruct (from_option _ _ _) eqn:Hempty; intros [= _ <-]; [done|].
  set (fs1 := from_option (λ i, inode_free i fs) fs _) in *. set (now := time_now_sec fs1).
  pose proof (relinked_inv fs od old nd new src now Hi Hod Hnd Hna Hnt Hold Hnew Hguard Hsrc Hempty) as Hr. fold fs1 in Hr.
  pose proof (touch_inv _ od now Hr Hod). destruct (negb _); [|done]. by apply touch_inv.
Qed.

(** ** The name space as a map *)

Definition entry fs (d : nat) (nm : name) : option nat := tmpfs_find (Z.of_nat d) nm fs.

Lemma entry_char fs d nm r : tmpfs_inv fs →
  match r with
  | Some i => (i < TMPFS_INODE_MAX)%nat ∧ is_entry fs (Z.of_nat d) nm i
  | None => ∀ j, (j < TMPFS_INODE_MAX)%nat → ¬ is_entry fs (Z.of_nat d) nm j
  end → entry fs d nm = r.
Proof.
  intros Hi Hr. unfold entry. destruct r as [i|]; [destruct Hr; by apply tmpfs_find_unique|].
  pose proof (tmpfs_find_spec (Z.of_nat d) nm fs) as H. destruct (tmpfs_find _ _ _) as [j|]; [|done]. destruct H. by destruct (Hr j).
Qed.

(** The entries stay where no inode changes its place. *)
Lemma entry_ext fs fs' d nm : tmpfs_inv fs' →
  (∀ j, (j < TMPFS_INODE_MAX)%nat → is_entry fs' (Z.of_nat d) nm j ↔ is_entry fs (Z.of_nat d) nm j) → entry fs' d nm = entry fs d nm.
Proof.
  intros Hi' He. apply entry_char; [done|]. pose proof (tmpfs_find_spec (Z.of_nat d) nm fs) as H. unfold entry.
  destruct (tmpfs_find _ _ _) as [i|]; [destruct H; split; [done|by apply He]|]. intros j Hj Hje. apply (H j Hj). by apply He.
Qed.

Lemma touch_entry fs i now d nm j : tmpfs_inv fs → (i < TMPFS_INODE_MAX)%nat →
  is_entry (touch i now fs) (Z.of_nat d) nm j ↔ is_entry fs (Z.of_nat d) nm j.
Proof.
  intros Hi Hlt. destruct (inode_touch fs i now j Hi Hlt) as ((E1 & _ & E3 & E4) & _). unfold is_entry. by rewrite E1, E3, E4.
Qed.

Lemma add_entry_spec type fmt mode d nm fs rc fs' : tmpfs_inv fs → good_entry nm → (d < TMPFS_INODE_MAX)%nat →
  ti_active (inode fs d) = true → ti_type (inode fs d) = VNODE_DIR → add_entry type fmt mode d nm fs = (rc, fs') →
  if rc =? 0 then entry fs d nm = None ∧ ∃ i,
    ti_active (inode fs i) = false ∧ (∀ d' nm', entry fs' d' nm' = if decide ((d', nm') = (d, nm)) then Some i else entry fs d' nm') ∧
    ti_type (inode fs' i) = type ∧ size_of fs' i = 0 ∧ ∀ o, content fs' i o = 0
  else fs' = fs ∧ (rc = - EEXIST ∧ is_Some (entry fs d nm) ∨
    rc = - ENOSPC ∧ entry fs d nm = None ∧ ∀ j, (j < TMPFS_INODE_MAX)%nat → ti_active (inode fs j) = true).
Proof.
  intros Hi Hg Hd Ha Hty Hadd. pose proof (add_entry_inv _ _ _ _ _ _ _ _ Hi Hg Hd Ha Hty Hadd) as Hi'. revert Hadd. unfold add_entry, entry.
  destruct (tmpfs_find (Z.of_nat d) nm fs) eqn:Hf; [intros [= <- <-]; split; [done|by left]|].
  pose proof (inode_alloc_spec fs) as Hal. cbn zeta in Hal. destruct (inode_alloc fs <? 0).
  { intros [= <- <-]. split; [done|]. right. split_and!; [done|done|]. intros j Hj.
    destruct (decide (j = 0)%nat) as [->|]; [apply (inv_root _ Hi)|apply Hal; lia]. }
  destruct Hal as [Hlt Hfree]. set (idx := Z.to_nat (inode_alloc fs)) in *. set (now := time_now_sec fs).
  intros [= <- <-]. change (0 =? 0) with true. cbn iota. split; [done|]. exists idx.
  pose proof (new_entry_inv fs idx type fmt mode d now nm Hi Hlt Hfree Hg Hd Ha Hty Hf) as Hi1. set (fs1 := new_entry _ _ _ _ _ _ _ _) in *.
  destruct Hg as [_ Hlen].
  assert (∀ j, inode fs1 j = if decide (j = idx) then
    Inode nm type true (Z.lor fmt (Z.land mode 511)) 0 (Z.of_nat d) PAGE_ID_INVALID (u32 now) (u32 now) (u32 now) else inode fs j) as Hn.
  { intros j. subst fs1. unfold new_entry. rewrite inode_upd by (lia || apply Hi). by rewrite str_copy_fits. }
  destruct (inode_touch fs1 d now idx Hi1 Hd) as ((_ & T2 & _) & T5 & T6). pose proof (Hn idx) as Hx. rewrite decide_True in Hx by done.
  split; [done|]. split; [|split; [by rewrite T2, Hx|split; [unfold size_of; by rewrite T6, Hx|]]].
  - intros d' nm'. case_decide as D.
    + simplify_eq. apply entry_char; [done|]. split; [lia|]. rewrite touch_entry by done. unfold is_entry. by rewrite Hx.
    + apply entry_ext; [done|]. intros j Hj. rewrite touch_entry by done. unfold is_entry. rewrite Hn. destruct (decide (j = idx)) as [->|]; [|done].
      cbn. rewrite Hfree. split; [|by intros []]. intros (_ & E1 & E2). destruct D. f_equal; [lia|done].
  - intros o. unfold content, has_page. rewrite T5, Hx. cbn. by rewrite Z.eqb_refl.
Qed.

Lemma unlink_entry_spec d nm fs rc fs' : tmpfs_inv fs → nm ≠ [] → (d < TMPFS_INODE_MAX)%nat → unlink_entry d nm fs = (rc, fs') →
  if rc =? 0 then is_Some (entry fs d nm) ∧ ∀ d' nm', entry fs' d' nm' = if decide ((d', nm') = (d, nm)) then None else entry fs d' nm'
  else fs' = fs ∧ (rc = - ENOENT ∧ entry fs d nm = None ∨ rc = - ENOTEMPTY ∧
    ∃ i j, entry fs d nm = Some i ∧ (j < TMPFS_INODE_MAX)%nat ∧ ti_active (inode fs j) = true ∧ ti_parent_ino (inode fs j) = Z.of_nat i).
Proof.
  intros Hi Hnm Hd Hun. pose proof (unlink_entry_inv _ _ _ _ _ Hi Hnm Hd Hun) as Hi'. revert Hun. unfold unlink_entry, entry.
  pose proof (tmpfs_find_spec (Z.of_nat d) nm fs) as Hf. destruct (tmpfs_find (Z.of_nat d) nm fs) as [i|] eqn:Hfi.
  2:{ intros [= <- <-]. split; [done|by left]. }
  destruct Hf as [Hlt He]. pose proof (entry_not_root _ _ _ _ Hi Hnm He). destruct (is_dir i fs && has_children i fs) eqn:Hr; intros [= <- <-].
  - split; [done|]. right. split; [done|]. exists i. apply andb_true_iff in Hr as [_ Hr]. apply existsb_exists in Hr as (j & Hj & Hc).
    apply andb_true_iff in Hc as [[_ Hc1]%andb_true_iff Hc2]. exists j. apply in_seq in Hj. split_and!; [done|lia|done|lia].
  - change (0 =? 0) with true. cbn iota. split; [by eexists|]. intros d' nm'.
    pose proof (unlink_inv fs i Hi ltac:(lia) Hr) as Hi1.
    assert (∀ j, (j < TMPFS_INODE_MAX)%nat → is_entry (inode_free i fs) (Z.of_nat d') nm' j ↔ j ≠ i ∧ is_entry fs (Z.of_nat d') nm' j) as Hn.
    { intros j Hj. unfold is_entry. destruct (decide (j = i)) as [->|Hne].
      - rewrite inode_free_at by (done || apply Hi). split; [by intros []|by intros []].
      - rewrite inode_free_other by (done || apply Hi). tauto. }
    case_decide as D.
    + simplify_eq. apply entry_char; [done|]. intros j Hj. rewrite touch_entry, Hn by done. intros [Hne Hje].
      pose proof (tmpfs_find_unique _ _ _ _ Hi Hj Hje). congruence.
    + apply entry_ext; [done|]. intros j Hj. rewrite touch_entry, Hn by done. split; [tauto|]. intros Hje. split; [|done]. intros ->.
      destruct Hje as (_ & E1 & E2), He as (_ & E3 & E4). apply D. f_equal; [lia|congruence].
Qed.

(** The entries after the target is gone and the source is relinked. *)
Lemma relinked_entry fs od old nd new src now d nm j : tmpfs_inv fs → (od < TMPFS_INODE_MAX)%nat → (nd < TMPFS_INODE_MAX)%nat →
  ti_active (inode fs nd) = true → old ≠ [] → good_entry new → rename_guard od old nd new fs → tmpfs_find (Z.of_nat od) old fs = Some src →
  from_option (λ i, is_dir i fs && has_children i fs) false (tmpfs_find (Z.of_nat nd) new fs) = false → (j < TMPFS_INODE_MAX)%nat →
  is_entry (upd_inode src (relink nd new now) (from_option (λ i, inode_free i fs) fs (tmpfs_find (Z.of_nat nd) new fs))) (Z.of_nat d) nm j ↔
  j = src ∧ (d, nm) = (nd, new) ∨ j ≠ src ∧ tmpfs_find (Z.of_nat nd) new fs ≠ Some j ∧ is_entry fs (Z.of_nat d) nm j.
Proof.
  intros Hi Hod Hnd Hna Hold Hnew Hguard Hsrc Hempty Hj.
  destruct (rename_target fs od old nd new src Hi Hod Hnd Hna Hold Hnew Hguard Hsrc Hempty) as (H1 & H2 & H3 & H4 & H5 & H6 & H7).
  pose proof (tmpfs_find_spec (Z.of_nat od) old fs) as He. rewrite Hsrc in He. destruct He as [_ (Ha & _)].
  set (fs1 := from_option (λ i, inode_free i fs) fs _) in *. unfold is_entry. rewrite inode_upd by (lia || apply H1).
  destruct (decide (j = src)) as [->|Hne].
  - rewrite H4. destruct Hnew as [_ Hlen]. unfold relink. rewrite str_copy_fits by done. cbn. rewrite Ha, (uN_small 32) by (done || unfold TMPFS_INODE_MAX in *; lia).
    split; [intros (_ & E1 & E2); left; split; [done|]; f_equal; [lia|done]|].
    intros [[_ E]|[E _]]; [|done]. by simplify_eq.
  - split.
    + intros Hje. destruct (H6 j Hj (proj1 Hje)) as [E Ht]. rewrite E in Hje. right. split; [done|]. by split.
    + intros [[E _]|(_ & Ht & Hje)]; [done|]. by rewrite (H7 j Hj Ht).
Qed.

Lemma rename_entry_spec od old nd new fs rc fs' : tmpfs_inv fs → (od < TMPFS_INODE_MAX)%nat → (nd < TMPFS_INODE_MAX)%nat →
  ti_active (inode fs nd) = true → ti_type (inode fs nd) = VNODE_DIR → old ≠ [] → good_entry new →
  rename_guard od old nd new fs → rename_entry od old nd new fs = (rc, fs') →
  if rc =? 0 then ∃ src, entry fs od old = Some src ∧ ∀ d nm, entry fs' d nm =
    if decide ((d, nm) = (nd, new)) then Some src else if decide ((d, nm) = (od, old)) then None else entry fs d nm
  else fs' = fs ∧ (rc = - ENOENT ∧ entry fs od old = None ∨ rc = - ENOTEMPTY ∧ is_Some (entry fs nd new)).
Proof.
  intros Hi Hod Hnd Hna Hnt Hold Hnew Hguard Hren.
  pose proof (rename_entry_inv _ _ _ _ _ _ _ Hi Hod Hnd Hna Hnt Hold Hnew Hguard Hren) as Hi'. revert Hren. unfold rename_entry, entry.
  destruct (tmpfs_find (Z.of_nat od) old fs) as [src|] eqn:Hsrc; [|by intros [= <- <-]; split; [done|left]]. cbn zeta.
  destruct (from_option _ _ (tmpfs_find (Z.of_nat nd) new fs)) eqn:Hempty.
  { intros [= <- <-]. split; [done|]. right. split; [done|]. by destruct (tmpfs_find (Z.of_nat nd) new fs). }
  pose proof (tmpfs_find_spec (Z.of_nat od) old fs) as He. rewrite Hsrc in He. destruct He as [Hslt He].
  set (fs1 := from_option (λ i, inode_free i fs) fs _). set (now := time_now_sec fs1). set (fs2 := upd_inode src _ fs1).
  intros [= <- <-]. change (0 =? 0) with true. cbn iota. exists src. split; [done|]. intros d nm.
  pose proof (relinked_inv fs od old nd new src now Hi Hod Hnd Hna Hnt Hold Hnew Hguard Hsrc Hempty) as Hi2.
  change (tmpfs_inv fs2) in Hi2.
  assert (∀ j, (j < TMPFS_INODE_MAX)%nat → is_entry (if negb (Z.of_nat nd =? Z.of_nat od) then touch nd now (touch od now fs2) else touch od now fs2)
    (Z.of_nat d) nm j ↔ j = src ∧ (d, nm) = (nd, new) ∨ j ≠ src ∧ tmpfs_find (Z.of_nat nd) new fs ≠ Some j ∧ is_entry fs (Z.of_nat d) nm j) as Hn.
  { intros j Hj. rewrite <- (relinked_entry fs od old nd new src now d nm j) by done.
    change (upd_inode src (relink nd new now) _) with fs2.
    destruct (negb _); rewrite ?touch_entry by (done || by apply touch_inv); done. }
  pose proof (tmpfs_find_spec (Z.of_nat nd) new fs) as Ht.
  destruct (decide ((d, nm) = (nd, new))) as [D|D]; [|destruct (decide ((d, nm) = (od, old))) as [D'|D']].
  - apply entry_char; [done|]. split; [done|]. apply Hn; [done|]. by left.
  - apply entry_char; [done|]. intros j Hj Hje. apply Hn in Hje as [[_ E]|(Hne & _ & Hje)]; [by destruct D| |done].
    injection D' as -> ->. pose proof (tmpfs_find_unique _ _ _ _ Hi Hj Hje). congruence.
  - apply entry_ext; [done|]. intros j Hj. rewrite Hn by done. split; [by intros [[_ ?]|(_ & _ & ?)]|]. intros Hje. right.
    destruct Hje as (E0 & E1 & E2). split_and!; [| |by split_and!].
    + intros ->. destruct He as (_ & E3 & E4). apply D'. f_equal; [lia|congruence].
    + intros E. rewrite E in Ht. destruct Ht as (_ & _ & E3 & E4). apply D. f_equal; [lia|congruence].
Qed.

End Facts.
