(* ===== verification/TmpfsRun.v ===== *)
(** * TmpfsRun: what tmpfs promises as a file system

    The driver's calls as steps next to the rest of the kernel, the properties
    that hold of every run of them, files as byte strings, the directories as a
    finite map, and the driver contract of path lookup. *)

From S2P Require Import Prelude Config PagePool PagePoolFacts Page PageFacts Path Vfs VfsFacts Namei NameiFacts ModCore Tmpfs TmpfsFacts.

Section Run.
Context {cfg : PageConfig} {ps : PageStore} {pok : PageStoreOk}.
Implicit Types (fs : tmpfs_t) (c : core).
#[local] Abbreviation vfs := (vfs_t tmpfs_t).
Implicit Types st : vfs.

(** ** Files that an operation leaves alone *)

Definition keeps_file fs fs' (j : nat) : Prop :=
  size_of fs' j = size_of fs j ∧ ∀ o, 0 <= o < PAGE_SIZE → content fs' j o = content fs j o.
Definition blank fs (j : nat) : Prop := ∀ o, 0 <= o < PAGE_SIZE → content fs j o = 0.

(** A file shows zeros where it was not written. *)
Definition zero_tail fs : Prop :=
  ∀ j o, (j < TMPFS_INODE_MAX)%nat → 0 <= o < PAGE_SIZE → size_of fs j <= o → content fs j o = 0.
Definition tmpfs_ok fs : Prop := tmpfs_inv fs ∧ zero_tail fs.

Definition kept fs fs' : Prop := ∀ j, (j < TMPFS_INODE_MAX)%nat → keeps_file fs fs' j ∨ blank fs' j.

Lemma kept_tail fs fs' : kept fs fs' → zero_tail fs → zero_tail fs'.
Proof.
  intros Hk Hz j o Hj Ho Hs. destruct (Hk j Hj) as [[E1 E2]|E]; [|by apply E].
  rewrite E2 by done. apply Hz; [done..|]. lia.
Qed.

Lemma keeps_refl fs j : keeps_file fs fs j.
Proof. done. Qed.

Lemma keeps_trans fs fs1 fs2 j : keeps_file fs fs1 j → keeps_file fs1 fs2 j → keeps_file fs fs2 j.
Proof. intros [A1 A2] [B1 B2]. split; [congruence|]. intros o Ho. by rewrite B2, A2. Qed.

Lemma touch_keeps fs i now j : tmpfs_inv fs → (i < TMPFS_INODE_MAX)%nat → (j < TMPFS_INODE_MAX)%nat → keeps_file fs (touch i now fs) j.
Proof. intros Hi Hlt Hj. by apply touch_same. Qed.

Lemma keeps_blank fs fs' j : keeps_file fs fs' j → blank fs j → blank fs' j.
Proof. intros [_ H] Hb o Ho. rewrite H by done. by apply Hb. Qed.

Lemma upd_other_keeps fs i f j : length (inodes fs) = TMPFS_INODE_MAX → (i < TMPFS_INODE_MAX)%nat → j ≠ i → keeps_file fs (upd_inode i f fs) j.
Proof. intros Hl Hlt Hne. unfold keeps_file, size_of, content. rewrite inode_upd, decide_False by done. done. Qed.

Lemma free_keeps fs i j : tmpfs_inv fs → (i < TMPFS_INODE_MAX)%nat → (j < TMPFS_INODE_MAX)%nat → j ≠ i → keeps_file fs (inode_free i fs) j.
Proof.
  intros Hi Hlt Hj Hne. unfold keeps_file, size_of, content. rewrite inode_free_other by (done || apply Hi). split; [done|].
  intros o Ho. destruct (has_page (inode fs j)); [|done]. unfold inode_free.
  destruct (ti_data_page (inode fs i) =? PAGE_ID_INVALID) eqn:E; [done|]. cbn.
  destruct (drop_page fs i Hi Hlt) as (_ & _ & _ & H); [unfold has_page; by rewrite E|]. apply H.
Qed.

Lemma free_blank fs i : tmpfs_inv fs → (i < TMPFS_INODE_MAX)%nat → blank (inode_free i fs) i.
Proof.
  intros Hi Hlt o Ho. unfold content, inode_free, has_page.
  destruct (negb (ti_data_page (inode fs i) =? PAGE_ID_INVALID)); rewrite inode_upd by (done || apply Hi); rewrite decide_True by done; cbn; by rewrite Z.eqb_refl.
Qed.

Lemma relink_keeps fs src nd new now j : tmpfs_inv fs → (src < TMPFS_INODE_MAX)%nat → keeps_file fs (upd_inode src (relink nd new now) fs) j.
Proof.
  intros Hi Hlt. unfold keeps_file, size_of, content. rewrite inode_upd by (done || apply Hi).
  destruct (decide (j = src)) as [->|]; [|done]. done.
Qed.

Lemma keeps_kept fs fs' j : (∀ k, (k < TMPFS_INODE_MAX)%nat → k ≠ j → keeps_file fs fs' k) → blank fs' j → kept fs fs'.
Proof. intros H Hb k Hk. destruct (decide (k = j)) as [->|]; [by right|left; by apply H]. Qed.

Lemma add_entry_keeps type fmt mode d nm fs rc fs' : tmpfs_inv fs → good_entry nm → (d < TMPFS_INODE_MAX)%nat →
  ti_active (inode fs d) = true → ti_type (inode fs d) = VNODE_DIR → add_entry type fmt mode d nm fs = (rc, fs') →
  kept fs fs' ∧ ∀ j, (j < TMPFS_INODE_MAX)%nat → ti_active (inode fs j) = true → keeps_file fs fs' j.
Proof.
  intros Hi Hg Hd Ha Hty. unfold add_entry. destruct (tmpfs_find _ _ _) eqn:Hf; [intros [= _ <-]; split; [intros j _; by left|done]|].
  pose proof (inode_alloc_spec fs) as Hal. cbn zeta in Hal. destruct (_ <? 0); intros [= _ <-]; [split; [intros j _; by left|done]|].
  destruct Hal as [Hlt Hfree]. set (idx := Z.to_nat (inode_alloc fs)) in *. set (now := time_now_sec fs).
  pose proof (new_entry_inv fs idx type fmt mode d now nm Hi Hlt Hfree Hg Hd Ha Hty Hf) as Hi1. set (fs1 := new_entry _ _ _ _ _ _ _ _) in *.
  assert (∀ j, (j < TMPFS_INODE_MAX)%nat → j ≠ idx → keeps_file fs (touch d now fs1) j) as Hk.
  { intros j Hj Hne. apply (keeps_trans _ fs1); [|by apply touch_keeps]. apply upd_other_keeps; [apply Hi|lia|done]. }
  split.
  - apply (keeps_kept _ _ idx); [done|]. apply (keeps_blank fs1); [apply touch_keeps; lia || done|]. intros o Ho.
    unfold content, fs1, new_entry, has_page. rewrite inode_upd by (lia || apply Hi). rewrite decide_True by done. cbn. by rewrite Z.eqb_refl.
  - intros j Hj Haj. apply Hk; [done|]. intros ->. congruence.
Qed.

Lemma unlink_entry_keeps d nm fs rc fs' : tmpfs_inv fs → nm ≠ [] → (d < TMPFS_INODE_MAX)%nat → unlink_entry d nm fs = (rc, fs') →
  kept fs fs' ∧ ∀ j, (j < TMPFS_INODE_MAX)%nat → entry fs d nm ≠ Some j → keeps_file fs fs' j.
Proof.
  intros Hi Hnm Hd. unfold unlink_entry, entry. pose proof (tmpfs_find_spec (Z.of_nat d) nm fs) as Hf.
  destruct (tmpfs_find _ _ _) as [i|]; [|intros [= _ <-]; split; [intros j _; by left|done]].
  destruct Hf as [Hlt He]. pose proof (entry_not_root _ _ _ _ Hi Hnm He).
  destruct (_ && _) eqn:Hr; intros [= _ <-]; [split; [intros j _; by left|done]|].
  pose proof (unlink_inv fs i Hi ltac:(lia) Hr) as Hi1.
  assert (∀ j, (j < TMPFS_INODE_MAX)%nat → j ≠ i → keeps_file fs (touch d (time_now_sec (inode_free i fs)) (inode_free i fs)) j) as Hk.
  { intros j Hj Hne. apply (keeps_trans _ (inode_free i fs)); [by apply free_keeps|by apply touch_keeps]. }
  split; [|intros j Hj Hne; apply Hk; [done|congruence]].
  apply (keeps_kept _ _ i); [done|]. apply (keeps_blank (inode_free i fs)); [by apply touch_keeps|by apply free_blank].
Qed.

Lemma rename_entry_keeps od old nd new fs rc fs' : tmpfs_inv fs → (od < TMPFS_INODE_MAX)%nat → (nd < TMPFS_INODE_MAX)%nat →
  ti_active (inode fs nd) = true → ti_type (inode fs nd) = VNODE_DIR → old ≠ [] → good_entry new →
  rename_guard od old nd new fs → rename_entry od old nd new fs = (rc, fs') →
  kept fs fs' ∧ ∀ j, (j < TMPFS_INODE_MAX)%nat → entry fs nd new ≠ Some j → keeps_file fs fs' j.
Proof.
  intros Hi Hod Hnd Hna Hnt Hold Hnew Hguard. unfold rename_entry, entry.
  destruct (tmpfs_find (Z.of_nat od) old fs) as [src|] eqn:Hsrc; [|intros [= _ <-]; split; [intros j _; by left|done]]. cbn zeta.
  destruct (from_option _ _ (tmpfs_find (Z.of_nat nd) new fs)) eqn:Hempty; [intros [= _ <-]; split; [intros j _; by left|done]|].
  destruct (rename_target fs od old nd new src Hi Hod Hnd Hna Hold Hnew Hguard Hsrc Hempty) as (H1 & H2 & _).
  set (fs1 := from_option (λ i, inode_free i fs) fs _) in *. set (now := time_now_sec fs1).
  pose proof (relinked_inv fs od old nd new src now Hi Hod Hnd Hna Hnt Hold Hnew Hguard Hsrc Hempty) as Hi2.
  change (upd_inode src _ fs1) with (upd_inode src (relink nd new now) fs1).
  change (tmpfs_inv (upd_inode src (relink nd new now) fs1)) in Hi2. set (fs2 := upd_inode src _ fs1) in *. intros [= _ <-].
  assert (∀ j, (j < TMPFS_INODE_MAX)%nat → keeps_file fs1 (if negb (Z.of_nat nd =? Z.of_nat od) then touch nd now (touch od now fs2) else touch od now fs2) j) as Hk.
  { intros j Hj. apply (keeps_trans _ fs2); [apply relink_keeps; [done|lia]|].
    assert (keeps_file fs2 (touch od now fs2) j) by (by apply touch_keeps).
    destruct (negb _); [|done]. apply (keeps_trans _ (touch od now fs2)); [done|]. apply touch_keeps; [by apply touch_inv|done..]. }
  pose proof (tmpfs_find_spec (Z.of_nat nd) new fs) as Ht. destruct (tmpfs_find (Z.of_nat nd) new fs) as [i|]; cbn in fs1.
  - destruct Ht as [Hlt _]. split.
    + apply (keeps_kept _ _ i); [|apply (keeps_blank fs1); [by apply Hk|by apply free_blank]].
      intros j Hj Hne. apply (keeps_trans _ fs1); [by apply free_keeps|by apply Hk].
    + intros j Hj Hne. apply (keeps_trans _ fs1); [|by apply Hk]. apply free_keeps; [done..|congruence].
  - split; [intros j Hj; left; by apply Hk|intros j Hj _; by apply Hk].
Qed.

(** ** Files as byte strings *)

Definition file_bytes fs (i : nat) : list Z := (λ k, content fs i (Z.of_nat k)) <$> seq 0 (Z.to_nat (size_of fs i)).
Definition user_data fs (page page_off n : Z) : list Z := (λ k, user_byte fs page page_off (Z.of_nat k)) <$> seq 0 (Z.to_nat n).
Definition live fs (j : nat) : Prop := (j < TMPFS_INODE_MAX)%nat ∧ ti_active (inode fs j) = true.

Lemma live_size fs j : tmpfs_inv fs → live fs j → 0 <= size_of fs j <= PAGE_SIZE.
Proof. intros Hi [Hj Ha]. by apply (inv_linked _ Hi j Hj). Qed.

Lemma file_length fs j : length (file_bytes fs j) = Z.to_nat (size_of fs j).
Proof. unfold file_bytes. by rewrite length_fmap, length_seq. Qed.

Lemma keeps_bytes fs fs' j : tmpfs_inv fs → live fs j → keeps_file fs fs' j → file_bytes fs' j = file_bytes fs j.
Proof.
  intros Hi Hj [E1 E2]. pose proof (live_size _ _ Hi Hj). apply list_eq. intros k. unfold file_bytes. rewrite !seq_fmap_lookup, E1.
  case_decide; [|done]. rewrite E2 by lia. done.
Qed.

Lemma write_tail fs fs' i page page_off n off r : zero_tail fs → write_outcome fs fs' i page page_off n off r → zero_tail fs'.
Proof.
  unfold write_outcome. intros Hz. destruct (r <? 0); intros [H1 H2] j o Hj Ho Hs.
  - destruct (H1 j Hj) as [E1 E2]. rewrite E2 by done. apply Hz; [done..|lia].
  - destruct (H2 j Hj) as [E1 E2]. rewrite E2 by done. rewrite E1 in Hs. unfold new_size_of in Hs.
    destruct (decide (j = i)) as [->|]; [|rewrite decide_False by tauto; by apply Hz].
    rewrite decide_False by lia. apply Hz; [done..|lia].
Qed.

Lemma write_bytes fs fs' i page page_off n off r : tmpfs_ok fs → live fs i → 0 <= off → off + r <= PAGE_SIZE → r <? 0 = false →
  write_outcome fs fs' i page page_off n off r →
  file_bytes fs' i = pwrite (file_bytes fs i) (user_data fs page page_off r) (Z.to_nat off) ∧
  ∀ j, live fs j → j ≠ i → file_bytes fs' j = file_bytes fs j.
Proof.
  intros [Hi Hz] Hli Hoff Hfit Hr. unfold write_outcome. rewrite Hr. intros [_ H]. split.
  - destruct Hli as [Hlt Ha]. destruct (H i Hlt) as [E1 E2]. pose proof (live_size fs i Hi (conj Hlt Ha)) as Hs. apply list_eq. intros k.
    rewrite pwrite_lookup, file_length. unfold user_data. rewrite length_fmap, length_seq. unfold file_bytes. rewrite !seq_fmap_lookup, E1.
    assert (new_size_of fs i (off + r) i = Z.max (size_of fs i) (off + r)) as -> by (unfold new_size_of; by rewrite decide_True).
    repeat case_decide; try lia; try done; try (by rewrite E2, decide_False by lia);
      try (rewrite E2, decide_False by lia; f_equal; apply Hz; [done|lia..]).
    rewrite E2, decide_True by lia. do 2 f_equal. lia.
  - intros j Hj Hne. apply keeps_bytes; [done..|]. destruct Hj as [Hlt _]. destruct (H j Hlt) as [E1 E2]. split.
    + rewrite E1. unfold new_size_of. by rewrite decide_False.
    + intros o Ho. rewrite E2 by done. by rewrite decide_False by tauto.
Qed.

(** ** The driver's calls as steps *)

Inductive tmpfs_op :=
  | OpLookup (dir : nat) (nm : name)
  | OpRead (vn : nat) (page page_off n off : Z)
  | OpWrite (vn : nat) (page page_off n off : Z)
  | OpTruncate (vn : nat)
  | OpCreate (dir : nat) (nm : name) (mode : Z)
  | OpMkdir (dir : nat) (nm : name) (mode : Z)
  | OpUnlink (dir : nat) (nm : name)
  | OpRename (old_dir : nat) (old_name : name) (new_dir : nat) (new_name : name)
  | OpUtimes (vn : nat) (atime mtime : Z)
  | OpChmod (vn : nat) (mode : Z).

(** The kernel truncates to length 0 only. *)
Definition exec (op : tmpfs_op) (st : vfs) : vfs :=
  match op with
  | OpLookup dir nm => (tmpfs_lookup dir nm st).2
  | OpRead vn page po n off => (tmpfs_read vn page po n off st).2
  | OpWrite vn page po n off => (tmpfs_write vn page po n off st).2
  | OpTruncate vn => (tmpfs_truncate vn 0 st).2
  | OpCreate dir nm mode => (tmpfs_create dir nm mode st).2
  | OpMkdir dir nm mode => (tmpfs_mkdir dir nm mode st).2
  | OpUnlink dir nm => (tmpfs_unlink dir nm st).2
  | OpRename od old nd new => (tmpfs_rename od old nd new st).2
  | OpUtimes vn a m => (tmpfs_utimes vn a m st).2
  | OpChmod vn mode => (tmpfs_chmod vn mode st).2
  end.

(** What the code leaves to its callers.  Every vnode of the call is of a file or
    directory that still exists, that is, has not been unlinked meanwhile. *)
Definition still_there (op : tmpfs_op) (st : vfs) : Prop :=
  match op with
  | OpLookup dir _ | OpCreate dir _ _ | OpMkdir dir _ _ | OpUnlink dir _ => dir_at st dir (ino st dir)
  | OpRead vn _ _ _ _ | OpWrite vn _ _ _ _ | OpTruncate vn => file_at st vn (ino st vn)
  | OpRename od _ nd _ => dir_at st od (ino st od) ∧ dir_at st nd (ino st nd)
  | OpUtimes vn _ _ | OpChmod vn _ => (ino st vn < TMPFS_INODE_MAX)%nat
  end.
(** A name given to an entry is not longer than [TMPFS_NAME_MAX], and no name is empty. *)
Definition names_fit (op : tmpfs_op) : Prop :=
  match op with
  | OpCreate _ nm _ | OpMkdir _ nm _ => good_entry nm
  | OpUnlink _ nm => nm ≠ []
  | OpRename _ old _ new => old ≠ [] ∧ good_entry new
  | _ => True
  end.
(** The buffer lies in a page of its own and the offset is a [long] of the target. *)
Definition buffer_apart (op : tmpfs_op) (st : vfs) : Prop :=
  match op with
  | OpRead _ page po n off | OpWrite _ page po n off => user_buf (fs_world st) page po n ∧ 0 <= off < 2 ^ 31
  | _ => True
  end.
(** No entry is renamed onto itself and no directory is moved into itself. *)
Definition not_onto_itself (op : tmpfs_op) (st : vfs) : Prop :=
  match op with
  | OpRename od old nd new => rename_guard (ino st od) old (ino st nd) new (fs_world st)
  | _ => True
  end.
Definition op_ok (op : tmpfs_op) (st : vfs) : Prop := still_there op st ∧ names_fit op ∧ buffer_apart op st ∧ not_onto_itself op st.

(** The rest of the kernel may do anything but touch the pages of the files. *)
Definition elsewhere (st st' : vfs) : Prop :=
  ∃ c, fs_world st' = set_core c (fs_world st) ∧ store_ok c ∧
    ∀ j, (j < TMPFS_INODE_MAX)%nat → has_page (inode (fs_world st) j) = true →
      let p := ti_data_page (inode (fs_world st) j) in
      page_in_use c p ∧ ∀ o, 0 <= o < PAGE_SIZE → byte_at c p o = byte_at (fs_core (fs_world st)) p o.

Inductive tmpfs_step : vfs → vfs → Prop :=
  | step_op op st : still_there op st → names_fit op → buffer_apart op st → not_onto_itself op st → tmpfs_step st (exec op st)
  | step_elsewhere st st' : elsewhere st st' → tmpfs_step st st'.

Lemma kept_ok fs fs' : tmpfs_ok fs → tmpfs_inv fs' → kept fs fs' → tmpfs_ok fs'.
Proof. intros [_ Hz] Hi Hk. split; [done|]. by apply (kept_tail fs). Qed.

Lemma keeps_ok fs fs' : tmpfs_ok fs → tmpfs_inv fs' → (∀ j, (j < TMPFS_INODE_MAX)%nat → keeps_file fs fs' j) → tmpfs_ok fs'.
Proof. intros Ho Hi Hk. apply (kept_ok fs); [done..|]. intros j Hj. left. by apply Hk. Qed.

Lemma world_lookup dir nm st : fs_world (tmpfs_lookup dir nm st).2 = fs_world st.
Proof.
  unfold tmpfs_lookup. pose proof (world_alloc st) as H. destruct (vfs_vnode_alloc st) as [[v|] st1]; [|done].
  destruct (tmpfs_find _ _ _); [done|]. cbn. by rewrite world_drop.
Qed.

Lemma attrs_keeps fs i g j : tmpfs_inv fs → (i < TMPFS_INODE_MAX)%nat →
  (∀ n, ti_size (g n) = ti_size n ∧ ti_data_page (g n) = ti_data_page n) → keeps_file fs (upd_inode i g fs) j.
Proof.
  intros Hi Hlt Hg. unfold keeps_file, size_of, content, has_page. rewrite inode_upd by (done || apply Hi).
  destruct (decide (j = i)) as [->|]; [|done]. destruct (Hg (inode fs i)) as [-> ->]. done.
Qed.

Lemma attrs_ok fs i g : tmpfs_ok fs → (i < TMPFS_INODE_MAX)%nat →
  (∀ n, same_place n (g n) ∧ ti_size (g n) = ti_size n ∧ ti_data_page (g n) = ti_data_page n) → tmpfs_ok (upd_inode i g fs).
Proof.
  intros Ho Hlt Hg. apply (keeps_ok fs); [done|apply attrs_inv; [apply Ho|done..]|]. intros j _. apply attrs_keeps; [apply Ho|done|].
  intros n. apply Hg.
Qed.

Lemma elsewhere_ok st st' : tmpfs_ok (fs_world st) → elsewhere st st' → tmpfs_ok (fs_world st').
Proof.
  intros [Hi Hz] (c & -> & Hc & Hp). apply (keeps_ok (fs_world st)); [by split| |].
  - split; try apply Hi; [done|]. intros j Hj Hpg. destruct (inv_paged _ Hi j Hj Hpg) as (? & ? & _). split_and!; [done|done|]. by apply Hp.
  - intros j Hj. split; [done|]. intros o Ho. unfold content. change (inode (set_core c (fs_world st)) j) with (inode (fs_world st) j).
    destruct (has_page (inode (fs_world st) j)) eqn:E; [|done]. by apply Hp.
Qed.

Lemma read_ok vn page po n off st : tmpfs_ok (fs_world st) → op_ok (OpRead vn page po n off) st → tmpfs_ok (fs_world (exec (OpRead vn page po n off) st)).
Proof.
  intros Ho (Hf & _ & (Hb & Hoff) & _). cbn [exec]. pose proof (tmpfs_read_spec st vn _ page po n off (proj1 Ho) Hf Hb Hoff) as H. cbn zeta in H.
  destruct (tmpfs_read vn page po n off st) as [r st']. destruct H as (H1 & H2 & _). apply (keeps_ok (fs_world st)); [done..|]. intros j Hj. by apply H2.
Qed.

Lemma write_ok vn page po n off st : tmpfs_ok (fs_world st) → op_ok (OpWrite vn page po n off) st → tmpfs_ok (fs_world (exec (OpWrite vn page po n off) st)).
Proof.
  intros [Hi Hz] (Hf & _ & (Hb & Hoff) & _). cbn [exec]. pose proof (tmpfs_write_spec st vn _ page po n off Hi Hf Hb Hoff) as H.
  destruct (tmpfs_write vn page po n off st) as [r st']. destruct H as [H1 H2]. split; [done|]. by eapply write_tail.
Qed.

Lemma truncate_ok vn st : tmpfs_ok (fs_world st) → op_ok (OpTruncate vn) st → tmpfs_ok (fs_world (exec (OpTruncate vn) st)).
Proof.
  intros [Hi Hz] (Hf & _). cbn [exec]. pose proof (tmpfs_truncate_spec st vn _ 0 Hi Hf ltac:(unfold PAGE_SIZE; lia)) as H. cbn zeta in H.
  destruct (tmpfs_truncate vn 0 st) as [r st']. destruct H as (_ & H1 & H2). split; [done|]. cbn [snd]. intros j o Hj Ho Hs.
  destruct (H2 j Hj) as [E1 E2]. rewrite E2. case_decide; [done|]. apply Hz; [done..|]. rewrite E1 in Hs. case_decide; [|done]. tauto.
Qed.

Lemma create_ok dir nm mode st : tmpfs_ok (fs_world st) → op_ok (OpCreate dir nm mode) st → tmpfs_ok (fs_world (exec (OpCreate dir nm mode) st)).
Proof.
  intros Ho (Hd & Hn & _). cbn [exec]. pose proof (create_world st dir _ nm mode Hd) as H. destruct (tmpfs_create dir nm mode st) as [[rc res] st'].
  cbn. destruct (decide (vnode_free st = [])); [by destruct H as (_ & _ & ->)|]. destruct H as [H _]. destruct Hd as (_ & _ & H1 & H2 & H3).
  symmetry in H. apply (kept_ok (fs_world st)); [done|by eapply add_entry_inv; [apply Ho|..]|]. by eapply add_entry_keeps; [apply Ho|..].
Qed.

Lemma mkdir_ok dir nm mode st : tmpfs_ok (fs_world st) → op_ok (OpMkdir dir nm mode) st → tmpfs_ok (fs_world (exec (OpMkdir dir nm mode) st)).
Proof.
  intros Ho (Hd & Hn & _). cbn [exec]. pose proof (mkdir_world st dir _ nm mode Hd) as H. destruct (tmpfs_mkdir dir nm mode st) as [rc st'].
  destruct Hd as (_ & _ & H1 & H2 & H3). cbn.
  symmetry in H. apply (kept_ok (fs_world st)); [done|by eapply add_entry_inv; [apply Ho|..]|]. by eapply add_entry_keeps; [apply Ho|..].
Qed.

Lemma unlink_ok dir nm st : tmpfs_ok (fs_world st) → op_ok (OpUnlink dir nm) st → tmpfs_ok (fs_world (exec (OpUnlink dir nm) st)).
Proof.
  intros Ho (Hd & Hn & _). cbn [exec]. pose proof (unlink_world st dir _ nm Hd) as H. destruct (tmpfs_unlink dir nm st) as [rc st'].
  destruct Hd as (_ & _ & H1 & H2 & H3). cbn.
  symmetry in H. apply (kept_ok (fs_world st)); [done|by eapply unlink_entry_inv; [apply Ho|..]|]. by eapply unlink_entry_keeps; [apply Ho|..].
Qed.

Lemma rename_ok od old nd new st : tmpfs_ok (fs_world st) → op_ok (OpRename od old nd new) st → tmpfs_ok (fs_world (exec (OpRename od old nd new) st)).
Proof.
  intros Ho ((Hd & Hd') & (Hn & Hn') & _ & Hg). cbn [exec]. pose proof (rename_world st od _ old nd _ new Hd Hd') as H.
  destruct (tmpfs_rename od old nd new st) as [rc st']. destruct Hd as (_ & _ & H1 & H2 & H3), Hd' as (_ & _ & H1' & H2' & H3'). cbn.
  symmetry in H. apply (kept_ok (fs_world st)); [done| |].
  - by apply (rename_entry_inv _ _ _ _ _ _ _ (proj1 Ho) H1 H1' H2' H3' Hn Hn' Hg H).
  - by apply (rename_entry_keeps _ _ _ _ _ _ _ (proj1 Ho) H1 H1' H2' H3' Hn Hn' Hg H).
Qed.

#[local] Hint Resolve read_ok write_ok truncate_ok create_ok mkdir_ok unlink_ok rename_ok elsewhere_ok : core.

Lemma step_ok st st' : tmpfs_step st st' → tmpfs_ok (fs_world st) → tmpfs_ok (fs_world st').
Proof.
  intros [op s H1 H2 H3 H4|] Ho; [|by eauto]. assert (op_ok op s) as Hg by done. destruct op; eauto; cbn [exec].
  - by rewrite world_lookup.
  - by apply attrs_ok.
  - by apply attrs_ok.
Qed.

(** The driver's own part of the core image before the first mount. *)
Definition mountable fs : Prop := length (inodes fs) = TMPFS_INODE_MAX ∧ store_ok (fs_core fs).

Lemma mount_ok mnt data st st' : mountable (fs_world st) → tmpfs_mount mnt data st = (0, st') → tmpfs_ok (fs_world st').
Proof.
  intros [Hl Hs]. unfold tmpfs_mount. pose proof (world_alloc st) as Hw. destruct (vfs_vnode_alloc st) as [[root|] st1]; [|done].
  intros [= <-]. rewrite Hw. cbn [fs_world set_world upd_vnode upd_mount]. set (now := u32 (time_now_sec (fs_world st))).
  set (root_ino := Inode [] VNODE_DIR true (Z.lor S_IFDIR 493) 0 0 PAGE_ID_INVALID now now now).
  set (fs0 := Tmpfs (clear_inode <$> inodes (fs_world st)) 0 (fs_core (fs_world st))).
  assert (length (inodes fs0) = TMPFS_INODE_MAX) as Hl0 by (cbn; by rewrite length_fmap).
  assert (∀ j, (j < TMPFS_INODE_MAX)%nat → j ≠ 0%nat → inode (upd_inode 0 (λ _, root_ino) fs0) j = clear_inode (inode (fs_world st) j)) as Hn.
  { intros j Hj Hne. rewrite inode_upd, decide_False by (done || unfold TMPFS_INODE_MAX; lia). unfold inode at 1, fs0. cbn [inodes].
    rewrite list_lookup_total_alt, list_lookup_fmap, inode_lookup by done. done. }
  assert (inode (upd_inode 0 (λ _, root_ino) fs0) 0 = root_ino) as Hr
    by (rewrite inode_upd, decide_True by (done || unfold TMPFS_INODE_MAX; lia); done).
  assert (∀ j, (j < TMPFS_INODE_MAX)%nat → has_page (inode (upd_inode 0 (λ _, root_ino) fs0) j) = false) as Hp.
  { intros j Hj. unfold has_page. destruct (decide (j = 0)%nat) as [->|]; [rewrite Hr|rewrite Hn by done]; cbn; by rewrite Z.eqb_refl. }
  assert (∀ j, (j < TMPFS_INODE_MAX)%nat → ti_active (inode (upd_inode 0 (λ _, root_ino) fs0) j) = true → j = 0%nat) as Ha.
  { intros j Hj. destruct (decide (j = 0)%nat) as [->|]; [done|]. by rewrite Hn. }
  split; [split|].
  - cbn. by rewrite length_alter.
  - done.
  - by rewrite Hr.
  - intros j Hj Haj. rewrite (Ha j Hj Haj), Hr. change (Z.to_nat (ti_parent_ino root_ino)) with 0%nat. rewrite Hr.
    cbn. unfold PAGE_SIZE, TMPFS_INODE_MAX, TMPFS_NAME_MAX. split_and!; (lia || done).
  - intros j Hj. unfold paged. by rewrite Hp.
  - intros i j Hi Hj Hne. split; [by rewrite Hp|]. intros Hai Haj. destruct Hne. by rewrite (Ha i Hi Hai), (Ha j Hj Haj).
  - symmetry. apply zsum_zero, Forall_lookup. intros j n Hj. pose proof (lookup_lt_Some _ _ _ Hj) as Hlt. cbn in Hlt.
    rewrite length_alter in Hlt. cbn in Hlt. rewrite length_fmap, Hl in Hlt. cbn beta.
    assert (n = inode (upd_inode 0 (λ _, root_ino) fs0) j) as -> by (unfold inode; by rewrite list_lookup_total_alt, Hj). by rewrite Hp.
  - cbn. rewrite max_pages. lia.
  - intros j o Hj _ _. unfold content. by rewrite Hp.
Qed.

(** C14. A mounted tmpfs stays consistent under any sequence of calls, next to
    anything the rest of the kernel does, as long as every call keeps to four
    conditions that the code does not check: it is made on files and directories
    that have not been unlinked ([still_there]), a name given to an entry is at
    most TMPFS_NAME_MAX long ([names_fit]), no entry is renamed onto itself and no
    directory into itself ([not_onto_itself]), and a buffer is not in a page of a
    file ([buffer_apart]).  Consistent is: the root is a directory of
    itself without a name, every other entry lies in an existing directory, no
    two entries of a directory share a name, data pages belong to existing
    regular files, are allocated and are never shared, [data_pages_used] counts
    them and stays within the limit, sizes stay within a page, and a file shows
    zeros where it was not written. *)
Theorem tmpfs_consistent mnt data st0 st1 st : mountable (fs_world st0) → tmpfs_mount mnt data st0 = (0, st1) →
  rtc tmpfs_step st1 st → tmpfs_ok (fs_world st).
Proof.
  intros Hm Hmnt Hrun. pose proof (mount_ok _ _ _ _ Hm Hmnt) as Hok. clear Hmnt Hm. induction Hrun as [|s s' s'' Hs _ IH]; [done|].
  apply IH. by eapply step_ok.
Qed.

(** C15. Regular files behave as byte strings of at most a page: a read returns
    exactly the bytes from the offset on that exist and fit, and puts them in
    the buffer; a write that succeeds stores as many bytes as fit a page behind
    the offset, fills a gap before them with zeros, and changes no other file; a
    failed write changes no file, and happens only without room: behind the page
    limit, with all data pages in use, or without memory; truncating empties. *)
Theorem tmpfs_files_are_strings st vn i page po n off : tmpfs_ok (fs_world st) → file_at st vn i →
  user_buf (fs_world st) page po n → 0 <= off < 2 ^ 31 →
  let fs := fs_world st in
  (let '(r, st') := tmpfs_read vn page po n off st in
   user_data (fs_world st') page po r = pread (file_bytes fs i) (Z.to_nat off) (Z.to_nat n) ∧
   r = Z.of_nat (length (pread (file_bytes fs i) (Z.to_nat off) (Z.to_nat n))) ∧
   ∀ j, live fs j → file_bytes (fs_world st') j = file_bytes fs j) ∧
  (let '(r, st') := tmpfs_write vn page po n off st in
   if r <? 0 then (∀ j, live fs j → file_bytes (fs_world st') j = file_bytes fs j) ∧
     (r = - ENOSPC ∧ (PAGE_SIZE <= off ∧ PAGE_SIZE < off + n ∨ has_page (inode fs i) = false ∧ data_pages_used fs = TMPFS_MAX_PAGES) ∨
      r = - ENOMEM ∧ has_page (inode fs i) = false)
   else r = Z.min n (PAGE_SIZE - off) ∧
     file_bytes (fs_world st') i = pwrite (file_bytes fs i) (user_data fs page po r) (Z.to_nat off) ∧
     ∀ j, live fs j → j ≠ i → file_bytes (fs_world st') j = file_bytes fs j) ∧
  (let '(r, st') := tmpfs_truncate vn 0 st in
   r = 0 ∧ file_bytes (fs_world st') i = [] ∧ ∀ j, live fs j → j ≠ i → file_bytes (fs_world st') j = file_bytes fs j).
Proof.
  intros Ho Hf Hb Hoff; cbn zeta. pose proof Ho as [Hi Hz]. pose proof Hf as (_ & _ & Hlt & Ha & _). assert (live (fs_world st) i) as Hli by done.
  pose proof (live_size _ i Hi Hli) as Hs. pose proof (ub_range _ _ _ _ Hb) as Hr. split; [|split].
  - pose proof (tmpfs_read_spec st vn i page po n off Hi Hf Hb Hoff) as H. cbn zeta in H. destruct (tmpfs_read vn page po n off st) as [r st'].
    destruct H as (_ & H2 & -> & H4 & _).
    assert (Z.max 0 (Z.min n (size_of (fs_world st) i - off)) = Z.of_nat (length (pread (file_bytes (fs_world st) i) (Z.to_nat off) (Z.to_nat n)))) as Hlen.
    { unfold pread. rewrite length_take, length_drop, file_length. lia. }
    split; [|split; [done|]].
    + apply list_eq. intros k. unfold user_data. rewrite seq_fmap_lookup. unfold pread in *. case_decide as Hk.
      * rewrite H4 by lia. rewrite lookup_take_lt by lia. rewrite lookup_drop. unfold file_bytes. rewrite seq_fmap_lookup, decide_True by lia.
        do 2 f_equal. lia.
      * rewrite Hlen in Hk. symmetry. apply lookup_ge_None. lia.
    + intros j Hj. apply keeps_bytes; [done..|]. apply H2, Hj.
  - pose proof (tmpfs_write_spec st vn i page po n off Hi Hf Hb Hoff) as H. destruct (tmpfs_write vn page po n off st) as [r st'].
    destruct H as [_ H]. destruct (r <? 0) eqn:E.
    + unfold write_outcome in H. rewrite E in H. destruct H as [H1 H2]. split; [|done]. intros j Hj. apply keeps_bytes; [done..|]. apply H1, Hj.
    + assert (r = Z.min n (PAGE_SIZE - off)) as Hrn by (unfold write_outcome in H; rewrite E in H; apply H). split; [done|].
      eapply write_bytes; try done; lia.
  - pose proof (tmpfs_truncate_spec st vn i 0 Hi Hf ltac:(lia)) as H. cbn zeta in H. destruct (tmpfs_truncate vn 0 st) as [r st'].
    destruct H as (-> & _ & H). split; [done|]. split.
    + unfold file_bytes. destruct (H i Hlt) as [-> _]. by rewrite decide_True.
    + intros j [Hj Haj] Hne. apply keeps_bytes; [done..|]. destruct (H j Hj) as [E1 E2]. split; [by rewrite E1, decide_False|].
      intros o _. by rewrite E2, decide_False by tauto.
Qed.

(** ** Directories as a map *)

Definition only_entry_changed fs fs' (d : nat) (nm : name) (v : option nat) : Prop :=
  ∀ d' nm', entry fs' d' nm' = if decide ((d', nm') = (d, nm)) then v else entry fs d' nm'.
Definition added fs fs' (d : nat) (nm : name) (type : vnode_type_t) : Prop :=
  entry fs d nm = None ∧ (∀ j, live fs j → file_bytes fs' j = file_bytes fs j) ∧
  ∃ i, ti_active (inode fs i) = false ∧ only_entry_changed fs fs' d nm (Some i) ∧ ti_type (inode fs' i) = type ∧ file_bytes fs' i = [].
Definition not_added fs fs' (d : nat) (nm : name) (rc : Z) : Prop :=
  fs' = fs ∧ (rc = - EEXIST ∧ is_Some (entry fs d nm) ∨
    rc = - ENOSPC ∧ entry fs d nm = None ∧ ∀ j, (j < TMPFS_INODE_MAX)%nat → live fs j).

Lemma add_entry_map type fmt mode d nm fs rc fs' : tmpfs_ok fs → good_entry nm → (d < TMPFS_INODE_MAX)%nat →
  ti_active (inode fs d) = true → ti_type (inode fs d) = VNODE_DIR → (rc, fs') = add_entry type fmt mode d nm fs →
  rc = 0 ∧ added fs fs' d nm type ∨ not_added fs fs' d nm rc.
Proof.
  intros [Hi Hz] Hg Hd Ha Ht Hadd. symmetry in Hadd. destruct (add_entry_keeps _ _ _ _ _ _ _ _ Hi Hg Hd Ha Ht Hadd) as [_ Hk].
  pose proof (add_entry_spec _ _ _ _ _ _ _ _ Hi Hg Hd Ha Ht Hadd) as H. destruct (Z.eqb_spec rc 0) as [->|].
  - left. split; [done|]. destruct H as (H1 & i & H2 & H3 & H4 & H5 & _). split; [done|]. split; [intros j [? ?]; apply keeps_bytes; [done..|]; by apply Hk|].
    exists i. split_and!; [done|done|done|]. unfold file_bytes. by rewrite H5.
  - right. destruct H as [-> [H|(H1 & H2 & H3)]]; (split; [done|]); [by left|right]. split_and!; [done|done|]. intros j Hj. split; [done|by apply H3].
Qed.

(** C16. For calls on a directory that exists and new names of at most
    TMPFS_NAME_MAX characters ([good_entry]), and for renames that are neither onto
    the same entry nor of a directory into itself ([rename_guard]; the code checks
    none of this), the directories are a finite map from names to inodes, and the
    calls update it exactly: [create] and [mkdir] add one empty entry of their type
    under a free name, [unlink] takes one entry away, [rename] moves one, over
    the target's entry if there is one.  The bytes of every other file are kept.
    Otherwise nothing of the file system changes, and the status says why: the
    name is taken, inodes or vnodes have run out, the name is missing, or the
    directory to be removed or replaced has entries. *)
Theorem tmpfs_names_are_a_map st dir d nm mode : tmpfs_ok (fs_world st) → dir_at st dir d → good_entry nm →
  let fs := fs_world st in
  (let '(rc, res, st') := tmpfs_create dir nm mode st in
   (rc = 0 ↔ is_Some res) ∧
   (rc = 0 ∧ added fs (fs_world st') d nm VNODE_FILE ∨ not_added fs (fs_world st') d nm rc ∨
    rc = - ENOMEM ∧ vnode_free st = [] ∧ fs_world st' = fs)) ∧
  (let '(rc, st') := tmpfs_mkdir dir nm mode st in
   rc = 0 ∧ added fs (fs_world st') d nm VNODE_DIR ∨ not_added fs (fs_world st') d nm rc) ∧
  (let '(rc, st') := tmpfs_unlink dir nm st in
   (rc = 0 ∧ is_Some (entry fs d nm) ∧ only_entry_changed fs (fs_world st') d nm None ∧
      ∀ j, live fs j → entry fs d nm ≠ Some j → file_bytes (fs_world st') j = file_bytes fs j) ∨
   fs_world st' = fs ∧ (rc = - ENOENT ∧ entry fs d nm = None ∨
     rc = - ENOTEMPTY ∧ ∃ i j, entry fs d nm = Some i ∧ live fs j ∧ ti_parent_ino (inode fs j) = Z.of_nat i)) ∧
  (∀ odir od old, dir_at st odir od → old ≠ [] → rename_guard od old d nm fs →
   let '(rc, st') := tmpfs_rename odir old dir nm st in
   (rc = 0 ∧ (∃ src, entry fs od old = Some src ∧ ∀ d' nm', entry (fs_world st') d' nm' =
       if decide ((d', nm') = (d, nm)) then Some src else if decide ((d', nm') = (od, old)) then None else entry fs d' nm') ∧
      ∀ j, live fs j → entry fs d nm ≠ Some j → file_bytes (fs_world st') j = file_bytes fs j) ∨
   fs_world st' = fs ∧ (rc = - ENOENT ∧ entry fs od old = None ∨ rc = - ENOTEMPTY ∧ is_Some (entry fs d nm))).
Proof.
  intros Ho Hd Hg; cbn zeta. pose proof Ho as [Hi Hz]. pose proof Hd as (_ & _ & Hlt & Ha & Ht). split; [|split; [|split]].
  - pose proof (create_world st dir d nm mode Hd) as H. destruct (tmpfs_create dir nm mode st) as [[rc res] st'].
    destruct (decide (vnode_free st = [])).
    + destruct H as (-> & -> & ->). split; [split; [done|by intros []]|]. right; right. by split_and!.
    + destruct H as [H1 H2]. split; [done|]. destruct (add_entry_map _ _ _ _ _ _ _ _ Ho Hg Hlt Ha Ht H1); [by left|right; by left].
  - pose proof (mkdir_world st dir d nm mode Hd) as H. destruct (tmpfs_mkdir dir nm mode st) as [rc st'].
    by apply (add_entry_map _ _ _ _ _ _ _ _ Ho Hg Hlt Ha Ht H).
  - destruct Hg as [Hne _]. pose proof (unlink_world st dir d nm Hd) as H. destruct (tmpfs_unlink dir nm st) as [rc st']. symmetry in H.
    destruct (unlink_entry_keeps _ _ _ _ _ Hi Hne Hlt H) as [_ Hk]. pose proof (unlink_entry_spec _ _ _ _ _ Hi Hne Hlt H) as Hs.
    destruct (Z.eqb_spec rc 0) as [->|].
    + left. destruct Hs as [H1 H2]. split_and!; [done|done|done|]. intros j Hj Hn. apply keeps_bytes; [done..|]. apply Hk; [apply Hj|done].
    + right. destruct Hs as [-> [Hs|[Hs (i & j & H1 & H2 & H3 & H4)]]]; (split; [done|]); [by left|right]. split; [done|]. by exists i, j.
  - intros odir od old Hod Hold Hgu. pose proof (rename_world st odir od old dir d nm Hod Hd) as H.
    destruct (tmpfs_rename odir old dir nm st) as [rc st']. symmetry in H. destruct Hod as (_ & _ & Hodl & _ & _).
    destruct (rename_entry_keeps _ _ _ _ _ _ _ Hi Hodl Hlt Ha Ht Hold Hg Hgu H) as [_ Hk].
    pose proof (rename_entry_spec _ _ _ _ _ _ _ Hi Hodl Hlt Ha Ht Hold Hg Hgu H) as Hs. destruct (Z.eqb_spec rc 0) as [->|].
    + left. split_and!; [done|done|]. intros j Hj Hn. apply keeps_bytes; [done..|]. apply Hk; [apply Hj|done].
    + right. by destruct Hs as [-> Hs].
Qed.

(** ** The driver contract of path lookup *)

(** Filling in a vnode keeps its references. *)
Lemma pins_fill st0 held v f st : (v < VFS_VNODE_MAX)%nat → (∀ n, vn_refcnt (f n) = vn_refcnt n) → pins st0 held st → pins st0 held (upd_vnode v f st).
Proof.
  intros Hv Hf [Hr Hm Hc Hs [Pl Pf Pn Pi Pr]]. assert (∀ w, refs (upd_vnode v f st) w = refs st w) as Hu.
  { intros w. rewrite refs_upd by done. rewrite Hf. by case_decide; subst. }
  split; [intros w; by rewrite Hu|done|done|done|]. split; [cbn; by rewrite length_alter|done|done| |].
  - intros w Hw. rewrite Hu. by apply Pi.
  - intros w. by rewrite Hu.
Qed.

Lemma vnode_upd st v f w : length (vnodes st) = VFS_VNODE_MAX → (v < VFS_VNODE_MAX)%nat →
  vnode (upd_vnode v f st) w = if decide (w = v) then f (vnode st v) else vnode st w.
Proof.
  intros Hl Hv. unfold vnode, upd_vnode. cbn [vnodes]. rewrite !list_lookup_total_alt. case_decide; subst.
  - rewrite list_lookup_alter_eq. destruct (lookup_lt_is_Some_2 (vnodes st) v) as [x ->]; [by rewrite Hl|done].
  - by rewrite list_lookup_alter_ne.
Qed.

(** The vnode a lookup of inode [i] in [dir] hands out. *)
Definition vnode_of fs (i : nat) (mnt : option nat) (x : vnode_t) : Prop :=
  vn_type x = ti_type (inode fs i) ∧ vn_size x = ti_size (inode fs i) ∧ vn_mode x = ti_mode (inode fs i) ∧
  vn_ino x = Z.of_nat i ∧ vn_refcnt x = 1 ∧ vn_mount x = mnt.

Lemma alloc_vnode st v st' : pool_ok st → vfs_vnode_alloc st = (Some v, st') →
  v ∈ vnode_free st ∧ vn_refcnt (vnode st' v) = 1 ∧ ∀ w, w ≠ v → vnode st' w = vnode st w.
Proof.
  intros Hp. unfold vfs_vnode_alloc. destruct (vnode_free st) as [|x l] eqn:E; [done|]. intros [= -> <-].
  assert (v < VFS_VNODE_MAX)%nat as Hv by (apply (pool_free_lt _ Hp); rewrite E; by left). split; [by left|]. split.
  - rewrite vnode_upd, decide_True by (done || apply Hp). done.
  - intros w Hne. rewrite vnode_upd, decide_False by (done || apply Hp). done.
Qed.

(** A lookup of any name finds its entry, in a vnode of its own with a single
    reference; without one, or without a vnode, no vnode is taken. *)
Lemma tmpfs_lookup_spec st dir nm : pool_ok st →
  let '(rc, res, st') := tmpfs_lookup dir nm st in
  fs_world st' = fs_world st ∧
  match res with
  | Some v => rc = 0 ∧ (v < VFS_VNODE_MAX)%nat ∧ v ∈ vnode_free st ∧ pins st [v] st' ∧
      (dir ∉ vnode_free st → ∃ i, tmpfs_find (vn_ino (vnode st dir)) nm (fs_world st) = Some i ∧
         vnode_of (fs_world st) i (vn_mount (vnode st dir)) (vnode st' v))
  | None => pins st [] st' ∧
      (rc = - ENOMEM ∧ vnode_free st = [] ∨ rc = - ENOENT ∧ tmpfs_find (vn_ino (vnode st dir)) nm (fs_world st) = None)
  end.
Proof.
  intros Hp. unfold tmpfs_lookup. pose proof (world_alloc st) as Hw. destruct (vfs_vnode_alloc st) as [[v|] st1] eqn:Ha.
  2:{ unfold vfs_vnode_alloc in Ha. destruct (vnode_free st) eqn:E; simplify_eq. split; [done|]. split; [by apply pins_refl|by left]. }
  destruct (alloc_pins _ _ _ Hp Ha) as [Hv Hpin]. destruct (alloc_vnode _ _ _ Hp Ha) as (Hfree & Href & Hoth). rewrite Hw.
  destruct (tmpfs_find _ _ _) as [i|] eqn:Hf.
  - split; [done|]. split_and!; [done..| |].
    + by apply pins_fill.
    + intros Hd. exists i. split; [done|]. unfold fill_vnode. rewrite vnode_upd, decide_True by (done || apply Hpin). rewrite Hw.
      rewrite (Hoth dir) by (intros ->; done). by rewrite Href.
  - cbn [vfs_vnode_release]. split; [by rewrite world_drop|]. split; [|right; by split]. by apply drop_pins.
Qed.

(** Every mount served by tmpfs. *)
Definition tmpfs_driver : Z → vfs_ops_t tmpfs_t := λ _, tmpfs_ops.

#[export] Instance tmpfs_driver_ok : Drivers tmpfs_driver.
Proof.
  split; [|done]. intros o f dir comp st err child st' [= <-] Hf Hok. pose proof (tmpfs_lookup_spec st dir comp Hok) as H. rewrite Hf in H.
  destruct H as [_ H]. destruct child as [v|].
  - destruct H as (-> & H1 & _ & H2 & _). rewrite decide_True by done. by exists v.
  - destruct H as [H1 [[-> _]|[-> _]]]; by rewrite decide_False.
Qed.

End Run.

(** ** A tmpfs on the RP2040's pages *)


Definition demo_cold : vfs_t tmpfs_t :=
  Vfs tmpfs_t (vnodes demo_vfs) (vnode_free demo_vfs) (mounts demo_vfs) (mount_count demo_vfs) (scratch_free demo_vfs)
    (Tmpfs (replicate 16 (Inode [] VNODE_FILE false 0 0 0 0 0 0 0)) 0 demo_core).
Definition demo_tmpfs : vfs_t tmpfs_t := (tmpfs_mount 1 0 demo_cold).2.
(** Vnode 2 is the root's, vnode 3 that of the file "f". *)
Definition demo_file : vfs_t tmpfs_t := exec (OpCreate 2 [102] 420) demo_tmpfs.


Lemma demo_mountable : mountable (fs_world demo_cold).
Proof. split; [done|apply demo_store]. Qed.

Lemma demo_mount : tmpfs_mount 1 0 demo_cold = (0, demo_tmpfs).
Proof. reflexivity. Qed.

Lemma demo_tmpfs_ok : tmpfs_ok (fs_world demo_tmpfs).
Proof. apply (mount_ok 1 0 demo_cold); [apply demo_mountable|apply demo_mount]. Qed.

Lemma demo_dir : dir_at demo_tmpfs 2 0.
Proof. split_and!; [by apply (bool_decide_eq_true_1 (2%nat ∉ vnode_free demo_tmpfs)); vm_compute|done|unfold TMPFS_INODE_MAX; lia|done..]. Qed.

Lemma demo_name : good_entry [102].
Proof. split; [done|]. cbn. unfold TMPFS_NAME_MAX. lia. Qed.

Lemma demo_file_ok : tmpfs_ok (fs_world demo_file).
Proof. apply create_ok; [apply demo_tmpfs_ok|]. split_and!; [apply demo_dir|apply demo_name|done..]. Qed.

Lemma demo_file_at : file_at demo_file 3 1.
Proof. split_and!; try done. unfold TMPFS_INODE_MAX; lia. Qed.

Lemma demo_buf : user_buf (fs_world demo_file) demo_page 16 100.
Proof.
  split; [apply demo_store| |unfold PAGE_SIZE; lia]. intros j Hj. unfold TMPFS_INODE_MAX in Hj.
  do 16 (destruct j as [|j]; [by vm_compute|]). lia.
Qed.

Lemma tmpfs_consistent_witness :
  rtc tmpfs_step demo_tmpfs (exec (OpWrite 3 demo_page 16 100 10) demo_file) ∧
  tmpfs_ok (fs_world (exec (OpWrite 3 demo_page 16 100 10) demo_file)).
Proof.
  assert (rtc tmpfs_step demo_tmpfs (exec (OpWrite 3 demo_page 16 100 10) demo_file)) as Hr.
  { apply (rtc_l _ _ demo_file); [apply step_op; [apply demo_dir|apply demo_name|done..]|]. apply rtc_once, step_op; [apply demo_file_at|done| |done].
    split; [apply demo_buf|lia]. }
  split; [exact Hr|]. exact (tmpfs_consistent 1 0 demo_cold demo_tmpfs _ demo_mountable demo_mount Hr).
Defined.

Lemma tmpfs_files_are_strings_witness :
  let fs := fs_world demo_file in
  (let '(r, st') := tmpfs_read 3 demo_page 16 100 10 demo_file in
   user_data (fs_world st') demo_page 16 r = pread (file_bytes fs 1) (Z.to_nat 10) (Z.to_nat 100) ∧
   r = Z.of_nat (length (pread (file_bytes fs 1) (Z.to_nat 10) (Z.to_nat 100))) ∧
   ∀ j, live fs j → file_bytes (fs_world st') j = file_bytes fs j) ∧
  (let '(r, st') := tmpfs_write 3 demo_page 16 100 10 demo_file in
   if r <? 0 then (∀ j, live fs j → file_bytes (fs_world st') j = file_bytes fs j) ∧
     (r = - ENOSPC ∧ (PAGE_SIZE <= 10 ∧ PAGE_SIZE < 10 + 100 ∨ has_page (inode fs 1) = false ∧ data_pages_used fs = TMPFS_MAX_PAGES) ∨
      r = - ENOMEM ∧ has_page (inode fs 1) = false)
   else r = Z.min 100 (PAGE_SIZE - 10) ∧
     file_bytes (fs_world st') 1 = pwrite (file_bytes fs 1) (user_data fs demo_page 16 r) (Z.to_nat 10) ∧
     ∀ j, live fs j → j ≠ 1%nat → file_bytes (fs_world st') j = file_bytes fs j) ∧
  (let '(r, st') := tmpfs_truncate 3 0 demo_file in
   r = 0 ∧ file_bytes (fs_world st') 1 = [] ∧ ∀ j, live fs j → j ≠ 1%nat → file_bytes (fs_world st') j = file_bytes fs j).
Proof. exact (tmpfs_files_are_strings demo_file 3 1 demo_page 16 100 10 demo_file_ok demo_file_at demo_buf ltac:(lia)). Defined.

Lemma tmpfs_names_are_a_map_witness :
  let fs := fs_world demo_tmpfs in
  (let '(rc, res, st') := tmpfs_create 2 [102] 420 demo_tmpfs in
   (rc = 0 ↔ is_Some res) ∧
   (rc = 0 ∧ added fs (fs_world st') 0 [102] VNODE_FILE ∨ not_added fs (fs_world st') 0 [102] rc ∨
    rc = - ENOMEM ∧ vnode_free demo_tmpfs = [] ∧ fs_world st' = fs)) ∧
  (let '(rc, st') := tmpfs_mkdir 2 [102] 420 demo_tmpfs in
   rc = 0 ∧ added fs (fs_world st') 0 [102] VNODE_DIR ∨ not_added fs (fs_world st') 0 [102] rc) ∧
  (let '(rc, st') := tmpfs_unlink 2 [102] demo_tmpfs in
   (rc = 0 ∧ is_Some (entry fs 0 [102]) ∧ only_entry_changed fs (fs_world st') 0 [102] None ∧
      ∀ j, live fs j → entry fs 0 [102] ≠ Some j → file_bytes (fs_world st') j = file_bytes fs j) ∨
   fs_world st' = fs ∧ (rc = - ENOENT ∧ entry fs 0 [102] = None ∨
     rc = - ENOTEMPTY ∧ ∃ i j, entry fs 0 [102] = Some i ∧ live fs j ∧ ti_parent_ino (inode fs j) = Z.of_nat i)) ∧
  (∀ odir od old, dir_at demo_tmpfs odir od → old ≠ [] → rename_guard od old 0 [102] fs →
   let '(rc, st') := tmpfs_rename odir old 2 [102] demo_tmpfs in
   (rc = 0 ∧ (∃ src, entry fs od old = Some src ∧ ∀ d' nm', entry (fs_world st') d' nm' =
       if decide ((d', nm') = (0%nat, [102])) then Some src else if decide ((d', nm') = (od, old)) then None else entry fs d' nm') ∧
      ∀ j, live fs j → entry fs 0 [102] ≠ Some j → file_bytes (fs_world st') j = file_bytes fs j) ∨
   fs_world st' = fs ∧ (rc = - ENOENT ∧ entry fs od old = None ∨ rc = - ENOTEMPTY ∧ is_Some (entry fs 0 [102]))).
Proof. exact (tmpfs_names_are_a_map demo_tmpfs 2 0 [102] 420 demo_tmpfs_ok demo_dir demo_name). Defined.

(** The conditions are needed: "f" renamed onto itself is gone, and the call
    succeeds. *)
Theorem rename_onto_itself_loses : entry (fs_world demo_file) 0 [102] = Some 1%nat ∧
  (let '(rc, st') := tmpfs_rename 2 [102] 2 [102] demo_file in rc = 0 ∧ entry (fs_world st') 0 [102] = None ∧ ¬ live (fs_world st') 1).
Proof. split; [vm_compute; done|]. vm_compute. split_and!; [done|done|by intros []]. Qed.
