(* ===== verification/Ufs.v ===== *)
(** * Ufs: blocks and inodes of the UFS driver (src/kernel/vfs/ufs_format.h, ufs.c)

    The state of a mounted file system and the functions of ufs.c below the
    operations on vnodes: sectors, the bitmaps of blocks and inodes, inodes, the
    block map with its two levels of indirection, and the freeing of both trees.
    [ufs_buf] is the static sector buffer all of them share; the device and the
    memory services are those of SectorDev and ModCore.  The driver's mutex makes
    each operation on vnodes atomic, so nothing here interleaves. *)

From S2P Require Import Prelude Config ErrState PagePool Path Vfs ModCore BlkDev SectorDev.

(** ** ufs_format.h *)

Definition UFS_MAGIC : Z := 0x00011954.
Definition UFS_BLOCK_SIZE : Z := 4096.
Definition UFS_FRAGS_PER_BLK : Z := 8.
Definition UFS_INODE_SIZE : nat := 128.
Definition UFS_INODES_PER_SECTOR : Z := 4.
Definition UFS_DIRECT_BLOCKS : Z := 12.
Definition UFS_NAME_MAX : Z := 255.
Definition UFS_ROOT_INO : Z := 2.
Definition UFS_FAST_SYMLINK_MAX : Z := 48.
Definition UFS_SB_SECTOR : Z := 16.
Definition UFS_CG_SECTOR : Z := 32.
Definition UFS_FS_IBLKNO_OFF : nat := 16.
Definition UFS_FS_DBLKNO_OFF : nat := 20.
Definition UFS_FS_DSIZE_OFF : nat := 40.
Definition UFS_FS_BSIZE_OFF : nat := 48.
Definition UFS_FS_IPG_OFF : nat := 184.
Definition UFS_FS_CSTOTAL_NBFREE_OFF : nat := 196.
Definition UFS_FS_CSTOTAL_NIFREE_OFF : nat := 200.
Definition UFS_FS_MAGIC_OFF : Z := 1372.
Definition UFS_CG_CS_NBFREE_OFF : nat := 28.
Definition UFS_CG_CS_NIFREE_OFF : nat := 32.
Definition UFS_CG_IUSEDOFF_OFF : nat := 92.
Definition UFS_CG_FREEOFF_OFF : nat := 96.
Definition UFS_DIRBLK_SIZE : Z := 512.
Definition UFS_DT_UNKNOWN : Z := 0.
Definition UFS_DT_DIR : Z := 4.
Definition UFS_DT_REG : Z := 8.
Definition UFS_DT_LNK : Z := 10.

Record ufs_inode_t := UfsInode {
  i_mode : Z; i_nlink : Z; i_uid16 : Z; i_gid16 : Z;
  i_size : Z;
  i_atime : Z; i_atimensec : Z; i_mtime : Z; i_mtimensec : Z; i_ctime : Z; i_ctimensec : Z;
  i_direct : list Z;
  i_ib : list Z;
  i_flags : Z; i_blocks : Z; i_gen : Z; i_uid : Z; i_gid : Z;
  i_spare : Z
}.

Definition set_i_mode v n := UfsInode (u16 v) (i_nlink n) (i_uid16 n) (i_gid16 n) (i_size n) (i_atime n) (i_atimensec n) (i_mtime n) (i_mtimensec n) (i_ctime n) (i_ctimensec n) (i_direct n) (i_ib n) (i_flags n) (i_blocks n) (i_gen n) (i_uid n) (i_gid n) (i_spare n).
Definition set_i_nlink v n := UfsInode (i_mode n) (u16 v) (i_uid16 n) (i_gid16 n) (i_size n) (i_atime n) (i_atimensec n) (i_mtime n) (i_mtimensec n) (i_ctime n) (i_ctimensec n) (i_direct n) (i_ib n) (i_flags n) (i_blocks n) (i_gen n) (i_uid n) (i_gid n) (i_spare n).
Definition set_i_size v n := UfsInode (i_mode n) (i_nlink n) (i_uid16 n) (i_gid16 n) (uN 64 v) (i_atime n) (i_atimensec n) (i_mtime n) (i_mtimensec n) (i_ctime n) (i_ctimensec n) (i_direct n) (i_ib n) (i_flags n) (i_blocks n) (i_gen n) (i_uid n) (i_gid n) (i_spare n).
Definition set_i_atime v n := UfsInode (i_mode n) (i_nlink n) (i_uid16 n) (i_gid16 n) (i_size n) (u32 v) (i_atimensec n) (i_mtime n) (i_mtimensec n) (i_ctime n) (i_ctimensec n) (i_direct n) (i_ib n) (i_flags n) (i_blocks n) (i_gen n) (i_uid n) (i_gid n) (i_spare n).
Definition set_i_mtime v n := UfsInode (i_mode n) (i_nlink n) (i_uid16 n) (i_gid16 n) (i_size n) (i_atime n) (i_atimensec n) (u32 v) (i_mtimensec n) (i_ctime n) (i_ctimensec n) (i_direct n) (i_ib n) (i_flags n) (i_blocks n) (i_gen n) (i_uid n) (i_gid n) (i_spare n).
Definition set_i_ctime v n := UfsInode (i_mode n) (i_nlink n) (i_uid16 n) (i_gid16 n) (i_size n) (i_atime n) (i_atimensec n) (i_mtime n) (i_mtimensec n) (u32 v) (i_ctimensec n) (i_direct n) (i_ib n) (i_flags n) (i_blocks n) (i_gen n) (i_uid n) (i_gid n) (i_spare n).
Definition set_i_direct v n := UfsInode (i_mode n) (i_nlink n) (i_uid16 n) (i_gid16 n) (i_size n) (i_atime n) (i_atimensec n) (i_mtime n) (i_mtimensec n) (i_ctime n) (i_ctimensec n) v (i_ib n) (i_flags n) (i_blocks n) (i_gen n) (i_uid n) (i_gid n) (i_spare n).
Definition set_i_ib v n := UfsInode (i_mode n) (i_nlink n) (i_uid16 n) (i_gid16 n) (i_size n) (i_atime n) (i_atimensec n) (i_mtime n) (i_mtimensec n) (i_ctime n) (i_ctimensec n) (i_direct n) v (i_flags n) (i_blocks n) (i_gen n) (i_uid n) (i_gid n) (i_spare n).

(** [memset(inode, 0, sizeof( *inode))] *)
Definition blank_inode : ufs_inode_t := UfsInode 0 0 0 0 0 0 0 0 0 0 0 (replicate 12 0) (replicate 3 0) 0 0 0 0 0 0.

(** [i_direct[i]] and [i_ib[i]] *)
Definition direct (n : ufs_inode_t) (i : Z) : Z := i_direct n !!! Z.to_nat i.
Definition ib (n : ufs_inode_t) (i : nat) : Z := i_ib n !!! i.
Definition set_direct (i v : Z) (n : ufs_inode_t) : ufs_inode_t := set_i_direct (<[Z.to_nat i := v]> (i_direct n)) n.
Definition set_ib (i : nat) (v : Z) (n : ufs_inode_t) : ufs_inode_t := set_i_ib (<[i := v]> (i_ib n)) n.

Definition PTRS_PER_BLOCK : Z := UFS_BLOCK_SIZE / 4.
Definition PTRS_PER_SEC : Z := BLKDEV_SECTOR_SIZE / 4.

Section Blocks.
Context {cfg : PageConfig} {ps : PageStore} {sd : SectorDev} {bo : ByteOrder}.
(** The bytes of an uninitialised [uint32_t]. *)
Context (junk : list Z).

(** The structure's 128 bytes on disk, which is its layout in memory. *)
Definition decode_inode (b : list Z) : ufs_inode_t :=
  UfsInode (get_word 2 0 b) (get_word 2 2 b) (get_word 2 4 b) (get_word 2 6 b) (get_word 8 8 b)
    (get_word 4 16 b) (get_word 4 20 b) (get_word 4 24 b) (get_word 4 28 b) (get_word 4 32 b) (get_word 4 36 b)
    ((λ i, get_word 4 (40 + 4 * i) b) <$> seq 0 12) ((λ i, get_word 4 (88 + 4 * i) b) <$> seq 0 3)
    (get_word 4 100 b) (get_word 4 104 b) (get_word 4 108 b) (get_word 4 112 b) (get_word 4 116 b) (get_word 8 120 b).
Definition encode_inode (n : ufs_inode_t) : list Z :=
  bytes_of 2 (i_mode n) ++ bytes_of 2 (i_nlink n) ++ bytes_of 2 (i_uid16 n) ++ bytes_of 2 (i_gid16 n) ++ bytes_of 8 (i_size n) ++
  bytes_of 4 (i_atime n) ++ bytes_of 4 (i_atimensec n) ++ bytes_of 4 (i_mtime n) ++ bytes_of 4 (i_mtimensec n) ++
  bytes_of 4 (i_ctime n) ++ bytes_of 4 (i_ctimensec n) ++ mjoin (bytes_of 4 <$> i_direct n) ++ mjoin (bytes_of 4 <$> i_ib n) ++
  bytes_of 4 (i_flags n) ++ bytes_of 4 (i_blocks n) ++ bytes_of 4 (i_gen n) ++ bytes_of 4 (i_uid n) ++ bytes_of 4 (i_gid n) ++
  bytes_of 8 (i_spare n).

(** ** The state *)

(** [ufs_priv_t] with [dev] in [u_disk], and the buffer. *)
Record ufs_t := UfsState {
  itable_sector : Z;
  data_frag : Z;
  dsize_frags : Z;
  inode_count : Z;
  free_blocks : Z;
  free_inodes : Z;
  cg_freeoff : Z;
  cg_iusedoff : Z;
  scratch_page : Z;
  ufs_buf : list Z;
  u_disk : disk;
  u_core : core
}.

Definition set_counts fb fi (s : ufs_t) := UfsState (itable_sector s) (data_frag s) (dsize_frags s) (inode_count s) (u32 fb) (u32 fi) (cg_freeoff s) (cg_iusedoff s) (scratch_page s) (ufs_buf s) (u_disk s) (u_core s).
Definition set_buf v (s : ufs_t) := UfsState (itable_sector s) (data_frag s) (dsize_frags s) (inode_count s) (free_blocks s) (free_inodes s) (cg_freeoff s) (cg_iusedoff s) (scratch_page s) v (u_disk s) (u_core s).
Definition set_disk v (s : ufs_t) := UfsState (itable_sector s) (data_frag s) (dsize_frags s) (inode_count s) (free_blocks s) (free_inodes s) (cg_freeoff s) (cg_iusedoff s) (scratch_page s) (ufs_buf s) v (u_core s).
Definition set_ucore v (s : ufs_t) := UfsState (itable_sector s) (data_frag s) (dsize_frags s) (inode_count s) (free_blocks s) (free_inodes s) (cg_freeoff s) (cg_iusedoff s) (scratch_page s) (ufs_buf s) (u_disk s) v.

#[local] Abbreviation U := (prog ufs_t).

Definition upd_buf (f : list Z → list Z) : U unit := modify (λ s, set_buf (f (ufs_buf s)) s).

(** ** Sectors *)

Definition ufs_read_sector (abs_sector : Z) : U unit := λ s,
  let '(rc, bs, d) := disk_read (u32 abs_sector) (u_disk s) in
  let s := set_buf bs (set_disk d s) in
  if rc <? 0 then (inl rc, s) else (inr (), s).

Definition ufs_write_sector (abs_sector : Z) : U unit := λ s,
  let '(rc, d) := disk_write (u32 abs_sector) (ufs_buf s) (u_disk s) in
  let s := set_disk d s in
  if rc <? 0 then (inl rc, s) else (inr (), s).

(** ** The bitmaps *)

(** The offset within the sector of byte [byte_off] of the cylinder group; its
    sector, which is in the buffer afterwards, goes with it. *)
Definition ufs_cg_byte_read (byte_off : Z) : U (Z * Z) :=
  let cg_sec := u32 (UFS_CG_SECTOR + byte_off / BLKDEV_SECTOR_SIZE) in
  ufs_read_sector cg_sec;; mret (cg_sec, byte_off mod BLKDEV_SECTOR_SIZE).

Definition buf_byte (off : Z) : U Z := gets (λ s, ufs_buf s !!! Z.to_nat off).
Definition set_buf_byte (off v : Z) : U unit := upd_buf (<[Z.to_nat off := u8 v]>).

(** Block [n], when its eight fragments are free. *)
Definition try_block (n : Z) : U (option Z) :=
  st ← gets id;
  p ← ufs_cg_byte_read (u32 (cg_freeoff st + n));
  b ← buf_byte p.2;
  if negb (b =? 0xFF) then mret None
  else
    set_buf_byte p.2 0x00;;
    ufs_write_sector p.1;;
    modify (λ s, set_counts (free_blocks s - 1) (free_inodes s) s);;
    mret (Some (u32 (data_frag st + n * UFS_FRAGS_PER_BLK))).

Definition ufs_alloc_block : U Z :=
  st ← gets id;
  r ← find_each (Z.to_nat (dsize_frags st / UFS_FRAGS_PER_BLK)) 0 try_block;
  match r with Some frag => mret frag | None => throw (- ENOSPC) end.

Definition ufs_free_block (frag : Z) : U unit :=
  st ← gets id;
  if frag <? data_frag st then throw (- EINVAL)
  else
    let n := (frag - data_frag st) / UFS_FRAGS_PER_BLK in
    p ← ufs_cg_byte_read (u32 (cg_freeoff st + n));
    set_buf_byte p.2 0xFF;;
    ufs_write_sector p.1;;
    modify (λ s, set_counts (free_blocks s + 1) (free_inodes s) s).

Definition try_inode (ino : Z) : U (option Z) :=
  st ← gets id;
  p ← ufs_cg_byte_read (u32 (cg_iusedoff st + ino / 8));
  b ← buf_byte p.2;
  let bit := Z.shiftl 1 (ino mod 8) in
  if bset b bit then mret None
  else
    set_buf_byte p.2 (Z.lor b bit);;
    ufs_write_sector p.1;;
    modify (λ s, set_counts (free_blocks s) (free_inodes s - 1) s);;
    mret (Some ino).

Definition ufs_alloc_inode : U Z :=
  st ← gets id;
  r ← find_each (Z.to_nat (inode_count st - (UFS_ROOT_INO + 1))) (UFS_ROOT_INO + 1) try_inode;
  match r with Some ino => mret ino | None => throw (- ENOSPC) end.

Definition ufs_free_inode (ino : Z) : U unit :=
  st ← gets id;
  if inode_count st <=? ino then throw (- EINVAL)
  else
    p ← ufs_cg_byte_read (u32 (cg_iusedoff st + ino / 8));
    b ← buf_byte p.2;
    set_buf_byte p.2 (Z.land b (u8 (Z.lnot (Z.shiftl 1 (ino mod 8)))));;
    ufs_write_sector p.1;;
    modify (λ s, set_counts (free_blocks s) (free_inodes s + 1) s).

(** ** Inodes, the superblock, zeroing *)

Definition inode_sector (st : ufs_t) (ino : Z) : Z := u32 (itable_sector st + ino / UFS_INODES_PER_SECTOR).
Definition inode_off (ino : Z) : nat := Z.to_nat (ino mod UFS_INODES_PER_SECTOR) * UFS_INODE_SIZE.

Definition ufs_read_inode (ino : Z) : U ufs_inode_t :=
  st ← gets id;
  ufs_read_sector (inode_sector st ino);;
  gets (λ s, decode_inode (take UFS_INODE_SIZE (drop (inode_off ino) (ufs_buf s)))).

Definition ufs_write_inode (ino : Z) (n : ufs_inode_t) : U unit :=
  st ← gets id;
  ufs_read_sector (inode_sector st ino);;
  upd_buf (put_bytes (inode_off ino) (encode_inode n));;
  ufs_write_sector (inode_sector st ino).

Definition ufs_sync_super : U unit :=
  st ← gets id;
  ufs_read_sector UFS_SB_SECTOR;;
  upd_buf (λ b, put_word 4 UFS_FS_CSTOTAL_NIFREE_OFF (free_inodes st) (put_word 4 UFS_FS_CSTOTAL_NBFREE_OFF (free_blocks st) b));;
  ufs_write_sector UFS_SB_SECTOR;;
  ufs_read_sector UFS_CG_SECTOR;;
  upd_buf (λ b, put_word 4 UFS_CG_CS_NIFREE_OFF (free_inodes st) (put_word 4 UFS_CG_CS_NBFREE_OFF (free_blocks st) b));;
  ufs_write_sector UFS_CG_SECTOR.

Definition zero_sector : list Z := replicate SECTOR 0.

Definition ufs_zero_block (frag : Z) : U unit :=
  upd_buf (λ _, zero_sector);;
  for_each (Z.to_nat UFS_FRAGS_PER_BLK) 0 (λ s, ufs_write_sector (frag + s)).

(** ** The block map *)

(** [((uint32_t * )ufs_buf)[k]] *)
Definition buf_ptr (k : Z) : U Z := gets (λ s, get_word 4 (4 * Z.to_nat k) (ufs_buf s)).
Definition set_buf_ptr (k v : Z) : U unit := upd_buf (put_word 4 (4 * Z.to_nat k) v).

(** Entry [idx] of the table of pointers in the block at [frag]. *)
Definition read_ptr (frag idx : Z) : U Z := ufs_read_sector (frag + idx / PTRS_PER_SEC);; buf_ptr (idx mod PTRS_PER_SEC).
Definition write_ptr (frag idx v : Z) : U unit :=
  ufs_read_sector (frag + idx / PTRS_PER_SEC);;
  set_buf_ptr (idx mod PTRS_PER_SEC) v;;
  ufs_write_sector (frag + idx / PTRS_PER_SEC).

Definition ufs_block_map (n : ufs_inode_t) (logical : Z) : U Z :=
  if logical <? UFS_DIRECT_BLOCKS then mret (direct n logical)
  else
    let ind_idx := logical - UFS_DIRECT_BLOCKS in
    if ind_idx <? PTRS_PER_BLOCK then
      if ib n 0 =? 0 then mret 0 else read_ptr (ib n 0) ind_idx
    else
      let di_idx := ind_idx - PTRS_PER_BLOCK in
      if PTRS_PER_BLOCK * PTRS_PER_BLOCK <=? di_idx then throw (- EIO)
      else if ib n 1 =? 0 then mret 0
      else
        inner_frag ← read_ptr (ib n 1) (di_idx / PTRS_PER_BLOCK);
        if inner_frag =? 0 then mret 0 else read_ptr inner_frag (di_idx mod PTRS_PER_BLOCK).

(** A zeroed block for a table of pointers. *)
Definition new_table : U Z := frag ← ufs_alloc_block; ufs_zero_block frag;; mret frag.

(** The inode with the table it may have got. *)
Definition ufs_block_set (n : ufs_inode_t) (logical phys : Z) : U ufs_inode_t :=
  if logical <? UFS_DIRECT_BLOCKS then mret (set_direct logical phys n)
  else
    let ind_idx := logical - UFS_DIRECT_BLOCKS in
    if ind_idx <? PTRS_PER_BLOCK then
      n ← (if ib n 0 =? 0 then frag ← new_table; mret (set_ib 0 frag n) else mret n);
      write_ptr (ib n 0) ind_idx phys;;
      mret n
    else
      let di_idx := ind_idx - PTRS_PER_BLOCK in
      if PTRS_PER_BLOCK * PTRS_PER_BLOCK <=? di_idx then throw (- ENOSPC)
      else
        n ← (if ib n 1 =? 0 then frag ← new_table; mret (set_ib 1 frag n) else mret n);
        let outer_idx := di_idx / PTRS_PER_BLOCK in
        inner_frag ← read_ptr (ib n 1) outer_idx;
        inner_frag ← (if inner_frag =? 0 then frag ← new_table; write_ptr (ib n 1) outer_idx frag;; mret frag else mret inner_frag);
        write_ptr inner_frag (di_idx mod PTRS_PER_BLOCK) phys;;
        mret n.

(** ** Freeing *)

(** [page_write(scratch_page, off, bs, n)] and [page_read(scratch_page, off, dst, n)]; the latter
    leaves [old], what [dst] held, when there is no page. *)
Definition scratch_write (off : Z) (bs : list Z) : U unit := modify (λ s, set_ucore (core_write (scratch_page s) off bs (u_core s)) s).
Definition scratch_read (off : Z) (n : nat) (old : list Z) : U (list Z) :=
  gets (λ s, match core_read (scratch_page s) off n (u_core s) with [] => old | bs => bs end).
Definition scratch_ptr (off : Z) : U Z := bs ← scratch_read (u16 off) 4 junk; mret (word_of bs).

Definition ufs_free_indirect_ptrs (start count : Z) : U unit :=
  b ← gets ufs_buf;
  scratch_write 0 b;;
  for_each (Z.to_nat (count - start)) start (λ j,
    ptr ← scratch_ptr (j * 4);
    if negb (ptr =? 0) then ignore (ufs_free_block ptr) else mret ()).

(** The sectors of a table of pointers from [first] on, freed up to the first
    error; of the first of them only the pointers from [start] on. *)
Definition free_table_from (frag first start : Z) : U unit :=
  ignore (for_each (Z.to_nat (UFS_FRAGS_PER_BLK - first)) first (λ s,
    ufs_read_sector (frag + s);;
    ufs_free_indirect_ptrs (if s =? first then start else 0) PTRS_PER_SEC)).
Definition free_table (frag : Z) : U unit := free_table_from frag 0 0;; ignore (ufs_free_block frag).

Definition UFS_SCRATCH_OUTER_OFF : Z := 2048.

(** Entry [i] of sector [s] of the outer table; the result tells whether it has
    been cleared. *)
Definition free_outer_entry (keep s i : Z) : U bool :=
  let outer_idx := s * PTRS_PER_SEC + i in
  let block_start := outer_idx * PTRS_PER_BLOCK in
  inner_frag ← scratch_ptr (UFS_SCRATCH_OUTER_OFF + i * 4);
  if inner_frag =? 0 then mret false
  else if keep <=? block_start then
    free_table inner_frag;;
    scratch_write (u16 (UFS_SCRATCH_OUTER_OFF + i * 4)) (bytes_of 4 0);;
    mret true
  else if keep <? block_start + PTRS_PER_BLOCK then
    let keep_in_inner := keep - block_start in
    free_table_from inner_frag (keep_in_inner / PTRS_PER_SEC) (keep_in_inner mod PTRS_PER_SEC);;
    mret false
  else mret false.

Fixpoint free_outer_entries (n : nat) (keep s i : Z) (sector_dirty : bool) : U bool :=
  match n with
  | O => mret sector_dirty
  | S n =>
      d ← free_outer_entry keep s i;
      free_outer_entries n keep s (i + 1) (sector_dirty || d)
  end.

Definition free_outer_sector (ib2_frag keep s : Z) : U unit :=
  ufs_read_sector (ib2_frag + s);;
  b ← gets ufs_buf;
  scratch_write UFS_SCRATCH_OUTER_OFF b;;
  sector_dirty ← free_outer_entries (Z.to_nat PTRS_PER_SEC) keep s 0 false;
  if (sector_dirty : bool) then
    b ← gets ufs_buf;
    b ← scratch_read UFS_SCRATCH_OUTER_OFF SECTOR b;
    upd_buf (λ _, b);;
    ufs_write_sector (ib2_frag + s)
  else mret ().

(** A [return] at an error skips the freeing of the outer block. *)
Definition ufs_free_double_indirect (ib2_frag keep : Z) : U unit :=
  ignore (
    for_each (Z.to_nat UFS_FRAGS_PER_BLK) 0 (free_outer_sector ib2_frag keep);;
    if keep =? 0 then ufs_free_block ib2_frag else mret ()).

(** The direct blocks from [k] on. *)
Definition free_direct_from (k : Z) (n : ufs_inode_t) : U ufs_inode_t :=
  for_each (Z.to_nat (UFS_DIRECT_BLOCKS - k)) k (λ i, if negb (direct n i =? 0) then ignore (ufs_free_block (direct n i)) else mret ());;
  mret (set_i_direct (take (Z.to_nat k) (i_direct n) ++ replicate (Z.to_nat (UFS_DIRECT_BLOCKS - k)) 0) n).

(** Everything an inode has, as [ufs_truncate] to nothing and [ufs_unlink] do. *)
Definition free_all_blocks (n : ufs_inode_t) : U ufs_inode_t :=
  n ← free_direct_from 0 n;
  n ← (if negb (ib n 0 =? 0) then free_table (ib n 0);; mret (set_ib 0 0 n) else mret n);
  if negb (ib n 1 =? 0) then ufs_free_double_indirect (ib n 1) 0;; mret (set_ib 1 0 n) else mret n.
End Blocks.
