(* ===== verification/UfsOps.v ===== *)
(** * UfsOps: the operations of the UFS driver on vnodes (src/kernel/vfs/ufs.c)

    Directories, reading and writing, creation and removal, truncation, and the
    attributes, as programs on the vfs state whose driver world is [ufs_t].  A
    result pointer is the program's result.  The wrappers with the driver mutex
    add nothing to the atomic programs below. *)

From S2P Require Import Prelude Config ErrState PagePool Path Vfs Driver ModCore Tmpfs BlkDev SectorDev Ufs.

Definition S_IFLNK : Z := 0xA000.
Definition DT_LNK : Z := 10.
Definition S_ISDIR (m : Z) : bool := Z.land m S_IFMT =? S_IFDIR.
Definition S_ISLNK (m : Z) : bool := Z.land m S_IFMT =? S_IFLNK.

(** [UFS_DIRENT_MINREC] *)
Definition minrec (nl : Z) : Z := u16 (Z.land (8 + nl + 1 + 3) (Z.lnot 3)).

Section Operations.
Context {cfg : PageConfig} {ps : PageStore} {sd : SectorDev} {bo : ByteOrder} (junk : list Z).
#[local] Abbreviation vfs := (vfs_t ufs_t).
#[local] Abbreviation U := (prog ufs_t).
#[local] Abbreviation V := (prog vfs).

Definition scratch_alloc : V bool := λ st, let '(b, st) := vfs_scratch_alloc st in (inr b, st).
Definition scratch_release (b : bool) : V unit := modify (vfs_scratch_free b).
(** A scratch buffer around [m], released on every path out of it. *)
Definition with_scratch {A} (m : V A) : V A :=
  b ← scratch_alloc;
  if negb b then throw (- ENOMEM)
  else
    r ← attempt m;
    scratch_release true;;
    match r with inl rc => throw rc | inr x => mret x end.
(** [if (rc < 0) { cleanup; return rc; }] *)
Definition on_error {A} (m : V A) (cleanup : V unit) : V A :=
  r ← attempt m;
  match r with inl rc => cleanup;; throw rc | inr x => mret x end.

Definition time_now_sec : V Z := gets (λ st, core_time (u_core (fs_world st))).

(** ** Vnodes and mounting *)

(** None where the pool is empty. *)
Definition ufs_vnode_from_inode (mnt : option nat) (ino : Z) (n : ufs_inode_t) : V (option nat) := λ st,
  match vfs_vnode_alloc st with
  | (None, st) => (inr None, st)
  | (Some v, st) =>
      let type := if S_ISDIR (i_mode n) then VNODE_DIR else if S_ISLNK (i_mode n) then VNODE_SYMLINK else VNODE_FILE in
      (inr (Some v), upd_vnode v (λ x, Vnode type (u32 (i_size n)) (i_mode n) ino (vn_refcnt x)
                       (from_option (λ m, mnt_sb_priv (mount_at st m)) 0 mnt) mnt (vn_xip_addr x)) st)
  end.

Definition UFS_PRIV : Z := 1.

(** The selected device and a new scratch page. *)
Definition mount_begin (dev_data : Z) : U unit := λ s,
  match disk_find dev_data (u_disk s) with
  | None => (inl (- EINVAL), s)
  | Some d =>
      let '(rc, p, c) := core_alloc (u_core s) in
      (inr (), UfsState (itable_sector s) (data_frag s) (dsize_frags s) (inode_count s) (free_blocks s) (free_inodes s)
                 (cg_freeoff s) (cg_iusedoff s) (if rc =? 0 then p else PAGE_ID_INVALID) (ufs_buf s) d c)
  end.

Definition sb_word (off : nat) (s : ufs_t) : Z := get_word 4 off (ufs_buf s).

(** [set_layout]: the fields of the superblock, [set_bitmaps]: those of the cylinder group. *)
Definition set_layout (s : ufs_t) : ufs_t :=
  UfsState (sb_word UFS_FS_IBLKNO_OFF s) (sb_word UFS_FS_DBLKNO_OFF s) (sb_word UFS_FS_DSIZE_OFF s) (sb_word UFS_FS_IPG_OFF s)
    (sb_word UFS_FS_CSTOTAL_NBFREE_OFF s) (sb_word UFS_FS_CSTOTAL_NIFREE_OFF s) (cg_freeoff s) (cg_iusedoff s) (scratch_page s)
    (ufs_buf s) (u_disk s) (u_core s).
Definition set_bitmaps (s : ufs_t) : ufs_t :=
  UfsState (itable_sector s) (data_frag s) (dsize_frags s) (inode_count s) (free_blocks s) (free_inodes s)
    (sb_word UFS_CG_FREEOFF_OFF s) (sb_word UFS_CG_IUSEDOFF_OFF s) (scratch_page s) (ufs_buf s) (u_disk s) (u_core s).

Definition mount_read (dev_data : Z) : U ufs_inode_t :=
  mount_begin dev_data;;
  ufs_read_sector UFS_SB_SECTOR;;
  bsize ← gets (sb_word UFS_FS_BSIZE_OFF);
  if negb (bsize =? UFS_BLOCK_SIZE) then throw (- EINVAL)
  else
    modify set_layout;;
    ufs_read_sector (UFS_SB_SECTOR + UFS_FS_MAGIC_OFF / BLKDEV_SECTOR_SIZE);;
    magic ← gets (sb_word (Z.to_nat (UFS_FS_MAGIC_OFF mod BLKDEV_SECTOR_SIZE)));
    if negb (magic =? UFS_MAGIC) then throw (- EINVAL)
    else
      ufs_read_sector UFS_CG_SECTOR;;
      modify set_bitmaps;;
      ufs_read_inode UFS_ROOT_INO.

Definition ufs_mount (mnt : nat) (dev_data : Z) : V unit :=
  root_inode ← lift (mount_read dev_data);
  modify (upd_mount mnt (set_sb_priv UFS_PRIV));;
  root ← ufs_vnode_from_inode (Some mnt) UFS_ROOT_INO root_inode;
  match root with
  | None => throw (- ENOMEM)
  | Some v => modify (upd_mount mnt (set_root (Some v)))
  end.

(** ** Directory entries *)

(** [ufs_dirent_t] at offset [off] of a sector; bytes behind the buffer, which a
    name on a damaged disk could reach, read as zero. *)
Definition de_ino (off : nat) (b : list Z) : Z := get_word 4 off b.
Definition de_reclen (off : nat) (b : list Z) : Z := get_word 2 (off + 4) b.
Definition de_type (off : nat) (b : list Z) : Z := b !!! (off + 6)%nat.
Definition de_namlen (off : nat) (b : list Z) : Z := b !!! (off + 7)%nat.
Definition de_char (off i : nat) (b : list Z) : Z := b !!! (off + 8 + i)%nat.

(** [d_ino], [d_reclen], [d_type], [d_namlen] and the name's characters *)
Definition put_dirent (off : nat) (ino reclen type namlen : Z) (nm b : list Z) : list Z :=
  put_bytes (off + 8) nm (<[(off + 7)%nat := u8 namlen]> (<[(off + 6)%nat := u8 type]> (put_word 2 (off + 4) reclen (put_word 4 off ino b)))).

(** [while (off + sizeof(ufs_dirent_t) <= BLKDEV_SECTOR_SIZE)]: the first entry
    for which [f] has a result.  An entry moves [off] on, so that the sector's
    size is fuel enough. *)
Fixpoint scan_sector {A} (fuel off : nat) (f : nat → list Z → option A) (b : list Z) : option A :=
  match fuel with
  | O => None
  | S fuel =>
      if Z.of_nat off + 8 <=? BLKDEV_SECTOR_SIZE then
        if de_reclen off b =? 0 then None
        else match f off b with
             | Some x => Some x
             | None => scan_sector fuel (off + Z.to_nat (de_reclen off b)) f b
             end
      else None
  end.

(** [d_namlen == namlen] and the same characters *)
Definition same_name (nm : name) (namlen : Z) (off : nat) (b : list Z) : bool :=
  (de_namlen off b =? u8 namlen) && forallb (λ i, de_char off i b =? nm !!! i) (seq 0 (Z.to_nat namlen)).

(** The sectors of a directory in order, until [g] has a result for one of them,
    which it finds in the buffer. *)
Definition nblocks_of (n : ufs_inode_t) : Z := u32 (u32 (i_size n) + UFS_BLOCK_SIZE - 1) / UFS_BLOCK_SIZE.
Definition find_sector {A} (n : ufs_inode_t) (g : Z → V (option A)) : V (option A) :=
  find_each (Z.to_nat (nblocks_of n)) 0 (λ b,
    phys ← lift (ufs_block_map n b);
    if phys =? 0 then mret None
    else find_each (Z.to_nat UFS_FRAGS_PER_BLK) 0 (λ s,
      lift (ufs_read_sector (phys + s));;
      g (u32 (phys + s)))).

Definition in_buf {A} (f : list Z → option A) : V (option A) := gets (λ st, f (ufs_buf (fs_world st))).

Definition lookup_entry (nm : name) (namlen : Z) (off : nat) (b : list Z) : option Z :=
  if negb (de_ino off b =? 0) && same_name nm namlen off b then Some (de_ino off b) else None.

Definition ufs_lookup (dir : nat) (nm : name) : V nat :=
  dv ← vnode_of dir;
  with_scratch (
    dir_inode ← lift (ufs_read_inode (vn_ino dv));
    let namlen := Z.of_nat (length nm) in
    if UFS_NAME_MAX <? namlen then throw (- ENOENT)
    else
      r ← find_sector dir_inode (λ _, in_buf (scan_sector SECTOR 0 (lookup_entry nm namlen)));
      match r with
      | None => throw (- ENOENT)
      | Some child_ino =>
          child ← lift (ufs_read_inode child_ino);
          vn ← ufs_vnode_from_inode (vn_mount dv) child_ino child;
          match vn with None => throw (- ENOMEM) | Some v => mret v end
      end).

(** ** Reading and writing *)

(** One pass: the page's next offset and what is left; None at a hole. *)
Definition read_chunk (n : ufs_inode_t) (page page_off remaining pos : Z) : U (option Z) :=
  let off_in_blk := pos mod UFS_BLOCK_SIZE in
  let off_in_sec := off_in_blk mod BLKDEV_SECTOR_SIZE in
  phys ← ufs_block_map n (pos / UFS_BLOCK_SIZE);
  if phys =? 0 then mret None
  else
    ufs_read_sector (phys + off_in_blk / BLKDEV_SECTOR_SIZE);;
    let avail := BLKDEV_SECTOR_SIZE - off_in_sec in
    let avail := if remaining <? avail then remaining else avail in
    modify (λ s, set_ucore (core_write page page_off (take (Z.to_nat avail) (drop (Z.to_nat off_in_sec) (ufs_buf s))) (u_core s)) s);;
    mret (Some avail).

(** [while (remaining > 0)]; every pass moves at least a byte. *)
Fixpoint read_loop (fuel : nat) (nd : ufs_inode_t) (page page_off n remaining pos : Z) : U Z :=
  match fuel with
  | O => mret remaining
  | S fuel =>
      if 0 <? remaining then
        r ← attempt (read_chunk nd page page_off remaining pos);
        match r with
        | inl rc => if 0 <? n - remaining then mret remaining else throw rc
        | inr None => mret remaining
        | inr (Some avail) => read_loop fuel nd page (u16 (page_off + avail)) n (remaining - avail) (u32 (pos + avail))
        end
      else mret remaining
  end.

Definition ufs_read (vn : nat) (page page_off n off : Z) : V Z :=
  v ← vnode_of vn;
  if bool_decide (vn_type v = VNODE_DIR) then throw (- EISDIR)
  else if vn_size v <=? off then mret 0
  else
    let n := if vn_size v <? u32 (off + n) then u32 (vn_size v - off) else n in
    with_scratch (
      inode ← lift (ufs_read_inode (vn_ino v));
      remaining ← lift (read_loop (Z.to_nat n) inode page page_off n n off);
      mret (s32 (n - remaining))).

(** The block at [logical], allocated when there is none. *)
Definition writable_block (n : ufs_inode_t) (logical : Z) : U (ufs_inode_t * Z) :=
  phys ← ufs_block_map n logical;
  if phys =? 0 then
    phys ← ufs_alloc_block;
    ufs_zero_block phys;;
    n ← ufs_block_set n logical phys;
    mret (n, phys)
  else mret (n, phys).

Definition write_chunk (n : ufs_inode_t) (page page_off remaining pos : Z) : U (ufs_inode_t * Z) :=
  let off_in_blk := pos mod UFS_BLOCK_SIZE in
  let sec_in_blk := off_in_blk / BLKDEV_SECTOR_SIZE in
  let off_in_sec := off_in_blk mod BLKDEV_SECTOR_SIZE in
  p ← writable_block n (pos / UFS_BLOCK_SIZE);
  let '(n, phys) := (p : ufs_inode_t * Z) in
  let avail := BLKDEV_SECTOR_SIZE - off_in_sec in
  let avail := if remaining <? avail then remaining else avail in
  (if negb (off_in_sec =? 0) || (avail <? BLKDEV_SECTOR_SIZE) then ufs_read_sector (phys + sec_in_blk) else mret ());;
  modify (λ s, set_buf (put_bytes (Z.to_nat off_in_sec) (core_read page page_off (Z.to_nat avail) (u_core s)) (ufs_buf s)) s);;
  ufs_write_sector (phys + sec_in_blk);;
  mret (n, avail).

(** The inode and what is left; None for the inode at [goto out]. *)
Fixpoint write_loop (fuel : nat) (nd : ufs_inode_t) (page page_off n remaining pos : Z) : U (option ufs_inode_t * Z) :=
  match fuel with
  | O => mret (Some nd, remaining)
  | S fuel =>
      if 0 <? remaining then
        r ← attempt (write_chunk nd page page_off remaining pos);
        match r with
        | inl rc => if 0 <? n - remaining then mret (None, remaining) else throw rc
        | inr (nd, avail) => write_loop fuel nd page (u16 (page_off + avail)) n (remaining - avail) (u32 (pos + avail))
        end
      else mret (Some nd, remaining)
  end.

Definition touch_times (now : Z) (n : ufs_inode_t) : ufs_inode_t := set_i_ctime now (set_i_mtime now n).

Definition ufs_write (vn : nat) (page page_off n off : Z) : V Z :=
  v ← vnode_of vn;
  if bool_decide (vn_type v = VNODE_DIR) then throw (- EISDIR)
  else
    with_scratch (
      inode ← lift (ufs_read_inode (vn_ino v));
      r ← lift (write_loop (Z.to_nat n) inode page page_off n n off);
      let '(done, remaining) := (r : option ufs_inode_t * Z) in
      match done with
      | None => mret (s32 (n - remaining))
      | Some inode =>
          let end_ := u32 (off + (n - remaining)) in
          (if i_size inode <? end_ then modify (upd_vnode vn (set_vn_size end_)) else mret ());;
          let inode := if i_size inode <? end_ then set_i_size end_ inode else inode in
          now ← time_now_sec;
          lift (ufs_write_inode (vn_ino v) (touch_times now inode));;
          lift (ignore ufs_sync_super);;
          mret (s32 (n - remaining))
      end).

(** ** Listing *)

Definition is_dot (off : nat) (b : list Z) : bool := (de_namlen off b =? 1) && (de_char off 0 b =? DOT).
Definition is_dotdot (off : nat) (b : list Z) : bool :=
  (de_namlen off b =? 2) && (de_char off 0 b =? DOT) && (de_char off 1 b =? DOT).

(** [d_type] of an entry of unknown type, from its inode; the directory's sector
    is read back.  None when that fails. *)
Definition type_from_inode (child_ino sec : Z) : V (option Z) :=
  b ← scratch_alloc;
  r ← (if b then attempt (lift (ufs_read_inode child_ino)) else mret (inl 0));
  let t := match r with
           | inr child => if S_ISDIR (i_mode child) then DT_DIR else if S_ISLNK (i_mode child) then DT_LNK else DT_REG
           | inl _ => DT_REG
           end in
  scratch_release b;;
  r ← attempt (lift (ufs_read_sector sec));
  mret (match r with inr _ => Some t | inl _ => None end).

Definition entry_type (off : nat) (b : list Z) (sec : Z) : V (option Z) :=
  if de_type off b =? UFS_DT_DIR then mret (Some DT_DIR)
  else if de_type off b =? UFS_DT_LNK then mret (Some DT_LNK)
  else if de_type off b =? UFS_DT_REG then mret (Some DT_REG)
  else type_from_inode (de_ino off b) sec.

(** The entries so far in reverse, [entry_idx], and whether it is [goto done]. *)
Record listing := Listing { ls_entries : list dirent; ls_idx : Z; ls_done : bool }.

Fixpoint list_sector (fuel off : nat) (sec : Z) (max : nat) (target : Z) (l : listing) : V listing :=
  match fuel with
  | O => mret l
  | S fuel =>
      b ← gets (λ st, ufs_buf (fs_world st));
      if Z.of_nat off + 8 <=? BLKDEV_SECTOR_SIZE then
        if de_reclen off b =? 0 then mret l
        else
          let next := (off + Z.to_nat (de_reclen off b))%nat in
          if de_ino off b =? 0 then list_sector fuel next sec max target l
          else if is_dot off b || is_dotdot off b || (ls_idx l <? target)
          then list_sector fuel next sec max target (Listing (ls_entries l) (u32 (ls_idx l + 1)) false)
          else if (max <=? length (ls_entries l))%nat then mret (Listing (ls_entries l) (ls_idx l) true)
          else
            let nl := Z.min (de_namlen off b) (Z.of_nat VFS_NAME_MAX) in
            let nm := (λ i, de_char off i b) <$> seq 0 (Z.to_nat nl) in
            t ← entry_type off b sec;
            match t with
            | None => mret (Listing (ls_entries l) (ls_idx l) true)
            | Some t => list_sector fuel next sec max target (Listing (Dirent (de_ino off b) t nm :: ls_entries l) (u32 (ls_idx l + 1)) false)
            end
      else mret l
  end.

Fixpoint list_sectors (n : nat) (s phys : Z) (max : nat) (target : Z) (l : listing) : V listing :=
  match n with
  | O => mret l
  | S n =>
      lift (ufs_read_sector (phys + s));;
      l ← list_sector SECTOR 0 (phys + s) max target l;
      if ls_done l then mret l else list_sectors n (s + 1) phys max target l
  end.

Fixpoint list_blocks (n : nat) (b : Z) (nd : ufs_inode_t) (max : nat) (target : Z) (l : listing) : V listing :=
  match n with
  | O => mret l
  | S n =>
      phys ← lift (ufs_block_map nd b);
      if phys =? 0 then list_blocks n (b + 1) nd max target l
      else
        l ← list_sectors (Z.to_nat UFS_FRAGS_PER_BLK) 0 phys max target l;
        if ls_done l then mret l else list_blocks n (b + 1) nd max target l
  end.

(** The entries and the new [*cookie]. *)
Definition ufs_readdir (dir max_entries : nat) (cookie : Z) : V (list dirent * Z) :=
  dv ← vnode_of dir;
  with_scratch (
    nd ← lift (ufs_read_inode (vn_ino dv));
    l ← list_blocks (Z.to_nat (nblocks_of nd)) 0 nd max_entries cookie (Listing [] 0 false);
    mret (rev (ls_entries l), ls_idx l)).

(** ** Adding and removing entries *)

(** The sector with the new entry, in a deleted slot or split off a live one. *)
Definition add_slot (nm : name) (namlen child_ino : Z) (off : nat) (b : list Z) : option (list Z) :=
  let new_min := minrec namlen in
  let reclen := de_reclen off b in
  if (de_ino off b =? 0) && (new_min <=? reclen)
  then Some (put_dirent off child_ino reclen UFS_DT_UNKNOWN namlen nm b)
  else if negb (de_ino off b =? 0) then
    let min_here := minrec (de_namlen off b) in
    if new_min <=? u16 (reclen - min_here)
    then Some (put_dirent (off + Z.to_nat min_here) child_ino (reclen - min_here) UFS_DT_UNKNOWN namlen nm
                 (put_word 2 (off + 4) min_here b))
    else None
  else None.

(** The sectors of a new directory block: one with an entry over all of it, and
    the placeholder of the others. *)
Definition first_sector (nm : name) (namlen child_ino : Z) : list Z :=
  put_dirent 0 child_ino UFS_DIRBLK_SIZE UFS_DT_UNKNOWN namlen nm zero_sector.
Definition placeholder : list Z := put_word 2 4 UFS_DIRBLK_SIZE (put_word 4 0 0 zero_sector).

(** Sectors 1 to 7 of a directory block. *)
Definition write_placeholders (frag : Z) : U unit :=
  upd_buf (λ _, placeholder);;
  for_each (Z.to_nat (UFS_FRAGS_PER_BLK - 1)) 1 (λ s, ufs_write_sector (frag + s)).

Definition ufs_dir_add_entry (dir : nat) (nm : name) (child_ino : Z) : V unit :=
  dv ← vnode_of dir;
  with_scratch (
    nd ← lift (ufs_read_inode (vn_ino dv));
    let namlen := Z.min (Z.of_nat (length nm)) UFS_NAME_MAX in
    let nm := take (Z.to_nat namlen) nm in
    r ← find_sector nd (λ sec,
      r ← in_buf (scan_sector SECTOR 0 (add_slot nm namlen child_ino));
      match r with
      | None => mret None
      | Some b => lift (upd_buf (λ _, b));; lift (ufs_write_sector sec);; mret (Some ())
      end);
    match r with
    | Some _ => mret ()
    | None =>
        new_frag ← lift ufs_alloc_block;
        lift (ufs_zero_block new_frag);;
        lift (upd_buf (λ _, first_sector nm namlen child_ino));;
        lift (ufs_write_sector new_frag);;
        lift (write_placeholders new_frag);;
        nd' ← lift (ufs_block_set nd (nblocks_of nd) new_frag);
        let nd' := set_i_size (i_size nd' + UFS_BLOCK_SIZE) nd' in
        r ← attempt (lift (ufs_write_inode (vn_ino dv) nd'));
        modify (upd_vnode dir (set_vn_size (i_size nd')));;
        match r with inl rc => throw rc | inr _ => mret () end
    end).

(** The sector without the entry, and the inode it named. *)
Definition remove_slot (nm : name) (namlen : Z) (off : nat) (b : list Z) : option (list Z * Z) :=
  if negb (de_ino off b =? 0) && same_name nm namlen off b then Some (put_word 4 off 0 b, de_ino off b) else None.

Definition ufs_dir_remove_entry (dir : nat) (nm : name) : V Z :=
  dv ← vnode_of dir;
  with_scratch (
    nd ← lift (ufs_read_inode (vn_ino dv));
    let namlen := Z.min (Z.of_nat (length nm)) UFS_NAME_MAX in
    r ← find_sector nd (λ sec,
      r ← in_buf (scan_sector SECTOR 0 (remove_slot nm namlen));
      match r with
      | None => mret None
      | Some (b, ino) => lift (upd_buf (λ _, b));; lift (ufs_write_sector sec);; mret (Some ino)
      end);
    match r with Some ino => mret ino | None => throw (- ENOENT) end).

Definition live_slot (off : nat) (b : list Z) : option unit :=
  if (de_ino off b =? 0) || is_dot off b || is_dotdot off b then None else Some ().

Definition ufs_dir_is_empty (dir_ino : Z) : V bool :=
  with_scratch (
    nd ← lift (ufs_read_inode dir_ino);
    r ← find_sector nd (λ _, in_buf (scan_sector SECTOR 0 live_slot));
    mret (match r with Some _ => false | None => true end)).

(** ** Creating *)

Definition drop_inode (ino : Z) : V unit := lift (ignore (ufs_free_inode ino)).
Definition drop_block (frag : Z) : V unit := lift (ignore (ufs_free_block frag)).

(** The parent's times, when its inode can be read. *)
Definition stamp_dir (ino now : Z) : V unit :=
  r ← attempt (lift (ufs_read_inode ino));
  match r with
  | inl _ => mret ()
  | inr n => lift (ignore (ufs_write_inode ino (touch_times now n)))
  end.

Definition ufs_create (dir : nat) (nm : name) (mode : Z) : V nat :=
  dv ← vnode_of dir;
  new_ino ← lift ufs_alloc_inode;
  b ← scratch_alloc;
  if negb b then drop_inode new_ino;; throw (- ENOMEM)
  else
    now ← time_now_sec;
    let inode := set_i_atime now (touch_times now (set_i_nlink 1 (set_i_mode (Z.lor S_IFREG (Z.land mode 511)) blank_inode))) in
    on_error (lift (ufs_write_inode new_ino inode)) (scratch_release true;; drop_inode new_ino);;
    on_error (ufs_dir_add_entry dir nm new_ino) (scratch_release true;; drop_inode new_ino);;
    vn ← ufs_vnode_from_inode (vn_mount dv) new_ino inode;
    match vn with
    | None => scratch_release true;; throw (- ENOMEM)
    | Some v =>
        stamp_dir (vn_ino dv) now;;
        scratch_release true;;
        lift (ignore ufs_sync_super);;
        mret v
    end.

(** "." and "..", filling one sector *)
Definition dot_sector (new_ino parent : Z) : list Z :=
  put_dirent 12 parent (UFS_DIRBLK_SIZE - minrec 1) UFS_DT_DIR 2 [DOT; DOT]
    (put_dirent 0 new_ino (minrec 1) UFS_DT_DIR 1 [DOT] zero_sector).

Definition ufs_mkdir (dir : nat) (nm : name) (mode : Z) : V unit :=
  dv ← vnode_of dir;
  new_ino ← lift ufs_alloc_inode;
  data_frag ← on_error (lift ufs_alloc_block) (drop_inode new_ino);
  let undo := drop_block data_frag;; drop_inode new_ino in
  on_error (lift (ufs_zero_block data_frag)) undo;;
  lift (upd_buf (λ _, dot_sector new_ino (vn_ino dv)));;
  on_error (lift (ufs_write_sector data_frag)) undo;;
  on_error (lift (write_placeholders data_frag)) undo;;
  b ← scratch_alloc;
  if negb b then undo;; throw (- ENOMEM)
  else
    now ← time_now_sec;
    let inode := set_direct 0 data_frag (set_i_size UFS_BLOCK_SIZE (set_i_nlink 2 (set_i_mode (Z.lor S_IFDIR (Z.land mode 511)) blank_inode))) in
    let inode := set_i_atime now (touch_times now inode) in
    on_error (lift (ufs_write_inode new_ino inode)) (scratch_release true);;
    on_error (ufs_dir_add_entry dir nm new_ino) (scratch_release true);;
    parent ← on_error (lift (ufs_read_inode (vn_ino dv))) (scratch_release true);
    r ← attempt (lift (ufs_write_inode (vn_ino dv) (touch_times now (set_i_nlink (i_nlink parent + 1) parent))));
    scratch_release true;;
    match r with
    | inl rc => throw rc
    | inr _ => lift (ignore ufs_sync_super)
    end.

(** ** Truncating and removing *)

(** Everything beyond [keep_blocks], where that is not everything. *)
Definition shrink_to (keep_blocks : Z) (n : ufs_inode_t) : U ufs_inode_t :=
  let sind_threshold := UFS_DIRECT_BLOCKS + PTRS_PER_BLOCK in
  n ← free_direct_from keep_blocks n;
  n ← (if negb (ib n 0 =? 0) && (keep_blocks <=? UFS_DIRECT_BLOCKS) then free_table junk (ib n 0);; mret (set_ib 0 0 n)
       else if negb (ib n 0 =? 0) && (UFS_DIRECT_BLOCKS <? keep_blocks) && (keep_blocks <? sind_threshold) then
         let first_free_ind := keep_blocks - UFS_DIRECT_BLOCKS in
         free_table_from junk (ib n 0) (first_free_ind / PTRS_PER_SEC) (first_free_ind mod PTRS_PER_SEC);; mret n
       else mret n);
  if negb (ib n 1 =? 0) then
    if keep_blocks <=? sind_threshold then ufs_free_double_indirect junk (ib n 1) 0;; mret (set_ib 1 0 n)
    else ufs_free_double_indirect junk (ib n 1) (keep_blocks - sind_threshold);; mret n
  else mret n.

Definition ufs_truncate (vn : nat) (length : Z) : V unit :=
  v ← vnode_of vn;
  if bool_decide (vn_type v = VNODE_DIR) then throw (- EISDIR)
  else
    with_scratch (
      inode ← lift (ufs_read_inode (vn_ino v));
      inode ← lift (
        if i_size inode <=? length then mret inode
        else if length =? 0 then free_all_blocks junk inode
        else shrink_to (u32 (length + UFS_BLOCK_SIZE - 1) / UFS_BLOCK_SIZE) inode);
      let inode := set_i_size length inode in
      modify (upd_vnode vn (set_vn_size (i_size inode)));;
      now ← time_now_sec;
      lift (ufs_write_inode (vn_ino v) (touch_times now inode)));;
    lift (ignore ufs_sync_super).

Definition ufs_unlink (dir : nat) (nm : name) : V unit :=
  dv ← vnode_of dir;
  now ← time_now_sec;
  child_ino ← ufs_dir_remove_entry dir nm;
  b ← scratch_alloc;
  if negb b then throw (- ENOMEM)
  else
    child ← on_error (lift (ufs_read_inode child_ino)) (scratch_release true);
    let child_was_dir := S_ISDIR (i_mode child) in
    (if child_was_dir then
       empty ← attempt (ufs_dir_is_empty child_ino);
       match empty with
       | inr true =>
           b ← scratch_alloc;
           (if (b : bool) then
              parent ← attempt (lift (ufs_read_inode (vn_ino dv)));
              match parent with
              | inr parent =>
                  if 0 <? i_nlink parent
                  then lift (ignore (ufs_write_inode (vn_ino dv) (touch_times now (set_i_nlink (i_nlink parent - 1) parent))))
                  else mret ()
              | inl _ => mret ()
              end;;
              scratch_release true
            else mret ())
       | r =>
           ignore (ufs_dir_add_entry dir nm child_ino);;
           scratch_release true;;
           throw (match r with inl rc => rc | inr _ => - ENOTEMPTY end)
       end
     else mret ());;
    let child := if 0 <? i_nlink child then set_i_nlink (i_nlink child - 1) child else child in
    (if i_nlink child =? 0 then
       child ← lift (free_all_blocks junk child);
       lift (ignore (ufs_write_inode child_ino (set_i_size 0 child)));;
       drop_inode child_ino
     else lift (ignore (ufs_write_inode child_ino child)));;
    scratch_release true;;
    (if child_was_dir then mret ()
     else
       b ← scratch_alloc;
       if (b : bool) then stamp_dir (vn_ino dv) now;; scratch_release true else mret ());;
    lift (ignore ufs_sync_super).

(** ** Links and attributes *)

Definition ufs_link (new_parent : nat) (new_name : name) (target : nat) : V unit :=
  dv ← vnode_of new_parent;
  tv ← vnode_of target;
  if negb (bool_decide (vn_mount dv = vn_mount tv)) then throw (- EXDEV)
  else if bool_decide (vn_type tv = VNODE_DIR) then throw (- EPERM)
  else
    r ← attempt (ufs_lookup new_parent new_name);
    match r with
    | inr probe => modify (vfs_vnode_release (Some probe));; throw (- EEXIST)
    | inl rc =>
        if negb (rc =? - ENOENT) then throw rc
        else
          ufs_dir_add_entry new_parent new_name (vn_ino tv);;
          now ← time_now_sec;
          with_scratch (
            n ← lift (ufs_read_inode (vn_ino tv));
            lift (ufs_write_inode (vn_ino tv) (set_i_ctime now (set_i_nlink (i_nlink n + 1) n)));;
            stamp_dir (vn_ino dv) now);;
          lift (ignore ufs_sync_super)
    end.

Definition ufs_chmod (vn : nat) (mode : Z) : V unit :=
  v ← vnode_of vn;
  new_mode ← with_scratch (
    n ← lift (ufs_read_inode (vn_ino v));
    let new_mode := u16 (Z.lor (u16 (Z.land (i_mode n) S_IFMT)) (Z.land mode 4095)) in
    now ← time_now_sec;
    lift (ufs_write_inode (vn_ino v) (set_i_ctime now (set_i_mode new_mode n)));;
    mret new_mode);
  lift (ignore ufs_sync_super);;
  modify (upd_vnode vn (set_vn_mode new_mode)).

Definition ufs_utimes (vn : nat) (atime mtime : Z) : V unit :=
  v ← vnode_of vn;
  with_scratch (
    n ← lift (ufs_read_inode (vn_ino v));
    now ← time_now_sec;
    lift (ufs_write_inode (vn_ino v) (set_i_ctime now (set_i_mtime mtime (set_i_atime atime n)))));;
  lift (ignore ufs_sync_super).

Definition ufs_stat (vn : nat) : V stat_t :=
  v ← vnode_of vn;
  with_scratch (
    n ← lift (ufs_read_inode (vn_ino v));
    mret (Stat (vn_ino v) (i_mode n) (i_nlink n) (u32 (i_size n)) (i_mtime n) (i_ctime n) (i_atime n))).

(** The length and the characters put into a buffer of [bufsiz] bytes. *)
Definition ufs_readlink (vn : nat) (bufsiz : Z) : V (list Z) :=
  v ← vnode_of vn;
  if negb (bool_decide (vn_type v = VNODE_SYMLINK)) then throw (- EINVAL)
  else
    with_scratch (
      n ← lift (ufs_read_inode (vn_ino v));
      let len := Z.min (u32 (i_size n)) bufsiz in
      if i_size n <=? UFS_FAST_SYMLINK_MAX then
        mret (take (Z.to_nat (Z.min len UFS_FAST_SYMLINK_MAX)) (mjoin (bytes_of 4 <$> i_direct n)))
      else if direct n 0 =? 0 then throw (- EIO)
      else
        lift (ufs_read_sector (direct n 0));;
        gets (λ st, take (Z.to_nat (Z.min len BLKDEV_SECTOR_SIZE)) (ufs_buf (fs_world st)))).

Definition ufs_statfs (mnt : nat) : V statfs_t :=
  p ← gets (λ st, mnt_sb_priv (mount_at st mnt));
  if (p : Z) =? 0 then throw (- EINVAL)
  else gets (λ st, let u := fs_world st in
    Statfs (dsize_frags u / UFS_FRAGS_PER_BLK) (free_blocks u) (inode_count u) (free_inodes u) (Z.of_nat VFS_NAME_MAX)).

(** The entries of [ufs_ops] that Vfs and Namei call. *)
Definition ufs_ops : vfs_ops_t ufs_t := VfsOps _
  (Some (λ mnt dev st, match ufs_mount mnt dev st with (inl e, st) => (e, st) | (inr _, st) => (0, st) end))
  (Some (λ dir nm st, match ufs_lookup dir nm st with (inl e, st) => (e, None, st) | (inr v, st) => (0, Some v, st) end))
  (Some (λ vn n st, match ufs_readlink vn n st with (inl e, st) => (e, [], st) | (inr l, st) => (Z.of_nat (length l), l, st) end)).
End Operations.
