(* ===== verification/UfsBlocks.v ===== *)
(** * UfsBlocks: sectors and bitmaps of UFS (src/kernel/vfs/ufs.c)

    What the allocators of Ufs do to the sectors of a device, whenever they report
    success.  [S] is the device as a function from sectors to bytes; [on g S s]
    says that the driver's state [s] is mounted as [g] is on such a device.
    [layout_ok] puts the areas of the disk in order; under it, allocating or
    freeing a block or an inode changes its own place in its bitmap only. *)

From stdpp Require Import functions.
From S2P Require Import Prelude Bits Config ErrState PagePool ModCore BlkDev BlkDevFacts SectorDev Ufs.

Abbreviation sectors := (Z → list Z).

(** Constants and division, for lia. *)
Ltac ufs_consts := unfold SECTOR, UFS_BLOCK_SIZE, UFS_FRAGS_PER_BLK, UFS_DIRECT_BLOCKS, UFS_CG_SECTOR, UFS_INODES_PER_SECTOR, UFS_ROOT_INO, UFS_INODE_SIZE,
  BLKDEV_SECTOR_SIZE, SECTOR_LIMIT in *; change (Z.to_nat 512) with 512%nat in *; change (Z.of_nat 512) with 512 in *.
Ltac arith := ufs_consts; Z.to_euclidean_division_equations; lia.

Section Blocks.
Context {cfg : PageConfig} {ps : PageStore} {sd : SectorDev} {sdok : SectorDevOk} {bo : ByteOrder}.
Implicit Types (g s : ufs_t) (S : sectors).

(** ** Sectors *)

(** The state is mounted as [g] is, and its device has the sectors [S]. *)
Record on g S s : Prop := {
  on_ok : disk_ok (u_disk s);
  on_sector : ∀ t, sector (u_disk s) t = S t;
  on_buffer : length (ufs_buf s) = SECTOR;
  on_itable : itable_sector s = itable_sector g;
  on_data : data_frag s = data_frag g;
  on_dsize : dsize_frags s = dsize_frags g;
  on_inodes : inode_count s = inode_count g;
  on_freeoff : cg_freeoff s = cg_freeoff g;
  on_iusedoff : cg_iusedoff s = cg_iusedoff g;
  on_scratch : scratch_page s = scratch_page g;
  on_core : u_core s = u_core g;
  on_reads : (reads_refused (u_disk g) <= reads_refused (u_disk s))%nat;
  on_writes : (writes_refused (u_disk g) <= writes_refused (u_disk s))%nat
}.

Lemma on_length g S s t : on g S s → length (S t) = SECTOR.
Proof. intros H. rewrite <-(on_sector _ _ _ H). apply sector_length. Qed.

Lemma on_ext g S S' s : on g S s → (∀ t, S t = S' t) → on g S' s.
Proof. intros [A B L C D E F G H I J K M] Hs. split; try done. intros t. by rewrite <-Hs. Qed.

Lemma on_buf g S s b : on g S s → length b = SECTOR → on g S (set_buf b s).
Proof. by intros []. Qed.
Lemma on_counts g S s b i : on g S s → on g S (set_counts b i s).
Proof. by intros []. Qed.

(** Between the states [g] and [s] the device has refused to read a sector, or to
    write one. *)
Definition read_failed g s : Prop := (reads_refused (u_disk g) < reads_refused (u_disk s))%nat.
Definition write_failed g s : Prop := (writes_refused (u_disk g) < writes_refused (u_disk s))%nat.

Lemma wp_read_sector g S s t (Q : unit → ufs_t → Prop) E : on g S s → 0 <= t < SECTOR_LIMIT →
  (∀ s', on g S s' → ufs_buf s' = S t → Q () s') → (∀ e s', on g S s' → read_failed g s' → E e s') → wp (ufs_read_sector t) Q E s.
Proof.
  intros H Ht HQ HE. unfold wp, ufs_read_sector. rewrite uN_small by (unfold SECTOR_LIMIT in Ht; lia).
  destruct (disk_read t (u_disk s)) as [[rc bs] d] eqn:Er.
  destruct (disk_read_spec t _ _ _ _ (on_ok _ _ _ H) Ht Er) as (A & B & C & D). destruct (refused_read t _ _ _ _ Er) as [R1 R2].
  pose proof (on_reads _ _ _ H). pose proof (on_writes _ _ _ H).
  assert (on g S (set_buf bs (set_disk d s))) as Hon.
  { destruct H as [? Hs ? ? ? ? ? ? ? ? ? ? ?]. split; try done; cbn; [|lia..]. intros u. by rewrite B. }
  unfold refusal in R1. destruct (Z.ltb_spec rc 0); [apply HE; [done|]; unfold read_failed; cbn; lia|]. apply HQ; [done|]. cbn. rewrite (D ltac:(lia)). apply H.
Qed.

Lemma wp_write_sector g S s t (Q : unit → ufs_t → Prop) E : on g S s → 0 <= t < SECTOR_LIMIT →
  (∀ s', on g (<[t := ufs_buf s]> S) s' → ufs_buf s' = ufs_buf s → Q () s') →
  (∀ e s' b, on g (<[t := b]> S) s' → write_failed g s' → E e s') → wp (ufs_write_sector t) Q E s.
Proof.
  intros H Ht HQ HE. pose proof (on_buffer _ _ _ H) as Hl. unfold wp, ufs_write_sector. rewrite uN_small by (unfold SECTOR_LIMIT in Ht; lia).
  destruct (disk_write t (ufs_buf s) (u_disk s)) as [rc d] eqn:Ew.
  destruct (disk_write_spec t _ _ _ _ (on_ok _ _ _ H) Ht Hl Ew) as (A & B & C). destruct (refused_write t _ _ _ _ Ew) as [R1 R2].
  pose proof (on_reads _ _ _ H). pose proof (on_writes _ _ _ H).
  assert (on g (<[t := sector d t]> S) (set_disk d s)) as Hon.
  { destruct H as [? Hs ? ? ? ? ? ? ? ? ? ? ?]. split; try done; cbn; [|lia..]. intros u. destruct (decide (t = u)) as [->|Hne].
    - by rewrite fn_lookup_insert. - rewrite fn_lookup_insert_ne by done. by rewrite B by done. }
  unfold refusal in R1. destruct (Z.ltb_spec rc 0); [eapply HE; [done|]; unfold write_failed; cbn; lia|].
  apply HQ; [|done]. by rewrite <-C by lia.
Qed.

(** ** The layout of the disk *)

Definition nblocks g : Z := dsize_frags g / UFS_FRAGS_PER_BLK.
(** The first sector of block [k]. *)
Definition blk g (k : Z) : Z := data_frag g + UFS_FRAGS_PER_BLK * k.
Definition valid_block g (b : Z) : Prop := ∃ k, 0 <= k < nblocks g ∧ b = blk g k.

(** The areas of the disk in order: bitmaps of inodes and of blocks in the
    cylinder group, inodes, data. *)
Record layout_ok g : Prop := {
  lo_inodes : UFS_ROOT_INO < inode_count g;
  lo_iused : 36 <= cg_iusedoff g;
  lo_free : cg_iusedoff g + (inode_count g - 1) / 8 < cg_freeoff g;
  lo_group : cg_freeoff g + nblocks g <= (itable_sector g - UFS_CG_SECTOR) * BLKDEV_SECTOR_SIZE;
  lo_offsets : cg_freeoff g + nblocks g <= 2 ^ 32;
  lo_itable : itable_sector g + (inode_count g - 1) / UFS_INODES_PER_SECTOR < data_frag g;
  lo_size : 0 <= dsize_frags g;
  lo_data : data_frag g + dsize_frags g <= SECTOR_LIMIT
}.

Lemma blk_bounds g k : layout_ok g → 0 <= k < nblocks g → 0 <= itable_sector g < data_frag g ∧ data_frag g <= blk g k ∧ blk g k + 8 <= SECTOR_LIMIT.
Proof. intros [] Hk. unfold nblocks, blk in *. arith. Qed.

Lemma valid_block_bounds g b : layout_ok g → valid_block g b → 0 <= itable_sector g < data_frag g ∧ data_frag g <= b ∧ b + 8 <= SECTOR_LIMIT.
Proof. intros Hl (k & Hk & ->). by apply blk_bounds. Qed.

Lemma blk_inj g j k : blk g j = blk g k → j = k.
Proof. unfold blk, UFS_FRAGS_PER_BLK. lia. Qed.

(** Blocks do not overlap. *)
Lemma valid_block_disjoint g b c t : valid_block g b → valid_block g c → b <= t < b + 8 → c <= t < c + 8 → b = c.
Proof. intros (j & _ & ->) (k & _ & ->). unfold blk, UFS_FRAGS_PER_BLK. intros. assert (j = k) by lia. by subst. Qed.

(** ** The bitmaps *)

(** Byte [o] of the cylinder group, and the sectors with another one. *)
Definition cg_byte S (o : Z) : Z := S (UFS_CG_SECTOR + o / BLKDEV_SECTOR_SIZE) !!! Z.to_nat (o mod BLKDEV_SECTOR_SIZE).
Definition cg_set S (o v : Z) : sectors :=
  <[UFS_CG_SECTOR + o / BLKDEV_SECTOR_SIZE := <[Z.to_nat (o mod BLKDEV_SECTOR_SIZE) := v]> (S (UFS_CG_SECTOR + o / BLKDEV_SECTOR_SIZE))]> S.

Lemma cg_byte_set S o v p : 0 <= o → 0 <= p → (∀ t, length (S t) = SECTOR) → cg_byte (cg_set S o v) p = if decide (p = o) then v else cg_byte S p.
Proof.
  intros Ho Hp Hl. unfold cg_byte, cg_set. assert (∀ q, 0 <= q → (Z.to_nat (q mod BLKDEV_SECTOR_SIZE) < SECTOR)%nat) as Hq by (intros; arith).
  destruct (decide (UFS_CG_SECTOR + o / BLKDEV_SECTOR_SIZE = UFS_CG_SECTOR + p / BLKDEV_SECTOR_SIZE)) as [E|E].
  - rewrite <-E, fn_lookup_insert. case_decide as Hd.
    + subst. apply list_lookup_total_insert_eq. rewrite Hl. by apply Hq.
    + apply list_lookup_total_insert_ne. arith.
  - rewrite fn_lookup_insert_ne by done. case_decide; [by subst|done].
Qed.

Lemma cg_set_other S o v t : UFS_CG_SECTOR + o / BLKDEV_SECTOR_SIZE ≠ t → cg_set S o v t = S t.
Proof. intros. unfold cg_set. by rewrite fn_lookup_insert_ne. Qed.

Definition is_free g S (k : Z) : Prop := cg_byte S (cg_freeoff g + k) = 0xFF.
Definition inode_used g S (i : Z) : bool := Z.testbit (cg_byte S (cg_iusedoff g + i / 8)) (i mod 8).
Definition allocated g S (b : Z) : Prop := ∃ k, 0 <= k < nblocks g ∧ b = blk g k ∧ ¬ is_free g S k.

Lemma allocated_valid g S b : allocated g S b → valid_block g b.
Proof. intros (k & ? & ? & _). by exists k. Qed.
Lemma allocated_blk g S k : 0 <= k < nblocks g → allocated g S (blk g k) ↔ ¬ is_free g S k.
Proof.
  intros Hk. split.
  - intros (j & Hj & ->%blk_inj & Hf). done.
  - intros Hf. by exists k.
Qed.

(** What a change of a byte of the group does to the three areas. *)
Lemma cg_set_area g S o v t : layout_ok g → 0 <= o < cg_freeoff g + nblocks g → itable_sector g <= t → cg_set S o v t = S t.
Proof. intros [] Ho Ht. apply cg_set_other. arith. Qed.

Lemma is_free_set g S k v j : layout_ok g → 0 <= k < nblocks g → 0 <= j < nblocks g → (∀ t, length (S t) = SECTOR) →
  is_free g (cg_set S (cg_freeoff g + k) v) j ↔ if decide (j = k) then v = 0xFF else is_free g S j.
Proof.
  intros [] Hk Hj Hl. unfold is_free. rewrite cg_byte_set by (done || arith). repeat case_decide; by try lia.
Qed.

Lemma inode_used_free g S k v i : layout_ok g → 0 <= k < nblocks g → 0 <= i < inode_count g → (∀ t, length (S t) = SECTOR) →
  inode_used g (cg_set S (cg_freeoff g + k) v) i = inode_used g S i.
Proof. intros [] Hk Hi Hl. unfold inode_used. rewrite cg_byte_set by (done || arith). rewrite decide_False; [done|arith]. Qed.

Lemma is_free_used g S i v k : layout_ok g → 0 <= k < nblocks g → 0 <= i < inode_count g → (∀ t, length (S t) = SECTOR) →
  is_free g (cg_set S (cg_iusedoff g + i / 8) v) k ↔ is_free g S k.
Proof. intros [] Hk Hi Hl. unfold is_free. rewrite cg_byte_set by (done || arith). rewrite decide_False; [done|arith]. Qed.

Abbreviation ok m Q s := (wp m Q (λ _ _, True) s).

Lemma wp_cg_byte_read g S s o : layout_ok g → on g S s → 0 <= o < cg_freeoff g + nblocks g →
  wp (ufs_cg_byte_read o) (λ p s', p = (UFS_CG_SECTOR + o / BLKDEV_SECTOR_SIZE, o mod BLKDEV_SECTOR_SIZE) ∧ on g S s' ∧
    ufs_buf s' = S (UFS_CG_SECTOR + o / BLKDEV_SECTOR_SIZE)) (λ _ s', on g S s' ∧ read_failed g s') s.
Proof.
  intros [] H Ho. unfold ufs_cg_byte_read. rewrite (uN_small 32) by arith. apply wp_bind. eapply wp_read_sector; [done|arith| |done].
  intros s1 H1 Hb. by apply wp_ret.
Qed.

(** [v] goes to byte [o] of the group. *)
Lemma wp_cg_write {A} g S s o v (m : prog ufs_t A) Q : layout_ok g → on g S s → 0 <= o < cg_freeoff g + nblocks g →
  ufs_buf s = S (UFS_CG_SECTOR + o / BLKDEV_SECTOR_SIZE) → (∀ s', on g (cg_set S o (u8 v)) s' → ok m Q s') →
  ok (set_buf_byte (o mod BLKDEV_SECTOR_SIZE) v;; ufs_write_sector (UFS_CG_SECTOR + o / BLKDEV_SECTOR_SIZE);; m) Q s.
Proof.
  intros [] H Ho Hb Hm. apply wp_bind, wp_modify, wp_bind. eapply wp_write_sector; [apply on_buf; [done|by rewrite length_insert, (on_buffer _ _ _ H)]|arith| |done].
  intros s1 H1 _. cbn [ufs_buf set_buf] in H1. rewrite Hb in H1. by apply Hm.
Qed.

Lemma wp_buf_byte g S s o (Q : Z → ufs_t → Prop) E : layout_ok g → on g S s → ufs_buf s = S (UFS_CG_SECTOR + o / BLKDEV_SECTOR_SIZE) →
  Q (cg_byte S o) s → wp (buf_byte (o mod BLKDEV_SECTOR_SIZE)) Q E s.
Proof. intros Hl H Hb HQ. apply wp_gets. by rewrite Hb. Qed.
(** The bytes of the two bitmaps. *)
Lemma free_byte g k : layout_ok g → 0 <= k < nblocks g → 0 <= cg_freeoff g + k < cg_freeoff g + nblocks g.
Proof. intros [] Hk. arith. Qed.
Lemma iused_byte g i : layout_ok g → 0 <= i < inode_count g → 0 <= cg_iusedoff g + i / 8 < cg_freeoff g + nblocks g.
Proof. intros [] Hi. assert (0 <= nblocks g) by (unfold nblocks; arith). arith. Qed.

Lemma wp_try_block g S s k : layout_ok g → on g S s → 0 <= k < nblocks g →
  ok (try_block k) (λ r s', match r with
    | Some b => b = blk g k ∧ is_free g S k ∧ on g (cg_set S (cg_freeoff g + k) 0) s'
    | None => ¬ is_free g S k ∧ on g S s'
    end) s.
Proof.
  intros Hl H Hk. pose proof Hl as []. unfold try_block. apply wp_bind, wp_gets. cbn [id]. rewrite (on_freeoff _ _ _ H), (on_data _ _ _ H).
  rewrite (uN_small 32 (_ + k)) by (unfold nblocks in *; arith). apply wp_bind. eapply wp_mono; [apply (wp_cg_byte_read g S s _ Hl H), free_byte; done| |done].
  intros p s1 (-> & H1 & Hb). cbn [fst snd]. apply wp_bind. eapply (wp_buf_byte g S); [done..|]. destruct (Z.eqb_spec (cg_byte S (cg_freeoff g + k)) 0xFF) as [E|E].
  - cbn [negb]. eapply wp_cg_write; [done|done|by apply free_byte|done|]. intros s2 H2. apply wp_bind, wp_modify, wp_ret. split_and!; [|done|by apply on_counts].
    unfold blk. pose proof (blk_bounds g k Hl Hk) as (? & ? & ?). unfold blk in *. rewrite uN_small by arith. lia.
  - by apply wp_ret.
Qed.

Lemma wp_alloc_block g S s : layout_ok g → on g S s →
  ok ufs_alloc_block (λ b s', ∃ k, 0 <= k < nblocks g ∧ b = blk g k ∧ is_free g S k ∧ (∀ j, 0 <= j < k → ¬ is_free g S j) ∧
    on g (cg_set S (cg_freeoff g + k) 0) s') s.
Proof.
  intros Hl H. unfold ufs_alloc_block. apply wp_bind, wp_gets. cbn [id]. rewrite (on_dsize _ _ _ H). fold (nblocks g). apply wp_bind.
  apply (wp_find (λ j s, (∀ i, 0 <= i < j → ¬ is_free g S i) ∧ on g S s)).
  - split; [|done]. lia.
  - intros j s1 Hj [Hno H1]. assert (0 <= j < nblocks g) as Hj' by (pose proof (lo_size _ Hl); unfold nblocks in *; arith).
    eapply wp_mono; [by apply (wp_try_block g S)| |done]. intros [b|] s2.
    + intros (-> & Hf & H2). by exists j.
    + intros [Hf H2]. split; [|done]. intros i Hi. destruct (decide (i = j)) as [->|]; [done|]. apply Hno. lia.
  - intros s1 [_ H1]. by apply wp_throw.
Qed.

Lemma wp_free_block g S s k : layout_ok g → on g S s → 0 <= k < nblocks g →
  ok (ufs_free_block (blk g k)) (λ _ s', on g (cg_set S (cg_freeoff g + k) 0xFF) s') s.
Proof.
  intros Hl H Hk. pose proof Hl as []. unfold ufs_free_block. apply wp_bind, wp_gets. cbn [id]. rewrite (on_freeoff _ _ _ H), (on_data _ _ _ H).
  destruct (Z.ltb_spec (blk g k) (data_frag g)); [unfold blk, UFS_FRAGS_PER_BLK in *; lia|].
  replace ((blk g k - data_frag g) / UFS_FRAGS_PER_BLK) with k by (unfold blk; arith).
  rewrite (uN_small 32) by (unfold nblocks in *; arith). apply wp_bind. eapply wp_mono; [apply (wp_cg_byte_read g S s _ Hl H), free_byte; done| |done].
  intros p s1 (-> & H1 & Hb). cbn [fst snd]. eapply wp_cg_write; [done|done|by apply free_byte|done|]. intros s2 H2. by apply wp_modify, on_counts.
Qed.

Lemma testbit_one k : Z.testbit 1 k = bool_decide (k = 0).
Proof. case_bool_decide; [by subst|]. destruct (Z.le_gt_cases 0 k); [by apply (Z.bits_above_log2 1); cbn; lia|by apply Z.testbit_neg_r]. Qed.

(** The bitmap of the inodes with bit [i] set or clear. *)
Definition mark_inode g S (i : Z) (b : bool) : sectors :=
  let o := cg_iusedoff g + i / 8 in
  cg_set S o (if b then u8 (Z.lor (cg_byte S o) (Z.shiftl 1 (i mod 8))) else u8 (Z.land (cg_byte S o) (u8 (Z.lnot (Z.shiftl 1 (i mod 8)))))).

Lemma inode_used_mark g S i b j : layout_ok g → 0 <= i < inode_count g → 0 <= j < inode_count g → (∀ t, length (S t) = SECTOR) →
  inode_used g (mark_inode g S i b) j = if decide (j = i) then b else inode_used g S j.
Proof.
  intros [] Hi Hj Hl. unfold inode_used, mark_inode. rewrite cg_byte_set by (done || arith).
  assert (∀ x, 0 <= x mod 8 < 8) as Hm by (intros; by apply Z.mod_pos_bound).
  case_decide as E; case_decide as E2; try subst; try arith; [| |done].
  - pose proof (Hm i). destruct b.
    + rewrite testbit_uN, Z.lor_spec, Z.shiftl_spec, Z.sub_diag by lia. apply orb_true_r.
    + rewrite testbit_uN, Z.land_spec, testbit_uN, Z.lnot_spec, Z.shiftl_spec, Z.sub_diag by lia. apply andb_false_r.
  - pose proof (Hm i). pose proof (Hm j). assert (i mod 8 ≠ j mod 8) by arith. assert (j / 8 = i / 8) as -> by lia. destruct b.
    + rewrite testbit_uN, Z.lor_spec, Z.shiftl_spec by lia. rewrite (testbit_one (j mod 8 - i mod 8)). rewrite bool_decide_false by lia. apply orb_false_r.
    + rewrite testbit_uN, Z.land_spec, testbit_uN, Z.lnot_spec, Z.shiftl_spec by lia. rewrite (testbit_one (j mod 8 - i mod 8)). rewrite bool_decide_false by lia. apply andb_true_r.
Qed.
End Blocks.
