(* ===== verification/UfsInode.v ===== *)
(** * UfsInode: inodes on disk (src/kernel/vfs/ufs_format.h, ufs.c)

    The codec of the 128 bytes of an inode, in either byte order, and the reading,
    writing, allocation and freeing of inodes on a device. *)

From stdpp Require Import functions.
From S2P Require Import Prelude Bits Config ErrState PagePool ModCore BlkDev BlkDevFacts SectorDev Ufs UfsBlocks.

Section Codec.
Context {bo : ByteOrder}.

(** The fields have the widths of the structure. *)
Record inode_wf (n : ufs_inode_t) : Prop := {
  iw_half : Forall (λ v, 0 <= v < 2 ^ 16) [i_mode n; i_nlink n; i_uid16 n; i_gid16 n];
  iw_double : Forall (λ v, 0 <= v < 2 ^ 64) [i_size n; i_spare n];
  iw_word : Forall (λ v, 0 <= v < 2 ^ 32) [i_atime n; i_atimensec n; i_mtime n; i_mtimensec n; i_ctime n; i_ctimensec n;
    i_flags n; i_blocks n; i_gen n; i_uid n; i_gid n];
  iw_direct : length (i_direct n) = 12%nat ∧ Forall (λ v, 0 <= v < 2 ^ 32) (i_direct n);
  iw_ib : length (i_ib n) = 3%nat ∧ Forall (λ v, 0 <= v < 2 ^ 32) (i_ib n)
}.

Lemma get_word_here n bs r : length bs = n → get_word n 0 (bs ++ r) = word_of bs.
Proof. intros <-. unfold get_word. by rewrite drop_0, take_app_length. Qed.
Lemma get_word_skip k n off bs r : length bs = k → (k <= off)%nat → get_word n off (bs ++ r) = get_word n (off - k) r.
Proof. intros <- Hk. unfold get_word. by rewrite drop_app_ge. Qed.

Lemma length_words l : length (mjoin (bytes_of 4 <$> l)) = (4 * length l)%nat.
Proof. induction l as [|v l IH]; [done|]. change (mjoin (bytes_of 4 <$> v :: l)) with (bytes_of 4 v ++ mjoin (bytes_of 4 <$> l)). rewrite length_app, length_bytes_of, IH. cbn [length]. lia. Qed.

Lemma get_words l i v r : l !! i = Some v → 0 <= v < 2 ^ 32 → get_word 4 (4 * i) (mjoin (bytes_of 4 <$> l) ++ r) = v.
Proof.
  revert i. induction l as [|w l IH]; intros [|i] Hi Hv; simplify_eq/=; rewrite <-app_assoc.
  - rewrite get_word_here by apply length_bytes_of. rewrite word_bytes. by apply uN_small.
  - rewrite (get_word_skip 4) by (rewrite ?length_bytes_of; lia). rewrite <-(IH i) by done. f_equal. lia.
Qed.

Lemma get_table k l off b r : (∀ i, get_word 4 (off + 4 * i) b = get_word 4 (4 * i) (mjoin (bytes_of 4 <$> l) ++ r)) → length l = k →
  Forall (λ v, 0 <= v < 2 ^ 32) l → (λ i, get_word 4 (off + 4 * i) b) <$> seq 0 k = l.
Proof.
  intros Hb <- Hl. apply list_eq. intros i. rewrite seq_fmap_lookup. case_decide as Hi.
  - apply lookup_lt_is_Some in Hi as [v Hv]. rewrite Hv, Hb. f_equal. eapply get_words; [done|]. by eapply (Forall_lookup_1 _ _ _ _ Hl).
  - symmetry. apply lookup_ge_None_2. lia.
Qed.

Lemma encode_length n : length (i_direct n) = 12%nat → length (i_ib n) = 3%nat → length (encode_inode n) = UFS_INODE_SIZE.
Proof. intros A B. unfold encode_inode. by rewrite !length_app, !length_bytes_of, !length_words, A, B. Qed.

(** Past the fields before offset [off]. *)
Ltac skip_fields :=
  repeat match goal with
  | |- get_word _ _ (bytes_of ?k _ ++ _) = _ => rewrite (get_word_skip k) by (rewrite ?length_bytes_of; lia)
  | |- get_word _ _ (mjoin (bytes_of 4 <$> ?l) ++ _) = _ => rewrite (get_word_skip (4 * length l)) by (rewrite ?length_words; lia)
  end.
Ltac field_eq := skip_fields; match goal with |- get_word ?n ?o ?b = _ => replace o with 0%nat by lia end; rewrite get_word_here by apply length_bytes_of; rewrite word_bytes; apply uN_small; cbn; lia.

Lemma decode_encode n r : inode_wf n → decode_inode (encode_inode n ++ r) = n.
Proof.
  intros [Hh Hd Hw [L1 H1] [L2 H2]]. decompose_Forall_hyps. unfold decode_inode, encode_inode. rewrite <-!app_assoc.
  destruct n as [md nl u1 g1 sz a1 a2 m1 m2 c1 c2 dr ibs fl bk gn u2 g2 sp]. cbn [i_mode i_nlink i_uid16 i_gid16 i_size i_atime i_atimensec i_mtime
    i_mtimensec i_ctime i_ctimensec i_direct i_ib i_flags i_blocks i_gen i_uid i_gid i_spare] in *.
  f_equal; first
    [ eapply (get_table _ _ _ _ _); [|done|done]; intros i; skip_fields; f_equal; lia
    | field_eq ].
Qed.
End Codec.

Section Inodes.
Context {cfg : PageConfig} {ps : PageStore} {sd : SectorDev} {sdok : SectorDevOk} {bo : ByteOrder}.
Implicit Types (g s : ufs_t) (S : sectors).
#[local] Abbreviation ok m Q s := (wp m Q (λ _ _, True) s).

Lemma decode_wf b : inode_wf (decode_inode b).
Proof.
  assert (∀ n o, 0 <= get_word n o b < 2 ^ (8 * Z.of_nat n)) as H by (intros; apply get_word_range).
  split; cbn [i_mode i_nlink i_uid16 i_gid16 i_size i_spare i_atime i_atimensec i_mtime i_mtimensec i_ctime i_ctimensec i_flags i_blocks i_gen i_uid i_gid
    i_direct i_ib decode_inode]; repeat constructor; try apply (H 2%nat); try apply (H 4%nat); try apply (H 8%nat).
Qed.

(** ** Reading and writing *)

Definition inode_at g S (i : Z) : ufs_inode_t :=
  decode_inode (take UFS_INODE_SIZE (drop (inode_off i) (S (itable_sector g + i / UFS_INODES_PER_SECTOR)))).
Definition put_inode g S (i : Z) (n : ufs_inode_t) : sectors :=
  <[itable_sector g + i / UFS_INODES_PER_SECTOR := put_bytes (inode_off i) (encode_inode n) (S (itable_sector g + i / UFS_INODES_PER_SECTOR))]> S.

Lemma inode_sector_bounds g i : layout_ok g → 0 <= i < inode_count g →
  UFS_CG_SECTOR <= itable_sector g ∧ itable_sector g + i / UFS_INODES_PER_SECTOR < data_frag g ∧ data_frag g <= SECTOR_LIMIT.
Proof. intros [] Hi. unfold nblocks in *. arith. Qed.

Lemma inode_at_put g S i n j : layout_ok g → 0 <= i < inode_count g → 0 <= j < inode_count g → (∀ t, length (S t) = SECTOR) → inode_wf n →
  inode_at g (put_inode g S i n) j = if decide (j = i) then n else inode_at g S j.
Proof.
  intros Hl Hi Hj Hlen Hw. pose proof (iw_direct _ Hw) as [L1 _]. pose proof (iw_ib _ Hw) as [L2 _]. pose proof (encode_length n L1 L2) as Le.
  assert (∀ k, 0 <= k → (inode_off k + UFS_INODE_SIZE <= SECTOR)%nat) as Hoff by (intros; unfold inode_off; arith).
  unfold inode_at, put_inode. destruct (decide (itable_sector g + i / UFS_INODES_PER_SECTOR = itable_sector g + j / UFS_INODES_PER_SECTOR)) as [E|E].
  - rewrite <-E, fn_lookup_insert. case_decide as Hd.
    + subst j. rewrite get_put_bytes by (first [done|rewrite Hlen; apply Hoff; lia]). rewrite <-(app_nil_r (encode_inode n)). by apply decode_encode.
    + f_equal. apply take_drop_ext. intros k Hk. apply put_bytes_other. rewrite Le. unfold inode_off in *. arith.
  - rewrite fn_lookup_insert_ne by done. case_decide; [by subst|done].
Qed.

Lemma put_inode_other g S i n t : itable_sector g + i / UFS_INODES_PER_SECTOR ≠ t → put_inode g S i n t = S t.
Proof. intros. unfold put_inode. by rewrite fn_lookup_insert_ne. Qed.

Lemma wp_read_inode g S s i : layout_ok g → on g S s → 0 <= i < inode_count g →
  wp (ufs_read_inode i) (λ n s', n = inode_at g S i ∧ on g S s') (λ _ s', on g S s' ∧ read_failed g s') s.
Proof.
  intros Hl H Hi. pose proof (inode_sector_bounds g i Hl Hi). unfold ufs_read_inode. apply wp_bind, wp_gets. cbn [id]. unfold inode_sector.
  rewrite (on_itable _ _ _ H), (uN_small 32) by arith. apply wp_bind. eapply wp_read_sector; [done|arith| |done]. intros s1 H1 Hb.
  apply wp_gets. by rewrite Hb.
Qed.

Lemma wp_write_inode g S s i n : layout_ok g → on g S s → 0 <= i < inode_count g →
  ok (ufs_write_inode i n) (λ _ s', on g (put_inode g S i n) s') s.
Proof.
  intros Hl H Hi. pose proof (inode_sector_bounds g i Hl Hi). unfold ufs_write_inode. apply wp_bind, wp_gets. cbn [id]. unfold inode_sector.
  rewrite (on_itable _ _ _ H), (uN_small 32) by arith. apply wp_bind. eapply wp_read_sector; [done|arith| |done]. intros s1 H1 Hb.
  apply wp_bind, wp_modify. eapply wp_write_sector; [apply on_buf; [done|by rewrite length_put_bytes, (on_buffer _ _ _ H1)]|arith| |done].
  intros s2 H2 _. cbn [ufs_buf set_buf] in H2. by rewrite Hb in H2.
Qed.

(** ** Allocation *)

Lemma wp_try_inode g S s i : layout_ok g → on g S s → 0 <= i < inode_count g →
  ok (try_inode i) (λ r s', match r with
    | Some j => j = i ∧ inode_used g S i = false ∧ on g (mark_inode g S i true) s'
    | None => inode_used g S i = true ∧ on g S s'
    end) s.
Proof.
  intros Hl H Hi. pose proof (iused_byte g i Hl Hi) as Hb. unfold try_inode. apply wp_bind, wp_gets. cbn [id]. rewrite (on_iusedoff _ _ _ H).
  pose proof (lo_offsets _ Hl) as Ho. rewrite (uN_small 32) by lia. apply wp_bind. eapply wp_mono; [apply (wp_cg_byte_read g S s _ Hl H); done| |done].
  intros p s1 (-> & H1 & Hbuf). cbn [fst snd]. apply wp_bind. eapply (wp_buf_byte g S); [done..|].
  assert (bset (cg_byte S (cg_iusedoff g + i / 8)) (Z.shiftl 1 (i mod 8)) = inode_used g S i) as ->.
  { unfold inode_used. rewrite Z.shiftl_1_l. apply bset_bit. by apply Z.mod_pos_bound. }
  destruct (inode_used g S i) eqn:E; [by apply wp_ret|]. eapply wp_cg_write; [done..|]. intros s2 H2. apply wp_bind, wp_modify, wp_ret.
  split_and!; [done..|]. by apply on_counts.
Qed.

Lemma wp_alloc_inode g S s : layout_ok g → on g S s →
  ok ufs_alloc_inode (λ i s', UFS_ROOT_INO < i < inode_count g ∧ inode_used g S i = false ∧
    (∀ j, UFS_ROOT_INO < j < i → inode_used g S j = true) ∧ on g (mark_inode g S i true) s') s.
Proof.
  intros Hl H. unfold ufs_alloc_inode. apply wp_bind, wp_gets. cbn [id]. rewrite (on_inodes _ _ _ H). apply wp_bind.
  apply (wp_find (λ j s, (∀ i, UFS_ROOT_INO < i < j → inode_used g S i = true) ∧ on g S s)).
  - split; [|done]. unfold UFS_ROOT_INO. lia.
  - intros j s1 Hj [Hno H1]. pose proof (lo_inodes _ Hl). assert (UFS_ROOT_INO < j < inode_count g) as Hj' by (unfold UFS_ROOT_INO in *; lia).
    eapply wp_mono; [apply (wp_try_inode g S); [done..|unfold UFS_ROOT_INO in *; lia]| |done]. intros [i|] s2.
    + intros (-> & Hf & H2). by apply wp_ret.
    + intros [Hf H2]. split; [|done]. intros i Hi. destruct (decide (i = j)) as [->|]; [done|]. apply Hno. lia.
  - intros s1 [_ H1]. by apply wp_throw.
Qed.

Lemma wp_free_inode g S s i : layout_ok g → on g S s → 0 <= i < inode_count g →
  ok (ufs_free_inode i) (λ _ s', on g (mark_inode g S i false) s') s.
Proof.
  intros Hl H Hi. pose proof (iused_byte g i Hl Hi) as Hb. unfold ufs_free_inode. apply wp_bind, wp_gets. cbn [id].
  rewrite (on_iusedoff _ _ _ H), (on_inodes _ _ _ H). destruct (Z.leb_spec (inode_count g) i) as [|_]; [lia|].
  pose proof (lo_offsets _ Hl) as Ho. rewrite (uN_small 32) by lia. apply wp_bind. eapply wp_mono; [apply (wp_cg_byte_read g S s _ Hl H); done| |done].
  intros p s1 (-> & H1 & Hbuf). cbn [fst snd]. apply wp_bind. eapply (wp_buf_byte g S); [done..|]. eapply wp_cg_write; [done..|].
  intros s2 H2. by apply wp_modify, on_counts.
Qed.
End Inodes.
