(* ===== verification/UfsTree.v ===== *)
(** * UfsTree: the block map of UFS (src/kernel/vfs/ufs.c)

    [ufs_block_map] and [ufs_block_set] against a pure block map [bmap].  A [slot]
    is a place of an inode's tree that holds a block: data, or a table of pointers.
    [blocks_ok] says of all inodes together that no two slots hold the same block
    and that what they hold is allocated.  Under it, setting an entry of the map
    changes that entry only, of that inode only. *)

From stdpp Require Import functions.
From S2P Require Import Prelude Bits Config ErrState PagePool ModCore BlkDev BlkDevFacts SectorDev Ufs UfsBlocks UfsInode.

Section Tree.
Context {cfg : PageConfig} {ps : PageStore} {sd : SectorDev} {sdok : SectorDevOk} {bo : ByteOrder}.
Implicit Types (g s : ufs_t) (S : sectors) (n m : ufs_inode_t).
#[local] Abbreviation ok m Q s := (wp m Q (λ _ _, True) s).

(** ** The block map *)

(** Pointer [k] of the table in block [f]. *)
Definition ptr_at S (f k : Z) : Z := get_word 4 (4 * Z.to_nat (k mod 128)) (S (f + k / 128)).
Definition set_ptr S (f k v : Z) : sectors := <[f + k / 128 := put_word 4 (4 * Z.to_nat (k mod 128)) v (S (f + k / 128))]> S.

Definition MAP_MAX : Z := 12 + 1024 + 1024 * 1024.
(** The block at [l], zero for a hole. *)
Definition bmap S n (l : Z) : Z :=
  if decide (l < 12) then direct n l
  else if decide (l < 12 + 1024) then if decide (ib n 0 = 0) then 0 else ptr_at S (ib n 0) (l - 12)
  else if decide (ib n 1 = 0) then 0
  else let inner := ptr_at S (ib n 1) ((l - 1036) / 1024) in if decide (inner = 0) then 0 else ptr_at S inner ((l - 1036) mod 1024).

Inductive slot := Data (l : Z) | Ind | Dbl | Inner (k : Z).
#[export] Instance slot_eq_dec : EqDecision slot.
Proof. solve_decision. Defined.

Definition slot_ok (a : slot) : Prop :=
  match a with Data l => 0 <= l < MAP_MAX | Inner k => 0 <= k < 1024 | _ => True end.
Definition table (a : slot) : Prop := match a with Data _ => False | _ => True end.
Definition slot_block S n (a : slot) : Z :=
  match a with
  | Data l => bmap S n l
  | Ind => ib n 0
  | Dbl => ib n 1
  | Inner k => if decide (ib n 1 = 0) then 0 else ptr_at S (ib n 1) k
  end.

Definition in_block (b t : Z) : Prop := b <= t < b + 8.

(** The same sectors in the tables give the same tree. *)
Lemma slot_ext S S' n a : (∀ c t, slot_ok c → table c → slot_block S n c ≠ 0 → in_block (slot_block S n c) t → S' t = S t) → slot_ok a →
  slot_block S' n a = slot_block S n a.
Proof.
  intros Ht Ha. assert (∀ c k, slot_ok c → table c → slot_block S n c ≠ 0 → 0 <= k < 1024 → ptr_at S' (slot_block S n c) k = ptr_at S (slot_block S n c) k) as Hp.
  { intros c k H1 H2 H3 Hk. unfold ptr_at. rewrite (Ht c); [done..|]. unfold in_block. arith. }
  assert (∀ k, 0 <= k < 1024 → slot_block S' n (Inner k) = slot_block S n (Inner k)) as Hi.
  { intros k Hk. cbn. case_decide; [done|]. by apply (Hp Dbl). }
  destruct a as [l| | |k]; [|done|done|by apply Hi]. cbn in Ha |- *. unfold bmap, MAP_MAX in *. case_decide; [done|]. case_decide.
  - case_decide; [done|]. apply (Hp Ind); [done..|lia].
  - case_decide; [done|]. assert (0 <= (l - 1036) / 1024 < 1024) as Hk by arith. pose proof (Hi _ Hk) as E. cbn in E. rewrite !decide_False in E by done.
    cbv zeta. rewrite E. case_decide as Hz; [done|]. assert (slot_block S n (Inner ((l - 1036) / 1024)) = ptr_at S (ib n 1) ((l - 1036) / 1024)) as Ec by (cbn; by rewrite decide_False).
    rewrite <-Ec in *. apply Hp; [done..|arith].
Qed.

(** ** Pointers *)

Lemma set_ptr_length S f k v t : (∀ t, length (S t) = SECTOR) → length (set_ptr S f k v t) = SECTOR.
Proof.
  intros Hl. unfold set_ptr. destruct (decide (f + k / 128 = t)) as [<-|]; [rewrite fn_lookup_insert; unfold put_word; by rewrite length_put_bytes|].
  by rewrite fn_lookup_insert_ne.
Qed.

Lemma set_ptr_other S f k v t : 0 <= k < 1024 → ¬ in_block f t → set_ptr S f k v t = S t.
Proof. intros Hk Ht. unfold set_ptr. rewrite fn_lookup_insert_ne; [done|]. intros <-. apply Ht. unfold in_block. arith. Qed.

Lemma ptr_set S f k v f' k' : (∀ t, length (S t) = SECTOR) → 0 <= k < 1024 → 0 <= k' < 1024 → 0 <= v < 2 ^ 32 →
  f' = f ∨ (∀ t, in_block f t → ¬ in_block f' t) → ptr_at (set_ptr S f k v) f' k' = if decide (f' = f ∧ k' = k) then v else ptr_at S f' k'.
Proof.
  intros Hl Hk Hk' Hv Hf. unfold ptr_at. destruct (decide (f' = f)) as [->|Hne].
  - unfold set_ptr. destruct (decide (f + k / 128 = f + k' / 128)) as [E|E].
    + rewrite <-E, fn_lookup_insert. case_decide as Hd.
      * destruct Hd as [_ ->]. rewrite get_put_word by (rewrite Hl; arith). by apply uN_small.
      * apply get_put_other. rewrite length_bytes_of. assert (k' ≠ k) by naive_solver. arith.
    + rewrite fn_lookup_insert_ne by done. rewrite decide_False; [done|]. intros [_ ->]. done.
  - rewrite (decide_False (P := _ ∧ _)) by naive_solver. destruct Hf as [|Hf]; [done|]. rewrite set_ptr_other; [done..|].
    intros Hb. apply (Hf _ Hb). unfold in_block. arith.
Qed.

Lemma ptr_zero S f k : (∀ t, in_block f t → S t = zero_sector) → 0 <= k < 1024 → ptr_at S f k = 0.
Proof.
  intros Hz Hk. unfold ptr_at. rewrite Hz by (unfold in_block; arith). unfold get_word, zero_sector. rewrite drop_replicate, take_replicate.
  assert (∀ l, Forall (λ b, b = 0) l → le_word l = 0) as H0 by (induction 1 as [|b l -> Hl IH]; [done|]; cbn [le_word]; by rewrite IH).
  unfold word_of. destruct big_endian; apply H0; [apply Forall_rev|]; by apply Forall_replicate.
Qed.
(** ** The tree invariant *)

(** [I] has the inodes with blocks; one that is being changed may differ from the
    one on disk. *)
Record blocks_ok g S (I : Z → option ufs_inode_t) : Prop := {
  bo_wf i n : I i = Some n → inode_wf n;
  bo_alloc i n a : I i = Some n → slot_ok a → slot_block S n a ≠ 0 → allocated g S (slot_block S n a);
  bo_inj i j n m a b : I i = Some n → I j = Some m → slot_ok a → slot_ok b →
    slot_block S n a = slot_block S m b → slot_block S n a ≠ 0 → i = j ∧ a = b
}.

(** An allocated block in no slot. *)
Definition fresh g S (I : Z → option ufs_inode_t) (b : Z) : Prop :=
  allocated g S b ∧ ∀ i n a, I i = Some n → slot_ok a → slot_block S n a ≠ b.

Lemma allocated_pos g S b : layout_ok g → allocated g S b → 0 < b ∧ data_frag g <= b ∧ b + 8 <= SECTOR_LIMIT ∧ itable_sector g < data_frag g.
Proof. intros Hl Ha. pose proof (valid_block_bounds g b Hl (allocated_valid _ _ _ Ha)). lia. Qed.

Lemma allocated_disjoint g S b c : allocated g S b → allocated g S c → b ≠ c → ∀ t, in_block b t → ¬ in_block c t.
Proof. intros Hb Hc Hne t H1 H2. apply Hne. eapply valid_block_disjoint; [by eapply allocated_valid..|exact H1|exact H2]. Qed.

(** Sectors outside the data area and the tables stay, blocks stay allocated:
    then the trees stay. *)
Lemma blocks_ok_ext g S S' I : blocks_ok g S I → (∀ b, allocated g S b → allocated g S' b) →
  (∀ i n a t, I i = Some n → slot_ok a → table a → slot_block S n a ≠ 0 → in_block (slot_block S n a) t → S' t = S t) →
  blocks_ok g S' I ∧ ∀ i n a, I i = Some n → slot_ok a → slot_block S' n a = slot_block S n a.
Proof.
  intros H Ha Ht. assert (∀ i n a, I i = Some n → slot_ok a → slot_block S' n a = slot_block S n a) as E.
  { intros i n a Hn Hs. apply slot_ext; [|done]. intros c t. by eapply Ht. }
  split; [|done]. split.
  - apply (bo_wf _ _ _ H).
  - intros i n a Hn Hs. rewrite (E i) by done. intros Hz. apply Ha. by eapply bo_alloc.
  - intros i j n m a b Hn Hm Hsa Hsb. rewrite (E i n), (E j m) by done. by eapply bo_inj.
Qed.

Lemma fresh_ext g S S' I b : fresh g S I b → (∀ b, allocated g S b → allocated g S' b) →
  (∀ i n a, I i = Some n → slot_ok a → slot_block S' n a = slot_block S n a) → fresh g S' I b.
Proof. intros [H1 H2] Ha E. split; [by apply Ha|]. intros i n a Hn Hs. rewrite (E i) by done. by apply (H2 i). Qed.

(** A fresh block put into slot [a] of inode [i]. *)
Lemma link_ok g S S' I i n n' a b : blocks_ok g S I → I i = Some n → inode_wf n' → slot_ok a → fresh g S I b →
  (∀ c, allocated g S c → allocated g S' c) →
  (∀ c, slot_ok c → slot_block S' n' c = if decide (c = a) then b else slot_block S n c) →
  (∀ j m c, j ≠ i → I j = Some m → slot_ok c → slot_block S' m c = slot_block S m c) →
  blocks_ok g S' (<[i := Some n']> I).
Proof.
  intros H Hi Hw Ha [Hb Hf] Hal E Eo.
  assert (∀ j m, <[i := Some n']> I j = Some m → (j = i ∧ m = n') ∨ (j ≠ i ∧ I j = Some m)) as Hc.
  { intros j m. destruct (decide (i = j)) as [<-|Hne]; [rewrite fn_lookup_insert; intros [= <-]; by left|rewrite fn_lookup_insert_ne by done; by right]. }
  split.
  - intros j m [[-> ->]|[Hj Hm]]%Hc; [done|by eapply bo_wf].
  - intros j m c [[-> ->]|[Hj Hm]]%Hc Hs.
    + rewrite E by done. case_decide; intros Hz; apply Hal; [done|by eapply bo_alloc].
    + rewrite (Eo j) by done. intros Hz. apply Hal. by eapply bo_alloc.
  - intros j k m1 m2 c d [[-> ->]|[Hj Hm]]%Hc [[-> ->]|[Hk Hm2]]%Hc Hsc Hsd.
    + rewrite !E by done. repeat case_decide; subst; intros Eq Hz; [done|..].
      * by destruct (Hf i n d Hi Hsd).
      * by destruct (Hf i n c Hi Hsc).
      * by eapply bo_inj.
    + rewrite E, (Eo k) by done. case_decide; intros Eq Hz; [by destruct (Hf k m2 d Hm2 Hsd)|]. destruct (bo_inj _ _ _ H i k n m2 c d) as [? _]; done.
    + rewrite E, (Eo j) by done. case_decide; intros Eq Hz; [by destruct (Hf j m1 c Hm Hsc)|]. destruct (bo_inj _ _ _ H j i m1 n c d) as [? _]; done.
    + rewrite (Eo j), (Eo k) by done. by eapply bo_inj.
Qed.
(** ** The tree by parents and children *)

Definition child (T : slot) (k : Z) : slot :=
  match T with Ind => Data (12 + k) | Dbl => Inner k | Inner j => Data (1036 + 1024 * j + k) | Data _ => Data k end.

Lemma child_ok T k : table T → slot_ok T → 0 <= k < 1024 → slot_ok (child T k).
Proof. destruct T; cbn; unfold MAP_MAX; lia. Qed.

Lemma slot_child S n T k : table T → slot_ok T → 0 <= k < 1024 →
  slot_block S n (child T k) = if decide (slot_block S n T = 0) then 0 else ptr_at S (slot_block S n T) k.
Proof.
  destruct T as [l| | |j]; intros HT Hok Hk; [done|..]; cbn [child slot_block]; cbn in Hok.
  - unfold bmap. rewrite decide_False, decide_True by lia. by replace (12 + k - 12) with k by lia.
  - done.
  - unfold bmap. rewrite !(decide_False (P := _ < _)) by lia. replace (1036 + 1024 * j + k - 1036) with (j * 1024 + k) by lia.
    rewrite Z.div_add_l, Z.div_small, Z.add_0_r by lia. replace ((j * 1024 + k) mod 1024) with k by arith. by repeat case_decide.
Qed.

Lemma slot_cases a : slot_ok a → (a = Ind ∨ a = Dbl ∨ ∃ l, a = Data l ∧ 0 <= l < 12) ∨ ∃ T k, table T ∧ slot_ok T ∧ 0 <= k < 1024 ∧ a = child T k.
Proof.
  destruct a as [l| | |j]; cbn; intros Ha; [|left; by left|left; right; by left|right; by exists Dbl, j].
  unfold MAP_MAX in Ha. destruct (decide (l < 12)) as [|H12]; [left; right; right; exists l; split; [done|lia]|right]. destruct (decide (l < 1036)) as [|H36].
  - exists Ind, (l - 12). cbn. split_and!; [done|done|lia..|f_equal; lia].
  - exists (Inner ((l - 1036) / 1024)), ((l - 1036) mod 1024). cbn. split_and!; [done|arith..|f_equal; arith].
Qed.

Lemma child_inj T T' k k' : table T → table T' → slot_ok T → slot_ok T' → 0 <= k < 1024 → 0 <= k' < 1024 → child T k = child T' k' → T = T' ∧ k = k'.
Proof.
  destruct T, T'; cbn; intros ?????? [=]; try done; try lia; try (split; [done|lia]).
  assert (k0 = k1) by lia. subst. split; [done|lia].
Qed.

(** ** Setting a pointer *)

Section Link.
Context (g : ufs_t) (S : sectors) (I : Z → option ufs_inode_t) (i : Z) (n : ufs_inode_t).
Context (Hl : layout_ok g) (Hlen : ∀ t, length (S t) = SECTOR) (Hok : blocks_ok g S I) (Hi : I i = Some n).

Definition zero_block (b : Z) : Prop := ∀ t, in_block b t → S t = zero_sector.

Lemma slot_disjoint j m a b : I j = Some m → slot_ok a → slot_ok b → slot_block S n a ≠ 0 → slot_block S m b ≠ 0 → (i, a) ≠ (j, b) →
  ∀ t, in_block (slot_block S n a) t → ¬ in_block (slot_block S m b) t.
Proof.
  intros Hj Ha Hb Hza Hzb Hne. apply (allocated_disjoint g S); [by eapply bo_alloc..|]. intros E. apply Hne.
  by destruct (bo_inj _ _ _ Hok i j n m a b) as [-> ->].
Qed.

Lemma fresh_disjoint b j m a : fresh g S I b → I j = Some m → slot_ok a → slot_block S m a ≠ 0 → ∀ t, in_block (slot_block S m a) t → ¬ in_block b t.
Proof.
  intros [Hb Hf] Hj Ha Hz. apply (allocated_disjoint g S); [by eapply bo_alloc|done|]. by apply (Hf j).
Qed.

(** What may be put below table [T] at [k]. *)
Definition linkable T (k v : Z) : Prop :=
  table T ∧ slot_ok T ∧ 0 <= k < 1024 ∧ slot_block S n T ≠ 0 ∧ fresh g S I v ∧
  (table (child T k) → slot_block S n (child T k) = 0 ∧ zero_block v).

Lemma fresh_word v : fresh g S I v → 0 < v < 2 ^ 32.
Proof. intros [Hv _]. pose proof (allocated_pos g S v Hl Hv). unfold SECTOR_LIMIT in *. lia. Qed.

Lemma set_ptr_slot T k v c : linkable T k v → slot_ok c →
  slot_block (set_ptr S (slot_block S n T) k v) n c = if decide (c = child T k) then v else slot_block S n c.
Proof.
  intros (HT & HTok & Hk & HTz & Hv & Hch) Hc. set (S' := set_ptr _ _ _ _). pose proof (fresh_word v Hv) as Hvw.
  assert (∀ T' k', table T' → slot_ok T' → 0 <= k' < 1024 → slot_block S n T' ≠ 0 →
    ptr_at S' (slot_block S n T') k' = if decide (child T' k' = child T k) then v else ptr_at S (slot_block S n T') k') as Hp.
  { intros T' k' H1 H2 H3 H4. unfold S'. rewrite ptr_set; [|done|done|done|lia|].
    - destruct (decide (T' = T)) as [->|Hne].
      + destruct (decide (k' = k)) as [->|Hk']; [by rewrite !decide_True|]. rewrite !decide_False; [done|..]; [|by intros [_ ?]]. by intros [_ ?]%child_inj.
      + rewrite !decide_False; [done|..]; [by intros [? _]%child_inj|]. intros [Eb _].
        destruct (bo_inj _ _ _ Hok i i n n T' T) as [_ ?]; done.
    - destruct (decide (T' = T)) as [->|Hne]; [by left|right]. apply (slot_disjoint i n T T'); [done..|congruence]. }
  assert (∀ T', table T' → slot_ok T' → T' ≠ child T k → slot_block S' n T' = slot_block S n T') as Ht.
  { intros T' H1 H2 H3. destruct (slot_cases T' H2) as [[->|[->|(l & -> & _)]]|(T2 & k2 & A & B & C & ->)]; [done..|].
    destruct T2 as [|  | |j2]; cbn in H1, A; [done..| |done]. cbn [child]. rewrite !(slot_child _ _ Dbl k2) by done.
    change (slot_block S' n Dbl) with (slot_block S n Dbl). case_decide as Hz; [done|]. rewrite Hp, decide_False by done. done. }
  destruct (slot_cases c Hc) as [Hr|(T' & k' & A & B & C & ->)].
  { rewrite decide_False; [|destruct Hr as [->|[->|(l & -> & ?)]]; destruct T; cbn in HT, HTok |- *; try done; intros [=]; lia].
    destruct Hr as [->|[->|(l & -> & Hl2)]]; [done|done|]. cbn. unfold bmap. by rewrite !decide_True by lia. }
  rewrite !(slot_child _ _ T' k') by done. destruct (decide (T' = child T k)) as [->|Hne].
  - destruct (Hch A) as [Hz Hzb]. rewrite Hz, (decide_True (P := 0 = 0)) by done.
    assert (T = Dbl) as -> by (destruct T; done). cbn [child] in *. rewrite (decide_False (P := Data _ = Inner _)) by done.
    assert (slot_block S' n (Inner k) = v) as ->. { change (Inner k) with (child Dbl k). rewrite (slot_child S' n Dbl k), decide_False by done. change (ib n 1) with (slot_block S n Dbl).
      change (slot_block S' n Dbl) with (slot_block S n Dbl). by rewrite (Hp Dbl k), decide_True. }
    rewrite decide_False by lia. unfold S', ptr_at. rewrite set_ptr_other; [apply ptr_zero; [exact Hzb|done]|done|].
    intros Hb. apply (fresh_disjoint v i n Dbl Hv Hi HTok HTz _ Hb). unfold in_block. arith.
  - rewrite Ht by done. case_decide as Hz.
    + rewrite decide_False; [done|]. by intros [-> ->]%child_inj.
    + rewrite Hp by done. case_decide; done.
Qed.

Lemma set_ptr_elsewhere T k v j m c : linkable T k v → j ≠ i → I j = Some m → slot_ok c →
  slot_block (set_ptr S (slot_block S n T) k v) m c = slot_block S m c.
Proof.
  intros (HT & HTok & Hk & HTz & _) Hj Hm Hc. apply slot_ext; [|done]. intros d t H1 H2 H3 H4. apply set_ptr_other; [done|].
  intros Hb. eapply (slot_disjoint j m T d); [done..| |exact Hb|exact H4]. congruence.
Qed.

(** ** Setting a pointer of the inode *)

Lemma set_direct_slot l v c : 0 <= l < 12 → slot_ok c → slot_block S (set_direct l v n) c = if decide (c = Data l) then v else slot_block S n c.
Proof.
  intros Hll Hc. destruct (iw_direct _ (bo_wf _ _ _ Hok _ _ Hi)) as [Ld _].
  destruct c as [l'| | |k]; [|by rewrite decide_False..]. cbn. unfold bmap. case_decide as H12.
  - unfold direct, set_direct. cbn. case_decide as E.
    + injection E as ->. apply list_lookup_total_insert_eq. lia.
    + apply list_lookup_total_insert_ne. cbn in Hc. intros E2. apply E. f_equal. lia.
  - rewrite (decide_False (P := Data l' = _)) by (intros [=]; lia). done.
Qed.

Lemma set_ib_slot k v c : (k < 2)%nat → zero_block v → ib n k = 0 → v ≠ 0 → slot_ok c →
  slot_block S (set_ib k v n) c = if decide (c = if decide (k = 0%nat) then Ind else Dbl) then v else slot_block S n c.
Proof.
  intros Hk Hz H0 Hv Hc. destruct (iw_ib _ (bo_wf _ _ _ Hok _ _ Hi)) as [Li _].
  assert (ib (set_ib k v n) k = v) as E1 by (apply list_lookup_total_insert_eq; lia).
  assert (∀ k', k' ≠ k → ib (set_ib k v n) k' = ib n k') as E2 by (intros; by apply list_lookup_total_insert_ne).
  destruct (slot_cases c Hc) as [[->|[->|(l & -> & Hl2)]]|(T & k' & A & B & C & ->)].
  - destruct k as [|[|k]]; [exact E1|by apply E2|lia].
  - destruct k as [|[|k]]; [by apply E2|exact E1|lia].
  - rewrite decide_False by (by case_decide). cbn. unfold bmap. by rewrite !decide_True by lia.
  - rewrite decide_False by (destruct T; case_decide; done).
    assert (∀ T', table T' → slot_ok T' → T' = (if decide (k = 0%nat) then Ind else Dbl) ∧ slot_block S (set_ib k v n) T' = v ∧ slot_block S n T' = 0 ∨
      slot_block S (set_ib k v n) T' = slot_block S n T') as HT.
    { intros [l| | |k2] H1 H2; [done|..].
      - destruct k as [|[|k]]; [by left|right; by apply E2|lia].
      - destruct k as [|[|k]]; [right; by apply E2|by left|lia].
      - right. cbn [slot_block]. destruct k as [|[|k]]; [by rewrite E2|rewrite E1, decide_False, (decide_True (P := ib n 1 = 0)) by done|lia]. by apply ptr_zero. }
    rewrite !(slot_child _ _ T k') by done. destruct (HT T A B) as [(_ & -> & ->)| ->]; [|done].
    rewrite decide_False, decide_True by done. by apply ptr_zero.
Qed.
End Link.
(** ** What allocation does to the trees *)

Definition is_table S n (b : Z) : Prop := ∃ a, slot_ok a ∧ table a ∧ slot_block S n a = b.

(** Allocated blocks stay allocated, and stay as they are outside [W]; the inodes stay. *)
Record safe g S S' (W : Z → Prop) : Prop := {
  sf_alloc b : allocated g S b → allocated g S' b;
  sf_used j : 0 <= j < inode_count g → inode_used g S' j = inode_used g S j;
  sf_itable t : itable_sector g <= t < data_frag g → S' t = S t;
  sf_data b t : allocated g S b → ¬ W b → in_block b t → S' t = S t
}.

Lemma safe_refl g S W : safe g S S W.
Proof. by split. Qed.

Lemma safe_trans g S S1 S2 W W1 W2 : safe g S S1 W1 → safe g S1 S2 W2 → (∀ b, allocated g S b → W1 b ∨ W2 b → W b) → safe g S S2 W.
Proof.
  intros [A1 U1 T1 D1] [A2 U2 T2 D2] HW. split.
  - auto.
  - intros j Hj. by rewrite U2, U1.
  - intros t Ht. by rewrite T2, T1.
  - intros b t Hb Hn Ht. rewrite (D2 b t), (D1 b t); [done|done| |done|by apply A1| |done]; intros Hw; apply Hn, HW; auto.
Qed.

Lemma safe_weaken g S S' W W' : safe g S S' W → (∀ b, allocated g S b → W b → W' b) → safe g S S' W'.
Proof. intros [A U T D] HW. split; [done..|]. intros b t Hb Hn Ht. apply (D b); [done| |done]. intros Hw. by apply Hn, HW. Qed.

(** Writing within the data area keeps the bitmaps. *)
Lemma cg_byte_same g S S' o : layout_ok g → (∀ t, t < itable_sector g → S' t = S t) → 0 <= o < cg_freeoff g + nblocks g → cg_byte S' o = cg_byte S o.
Proof. intros [] H Ho. unfold cg_byte. rewrite H; [done|]. arith. Qed.

Lemma data_write_safe g S S' (W : Z → Prop) : layout_ok g → (∀ t, S' t = S t ∨ ∃ b, allocated g S b ∧ W b ∧ in_block b t) → safe g S S' W.
Proof.
  intros Hl H. assert (∀ t, t < data_frag g → S' t = S t) as Hlow.
  { intros t Ht. destruct (H t) as [|(b & Hb & _ & Hin)]; [done|]. pose proof (allocated_pos g S b Hl Hb). unfold in_block in Hin. lia. }
  assert (∀ t, t < itable_sector g → S' t = S t) as Hcg.
  { intros t Ht. apply Hlow. pose proof (inode_sector_bounds g 0 Hl). pose proof (lo_inodes _ Hl). unfold UFS_ROOT_INO in *.
    assert (itable_sector g + 0 / UFS_INODES_PER_SECTOR < data_frag g) as Hd by (apply H0; lia). change (0 / UFS_INODES_PER_SECTOR) with 0 in Hd. lia. }
  split.
  - intros b (k & Hk & -> & Hf). exists k. split; [done|]. split; [done|]. unfold is_free in *. by rewrite (cg_byte_same g S S') by (done || by apply free_byte).
  - intros j Hj. unfold inode_used. by rewrite (cg_byte_same g S S') by (done || by apply iused_byte).
  - intros t Ht. apply Hlow. lia.
  - intros b t Hb Hn Ht. destruct (H t) as [|(c & Hc & Hw & Hin)]; [done|]. destruct (decide (b = c)) as [->|Hne]; [done|].
    by destruct (allocated_disjoint g S b c Hb Hc Hne t Ht).
Qed.

(** Block [k] allocated and zeroed. *)
Definition zeroed S (b : Z) : sectors := λ t, if decide (b <= t < b + 8) then zero_sector else S t.
Definition new_block g S (k : Z) : sectors := zeroed (cg_set S (cg_freeoff g + k) 0) (blk g k).

Section New.
Context (g : ufs_t) (S : sectors) (I : Z → option ufs_inode_t) (k : Z).
Context (Hl : layout_ok g) (Hlen : ∀ t, length (S t) = SECTOR) (Hok : blocks_ok g S I) (Hk : 0 <= k < nblocks g) (Hfree : is_free g S k).

Lemma new_free_other b : allocated g S b → b ≠ blk g k.
Proof. intros (j & Hj & -> & Hf) ->%blk_inj. done. Qed.

Lemma new_sector t : itable_sector g <= t → ¬ in_block (blk g k) t → new_block g S k t = S t.
Proof.
  intros Ht Hn. unfold new_block, zeroed. rewrite decide_False by done. apply (cg_set_area g); [done|by apply free_byte|done].
Qed.

Lemma new_byte o : 0 <= o < cg_freeoff g + nblocks g → cg_byte (new_block g S k) o = if decide (o = cg_freeoff g + k) then 0 else cg_byte S o.
Proof.
  intros Ho. rewrite <-cg_byte_set by (done || by apply free_byte || lia). apply (cg_byte_same g); [done| |done].
  intros t Ht. unfold new_block, zeroed. rewrite decide_False; [done|]. pose proof (blk_bounds g k Hl Hk). lia.
Qed.

Lemma new_free j : 0 <= j < nblocks g → is_free g (new_block g S k) j ↔ j ≠ k ∧ is_free g S j.
Proof.
  intros Hj. unfold is_free. rewrite new_byte by by apply free_byte. case_decide as E; [split; [done|]; intros [Hn _]; exfalso; apply Hn; lia|].
  split; [|by intros [_ ?]]. intros Hf. split; [|done]. intros ->. done.
Qed.

Lemma new_safe : safe g S (new_block g S k) (λ _, False).
Proof.
  split.
  - intros b (j & Hj & -> & Hf). exists j. rewrite new_free by done. split_and!; [lia|lia|done|]. by intros [_ ?].
  - intros j Hj. unfold inode_used. rewrite new_byte by by apply iused_byte. rewrite decide_False; [done|]. destruct Hl. arith.
  - intros t Ht. apply new_sector; [lia|]. pose proof (blk_bounds g k Hl Hk). unfold in_block. lia.
  - intros b t Hb _ Ht. pose proof (allocated_pos g S b Hl Hb). apply new_sector; [unfold in_block in Ht; lia|]. intros Hin.
    apply (new_free_other b Hb). eapply valid_block_disjoint; [by eapply allocated_valid|by exists k|exact Ht|exact Hin].
Qed.

Lemma new_slots : blocks_ok g (new_block g S k) I ∧ ∀ i n a, I i = Some n → slot_ok a → slot_block (new_block g S k) n a = slot_block S n a.
Proof.
  apply blocks_ok_ext; [done|apply new_safe|]. intros i n a t Hi Ha _ Hz Ht. eapply (sf_data _ _ _ _ new_safe); [by eapply bo_alloc|tauto|done].
Qed.

Lemma new_fresh : fresh g (new_block g S k) I (blk g k).
Proof.
  split.
  - exists k. rewrite new_free by done. split_and!; [lia|lia|done|]. by intros [? _].
  - intros i n a Hi Ha. rewrite (proj2 new_slots i) by done. intros E. destruct (decide (blk g k = 0)) as [E0|Hz].
    + pose proof (blk_bounds g k Hl Hk). pose proof (lo_group _ Hl). pose proof (free_byte g k Hl Hk). ufs_consts. lia.
    + apply (new_free_other (blk g k)); [|done]. rewrite <-E in *. by eapply bo_alloc.
Qed.

Lemma new_keeps_fresh b : fresh g S I b → fresh g (new_block g S k) I b ∧ b ≠ blk g k.
Proof. intros Hf. split; [eapply fresh_ext; [done|apply new_safe|apply new_slots]|]. apply new_free_other, Hf. Qed.

Lemma new_zero : zero_block (new_block g S k) (blk g k).
Proof. intros t Ht. unfold new_block, zeroed. by rewrite decide_True. Qed.
End New.
(** ** The programs *)

Lemma wp_zero_block g S s b : layout_ok g → on g S s → valid_block g b → ok (ufs_zero_block b) (λ _ s', on g (zeroed S b) s') s.
Proof.
  intros Hl H Hb. pose proof (valid_block_bounds g b Hl Hb) as Hr. unfold ufs_zero_block. apply wp_bind, wp_modify. eapply wp_mono;
    [apply (wp_each (λ j s, on g (λ t, if decide (b <= t < b + j) then zero_sector else S t) s ∧ ufs_buf s = zero_sector) (λ _ _, True))| |done].
  - split; [|done]. eapply on_ext; [by apply on_buf; [|apply length_replicate]|]. intros t. by rewrite decide_False by lia.
  - intros j s1 Hj [H1 Hbuf]. assert (0 <= j < 8) as Hj8 by (change (Z.of_nat (Z.to_nat UFS_FRAGS_PER_BLK)) with 8 in Hj; lia).
    eapply wp_write_sector; [done|lia| |done]. intros s2 H2 Hb2. split; [|by rewrite Hb2]. eapply on_ext; [exact H2|].
    intros t. cbn beta. destruct (decide (b + j = t)) as [<-|Hne].
    + by rewrite fn_lookup_insert, decide_True by lia.
    + rewrite fn_lookup_insert_ne by done. repeat case_decide; try done; lia.
  - intros [] s1 [H1 _]. done.
Qed.

(** A new block, zeroed. *)
Lemma wp_new_zeroed {A} g S s (m : Z → prog ufs_t A) Q : layout_ok g → on g S s →
  (∀ k s', 0 <= k < nblocks g → is_free g S k → on g (new_block g S k) s' → ok (m (blk g k)) Q s') →
  ok (frag ← ufs_alloc_block; ufs_zero_block frag;; m frag) Q s.
Proof.
  intros Hl H Hm. apply wp_bind. eapply wp_mono; [by apply (wp_alloc_block g S)| |done]. intros b s1 (k & Hk & -> & Hf & _ & H1).
  apply wp_bind. eapply wp_mono; [apply (wp_zero_block g (cg_set S (cg_freeoff g + k) 0) s1); [done|done|by exists k]| |done]. intros [] s2 H2. by apply (Hm k).
Qed.

Lemma wp_new_table g S s : layout_ok g → on g S s →
  ok new_table (λ b s', ∃ k, 0 <= k < nblocks g ∧ b = blk g k ∧ is_free g S k ∧ on g (new_block g S k) s') s.
Proof. intros Hl H. unfold new_table. apply (wp_new_zeroed g S); [done..|]. intros k s1 Hk Hf H1. apply wp_ret. by exists k. Qed.

Lemma wp_read_ptr g S s f k : layout_ok g → on g S s → valid_block g f → 0 <= k < 1024 →
  wp (read_ptr f k) (λ v s', v = ptr_at S f k ∧ on g S s') (λ _ s', on g S s' ∧ read_failed g s') s.
Proof.
  intros Hl H Hf Hk. pose proof (valid_block_bounds g f Hl Hf). unfold read_ptr. change PTRS_PER_SEC with 128. apply wp_bind.
  eapply wp_read_sector; [done|arith| |done]. intros s1 H1 Hb. apply wp_gets. by rewrite Hb.
Qed.

Lemma wp_write_ptr g S s f k v : layout_ok g → on g S s → valid_block g f → 0 <= k < 1024 →
  ok (write_ptr f k v) (λ _ s', on g (set_ptr S f k v) s') s.
Proof.
  intros Hl H Hf Hk. pose proof (valid_block_bounds g f Hl Hf). unfold write_ptr. change PTRS_PER_SEC with 128. apply wp_bind.
  eapply wp_read_sector; [done|arith| |done]. intros s1 H1 Hb. apply wp_bind, wp_modify. eapply wp_write_sector; [apply on_buf; [done|unfold put_word; by rewrite length_put_bytes, (on_buffer _ _ _ H1)]|arith| |done].
  intros s2 H2 _. cbn [ufs_buf set_buf] in H2. by rewrite Hb in H2.
Qed.

Lemma slot_valid g S I i n a : blocks_ok g S I → I i = Some n → slot_ok a → slot_block S n a ≠ 0 → valid_block g (slot_block S n a).
Proof. intros Hok Hi Ha Hz. eapply allocated_valid. by eapply bo_alloc. Qed.

Lemma wp_block_map g S I i n s l : layout_ok g → on g S s → blocks_ok g S I → I i = Some n → 0 <= l →
  wp (ufs_block_map n l) (λ b s', l < MAP_MAX ∧ b = bmap S n l ∧ on g S s') (λ _ s', on g S s' ∧ (read_failed g s' ∨ MAP_MAX <= l)) s.
Proof.
  intros Hl H Hok Hi Hl0. unfold ufs_block_map, bmap, MAP_MAX, UFS_DIRECT_BLOCKS. change PTRS_PER_BLOCK with 1024.
  destruct (Z.ltb_spec l 12) as [H12|H12]; [rewrite decide_True by done; apply wp_ret; split_and!; [lia|done..]|rewrite decide_False by lia].
  destruct (Z.ltb_spec (l - 12) 1024) as [H36|H36]; [rewrite decide_True by lia|rewrite decide_False by lia].
  - destruct (Z.eqb_spec (ib n 0) 0) as [Hz|Hz]; [rewrite decide_True by done; apply wp_ret; split_and!; [lia|done..]|rewrite decide_False by done].
    eapply wp_mono; [apply (wp_read_ptr g S s); [done|done|exact (slot_valid g S I i n Ind Hok Hi Logic.I Hz)|lia]| |by intros e s' [? ?]; split; [|left]].
    intros v s1 [-> H1]. split_and!; [lia|done..].
  - destruct (Z.leb_spec (1024 * 1024) (l - 12 - 1024)) as [|Hmax]; [apply wp_throw; split; [done|right; unfold MAP_MAX; lia]|]. replace (l - 12 - 1024) with (l - 1036) in * by lia.
    destruct (Z.eqb_spec (ib n 1) 0) as [Hz|Hz]; [rewrite decide_True by done; apply wp_ret; split_and!; [lia|done..]|rewrite decide_False by done].
    assert (0 <= (l - 1036) / 1024 < 1024 ∧ 0 <= (l - 1036) mod 1024 < 1024) as [Ho Hm] by arith. apply wp_bind.
    eapply wp_mono; [apply (wp_read_ptr g S s); [done|done|exact (slot_valid g S I i n Dbl Hok Hi Logic.I Hz)|done]| |by intros e s' [? ?]; split; [|left]].
    intros v s1 [Ev H1]. pose proof (slot_child S n Dbl _ Logic.I Logic.I Ho) as E. cbn [child] in E. cbn [slot_block] in E. rewrite !(decide_False _ _ Hz) in E.
    cbv zeta. rewrite <-Ev. destruct (Z.eqb_spec v 0) as [Hv|Hv]; [rewrite decide_True by done; apply wp_ret; split_and!; [lia|done..]|rewrite decide_False by done].
    eapply wp_mono; [apply (wp_read_ptr g S s1); [done|done| |done]| |by intros e s' [? ?]; split; [|left]].
    + pose proof (slot_valid g S I i n (Inner ((l - 1036) / 1024)) Hok Hi Ho) as Hv2. cbn [slot_block] in Hv2. rewrite !(decide_False _ _ Hz), <-Ev in Hv2. by apply Hv2.
    + intros w s2 [-> H2]. split_and!; [lia|done..].
Qed.
(** ** Growing the tree *)

(** All but the pointers. *)
Definition same_meta n n' : Prop := set_i_ib (i_ib n) (set_i_direct (i_direct n) n') = n.

Lemma same_meta_trans n1 n2 n3 : same_meta n1 n2 → same_meta n2 n3 → same_meta n1 n3.
Proof. destruct n1, n2, n3. unfold same_meta. cbn. intros [=] [=]. by subst. Qed.
Lemma same_meta_size n n' : same_meta n n' → i_size n' = i_size n ∧ i_mode n' = i_mode n.
Proof. destruct n, n'. unfold same_meta. cbn. by intros [=]. Qed.

Lemma blocks_ok_same g S (I I' : Z → option ufs_inode_t) : (∀ j, I' j = I j) → blocks_ok g S I → blocks_ok g S I'.
Proof.
  intros E [A B C]. split.
  - intros i n. rewrite E. apply A.
  - intros i n a. rewrite E. apply B.
  - intros i j n m a b. rewrite !E. apply C.
Qed.

Lemma insert_insert_fn (I : Z → option ufs_inode_t) i n n' j : <[i := Some n']> I j = <[i := Some n']> (<[i := Some n]> I) j.
Proof. destruct (decide (i = j)) as [<-|]; [by rewrite !fn_lookup_insert|by rewrite !fn_lookup_insert_ne]. Qed.

(** The tree of inode [i] has grown by tables only; [phys] is still free for use. *)
Record tables_grown g I i phys n S n' S' : Prop := {
  tg_ok : blocks_ok g S' (<[i := Some n']> I);
  tg_fresh : fresh g S' (<[i := Some n']> I) phys;
  tg_safe : safe g S S' (is_table S n);
  tg_tables b : allocated g S b → is_table S' n' b → is_table S n b;
  tg_bmap l : 0 <= l < MAP_MAX → bmap S' n' l = bmap S n l;
  tg_meta : same_meta n n'
}.

Lemma tables_same g I i phys n S : blocks_ok g S I → I i = Some n → fresh g S I phys → tables_grown g I i phys n S n S.
Proof.
  intros Hok Hi [Ha Hf]. assert (∀ j, <[i := Some n]> I j = I j) as E.
  { intros j. destruct (decide (i = j)) as [<-|]; [by rewrite fn_lookup_insert|by rewrite fn_lookup_insert_ne]. }
  split; [by eapply blocks_ok_same| |by apply safe_refl|done|done|by destruct n].
  split; [done|]. intros j m a. rewrite E. apply Hf.
Qed.

Lemma tables_trans g I i phys n S n1 S1 n2 S2 : tables_grown g I i phys n S n1 S1 →
  tables_grown g (<[i := Some n1]> I) i phys n1 S1 n2 S2 → tables_grown g I i phys n S n2 S2.
Proof.
  intros [A B C D E F] [A' [B1 B2] C' D' E' F']. split.
  - eapply blocks_ok_same; [apply insert_insert_fn|done].
  - split; [done|]. intros j m a. rewrite (insert_insert_fn I i n1). apply B2.
  - eapply safe_trans; [exact C|exact C'|]. intros b Hb [?|?]; [done|by apply D].
  - intros b Hb Ht. apply D; [done|]. apply D'; [by apply C|done].
  - intros l Hl. by rewrite E', E.
  - by eapply same_meta_trans.
Qed.

Lemma inode_wf_ptrs n n' : inode_wf n → same_meta n n' → length (i_direct n') = 12%nat ∧ Forall (λ v, 0 <= v < 2 ^ 32) (i_direct n') →
  length (i_ib n') = 3%nat ∧ Forall (λ v, 0 <= v < 2 ^ 32) (i_ib n') → inode_wf n'.
Proof. destruct n, n'. unfold same_meta. cbn. intros [] [=] ??. subst. by split. Qed.

(** A new block linked as table [a], by a write of [S2] to tables. *)
Lemma table_linked g S I i phys n k S2 n2 a : layout_ok g → (∀ t, length (S t) = SECTOR) → blocks_ok g S I → I i = Some n → fresh g S I phys →
  0 <= k < nblocks g → is_free g S k → slot_ok a → table a → slot_block S n a = 0 → inode_wf n2 → same_meta n n2 →
  (∀ c, slot_ok c → slot_block S2 n2 c = if decide (c = a) then blk g k else slot_block (new_block g S k) n c) →
  (∀ j m c, j ≠ i → I j = Some m → slot_ok c → slot_block S2 m c = slot_block (new_block g S k) m c) →
  (∀ t, S2 t = new_block g S k t ∨ ∃ b, allocated g S b ∧ is_table S n b ∧ in_block b t) →
  tables_grown g I i phys n S n2 S2.
Proof.
  intros Hl Hlen Hok Hi Hp Hk Hfree Ha Hta Hz Hw Hm Heq Hoth Hsec. set (S1 := new_block g S k) in *.
  pose proof (new_safe g S k Hl Hlen Hk Hfree) as Hs1. destruct (new_slots g S I k Hl Hlen Hok Hk Hfree) as [Hok1 E1].
  destruct (new_keeps_fresh g S I k Hl Hlen Hok Hk Hfree phys Hp) as [Hp1 Hpne]. fold S1 in Hs1, Hok1, E1, Hp1.
  assert (safe g S1 S2 (is_table S n)) as Hs2.
  { apply data_write_safe; [done|]. intros t. destruct (Hsec t) as [|(b & Hb & ? & ?)]; [by left|right; exists b; by split; [apply Hs1|]]. }
  pose proof (new_fresh g S I k Hl Hlen Hok Hk Hfree) as Hf. fold S1 in Hf. split.
  - eapply (link_ok g S1); [done|done|done|exact Ha|exact Hf|apply Hs2|exact Heq|exact Hoth].
  - destruct Hp1 as [Hp1 Hp2]. split; [by apply Hs2|]. intros j m c. destruct (decide (i = j)) as [<-|Hj].
    + rewrite fn_lookup_insert. intros [= <-] Hc. rewrite Heq by done. case_decide; [done|]. by apply (Hp2 i).
    + rewrite fn_lookup_insert_ne by done. intros Hj2 Hc. rewrite (Hoth j) by done. by apply (Hp2 j).
  - eapply safe_trans; [exact Hs1|exact Hs2|]. by intros b _ [?|?].
  - intros b Hb (c & Hc & Htc & <-). rewrite Heq in Hb |- * by done. case_decide as Hd.
    + by destruct (new_free_other g S k Hfree _ Hb).
    + exists c. split_and!; [done..|]. symmetry. by apply (E1 i).
  - intros l Hll. change (slot_block S2 n2 (Data l) = slot_block S n (Data l)). rewrite Heq by done. rewrite decide_False by (intros E; by rewrite <-E in Hta). by apply (E1 i).
  - done.
Qed.

Lemma wp_ensure_root g S I i phys n s r : layout_ok g → on g S s → blocks_ok g S I → I i = Some n → fresh g S I phys → (r < 2)%nat →
  ok (if ib n r =? 0 then frag ← new_table; mret (set_ib r frag n) else mret n)
    (λ n' s', ∃ S', on g S' s' ∧ ib n' r ≠ 0 ∧ tables_grown g I i phys n S n' S') s.
Proof.
  intros Hl H Hok Hi Hp Hr. assert (∀ t, length (S t) = SECTOR) as Hlen by (intros; by eapply on_length). destruct (Z.eqb_spec (ib n r) 0) as [Hz|Hz].
  2:{ apply wp_ret. exists S. split_and!; [done..|by apply tables_same]. }
  apply wp_bind. eapply wp_mono; [by apply (wp_new_table g S)| |done]. intros b s1 (k & Hk & -> & Hf & H1). apply wp_ret. exists (new_block g S k).
  pose proof (new_fresh g S I k Hl Hlen Hok Hk Hf) as Hfr. destruct (new_slots g S I k Hl Hlen Hok Hk Hf) as [Hok1 E1].
  pose proof (fresh_word g (new_block g S k) I Hl _ Hfr) as Hword. pose proof (bo_wf _ _ _ Hok _ _ Hi) as Hw. pose proof (iw_ib _ Hw) as [Li Fi].
  assert (ib (set_ib r (blk g k) n) r = blk g k) as Eb by (apply list_lookup_total_insert_eq; lia).
  split_and!; [done|rewrite Eb; lia|].
  apply (table_linked g S I i phys n k _ _ (if decide (r = 0%nat) then Ind else Dbl)); try done.
  - by case_decide. - by case_decide. - destruct r as [|[|r]]; [done|done|lia].
  - apply (inode_wf_ptrs n); [done|by destruct n|apply Hw|]. cbn. rewrite length_insert. split; [done|]. apply Forall_insert; [done|lia].
  - by destruct n.
  - intros c Hc. apply (set_ib_slot g _ I i n); try done; [|lia]. apply new_zero.
  - intros t. by left.
Qed.
Lemma wp_ensure_inner {A} g S I i phys n s o (m : Z → prog ufs_t A) Q : layout_ok g → on g S s → blocks_ok g S I → I i = Some n → fresh g S I phys →
  ib n 1 ≠ 0 → 0 <= o < 1024 →
  (∀ S' s', on g S' s' → slot_block S' n (Inner o) ≠ 0 → tables_grown g I i phys n S n S' → ok (m (slot_block S' n (Inner o))) Q s') →
  ok (inner_frag ← read_ptr (ib n 1) o;
      inner_frag ← (if inner_frag =? 0 then frag ← new_table; write_ptr (ib n 1) o frag;; mret frag else mret inner_frag);
      m inner_frag) Q s.
Proof.
  intros Hl H Hok Hi Hp Hz Ho Hm. assert (∀ t, length (S t) = SECTOR) as Hlen by (intros; by eapply on_length).
  assert (∀ S', slot_block S' n (Inner o) = ptr_at S' (ib n 1) o) as Einner by (intros; cbn [slot_block]; by rewrite decide_False).
  apply wp_bind. eapply wp_mono; [apply (wp_read_ptr g S s); [done|done|exact (slot_valid g S I i n Dbl Hok Hi Logic.I Hz)|done]| |done].
  intros v s1 [Ev H1]. rewrite <-Einner in Ev. apply wp_bind. destruct (Z.eqb_spec v 0) as [Hv|Hv].
  2:{ apply wp_ret. rewrite Ev. apply Hm; [done|by rewrite <-Ev|by apply tables_same]. }
  apply wp_bind. eapply wp_mono; [by apply (wp_new_table g S)| |done]. intros b s2 (k & Hk & -> & Hf & H2).
  pose proof (new_fresh g S I k Hl Hlen Hok Hk Hf) as Hfr. destruct (new_slots g S I k Hl Hlen Hok Hk Hf) as [Hok1 E1].
  pose proof (fresh_word g (new_block g S k) I Hl _ Hfr) as Hword. set (S1 := new_block g S k) in *.
  assert (slot_block S1 n Dbl = ib n 1) as Ed by done. assert (∀ t, length (S1 t) = SECTOR) as Hlen1 by (intros; by eapply on_length).
  apply wp_bind. eapply wp_mono; [apply (wp_write_ptr g S1 s2); [done|done|exact (slot_valid g S1 I i n Dbl Hok1 Hi Logic.I Hz)|done]| |done].
  intros [] s3 H3. apply wp_ret.
  assert (linkable g S1 I n Dbl o (blk g k)) as Hlink.
  { split_and!; [done|done|lia|lia|exact Hz|done|]. intros _. split; [|by apply new_zero]. cbn [child]. rewrite (E1 i) by done. congruence. }
  assert (∀ c, slot_ok c → slot_block (set_ptr S1 (ib n 1) o (blk g k)) n c = if decide (c = Inner o) then blk g k else slot_block S1 n c) as Heq.
  { intros c Hc. exact (set_ptr_slot g S1 I i n Hl Hlen1 Hok1 Hi Dbl o (blk g k) c Hlink Hc). }
  pose proof (Heq (Inner o) Ho) as Einn. rewrite decide_True in Einn by done. rewrite <-Einn. apply Hm; [exact H3|rewrite Einn; lia|].
  apply (table_linked g S I i phys n k _ _ (Inner o)); try done; [congruence|by eapply bo_wf|by destruct n|..].
    + intros j n' c Hj Hn' Hc. exact (set_ptr_elsewhere g S1 I i n Hok1 Hi Dbl o (blk g k) j n' c Hlink Hj Hn' Hc).
    + intros t. fold S1. destruct (decide (ib n 1 <= t < ib n 1 + 8)) as [Ht|Ht]; [right|left; by apply set_ptr_other].
      exists (ib n 1). split_and!; [exact (bo_alloc _ _ _ Hok i n Dbl Hi Logic.I Hz)|by exists Dbl|unfold in_block in *; lia..].
Qed.

(** The outcome of setting entry [l]. *)
Record entry_set g I i l phys n S n' S' : Prop := {
  es_ok : blocks_ok g S' (<[i := Some n']> I);
  es_safe : safe g S S' (is_table S n);
  es_bmap l' : 0 <= l' < MAP_MAX → bmap S' n' l' = if decide (l' = l) then phys else bmap S n l';
  es_meta : same_meta n n'
}.

Lemma entry_after g I i l phys n S n1 S1 n2 S2 : tables_grown g I i phys n S n1 S1 →
  entry_set g (<[i := Some n1]> I) i l phys n1 S1 n2 S2 → entry_set g I i l phys n S n2 S2.
Proof.
  intros [A B C D E F] [A' C' E' F']. split.
  - eapply blocks_ok_same; [apply insert_insert_fn|done].
  - eapply safe_trans; [exact C|exact C'|]. intros b Hb [?|?]; [done|by apply D].
  - intros l' Hl. rewrite E' by done. case_decide; [done|]. by apply E.
  - by eapply same_meta_trans.
Qed.

Lemma wp_link_data g S I i phys n s T k l : layout_ok g → on g S s → blocks_ok g S I → I i = Some n → fresh g S I phys →
  table T → slot_ok T → slot_block S n T ≠ 0 → 0 <= k < 1024 → child T k = Data l →
  ok (write_ptr (slot_block S n T) k phys) (λ _ s', ∃ S', on g S' s' ∧ entry_set g I i l phys n S n S') s.
Proof.
  intros Hl H Hok Hi Hp HT HTok Hz Hk Ec. assert (∀ t, length (S t) = SECTOR) as Hlen by (intros; by eapply on_length).
  eapply wp_mono; [apply (wp_write_ptr g S s); [done|done|by eapply slot_valid|done]| |done]. intros [] s1 H1. exists (set_ptr S (slot_block S n T) k phys).
  split; [done|]. assert (linkable g S I n T k phys) as Hlink by (split_and!; try done; [lia|lia|by rewrite Ec]).
  pose proof (set_ptr_slot g S I i n Hl Hlen Hok Hi T k phys) as Heq. rewrite Ec in Heq.
  assert (safe g S (set_ptr S (slot_block S n T) k phys) (is_table S n)) as Hs.
  { apply data_write_safe; [done|]. intros t. destruct (decide (slot_block S n T <= t < slot_block S n T + 8)) as [Ht|Ht]; [right|left; by apply set_ptr_other].
    exists (slot_block S n T). split_and!; [by eapply bo_alloc|by exists T|unfold in_block in *; lia..]. }
  split; [|done| |by destruct n].
  - apply (link_ok g S _ I i n n (Data l) phys); [done|done|by eapply bo_wf|rewrite <-Ec; by apply child_ok|exact Hp|apply Hs|intros c Hc; by apply Heq|].
    intros j m c Hj Hm Hc. by apply (set_ptr_elsewhere g S I i n Hok Hi T k phys j).
  - intros l' Hl'. change (slot_block (set_ptr S (slot_block S n T) k phys) n (Data l') = if decide (l' = l) then phys else slot_block S n (Data l')).
    rewrite Heq by done. repeat case_decide; congruence.
Qed.

Lemma wp_block_set g S I i phys n s l : layout_ok g → on g S s → blocks_ok g S I → I i = Some n → fresh g S I phys → 0 <= l →
  ok (ufs_block_set n l phys) (λ n' s', l < MAP_MAX ∧ ∃ S', on g S' s' ∧ entry_set g I i l phys n S n' S') s.
Proof.
  intros Hl H Hok Hi Hp Hl0. pose proof (bo_wf _ _ _ Hok _ _ Hi) as Hw. unfold ufs_block_set, UFS_DIRECT_BLOCKS. change PTRS_PER_BLOCK with 1024.
  destruct (Z.ltb_spec l 12) as [H12|H12].
  { apply wp_ret. split; [unfold MAP_MAX; lia|]. exists S. split; [done|].
    assert (∀ c, slot_ok c → slot_block S (set_direct l phys n) c = if decide (c = Data l) then phys else slot_block S n c) as Heq.
    { intros c Hc. by apply (set_direct_slot g S I i). }
    split; [|by apply safe_refl| |by destruct n].
    - apply (link_ok g S S I i n _ (Data l) phys); try done; [|cbn; unfold MAP_MAX; lia].
      apply (inode_wf_ptrs n); [done|by destruct n| |apply Hw]. cbn. rewrite length_insert. split; [apply Hw|]. apply Forall_insert; [apply Hw|].
      pose proof (fresh_word g S I Hl phys Hp). lia.
    - intros l' Hl'. change (slot_block S (set_direct l phys n) (Data l') = if decide (l' = l) then phys else slot_block S n (Data l')).
      rewrite Heq by done. repeat case_decide; congruence. }
  assert (∀ n1 S1, tables_grown g I i phys n S n1 S1 → blocks_ok g S1 (<[i := Some n1]> I) ∧ <[i := Some n1]> I i = Some n1 ∧
    fresh g S1 (<[i := Some n1]> I) phys) as Hgr by (intros n1 S1 []; split_and!; [done|apply fn_lookup_insert|done]).
  destruct (Z.ltb_spec (l - 12) 1024) as [H36|H36].
  - apply wp_bind. eapply wp_mono; [by apply (wp_ensure_root g S I i phys n s 0); try done; lia| |done]. intros n1 s1 (S1 & H1 & Hz & Hg).
    destruct (Hgr _ _ Hg) as (A & B & C). apply wp_bind.
    eapply wp_mono; [apply (wp_link_data g S1 (<[i := Some n1]> I) i phys n1 s1 Ind (l - 12) l); try done; [lia|cbn [child]; f_equal; lia]| |done].
    intros [] s2 (S2 & H2 & He). apply wp_ret. split; [unfold MAP_MAX; lia|]. exists S2. split; [done|]. by eapply entry_after.
  - destruct (Z.leb_spec (1024 * 1024) (l - 12 - 1024)) as [|Hmax]; [by apply wp_throw|]. replace (l - 12 - 1024) with (l - 1036) in * by lia.
    assert (0 <= (l - 1036) / 1024 < 1024 ∧ 0 <= (l - 1036) mod 1024 < 1024) as [Ho Hm] by arith.
    apply wp_bind. eapply wp_mono; [by apply (wp_ensure_root g S I i phys n s 1); try done; lia| |done]. intros n1 s1 (S1 & H1 & Hz & Hg).
    destruct (Hgr _ _ Hg) as (A & B & C). eapply (wp_ensure_inner g S1 (<[i := Some n1]> I) i phys n1 s1); [done..|].
    intros S2 s2 H2 Hz2 Hg2. assert (<[i := Some n1]> (<[i := Some n1]> I) i = Some n1) as B2 by apply fn_lookup_insert. apply wp_bind.
    eapply wp_mono; [eapply (wp_link_data g S2 (<[i := Some n1]> (<[i := Some n1]> I)) i phys n1 s2 (Inner ((l - 1036) / 1024)) ((l - 1036) mod 1024) l);
      try done; [apply Hg2|apply Hg2|cbn [child]; f_equal; arith]| |done].
    intros [] s3 (S3 & H3 & He). apply wp_ret. split; [unfold MAP_MAX; lia|]. exists S3. split; [done|]. eapply entry_after; [exact Hg|]. by eapply entry_after.
Qed.
End Tree.
