(* ===== verification/UfsFiles.v ===== *)
(** * UfsFiles: the contents of files (src/kernel/vfs/ufs.c)

    The byte of an inode at a position, and what [ufs_read] and [ufs_write] do to
    it: reading returns the bytes up to the first hole, and a complete write
    changes exactly the positions it covers, of its own file only, while the trees
    of all inodes stay disjoint and allocated. *)

From stdpp Require Import functions.
From S2P Require Import Prelude Bits Config ErrState PagePool Path Vfs Driver VfsFacts ModCore Tmpfs BlkDev BlkDevFacts SectorDev Ufs UfsBlocks UfsInode UfsTree UfsOps.

Section Files.
Context {cfg : PageConfig} {ps : PageStore} {psok : PageStoreOk} {sd : SectorDev} {sdok : SectorDevOk} {bo : ByteOrder}.
Implicit Types (g s : ufs_t) (S : sectors) (n m : ufs_inode_t).
#[local] Abbreviation ok m Q s := (wp m Q (λ _ _, True) s).

(** ** Contents *)

Definition POS_MAX : Z := 2 ^ 32.

(** Byte [x] of block [b], zero in a hole. *)
Definition block_byte S (b x : Z) : Z := if decide (b = 0) then 0 else S (b + x / BLKDEV_SECTOR_SIZE) !!! Z.to_nat (x mod BLKDEV_SECTOR_SIZE).
Definition byte_of S n (p : Z) : Z := block_byte S (bmap S n (p / UFS_BLOCK_SIZE)) (p mod UFS_BLOCK_SIZE).

Lemma pos_slot p : 0 <= p < POS_MAX → slot_ok (Data (p / UFS_BLOCK_SIZE)).
Proof. intros Hp. cbn. unfold MAP_MAX, POS_MAX in *. arith. Qed.

Lemma block_byte_ext S S' b x : (b ≠ 0 → ∀ t, in_block b t → S' t = S t) → 0 <= x < UFS_BLOCK_SIZE → block_byte S' b x = block_byte S b x.
Proof. intros H Hx. unfold block_byte. case_decide; [done|]. rewrite H; [done|done|]. unfold in_block. arith. Qed.

Lemma bmap_slot S n l : bmap S n l = slot_block S n (Data l).
Proof. done. Qed.

(** The state of inode [i] as [n] has gone on to [n'], with the bytes [f]. *)
Record rewritten g I i n S n' S' (f : Z → Z) : Prop := {
  rw_ok : blocks_ok g S' (<[i := Some n']> I);
  rw_self p : 0 <= p < POS_MAX → byte_of S' n' p = f p;
  rw_other j m p : j ≠ i → I j = Some m → 0 <= p < POS_MAX → byte_of S' m p = byte_of S m p;
  rw_used j : 0 <= j < inode_count g → inode_used g S' j = inode_used g S j;
  rw_itable t : itable_sector g <= t < data_frag g → S' t = S t;
  rw_meta : same_meta n n'
}.

Lemma rewritten_refl g I i n S f : blocks_ok g S I → I i = Some n → (∀ p, 0 <= p < POS_MAX → byte_of S n p = f p) → rewritten g I i n S n S f.
Proof.
  intros Hok Hi Hf. split; try done; [|by destruct n]. eapply blocks_ok_same; [|done].
  intros j. destruct (decide (i = j)) as [<-|]; [by rewrite fn_lookup_insert|by rewrite fn_lookup_insert_ne].
Qed.

Lemma rewritten_trans g I I1 i n S n1 S1 n2 S2 f1 f2 : (∀ j, j ≠ i → I1 j = I j) → rewritten g I i n S n1 S1 f1 → rewritten g I1 i n1 S1 n2 S2 f2 →
  rewritten g I i n S n2 S2 f2.
Proof.
  intros HI [A B C D E F] [A' B' C' D' E' F']. split.
  - eapply blocks_ok_same; [|exact A']. intros j. destruct (decide (i = j)) as [<-|]; [by rewrite !fn_lookup_insert|].
    rewrite !fn_lookup_insert_ne by done. by rewrite HI.
  - done.
  - intros j m p Hj Hm Hp. rewrite (C' j) by (done || by rewrite HI). by apply (C j).
  - intros j Hj. by rewrite D', D.
  - intros t Ht. by rewrite E', E.
  - by eapply same_meta_trans.
Qed.

(** A data block is no table. *)
Lemma data_no_table g S I i j n m l : blocks_ok g S I → I i = Some n → I j = Some m → 0 <= l < MAP_MAX → bmap S m l ≠ 0 → ¬ is_table S n (bmap S m l).
Proof.
  intros Hok Hi Hj Hl Hz (a & Ha & Hta & E). change (bmap S m l) with (slot_block S m (Data l)) in *.
  destruct (bo_inj _ _ _ Hok j i m n (Data l) a) as [_ <-]; done.
Qed.

(** The maps of other inodes. *)
Lemma entry_set_others g S I i n l phys n' S' : entry_set g I i l phys n S n' S' → blocks_ok g S I → I i = Some n →
  ∀ j m l', j ≠ i → I j = Some m → 0 <= l' < MAP_MAX → bmap S' m l' = bmap S m l'.
Proof.
  intros [A B C D] Hok Hi j m l' Hj Hm Hl'. rewrite !bmap_slot. apply slot_ext; [|done]. intros c t Hc Htc Hcz Ht.
  apply (sf_data _ _ _ _ B (slot_block S m c)); [by eapply bo_alloc| |done].
  intros (a & Ha & _ & E). destruct (bo_inj _ _ _ Hok j i m n c a) as [? _]; done.
Qed.

(** Setting an entry of the map to a zeroed block, or tables changing, leaves the bytes. *)
Lemma entry_set_content g S I i n l phys n' S' : blocks_ok g S I → I i = Some n → fresh g S I phys → zero_block S phys → bmap S n l = 0 →
  entry_set g I i l phys n S n' S' → rewritten g I i n S n' S' (byte_of S n).
Proof.
  intros Hok Hi Hp Hz Hl0 He. pose proof He as [A B C D]. assert (¬ is_table S n phys) as Hpt by (intros (a & Ha & _ & E); by apply (proj2 Hp i n a)).
  assert (∀ j m p, I j = Some m → 0 <= p < POS_MAX → bmap S m (p / UFS_BLOCK_SIZE) ≠ 0 →
    ∀ t, in_block (bmap S m (p / UFS_BLOCK_SIZE)) t → S' t = S t) as Hsame.
  { intros j m p Hj Hm Hb t Ht. apply (sf_data _ _ _ _ B (bmap S m (p / UFS_BLOCK_SIZE))); [| |done].
    - exact (bo_alloc _ _ _ Hok j m (Data _) Hj (pos_slot p Hm) Hb).
    - by apply (data_no_table g S I i j); try apply pos_slot. }
  split; [done| | |apply B|apply B|done].
  - intros p Hx. unfold byte_of. rewrite C by by apply pos_slot. case_decide as E.
    + rewrite E, Hl0. unfold block_byte at 2. rewrite decide_True by done. rewrite (block_byte_ext S S').
      * unfold block_byte. case_decide; [done|]. rewrite Hz by (unfold in_block; arith). apply lookup_total_replicate_2. arith.
      * intros _ t Ht. apply (sf_data _ _ _ _ B phys); [apply Hp|done|done].
      * arith.
    + apply block_byte_ext; [|arith]. by eapply Hsame.
  - intros j m p Hj Hm Hx. unfold byte_of. rewrite (entry_set_others g S I i n l phys n' S' He Hok Hi j) by (done || by apply pos_slot).
    apply block_byte_ext; [|arith]. by eapply Hsame.
Qed.
(** ** Writing *)

Lemma new_content g S I i n k : layout_ok g → (∀ t, length (S t) = SECTOR) → blocks_ok g S I → I i = Some n → 0 <= k < nblocks g → is_free g S k →
  rewritten g I i n S n (new_block g S k) (byte_of S n).
Proof.
  intros Hl Hlen Hok Hi Hk Hf. destruct (new_slots g S I k Hl Hlen Hok Hk Hf) as [Hok1 E1]. pose proof (new_safe g S k Hl Hlen Hk Hf) as Hs.
  assert (∀ j m p, I j = Some m → 0 <= p < POS_MAX → byte_of (new_block g S k) m p = byte_of S m p) as Hb.
  { intros j m p Hj Hp. unfold byte_of. rewrite !bmap_slot, (E1 j) by (done || by apply pos_slot). apply block_byte_ext; [|arith]. intros Hz t Ht.
    eapply (sf_data _ _ _ _ Hs); [|tauto|exact Ht]. apply (bo_alloc _ _ _ Hok j m (Data _) Hj (pos_slot p Hp) Hz). }
  split; [| | |apply Hs|apply Hs|by destruct n].
  - eapply blocks_ok_same; [|exact Hok1]. intros j. destruct (decide (i = j)) as [<-|]; [by rewrite fn_lookup_insert|by rewrite fn_lookup_insert_ne].
  - intros p Hp. by eapply Hb.
  - intros j m p _ Hj Hp. by eapply Hb.
Qed.

Lemma wp_writable_block g S I i n s l : layout_ok g → on g S s → blocks_ok g S I → I i = Some n → 0 <= l →
  ok (writable_block n l) (λ p s', ∃ S', on g S' s' ∧ l < MAP_MAX ∧ rewritten g I i n S p.1 S' (byte_of S n) ∧ p.2 = bmap S' p.1 l ∧ p.2 ≠ 0) s.
Proof.
  intros Hl H Hok Hi Hl0. unfold writable_block. apply wp_bind. eapply wp_mono; [by apply (wp_block_map g S I i n s l)| |done].
  intros b s1 (Hmax & -> & H1). destruct (Z.eqb_spec (bmap S n l) 0) as [Hz|Hz].
  2:{ apply wp_ret. exists S. split_and!; [done|done|by apply rewritten_refl|done|done]. }
  apply (wp_new_zeroed g S); [done..|]. intros k s2 Hk Hf H2. assert (∀ t, length (S t) = SECTOR) as Hlen by (intros; by eapply on_length).
  destruct (new_slots g S I k Hl Hlen Hok Hk Hf) as [Hok1 E1]. pose proof (new_fresh g S I k Hl Hlen Hok Hk Hf) as Hfr.
  assert (bmap (new_block g S k) n l = 0) as Hz1 by (rewrite bmap_slot, (E1 i) by done; exact Hz).
  apply wp_bind. eapply wp_mono; [by apply (wp_block_set g (new_block g S k) I i (blk g k) n s2 l)| |done].
  intros n' s3 (_ & S3 & H3 & He). apply wp_ret. exists S3. cbn [fst snd]. split_and!; [done|done| | |].
  - eapply (rewritten_trans g I I); [done|by apply (new_content g S I i n k)|].
    pose proof (entry_set_content g _ I i n l _ n' S3 Hok1 Hi Hfr (new_zero g S k) Hz1 He) as [A B C D E F]. split; try done.
    intros p Hp. rewrite B by done. apply (rw_self _ _ _ _ _ _ _ _ (new_content g S I i n k Hl Hlen Hok Hi Hk Hf)). done.
  - rewrite (es_bmap _ _ _ _ _ _ _ _ _ He), decide_True by done. done.
  - pose proof (fresh_word g _ I Hl _ Hfr). lia.
Qed.

(** New bytes in one sector of a data block. *)
Lemma write_data g S I i n l off bs : layout_ok g → (∀ t, length (S t) = SECTOR) → blocks_ok g S I → I i = Some n → 0 <= l < MAP_MAX → bmap S n l ≠ 0 →
  0 <= off < UFS_BLOCK_SIZE → off mod BLKDEV_SECTOR_SIZE + Z.of_nat (length bs) <= BLKDEV_SECTOR_SIZE →
  let t := bmap S n l + off / BLKDEV_SECTOR_SIZE in
  rewritten g I i n S n (<[t := put_bytes (Z.to_nat (off mod BLKDEV_SECTOR_SIZE)) bs (S t)]> S)
    (λ p, if decide (l * UFS_BLOCK_SIZE + off <= p < l * UFS_BLOCK_SIZE + off + Z.of_nat (length bs)) then bs !!! Z.to_nat (p - (l * UFS_BLOCK_SIZE + off)) else byte_of S n p).
Proof.
  intros Hl Hlen Hok Hi Hll Hz Hoff Hbs t. set (S' := <[t := _]> S).
  assert (in_block (bmap S n l) t) as Ht by (unfold t, in_block; arith).
  pose proof (bo_alloc _ _ _ Hok i n (Data l) Hi Hll Hz) as Hal. cbn [slot_block] in Hal.
  assert (safe g S S' (λ b, b = bmap S n l)) as Hs.
  { apply data_write_safe; [done|]. intros u. unfold S'. destruct (decide (t = u)) as [<-|Hu]; [right; by exists (bmap S n l)|left; by rewrite fn_lookup_insert_ne]. }
  assert (∀ j m c u, I j = Some m → slot_ok c → slot_block S m c ≠ 0 → (j, c) ≠ (i, Data l) → in_block (slot_block S m c) u → S' u = S u) as Hoth.
  { intros j m c u Hj Hc Hcz Hne Hu. apply (sf_data _ _ _ _ Hs (slot_block S m c)); [by eapply bo_alloc| |done]. intros E. apply Hne.
    by destruct (bo_inj _ _ _ Hok j i m n c (Data l)) as [-> ->]. }
  destruct (blocks_ok_ext g S S' I Hok) as [Hok' Es]; [apply Hs| |].
  { intros j m c u Hj Hc Htc Hcz Hu. eapply (Hoth j m c); try done. intros [= -> ->]. done. }
  split; [| | |apply Hs|apply Hs|by destruct n].
  - eapply blocks_ok_same; [|exact Hok']. intros j. destruct (decide (i = j)) as [<-|]; [by rewrite fn_lookup_insert|by rewrite fn_lookup_insert_ne].
  - intros p Hp. unfold byte_of. rewrite bmap_slot, (Es i) by (done || by apply pos_slot). cbn [slot_block].
    destruct (decide (p / UFS_BLOCK_SIZE = l)) as [E|E].
    + rewrite E. unfold block_byte. rewrite !(decide_False (P := bmap S n l = 0)) by done. unfold S'.
      destruct (decide (t = bmap S n l + p mod UFS_BLOCK_SIZE / BLKDEV_SECTOR_SIZE)) as [Et|Et].
      * rewrite <-Et, fn_lookup_insert. rewrite !list_lookup_total_alt. case_decide as Hr.
        -- rewrite put_bytes_at by (rewrite ?Hlen; unfold t in Et; arith). do 2 f_equal. unfold t in Et. arith.
        -- rewrite put_bytes_other; [done|]. unfold t in Et. arith.
      * rewrite fn_lookup_insert_ne by done. rewrite decide_False; [done|]. unfold t in Et. arith.
    + rewrite decide_False by arith. apply block_byte_ext; [|arith]. intros Hbz u Hu. eapply (Hoth i n (Data (p / UFS_BLOCK_SIZE))); try done; [by apply pos_slot|].
      intros [= ?]. done.
  - intros j m p Hj Hm Hp. unfold byte_of. rewrite bmap_slot, (Es j) by (done || by apply pos_slot). cbn [slot_block].
    apply block_byte_ext; [|arith]. intros Hbz u Hu. eapply (Hoth j m (Data (p / UFS_BLOCK_SIZE))); try done; [by apply pos_slot|]. by intros [= ? _].
Qed.

(** The caller's buffer. *)
Definition user_range g (page off n : Z) : Prop := store_ok (u_core g) ∧ page_in_use (u_core g) page ∧ 0 <= off ∧ off + n <= PAGE_SIZE.
Definition user_at g (page x : Z) : Z := byte_at (u_core g) page x.

Lemma wp_write_chunk g S I i n s page po rem pos : layout_ok g → on g S s → blocks_ok g S I → I i = Some n →
  user_range g page po rem → 0 < rem → 0 <= pos → pos + rem < POS_MAX →
  ok (write_chunk n page po rem pos) (λ r s', 0 < r.2 <= rem ∧ ∃ S', on g S' s' ∧ rewritten g I i n S r.1 S'
    (λ p, if decide (pos <= p < pos + r.2) then user_at g page (po + (p - pos)) else byte_of S n p)) s.
Proof.
  intros Hl H Hok Hi (Hc & Hpg & Hpo & Hfit) Hrem Hpos Hmax. unfold write_chunk.
  assert (0 <= pos / UFS_BLOCK_SIZE) as Hl0 by arith. apply wp_bind. eapply wp_mono; [by apply (wp_writable_block g S I i n s)| |done].
  intros [n1 b] s1 (S1 & H1 & Hlmax & Hrw & Eb & Hbz). cbn [fst snd] in Eb, Hbz, Hrw.
  set (l := pos / UFS_BLOCK_SIZE) in *. set (off := pos mod UFS_BLOCK_SIZE). assert (0 <= off < UFS_BLOCK_SIZE ∧ pos = l * UFS_BLOCK_SIZE + off) as [Hoff Epos] by (unfold off, l; arith).
  set (o := off mod BLKDEV_SECTOR_SIZE). assert (0 <= o < BLKDEV_SECTOR_SIZE) as Ho by (apply Z.mod_pos_bound; done).
  set (av := if rem <? BLKDEV_SECTOR_SIZE - o then rem else BLKDEV_SECTOR_SIZE - o).
  assert (0 < av <= rem ∧ o + av <= BLKDEV_SECTOR_SIZE) as [Hav Hsec] by (unfold av; destruct (Z.ltb_spec rem (BLKDEV_SECTOR_SIZE - o)); lia).
  assert (∀ t, length (S1 t) = SECTOR) as Hlen1 by (intros; by eapply on_length).
  set (t := b + off / BLKDEV_SECTOR_SIZE). assert (0 <= t < SECTOR_LIMIT) as Ht.
  { pose proof (bo_alloc _ _ _ (rw_ok _ _ _ _ _ _ _ _ Hrw) i n1 (Data l) (fn_lookup_insert _ _ _)) as Hal. cbn [slot_block] in Hal. rewrite <-Eb in Hal.
    pose proof (allocated_pos g S1 b Hl (Hal ltac:(cbn; lia) Hbz)). unfold t. arith. }
  set (data := (λ k, byte_at (u_core g) page (po + Z.of_nat k)) <$> seq 0 (Z.to_nat av)).
  assert (∀ s2, on g S1 s2 → (o ≠ 0 ∨ av < BLKDEV_SECTOR_SIZE → ufs_buf s2 = S1 t) → ok (modify (λ s, set_buf (put_bytes (Z.to_nat o)
    (core_read page po (Z.to_nat av) (u_core s)) (ufs_buf s)) s);; ufs_write_sector t;; mret (n1, av)) (λ r s', 0 < r.2 <= rem ∧ ∃ S', on g S' s' ∧
    rewritten g I i n S r.1 S' (λ p, if decide (pos <= p < pos + r.2) then user_at g page (po + (p - pos)) else byte_of S n p)) s2) as Hfin.
  { intros s2 H2 Hbuf. apply wp_bind, wp_modify. rewrite (on_core _ _ _ H2), store_read by (done || lia). fold data.
    assert (length data = Z.to_nat av) as Ld by (unfold data; by rewrite length_fmap, length_seq).
    assert (put_bytes (Z.to_nat o) data (ufs_buf s2) = put_bytes (Z.to_nat o) data (S1 t)) as ->.
    { destruct (decide (o ≠ 0 ∨ av < BLKDEV_SECTOR_SIZE)) as [Hd|Hd]; [by rewrite Hbuf|]. assert (o = 0 ∧ av = BLKDEV_SECTOR_SIZE) as [-> Hf] by lia.
      change (Z.to_nat 0) with 0%nat. rewrite Hf in Ld. rewrite !put_bytes_all; [done|by rewrite Hlen1|by rewrite (on_buffer _ _ _ H2)]. }
    apply wp_bind. eapply wp_write_sector; [apply on_buf; [exact H2|by rewrite length_put_bytes]|done| |done].
    intros s3 H3 _. cbn [ufs_buf set_buf] in H3. apply wp_ret. cbn [fst snd]. split; [done|]. eexists. split; [exact H3|].
    assert (<[i := Some n1]> I i = Some n1) as Hi1 by apply fn_lookup_insert.
    pose proof (write_data g S1 (<[i := Some n1]> I) i n1 l off data Hl Hlen1 (rw_ok _ _ _ _ _ _ _ _ Hrw) Hi1 ltac:(lia) ltac:(by rewrite <-Eb) Hoff) as Hw.
    rewrite Ld, Z2Nat.id, <-Eb in Hw by lia. specialize (Hw Hsec). fold t in Hw. fold o in Hw.
    apply (rewritten_trans g I (<[i := Some n1]> I) i n S n1 S1 n1 _ (byte_of S n)); [intros j Hj; by rewrite fn_lookup_insert_ne|exact Hrw|].
    destruct Hw as [A B C D E F]. split; try done. intros p Hp. rewrite B by done. rewrite <-Epos. case_decide as Hd; [|by apply (rw_self _ _ _ _ _ _ _ _ Hrw)].
    unfold data, user_at. rewrite list_lookup_total_alt, seq_fmap_lookup, decide_True by lia. cbn. f_equal. lia. }
  apply wp_bind. destruct (negb (o =? 0) || (av <? BLKDEV_SECTOR_SIZE)) eqn:Eo.
  - eapply wp_read_sector; [exact H1|done| |done]. intros s2 H2 Hb2. by apply Hfin.
  - apply wp_ret. apply Hfin; [done|]. zb. lia.
Qed.

Lemma wp_write_loop fuel g S I i n s page po (total rem pos : Z) : layout_ok g → on g S s → blocks_ok g S I → I i = Some n →
  user_range g page po rem → 0 <= rem <= Z.of_nat fuel → 0 <= pos → pos + rem < POS_MAX →
  ok (write_loop fuel n page po total rem pos) (λ r s', match r.1 with
    | None => 0 < r.2 <= rem
    | Some n' => r.2 = 0 ∧ ∃ S', on g S' s' ∧ rewritten g I i n S n' S'
        (λ p, if decide (pos <= p < pos + rem) then user_at g page (po + (p - pos)) else byte_of S n p)
    end) s.
Proof.
  intros Hl. revert S I n s po rem pos. induction fuel as [|fuel IH]; intros S I n s po rem pos H Hok Hi Hu Hrem Hpos Hmax; cbn [write_loop].
  { apply wp_ret. cbn [fst snd]. split; [lia|]. exists S. split; [done|]. apply rewritten_refl; [done..|]. intros p Hp. by rewrite decide_False by lia. }
  destruct (Z.ltb_spec 0 rem) as [Hr|Hr].
  2:{ apply wp_ret. cbn [fst snd]. split; [lia|]. exists S. split; [done|]. apply rewritten_refl; [done..|]. intros p Hp. by rewrite decide_False by lia. }
  apply wp_bind, wp_attempt. eapply wp_mono; [by apply (wp_write_chunk g S I i n s)| |].
  - intros [n1 av] s1 ([Hav Hle] & S1 & H1 & Hrw). cbn [fst snd] in *. destruct Hu as (U1 & U2 & U3 & U4).
    rewrite (uN_small 16), (uN_small 32) by (unfold PAGE_SIZE, POS_MAX in *; lia).
    eapply wp_mono; [apply (IH S1 (<[i := Some n1]> I) n1 s1); [done|apply Hrw|apply fn_lookup_insert|by split_and!; try done; lia|lia..]| |done].
    intros [[n2|] r] s2; cbn [fst snd]; [|lia]. intros (-> & S2 & H2 & Hrw2). split; [done|]. exists S2. split; [done|].
    assert (∀ j, j ≠ i → <[i := Some n1]> I j = I j) as Hj by (intros; by rewrite fn_lookup_insert_ne).
    destruct (rewritten_trans _ _ _ _ _ _ _ _ _ _ _ _ Hj Hrw Hrw2) as [A B C D E F]. split; try done. intros p Hp. rewrite B by done.
    case_decide; [rewrite decide_True by lia; f_equal; lia|]. rewrite (rw_self _ _ _ _ _ _ _ _ Hrw) by done.
    repeat case_decide; try lia; done.
  - intros e s1 _. destruct (0 <? total - rem); [by apply wp_ret|by apply wp_throw].
Qed.
(** ** Reading *)

Lemma layout_ok_core g c : layout_ok g → layout_ok (set_ucore c g).
Proof. by intros []. Qed.
Lemma blocks_ok_core g c S I : blocks_ok g S I → blocks_ok (set_ucore c g) S I.
Proof. by intros []. Qed.

Lemma wp_read_chunk g S I i n s page po rem pos : layout_ok g → on g S s → blocks_ok g S I → I i = Some n →
  user_range g page po rem → 0 < rem → 0 <= pos → pos + rem < POS_MAX →
  wp (read_chunk n page po rem pos) (λ r s', match r with
    | Some av => 0 < av <= rem ∧ ∃ c, on (set_ucore c g) S s' ∧ copied (u_core g) c page po av (λ x, byte_of S n (pos + x))
    | None => on g S s' ∧ bmap S n (pos / UFS_BLOCK_SIZE) = 0
    end) (λ _ s', on g S s' ∧ read_failed g s') s.
Proof.
  intros Hl H Hok Hi (Hc & Hpg & Hpo & Hfit) Hrem Hpos Hmax. unfold read_chunk. set (l := pos / UFS_BLOCK_SIZE).
  assert (0 <= l < MAP_MAX) as Hl0 by exact (pos_slot pos ltac:(lia)). apply wp_bind.
  eapply wp_mono; [apply (wp_block_map g S I i n s); [done..|lia]| |intros e s' [? [?|?]]; [done|lia]]. intros b s1 (_ & Eb & H1).
  destruct (Z.eqb_spec b 0) as [Hz|Hz]; [apply wp_ret; split; [done|by rewrite <-Eb]|].
  set (off := pos mod UFS_BLOCK_SIZE). assert (0 <= off < UFS_BLOCK_SIZE ∧ pos = l * UFS_BLOCK_SIZE + off) as [Hoff Epos] by (unfold off, l; arith).
  set (o := off mod BLKDEV_SECTOR_SIZE). assert (0 <= o < BLKDEV_SECTOR_SIZE) as Ho by (apply Z.mod_pos_bound; done).
  assert (0 <= b + off / BLKDEV_SECTOR_SIZE < SECTOR_LIMIT) as Ht.
  { pose proof (bo_alloc _ _ _ Hok i n (Data l) Hi Hl0) as Hal. cbn [slot_block] in Hal. rewrite <-Eb in Hal. pose proof (allocated_pos g S b Hl (Hal Hz)). arith. }
  apply wp_bind. eapply wp_read_sector; [done|done| |done]. intros s2 H2 Hb2. apply wp_bind, wp_modify, wp_ret.
  set (av := if rem <? BLKDEV_SECTOR_SIZE - o then rem else BLKDEV_SECTOR_SIZE - o).
  assert (0 < av <= rem ∧ o + av <= BLKDEV_SECTOR_SIZE) as [Hav Hsec] by (unfold av; destruct (Z.ltb_spec rem (BLKDEV_SECTOR_SIZE - o)); lia).
  split; [done|]. set (bs := take (Z.to_nat av) (drop (Z.to_nat o) (ufs_buf s2))). exists (core_write page po bs (u_core g)).
  assert (Z.of_nat (length bs) = av) as Lb by (unfold bs; rewrite length_take, length_drop, (on_buffer _ _ _ H2); ufs_consts; lia).
  split.
  - rewrite (on_core _ _ _ H2). by destruct H2.
  - destruct (store_write (u_core g) page po bs Hc Hpg Hpo) as (W1 & W2 & W3); [lia|]. split; [done|done|]. intros q x Hq Hx. rewrite W3, Lb by done.
    case_decide as Hd; [|done]. unfold bs, byte_of. assert ((pos + (x - po)) / UFS_BLOCK_SIZE = l) as -> by arith.
    assert ((pos + (x - po)) mod UFS_BLOCK_SIZE = off + (x - po)) as -> by arith. rewrite <-Eb. unfold block_byte. rewrite decide_False by done.
    rewrite Hb2, !list_lookup_total_alt, lookup_take_lt, lookup_drop by arith. replace ((off + (x - po)) / BLKDEV_SECTOR_SIZE) with (off / BLKDEV_SECTOR_SIZE) by arith.
    do 2 f_equal. arith.
Qed.

Lemma wp_read_loop fuel g S I i n s page po (total rem pos : Z) : layout_ok g → on g S s → blocks_ok g S I → I i = Some n →
  user_range g page po rem → 0 <= rem <= Z.of_nat fuel → rem <= total → 0 <= pos → pos + rem < POS_MAX →
  wp (read_loop fuel n page po total rem pos) (λ r s', 0 <= r <= rem ∧
      (∃ c, on (set_ucore c g) S s' ∧ copied (u_core g) c page po (rem - r) (λ x, byte_of S n (pos + x))) ∧
      (r = 0 ∨ bmap S n ((pos + (rem - r)) / UFS_BLOCK_SIZE) = 0 ∨ read_failed g s'))
    (λ _ s', on g S s' ∧ read_failed g s' ∧ rem = total) s.
Proof.
  intros Hl. revert g Hl s po rem pos. induction fuel as [|fuel IH]; intros g Hl s po rem pos H Hok Hi Hu Hrem Htot Hpos Hmax; cbn [read_loop].
  { apply wp_ret. split; [lia|]. split; [exists (u_core g)|left; lia]. split; [by destruct g, H|]. apply copied_none; [apply Hu|lia]. }
  assert (∀ r s1, on g S s1 → r = rem → 0 <= r <= rem ∧
      (∃ c, on (set_ucore c g) S s1 ∧ copied (u_core g) c page po (rem - r) (λ x, byte_of S n (pos + x)))) as Hstop.
  { intros r s1 H1 ->. split; [lia|]. exists (u_core g). split; [by destruct g, H1|]. apply copied_none; [apply Hu|lia]. }
  destruct (Z.ltb_spec 0 rem) as [Hr|Hr].
  2:{ apply wp_ret. split; [lia|]. split; [by apply Hstop|left; lia]. }
  apply wp_bind, wp_attempt. eapply wp_mono; [by apply (wp_read_chunk g S I i n s)| |].
  - intros [av|] s1.
    2:{ intros [H1 Hz]. apply wp_ret. split; [lia|]. split; [by apply Hstop|right; left]. by rewrite Z.sub_diag, Z.add_0_r. }
    intros ([Hav Hle] & c & H1 & Hcp). destruct Hu as (U1 & U2 & U3 & U4). rewrite (uN_small 16), (uN_small 32) by (unfold PAGE_SIZE, POS_MAX in *; lia).
    eapply wp_mono; [apply (IH (set_ucore c g)); [by apply layout_ok_core|done|by apply blocks_ok_core|done| |lia|lia|lia|lia]| |].
    { split_and!; [apply Hcp|by apply Hcp|lia|lia]. }
    + intros r s2 (Hr2 & (c2 & H2 & Hcp2) & Hend). split; [lia|]. split.
      * exists c2. split; [by destruct g|]. replace (rem - r) with (av + (rem - av - r)) by lia.
        eapply copied_more; [exact Hcp|exact Hcp2|lia|lia|done|]. intros x Hx. cbn beta. f_equal. lia.
      * destruct Hend as [?|[Hz|?]]; [by left|right; left|by right; right]. by replace (pos + (rem - r)) with (pos + av + (rem - av - r)) by lia.
    + intros e s2 (_ & _ & ?). lia.
  - intros e s1 [H1 Hf]. destruct (Z.ltb_spec 0 (total - rem)).
    + apply wp_ret. split; [lia|]. split; [by apply Hstop|by right; right].
    + apply wp_throw. split_and!; [done|done|lia].
Qed.
End Files.
