(* ===== verification/UfsRun.v ===== *)
(** * UfsRun: what UFS promises for files (src/kernel/vfs/ufs.c)

    The operations on vnodes over a consistent file system: what [ufs_read] and
    [ufs_write] do to the contents of all files, and that a write keeps the file
    system consistent. *)

From Stdlib Require Import FunctionalExtensionality.
From stdpp Require Import functions.
From S2P Require Import Prelude Bits Config ErrState PagePool Path Vfs Driver VfsFacts ModCore Tmpfs BlkDev BlkDevFacts SectorDev Ufs UfsBlocks UfsInode UfsTree UfsOps UfsFiles.

Section Run.
Context {cfg : PageConfig} {ps : PageStore} {psok : PageStoreOk} {sd : SectorDev} {sdok : SectorDevOk} {bo : ByteOrder}.
Implicit Types (g s u : ufs_t) (S : sectors) (n m : ufs_inode_t).
#[local] Abbreviation vfs := (vfs_t ufs_t).
#[local] Abbreviation V := (prog vfs).
#[local] Abbreviation ok m Q s := (wp m Q (λ _ _, True) s).

(** ** A consistent file system *)

Definition secs u : sectors := sector (u_disk u).

(** The inodes in use that have blocks; a short symbolic link has its text in
    the place of the pointers. *)
Definition short_link n : bool := S_ISLNK (i_mode n) && (i_size n <=? UFS_FAST_SYMLINK_MAX).
Definition tree_of g S (i : Z) : option ufs_inode_t :=
  if decide (0 <= i < inode_count g) then
    if inode_used g S i && negb (short_link (inode_at g S i)) then Some (inode_at g S i) else None
  else None.
Definition tree u : Z → option ufs_inode_t := tree_of u (secs u).

Record ufs_ok u : Prop := {
  uo_disk : disk_ok (u_disk u);
  uo_buffer : length (ufs_buf u) = SECTOR;
  uo_layout : layout_ok u;
  uo_tree : blocks_ok u (secs u) (tree u);
  uo_core : store_ok (u_core u)
}.

(** Byte [p] of inode [i]. *)
Definition content u (i p : Z) : Z := byte_of (secs u) (inode_at u (secs u) i) p.

Lemma ok_on u : ufs_ok u → on u (secs u) u.
Proof. intros []. by split. Qed.

Lemma tree_Some g S i n : tree_of g S i = Some n → 0 <= i < inode_count g ∧ inode_used g S i = true ∧ short_link n = false ∧ n = inode_at g S i.
Proof.
  unfold tree_of. case_decide as Hi; [|done]. destruct (inode_used g S i); [|done]. destruct (short_link (inode_at g S i)) eqn:E; [done|]. by intros [= <-].
Qed.

(** The same file system under another state of the driver. *)
Lemma on_tree g S s : on g S s → secs s = S ∧ tree s = tree_of g S ∧ ∀ i, inode_at s (secs s) i = inode_at g S i.
Proof.
  intros [A B C D E F G H J K L]. assert (secs s = S) as Es by (apply functional_extensionality; exact B).
  assert (∀ i, inode_at s (secs s) i = inode_at g S i) as Ei by (intros; unfold inode_at; by rewrite Es, D).
  split; [done|]. split; [|done]. apply functional_extensionality. intros i. unfold tree, tree_of, inode_used. by rewrite Ei, Es, G, J.
Qed.

Lemma on_ufs_ok g S s : on g S s → layout_ok g → store_ok (u_core g) → blocks_ok g S (tree_of g S) → ufs_ok s.
Proof.
  intros H Hl Hc Hb. destruct (on_tree g S s H) as (Es & Et & _). destruct H as [A B C D E F G H J K L]. split; [done|done| | |by rewrite L].
  - destruct g, s; cbn in *; subst. destruct Hl. by split.
  - rewrite Es, Et. destruct g, s; cbn in *; subst. destruct Hb as [B1 B2 B3]. split; [exact B1|exact B2|exact B3].
Qed.

(** ** Frames of the vfs state *)

Lemma wp_with_scratch {A} (m : V A) Q E (st : vfs) : (0 < scratch_free st)%nat →
  wp m (λ x (st' : vfs), Q x (vfs_scratch_free true st')) (λ e (st' : vfs), E e (vfs_scratch_free true st')) (set_scratch_free (pred (scratch_free st)) st) → wp (with_scratch m) Q E st.
Proof.
  intros Hs Hm. unfold with_scratch. apply wp_bind. unfold wp at 1, scratch_alloc, vfs_scratch_alloc. destruct (scratch_free st) as [|k]; [lia|].
  cbn [negb]. apply wp_bind, wp_attempt. eapply wp_mono; [exact Hm|intros x st' H|intros e st' H]; apply wp_bind, wp_modify; [by apply wp_ret|by apply wp_throw].
Qed.

(** ** Writing an inode back *)

(** Other fields than the pointers. *)
Definition same_ptrs n n' : Prop := i_direct n' = i_direct n ∧ i_ib n' = i_ib n.

Lemma same_ptrs_slot S n n' a : same_ptrs n n' → slot_block S n' a = slot_block S n a.
Proof. intros [E1 E2]. unfold slot_block, bmap, direct, ib. by rewrite E1, E2. Qed.
Lemma same_ptrs_byte S n n' p : same_ptrs n n' → byte_of S n' p = byte_of S n p.
Proof. intros H. unfold byte_of. rewrite !bmap_slot. by rewrite (same_ptrs_slot S n n'). Qed.

Lemma blocks_ok_ptrs g S I i n n' : blocks_ok g S (<[i := Some n]> I) → same_ptrs n n' → inode_wf n' → blocks_ok g S (<[i := Some n']> I).
Proof.
  intros [A B C] Hp Hw. assert (∀ j m, <[i := Some n']> I j = Some m → ∃ m0, <[i := Some n]> I j = Some m0 ∧ ∀ a, slot_block S m a = slot_block S m0 a) as Hm.
  { intros j m. destruct (decide (i = j)) as [<-|Hj].
    - rewrite !fn_lookup_insert. intros [= <-]. exists n. split; [done|]. intros a. by apply same_ptrs_slot.
    - rewrite !fn_lookup_insert_ne by done. intros Hj2. by exists m. }
  split.
  - intros j m. destruct (decide (i = j)) as [<-|Hj]; [rewrite fn_lookup_insert; by intros [= <-]|].
    intros H. apply (A j). by rewrite fn_lookup_insert_ne in H |- *.
  - intros j m a (m0 & Hj & E)%Hm Ha. rewrite E. by apply (B j).
  - intros j k m1 m2 a b (m3 & Hj & E1)%Hm (m4 & Hk & E2)%Hm Ha Hb. rewrite E1, E2. by apply C.
Qed.

(** Sectors from the inodes on stay, and the bitmaps. *)
Definition same_group g S S' : Prop := ∀ o, 36 <= o < cg_freeoff g + nblocks g → cg_byte S' o = cg_byte S o.

Lemma same_group_free g S S' k : layout_ok g → same_group g S S' → 0 <= k < nblocks g → is_free g S' k ↔ is_free g S k.
Proof. intros Hl H Hk. unfold is_free. rewrite H; [done|]. destruct Hl. arith. Qed.
Lemma same_group_used g S S' i : layout_ok g → same_group g S S' → 0 <= i < inode_count g → inode_used g S' i = inode_used g S i.
Proof. intros Hl H Hi. unfold inode_used. rewrite H; [done|]. pose proof (iused_byte g i Hl Hi). destruct Hl. arith. Qed.

Lemma same_group_blocks g S S' I : layout_ok g → (∀ t, data_frag g <= t → S' t = S t) → same_group g S S' → blocks_ok g S I →
  blocks_ok g S' I ∧ ∀ i n a, I i = Some n → slot_ok a → slot_block S' n a = slot_block S n a.
Proof.
  intros Hl Hd Hg Hok. apply blocks_ok_ext; [done| |].
  - intros b (k & Hk & -> & Hf). exists k. split; [done|]. split; [done|]. by rewrite same_group_free.
  - intros i n a t Hi Ha _ Hz Ht. apply Hd. pose proof (allocated_pos g S _ Hl (bo_alloc _ _ _ Hok i n a Hi Ha Hz)). unfold in_block in Ht. lia.
Qed.

Lemma same_data_byte g S S' I i n p : layout_ok g → blocks_ok g S I → I i = Some n → (∀ t, data_frag g <= t → S' t = S t) → 0 <= p < POS_MAX →
  byte_of S' n p = byte_of S n p.
Proof.
  intros Hl Hok Hi Hd Hp. assert (∀ a t, slot_ok a → slot_block S n a ≠ 0 → in_block (slot_block S n a) t → S' t = S t) as Hs.
  { intros a t Ha Hz Ht. apply Hd. pose proof (allocated_pos g S _ Hl (bo_alloc _ _ _ Hok i n a Hi Ha Hz)). unfold in_block in Ht. lia. }
  unfold byte_of. rewrite !bmap_slot. rewrite (slot_ext S S' n (Data (p / UFS_BLOCK_SIZE))).
  - apply block_byte_ext; [|arith]. intros Hz t Ht. by apply (Hs (Data (p / UFS_BLOCK_SIZE))); [apply pos_slot|..].
  - intros c t Hc _. by apply Hs.
  - by apply pos_slot.
Qed.
(** ** The counters on disk *)

(** Sector [t] is not a bitmap's, or has another head only. *)
Lemma head_same_group g S t b : layout_ok g → 0 <= t → (∀ t, length (S t) = SECTOR) → t = UFS_SB_SECTOR ∨ t = UFS_CG_SECTOR ∧ (∀ k, (36 <= k)%nat → b !!! k = S t !!! k) →
  same_group g S (<[t := b]> S) ∧ ∀ x, itable_sector g <= x → (<[t := b]> S) x = S x.
Proof.
  intros Hl Ht Hlen Hb. assert (UFS_CG_SECTOR < itable_sector g) as Hi by (destruct Hl; unfold nblocks in *; arith). split.
  - intros o Ho. unfold cg_byte. destruct (decide (t = UFS_CG_SECTOR + o / BLKDEV_SECTOR_SIZE)) as [E|E]; [|by rewrite fn_lookup_insert_ne].
    rewrite <-E, fn_lookup_insert. destruct Hb as [->|[-> Hb]]; [unfold UFS_SB_SECTOR in E; arith|]. apply Hb. arith.
  - intros x Hx. rewrite fn_lookup_insert_ne; [done|]. unfold UFS_SB_SECTOR in Hb. ufs_consts. lia.
Qed.

Lemma length_put_word w off v b : length (put_word w off v b) = length b.
Proof. apply length_put_bytes. Qed.
Lemma put_word_past w off v b k : (off + w <= k)%nat → put_word w off v b !!! k = b !!! k.
Proof. intros H. rewrite !list_lookup_total_alt. unfold put_word. rewrite put_bytes_other; [done|]. rewrite length_bytes_of. lia. Qed.

Lemma wp_sync_super g S s : layout_ok g → on g S s →
  let Q S' s' := (∀ t, itable_sector g <= t → S' t = S t) ∧ (same_group g S S' ∨ write_failed g s') in
  wp ufs_sync_super (λ _ s', ∃ S', on g S' s' ∧ Q S' s') (λ _ s', ∃ S', on g S' s' ∧ Q S' s') s.
Proof.
  intros Hl H Q. assert (UFS_CG_SECTOR < itable_sector g) as Hi by (destruct Hl; unfold nblocks in *; arith).
  assert (∀ t, length (S t) = SECTOR) as Hlen by (intros; by eapply on_length).
  assert (∀ t, t = UFS_SB_SECTOR ∨ t = UFS_CG_SECTOR → 0 <= t < SECTOR_LIMIT) as Hsec.
  { destruct Hl; unfold nblocks in *. unfold UFS_SB_SECTOR. intros t [->| ->]; arith. }
  unfold ufs_sync_super. apply wp_bind, wp_gets. cbn [id]. apply wp_bind. eapply wp_read_sector; [done|by apply Hsec; left| |].
  2:{ intros e s1 H1 _. exists S. split; [done|]. split; [done|]. by left. }
  intros s1 H1 _. apply wp_bind, wp_modify, wp_bind. eapply wp_write_sector; [by apply on_buf; [|rewrite !length_put_word; apply H1]|by apply Hsec; left| |].
  2:{ intros e s2 b H2 Hf. eexists. split; [exact H2|]. split; [|by right]. apply head_same_group; [done..| |by left]. done. }
  intros s2 H2 _. cbn [ufs_buf set_buf] in H2. set (S1 := <[UFS_SB_SECTOR := _]> S) in H2.
  assert (same_group g S S1 ∧ ∀ t, itable_sector g <= t → S1 t = S t) as [G1 T1] by (apply head_same_group; [done..| |by left]; done).
  apply wp_bind. eapply wp_read_sector; [done|by apply Hsec; right| |].
  2:{ intros e s3 H3 _. exists S1. split; [done|]. split; [done|]. by left. }
  intros s3 H3 Hb3. apply wp_bind, wp_modify. eapply wp_write_sector; [by apply on_buf; [|rewrite !length_put_word; apply H3]|by apply Hsec; right| |].
  - intros s4 H4 _. cbn [ufs_buf set_buf] in H4. set (b := put_word _ _ _ _) in H4. exists (<[UFS_CG_SECTOR := b]> S1). split; [done|].
    destruct (head_same_group g S1 UFS_CG_SECTOR b) as [G2 T2]; [done|done|intros; by eapply on_length| |].
    { right. split; [done|]. intros k Hk. unfold b. rewrite !put_word_past by (unfold UFS_CG_CS_NBFREE_OFF, UFS_CG_CS_NIFREE_OFF; lia). by rewrite Hb3. }
    split; [intros t Ht; by rewrite T2, T1|]. left. intros o Ho. by rewrite G2, G1.
  - intros e s4 b H4 Hf. exists (<[UFS_CG_SECTOR := b]> S1). split; [done|]. split; [|by right].
    intros t Ht. rewrite fn_lookup_insert_ne by lia. by apply T1.
Qed.
(** ** A rewritten file with its inode written back *)

Lemma inode_wf_meta n v now : inode_wf n → inode_wf (touch_times now (set_i_size v n)) ∧ inode_wf (touch_times now n).
Proof.
  pose proof (uN_range 64 v ltac:(lia)). pose proof (uN_range 32 now ltac:(lia)). intros [A B C D E].
  inversion B; subst. inversion C as [|? ? C1 C2]; subst. inversion C2 as [|? ? C3 C4]; subst. inversion C4 as [|? ? C5 C6]; subst.
  inversion C6 as [|? ? C7 C8]; subst. inversion C8 as [|? ? C9 C10]; subst. inversion C10; subst.
  split; split; cbn; try done; repeat (constructor; try done).
Qed.

Lemma inode_wf_nlink n v : inode_wf n → inode_wf (set_i_nlink v n).
Proof.
  pose proof (uN_range 16 v ltac:(lia)). intros [A B C D E]. inversion A as [|? ? A1 A2]; subst. inversion A2; subst.
  split; try done. constructor; [exact A1|]. by constructor.
Qed.

Lemma put_inode_ok g S I i n n' : layout_ok g → (∀ t, length (S t) = SECTOR) → 0 <= i < inode_count g → inode_wf n' → same_ptrs n n' →
  blocks_ok g S (<[i := Some n]> I) → let S' := put_inode g S i n' in
  blocks_ok g S' (<[i := Some n']> I) ∧ same_group g S S' ∧ ∀ t, data_frag g <= t → S' t = S t.
Proof.
  intros Hl Hlen Hi Hw Hp Hok S'. pose proof (inode_sector_bounds g i Hl Hi) as Hb. assert (0 <= i / UFS_INODES_PER_SECTOR) as Hi4 by arith.
  assert (∀ t, data_frag g <= t → S' t = S t) as Hd by (intros t Ht; apply put_inode_other; lia).
  assert (same_group g S S') as Hg.
  { intros o Ho. unfold cg_byte, S'. rewrite put_inode_other; [done|]. destruct Hl; unfold nblocks in *. arith. }
  split; [|done]. apply (blocks_ok_ptrs _ _ _ _ n); [|done|done]. by apply (same_group_blocks g S).
Qed.

(** Inode [i] is [n'] with the bytes [f] now, and all others are as they were;
    the bitmaps are in order too unless [lost]. *)
Record written g S i S' n' (f : Z → Z) (lost : Prop) : Prop := {
  wr_ok : blocks_ok g S' (tree_of g S') ∨ lost;
  wr_inode : inode_at g S' i = n';
  wr_bytes p : 0 <= p < POS_MAX → byte_of S' n' p = f p;
  wr_other j m : j ≠ i → tree_of g S j = Some m → inode_at g S' j = m ∧ ∀ p, 0 <= p < POS_MAX → byte_of S' m p = byte_of S m p
}.

Section Back.
Context (g : ufs_t) (S S1 S2 : sectors) (i : Z) (n n1 n2 : ufs_inode_t) (f : Z → Z).
Context (Hl : layout_ok g) (Hlen : ∀ t, length (S1 t) = SECTOR) (Hi : tree_of g S i = Some n) (Hrw : rewritten g (tree_of g S) i n S n1 S1 f).
Context (Hw : inode_wf n2) (Hp : same_ptrs n1 n2) (Hsl : short_link n2 = false).
Context (Ht : ∀ t, itable_sector g <= t → S2 t = put_inode g S1 i n2 t).

Lemma inode_back j : 0 <= j < inode_count g → inode_at g S2 j = if decide (j = i) then n2 else inode_at g S j.
Proof.
  intros Hj. destruct (tree_Some g S i n Hi) as (Hic & _).
  assert (inode_at g S2 j = inode_at g (put_inode g S1 i n2) j) as -> by (unfold inode_at; rewrite Ht; [done|]; arith).
  rewrite inode_at_put by done. case_decide; [done|]. unfold inode_at. rewrite (rw_itable _ _ _ _ _ _ _ _ Hrw); [done|].
  pose proof (inode_sector_bounds g j Hl Hj). arith.
Qed.

Lemma tree_back : same_group g (put_inode g S1 i n2) S2 → blocks_ok g S2 (tree_of g S2).
Proof.
  intros Hg. destruct (tree_Some g S i n Hi) as (Hic & Hiu & _ & _).
  destruct (put_inode_ok g S1 (tree_of g S) i n1 n2 Hl Hlen Hic Hw Hp (rw_ok _ _ _ _ _ _ _ _ Hrw)) as (Hok & Hg1 & Hd1).
  destruct (same_group_blocks g _ S2 _ Hl ltac:(intros t Hdt; apply Ht; destruct Hl; arith) Hg Hok) as [Hok2 _].
  eapply blocks_ok_same; [|exact Hok2]. intros j. unfold tree_of at 1. case_decide as Hj.
  - rewrite inode_back by done. assert (inode_used g S2 j = inode_used g S j) as ->.
    { rewrite (same_group_used g (put_inode g S1 i n2)), (same_group_used g S1) by done. by apply (rw_used _ _ _ _ _ _ _ _ Hrw). }
    destruct (decide (i = j)) as [<-|Hne].
    + by rewrite fn_lookup_insert, !decide_True, Hiu, Hsl by done.
    + rewrite fn_lookup_insert_ne by done. rewrite !decide_False by done. unfold tree_of. by rewrite decide_True.
  - rewrite fn_lookup_insert_ne by (intros <-; done). unfold tree_of. by rewrite decide_False.
Qed.

Lemma byte_back j m p : (<[i := Some n1]> (tree_of g S)) j = Some m → 0 <= p < POS_MAX → byte_of S2 m p = byte_of S1 m p.
Proof.
  intros Hj Hx. apply (same_data_byte g S1 S2 (<[i := Some n1]> (tree_of g S)) j); [done|apply Hrw|done| |done].
  intros t Hd. destruct (tree_Some g S i n Hi) as (Hic & _). pose proof (inode_sector_bounds g i Hl Hic).
  rewrite Ht by (destruct Hl; arith). apply put_inode_other. lia.
Qed.

Lemma written_back lost : same_group g (put_inode g S1 i n2) S2 ∨ lost → written g S i S2 n2 f lost.
Proof.
  intros Hg. destruct (tree_Some g S i n Hi) as (Hic & _). split.
  - destruct Hg as [Hg|?]; [left; by apply tree_back|by right].
  - by rewrite inode_back, decide_True.
  - intros p Hx. rewrite (same_ptrs_byte S2 n1 n2) by done. rewrite (byte_back i) by (done || apply fn_lookup_insert). by apply (rw_self _ _ _ _ _ _ _ _ Hrw).
  - intros j m Hj Hm. destruct (tree_Some g S j m Hm) as (Hjc & _ & _ & ->). split; [by rewrite inode_back, decide_False|].
    intros p Hx. rewrite (byte_back j) by (done || by rewrite fn_lookup_insert_ne). by apply (rw_other _ _ _ _ _ _ _ _ Hrw j).
Qed.
End Back.

(** ** Writing *)

Lemma short_link_grown n n' : short_link n = false → i_mode n' = i_mode n → i_size n <= i_size n' → short_link n' = false.
Proof. unfold short_link. intros H -> Hs. destruct (S_ISLNK (i_mode n)); [|done]. cbn in *. zb. lia. Qed.

Lemma wp_ufs_write vn page po len off (st : vfs) g S n : let i := vn_ino (vnode st vn) in
  layout_ok g → on g S (fs_world st) → blocks_ok g S (tree_of g S) → tree_of g S i = Some n → vn_type (vnode st vn) ≠ VNODE_DIR →
  user_range g page po len → 0 <= len → 0 <= off → off + len < POS_MAX → (0 < scratch_free st)%nat →
  wp (ufs_write vn page po len off) (λ r st', 0 <= r <= len ∧ (r = len → ∃ S', on g S' (fs_world st') ∧
    ∃ n', i_size n' = Z.max (i_size n) (off + len) ∧ i_mode n' = i_mode n ∧
    written g S i S' n' (λ p, if decide (off <= p < off + len) then user_at g page (po + (p - off)) else byte_of S n p) (write_failed g (fs_world st')))) (λ _ _, True) st.
Proof.
  intros i Hl H Hok Hi Hty Hu Hlen Hoff Hmax Hsf. unfold ufs_write. apply wp_bind. unfold vnode_of. apply wp_gets. rewrite bool_decide_false by done.
  apply wp_with_scratch; [done|]. destruct (tree_Some g S i n Hi) as (Hic & Hiu & Hsl & En). destruct Hu as (U1 & U2 & U3 & U4).
  assert (PAGE_SIZE = 4096) as Hps by done. apply wp_bind, wp_lift. eapply wp_mono; [by apply (wp_read_inode g S)| |done].
  intros ? s1 [-> H1]. fold i. rewrite <-En. apply wp_bind, wp_lift.
  eapply wp_mono; [apply (wp_write_loop (Z.to_nat len) g S (tree_of g S) i n s1 page po len len off); try done; lia| |done].
  intros [[n1|] rem] s2; cbn [fst snd].
  2:{ intros Hrem. apply wp_ret. rewrite s32_small by lia. split; lia. }
  intros (-> & S1 & H2 & Hrw). rewrite Z.sub_0_r, (uN_small 32) by (unfold POS_MAX in Hmax; lia).
  destruct (same_meta_size n n1 (rw_meta _ _ _ _ _ _ _ _ Hrw)) as [Es Em]. rewrite Es.
  assert (inode_wf n1) as Hw1 by (apply (bo_wf _ _ _ (rw_ok _ _ _ _ _ _ _ _ Hrw) i), fn_lookup_insert).
  set (n2 := if i_size n <? off + len then set_i_size (off + len) n1 else n1).
  assert (∀ now, ∃ n', n' = touch_times now n2 ∧ inode_wf n' ∧ same_ptrs n1 n' ∧ i_mode n' = i_mode n ∧ i_size n' = Z.max (i_size n) (off + len)) as Hn2.
  { intros now. eexists. split; [done|]. destruct (inode_wf_meta n1 (off + len) now Hw1). unfold n2, POS_MAX in *. destruct (Z.ltb_spec (i_size n) (off + len)).
    - split_and!; try done. cbn. rewrite uN_small by lia. lia.
    - split_and!; try done. cbn. lia. }
  assert (∀ st1 : vfs, on g S1 (fs_world st1) → wp (now ← time_now_sec; lift (ufs_write_inode i (touch_times now n2));; lift (ignore ufs_sync_super);; mret (s32 len))
    (λ r st', 0 <= r <= len ∧ (r = len → ∃ S', on g S' (fs_world st') ∧ ∃ n', i_size n' = Z.max (i_size n) (off + len) ∧ i_mode n' = i_mode n ∧
      written g S i S' n' (λ p, if decide (off <= p < off + len) then user_at g page (po + (p - off)) else byte_of S n p) (write_failed g (fs_world st')))) (λ _ _, True) st1) as Hfin.
  { intros st1 H3. apply wp_bind, wp_gets, wp_bind, wp_lift. destruct (Hn2 (core_time (u_core (fs_world st1)))) as (n' & En' & Hw' & Hp' & Hm' & Hs'); rewrite <-En'.
    eapply wp_mono; [by apply (wp_write_inode g S1)| |done]. intros ? s4 H4. apply wp_bind, wp_lift, wp_ignore.
    eapply wp_mono; [by apply (wp_sync_super g (put_inode g S1 i n'))| |].
    all: intros ? s5 (S2 & H5 & Ht5 & Hg5); apply wp_ret; rewrite s32_small by lia; split; [lia|]; intros _; exists S2; split; [done|]; exists n'; split; [done|].
    all: split; [done|]; apply (written_back g S S1 S2 i n n1); try done; [intros; by eapply on_length|].
    all: apply (short_link_grown n); [done..|]; lia. }
  unfold n2 in Hfin. apply wp_bind. destruct (i_size n <? off + len); [apply wp_modify|apply wp_ret]; by apply Hfin.
Qed.

(** ** Reading *)

Lemma wp_ufs_read vn page po len off (st : vfs) g S n : let v := vnode st vn in let avail := Z.max 0 (Z.min len (vn_size v - off)) in
  layout_ok g → on g S (fs_world st) → blocks_ok g S (tree_of g S) → tree_of g S (vn_ino v) = Some n → vn_type v ≠ VNODE_DIR → vn_size v < POS_MAX →
  user_range g page po len → 0 <= len → 0 <= off → off + len < POS_MAX → (0 < scratch_free st)%nat →
  wp (ufs_read vn page po len off) (λ r st', 0 <= r <= avail ∧
      (∃ c, on (set_ucore c g) S (fs_world st') ∧ copied (u_core g) c page po r (λ x, byte_of S n (off + x))) ∧
      (r = avail ∨ bmap S n ((off + r) / UFS_BLOCK_SIZE) = 0 ∨ read_failed g (fs_world st')))
    (λ _ st', on g S (fs_world st') ∧ read_failed g (fs_world st')) st.
Proof.
  intros v avail Hl H Hok Hi Hty Hsz Hu Hlen Hoff Hmax Hsf. unfold ufs_read. apply wp_bind. unfold vnode_of. apply wp_gets. fold v. rewrite bool_decide_false by done.
  destruct (Z.leb_spec (vn_size v) off) as [Hend|Hend].
  { apply wp_ret. assert (avail = 0) as -> by lia. split; [lia|]. split; [|by left]. exists (u_core g). split; [by destruct g, H|]. apply copied_none; [apply Hu|lia]. }
  destruct (tree_Some g S _ n Hi) as (Hic & Hiu & Hsl & En). destruct Hu as (U1 & U2 & U3 & U4). assert (PAGE_SIZE = 4096) as Hps by done. unfold POS_MAX in *.
  rewrite (uN_small 32) by lia. assert ((if vn_size v <? off + len then u32 (vn_size v - off) else len) = avail) as ->.
  { destruct (Z.ltb_spec (vn_size v) (off + len)); [rewrite uN_small|]; lia. }
  apply wp_with_scratch; [done|]. apply wp_bind, wp_lift. eapply wp_mono; [by apply (wp_read_inode g S)| |]; [|by intros e s1 H1].
  intros ? s1 [-> H1]. rewrite <-En. apply wp_bind, wp_lift.
  eapply wp_mono; [apply (wp_read_loop (Z.to_nat avail) g S (tree_of g S) (vn_ino v) n s1 page po avail avail off); try done; try lia|..].
  - by split_and!; try done; lia.
  - unfold POS_MAX. lia.
  - intros r s2 (Hr & Hc & Hend'). apply wp_ret. rewrite s32_small by lia. split; [lia|]. split; [done|]. destruct Hend' as [->|?]; [left; lia|by right].
  - intros e s2 (H2 & Hf & _). done.
Qed.
(** ** The promises *)

(** The file system has the inode in use, and the caller's [len] bytes at [po]
    of its page. *)
Record file_call (u : ufs_t) (st : vfs) (vn : nat) (n : ufs_inode_t) (page po len off : Z) : Prop := {
  fc_ok : ufs_ok u;
  fc_inode : tree u (vn_ino (vnode st vn)) = Some n;
  fc_file : vn_type (vnode st vn) ≠ VNODE_DIR;
  fc_size : vn_size (vnode st vn) < POS_MAX;
  fc_page : page_in_use (u_core u) page;
  fc_range : 0 <= po ∧ po + len <= PAGE_SIZE;
  fc_pos : 0 <= len ∧ 0 <= off ∧ off + len < POS_MAX;
  fc_scratch : (0 < scratch_free st)%nat
}.

(** Position [p] is in no block. *)
Definition hole u (i p : Z) : Prop := bmap (secs u) (inode_at u (secs u) i) (p / UFS_BLOCK_SIZE) = 0.

(** C23. [ufs_write] that has written all its bytes has put them at their
    positions and nowhere else: every other position of the file, and every byte
    and the inode of every other file, is as before; the file ends at its old end
    or that of the write, whichever is later.  The file system stays consistent
    (every block in at most one place of one inode, and allocated), unless the
    device refused a write request of this very call ([write_failed u u']: it has
    refused more writes after the call than before). *)
Theorem ufs_write_correct vn page po len off (st : vfs) n r st' : let u := fs_world st in let u' := fs_world st' in let i := vn_ino (vnode st vn) in
  file_call u st vn n page po len off → ufs_write vn page po len off st = (inr r, st') →
  0 <= r <= len ∧ (r = len →
    (∀ p, 0 <= p < POS_MAX → content u' i p = if decide (off <= p < off + len) then user_at u page (po + (p - off)) else content u i p) ∧
    i_size (inode_at u' (secs u') i) = Z.max (i_size n) (off + len) ∧
    (∀ j m, j ≠ i → tree u j = Some m → inode_at u' (secs u') j = m ∧ ∀ p, 0 <= p < POS_MAX → content u' j p = content u j p) ∧
    (ufs_ok u' ∨ write_failed u u')).
Proof.
  intros u u' i [Hok Hi Hty Hsz Hpg [R1 R2] [P1 [P2 P3]] Hs] Hrun. pose proof (ok_on u Hok) as H. destruct Hok as [D1 D2 D3 D4 D5].
  destruct (tree_Some u (secs u) i n Hi) as (_ & _ & _ & En).
  pose proof (wp_run _ _ _ _ _ _ (wp_ufs_write vn page po len off st u (secs u) n D3 H D4 Hi Hty (conj D5 (conj Hpg (conj R1 R2))) P1 P2 P3 Hs) Hrun) as [Hr Hall].
  split; [done|]. intros E. destruct (Hall E) as (S' & H' & n' & Es & Em & [W1 W2 W3 W4]).
  destruct (on_tree u S' u' H') as (Es' & Et' & Ei'). unfold content. rewrite Es'. rewrite Es' in Ei'. fold i in W2. rewrite !Ei', W2. split_and!.
  - intros p Hp. rewrite W3 by done. by rewrite <-En.
  - done.
  - intros j m Hj Hm. rewrite !Ei'. destruct (W4 j m Hj Hm) as [-> Hb]. destruct (tree_Some u (secs u) j m Hm) as (_ & _ & _ & <-). done.
  - destruct W1 as [W1|?]; [left|by right]. by apply (on_ufs_ok u S').
Qed.

(** C24. [ufs_read] never changes the disk.  It copies the file's bytes from
    the position on to the caller's range, and nothing else of memory changes;
    what it returns is all the caller asked for up to the end of the file, or
    ends at a hole, or the device refused a read request of this very call
    ([read_failed u u']: it has refused more reads after the call than before);
    only the last makes it fail. *)
Theorem ufs_read_correct vn page po len off (st : vfs) n r st' : let u := fs_world st in let u' := fs_world st' in let i := vn_ino (vnode st vn) in
  file_call u st vn n page po len off → ufs_read vn page po len off st = (r, st') →
  ufs_ok u' ∧ secs u' = secs u ∧
  match r with
  | inl _ => read_failed u u' ∧ u_core u' = u_core u
  | inr k => let avail := Z.max 0 (Z.min len (vn_size (vnode st vn) - off)) in
      0 <= k <= avail ∧ copied (u_core u) (u_core u') page po k (λ x, content u i (off + x)) ∧
      (k = avail ∨ hole u i (off + k) ∨ read_failed u u')
  end.
Proof.
  intros u u' i [Hok Hi Hty Hsz Hpg [R1 R2] [P1 [P2 P3]] Hs] Hrun. pose proof (ok_on u Hok) as H. destruct Hok as [D1 D2 D3 D4 D5].
  destruct (tree_Some u (secs u) i n Hi) as (_ & _ & _ & En). unfold hole, content. rewrite <-En.
  pose proof (wp_run _ _ _ _ _ _ (wp_ufs_read vn page po len off st u (secs u) n D3 H D4 Hi Hty Hsz (conj D5 (conj Hpg (conj R1 R2))) P1 P2 P3 Hs) Hrun) as Hr.
  destruct r as [e|k].
  - destruct Hr as [H' Hf]. pose proof (on_tree u (secs u) u' H') as (Es & _). split; [by apply (on_ufs_ok u (secs u))|]. by destruct H'.
  - destruct Hr as (Hk & (c & H' & Hc) & Hend). pose proof (on_tree _ (secs u) u' H') as (Es & _). pose proof (on_core _ _ _ H') as Ec. cbn in Ec.
    split; [|fold u' in Ec; by rewrite Ec]. apply (on_ufs_ok _ _ _ H'); [by apply layout_ok_core|apply Hc|by apply blocks_ok_core].
Qed.
(** An inode that is written back reads the same, field by field, and
    every other inode of the table reads as before, those in the same sector
    included; the bitmaps and all blocks stay. *)
Theorem ufs_inode_roundtrip g S s i j n s1 m s2 m0 s0 : layout_ok g → on g S s → 0 <= i < inode_count g → 0 <= j < inode_count g → inode_wf n →
  ufs_write_inode i n s = (inr (), s1) → ufs_read_inode j s1 = (inr m, s2) → ufs_read_inode j s = (inr m0, s0) →
  m = (if decide (j = i) then n else m0) ∧ ∀ t, t < itable_sector g ∨ data_frag g <= t → sector (u_disk s2) t = sector (u_disk s) t.
Proof.
  intros Hl H Hi Hj Hw E1 E2 E0. pose proof (wp_run _ _ _ _ _ _ (wp_write_inode g S s i n Hl H Hi) E1) as H1.
  destruct (wp_run _ _ _ _ _ _ (wp_read_inode g _ s1 j Hl H1 Hj) E2) as [-> H2]. destruct (wp_run _ _ _ _ _ _ (wp_read_inode g S s j Hl H Hj) E0) as [-> _].
  split; [apply inode_at_put; try done; intros; by eapply on_length|].
  intros t Ht. rewrite (on_sector _ _ _ H2), (on_sector _ _ _ H). apply put_inode_other. pose proof (inode_sector_bounds g i Hl Hi). arith.
Qed.

(** The block [b] is at [l] of the file. *)
Definition maps n (l b : Z) s : Prop := ∃ s', ufs_block_map n l s = (inr b, s').

(** C25. Through both levels of tables and whatever of them had to be
    allocated, the block map of an inode is an array: after [ufs_block_set] puts
    an allocated block that no file uses at [l], the map gives that block at [l]
    and what it gave before everywhere else, and the maps of all other inodes
    are as they were.  No block ends up in two places. *)
Theorem ufs_block_map_is_array g S I i n s l phys n' s1 : layout_ok g → on g S s → blocks_ok g S I → I i = Some n → fresh g S I phys → 0 <= l →
  ufs_block_set n l phys s = (inr n', s1) →
  l < MAP_MAX ∧ same_meta n n' ∧ (∃ S1, on g S1 s1 ∧ blocks_ok g S1 (<[i := Some n']> I)) ∧
  ∀ l' b b', 0 <= l' → maps n l' b s → maps n' l' b' s1 → b' = (if decide (l' = l) then phys else b) ∧
    ∀ j m c c', j ≠ i → I j = Some m → maps m l' c s → maps m l' c' s1 → c' = c.
Proof.
  intros Hl H Hok Hi Hp Hl0 E1. destruct (wp_run _ _ _ _ _ _ (wp_block_set g S I i phys n s l Hl H Hok Hi Hp Hl0) E1) as (Hmax & S1 & H1 & He).
  split; [done|]. split; [apply He|]. split; [exists S1; split; [done|apply He]|]. intros l' b b' Hl' (s2 & E2) (s3 & E3).
  destruct (wp_run _ _ _ _ _ _ (wp_block_map g S I i n s l' Hl H Hok Hi Hl') E2) as (Hm & -> & _).
  assert (<[i := Some n']> I i = Some n') as Hi' by apply fn_lookup_insert.
  destruct (wp_run _ _ _ _ _ _ (wp_block_map g S1 _ i n' s1 l' Hl H1 (es_ok _ _ _ _ _ _ _ _ _ He) Hi' Hl') E3) as (_ & -> & _).
  split; [by apply (es_bmap _ _ _ _ _ _ _ _ _ He)|]. intros j m c c' Hj Hm' (s4 & E4) (s5 & E5).
  destruct (wp_run _ _ _ _ _ _ (wp_block_map g S I j m s l' Hl H Hok Hm' Hl') E4) as (_ & -> & _).
  assert (<[i := Some n']> I j = Some m) as Hm'' by by rewrite fn_lookup_insert_ne.
  destruct (wp_run _ _ _ _ _ _ (wp_block_map g S1 _ j m s1 l' Hl H1 (es_ok _ _ _ _ _ _ _ _ _ He) Hm'' Hl') E5) as (_ & -> & _).
  by apply (entry_set_others g S I i n l phys n' S1 He Hok Hi j m l').
Qed.
End Run.
