(* ===== verification/UfsSafe.v ===== *)
(** * UfsSafe: no operation of the UFS driver leaks (src/kernel/vfs/ufs.c)

    For any block device, failing whenever it likes: an operation gives back
    every scratch buffer it takes and leaves the references of the vnodes and the
    mount table as they are, except for the one reference to the vnode it returns;
    what it reports as an error is one.  With that UFS keeps the contract of the
    drivers in NameiFacts. *)

From S2P Require Import Prelude Config ErrState PagePool Path Vfs Driver VfsFacts Namei NameiFacts ModCore Tmpfs.
From S2P Require Import BlkDev SectorDev Ufs UfsOps.

Create HintDb ufs_err.

Section Safe.
Context {cfg : PageConfig} {ps : PageStore} {sd : SectorDev} {bo : ByteOrder} (junk : list Z).
#[local] Abbreviation vfs := (vfs_t ufs_t).
#[local] Abbreviation U := (prog ufs_t).
#[local] Abbreviation V := (prog vfs).

(** ** Errors are negative *)

Definition errs {S A} (m : prog S A) : Prop := ∀ s e s', m s = (inl e, s') → e < 0.

Lemma errs_ret {S A} (x : A) : errs (mret x : prog S A).
Proof. by intros s e s' [=]. Qed.
Lemma errs_bind {S A B} (m : prog S A) (f : A → prog S B) : errs m → (∀ x, errs (f x)) → errs (m ≫= f).
Proof.
  intros Hm Hf s e s'. unfold mbind, prog_bind. destruct (m s) as [[e1|x] s1] eqn:E; [intros [= <- <-]; by eapply Hm|apply Hf].
Qed.
Lemma errs_throw {S A} e : e < 0 → errs (throw e : prog S A).
Proof. by intros He s e' s' [= <- <-]. Qed.
Lemma errs_gets {S A} (f : S → A) : errs (gets f).
Proof. by intros s e s' [=]. Qed.
Lemma errs_modify {S} (f : S → S) : errs (modify f).
Proof. by intros s e s' [=]. Qed.
Lemma errs_attempt {S A} (m : prog S A) : errs (attempt m).
Proof. intros s e s'. unfold attempt. by destruct (m s). Qed.
Lemma errs_ignore {S A} (m : prog S A) : errs (ignore m).
Proof. by intros s e s' [=]. Qed.
Lemma errs_for {S} n i (f : Z → prog S unit) : (∀ i, errs (f i)) → errs (for_each n i f).
Proof. intros Hf. revert i. induction n as [|n IH]; intros i; [apply errs_ret|]. apply errs_bind; [apply Hf|]. intros []. apply IH. Qed.
Lemma errs_find {S A} n i (f : Z → prog S (option A)) : (∀ i, errs (f i)) → errs (find_each n i f).
Proof.
  intros Hf. revert i. induction n as [|n IH]; intros i; [apply errs_ret|]. apply errs_bind; [apply Hf|]. intros [x|]; [apply errs_ret|apply IH].
Qed.
Lemma errs_read_sector t : errs (ufs_read_sector t).
Proof.
  intros s e s'. unfold ufs_read_sector. destruct (disk_read _ _) as [[rc bs] d]. destruct (Z.ltb_spec rc 0); [|done]. by intros [= <- <-].
Qed.
Lemma errs_write_sector t : errs (ufs_write_sector t).
Proof.
  intros s e s'. unfold ufs_write_sector. destruct (disk_write _ _) as [rc d]. destruct (Z.ltb_spec rc 0); [|done]. by intros [= <- <-].
Qed.

#[local] Hint Resolve errs_ret errs_gets errs_modify errs_attempt errs_ignore errs_read_sector errs_write_sector : ufs_err.
#[local] Hint Extern 1 (errs (throw _)) => apply errs_throw; lia : ufs_err.
#[local] Hint Extern 2 (errs (_ ≫= _)) => apply errs_bind; [|intros ?] : ufs_err.
#[local] Hint Extern 2 (errs (for_each _ _ _)) => apply errs_for; intros ? : ufs_err.
#[local] Hint Extern 2 (errs (find_each _ _ _)) => apply errs_find; intros ? : ufs_err.
#[local] Hint Extern 3 (errs (match ?x with _ => _ end)) => destruct x : ufs_err.
#[local] Hint Extern 3 (errs (let '_ := ?x in _)) => destruct x : ufs_err.

Ltac errs := intros; cbv zeta; eauto 20 with ufs_err nocore.

Lemma errs_cg_byte_read o : errs (ufs_cg_byte_read o).
Proof. unfold ufs_cg_byte_read. errs. Qed.
#[local] Hint Resolve errs_cg_byte_read : ufs_err.
Lemma errs_upd_buf f : errs (upd_buf f).
Proof. unfold upd_buf. errs. Qed.
Lemma errs_buf_byte o : errs (buf_byte o).
Proof. unfold buf_byte. errs. Qed.
Lemma errs_set_buf_byte o v : errs (set_buf_byte o v).
Proof. apply errs_upd_buf. Qed.
#[local] Hint Resolve errs_upd_buf errs_buf_byte errs_set_buf_byte : ufs_err.
Lemma errs_try_block n : errs (try_block n).
Proof. unfold try_block. errs. Qed.
Lemma errs_try_inode n : errs (try_inode n).
Proof. unfold try_inode. errs. Qed.
#[local] Hint Resolve errs_try_block errs_try_inode : ufs_err.
Lemma errs_alloc_block : errs ufs_alloc_block.
Proof. unfold ufs_alloc_block, ENOSPC. errs. Qed.
Lemma errs_alloc_inode : errs ufs_alloc_inode.
Proof. unfold ufs_alloc_inode, ENOSPC. errs. Qed.
Lemma errs_free_block f : errs (ufs_free_block f).
Proof. unfold ufs_free_block, EINVAL. errs. Qed.
Lemma errs_free_inode f : errs (ufs_free_inode f).
Proof. unfold ufs_free_inode, EINVAL. errs. Qed.
Lemma errs_read_inode i : errs (ufs_read_inode i).
Proof. unfold ufs_read_inode. errs. Qed.
Lemma errs_write_inode i n : errs (ufs_write_inode i n).
Proof. unfold ufs_write_inode. errs. Qed.
Lemma errs_zero_block f : errs (ufs_zero_block f).
Proof. unfold ufs_zero_block. errs. Qed.
#[local] Hint Resolve errs_alloc_block errs_alloc_inode errs_free_block errs_free_inode errs_read_inode errs_write_inode errs_zero_block : ufs_err.
Lemma errs_read_ptr f i : errs (read_ptr f i).
Proof. unfold read_ptr, buf_ptr. errs. Qed.
Lemma errs_write_ptr f i v : errs (write_ptr f i v).
Proof. unfold write_ptr, set_buf_ptr. errs. Qed.
Lemma errs_new_table : errs new_table.
Proof. unfold new_table. errs. Qed.
#[local] Hint Resolve errs_read_ptr errs_write_ptr errs_new_table : ufs_err.
Lemma errs_block_map n l : errs (ufs_block_map n l).
Proof. unfold ufs_block_map, EIO. errs. Qed.
Lemma errs_block_set n l p : errs (ufs_block_set n l p).
Proof. unfold ufs_block_set, ENOSPC. errs. Qed.
#[local] Hint Resolve errs_block_map errs_block_set : ufs_err.
Lemma errs_free_table f : errs (free_table junk f).
Proof. unfold free_table, free_table_from. errs. Qed.
Lemma errs_free_double f k : errs (ufs_free_double_indirect junk f k).
Proof. unfold ufs_free_double_indirect. errs. Qed.
Lemma errs_free_direct k n : errs (free_direct_from k n).
Proof. unfold free_direct_from. errs. Qed.
#[local] Hint Resolve errs_free_table errs_free_double errs_free_direct : ufs_err.
Lemma errs_free_all n : errs (free_all_blocks junk n).
Proof. unfold free_all_blocks. errs. Qed.
Lemma errs_shrink k n : errs (shrink_to junk k n).
Proof. unfold shrink_to, free_table_from. errs. Qed.
#[local] Hint Resolve errs_free_all errs_shrink : ufs_err.
Lemma errs_placeholders f : errs (write_placeholders f).
Proof. unfold write_placeholders. errs. Qed.
#[local] Hint Resolve errs_placeholders : ufs_err.
Lemma errs_catch {S A B} (m : prog S A) (f : Z + A → prog S B) : errs m → (∀ e, e < 0 → errs (f (inl e))) → (∀ x, errs (f (inr x))) →
  errs (attempt m ≫= f).
Proof.
  intros Hm He Hx s e s'. unfold mbind, prog_bind, attempt. destruct (m s) as [[e1|x] s1] eqn:E; [apply He; by eapply Hm|apply Hx].
Qed.

Lemma errs_read_chunk n p o r q : errs (read_chunk n p o r q).
Proof. unfold read_chunk. errs. Qed.
Lemma errs_read_loop k nd p o n r q : errs (read_loop k nd p o n r q).
Proof.
  revert o r q. induction k as [|k IH]; intros; cbn [read_loop]; [errs|]. destruct (0 <? r); [|errs].
  apply errs_catch; [apply errs_read_chunk|intros; destruct (0 <? n - r); errs|]. intros [a|]; [apply IH|errs].
Qed.
Lemma errs_writable_block n l : errs (writable_block n l).
Proof. unfold writable_block. errs. Qed.
#[local] Hint Resolve errs_writable_block : ufs_err.
Lemma errs_write_chunk n p o r q : errs (write_chunk n p o r q).
Proof. unfold write_chunk. errs. Qed.
Lemma errs_write_loop k nd p o n r q : errs (write_loop k nd p o n r q).
Proof.
  revert nd o r q. induction k as [|k IH]; intros; cbn [write_loop]; [errs|]. destruct (0 <? r); [|errs].
  apply errs_catch; [apply errs_write_chunk|intros; destruct (0 <? n - r); errs|]. intros [nd' a]. apply IH.
Qed.

(** ** What a program on vnodes holds *)

(** [held] on top of the references in [st0], and [t] of [n] scratch buffers taken. *)
Definition holds (st0 : vfs) (held : list nat) (n t : nat) (st : vfs) : Prop :=
  (t <= n)%nat ∧ pins (set_scratch_free (n - t) st0) held st.

(** From any such state with the vnodes [pre] on top and [t] buffers taken, [m]
    ends with [res x] instead of [pre] and [t'] buffers, or, at an error, without
    the vnodes and with [te] buffers. *)
Definition takes {A} (pre : list nat) (t t' te : nat) (res : A → list nat) (m : V A) : Prop :=
  ∀ st0 held n st, pool_ok st0 → holds st0 (pre ++ held) n t st →
    wp m (λ x st', holds st0 (res x ++ held) n t' st') (λ e st', e < 0 ∧ holds st0 held n te st') st.
Abbreviation none := (λ _, @nil nat).

Lemma takes_ret {A} t te (x : A) res : takes (res x) t t te res (mret x).
Proof. by intros st0 held n st H0 H. Qed.
Lemma takes_throw {A} t t' e (res : A → list nat) : e < 0 → takes [] t t' t res (throw e).
Proof. by intros He st0 held n st H0 H. Qed.
Lemma takes_bind {A B} pre mid t t1 t2 te (res : B → list nat) (m : V A) (f : A → V B) :
  takes pre t t1 te mid m → (∀ x, takes (mid x) t1 t2 te res (f x)) → takes pre t t2 te res (m ≫= f).
Proof.
  intros Hm Hf st0 held n st H0 H. apply wp_bind. eapply wp_mono; [by apply Hm|intros x s1 H1|by intros]. by apply Hf.
Qed.
(** Both results of [m] reach [f], with [t1] or [te1] buffers. *)
Lemma takes_catch {A B} pre mid t t1 te1 t2 te (res : B → list nat) (m : V A) (f : Z + A → V B) :
  takes pre t t1 te1 mid m → (∀ x, takes (mid x) t1 t2 te res (f (inr x))) → (∀ e, e < 0 → takes [] te1 t2 te res (f (inl e))) →
  takes pre t t2 te res (attempt m ≫= f).
Proof.
  intros Hm Hx He st0 held n st H0 H. apply wp_bind, wp_attempt. eapply wp_mono; [by apply Hm|intros x s1 H1|intros e s1 [? H1]].
  - by apply Hx.
  - by apply He.
Qed.
Lemma takes_ignore {A} t t' te (m : V A) : takes [] t t' t' none m → takes [] t t' te none (ignore m).
Proof. intros Hm st0 held n st H0 H. apply wp_ignore. eapply wp_mono; [by apply Hm|done|by intros e s [_ ?]]. Qed.
Lemma takes_gets {A} t te (f : vfs → A) : takes [] t t te none (gets f).
Proof. by intros st0 held n st H0 H. Qed.

(** A program that cannot fail may run below vnodes. *)
Definition total {S A} (m : prog S A) : Prop := ∀ s e s', m s ≠ (inl e, s').
Lemma takes_below {A} pre t t' te te' (m : V A) : takes [] t t' te none m → total m → takes pre t t' te' (λ _, pre) m.
Proof.
  intros Hm Hs st0 held n st H0 H. specialize (Hm st0 (pre ++ held) n st H0 H). unfold wp in *. destruct (m st) as [[e|x] s1] eqn:E; [|done].
  by destruct (Hs _ _ _ E).
Qed.
Lemma total_bind {S A B} (m : prog S A) (f : A → prog S B) : total m → (∀ x, total (f x)) → total (m ≫= f).
Proof. intros Hm Hf s e s'. unfold mbind, prog_bind. destruct (m s) as [[e1|x] s1] eqn:E; [by destruct (Hm _ _ _ E)|apply Hf]. Qed.
Lemma total_ignore {S A} (m : prog S A) : total (ignore m).
Proof. by intros s e s'. Qed.
Lemma total_attempt {S A} (m : prog S A) : total (attempt m).
Proof. intros s e s'. unfold attempt. by destruct (m s). Qed.
Lemma total_lift {A} (m : U A) : total m → total (lift m).
Proof. intros Hm s e s'. unfold lift, zoom. destruct (m _) as [r u] eqn:E. intros [= -> <-]. by destruct (Hm _ _ _ E). Qed.

(** What takes nothing on balance does so whatever is taken. *)
Lemma takes_frame {A} t pre (res : A → list nat) (m : V A) : takes pre 0 0 0 res m → takes pre t t t res m.
Proof.
  intros Hm st0 held n st H0 [Ht H]. eapply wp_mono; [apply (Hm st0 held (n - t)%nat st H0)|intros x s1 [_ H1]|intros e s1 [? [_ H1]]].
  - split; [lia|]. by rewrite Nat.sub_0_r.
  - split; [done|]. by rewrite Nat.sub_0_r in H1.
  - split; [done|]. split; [done|]. by rewrite Nat.sub_0_r in H1.
Qed.

Lemma takes_lift {A} t (m : U A) : errs m → takes [] t t t none (lift m).
Proof.
  intros He st0 held n st H0 [Ht H]. assert (∀ u, holds st0 held n t (set_fs u st)) as Hu.
  { intros u. split; [done|]. destruct H as [Hr Hm Hc Hs [? ? ? ? ?]]. split; try done; by split. }
  unfold wp, lift, zoom. destruct (m (fs_world st)) as [[e|x] u] eqn:E; [split; [by eapply He|]|]; apply Hu.
Qed.

Lemma holds_upd st0 held n t v f st : (∀ x, vn_refcnt (f x) = vn_refcnt x) → holds st0 held n t st → holds st0 held n t (upd_vnode v f st).
Proof.
  intros Hf [Ht [Hr Hm Hc Hs Hp]]. split; [done|]. pose proof Hp as [Pl Pf Pn Pi Pr].
  assert (∀ w, refs (upd_vnode v f st) w = refs st w) as Hu.
  { intros w. destruct (decide (v < VFS_VNODE_MAX)%nat); [rewrite refs_upd, Hf by done; by case_decide; subst|].
    unfold refs, vnode, upd_vnode. cbn [vnodes]. destruct (decide (w = v)) as [->|]; [|by rewrite list_lookup_total_alter_ne].
    rewrite list_lookup_total_alter. case_decide as Hd; [|done]. destruct Hd. lia. }
  split; [intros w; by rewrite Hu|done|done|done|]. split; [cbn; by rewrite length_alter|done|done| |].
  - intros w Hw. rewrite Hu. by apply Pi.
  - intros w. by rewrite Hu.
Qed.

Lemma takes_upd t te v f : (∀ x, vn_refcnt (f x) = vn_refcnt x) → takes [] t t te none (modify (upd_vnode v f)).
Proof. intros Hf st0 held n st H0 H. apply wp_modify. by apply holds_upd. Qed.

Lemma holds_scratch st0 held n t t' k st : (t' <= n)%nat → (k = n - t')%nat → holds st0 held n t st → holds st0 held n t' (set_scratch_free k st).
Proof. intros Ht -> [_ [Hr Hm Hc Hs [? ? ? ? ?]]]. split; [done|]. split; try done; by split. Qed.

(** A buffer may be there or not. *)
Lemma takes_scratch {B} t t' te (res : B → list nat) (f : bool → V B) :
  takes [] t t' te res (f false) → takes [] (S t) t' te res (f true) → takes [] t t' te res (scratch_alloc ≫= f).
Proof.
  intros Hf Ht st0 held n st H0 H. apply wp_bind. unfold wp at 1, scratch_alloc, vfs_scratch_alloc.
  assert (scratch_free st = n - t)%nat as E by apply H. rewrite E. destruct (n - t)%nat as [|k] eqn:En; [by apply Hf|].
  apply Ht; [done|]. apply (holds_scratch _ _ _ t); [lia|lia|done].
Qed.
Lemma takes_release t te : takes [] (S t) t te none (scratch_release true).
Proof.
  intros st0 held n st H0 H. apply wp_modify. unfold vfs_scratch_free. assert (scratch_free st = n - S t)%nat as E by apply H.
  pose proof (proj1 H). apply (holds_scratch _ _ _ (S t)); [lia|lia|done].
Qed.

(** The last program may return a vnode. *)
Lemma takes_alloc t te mnt ino nd : takes [] t t te (λ v : option nat, from_option (λ v, [v]) [] v) (ufs_vnode_from_inode mnt ino nd).
Proof.
  intros st0 held n st H0 [Ht H]. unfold wp, ufs_vnode_from_inode. destruct (vfs_vnode_alloc st) as [[v|] st1] eqn:E.
  - destruct (alloc_pins _ _ _ (pins_pool _ _ _ H) E) as [Hv Hp]. cbn [from_option].
    assert (holds st0 (v :: held) n t st1) as H1 by (split; [done|]; exact (pins_trans _ _ _ _ _ H Hp)).
    by apply holds_upd.
  - unfold vfs_vnode_alloc in E. destruct (vnode_free st); simplify_eq. by split.
Qed.
Lemma takes_with_scratch {A} t (res : A → list nat) (m : V A) : takes [] (S t) (S t) (S t) res m → takes [] t t t res (with_scratch m).
Proof.
  intros Hm. unfold with_scratch. apply takes_scratch; cbn [negb]; [by apply takes_throw|]. eapply takes_catch; [exact Hm| |].
  - intros x st0 held n st H0 H. apply wp_bind. apply (takes_release t 0 st0 (res x ++ held) n st H0 H).
  - intros e He. eapply takes_bind; [apply takes_release|]. intros []. by apply takes_throw.
Qed.

Lemma takes_on_error {A} pre t t' te te' (res : A → list nat) (m : V A) c : takes pre t t' te res m → takes [] te te' te' none c →
  takes pre t t' te' res (on_error m c).
Proof.
  intros Hm Hc. unfold on_error. eapply takes_catch; [exact Hm|intros x; apply takes_ret|].
  intros e He. eapply takes_bind; [exact Hc|]. intros []. by apply takes_throw.
Qed.

Lemma takes_find {A} t n i (f : Z → V (option A)) : (∀ i, takes [] t t t none (f i)) → takes [] t t t none (find_each n i f).
Proof.
  intros Hf. revert i. induction n as [|n IH]; intros i; [apply (takes_ret _ _ _ none)|]. cbn [find_each].
  eapply takes_bind; [apply Hf|]. intros [x|]; [apply (takes_ret _ _ _ none)|apply IH].
Qed.

Create HintDb ufs_bal.
#[local] Hint Resolve takes_gets takes_alloc takes_release : ufs_bal.
#[local] Hint Extern 1 (takes _ _ _ _ _ (mret _)) =>
  match goal with |- takes _ ?t _ ?te ?res (mret ?x) => exact (takes_ret t te x res) end : ufs_bal.
#[local] Hint Extern 1 (takes _ _ _ _ _ (match ?x with inl _ => throw _ | inr _ => mret _ end)) => destruct x : ufs_bal.
#[local] Hint Extern 1 (takes _ _ _ _ _ (throw _)) => apply takes_throw; first [done|lia] : ufs_bal.
#[local] Hint Extern 1 (takes _ _ _ _ _ (lift _)) => apply takes_lift; solve [errs] : ufs_bal.
#[local] Hint Extern 1 (takes _ _ _ _ _ (modify (upd_vnode _ _))) => apply takes_upd; done : ufs_bal.
#[local] Hint Extern 1 (takes _ _ _ _ _ (ignore _)) => apply takes_ignore : ufs_bal.
#[local] Hint Extern 1 (takes _ _ _ _ _ (with_scratch _)) => apply takes_with_scratch : ufs_bal.
#[local] Hint Extern 1 (takes _ _ _ _ _ (find_each _ _ _)) => apply takes_find; intros ? : ufs_bal.
#[local] Hint Extern 2 (takes _ _ _ _ _ (on_error _ _)) => eapply takes_on_error : ufs_bal.
#[local] Hint Extern 2 (takes _ _ _ _ _ (scratch_alloc ≫= _)) => apply takes_scratch; cbn [negb] : ufs_bal.
#[local] Hint Extern 2 (takes _ _ _ _ _ (attempt _ ≫= _)) => eapply takes_catch; [|intros ?|intros ??] : ufs_bal.
#[local] Hint Extern 3 (takes _ _ _ _ _ (_ ≫= _)) => eapply takes_bind; [|intros ?] : ufs_bal.
#[local] Hint Extern 4 (takes _ _ _ _ _ (match ?x with _ => _ end)) => destruct x : ufs_bal.
#[local] Hint Extern 4 (takes _ _ _ _ _ (let '_ := ?x in _)) => destruct x : ufs_bal.

Ltac bal := cbv zeta; eauto 60 with ufs_bal nocore.

Lemma bal_find_sector {A} t n (g : Z → V (option A)) : (∀ i, takes [] t t t none (g i)) → takes [] t t t none (find_sector n g).
Proof. intros Hg. unfold find_sector. bal. Qed.
#[local] Hint Extern 1 (takes _ _ _ _ _ (find_sector _ _)) => apply bal_find_sector; intros ? : ufs_bal.

Lemma bal_lookup t dir nm : takes [] t t t (λ v, [v]) (ufs_lookup dir nm).
Proof. unfold ufs_lookup, in_buf, vnode_of. bal. Qed.
#[local] Hint Resolve bal_lookup errs_read_loop errs_write_loop : ufs_bal.
#[local] Hint Resolve errs_read_loop errs_write_loop : ufs_err.

Lemma bal_read t vn p o n off : takes [] t t t none (ufs_read vn p o n off).
Proof. unfold ufs_read, vnode_of. bal. Qed.
Lemma bal_write t vn p o n off : takes [] t t t none (ufs_write vn p o n off).
Proof. unfold ufs_write, vnode_of, time_now_sec. bal. Qed.

Lemma bal_type_from_inode t i sec : takes [] t t t none (type_from_inode i sec).
Proof.
  unfold type_from_inode. apply takes_scratch.
  - bal.
  - eapply (takes_bind [] none (S t) (S t)); [|intros r]. { intros st0 held n st H0 H. apply wp_attempt. eapply wp_mono; [apply (takes_lift (S t)); [errs|done|exact H]|done|by intros e s [_ ?]]. }
    bal.
Qed.
#[local] Hint Resolve bal_type_from_inode : ufs_bal.
Lemma bal_entry_type t o b sec : takes [] t t t none (entry_type o b sec).
Proof. unfold entry_type. bal. Qed.
#[local] Hint Resolve bal_entry_type : ufs_bal.
Lemma bal_list_sector t k o sec m tg l : takes [] t t t none (list_sector k o sec m tg l).
Proof. revert o l. induction k as [|k IH]; intros; cbn [list_sector]; bal. Qed.
#[local] Hint Resolve bal_list_sector : ufs_bal.
Lemma bal_list_sectors t k i p m tg l : takes [] t t t none (list_sectors k i p m tg l).
Proof. revert i l. induction k as [|k IH]; intros; cbn [list_sectors]; bal. Qed.
#[local] Hint Resolve bal_list_sectors : ufs_bal.
Lemma bal_list_blocks t k i nd m tg l : takes [] t t t none (list_blocks k i nd m tg l).
Proof. revert i l. induction k as [|k IH]; intros; cbn [list_blocks]; bal. Qed.
#[local] Hint Resolve bal_list_blocks : ufs_bal.
Lemma bal_readdir t dir m c : takes [] t t t none (ufs_readdir dir m c).
Proof. unfold ufs_readdir, vnode_of. bal. Qed.

Lemma bal_add_entry t dir nm i : takes [] t t t none (ufs_dir_add_entry dir nm i).
Proof. unfold ufs_dir_add_entry, vnode_of, in_buf. bal. Qed.
Lemma bal_remove_entry t dir nm : takes [] t t t none (ufs_dir_remove_entry dir nm).
Proof. unfold ufs_dir_remove_entry, vnode_of, in_buf. bal. Qed.
Lemma bal_is_empty t i : takes [] t t t none (ufs_dir_is_empty i).
Proof. unfold ufs_dir_is_empty, in_buf. bal. Qed.
#[local] Hint Resolve bal_add_entry bal_remove_entry bal_is_empty : ufs_bal.

Lemma bal_ignored {A} pre t te (m : U A) : takes pre t t te (λ _, pre) (lift (ignore m)).
Proof. eapply takes_below; [apply takes_lift; errs|apply total_lift, total_ignore]. Qed.
Lemma bal_drop_inode t te i : takes [] t t te none (drop_inode i).
Proof. apply bal_ignored. Qed.
Lemma bal_drop_block t te i : takes [] t t te none (drop_block i).
Proof. apply bal_ignored. Qed.
Lemma bal_stamp_dir pre t te i now : takes pre t t te (λ _, pre) (stamp_dir i now).
Proof.
  eapply (takes_below _ _ _ t).
  - unfold stamp_dir. bal.
  - unfold stamp_dir. apply total_bind; [apply total_attempt|]. intros [e|n]; [done|apply total_lift, total_ignore].
Qed.
#[local] Hint Resolve bal_ignored bal_drop_inode bal_drop_block bal_stamp_dir : ufs_bal.
#[local] Hint Extern 2 (takes _ _ _ _ _ (scratch_release true)) => eapply takes_below; [apply (takes_release _ 0)|done] : ufs_bal.

Lemma bal_create t dir nm mode : takes [] t t t (λ v, [v]) (ufs_create dir nm mode).
Proof. unfold ufs_create, vnode_of, time_now_sec. bal. Qed.
Lemma bal_mkdir t dir nm mode : takes [] t t t none (ufs_mkdir dir nm mode).
Proof. unfold ufs_mkdir, vnode_of, time_now_sec. bal. Qed.
Lemma bal_truncate t vn len : takes [] t t t none (ufs_truncate junk vn len).
Proof. unfold ufs_truncate, vnode_of, time_now_sec. bal. Qed.
Lemma total_for {S} n i (f : Z → prog S unit) : (∀ i, total (f i)) → total (for_each n i f).
Proof. intros Hf. revert i. induction n as [|n IH]; intros i; [done|]. apply total_bind; [apply Hf|]. intros []. apply IH. Qed.
Lemma total_free_all n : total (free_all_blocks junk n).
Proof.
  unfold free_all_blocks, free_direct_from, free_table, free_table_from, ufs_free_double_indirect.
  repeat first [apply total_ignore|apply total_bind; [|intros ?]|apply total_for; intros ?|case_match|done].
Qed.
Lemma bal_free_all t te n : takes [] t t te none (lift (free_all_blocks junk n)).
Proof. eapply takes_below; [apply takes_lift; errs|apply total_lift, total_free_all]. Qed.
#[local] Hint Resolve bal_free_all : ufs_bal.

Lemma bal_unlink t dir nm : takes [] t t t none (ufs_unlink junk dir nm).
Proof. unfold ufs_unlink, vnode_of, time_now_sec. bal. Qed.
Lemma bal_chmod t vn mode : takes [] t t t none (ufs_chmod vn mode).
Proof. unfold ufs_chmod, vnode_of, time_now_sec. bal. Qed.
Lemma bal_utimes t vn a m : takes [] t t t none (ufs_utimes vn a m).
Proof. unfold ufs_utimes, vnode_of, time_now_sec. bal. Qed.
Lemma bal_stat t vn : takes [] t t t none (ufs_stat vn).
Proof. unfold ufs_stat, vnode_of. bal. Qed.
Lemma bal_readlink t vn n : takes [] t t t none (ufs_readlink vn n).
Proof. unfold ufs_readlink, vnode_of. bal. Qed.
(** A vnode with a reference of the program's own is one of the pool. *)
Lemma holds_lt st0 v held n t st : pool_ok st0 → holds st0 (v :: held) n t st → (v < VFS_VNODE_MAX)%nat.
Proof.
  intros H0 [_ H]. destruct (decide (v < VFS_VNODE_MAX)%nat) as [|Hge]; [done|]. exfalso.
  pose proof (pins_refs _ _ _ H v) as Hr. cbn [occ] in Hr. rewrite decide_True in Hr by done.
  pose proof (pool_refs _ H0 v). pose proof (occ_range v held). change (refs (set_scratch_free _ st0) v) with (refs st0 v) in Hr.
  assert (refs st v = 0); [|lia]. unfold refs, vnode. rewrite list_lookup_total_alt, lookup_ge_None_2; [done|].
  pose proof (pins_pool _ _ _ H) as [Hl _ _ _ _]. lia.
Qed.

Lemma takes_drop t te v : takes [v] t t te none (modify (vfs_vnode_release (Some v))).
Proof.
  intros st0 held n st H0 H. apply wp_modify. split; [apply H|]. apply drop_pins; [by eapply holds_lt|apply H|]. by destruct H0.
Qed.

Lemma bal_link t dir nm v : takes [] t t t none (ufs_link dir nm v).
Proof.
  unfold ufs_link, vnode_of, time_now_sec. do 2 (eapply takes_bind; [bal|intros ?]). case_match; [bal|]. case_match; [bal|].
  eapply takes_catch; [apply bal_lookup| |].
  - intros p. eapply takes_bind; [apply takes_drop|]. intros []. bal.
  - intros e He. case_match; bal.
Qed.

(** ** The operations of the table *)

Inductive ufs_call :=
  | CallLookup (dir : nat) (nm : name)
  | CallRead (vn : nat) (page page_off n off : Z)
  | CallWrite (vn : nat) (page page_off n off : Z)
  | CallReaddir (dir max : nat) (cookie : Z)
  | CallStat (vn : nat)
  | CallReadlink (vn : nat) (bufsiz : Z)
  | CallCreate (dir : nat) (nm : name) (mode : Z)
  | CallMkdir (dir : nat) (nm : name) (mode : Z)
  | CallUnlink (dir : nat) (nm : name)
  | CallTruncate (vn : nat) (len : Z)
  | CallUtimes (vn : nat) (atime mtime : Z)
  | CallChmod (vn : nat) (mode : Z)
  | CallLink (dir : nat) (nm : name) (target : nat)
  | CallStatfs (mnt : nat).

(** A call with the vnode it hands out, if it does. *)
Definition call (c : ufs_call) : V (option nat) :=
  match c with
  | CallLookup dir nm => v ← ufs_lookup dir nm; mret (Some v)
  | CallRead vn p o n off => ufs_read vn p o n off;; mret None
  | CallWrite vn p o n off => ufs_write vn p o n off;; mret None
  | CallReaddir dir m c => ufs_readdir dir m c;; mret None
  | CallStat vn => ufs_stat vn;; mret None
  | CallReadlink vn n => ufs_readlink vn n;; mret None
  | CallCreate dir nm mode => v ← ufs_create dir nm mode; mret (Some v)
  | CallMkdir dir nm mode => ufs_mkdir dir nm mode;; mret None
  | CallUnlink dir nm => ufs_unlink junk dir nm;; mret None
  | CallTruncate vn len => ufs_truncate junk vn len;; mret None
  | CallUtimes vn a m => ufs_utimes vn a m;; mret None
  | CallChmod vn mode => ufs_chmod vn mode;; mret None
  | CallLink dir nm v => ufs_link dir nm v;; mret None
  | CallStatfs mnt => ufs_statfs mnt;; mret None
  end.

Definition handed (r : option nat) : list nat := from_option (λ v, [v]) [] r.

Lemma bal_call c : takes [] 0 0 0 handed (call c).
Proof.
  assert (∀ A (m : V A), takes [] 0 0 0 none m → takes [] 0 0 0 handed (m;; mret None)) as Hn.
  { intros A m Hm. eapply takes_bind; [exact Hm|]. intros x. exact (takes_ret 0 0 None handed). }
  assert (∀ m : V nat, takes [] 0 0 0 (λ v, [v]) m → takes [] 0 0 0 handed (v ← m; mret (Some v))) as Hs.
  { intros m Hm. eapply takes_bind; [exact Hm|]. intros x. exact (takes_ret 0 0 (Some x) handed). }
  destruct c; cbn [call]; first [apply Hs|apply Hn].
  - apply bal_lookup. - apply bal_read. - apply bal_write. - apply bal_readdir. - apply bal_stat. - apply bal_readlink. - apply bal_create.
  - apply bal_mkdir. - apply bal_unlink. - apply bal_truncate. - apply bal_utimes. - apply bal_chmod. - apply bal_link.
  - unfold ufs_statfs. bal.
Qed.

Lemma call_balanced c st : pool_ok st →
  match call c st with
  | (inr r, st') => pins st (handed r) st' ∧ Forall (λ v, (v < VFS_VNODE_MAX)%nat) (handed r)
  | (inl e, st') => e < 0 ∧ pins st [] st'
  end.
Proof.
  intros Hp. assert (set_scratch_free (scratch_free st) st = st) as Es by (by destruct st).
  assert (holds st [] (scratch_free st) 0 st) as Hs by (split; [lia|]; rewrite Nat.sub_0_r, Es; by apply pins_refl).
  pose proof (bal_call c st [] (scratch_free st) st Hp Hs) as H. unfold wp in H.
  destruct (call c st) as [[e|r] st'].
  - destruct H as [? [_ H]]. by rewrite Nat.sub_0_r, Es in H.
  - pose proof H as H1. destruct H as [_ H]. rewrite Nat.sub_0_r, Es, app_nil_r in H. split; [done|].
    destruct r as [v|]; constructor; [|constructor]. by apply (holds_lt st v [] (scratch_free st) 0 st').
Qed.
(** The driver of every mount that UFS serves. *)
Definition ufs_driver : Z → vfs_ops_t ufs_t := λ _, ufs_ops.

#[export] Instance ufs_driver_ok : Drivers ufs_driver.
Proof.
  split.
  - intros o f dir comp st err child st' [= <-] Hf Hok. pose proof (call_balanced (CallLookup dir comp) st Hok) as H. cbn [call] in H.
    unfold mbind, prog_bind in H. destruct (ufs_lookup dir comp st) as [[e|v] s1]; injection Hf as <- <- <-.
    + destruct H as [He H]. by rewrite decide_False by lia.
    + rewrite decide_True by done. destruct H as [H Hv]. inversion_clear Hv. by exists v.
  - intros o f v n st len text st' [= <-] Hf Hok. pose proof (call_balanced (CallReadlink v n) st Hok) as H. cbn [call] in H.
    unfold mbind, prog_bind in H. destruct (ufs_readlink v n st) as [[e|l] s1]; injection Hf as <- <- <-; by destruct H.
Qed.

(** A sequence of calls: their results in order, and all the vnodes handed out. *)
Fixpoint ufs_calls (cs : list ufs_call) (st : vfs) : list (Z + option nat) * list nat * vfs :=
  match cs with
  | [] => ([], [], st)
  | c :: cs =>
      let '(r, st) := call c st in
      let '(rs, vs, st) := ufs_calls cs st in
      (r :: rs, vs ++ match r with inr r => handed r | inl _ => [] end, st)
  end.

(** C22. Over any device, failing whenever it likes, no sequence of UFS calls
    leaks: each vnode has exactly the references it had and one for every time
    it has been handed out, the free list is still that of the vnodes without a
    reference, the mount table is as before, all scratch buffers are back, and
    whatever is reported as an error is a negative number. *)
Theorem ufs_calls_balanced cs st : pool_ok st →
  let '(rs, vs, st') := ufs_calls cs st in
  (∀ v, refs st' v = refs st v + occ v vs) ∧ pool_ok st' ∧
  mounts st' = mounts st ∧ mount_count st' = mount_count st ∧ scratch_free st' = scratch_free st ∧
  Forall (λ v, (v < VFS_VNODE_MAX)%nat) vs ∧ length rs = length cs ∧
  Forall (λ r, ∀ e, r = inl e → e < 0) rs.
Proof.
  intros Hp. assert (let '(rs, vs, st') := ufs_calls cs st in pins st vs st' ∧ Forall (λ v, (v < VFS_VNODE_MAX)%nat) vs ∧
    length rs = length cs ∧ Forall (λ r, ∀ e, r = inl e → e < 0) rs) as H.
  { revert st Hp. induction cs as [|c cs IH]; intros st Hp; cbn [ufs_calls]; [by split; [apply pins_refl|]|].
    pose proof (call_balanced c st Hp) as Hc. destruct (call c st) as [r s1].
    assert (pins st (match r with inr r => handed r | inl _ => [] end) s1 ∧ Forall (λ v, (v < VFS_VNODE_MAX)%nat) (match r with inr r => handed r | inl _ => [] end) ∧
      ∀ e, r = inl e → e < 0) as (H1 & H2 & H3) by (destruct r; destruct Hc; split_and!; naive_solver).
    specialize (IH s1 (pins_pool _ _ _ H1)). destruct (ufs_calls cs s1) as [[rs vs] s2]. destruct IH as (I1 & I2 & I3 & I4).
    split_and!; [by eapply pins_trans|by apply Forall_app|cbn; lia|by constructor]. }
  destruct (ufs_calls cs st) as [[rs vs] st']. destruct H as ([? ? ? ? ?] & ? & ? & ?). done.
Qed.
(** Mounting keeps the pool of vnodes in order as well. *)
Lemma pool_ok_ext (st st' : vfs) : vnodes st' = vnodes st → vnode_free st' = vnode_free st → pool_ok st → pool_ok st'.
Proof. intros E1 E2 []. split; unfold refs, vnode in *; rewrite ?E1, ?E2; done. Qed.

Lemma mount_pool mnt dev st : pool_ok st → pool_ok (ufs_mount mnt dev st).2.
Proof.
  intros Hp. unfold ufs_mount, lift, zoom, mbind, prog_bind. destruct (mount_read dev (fs_world st)) as [[e|n] u]; [by apply (pool_ok_ext st)|].
  cbn [modify]. set (st1 := upd_mount _ _ _). assert (pool_ok st1) as Hp1 by by apply (pool_ok_ext st).
  assert (set_scratch_free (scratch_free st1) st1 = st1) as Es by (by destruct st1).
  assert (holds st1 ([] ++ []) (scratch_free st1) 0 st1) as Hs by (split; [lia|]; rewrite Nat.sub_0_r, Es; by apply pins_refl).
  pose proof (takes_alloc 0 0 (Some mnt) UFS_ROOT_INO n st1 [] (scratch_free st1) st1 Hp1 Hs) as H. unfold wp in H.
  destruct (ufs_vnode_from_inode (Some mnt) UFS_ROOT_INO n st1) as [[e|[v|]] s2]; [by destruct H as [_ [_ [_ _ _ _ ?]]]|..].
  - apply (pool_ok_ext s2); [done..|]. by destruct H as [_ [_ _ _ _ ?]].
  - by destruct H as [_ [_ _ _ _ ?]].
Qed.
End Safe.
