(* ===== verification/UfsDemo.v ===== *)
(** * UfsDemo: a small UFS image

    Superblock, cylinder group and root directory on a disk of 128 sectors, in the
    layout of tools/mkufs: four inodes a sector from sector 33 on, eight blocks
    from sector 40 on. *)

From S2P Require Import Prelude Config ErrState PagePool PagePoolFacts Page PageFacts Path Vfs Driver VfsFacts Namei NameiFacts ModCore Tmpfs.
From S2P Require Import BlkDev SectorDev Ufs UfsBlocks UfsInode UfsTree UfsOps UfsFiles UfsRun UfsSafe.

#[export] Instance demo_order : ByteOrder := false.

Definition zeros (n : nat) : list Z := replicate n 0.

Definition demo_super : list Z :=
  put_word 4 UFS_FS_IBLKNO_OFF 33 (put_word 4 UFS_FS_DBLKNO_OFF 40 (put_word 4 UFS_FS_DSIZE_OFF 64
    (put_word 4 UFS_FS_BSIZE_OFF UFS_BLOCK_SIZE (put_word 4 UFS_FS_IPG_OFF 16
      (put_word 4 UFS_FS_CSTOTAL_NBFREE_OFF 7 (put_word 4 UFS_FS_CSTOTAL_NIFREE_OFF 13 zero_sector)))))).
Definition demo_magic : list Z := put_word 4 (Z.to_nat (UFS_FS_MAGIC_OFF mod BLKDEV_SECTOR_SIZE)) UFS_MAGIC zero_sector.
Definition demo_group : list Z :=
  put_word 4 UFS_CG_IUSEDOFF_OFF 128 (put_word 4 UFS_CG_FREEOFF_OFF 160 (put_bytes 128 [7] (put_bytes 161 (replicate 7 255) zero_sector))).
Definition demo_root_inode : ufs_inode_t := set_direct 0 40 (set_i_size UFS_BLOCK_SIZE (set_i_nlink 2 (set_i_mode (Z.lor S_IFDIR 493) blank_inode))).
Definition demo_inodes : list Z := put_bytes (2 * UFS_INODE_SIZE) (encode_inode demo_root_inode) zero_sector.

(** The image, evaluated. *)
Definition demo_image : gmap Z (list Z) := Eval vm_compute in
  list_to_map ([(16, demo_super); (18, demo_magic); (32, demo_group); (33, demo_inodes); (40, dot_sector 2 2)] ++
    ((λ i, (41 + Z.of_nat i, placeholder)) <$> seq 0 7)).

(** A device of 128 sectors that holds the sectors written to it. *)
Definition sector_in (d : gmap Z (list Z)) (s : Z) : list Z :=
  let b := d !!! s in if (length b =? SECTOR)%nat then b else zero_sector.

Record demo_disk := DemoDisk { dd_sectors : gmap Z (list Z); dd_reads : nat; dd_writes : nat }.
#[export] Instance demo_sectors : SectorDev := {|
  disk := demo_disk;
  disk_find nm d := if nm =? 7 then Some d else None;
  disk_read s d := if s <? 128 then (0, sector_in (dd_sectors d) s, d) else (- EIO, zero_sector, DemoDisk (dd_sectors d) (S (dd_reads d)) (dd_writes d));
  disk_write s bs d := if s <? 128 then (0, DemoDisk (<[s := bs]> (dd_sectors d)) (dd_reads d) (dd_writes d)) else (- EIO, DemoDisk (dd_sectors d) (dd_reads d) (S (dd_writes d)))
|}.

Lemma length_zero_sector : length zero_sector = SECTOR.
Proof. apply length_replicate. Qed.

#[export] Instance demo_sectors_ok : SectorDevOk.
Proof.
  refine {| disk_ok := λ _ : disk, True; sector := λ d : disk, sector_in (dd_sectors d); reads_refused := dd_reads : disk → nat; writes_refused := dd_writes : disk → nat |}.
  - intros d s. unfold sector_in. destruct (Nat.eqb_spec (length (dd_sectors d !!! s)) SECTOR); [done|apply length_zero_sector].
  - intros s d rc bs d' _ Hs E. cbn in E. destruct (s <? 128); simplify_eq; split_and!; try done.
    unfold sector_in. destruct (Nat.eqb_spec (length (dd_sectors d' !!! s)) SECTOR); [done|apply length_zero_sector].
  - intros s bs d rc d' _ Hs Hl E. cbn in E. destruct (s <? 128); simplify_eq; split_and!; try done.
    + intros t Ht. unfold sector_in. cbn. by rewrite lookup_total_insert_ne.
    + intros _. unfold sector_in. cbn. rewrite lookup_total_insert_eq. by rewrite Hl, Nat.eqb_refl.
  - intros s d rc bs d' E. cbn in E. destruct (s <? 128); simplify_eq; (split; [|done]); [change (refusal 0) with 0%nat|change (refusal (- EIO)) with 1%nat]; cbn; lia.
  - intros s bs d rc d' E. cbn in E. destruct (s <? 128); simplify_eq; (split; [|done]); [change (refusal 0) with 0%nat|change (refusal (- EIO)) with 1%nat]; cbn; lia.
Defined.

Definition demo_cold : vfs_t ufs_t :=
  Vfs _ (vnodes demo_vfs) (vnode_free demo_vfs) (mounts demo_vfs) (mount_count demo_vfs) (scratch_free demo_vfs)
    (UfsState 0 0 0 0 0 0 0 0 PAGE_ID_INVALID zero_sector (DemoDisk demo_image 0 0) demo_core).

(** The image mounted, with its root directory in vnode 2. *)
Definition demo_mounted : vfs_t ufs_t := (ufs_mount 1 7 demo_cold).2.

Lemma demo_mounts : (ufs_mount 1 7 demo_cold).1 = inr () ∧ mnt_root (mount_at demo_mounted 1) = Some 2%nat.
Proof. vm_compute. split; reflexivity. Qed.

Lemma demo_pool : pool_ok demo_mounted.
Proof. apply mount_pool. destruct demo_vfs_ok as [H _]. by destruct H. Qed.

(** A file is created, written, read and removed. *)
Definition demo_calls : list ufs_call :=
  [CallCreate 2 [97; 98] 420; CallWrite 3 demo_page 0 600 100; CallRead 3 demo_page 1000 600 100; CallReaddir 2 10 0; CallUnlink 2 [97; 98]; CallLookup 2 [97; 98]].

Lemma demo_results : (ufs_calls [] demo_calls demo_mounted).1 = ([inr (Some 3%nat); inr None; inr None; inr None; inr None; inl (- ENOENT)], [3%nat]).
Proof. vm_compute. reflexivity. Qed.

Lemma ufs_calls_balanced_witness :
  let '(rs, vs, st') := ufs_calls [] demo_calls demo_mounted in
  (∀ v, refs st' v = refs demo_mounted v + occ v vs) ∧ pool_ok st' ∧
  mounts st' = mounts demo_mounted ∧ mount_count st' = mount_count demo_mounted ∧ scratch_free st' = scratch_free demo_mounted ∧
  Forall (λ v, (v < VFS_VNODE_MAX)%nat) vs ∧ length rs = length demo_calls ∧
  Forall (λ r, ∀ e, r = inl e → e < 0) rs.
Proof. pose proof (ufs_calls_balanced [] demo_calls demo_mounted demo_pool) as H. exact H. Defined.

(** ** A consistent state *)

(** After the file is created, in vnode 3, and 600 bytes are written from 100 on. *)
Definition demo_file : vfs_t ufs_t := (ufs_calls [] [CallCreate 2 [97; 98] 420; CallWrite 3 demo_page 0 600 100] demo_mounted).2.
Definition demo_u : ufs_t := fs_world demo_file.

Lemma demo_u_core : u_core demo_u = (core_alloc demo_core).2.
Proof. vm_compute. reflexivity. Qed.

Lemma demo_u_store : store_ok (u_core demo_u) ∧ page_in_use (u_core demo_u) demo_page.
Proof.
  rewrite demo_u_core. destruct demo_store as [H1 H2]. destruct (core_alloc demo_core) as [[rc q] c] eqn:E.
  destruct (store_alloc _ _ _ _ H1 E) as (A & _ & B). split; [done|]. cbn [snd]. destruct (rc <? 0); [by apply B|]. apply B. by left.
Qed.

Lemma demo_layout : layout_ok demo_u.
Proof. split; vm_compute; done. Qed.

(** The root and the file have a block each. *)
Definition demo_block (i : Z) : Z := if decide (i = 2) then 40 else if decide (i = 3) then 48 else 0.
Definition demo_direct (i : Z) : list Z := demo_block i :: replicate 11 0.
Lemma demo_trees : forallb (λ i, match tree demo_u (Z.of_nat i) with None => true | Some n => bool_decide (i_ib n = [0; 0; 0] ∧ i_direct n = demo_direct (Z.of_nat i)) end) (seq 0 16) = true.
Proof. vm_compute. reflexivity. Qed.

Lemma demo_tree i n : tree demo_u i = Some n → i_ib n = [0; 0; 0] ∧ i_direct n = demo_direct i.
Proof.
  intros H. pose proof (tree_Some _ _ _ _ H) as ([Hi Hc] & _). change (inode_count demo_u) with 16 in Hc.
  pose proof (proj1 (forallb_forall _ _) demo_trees (Z.to_nat i)) as Ht. rewrite in_seq, Z2Nat.id, H in Ht by lia.
  eapply bool_decide_eq_true_1, Ht. lia.
Qed.

Lemma demo_slot i n a : tree demo_u i = Some n → slot_ok a → slot_block (secs demo_u) n a = if decide (a = Data 0) then demo_block i else 0.
Proof.
  intros [E1 E2]%demo_tree Ha. assert (∀ k, (k < 3)%nat → ib n k = 0) as Hib.
  { intros k Hk. unfold ib. rewrite E1. by do 3 (destruct k as [|k]; [done|]); lia. }
  destruct a as [l| | |k]; cbn.
  2,3: rewrite Hib by lia; by rewrite decide_False by naive_solver.
  2: rewrite Hib, (decide_True (P := 0 = 0)) by lia; by rewrite decide_False by naive_solver.
  unfold bmap, direct. rewrite !Hib by lia. rewrite E2. cbn in Ha. destruct (decide (l < 12)) as [Hd|Hd].
  - unfold demo_direct. destruct (decide (l = 0)) as [->|Hl]; [by rewrite decide_True|]. rewrite decide_False by (intros [= E]; lia).
    replace (Z.to_nat l) with (S (Z.to_nat (l - 1))) by lia. apply lookup_total_replicate_2. lia.
  - destruct (decide (Data l = _)) as [[= E]|_]; [lia|]. by repeat case_decide.
Qed.

Lemma demo_block_ok i : demo_block i ≠ 0 → allocated demo_u (secs demo_u) (demo_block i).
Proof.
  unfold demo_block. repeat case_decide; [|..|done]; intros _; [exists 0|exists 1]; (split; [vm_compute; done|split; [by vm_compute|vm_compute; done]]).
Qed.

Lemma demo_u_ok : ufs_ok demo_u.
Proof.
  split; [done|vm_compute; done|apply demo_layout| |apply demo_u_store]. split.
  - intros i n (_ & _ & _ & ->)%tree_Some. apply decode_wf.
  - intros i n a Hi Ha. rewrite (demo_slot i n a) by done. case_decide; [apply demo_block_ok|done].
  - intros i j n m a b Hi Hj Ha Hb. rewrite (demo_slot i n a), (demo_slot j m b) by done.
    clear. unfold demo_block. repeat case_decide; naive_solver lia.
Qed.

(** Unification is not to evaluate the state. *)
#[local] Opaque demo_file.

(** A range of the caller's page and one of the file. *)
Lemma demo_call off : 0 <= off < 5000 → ∃ n, file_call (fs_world demo_file) demo_file 3 n demo_page 0 600 off.
Proof.
  intros Ho. change (fs_world demo_file) with demo_u. eexists. split; [apply demo_u_ok| |vm_compute; done|vm_compute; done|apply demo_u_store|unfold PAGE_SIZE; lia|unfold POS_MAX; lia|vm_compute; lia].
  vm_compute. reflexivity.
Qed.

Lemma demo_ino : vn_ino (vnode demo_file 3) = 3.
Proof. vm_compute. reflexivity. Qed.

(** 600 bytes over the end of the first block. *)
Lemma ufs_write_correct_witness : let p := ufs_write 3 demo_page 0 600 4000 demo_file in let u' := fs_world p.2 in p.1 = inr 600 ∧
  (∀ x, 0 <= x < POS_MAX → content u' 3 x = if decide (4000 <= x < 4600) then user_at demo_u demo_page (0 + (x - 4000)) else content demo_u 3 x) ∧
  ufs_ok u'.
Proof.
  intros p u'. assert (p.1 = inr 600) as E by (vm_compute; reflexivity). split; [exact E|].
  destruct (demo_call 4000 ltac:(lia)) as [n Hn]. pose proof (ufs_write_correct 3 demo_page 0 600 4000 demo_file n 600 p.2 Hn) as H.
  destruct H as [_ H]; [rewrite <-E; apply surjective_pairing|]. destruct (H eq_refl) as (H1 & _ & _ & H4). rewrite demo_ino in H1. split; [exact H1|].
  destruct H4 as [H4|H4]; [exact H4|]. exfalso. assert (writes_refused (u_disk u') = 0%nat) as E0 by (vm_compute; reflexivity).
  unfold write_failed in H4. fold u' in H4. rewrite E0 in H4. exact (Nat.nlt_0_r _ H4).
Defined.

Lemma ufs_read_correct_witness : let p := ufs_read 3 demo_page 0 600 50 demo_file in let u' := fs_world p.2 in p.1 = inr 600 ∧
  copied (u_core demo_u) (u_core u') demo_page 0 600 (λ x, content demo_u 3 (50 + x)).
Proof.
  intros p u'. assert (p.1 = inr 600) as E by (vm_compute; reflexivity). split; [exact E|].
  destruct (demo_call 50 ltac:(lia)) as [n Hn]. pose proof (ufs_read_correct 3 demo_page 0 600 50 demo_file n (inr 600) p.2 Hn) as H.
  destruct H as (_ & _ & _ & H & _); [rewrite <-E; apply surjective_pairing|]. rewrite demo_ino in H. exact H.
Defined.

#[local] Opaque demo_u.

Definition demo_root : ufs_inode_t := inode_at demo_u (secs demo_u) 2.
Definition demo_wrote : ufs_t := (ufs_write_inode 2 (set_i_nlink 3 demo_root) demo_u).2.

(** Equality of a run from its result. *)
Lemma run_eq {A} (p : (Z + A) * ufs_t) x : p.1 = inr x → p = (inr x, p.2).
Proof. intros <-. apply surjective_pairing. Qed.

Lemma demo_count i : 0 <= i < 16 → 0 <= i < inode_count demo_u.
Proof. by replace (inode_count demo_u) with 16 by (vm_compute; reflexivity). Qed.
Lemma demo_root_wf : inode_wf (set_i_nlink 3 demo_root).
Proof. apply inode_wf_nlink, decode_wf. Qed.

(** Inode 3 is in the sector of the root's. *)
Definition demo_inode : ufs_inode_t := inode_at demo_u (secs demo_u) 3.
Lemma ufs_inode_roundtrip_witness : let p := ufs_read_inode 3 demo_wrote in let q := ufs_read_inode 2 demo_wrote in
  p.1 = inr demo_inode ∧ q.1 = inr (set_i_nlink 3 demo_root) ∧ ∀ t, t < 33 ∨ 40 <= t → sector (u_disk p.2) t = sector (u_disk demo_u) t.
Proof.
  intros p q. assert (p.1 = inr demo_inode) as E2 by (vm_compute; reflexivity). split; [exact E2|].
  assert (q.1 = inr (set_i_nlink 3 demo_root)) as E3 by (vm_compute; reflexivity). split; [exact E3|].
  assert ((ufs_read_inode 3 demo_u).1 = inr demo_inode) as E0 by (vm_compute; reflexivity).
  assert ((ufs_write_inode 2 (set_i_nlink 3 demo_root) demo_u).1 = inr ()) as E1 by (vm_compute; reflexivity).
  destruct (ufs_inode_roundtrip demo_u (secs demo_u) demo_u 2 3 _ _ _ _ _ _ demo_layout (ok_on _ demo_u_ok) (demo_count 2 ltac:(lia)) (demo_count 3 ltac:(lia)) demo_root_wf (run_eq _ _ E1) (run_eq _ _ E2) (run_eq _ _ E0)) as [_ H].
  exact H.
Defined.

(** The block of the file, seen from the root alone, goes to place 5000, which
    takes two tables. *)
Definition demo_only (j : Z) : option ufs_inode_t := if decide (j = 2) then tree demo_u 2 else None.
Lemma demo_only_Some j m : demo_only j = Some m → j = 2 ∧ tree demo_u 2 = Some m.
Proof. unfold demo_only. case_decide as E; [intros H; split; [exact E|exact H]|discriminate]. Qed.

Definition demo_set : ufs_t := (ufs_block_set demo_root 5000 48 demo_u).2.

Lemma ufs_block_map_is_array_witness : let n' := set_ib 1 56 demo_root in
  (ufs_block_set demo_root 5000 48 demo_u).1 = inr n' ∧ (ufs_block_map n' 5000 demo_set).1 = inr 48 ∧ (ufs_block_map n' 0 demo_set).1 = inr 40.
Proof.
  intros n'. assert ((ufs_block_set demo_root 5000 48 demo_u).1 = inr n') as E1 by (vm_compute; reflexivity). split; [exact E1|].
  assert (tree demo_u 2 = Some demo_root) as E2 by (vm_compute; reflexivity).
  pose proof demo_u_ok as [_ _ _ [B1 B2 B3] _]. assert (blocks_ok demo_u (secs demo_u) demo_only) as Hok.
  { split; [intros i n [-> H]%demo_only_Some; by apply (B1 2)|intros i n a [-> H]%demo_only_Some; by apply (B2 2)|].
    intros i j n m a b [-> H1]%demo_only_Some [-> H2]%demo_only_Some. by apply (B3 2 2). }
  assert (fresh demo_u (secs demo_u) demo_only 48) as Hf.
  { split; [apply (demo_block_ok 3); done|]. intros i n a [-> H]%demo_only_Some Ha. rewrite (demo_slot 2 n a) by done. by case_decide. }
  destruct (ufs_block_map_is_array demo_u (secs demo_u) demo_only 2 demo_root demo_u 5000 48 _ _ demo_layout (ok_on _ demo_u_ok) Hok E2 Hf ltac:(lia) (run_eq _ _ E1))
    as (_ & _ & _ & H).
  assert (∀ l b, (ufs_block_map n' l demo_set).1 = inr b → maps n' l b demo_set) as Hm by (intros l b E; exists (ufs_block_map n' l demo_set).2; exact (run_eq _ _ E)).
  assert (∀ l b, (ufs_block_map demo_root l demo_u).1 = inr b → maps demo_root l b demo_u) as Hm0
    by (intros l b E; exists (ufs_block_map demo_root l demo_u).2; exact (run_eq _ _ E)).
  split.
  - destruct (H 5000 0 48 ltac:(lia)) as [_ _]; [apply Hm0; vm_compute; reflexivity|apply Hm; vm_compute; reflexivity|]. vm_compute. reflexivity.
  - destruct (H 0 40 40 ltac:(lia)) as [_ _]; [apply Hm0; vm_compute; reflexivity|apply Hm; vm_compute; reflexivity|]. vm_compute. reflexivity.
Defined.
