(* ===== verification/Vfat.v ===== *)
(** * Vfat: the FAT32 driver below its operations (src/kernel/vfs/vfat_format.h,
    vfat.c)

    The superblock with its cache of one FAT sector, the FAT entries, cluster
    allocation, and the short and long names of directory entries.  FAT words
    are read byte by byte; the fields of packed structures are in the byte order
    of the processor.  Errors are negative as in the code; two positive codes
    stand for what has no result there: [HANGS] for a loop that does not end
    with the fuel, [STRAYS] for a store outside an array. *)

From S2P Require Import Prelude Config ErrState PagePool Path Vfs Driver ModCore Tmpfs BlkDev SectorDev.

#[local] Open Scope c_scope.

(** ** vfat_format.h *)

Definition FAT_ATTR_VOLUME_ID : Z := 0x08.
Definition FAT_ATTR_DIRECTORY : Z := 0x10.
Definition FAT_ATTR_ARCHIVE : Z := 0x20.
Definition FAT_ATTR_LONG_NAME : Z := 0x0F.
Definition FAT_DIRENT_FREE : Z := 0xE5.
Definition FAT_DIRENT_END : Z := 0x00.
Definition FAT_LFN_CHARS_PER_ENTRY : Z := 13.
Definition FAT_LFN_LAST_ENTRY : Z := 0x40.
Definition FAT_FREE : Z := 0.
Definition FAT_MASK : Z := 0x0FFFFFFF.
(** No sector is in the cache. *)
Definition NO_SECTOR : Z := 0xFFFFFFFF.

Definition FAT_EOC (v : Z) : bool := Z.land v 0x0FFFFFF8 =? 0x0FFFFFF8.
(** [while (cluster >= 2 && !FAT_EOC(cluster))] *)
Definition live (c : Z) : bool := (2 <=? c) && negb (FAT_EOC c).

Definition HANGS : Z := 1.
Definition STRAYS : Z := 2.

(** [LE32(&buf[off])] and the four stores of [fat_set] *)
Definition le32 (off : nat) (buf : list Z) : Z := le_word (take 4 (drop off buf)).
Definition put_le32 (off : nat) (v : Z) (buf : list Z) : list Z := put_bytes off (le_bytes 4 v) buf.

(** ** Characters *)

(** [if (c >= 'A' && c <= 'Z') c += 32] and back *)
Definition lower (c : Z) : Z := if (65 <=? c) && (c <=? 90) then c + 32 else c.
Definition upper (c : Z) : Z := if (97 <=? c) && (c <=? 122) then c - 32 else c.
Definition BLANK : Z := 32.
Definition UNDERSCORE : Z := 95.

(** A C string without its NUL ends with the list. *)
Fixpoint str_eq_ci (a b : name) : bool :=
  match a, b with
  | [], [] => true
  | x :: a, y :: b => if lower x =? lower y then str_eq_ci a b else false
  | _, _ => false
  end.

(** The string in an array of characters. *)
Fixpoint c_string (a : list Z) : name :=
  match a with
  | [] => []
  | c :: a => if c =? NUL then [] else c :: c_string a
  end.

(** ** Short names *)

(** [for (i; i < end; i++) if (name[i] == ' ') break; else out = lower(...)] *)
Fixpoint sfn_part (cs : list Z) : name :=
  match cs with
  | [] => []
  | c :: cs => if c =? BLANK then [] else lower c :: sfn_part cs
  end.
Definition sfn_text (sfn : list Z) : list Z :=
  let base := sfn_part (take 8 sfn) in
  if sfn !!! 8%nat =? BLANK then base else base ++ DOT :: sfn_part (take 3 (drop 8 sfn)).
(** The string in [out], which ends at the first NUL. *)
Definition sfn_decode (sfn : list Z) : name := c_string (sfn_text sfn).

(** The index of the last dot. *)
Fixpoint last_dot (nm : name) : option nat :=
  match nm with
  | [] => None
  | c :: nm =>
      match last_dot nm with
      | Some i => Some (S i)
      | None => if c =? DOT then Some O else None
      end
  end.
Definition sfn_char (c : Z) : Z :=
  let c := upper c in if (c =? BLANK) || (c =? DOT) then UNDERSCORE else c.
Definition blanks (n : nat) : list Z := replicate n BLANK.
Definition pad (n : nat) (cs : list Z) : list Z := take n (cs ++ blanks n).

(** The characters are stored into 11 blanks. *)
Definition sfn_generate (nm : name) : list Z :=
  let dot := last_dot nm in
  let ext := match dot with Some i => upper <$> take 3 (drop (S i) nm) | None => [] end in
  let baselen := match dot with Some i => i | None => length nm end in
  let base := if (baselen <=? 8)%nat then sfn_char <$> take baselen nm else (sfn_char <$> take 6 nm) ++ [126; 49] in
  pad 8 base ++ pad 3 ext.

(** ** Long names *)

(** The locals of a walk over entries: [lfn_name], [lfn_len], [collecting_lfn]. *)
Record lfn_t := Lfn { lfn_name : list Z; lfn_len : Z; collecting_lfn : bool }.
Definition LFN_SIZE : nat := VFS_NAME_MAX + 1.

Section Fat.
Context {cfg : PageConfig} {ps : PageStore} {sd : SectorDev} {bo : ByteOrder}.

(** [fat_dirent_t] at [off] of a sector. *)
Definition de_name (off : nat) (b : list Z) : list Z := take 11 (drop off b).
Definition de_first (off : nat) (b : list Z) : Z := b !!! off.
Definition de_attr (off : nat) (b : list Z) : Z := b !!! (off + 11)%nat.
Definition file_size (off : nat) (b : list Z) : Z := get_word 4 (off + 28) b.
Definition DIRENT_CLUSTER (off : nat) (b : list Z) : Z :=
  Z.lor (get_word 2 (off + 26) b) (get_word 2 (off + 20) b ≪ 16).
Definition put_cluster (off : nat) (c : Z) (b : list Z) : list Z :=
  put_word 2 (off + 26) (Z.land c 0xFFFF) (put_word 2 (off + 20) (c ≫ 16) b).

(** [fat_lfn_entry_t]: the 13 characters. *)
Definition lfn_chars (off : nat) (b : list Z) : list Z :=
  ((λ i, get_word 2 (off + 1 + 2 * i) b) <$> seq 0 5) ++ ((λ i, get_word 2 (off + 14 + 2 * i) b) <$> seq 0 6) ++
  ((λ i, get_word 2 (off + 28 + 2 * i) b) <$> seq 0 2).

(** The characters go to [name + pos]; None where one is before the array. *)
Fixpoint lfn_extract (chars : list Z) (nm : list Z) (pos : Z) : option (list Z) :=
  match chars with
  | [] => Some nm
  | c :: chars =>
      if (c =? 0) || (c =? 0xFFFF) then Some nm
      else if pos <? Z.of_nat VFS_NAME_MAX then
        if pos <? 0 then None else lfn_extract chars (<[Z.to_nat pos := Z.land c 0x7F]> nm) (pos + 1)
      else lfn_extract chars nm (pos + 1)
  end.

Definition lfn_start (v : lfn_t) (order : Z) : lfn_t :=
  if bset order FAT_LFN_LAST_ENTRY then Lfn (replicate LFN_SIZE 0) 0 true else v.
Definition lfn_entry (off : nat) (b : list Z) (v : lfn_t) : option lfn_t :=
  let v := lfn_start v (de_first off b) in
  if collecting_lfn v then
    let pos := (Z.land (de_first off b) 0x3F - 1) * FAT_LFN_CHARS_PER_ENTRY in
    let end_ := pos + FAT_LFN_CHARS_PER_ENTRY in
    nm ← lfn_extract (lfn_chars off b) (lfn_name v) pos;
    Some (Lfn nm (if lfn_len v <? end_ then end_ else lfn_len v) true)
  else Some v.

(** [dname]; the NUL stored at its end is not seen again, as a new long name
    clears the array. *)
Definition display_name (off : nat) (b : list Z) (v : lfn_t) : name :=
  if collecting_lfn v && (0 <? lfn_len v) then
    let last := if lfn_len v <=? Z.of_nat VFS_NAME_MAX then Z.to_nat (lfn_len v) else VFS_NAME_MAX in
    c_string (<[last := NUL]> (lfn_name v))
  else sfn_decode (de_name off b).
Definition no_lfn (v : lfn_t) : lfn_t := Lfn (lfn_name v) (lfn_len v) false.

(** What an entry is to a walk; a long name's is read into the locals. *)
Inductive entry_t :=
| EntryEnd
| EntryStray
| EntrySkip (v : lfn_t)
| EntryShown (nm : name) (v : lfn_t).

Definition entry_at (off : nat) (b : list Z) (v : lfn_t) : entry_t :=
  if de_first off b =? FAT_DIRENT_END then EntryEnd
  else if de_first off b =? FAT_DIRENT_FREE then EntrySkip (no_lfn v)
  else if de_attr off b =? FAT_ATTR_LONG_NAME then
    match lfn_entry off b v with Some v => EntrySkip v | None => EntryStray end
  else if bset (de_attr off b) FAT_ATTR_VOLUME_ID then EntrySkip (no_lfn v)
  else EntryShown (display_name off b v) (no_lfn v).

(** ** The state *)

(** [vfat_sb] and [sector_buf]; [v_disk] is the device that [dev] points to. *)
Record vfat_t := VfatState {
  v_dev : Z;
  sectors_per_cluster : Z;
  bytes_per_cluster : Z;
  fat_start_sector : Z;
  fat_size : Z;
  num_fats : Z;
  data_start_sector : Z;
  root_cluster : Z;
  total_clusters : Z;
  fat_cache_sector : Z;
  fat_cache : list Z;
  fat_cache_dirty : bool;
  sector_buf : list Z;
  v_disk : disk;
  v_core : core
}.

Definition set_cache (sec : Z) (b : list Z) (d : bool) (s : vfat_t) := VfatState (v_dev s) (sectors_per_cluster s) (bytes_per_cluster s) (fat_start_sector s) (fat_size s) (num_fats s) (data_start_sector s) (root_cluster s) (total_clusters s) sec b d (sector_buf s) (v_disk s) (v_core s).
Definition set_vbuf (b : list Z) (s : vfat_t) := VfatState (v_dev s) (sectors_per_cluster s) (bytes_per_cluster s) (fat_start_sector s) (fat_size s) (num_fats s) (data_start_sector s) (root_cluster s) (total_clusters s) (fat_cache_sector s) (fat_cache s) (fat_cache_dirty s) b (v_disk s) (v_core s).
Definition set_vdisk (d : disk) (s : vfat_t) := VfatState (v_dev s) (sectors_per_cluster s) (bytes_per_cluster s) (fat_start_sector s) (fat_size s) (num_fats s) (data_start_sector s) (root_cluster s) (total_clusters s) (fat_cache_sector s) (fat_cache s) (fat_cache_dirty s) (sector_buf s) d (v_core s).
Definition set_vcore (c : core) (s : vfat_t) := VfatState (v_dev s) (sectors_per_cluster s) (bytes_per_cluster s) (fat_start_sector s) (fat_size s) (num_fats s) (data_start_sector s) (root_cluster s) (total_clusters s) (fat_cache_sector s) (fat_cache s) (fat_cache_dirty s) (sector_buf s) (v_disk s) c.

#[local] Abbreviation F := (prog vfat_t).

(** The status of [read_sector(sb, sector, sector_buf)]. *)
Definition read_status (sector : Z) : F Z := λ s,
  let '(rc, bs, d) := disk_read (u32 sector) (v_disk s) in (inr rc, set_vbuf bs (set_vdisk d s)).
(** [if (rc < 0) return rc;] *)
Definition checked (m : F Z) : F unit := rc ← m; if rc <? 0 then throw rc else mret ().
Definition read_sector (sector : Z) : F unit := checked (read_status sector).
Definition write_sector (sector : Z) : F unit := checked (λ s,
  let '(rc, d) := disk_write (u32 sector) (sector_buf s) (v_disk s) in (inr rc, set_vdisk d s)).
(** The same with [sb->fat_cache]. *)
Definition read_cache (sector : Z) : F unit := checked (λ s,
  let '(rc, bs, d) := disk_read (u32 sector) (v_disk s) in
  (inr rc, set_cache (fat_cache_sector s) bs (fat_cache_dirty s) (set_vdisk d s))).
Definition write_cache (sector : Z) : F unit := checked (λ s,
  let '(rc, d) := disk_write (u32 sector) (fat_cache s) (v_disk s) in (inr rc, set_vdisk d s)).

(** ** The FAT *)

Definition set_dirty (d : bool) (s : vfat_t) : vfat_t := set_cache (fat_cache_sector s) (fat_cache s) d s.

(** The cached sector to all FATs. *)
Definition flush_copies : F unit :=
  s ← gets id;
  for_each (Z.to_nat (num_fats s)) 0 (λ f, write_cache (fat_start_sector s + f * fat_size s + fat_cache_sector s));;
  modify (set_dirty false).

Definition fat_cache_load (fat_sector : Z) : F unit :=
  s ← gets id;
  if fat_cache_sector s =? fat_sector then mret ()
  else
    (if fat_cache_dirty s && negb (fat_cache_sector s =? NO_SECTOR) then flush_copies else mret ());;
    read_cache (fat_start_sector s + fat_sector);;
    modify (λ s, set_cache fat_sector (fat_cache s) (fat_cache_dirty s) s).

Definition fat_sector_of (cluster : Z) : Z := u32 (cluster * 4) / 512.
Definition fat_offset_of (cluster : Z) : nat := Z.to_nat (u32 (cluster * 4) mod 512).

Definition fat_get (cluster : Z) : F Z :=
  fat_cache_load (fat_sector_of cluster);;
  gets (λ s, Z.land (le32 (fat_offset_of cluster) (fat_cache s)) FAT_MASK).

Definition fat_set (cluster value : Z) : F unit :=
  fat_cache_load (fat_sector_of cluster);;
  modify (λ s,
    let old := le32 (fat_offset_of cluster) (fat_cache s) in
    let new_val := (old .& 0xF0000000) .| (value .& FAT_MASK) in
    set_cache (fat_cache_sector s) (put_le32 (fat_offset_of cluster) new_val (fat_cache s)) true s).

Definition fat_flush : F unit :=
  s ← gets id;
  if negb (fat_cache_dirty s) || (fat_cache_sector s =? NO_SECTOR) then mret () else flush_copies.

(** The first free cluster, marked as the end of a chain. *)
Definition try_cluster (c : Z) : F (option Z) :=
  val ← fat_get c;
  if val =? FAT_FREE then fat_set c FAT_MASK;; mret (Some c) else mret None.
Definition fat_alloc_cluster : F Z :=
  n ← gets total_clusters;
  r ← find_each (Z.to_nat (u32 (n + 2) - 2)) 2 try_cluster;
  match r with Some c => mret c | None => throw (- ENOSPC) end.

Fixpoint fat_free_chain (fuel : nat) (cluster : Z) : F unit :=
  match fuel with
  | O => throw HANGS
  | S fuel =>
      if live cluster then
        next ← fat_get cluster;
        fat_set cluster FAT_FREE;;
        fat_free_chain fuel next
      else mret ()
  end.

Definition cluster_to_sector (s : vfat_t) (c : Z) : Z := u32 (data_start_sector s + u32 (u32 (c - 2) * sectors_per_cluster s)).
End Fat.
