(* ===== verification/VfatOps.v ===== *)
(** * VfatOps: the operations of the FAT32 driver on vnodes (src/kernel/vfs/vfat.c)

    Mounting, lookup, reading and writing, listing, creation and removal, as
    programs on the vfs state whose driver world is [vfat_t].  The five loops over
    a directory are one, [walk], with what each does at an entry.  A result
    pointer is the program's result.  The wrappers with SPIN_FS add nothing to
    the atomic programs below. *)

From S2P Require Import Prelude Config ErrState PagePool Path Vfs Driver ModCore Tmpfs BlkDev SectorDev Vfat.

#[local] Open Scope c_scope.

(** [vn->fs_priv = &vfat_sb] *)
Definition VFAT_SB : Z := 1.

Definition DIRENT_POS_PACK (sec off : Z) : Z := u32 (u32 (sec ≪ 16) .| (off .& 0xFFFF)).
Definition DIRENT_POS_SEC (vn : vnode_t) : Z := vn_xip_addr vn ≫ 16.
Definition DIRENT_POS_OFF (vn : vnode_t) : Z := vn_xip_addr vn .& 0xFFFF.

(** The fields of [struct kernel_statfs] that are not constant. *)
Record fat_statfs_t := FatStatfs { ff_bsize : Z; ff_blocks : Z; ff_bfree : Z }.

Section Operations.
Context {cfg : PageConfig} {ps : PageStore} {sd : SectorDev} {bo : ByteOrder}.
(** The fuel of the loops that follow a chain of clusters. *)
Context (links : nat).
#[local] Abbreviation vfs := (vfs_t vfat_t).
#[local] Abbreviation F := (prog vfat_t).
#[local] Abbreviation V := (prog vfs).

(** ** Mounting *)

Definition bpb_word (n off : nat) (s : vfat_t) : Z := get_word n off (sector_buf s).
(** [data_start] *)
Definition bpb_data_start (s : vfat_t) : Z := u32 (bpb_word 2 14 s + u32 (bpb_word 1 16 s * bpb_word 4 36 s)).
Definition bpb_valid (s : vfat_t) : bool :=
  (bpb_word 2 11 s =? 512) && negb (bpb_word 1 13 s =? 0) && negb (bpb_word 1 16 s =? 0) && negb (bpb_word 2 14 s =? 0) &&
  negb (bpb_word 4 36 s =? 0) && (bpb_data_start s <? bpb_word 4 32 s).
Definition set_geometry (dev : Z) (s : vfat_t) : vfat_t :=
  VfatState dev (bpb_word 1 13 s) (bpb_word 1 13 s * 512) (bpb_word 2 14 s) (bpb_word 4 36 s) (bpb_word 1 16 s) (bpb_data_start s)
    (bpb_word 4 44 s) (u32 (bpb_word 4 32 s - bpb_data_start s) / bpb_word 1 13 s) NO_SECTOR (fat_cache s) false
    (sector_buf s) (v_disk s) (v_core s).

(** Accesses go to [dev] from here on. *)
Definition select_dev (dev : Z) : F bool := λ s,
  match disk_find dev (v_disk s) with Some d => (inr true, set_vdisk d s) | None => (inr false, s) end.
Definition read_bpb (dev : Z) : F unit :=
  read_sector 0;;
  ok ← gets bpb_valid;
  if negb ok then throw (- EINVAL) else modify (set_geometry dev).
(** The superblock is as before where the mount fails. *)
Definition mount_dev (dev : Z) : F unit :=
  ok ← select_dev dev;
  if negb ok then throw (- EINVAL)
  else
    r ← attempt (read_bpb dev);
    match r with
    | inl rc => old ← gets v_dev; select_dev old;; throw rc
    | inr _ => mret ()
    end.

(** [mod_vfs.vnode_alloc()], None for NULL *)
Definition new_vnode (f : vnode_t → vnode_t) : V (option nat) := λ st,
  match vfs_vnode_alloc st with
  | (None, st) => (inr None, st)
  | (Some v, st) => (inr (Some v), upd_vnode v f st)
  end.

Definition vfat_mount (mnt : nat) (dev_data : Z) : V unit :=
  lift (mount_dev dev_data);;
  c ← lift (gets root_cluster);
  root ← new_vnode (λ x, Vnode VNODE_DIR 0 (S_IFDIR .| 493) c (vn_refcnt x) VFAT_SB (Some mnt) (vn_xip_addr x));
  match root with
  | None => throw (- ENOMEM)
  | Some v => modify (upd_mount mnt (λ m, set_sb_priv VFAT_SB (set_root (Some v) m)))
  end.

(** ** Walking a directory *)

Section Walk.
(** What is done at an entry: the locals that the walk goes on with, or its end. *)
Context {A B : Type} (f : nat → list Z → A → A + B).

Fixpoint scan_sector (n off : nat) (b : list Z) (a : A) : A + nat * B :=
  match n with
  | O => inl a
  | S n =>
      match f off b a with
      | inl a => scan_sector n (off + 32) b a
      | inr r => inr (off, r)
      end
  end.

Fixpoint scan_cluster (n : nat) (s sec : Z) (a : A) : F (A + Z * nat * B) :=
  match n with
  | O => mret (inl a)
  | S n =>
      read_sector (u32 (sec + s));;
      b ← gets sector_buf;
      match scan_sector 16 0 b a with
      | inl a => scan_cluster n (s + 1) sec a
      | inr (off, r) => mret (inr (u32 (sec + s), off, r))
      end
  end.

(** The sector and the offset of the entry go with the end. *)
Fixpoint walk (fuel : nat) (cluster : Z) (a : A) : F (A + Z * nat * B) :=
  match fuel with
  | O => throw HANGS
  | S fuel =>
      if live cluster then
        s ← gets id;
        r ← scan_cluster (Z.to_nat (sectors_per_cluster s)) 0 (cluster_to_sector s cluster) a;
        match r with
        | inl a => next ← fat_get cluster; walk fuel next a
        | inr r => mret (inr r)
        end
      else mret (inl a)
  end.
End Walk.

(** The locals before the first entry; the array is not read before it is cleared. *)
Definition lfn_none : lfn_t := Lfn (replicate LFN_SIZE 0) 0 false.

(** ** Lookup *)

Inductive match_t := MatchEnd | MatchStray | MatchHere.

Definition match_entry (nm : name) (off : nat) (b : list Z) (v : lfn_t) : lfn_t + match_t :=
  match entry_at off b v with
  | EntryEnd => inr MatchEnd
  | EntryStray => inr MatchStray
  | EntrySkip v => inl v
  | EntryShown dname v => if str_eq_ci dname nm then inr MatchHere else inl v
  end.

(** The sector, which is in the buffer, and the offset of the entry. *)
Definition find_entry (cluster : Z) (nm : name) : F (Z * nat) :=
  r ← walk (match_entry nm) links cluster lfn_none;
  match r with
  | inr (sec, off, MatchHere) => mret (sec, off)
  | inr (_, _, MatchStray) => throw STRAYS
  | _ => throw (- ENOENT)
  end.

Definition vnode_of_entry (mnt : option nat) (sec : Z) (off : nat) (b : list Z) (x : vnode_t) : vnode_t :=
  let dir := bset (de_attr off b) FAT_ATTR_DIRECTORY in
  Vnode (if dir then VNODE_DIR else VNODE_FILE) (if dir then 0 else file_size off b)
    (if dir then S_IFDIR .| 493 else S_IFREG .| 420) (DIRENT_CLUSTER off b) (vn_refcnt x) VFAT_SB mnt
    (DIRENT_POS_PACK sec (Z.of_nat off)).

Definition vfat_lookup (dir : nat) (nm : name) : V nat :=
  dv ← vnode_of dir;
  p ← lift (find_entry (vn_ino dv) nm);
  b ← lift (gets sector_buf);
  vn ← new_vnode (vnode_of_entry (vn_mount dv) p.1 p.2 b);
  match vn with None => throw (- ENOMEM) | Some v => mret v end.

(** ** Reading *)

(** The cluster at the offset and what is left to skip in it; None at the end of
    the chain. *)
Fixpoint skip_clusters (fuel : nat) (cluster skip : Z) : F (option (Z * Z)) :=
  match fuel with
  | O => throw HANGS
  | S fuel =>
      bpc ← gets bytes_per_cluster;
      if bpc <=? skip then
        next ← fat_get cluster;
        if FAT_EOC next then mret None else skip_clusters fuel next (skip - bpc)
      else mret (Some (cluster, skip))
  end.

(** [start], [avail] *)
Definition chunk_start (s sec_off byte_off : Z) : Z := if s =? sec_off then byte_off else 0.
Definition chunk_len (start rem : Z) : Z := if rem <? 512 - start then rem else 512 - start.

(** [page_off] and [total] after the sectors of a cluster. *)
Fixpoint read_sectors (k : nat) (s sec_off byte_off sec_base page page_off n total : Z) : F (Z * Z) :=
  match k with
  | O => mret (page_off, total)
  | S k =>
      if total <? n then
        read_sector (u32 (sec_base + s));;
        let start := chunk_start s sec_off byte_off in
        let avail := chunk_len start (n - total) in
        modify (λ u, set_vcore (core_write page page_off (take (Z.to_nat avail) (drop (Z.to_nat start) (sector_buf u))) (v_core u)) u);;
        read_sectors k (s + 1) sec_off byte_off sec_base page (u16 (page_off + avail)) n (total + avail)
      else mret (page_off, total)
  end.

Fixpoint read_clusters (fuel : nat) (cluster skip page page_off n total : Z) : F Z :=
  match fuel with
  | O => throw HANGS
  | S fuel =>
      if (total <? n) && live cluster then
        u ← gets id;
        let sec_off := skip / 512 in
        p ← read_sectors (Z.to_nat (sectors_per_cluster u - sec_off)) sec_off sec_off (skip mod 512) (cluster_to_sector u cluster) page page_off n total;
        next ← fat_get cluster;
        read_clusters fuel next 0 page p.1 n p.2
      else mret total
  end.

Definition read_file (cluster page page_off n off : Z) : F Z :=
  r ← skip_clusters (S (Z.to_nat off)) cluster off;
  match r with
  | None => mret 0
  | Some (cluster, skip) => read_clusters (S (Z.to_nat n)) cluster skip page page_off n 0
  end.

Definition vfat_read (vn : nat) (page page_off n off : Z) : V Z :=
  v ← vnode_of vn;
  if bool_decide (vn_type v = VNODE_DIR) then throw (- EISDIR)
  else if vn_size v <=? off then mret 0
  else
    let n := if vn_size v <? u32 (off + n) then u32 (vn_size v - off) else n in
    total ← lift (read_file (vn_ino v) page page_off n off);
    mret (s32 total).

(** ** Writing *)

(** The entry of a file changed on disk, as far as the device lets it. *)
Definition update_entry (sec off : Z) (f : nat → list Z → list Z) : F unit :=
  if (0 <? sec) || (0 <? off) then
    rc ← read_status sec;
    if rc =? 0 then
      modify (λ s, set_vbuf (f (Z.to_nat off) (sector_buf s)) s);;
      ignore (write_sector sec)
    else mret ()
  else mret ().
Definition put_size (size : Z) (off : nat) (b : list Z) : list Z := put_word 4 (off + 28) size b.

(** The first cluster of the file, allocated when it has none. *)
Definition first_cluster (vn : nat) : V Z :=
  v ← vnode_of vn;
  if vn_ino v <? 2 then
    c ← lift fat_alloc_cluster;
    modify (upd_vnode vn (set_vn_ino c));;
    lift (update_entry (DIRENT_POS_SEC v) (DIRENT_POS_OFF v) (λ off, put_cluster off c));;
    mret c
  else mret (vn_ino v).

(** The cluster after [cluster], allocated where the chain ends. *)
Definition next_or_new (cluster : Z) : F Z :=
  next ← fat_get cluster;
  if FAT_EOC next then
    c ← fat_alloc_cluster;
    fat_set cluster c;;
    mret c
  else mret next.

(** [cluster], [prev_cluster] and [skip_bytes] *)
Fixpoint seek_cluster (fuel : nat) (cluster prev skip : Z) : F (Z * Z * Z) :=
  match fuel with
  | O => throw HANGS
  | S fuel =>
      bpc ← gets bytes_per_cluster;
      if bpc <=? skip then
        next ← next_or_new cluster;
        seek_cluster fuel next cluster (skip - bpc)
      else mret (cluster, prev, skip)
  end.

Definition write_chunk (sec start page page_off avail : Z) : F unit :=
  (if negb (start =? 0) || negb (avail =? 512) then read_sector sec else mret ());;
  modify (λ u, set_vbuf (put_bytes (Z.to_nat start) (core_read page page_off (Z.to_nat avail) (v_core u)) (sector_buf u)) u);;
  write_sector sec.

(** [page_off] and [total], with false where the function returns [total]. *)
Fixpoint write_sectors (k : nat) (s sec_off byte_off sec_base page page_off n total : Z) : F (bool * Z * Z) :=
  match k with
  | O => mret (true, page_off, total)
  | S k =>
      if total <? n then
        let start := chunk_start s sec_off byte_off in
        let avail := chunk_len start (n - total) in
        r ← attempt (write_chunk (u32 (sec_base + s)) start page page_off avail);
        match r with
        | inl rc => if 0 <? total then mret (false, page_off, total) else throw rc
        | inr _ => write_sectors k (s + 1) sec_off byte_off sec_base page (u16 (page_off + avail)) n (total + avail)
        end
      else mret (true, page_off, total)
  end.

(** A new cluster behind [prev]. *)
Definition extend_chain (prev : Z) : F Z :=
  c ← fat_alloc_cluster;
  (if 2 <=? prev then fat_set prev c else mret ());;
  mret c.

(** [total], with false where the function returns it. *)
Fixpoint write_clusters (fuel : nat) (cluster prev skip page page_off n total : Z) : F (bool * Z) :=
  match fuel with
  | O => throw HANGS
  | S fuel =>
      if total <? n then
        r ← (if (cluster <? 2) || FAT_EOC cluster then attempt (c ← extend_chain prev; mret (c, 0)) else mret (inr (cluster, skip)));
        match r with
        | inl _ => mret (true, total)
        | inr (cluster, skip) =>
            u ← gets id;
            let sec_off := skip / 512 in
            p ← write_sectors (Z.to_nat (sectors_per_cluster u - sec_off)) sec_off sec_off (skip mod 512) (cluster_to_sector u cluster) page page_off n total;
            let '(go, page_off, total) := (p : bool * Z * Z) in
            if negb go then mret (false, total)
            else
              r ← attempt (fat_get cluster);
              match r with
              | inl _ => mret (true, total)
              | inr next => write_clusters fuel next cluster 0 page page_off n total
              end
        end
      else mret (true, total)
  end.

Definition write_file (cluster page page_off n off : Z) : F (bool * Z) :=
  p ← seek_cluster (S (Z.to_nat off)) cluster 0 off;
  let '(cluster, prev, skip) := (p : Z * Z * Z) in
  write_clusters (S (Z.to_nat n)) cluster prev skip page page_off n 0.

Definition vfat_write (vn : nat) (page page_off n off : Z) : V Z :=
  v ← vnode_of vn;
  if bool_decide (vn_type v = VNODE_DIR) then throw (- EISDIR)
  else
    cluster ← first_cluster vn;
    r ← lift (write_file cluster page page_off n off);
    let '(go, total) := (r : bool * Z) in
    if negb go then mret (s32 total)
    else
      let end_ := u32 (off + total) in
      (if vn_size v <? end_ then
         modify (upd_vnode vn (set_vn_size end_));;
         lift (update_entry (DIRENT_POS_SEC v) (DIRENT_POS_OFF v) (put_size end_))
       else mret ());;
      lift (ignore fat_flush);;
      mret (s32 total).

(** ** Listing *)

(** The entries so far in reverse, [entry_idx], and the locals of long names. *)
Record flisting := Flisting { fl_entries : list dirent; fl_idx : Z; fl_lfn : lfn_t }.

Definition dot_entry (off : nat) (b : list Z) : bool :=
  (de_first off b =? DOT) && ((b !!! (off + 1)%nat =? BLANK) || (b !!! (off + 1)%nat =? DOT)).

(** None for a store outside the array. *)
Definition list_entry (max : nat) (target : Z) (off : nat) (b : list Z) (l : flisting) : flisting + option flisting :=
  match entry_at off b (fl_lfn l) with
  | EntryEnd => inr (Some l)
  | EntryStray => inr None
  | EntrySkip v => inl (Flisting (fl_entries l) (fl_idx l) v)
  | EntryShown dname v =>
      if dot_entry off b || (fl_idx l <? target) then inl (Flisting (fl_entries l) (u32 (fl_idx l + 1)) v)
      else if (max <=? length (fl_entries l))%nat then inr (Some l)
      else
        let t := if bset (de_attr off b) FAT_ATTR_DIRECTORY then DT_DIR else DT_REG in
        inl (Flisting (Dirent (DIRENT_CLUSTER off b) t (take VFS_NAME_MAX dname) :: fl_entries l) (u32 (fl_idx l + 1)) v)
  end.

(** The entries and the new [*cookie]. *)
Definition vfat_readdir (dir max_entries : nat) (cookie : Z) : V (list dirent * Z) :=
  dv ← vnode_of dir;
  r ← lift (walk (list_entry max_entries cookie) links (vn_ino dv) (Flisting [] 0 lfn_none));
  match r with
  | inr (_, _, None) => throw STRAYS
  | inr (_, _, Some l) | inl l => mret (rev (fl_entries l), fl_idx l)
  end.

Definition vfat_stat (vn : vnode_t) : stat_t := Stat (vn_ino vn) (vn_mode vn) 1 (vn_size vn) 0 0 0.

(** ** Creation *)

Definition free_slot (off : nat) (b : list Z) (a : unit) : unit + unit :=
  if (de_first off b =? FAT_DIRENT_END) || (de_first off b =? FAT_DIRENT_FREE) then inr () else inl ().

(** 32 zeros, then the fields. *)
Definition put_entry (off : nat) (sfn : list Z) (attr cluster : Z) (b : list Z) : list Z :=
  put_cluster off cluster (<[(off + 11)%nat := attr]> (put_bytes off sfn (put_bytes off (replicate 32 0) b))).

(** An entry in the first free slot of the directory. *)
Definition add_entry (dir_cluster : Z) (nm : name) (attr cluster : Z) : F (Z * nat) :=
  r ← walk free_slot links dir_cluster ();
  match r with
  | inl _ => throw (- ENOSPC)
  | inr (sec, off, _) =>
      modify (λ s, set_vbuf (put_entry off (sfn_generate nm) attr cluster (sector_buf s)) s);;
      write_sector sec;;
      ignore fat_flush;;
      mret (sec, off)
  end.

Definition vfat_create (dir : nat) (nm : name) (mode : Z) : V nat :=
  dv ← vnode_of dir;
  c ← lift fat_alloc_cluster;
  p ← lift (add_entry (vn_ino dv) nm FAT_ATTR_ARCHIVE c);
  vn ← new_vnode (λ x, Vnode VNODE_FILE 0 (S_IFREG .| 420) c (vn_refcnt x) VFAT_SB (vn_mount dv) (DIRENT_POS_PACK p.1 (Z.of_nat p.2)));
  match vn with None => throw (- ENOMEM) | Some v => mret v end.

Definition dot_name : list Z := DOT :: blanks 10.
Definition dotdot_name : list Z := DOT :: DOT :: blanks 9.
Definition dir_entry (off : nat) (nm : list Z) (cluster : Z) (b : list Z) : list Z :=
  put_cluster off cluster (<[(off + 11)%nat := FAT_ATTR_DIRECTORY]> (put_bytes off nm b)).

Definition clear_sector : F unit := modify (set_vbuf (replicate SECTOR 0)).

(** The sectors of a new directory with its entries "." and "..". *)
Definition init_dir (new_cluster dir_cluster : Z) : F unit :=
  clear_sector;;
  modify (λ s, set_vbuf (dir_entry 32 dotdot_name dir_cluster (dir_entry 0 dot_name new_cluster (sector_buf s))) s);;
  u ← gets id;
  let sec := cluster_to_sector u new_cluster in
  write_sector sec;;
  if 1 <? sectors_per_cluster u then
    clear_sector;;
    for_each (Z.to_nat (sectors_per_cluster u - 1)) 1 (λ s, write_sector (u32 (sec + s)))
  else mret ().

Definition vfat_mkdir (dir : nat) (nm : name) (mode : Z) : V unit :=
  dv ← vnode_of dir;
  c ← lift fat_alloc_cluster;
  lift (init_dir c (vn_ino dv));;
  lift (add_entry (vn_ino dv) nm FAT_ATTR_DIRECTORY c);;
  mret ().

(** ** Removal *)

Definition vfat_unlink (dir : nat) (nm : name) : V unit :=
  dv ← vnode_of dir;
  lift (
    p ← find_entry (vn_ino dv) nm;
    let '(sec, off) := (p : Z * nat) in
    b ← gets sector_buf;
    if bset (de_attr off b) FAT_ATTR_DIRECTORY then throw (- EISDIR)
    else
      (if 2 <=? DIRENT_CLUSTER off b then fat_free_chain links (DIRENT_CLUSTER off b) else mret ());;
      modify (λ s, set_vbuf (<[off := FAT_DIRENT_FREE]> (sector_buf s)) s);;
      write_sector sec;;
      ignore fat_flush).

(** ** Statistics *)

(** [if (rc < 0) break;] *)
Fixpoint count_free (n : nat) (c free : Z) : F Z :=
  match n with
  | O => mret free
  | S n =>
      r ← attempt (fat_get c);
      match r with
      | inl _ => mret free
      | inr val => count_free n (c + 1) (if val =? FAT_FREE then free + 1 else free)
      end
  end.

Definition vfat_statfs (mnt : nat) : V fat_statfs_t :=
  m ← gets (λ st, mount_at st mnt);
  if mnt_sb_priv m =? 0 then throw (- EINVAL)
  else lift (
    s ← gets id;
    free ← count_free (Z.to_nat (u32 (total_clusters s + 2) - 2)) 2 0;
    mret (FatStatfs (bytes_per_cluster s) (total_clusters s) free)).
End Operations.
