(* ===== verification/VfatFat.v ===== *)
(** * VfatFat: the FAT behind its cache (src/kernel/vfs/vfat.c)

    The volume as the driver sees it: the sectors of the device, with the cached
    FAT sector in place of the one on disk.  The functions on the FAT are
    described by the entries of that volume; where the cached sector lies, and
    what has reached the disk, does not show. *)

From Stdlib Require Import FunctionalExtensionality.
From stdpp Require Import functions.
From S2P Require Import Prelude Bits Config ErrState PagePool Path Vfs Driver ModCore Tmpfs BlkDev BlkDevFacts SectorDev Vfat.

#[local] Open Scope c_scope.

Abbreviation volume := (Z → list Z).

Ltac fat_consts := unfold SECTOR, BLKDEV_SECTOR_SIZE, SECTOR_LIMIT, FAT_MASK, NO_SECTOR in *; change (Z.to_nat 512) with 512%nat in *; change (Z.of_nat 512) with 512 in *.
Ltac fat := fat_consts; Z.to_euclidean_division_equations; lia.

(** ** Words of a FAT sector *)

Lemma u32_land z : u32 z = z .& 0xFFFFFFFF.
Proof. unfold uN. symmetry. exact (Z.land_ones z 32 ltac:(lia)). Qed.

(** The new value of an entry keeps the four bits above it. *)
Definition merged (old v : Z) : Z := (old .& 0xF0000000) .| (v .& FAT_MASK).

Lemma merged_mask old v : u32 (merged old v) .& FAT_MASK = v .& FAT_MASK.
Proof.
  unfold merged, FAT_MASK. rewrite u32_land, !Z.land_lor_distr_l, <-!Z.land_assoc. cbn [Z.land Pos.land Pos.Nsucc_double Pos.Ndouble Z.of_N].
  by rewrite Z.land_0_r.
Qed.

Lemma merged_high old v : u32 (merged old v) .& 0xF0000000 = old .& 0xF0000000.
Proof.
  unfold merged, FAT_MASK. rewrite u32_land, !Z.land_lor_distr_l, <-!Z.land_assoc. cbn [Z.land Pos.land Pos.Nsucc_double Pos.Ndouble Z.of_N].
  by rewrite Z.land_0_r, Z.lor_0_r.
Qed.

Lemma land_mask v : v .& FAT_MASK = v mod 2 ^ 28.
Proof. exact (Z.land_ones v 28 ltac:(lia)). Qed.

Lemma length_put_le32 off v b : length (put_le32 off v b) = length b.
Proof. apply length_put_bytes. Qed.

Lemma le32_put off v b : (off + 4 <= length b)%nat → le32 off (put_le32 off v b) = u32 v.
Proof. intros. unfold le32, put_le32. rewrite get_put_bytes by (rewrite ?length_le_bytes; lia). apply le_word_bytes. Qed.

Lemma le32_put_other off off' v b : (off + 4 <= off')%nat ∨ (off' + 4 <= off)%nat → le32 off (put_le32 off' v b) = le32 off b.
Proof. intros. unfold le32, put_le32. f_equal. apply take_drop_ext. intros i Hi. apply put_bytes_other. rewrite length_le_bytes. lia. Qed.

(** ** Lists *)

Lemma filter_fewer {A} (P Q : A → Prop) `{∀ x, Decision (P x), ∀ x, Decision (Q x)} l c :
  (∀ x, x ∈ l → Q x → P x) → c ∈ l → P c → ¬ Q c → (length (filter Q l) < length (filter P l))%nat.
Proof.
  intros HQP Hc HP HQ. assert (∀ l, (∀ x, x ∈ l → Q x → P x) → (length (filter Q l) <= length (filter P l))%nat) as Hle.
  { clear -A. intros l. induction l as [|x l IH]; intros HQP; [done|]. rewrite !filter_cons. specialize (IH ltac:(set_solver)).
    repeat case_decide; cbn; try lia. exfalso. by eauto using list_elem_of_here. }
  induction l as [|x l IH]; [set_solver|]. rewrite !filter_cons. apply elem_of_cons in Hc as [<-|Hc].
  - rewrite decide_False, decide_True by done. cbn. specialize (Hle l ltac:(set_solver)). lia.
  - specialize (IH ltac:(set_solver) Hc). repeat case_decide; cbn; try lia. exfalso. by eauto using list_elem_of_here.
Qed.

Section Fat.
Context {cfg : PageConfig} {ps : PageStore} {sd : SectorDev} {sdok : SectorDevOk} {sds : SectorDevServes} {bo : ByteOrder}.
(** Whether the device may fail: without, it serves every sector of the volume. *)
Context (may_fail : Prop).
Implicit Types (g s : vfat_t) (V : volume).

(** ** Volumes *)

(** The geometry of a volume: every cluster has its entry in the FAT and its
    sectors behind all FATs, and no cluster number is a mark. *)
Record vol_ok g : Prop := {
  vo_start : 0 <= fat_start_sector g;
  vo_copies : 0 < num_fats g;
  vo_data : fat_start_sector g + num_fats g * fat_size g <= data_start_sector g;
  vo_spc : 0 < sectors_per_cluster g;
  vo_bpc : bytes_per_cluster g = sectors_per_cluster g * 512;
  vo_total : 0 <= total_clusters g;
  vo_fat : total_clusters g + 2 <= fat_size g * 128;
  vo_limit : data_start_sector g + total_clusters g * sectors_per_cluster g <= SECTOR_LIMIT;
  vo_marks : total_clusters g + 2 <= 0x0FFFFFF8
}.

Definition cluster_ok g (c : Z) : Prop := 2 <= c < total_clusters g + 2.

Definition vol_end g : Z := data_start_sector g + total_clusters g * sectors_per_cluster g.
Definition data_sector g (t : Z) : Prop := data_start_sector g <= t < vol_end g.
(** Sectors but for the further copies of the FAT. *)
Definition visible g (t : Z) : Prop := 0 <= t < fat_start_sector g + fat_size g ∨ data_sector g t.

Definition cached s : Prop := fat_cache_sector s ≠ NO_SECTOR.
Definition view s (t : Z) : list Z :=
  if decide (cached s ∧ t = fat_start_sector s + fat_cache_sector s) then fat_cache s else sector (v_disk s) t.

Definition same_geometry g s : Prop :=
  sectors_per_cluster s = sectors_per_cluster g ∧ bytes_per_cluster s = bytes_per_cluster g ∧ fat_start_sector s = fat_start_sector g ∧
  fat_size s = fat_size g ∧ num_fats s = num_fats g ∧ data_start_sector s = data_start_sector g ∧ total_clusters s = total_clusters g ∧
  root_cluster s = root_cluster g ∧ v_dev s = v_dev g.

(** The driver in state [s] has the volume [V], of the geometry and with the
    memory services of [g], and [B] in its buffer. *)
Record holds g V (B : list Z) s : Prop := {
  h_disk : disk_ok (v_disk s);
  h_view t : visible g t → view s t = V t;
  h_cache : length (fat_cache s) = SECTOR;
  h_buf : sector_buf s = B;
  h_len : length B = SECTOR;
  h_geo : same_geometry g s;
  h_core : v_core s = v_core g;
  h_cached : cached s → 0 <= fat_cache_sector s < fat_size g;
  h_serves : may_fail ∨ ∀ t, 0 <= t < vol_end g → disk_serves (v_disk s) t;
  h_clean : fat_cache_dirty s = false → cached s → sector (v_disk s) (fat_start_sector s + fat_cache_sector s) = fat_cache s
}.

(** Entry [c] of the FAT. *)
Definition entry_word g V (c : Z) : Z := le32 (4 * Z.to_nat (c mod 128)) (V (fat_start_sector g + c / 128)).
Definition entry g V (c : Z) : Z := entry_word g V c .& FAT_MASK.
Definition set_entry g (c v : Z) V : volume :=
  let t := fat_start_sector g + c / 128 in
  <[t := put_le32 (4 * Z.to_nat (c mod 128)) (merged (entry_word g V c) v) (V t)]> V.

Lemma entry_range g V c : 0 <= entry g V c < 2 ^ 28.
Proof. unfold entry. rewrite land_mask. apply Z.mod_pos_bound. lia. Qed.

Lemma fat_sector_of_eq g c : vol_ok g → cluster_ok g c → fat_sector_of c = c / 128 ∧ fat_offset_of c = (4 * Z.to_nat (c mod 128))%nat ∧ 0 <= c / 128 < fat_size g.
Proof. intros [] Hc. unfold cluster_ok in Hc. unfold fat_sector_of, fat_offset_of. rewrite (uN_small 32) by lia. split_and!; fat. Qed.

Lemma set_entry_other g c v V t : t ≠ fat_start_sector g + c / 128 → set_entry g c v V t = V t.
Proof. intros. unfold set_entry. by rewrite fn_lookup_insert_ne. Qed.

Lemma set_entry_data g c v V t : vol_ok g → cluster_ok g c → data_start_sector g <= t → set_entry g c v V t = V t.
Proof. intros Hv Hc Ht. apply set_entry_other. pose proof (fat_sector_of_eq g c Hv Hc) as (_ & _ & H). destruct Hv. nia. Qed.

Lemma set_entry_length g c v V t : length (V t) = SECTOR → length (set_entry g c v V t) = SECTOR.
Proof.
  intros Hl. unfold set_entry. destruct (decide (t = fat_start_sector g + c / 128)) as [->|]; [|by rewrite fn_lookup_insert_ne].
  by rewrite fn_lookup_insert, length_put_le32.
Qed.

Lemma entry_set g c v V : length (V (fat_start_sector g + c / 128)) = SECTOR → entry g (set_entry g c v V) c = v .& FAT_MASK.
Proof.
  intros Hl. unfold entry, entry_word, set_entry. rewrite fn_lookup_insert, le32_put, merged_mask; [done|]. rewrite Hl. fat.
Qed.

Lemma entry_set_ne g c c' v V : c ≠ c' → entry g (set_entry g c v V) c' = entry g V c'.
Proof.
  intros Hne. unfold entry, entry_word, set_entry. destruct (decide (c' / 128 = c / 128)) as [E|E].
  - rewrite E, fn_lookup_insert, le32_put_other; [done|]. fat.
  - rewrite fn_lookup_insert_ne; [done|]. lia.
Qed.

(** ** Sectors *)

Lemma holds_length g V B s t : holds g V B s → visible g t → length (V t) = SECTOR.
Proof. intros H Ht. rewrite <-(h_view _ _ _ _ H t Ht). unfold view. case_decide; [apply H|apply sector_length]. Qed.

Lemma holds_core g V B s c : holds g V B s → holds (set_vcore c g) V B (set_vcore c s).
Proof. by intros []. Qed.

Lemma vol_ok_core g c : vol_ok g → vol_ok (set_vcore c g).
Proof. by intros []. Qed.

(** A data sector is not the cached one. *)
Lemma data_uncached g V B s t : vol_ok g → holds g V B s → data_sector g t → 0 <= t < SECTOR_LIMIT ∧ ¬ (cached s ∧ t = fat_start_sector s + fat_cache_sector s).
Proof.
  intros [] H [Ht1 Ht2]. unfold vol_end in Ht2. split; [nia|]. intros [Hc E]. pose proof (h_cached _ _ _ _ H Hc).
  destruct (h_geo _ _ _ _ H) as (_ & _ & Eg & _). rewrite Eg in E. nia.
Qed.
Lemma fat_visible g k : vol_ok g → 0 <= k < fat_size g → visible g (fat_start_sector g + k) ∧ 0 <= fat_start_sector g + k < vol_end g ∧ vol_end g <= SECTOR_LIMIT.
Proof. intros [] Hk. unfold visible, vol_end. split; [left; lia|]. nia. Qed.

Lemma wp_read_status g V B s t (Q : Z → vfat_t → Prop) E : vol_ok g → holds g V B s → data_sector g t →
  (∀ rc B' s', holds g V B' s' → (0 <= rc → B' = V t) → rc = 0 ∨ may_fail → Q rc s') → wp (read_status t) Q E s.
Proof.
  intros Hv H Ht HQ. destruct (data_uncached g V B s t Hv H Ht) as [Hl Hu]. unfold wp, read_status. rewrite (uN_small 32) by (unfold SECTOR_LIMIT in Hl; lia).
  destruct (disk_read t (v_disk s)) as [[rc bs] d] eqn:Er. destruct (disk_read_spec t _ _ _ _ (h_disk _ _ _ _ H) Hl Er) as (R1 & R2 & R3 & R4).
  destruct (serves_read t _ _ _ _ (h_disk _ _ _ _ H) Hl Er) as [S1 S2].
  apply (HQ rc bs).
  - destruct H as [A1 A2 A3 A4 A5 A6 A7 A8 A9 A10]. split; try done.
    + intros u Hu'. rewrite <-A2 by done. unfold view, cached. cbn. by rewrite R2.
    + destruct A9 as [?|A9]; [by left|right]. intros u Hu'. by apply S1, A9.
    + cbn. intros. rewrite R2. by apply A10.
  - intros Hrc. rewrite R4 by done. rewrite <-(h_view _ _ _ _ H t ltac:(by right)). unfold view. by rewrite decide_False.
  - destruct (h_serves _ _ _ _ H) as [?|Hs]; [by right|left]. apply S2, Hs. destruct Ht. destruct Hv. unfold vol_end in *. nia.
Qed.

Lemma wp_fat_read_sector g V B s t (Q : unit → vfat_t → Prop) (E : Z → vfat_t → Prop) : vol_ok g → holds g V B s → data_sector g t →
  (∀ s', holds g V (V t) s' → Q () s') → (∀ e B' s', e < 0 → may_fail → holds g V B' s' → E e s') → wp (read_sector t) Q E s.
Proof.
  intros Hv H Ht HQ HE. unfold read_sector, checked. apply wp_bind. apply (wp_read_status g V B); [done..|]. intros rc B' s' H' HB Hrc.
  destruct (Z.ltb_spec rc 0); [apply wp_throw; eapply HE; [done| |done]; lia || by destruct Hrc; [lia|]|].
  apply wp_ret, HQ. by rewrite <-HB by lia.
Qed.

(** What a failed write leaves in the sector is unknown. *)
Lemma wp_fat_write_sector g V B s t (Q : unit → vfat_t → Prop) (E : Z → vfat_t → Prop) : vol_ok g → holds g V B s → data_sector g t →
  (∀ s', holds g (<[t := B]> V) B s' → Q () s') → (∀ e b s', e < 0 → may_fail → holds g (<[t := b]> V) B s' → E e s') → wp (write_sector t) Q E s.
Proof.
  intros Hv H Ht HQ HE. destruct (data_uncached g V B s t Hv H Ht) as [Hl Hu]. unfold write_sector, checked. apply wp_bind. unfold wp at 1.
  rewrite (uN_small 32) by (unfold SECTOR_LIMIT in Hl; lia). rewrite (h_buf _ _ _ _ H). pose proof (h_len _ _ _ _ H) as HB.
  destruct (disk_write t B (v_disk s)) as [rc d] eqn:Ew. destruct (disk_write_spec t _ _ _ _ (h_disk _ _ _ _ H) Hl HB Ew) as (W1 & W2 & W3).
  destruct (serves_write t _ _ _ _ (h_disk _ _ _ _ H) Hl HB Ew) as [S1 S2].
  assert (∀ b, sector d t = b → holds g (<[t := b]> V) B (set_vdisk d s)) as Hh.
  { intros b Eb. destruct H as [A1 A2 A3 A4 A5 A6 A7 A8 A9 A10]. split; try done.
    - intros u Hu'. destruct (decide (u = t)) as [->|Hne].
      + rewrite fn_lookup_insert. unfold view. rewrite decide_False by done. done.
      + rewrite fn_lookup_insert_ne, <-A2 by done. unfold view, cached. cbn. by rewrite W2.
    - destruct A9 as [?|A9]; [by left|right]. intros u Hu'. by apply S1, A9.
    - cbn. intros Hd Hc. rewrite W2; [by apply A10|]. intros E'. apply Hu. by rewrite E'. }
  destruct (Z.ltb_spec rc 0).
  - apply wp_throw. eapply HE; [done| |by apply Hh]. destruct (h_serves _ _ _ _ H) as [?|Hs]; [done|]. exfalso.
    assert (rc = 0); [|lia]. apply S2, Hs. destruct Ht. destruct Hv. unfold vol_end in *. nia.
  - apply wp_ret, HQ, Hh, W3. lia.
Qed.

(** ** The cache *)

Lemma serves_vol g V B s t : holds g V B s → 0 <= t < vol_end g → may_fail ∨ disk_serves (v_disk s) t.
Proof. intros H Ht. destruct (h_serves _ _ _ _ H) as [?|Hs]; [by left|right]. by apply Hs. Qed.

(** Copy [f] of sector [k] of the FAT. *)
Definition copy_of g (f k : Z) : Z := fat_start_sector g + f * fat_size g + k.

Lemma copy_range g f k : vol_ok g → 0 <= f < num_fats g → 0 <= k < fat_size g → 0 <= copy_of g f k < data_start_sector g ∧ data_start_sector g <= vol_end g <= SECTOR_LIMIT.
Proof. intros [] Hf Hk. unfold copy_of, vol_end in *. nia. Qed.

Lemma copy_inj g f f' k : 0 <= k < fat_size g → copy_of g f k = copy_of g f' k → f = f'.
Proof. unfold copy_of. nia. Qed.

Lemma cached_sector_eq g V B s : holds g V B s → cached s → fat_start_sector s + fat_cache_sector s = copy_of g 0 (fat_cache_sector s).
Proof. intros H _. destruct (h_geo _ _ _ _ H) as (_ & _ & -> & _). unfold copy_of. lia. Qed.

Record flushing g V B s0 (j : Z) s : Prop := {
  fl_holds : holds g V B s;
  fl_same : fat_cache_sector s = fat_cache_sector s0 ∧ fat_cache s = fat_cache s0 ∧ fat_cache_dirty s = true;
  fl_done f : 0 <= f < j → sector (v_disk s) (copy_of g f (fat_cache_sector s0)) = fat_cache s0
}.

Lemma write_copy_holds g V B s f d : vol_ok g → holds g V B s → cached s → fat_cache_dirty s = true → 0 <= f < num_fats g →
  disk_ok d → (∀ t, t ≠ copy_of g f (fat_cache_sector s) → sector d t = sector (v_disk s) t) →
  (∀ t, disk_serves (v_disk s) t → disk_serves d t) → holds g V B (set_vdisk d s).
Proof.
  intros Hv H Hc Hd Hf Hok Ho Hs. pose proof (h_cached _ _ _ _ H Hc) as Hk. pose proof (copy_range g f _ Hv Hf Hk) as Hr.
  pose proof (cached_sector_eq _ _ _ _ H Hc) as Ec. destruct H as [A1 A2 A3 A4 A5 A6 A7 A8 A9 A10]. split; try done.
  - intros u Hu. rewrite <-A2 by done. unfold view, cached. cbn. case_decide as Hd'; [done|]. apply Ho. intros ->.
    apply Hd'. split; [done|]. rewrite Ec. f_equal. destruct Hu as [Hu|Hu]; [|unfold data_sector in Hu; lia]. destruct Hv. unfold copy_of in Hu. nia.
  - destruct A9 as [?|A9]; [by left|right]. intros u Hu. by apply Hs, A9.
  - cbn. by rewrite Hd.
Qed.

Lemma wp_write_copy g V B s0 s f : vol_ok g → same_geometry g s0 → cached s0 → 0 <= f < num_fats g → flushing g V B s0 f s →
  wp (write_cache (fat_start_sector s0 + f * fat_size s0 + fat_cache_sector s0)) (λ _, flushing g V B s0 (f + 1)) (λ e s', e < 0 ∧ may_fail ∧ holds g V B s') s.
Proof.
  intros Hv (_ & _ & G1 & G2 & _) Hc Hf [H (E1 & E2 & E3) Hdone]. rewrite G1, G2. change (fat_start_sector g + f * fat_size g + fat_cache_sector s0) with (copy_of g f (fat_cache_sector s0)).
  assert (cached s) as Hcs by (unfold cached; by rewrite E1). pose proof (h_cached _ _ _ _ H Hcs) as Hk. rewrite E1 in Hk.
  pose proof (copy_range g f _ Hv Hf Hk) as Hr. set (t := copy_of g f (fat_cache_sector s0)) in *.
  unfold write_cache, checked. apply wp_bind. unfold wp at 1. rewrite (uN_small 32) by (unfold SECTOR_LIMIT in Hr; lia).
  destruct (disk_write t (fat_cache s) (v_disk s)) as [rc d] eqn:Ew. pose proof (h_cache _ _ _ _ H) as HL.
  destruct (disk_write_spec t _ _ _ _ (h_disk _ _ _ _ H) ltac:(lia) HL Ew) as (W1 & W2 & W3).
  destruct (serves_write t _ _ _ _ (h_disk _ _ _ _ H) ltac:(lia) HL Ew) as [S1 S2].
  assert (holds g V B (set_vdisk d s)) as Hh by (eapply (write_copy_holds g V B s f); rewrite ?E1; done).
  destruct (Z.ltb_spec rc 0).
  - apply wp_throw. split; [done|]. split; [|done]. destruct (serves_vol _ _ _ _ t H ltac:(lia)) as [?|Hs]; [done|]. specialize (S2 Hs). lia.
  - apply wp_ret. split; [done|done|]. intros f' Hf'. cbn. destruct (decide (f' = f)) as [->|Hne].
    + rewrite <-E2. apply W3. done.
    + rewrite W2; [apply Hdone; lia|]. intros E. by apply Hne, (copy_inj g f' f (fat_cache_sector s0)).
Qed.

(** All copies of the cached sector are on disk. *)
Definition flushed g s : Prop := fat_cache_dirty s = false ∧ ∀ f, 0 <= f < num_fats g → sector (v_disk s) (copy_of g f (fat_cache_sector s)) = fat_cache s.

Lemma wp_flush_copies g V B s : vol_ok g → holds g V B s → cached s → fat_cache_dirty s = true →
  wp flush_copies (λ _ s', holds g V B s' ∧ flushed g s' ∧ fat_cache_sector s' = fat_cache_sector s) (λ e s', e < 0 ∧ may_fail ∧ holds g V B s') s.
Proof.
  intros Hv H Hc Hd. unfold flush_copies. apply wp_bind, wp_gets, wp_bind. cbn [id]. destruct (h_geo _ _ _ _ H) as (_ & _ & G3 & G4 & G5 & _).
  assert (Z.of_nat (Z.to_nat (num_fats s)) = num_fats g) as En by (rewrite G5; destruct Hv; lia).
  eapply wp_mono with (E := λ e s1, e < 0 ∧ may_fail ∧ holds g V B s1); [apply (wp_each (flushing g V B s)); [split; [exact H|split; done|intros; lia]|]| |done].
  - intros f s1 Hf Hi. rewrite En in Hf. apply wp_write_copy; try done. by apply (h_geo _ _ _ _ H).
  - intros [] s1. rewrite En, Z.add_0_l. intros [H1 (E1 & E2 & E3) Hdone]. apply wp_modify.
    assert (fat_cache_sector s1 = fat_cache_sector s ∧ sector (v_disk s1) (copy_of g 0 (fat_cache_sector s)) = fat_cache s1) as [_ Hz].
    { split; [done|]. rewrite E2. apply Hdone. destruct Hv; lia. }
    split.
    + pose proof (cached_sector_eq _ _ _ _ H1) as Ec. destruct H1 as [A1 A2 A3 A4 A5 A6 A7 A8 A9 A10]. split; try done.
      cbn. intros _ Hc1. rewrite Ec, E1 by done. done.
    + split; [|done]. split; [done|]. intros f Hf. cbn. rewrite E1, E2. by apply Hdone.
Qed.

(** After a load the sector is in the cache; the buffer and the volume stay. *)
Lemma wp_load g V B s k : vol_ok g → holds g V B s → 0 <= k < fat_size g →
  wp (fat_cache_load k) (λ _ s', holds g V B s' ∧ fat_cache_sector s' = k) (λ e _, e < 0 ∧ may_fail) s.
Proof.
  intros Hv H Hk. unfold fat_cache_load. apply wp_bind, wp_gets. cbn [id]. destruct (Z.eqb_spec (fat_cache_sector s) k) as [E|Hne]; [by apply wp_ret|].
  destruct (h_geo _ _ _ _ H) as (_ & _ & G3 & _). destruct (fat_visible g k Hv Hk) as (K1 & K2 & K3).
  assert (∀ s1, holds g V B s1 → (fat_cache_dirty s1 = true → ¬ cached s1) → fat_cache_sector s1 ≠ k → wp (read_cache (fat_start_sector s + k);; modify (λ s, set_cache k (fat_cache s) (fat_cache_dirty s) s))
    (λ _ s', holds g V B s' ∧ fat_cache_sector s' = k) (λ e _, e < 0 ∧ may_fail) s1) as Hread.
  { intros s1 H1 Hd1 Hk1. unfold read_cache, checked. apply wp_bind, wp_bind. unfold wp at 1. rewrite G3, (uN_small 32) by (unfold SECTOR_LIMIT in K3; lia).
    destruct (disk_read _ (v_disk s1)) as [[rc bs] d] eqn:Er. destruct (disk_read_spec (fat_start_sector g + k) _ _ _ _ (h_disk _ _ _ _ H1) ltac:(lia) Er) as (R1 & R2 & R3 & R4).
    destruct (serves_read (fat_start_sector g + k) _ _ _ _ (h_disk _ _ _ _ H1) ltac:(lia) Er) as [S1 S2]. destruct (Z.ltb_spec rc 0).
    { apply wp_throw. split; [done|]. destruct (serves_vol _ _ _ _ _ H1 K2) as [?|Hs]; [done|]. specialize (S2 Hs). lia. }
    apply wp_ret, wp_modify. split; [|done]. specialize (R4 ltac:(lia)). pose proof (h_geo _ _ _ _ H1) as (_ & _ & G3' & _).
    destruct H1 as [A1 A2 A3 A4 A5 A6 A7 A8 A9 A10]. split; try done.
    - intros u Hu. rewrite <-A2 by done. unfold view, cached. cbn. rewrite R2, G3'.
      assert (k ≠ NO_SECTOR) as Hkn by (unfold NO_SECTOR; unfold SECTOR_LIMIT in K3; destruct Hv; nia).
      destruct (decide (u = fat_start_sector g + k)) as [->|Hu'].
      + rewrite decide_True by done. rewrite decide_False; [done|]. intros [_ ?]. lia.
      + rewrite decide_False by (by intros [_ ?]). case_decide as Hc; [|done]. destruct Hc as [Hc ->]. symmetry.
        destruct (fat_cache_dirty s1) eqn:Ed; [by destruct (Hd1 eq_refl)|]. rewrite <-(A10 eq_refl Hc). by rewrite G3'.
    - destruct A9 as [?|A9]; [by left|right]. intros u Hu. by apply S1, A9.
    - cbn. intros _ _. by rewrite R2, G3', R4. }
  destruct (fat_cache_dirty s && negb (fat_cache_sector s =? NO_SECTOR)) eqn:Ef.
  - apply andb_true_iff in Ef as [Ed Ec]. apply wp_bind. eapply wp_mono; [apply (wp_flush_copies g V B); [done|done| |done]| |].
    + unfold cached. by destruct (Z.eqb_spec (fat_cache_sector s) NO_SECTOR).
    + intros _ s1 (H1 & [Hd1 _] & E1). apply Hread; [done| |by rewrite E1]. by rewrite Hd1.
    + intros e s1 (? & ? & _). done.
  - apply wp_bind, wp_ret, Hread; [done| |done]. intros Ed. rewrite Ed in Ef. unfold cached. destruct (Z.eqb_spec (fat_cache_sector s) NO_SECTOR); [by intros []|done].
Qed.

(** ** Entries *)

Lemma wp_fat_get g V B s c : vol_ok g → holds g V B s → cluster_ok g c →
  wp (fat_get c) (λ v s', v = entry g V c ∧ holds g V B s') (λ e _, e < 0 ∧ may_fail) s.
Proof.
  intros Hv H Hc. destruct (fat_sector_of_eq g c Hv Hc) as (E1 & E2 & Hk). unfold fat_get. rewrite E1, E2. apply wp_bind.
  eapply wp_mono; [by apply (wp_load g V B)| |done]. intros _ s1 [H1 Ek]. apply wp_gets. split; [|done].
  unfold entry, entry_word. destruct (fat_visible g _ Hv Hk) as (Hvis & _ & Hlim). rewrite <-(h_view _ _ _ _ H1) by done.
  unfold view. destruct (h_geo _ _ _ _ H1) as (_ & _ & -> & _). rewrite decide_True; [done|]. rewrite Ek. split; [|done].
  unfold cached. rewrite Ek. destruct Hv. unfold vol_end in *. fat_consts. nia.
Qed.

Lemma wp_fat_set g V B s c v : vol_ok g → holds g V B s → cluster_ok g c →
  wp (fat_set c v) (λ _ s', holds g (set_entry g c v V) B s') (λ e _, e < 0 ∧ may_fail) s.
Proof.
  intros Hv H Hc. destruct (fat_sector_of_eq g c Hv Hc) as (E1 & E2 & Hk). unfold fat_set. rewrite E1, E2. apply wp_bind.
  eapply wp_mono; [by apply (wp_load g V B)| |done]. intros _ s1 [H1 Ek]. apply wp_modify.
  destruct (fat_visible g _ Hv Hk) as (Hvis & _ & Hlim). pose proof (h_geo _ _ _ _ H1) as (_ & _ & G3 & _).
  assert (cached s1 ∧ fat_start_sector g + c / 128 = fat_start_sector s1 + fat_cache_sector s1) as Hcc.
  { rewrite G3, Ek. split; [|done]. unfold cached. rewrite Ek. destruct Hv. unfold vol_end in *. fat_consts. nia. }
  pose proof (h_view _ _ _ _ H1 _ Hvis) as Ev. unfold view in Ev. rewrite decide_True in Ev by done.
  destruct H1 as [A1 A2 A3 A4 A5 A6 A7 A8 A9 A10]. split; try done.
  - intros u Hu. unfold view, set_entry. destruct (decide (u = fat_start_sector g + c / 128)) as [->|Hne].
    + rewrite fn_lookup_insert. rewrite decide_True by done. unfold entry_word. by rewrite <-Ev.
    + rewrite fn_lookup_insert_ne, <-A2 by done. unfold view. rewrite !decide_False; [done|..]; intros [_ E]; apply Hne; rewrite E; by destruct Hcc.
  - etrans; [apply length_put_le32|done].
Qed.

(** A flush may fail without harm to the volume. *)
Lemma wp_fat_flush g V B s : vol_ok g → holds g V B s →
  wp fat_flush (λ _ s', holds g V B s' ∧ (cached s' → flushed g s' ∨ fat_cache_dirty s = false)) (λ e s', e < 0 ∧ may_fail ∧ holds g V B s') s.
Proof.
  intros Hv H. unfold fat_flush. apply wp_bind, wp_gets. cbn [id]. destruct (fat_cache_dirty s) eqn:Ed; cbn [negb orb].
  - destruct (Z.eqb_spec (fat_cache_sector s) NO_SECTOR) as [E|Hc]; [by apply wp_ret|].
    eapply wp_mono; [by apply (wp_flush_copies g V B)| |done]. intros _ s' (H' & Hf & _). split; [done|]. by left.
  - apply wp_ret. split; [done|]. by right.
Qed.

(** ** Allocation *)

Lemma cluster_live g c : vol_ok g → cluster_ok g c → live c = true.
Proof.
  intros [] Hc. unfold cluster_ok in Hc. unfold live, FAT_EOC. rewrite andb_true_iff, negb_true_iff. split; [apply Z.leb_le; lia|].
  apply Z.eqb_neq. intros E. pose proof (land_le 0x0FFFFFF8 c). rewrite Z.land_comm in E. lia.
Qed.
Lemma live_not_eoc c : FAT_EOC c = true → live c = false.
Proof. unfold live. intros ->. by rewrite andb_false_r. Qed.
Lemma eoc_mark : FAT_EOC (FAT_MASK .& FAT_MASK) = true.
Proof. done. Qed.
Lemma eoc_not_free c : FAT_EOC c = true → c ≠ FAT_FREE.
Proof. by intros H ->. Qed.

Definition is_free g V (c : Z) : Prop := cluster_ok g c ∧ entry g V c = FAT_FREE.
Definition full g V : Prop := ∀ c, ¬ is_free g V c.

(** The first free cluster, or no space. *)
Lemma wp_fat_alloc g V B s : vol_ok g → holds g V B s → wp fat_alloc_cluster
  (λ c s', is_free g V c ∧ (∀ d, 2 <= d < c → ¬ is_free g V d) ∧ holds g (set_entry g c FAT_MASK V) B s')
  (λ e s', e < 0 ∧ (may_fail ∨ e = - ENOSPC ∧ full g V ∧ holds g V B s')) s.
Proof.
  intros Hv H. unfold fat_alloc_cluster. apply wp_bind, wp_gets. pose proof (h_geo _ _ _ _ H) as (_ & _ & _ & _ & _ & _ & -> & _).
  assert (Z.of_nat (Z.to_nat (u32 (total_clusters g + 2) - 2)) = total_clusters g) as En.
  { destruct Hv. rewrite (uN_small 32) by lia. lia. }
  apply wp_bind. eapply (wp_find (λ j s, holds g V B s ∧ ∀ d, 2 <= d < j → ¬ is_free g V d)); [split; [done|lia]| |].
  - intros c s1 Hc [H1 Hb]. rewrite En in Hc. assert (cluster_ok g c) as Hok by (unfold cluster_ok; lia). unfold try_cluster. apply wp_bind.
    eapply wp_mono; [by apply (wp_fat_get g V B)| |intros e s2 []; split; [done|by left]]. intros v s2 [-> H2].
    destruct (Z.eqb_spec (entry g V c) FAT_FREE) as [Hf|Hf].
    + apply wp_bind. eapply wp_mono; [by apply (wp_fat_set g V B)| |intros e s3 []; split; [done|by left]]. intros [] s3 H3. apply wp_ret.
      apply wp_ret. by split_and!.
    + apply wp_ret. split; [done|]. intros d Hd. destruct (decide (d = c)) as [->|]; [by intros []|]. apply Hb. lia.
  - intros s1 [H1 Hb]. apply wp_throw. split; [done|]. right. split; [done|]. split; [|done]. intros d [Hd Hf]. rewrite En in Hb.
    apply (Hb d); [unfold cluster_ok in Hd; lia|by split].
Qed.

(** ** Chains *)

(** The clusters from [c] to an end mark. *)
Inductive chain g V : Z → list Z → Prop :=
| chain_end c : FAT_EOC c = true → chain g V c []
| chain_link c l : cluster_ok g c → chain g V (entry g V c) l → chain g V c (c :: l).

Lemma chain_det g V c l l' : vol_ok g → chain g V c l → chain g V c l' → l = l'.
Proof.
  intros Hv H. revert l'. induction H as [c Hc|c l Hc _ IH]; intros l' H'; inversion H' as [c' Hc'|c' m Hc' Hm]; subst; [done|..].
  - pose proof (cluster_live g c Hv Hc') as Hl. by rewrite live_not_eoc in Hl.
  - pose proof (cluster_live g c Hv Hc) as Hl. by rewrite live_not_eoc in Hl.
  - f_equal. by apply IH.
Qed.

Lemma chain_suffix g V c l l1 d l2 : chain g V c l → l = l1 ++ d :: l2 → chain g V d (d :: l2).
Proof.
  revert c l. induction l1 as [|x l1 IH]; intros c l H ->; cbn in H.
  - inversion H; subst. by constructor.
  - inversion H; subst. by eapply IH.
Qed.

Lemma chain_NoDup g V c l : vol_ok g → chain g V c l → NoDup l.
Proof.
  intros Hv H. induction H as [c Hc|c l Hc H IH]; constructor; [|done]. intros (l1 & l2 & El)%list_elem_of_split.
  pose proof (chain_suffix g V _ l l1 c l2 H El) as Hs. pose proof (chain_link g V c l Hc H) as Hc2.
  pose proof (chain_det g V c _ _ Hv Hs Hc2) as E. apply (f_equal length) in E. subst l. cbn in E. rewrite length_app in E. cbn in E. lia.
Qed.

Lemma chain_ok g V c l : chain g V c l → Forall (cluster_ok g) l.
Proof. induction 1; by constructor. Qed.

(** The entries of a chain's clusters are not free. *)
Lemma chain_used g V c l d : vol_ok g → chain g V c l → d ∈ l → entry g V d ≠ FAT_FREE.
Proof.
  intros Hv H Hd. apply list_elem_of_split in Hd as (l1 & l2 & ->). apply (chain_suffix _ _ _ _ l1 d l2) in H; [|done]. inversion H as [|c' l' Hc H']; subst.
  inversion H' as [|? ? Hc']; subst; [by apply eoc_not_free|]. unfold cluster_ok in Hc'. unfold FAT_FREE. lia.
Qed.

Lemma chain_ext g V V' c l : (∀ d, d ∈ l → entry g V' d = entry g V d) → chain g V c l → chain g V' c l.
Proof.
  intros E H. induction H as [c Hc|c l Hc H IH]; [by constructor|]. constructor; [done|]. rewrite E by set_solver. apply IH. intros d Hd. apply E. set_solver.
Qed.

(** [V'] differs from [V] in the FAT only, by the entries [f]. *)
Record refat g V V' (f : Z → Z) : Prop := {
  rf_entry c : cluster_ok g c → entry g V' c = f c;
  rf_data t : data_sector g t → V' t = V t
}.

Lemma set_entry_refat g V c v : vol_ok g → (∀ t, visible g t → length (V t) = SECTOR) → cluster_ok g c →
  refat g V (set_entry g c v V) (λ d, if decide (d = c) then v .& FAT_MASK else entry g V d).
Proof.
  intros Hv Hl Hc. destruct (fat_sector_of_eq g c Hv Hc) as (_ & _ & Hk). split.
  - intros d Hd. case_decide as E; [subst; apply entry_set, Hl, fat_visible; done|by apply entry_set_ne].
  - intros t [Ht _]. by apply set_entry_data.
Qed.
Lemma set_entry_lengths g V c v : (∀ t, visible g t → length (V t) = SECTOR) → ∀ t, visible g t → length (set_entry g c v V t) = SECTOR.
Proof. intros H t Ht. by apply set_entry_length, H. Qed.

(** Freeing a chain frees its clusters and nothing else. *)
Lemma wp_free_chain g B fuel V c l s : vol_ok g → holds g V B s → chain g V c l → (length l < fuel)%nat →
  wp (fat_free_chain fuel c) (λ _ s', ∃ V', holds g V' B s' ∧ refat g V V' (λ d, if decide (d ∈ l) then FAT_FREE else entry g V d))
    (λ e _, e < 0 ∧ may_fail) s.
Proof.
  intros Hv. revert V c l s. induction fuel as [|fuel IH]; intros V c l s H Hch Hf; [lia|]. cbn [fat_free_chain].
  pose proof (chain_NoDup g V c l Hv Hch) as Hnd. inversion Hch as [? Hc|? l' Hc Hl]; subst.
  - rewrite live_not_eoc by done. apply wp_ret. exists V. split; [done|]. split; [|done]. intros d _. by rewrite decide_False by set_solver.
  - rewrite (cluster_live g) by done. apply wp_bind. eapply wp_mono; [by apply (wp_fat_get g V B)| |done]. intros v s1 [-> H1].
    apply wp_bind. eapply wp_mono; [by apply (wp_fat_set g V B)| |done]. intros [] s2 H2. apply NoDup_cons in Hnd as [Hn _].
    assert (∀ t, visible g t → length (V t) = SECTOR) as Hlen by (intros; by eapply holds_length).
    destruct (set_entry_refat g V c FAT_FREE Hv Hlen Hc) as [R1 R2].
    eapply wp_mono; [apply (IH _ _ l' s2 H2)| |done].
    + eapply chain_ext; [|done]. intros d Hd. apply entry_set_ne. by intros ->.
    + cbn in Hf. lia.
    + intros [] s3 (V' & H3 & [R3 R4]). exists V'. split; [done|]. split.
      * intros d Hd. rewrite R3, R1 by done. destruct (decide (d = c)) as [->|Hne].
        -- rewrite (decide_False (P := c ∈ l')), decide_True by set_solver. done.
        -- destruct (decide (d ∈ l')); [rewrite decide_True by set_solver|rewrite decide_False by set_solver]; done.
      * intros t Ht. by rewrite R4, R2.
Qed.

(** ** Freeing ends on every FAT *)

(** No entry of a cluster leads out of the volume; there may be cycles. *)
Definition links_ok g V : Prop := ∀ c, cluster_ok g c → live (entry g V c) = true → cluster_ok g (entry g V c).
Definition clusters g : list Z := seqZ 2 (total_clusters g).
Definition used g V : nat := length (filter (λ c, entry g V c ≠ FAT_FREE) (clusters g)).

Lemma elem_of_clusters g c : c ∈ clusters g ↔ cluster_ok g c.
Proof. unfold clusters, cluster_ok. rewrite elem_of_seqZ. lia. Qed.

Lemma used_free g V V' c : (∀ d, cluster_ok g d → entry g V' d = if decide (d = c) then FAT_FREE else entry g V d) → cluster_ok g c → entry g V c ≠ FAT_FREE →
  (used g V' < used g V)%nat.
Proof.
  intros HV Hc Hn. apply filter_fewer with c; [|by apply elem_of_clusters|done|].
  - intros d Hd%elem_of_clusters. rewrite HV by done. by case_decide.
  - rewrite HV, decide_True by done. tauto.
Qed.

Lemma used_bound g V : vol_ok g → (used g V <= Z.to_nat (total_clusters g))%nat.
Proof. intros. unfold used. etrans; [apply length_filter|]. unfold clusters. by rewrite length_seqZ. Qed.

(** A cluster that is met again is free by then, so that the loop ends. *)
Lemma wp_free_returns g B fuel V c s : vol_ok g → holds g V B s → links_ok g V → (live c = true → cluster_ok g c) → (used g V + 1 < fuel)%nat →
  wp (fat_free_chain fuel c) (λ _ s', ∃ V', holds g V' B s' ∧ links_ok g V' ∧ (∀ t, data_sector g t → V' t = V t) ∧
    ∀ d, cluster_ok g d → entry g V' d = entry g V d ∨ entry g V' d = FAT_FREE) (λ e _, e < 0 ∧ may_fail) s.
Proof.
  intros Hv. revert V c s. induction fuel as [|fuel IH]; intros V c s H Hw Hlive Hf; [lia|]. cbn [fat_free_chain].
  destruct (live c) eqn:El; [|apply wp_ret; exists V; split_and!; auto]. specialize (Hlive eq_refl).
  apply wp_bind. eapply wp_mono; [by apply (wp_fat_get g V B)| |done]. intros v s1 [-> H1].
  apply wp_bind. eapply wp_mono; [by apply (wp_fat_set g V B)| |done]. intros [] s2 H2.
  assert (∀ t, visible g t → length (V t) = SECTOR) as Hlen by (intros; by eapply holds_length).
  destruct (set_entry_refat g V c FAT_FREE Hv Hlen Hlive) as [R1 R2]. set (V1 := set_entry g c FAT_FREE V) in *.
  assert (links_ok g V1) as Hw1. { intros d Hd. rewrite R1 by done. case_decide; [done|]. by apply Hw. }
  assert (wp (fat_free_chain fuel (entry g V c)) (λ _ s', ∃ V', holds g V' B s' ∧ links_ok g V' ∧ (∀ t, data_sector g t → V' t = V1 t) ∧
    ∀ d, cluster_ok g d → entry g V' d = entry g V1 d ∨ entry g V' d = FAT_FREE) (λ e _, e < 0 ∧ may_fail) s2) as Hrest.
  { destruct (decide (entry g V c = FAT_FREE)) as [Ez|Ez].
    - destruct fuel as [|fuel]; [lia|]. rewrite Ez. cbn [fat_free_chain]. apply (wp_ret ()). exists V1. split_and!; auto.
    - apply IH; [done|done|by apply Hw|]. pose proof (used_free g V V1 c R1 Hlive Ez). lia. }
  eapply wp_mono; [exact Hrest| |done]. intros [] s3 (V' & A & Hw' & D & E'). exists V'. split_and!; [done|done|intros; by rewrite D, R2|].
  intros d Hd. destruct (E' d Hd) as [->|]; [|by right]. rewrite R1 by done. case_decide; auto.
Qed.
End Fat.
