(* ===== verification/VfatFiles.v ===== *)
(** * VfatFiles: the contents of files (src/kernel/vfs/vfat.c)

    A file is the bytes of the clusters of its chain, in order.  Reading copies
    them into the caller's page; writing replaces them and extends the chain by
    clusters that were free, without harm to any other chain. *)

From stdpp Require Import functions.
From S2P Require Import Prelude Bits Config ErrState PagePool Path Vfs Driver ModCore Tmpfs BlkDev BlkDevFacts SectorDev Vfat VfatOps VfatFat.

#[local] Open Scope c_scope.

Section Files.
Context {cfg : PageConfig} {ps : PageStore} {psok : PageStoreOk} {sd : SectorDev} {sdok : SectorDevOk} {sds : SectorDevServes} {bo : ByteOrder}.
Context (may_fail : Prop).
Implicit Types (g s : vfat_t) (V : volume).
#[local] Abbreviation holds := (holds may_fail).

(** ** Sectors of clusters *)

Definition cluster_sector g (c x : Z) : Z := data_start_sector g + (c - 2) * sectors_per_cluster g + x.
(** Sector [q] and byte [p] of the clusters [l]. *)
Definition file_sector g (l : list Z) (q : Z) : Z := cluster_sector g (l !!! Z.to_nat (q / sectors_per_cluster g)) (q mod sectors_per_cluster g).
Definition file_byte g V (l : list Z) (p : Z) : Z := V (file_sector g l (p / 512)) !!! Z.to_nat (p mod 512).
Definition file_room g (l : list Z) : Z := Z.of_nat (length l) * bytes_per_cluster g.

Lemma cluster_sector_data g c x : vol_ok g → cluster_ok g c → 0 <= x < sectors_per_cluster g → data_sector g (cluster_sector g c x).
Proof. intros [] Hc Hx. unfold cluster_ok in Hc. unfold data_sector, vol_end, cluster_sector. nia. Qed.

Lemma cluster_sector_inj g c d x y : cluster_sector g c x = cluster_sector g d y → 0 <= x < sectors_per_cluster g → 0 <= y < sectors_per_cluster g → c = d ∧ x = y.
Proof. unfold cluster_sector. intros E Hx Hy. assert (c = d) by nia. subst. lia. Qed.

Lemma cluster_to_sector_eq g V B s c : vol_ok g → holds g V B s → cluster_ok g c → cluster_to_sector s c = cluster_sector g c 0.
Proof.
  intros Hv H Hc. destruct (h_geo _ _ _ _ _ H) as (G1 & _ & _ & _ & _ & G6 & _). unfold cluster_to_sector, cluster_sector. rewrite G1, G6.
  destruct Hv. unfold cluster_ok in Hc. unfold SECTOR_LIMIT in *. rewrite (uN_small 32 (c - 2)) by lia.
  assert (0 <= (c - 2) * sectors_per_cluster g < total_clusters g * sectors_per_cluster g) by nia.
  assert (0 <= num_fats g * fat_size g) by nia. rewrite !(uN_small 32) by (rewrite ?(uN_small 32); lia). lia.
Qed.

Lemma file_sector_data g c V l q : vol_ok g → chain g V c l → 0 <= q < Z.of_nat (length l) * sectors_per_cluster g → data_sector g (file_sector g l q).
Proof.
  intros Hv H Hq. pose proof (vo_spc _ Hv) as Hs. apply cluster_sector_data; [done| |by apply Z.mod_pos_bound].
  assert ((Z.to_nat (q / sectors_per_cluster g) < length l)%nat) as Hi.
  { pose proof (Z.div_lt_upper_bound q (sectors_per_cluster g) (Z.of_nat (length l))). pose proof (Z.div_pos q (sectors_per_cluster g)). lia. }
  pose proof (chain_ok _ _ _ _ H) as Hok. rewrite Forall_lookup in Hok. destruct (lookup_lt_is_Some_2 l _ Hi) as [d Hd].
  rewrite (list_lookup_total_correct _ _ _ Hd). by eapply Hok.
Qed.

(** The bytes [x] to [x + k] of sector [q] of the file. *)
Lemma file_bytes_sector g V l q x k : 0 <= q → 0 <= x → 0 <= k → x + k <= 512 → length (V (file_sector g l q)) = SECTOR →
  ∀ i, 0 <= i < k → take (Z.to_nat k) (drop (Z.to_nat x) (V (file_sector g l q))) !!! Z.to_nat i = file_byte g V l (q * 512 + x + i).
Proof.
  intros Hq Hx Hk Hxk Hl i Hi. unfold file_byte. replace ((q * 512 + x + i) / 512) with q by fat. replace ((q * 512 + x + i) mod 512) with (x + i) by fat.
  rewrite !list_lookup_total_alt, lookup_take_lt, lookup_drop by lia. do 2 f_equal. lia.
Qed.

(** The cluster at place [i] is followed by the one at [i + 1] or an end mark. *)
Lemma chain_next g V c l i : chain g V c l → (i < length l)%nat → cluster_ok g (l !!! i) ∧ chain g V (entry g V (l !!! i)) (drop (S i) l).
Proof.
  revert c i. induction l as [|d l IH]; intros c i H Hi; cbn in Hi; [lia|]. inversion H as [|? ? Hc H']; subst. destruct i as [|i]; cbn; [by rewrite drop_0|].
  apply (IH (entry g V d)); [done|lia].
Qed.

Lemma chain_at g V c l i : chain g V c (drop i l) → (i < length l)%nat → c = l !!! i.
Proof.
  intros H Hi. remember (drop i l) as m eqn:E. destruct H as [c _|c m _ _].
  - apply (f_equal length) in E. rewrite length_drop in E. cbn in E. lia.
  - by rewrite <-(Nat.add_0_r i), <-lookup_total_drop, <-E.
Qed.

(** ** Reading *)

Lemma chunk_len_eq start rem : chunk_len start rem = Z.min rem (512 - start).
Proof. unfold chunk_len. destruct (Z.ltb_spec rem (512 - start)); lia. Qed.

(** From sector [s] of a cluster to its end; [pos] is the position in the file. *)
Lemma wp_read_sectors k g V B l i (s : Z) sec_off byte_off page po n total pos u : vol_ok g → holds g V B u → cluster_ok g (l !!! i) →
  let start := chunk_start s sec_off byte_off in
  let len := Z.min (n - total) (Z.of_nat k * 512 - start) in
  pos = (Z.of_nat i * sectors_per_cluster g + s) * 512 + start →
  0 <= sec_off <= s → s + Z.of_nat k = sectors_per_cluster g → 0 <= byte_off < 512 → start <= Z.of_nat k * 512 → core_range (v_core g) page po (n - total) → 0 <= n - total →
  wp (read_sectors k s sec_off byte_off (cluster_sector g (l !!! i) 0) page po n total) (λ r s', r.1 = po + len ∧ r.2 = total + len ∧
      ∃ B' c', holds (set_vcore c' g) V B' s' ∧ copied (v_core g) c' page po len (λ x, file_byte g V l (pos + x))) (λ e _, e < 0 ∧ may_fail) u.
Proof.
  revert g B s po total pos u. induction k as [|k IH]; intros g B s po total pos u Hv H Hc start len Hpos Hs Hk Hb Hst Hrange Hrem; cbn [read_sectors];
    assert (0 <= start < 512) as Hst2 by (unfold start, chunk_start; destruct (s =? sec_off); lia).
  { apply wp_ret. assert (len = 0) as -> by (unfold len; lia). cbn. split_and!; [lia..|]. exists B, (v_core g). split; [by destruct g|]. by apply copied_none; [apply Hrange|]. }
  destruct (Z.ltb_spec total n) as [Hlt|Hge].
  2:{ apply wp_ret. assert (len = 0) as -> by (unfold len; lia). cbn. split_and!; [lia..|]. exists B, (v_core g). split; [by destruct g|]. by apply copied_none; [apply Hrange|]. }
  fold start. rewrite chunk_len_eq. set (av := Z.min (n - total) (512 - start)). assert (0 < av <= n - total ∧ start + av <= 512) as [Hav Hav2] by (unfold av; lia).
  set (q := Z.of_nat i * sectors_per_cluster g + s). assert (0 <= q) as Hq by (destruct Hv; nia).
  assert (cluster_sector g (l !!! i) s = file_sector g l q) as Esec.
  { unfold file_sector. destruct Hv. assert (q / sectors_per_cluster g = Z.of_nat i) as -> by (unfold q; rewrite Z.div_add_l by lia; rewrite Z.div_small by lia; lia).
    assert (q mod sectors_per_cluster g = s) as -> by (unfold q; rewrite Z.add_comm, Z.mod_add by lia; by apply Z.mod_small; lia). by rewrite Nat2Z.id. }
  assert (data_sector g (file_sector g l q)) as Hds by (rewrite <-Esec; apply cluster_sector_data; [done|done|lia]).
  assert (u32 (cluster_sector g (l !!! i) 0 + s) = file_sector g l q) as ->.
  { rewrite <-Esec in *. unfold cluster_sector in *. rewrite uN_small; [lia|]. destruct Hds, Hv. unfold vol_end, SECTOR_LIMIT in *. nia. }
  apply wp_bind. eapply (wp_fat_read_sector may_fail g V B); [done|done|done| |intros e ? ? ? ? _; done]. intros u1 H1. apply wp_bind, wp_modify.
  pose proof (holds_length _ _ _ _ _ _ H1 ltac:(by right)) as Hlen. rewrite (h_buf _ _ _ _ _ H1), (h_core _ _ _ _ _ H1).
  set (bs := take (Z.to_nat av) (drop (Z.to_nat start) (V (file_sector g l q)))).
  assert (Z.of_nat (length bs) = av) as Lb by (unfold bs; rewrite length_take, length_drop, Hlen; fat).
  set (c1 := core_write page po bs (v_core g)).
  assert (copied (v_core g) c1 page po av (λ x, file_byte g V l (pos + x))) as Hcp.
  { rewrite <-Lb. eapply copied_write; [done|lia|]. intros x Hx. unfold bs. rewrite file_bytes_sector by (done || lia). f_equal. lia. }
  assert (core_range c1 page (po + av) (n - (total + av))) as Hr1.
  { replace (n - (total + av)) with (n - total - av) by lia. eapply copied_range; [done|done|lia]. }
  rewrite (uN_small 16) by (destruct Hrange as (_ & _ & ? & ?); unfold PAGE_SIZE in *; lia).
  assert (chunk_start (s + 1) sec_off byte_off = 0) as E0 by (unfold chunk_start; destruct (Z.eqb_spec (s + 1) sec_off); [lia|done]).
  eapply wp_mono; [apply (IH (set_vcore c1 g) (V (file_sector g l q)) (s + 1) (po + av) (total + av) (pos + (512 - start))); rewrite ?E0; try done; try lia|..].
  - exact (vol_ok_core _ _ Hv).
  - by apply holds_core.
  - change (sectors_per_cluster (set_vcore c1 g)) with (sectors_per_cluster g). unfold q in *. lia.
  - change (sectors_per_cluster (set_vcore c1 g)) with (sectors_per_cluster g). lia.
  - intros r u2 (R1 & R2 & B' & c2 & H2 & Hcp2). rewrite E0, Z.sub_0_r in R1, R2, Hcp2.
    assert (len = av + (n - (total + av)) `min` (Z.of_nat k * 512)) as El by (unfold len, av; lia).
    rewrite El. split_and!; [lia..|]. exists B', c2. split; [by destruct g|]. eapply copied_more; [exact Hcp|exact Hcp2|lia|lia|done|].
    intros x Hx. assert (av = 512 - start) as Ea by (unfold av in *; lia). change (file_byte (set_vcore c1 g)) with (file_byte g). cbn beta. f_equal. rewrite Ea. lia.
  - done.
Qed.

(** A file: a chain with room for [size] bytes. *)
Lemma chain_core g V c l co : chain g V c l → chain (set_vcore co g) V c l.
Proof. induction 1; [by constructor|by apply chain_link]. Qed.

Lemma wp_read_clusters fuel g V B l c i skip page po n total u : vol_ok g → holds g V B u → chain g V c (drop i l) → (i <= length l)%nat →
  Forall (cluster_ok g) l → let pos := Z.of_nat i * bytes_per_cluster g + skip in 0 <= skip < bytes_per_cluster g → core_range (v_core g) page po (n - total) →
  0 <= n - total < Z.of_nat fuel → pos + (n - total) <= file_room g l →
  wp (read_clusters fuel c skip page po n total) (λ r s', r = n ∧
      ∃ B' c', holds (set_vcore c' g) V B' s' ∧ copied (v_core g) c' page po (n - total) (λ x, file_byte g V l (pos + x))) (λ e _, e < 0 ∧ may_fail) u.
Proof.
  revert g B c i skip po total u. induction fuel as [|fuel IH]; intros g B c i skip po total u Hv H Hch Hi Hall pos Hskip Hrange Hrem Hroom; cbn [read_clusters]; [lia|].
  assert (0 < bytes_per_cluster g ∧ bytes_per_cluster g = sectors_per_cluster g * 512) as [Hbpc Ebpc] by (destruct Hv; lia).
  destruct (Z.ltb_spec total n) as [Hlt|Hge]; cbn [andb].
  2:{ apply wp_ret. split; [lia|]. exists B, (v_core g). split; [by destruct g|]. apply copied_none; [apply Hrange|lia]. }
  assert (i < length l)%nat as Hil by (unfold file_room, pos in *; nia). pose proof (chain_at g V c l i Hch Hil) as ->.
  assert (cluster_ok g (l !!! i)) as Hok by (rewrite Forall_lookup in Hall; apply (Hall i); by apply list_lookup_lookup_total_lt).
  rewrite (cluster_live g) by done. apply wp_bind, wp_gets, wp_bind. cbn [id]. rewrite (cluster_to_sector_eq g V B u) by done.
  destruct (h_geo _ _ _ _ _ H) as (G1 & _). rewrite G1. set (so := skip / 512). set (st := skip mod 512).
  assert (0 <= so < sectors_per_cluster g ∧ 0 <= st < 512 ∧ skip = so * 512 + st) as (Hso & Hst & Eskip) by (unfold so, st; fat).
  assert (chunk_start so so st = st) as Ecs by (unfold chunk_start; by rewrite Z.eqb_refl).
  eapply wp_mono; [apply (wp_read_sectors _ g V B l i so so st page po n total pos); rewrite ?Ecs; try done; [unfold pos; nia|lia..]| |done].
  rewrite Ecs. set (len := (n - total) `min` _). intros [po1 total1] u1 (R1 & R2 & B1 & c1 & H1 & Hcp). cbn [fst snd] in *. subst po1 total1.
  assert (0 < len <= n - total ∧ (len = n - total ∨ len = bytes_per_cluster g - skip)) as [Hlen Hend] by (unfold len; lia).
  apply wp_bind. eapply wp_mono; [apply (wp_fat_get may_fail (set_vcore c1 g) V B1); [exact (vol_ok_core _ _ Hv)|done|done]| |done]. intros ? u2 [-> H2].
  destruct (chain_next g V (l !!! i) (drop i l) 0 Hch) as [_ Hnext]; [rewrite length_drop; lia|].
  rewrite lookup_total_drop, Nat.add_0_r, drop_drop in Hnext. replace (i + 1)%nat with (S i) in Hnext by lia.
  pose proof (copied_range _ _ _ _ _ _ _ Hcp Hrange ltac:(lia)) as Hr1. replace (n - total - len) with (n - (total + len)) in Hr1 by lia.
  change (entry (set_vcore c1 g)) with (entry g).
  eapply wp_mono; [apply (IH (set_vcore c1 g) B1 _ (S i) 0 (po + len) (total + len)); [exact (vol_ok_core _ _ Hv)|done|by apply chain_core|lia|done|..]| |done].
  all: change (bytes_per_cluster (set_vcore c1 g)) with (bytes_per_cluster g); change (file_room (set_vcore c1 g) l) with (file_room g l).
  - lia.
  - done.
  - lia.
  - rewrite Nat2Z.inj_succ. unfold pos, file_room in *. destruct Hend; nia.
  - intros r u3 (-> & B2 & c2 & H3 & Hcp2). split; [done|]. exists B2, c2. split; [by destruct g|].
    replace (n - total) with (len + (n - (total + len))) by lia. eapply copied_more; [exact Hcp|exact Hcp2|lia|lia|done|].
    intros x Hx. change (file_byte (set_vcore c1 g)) with (file_byte g). cbn beta. f_equal. unfold pos. rewrite Nat2Z.inj_succ. nia.
Qed.

(** The cluster at place [i] of a chain and the offset in it, for a position in the file. *)
Lemma wp_skip_clusters fuel g V B l c i skip u : vol_ok g → holds g V B u → chain g V c (drop i l) → Forall (cluster_ok g) l →
  0 <= skip → Z.of_nat i * bytes_per_cluster g + skip < file_room g l → skip < Z.of_nat fuel →
  wp (skip_clusters fuel c skip) (λ r s', holds g V B s' ∧ ∃ j skip', r = Some (l !!! j, skip') ∧ (j < length l)%nat ∧ chain g V (l !!! j) (drop j l) ∧
      0 <= skip' < bytes_per_cluster g ∧ Z.of_nat j * bytes_per_cluster g + skip' = Z.of_nat i * bytes_per_cluster g + skip) (λ e _, e < 0 ∧ may_fail) u.
Proof.
  intros Hv. revert c i skip u. induction fuel as [|fuel IH]; intros c i skip u H Hch Hall Hskip Hroom Hf; cbn [skip_clusters]; [lia|].
  assert (0 < bytes_per_cluster g) as Hbpc by (destruct Hv; lia).
  assert (i < length l)%nat as Hil by (unfold file_room in Hroom; nia). pose proof (chain_at g V c l i Hch Hil) as ->.
  apply wp_bind, wp_gets. destruct (h_geo _ _ _ _ _ H) as (_ & -> & _). destruct (Z.leb_spec (bytes_per_cluster g) skip) as [Hle|Hlt].
  2:{ apply wp_ret. split; [done|]. exists i, skip. split_and!; try done; lia. }
  apply wp_bind. eapply wp_mono; [apply (wp_fat_get may_fail g V B); [done|done|]| |done].
  { rewrite Forall_lookup in Hall. apply (Hall i). by apply list_lookup_lookup_total_lt. }
  intros ? u1 [-> H1]. destruct (chain_next g V (l !!! i) (drop i l) 0 Hch) as [_ Hnext]; [rewrite length_drop; lia|].
  rewrite lookup_total_drop, Nat.add_0_r, drop_drop in Hnext. replace (i + 1)%nat with (S i) in Hnext by lia.
  assert (S i < length l)%nat as Hsi by (unfold file_room in Hroom; nia).
  assert (cluster_ok g (l !!! S i)) as Hok by (rewrite Forall_lookup in Hall; apply (Hall (S i)); by apply list_lookup_lookup_total_lt).
  pose proof (chain_at g V _ l (S i) Hnext Hsi) as En. rewrite En in Hnext |- *.
  pose proof (cluster_live g _ Hv Hok) as Hl. unfold live in Hl. apply andb_true_iff in Hl as [_ Hl]. apply negb_true_iff in Hl. rewrite Hl.
  eapply wp_mono; [apply (IH (l !!! S i) (S i)); try done; rewrite ?Nat2Z.inj_succ; lia| |done].
  intros r u2 [H2 (j & sk & -> & Hj & Hcj & Hsk & E)]. split; [done|]. exists j, sk. split_and!; try done; try lia.
Qed.

Lemma wp_read_file g V B l c page po n off u : vol_ok g → holds g V B u → chain g V c l → 0 <= off < file_room g l → 0 <= n → off + n <= file_room g l →
  core_range (v_core g) page po n →
  wp (read_file c page po n off) (λ r s', r = n ∧
      ∃ B' c', holds (set_vcore c' g) V B' s' ∧ copied (v_core g) c' page po n (λ x, file_byte g V l (off + x))) (λ e _, e < 0 ∧ may_fail) u.
Proof.
  intros Hv H Hch Hoff Hn Hroom Hrange. pose proof (chain_ok _ _ _ _ Hch) as Hall. unfold read_file. apply wp_bind.
  eapply wp_mono; [apply (wp_skip_clusters _ g V B l c 0 off); rewrite ?drop_0; try done; lia| |done].
  intros r u1 [H1 (j & sk & -> & Hj & Hcj & Hsk & E)]. replace n with (n - 0) in Hrange by lia.
  eapply wp_mono; [apply (wp_read_clusters _ g V B l _ j sk page po n 0); try done; lia| |done].
  intros r u2 (-> & B' & c' & H2 & Hcp). split; [done|]. exists B', c'. split; [done|]. rewrite Z.sub_0_r, E in Hcp. exact Hcp.
Qed.

(** ** Growth of a chain *)

(** The chain [l] at [c] has become [l'], by clusters that were free. *)
Record grown g c V l V' l' : Prop := {
  gr_chain : chain g V' c l';
  gr_prefix : l `prefix_of` l';
  gr_new d : d ∈ l' → d ∈ l ∨ is_free g V d;
  gr_entry d : cluster_ok g d → d ∉ l' → entry g V' d = entry g V d;
  gr_lengths t : visible g t → length (V' t) = SECTOR
}.

Lemma grown_refl g c V l : chain g V c l → (∀ t, visible g t → length (V t) = SECTOR) → grown g c V l V l.
Proof. intros. split; try done. auto. Qed.

Lemma grown_trans g c V l V1 l1 V2 l2 : grown g c V l V1 l1 → grown g c V1 l1 V2 l2 → grown g c V l V2 l2.
Proof.
  intros [A B C D _] [A' B' C' D' E']. split; [done|by etrans| | |done].
  - intros d Hd. destruct (C' d Hd) as [H1|[Hok Hf]]; [by apply C|]. destruct (decide (d ∈ l1)) as [H1|H1]; [by apply C|].
    right. split; [done|]. by rewrite <-D.
  - intros d Hok Hd. rewrite D', D; [done|done| |done|done]. intros H1. apply Hd. by eapply elem_of_prefix.
Qed.

(** Other chains stay, and stay apart. *)
Lemma grown_other g c V l V' l' c2 l2 : vol_ok g → grown g c V l V' l' → chain g V c2 l2 → l2 ## l → chain g V' c2 l2 ∧ l2 ## l'.
Proof.
  intros Hv [A B C D _] H2 Hd. assert (l2 ## l') as Hd'.
  { intros d Hd2 Hdl. destruct (C d Hdl) as [?|[_ Hf]]; [by apply (Hd d)|]. by apply (chain_used g V c2 l2 d Hv H2). }
  split; [|done]. eapply chain_ext; [|done]. intros d Hd2. apply D; [|intros Hdl; by apply (Hd' d)].
  pose proof (chain_ok _ _ _ _ H2) as Ho. rewrite Forall_forall in Ho. by apply Ho.
Qed.

(** A free cluster is linked behind the last of a chain. *)
Lemma chain_snoc g V c l z d : vol_ok g → chain g V c (l ++ [z]) → is_free g V d → (∀ t, visible g t → length (V t) = SECTOR) →
  let V' := set_entry g z d (set_entry g d FAT_MASK V) in
  chain g V' c ((l ++ [z]) ++ [d]) ∧ refat g V V' (λ x, if decide (x = z) then d else if decide (x = d) then FAT_MASK else entry g V x).
Proof.
  intros Hv H [Hok Hfree] Hlen V'. set (V1 := set_entry g d FAT_MASK V) in V'.
  pose proof (set_entry_lengths g V d FAT_MASK Hlen) as Hlen1. pose proof (chain_ok _ _ _ _ H) as Ho. rewrite Forall_app, Forall_singleton in Ho. destruct Ho as [Hol Hz].
  destruct (set_entry_refat g V d FAT_MASK Hv Hlen Hok) as [R1 R2]. destruct (set_entry_refat g V1 z d Hv Hlen1 Hz) as [R3 R4].
  assert (refat g V V' (λ x, if decide (x = z) then d else if decide (x = d) then FAT_MASK else entry g V x)) as R.
  { split; [|intros t Ht; unfold V'; by rewrite R4, R2]. intros x Hx. unfold V'. rewrite R3, R1 by done. repeat case_decide; try done.
    rewrite land_mask. apply Z.mod_small. destruct Hv. unfold cluster_ok in Hok. lia. }
  split; [|done]. assert (d ∉ l ++ [z]) as Hd by (intros Hd; by apply (chain_used g V c _ d Hv H)).
  assert (NoDup (l ++ [z])) as Hnd by by eapply chain_NoDup. clear -R H Hd Hok Hnd.
  revert c H Hnd Hd. induction l as [|x l IH]; intros c H Hnd Hd; inversion H as [|? ? Hx Hr]; subst; cbn [app] in *; constructor; try done.
  - rewrite (rf_entry _ _ _ _ R), decide_True by done. constructor; [done|]. constructor.
    rewrite (rf_entry _ _ _ _ R) by done. rewrite decide_False by set_solver. rewrite decide_True by done. done.
  - apply NoDup_cons in Hnd as [Hxl Hnd]. rewrite (rf_entry _ _ _ _ R) by done. rewrite !decide_False by set_solver. apply IH; [done|done|set_solver].
Qed.

Lemma grown_snoc g c V l z d : vol_ok g → chain g V c (l ++ [z]) → is_free g V d → (∀ t, visible g t → length (V t) = SECTOR) →
  let V' := set_entry g z d (set_entry g d FAT_MASK V) in grown g c V (l ++ [z]) V' ((l ++ [z]) ++ [d]) ∧ ∀ t, data_sector g t → V' t = V t.
Proof.
  intros Hv H Hd Hlen V'. destruct (chain_snoc g V c l z d Hv H Hd Hlen) as [Hc [R1 R2]]. split; [|done]. split; [done|by apply prefix_app_r| | |].
  - intros x [Hx|Hx%list_elem_of_singleton]%elem_of_app; [by left|]. right. by subst.
  - intros x Hx Hn. rewrite R1 by done. rewrite !decide_False by set_solver. done.
  - intros t Ht. by apply set_entry_lengths; [apply set_entry_lengths|].
Qed.

(** ** Changed bytes *)

(** [V'] and [l'] are [V] and the chain [l] after growth and with the bytes [r]. *)
Record rewritten g c V l V' l' (r : Z → option Z) : Prop := {
  rw_grown : grown g c V l V' l';
  rw_byte p : 0 <= p < file_room g l' → file_byte g V' l' p = default (file_byte g V l' p) (r p);
  rw_other t : data_sector g t → (∀ d x, d ∈ l' → 0 <= x < sectors_per_cluster g → t ≠ cluster_sector g d x) → V' t = V t
}.

Definition patch (pos len : Z) (f : Z → Z) (p : Z) : option Z := if decide (pos <= p < pos + len) then Some (f (p - pos)) else None.

Lemma file_place g l p : vol_ok g → 0 <= p < file_room g l →
  0 <= p / 512 ∧ (Z.to_nat (p / 512 / sectors_per_cluster g) < length l)%nat ∧ 0 <= p / 512 mod sectors_per_cluster g < sectors_per_cluster g.
Proof.
  intros [] Hp. unfold file_room in Hp. assert (0 <= p / 512 < Z.of_nat (length l) * sectors_per_cluster g) as [H1 H2] by (split; [fat|apply Z.div_lt_upper_bound; nia]).
  split; [done|]. split; [|by apply Z.mod_pos_bound]. pose proof (Z.div_pos (p / 512) (sectors_per_cluster g)).
  pose proof (Z.div_lt_upper_bound (p / 512) (sectors_per_cluster g) (Z.of_nat (length l))). lia.
Qed.

Lemma file_sector_prefix g l l' p : vol_ok g → l `prefix_of` l' → 0 <= p < file_room g l → file_sector g l' (p / 512) = file_sector g l (p / 512).
Proof. intros Hv [k ->] Hp. destruct (file_place g l p Hv Hp) as (_ & Hi & _). unfold file_sector. by rewrite lookup_total_app_l. Qed.

Lemma file_byte_prefix g V l l' p : vol_ok g → l `prefix_of` l' → 0 <= p < file_room g l → file_byte g V l' p = file_byte g V l p.
Proof. intros. unfold file_byte. by rewrite (file_sector_prefix g l l'). Qed.

Lemma file_room_prefix g l l' : vol_ok g → l `prefix_of` l' → file_room g l <= file_room g l'.
Proof. intros [] [k ->]. unfold file_room. rewrite length_app. nia. Qed.

Lemma fat_rewritten_trans g c V l V1 l1 r1 V2 l2 r2 r : vol_ok g → rewritten g c V l V1 l1 r1 → rewritten g c V1 l1 V2 l2 r2 →
  (∀ p, file_room g l1 <= p → r1 p = None) → (∀ p, 0 <= p → r p = match r2 p with Some b => Some b | None => r1 p end) → rewritten g c V l V2 l2 r.
Proof.
  intros Hv [A B C] [A' B' C'] Hr1 Hr. pose proof (gr_prefix _ _ _ _ _ _ A') as Hpre. split; [by eapply grown_trans| |].
  - intros p Hp. rewrite B', Hr by lia. destruct (r2 p) as [b|]; [done|]. cbn [default]. destruct (decide (p < file_room g l1)) as [Hlt|Hge].
    + rewrite !(file_byte_prefix g _ l1 l2) by (done || lia). apply B. lia.
    + rewrite Hr1 by lia. cbn [default]. unfold file_byte. f_equal. destruct (file_place g l2 p Hv Hp) as (Hq & Hi & Hm).
      pose proof (chain_NoDup g V2 c l2 Hv (gr_chain _ _ _ _ _ _ A')) as Hnd. pose proof (chain_ok _ _ _ _ (gr_chain _ _ _ _ _ _ A')) as Ho.
      set (i := Z.to_nat (p / 512 / sectors_per_cluster g)) in *. assert (l2 !! i = Some (l2 !!! i)) as Ei by by apply list_lookup_lookup_total_lt.
      assert (cluster_ok g (l2 !!! i)) as Hok by (rewrite Forall_lookup in Ho; by apply (Ho i)).
      apply C; [by apply cluster_sector_data|]. intros d x Hd Hx E. destruct (cluster_sector_inj g _ _ _ _ E Hm Hx) as [Ed _].
      destruct Hpre as [k ->]. apply list_elem_of_lookup in Hd as [j Hj]. assert (i = j) as Eij.
      { eapply NoDup_lookup; [exact Hnd|exact Ei|]. fold i in Ed. rewrite Ed. by apply lookup_app_l_Some. }
      apply lookup_lt_Some in Hj. rewrite <-Eij in Hj. unfold i in Hj. unfold file_room in Hge. destruct Hv.
      assert (p < Z.of_nat (length l1) * bytes_per_cluster g); [|lia].
      assert (p / 512 / sectors_per_cluster g < Z.of_nat (length l1)) as Hi2 by (pose proof (Z.div_pos (p / 512) (sectors_per_cluster g)); lia).
      rewrite Z.div_div in Hi2 by lia. rewrite vo_bpc. set (m := 512 * sectors_per_cluster g) in *. assert (0 < m) as Hm0 by lia.
      pose proof (Z.div_mod p m ltac:(lia)) as Ep. pose proof (Z.mod_pos_bound p m Hm0).
      pose proof (Z.mul_le_mono_nonneg_l (p / m + 1) (Z.of_nat (length l1)) m ltac:(lia) ltac:(lia)). lia.
  - intros t Ht Hn. rewrite C', C; [done|done| |done|done]. intros d x Hd Hx. apply Hn; [by eapply elem_of_prefix|done].
Qed.

Lemma fat_rewritten_refl g c V l : chain g V c l → (∀ t, visible g t → length (V t) = SECTOR) → rewritten g c V l V l (λ _, None).
Proof. intros. split; try done. by apply grown_refl. Qed.

Lemma rewritten_grown g c V l V' l' : grown g c V l V' l' → (∀ t, data_sector g t → V' t = V t) → vol_ok g → rewritten g c V l V' l' (λ _, None).
Proof.
  intros A D Hv. split; [done| |by intros; apply D]. intros p Hp. cbn. unfold file_byte. rewrite D; [done|].
  destruct (file_place g l' p Hv Hp) as (Hq & Hi & Hm). apply cluster_sector_data; [done| |done].
  pose proof (chain_ok _ _ _ _ (gr_chain _ _ _ _ _ _ A)) as Ho. rewrite Forall_lookup in Ho. apply (Ho (Z.to_nat (p / 512 / sectors_per_cluster g))).
  by apply list_lookup_lookup_total_lt.
Qed.

Lemma cluster_sector_file g V c l i (x : Z) : vol_ok g → chain g V c l → (i < length l)%nat → 0 <= x < sectors_per_cluster g →
  cluster_sector g (l !!! i) 0 + x = file_sector g l (Z.of_nat i * sectors_per_cluster g + x).
Proof.
  intros Hv _ Hi Hx. unfold file_sector. rewrite Z.div_add_l, Z.div_small, Z.add_0_r, Nat2Z.id by lia.
  rewrite Z.add_comm, (Z.add_comm _ x), Z.mod_add, Z.mod_small by lia. unfold cluster_sector. lia.
Qed.

(** The sectors of a chain are its own. *)
Lemma file_sector_inj g c V l q q' : vol_ok g → chain g V c l → 0 <= q < Z.of_nat (length l) * sectors_per_cluster g →
  0 <= q' < Z.of_nat (length l) * sectors_per_cluster g → file_sector g l q = file_sector g l q' → q = q'.
Proof.
  intros Hv Hch Hq Hq' E. pose proof (vo_spc _ Hv) as Hs. pose proof (chain_NoDup g V c l Hv Hch) as Hnd.
  assert (∀ q, 0 <= q < Z.of_nat (length l) * sectors_per_cluster g → (Z.to_nat (q / sectors_per_cluster g) < length l)%nat ∧ 0 <= q / sectors_per_cluster g) as Hi.
  { intros x Hx. pose proof (Z.div_lt_upper_bound x (sectors_per_cluster g) (Z.of_nat (length l))). pose proof (Z.div_pos x (sectors_per_cluster g)). lia. }
  unfold file_sector in E. apply cluster_sector_inj in E as [E1 E2]; [|by apply Z.mod_pos_bound..].
  assert (Z.to_nat (q / sectors_per_cluster g) = Z.to_nat (q' / sectors_per_cluster g)) as Ei.
  { eapply NoDup_lookup; [exact Hnd|apply list_lookup_lookup_total_lt; by apply Hi|]. rewrite E1. apply list_lookup_lookup_total_lt. by apply Hi. }
  pose proof (Hi q Hq). pose proof (Hi q' Hq'). rewrite (Z.div_mod q (sectors_per_cluster g)), (Z.div_mod q' (sectors_per_cluster g)) by lia.
  rewrite E2. do 2 f_equal. lia.
Qed.

(** A data sector that changes leaves the FAT. *)
Lemma data_entry g V t b c : vol_ok g → data_sector g t → cluster_ok g c → entry g (<[t := b]> V) c = entry g V c.
Proof.
  intros Hv Ht Hc. unfold entry, entry_word. rewrite fn_lookup_insert_ne; [done|]. destruct (fat_sector_of_eq g c Hv Hc) as (_ & _ & Hk).
  destruct Hv. unfold data_sector in Ht. nia.
Qed.
Lemma data_grown g c V l t b : vol_ok g → data_sector g t → chain g V c l → length b = SECTOR → (∀ t, visible g t → length (V t) = SECTOR) → grown g c V l (<[t := b]> V) l.
Proof.
  intros Hv Ht Hch Hb Hlen. split; [|done|auto|intros; by apply data_entry|].
  - eapply chain_ext; [|done]. intros d Hd. apply data_entry; [done..|]. pose proof (chain_ok _ _ _ _ Hch) as Ho. rewrite Forall_forall in Ho. by apply Ho.
  - intros u Hu. destruct (decide (t = u)) as [->|]; [by rewrite fn_lookup_insert|]. rewrite fn_lookup_insert_ne by done. by apply Hlen.
Qed.

(** New bytes [data] in sector [q] of the file. *)
Lemma write_rewritten g c V l q start av f data : vol_ok g → chain g V c l → 0 <= q < Z.of_nat (length l) * sectors_per_cluster g →
  0 <= start → 0 < av → start + av <= 512 → (∀ t, visible g t → length (V t) = SECTOR) → data = ((λ k, f (Z.of_nat k)) <$> seq 0 (Z.to_nat av)) →
  rewritten g c V l (<[file_sector g l q := put_bytes (Z.to_nat start) data (V (file_sector g l q))]> V) l (patch (q * 512 + start) av f).
Proof.
  intros Hv Hch Hq Hst Hav Hfit Hlen ->. set (t := file_sector g l q). pose proof (file_sector_data g c V l q Hv Hch Hq) as Ht. fold t in Ht.
  assert (length (V t) = SECTOR) as Lt by (apply Hlen; by right). split.
  - apply data_grown; try done. by rewrite length_put_bytes.
  - intros p Hp. unfold file_byte, patch. destruct (file_place g l p Hv Hp) as (Hq0 & Hi & Hm).
    assert (0 <= p / 512 < Z.of_nat (length l) * sectors_per_cluster g) as Hq'.
    { split; [done|]. destruct Hv. unfold file_room in Hp. apply Z.div_lt_upper_bound; nia. }
    destruct (decide (p / 512 = q)) as [E|E].
    + rewrite E. fold t. rewrite fn_lookup_insert, !list_lookup_total_alt. case_decide as Hr.
      * cbn [default]. rewrite put_bytes_at by (rewrite ?length_fmap, ?length_seq, ?Lt; fat). rewrite seq_fmap_lookup, decide_True by fat. cbn. f_equal. fat.
      * cbn [default]. rewrite put_bytes_other; [done|]. rewrite length_fmap, length_seq. fat.
    + rewrite decide_False by fat. cbn [default]. rewrite fn_lookup_insert_ne; [done|]. intros Es. apply E. symmetry. by apply (file_sector_inj g c V l).
  - intros u Hu Hn. rewrite fn_lookup_insert_ne; [done|]. intros <-. destruct (file_place g l (q * 512) Hv) as (_ & Hi & Hm).
    { unfold file_room. destruct Hv. nia. }
    rewrite Z.div_mul in Hi, Hm by done. eapply Hn; [|exact Hm|unfold t, file_sector; reflexivity]. by apply list_elem_of_lookup_total_2.
Qed.

(** ** Writing on a device that serves the volume *)

Section Writing.
Context (works : ¬ may_fail).

(** Nothing but the lack of free clusters stops an operation. *)
Definition no_space (P : vfat_t → Prop) (e : Z) s : Prop := e = - ENOSPC ∧ P s.

Lemma wp_fat_write_chunk g V B c l q start page po av s : vol_ok g → holds g V B s → chain g V c l → 0 <= q < Z.of_nat (length l) * sectors_per_cluster g →
  0 <= start → 0 < av → start + av <= 512 → core_range (v_core g) page po av →
  wp (write_chunk (file_sector g l q) start page po av) (λ _ s', ∃ V' B', holds g V' B' s' ∧
    rewritten g c V l V' l (patch (q * 512 + start) av (λ x, byte_at (v_core g) page (po + x)))) (λ _ _, False) s.
Proof.
  intros Hv H Hch Hq Hst Hav Hfit (Hc & Hpg & Hpo & Hfit2). set (t := file_sector g l q).
  pose proof (file_sector_data g c V l q Hv Hch Hq) as Ht. fold t in Ht.
  set (data := (λ k, byte_at (v_core g) page (po + Z.of_nat k)) <$> seq 0 (Z.to_nat av)).
  assert (length data = Z.to_nat av) as Ld by (unfold data; by rewrite length_fmap, length_seq).
  pose proof (holds_length _ _ _ _ _ t H ltac:(by right)) as Lt.
  assert (∀ B1 s1, holds g V B1 s1 → (negb (start =? 0) || negb (av =? 512) = true → B1 = V t) →
    wp (modify (λ u, set_vbuf (put_bytes (Z.to_nat start) (core_read page po (Z.to_nat av) (v_core u)) (sector_buf u)) u);; write_sector t) (λ _ s', ∃ V' B', holds g V' B' s' ∧
    rewritten g c V l V' l (patch (q * 512 + start) av (λ x, byte_at (v_core g) page (po + x)))) (λ _ _, False) s1) as Hfin.
  { intros B1 s1 H1 HB. apply wp_bind, wp_modify. rewrite (h_buf _ _ _ _ _ H1), (h_core _ _ _ _ _ H1), store_read by (done || lia). fold data.
    assert (put_bytes (Z.to_nat start) data B1 = put_bytes (Z.to_nat start) data (V t)) as ->.
    { destruct (negb (start =? 0) || negb (av =? 512)) eqn:Ec; [by rewrite HB|]. apply orb_false_iff in Ec as [E1 E2]. apply negb_false_iff, Z.eqb_eq in E1, E2.
      rewrite E1. change (Z.to_nat 0) with 0%nat. pose proof (h_len _ _ _ _ _ H1). rewrite !put_bytes_all; [done|..]; rewrite Ld, E2; fat. }
    set (b := put_bytes _ _ _). eapply (wp_fat_write_sector may_fail g V b); [done| |done| |by intros].
    { destruct H1 as [A1 A2 A3 A4 A5 A6 A7 A8 A9 A10]. split; try done. unfold b. by rewrite length_put_bytes. }
    intros s2 H2. exists (<[t := b]> V), b. split; [done|].
    apply write_rewritten; try done. intros u. by apply (holds_length _ _ _ _ _ u H). }
  unfold write_chunk. apply wp_bind. destruct (negb (start =? 0) || negb (av =? 512)) eqn:Ec.
  - eapply (wp_fat_read_sector may_fail g V B); [done..| |by intros]. intros s1 H1. by apply (Hfin (V t)).
  - apply wp_ret. by apply (Hfin B).
Qed.

Lemma patch_join pos a b f f2 p : 0 <= a → 0 <= b → (∀ x, f2 x = f (a + x)) →
  patch pos (a + b) f p = match patch (pos + a) b f2 p with Some v => Some v | None => patch pos a f p end.
Proof. intros Ha Hb Hf. unfold patch. repeat case_decide; try done; try lia. rewrite Hf. do 2 f_equal. lia. Qed.

(** The user's bytes from [po] on. *)
Definition user_bytes g (page po x : Z) : Z := byte_at (v_core g) page (po + x).

Lemma rewritten_join g c V l V1 l1 V2 l2 page po pos a b : vol_ok g → 0 <= a → 0 <= b → pos + a <= file_room g l1 →
  rewritten g c V l V1 l1 (patch pos a (user_bytes g page po)) → rewritten g c V1 l1 V2 l2 (patch (pos + a) b (user_bytes g page (po + a))) →
  rewritten g c V l V2 l2 (patch pos (a + b) (user_bytes g page po)).
Proof.
  intros Hv Ha Hb Hr H1 H2. eapply (fat_rewritten_trans g c V l V1 l1 _ V2 l2); [done|exact H1|exact H2| |].
  - intros p Hp. unfold patch. rewrite decide_False; [done|lia].
  - intros p _. apply patch_join; [done|done|]. intros x. unfold user_bytes. f_equal. lia.
Qed.

(** Growth before or after new bytes. *)
Lemma rewritten_after g c V l V1 l1 V2 l2 r : vol_ok g → rewritten g c V l V1 l1 (λ _, None) → rewritten g c V1 l1 V2 l2 r → rewritten g c V l V2 l2 r.
Proof. intros Hv H1 H2. eapply fat_rewritten_trans; [done|exact H1|exact H2|done|]. intros p _. by destruct (r p). Qed.
Lemma rewritten_before g c V l V1 l1 V2 l2 r : vol_ok g → rewritten g c V l V1 l1 r → rewritten g c V1 l1 V2 l2 (λ _, None) →
  (∀ p, file_room g l1 <= p → r p = None) → rewritten g c V l V2 l2 r.
Proof. intros Hv H1 H2 Hr. by eapply fat_rewritten_trans; [done|exact H1|exact H2| |]. Qed.

Lemma patch_none pos f p : patch pos 0 f p = None.
Proof. unfold patch. rewrite decide_False; [done|lia]. Qed.

Lemma rewritten_patch0 g c V l V' l' pos f : rewritten g c V l V' l' (λ _, None) → rewritten g c V l V' l' (patch pos 0 f).
Proof. intros [A B C]. split; [done| |done]. intros p Hp. rewrite patch_none. by apply B. Qed.

Lemma wp_write_sectors k g V B c l i (s : Z) sec_off byte_off page po n total pos u : vol_ok g → holds g V B u → chain g V c l → (i < length l)%nat →
  let start := chunk_start s sec_off byte_off in
  let len := Z.min (n - total) (Z.of_nat k * 512 - start) in
  pos = (Z.of_nat i * sectors_per_cluster g + s) * 512 + start →
  0 <= sec_off <= s → s + Z.of_nat k = sectors_per_cluster g → 0 <= byte_off < 512 → start <= Z.of_nat k * 512 → core_range (v_core g) page po (n - total) → 0 <= n - total →
  wp (write_sectors k s sec_off byte_off (cluster_sector g (l !!! i) 0) page po n total) (λ r s', r = (true, po + len, total + len) ∧
      ∃ V' B', holds g V' B' s' ∧ rewritten g c V l V' l (patch pos len (user_bytes g page po))) (λ _ _, False) u.
Proof.
  intros Hv. revert V B s po total pos u. induction k as [|k IH]; intros V B s po total pos u H Hch Hi start len Hpos Hs Hk Hb Hst Hrange Hrem; cbn [write_sectors];
    assert (0 <= start < 512) as Hst2 by (unfold start, chunk_start; destruct (s =? sec_off); lia).
  all: assert (len = 0 → (true, po, total) = (true, po + len, total + len) ∧ ∃ V' B', holds g V' B' u ∧ rewritten g c V l V' l (patch pos len (user_bytes g page po))) as Hstop.
  1,3: intros ->; rewrite !Z.add_0_r; split; [done|]; exists V, B; split; [done|]; apply rewritten_patch0, fat_rewritten_refl; [done|intros t; by apply (holds_length _ _ _ _ _ t H)].
  { apply wp_ret, Hstop. unfold len. lia. }
  destruct (Z.ltb_spec total n) as [Hlt|Hge]; [|apply wp_ret, Hstop; unfold len; lia].
  fold start. rewrite chunk_len_eq. set (av := Z.min (n - total) (512 - start)). assert (0 < av <= n - total ∧ start + av <= 512) as [Hav Hav2] by (unfold av; lia).
  set (q := Z.of_nat i * sectors_per_cluster g + s).
  assert (0 <= q < Z.of_nat (length l) * sectors_per_cluster g) as Hq by (unfold q; destruct Hv; nia).
  assert (u32 (cluster_sector g (l !!! i) 0 + s) = file_sector g l q) as ->.
  { rewrite (cluster_sector_file g V c l i s) by (done || lia). apply uN_small. pose proof (file_sector_data g c V l q Hv Hch Hq) as [? ?].
    destruct Hv. unfold vol_end, SECTOR_LIMIT in *. nia. }
  apply wp_bind, wp_attempt. eapply wp_mono; [eapply (wp_fat_write_chunk g V B c l q start page po av); try done; [lia..|]|..|by intros].
  { destruct Hrange as (R1 & R2 & R3 & R4). split_and!; try done. lia. }
  intros [] u1 (V1 & B1 & H1 & Hrw). rewrite (uN_small 16) by (destruct Hrange as (_ & _ & ? & ?); unfold PAGE_SIZE in *; lia).
  assert (chunk_start (s + 1) sec_off byte_off = 0) as E0 by (unfold chunk_start; destruct (Z.eqb_spec (s + 1) sec_off); [lia|done]).
  assert (pos = q * 512 + start) as Epos by (unfold q; lia). rewrite <-Epos in Hrw.
  eapply wp_mono; [apply (IH V1 B1 (s + 1) (po + av) (total + av) ((q + 1) * 512)); rewrite ?E0; try done; try lia|..|done].
  - by apply (gr_chain _ _ _ _ _ _ (rw_grown _ _ _ _ _ _ _ Hrw)).
  - destruct Hrange as (R1 & R2 & R3 & R4). split_and!; try done; lia.
  - rewrite E0, Z.sub_0_r. intros r u2 (-> & V2 & B2 & H2 & Hrw2).
    assert (len = av + (n - (total + av)) `min` (Z.of_nat k * 512)) as El by (unfold len, av; lia).
    split; [by rewrite El, !Z.add_assoc|]. exists V2, B2. split; [done|]. rewrite El.
    destruct (decide (av = 512 - start)) as [Ea|Ea].
    + eapply rewritten_join; [done|lia|lia| |exact Hrw|]; [unfold file_room; rewrite (vo_bpc _ Hv); nia|]. replace (pos + av) with ((q + 1) * 512) by lia. exact Hrw2.
    + assert (n - (total + av) = 0) as Ez by (unfold av in *; lia). rewrite Ez in Hrw2 |- *. rewrite Z.min_l in Hrw2 |- * by lia. rewrite Z.add_0_r.
      eapply rewritten_before; [done|exact Hrw| |].
      * destruct Hrw2 as [A2 B2' C2]. split; [done| |done]. intros p Hp. rewrite B2' by done. by rewrite patch_none.
      * intros p Hp. unfold patch. rewrite decide_False; [done|]. unfold file_room in Hp. rewrite (vo_bpc _ Hv) in Hp. nia.
Qed.

Lemma lengths_of g V B s : holds g V B s → ∀ t, visible g t → length (V t) = SECTOR.
Proof. intros H t. by apply (holds_length _ _ _ _ _ t H). Qed.

Lemma rw_chain g c V l V' l' r : rewritten g c V l V' l' r → chain g V' c l'.
Proof. intros H. exact (gr_chain _ _ _ _ _ _ (rw_grown _ _ _ _ _ _ _ H)). Qed.

Lemma chain_not_eoc g V c l i : vol_ok g → chain g V c l → (i < length l)%nat → live (l !!! i) = true ∧ FAT_EOC (l !!! i) = false.
Proof.
  intros Hv Hch Hi. destruct (chain_next g V c l i Hch Hi) as [Hok _]. pose proof (cluster_live g _ Hv Hok) as Hl. split; [done|].
  unfold live in Hl. by apply andb_true_iff in Hl as [_ ?%negb_true_iff].
Qed.

(** A cluster is linked behind the last one, or there is none. *)
Lemma wp_link g V B c l s (m : Z → prog vfat_t unit) : vol_ok g → holds g V B s → chain g V c l → l ≠ [] →
  (∀ d, m d = fat_set (l !!! pred (length l)) d) →
  wp (d ← fat_alloc_cluster; m d;; mret d) (λ d s', ∃ V', holds g V' B s' ∧ rewritten g c V l V' (l ++ [d]) (λ _, None))
    (λ e s', e = - ENOSPC ∧ holds g V B s' ∧ full g V) s.
Proof.
  intros Hv H Hch Hne Hm. apply wp_bind. eapply wp_mono; [by apply (wp_fat_alloc may_fail g V B)| |].
  2:{ intros e s1 [_ [?|(-> & Hf & H1)]]; [by destruct works|done]. }
  intros d s1 (Hd & _ & H1). rewrite Hm. destruct (exists_last Hne) as (l0 & z & ->). apply wp_bind.
  assert ((l0 ++ [z]) !!! pred (length (l0 ++ [z])) = z) as -> by (rewrite length_app, Nat.add_comm; cbn; rewrite lookup_total_app_r, Nat.sub_diag by lia; done).
  pose proof (chain_ok _ _ _ _ Hch) as Ho. rewrite Forall_app, Forall_singleton in Ho. destruct Ho as [_ Hz].
  eapply wp_mono; [by apply (wp_fat_set may_fail g (set_entry g d FAT_MASK V) B)| |by intros e s2 [_ ?]; destruct works]. intros [] s2 H2. apply wp_ret.
  destruct (grown_snoc g c V l0 z d Hv Hch Hd (lengths_of _ _ _ _ H)) as [G D]. eexists. split; [exact H2|]. by apply rewritten_grown.
Qed.

Lemma wp_next_or_new g V B c l i s : vol_ok g → holds g V B s → chain g V c l → (i < length l)%nat →
  wp (next_or_new (l !!! i)) (λ d s', ∃ V' l', holds g V' B s' ∧ rewritten g c V l V' l' (λ _, None) ∧ (S i < length l')%nat ∧ d = l' !!! S i)
    (λ e s', e = - ENOSPC ∧ holds g V B s' ∧ full g V) s.
Proof.
  intros Hv H Hch Hi. destruct (chain_next g V c l i Hch Hi) as [Hok Hnext]. unfold next_or_new. apply wp_bind.
  eapply wp_mono; [by apply (wp_fat_get may_fail g V B)| |by intros e s2 [_ ?]; destruct works]. intros ? s1 [-> H1].
  destruct (decide (S i < length l)%nat) as [Hs|Hs].
  - rewrite (chain_at g V _ l (S i) Hnext Hs). rewrite (proj2 (chain_not_eoc g V c l (S i) Hv Hch Hs)). apply wp_ret.
    exists V, l. split_and!; [done| |done|done]. apply fat_rewritten_refl; [done|]. by eapply lengths_of.
  - assert (S i = length l) as Ei by lia. rewrite drop_ge in Hnext by lia. inversion Hnext as [? He|]; subst. rewrite He.
    eapply wp_mono; [apply (wp_link g V B c l s1); try done; [by intros ->|]| |done].
    { intros d. by rewrite <-Ei. }
    intros d s2 (V' & H2 & Hrw). exists V', (l ++ [d]). split_and!; [done|done|rewrite length_app; cbn; lia|].
    rewrite lookup_total_app_r, Ei, Nat.sub_diag by lia. done.
Qed.

Lemma wp_seek fuel g V B c l i prev skip s : vol_ok g → holds g V B s → chain g V c l → (i < length l)%nat → 0 <= skip < Z.of_nat fuel →
  wp (seek_cluster fuel (l !!! i) prev skip) (λ r s', ∃ V' l' j prev' skip', r = (l' !!! j, prev', skip') ∧ holds g V' B s' ∧ rewritten g c V l V' l' (λ _, None) ∧
      (j < length l')%nat ∧ 0 <= skip' < bytes_per_cluster g ∧ Z.of_nat j * bytes_per_cluster g + skip' = Z.of_nat i * bytes_per_cluster g + skip)
    (λ e s', e = - ENOSPC ∧ ∃ V' l', holds g V' B s' ∧ rewritten g c V l V' l' (λ _, None) ∧ full g V') s.
Proof.
  intros Hv. revert V l i prev skip s. induction fuel as [|fuel IH]; intros V l i prev skip s H Hch Hi Hskip; cbn [seek_cluster]; [lia|].
  assert (0 < bytes_per_cluster g) as Hbpc by (destruct Hv; lia).
  assert (rewritten g c V l V l (λ _, None)) as Hrefl by (apply fat_rewritten_refl; [done|by eapply lengths_of]).
  apply wp_bind, wp_gets. destruct (h_geo _ _ _ _ _ H) as (_ & -> & _). destruct (Z.leb_spec (bytes_per_cluster g) skip) as [Hle|Hlt].
  2:{ apply wp_ret. exists V, l, i, prev, skip. split_and!; try done; lia. }
  apply wp_bind. eapply wp_mono; [by apply (wp_next_or_new g V B c l i)| |].
  - intros d s1 (V1 & l1 & H1 & Hrw & Hsi & ->).
    eapply wp_mono; [apply (IH V1 l1 (S i)); [done|by eapply rw_chain|done|lia]|..].
    + intros r s2 (V2 & l2 & j & pr & sk & -> & H2 & Hrw2 & Hj & Hsk & E). exists V2, l2, j, pr, sk. split_and!; try done; try (rewrite Nat2Z.inj_succ in E; lia).
      by eapply rewritten_after.
    + intros e s2 (-> & V2 & l2 & H2 & Hrw2 & Hf). split; [done|]. exists V2, l2. split_and!; [done| |done]. by eapply rewritten_after.
  - intros e s1 (-> & H1 & Hf). split; [done|]. by exists V, l.
Qed.

(** Where a pass of the write loop begins: at a cluster of the chain, or behind
    its last one. *)
Definition at_place (l : list Z) (i : nat) (c' prev skip : Z) : Prop :=
  (i < length l)%nat ∧ c' = l !!! i ∨ i = length l ∧ FAT_EOC c' = true ∧ l ≠ [] ∧ prev = l !!! pred i ∧ skip = 0.

Lemma wp_take_cluster g V B c l i c' prev skip s : vol_ok g → holds g V B s → chain g V c l → at_place l i c' prev skip →
  wp (if (c' <? 2) || FAT_EOC c' then attempt (c ← extend_chain prev; mret (c, 0)) else mret (inr (c', skip)))
    (λ r s', match r with
             | inr p => ∃ V' l', p = (l' !!! i, skip) ∧ holds g V' B s' ∧ rewritten g c V l V' l' (λ _, None) ∧ (i < length l')%nat
             | inl e => holds g V B s' ∧ full g V ∧ i = length l ∧ skip = 0
             end) (λ _ _, False) s.
Proof.
  intros Hv H Hch [[Hi ->]|(-> & He & Hne & -> & ->)].
  - destruct (chain_not_eoc g V c l i Hv Hch Hi) as [Hl ->]. unfold live in Hl. apply andb_true_iff in Hl as [H2%Z.leb_le _].
    assert ((l !!! i <? 2) = false) as -> by (apply Z.ltb_ge; lia). apply wp_ret. exists V, l. split_and!; try done. apply fat_rewritten_refl; [done|by eapply lengths_of].
  - rewrite He, orb_true_r. apply wp_attempt. unfold extend_chain.
    assert ((2 <=? l !!! pred (length l)) = true) as ->.
    { destruct (exists_last Hne) as (l0 & z & ->). rewrite length_app, Nat.add_comm. cbn. rewrite lookup_total_app_r, Nat.sub_diag by lia. cbn.
      pose proof (chain_ok _ _ _ _ Hch) as Ho. rewrite Forall_app, Forall_singleton in Ho. destruct Ho as [_ [? _]]. by apply Z.leb_le. }
    apply wp_bind. eapply wp_mono; [by apply (wp_link g V B c l s)| |].
    + intros d s1 (V' & H1 & Hrw). apply wp_ret. exists V', (l ++ [d]). rewrite lookup_total_app_r, Nat.sub_diag by lia. split_and!; try done. rewrite length_app. cbn. lia.
    + intros e s1 (-> & H1 & Hf). done.
Qed.

Lemma wp_write_clusters fuel g V B c l i c' prev skip page po n total u : vol_ok g → holds g V B u → chain g V c l → at_place l i c' prev skip →
  0 <= skip < bytes_per_cluster g → core_range (v_core g) page po (n - total) → 0 <= n - total < Z.of_nat fuel →
  let pos := Z.of_nat i * bytes_per_cluster g + skip in
  wp (write_clusters fuel c' prev skip page po n total) (λ r s', r.1 = true ∧ total <= r.2 <= n ∧ ∃ V' l' B', holds g V' B' s' ∧
      rewritten g c V l V' l' (patch pos (r.2 - total) (user_bytes g page po)) ∧ (r.2 = n ∨ full g V') ∧ (total < r.2 → pos + (r.2 - total) <= file_room g l'))
    (λ _ _, False) u.
Proof.
  intros Hv. revert V B l i c' prev skip po total u. induction fuel as [|fuel IH]; intros V B l i c' prev skip po total u H Hch Hat Hskip Hrange Hrem pos; cbn [write_clusters]; [lia|].
  assert (∀ V1 B1 l1 u1, holds g V1 B1 u1 → rewritten g c V l V1 l1 (λ _, None) → total <= n → total = n ∨ full g V1 →
    total <= total <= n ∧ ∃ V' l' B', holds g V' B' u1 ∧ rewritten g c V l V' l' (patch pos (total - total) (user_bytes g page po)) ∧ (total = n ∨ full g V') ∧
      (total < total → pos + (total - total) <= file_room g l')) as Hstop.
  { intros V1 B1 l1 u1 H1 Hrw1 Ht Hf. split; [lia|]. exists V1, l1, B1. split_and!; try done; [|lia]. rewrite Z.sub_diag. by apply rewritten_patch0. }
  assert (rewritten g c V l V l (λ _, None)) as Hrefl by (apply fat_rewritten_refl; [done|by eapply lengths_of]).
  assert (0 < bytes_per_cluster g ∧ bytes_per_cluster g = sectors_per_cluster g * 512) as [Hbpc Ebpc] by (destruct Hv; lia).
  destruct (Z.ltb_spec total n) as [Hlt|Hge].
  2:{ apply wp_ret. split; [done|]. apply (Hstop V B l u); [done|done|lia|left; cbn; lia]. }
  apply wp_bind. eapply wp_mono; [by apply (wp_take_cluster g V B c l i)| |done]. intros [e|p] u1.
  { intros (H1 & Hf & _ & _). apply wp_ret. split; [done|]. apply (Hstop V B l u1); [done|done|lia|by right]. }
  intros (V1 & l1 & -> & H1 & Hrw1 & Hi1). pose proof (rw_chain _ _ _ _ _ _ _ Hrw1) as Hch1.
  pose proof (proj1 (chain_next g V1 c l1 i Hch1 Hi1)) as Hok.
  apply wp_bind, wp_gets, wp_bind. cbn [id]. rewrite (cluster_to_sector_eq g V1 B u1) by done. destruct (h_geo _ _ _ _ _ H1) as (G1 & _). rewrite G1.
  set (so := skip / 512). set (st := skip mod 512).
  assert (0 <= so < sectors_per_cluster g ∧ 0 <= st < 512 ∧ skip = so * 512 + st) as (Hso & Hst & Eskip) by (unfold so, st; fat).
  assert (chunk_start so so st = st) as Ecs by (unfold chunk_start; by rewrite Z.eqb_refl).
  eapply wp_mono; [apply (wp_write_sectors _ g V1 B c l1 i so so st page po n total pos); rewrite ?Ecs; try done; [unfold pos; nia|lia..]| |done].
  rewrite Ecs. set (len := (n - total) `min` _). intros ? u2 (-> & V2 & B2 & H2 & Hrw2). cbn [negb].
  assert (0 < len <= n - total ∧ (len = n - total ∨ len = bytes_per_cluster g - skip)) as [Hlen Hend] by (unfold len; lia).
  assert (pos + len <= file_room g l1) as Hroom1 by (unfold file_room, pos; nia).
  pose proof (rw_chain _ _ _ _ _ _ _ Hrw2) as Hch2. destruct (chain_next g V2 c l1 i Hch2 Hi1) as [_ Hnext].
  apply wp_bind, wp_attempt. eapply wp_mono; [by apply (wp_fat_get may_fail g V2 B2)| |by intros e s2 [_ ?]; destruct works]. intros ? u3 [-> H3].
  pose proof (rewritten_after _ _ _ _ _ _ _ _ _ Hv Hrw1 Hrw2) as Hrw12.
  eapply wp_mono; [apply (IH V2 B2 l1 (S i) (entry g V2 (l1 !!! i)) (l1 !!! i) 0 (po + len) (total + len)); try done; try lia| |done].
  - destruct (decide (S i < length l1)%nat) as [Hs|Hs]; [left; split; [done|by eapply chain_at]|right].
    rewrite drop_ge in Hnext by lia. inversion Hnext. split_and!; try done; [lia|intros El; rewrite El in Hi1; cbn in Hi1; lia].
  - destruct Hrange as (R1 & R2 & R3 & R4). split_and!; try done; lia.
  - intros [b total'] u4. cbn [fst snd]. intros (-> & Ht & V3 & l3 & B3 & H4 & Hrw3 & Hf & Hroom). split; [done|]. split; [lia|]. exists V3, l3, B3. split; [done|].
    pose proof (gr_prefix _ _ _ _ _ _ (rw_grown _ _ _ _ _ _ _ Hrw3)) as Hpre. pose proof (file_room_prefix g l1 l3 Hv Hpre) as Hmono.
    destruct (decide (total' = total + len)) as [->|Hne].
    + rewrite Z.sub_diag in Hrw3. replace (total + len - total) with len by lia. split_and!; [|done|lia].
      eapply rewritten_before; [done|exact Hrw12| |intros p Hp; unfold patch; rewrite decide_False; [done|lia]].
      destruct Hrw3 as [A3 B3' C3]. split; [done| |done]. intros p Hp. rewrite B3' by done. by rewrite patch_none.
    + assert (len = bytes_per_cluster g - skip) as El by lia.
      assert (Z.of_nat (S i) * bytes_per_cluster g + 0 = pos + len) as Epos by (rewrite Nat2Z.inj_succ; unfold pos; nia). rewrite Epos in Hrw3, Hroom.
      replace (total' - total) with (len + (total' - (total + len))) by lia. split_and!; [|done|intros _; specialize (Hroom ltac:(lia)); lia].
      eapply rewritten_join; [done|lia|lia|exact Hroom1|exact Hrw12|exact Hrw3].
Qed.

(** The whole of a write: [n] bytes, or fewer and no cluster is free any more. *)
Lemma wp_write_file g V B c l page po n off u : vol_ok g → holds g V B u → chain g V c l → l ≠ [] → 0 <= off → 0 <= n → core_range (v_core g) page po n →
  wp (write_file c page po n off) (λ r s', r.1 = true ∧ 0 <= r.2 <= n ∧ ∃ V' l' B', holds g V' B' s' ∧
      rewritten g c V l V' l' (patch off r.2 (user_bytes g page po)) ∧ (r.2 = n ∨ full g V') ∧ off + r.2 <= file_room g l')
    (λ e s', e = - ENOSPC ∧ ∃ V' l', holds g V' B s' ∧ rewritten g c V l V' l' (λ _, None) ∧ full g V') u.
Proof.
  intros Hv H Hch Hne Hoff Hn Hrange. unfold write_file.
  assert (0 < length l)%nat as Hi by (destruct l; [done|cbn; lia]).
  assert (c = l !!! 0%nat) as Ec by (apply (chain_at g V c l 0); [by rewrite drop_0|done]). rewrite Ec at 1.
  apply wp_bind. eapply wp_mono; [apply (wp_seek _ g V B c l 0); try done; lia| |done].
  intros r u1 (V1 & l1 & j & pr & sk & -> & H1 & Hrw1 & Hj & Hsk & E). rewrite <-(Z.sub_0_r n) in Hrange.
  eapply wp_mono; [apply (wp_write_clusters _ g V1 B c l1 j _ pr sk page po n 0); try done; [by eapply rw_chain|by left|lia]| |done].
  intros [b t] u2. cbn [fst snd]. intros (-> & Ht & V2 & l2 & B2 & H2 & Hrw2 & Hf & Hroom). rewrite Z.sub_0_r in Hrw2, Hroom.
  rewrite E in Hrw2, Hroom. cbn [Z.of_nat] in Hrw2, Hroom. rewrite Z.mul_0_l, Z.add_0_l in Hrw2, Hroom.
  split; [done|]. split; [lia|]. exists V2, l2, B2.
  pose proof (file_room_prefix g l1 l2 Hv (gr_prefix _ _ _ _ _ _ (rw_grown _ _ _ _ _ _ _ Hrw2))) as Hmono.
  assert (Z.of_nat j * bytes_per_cluster g + sk < file_room g l1) as Hj2 by (unfold file_room; nia).
  split_and!; try done; [by eapply rewritten_after|]. destruct (decide (0 < t)); [by apply Hroom|lia].
Qed.
End Writing.
End Files.
