(* ===== verification/VfatRun.v ===== *)
(** * VfatRun: what the FAT32 driver promises (src/kernel/vfs/vfat.c)

    The operations on vnodes: reading and writing a file whose clusters form a
    chain, and the table of clusters as a map. *)

From stdpp Require Import functions.
From S2P Require Import Prelude Bits Config ErrState PagePool Path Vfs Driver VfsFacts ModCore Tmpfs BlkDev BlkDevFacts SectorDev Vfat VfatOps VfatFat VfatFiles.

Section Run.
Context {cfg : PageConfig} {ps : PageStore} {psok : PageStoreOk} {sd : SectorDev} {sdok : SectorDevOk} {sds : SectorDevServes} {bo : ByteOrder}.
Context (links : nat).
Implicit Types (g u : vfat_t) (V : volume) (st : vfs_t vfat_t).

(** ** Files *)

Definition FILE_MAX : Z := 2 ^ 32.

(** The vnode of a file with the clusters [l]. *)
Record file_of g V (v : vnode_t) (l : list Z) : Prop := {
  fo_type : vn_type v ≠ VNODE_DIR;
  fo_chain : chain g V (vn_ino v) l;
  fo_some : l ≠ [];
  fo_size : 0 <= vn_size v <= file_room g l;
  fo_max : vn_size v < FILE_MAX
}.

(** C31. [k] bytes of the file [l] from [off] on are in the caller's page, and nothing
    else has changed. *)
Theorem vfat_read_correct may_fail g V B (vn : nat) l page po n off st r st' : vol_ok g → holds may_fail g V B (fs_world st) → file_of g V (vnode st vn) l →
  core_range (v_core g) page po n → 0 <= n → 0 <= off → off + n < FILE_MAX → vfat_read vn page po n off st = (r, st') →
  match r with
  | inl e => e < 0 ∧ may_fail
  | inr k => k = Z.max 0 (Z.min n (vn_size (vnode st vn) - off)) ∧ ∃ B' c', holds may_fail (set_vcore c' g) V B' (fs_world st') ∧
      copied (v_core g) c' page po k (λ x, file_byte g V l (off + x)) ∧ st' = set_fs (fs_world st') st
  end.
Proof.
  intros Hv H [Hty Hch Hne Hsz Hsm] Hrange Hn Hoff Hmax. unfold FILE_MAX in *. set (v := vnode st vn) in *.
  assert (wp (vfat_read vn page po n off) (λ k st', k = Z.max 0 (Z.min n (vn_size v - off)) ∧ ∃ B' c', holds may_fail (set_vcore c' g) V B' (fs_world st') ∧
      copied (v_core g) c' page po k (λ x, file_byte g V l (off + x)) ∧ st' = set_fs (fs_world st') st) (λ e _, e < 0 ∧ may_fail) st) as Hwp.
  2:{ intros E. exact (wp_run _ _ _ _ _ _ Hwp E). }
  unfold vfat_read. apply wp_bind, wp_gets. fold v. rewrite bool_decide_eq_false_2 by done. destruct (Z.leb_spec (vn_size v) off) as [Hle|Hlt].
  { apply wp_ret. split; [lia|]. exists B, (v_core g). split; [by destruct g|]. split; [|by destruct st]. apply copied_none; [apply Hrange|lia]. }
  rewrite !(uN_small 32) by lia. set (k := if vn_size v <? off + n then vn_size v - off else n).
  assert (k = Z.min n (vn_size v - off)) as Ek by (unfold k; destruct (Z.ltb_spec (vn_size v) (off + n)); lia).
  assert (core_range (v_core g) page po k) as Hrk by (destruct Hrange as (R1 & R2 & R3 & R4); split_and!; try done; lia).
  apply wp_bind, wp_lift. eapply wp_mono; [apply (wp_read_file may_fail g V B l (vn_ino v) page po k off); try done; lia| |done].
  intros ? u1 (-> & B' & c' & H1 & Hcp). apply wp_ret. rewrite s32_small by (destruct Hrk as (_ & _ & ? & ?); unfold PAGE_SIZE in *; lia).
  split; [lia|]. by exists B', c'.
Qed.

(** ** Writing *)

Lemma wp_update_entry g V B (d x off : Z) f u : vol_ok g → holds False g V B u → cluster_ok g d → 0 <= x < sectors_per_cluster g →
  (∀ o b, length (f o b) = length b) → let t := cluster_sector g d x in
  wp (update_entry t off f) (λ _ u', ∃ B', holds False g (<[t := f (Z.to_nat off) (V t)]> V) B' u') (λ _ _, False) u.
Proof.
  intros Hv H Hd Hx Hf t. pose proof (cluster_sector_data g d x Hv Hd Hx) as Ht. fold t in Ht. unfold update_entry.
  assert (0 < t) as Hpos by (destruct Ht, Hv; nia). destruct (Z.ltb_spec 0 t); [|lia]. cbn [orb].
  apply wp_bind. eapply (wp_read_status False g V B); [done..|]. intros rc B1 u1 H1 HB [->|[]]. cbn [Z.eqb]. rewrite HB in H1 by lia.
  apply wp_bind, wp_modify, wp_ignore. rewrite (h_buf _ _ _ _ _ H1). set (b := f (Z.to_nat off) (V t)).
  eapply (wp_fat_write_sector False g V b); [done| |done| |by intros].
  - destruct H1 as [A1 A2 A3 A4 A5 A6 A7 A8 A9 A10]. split; try done. unfold b. by rewrite Hf.
  - intros u2 H2. by exists b.
Qed.

(** Where the entry of a file is: at byte [o] of a sector in a cluster of another
    chain.  [DIRENT_POS_PACK] has 16 bits for the sector, so it must be one of the
    first 65536 of the volume, 32 MB; the code does not check this. *)
Record entry_of g V (v : vnode_t) (l : list Z) (d x o : Z) : Prop := {
  eo_cluster : cluster_ok g d;
  eo_used : entry g V d ≠ FAT_FREE;
  eo_apart : d ∉ l;
  eo_sector : 0 <= x < sectors_per_cluster g;
  eo_reach : cluster_sector g d x < 2 ^ 16;
  eo_offset : 0 <= o ∧ o + 32 <= 512;
  eo_pos : vn_xip_addr v = DIRENT_POS_PACK (cluster_sector g d x) o
}.

Lemma entry_position g V v l d x o : vol_ok g → entry_of g V v l d x o → DIRENT_POS_SEC v = cluster_sector g d x ∧ DIRENT_POS_OFF v = o.
Proof.
  intros Hv [E1 _ _ E4 E5 E6 E7]. pose proof (cluster_sector_data g d x Hv E1 E4) as Hd. assert (0 <= cluster_sector g d x) by (destruct Hd, Hv; nia).
  unfold DIRENT_POS_SEC, DIRENT_POS_OFF. rewrite E7. unfold DIRENT_POS_PACK. rewrite land_ffff, (u16_small o) by lia.
  rewrite (uN_small 32 (_ ≪ 16)) by (rewrite Z.shiftl_mul_pow2 by lia; lia). rewrite lor_words by lia. rewrite (uN_small 32) by lia. split.
  - rewrite Z.shiftr_div_pow2 by lia. symmetry. apply Z.div_unique with o; lia.
  - rewrite land_ffff. symmetry. unfold uN. apply Z.mod_unique with (cluster_sector g d x); lia.
Qed.

(** Of the sector [e] the size of the entry at [o] is the new one; nothing else has
    changed, and nothing at all unless the file grew. *)
Definition entry_sized V V' (e o : Z) (grew : bool) (size : Z) : Prop :=
  if grew then get_word 4 (Z.to_nat o + 28) (V' e) = size ∧ ∀ j, ¬ (o + 28 <= Z.of_nat j < o + 32) → V' e !! j = V e !! j
  else V' e = V e.

(** The sector of the entry is not one of the file's. *)
Lemma entry_apart g c V l V' l' v d x o r : vol_ok g → rewritten g c V l V' l' r → entry_of g V v l d x o → V' (cluster_sector g d x) = V (cluster_sector g d x).
Proof.
  intros Hv [G _ O] [E1 E2 E3 E4 _ _ _]. apply O; [by apply cluster_sector_data|]. intros d' y Hd' Hy E. apply cluster_sector_inj in E as [<- _]; [|done|done].
  destruct (gr_new _ _ _ _ _ _ G d Hd') as [?|[_ ?]]; done.
Qed.

Lemma put_size_length n o b : length (put_size n o b) = length b.
Proof. apply length_put_bytes. Qed.

(** The sector of the entry is none of the file's, before or after. *)
Lemma entry_update g c V l V' l' v d x o b r : vol_ok g → rewritten g c V l V' l' r → entry_of g V v l d x o → length b = SECTOR →
  let V2 := <[cluster_sector g d x := b]> V' in
  grown g c V l V2 l' ∧ (∀ p, 0 <= p < file_room g l' → file_byte g V2 l' p = default (file_byte g V l' p) (r p)) ∧
  ∀ t, data_sector g t → t ≠ cluster_sector g d x → (∀ e y, e ∈ l' → 0 <= y < sectors_per_cluster g → t ≠ cluster_sector g e y) → V2 t = V t.
Proof.
  intros Hv [G R O] [E1 E2 E3 E4 _ _ _] Hb V2. pose proof (cluster_sector_data g d x Hv E1 E4) as Hd.
  assert (d ∉ l') as Hdl by (intros Hi; destruct (gr_new _ _ _ _ _ _ G d Hi) as [?|[_ ?]]; done). split_and!.
  - eapply grown_trans; [exact G|]. apply data_grown; try done; [apply (gr_chain _ _ _ _ _ _ G)|apply (gr_lengths _ _ _ _ _ _ G)].
  - intros p Hp. rewrite <-R by done. unfold file_byte. destruct (file_place g l' p Hv Hp) as (Hq & Hi & Hm). unfold V2. rewrite fn_lookup_insert_ne; [done|].
    intros E. symmetry in E. apply cluster_sector_inj in E as [E _]; [|done|done]. apply Hdl. rewrite <-E. by apply list_elem_of_lookup_total_2.
  - intros t Ht Hne Hn. unfold V2. rewrite fn_lookup_insert_ne by done. by apply O.
Qed.

Lemma put_size_entry V V' e o b size : 0 <= o → o + 32 <= 512 → 0 <= size < 2 ^ 32 → length (V e) = SECTOR → V' e = put_size size (Z.to_nat o) (V e) →
  b = true → entry_sized V V' e o b size.
Proof.
  intros H1 H2 H3 Hl E ->. unfold entry_sized. rewrite E. unfold put_size. split.
  - rewrite get_put_word by (rewrite Hl; fat). by apply uN_small.
  - intros j Hj. apply put_bytes_other. rewrite length_bytes_of. lia.
Qed.

(** What is common to both outcomes of a write: other sectors, the entry's apart. *)
Definition others_kept g V V' (l' : list Z) (e : Z) : Prop :=
  ∀ t, data_sector g t → t ≠ e → (∀ c y, c ∈ l' → 0 <= y < sectors_per_cluster g → t ≠ cluster_sector g c y) → V' t = V t.

Lemma vnode_upd_eq st vn f : (vn < length (vnodes st))%nat → vnode (upd_vnode vn f st) vn = f (vnode st vn).
Proof. intros Hn. unfold vnode, upd_vnode. cbn [vnodes]. rewrite list_lookup_total_alter. case_decide as Hd; [done|]. destruct Hd. done. Qed.

(** [k] of the [n] bytes are in the file, which has become [l'] with the vnode [v']. *)
Definition wrote g V (v : vnode_t) e o page po n off V' l' v' (k : Z) : Prop :=
  entry_sized V V' e o (vn_size v <? off + k) (off + k) ∧ 0 <= k <= n ∧ (k = n ∨ full g V') ∧ file_of g V' v' l' ∧ vn_size v' = Z.max (vn_size v) (off + k) ∧
  ∀ p, 0 <= p < file_room g l' → file_byte g V' l' p = if decide (off <= p < off + k) then user_bytes g page po (p - off) else file_byte g V l' p.
(** There is no free cluster, and the file has its bytes and its entry. *)
Definition refused g V (v : vnode_t) e V' l' v' (err : Z) : Prop :=
  V' e = V e ∧ err = - ENOSPC ∧ full g V' ∧ v' = v ∧ ∀ p, 0 <= p < file_room g l' → file_byte g V' l' p = file_byte g V l' p.
(** The volume afterwards. *)
Definition after_write g V l (v : vnode_t) e (u' : vfat_t) (P : volume → list Z → Prop) : Prop :=
  ∃ V' B' l', holds False g V' B' u' ∧ grown g (vn_ino v) V l V' l' ∧ others_kept g V V' l' e ∧ P V' l'.

Lemma patch_default g V l p off k page po :
  default (file_byte g V l p) (patch off k (user_bytes g page po) p) = if decide (off <= p < off + k) then user_bytes g page po (p - off) else file_byte g V l p.
Proof. unfold patch. by case_decide. Qed.

Lemma wp_vfat_write g V B (vn : nat) l d x o page po n off st : vol_ok g → holds False g V B (fs_world st) →
  (vn < length (vnodes st))%nat → let v := vnode st vn in let e := cluster_sector g d x in
  file_of g V v l → entry_of g V v l d x o → core_range (v_core g) page po n → 0 <= n → 0 <= off → off + n < FILE_MAX →
  wp (vfat_write vn page po n off) (λ k st', after_write g V l v e (fs_world st') (λ V' l', wrote g V v e o page po n off V' l' (vnode st' vn) k))
    (λ err st', after_write g V l v e (fs_world st') (λ V' l', refused g V v e V' l' (vnode st' vn) err)) st.
Proof.
  intros Hv H Hvn v e [Hty Hch Hne Hsz Hsm] He Hrange Hn Hoff Hmax. unfold FILE_MAX in *. unfold vfat_write. apply wp_bind, wp_gets. fold v.
  rewrite bool_decide_eq_false_2 by done. apply wp_bind. unfold first_cluster. apply wp_bind, wp_gets. fold v.
  assert ((vn_ino v <? 2) = false) as ->.
  { inversion Hch as [? ? |c l' [Hc _]]; subst; [done|]. by apply Z.ltb_ge. }
  apply wp_ret, wp_bind, wp_lift. eapply wp_mono; [by apply (wp_write_file False ltac:(tauto) g V B (vn_ino v) l)|..].
  2:{ intros err u (-> & V' & l' & H' & Hrw & Hf). pose proof (entry_apart _ _ _ _ _ _ _ _ _ _ _ Hv Hrw He). destruct Hrw as [G R O].
    exists V', B, l'. split_and!; try done. intros t Ht _ Hnt. by apply O. }
  intros [b k] u. cbn [fst snd]. intros (-> & Hk & V1 & l1 & B1 & H1 & Hrw & Hf & Hroom). cbn [negb]. rewrite (uN_small 32) by lia.
  assert (∀ V2 B2 st2 v2, holds False g V2 B2 (fs_world st2) → grown g (vn_ino v) V l V2 l1 → others_kept g V V2 l1 e →
    (∀ p, 0 <= p < file_room g l1 → file_byte g V2 l1 p = default (file_byte g V l1 p) (patch off k (user_bytes g page po) p)) → (full g V1 → full g V2) →
    entry_sized V V2 e o (vn_size v <? off + k) (off + k) →
    vnode st2 vn = v2 → vn_type v2 = vn_type v ∧ vn_ino v2 = vn_ino v ∧ vn_size v2 = Z.max (vn_size v) (off + k) →
    wp (lift (ignore fat_flush);; mret (s32 k)) (λ k st', after_write g V l v e (fs_world st') (λ V' l', wrote g V v e o page po n off V' l' (vnode st' vn) k))
      (λ err st', after_write g V l v e (fs_world st') (λ V' l', refused g V v e V' l' (vnode st' vn) err)) st2) as Hfin.
  { intros V2 B2 st2 v2 H2 G2 O2 R2 F2 S2 Ev (Et & Ei & Es). apply wp_bind, wp_lift, wp_ignore.
    eapply wp_mono; [by apply (wp_fat_flush False g V2 B2)| |by intros ? u2 (_ & [] & _)].
    intros [] u2 [H3 _]. apply wp_ret. rewrite s32_small by (destruct Hrange as (_ & _ & ? & ?); unfold PAGE_SIZE in *; lia).
    change (vnode (set_fs u2 st2) vn) with (vnode st2 vn). rewrite Ev. exists V2, B2, l1. split; [exact H3|]. split; [done|]. split; [done|].
    split; [done|]. split; [done|]. split; [naive_solver|]. split; [|split; [done|]].
    - split; [by rewrite Et|rewrite Ei; apply G2| |rewrite Es|rewrite Es; unfold FILE_MAX; lia].
      + destruct (gr_prefix _ _ _ _ _ _ G2) as [m ->]. by destruct l.
      + pose proof (file_room_prefix g l l1 Hv (gr_prefix _ _ _ _ _ _ G2)). lia.
    - intros p Hp. rewrite R2 by done. apply patch_default. }
  destruct (Z.ltb_spec (vn_size v) (off + k)) as [Hlt|Hge].
  - apply wp_bind, wp_bind, wp_modify, wp_lift. cbn [fs_world upd_vnode set_fs]. destruct (entry_position _ _ _ _ _ _ _ Hv He) as [-> ->]. fold e.
    eapply wp_mono; [apply (wp_update_entry g V1 B1 d x _ (put_size (off + k)) u Hv H1); [apply He|apply He|apply put_size_length]| |done].
    intros [] u2 (B2 & H2). set (b := put_size _ _ _) in H2.
    assert (length b = SECTOR) as Lb.
    { unfold b. rewrite put_size_length. apply (holds_length _ _ _ _ _ _ H1). right. apply cluster_sector_data; [done|apply He|apply He]. }
    destruct (entry_update g (vn_ino v) V l V1 l1 v d x o b _ Hv Hrw He Lb) as (G2 & R2 & O2). fold e in G2, R2, O2.
    apply (Hfin (<[e := b]> V1) B2 _ (set_vn_size (off + k) v)); [exact H2|done|exact O2|exact R2| | |by apply vnode_upd_eq|].
    + intros Hfull c [Hc Hz]. apply (Hfull c). split; [done|]. rewrite <-Hz. symmetry. apply data_entry; [done| |done].
      apply cluster_sector_data; [done|apply He|apply He].
    + apply put_size_entry; [apply He|apply He|lia| | |done].
      * apply (holds_length _ _ _ _ _ _ H). right. apply cluster_sector_data; [done|apply He|apply He].
      * rewrite fn_lookup_insert. unfold b. by rewrite (entry_apart _ _ _ _ _ _ _ _ _ _ _ Hv Hrw He).
    + cbn. rewrite (uN_small 32) by lia. split_and!; [done|done|lia].
  - apply wp_bind, wp_ret. pose proof (entry_apart _ _ _ _ _ _ _ _ _ _ _ Hv Hrw He). destruct Hrw as [G R O].
    apply (Hfin V1 B1 _ v); try done; [|split_and!; [done|done|lia]].
    intros t Ht _ Hnt. by apply O.
Qed.

(** C30. A write to a file that has at least one cluster, and whose directory entry
    lies in the first 65536 sectors of the volume (32 MB, all that the position
    kept in the vnode can name: [entry_of]), on a device that serves the volume,
    writes all of its bytes, unless no cluster is free any more.  The size grows to
    the end of what is written, in the vnode and in the entry on the disk; of the
    entry's sector nothing but that size changes, and nothing where the file does
    not grow.  No other byte of the file or of another chain changes, and the chain
    grows by clusters that were free. *)
Theorem vfat_write_correct g V B (vn : nat) l d x o page po n off st r st' : vol_ok g → holds False g V B (fs_world st) →
  (vn < length (vnodes st))%nat → let v := vnode st vn in let e := cluster_sector g d x in
  file_of g V v l → entry_of g V v l d x o → core_range (v_core g) page po n → 0 <= n → 0 <= off → off + n < FILE_MAX →
  vfat_write vn page po n off st = (r, st') →
  ∃ V' B' l', holds False g V' B' (fs_world st') ∧ grown g (vn_ino v) V l V' l' ∧ others_kept g V V' l' e ∧
    match r with
    | inl err => refused g V v e V' l' (vnode st' vn) err
    | inr k => wrote g V v e o page po n off V' l' (vnode st' vn) k
    end.
Proof.
  intros Hv H Hvn v e Hfile He Hrange Hn Hoff Hmax E.
  pose proof (wp_run _ _ _ _ _ _ (wp_vfat_write g V B vn l d x o page po n off st Hv H Hvn Hfile He Hrange Hn Hoff Hmax) E) as Hw. by destruct r.
Qed.

(** ** The FAT as a map *)

Inductive fat_call := FatGet (c : Z) | FatSet (c v : Z) | FatAlloc | FatFlush.

Definition fat_run (k : fat_call) : prog vfat_t Z :=
  match k with
  | FatGet c => fat_get c
  | FatSet c v => fat_set c v;; mret 0
  | FatAlloc => fat_alloc_cluster
  | FatFlush => fat_flush;; mret 0
  end.
Definition call_ok g (k : fat_call) : Prop := match k with FatGet c | FatSet c _ => cluster_ok g c | _ => True end.

(** The same on a map from clusters to entries of 28 bits, with [n] clusters. *)
Fixpoint first_free (M : Z → Z) (n : nat) (c : Z) : option Z :=
  match n with
  | O => None
  | S n => if M c =? FAT_FREE then Some c else first_free M n (c + 1)
  end.
Definition map_run (n : Z) (k : fat_call) (M : Z → Z) : (Z + Z) * (Z → Z) :=
  match k with
  | FatGet c => (inr (M c), M)
  | FatSet c v => (inr 0, <[c := v mod 2 ^ 28]> M)
  | FatAlloc => match first_free M (Z.to_nat n) 2 with Some c => (inr c, <[c := FAT_MASK]> M) | None => (inl (- ENOSPC), M) end
  | FatFlush => (inr 0, M)
  end.

Fixpoint fat_runs (ks : list fat_call) u : list (Z + Z) * vfat_t :=
  match ks with
  | [] => ([], u)
  | k :: ks => let '(r, u) := fat_run k u in let '(rs, u) := fat_runs ks u in (r :: rs, u)
  end.
Fixpoint map_runs (n : Z) (ks : list fat_call) (M : Z → Z) : list (Z + Z) * (Z → Z) :=
  match ks with
  | [] => ([], M)
  | k :: ks => let '(r, M) := map_run n k M in let '(rs, M) := map_runs n ks M in (r :: rs, M)
  end.

(** The driver has the map [M], over the data of [V0]. *)
Definition has_map g V0 B (M : Z → Z) u : Prop := ∃ V, holds False g V B u ∧ refat g V0 V M.

Lemma first_free_Some M n c d : c <= d < c + Z.of_nat n → M d = FAT_FREE → (∀ e, c <= e < d → M e ≠ FAT_FREE) → first_free M n c = Some d.
Proof.
  revert c. induction n as [|n IH]; intros c Hd Hf Hb; [lia|]. cbn [first_free]. destruct (Z.eqb_spec (M c) FAT_FREE) as [E|E].
  - destruct (decide (c = d)) as [->|]; [done|]. by destruct (Hb c ltac:(lia)).
  - apply IH; [|done|intros e He; apply Hb; lia]. destruct (decide (c = d)) as [->|]; [done|lia].
Qed.
Lemma first_free_None M n c : (∀ e, c <= e < c + Z.of_nat n → M e ≠ FAT_FREE) → first_free M n c = None.
Proof.
  revert c. induction n as [|n IH]; intros c Hb; [done|]. cbn [first_free]. destruct (Z.eqb_spec (M c) FAT_FREE) as [E|E]; [by destruct (Hb c ltac:(lia))|].
  apply IH. intros e He. apply Hb. lia.
Qed.

Lemma set_has_map g V0 V B M u c v : vol_ok g → cluster_ok g c → (∀ t, visible g t → length (V t) = SECTOR) → refat g V0 V M →
  holds False g (set_entry g c v V) B u → has_map g V0 B (<[c := v mod 2 ^ 28]> M) u.
Proof.
  intros Hv Hc Hlen [R1 R2] H. exists (set_entry g c v V). split; [done|]. destruct (set_entry_refat g V c v Hv Hlen Hc) as [R3 R4]. split; [|intros t Ht; by rewrite R4, R2].
  intros d Hd. rewrite R3 by done. case_decide as E; [subst; by rewrite fn_lookup_insert, land_mask|]. rewrite fn_lookup_insert_ne by done. by apply R1.
Qed.

Lemma fat_call_map g V0 B M u k : vol_ok g → has_map g V0 B M u → call_ok g k →
  (fat_run k u).1 = (map_run (total_clusters g) k M).1 ∧ has_map g V0 B (map_run (total_clusters g) k M).2 (fat_run k u).2.
Proof.
  intros Hv (V & H & HM) Hk. pose proof (lengths_of False g V B u H) as Hlen. pose proof HM as [R1 R2].
  assert (Z.of_nat (Z.to_nat (total_clusters g)) = total_clusters g) as En by (destruct Hv; lia).
  assert (wp (fat_run k) (λ x u', (map_run (total_clusters g) k M).1 = inr x ∧ has_map g V0 B (map_run (total_clusters g) k M).2 u')
    (λ e u', (map_run (total_clusters g) k M).1 = inl e ∧ has_map g V0 B (map_run (total_clusters g) k M).2 u') u) as Hwp.
  2:{ unfold wp in Hwp. destruct (fat_run k u) as [[e|x] u']; destruct Hwp as [-> ?]; done. }
  destruct k as [c|c v| |]; cbn [fat_run map_run fst snd] in *.
  - eapply wp_mono; [by apply (wp_fat_get False g V B)| |by intros e u' [_ []]]. intros ? u' [-> H']. split; [by rewrite R1|]. by exists V.
  - apply wp_bind. eapply wp_mono; [by apply (wp_fat_set False g V B)| |by intros e u' [_ []]]. intros [] u' H'. apply wp_ret. split; [done|]. by eapply set_has_map.
  - eapply wp_mono; [by apply (wp_fat_alloc False g V B)|..].
    + intros c u' ([Hc Hf] & Hb & H'). rewrite R1 in Hf by done. pose proof Hc as [Hc1 Hc2].
      rewrite (first_free_Some M _ 2 c); [|lia|done|]; [split; [done|]; exact (set_has_map g V0 V B M u' c FAT_MASK Hv Hc Hlen HM H')|].
      intros e He E. apply (Hb e He). assert (cluster_ok g e) by (unfold cluster_ok; lia). split; [done|]. by rewrite R1.
    + intros e u' [_ [[]|(-> & Hf & H')]]. rewrite first_free_None; [split; [done|]; by exists V|].
      intros d Hd E. assert (cluster_ok g d) by (unfold cluster_ok; lia). apply (Hf d). split; [done|]. by rewrite R1.
  - apply wp_bind. eapply wp_mono; [by apply (wp_fat_flush False g V B)| |by intros e u' (_ & [] & _)]. intros [] u' [H' _]. apply wp_ret. split; [done|]. by exists V.
Qed.

(** C32. Any sequence of accesses to the FAT through its cache gives the results of
    the same accesses to a map, and no cached change is lost: when none is pending,
    the FAT on the disk is that map. *)
Theorem fat_cache_is_map g V B u ks : vol_ok g → holds False g V B u → Forall (call_ok g) ks →
  let p := fat_runs ks u in let q := map_runs (total_clusters g) ks (entry g V) in
  p.1 = q.1 ∧ has_map g V B q.2 p.2 ∧ (fat_cache_dirty p.2 = false → ∀ c, cluster_ok g c → entry g (sector (v_disk p.2)) c = q.2 c).
Proof.
  intros Hv H Hks p q. assert (p.1 = q.1 ∧ has_map g V B q.2 p.2) as [E HM].
  { unfold p, q. assert (has_map g V B (entry g V) u) as HM by (exists V; split; [done|by split]). clear H p q. revert u HM. generalize (entry g V) as M. revert Hks.
    induction ks as [|k ks IH]; intros Hks M u HM; [done|]. inversion Hks; subst. cbn [fat_runs map_runs].
    destruct (fat_call_map g V B M u k) as [E1 E2]; [done..|]. destruct (fat_run k u) as [r u1]. destruct (map_run _ k M) as [r' M1]. cbn [fst snd] in *. subst r'.
    destruct (IH ltac:(done) M1 u1 E2) as [E3 E4]. destruct (fat_runs ks u1), (map_runs _ ks M1). cbn [fst snd] in *. by subst. }
  split; [done|]. split; [done|]. intros Hd c Hc. destruct HM as (V' & H' & [R1 _]). rewrite <-R1 by done.
  unfold entry, entry_word. destruct (fat_sector_of_eq g c Hv Hc) as (_ & _ & Hk). destruct (fat_visible g _ Hv Hk) as (Hvis & _).
  rewrite <-(h_view _ _ _ _ _ H') by done. unfold view. case_decide as Hcc; [|done]. destruct Hcc as [Hca ->]. by rewrite (h_clean _ _ _ _ _ H' Hd Hca).
Qed.

(** ** Freeing a chain *)

Lemma holds_same mf g V1 V2 B u : holds mf g V1 B u → holds mf g V2 B u → ∀ t, visible g t → V1 t = V2 t.
Proof. intros H1 H2 t Ht. by rewrite <-(h_view _ _ _ _ _ H1), <-(h_view _ _ _ _ _ H2). Qed.

Lemma chain_length g V c l : vol_ok g → chain g V c l → (length l <= Z.to_nat (total_clusters g))%nat.
Proof.
  intros Hv H. pose proof (chain_NoDup g V c l Hv H) as Hnd. pose proof (chain_ok _ _ _ _ H) as Ho.
  replace (Z.to_nat (total_clusters g)) with (length (clusters g)) by (unfold clusters; apply length_seqZ).
  apply submseteq_length, NoDup_submseteq; [done|]. intros d Hd. apply elem_of_clusters. rewrite Forall_forall in Ho. by apply Ho.
Qed.

(** C33. Freeing ends on every FAT whose links stay within the volume, cyclic ones
    included; it frees clusters only, and of a chain all of them and no other. *)
Theorem fat_free_chain_correct mf g V B c u r u' : vol_ok g → holds mf g V B u → links_ok g V → (live c = true → cluster_ok g c) →
  (Z.to_nat (total_clusters g) + 1 < links)%nat → fat_free_chain links c u = (r, u') →
  match r with
  | inl e => e < 0 ∧ mf
  | inr _ => ∃ V', holds mf g V' B u' ∧ (∀ t, data_sector g t → V' t = V t) ∧
      (∀ d, cluster_ok g d → entry g V' d = entry g V d ∨ entry g V' d = FAT_FREE) ∧
      ∀ l, chain g V c l → ∀ d, cluster_ok g d → entry g V' d = if decide (d ∈ l) then FAT_FREE else entry g V d
  end.
Proof.
  intros Hv H Hw Hc Hl E. pose proof (used_bound g V Hv) as Hu.
  pose proof (wp_run _ _ _ _ _ _ (wp_free_returns mf g B links V c u Hv H Hw Hc ltac:(lia)) E) as Hr. destruct r as [e|[]]; [done|].
  destruct Hr as (V' & H' & _ & D & F). exists V'. split_and!; try done. intros l Hch d Hd. pose proof (chain_length g V c l Hv Hch).
  pose proof (wp_run _ _ _ _ _ _ (wp_free_chain mf g B links V c l u Hv H Hch ltac:(lia)) E) as (V2 & H2 & [R _]). rewrite <-R by done.
  unfold entry, entry_word. destruct (fat_sector_of_eq g d Hv Hd) as (_ & _ & Hk). destruct (fat_visible g _ Hv Hk) as (Hvis & _).
  by rewrite (holds_same mf g V' V2 B u' H' H2).
Qed.
End Run.
