(* ===== verification/VfatDir.v ===== *)
(** * VfatDir: names and directories (src/kernel/vfs/vfat.c)

    Short names come back as they were given, but for the case of letters; a walk
    over a directory is a search through the 32-byte entries of its chain; and a
    file that was created under a short name is the one that lookup finds. *)

From stdpp Require Import functions.
From S2P Require Import Prelude Bits Config ErrState PagePool Path Vfs Driver VfsFacts ModCore Tmpfs BlkDev BlkDevFacts SectorDev Vfat VfatOps VfatFat VfatFiles VfatRun.

#[local] Open Scope c_scope.

(** ** Short names *)

(** Printable ASCII but for blanks and dots. *)
Definition plain (c : Z) : Prop := 33 <= c <= 126 ∧ c ≠ DOT.
Definition part_ok (n : nat) (cs : list Z) : Prop := (0 < length cs <= n)%nat ∧ Forall plain cs.

(** A base of up to eight characters and an extension of up to three. *)
Inductive short : name → Prop :=
| short_base b : part_ok 8 b → short b
| short_ext b e : part_ok 8 b → part_ok 3 e → short (b ++ DOT :: e).

Lemma lower_upper c : lower (upper c) = lower c.
Proof.
  unfold lower, upper. destruct (Z.leb_spec 97 c), (Z.leb_spec c 122); cbn [andb]; try done.
  destruct (Z.leb_spec 65 (c - 32)), (Z.leb_spec (c - 32) 90), (Z.leb_spec 65 c), (Z.leb_spec c 90); cbn [andb]; lia.
Qed.
Lemma upper_plain c : plain c → upper c ≠ BLANK ∧ upper c ≠ DOT ∧ 33 <= upper c <= 126.
Proof. unfold plain, upper, BLANK, DOT. intros [H1 H2]. destruct (Z.leb_spec 97 c), (Z.leb_spec c 122); cbn [andb]; lia. Qed.
Lemma sfn_char_plain c : plain c → sfn_char c = upper c.
Proof. intros H. destruct (upper_plain c H) as (H1 & H2 & _). unfold sfn_char. by destruct (Z.eqb_spec (upper c) BLANK), (Z.eqb_spec (upper c) DOT). Qed.

Lemma last_dot_plain cs : Forall plain cs → last_dot cs = None.
Proof. induction 1 as [|c cs [_ Hc] _ IH]; [done|]. cbn. rewrite IH. by destruct (Z.eqb_spec c DOT). Qed.
Lemma last_dot_ext b e : Forall plain e → last_dot (b ++ DOT :: e) = Some (length b).
Proof. intros He. induction b as [|c b IH]; cbn; [by rewrite last_dot_plain|by rewrite IH]. Qed.

Lemma pad_length n cs : length (pad n cs) = n.
Proof. unfold pad, blanks. rewrite length_take, length_app, length_replicate. lia. Qed.

Lemma sfn_part_blanks k : sfn_part (blanks k) = [].
Proof. by destruct k. Qed.
Lemma sfn_part_app cs k : Forall (λ c, c ≠ BLANK) cs → sfn_part (cs ++ blanks k) = lower <$> cs.
Proof. induction 1 as [|c cs Hc _ IH]; [apply sfn_part_blanks|]. cbn. destruct (Z.eqb_spec c BLANK); [done|]. by rewrite IH. Qed.

Lemma pad_eq n cs : (length cs <= n)%nat → pad n cs = cs ++ blanks (n - length cs).
Proof. intros H. unfold pad, blanks. rewrite take_app_ge by done. by rewrite take_replicate, Nat.min_l by lia. Qed.

Lemma sfn_part_pad n cs : part_ok n cs → sfn_part (pad n (upper <$> cs)) = lower <$> cs.
Proof.
  intros [Hl Hp]. rewrite pad_eq by (rewrite length_fmap; lia). rewrite sfn_part_app.
  - rewrite <-list_fmap_compose. apply list_fmap_ext. intros i c _. apply lower_upper.
  - apply Forall_fmap. eapply Forall_impl; [exact Hp|]. intros c Hc. by apply upper_plain.
Qed.

Lemma sfn_chars cs : Forall plain cs → sfn_char <$> cs = upper <$> cs.
Proof. induction 1; cbn; [done|]. by rewrite sfn_char_plain, IHForall. Qed.

Lemma generate_base b : part_ok 8 b → sfn_generate b = pad 8 (upper <$> b) ++ blanks 3.
Proof.
  intros [Hl Hp]. unfold sfn_generate. rewrite last_dot_plain by done. destruct (Nat.leb_spec (length b) 8); [|lia].
  by rewrite firstn_all, sfn_chars.
Qed.
Lemma generate_ext b e : part_ok 8 b → part_ok 3 e → sfn_generate (b ++ DOT :: e) = pad 8 (upper <$> b) ++ pad 3 (upper <$> e).
Proof.
  intros [Hl Hp] [He Hpe]. unfold sfn_generate. rewrite last_dot_ext by done. destruct (Nat.leb_spec (length b) 8); [|lia].
  rewrite take_app_length, sfn_chars by done. do 2 f_equal. rewrite drop_app_ge by lia. replace (S (length b) - length b)%nat with 1%nat by lia. cbn [drop].
  by rewrite drop_0, take_ge by lia.
Qed.

Lemma length_generate nm : short nm → length (sfn_generate nm) = 11%nat.
Proof.
  destruct 1; [rewrite generate_base by done|rewrite generate_ext by done]; rewrite length_app, !pad_length; [|done]. by unfold blanks; rewrite length_replicate.
Qed.

Lemma decode_parts p q : length p = 8%nat → sfn_text (p ++ q) = if q !!! 0%nat =? BLANK then sfn_part p else sfn_part p ++ DOT :: sfn_part (take 3 q).
Proof.
  intros Hp. unfold sfn_text. rewrite take_app_length', drop_app_length' by done. rewrite lookup_total_app_r by lia. by rewrite Hp.
Qed.

Lemma upper_lower c : upper (lower c) = upper c.
Proof.
  unfold lower, upper. destruct (Z.leb_spec 65 c), (Z.leb_spec c 90); cbn [andb]; try done.
  destruct (Z.leb_spec 97 (c + 32)), (Z.leb_spec (c + 32) 122), (Z.leb_spec 97 c), (Z.leb_spec c 122); cbn [andb]; lia.
Qed.
Lemma lower_plain c : plain c → plain (lower c).
Proof. unfold plain, lower, DOT. intros [H1 H2]. destruct (Z.leb_spec 65 c), (Z.leb_spec c 90); cbn [andb]; lia. Qed.

Lemma part_lower n cs : part_ok n cs → part_ok n (lower <$> cs).
Proof. intros [Hl Hp]. split; [by rewrite length_fmap|]. apply Forall_fmap. eapply Forall_impl; [exact Hp|]. apply lower_plain. Qed.

Lemma upper_of_lower (cs : list Z) : upper <$> (lower <$> cs) = upper <$> cs.
Proof. rewrite <-list_fmap_compose. apply list_fmap_ext. intros i c _. apply upper_lower. Qed.

Lemma generate_lower nm : short nm → sfn_generate (lower <$> nm) = sfn_generate nm.
Proof.
  destruct 1 as [b Hb|b e Hb He].
  - by rewrite !generate_base, upper_of_lower by (done || by apply part_lower).
  - rewrite fmap_app, fmap_cons. change (lower DOT) with DOT. by rewrite !generate_ext, !upper_of_lower by (done || by apply part_lower).
Qed.

Lemma c_string_whole cs : Forall (λ c, c ≠ NUL) cs → c_string cs = cs.
Proof. induction 1 as [|c cs Hc _ IH]; cbn [c_string]; [done|]. rewrite (proj2 (Z.eqb_neq c NUL)) by done. by rewrite IH. Qed.

Lemma short_no_nul nm : short nm → Forall (λ c, c ≠ NUL) (lower <$> nm).
Proof.
  assert (∀ n cs, part_ok n cs → Forall (λ c, lower c ≠ NUL) cs) as Hp.
  { intros n cs [_ H]. eapply Forall_impl; [exact H|]. intros c Hc%lower_plain. unfold plain, NUL in *. lia. }
  destruct 1 as [b Hb|b e Hb He]; apply Forall_fmap; [by eapply Hp|]. apply Forall_app. split; [by eapply Hp|]. constructor; [done|by eapply Hp].
Qed.

Lemma chars_generate nm : short nm → sfn_text (sfn_generate nm) = lower <$> nm.
Proof.
  destruct 1 as [b Hb|b e Hb He].
  - rewrite generate_base, decode_parts by (done || apply pad_length). cbn. by apply sfn_part_pad.
  - rewrite generate_ext, decode_parts by (done || apply pad_length). rewrite take_ge by (rewrite pad_length; lia). rewrite !sfn_part_pad by done.
    rewrite fmap_app, fmap_cons. change (lower DOT) with DOT. destruct (Z.eqb_spec (pad 3 (upper <$> e) !!! 0%nat) BLANK) as [E|]; [|done]. exfalso.
    destruct He as [He Hp]. destruct e as [|c e]; [cbn in He; lia|]. inversion Hp as [|? ? Hc]; subst. by destruct (upper_plain c Hc).
Qed.

Lemma decode_generate nm : short nm → sfn_decode (sfn_generate nm) = lower <$> nm.
Proof. intros H. unfold sfn_decode. rewrite chars_generate by done. by apply c_string_whole, short_no_nul. Qed.

Lemma eq_ci_lower a b : str_eq_ci a b = true ↔ lower <$> a = lower <$> b.
Proof.
  revert b. induction a as [|x a IH]; intros [|y b]; cbn; try done. destruct (Z.eqb_spec (lower x) (lower y)) as [E|E].
  - rewrite IH. split; [by intros ->; rewrite E|by intros [= _ ?]].
  - split; [done|by intros [= ? _]].
Qed.

(** A short name is decoded to itself in lower case, and two short names have the
    same encoding exactly where the driver takes them for the same name. *)
Theorem sfn_roundtrip nm : short nm → sfn_decode (sfn_generate nm) = lower <$> nm ∧
  ∀ nm', short nm' → sfn_generate nm = sfn_generate nm' ↔ str_eq_ci nm nm' = true.
Proof.
  intros H. split; [by apply decode_generate|]. intros nm' H'. rewrite eq_ci_lower. split.
  - intros E. by rewrite <-!decode_generate, E.
  - intros E. by rewrite <-(generate_lower nm), <-(generate_lower nm'), E.
Qed.

(** ** Entries *)

Section Dir.
Context {cfg : PageConfig} {ps : PageStore} {psok : PageStoreOk} {sd : SectorDev} {sdok : SectorDevOk} {sds : SectorDevServes} {bo : ByteOrder}.
Context (links : nat) (may_fail : Prop).
Implicit Types (g u : vfat_t) (V : volume) (st : vfs_t vfat_t).
#[local] Abbreviation holds := (holds may_fail).

(** The 32 bytes of an entry. *)
Definition rec_of (off : nat) (b : list Z) : list Z := take 32 (drop off b).

(** What is done at an entry depends on its bytes only. *)
Definition local_step {A B} (f : nat → list Z → A → A + B) : Prop := ∀ off b a, (off + 32 <= length b)%nat → f off b a = f O (rec_of off b) a.

Lemma rec_byte off b k : (k < 32)%nat → (off + 32 <= length b)%nat → rec_of off b !!! k = b !!! (off + k)%nat.
Proof. intros Hk Hl. unfold rec_of. by rewrite !list_lookup_total_alt, lookup_take_lt, lookup_drop by lia. Qed.
Lemma rec_word n off b k : (k + n <= 32)%nat → get_word n k (rec_of off b) = get_word n (off + k) b.
Proof. intros Hk. unfold get_word, rec_of. f_equal. rewrite skipn_firstn_comm, take_take, drop_drop. f_equal. lia. Qed.
Lemma rec_name off b : de_name O (rec_of off b) = de_name off b.
Proof. unfold de_name, rec_of. rewrite drop_0, take_take. done. Qed.

Lemma rec_lfn_chars off b : lfn_chars O (rec_of off b) = lfn_chars off b.
Proof.
  unfold lfn_chars. repeat (f_equal; [apply list_fmap_ext; intros i x Hi; apply lookup_seq in Hi as [-> Hi]; rewrite rec_word by lia; f_equal; lia|]).
  apply list_fmap_ext; intros i x Hi; apply lookup_seq in Hi as [-> Hi]; rewrite rec_word by lia; f_equal; lia.
Qed.

Lemma entry_at_local off b v : (off + 32 <= length b)%nat → entry_at off b v = entry_at O (rec_of off b) v.
Proof.
  intros Hl. assert (de_first O (rec_of off b) = de_first off b) as E1 by (unfold de_first; rewrite rec_byte by lia; f_equal; lia).
  assert (de_attr O (rec_of off b) = de_attr off b) as E2 by (unfold de_attr; rewrite rec_byte by lia; f_equal; lia).
  unfold entry_at, lfn_entry, display_name. by rewrite E1, E2, rec_lfn_chars, rec_name.
Qed.
Lemma match_entry_local nm : local_step (match_entry nm).
Proof. intros off b v Hl. unfold match_entry. by rewrite entry_at_local. Qed.
Lemma free_slot_local : local_step free_slot.
Proof.
  intros off b a Hl. unfold free_slot. assert (de_first O (rec_of off b) = de_first off b) as -> by (unfold de_first; rewrite rec_byte by lia; f_equal; lia). done.
Qed.

(** ** A directory as a list of entries *)

(** The sector, the offset and the bytes of an entry. *)
Record item := Item { it_sector : Z; it_off : nat; it_bytes : list Z }.

Definition sector_items (t : Z) (b : list Z) (k n : nat) : list item := (λ i, Item t (32 * i) (rec_of (32 * i) b)) <$> seq k n.
Definition cluster_items g V (c : Z) (k n : nat) : list item :=
  mjoin ((λ x, let t := cluster_sector g c (Z.of_nat x) in sector_items t (V t) 0 16) <$> seq k n).
Definition dir_items g V (l : list Z) : list item := mjoin ((λ c, cluster_items g V c 0 (Z.to_nat (sectors_per_cluster g))) <$> l).

Section Search.
Context {A B : Type} (f : nat → list Z → A → A + B).

(** The first entry at which a walk ends. *)
Fixpoint search (es : list item) (a : A) : A + item * B :=
  match es with
  | [] => inl a
  | i :: es => match f O (it_bytes i) a with inl a => search es a | inr r => inr (i, r) end
  end.

Lemma search_app es js a : search (es ++ js) a = match search es a with inl a => search js a | inr r => inr r end.
Proof. revert a. induction es as [|i es IH]; intros a; cbn; [done|]. by destruct (f O (it_bytes i) a). Qed.

Context (Hf : local_step f).

Lemma scan_sector_search t b k n a : length b = SECTOR → (k + n <= 16)%nat →
  scan_sector f n (32 * k) b a = match search (sector_items t b k n) a with inl a => inl a | inr (i, r) => inr (it_off i, r) end.
Proof.
  intros Hl. revert k a. induction n as [|n IH]; intros k a Hk; [done|]. cbn [scan_sector sector_items seq fmap list_fmap search it_bytes].
  rewrite (Hf (32 * k)%nat) by (rewrite Hl; fat). destruct (f O (rec_of (32 * k)%nat b) a) as [a'|r]; [|done].
  replace (32 * k + 32)%nat with (32 * S k)%nat by lia. apply IH. lia.
Qed.

(** What a walk leaves behind where it ends at [i]: the sector in the buffer. *)
Definition walked g V (p : A + item * B) (r : A + Z * nat * B) (u : vfat_t) : Prop :=
  match p with
  | inl a => r = inl a ∧ ∃ B', holds g V B' u
  | inr (i, x) => r = inr (it_sector i, it_off i, x) ∧ holds g V (V (it_sector i)) u
  end.

Lemma wp_scan_cluster n g V c (k : nat) a B0 u : vol_ok g → holds g V B0 u → cluster_ok g c → Z.of_nat (k + n) = sectors_per_cluster g →
  wp (scan_cluster f n (Z.of_nat k) (cluster_sector g c 0) a) (λ r u', walked g V (search (cluster_items g V c k n) a) r u') (λ e _, e < 0 ∧ may_fail) u.
Proof.
  intros Hv. revert k a B0 u. induction n as [|n IH]; intros k a B0 u H Hc Hk; cbn [scan_cluster]; [by apply wp_ret; split; [|by exists B0]|].
  set (t := cluster_sector g c (Z.of_nat k)). pose proof (cluster_sector_data g c (Z.of_nat k) Hv Hc ltac:(lia)) as Ht. fold t in Ht.
  assert (u32 (cluster_sector g c 0 + Z.of_nat k) = t) as ->.
  { transitivity (u32 t); [f_equal; unfold t, cluster_sector; lia|]. apply uN_small. destruct Ht, Hv. unfold vol_end, SECTOR_LIMIT in *. nia. }
  apply wp_bind. eapply (wp_fat_read_sector may_fail g V B0); [done..| |by intros]. intros u1 H1. apply wp_bind, wp_gets. rewrite (h_buf _ _ _ _ _ H1).
  pose proof (holds_length _ _ _ _ _ t H1 ltac:(by right)) as Hl. pose proof (scan_sector_search t (V t) 0 16 a Hl ltac:(lia)) as Es. rewrite Nat.mul_0_r in Es. rewrite Es.
  assert (cluster_items g V c k (S n) = sector_items t (V t) 0 16 ++ cluster_items g V c (S k) n) as -> by done. rewrite search_app.
  destruct (search (sector_items t (V t) 0 16) a) as [a'|[i r]] eqn:Ei.
  - replace (Z.of_nat k + 1) with (Z.of_nat (S k)) by lia. eapply IH; [done|done|lia].
  - apply wp_ret. assert (it_sector i = t) as <-; [|by split]. clear -Ei. revert a Ei. unfold sector_items. generalize (seq 0 16) as s. intros s.
    induction s as [|x s IH]; intros a Ei; cbn in Ei; [done|]. destruct (f O _ a) as [a'|r']; [by eapply IH|]. by injection Ei as <- _.
Qed.

Lemma wp_walk fuel g V c l a B0 u : vol_ok g → holds g V B0 u → chain g V c l → (length l < fuel)%nat →
  wp (walk f fuel c a) (λ r u', walked g V (search (dir_items g V l) a) r u') (λ e _, e < 0 ∧ may_fail) u.
Proof.
  intros Hv. revert c l a B0 u. induction fuel as [|fuel IH]; intros c l a B0 u H Hch Hl; [lia|]. cbn [walk]. inversion Hch as [? Hc|? l' Hc Hn]; subst.
  { rewrite live_not_eoc by done. apply wp_ret. split; [done|by exists B0]. }
  rewrite (cluster_live g) by done. apply wp_bind, wp_gets, wp_bind. cbn [id]. rewrite (cluster_to_sector_eq may_fail g V B0 u) by done.
  destruct (h_geo _ _ _ _ _ H) as (-> & _). assert (dir_items g V (c :: l') = cluster_items g V c 0 (Z.to_nat (sectors_per_cluster g)) ++ dir_items g V l') as -> by done.
  rewrite search_app. eapply wp_mono; [apply (wp_scan_cluster _ g V c 0 a B0); try done; destruct Hv; lia| |done].
  intros r u1. unfold walked at 1. destruct (search (cluster_items _ _ _ _ _) a) as [a'|[i x]].
  - intros [-> [B1 H1]]. apply wp_bind. eapply wp_mono; [by apply (wp_fat_get may_fail g V B1)| |done]. intros ? u2 [-> H2].
    eapply IH; [done|done|cbn in Hl; lia].
  - intros [-> H1]. by apply wp_ret.
Qed.
End Search.

(** ** A new entry *)

(** Byte [k] of a sector with a new entry at [off]. *)
Lemma put_cluster_other off c b k : ¬ (off + 20 <= k < off + 22)%nat → ¬ (off + 26 <= k < off + 28)%nat → put_cluster off c b !! k = b !! k.
Proof. intros H1 H2. unfold put_cluster, put_word. rewrite !put_bytes_other by (rewrite length_bytes_of; lia). done. Qed.
Lemma length_put_cluster off c b : length (put_cluster off c b) = length b.
Proof. unfold put_cluster, put_word. by rewrite !length_put_bytes. Qed.
Lemma length_put_entry off sfn attr c b : length (put_entry off sfn attr c b) = length b.
Proof. unfold put_entry. by rewrite length_put_cluster, length_insert, !length_put_bytes. Qed.

Lemma put_entry_other off sfn attr c b k : length sfn = 11%nat → ¬ (off <= k < off + 32)%nat → put_entry off sfn attr c b !! k = b !! k.
Proof.
  intros Hs Hk. unfold put_entry. rewrite put_cluster_other, list_lookup_insert_ne by lia. rewrite !put_bytes_other; [done|..]; rewrite ?length_replicate, ?Hs; lia.
Qed.
Lemma put_entry_name off sfn attr c b k : length sfn = 11%nat → (off + 32 <= length b)%nat → (k < 11)%nat → put_entry off sfn attr c b !! (off + k)%nat = sfn !! k.
Proof.
  intros Hs Hb Hk. unfold put_entry. rewrite put_cluster_other, list_lookup_insert_ne by lia. rewrite put_bytes_at by (rewrite ?length_put_bytes; lia). f_equal. lia.
Qed.
Lemma put_entry_attr off sfn attr c b : (off + 32 <= length b)%nat → put_entry off sfn attr c b !! (off + 11)%nat = Some attr.
Proof. intros Hb. unfold put_entry. rewrite put_cluster_other by lia. apply list_lookup_insert_eq. rewrite !length_put_bytes. lia. Qed.

Lemma lor_halves c : 0 <= c → Z.lor (c mod 2 ^ 16) ((c / 2 ^ 16) ≪ 16) = c.
Proof.
  intros Hc. apply Z.bits_inj'. intros k Hk. rewrite Z.lor_spec, Z.shiftl_spec by done. destruct (decide (k < 16)).
  - rewrite Z.mod_pow2_bits_low, (Z.testbit_neg_r _ (k - 16)) by lia. by rewrite orb_false_r.
  - rewrite Z.mod_pow2_bits_high by lia. rewrite Z.div_pow2_bits by lia. cbn [orb]. f_equal. lia.
Qed.

Lemma put_entry_cluster off sfn attr c b : (off + 32 <= length b)%nat → 0 <= c < 2 ^ 32 → DIRENT_CLUSTER off (put_entry off sfn attr c b) = c.
Proof.
  intros Hb Hc. unfold DIRENT_CLUSTER, put_entry, put_cluster. set (b1 := <[_ := _]> _).
  assert (length b1 = length b) as Hl by (unfold b1; by rewrite length_insert, !length_put_bytes).
  unfold put_word at 3. rewrite get_put_other by (left; lia). rewrite !get_put_word by (unfold put_word; rewrite ?length_put_bytes; lia).
  change (8 * Z.of_nat 2) with 16. rewrite land_ffff, Z.shiftr_div_pow2, u16_small by (apply u16_range || lia).
  rewrite (uN_small 16 (c / 2 ^ 16)) by (split; [apply Z.div_pos; lia|apply Z.div_lt_upper_bound; lia]). apply lor_halves. lia.
Qed.

Lemma put_entry_zero off sfn attr c b k : length sfn = 11%nat → (off + 32 <= length b)%nat → (28 <= k < 32)%nat → put_entry off sfn attr c b !! (off + k)%nat = Some 0.
Proof.
  intros Hs Hb Hk. unfold put_entry. rewrite put_cluster_other, list_lookup_insert_ne by lia. rewrite put_bytes_other by lia.
  rewrite put_bytes_at by (rewrite ?length_replicate; lia). apply lookup_replicate_2. lia.
Qed.
Lemma word_of_zeros n : word_of (replicate n 0) = 0.
Proof.
  assert (∀ l, Forall (λ b, b = 0) l → le_word l = 0) as H by (induction 1 as [|b l -> _ IH]; cbn; [done|by rewrite IH]).
  assert (Forall (λ b, b = 0) (replicate n 0)) as Hz by (by apply Forall_replicate). unfold word_of. apply H. destruct big_endian; [by apply Forall_rev|done].
Qed.
Lemma put_entry_size off sfn attr c b : length sfn = 11%nat → (off + 32 <= length b)%nat → file_size off (put_entry off sfn attr c b) = 0.
Proof.
  intros Hs Hb. unfold file_size, get_word. rewrite <-(word_of_zeros 4). f_equal. apply list_eq. intros k. destruct (decide (k < 4)%nat) as [Hk|Hk].
  - rewrite lookup_take_lt, lookup_drop, lookup_replicate_2 by lia. rewrite <-Nat.add_assoc. apply put_entry_zero; lia || done.
  - rewrite lookup_take_ge by lia. symmetry. apply lookup_ge_None_2. rewrite length_replicate. lia.
Qed.

(** The other entries of the sector stay. *)
Lemma put_entry_rec off off' sfn attr c b : length sfn = 11%nat → (off' + 32 <= off)%nat ∨ (off + 32 <= off')%nat →
  rec_of off' (put_entry off sfn attr c b) = rec_of off' b.
Proof. intros Hs Ho. apply take_drop_ext. intros k Hk. apply put_entry_other; [done|lia]. Qed.

Lemma put_entry_decode off nm attr c b : short nm → (off + 32 <= length b)%nat → de_name off (put_entry off (sfn_generate nm) attr c b) = sfn_generate nm.
Proof.
  intros Hs Hb. pose proof (length_generate nm Hs) as Hl. unfold de_name. apply list_eq. intros k. destruct (decide (k < 11)%nat) as [Hk|Hk].
  - rewrite lookup_take_lt, lookup_drop by done. by apply put_entry_name.
  - rewrite lookup_take_ge by lia. symmetry. apply lookup_ge_None_2. lia.
Qed.

(** The first character of a short name is no mark. *)
Lemma generate_first nm : short nm → 33 <= sfn_generate nm !!! 0%nat <= 126.
Proof.
  assert (∀ b q, part_ok 8 b → 33 <= (pad 8 (upper <$> b) ++ q) !!! 0%nat <= 126) as H.
  { intros b q [Hl Hp]. destruct b as [|c b]; [cbn in Hl; lia|]. inversion Hp as [|? ? Hc]; subst. by destruct (upper_plain c Hc) as (_ & _ & ?). }
  destruct 1; [rewrite generate_base by done|rewrite generate_ext by done]; by apply H.
Qed.

Lemma put_entry_shown off nm c b v : short nm → (off + 32 <= length b)%nat → collecting_lfn v = false →
  match_entry nm off (put_entry off (sfn_generate nm) FAT_ATTR_ARCHIVE c b) v = inr MatchHere.
Proof.
  intros Hs Hb Hc. pose proof (length_generate nm Hs) as Hl. pose proof (generate_first nm Hs) as Hfirst. set (b' := put_entry _ _ _ _ _).
  assert (de_first off b' = sfn_generate nm !!! 0%nat) as E1.
  { pose proof (put_entry_name off (sfn_generate nm) FAT_ATTR_ARCHIVE c b 0 Hl Hb ltac:(lia)) as E. rewrite Nat.add_0_r in E.
    unfold de_first, b'. by rewrite !list_lookup_total_alt, E. }
  assert (de_attr off b' = FAT_ATTR_ARCHIVE) as E2 by (unfold de_attr, b'; by rewrite list_lookup_total_alt, put_entry_attr).
  unfold match_entry, entry_at. rewrite E1, E2. unfold FAT_DIRENT_END, FAT_DIRENT_FREE.
  destruct (Z.eqb_spec (sfn_generate nm !!! 0%nat) 0); [lia|]. destruct (Z.eqb_spec (sfn_generate nm !!! 0%nat) 0xE5); [lia|].
  change (FAT_ATTR_ARCHIVE =? FAT_ATTR_LONG_NAME) with false. change (bset FAT_ATTR_ARCHIVE FAT_ATTR_VOLUME_ID) with false. cbn iota.
  unfold display_name. rewrite Hc. cbn [andb]. unfold b'. rewrite put_entry_decode, decode_generate by done.
  assert (str_eq_ci (lower <$> nm) nm = true) as ->; [|done]. apply eq_ci_lower. rewrite <-list_fmap_compose. apply list_fmap_ext. intros i x _.
  unfold compose, lower. destruct (Z.leb_spec 65 x), (Z.leb_spec x 90); cbn [andb]; destruct (Z.leb_spec 65 x), (Z.leb_spec x 90); cbn [andb]; try lia;
    destruct (Z.leb_spec 65 (x + 32)), (Z.leb_spec (x + 32) 90); cbn [andb]; lia.
Qed.

(** ** A directory with a new entry *)

(** The items where sector [t] has become [b], with other bytes at [off] only. *)
Definition renew (t : Z) (off : nat) (b : list Z) (i : item) : item :=
  if decide (it_sector i = t ∧ it_off i = off) then Item t off (rec_of off b) else i.

Lemma mjoin_fmap {A B} (h : B → B) (f f' : A → list B) (l : list A) : (∀ x, x ∈ l → f' x = h <$> f x) → mjoin (f' <$> l) = h <$> mjoin (f <$> l).
Proof.
  induction l as [|x l IH]; intros H; [done|]. cbn. rewrite fmap_app, H by set_solver. f_equal. apply IH. intros y Hy. apply H. set_solver.
Qed.

Lemma dir_items_renew g V l t off b : (∀ k, (k < 16)%nat → (32 * k ≠ off)%nat → rec_of (32 * k) b = rec_of (32 * k) (V t)) →
  dir_items g (<[t := b]> V) l = renew t off b <$> dir_items g V l.
Proof.
  intros Hb. apply mjoin_fmap. intros c _. apply mjoin_fmap. intros x _. cbn zeta. set (s := cluster_sector g c (Z.of_nat x)). unfold sector_items.
  rewrite <-list_fmap_compose. apply list_fmap_ext. intros k y Hk. apply lookup_seq in Hk as [-> Hk]. unfold renew, compose. cbn [it_sector it_off].
  destruct (decide (s = t)) as [->|Hs].
  - rewrite fn_lookup_insert. destruct (decide (32 * (0 + k) = off)%nat) as [E|E]; [by rewrite decide_True, E|]. rewrite decide_False by tauto. f_equal. apply Hb; [lia|done].
  - rewrite fn_lookup_insert_ne by done. by rewrite decide_False by tauto.
Qed.

Lemma dir_items_ext g V V' l : Forall (cluster_ok g) l → vol_ok g → (∀ t, data_sector g t → V' t = V t) → dir_items g V' l = dir_items g V l.
Proof.
  intros Hl Hv H. rewrite <-(list_fmap_id (dir_items g V l)). apply mjoin_fmap. intros c Hc. rewrite Forall_forall in Hl. apply mjoin_fmap. intros x Hx%elem_of_seq. cbn zeta.
  rewrite list_fmap_id, H; [done|]. apply cluster_sector_data; [done|by apply Hl|]. destruct Hv. lia.
Qed.

(** The bytes of an item are those at its place; places are distinct entries of data sectors. *)
Lemma dir_items_at g V l i : vol_ok g → Forall (cluster_ok g) l → i ∈ dir_items g V l →
  it_bytes i = rec_of (it_off i) (V (it_sector i)) ∧ (∃ k, (k < 16)%nat ∧ it_off i = (32 * k)%nat) ∧
  ∃ c x, c ∈ l ∧ 0 <= x < sectors_per_cluster g ∧ it_sector i = cluster_sector g c x.
Proof.
  intros Hv Hl Hi. unfold dir_items, cluster_items, sector_items in Hi. apply list_elem_of_join in Hi as (es & Hi & Hes). apply list_elem_of_fmap in Hes as (c & -> & Hc).
  apply list_elem_of_join in Hi as (es & Hi & Hes). apply list_elem_of_fmap in Hes as (x & -> & Hx). apply list_elem_of_fmap in Hi as (k & -> & Hk).
  apply elem_of_seq in Hx, Hk. cbn. split; [done|]. split; [exists k; split; [lia|done]|]. exists c, (Z.of_nat x). split_and!; try done; destruct Hv; lia.
Qed.

Definition is_free_item (i : item) : bool := (de_first O (it_bytes i) =? FAT_DIRENT_END) || (de_first O (it_bytes i) =? FAT_DIRENT_FREE).

(** [i] is the first free entry of the directory; no entry before it has the name
    [nm], and no long name is pending there. *)
Record slot_for g V (l : list Z) (nm : name) (pre : list item) (i : item) (post : list item) (v : lfn_t) : Prop := {
  sl_split : dir_items g V l = pre ++ i :: post;
  sl_used : Forall (λ j, is_free_item j = false) pre;
  sl_free : is_free_item i = true;
  sl_absent : search (match_entry nm) pre lfn_none = inl v;
  sl_plain : collecting_lfn v = false
}.

Lemma search_free pre i post : Forall (λ j, is_free_item j = false) pre → is_free_item i = true → search free_slot (pre ++ i :: post) () = inr (i, ()).
Proof.
  intros Hp Hi. rewrite search_app. assert (search free_slot pre () = inl ()) as ->.
  { induction Hp as [|j pre Hj _ IH]; [done|]. cbn. unfold free_slot. unfold is_free_item in Hj. by rewrite Hj. }
  cbn. unfold free_slot. unfold is_free_item in Hi. by rewrite Hi.
Qed.

(** With the new entry in place, the search for its name ends there. *)
Lemma search_renewed g V c0 l nm pre i post v c : vol_ok g → chain g V c0 l → (∀ t, visible g t → length (V t) = SECTOR) → short nm → slot_for g V l nm pre i post v →
  let t := it_sector i in let b := put_entry (it_off i) (sfn_generate nm) FAT_ATTR_ARCHIVE c (V t) in
  search (match_entry nm) (dir_items g (<[t := b]> V) l) lfn_none = inr (Item t (it_off i) (rec_of (it_off i) b), MatchHere) ∧
  (it_off i + 32 <= length (V t))%nat ∧ data_sector g t.
Proof.
  intros Hv Hch Hlen Hs [E1 E2 E3 E4 E5] t b. pose proof (chain_ok _ _ _ _ Hch) as Ho.
  assert (i ∈ dir_items g V l) as Hi by (rewrite E1; set_solver). destruct (dir_items_at g V l i Hv Ho Hi) as (Hbytes & (k & Hk & Eoff) & c1 & x & Hc1 & Hx & Et).
  assert (data_sector g t) as Ht by (unfold t; rewrite Et; apply cluster_sector_data; [done| |done]; rewrite Forall_forall in Ho; by apply Ho).
  assert (length (V t) = SECTOR) as Lt by (apply Hlen; by right). assert (it_off i + 32 <= length (V t))%nat as Hfit by (rewrite Lt, Eoff; fat).
  split; [|done]. rewrite (dir_items_renew g V l t (it_off i) b), E1, fmap_app, fmap_cons, search_app.
  - assert (renew t (it_off i) b <$> pre = pre) as ->.
    { rewrite <-(list_fmap_id pre) at 2. apply list_fmap_ext. intros n j Hj. cbn. unfold renew. rewrite decide_False; [done|]. intros [F1 F2].
      assert (j ∈ dir_items g V l) as Hjd by (rewrite E1; apply elem_of_app; left; by eapply list_elem_of_lookup_2).
      destruct (dir_items_at g V l j Hv Ho Hjd) as (Hjb & _). rewrite Forall_lookup in E2. specialize (E2 n j Hj). unfold is_free_item in E2, E3.
      rewrite Hjb, F1, F2 in E2. unfold t in E2. rewrite <-Hbytes in E2. by rewrite E2 in E3. }
    rewrite E4. unfold renew. rewrite decide_True by done. cbn [search it_bytes].
    assert (match_entry nm 0 (rec_of (it_off i) b) v = inr MatchHere) as ->; [|done]. unfold b. rewrite <-match_entry_local by (rewrite length_put_entry; lia).
    by apply put_entry_shown.
  - intros k' Hk' Hne. unfold b. apply put_entry_rec; [by apply length_generate|lia].
Qed.
End Dir.

(** ** Created files are found *)

Section Created.
Context {cfg : PageConfig} {ps : PageStore} {psok : PageStoreOk} {sd : SectorDev} {sdok : SectorDevOk} {sds : SectorDevServes} {bo : ByteOrder}.
Context (links : nat).
Implicit Types (g u : vfat_t) (V : volume) (st : vfs_t vfat_t).

Lemma wp_new_vnode (f : vnode_t → vnode_t) st v rest (Q : option nat → vfs_t vfat_t → Prop) E : vnode_free st = v :: rest →
  Q (Some v) (upd_vnode v f (upd_vnode v (λ _, Vnode VNODE_FILE 0 0 0 1 0 None 0) (set_vnode_free rest st))) → wp (new_vnode f) Q E st.
Proof. intros Hf HQ. unfold wp, new_vnode, vfs_vnode_alloc. by rewrite Hf. Qed.

Lemma vnode_upd_ne st v w f : v ≠ w → vnode (upd_vnode v f st) w = vnode st w.
Proof. intros. unfold vnode, upd_vnode. cbn [vnodes]. by rewrite list_lookup_total_alter_ne. Qed.

(** The directory [l] of [dv] has the entry [i] of a file [c]. *)
Record listed g V B (dv : vnode_t) l nm (i : item) (c : Z) u : Prop := {
  ls_holds : holds False g V B u;
  ls_chain : chain g V (vn_ino dv) l;
  ls_found : ∃ bs, search (match_entry nm) (dir_items g V l) lfn_none = inr (Item (it_sector i) (it_off i) bs, MatchHere);
  ls_cluster : DIRENT_CLUSTER (it_off i) (V (it_sector i)) = c;
  ls_attr : de_attr (it_off i) (V (it_sector i)) = FAT_ATTR_ARCHIVE;
  ls_size : file_size (it_off i) (V (it_sector i)) = 0
}.

Lemma wp_add_entry g V B dv l nm pre i post v c u : vol_ok g → holds False g V B u → chain g V (vn_ino dv) l → (length l < links)%nat → short nm →
  slot_for g V l nm pre i post v → cluster_ok g c →
  wp (add_entry links (vn_ino dv) nm FAT_ATTR_ARCHIVE c) (λ p u', p = (it_sector i, it_off i) ∧ ∃ V' B', listed g V' B' dv l nm i c u') (λ _ _, False) u.
Proof.
  intros Hv H Hch Hl Hs Hsl Hc. unfold add_entry. apply wp_bind. pose proof (lengths_of False g V B u H) as Hlen.
  eapply wp_mono; [by apply (wp_walk False free_slot free_slot_local links g V (vn_ino dv) l () B)| |by intros e ? [_ []]].
  intros r u1. rewrite (sl_split _ _ _ _ _ _ _ _ Hsl), (search_free _ _ _ (sl_used _ _ _ _ _ _ _ _ Hsl) (sl_free _ _ _ _ _ _ _ _ Hsl)). intros [-> H1].
  destruct (search_renewed g V (vn_ino dv) l nm pre i post v c Hv Hch Hlen Hs Hsl) as (Hf & Hfit & Ht).
  set (t := it_sector i) in *. set (b := put_entry _ _ _ _ _) in Hf. pose proof (length_generate nm Hs) as Hg.
  apply wp_bind, wp_modify, wp_bind. rewrite (h_buf _ _ _ _ _ H1). fold b. eapply (wp_fat_write_sector False g V b); [done| |done| |by intros].
  { destruct H1 as [A1 A2 A3 A4 A5 A6 A7 A8 A9 A10]. split; try done. unfold b. by rewrite length_put_entry. }
  intros u2 H2. assert (listed g (<[t := b]> V) b dv l nm i c u2) as Hls.
  { split; [done| |by eexists|..]; fold t; rewrite ?fn_lookup_insert.
    - apply (data_grown g (vn_ino dv) V l t b); try done. unfold b. rewrite length_put_entry. apply Hlen. by right.
    - apply put_entry_cluster; [done|]. destruct Hv. unfold cluster_ok in Hc. lia.
    - unfold de_attr, b. by rewrite list_lookup_total_alt, put_entry_attr.
    - by apply put_entry_size. }
  apply wp_bind, wp_ignore. eapply wp_mono; [by apply (wp_fat_flush False g (<[t := b]> V) b)| |by intros e u3 (_ & [] & _)].
  intros [] u3 [H3 _]. apply wp_ret. split; [done|]. exists (<[t := b]> V), b. destruct Hls. by split.
Qed.

Lemma wp_create g V B dir nm mode l pre i post v st n rest : vol_ok g → holds False g V B (fs_world st) → let dv := vnode st dir in chain g V (vn_ino dv) l →
  (length l < links)%nat → short nm → slot_for g V l nm pre i post v → ¬ full g V → vnode_free st = n :: rest → (n < length (vnodes st))%nat → dir ≠ n →
  wp (vfat_create links dir nm mode) (λ n' st', n' = n ∧ ∃ c V' B', is_free g V c ∧ listed g V' B' dv l nm i c (fs_world st') ∧ vnode st' dir = dv ∧
      vnode_free st' = rest ∧ length (vnodes st') = length (vnodes st) ∧ vn_ino (vnode st' n) = c) (λ _ _, False) st.
Proof.
  intros Hv H dv Hch Hl Hs Hsl Hnf Hfree Hn Hdir. unfold vfat_create. apply wp_bind, wp_gets. fold dv. apply wp_bind, wp_lift.
  eapply wp_mono; [by apply (wp_fat_alloc False g V B)| |by intros e u [_ [[]|(_ & ? & _)]]]. intros c u1 (Hc & _ & H1). pose proof Hc as [Hcok Hcf].
  pose proof (lengths_of False g V B _ H) as Hlen. destruct (set_entry_refat g V c FAT_MASK Hv Hlen Hcok) as [R1 R2]. set (V1 := set_entry g c FAT_MASK V) in *.
  pose proof (chain_ok _ _ _ _ Hch) as Ho.
  assert (chain g V1 (vn_ino dv) l) as Hch1.
  { eapply chain_ext; [|exact Hch]. intros d Hd. apply entry_set_ne. intros ->. by apply (chain_used g V _ l d Hv Hch). }
  assert (slot_for g V1 l nm pre i post v) as Hsl1.
  { destruct Hsl as [E1 E2 E3 E4 E5]. split; try done. by rewrite (dir_items_ext g V V1 l). }
  apply wp_bind, wp_lift. eapply wp_mono; [by apply (wp_add_entry g V1 B dv l nm pre i post v c)| |done].
  intros p u2 (-> & V2 & B2 & Hls). apply wp_bind. eapply wp_new_vnode; [exact Hfree|]. apply wp_ret. split; [done|]. exists c, V2, B2.
  split; [done|]. split; [exact Hls|]. rewrite !vnode_upd_ne by done. split; [done|]. split; [done|]. split.
  - cbn [vnodes upd_vnode set_vnode_free set_fs]. by rewrite !length_alter.
  - rewrite !vnode_upd_eq by (cbn [vnodes upd_vnode set_vnode_free set_fs]; rewrite ?length_alter; done). done.
Qed.

Lemma wp_lookup_listed g V B dir nm l i c st n rest : vol_ok g → let dv := vnode st dir in listed g V B dv l nm i c (fs_world st) → (length l < links)%nat →
  vnode_free st = n :: rest → (n < length (vnodes st))%nat →
  wp (vfat_lookup links dir nm) (λ n' st', n' = n ∧ vn_ino (vnode st' n) = c ∧ vn_type (vnode st' n) = VNODE_FILE ∧ vn_size (vnode st' n) = 0 ∧
    vn_mount (vnode st' n) = vn_mount dv) (λ _ _, False) st.
Proof.
  intros Hv dv [H Hch [bs Hf] Hcl Hat Hsz] Hl Hfree Hn. unfold vfat_lookup. apply wp_bind, wp_gets. fold dv. apply wp_bind, wp_lift. unfold find_entry. apply wp_bind.
  eapply wp_mono; [by apply (wp_walk False (match_entry nm) (match_entry_local nm) links g V (vn_ino dv) l lfn_none B)| |by intros e ? [_ []]].
  intros r u1. rewrite Hf. intros [-> H1]. cbn [it_sector it_off] in *. apply wp_ret, wp_bind, wp_lift, wp_gets. cbn [fs_world set_fs]. rewrite (h_buf _ _ _ _ _ H1).
  apply wp_bind. eapply wp_new_vnode; [exact Hfree|]. apply wp_ret. split; [done|].
  rewrite !vnode_upd_eq by (cbn [vnodes upd_vnode set_vnode_free set_fs]; rewrite ?length_alter; done).
  unfold vnode_of_entry. cbn [fst snd]. rewrite Hat. change (bset FAT_ATTR_ARCHIVE FAT_ATTR_DIRECTORY) with false. cbn. by rewrite Hcl, Hsz.
Qed.

(** C34. A file created under a short name in a directory with room, where no entry
    has that name and no long name of a removed file is pending before the first
    free slot ([slot_for]; otherwise the new file takes that long name over and is
    not found, [VfatDemo.stale_long_name]), is the one that a lookup of the name
    finds: a new file of a cluster that was free.  The device serves the volume and
    has a free cluster, and two vnodes are free. *)
Theorem vfat_create_lookup g V B dir nm mode l pre i post v st n m rest : vol_ok g → holds False g V B (fs_world st) → let dv := vnode st dir in
  chain g V (vn_ino dv) l → (length l < links)%nat → short nm → slot_for g V l nm pre i post v → ¬ full g V →
  vnode_free st = n :: m :: rest → (n < length (vnodes st))%nat → (m < length (vnodes st))%nat → dir ≠ n →
  let p := vfat_create links dir nm mode st in let q := vfat_lookup links dir nm p.2 in
  p.1 = inr n ∧ q.1 = inr m ∧ is_free g V (vn_ino (vnode p.2 n)) ∧ vn_ino (vnode q.2 m) = vn_ino (vnode p.2 n) ∧
  vn_type (vnode q.2 m) = VNODE_FILE ∧ vn_size (vnode q.2 m) = 0 ∧ vn_mount (vnode q.2 m) = vn_mount dv.
Proof.
  intros Hv H dv Hch Hl Hs Hsl Hnf Hfree Hn Hm Hdir p q.
  pose proof (wp_create g V B dir nm mode l pre i post v st n (m :: rest) Hv H Hch Hl Hs Hsl Hnf Hfree Hn Hdir) as Hp. unfold wp in Hp. fold p in Hp.
  destruct p as [[e|n'] st1] eqn:Ep; [done|]. destruct Hp as (-> & c & V1 & B1 & Hc & Hls & Ed & Ef & El & Ei). cbn [fst snd] in *.
  assert (listed g V1 B1 (vnode st1 dir) l nm i c (fs_world st1)) as Hls1 by (by rewrite Ed). rewrite <-El in Hm.
  pose proof (wp_lookup_listed g V1 B1 dir nm l i c st1 m rest Hv Hls1 Hl Ef Hm) as Hq. unfold wp in Hq. fold q in Hq.
  destruct q as [[e|m'] st2] eqn:Eq; [done|]. destruct Hq as (-> & E1 & E2 & E3 & E4). cbn [fst snd]. rewrite Ed in E4. by rewrite Ei, E1.
Qed.
End Created.
