(* ===== verification/VfatDemo.v ===== *)
(** * VfatDemo: a small FAT32 image

    Fifteen sectors: the boot sector, two FATs of one sector, and six clusters of
    two sectors; the first is the root directory. *)

From stdpp Require Import functions.
From S2P Require Import Prelude Config ErrState PagePool PagePoolFacts Page PageFacts Path Vfs Driver VfsFacts Namei NameiFacts ModCore Tmpfs.
From S2P Require Import BlkDev SectorDev UfsDemo Vfat VfatOps VfatFat VfatFiles VfatRun VfatDir.

#[export] Instance demo_serves : SectorDevServes.
Proof.
  refine {| disk_serves := λ (_ : disk) t, 0 <= t < 128 |}.
  - intros s d rc bs d' _ Hs E. cbn in E. split; [done|]. intros [_ Ht]. destruct (Z.ltb_spec s 128); [by injection E as <- _ _|lia].
  - intros s bs d rc d' _ Hs Hl E. cbn in E. split; [done|]. intros [_ Ht]. destruct (Z.ltb_spec s 128); [by injection E as <- _|lia].
Defined.

Definition with_sectors (f : gmap Z (list Z) → gmap Z (list Z)) (d : demo_disk) : demo_disk := DemoDisk (f (dd_sectors d)) (dd_reads d) (dd_writes d).

Definition blank_sector : list Z := zeros 512.
Definition boot_sector : list Z :=
  put_word 2 11 512 (put_word 1 13 2 (put_word 2 14 1 (put_word 1 16 2 (put_word 4 32 15 (put_word 4 36 1 (put_word 4 44 2 blank_sector)))))).
Definition fat_sector : list Z := put_le32 0 0x0FFFFFF8 (put_le32 4 FAT_MASK (put_le32 8 FAT_MASK blank_sector)).

Definition vfat_image : gmap Z (list Z) := Eval vm_compute in
  list_to_map ([(0, boot_sector); (1, fat_sector); (2, fat_sector)] ++ ((λ i, (3 + Z.of_nat i, blank_sector)) <$> seq 0 12)).

Definition vfat_cold : vfs_t vfat_t :=
  Vfs _ (vnodes demo_vfs) (vnode_free demo_vfs) (mounts demo_vfs) (mount_count demo_vfs) (scratch_free demo_vfs)
    (VfatState 0 0 0 0 0 0 0 0 0 NO_SECTOR blank_sector false blank_sector (DemoDisk vfat_image 0 0) demo_core).

(** Enough for every chain of the volume. *)
Definition demo_links : nat := 10.

(** The image mounted, with its root directory in vnode 2. *)
Definition vfat_demo : vfs_t vfat_t := (vfat_mount 1 7 vfat_cold).2.

Lemma vfat_demo_mounts : (vfat_mount 1 7 vfat_cold).1 = inr () ∧ mnt_root (mount_at vfat_demo 1) = Some 2%nat ∧ vn_ino (vnode vfat_demo 2) = 2.
Proof. vm_compute. done. Qed.

(** A file in vnode 3 with 1500 bytes. *)
Definition ab_txt : name := [97; 98; DOT; 116; 120; 116].
Definition vfat_made : vfs_t vfat_t := (vfat_create demo_links 2 ab_txt 420 vfat_demo).2.
Definition vfat_filled : vfs_t vfat_t := (vfat_write 3 demo_page 0 1500 0 vfat_made).2.

Lemma vfat_demo_calls : (vfat_create demo_links 2 ab_txt 420 vfat_demo).1 = inr 3%nat ∧ (vfat_write 3 demo_page 0 1500 0 vfat_made).1 = inr 1500 ∧
  (vfat_lookup demo_links 2 (65 :: 66 :: drop 2 ab_txt) vfat_filled).1 = inr 4%nat ∧
  (vfat_read 3 demo_page 2000 600 1000 vfat_filled).1 = inr 500 ∧
  (vfat_readdir demo_links 2 10 0 vfat_filled).1 = inr ([Dirent 3 DT_REG ab_txt], 1) ∧
  (vfat_statfs 1 vfat_filled).1 = inr (FatStatfs 1024 6 3) ∧
  (vfat_unlink demo_links 2 ab_txt vfat_filled).1 = inr () ∧
  (vfat_statfs 1 (vfat_unlink demo_links 2 ab_txt vfat_filled).2).1 = inr (FatStatfs 1024 6 5) ∧
  (vfat_mkdir demo_links 2 [100] 493 vfat_filled).1 = inr ().
Proof. vm_compute. done. Qed.

(** ** What the driver does to names it did not make *)

(** A long name "hello" for the short name "H~1", as another system writes it. *)
Definition lfn_record : list Z :=
  put_word 2 1 104 (put_word 2 3 101 (put_word 2 5 108 (put_word 2 7 108 (put_word 2 9 111 (<[11%nat := FAT_ATTR_LONG_NAME]> (<[0%nat := 0x41]> (zeros 32))))))).
Definition sfn_record : list Z := <[11%nat := FAT_ATTR_ARCHIVE]> (put_bytes 0 (72 :: 126 :: 49 :: blanks 8) (zeros 32)).
Definition with_root (b : list Z) (st : vfs_t vfat_t) : vfs_t vfat_t := set_fs (set_vdisk (with_sectors <[3 := b]> (v_disk (fs_world st))) (fs_world st)) st.
Definition long_named : vfs_t vfat_t := with_root (put_bytes 0 (lfn_record ++ sfn_record) blank_sector) vfat_demo.
Definition hello : name := [104; 101; 108; 108; 111].
Definition c_txt : name := [99; DOT; 116; 120; 116].

(** The long name survives the removal of its file and becomes that of the next
    one: the file is created as "c.txt" and found as "hello" only. *)
Lemma stale_long_name : let st := (vfat_unlink demo_links 2 hello long_named).2 in let st1 := (vfat_create demo_links 2 c_txt 420 st).2 in
  (vfat_lookup demo_links 2 hello long_named).1 = inr 3%nat ∧ (vfat_unlink demo_links 2 hello long_named).1 = inr () ∧
  (vfat_create demo_links 2 c_txt 420 st).1 = inr 3%nat ∧ (vfat_lookup demo_links 2 c_txt st1).1 = inl (- ENOENT) ∧
  (vfat_lookup demo_links 2 hello st1).1 = inr 4%nat.
Proof. vm_compute. done. Qed.

(** An entry of a long name with number 0 is stored before the array. *)
Lemma long_name_strays : (vfat_lookup demo_links 2 hello (with_root (put_bytes 0 (<[0%nat := 0x40]> lfn_record) blank_sector) vfat_demo)).1 = inl STRAYS.
Proof. vm_compute. done. Qed.

(** A file with a longer name is not found under it, and the next one gets the
    same entry. *)
Definition longer : name := replicate 9 97.
Lemma long_name_lost : let st := (vfat_create demo_links 2 longer 420 vfat_demo).2 in (vfat_create demo_links 2 longer 420 vfat_demo).1 = inr 3%nat ∧
  (vfat_lookup demo_links 2 longer st).1 = inl (- ENOENT) ∧
  (vfat_readdir demo_links 2 10 0 (vfat_create demo_links 2 longer 420 st).2).1 = inr ([Dirent 3 DT_REG (replicate 6 97 ++ [126; 49]); Dirent 4 DT_REG (replicate 6 97 ++ [126; 49])], 2).
Proof. vm_compute. done. Qed.

(** From sector 65536 on the position of an entry is that of another sector. *)
Lemma position_truncated : DIRENT_POS_PACK 65539 64 = DIRENT_POS_PACK 3 64.
Proof. vm_compute. done. Qed.

(** A directory of two clusters that lead to each other, without an end mark. *)
Definition deleted_sector : list Z := replicate 512 FAT_DIRENT_FREE.
Definition cyclic_disk : disk :=
  with_sectors (λ d, <[1 := put_le32 8 3 (put_le32 12 2 fat_sector)]> (<[3 := deleted_sector]> (<[4 := deleted_sector]> (<[5 := deleted_sector]> (<[6 := deleted_sector]> d))))) (v_disk (fs_world vfat_demo)).
Definition cyclic : vfs_t vfat_t := set_fs (set_vdisk cyclic_disk (fs_world vfat_demo)) vfat_demo.
Lemma cyclic_hangs : (vfat_lookup 500 2 hello cyclic).1 = inl HANGS.
Proof. vm_compute. done. Qed.

(** ** Witnesses *)

Lemma holds_self u : length (fat_cache u) = SECTOR → length (sector_buf u) = SECTOR → (cached u → 0 <= fat_cache_sector u < fat_size u) → vol_end u <= 128 →
  (fat_cache_dirty u = false → cached u → sector (v_disk u) (fat_start_sector u + fat_cache_sector u) = fat_cache u) → holds False u (view u) (sector_buf u) u.
Proof.
  intros H1 H2 H3 H4 H5. split; try done. right. intros t Ht. cbn. lia.
Qed.

Definition demo_fat : vfat_t := fs_world vfat_made.

Lemma demo_vol : vol_ok demo_fat.
Proof. split; vm_compute; done. Qed.
Lemma made_holds : holds False demo_fat (view demo_fat) (sector_buf demo_fat) demo_fat.
Proof. apply holds_self; vm_compute; try done. Qed.
Lemma demo_chain : chain demo_fat (view demo_fat) 3 [3].
Proof. apply chain_link; [vm_compute; done|]. apply chain_end. vm_compute. reflexivity. Qed.

Lemma fat_cache_is_map_witness : let ks := [FatAlloc; FatSet 4 9; FatGet 4; FatFlush; FatAlloc; FatFlush] in
  let p := fat_runs ks demo_fat in let q := map_runs 6 ks (entry demo_fat (view demo_fat)) in
  p.1 = q.1 ∧ p.1 = [inr 4; inr 0; inr 9; inr 0; inr 5; inr 0] ∧ ∀ c, 2 <= c < 8 → entry demo_fat (sector (v_disk p.2)) c = q.2 c.
Proof.
  intros ks p q. assert (Forall (call_ok demo_fat) ks) as Hks by (repeat constructor; vm_compute; done).
  destruct (fat_cache_is_map demo_fat (view demo_fat) (sector_buf demo_fat) demo_fat ks demo_vol made_holds Hks) as (E & _ & D).
  split; [exact E|]. split; [vm_compute; reflexivity|]. intros c Hc. apply D; [vm_compute; reflexivity|]. exact Hc.
Defined.

(** Equality of a run from its result. *)
Lemma ran_eq {A B} (p : A * B) x : p.1 = x → p = (x, p.2).
Proof. intros <-. apply surjective_pairing. Qed.
#[local] Opaque vfat_made.

(** What holds for each of the six clusters. *)
Lemma demo_clusters (P : Z → Prop) : P 2 → P 3 → P 4 → P 5 → P 6 → P 7 → ∀ c, cluster_ok demo_fat c → P c.
Proof.
  intros ? ? ? ? ? ? c Hc. assert (2 <= c < 8) as H6 by exact Hc.
  assert (c = 2 ∨ c = 3 ∨ c = 4 ∨ c = 5 ∨ c = 6 ∨ c = 7) as D by lia. by destruct D as [->|[->|[->|[->|[->| ->]]]]].
Qed.

Lemma fat_free_chain_correct_witness : let p := fat_free_chain demo_links 3 demo_fat in p.1 = inr () ∧
  ∃ V', holds False demo_fat V' (sector_buf demo_fat) p.2 ∧ entry demo_fat V' 3 = FAT_FREE ∧ entry demo_fat V' 2 = entry demo_fat (view demo_fat) 2.
Proof.
  intros p. assert (p.1 = inr ()) as E by (vm_compute; reflexivity). split; [exact E|].
  assert (links_ok demo_fat (view demo_fat)) as Hl by (intros c; revert c; apply (demo_clusters (λ c, live (entry demo_fat (view demo_fat) c) = true → cluster_ok demo_fat (entry demo_fat (view demo_fat) c))); vm_compute; done).
  pose proof (fat_free_chain_correct demo_links False demo_fat (view demo_fat) (sector_buf demo_fat) 3 demo_fat (inr ()) p.2 demo_vol made_holds Hl) as H.
  assert (live 3 = true → cluster_ok demo_fat 3) as A1 by (intros _; split; [lia|vm_compute; reflexivity]).
  assert (Z.to_nat (total_clusters demo_fat) + 1 < demo_links)%nat as A2 by (vm_compute; lia).
  destruct (H A1 A2 (ran_eq p _ E)) as (V' & H' & _ & _ & Hc). exists V'. split; [exact H'|].
  assert (∀ d, 2 <= d < 8 → cluster_ok demo_fat d) as Hok by (intros d Hd; exact Hd). split.
  - rewrite (Hc [3] demo_chain 3 (Hok 3 ltac:(lia))). by apply decide_True, list_elem_of_singleton.
  - rewrite (Hc [3] demo_chain 2 (Hok 2 ltac:(lia))). by apply decide_False; intros ?%list_elem_of_singleton.
Defined.

Lemma sfn_roundtrip_witness : sfn_decode (sfn_generate [65; 98; DOT; 99]) = [97; 98; DOT; 99] ∧
  (sfn_generate [65; 98; DOT; 99] = sfn_generate [97; 66; DOT; 67] ↔ str_eq_ci [65; 98; DOT; 99] [97; 66; DOT; 67] = true).
Proof.
  assert (∀ a b c, plain a → plain b → plain c → short [a; b; DOT; c]) as Hs.
  { intros a b c ? ? ?. apply (short_ext [a; b] [c]); (split; [cbn; lia|auto using Forall_nil_2, Forall_cons_2]). }
  destruct (sfn_roundtrip [65; 98; DOT; 99]) as [H1 H2]; [apply Hs; unfold plain, DOT; lia|]. split; [exact H1|].
  apply H2. apply Hs; unfold plain, DOT; lia.
Defined.

(** The file of 1500 bytes. *)
Definition full_fat : vfat_t := fs_world vfat_filled.

Lemma full_vol : vol_ok full_fat.
Proof. split; vm_compute; done. Qed.
Lemma full_holds : holds False full_fat (view full_fat) (sector_buf full_fat) full_fat.
Proof. apply holds_self; vm_compute; try done. Qed.
Lemma full_chain : chain full_fat (view full_fat) 3 [3; 4].
Proof. apply chain_link; [vm_compute; done|]. apply chain_link; [vm_compute; done|]. apply chain_end. vm_compute. reflexivity. Qed.
Lemma full_file : file_of full_fat (view full_fat) (vnode vfat_filled 3) [3; 4].
Proof. split; [vm_compute; done|exact full_chain|done|vm_compute; done..]. Qed.
Lemma full_core : v_core full_fat = demo_core.
Proof. vm_compute. reflexivity. Qed.
Lemma full_range : core_range (v_core full_fat) demo_page 2000 600.
Proof. rewrite full_core. split_and!; [apply demo_store|apply demo_store|lia|unfold PAGE_SIZE; lia]. Qed.

Lemma made_file : file_of demo_fat (view demo_fat) (vnode vfat_made 3) [3].
Proof. split; [vm_compute; done|exact demo_chain|done|vm_compute; done..]. Qed.
Lemma made_entry : entry_of demo_fat (view demo_fat) (vnode vfat_made 3) [3] 2 0 0.
Proof. split; [vm_compute; done|vm_compute; done|by rewrite list_elem_of_singleton|vm_compute; done..]. Qed.
Lemma made_core : v_core demo_fat = demo_core.
Proof. vm_compute. reflexivity. Qed.
Lemma made_range : core_range (v_core demo_fat) demo_page 0 1500.
Proof. rewrite made_core. split_and!; [apply demo_store|apply demo_store|lia|unfold PAGE_SIZE; lia]. Qed.

#[local] Opaque vfat_filled.

Lemma set_vcore_core c (g : vfat_t) : v_core (set_vcore c g) = c.
Proof. by destruct g. Qed.

Lemma vfat_read_correct_witness : let p := vfat_read 3 demo_page 2000 600 1000 vfat_filled in p.1 = inr 500 ∧
  ∃ c', v_core (fs_world p.2) = c' ∧ copied demo_core c' demo_page 2000 500 (λ x, file_byte full_fat (view full_fat) [3; 4] (1000 + x)).
Proof.
  intros p. assert (p.1 = inr 500) as E by (vm_compute; reflexivity). split; [exact E|].
  assert (1000 + 600 < FILE_MAX) as Hmax by (vm_compute; reflexivity).
  destruct (vfat_read_correct False full_fat (view full_fat) (sector_buf full_fat) 3 [3; 4] demo_page 2000 600 1000 vfat_filled (inr 500) p.2
    full_vol full_holds full_file full_range ltac:(lia) ltac:(lia) Hmax (ran_eq p _ E)) as (_ & B' & c' & H & Hcp & _).
  exists c'. split; [exact (eq_trans (h_core _ _ _ _ _ H) (set_vcore_core c' full_fat))|].
  apply (eq_ind _ (λ c, copied c c' demo_page 2000 500 _) Hcp _ full_core).
Defined.

Lemma vfat_write_correct_witness : let p := vfat_write 3 demo_page 0 1500 0 vfat_made in p.1 = inr 1500 ∧
  ∃ V' l', file_of demo_fat V' (vnode p.2 3) l' ∧ vn_size (vnode p.2 3) = 1500 ∧ get_word 4 28 (V' 3) = 1500 ∧
    ∀ x, 0 <= x < file_room demo_fat l' → x < 1500 → file_byte demo_fat V' l' x = user_bytes demo_fat demo_page 0 x.
Proof.
  intros p. assert (p.1 = inr 1500) as E by (vm_compute; reflexivity). split; [exact E|].
  assert (3 < length (vnodes vfat_made))%nat as Hvn by (apply Nat.ltb_lt; vm_compute; reflexivity).
  assert (0 + 1500 < FILE_MAX) as Hmax by (vm_compute; reflexivity).
  assert (vfat_write 3 demo_page 0 1500 0 vfat_made = (inr 1500, p.2)) as Ep by exact (ran_eq _ _ E).
  clearbody p.
  destruct (vfat_write_correct demo_fat (view demo_fat) (sector_buf demo_fat) 3 [3] 2 0 0 demo_page 0 1500 0 vfat_made (inr 1500) p.2
    demo_vol made_holds Hvn made_file made_entry made_range ltac:(lia) ltac:(lia) Hmax Ep) as (V' & B' & l' & _ & _ & _ & Hz & _ & _ & Hf & Hs & Hb).
  exists V', l'. split; [exact Hf|]. split; [rewrite Hs; vm_compute; reflexivity|].
  split; [assert (vn_size (vnode vfat_made 3) <? 0 + 1500 = true) as Eg by (vm_compute; reflexivity); unfold entry_sized in Hz; rewrite Eg in Hz; exact (proj1 Hz)|].
  intros x Hx Hlt. rewrite (Hb x Hx). rewrite decide_True by lia. f_equal.
Defined.

(** The empty root directory. *)
Definition root_fat : vfat_t := fs_world vfat_demo.
Definition root_slots : list item := dir_items root_fat (view root_fat) [2].

Lemma root_vol : vol_ok root_fat.
Proof. split; vm_compute; done. Qed.
Lemma root_holds : holds False root_fat (view root_fat) (sector_buf root_fat) root_fat.
Proof. apply holds_self; vm_compute; try done. Qed.
Lemma root_chain : chain root_fat (view root_fat) (vn_ino (vnode vfat_demo 2)) [2].
Proof. change (chain root_fat (view root_fat) 2 [2]). apply chain_link; [vm_compute; done|]. apply chain_end. vm_compute. reflexivity. Qed.
Lemma root_slot : slot_for root_fat (view root_fat) [2] ab_txt [] (Item 3 0 (zeros 32)) (tail root_slots) lfn_none.
Proof. split; [vm_compute; reflexivity|apply Forall_nil_2|vm_compute; reflexivity..]. Qed.
Lemma root_room : ¬ full root_fat (view root_fat).
Proof. intros H. apply (H 3). split; [vm_compute; done|vm_compute; reflexivity]. Qed.
Lemma ab_short : short ab_txt.
Proof. apply (short_ext [97; 98] [116; 120; 116]); (split; [cbn; lia|repeat (apply Forall_cons_2 || apply Forall_nil_2); unfold plain, DOT; lia]). Qed.
#[local] Opaque vfat_demo.

Lemma vfat_create_lookup_witness : let p := vfat_create demo_links 2 ab_txt 420 vfat_demo in let q := vfat_lookup demo_links 2 ab_txt p.2 in
  p.1 = inr 3%nat ∧ q.1 = inr 4%nat ∧ vn_ino (vnode q.2 4) = vn_ino (vnode p.2 3) ∧ vn_size (vnode q.2 4) = 0.
Proof.
  intros p q. assert (1 < demo_links)%nat as Hl by (unfold demo_links; lia).
  assert (vnode_free vfat_demo = 3%nat :: 4%nat :: drop 2 (vnode_free vfat_demo)) as Hf by (vm_compute; reflexivity).
  assert (3 < length (vnodes vfat_demo))%nat as H3 by (apply Nat.ltb_lt; vm_compute; reflexivity).
  assert (4 < length (vnodes vfat_demo))%nat as H4 by (apply Nat.ltb_lt; vm_compute; reflexivity).
  pose proof (vfat_create_lookup demo_links root_fat (view root_fat) (sector_buf root_fat) 2 ab_txt 420 [2] [] _ _ lfn_none vfat_demo 3 4 _
    root_vol root_holds root_chain Hl ab_short root_slot root_room Hf H3 H4 ltac:(discriminate)) as H.
  destruct H as (E1 & E2 & _ & E3 & _ & E4 & _). split; [exact E1|]. split; [exact E2|]. split; [exact E3|exact E4].
Defined.
