(* ===== verification/M68k.v ===== *)
(** * M68k: state of the 68000 core (src/kernel/core/cpu/ecpu_m68k.h, ecpu_m68k.c)

    [m68k_state_t], big-endian memory, fetching, the stack, effective addresses
    and the accessors of the operations table, in a state monad.  [memory] is the
    storage from the buffer's start on as a function of the offset: the code
    masks the first address of an access only, so that the last bytes of an
    access can lie behind [mem_size].  Sizes are 0, 1 and 2; no caller has
    another one, for which the tables of the code have no entry. *)

From S2P Require Import Prelude.
#[local] Open Scope c_scope.

Definition M68K_REG_D0 : Z := 0.
Definition M68K_REG_D7 : Z := 7.
Definition M68K_REG_A0 : Z := 8.
Definition M68K_REG_A7 : Z := 15.
Definition M68K_REG_PC : Z := 16.
Definition M68K_REG_SR : Z := 17.
Definition M68K_REG_USP : Z := 18.
Definition M68K_REG_SSP : Z := 19.

Definition M68K_FLAG_C : Z := 0x01.
Definition M68K_FLAG_V : Z := 0x02.
Definition M68K_FLAG_Z : Z := 0x04.
Definition M68K_FLAG_N : Z := 0x08.
Definition M68K_FLAG_X : Z := 0x10.
Definition M68K_SR_S : Z := 0x2000.

Definition M68K_SIZE_BYTE : Z := 0.
Definition M68K_SIZE_WORD : Z := 1.
Definition M68K_SIZE_LONG : Z := 2.

(** cpu.h *)
Definition TRAP_SWI : Z := 1.
Definition TRAP_HALT : Z := 2.
Definition TRAP_ILLEGAL : Z := 5.
Definition TRAP_UNHANDLED : Z := 0.
Definition TRAP_HANDLED : Z := 1.
Definition TRAP_EXIT : Z := 2.

Definition m68k_size_bytes (size : Z) : Z := match size with 0 => 1 | 1 => 2 | _ => 4 end.
Definition m68k_size_mask (size : Z) : Z := match size with 0 => 0xFF | 1 => 0xFFFF | _ => 0xFFFFFFFF end.
Definition m68k_size_msb (size : Z) : Z := match size with 0 => 0x80 | 1 => 0x8000 | _ => 0x80000000 end.

(** [EA_TYPE_*] *)
Inductive ea_type := EA_DATA_REG | EA_ADDR_REG | EA_MEMORY | EA_IMMEDIATE.
#[export] Instance ea_type_eq_dec : EqDecision ea_type.
Proof. solve_decision. Defined.
Record ea_result_t := Ea { ea_kind : ea_type; ea_addr : Z; ea_value : Z }.

Section State.
Context {C : Type}.

Record m68k_state_t := M68k {
  m_d : list Z;
  m_a : list Z;
  m_pc : Z;
  m_sr : Z;
  m_usp : Z;
  m_ssp : Z;
  m_stopped : Z;
  m_step_budget : Z;
  m_step_trap_exit : Z;
  m_memory : Z → Z;
  m_mem_size : Z;
  m_trap_handler : bool;
  m_trap_ctx : option C
}.

(** ** The monad *)

Definition M (A : Type) : Type := m68k_state_t → A * m68k_state_t.
#[export] Instance M_ret : MRet M := λ A x cpu, (x, cpu).
#[export] Instance M_bind : MBind M := λ A B k m cpu, let '(x, cpu) := m cpu in k x cpu.
Definition gets {A} (f : m68k_state_t → A) : M A := λ cpu, (f cpu, cpu).
Definition modify (f : m68k_state_t → m68k_state_t) : M unit := λ cpu, (tt, f cpu).
Definition when (b : bool) (m : M unit) : M unit := if b then m else mret tt.

(** Assignments to the fields, converting to their type. *)
Definition upd_d (l : list Z) (s : m68k_state_t) : m68k_state_t :=
  M68k l (m_a s) (m_pc s) (m_sr s) (m_usp s) (m_ssp s) (m_stopped s) (m_step_budget s) (m_step_trap_exit s) (m_memory s) (m_mem_size s) (m_trap_handler s) (m_trap_ctx s).
Definition upd_a (l : list Z) (s : m68k_state_t) : m68k_state_t :=
  M68k (m_d s) l (m_pc s) (m_sr s) (m_usp s) (m_ssp s) (m_stopped s) (m_step_budget s) (m_step_trap_exit s) (m_memory s) (m_mem_size s) (m_trap_handler s) (m_trap_ctx s).
Definition upd_pc (v : Z) (s : m68k_state_t) : m68k_state_t :=
  M68k (m_d s) (m_a s) (u32 v) (m_sr s) (m_usp s) (m_ssp s) (m_stopped s) (m_step_budget s) (m_step_trap_exit s) (m_memory s) (m_mem_size s) (m_trap_handler s) (m_trap_ctx s).
Definition upd_sr (v : Z) (s : m68k_state_t) : m68k_state_t :=
  M68k (m_d s) (m_a s) (m_pc s) (u16 v) (m_usp s) (m_ssp s) (m_stopped s) (m_step_budget s) (m_step_trap_exit s) (m_memory s) (m_mem_size s) (m_trap_handler s) (m_trap_ctx s).
Definition upd_usp (v : Z) (s : m68k_state_t) : m68k_state_t :=
  M68k (m_d s) (m_a s) (m_pc s) (m_sr s) (u32 v) (m_ssp s) (m_stopped s) (m_step_budget s) (m_step_trap_exit s) (m_memory s) (m_mem_size s) (m_trap_handler s) (m_trap_ctx s).
Definition upd_ssp (v : Z) (s : m68k_state_t) : m68k_state_t :=
  M68k (m_d s) (m_a s) (m_pc s) (m_sr s) (m_usp s) (u32 v) (m_stopped s) (m_step_budget s) (m_step_trap_exit s) (m_memory s) (m_mem_size s) (m_trap_handler s) (m_trap_ctx s).
Definition upd_stopped (v : Z) (s : m68k_state_t) : m68k_state_t :=
  M68k (m_d s) (m_a s) (m_pc s) (m_sr s) (m_usp s) (m_ssp s) (u8 v) (m_step_budget s) (m_step_trap_exit s) (m_memory s) (m_mem_size s) (m_trap_handler s) (m_trap_ctx s).
Definition upd_step_budget (v : Z) (s : m68k_state_t) : m68k_state_t :=
  M68k (m_d s) (m_a s) (m_pc s) (m_sr s) (m_usp s) (m_ssp s) (m_stopped s) (u8 v) (m_step_trap_exit s) (m_memory s) (m_mem_size s) (m_trap_handler s) (m_trap_ctx s).
Definition upd_step_trap_exit (v : Z) (s : m68k_state_t) : m68k_state_t :=
  M68k (m_d s) (m_a s) (m_pc s) (m_sr s) (m_usp s) (m_ssp s) (m_stopped s) (m_step_budget s) (u8 v) (m_memory s) (m_mem_size s) (m_trap_handler s) (m_trap_ctx s).
Definition upd_memory (f : Z → Z) (s : m68k_state_t) : m68k_state_t :=
  M68k (m_d s) (m_a s) (m_pc s) (m_sr s) (m_usp s) (m_ssp s) (m_stopped s) (m_step_budget s) (m_step_trap_exit s) f (m_mem_size s) (m_trap_handler s) (m_trap_ctx s).

Definition rd_d (i : Z) : M Z := gets (λ s, m_d s !!! Z.to_nat i).
Definition rd_a (i : Z) : M Z := gets (λ s, m_a s !!! Z.to_nat i).
Definition wr_d (i v : Z) : M unit := modify (λ s, upd_d (<[Z.to_nat i := u32 v]> (m_d s)) s).
Definition wr_a (i v : Z) : M unit := modify (λ s, upd_a (<[Z.to_nat i := u32 v]> (m_a s)) s).
Definition rd_pc : M Z := gets m_pc.
Definition wr_pc (v : Z) : M unit := modify (upd_pc v).
Definition rd_sr : M Z := gets m_sr.
Definition wr_sr (v : Z) : M unit := modify (upd_sr v).

(** ** Memory *)

Definition m68k_addr (addr : Z) (s : m68k_state_t) : Z := addr .& u32 (m_mem_size s - 1).
Definition store8 (i v : Z) (f : Z → Z) : Z → Z := λ j, if j =? i then u8 v else f j.

Definition m68k_read8 (addr : Z) : M Z := gets (λ s, m_memory s (m68k_addr addr s)).
Definition m68k_write8 (addr val : Z) : M unit :=
  modify (λ s, upd_memory (store8 (m68k_addr addr s) val (m_memory s)) s).
Definition m68k_read16 (addr : Z) : M Z :=
  gets (λ s, let i := m68k_addr addr s in (m_memory s i ≪ 8) .| m_memory s (i + 1)).
Definition m68k_write16 (addr val : Z) : M unit :=
  modify (λ s, let i := m68k_addr addr s in
    upd_memory (store8 (i + 1) (val .& 0xFF) (store8 i (val ≫ 8) (m_memory s))) s).
Definition m68k_read32 (addr : Z) : M Z :=
  gets (λ s, let i := m68k_addr addr s in
    (m_memory s i ≪ 24) .| (m_memory s (i + 1) ≪ 16) .| (m_memory s (i + 2) ≪ 8) .| m_memory s (i + 3)).
Definition m68k_write32 (addr val : Z) : M unit :=
  modify (λ s, let i := m68k_addr addr s in
    upd_memory (store8 (i + 3) (val .& 0xFF) (store8 (i + 2) ((val ≫ 8) .& 0xFF)
      (store8 (i + 1) ((val ≫ 16) .& 0xFF) (store8 i (val ≫ 24) (m_memory s))))) s).

Definition m68k_fetch16 : M Z := pc ← rd_pc; val ← m68k_read16 pc; wr_pc (pc + 2);; mret val.
Definition m68k_fetch32 : M Z := pc ← rd_pc; val ← m68k_read32 pc; wr_pc (pc + 4);; mret val.

Definition m68k_push16 (val : Z) : M unit := sp ← rd_a 7; wr_a 7 (sp - 2);; sp ← rd_a 7; m68k_write16 sp val.
Definition m68k_push32 (val : Z) : M unit := sp ← rd_a 7; wr_a 7 (sp - 4);; sp ← rd_a 7; m68k_write32 sp val.
Definition m68k_pop16 : M Z := sp ← rd_a 7; val ← m68k_read16 sp; wr_a 7 (sp + 2);; mret val.
Definition m68k_pop32 : M Z := sp ← rd_a 7; val ← m68k_read32 sp; wr_a 7 (sp + 4);; mret val.

Definition m68k_read_sz (addr size : Z) : M Z :=
  match size with 0 => m68k_read8 addr | 1 => m68k_read16 addr | 2 => m68k_read32 addr | _ => mret 0 end.
Definition m68k_write_sz (addr val size : Z) : M unit :=
  match size with
  | 0 => m68k_write8 addr val
  | 1 => m68k_write16 addr (u16 val)
  | 2 => m68k_write32 addr val
  | _ => mret tt
  end.

Definition m68k_write_d (reg val size : Z) : M unit :=
  d ← rd_d reg;
  match size with
  | 0 => wr_d reg ((d .& 0xFFFFFF00) .| (val .& 0xFF))
  | 1 => wr_d reg ((d .& 0xFFFF0000) .| (val .& 0xFFFF))
  | 2 => wr_d reg val
  | _ => mret tt
  end.

(** ** Effective addresses *)

(** What a variable holds that the code leaves uninitialised: the address of an
    immediate operand. *)
Context (indeterminate : Z).

(** The displacement and index of the modes 6 and 7.3. *)
Definition ea_index (base : Z) : M ea_result_t :=
  ext ← m68k_fetch16;
  let disp := s8 (ext .& 0xFF) in
  let xreg := (ext ≫ 12) .& 7 in
  xval ← (if bset ext 0x8000 then rd_a xreg else rd_d xreg);
  let xval := s32 xval in
  let xval := if negb (bset ext 0x0800) then s16 (xval .& 0xFFFF) else xval in
  mret (Ea EA_MEMORY (u32 (base + disp + xval)) 0).

Definition ea_mode7 (reg size : Z) : M ea_result_t :=
  match reg with
  | 0 => v ← m68k_fetch16; mret (Ea EA_MEMORY (u32 (s16 v)) 0)
  | 1 => v ← m68k_fetch32; mret (Ea EA_MEMORY v 0)
  | 2 => base ← rd_pc; v ← m68k_fetch16; mret (Ea EA_MEMORY (u32 (base + s16 v)) 0)
  | 3 => base ← rd_pc; ea_index base
  | 4 =>
      v ← (if size =? M68K_SIZE_LONG then m68k_fetch32 else m68k_fetch16);
      mret (Ea EA_IMMEDIATE (u32 indeterminate) (if size =? M68K_SIZE_BYTE then v .& 0xFF else v))
  | _ => mret (Ea EA_DATA_REG 0 0)
  end.

Definition m68k_decode_ea (mode reg size : Z) : M ea_result_t :=
  match mode with
  | 0 => mret (Ea EA_DATA_REG reg 0)
  | 1 => mret (Ea EA_ADDR_REG reg 0)
  | 2 => addr ← rd_a reg; mret (Ea EA_MEMORY addr 0)
  | 3 =>
      addr ← rd_a reg;
      wr_a reg (addr + m68k_size_bytes size);;
      when ((size =? M68K_SIZE_BYTE) && (reg =? 7)) (v ← rd_a reg; wr_a reg (v + 1));;
      mret (Ea EA_MEMORY addr 0)
  | 4 =>
      when ((size =? M68K_SIZE_BYTE) && (reg =? 7)) (v ← rd_a reg; wr_a reg (v - 1));;
      v ← rd_a reg;
      wr_a reg (v - m68k_size_bytes size);;
      addr ← rd_a reg; mret (Ea EA_MEMORY addr 0)
  | 5 => base ← rd_a reg; v ← m68k_fetch16; mret (Ea EA_MEMORY (u32 (base + s16 v)) 0)
  | 6 => base ← rd_a reg; ea_index base
  | _ => ea_mode7 reg size
  end.

Definition m68k_read_ea (ea : ea_result_t) (size : Z) : M Z :=
  match ea_kind ea with
  | EA_DATA_REG => d ← rd_d (ea_addr ea); mret (d .& m68k_size_mask size)
  | EA_ADDR_REG => a ← rd_a (ea_addr ea); mret (a .& m68k_size_mask size)
  | EA_MEMORY => m68k_read_sz (ea_addr ea) size
  | EA_IMMEDIATE => mret (ea_value ea)
  end.

Definition m68k_write_ea (ea : ea_result_t) (size val : Z) : M unit :=
  match ea_kind ea with
  | EA_DATA_REG => m68k_write_d (ea_addr ea) val size
  | EA_ADDR_REG =>
      if size =? M68K_SIZE_WORD then wr_a (ea_addr ea) (s16 (val .& 0xFFFF)) else wr_a (ea_addr ea) val
  | EA_MEMORY => m68k_write_sz (ea_addr ea) val size
  | EA_IMMEDIATE => mret tt
  end.

(** ** The operations table *)

Definition ecpu_m68k_init (memory : Z → Z) (mem_size : Z) : m68k_state_t :=
  M68k (replicate 8 0) (replicate 8 0) 0 (M68K_SR_S .| 0x0700) 0 0 0 0 0 memory mem_size false None.

Definition ecpu_m68k_set_trap_handler (handler : bool) (ctx : option C) (s : m68k_state_t) : m68k_state_t :=
  M68k (m_d s) (m_a s) (m_pc s) (m_sr s) (m_usp s) (m_ssp s) (m_stopped s) (m_step_budget s) (m_step_trap_exit s) (m_memory s) (m_mem_size s) handler ctx.

Definition ecpu_m68k_get_reg (s : m68k_state_t) (reg_id : Z) : Z :=
  if (M68K_REG_D0 <=? reg_id) && (reg_id <=? M68K_REG_D7) then m_d s !!! Z.to_nat (reg_id - M68K_REG_D0)
  else if (M68K_REG_A0 <=? reg_id) && (reg_id <=? M68K_REG_A7) then m_a s !!! Z.to_nat (reg_id - M68K_REG_A0)
  else if reg_id =? M68K_REG_PC then m_pc s
  else if reg_id =? M68K_REG_SR then m_sr s
  else if reg_id =? M68K_REG_USP then m_usp s
  else if reg_id =? M68K_REG_SSP then m_ssp s
  else 0.

Definition ecpu_m68k_set_reg (reg_id val : Z) (s : m68k_state_t) : m68k_state_t :=
  if (M68K_REG_D0 <=? reg_id) && (reg_id <=? M68K_REG_D7) then (wr_d (reg_id - M68K_REG_D0) val s).2
  else if (M68K_REG_A0 <=? reg_id) && (reg_id <=? M68K_REG_A7) then (wr_a (reg_id - M68K_REG_A0) val s).2
  else if reg_id =? M68K_REG_PC then upd_pc val s
  else if reg_id =? M68K_REG_SR then upd_sr (val .& 0xFFFF) s
  else if reg_id =? M68K_REG_USP then upd_usp val s
  else if reg_id =? M68K_REG_SSP then upd_ssp val s
  else s.

(** The offset into [memory], None for NULL. *)
Definition ecpu_m68k_translate_ptr (s : m68k_state_t) (guest_addr size : Z) : option Z :=
  let guest_addr := m68k_addr guest_addr s in
  if m_mem_size s <? u32 (guest_addr + size) then None else Some guest_addr.

Definition ecpu_m68k_read32 (addr : Z) : M Z :=
  hi ← m68k_read16 addr; lo ← m68k_read16 (u32 (addr + 2)); mret ((hi ≪ 16) .| lo).
Definition ecpu_m68k_write32 (addr val : Z) : M unit :=
  m68k_write16 addr (val ≫ 16);; m68k_write16 (u32 (addr + 2)) (val .& 0xFFFF).

End State.
Arguments m68k_state_t : clear implicits.
