(* ===== verification/M68kAlu.v ===== *)
(** * M68kAlu: arithmetic of the 68000 core (src/kernel/core/cpu/ecpu_m68k_alu.c)

    Every function of the file, and [m68k_set_ccr_move], with its flags, and the
    evaluation of the conditions. *)

From S2P Require Import Prelude M68k.
#[local] Open Scope c_scope.

Section Alu.
Context {C : Type}.
#[local] Abbreviation M := (@M C).

(** [cpu->sr = (cpu->sr & 0xFF00) | ccr] *)
Definition set_ccr (ccr : Z) : M unit := sr ← rd_sr; wr_sr ((sr .& 0xFF00) .| ccr).

(** Z after an operation with extend: cleared when the result is not zero. *)
Definition sticky_z (result sr ccr : Z) : Z :=
  if negb (result =? 0) then ccr .& Z.lnot M68K_FLAG_Z else ccr .| (sr .& M68K_FLAG_Z).

(** The flags Z and N of [val], added to [ccr]. *)
Definition flags_zn (val mask msb ccr : Z) : Z :=
  let ccr := ccr .| flag (val .& mask =? 0) M68K_FLAG_Z in
  ccr .| flag (bset val msb) M68K_FLAG_N.

Definition m68k_set_ccr_move (val size : Z) : M unit :=
  sr ← rd_sr;
  set_ccr (flags_zn val (m68k_size_mask size) (m68k_size_msb size) (sr .& M68K_FLAG_X)).

Definition m68k_alu_add (src dst size : Z) : M Z :=
  let mask := m68k_size_mask size in
  let msb := m68k_size_msb size in
  let res := (dst .& mask) + (src .& mask) in
  let result := res .& mask in
  let ccr := flag (bset res (mask + 1)) (M68K_FLAG_C .| M68K_FLAG_X) in
  let ccr := ccr .| flag (result =? 0) M68K_FLAG_Z in
  let ccr := ccr .| flag (bset result msb) M68K_FLAG_N in
  let ccr := ccr .| flag (bset (Z.lnot (src .^ dst) .& (src .^ result)) msb) M68K_FLAG_V in
  set_ccr ccr;; mret result.

Definition m68k_alu_sub (src dst size : Z) : M Z :=
  let mask := m68k_size_mask size in
  let msb := m68k_size_msb size in
  let s := src .& mask in
  let d := dst .& mask in
  let result := (d - s) .& mask in
  let ccr := flag (d <? s) (M68K_FLAG_C .| M68K_FLAG_X) in
  let ccr := ccr .| flag (result =? 0) M68K_FLAG_Z in
  let ccr := ccr .| flag (bset result msb) M68K_FLAG_N in
  let ccr := ccr .| flag (bset ((src .^ dst) .& (dst .^ result)) msb) M68K_FLAG_V in
  set_ccr ccr;; mret result.

Definition m68k_alu_cmp (src dst size : Z) : M unit :=
  let mask := m68k_size_mask size in
  let msb := m68k_size_msb size in
  let s := src .& mask in
  let d := dst .& mask in
  let result := (d - s) .& mask in
  sr ← rd_sr;
  let ccr := sr .& M68K_FLAG_X in
  let ccr := ccr .| flag (d <? s) M68K_FLAG_C in
  let ccr := ccr .| flag (result =? 0) M68K_FLAG_Z in
  let ccr := ccr .| flag (bset result msb) M68K_FLAG_N in
  let ccr := ccr .| flag (bset ((src .^ dst) .& (dst .^ result)) msb) M68K_FLAG_V in
  set_ccr ccr.

Definition m68k_alu_neg (dst size : Z) : M Z := m68k_alu_sub dst 0 size.

(** [cpu->sr & M68K_FLAG_X ? 1 : 0] *)
Definition x_flag (sr : Z) : Z := if bset sr M68K_FLAG_X then 1 else 0.

Definition m68k_alu_negx (dst size : Z) : M Z :=
  let mask := m68k_size_mask size in
  let msb := m68k_size_msb size in
  sr ← rd_sr;
  let x := x_flag sr in
  let d := dst .& mask in
  let result := u32 (0 - d - x) .& mask in
  let ccr := flag (negb (d =? 0) || negb (x =? 0)) (M68K_FLAG_C .| M68K_FLAG_X) in
  let ccr := sticky_z result sr ccr in
  let ccr := ccr .| flag (bset result msb) M68K_FLAG_N in
  let ccr := ccr .| flag (bset (dst .& result) msb) M68K_FLAG_V in
  set_ccr ccr;; mret result.

Definition m68k_alu_tst (val size : Z) : M unit :=
  sr ← rd_sr;
  set_ccr (flags_zn val (m68k_size_mask size) (m68k_size_msb size) (sr .& M68K_FLAG_X)).

Definition m68k_alu_mulu (src dst : Z) : M Z :=
  let result := u32 (src * dst) in
  sr ← rd_sr;
  let ccr := sr .& M68K_FLAG_X in
  let ccr := ccr .| flag (result =? 0) M68K_FLAG_Z in
  let ccr := ccr .| flag (bset result 0x80000000) M68K_FLAG_N in
  set_ccr ccr;; mret result.

(** [src] and [dst] are signed. *)
Definition m68k_alu_muls (src dst : Z) : M Z :=
  let uresult := u32 (src * dst) in
  sr ← rd_sr;
  let ccr := sr .& M68K_FLAG_X in
  let ccr := ccr .| flag (uresult =? 0) M68K_FLAG_Z in
  let ccr := ccr .| flag (bset uresult 0x80000000) M68K_FLAG_N in
  set_ccr ccr;; mret uresult.

Definition m68k_alu_addx (src dst size : Z) : M Z :=
  let mask := m68k_size_mask size in
  let msb := m68k_size_msb size in
  sr ← rd_sr;
  let x := x_flag sr in
  let res := (dst .& mask) + (src .& mask) + x in
  let result := res .& mask in
  let ccr := flag (bset res (mask + 1)) (M68K_FLAG_C .| M68K_FLAG_X) in
  let ccr := sticky_z result sr ccr in
  let ccr := ccr .| flag (bset result msb) M68K_FLAG_N in
  let ccr := ccr .| flag (bset (Z.lnot (src .^ dst) .& (src .^ result)) msb) M68K_FLAG_V in
  set_ccr ccr;; mret result.

Definition m68k_alu_subx (src dst size : Z) : M Z :=
  let mask := m68k_size_mask size in
  let msb := m68k_size_msb size in
  sr ← rd_sr;
  let x := x_flag sr in
  let s := src .& mask in
  let d := dst .& mask in
  let borrow := s + x in
  let result := (d - s - x) .& mask in
  let ccr := flag (d <? borrow) (M68K_FLAG_C .| M68K_FLAG_X) in
  let ccr := sticky_z result sr ccr in
  let ccr := ccr .| flag (bset result msb) M68K_FLAG_N in
  let ccr := ccr .| flag (bset ((src .^ dst) .& (dst .^ result)) msb) M68K_FLAG_V in
  set_ccr ccr;; mret result.

Definition m68k_alu_abcd (src dst : Z) : M Z :=
  sr ← rd_sr;
  let x := x_flag sr in
  let lo := (dst .& 0x0F) + (src .& 0x0F) + x in
  let hi := (dst .& 0xF0) + (src .& 0xF0) in
  let lo := if 9 <? lo then lo + 6 else lo in
  let hi := hi + (lo .& 0xF0) in
  let carry := 0x90 <? hi in
  let hi := if carry then hi + 0x60 else hi in
  let result := u8 ((hi .& 0xF0) .| (lo .& 0x0F)) in
  let ccr := flag carry (M68K_FLAG_C .| M68K_FLAG_X) in
  let ccr := sticky_z result sr ccr in
  set_ccr ccr;; mret result.

Definition m68k_alu_sbcd (src dst : Z) : M Z :=
  sr ← rd_sr;
  let x := x_flag sr in
  let lo := (dst .& 0x0F) - (src .& 0x0F) - x in
  let hi := (dst .& 0xF0) - (src .& 0xF0) in
  let '(lo, hi) := if lo <? 0 then (lo + 10, hi - 0x10) else (lo, hi) in
  let carry := hi <? 0 in
  let hi := if carry then hi + 0xA0 else hi in
  let result := u8 ((hi .& 0xF0) .| (lo .& 0x0F)) in
  let ccr := flag carry (M68K_FLAG_C .| M68K_FLAG_X) in
  let ccr := sticky_z result sr ccr in
  set_ccr ccr;; mret result.

Definition m68k_alu_nbcd (dst : Z) : M Z := m68k_alu_sbcd dst 0.

(** The returned status with [*result], None where it is not stored. *)
Definition m68k_alu_divu (dst src : Z) : M (Z * option Z) :=
  if src =? 0 then mret (-1, None)
  else
    let quotient := dst `div` src in
    let remainder := dst `mod` src in
    sr ← rd_sr;
    if 0xFFFF <? quotient then
      wr_sr ((sr .& (0xFF00 .| M68K_FLAG_X)) .| M68K_FLAG_V);;
      when (bset quotient 0x8000) (sr ← rd_sr; wr_sr (sr .| M68K_FLAG_N));;
      mret (1, None)
    else
      let ccr := sr .& M68K_FLAG_X in
      let ccr := ccr .| flag (quotient =? 0) M68K_FLAG_Z in
      let ccr := ccr .| flag (bset quotient 0x8000) M68K_FLAG_N in
      set_ccr ccr;; mret (0, Some (u32 (remainder ≪ 16) .| (quotient .& 0xFFFF))).

(** [dst] and [src] are signed and division truncates.  No [int32_t] holds the
    quotient of the least [dst] by -1: C leaves [dst / src] undefined there, and
    the function has no result, [None]. *)
Definition m68k_alu_divs (dst src : Z) : M (option (Z * option Z)) :=
  if src =? 0 then mret (Some (-1, None))
  else if (dst =? - 2 ^ 31) && (src =? -1) then mret None
  else
    let quotient := dst `quot` src in
    let remainder := dst `rem` src in
    sr ← rd_sr;
    if (32767 <? quotient) || (quotient <? -32768) then
      wr_sr ((sr .& (0xFF00 .| M68K_FLAG_X)) .| M68K_FLAG_V);;
      when (bset quotient 0x8000) (sr ← rd_sr; wr_sr (sr .| M68K_FLAG_N));;
      mret (Some (1, None))
    else
      let ccr := sr .& M68K_FLAG_X in
      let ccr := ccr .| flag (quotient .& 0xFFFF =? 0) M68K_FLAG_Z in
      let ccr := ccr .| flag (bset quotient 0x8000) M68K_FLAG_N in
      set_ccr ccr;; mret (Some (0, Some ((u16 remainder ≪ 16) .| u16 quotient))).

(** The condition [cc] of [cpu->sr]. *)
Definition m68k_test_cc (sr cc : Z) : bool :=
  let n := bset sr M68K_FLAG_N in
  let z := bset sr M68K_FLAG_Z in
  let v := bset sr M68K_FLAG_V in
  let c := bset sr M68K_FLAG_C in
  match cc with
  | 0x0 => true
  | 0x1 => false
  | 0x2 => negb c && negb z
  | 0x3 => c || z
  | 0x4 => negb c
  | 0x5 => c
  | 0x6 => negb z
  | 0x7 => z
  | 0x8 => negb v
  | 0x9 => v
  | 0xA => negb n
  | 0xB => n
  | 0xC => eqb n v
  | 0xD => negb (eqb n v)
  | 0xE => negb z && eqb n v
  | 0xF => z || negb (eqb n v)
  | _ => false
  end.

End Alu.
