(* ===== verification/M68kRun.v ===== *)
(** * M68kRun: instructions of the 68000 core (src/kernel/core/cpu/ecpu_m68k.c)

    The instruction groups and the loop of [ecpu_m68k_run].  A group returns
    -1 where the code makes the loop return and 0 where it goes on; the model's own
    code [UNDEFINED] ends a run whose next operation C leaves undefined.  The trap
    handler is the embedding subsystem's function, a parameter. *)

From S2P Require Import Prelude M68k M68kAlu.
#[local] Open Scope c_scope.

Section Run.
Context {C : Type}.
#[local] Abbreviation state := (m68k_state_t C).
#[local] Abbreviation M := (@M C).
Context (trap_handler : state → Z → Z → option C → Z * state) (indeterminate : Z).
#[local] Abbreviation m68k_decode_ea := (m68k_decode_ea indeterminate).

Definition m68k_fire_trap (trap_type param : Z) : M Z := λ s,
  if m_trap_handler s then
    let '(rc, s) := trap_handler s trap_type param (m_trap_ctx s) in
    (rc, if rc =? TRAP_EXIT then upd_step_trap_exit 1 s else s)
  else (TRAP_UNHANDLED, s).

(** ** Group 0: immediate and bit operations *)

(** [BTST], [BCHG], [BCLR], [BSET] *)
Definition bit_apply (op val mask : Z) : Z :=
  match op with
  | 1 => val .^ mask
  | 2 => val .& Z.lnot mask
  | 3 => val .| mask
  | _ => val
  end.

Definition m68k_bitop (ea_mode ea_reg op bitnum : Z) : M unit :=
  if ea_mode =? 0 then
    let mask := 1 ≪ (bitnum .& 31) in
    sr ← rd_sr; d ← rd_d ea_reg;
    wr_sr ((sr .& Z.lnot M68K_FLAG_Z) .| (if bset d mask then 0 else M68K_FLAG_Z));;
    wr_d ea_reg (bit_apply op d mask)
  else
    let mask := 1 ≪ (bitnum .& 7) in
    ea ← m68k_decode_ea ea_mode ea_reg M68K_SIZE_BYTE;
    val ← m68k_read_ea ea M68K_SIZE_BYTE;
    let val := u8 val in
    sr ← rd_sr;
    wr_sr ((sr .& Z.lnot M68K_FLAG_Z) .| (if bset val mask then 0 else M68K_FLAG_Z));;
    when (negb (op =? 0)) (m68k_write_ea ea M68K_SIZE_BYTE (u8 (bit_apply op val mask))).

(** ORI, ANDI and EORI behind the forms for CCR and SR. *)
Definition imm_logic (f : Z → Z → Z) (imm16 ea_mode ea_reg size : Z) : M unit :=
  imm ← (if size =? M68K_SIZE_LONG then lo ← m68k_fetch16; mret ((imm16 ≪ 16) .| lo) else mret imm16);
  let imm := if size =? M68K_SIZE_BYTE then imm .& 0xFF else imm in
  ea ← m68k_decode_ea ea_mode ea_reg size;
  dst ← m68k_read_ea ea size;
  let result := f dst imm in
  m68k_write_ea ea size result;;
  m68k_set_ccr_move result size.

(** The immediate operand of SUBI, ADDI and CMPI. *)
Definition fetch_imm (size : Z) : M Z :=
  imm ← (if size =? M68K_SIZE_LONG then m68k_fetch32 else m68k_fetch16);
  mret (if size =? M68K_SIZE_BYTE then imm .& 0xFF else imm).

Definition m68k_group0 (opcode : Z) : M unit :=
  let ea_mode := (opcode ≫ 3) .& 7 in
  let ea_reg := opcode .& 7 in
  if bset opcode 0x0100 then
    bits ← rd_d ((opcode ≫ 9) .& 7);
    m68k_bitop ea_mode ea_reg ((opcode ≫ 6) .& 3) bits
  else
    let size := (opcode ≫ 6) .& 3 in
    match ((opcode ≫ 8) .& 0xF) ≫ 1 with
    | 0x0 =>
        if 2 <? size then mret tt
        else
          imm16 ← m68k_fetch16;
          sr ← rd_sr;
          if opcode =? 0x003C then wr_sr (sr .| (imm16 .& 0x1F))
          else if opcode =? 0x007C then wr_sr (sr .| imm16)
          else imm_logic Z.lor imm16 ea_mode ea_reg size
    | 0x1 =>
        if 2 <? size then mret tt
        else
          imm16 ← m68k_fetch16;
          sr ← rd_sr;
          if opcode =? 0x023C then wr_sr ((sr .& 0xFF00) .| ((sr .& imm16) .& 0xFF))
          else if opcode =? 0x027C then wr_sr (sr .& imm16)
          else imm_logic Z.land imm16 ea_mode ea_reg size
    | 0x2 =>
        if 2 <? size then mret tt
        else
          imm ← fetch_imm size;
          ea ← m68k_decode_ea ea_mode ea_reg size;
          dst ← m68k_read_ea ea size;
          result ← m68k_alu_sub imm dst size;
          m68k_write_ea ea size result
    | 0x3 =>
        if 2 <? size then mret tt
        else
          imm ← fetch_imm size;
          ea ← m68k_decode_ea ea_mode ea_reg size;
          dst ← m68k_read_ea ea size;
          result ← m68k_alu_add imm dst size;
          m68k_write_ea ea size result
    | 0x4 => bitnum ← m68k_fetch16; m68k_bitop ea_mode ea_reg size bitnum
    | 0x5 =>
        if 2 <? size then mret tt
        else
          imm16 ← m68k_fetch16;
          sr ← rd_sr;
          if opcode =? 0x0A3C then wr_sr (sr .^ (imm16 .& 0x1F))
          else if opcode =? 0x0A7C then wr_sr (sr .^ imm16)
          else imm_logic Z.lxor imm16 ea_mode ea_reg size
    | 0x6 =>
        if 2 <? size then mret tt
        else
          imm ← fetch_imm size;
          ea ← m68k_decode_ea ea_mode ea_reg size;
          dst ← m68k_read_ea ea size;
          m68k_alu_cmp imm dst size
    | _ => mret tt
    end.

(** ** MOVE and MOVEQ *)

Definition m68k_move (opcode size : Z) : M unit :=
  let src_mode := (opcode ≫ 3) .& 7 in
  let src_reg := opcode .& 7 in
  let dst_reg := (opcode ≫ 9) .& 7 in
  let dst_mode := (opcode ≫ 6) .& 7 in
  src_ea ← m68k_decode_ea src_mode src_reg size;
  val ← m68k_read_ea src_ea size;
  dst_ea ← m68k_decode_ea dst_mode dst_reg size;
  m68k_write_ea dst_ea size val;;
  when (negb (dst_mode =? 1)) (m68k_set_ccr_move val size).

Definition m68k_moveq (opcode : Z) : M unit :=
  let val := u32 (s8 (opcode .& 0xFF)) in
  wr_d ((opcode ≫ 9) .& 7) val;;
  m68k_set_ccr_move val M68K_SIZE_LONG.

(** ** Group 4 *)

(** A trap that ends the run when the handler says so. *)
Definition trap_or_go_on (trap_type param : Z) : M Z :=
  rc ← m68k_fire_trap trap_type param; mret (if rc =? TRAP_EXIT then -1 else 0).

Definition op_stop : M Z :=
  imm ← m68k_fetch16;
  wr_sr imm;;
  modify (upd_stopped 1);;
  trap_or_go_on TRAP_HALT imm.

Definition op_rte : M Z := sr ← m68k_pop16; wr_sr sr;; pc ← m68k_pop32; wr_pc pc;; mret 0.

Definition op_trap (n : Z) : M Z :=
  rc ← m68k_fire_trap TRAP_SWI n;
  if rc =? TRAP_EXIT then mret (-1)
  else if rc =? TRAP_HANDLED then mret 0
  else
    pc ← rd_pc; m68k_push32 pc;;
    sr ← rd_sr; m68k_push16 sr;;
    sr ← rd_sr; wr_sr (sr .| M68K_SR_S);;
    vector ← m68k_read32 ((32 + n) * 4);
    wr_pc vector;; mret 0.

Definition op_chk (reg ea_mode ea_reg : Z) : M Z :=
  ea ← m68k_decode_ea ea_mode ea_reg M68K_SIZE_WORD;
  v ← m68k_read_ea ea M68K_SIZE_WORD;
  let src := s16 v in
  d ← rd_d reg;
  let dn := s16 (d .& 0xFFFF) in
  sr ← rd_sr;
  if dn <? 0 then wr_sr (sr .| M68K_FLAG_N);; trap_or_go_on TRAP_ILLEGAL 6
  else if src <? dn then wr_sr (sr .& Z.lnot M68K_FLAG_N);; trap_or_go_on TRAP_ILLEGAL 6
  else mret 0.

(** [f] is applied to the address of a memory operand. *)
Definition with_address (ea_mode ea_reg : Z) (f : Z → M unit) : M Z :=
  ea ← m68k_decode_ea ea_mode ea_reg M68K_SIZE_LONG;
  when (bool_decide (ea_kind ea = EA_MEMORY)) (f (ea_addr ea));; mret 0.

(** NEG, NEGX, NBCD and NOT: read, operate, write back. *)
Definition modify_ea (ea_mode ea_reg size : Z) (f : Z → M Z) : M Z :=
  ea ← m68k_decode_ea ea_mode ea_reg size;
  dst ← m68k_read_ea ea size;
  result ← f dst;
  m68k_write_ea ea size result;; mret 0.

Definition op_tas (ea_mode ea_reg : Z) : M Z :=
  ea ← m68k_decode_ea ea_mode ea_reg M68K_SIZE_BYTE;
  val ← m68k_read_ea ea M68K_SIZE_BYTE;
  m68k_alu_tst val M68K_SIZE_BYTE;;
  m68k_write_ea ea M68K_SIZE_BYTE (val .| 0x80);; mret 0.

Definition op_tst (ea_mode ea_reg size : Z) : M Z :=
  ea ← m68k_decode_ea ea_mode ea_reg size;
  val ← m68k_read_ea ea size;
  m68k_alu_tst val size;; mret 0.

Definition op_ext_w (reg : Z) : M Z :=
  d ← rd_d reg;
  let val := u16 (s8 (d .& 0xFF)) in
  wr_d reg ((d .& 0xFFFF0000) .| val);;
  m68k_alu_tst val M68K_SIZE_WORD;; mret 0.

Definition op_ext_l (reg : Z) : M Z :=
  d ← rd_d reg;
  let val := u32 (s16 (d .& 0xFFFF)) in
  wr_d reg val;;
  m68k_alu_tst val M68K_SIZE_LONG;; mret 0.

(** Register [i] of the order D0 to D7, A0 to A7. *)
Definition movem_reg (i : Z) : M Z := if i <? 8 then rd_d i else rd_a (i - 8).
Definition movem_set (i val : Z) : M unit := if i <? 8 then wr_d i val else wr_a (i - 8) val.

(** The loops of MOVEM over the mask bits from [i] on, [n] of them; the result
    is the address behind the last transfer. *)
Fixpoint movem_store_down (n : nat) (i mask addr sz : Z) : M Z :=
  match n with
  | O => mret addr
  | S n =>
      if Z.testbit mask i then
        let addr := u32 (addr - m68k_size_bytes sz) in
        val ← (if i <? 8 then rd_a (7 - i) else rd_d (15 - i));
        m68k_write_sz addr val sz;;
        movem_store_down n (i + 1) mask addr sz
      else movem_store_down n (i + 1) mask addr sz
  end.

Fixpoint movem_store_up (n : nat) (i mask addr sz : Z) : M Z :=
  match n with
  | O => mret addr
  | S n =>
      if Z.testbit mask i then
        val ← movem_reg i;
        m68k_write_sz addr val sz;;
        movem_store_up n (i + 1) mask (u32 (addr + m68k_size_bytes sz)) sz
      else movem_store_up n (i + 1) mask addr sz
  end.

Fixpoint movem_load (n : nat) (i mask addr sz : Z) : M Z :=
  match n with
  | O => mret addr
  | S n =>
      if Z.testbit mask i then
        val ← m68k_read_sz addr sz;
        movem_set i (if sz =? M68K_SIZE_WORD then s16 (u16 val) else val);;
        movem_load n (i + 1) mask (u32 (addr + m68k_size_bytes sz)) sz
      else movem_load n (i + 1) mask addr sz
  end.

Definition movem_size (opcode : Z) : Z := if bset opcode 0x0040 then M68K_SIZE_LONG else M68K_SIZE_WORD.

Definition op_movem_store (opcode ea_mode ea_reg : Z) : M Z :=
  let sz := movem_size opcode in
  mask ← m68k_fetch16;
  if ea_mode =? 4 then
    addr ← rd_a ea_reg;
    addr ← movem_store_down 16 0 mask addr sz;
    wr_a ea_reg addr;; mret 0
  else
    ea ← m68k_decode_ea ea_mode ea_reg sz;
    movem_store_up 16 0 mask (ea_addr ea) sz;; mret 0.

Definition op_movem_load (opcode ea_mode ea_reg : Z) : M Z :=
  let sz := movem_size opcode in
  mask ← m68k_fetch16;
  if ea_mode =? 3 then
    addr ← rd_a ea_reg;
    addr ← movem_load 16 0 mask addr sz;
    wr_a ea_reg addr;; mret 0
  else
    ea ← m68k_decode_ea ea_mode ea_reg sz;
    movem_load 16 0 mask (ea_addr ea) sz;; mret 0.

Definition op_swap (reg : Z) : M Z :=
  d ← rd_d reg;
  wr_d reg ((d ≫ 16) .| (d ≪ 16));;
  d ← rd_d reg;
  m68k_alu_tst d M68K_SIZE_LONG;; mret 0.

Definition op_not (ea_mode ea_reg size : Z) : M Z :=
  ea ← m68k_decode_ea ea_mode ea_reg size;
  dst ← m68k_read_ea ea size;
  let result := Z.lnot dst .& m68k_size_mask size in
  m68k_write_ea ea size result;;
  m68k_set_ccr_move result size;; mret 0.

Definition op_move_from_sr (ea_mode ea_reg : Z) : M Z :=
  ea ← m68k_decode_ea ea_mode ea_reg M68K_SIZE_WORD;
  sr ← rd_sr;
  m68k_write_ea ea M68K_SIZE_WORD sr;; mret 0.

Definition op_move_to_ccr (ea_mode ea_reg : Z) : M Z :=
  ea ← m68k_decode_ea ea_mode ea_reg M68K_SIZE_WORD;
  val ← m68k_read_ea ea M68K_SIZE_WORD;
  sr ← rd_sr;
  wr_sr ((sr .& 0xFF00) .| (val .& 0xFF));; mret 0.

Definition op_move_to_sr (ea_mode ea_reg : Z) : M Z :=
  ea ← m68k_decode_ea ea_mode ea_reg M68K_SIZE_WORD;
  val ← m68k_read_ea ea M68K_SIZE_WORD;
  wr_sr val;; mret 0.

Definition op_clr (ea_mode ea_reg size : Z) : M Z :=
  if 2 <? size then mret 0
  else
    ea ← m68k_decode_ea ea_mode ea_reg size;
    m68k_write_ea ea size 0;;
    sr ← rd_sr;
    wr_sr ((sr .& (0xFF00 .| M68K_FLAG_X)) .| M68K_FLAG_Z);; mret 0.

Definition op_link (reg : Z) : M Z :=
  v ← m68k_fetch16;
  let disp := s16 v in
  old ← rd_a reg;
  m68k_push32 old;;
  sp ← rd_a 7;
  wr_a reg sp;;
  sp ← rd_a 7;
  wr_a 7 (sp + disp);; mret 0.

Definition op_unlk (reg : Z) : M Z :=
  fp ← rd_a reg;
  wr_a 7 fp;;
  old ← m68k_pop32;
  wr_a reg old;; mret 0.

Definition op_move_usp (opcode : Z) : M Z :=
  let reg := opcode .& 7 in
  if bset opcode 0x0008 then usp ← gets m_usp; wr_a reg usp;; mret 0
  else a ← rd_a reg; modify (upd_usp a);; mret 0.

Definition m68k_group4 (opcode : Z) : M Z :=
  let bits_11_8 := (opcode ≫ 8) .& 0xF in
  let bits_7_6 := (opcode ≫ 6) .& 3 in
  let ea_mode := (opcode ≫ 3) .& 7 in
  let ea_reg := opcode .& 7 in
  let reg := (opcode ≫ 9) .& 7 in
  if opcode =? 0x4E71 then mret 0
  else if opcode =? 0x4E72 then op_stop
  else if opcode =? 0x4AFC then trap_or_go_on TRAP_ILLEGAL opcode
  else if opcode =? 0x4E75 then pc ← m68k_pop32; wr_pc pc;; mret 0
  else if opcode =? 0x4E73 then op_rte
  else if opcode .& 0xFFF0 =? 0x4E40 then op_trap (opcode .& 0x0F)
  else if (bits_7_6 =? 2) && bset bits_11_8 1 then op_chk reg ea_mode ea_reg
  else if (bits_7_6 =? 3) && bset bits_11_8 1 then with_address ea_mode ea_reg (wr_a reg)
  else if (bits_11_8 =? 0x4) && (bits_7_6 <=? 2) then modify_ea ea_mode ea_reg bits_7_6 (λ dst, m68k_alu_neg dst bits_7_6)
  else if (bits_11_8 =? 0x0) && (bits_7_6 <=? 2) then modify_ea ea_mode ea_reg bits_7_6 (λ dst, m68k_alu_negx dst bits_7_6)
  else if (bits_11_8 =? 0xA) && (bits_7_6 =? 3) then op_tas ea_mode ea_reg
  else if (bits_11_8 =? 0xA) && (bits_7_6 <=? 2) then op_tst ea_mode ea_reg bits_7_6
  else if (bits_11_8 =? 0x8) && (bits_7_6 =? 0) then modify_ea ea_mode ea_reg M68K_SIZE_BYTE (λ val, m68k_alu_nbcd (u8 val))
  else if opcode .& 0xFFF8 =? 0x4880 then op_ext_w ea_reg
  else if opcode .& 0xFFF8 =? 0x48C0 then op_ext_l ea_reg
  else if (bits_11_8 =? 0x8) && bset opcode 0x0080 && negb (ea_mode =? 0) then op_movem_store opcode ea_mode ea_reg
  else if (bits_11_8 =? 0xC) && bset opcode 0x0080 then op_movem_load opcode ea_mode ea_reg
  else if opcode .& 0xFFF8 =? 0x4840 then op_swap ea_reg
  else if (opcode .& 0xFFC0 =? 0x4840) && negb (ea_mode =? 0) then with_address ea_mode ea_reg m68k_push32
  else if (bits_11_8 =? 0x6) && (bits_7_6 <=? 2) then op_not ea_mode ea_reg bits_7_6
  else if (bits_11_8 =? 0x0) && (bits_7_6 =? 3) then op_move_from_sr ea_mode ea_reg
  else if (bits_11_8 =? 0x4) && (bits_7_6 =? 3) then op_move_to_ccr ea_mode ea_reg
  else if (bits_11_8 =? 0x6) && (bits_7_6 =? 3) then op_move_to_sr ea_mode ea_reg
  else if bits_11_8 =? 0x2 then op_clr ea_mode ea_reg bits_7_6
  else if opcode .& 0xFFC0 =? 0x4E80 then with_address ea_mode ea_reg (λ addr, pc ← rd_pc; m68k_push32 pc;; wr_pc addr)
  else if opcode .& 0xFFC0 =? 0x4EC0 then with_address ea_mode ea_reg wr_pc
  else if opcode .& 0xFFF8 =? 0x4E50 then op_link ea_reg
  else if opcode .& 0xFFF8 =? 0x4E58 then op_unlk ea_reg
  else if opcode .& 0xFFF0 =? 0x4E60 then op_move_usp opcode
  else mret 0.

(** ** Groups 5 to D *)

Definition op_dbcc (cc ea_reg : Z) : M Z :=
  v ← m68k_fetch16;
  let disp := s16 v in
  sr ← rd_sr;
  if negb (m68k_test_cc sr cc) then
    d ← rd_d ea_reg;
    let val := s16 (s16 (d .& 0xFFFF) - 1) in
    wr_d ea_reg ((d .& 0xFFFF0000) .| u16 val);;
    pc ← rd_pc;
    when (negb (val =? -1)) (wr_pc (pc - 2 + disp));; mret 0
  else mret 0.

Definition op_scc (cc ea_mode ea_reg : Z) : M Z :=
  ea ← m68k_decode_ea ea_mode ea_reg M68K_SIZE_BYTE;
  sr ← rd_sr;
  m68k_write_ea ea M68K_SIZE_BYTE (if m68k_test_cc sr cc then 0xFF else 0x00);; mret 0.

Definition m68k_group5 (opcode : Z) : M Z :=
  let size := (opcode ≫ 6) .& 3 in
  let ea_mode := (opcode ≫ 3) .& 7 in
  let ea_reg := opcode .& 7 in
  if size =? 3 then
    let cc := (opcode ≫ 8) .& 0xF in
    if ea_mode =? 1 then op_dbcc cc ea_reg else op_scc cc ea_mode ea_reg
  else
    let data := (opcode ≫ 9) .& 7 in
    let data := if data =? 0 then 8 else data in
    ea ← m68k_decode_ea ea_mode ea_reg size;
    if bset opcode 0x0100 then
      if bool_decide (ea_kind ea = EA_ADDR_REG) then a ← rd_a (ea_addr ea); wr_a (ea_addr ea) (a - data);; mret 0
      else
        dst ← m68k_read_ea ea size;
        r ← m68k_alu_sub data dst size;
        m68k_write_ea ea size r;; mret 0
    else
      if bool_decide (ea_kind ea = EA_ADDR_REG) then a ← rd_a (ea_addr ea); wr_a (ea_addr ea) (a + data);; mret 0
      else
        dst ← m68k_read_ea ea size;
        r ← m68k_alu_add data dst size;
        m68k_write_ea ea size r;; mret 0.

Definition m68k_group6 (opcode : Z) : M Z :=
  let cc := (opcode ≫ 8) .& 0xF in
  let disp8 := s8 (opcode .& 0xFF) in
  base ← rd_pc;
  disp ← (if disp8 =? 0 then v ← m68k_fetch16; mret (s16 v) else mret disp8);
  if cc =? 0 then wr_pc (base + disp);; mret 0
  else if cc =? 1 then pc ← rd_pc; m68k_push32 pc;; wr_pc (base + disp);; mret 0
  else sr ← rd_sr; when (m68k_test_cc sr cc) (wr_pc (base + disp));; mret 0.

(** Division by zero fires a trap, which may end the run. *)
Definition op_div (reg : Z) (res : Z * option Z) : M Z :=
  if res.1 <? 0 then trap_or_go_on TRAP_ILLEGAL 5
  else when (res.1 =? 0) (wr_d reg (default 0 res.2));; mret 0.

(** Where an operation of the code has no defined result the group returns -2, which
    ends the run as it stands: C says nothing of what follows. *)
Definition UNDEFINED : Z := -2.
Definition op_divs (reg : Z) (res : option (Z * option Z)) : M Z :=
  match res with Some res => op_div reg res | None => mret UNDEFINED end.

(** [<op> <ea>, Dn] and [<op> Dn, <ea>] of OR and AND. *)
Definition logic_to_reg (f : Z → Z → Z) (reg ea_mode ea_reg size : Z) : M Z :=
  ea ← m68k_decode_ea ea_mode ea_reg size;
  src ← m68k_read_ea ea size;
  d ← rd_d reg;
  let r := f d src .& m68k_size_mask size in
  m68k_write_d reg r size;;
  m68k_set_ccr_move r size;; mret 0.
Definition logic_to_ea (f : Z → Z → Z) (reg ea_mode ea_reg size : Z) : M Z :=
  ea ← m68k_decode_ea ea_mode ea_reg size;
  dst ← m68k_read_ea ea size;
  d ← rd_d reg;
  let r := f d dst .& m68k_size_mask size in
  m68k_write_ea ea size r;;
  m68k_set_ccr_move r size;; mret 0.

(** SBCD and ABCD, on registers or through both address registers. *)
Definition op_bcd (f : Z → Z → M Z) (reg ea_mode ea_reg : Z) : M Z :=
  if ea_mode =? 0 then
    src ← rd_d ea_reg; dst ← rd_d reg;
    r ← f (u8 src) (u8 dst);
    m68k_write_d reg (u8 r) M68K_SIZE_BYTE;; mret 0
  else
    a ← rd_a ea_reg; wr_a ea_reg (a - 1);;
    a ← rd_a reg; wr_a reg (a - 1);;
    a ← rd_a ea_reg; src ← m68k_read8 a;
    a ← rd_a reg; dst ← m68k_read8 a;
    r ← f src dst;
    a ← rd_a reg; m68k_write8 a (u8 r);; mret 0.

Definition m68k_group8 (opcode : Z) : M Z :=
  let omode := (opcode ≫ 6) .& 7 in
  let ea_mode := (opcode ≫ 3) .& 7 in
  let ea_reg := opcode .& 7 in
  let reg := (opcode ≫ 9) .& 7 in
  if omode =? 3 then
    ea ← m68k_decode_ea ea_mode ea_reg M68K_SIZE_WORD;
    src ← m68k_read_ea ea M68K_SIZE_WORD;
    d ← rd_d reg;
    res ← m68k_alu_divu d (u16 src);
    op_div reg res
  else if omode =? 7 then
    ea ← m68k_decode_ea ea_mode ea_reg M68K_SIZE_WORD;
    src ← m68k_read_ea ea M68K_SIZE_WORD;
    d ← rd_d reg;
    res ← m68k_alu_divs (s32 d) (s16 src);
    op_divs reg res
  else if omode <? 3 then logic_to_reg Z.lor reg ea_mode ea_reg omode
  else if (omode =? 4) && (ea_mode <=? 1) then op_bcd m68k_alu_sbcd reg ea_mode ea_reg
  else logic_to_ea Z.lor reg ea_mode ea_reg (omode .& 3).

(** SUBX and ADDX. *)
Definition op_extend (f : Z → Z → Z → M Z) (reg ea_mode ea_reg size : Z) : M Z :=
  if ea_mode =? 0 then
    src ← rd_d ea_reg; dst ← rd_d reg;
    r ← f src dst size;
    m68k_write_d reg r size;; mret 0
  else
    let nb := m68k_size_bytes size in
    a ← rd_a ea_reg; wr_a ea_reg (a - nb);;
    a ← rd_a reg; wr_a reg (a - nb);;
    a ← rd_a ea_reg; src ← m68k_read_sz a size;
    a ← rd_a reg; dst ← m68k_read_sz a size;
    r ← f src dst size;
    a ← rd_a reg; m68k_write_sz a r size;; mret 0.

(** Groups 9 and D: [sign] is -1 for SUBA and 1 for ADDA. *)
Definition op_addsub (alu alux : Z → Z → Z → M Z) (sign opcode : Z) : M Z :=
  let reg := (opcode ≫ 9) .& 7 in
  let omode := (opcode ≫ 6) .& 7 in
  let ea_mode := (opcode ≫ 3) .& 7 in
  let ea_reg := opcode .& 7 in
  if omode =? 3 then
    ea ← m68k_decode_ea ea_mode ea_reg M68K_SIZE_WORD;
    src ← m68k_read_ea ea M68K_SIZE_WORD;
    a ← rd_a reg; wr_a reg (a + sign * s16 src);; mret 0
  else if omode =? 7 then
    ea ← m68k_decode_ea ea_mode ea_reg M68K_SIZE_LONG;
    src ← m68k_read_ea ea M68K_SIZE_LONG;
    a ← rd_a reg; wr_a reg (a + sign * src);; mret 0
  else
    let size := omode .& 3 in
    if 2 <? size then mret 0
    else if (4 <=? omode) && (ea_mode <=? 1) then op_extend alux reg ea_mode ea_reg size
    else if omode <? 3 then
      ea ← m68k_decode_ea ea_mode ea_reg size;
      src ← m68k_read_ea ea size;
      d ← rd_d reg;
      r ← alu src d size;
      m68k_write_d reg r size;; mret 0
    else
      ea ← m68k_decode_ea ea_mode ea_reg size;
      dst ← m68k_read_ea ea size;
      d ← rd_d reg;
      r ← alu (d .& m68k_size_mask size) dst size;
      m68k_write_ea ea size r;; mret 0.
Definition m68k_group9 (opcode : Z) : M Z := op_addsub m68k_alu_sub m68k_alu_subx (-1) opcode.
Definition m68k_groupD (opcode : Z) : M Z := op_addsub m68k_alu_add m68k_alu_addx 1 opcode.

Definition m68k_groupB (opcode : Z) : M Z :=
  let reg := (opcode ≫ 9) .& 7 in
  let omode := (opcode ≫ 6) .& 7 in
  let ea_mode := (opcode ≫ 3) .& 7 in
  let ea_reg := opcode .& 7 in
  if omode =? 3 then
    ea ← m68k_decode_ea ea_mode ea_reg M68K_SIZE_WORD;
    src ← m68k_read_ea ea M68K_SIZE_WORD;
    a ← rd_a reg;
    m68k_alu_cmp (u32 (s16 src)) a M68K_SIZE_LONG;; mret 0
  else if omode =? 7 then
    ea ← m68k_decode_ea ea_mode ea_reg M68K_SIZE_LONG;
    src ← m68k_read_ea ea M68K_SIZE_LONG;
    a ← rd_a reg;
    m68k_alu_cmp src a M68K_SIZE_LONG;; mret 0
  else if omode <? 3 then
    ea ← m68k_decode_ea ea_mode ea_reg omode;
    src ← m68k_read_ea ea omode;
    d ← rd_d reg;
    m68k_alu_cmp src d omode;; mret 0
  else
    let size := omode .& 3 in
    if ea_mode =? 1 then
      if 2 <? size then mret 0
      else
        ea_s ← m68k_decode_ea 3 ea_reg size;
        src ← m68k_read_ea ea_s size;
        ea_d ← m68k_decode_ea 3 reg size;
        dst ← m68k_read_ea ea_d size;
        m68k_alu_cmp src dst size;; mret 0
    else logic_to_ea Z.lxor reg ea_mode ea_reg size.

Definition op_exg_d (rx ry : Z) : M unit := tmp ← rd_d rx; v ← rd_d ry; wr_d rx v;; wr_d ry tmp.
Definition op_exg_a (rx ry : Z) : M unit := tmp ← rd_a rx; v ← rd_a ry; wr_a rx v;; wr_a ry tmp.
Definition op_exg_da (rx ry : Z) : M unit := tmp ← rd_d rx; v ← rd_a ry; wr_d rx v;; wr_a ry tmp.

(** After MULU or MULS the code falls into the tests behind, which none of
    their opcodes meets. *)
Definition m68k_groupC (opcode : Z) : M Z :=
  let omode := (opcode ≫ 6) .& 7 in
  let ea_mode := (opcode ≫ 3) .& 7 in
  let ea_reg := opcode .& 7 in
  let reg := (opcode ≫ 9) .& 7 in
  (if omode =? 3 then
     ea ← m68k_decode_ea ea_mode ea_reg M68K_SIZE_WORD;
     src ← m68k_read_ea ea M68K_SIZE_WORD;
     d ← rd_d reg;
     r ← m68k_alu_mulu (u16 src) (u16 d);
     wr_d reg r
   else if omode =? 7 then
     ea ← m68k_decode_ea ea_mode ea_reg M68K_SIZE_WORD;
     src ← m68k_read_ea ea M68K_SIZE_WORD;
     d ← rd_d reg;
     r ← m68k_alu_muls (s16 src) (s16 d);
     wr_d reg r
   else mret tt);;
  if opcode .& 0xF1F8 =? 0xC140 then op_exg_d reg ea_reg;; mret 0
  else if opcode .& 0xF1F8 =? 0xC148 then op_exg_a reg ea_reg;; mret 0
  else if opcode .& 0xF1F8 =? 0xC188 then op_exg_da reg ea_reg;; mret 0
  else if omode <? 3 then logic_to_reg Z.land reg ea_mode ea_reg omode
  else if (omode =? 4) && (ea_mode <=? 1) then op_bcd m68k_alu_abcd reg ea_mode ea_reg
  else if (4 <=? omode) && (omode <=? 6) then logic_to_ea Z.land reg ea_mode ea_reg (omode .& 3)
  else mret 0.

(** ** Group E: shifts and rotates *)

Definition M68K_FLAG_XC : Z := M68K_FLAG_X .| M68K_FLAG_C.

(** A word shifted by one place: the flags and the result. *)
Definition mem_shift (type : Z) (left : bool) (val sr : Z) : Z * Z :=
  let x := x_flag sr in
  let out := if left then bset val 0x8000 else bset val 1 in
  let ccr := flag out M68K_FLAG_XC in
  match type with
  | 0 =>
      if left then
        let result := u16 (val ≪ 1) in
        (ccr .| flag (bset (val .^ result) 0x8000) M68K_FLAG_V, result)
      else (ccr, u16 (s16 val ≫ 1))
  | 1 => (ccr, if left then u16 (val ≪ 1) else val ≫ 1)
  | 2 => (ccr, if left then u16 ((val ≪ 1) .| x) else u16 ((val ≫ 1) .| (x ≪ 15)))
  | _ =>
      ((sr .& M68K_FLAG_X) .| flag out M68K_FLAG_C,
       if left then u16 ((val ≪ 1) .| (val ≫ 15)) else u16 ((val ≫ 1) .| (val ≪ 15)))
  end.

(** The loops over [countE]; the state is [result] with [ccr], and [v] of the
    arithmetic shift or [x] of the rotation through it. *)
Fixpoint asl_loop (n : nat) (mask msb result ccr : Z) (v : bool) : Z * Z * bool :=
  match n with
  | O => (result, ccr, v)
  | S n =>
      let out := bset result msb in
      let result := (result ≪ 1) .& mask in
      let v := if negb (eqb (bset result msb) out) then true else v in
      asl_loop n mask msb result (flag out M68K_FLAG_XC) v
  end.
Fixpoint asr_loop (n : nat) (sign : bool) (msb result ccr : Z) : Z * Z :=
  match n with
  | O => (result, ccr)
  | S n => asr_loop n sign msb ((result ≫ 1) .| flag sign msb) (flag (bset result 1) M68K_FLAG_XC)
  end.
Fixpoint lsl_loop (n : nat) (mask msb result ccr : Z) : Z * Z :=
  match n with
  | O => (result, ccr)
  | S n => lsl_loop n mask msb ((result ≪ 1) .& mask) (flag (bset result msb) M68K_FLAG_XC)
  end.
Fixpoint lsr_loop (n : nat) (result ccr : Z) : Z * Z :=
  match n with
  | O => (result, ccr)
  | S n => lsr_loop n (result ≫ 1) (flag (bset result 1) M68K_FLAG_XC)
  end.
Fixpoint rox_loop (n : nat) (left : bool) (mask msb result : Z) (x : bool) : Z * bool :=
  match n with
  | O => (result, x)
  | S n =>
      if left then rox_loop n left mask msb (((result ≪ 1) .& mask) .| flag x 1) (bset result msb)
      else rox_loop n left mask msb ((result ≫ 1) .| flag x msb) (bset result 1)
  end.
Fixpoint ro_loop (n : nat) (left : bool) (mask msb result : Z) : Z :=
  match n with
  | O => result
  | S n =>
      if left then ro_loop n left mask msb (((result ≪ 1) .& mask) .| flag (bset result msb) 1)
      else ro_loop n left mask msb ((result ≫ 1) .| flag (bset result 1) msb)
  end.

(** [val] shifted [count] places: the flags and the result. *)
Definition reg_shift (type : Z) (left : bool) (count size val sr : Z) : Z * Z :=
  let mask := m68k_size_mask size in
  let msb := m68k_size_msb size in
  let n := Z.to_nat count in
  let x := bset sr M68K_FLAG_X in
  if count =? 0 then
    ((sr .& M68K_FLAG_X) .| (if type =? 2 then flag x M68K_FLAG_C else 0), val)
  else
    match type with
    | 0 =>
        if left then
          let '(result, ccr, v) := asl_loop n mask msb val 0 false in
          (ccr .| flag v M68K_FLAG_V, result)
        else
          let '(result, ccr) := asr_loop n (bset val msb) msb val 0 in (ccr, result .& mask)
    | 1 =>
        let '(result, ccr) := if left then lsl_loop n mask msb val 0 else lsr_loop n val 0 in (ccr, result)
    | 2 => let '(result, x) := rox_loop n left mask msb val x in (flag x M68K_FLAG_XC, result)
    | _ =>
        let result := ro_loop n left mask msb val in
        ((sr .& M68K_FLAG_X) .| flag (if left then bset result 1 else bset result msb) M68K_FLAG_C, result)
    end.

Definition m68k_groupE (opcode : Z) : M Z :=
  let size := (opcode ≫ 6) .& 3 in
  let left := bset (opcode ≫ 8) 1 in
  if size =? 3 then
    ea ← m68k_decode_ea ((opcode ≫ 3) .& 7) (opcode .& 7) M68K_SIZE_WORD;
    v ← m68k_read_ea ea M68K_SIZE_WORD;
    sr ← rd_sr;
    let '(ccr, result) := mem_shift ((opcode ≫ 9) .& 3) left (u16 v) sr in
    set_ccr (flags_zn result 0xFFFF 0x8000 ccr);;
    m68k_write_ea ea M68K_SIZE_WORD result;; mret 0
  else
    let reg := opcode .& 7 in
    let ccc := (opcode ≫ 9) .& 7 in
    count ← (if bset (opcode ≫ 5) 1 then d ← rd_d ccc; mret (d .& 63) else mret (if ccc =? 0 then 8 else ccc));
    d ← rd_d reg;
    sr ← rd_sr;
    let '(ccr, result) := reg_shift ((opcode ≫ 3) .& 3) left count size (d .& m68k_size_mask size) sr in
    let ccr := ccr .| flag (result =? 0) M68K_FLAG_Z in
    let ccr := ccr .| flag (bset result (m68k_size_msb size)) M68K_FLAG_N in
    set_ccr ccr;;
    m68k_write_d reg result size;; mret 0.

(** ** The loop *)

(** The switch on the opcode's top four bits. *)
Definition m68k_exec (opcode : Z) : M Z :=
  match opcode ≫ 12 with
  | 0x0 => m68k_group0 opcode;; mret 0
  | 0x1 => m68k_move opcode M68K_SIZE_BYTE;; mret 0
  | 0x2 => m68k_move opcode M68K_SIZE_LONG;; mret 0
  | 0x3 => m68k_move opcode M68K_SIZE_WORD;; mret 0
  | 0x4 => m68k_group4 opcode
  | 0x5 => m68k_group5 opcode
  | 0x6 => m68k_group6 opcode
  | 0x7 => m68k_moveq opcode;; mret 0
  | 0x8 => m68k_group8 opcode
  | 0x9 => m68k_group9 opcode
  | 0xA => trap_or_go_on TRAP_ILLEGAL opcode
  | 0xB => m68k_groupB opcode
  | 0xC => m68k_groupC opcode
  | 0xD => m68k_groupD opcode
  | 0xE => m68k_groupE opcode
  | _ => trap_or_go_on TRAP_ILLEGAL opcode
  end.

(** One pass: [inl] goes round again, [inr] is [return 0]. *)
Definition m68k_pass (s : state) : state + state :=
  if negb (m_stopped s =? 0) then inr s
  else
    let '(opcode, s) := m68k_fetch16 s in
    let '(rc, s) := m68k_exec opcode s in
    if rc <? 0 then inr s
    else if negb (m_step_budget s =? 0) then
      let s := upd_step_budget (m_step_budget s - 1) s in
      if m_step_budget s =? 0 then inr s else inl s
    else inl s.

Fixpoint m68k_loop (fuel : nat) (s : state) : option state :=
  match fuel with
  | O => None
  | S fuel => match m68k_pass s with inl s => m68k_loop fuel s | inr s => Some s end
  end.

Definition ecpu_m68k_run (fuel : nat) (s : state) : option state :=
  m68k_loop fuel (upd_step_trap_exit 0 (upd_stopped 0 s)).

End Run.
