(* ===== verification/M68kFacts.v ===== *)
(** * M68kFacts: the interpreter of the 68000 core is contained and live

    What holds of every assignment an instruction makes holds of every run:
    registers and memory stay in their types, nothing outside the guest's memory
    is written but the three bytes behind it, and a budgeted run returns. *)

From S2P Require Import Prelude Bits M68k M68kAlu M68kRun.
#[local] Open Scope c_scope.

Create HintDb m68k.

Section Stability.
Context {C : Type} (trap_handler : m68k_state_t C → Z → Z → option C → Z * m68k_state_t C) (indeterminate : Z).
#[local] Abbreviation state := (m68k_state_t C).
#[local] Abbreviation M := (@M C).
Implicit Types s : state.

(** A predicate that the assignments of instructions, and the trap handler,
    preserve.  Only the first byte of an access is masked. *)
Class Stable (P : state → Prop) : Prop := {
  stable_size s : P s → 0 < m_mem_size s < 2 ^ 32;
  stable_d i v s : P s → P (upd_d (<[i := u32 v]> (m_d s)) s);
  stable_a i v s : P s → P (upd_a (<[i := u32 v]> (m_a s)) s);
  stable_pc v s : P s → P (upd_pc v s);
  stable_sr v s : P s → P (upd_sr v s);
  stable_usp v s : P s → P (upd_usp v s);
  stable_stopped v s : P s → P (upd_stopped v s);
  stable_trap_exit v s : P s → P (upd_step_trap_exit v s);
  stable_memory i v s : P s → 0 <= i < m_mem_size s + 3 → P (upd_memory (store8 i v (m_memory s)) s);
  stable_handler t p c s : P s → P (trap_handler s t p c).2
}.

Context (P : state → Prop) `{!Stable P}.

Definition keeps {A} (m : M A) : Prop := ∀ s, P s → P (m s).2.

Lemma keeps_ret {A} (x : A) : keeps (mret x).
Proof. by intros s. Qed.
Lemma keeps_bind {A B} (m : M A) (k : A → M B) : keeps m → (∀ x, keeps (k x)) → keeps (m ≫= k).
Proof.
  intros Hm Hk s Hs. specialize (Hm s Hs). unfold mbind, M_bind. destruct (m s) as [x s']. by apply Hk.
Qed.
Lemma keeps_gets {A} (f : state → A) : keeps (gets f).
Proof. by intros s. Qed.
Lemma keeps_when b (m : M unit) : keeps m → keeps (when b m).
Proof. intros Hm. destruct b; [done|apply keeps_ret]. Qed.
Lemma keeps_d i v : keeps (wr_d i v).
Proof. intros s Hs. exact (stable_d (Z.to_nat i) v s Hs). Qed.
Lemma keeps_a i v : keeps (wr_a i v).
Proof. intros s Hs. exact (stable_a (Z.to_nat i) v s Hs). Qed.
Lemma keeps_pc v : keeps (wr_pc v).
Proof. intros s Hs. exact (stable_pc v s Hs). Qed.
Lemma keeps_sr v : keeps (wr_sr v).
Proof. intros s Hs. exact (stable_sr v s Hs). Qed.
Lemma keeps_usp v : keeps (modify (upd_usp v)).
Proof. intros s Hs. exact (stable_usp v s Hs). Qed.
Lemma keeps_stopped v : keeps (modify (upd_stopped v)).
Proof. intros s Hs. exact (stable_stopped v s Hs). Qed.

(** The first byte of an access lies in the memory. *)
Lemma addr_range s addr : P s → 0 <= m68k_addr addr s < m_mem_size s.
Proof.
  intros Hs. pose proof (stable_size s Hs). unfold m68k_addr. rewrite uN_small by lia. pose proof (land_le addr (m_mem_size s - 1) ltac:(lia)). lia.
Qed.

Lemma keeps_write8 addr v : keeps (m68k_write8 addr v).
Proof. intros s Hs. pose proof (addr_range s addr Hs). apply (stable_memory (m68k_addr addr s) v s Hs). lia. Qed.
Lemma keeps_write16 addr v : keeps (m68k_write16 addr v).
Proof.
  intros s Hs. pose proof (addr_range s addr Hs). unfold m68k_write16, modify. cbn [snd]. set (i := m68k_addr addr s) in *.
  apply (stable_memory (i + 1) _ (upd_memory _ s)); [|cbn; lia]. apply stable_memory; [done|lia].
Qed.
Lemma keeps_write32 addr v : keeps (m68k_write32 addr v).
Proof.
  intros s Hs. pose proof (addr_range s addr Hs). unfold m68k_write32, modify. cbn [snd]. set (i := m68k_addr addr s) in *.
  apply (stable_memory (i + 3) _ (upd_memory _ s)); [|cbn; lia]. apply (stable_memory (i + 2) _ (upd_memory _ s)); [|cbn; lia].
  apply (stable_memory (i + 1) _ (upd_memory _ s)); [|cbn; lia]. apply stable_memory; [done|lia].
Qed.
#[local] Hint Resolve keeps_ret keeps_gets keeps_d keeps_a keeps_pc keeps_sr keeps_usp keeps_stopped keeps_write8 keeps_write16 keeps_write32 : m68k.

(** Follows a program down to its assignments. *)
Ltac keeps :=
  repeat match goal with
    | |- keeps (mbind _ _) => apply keeps_bind; [|intros ?]
    | |- keeps (when _ _) => apply keeps_when
    | |- keeps (match ?x with _ => _ end) => destruct x
    | |- keeps _ => progress cbn zeta
    end; eauto with m68k.

Lemma keeps_fetch16 : keeps m68k_fetch16.
Proof. unfold m68k_fetch16, rd_pc, m68k_read16. keeps. Qed.
Lemma keeps_fetch32 : keeps m68k_fetch32.
Proof. unfold m68k_fetch32, rd_pc, m68k_read32. keeps. Qed.
Lemma keeps_push16 v : keeps (m68k_push16 v).
Proof. unfold m68k_push16, rd_a. keeps. Qed.
Lemma keeps_push32 v : keeps (m68k_push32 v).
Proof. unfold m68k_push32, rd_a. keeps. Qed.
Lemma keeps_pop16 : keeps m68k_pop16.
Proof. unfold m68k_pop16, rd_a, m68k_read16. keeps. Qed.
Lemma keeps_pop32 : keeps m68k_pop32.
Proof. unfold m68k_pop32, rd_a, m68k_read32. keeps. Qed.
Lemma keeps_read_sz addr size : keeps (m68k_read_sz addr size).
Proof. unfold m68k_read_sz, m68k_read8, m68k_read16, m68k_read32. keeps. Qed.
Lemma keeps_write_sz addr v size : keeps (m68k_write_sz addr v size).
Proof. unfold m68k_write_sz. keeps. Qed.
Lemma keeps_write_d r v size : keeps (m68k_write_d r v size).
Proof. unfold m68k_write_d, rd_d. keeps. Qed.
#[local] Hint Resolve keeps_fetch16 keeps_fetch32 keeps_push16 keeps_push32 keeps_pop16 keeps_pop32 keeps_read_sz keeps_write_sz keeps_write_d : m68k.

Lemma keeps_rd_d i : keeps (rd_d i).
Proof. apply keeps_gets. Qed.
Lemma keeps_rd_a i : keeps (rd_a i).
Proof. apply keeps_gets. Qed.
Lemma keeps_rd_pc : keeps rd_pc.
Proof. apply keeps_gets. Qed.
Lemma keeps_rd_sr : keeps rd_sr.
Proof. apply keeps_gets. Qed.
Lemma keeps_read8 addr : keeps (m68k_read8 addr).
Proof. apply keeps_gets. Qed.
Lemma keeps_read32 addr : keeps (m68k_read32 addr).
Proof. apply keeps_gets. Qed.
#[local] Hint Resolve keeps_rd_d keeps_rd_a keeps_rd_pc keeps_rd_sr keeps_read8 keeps_read32 : m68k.

Lemma keeps_ea_index base : keeps (ea_index base).
Proof. unfold ea_index. keeps. Qed.
#[local] Hint Resolve keeps_ea_index : m68k.
Lemma keeps_ea_mode7 reg size : keeps (ea_mode7 indeterminate reg size).
Proof. unfold ea_mode7. keeps. Qed.
#[local] Hint Resolve keeps_ea_mode7 : m68k.
Lemma keeps_decode_ea mode reg size : keeps (m68k_decode_ea indeterminate mode reg size).
Proof. unfold m68k_decode_ea. keeps. Qed.
Lemma keeps_read_ea ea size : keeps (m68k_read_ea ea size).
Proof. unfold m68k_read_ea. keeps. Qed.
Lemma keeps_write_ea ea size v : keeps (m68k_write_ea ea size v).
Proof. unfold m68k_write_ea. keeps. Qed.
Lemma keeps_set_ccr v : keeps (set_ccr v).
Proof. unfold set_ccr. keeps. Qed.
#[local] Hint Resolve keeps_decode_ea keeps_read_ea keeps_write_ea keeps_set_ccr : m68k.
Lemma keeps_ccr_move v size : keeps (m68k_set_ccr_move v size).
Proof. unfold m68k_set_ccr_move. keeps. Qed.
Lemma keeps_tst v size : keeps (m68k_alu_tst v size).
Proof. unfold m68k_alu_tst. keeps. Qed.
Lemma keeps_add a b size : keeps (m68k_alu_add a b size).
Proof. unfold m68k_alu_add. keeps. Qed.
Lemma keeps_sub a b size : keeps (m68k_alu_sub a b size).
Proof. unfold m68k_alu_sub. keeps. Qed.
Lemma keeps_cmp a b size : keeps (m68k_alu_cmp a b size).
Proof. unfold m68k_alu_cmp. keeps. Qed.
Lemma keeps_negx a size : keeps (m68k_alu_negx a size).
Proof. unfold m68k_alu_negx. keeps. Qed.
Lemma keeps_addx a b size : keeps (m68k_alu_addx a b size).
Proof. unfold m68k_alu_addx. keeps. Qed.
Lemma keeps_subx a b size : keeps (m68k_alu_subx a b size).
Proof. unfold m68k_alu_subx. keeps. Qed.
Lemma keeps_mulu a b : keeps (m68k_alu_mulu a b).
Proof. unfold m68k_alu_mulu. keeps. Qed.
Lemma keeps_muls a b : keeps (m68k_alu_muls a b).
Proof. unfold m68k_alu_muls. keeps. Qed.
Lemma keeps_abcd a b : keeps (m68k_alu_abcd a b).
Proof. unfold m68k_alu_abcd. keeps. Qed.
Lemma keeps_sbcd a b : keeps (m68k_alu_sbcd a b).
Proof. unfold m68k_alu_sbcd. keeps. Qed.
Lemma keeps_divu a b : keeps (m68k_alu_divu a b).
Proof. unfold m68k_alu_divu. keeps. Qed.
Lemma keeps_divs a b : keeps (m68k_alu_divs a b).
Proof. unfold m68k_alu_divs. keeps. Qed.
#[local] Hint Resolve keeps_ccr_move keeps_tst keeps_add keeps_sub keeps_cmp keeps_negx keeps_addx keeps_subx keeps_mulu keeps_muls
  keeps_abcd keeps_sbcd keeps_divu keeps_divs : m68k.

Lemma keeps_fire_trap t p : keeps (m68k_fire_trap trap_handler t p).
Proof.
  intros s Hs. unfold m68k_fire_trap. destruct (m_trap_handler s); [|done]. pose proof (stable_handler t p (m_trap_ctx s) s Hs) as H.
  destruct (trap_handler s t p (m_trap_ctx s)) as [rc s']. cbn in *. destruct (rc =? TRAP_EXIT); [|done]. by apply stable_trap_exit.
Qed.
#[local] Hint Resolve keeps_fire_trap : m68k.

Lemma keeps_bitop m r op b : keeps (m68k_bitop indeterminate m r op b).
Proof. unfold m68k_bitop. keeps. Qed.
Lemma keeps_imm_logic f i m r size : keeps (imm_logic indeterminate f i m r size).
Proof. unfold imm_logic. keeps. Qed.
Lemma keeps_fetch_imm size : keeps (fetch_imm size).
Proof. unfold fetch_imm. keeps. Qed.
#[local] Hint Resolve keeps_bitop keeps_imm_logic keeps_fetch_imm : m68k.
Lemma keeps_group0 op : keeps (m68k_group0 indeterminate op).
Proof. unfold m68k_group0. keeps. Qed.
Lemma keeps_move op size : keeps (m68k_move indeterminate op size).
Proof. unfold m68k_move. keeps. Qed.
Lemma keeps_moveq op : keeps (m68k_moveq op).
Proof. unfold m68k_moveq. keeps. Qed.

Lemma keeps_trap_or_go_on t p : keeps (trap_or_go_on trap_handler t p).
Proof. unfold trap_or_go_on. keeps. Qed.
#[local] Hint Resolve keeps_group0 keeps_move keeps_moveq keeps_trap_or_go_on : m68k.
Lemma keeps_stop : keeps (op_stop trap_handler).
Proof. unfold op_stop. keeps. Qed.
Lemma keeps_rte : keeps op_rte.
Proof. unfold op_rte. keeps. Qed.
Lemma keeps_trap n : keeps (op_trap trap_handler n).
Proof. unfold op_trap. keeps. Qed.
Lemma keeps_chk r m e : keeps (op_chk trap_handler indeterminate r m e).
Proof. unfold op_chk. keeps. Qed.
Lemma keeps_with_address m r f : (∀ a, keeps (f a)) → keeps (with_address indeterminate m r f).
Proof. intros Hf. unfold with_address. keeps. Qed.
Lemma keeps_modify_ea m r size f : (∀ v, keeps (f v)) → keeps (modify_ea indeterminate m r size f).
Proof. intros Hf. unfold modify_ea. keeps. Qed.
Lemma keeps_tas m r : keeps (op_tas indeterminate m r).
Proof. unfold op_tas. keeps. Qed.
Lemma keeps_op_tst m r size : keeps (op_tst indeterminate m r size).
Proof. unfold op_tst. keeps. Qed.
Lemma keeps_ext_w r : keeps (op_ext_w r).
Proof. unfold op_ext_w. keeps. Qed.
Lemma keeps_ext_l r : keeps (op_ext_l r).
Proof. unfold op_ext_l. keeps. Qed.
#[local] Hint Resolve keeps_stop keeps_rte keeps_trap keeps_chk keeps_with_address keeps_modify_ea keeps_tas keeps_op_tst keeps_ext_w keeps_ext_l : m68k.

Lemma keeps_store_down n i mask addr sz : keeps (movem_store_down n i mask addr sz).
Proof. revert i addr. induction n as [|n IH]; intros; cbn [movem_store_down]; keeps. Qed.
Lemma keeps_store_up n i mask addr sz : keeps (movem_store_up n i mask addr sz).
Proof. revert i addr. induction n as [|n IH]; intros; cbn [movem_store_up]; unfold movem_reg; keeps. Qed.
Lemma keeps_load n i mask addr sz : keeps (movem_load n i mask addr sz).
Proof. revert i addr. induction n as [|n IH]; intros; cbn [movem_load]; unfold movem_set; keeps. Qed.
#[local] Hint Resolve keeps_store_down keeps_store_up keeps_load : m68k.
Lemma keeps_movem_store op m r : keeps (op_movem_store indeterminate op m r).
Proof. unfold op_movem_store. keeps. Qed.
Lemma keeps_movem_load op m r : keeps (op_movem_load indeterminate op m r).
Proof. unfold op_movem_load. keeps. Qed.
Lemma keeps_swap r : keeps (op_swap r).
Proof. unfold op_swap. keeps. Qed.
Lemma keeps_not m r size : keeps (op_not indeterminate m r size).
Proof. unfold op_not. keeps. Qed.
Lemma keeps_from_sr m r : keeps (op_move_from_sr indeterminate m r).
Proof. unfold op_move_from_sr. keeps. Qed.
Lemma keeps_to_ccr m r : keeps (op_move_to_ccr indeterminate m r).
Proof. unfold op_move_to_ccr. keeps. Qed.
Lemma keeps_to_sr m r : keeps (op_move_to_sr indeterminate m r).
Proof. unfold op_move_to_sr. keeps. Qed.
Lemma keeps_clr m r size : keeps (op_clr indeterminate m r size).
Proof. unfold op_clr. keeps. Qed.
Lemma keeps_link r : keeps (op_link r).
Proof. unfold op_link. keeps. Qed.
Lemma keeps_unlk r : keeps (op_unlk r).
Proof. unfold op_unlk. keeps. Qed.
Lemma keeps_move_usp op : keeps (op_move_usp op).
Proof. unfold op_move_usp. keeps. Qed.
#[local] Hint Resolve keeps_movem_store keeps_movem_load keeps_swap keeps_not keeps_from_sr keeps_to_ccr keeps_to_sr keeps_clr keeps_link
  keeps_unlk keeps_move_usp : m68k.
Lemma keeps_nbcd v : keeps (m68k_alu_nbcd v).
Proof. apply keeps_sbcd. Qed.
Lemma keeps_neg v size : keeps (m68k_alu_neg v size).
Proof. apply keeps_sub. Qed.
Lemma keeps_jsr addr : keeps (pc ← rd_pc; m68k_push32 pc;; wr_pc addr).
Proof. keeps. Qed.
#[local] Hint Resolve keeps_nbcd keeps_neg keeps_jsr : m68k.
Lemma keeps_group4 op : keeps (m68k_group4 trap_handler indeterminate op).
Proof. unfold m68k_group4. keeps. Qed.

Lemma keeps_dbcc cc r : keeps (op_dbcc cc r).
Proof. unfold op_dbcc. keeps. Qed.
Lemma keeps_scc cc m r : keeps (op_scc indeterminate cc m r).
Proof. unfold op_scc. keeps. Qed.
Lemma keeps_div r x : keeps (op_div trap_handler r x).
Proof. unfold op_div. keeps. Qed.
Lemma keeps_logic_to_reg f r m e size : keeps (logic_to_reg indeterminate f r m e size).
Proof. unfold logic_to_reg. keeps. Qed.
Lemma keeps_logic_to_ea f r m e size : keeps (logic_to_ea indeterminate f r m e size).
Proof. unfold logic_to_ea. keeps. Qed.
Lemma keeps_bcd f r m e : (∀ a b, keeps (f a b)) → keeps (op_bcd f r m e).
Proof. intros Hf. unfold op_bcd. keeps. Qed.
Lemma keeps_extend f r m e size : (∀ a b c, keeps (f a b c)) → keeps (op_extend f r m e size).
Proof. intros Hf. unfold op_extend. keeps. Qed.
#[local] Hint Resolve keeps_group4 keeps_dbcc keeps_scc keeps_div keeps_logic_to_reg keeps_logic_to_ea keeps_bcd keeps_extend : m68k.
Lemma keeps_addsub f g sign op : (∀ a b c, keeps (f a b c)) → (∀ a b c, keeps (g a b c)) → keeps (op_addsub indeterminate f g sign op).
Proof. intros Hf Hg. unfold op_addsub. keeps. Qed.
Lemma keeps_group5 op : keeps (m68k_group5 indeterminate op).
Proof. unfold m68k_group5. keeps. Qed.
Lemma keeps_group6 op : keeps (m68k_group6 op).
Proof. unfold m68k_group6. keeps. Qed.
Lemma keeps_group8 op : keeps (m68k_group8 trap_handler indeterminate op).
Proof. unfold m68k_group8, op_divs. keeps. Qed.
Lemma keeps_groupB op : keeps (m68k_groupB indeterminate op).
Proof. unfold m68k_groupB. keeps. Qed.
Lemma keeps_groupC op : keeps (m68k_groupC indeterminate op).
Proof. unfold m68k_groupC, op_exg_d, op_exg_a, op_exg_da. keeps. Qed.
Lemma keeps_groupE op : keeps (m68k_groupE indeterminate op).
Proof. unfold m68k_groupE. keeps. Qed.
#[local] Hint Resolve keeps_addsub keeps_group5 keeps_group6 keeps_group8 keeps_groupB keeps_groupC keeps_groupE : m68k.
Lemma keeps_group9 op : keeps (m68k_group9 indeterminate op).
Proof. unfold m68k_group9. eauto with m68k. Qed.
Lemma keeps_groupD op : keeps (m68k_groupD indeterminate op).
Proof. unfold m68k_groupD. eauto with m68k. Qed.
#[local] Hint Resolve keeps_group9 keeps_groupD : m68k.

Lemma keeps_exec op : keeps (m68k_exec trap_handler indeterminate op).
Proof. unfold m68k_exec. keeps. Qed.

End Stability.

(** ** Types and containment *)

Definition word32 (v : Z) : Prop := 0 <= v < 2 ^ 32.

Record m68k_ok {C} (s : m68k_state_t C) : Prop := {
  mok_d : length (m_d s) = 8%nat ∧ Forall word32 (m_d s);
  mok_a : length (m_a s) = 8%nat ∧ Forall word32 (m_a s);
  mok_pc : word32 (m_pc s);
  mok_sr : 0 <= m_sr s < 2 ^ 16;
  mok_sps : word32 (m_usp s) ∧ word32 (m_ssp s);
  mok_bytes : 0 <= m_stopped s < 256 ∧ 0 <= m_step_budget s < 256 ∧ 0 <= m_step_trap_exit s < 256;
  mok_memory : ∀ i, 0 <= m_memory s i < 256;
  mok_size : 0 < m_mem_size s < 2 ^ 32
}.

(** [s] has the size and the surroundings of [s0]: of what lies outside the
    guest's memory at most the three bytes behind it differ. *)
Definition contained {C} (s0 s : m68k_state_t C) : Prop :=
  m_mem_size s = m_mem_size s0 ∧ ∀ i, i < 0 ∨ m_mem_size s0 + 3 <= i → m_memory s i = m_memory s0 i.

(** The handler keeps the guest's state in its types and to its memory. *)
Definition handler_ok {C} (trap_handler : m68k_state_t C → Z → Z → option C → Z * m68k_state_t C) : Prop :=
  ∀ s t p c, m68k_ok s → m68k_ok (trap_handler s t p c).2 ∧ contained s (trap_handler s t p c).2.

Lemma contained_refl {C} (s : m68k_state_t C) : contained s s.
Proof. done. Qed.

Lemma contained_trans {C} (s0 s1 s2 : m68k_state_t C) : contained s0 s1 → contained s1 s2 → contained s0 s2.
Proof. intros [E1 H1] [E2 H2]. split; [congruence|]. intros i Hi. rewrite H2 by (rewrite E1; lia). by apply H1. Qed.

Lemma word32_u32 v : word32 (u32 v).
Proof. apply u32_range. Qed.
#[local] Hint Resolve word32_u32 : core.

Lemma Forall_upd l i v : Forall word32 l → Forall word32 (<[i := u32 v]> l).
Proof. intros. by apply Forall_insert. Qed.
#[local] Hint Resolve Forall_upd : core.

Lemma ok_stable {C} h (s0 : m68k_state_t C) : handler_ok h → Stable h (λ s, m68k_ok s ∧ contained s0 s).
Proof.
  intros Hh. split; try (intros; match goal with H : m68k_ok _ ∧ _ |- _ => destruct H as [[[? ?] [? ?] ? ? [? ?] (? & ? & ?) ? ?] [? ?]] end; split; [|by split];
    split; cbn; rewrite ?length_insert; eauto; try (split; eauto; fail); try apply u16_range; repeat first [assumption|apply u8_range|split]).
  - by intros s [Hs _]; apply Hs.
  - intros i v s [Hs [E Hc]] Hi. split; [destruct Hs; split; try done|].
    + intros j. cbn. unfold store8. destruct (j =? i); [apply u8_range|done].
    + split; [done|]. intros j Hj. cbn. unfold store8. destruct (Z.eqb_spec j i); [lia|]. by apply Hc.
  - intros t p c s [Hs Hc]. destruct (Hh s t p c Hs). split; [done|]. by eapply contained_trans.
Qed.

(** One pass goes round again. *)
Definition pass_step {C} h ind (s s' : m68k_state_t C) : Prop := m68k_pass h ind s = inl s'.

Lemma pass_keeps {C} h ind (P : m68k_state_t C → Prop) s : Stable h P → (∀ v s, P s → P (upd_step_budget v s)) → P s →
  match m68k_pass h ind s with inl s' | inr s' => P s' end.
Proof.
  intros HP Hb Hs. unfold m68k_pass. destruct (negb (m_stopped s =? 0)); [done|]. pose proof (keeps_fetch16 h P s Hs) as H1.
  destruct (m68k_fetch16 s) as [op s1]. cbn [snd] in H1. pose proof (keeps_exec h ind P op s1 H1) as H2.
  destruct (m68k_exec h ind op s1) as [rc s2]. cbn [snd] in H2. destruct (rc <? 0); [done|].
  destruct (negb (m_step_budget s2 =? 0)); [|done]. cbn zeta. destruct (_ =? 0); by apply Hb.
Qed.

Lemma run_keeps {C} h ind (P : m68k_state_t C → Prop) s s' : Stable h P → (∀ v s, P s → P (upd_step_budget v s)) →
  rtc (pass_step h ind) s s' → P s → P s'.
Proof.
  intros HP Hb. induction 1 as [|a b c Hab _ IH]; [done|]. intros Ha. apply IH. pose proof (pass_keeps h ind P a HP Hb Ha) as H.
  by rewrite Hab in H.
Qed.

Lemma ok_upd_budget {C} v (s0 s : m68k_state_t C) : m68k_ok s ∧ contained s0 s → m68k_ok (upd_step_budget v s) ∧ contained s0 (upd_step_budget v s).
Proof. intros [[] ?]. split; [|done]. split; try done. cbn. repeat first [apply u8_range|split]; lia. Qed.

(** C17. A guest program of the 68000 core is contained, whatever it does and for
    however long it runs: after every instruction each register, flag word and
    byte of memory is in the range of its type, the memory has its size, and
    nothing outside the guest's memory has been written except for the three
    bytes directly behind it, which an access at its very end reaches. *)
Theorem m68k_contained {C} (h : m68k_state_t C → Z → Z → option C → Z * m68k_state_t C) ind s s' : handler_ok h → m68k_ok s →
  rtc (pass_step h ind) s s' →
  (m68k_ok s' ∧ contained s s') ∧ ∀ r, m68k_pass h ind s' = inr r → m68k_ok r ∧ contained s r.
Proof.
  intros Hh Hs Hrun. pose proof (ok_stable h s Hh) as HP. pose proof (λ v s1, ok_upd_budget v s s1) as Hb.
  assert (m68k_ok s' ∧ contained s s') as Hs' by by apply (run_keeps h ind _ s s' HP Hb Hrun).
  split; [done|]. intros r Hr. pose proof (pass_keeps h ind _ s' HP Hb Hs') as H. by rewrite Hr in H.
Qed.

(** ** Budgeted runs *)

Lemma pass_budget_stable {C} (h : m68k_state_t C → Z → Z → option C → Z * m68k_state_t C) b :
  (∀ s t p c, m_step_budget (h s t p c).2 = m_step_budget s ∧ m_mem_size (h s t p c).2 = m_mem_size s) →
  Stable h (λ s, m_step_budget s = b ∧ 0 < m_mem_size s < 2 ^ 32).
Proof. intros Hh. split; try done; [by intros s []|]. intros t p c s. by destruct (Hh s t p c) as [-> ->]. Qed.

Lemma pass_budget {C} h ind b (s : m68k_state_t C) :
  (∀ s t p c, m_step_budget (h s t p c).2 = m_step_budget s ∧ m_mem_size (h s t p c).2 = m_mem_size s) →
  0 < b < 256 → m_step_budget s = b ∧ 0 < m_mem_size s < 2 ^ 32 →
  match m68k_pass h ind s with
  | inl s' => 1 < b ∧ m_step_budget s' = b - 1 ∧ 0 < m_mem_size s' < 2 ^ 32
  | inr _ => True
  end.
Proof.
  intros Hh Hb Hs. pose proof (pass_budget_stable h b Hh) as HP. unfold m68k_pass. destruct (negb (m_stopped s =? 0)); [done|].
  pose proof (keeps_fetch16 h _ s Hs) as H1. destruct (m68k_fetch16 s) as [op s1]. cbn [snd] in H1.
  pose proof (keeps_exec h ind _ op s1 H1) as H2. destruct (m68k_exec h ind op s1) as [rc s2]. cbn [snd] in H2.
  destruct (rc <? 0); [done|]. destruct H2 as [E2 H2]. destruct (Z.eqb_spec (m_step_budget s2) 0); [lia|]. cbn zeta. cbn [negb].
  change (m_step_budget (upd_step_budget ?v ?x)) with (u8 v). rewrite (uN_small 8) by lia.
  destruct (Z.eqb_spec (m_step_budget s2 - 1) 0); [done|]. split; [lia|]. split; [|done]. cbn -[Z.sub]. rewrite uN_small by lia. lia.
Qed.

Lemma loop_returns {C} h ind fuel (s : m68k_state_t C) :
  (∀ s t p c, m_step_budget (h s t p c).2 = m_step_budget s ∧ m_mem_size (h s t p c).2 = m_mem_size s) →
  0 < m_step_budget s < 256 → 0 < m_mem_size s < 2 ^ 32 → (Z.to_nat (m_step_budget s) <= fuel)%nat →
  ∃ r s', m68k_loop h ind fuel s = Some r ∧ rtc (pass_step h ind) s s' ∧ m68k_pass h ind s' = inr r.
Proof.
  intros Hh. revert s. induction fuel as [|fuel IH]; intros s Hb Hm Hf; [lia|]. cbn [m68k_loop].
  pose proof (pass_budget h ind _ s Hh Hb (conj eq_refl Hm)) as Hp. destruct (m68k_pass h ind s) as [s1|r] eqn:E.
  - destruct Hp as (H1 & H2 & H3). destruct (IH s1) as (r & s' & -> & Hr & Hl); [lia|done|lia|]. exists r, s'. split_and!; [done| |done].
    by apply (rtc_l _ _ s1).
  - exists r, s. split_and!; [done|apply rtc_refl|done].
Qed.

(** Budgeted runs return: with a step budget of [n] instructions, and a trap
    handler that leaves budget and memory size alone, [ecpu_m68k_run] returns
    within [n] passes whatever the program does, and the state it returns with is
    well-formed and contained. *)
Theorem m68k_budgeted_run_returns {C} (h : m68k_state_t C → Z → Z → option C → Z * m68k_state_t C) ind fuel s : handler_ok h →
  (∀ s t p c, m_step_budget (h s t p c).2 = m_step_budget s ∧ m_mem_size (h s t p c).2 = m_mem_size s) →
  m68k_ok s → 0 < m_step_budget s → (Z.to_nat (m_step_budget s) <= fuel)%nat →
  ∃ r, ecpu_m68k_run h ind fuel s = Some r ∧ m68k_ok r ∧ contained s r.
Proof.
  intros Hok Hh Hs Hb Hf. unfold ecpu_m68k_run. set (s0 := upd_step_trap_exit 0 (upd_stopped 0 s)).
  pose proof (ok_stable h s Hok) as HP. assert (m68k_ok s0 ∧ contained s s0) as H0.
  { apply (stable_trap_exit h (P := λ x, m68k_ok x ∧ contained s x)), (stable_stopped h (P := λ x, m68k_ok x ∧ contained s x)). by split. }
  destruct (loop_returns h ind fuel s0) as (r & s' & -> & Hrun & Hr); [done|destruct Hs; cbn; lia|apply Hs|done|].
  exists r. split; [done|]. pose proof (λ v s1, ok_upd_budget v s s1) as Hu.
  pose proof (pass_keeps h ind _ s' HP Hu (run_keeps h ind _ _ _ HP Hu Hrun H0)) as H. by rewrite Hr in H.
Qed.

(** ** A guest without a trap handler *)

Definition no_trap : m68k_state_t unit → Z → Z → option unit → Z * m68k_state_t unit := λ s _ _ _, (0, s).

Lemma no_trap_ok : handler_ok no_trap.
Proof. by intros s t p c Hs. Qed.

(** MOVEQ #1,D0; MOVE.L D0,(A0); BRA back, with A0 at the last byte. *)
Definition demo_guest : m68k_state_t unit :=
  upd_step_budget 5 (upd_a [65535; 0; 0; 0; 0; 0; 0; 0]
    (ecpu_m68k_init (λ i, match i with 0 => 0x70 | 1 => 0x01 | 2 => 0x20 | 3 => 0x80 | 4 => 0x60 | 5 => 0xFC | _ => 0 end) 65536)).

Lemma demo_guest_ok : m68k_ok demo_guest.
Proof.
  split; try done; [split; [done|]..| |]; try (repeat constructor; done).
  intros i. cbn. destruct i as [|[p|p|]|]; try done. all: repeat (destruct p as [p|p|]; try done).
Qed.

Lemma m68k_contained_witness : (m68k_ok demo_guest ∧ contained demo_guest demo_guest) ∧
  ∀ r, m68k_pass no_trap 0 demo_guest = inr r → m68k_ok r ∧ contained demo_guest r.
Proof. exact (m68k_contained no_trap 0 demo_guest demo_guest no_trap_ok demo_guest_ok (rtc_refl _ _)). Defined.

Lemma m68k_budgeted_run_returns_witness :
  ∃ r, ecpu_m68k_run no_trap 0 5 demo_guest = Some r ∧ m68k_ok r ∧ contained demo_guest r.
Proof.
  apply (m68k_budgeted_run_returns no_trap 0 5 demo_guest); [apply no_trap_ok|done|apply demo_guest_ok|by split|by vm_compute; lia].
Defined.

(** The store of the guest above does reach behind its memory. *)
Lemma overrun : from_option (λ r, m_memory r (m_mem_size r)) 7 (ecpu_m68k_run no_trap 0 5 (upd_step_budget 2 (upd_memory (λ i, match i with
  0 => 0x70 | 1 => 0x01 | 2 => 0x20 | 3 => 0x80 | _ => 9 end) demo_guest))) = 0.
Proof. by vm_compute. Qed.

(** ** Pointers into the guest *)

(** A pointer handed out for a size without wrap-around lies in the memory with
    all its bytes. *)
Lemma translate_ptr_in {C} (s : m68k_state_t C) addr size p : 0 < m_mem_size s < 2 ^ 32 → 0 <= size <= 2 ^ 32 - m_mem_size s →
  ecpu_m68k_translate_ptr s addr size = Some p → 0 <= p ∧ p + size <= m_mem_size s.
Proof.
  intros Hm Hs. unfold ecpu_m68k_translate_ptr, m68k_addr. cbn zeta. rewrite (uN_small 32 (m_mem_size s - 1)) by lia.
  pose proof (land_le addr (m_mem_size s - 1) ltac:(lia)). rewrite (uN_small 32) by lia.
  destruct (Z.ltb_spec (m_mem_size s) ((addr .& (m_mem_size s - 1)) + size)); [done|]. intros [= <-]. lia.
Qed.

(** A size that wraps around gets a pointer although it does not fit. *)
Lemma translate_ptr_wraps : ecpu_m68k_translate_ptr demo_guest 4096 0xFFFFFFFF = Some 4096.
Proof. reflexivity. Qed.
