(* ===== verification/M68kShiftFacts.v ===== *)
(** * M68kShiftFacts: shifts and rotates of the 68000 core

    The loops of the shift instructions, one place at a time in the code, against
    the arithmetic they amount to. *)

From S2P Require Import Prelude Bits M68k M68kAlu M68kRun M68kAluFacts.
#[local] Open Scope c_scope.

Section Sized.
Context (size : Z) (Hsize : is_size size).
#[local] Abbreviation w := (width size).
#[local] Abbreviation msb := (m68k_size_msb size).
#[local] Abbreviation mask := (m68k_size_mask size).

Lemma bit_msb r : bset r msb = Z.testbit r (w - 1).
Proof. destruct (size_width size Hsize) as (Hw & _ & -> & _). apply bset_bit. lia. Qed.

Lemma bit_low r : bset r 1 = Z.testbit r 0.
Proof. apply bset_1. Qed.

Lemma double_uN r : (r ≪ 1) .& mask = uN w (r * 2).
Proof. rewrite (mask_uN size Hsize). by rewrite Z.shiftl_mul_pow2. Qed.

Lemma testbit_double r k : Z.testbit (r * 2) k = Z.testbit r (k - 1).
Proof.
  destruct (Z.lt_ge_cases k 0); [by rewrite !Z.testbit_neg_r by lia|]. destruct (Z.eq_dec k 0) as [->|].
  - by rewrite Z.mul_comm, Z.testbit_even_0.
  - replace k with (Z.succ (k - 1)) at 1 by lia. rewrite Z.mul_comm. apply Z.testbit_even_succ. lia.
Qed.

(** ** Logical shifts *)

Lemma lsl_loop_eq n r c : 0 <= r < 2 ^ w → lsl_loop n mask msb r c =
  (uN w (r * 2 ^ Z.of_nat n), if (n =? 0)%nat then c else flag (Z.testbit r (w - Z.of_nat n)) M68K_FLAG_XC).
Proof.
  pose proof (w_pos size Hsize) as Hw. revert r c. induction n as [|n IH]; intros r c Hr; cbn [lsl_loop].
  - cbn. by rewrite Z.mul_1_r, uN_small.
  - rewrite double_uN, IH by (apply uN_range; lia). cbn [Nat.eqb]. f_equal.
    + unfold uN. rewrite Zmult_mod_idemp_l. f_equal. rewrite Nat2Z.inj_succ, Z.pow_succ_r by lia. lia.
    + rewrite bit_msb. destruct (Nat.eqb_spec n 0) as [->|]; [done|]. f_equal.
      destruct (Z.lt_ge_cases (w - Z.of_nat n) 0); [by rewrite !Z.testbit_neg_r by lia|].
      rewrite testbit_uN, testbit_double by lia. f_equal. lia.
Qed.

Lemma lsr_loop_eq n r c : lsr_loop n r c =
  (r ≫ Z.of_nat n, if (n =? 0)%nat then c else flag (Z.testbit r (Z.of_nat n - 1)) M68K_FLAG_XC).
Proof.
  revert r c. induction n as [|n IH]; intros r c; cbn [lsr_loop]; [by rewrite Z.shiftr_0_r|].
  rewrite IH, bit_low. cbn [Nat.eqb]. f_equal.
  - rewrite Z.shiftr_shiftr by lia. f_equal. lia.
  - destruct (Nat.eqb_spec n 0) as [E|]; [by rewrite E|]. rewrite Z.shiftr_spec by lia. do 2 f_equal. lia.
Qed.

(** ** Arithmetic shifts *)

Lemma sN_range r : - 2 ^ (w - 1) <= sN w r < 2 ^ (w - 1).
Proof.
  pose proof (w_pos size Hsize) as Hw. destruct (pow_half w Hw). pose proof (uN_range w r ltac:(lia)). rewrite sN_neg by lia. unfold neg.
  destruct (Z.leb_spec (2 ^ (w - 1)) (uN w r)); lia.
Qed.

Lemma sN_of z : - 2 ^ (w - 1) <= z < 2 ^ (w - 1) → sN w (uN w z) = z.
Proof.
  pose proof (w_pos size Hsize) as Hw. destruct (pow_half w Hw). intros Hz. rewrite sN_neg, uN_idem by lia.
  assert (uN w z = z + if z <? 0 then 2 ^ w else 0) as ->.
  { destruct (Z.ltb_spec z 0); [rewrite (uN_turn w z 1) by lia|rewrite (uN_turn w z 0) by lia]; lia. }
  unfold neg. destruct (Z.ltb_spec z 0); [|]; match goal with |- context [?a <=? ?b] => destruct (Z.leb_spec a b) end; lia.
Qed.

Lemma uN_sN r : uN w (sN w r) = uN w r.
Proof.
  pose proof (w_pos size Hsize) as Hw. rewrite sN_neg by lia. pose proof (uN_range w r ltac:(lia)).
  destruct (neg w (uN w r)); [rewrite (uN_turn w _ 1) by lia|rewrite Z.sub_0_r, uN_idem by lia]; lia.
Qed.

Lemma testbit_sN r k : k < w → Z.testbit (sN w r) k = Z.testbit r k.
Proof.
  intros Hk. destruct (Z.lt_ge_cases k 0); [by rewrite !Z.testbit_neg_r by lia|].
  rewrite <- (testbit_uN w (sN w r)), uN_sN by lia. by apply testbit_uN.
Qed.

(** One place to the right keeps the sign. *)
Lemma asr_step r : 0 <= r < 2 ^ w → (r ≫ 1) .| flag (neg w r) msb = uN w (sN w r ≫ 1) ∧ neg w (uN w (sN w r ≫ 1)) = neg w r.
Proof.
  pose proof (w_pos size Hsize) as Hw. intros Hr. destruct (pow_half w Hw) as [Hp Hh]. destruct (size_width size Hsize) as (_ & _ & Hm & _).
  rewrite !Z.shiftr_div_pow2 by lia. change (2 ^ 1) with 2. rewrite sN_neg, (uN_small w r) by done.
  pose proof (Z.div_pos r 2 ltac:(lia) ltac:(lia)). pose proof (Z.div_lt_upper_bound r 2 (2 ^ (w - 1)) ltac:(lia) ltac:(lia)).
  destruct (neg w r) eqn:En; cbn [flag]; unfold neg in En.
  - assert ((r - 2 ^ w) / 2 = r / 2 - 2 ^ (w - 1)) as Hd.
    { replace (r - 2 ^ w) with (r + (- 2 ^ (w - 1)) * 2) by lia. rewrite Z.div_add by lia. lia. }
    rewrite Hd, (uN_turn w _ 1) by lia. split.
    + rewrite <- Z.add_nocarry_lor; [rewrite Hm; lia|]. apply Z.bits_inj'. intros k Hk. rewrite Z.land_spec, Z.bits_0, Hm, Z.pow2_bits_eqb by lia.
      destruct (Z.eqb_spec (w - 1) k) as [<-|]; [|apply andb_false_r]. rewrite <- (Z.mod_small (r / 2) (2 ^ (w - 1))) by lia.
      by rewrite Z.mod_pow2_bits_high by lia.
    + unfold neg. apply Z.leb_le. apply Z.leb_le in En. pose proof (Z.div_pos r 2). lia.
  - rewrite Z.sub_0_r, Z.lor_0_r, (uN_small w) by lia. split; [done|]. unfold neg. apply Z.leb_gt. lia.
Qed.

Lemma asr_loop_eq n r c : 0 <= r < 2 ^ w → asr_loop n (neg w r) msb r c =
  (uN w (sN w r ≫ Z.of_nat n), if (n =? 0)%nat then c else flag (Z.testbit (sN w r) (Z.of_nat n - 1)) M68K_FLAG_XC).
Proof.
  pose proof (w_pos size Hsize) as Hw. destruct (pow_half w Hw). revert r c. induction n as [|n IH]; intros r c Hr; cbn [asr_loop].
  - cbn. by rewrite Z.shiftr_0_r, uN_sN, uN_small.
  - destruct (asr_step r Hr) as [-> Hn]. rewrite <- Hn at 1. rewrite IH by (apply uN_range; lia). rewrite bit_low. pose proof (sN_range r).
    assert (sN w (uN w (sN w r ≫ 1)) = sN w r ≫ 1) as ->.
    { apply sN_of. rewrite Z.shiftr_div_pow2 by lia. change (2 ^ 1) with 2. split; [apply Z.div_le_lower_bound|apply Z.div_lt_upper_bound]; lia. }
    cbn [Nat.eqb]. f_equal.
    + rewrite Z.shiftr_shiftr by lia. do 2 f_equal. lia.
    + destruct (Nat.eqb_spec n 0) as [E|]; [rewrite E; by rewrite testbit_sN by lia|]. rewrite Z.shiftr_spec by lia. do 2 f_equal. lia.
Qed.

Lemma asl_step r : 0 <= r < 2 ^ w →
  negb (eqb (neg w (uN w (r * 2))) (neg w r)) = negb (fits w (sN w r * 2)) ∧ (fits w (sN w r * 2) = true → sN w (uN w (r * 2)) = sN w r * 2).
Proof.
  pose proof (w_pos size Hsize) as Hw. intros Hr. destruct (pow_half w Hw) as [Hp Hh]. rewrite !sN_neg, uN_idem, (uN_small w r) by (done || lia).
  assert (uN w (r * 2) = r * 2 - if 2 ^ w <=? r * 2 then 2 ^ w else 0) as ->.
  { destruct (Z.leb_spec (2 ^ w) (r * 2)); [rewrite (uN_turn w _ (-1)) by lia|rewrite (uN_turn w _ 0) by lia]; lia. }
  unfold neg, fits. destruct (Z.leb_spec (2 ^ w) (r * 2)), (Z.leb_spec (2 ^ (w - 1)) r); try lia;
    repeat match goal with |- context [?a <=? ?b] => destruct (Z.leb_spec a b) | |- context [?a <? ?b] => destruct (Z.ltb_spec a b) end;
    cbn; try lia; (split; [done|]); intros; try done; lia.
Qed.

Lemma fits_double z m : 0 < m → fits w (z * 2) = false → fits w (z * (2 * m)) = false.
Proof.
  pose proof (w_pos size Hsize) as Hw. destruct (pow_half w Hw) as [Hp Hh]. unfold fits. intros Hm.
  rewrite !andb_false_iff, !Z.leb_gt, !Z.ltb_ge. intros [H|H]; [left|right]; nia.
Qed.

Lemma asl_loop_eq n r c v : 0 <= r < 2 ^ w → asl_loop n mask msb r c v =
  (uN w (r * 2 ^ Z.of_nat n), if (n =? 0)%nat then c else flag (Z.testbit r (w - Z.of_nat n)) M68K_FLAG_XC,
   v || negb (fits w (sN w r * 2 ^ Z.of_nat n))).
Proof.
  pose proof (w_pos size Hsize) as Hw. destruct (pow_half w Hw) as [Hp Hh]. revert r c v. induction n as [|n IH]; intros r c v Hr.
  - cbn -[fits]. rewrite !Z.mul_1_r, uN_small by done. f_equal. pose proof (sN_range r).
    assert (fits w (sN w r) = true) as -> by (unfold fits; apply andb_true_iff; split; [apply Z.leb_le|apply Z.ltb_lt]; lia).
    by destruct v.
  - pose proof (lsl_loop_eq (S n) r c Hr) as Hl. cbn [lsl_loop asl_loop] in *. cbn zeta. rewrite !double_uN in *. pose proof (uN_range w (r * 2) ltac:(lia)) as Hr2.
    rewrite lsl_loop_eq in Hl by done. injection Hl as Hl1 Hl2. rewrite IH, Hl1, Hl2 by done. f_equal.
    rewrite !bset_msb, (uN_idem w (r * 2)), (uN_small w r) by (done || lia). destruct (asl_step r Hr) as [E1 E2].
    rewrite (Nat2Z.inj_succ n), Z.pow_succ_r by lia. rewrite E1. destruct (fits w (sN w r * 2)) eqn:Ef.
    + cbn [negb]. rewrite (E2 eq_refl). do 3 f_equal. lia.
    + cbn [negb]. rewrite fits_double by (done || lia). by rewrite orb_true_r.
Qed.

(** ** Rotations *)

Lemma rol_step r : 0 <= r < 2 ^ w → let r' := ((r ≪ 1) .& mask) .| flag (bset r msb) 1 in
  0 <= r' < 2 ^ w ∧ ∀ k, 0 <= k < w → Z.testbit r' k = Z.testbit r ((k - 1) mod w).
Proof.
  pose proof (w_pos size Hsize) as Hw. intros Hr. cbn zeta. destruct (pow_half w Hw). rewrite double_uN, bit_msb. pose proof (uN_range w (r * 2) ltac:(lia)). split.
  - apply lor_below; [done|]. destruct (Z.testbit r (w - 1)); cbn; lia.
  - intros k Hk. rewrite Z.lor_spec, testbit_flag, testbit_uN, testbit_double by done. destruct (Z.eq_dec k 0) as [->|].
    + rewrite Z.testbit_neg_r by lia. cbn [orb Z.testbit]. rewrite andb_true_r. f_equal. apply (Z.mod_unique _ _ (-1)); lia.
    + rewrite Z.mod_small by lia. assert (Z.testbit 1 k = false) as ->; [|by rewrite andb_false_r, orb_false_r].
      change 1 with (2 ^ 0). rewrite Z.pow2_bits_eqb by lia. apply Z.eqb_neq. lia.
Qed.

Lemma ror_step r : 0 <= r < 2 ^ w → let r' := (r ≫ 1) .| flag (bset r 1) msb in
  0 <= r' < 2 ^ w ∧ ∀ k, 0 <= k < w → Z.testbit r' k = Z.testbit r ((k + 1) mod w).
Proof.
  pose proof (w_pos size Hsize) as Hw. intros Hr. cbn zeta. destruct (pow_half w Hw). destruct (size_width size Hsize) as (_ & _ & Hm & _).
  rewrite bit_low. split.
  - apply lor_below.
    + rewrite Z.shiftr_div_pow2 by lia. change (2 ^ 1) with 2. split; [apply Z.div_pos|apply Z.div_lt_upper_bound]; lia.
    + rewrite Hm. destruct (Z.testbit r 0); cbn; lia.
  - intros k Hk. rewrite Z.lor_spec, testbit_flag, Z.shiftr_spec, Hm, Z.pow2_bits_eqb by lia. destruct (Z.eqb_spec (w - 1) k) as [<-|].
    + replace (w - 1 + 1) with w by lia. rewrite Z.mod_same by lia. rewrite <- (Z.mod_small r (2 ^ w)) at 1 by done.
      rewrite Z.mod_pow2_bits_high by lia. by rewrite andb_true_r.
    + rewrite (Z.mod_small (k + 1)) by lia. by rewrite andb_false_r, orb_false_r.
Qed.

Lemma ro_loop_bits n left r : 0 <= r < 2 ^ w → let r' := ro_loop n left mask msb r in
  0 <= r' < 2 ^ w ∧ ∀ k, 0 <= k < w → Z.testbit r' k = Z.testbit r ((if left then k - Z.of_nat n else k + Z.of_nat n) mod w).
Proof.
  pose proof (w_pos size Hsize) as Hw. revert r. induction n as [|n IH]; intros r Hr; cbn [ro_loop].
  - split; [done|]. intros k Hk. destruct left; rewrite Z.mod_small by (cbn; lia); f_equal; cbn; lia.
  - destruct left.
    + destruct (rol_step r Hr) as [H1 H2]. destruct (IH _ H1) as [H3 H4]. split; [done|]. intros k Hk. rewrite H4 by done.
      rewrite H2 by (apply Z.mod_pos_bound; lia). rewrite Zminus_mod_idemp_l. do 2 f_equal. lia.
    + destruct (ror_step r Hr) as [H1 H2]. destruct (IH _ H1) as [H3 H4]. split; [done|]. intros k Hk. rewrite H4 by done.
      rewrite H2 by (apply Z.mod_pos_bound; lia). rewrite Zplus_mod_idemp_l. do 2 f_equal. lia.
Qed.

(** Bit [k] of the value with the extend flag above it. *)
Definition wide_bit (r : Z) (x : bool) (k : Z) : bool := if k =? w then x else Z.testbit r k.

Lemma roxl_step r x : 0 <= r < 2 ^ w → let r' := ((r ≪ 1) .& mask) .| flag x 1 in
  0 <= r' < 2 ^ w ∧ ∀ k, 0 <= k <= w → wide_bit r' (bset r msb) k = wide_bit r x ((k - 1) mod (w + 1)).
Proof.
  pose proof (w_pos size Hsize) as Hw. intros Hr. cbn zeta. destruct (pow_half w Hw). rewrite double_uN, bit_msb.
  pose proof (uN_range w (r * 2) ltac:(lia)). split; [apply lor_below; [done|]; destruct x; cbn; lia|].
  intros k Hk. unfold wide_bit. destruct (Z.eqb_spec k w) as [->|].
  - rewrite Z.mod_small by lia. destruct (Z.eqb_spec (w - 1) w); [lia|done].
  - rewrite Z.lor_spec, testbit_flag, testbit_uN, testbit_double by lia. destruct (Z.eq_dec k 0) as [->|].
    + assert ((0 - 1) mod (w + 1) = w) as -> by (symmetry; apply (Z.mod_unique _ _ (-1)); lia). rewrite Z.eqb_refl, Z.testbit_neg_r by lia.
      cbn [orb Z.testbit]. apply andb_true_r.
    + rewrite Z.mod_small by lia. destruct (Z.eqb_spec (k - 1) w); [lia|]. assert (Z.testbit 1 k = false) as ->; [|by rewrite andb_false_r, orb_false_r].
      change 1 with (2 ^ 0). rewrite Z.pow2_bits_eqb by lia. apply Z.eqb_neq. lia.
Qed.

Lemma roxr_step r x : 0 <= r < 2 ^ w → let r' := (r ≫ 1) .| flag x msb in
  0 <= r' < 2 ^ w ∧ ∀ k, 0 <= k <= w → wide_bit r' (bset r 1) k = wide_bit r x ((k + 1) mod (w + 1)).
Proof.
  pose proof (w_pos size Hsize) as Hw. intros Hr. cbn zeta. destruct (pow_half w Hw). destruct (size_width size Hsize) as (_ & _ & Hm & _).
  rewrite bit_low. split.
  - apply lor_below; [|rewrite Hm; destruct x; cbn; lia].
    rewrite Z.shiftr_div_pow2 by lia. change (2 ^ 1) with 2. split; [apply Z.div_pos|apply Z.div_lt_upper_bound]; lia.
  - intros k Hk. unfold wide_bit. destruct (Z.eqb_spec k w) as [->|].
    + rewrite Z.mod_same by lia. destruct (Z.eqb_spec 0 w); [lia|done].
    + rewrite Z.mod_small by lia. rewrite Z.lor_spec, testbit_flag, Z.shiftr_spec, Hm, Z.pow2_bits_eqb by lia.
      destruct (Z.eqb_spec (k + 1) w) as [E|].
      * assert (w - 1 = k) as -> by lia. rewrite Z.eqb_refl, andb_true_r. rewrite <- (Z.mod_small r (2 ^ w)) by done.
        by rewrite Z.mod_pow2_bits_high by lia.
      * destruct (Z.eqb_spec (w - 1) k); [lia|]. by rewrite andb_false_r, orb_false_r.
Qed.

Lemma rox_loop_bits n left r x : 0 <= r < 2 ^ w → let '(r', x') := rox_loop n left mask msb r x in
  0 <= r' < 2 ^ w ∧ ∀ k, 0 <= k <= w → wide_bit r' x' k = wide_bit r x ((if left then k - Z.of_nat n else k + Z.of_nat n) mod (w + 1)).
Proof.
  pose proof (w_pos size Hsize) as Hw. revert r x. induction n as [|n IH]; intros r x Hr; cbn [rox_loop].
  - split; [done|]. intros k Hk. destruct left; rewrite Z.mod_small by (cbn; lia); f_equal; cbn; lia.
  - destruct left.
    + destruct (roxl_step r x Hr) as [H1 H2]. specialize (IH _ (bset r msb) H1). destruct (rox_loop n _ _ _ _ _) as [r' x'].
      destruct IH as [H3 H4]. split; [done|]. intros k Hk. pose proof (Z.mod_pos_bound (k - Z.of_nat n) (w + 1) ltac:(lia)).
      rewrite H4, H2 by lia. rewrite Zminus_mod_idemp_l. do 2 f_equal. lia.
    + destruct (roxr_step r x Hr) as [H1 H2]. specialize (IH _ (bset r 1) H1). destruct (rox_loop n _ _ _ _ _) as [r' x'].
      destruct IH as [H3 H4]. split; [done|]. intros k Hk. pose proof (Z.mod_pos_bound (k + Z.of_nat n) (w + 1) ltac:(lia)).
      rewrite H4, H2 by lia. rewrite Zplus_mod_idemp_l. do 2 f_equal. lia.
Qed.

End Sized.

(** C19. The shift instructions do by single places what they stand for: ASL and
    LSL multiply by a power of two, LSR and ASR divide the unsigned and the
    signed value rounding down, RO rotates the bits of the operand and ROX those
    of the operand with the extend flag.  Carry is the last bit shifted out; X
    follows it except in the plain rotates, which keep it; ASL reports overflow
    exactly when the product does not fit. *)
Theorem m68k_shifts_correct size val sr n : is_size size → let w := width size in 0 <= val < 2 ^ w → 0 < n < 64 →
  reg_shift 0 true n size val sr =
    (flag (Z.testbit val (w - n)) M68K_FLAG_XC .| flag (negb (fits w (sN w val * 2 ^ n))) M68K_FLAG_V, uN w (val * 2 ^ n)) ∧
  reg_shift 0 false n size val sr = (flag (Z.testbit (sN w val) (n - 1)) M68K_FLAG_XC, uN w (sN w val ≫ n)) ∧
  reg_shift 1 true n size val sr = (flag (Z.testbit val (w - n)) M68K_FLAG_XC, uN w (val * 2 ^ n)) ∧
  reg_shift 1 false n size val sr = (flag (Z.testbit val (n - 1)) M68K_FLAG_XC, val ≫ n) ∧
  (∀ left, let '(ccr, r) := reg_shift 2 left n size val sr in ∃ x, ccr = flag x M68K_FLAG_XC ∧ 0 <= r < 2 ^ w ∧
     ∀ k, 0 <= k <= w → wide_bit size r x k = wide_bit size val (bset sr M68K_FLAG_X) ((if left then k - n else k + n) mod (w + 1))) ∧
  (∀ left, let '(ccr, r) := reg_shift 3 left n size val sr in
     ccr = (sr .& M68K_FLAG_X) .| flag (Z.testbit r (if left then 0 else w - 1)) M68K_FLAG_C ∧ 0 <= r < 2 ^ w ∧
     ∀ k, 0 <= k < w → Z.testbit r k = Z.testbit val ((if left then k - n else k + n) mod w)).
Proof.
  intros Hs w Hv Hn. pose proof (w_pos size Hs) as Hw. unfold reg_shift. cbn zeta. rewrite (proj2 (Z.eqb_neq n 0)) by lia.
  assert ((Z.to_nat n =? 0)%nat = false) as Hz by (apply Nat.eqb_neq; lia). assert (Z.of_nat (Z.to_nat n) = n) as Hnn by lia.
  split_and!.
  - rewrite asl_loop_eq by done. by rewrite Hz, Hnn.
  - rewrite (bset_msb size Hs), (uN_small _ val), asr_loop_eq by done. rewrite Hz, Hnn, (mask_uN size Hs). f_equal. apply uN_idem. lia.
  - rewrite lsl_loop_eq by done. by rewrite Hz, Hnn.
  - rewrite lsr_loop_eq. by rewrite Hz, Hnn.
  - intros left. pose proof (rox_loop_bits size Hs (Z.to_nat n) left val (bset sr M68K_FLAG_X) Hv) as H. destruct (rox_loop _ _ _ _ _ _) as [r x].
    rewrite Hnn in H. destruct H as [H1 H2]. exists x. split; [done|]. by split.
  - intros left. destruct (ro_loop_bits size Hs (Z.to_nat n) left val Hv) as [H1 H2]. rewrite Hnn in H2. split; [|by split].
    f_equal. f_equal. destruct left; [apply bset_1|by apply bit_msb].
Qed.

Lemma m68k_shifts_correct_witness : reg_shift 1 true 3 1 0x9001 0 = (0, 0x8008) ∧
  reg_shift 1 true 3 1 0x9001 0 = (flag (Z.testbit 0x9001 (width 1 - 3)) M68K_FLAG_XC, uN (width 1) (0x9001 * 2 ^ 3)).
Proof. split; [done|]. apply (m68k_shifts_correct 1 0x9001 0 3); [by right; left|by split|by split]. Defined.
