(* ===== verification/M68kMovem.v ===== *)
(** * M68kMovem: saved registers come back

    Memory of the 68000 core as a store of big-endian words, and MOVEM: what the
    pre-decrement form saves the post-increment form restores. *)

From S2P Require Import Prelude Bits M68k M68kAlu M68kRun M68kFacts M68kAluFacts.
#[local] Open Scope c_scope.

Section Movem.
Context {C : Type}.
Implicit Types s : m68k_state_t C.

(** [addr] names memory directly, with room for a long word. *)
Definition plain s (addr : Z) : Prop := m68k_addr addr s = addr.

Lemma plain_in s addr k : 0 <= k < 32 → m_mem_size s = 2 ^ k → 0 <= addr < m_mem_size s → plain s addr.
Proof.
  intros Hk Hm Ha. unfold plain, m68k_addr. rewrite Hm in *. pose proof (Z.pow_lt_mono_r 2 k 32 ltac:(lia) ltac:(lia) ltac:(lia)).
  rewrite (uN_small 32) by lia. replace (2 ^ k - 1) with (Z.ones k) by (rewrite Z.ones_equiv; lia).
  rewrite Z.land_ones by lia. by apply Z.mod_small.
Qed.

(** ** Long words in memory *)

Lemma read32_at s addr : plain s addr → m68k_read32 addr s =
  ((m_memory s addr ≪ 24) .| (m_memory s (addr + 1) ≪ 16) .| (m_memory s (addr + 2) ≪ 8) .| m_memory s (addr + 3), s).
Proof. intros Hp. unfold m68k_read32, gets. cbn zeta. by rewrite Hp. Qed.

Lemma write32_at s addr v : plain s addr → m68k_write32 addr v s =
  (tt, upd_memory (store8 (addr + 3) (v .& 0xFF) (store8 (addr + 2) ((v ≫ 8) .& 0xFF)
    (store8 (addr + 1) ((v ≫ 16) .& 0xFF) (store8 addr (v ≫ 24) (m_memory s))))) s).
Proof. intros Hp. unfold m68k_write32, modify. cbn zeta. by rewrite Hp. Qed.

Lemma store8_same i v f : store8 i v f i = u8 v.
Proof. unfold store8. by rewrite Z.eqb_refl. Qed.
Lemma store8_other i j v f : j ≠ i → store8 i v f j = f j.
Proof. intros. unfold store8. by rewrite (proj2 (Z.eqb_neq j i)). Qed.

(** The four bytes of a long word put together. *)
Lemma long_bytes v : word32 v → (u8 (v ≫ 24) ≪ 24) .| (u8 ((v ≫ 16) .& 0xFF) ≪ 16) .| (u8 ((v ≫ 8) .& 0xFF) ≪ 8) .| u8 (v .& 0xFF) = v.
Proof.
  intros Hv. rewrite !land_ff, !(uN_idem 8) by lia. apply Z.bits_inj'. intros k Hk. rewrite !Z.lor_spec.
  assert (∀ n, 0 <= n → Z.testbit (u8 (v ≫ n) ≪ n) k = (n <=? k) && (k <? n + 8) && Z.testbit v k) as Hb.
  { intros n Hn. destruct (Z.leb_spec n k); [|by rewrite Z.shiftl_spec_low]. rewrite Z.shiftl_spec by lia. destruct (Z.ltb_spec k (n + 8)).
    - rewrite testbit_uN, Z.shiftr_spec by lia. cbn. f_equal. lia.
    - unfold uN. by rewrite Z.mod_pow2_bits_high by lia. }
  pose proof (Hb 0 ltac:(lia)) as H0. rewrite Z.shiftr_0_r, Z.shiftl_0_r in H0. rewrite !Hb, H0 by lia.
  destruct (Z.lt_ge_cases k 32).
  - destruct (Z.leb_spec 24 k), (Z.leb_spec 16 k), (Z.leb_spec 8 k), (Z.leb_spec 0 k), (Z.ltb_spec k (24 + 8)), (Z.ltb_spec k (16 + 8)), (Z.ltb_spec k (8 + 8)), (Z.ltb_spec k (0 + 8));
      try lia; cbn; by destruct (Z.testbit v k).
  - rewrite <- (Z.mod_small v (2 ^ 32)) by done. rewrite !Z.mod_pow2_bits_high by lia. by rewrite !andb_false_r.
Qed.

Lemma write32_memory s addr v x : plain s addr → m_memory (m68k_write32 addr v s).2 x =
  if decide (addr <= x < addr + 4) then m_memory (m68k_write32 addr v s).2 x else m_memory s x.
Proof.
  intros Hp. case_decide; [done|]. rewrite write32_at by done. cbn. by rewrite !store8_other by lia.
Qed.

(** A stored long word is read back wherever its bytes are still there. *)
Lemma read_back s s' addr v : word32 v → plain s addr → plain s' addr →
  (∀ x, addr <= x < addr + 4 → m_memory s' x = m_memory (m68k_write32 addr v s).2 x) → (m68k_read32 addr s').1 = v.
Proof.
  intros Hv Hp Hp' Hm. rewrite read32_at by done. cbn [fst]. rewrite !Hm by lia. rewrite write32_at by done. cbn [snd m_memory upd_memory].
  rewrite store8_same, (store8_other (addr + 3) (addr + 2)), store8_same by lia.
  rewrite (store8_other (addr + 3) (addr + 1)), (store8_other (addr + 2) (addr + 1)), store8_same by lia.
  rewrite (store8_other (addr + 3) addr), (store8_other (addr + 2) addr), (store8_other (addr + 1) addr), store8_same by lia. by apply long_bytes.
Qed.

(** ** The transfers *)

(** Register [j] of the order D0 to D7, A0 to A7. *)
Definition reg s (j : Z) : Z := if j <? 8 then m_d s !!! Z.to_nat j else m_a s !!! Z.to_nat (j - 8).

(** Registers whose bit is set in [mask] below [n]. *)
Fixpoint selected (n : nat) (mask : Z) : Z :=
  match n with O => 0 | S n => selected n mask + ind (Z.testbit mask (Z.of_nat n)) end.

Lemma selected_range n mask : 0 <= selected n mask <= Z.of_nat n.
Proof. induction n; cbn [selected]; [lia|]. pose proof (ind_range (Z.testbit mask (Z.of_nat n))). lia. Qed.

(** The mask of the pre-decrement form lists the registers downwards. *)
Definition mirrored (down up : Z) : Prop := ∀ i, 0 <= i < 16 → Z.testbit down i = Z.testbit up (15 - i).

Definition regs_ok s : Prop := length (m_d s) = 8%nat ∧ length (m_a s) = 8%nat.

Lemma movem_set_reg i v s j : 0 <= i < 16 → 0 <= j < 16 → regs_ok s →
  reg (movem_set i v s).2 j = (if decide (j = i) then u32 v else reg s j) ∧ regs_ok (movem_set i v s).2 ∧
  m_memory (movem_set i v s).2 = m_memory s ∧ m_mem_size (movem_set i v s).2 = m_mem_size s.
Proof.
  intros Hi Hj [Hd Ha]. unfold movem_set, reg. destruct (Z.ltb_spec i 8); cbn [snd wr_d wr_a modify m_d m_a upd_d upd_a m_memory m_mem_size].
  - unfold regs_ok. cbn. rewrite length_insert. split; [|done]. destruct (Z.ltb_spec j 8).
    + case_decide; [subst; rewrite list_lookup_total_insert_eq by lia; done|]. by rewrite list_lookup_total_insert_ne by lia.
    + rewrite decide_False by lia. done.
  - unfold regs_ok. cbn. rewrite length_insert. split; [|done]. destruct (Z.ltb_spec j 8); [by rewrite decide_False by lia|].
    case_decide; [subst; rewrite list_lookup_total_insert_eq by lia; done|]. by rewrite list_lookup_total_insert_ne by lia.
Qed.

(** One register loaded. *)
Definition load_one (i addr : Z) s : m68k_state_t C := (movem_set i (m68k_read32 addr s).1 s).2.

Lemma load_step n i mask addr s : movem_load (S n) i mask addr M68K_SIZE_LONG s =
  if Z.testbit mask i then movem_load n (i + 1) mask (u32 (addr + 4)) M68K_SIZE_LONG (load_one i addr s)
  else movem_load n (i + 1) mask addr M68K_SIZE_LONG s.
Proof. cbn [movem_load]. destruct (Z.testbit mask i); [|done]. unfold load_one, movem_set. by destruct (i <? 8). Qed.

Lemma load_snoc n i mask addr s : movem_load (S n) i mask addr M68K_SIZE_LONG s =
  let '(addr, s) := movem_load n i mask addr M68K_SIZE_LONG s in movem_load 1 (i + Z.of_nat n) mask addr M68K_SIZE_LONG s.
Proof.
  revert i addr s. induction n as [|n IH]; intros i addr s.
  - cbn [movem_load]. unfold mret, M_ret. by rewrite Z.add_0_r.
  - rewrite (load_step (S n)), (load_step n i). replace (i + Z.of_nat (S n)) with (i + 1 + Z.of_nat n) by lia.
    by destruct (Z.testbit mask i); rewrite IH.
Qed.

(** One register stored. *)
Lemma store_step n i mask addr s : movem_store_down (S n) i mask addr M68K_SIZE_LONG s =
  if Z.testbit mask i then
    movem_store_down n (i + 1) mask (u32 (addr - 4)) M68K_SIZE_LONG (m68k_write32 (u32 (addr - 4)) (if i <? 8 then m_a s !!! Z.to_nat (7 - i) else m_d s !!! Z.to_nat (15 - i)) s).2
  else movem_store_down n (i + 1) mask addr M68K_SIZE_LONG s.
Proof. cbn [movem_store_down]. destruct (Z.testbit mask i); [|done]. by destruct (i <? 8). Qed.

Lemma down_reg s i : 0 <= i < 16 → (if i <? 8 then m_a s !!! Z.to_nat (7 - i) else m_d s !!! Z.to_nat (15 - i)) = reg s (15 - i).
Proof. intros Hi. unfold reg. destruct (Z.ltb_spec i 8), (Z.ltb_spec (15 - i) 8); try lia; do 2 f_equal; lia. Qed.

Context (k : Z) (Hk : 2 < k < 32).

(** [s'] holds in its memory below [top] what [s] does, as far as [bottom]. *)
Definition agree (bottom top : Z) s s' : Prop := ∀ x, bottom <= x < top → m_memory s' x = m_memory s x.

Definition sized s : Prop := m_mem_size s = 2 ^ k.

Lemma sized_plain s addr : sized s → 0 <= addr < 2 ^ k → plain s addr.
Proof. intros Hs Ha. apply (plain_in s addr k); rewrite ?Hs; [lia|done|lia]. Qed.

Lemma write32_regs addr v s : m_d (m68k_write32 addr v s).2 = m_d s ∧ m_a (m68k_write32 addr v s).2 = m_a s ∧
  m_mem_size (m68k_write32 addr v s).2 = m_mem_size s.
Proof. done. Qed.

Lemma store_down_spec n down up addr s : mirrored down up → (n <= 16)%nat → sized s → 4 * Z.of_nat n <= addr <= 2 ^ k →
  (∀ j, 0 <= j < 16 → word32 (reg s j)) →
  let '(bottom, s1) := movem_store_down n (16 - Z.of_nat n) down addr M68K_SIZE_LONG s in
  bottom = addr - 4 * selected n up ∧ sized s1 ∧ m_d s1 = m_d s ∧ m_a s1 = m_a s ∧
  (∀ x, ¬ bottom <= x < addr → m_memory s1 x = m_memory s x) ∧
  ∀ s2, sized s2 → regs_ok s2 → agree bottom addr s1 s2 →
    let '(top, s3) := movem_load n 0 up bottom M68K_SIZE_LONG s2 in
    top = addr ∧ sized s3 ∧ regs_ok s3 ∧ m_memory s3 = m_memory s2 ∧
    ∀ j, 0 <= j < 16 → reg s3 j = if Z.testbit up j && (j <? Z.of_nat n) then reg s j else reg s2 j.
Proof.
  intros Hm. revert addr s. induction n as [|n IH]; intros addr s Hn Hs Ha Hw.
  - cbn [movem_store_down selected]. unfold mret, M_ret. split_and!; try done; [lia|]. intros s2 H1 H2 _. cbn [movem_load]. unfold mret, M_ret.
    split; [done|]. split; [done|]. split; [done|]. split; [done|]. intros j Hj. change (Z.of_nat 0) with 0.
    destruct (Z.ltb_spec j 0); [lia|]. by rewrite andb_false_r.
  - rewrite store_step, down_reg by lia. rewrite (Hm (16 - Z.of_nat (S n))) by lia.
    replace (15 - (16 - Z.of_nat (S n))) with (Z.of_nat n) by lia. replace (16 - Z.of_nat (S n) + 1) with (16 - Z.of_nat n) by lia.
    cbn [selected]. destruct (Z.testbit up (Z.of_nat n)) eqn:Eb; cbn [ind].
    + pose proof (Z.pow_lt_mono_r 2 k 32 ltac:(lia) ltac:(lia) ltac:(lia)). rewrite (uN_small 32 (addr - 4)) by lia.
      set (v := reg s (Z.of_nat n)). set (s0 := (m68k_write32 (addr - 4) v s).2).
      assert (plain s (addr - 4)) as Hp by (apply sized_plain; [done|lia]).
      specialize (IH (addr - 4) s0 ltac:(lia) Hs ltac:(lia) ltac:(done)). pose proof (selected_range n up) as Hsel.
      destruct (movem_store_down n _ _ _ _ s0) as [bottom s1]. destruct IH as (-> & I2 & I3 & I4 & I5 & I6). split_and!; try done; [lia| |].
      * intros x Hx. rewrite I5 by lia. unfold s0. rewrite write32_memory by done. by rewrite decide_False by lia.
      * intros s2 H2 Hr2 Hag. specialize (I6 s2 H2 Hr2 ltac:(intros x Hx; apply Hag; lia)). rewrite load_snoc.
        destruct (movem_load n 0 up _ _ s2) as [top s3]. destruct I6 as (-> & J2 & J3 & J4 & J5). rewrite load_step. rewrite Z.add_0_l, Eb.
        cbn [movem_load]. unfold mret, M_ret, load_one.
        assert ((m68k_read32 (addr - 4) s3).1 = v) as ->.
        { apply (read_back s); [apply Hw; lia|done|by apply sized_plain; [|lia]|]. intros x Hx. rewrite J4, Hag by lia. rewrite I5 by lia. done. }
        destruct (movem_set_reg (Z.of_nat n) v s3 0 ltac:(lia) ltac:(lia) J3) as (_ & K2 & K3 & K4).
        rewrite (uN_small 32) by lia. split_and!; [lia|by unfold sized; rewrite K4|apply K2..|by rewrite K3|].
        intros j Hj. destruct (movem_set_reg (Z.of_nat n) v s3 j ltac:(lia) Hj J3) as [-> _]. case_decide as D.
        { subst j. rewrite Eb. destruct (Z.ltb_spec (Z.of_nat n) (Z.of_nat (S n))); [|lia]. cbn [andb]. apply (uN_small 32). apply Hw. lia. }
        rewrite J5 by done. destruct (Z.ltb_spec j (Z.of_nat n)), (Z.ltb_spec j (Z.of_nat (S n))); try lia; done.
    + specialize (IH addr s ltac:(lia) Hs ltac:(lia) Hw).
      destruct (movem_store_down n _ _ _ _ s) as [bottom s1]. destruct IH as (-> & I2 & I3 & I4 & I5 & I6). rewrite Z.add_0_r. split_and!; try done.
      intros s2 H2 Hr2 Hag. specialize (I6 s2 H2 Hr2 Hag). rewrite load_snoc.
      destruct (movem_load n 0 up _ _ s2) as [top s3]. destruct I6 as (-> & J2 & J3 & J4 & J5). rewrite load_step. rewrite Z.add_0_l, Eb.
      cbn [movem_load]. unfold mret, M_ret. split_and!; try done; try apply J3. intros j Hj. rewrite J5 by done.
      destruct (Z.ltb_spec j (Z.of_nat n)), (Z.ltb_spec j (Z.of_nat (S n))); try lia; try done.
      assert (j = Z.of_nat n) as -> by lia. by rewrite Eb.
Qed.

Lemma reg_words s : m68k_ok s → regs_ok s ∧ ∀ j, 0 <= j < 16 → word32 (reg s j).
Proof.
  intros [[Hd Hd'] [Ha Ha'] _ _ _ _ _ _]. split; [done|]. intros j Hj. unfold reg. rewrite Forall_forall in Hd', Ha'.
  destruct (Z.ltb_spec j 8); [apply Hd'|apply Ha']; apply list_elem_of_lookup_total_2; lia.
Qed.

Lemma wr_a_reg i v s j : 0 <= i < 8 → 0 <= j < 16 → regs_ok s →
  reg (wr_a i v s).2 j = if decide (j = 8 + i) then u32 v else reg s j.
Proof.
  intros Hi Hj Hr. destruct (movem_set_reg (8 + i) v s j ltac:(lia) Hj Hr) as [H _]. rewrite <- H. unfold movem_set.
  destruct (Z.ltb_spec (8 + i) 8); [lia|]. by replace (8 + i - 8) with i by lia.
Qed.

(** The state after the mask has been fetched. *)
Definition fetched s : m68k_state_t C := (m68k_fetch16 s).2.
Definition next_word s : Z := (m68k_fetch16 s).1.

Lemma movem_store_eq ind opcode r s : movem_size opcode = M68K_SIZE_LONG → (op_movem_store ind opcode 4 r s).2 =
  let '(bottom, s1) := movem_store_down 16 0 (next_word s) (m_a s !!! Z.to_nat r) M68K_SIZE_LONG (fetched s) in (wr_a r bottom s1).2.
Proof.
  intros Hsz. unfold op_movem_store. rewrite Hsz. change (4 =? 4) with true. unfold mbind, M_bind at 1, next_word, fetched.
  change (m_a s) with (m_a (m68k_fetch16 s).2). destruct (m68k_fetch16 s) as [mask sf]. cbn [fst snd]. unfold rd_a, gets, M_bind at 1. cbn beta iota zeta.
  unfold M_bind at 1. by destruct (movem_store_down _ _ _ _ _ _).
Qed.

Lemma movem_load_eq ind opcode r s : movem_size opcode = M68K_SIZE_LONG → (op_movem_load ind opcode 3 r s).2 =
  let '(top, s1) := movem_load 16 0 (next_word s) (m_a s !!! Z.to_nat r) M68K_SIZE_LONG (fetched s) in (wr_a r top s1).2.
Proof.
  intros Hsz. unfold op_movem_load. rewrite Hsz. change (3 =? 3) with true. unfold mbind, M_bind at 1, next_word, fetched.
  change (m_a s) with (m_a (m68k_fetch16 s).2). destruct (m68k_fetch16 s) as [mask sf]. cbn [fst snd]. unfold rd_a, gets, M_bind at 1. cbn beta iota zeta.
  unfold M_bind at 1. by destruct (movem_load _ _ _ _ _ _).
Qed.

End Movem.

(** C20. What [MOVEM.L regs,-(An)] saves, [MOVEM.L (An)+,regs] restores.  The
    first leaves An below the saved long words and every other register as it
    was; and if, whatever happened to the registers since, An and the saved bytes
    are the same again, the second gives every register of the list its value
    back, An the value before both, and leaves memory and the other registers. *)
Theorem m68k_movem_roundtrip {C} ind k (s : m68k_state_t C) r store_op load_op up :
  2 < k < 32 → m68k_ok s → m_mem_size s = 2 ^ k → 0 <= r < 8 → movem_size store_op = M68K_SIZE_LONG → movem_size load_op = M68K_SIZE_LONG →
  mirrored (next_word s) up → let addr := m_a s !!! Z.to_nat r in 64 <= addr <= 2 ^ k →
  let s1 := (op_movem_store ind store_op 4 r s).2 in
  let bottom := addr - 4 * selected 16 up in
  (∀ j, 0 <= j < 16 → reg s1 j = if decide (j = 8 + r) then bottom else reg s j) ∧
  (∀ x, ¬ bottom <= x < addr → m_memory s1 x = m_memory s x) ∧
  ∀ s2, m68k_ok s2 → m_mem_size s2 = 2 ^ k → m_a s2 !!! Z.to_nat r = bottom → agree bottom addr s1 s2 → next_word s2 = up →
    let s3 := (op_movem_load ind load_op 3 r s2).2 in
    m_memory s3 = m_memory s2 ∧
    ∀ j, 0 <= j < 16 → reg s3 j = if decide (j = 8 + r) then addr else if Z.testbit up j then reg s j else reg s2 j.
Proof.
  intros Hk Hok Hsz Hr Hso Hlo Hmir addr Haddr s1 bottom. destruct (reg_words s Hok) as [Hro Hw].
  pose proof (Z.pow_lt_mono_r 2 k 32 ltac:(lia) ltac:(lia) ltac:(lia)) as Hp. pose proof (selected_range 16 up) as Hsel.
  pose proof (store_down_spec k Hk 16 (next_word s) up addr (fetched s) Hmir ltac:(lia) Hsz ltac:(lia) Hw) as H.
  change (16 - Z.of_nat 16) with 0 in H. unfold s1. rewrite movem_store_eq by done. fold addr.
  destruct (movem_store_down 16 0 _ _ _ _) as [b sb]. destruct H as (Hb & H2 & H3 & H4 & H5 & H6). fold bottom in Hb. subst b.
  assert (regs_ok sb) as Hrb by (unfold regs_ok; rewrite H3, H4; exact Hro). split; [|split].
  - intros j Hj. rewrite wr_a_reg by done. rewrite (uN_small 32 bottom) by (unfold bottom; lia). case_decide; [done|].
    unfold reg. by rewrite H3, H4.
  - intros x Hx. exact (H5 x Hx).
  - intros s2 Hok2 Hsz2 Ha2 Hag Hnw. destruct (reg_words s2 Hok2) as [Hro2 _].
    specialize (H6 (fetched s2) Hsz2 Hro2 Hag). cbn zeta. rewrite movem_load_eq by done. rewrite Ha2, Hnw.
    destruct (movem_load 16 0 _ _ _ _) as [top s3]. destruct H6 as (-> & J2 & J3 & J4 & J5). split; [exact J4|].
    intros j Hj. rewrite wr_a_reg by done. rewrite (uN_small 32 addr) by lia. case_decide; [done|]. rewrite J5 by done.
    destruct (Z.ltb_spec j (Z.of_nat 16)); [|lia]. by rewrite andb_true_r.
Qed.

(** Saves D0 to D7 and A0 to A6 on the stack and restores them. *)
Definition demo_save : m68k_state_t unit :=
  upd_a [1; 2; 3; 4; 5; 6; 7; 4096] (upd_d [10; 11; 12; 13; 14; 15; 16; 17]
    (ecpu_m68k_init (λ i, match i with 0 => 0xFF | 1 => 0xFE | 2 => 0x7F | 3 => 0xFF | _ => 0 end) 65536)).
Definition demo_saved : m68k_state_t unit := (op_movem_store 0 0x48E7 4 7 demo_save).2.

Lemma demo_save_ok : m68k_ok demo_save.
Proof.
  split; try done; [split; [done|]..| |]; try (repeat constructor; done).
  intros i. cbn. destruct i as [|[p|p|]|]; try done. all: repeat (destruct p as [p|p|]; try done).
Qed.

Lemma demo_mirrored : mirrored (next_word demo_save) 0x7FFF.
Proof.
  intros i Hi. assert (i = 0 ∨ i = 1 ∨ i = 2 ∨ i = 3 ∨ i = 4 ∨ i = 5 ∨ i = 6 ∨ i = 7 ∨ i = 8 ∨ i = 9 ∨ i = 10 ∨ i = 11 ∨ i = 12 ∨ i = 13 ∨ i = 14 ∨ i = 15) as H by lia.
  by repeat destruct H as [-> |H]; [..|subst i].
Qed.

Lemma m68k_movem_roundtrip_witness :
  (∀ j, 0 <= j < 16 → reg demo_saved j = if decide (j = 8 + 7) then 4096 - 4 * selected 16 0x7FFF else reg demo_save j) ∧
  (∀ x, ¬ 4096 - 4 * selected 16 0x7FFF <= x < 4096 → m_memory demo_saved x = m_memory demo_save x) ∧
  ∀ s2, m68k_ok s2 → m_mem_size s2 = 2 ^ 16 → m_a s2 !!! 7%nat = 4096 - 4 * selected 16 0x7FFF →
    agree (4096 - 4 * selected 16 0x7FFF) 4096 demo_saved s2 → next_word s2 = 0x7FFF →
    let s3 := (op_movem_load 0 0x4CDF 3 7 s2).2 in
    m_memory s3 = m_memory s2 ∧
    ∀ j, 0 <= j < 16 → reg s3 j = if decide (j = 8 + 7) then 4096 else if Z.testbit 0x7FFF j then reg demo_save j else reg s2 j.
Proof.
  exact (m68k_movem_roundtrip 0 16 demo_save 7 0x48E7 0x4CDF 0x7FFF ltac:(lia) demo_save_ok eq_refl ltac:(lia) eq_refl eq_refl
    demo_mirrored ltac:(vm_compute; by split)).
Defined.
